(* ===== verification/_CoqProject ===== *)
-Q . S2P
Prelude.v
Types.v
SignatureUtils.v
SigMachine.v
SigGrammar.v
SigBuild.v
Marshal.v
Typed.v
MarshalProofs.v
Unmarshal.v
UnmarshalSafe.v
Roundtrip.v
UnmarshalSig.v
BusUtil.v
StrSet.v
BusUtilProofs.v
Header.v
HeaderProofs.v
IPAddress.v
IPAddressProofs.v
IPv6Proofs.v
NameService.v
NameServiceProofs.v
NameServiceRoundtrip.v
StringUtil.v
GUID.v
NameTable.v
NameTableProofs.v
BigNum.v
BigNumProofs.v
BigNumMul.v
BigNumDiv.v
BigNumMonty.v
BigNumInv.v
BigNumText.v
BigNumTheorems.v
CryptoSRP.v
CryptoSRPProofs.v
SASL.v
SASLProofs.v
SASLSafety.v
SASLLive.v
EndpointAuth.v
EndpointAuthProofs.v
SASLTheorems.v
ASN1.v
ASN1Proofs.v
ASN1Theorems.v
Ardp.v
ArdpRcvProofs.v
ArdpQueueProofs.v
ArdpTheorems.v
ArdpState.v
ArdpConn.v
ArdpConnProofs.v
ArdpSendProofs.v
ArdpConnTheorems.v
ArdpHandshake.v
ArdpRuns.v
ArdpDelivery.v
MsgArgFormat.v
MsgArgFormatProofs.v
PermissionPolicy.v
PermissionPolicyProofs.v
PermissionManager.v
PermissionManagerProofs.v
RuleTable.v
RuleTableProofs.v
MessageGen.v
MessageGenProofs.v
Mdns.v
MdnsProofs.v
MdnsRoundtrip.v
MdnsText.v
