(* ===== verification/Prelude.v ===== *)
(** * Verification of the AllJoyn core

    AllJoyn is a message bus: applications exchange typed messages in the D-Bus
    wire format, routers forward them, and a name service announces who can be
    reached where. This library models the parts of its C++ sources that decide
    what bytes mean, and proves them correct or shows where they are not. Paths
    are below src/core/alljoyn: [core] is alljoyn_core, [common] is common.

    ** The program and its model

    A message carries arguments ([MsgArg]) whose types are written as a
    signature; applications set and get them with format strings (MsgArg.cc).
    Sending composes the signature (SignatureUtils.cc), computes the sizes of header
    and body and marshals the fields and the arguments (Message_Gen.cc); receiving
    interprets the fixed header, reads the header fields, checks them against
    the rules for names (BusUtil.cc) and parses the body by its signature
    (Message_Parse.cc). The name service exchanges packets of questions and
    answers (IpNsProtocol.cc) that carry addresses printed and parsed by
    IPAddress.cc. A router knows who owns which bus name (NameTable.cc). When an
    application connects to a router the two authenticate each other by lines of
    text (EndpointAuth.cc) that a state machine for each role composes and parses
    (SASLEngine.cc) and that end with the identifier of the router (GUID.cc).
    Peers that share a password agree on a key by the protocol of CryptoSRP.cc,
    which computes with the integers of BigNum.cc; certificates and keys travel in
    DER and base 64 (ASN1.cc). Routers that talk over UDP put a reliable protocol of
    their own on top of it, with a handshake, windows, extended acknowledgements,
    retransmission and messages that expire (core/router/ArdpProtocol.cc). Which
    messages a router sends to an endpoint is decided by match rules
    (core/router/RuleTable.cc), and which ones an application lets in and out by a
    policy (PermissionPolicy.cc, PermissionManager.cc).

    - [Types]: QStatus codes, AllJoynTypeId, and [MsgArg] with one constructor
      per kind of value (core/inc/alljoyn/MsgArg.h).
    - [SignatureUtils]: IsBasicType, ParseContainerSignature with its stack of 64
      entries, ParseCompleteType, CountCompleteTypes, IsValidSignature.
      [SigMachine]: the invariant of the stack machine; it never leaves its stack.
      [SigGrammar]: types as trees, their texts, and that the parser accepts
      exactly those texts within the nesting limits.
    - [SigBuild]: MakeSignature in its buffer of 256 characters, HasSignature,
      SetElements, AlignmentForType, GetSize.
    - [Marshal]: MarshalArgs, with the byte order and the duplication of
      descriptors (the operating system's) as parameters. [Typed]: well-typed
      arguments. [MarshalProofs]: the bytes written are those GetSize counted.
    - [Unmarshal]: ParseArray, ParseStruct, ParseDictEntry, ParseVariant,
      ParseSignature and ParseValue over a buffer of bytes. [UnmarshalSafe]: no
      read leaves the padded buffer and enough fuel is given. [Roundtrip]: parsing
      undoes marshaling. [UnmarshalSig]: the value has the signature consumed.
    - [BusUtil], [BusUtilProofs]: legal names, object paths, match rules and
      wildcards against their grammars.
      [StrSet]: ordered sets of strings.
    - [Header]: InterpretHeader, LoadBytes, the loop over the header fields in
      Unmarshal, PedanticCheck, HeaderChecks, the comparison of handle counts and
      UnmarshalArgs of messages that are not encrypted. [HeaderProofs]: the buffer
      is large enough, the safety of header and body for any bytes, and the round
      trip of a body.
    - [IPAddress], [IPAddressProofs], [IPv6Proofs]: printing and parsing of both
      address families, and that they are inverse: the class [AddrCodec].
    - [NameService], [NameServiceProofs], [NameServiceRoundtrip]: StringData,
      IsAt, WhoHas and NSPacket of versions zero and one; sizes, safety on
      received bytes, and the round trip, proved against [AddrCodec].
    - [Mdns]: version two of the name service in the same file: domain names with
      their compression, questions, resource records with each kind of data, text
      records ordered by Compare with what advertisements, searches, pings and senders
      keep in them, and _MDNSPacket. [MdnsProofs] (safety on received bytes, sizes),
      [MdnsRoundtrip] (a packet that is written is read back), [MdnsText] (an
      advertisement refines lists of names behind transports).

    - [StringUtil]: integers and bytes as text in both directions. [GUID]:
      identifiers with their texts, which are computed once and kept.
    - [NameTable], [NameTableProofs]: the router's table of unique names, aliases
      with their queues and virtual aliases, and its listeners; endpoints and the
      identifier of the router are parameters. What listeners are told refines
      the table; every operation returns.
    - [BigNum]: the digits and sign of a BigNum and every operation on them.
      [BigNumProofs] (value, comparison, sums, shifts), [BigNumMul] (products, bit
      positions, powers), [BigNumDiv] (long division), [BigNumMonty] (Montgomery
      multiplication and modular powers, with congruence as a setoid),
      [BigNumInv] (the inverse), [BigNumText] (bytes and hexadecimal text) and
      [BigNumTheorems], the refinement of the integers.
    - [CryptoSRP], [CryptoSRPProofs]: client and server of the password protocol
      over any hash function with digests of twenty bytes, their messages, and
      that both ends of an exchange get the same secret.
    - [SASL]: the engine of both roles (Response, Challenge, Advance), written
      against classes for what it calls: [AuthMechanism], [MechanismFactory] and
      [ExtensionHandler]. [SASLProofs] (lines and names), [SASLSafety] (the
      invariant of reachable states), [SASLLive] (two engines in dialogue) and
      [SASLTheorems]. [EndpointAuth], [EndpointAuthProofs]: the registry of
      mechanisms, two mechanisms and the extension commands as instances of these
      classes, and the loops of Establish on both sides of a pair of streams.
    - [ASN1]: base 64, length octets, object identifiers, and the encoder and
      decoder that follow a syntax string, with variable arguments as typed lists.
      [ASN1Proofs], [ASN1Theorems]: the parts and the trees of elements they
      carry, termination, and the limits of the decoder.
    - [Ardp]: the receiving side of an ARDP connection: the ring of buffers, the mask
      of extended acknowledgements, delivery and expiry. [ArdpRcvProofs] (the mask),
      [ArdpQueueProofs] (the ring against the stream of the sender) and
      [ArdpTheorems] (whatever arrives in whatever order).
    - [ArdpState], [ArdpConn]: a whole ARDP connection, as operations of a monad over
      its record: headers as bytes, the queue of sent segments, every timer handler,
      the state machine for arriving segments (ArdpMachine and Receive), and the
      calls of the transport (ARDP_Connect, ARDP_Accept, ARDP_Send, ARDP_RecvReady,
      ARDP_Disconnect). The times, AcceptCb, and what each write to the socket
      returns are arguments; what is written and called back is a list of events.
      [ArdpConnProofs] (what each operation leaves alone), [ArdpSendProofs] (a message
      as segments), [ArdpConnTheorems] (the states, and the segments as bytes),
      [ArdpHandshake] (two ends open), [ArdpRuns] (runs on numbers, and runs that end
      badly) and [ArdpDelivery] (a message from one end to the other).
    - [MsgArgFormat], [MsgArgFormatProofs]: arguments from format strings and
      variable arguments (Set, VBuildArgs, BuildArray) and back (Get, VParseArgs,
      ParseArray), GetElement, comparison, Clone and Stabilize; a relation between
      formats, values and arguments that both directions satisfy.
    - [PermissionPolicy], [PermissionPolicyProofs]: policies, their comparison, Export
      and Import with the keys of KeyInfoHelper.cc. [PermissionManager],
      [PermissionManagerProofs]: the decision on a message, from its header to the
      loops over lists, peers, rules and members; the answers of the key store and of
      the state of the peer are data.
    - [RuleTable], [RuleTableProofs]: match rules from and to text, matching, and the
      table of all endpoints with OkToSend.
    - [MessageGen], [MessageGenProofs]: a message with its buffer: MarshalHeaderFields,
      ComputeHeaderLen, MarshalMessage, ReMarshal, ClearHeader, IsExpired, and CallMsg,
      SignalMsg, ReplyMsg, ErrorMsg and HelloMessage. What they compose is read back by
      the functions of [Header]: the two halves of the wire format meet here.

    ** Conventions

    A byte, a character or a machine word is a [Z] in range and its wrap-around
    is written out ([u8], [u32], [u64], [mod 256]); a buffer is a list of bytes and
    a pointer an offset in it. The host is little-endian. A function returns
    [Ok], [Fail] with the status of an early return, or [Undef] for what the
    language leaves undefined: an access outside an object, the use of a byte
    that was never written, a violated assert, a loop that does not end. To show
    that a function is never [Undef] is to show that it is memory safe and
    terminates. Arrays and freshly allocated memory are only assumed to have the
    size that was asked for. NULL is a constructor or [None].

    Most recursion follows the data. Where the code loops on a position in a buffer the
    model has fuel, running out of it is [Undef] (or [None]), and the theorems include
    that the fuel given is enough: [ParseValue] gets [pv_fuel], which covers the nesting
    within a signature and, for each variant met in the data that is left, one more
    signature of 255 characters; [field_loop] gets the announced length of the header,
    since every field takes at least one byte; [match_loop] gets the length of the rule.
    The operators + and - of BigNum call each other at most three deep and get 4, the
    quotient digit is corrected at most twice and gets 4, the first digit of a quotient at
    most once and gets 3, and the Euclidean algorithm gets 64 per digit of the modulus,
    since the product of two remainders halves in each turn. [ParseAuthNames] gets the
    length of the text, [FilterMechanisms] the square of the number of entries, since each
    erasure starts the loop over; [handshake] needs six rounds. [EncodeV] gets the length
    of the syntax string and [DecodeV] that and the length of the data: each turn takes a
    character or a byte, and [ASN1_terminates] shows that more fuel changes nothing. In
    ARDP a loop over the ring gets the number of its buffers, of the fragments or twice
    the window, the loop that expires segments the distance to ACKNXT, the one over a word
    of a mask 32; the search for a segment that is not expired gets the number of buffers
    and one more, and since it changes nothing that it looks at it never ends when it has
    gone round once. [VBuildArgs] and [VParseArgs] get the length of the format, of which
    each turn takes a character, and [Rule_of] the length of its text. A domain name is
    written with its length as fuel and it and a text record are read with the number of
    bytes that are left, of which each turn takes one. A loop whose count the peer chooses
    runs by the bits of the count ([loop_times]).

    ** What the theorems show

    Correctness: the signature grammar; MakeSignature, GetSize and MarshalArgs agree;
    UnmarshalArgs inverts MarshalArgs in both byte orders; the calls, signals and replies
    that are composed are received with the same header and arguments, or refused where
    the header is too long; Get returns what
    Set was given; the name and path grammars; match rules and wildcards; both address
    families; name service packets, those of multicast DNS with their compressed names
    included, and the names of an advertisement; numbers as text; the name table; integer
    arithmetic of any size up to modular powers and inverses; the agreement of the
    password protocol with every modulus that BigNum can divide by; the authentication of
    a connection, which succeeds on both sides when they have ANONYMOUS or EXTERNAL in
    common; DER and base 64; over ARDP, that a handshake opens both ends, that segments
    are delivered in order, once and whole while sequence numbers do not wrap around, and
    that the first message sent at one end arrives at the other; match rules as text, in
    their table and in the choice of endpoints; policies as arguments; the decision of a
    policy as a formula over its lists, peers and rules, written apart from the code, and
    that every message but those of the standard interfaces meets it. Safety: parsing of
    signatures, of values, of headers, of bodies and of both kinds of name service packets
    stays within bounds for whatever bytes arrive; an authentication engine survives any
    text, ends, and as a challenger never succeeds without its mechanism; the states of an
    ARDP connection only go forward, and it opens only when it was acknowledged.
    Divergences: many places where modelling showed the code to differ from what it is
    meant or documented to do have a theorem of their own, for all inputs of the shape
    concerned where that is possible.

    The conditions of a theorem are named in the comment in front of it. Where the code
    accepts more than its documentation says (signatures with the wildcard, unique names
    with letters, local names nobody has) the theorem states what the code accepts.

    ** What is not modelled

    Of the files above: the XML of MsgArg::ToString and the ownership of its memory;
    encryption, the delivery of a message to an endpoint, and HelloReply, whose body does
    not compile; reading from sockets, decryption, replacement of the sender and the check
    of the time to live on arrival; host name resolution; what the name service does with
    its packets (IpNameServiceImpl.cc); of the mechanisms of authentication all but
    ANONYMOUS and EXTERNAL, among them ALLJOYN_PIN_KEYX, which BusAttachment.cc registers
    and TCPTransport.cc lists; the storage that copies of a BigNum share, with its count
    of references; of ARDP the list of connections and the choice among them, the reset
    for a connection that is not known, handles, setters of callbacks and statistics; the
    marshaller, digests and printing of policies. Of the rest: routing to endpoints
    (DaemonRouter.cc), sessions (AllJoynObj.cc), the object that manages permissions, and
    the key store: threads, endpoints and files are most of what they do. Threads,
    sockets, the other cryptographic primitives, language bindings, services and samples
    are left out: they are input and output, libraries, or glue. *)
From Stdlib Require Export ZArith Lia.
From stdpp Require Export base numbers option.
From stdpp Require Export list.
Open Scope Z_scope.

(** * Outcomes of the modelled code

    [Ok] is a normal return, [Fail] an early return with a status, and [Undef]
    marks an access the C++ language leaves undefined (outside an object, or to
    a byte that was never written). *)

Inductive result (E A : Type) : Type :=
| Ok (a : A)
| Fail (e : E)
| Undef.
Arguments Ok {E A} a.
Arguments Fail {E A} e.
Arguments Undef {E A}.

Definition rbind {E A B} (r : result E A) (k : A -> result E B) : result E B :=
  match r with
  | Ok a => k a
  | Fail e => Fail e
  | Undef => Undef
  end.

Declare Scope aj_scope.
Delimit Scope aj_scope with aj.
Open Scope aj_scope.
Notation "'let!' x ':=' c 'in' k" := (rbind c (fun x => k))
  (at level 10, x pattern, c at level 100, k at level 200) : aj_scope.

Definition defined {E A} (r : result E A) : Prop := r <> Undef.

Lemma defined_Ok {E A} (a : A) : defined (E:=E) (Ok a).
Proof. discriminate. Qed.
Lemma defined_Fail {E A} (e : E) : defined (A:=A) (Fail e).
Proof. discriminate. Qed.
#[export] Hint Resolve defined_Ok defined_Fail : core.

(** [Ok] values of a bind come from the two halves. *)
Lemma rbind_Ok {E A B} (r : result E A) (k : A -> result E B) b :
  rbind r k = Ok b <-> exists a, r = Ok a /\ k a = Ok b.
Proof. destruct r; simpl; split; [by eauto|by intros (? & [= <-] & ?)|done|by intros (? & ? & ?)|done|by intros (? & ? & ?)]. Qed.

Lemma rbind_defined {E A B} (r : result E A) (k : A -> result E B) :
  defined r -> (forall a, r = Ok a -> defined (k a)) -> defined (rbind r k).
Proof. unfold defined. destruct r; simpl; naive_solver. Qed.

Ltac inv_Ok :=
  repeat match goal with
  | H : rbind _ _ = Ok _ |- _ =>
      apply rbind_Ok in H; destruct H as (? & ? & H)
  | H : Ok _ = Ok _ |- _ => injection H as H; subst
  | H : Fail _ = Ok _ |- _ => discriminate H
  | H : Undef = Ok _ |- _ => discriminate H
  | H : (if ?b then _ else _) = Ok _ |- _ => destruct b eqn:?
  end.

(** * Bytes and byte order

    A byte, a char or a w-bit word is a [Z] in range; buffers are [list Z]. *)

Abbreviation zlen l := (Z.of_nat (length l)).

Definition is_byte (b : Z) : Prop := 0 <= b < 256.
Definition u_ok (w : nat) (v : Z) : Prop := 0 <= v < 2 ^ (8 * Z.of_nat w).

#[export] Instance is_byte_dec b : Decision (is_byte b).
Proof. unfold is_byte. apply _. Defined.
#[export] Instance u_ok_dec w v : Decision (u_ok w v).
Proof. unfold u_ok. apply _. Defined.

(** The [n] low bytes of [v], least significant first: what a little-endian
    host stores at the address of a [n]-byte word, and what it reads back. *)
Fixpoint le_bytes (n : nat) (v : Z) : list Z :=
  match n with
  | O => []
  | S n => v mod 256 :: le_bytes n (v / 256)
  end.

Fixpoint le_val (bs : list Z) : Z :=
  match bs with
  | [] => 0
  | b :: bs => b + 256 * le_val bs
  end.

Lemma length_le_bytes n v : length (le_bytes n v) = n.
Proof. revert v. induction n; intros; simpl; congruence. Qed.

Lemma le_bytes_bytes n v : Forall is_byte (le_bytes n v).
Proof.
  revert v. induction n; intros; simpl; constructor; [|done].
  apply Z.mod_pos_bound; lia.
Qed.

Lemma pow8_succ n : 2 ^ (8 * Z.of_nat (S n)) = 256 * 2 ^ (8 * Z.of_nat n).
Proof.
  rewrite Nat2Z.inj_succ, Z.mul_succ_r, Z.pow_add_r by lia. lia.
Qed.

Lemma le_val_le_bytes n v : u_ok n v -> le_val (le_bytes n v) = v.
Proof.
  unfold u_ok. revert v. induction n as [|n IH]; intros v Hv; cbn [le_bytes le_val].
  - simpl in Hv. lia.
  - rewrite pow8_succ in Hv. rewrite IH.
    + pose proof (Z.div_mod v 256). lia.
    + split; [apply Z.div_pos; lia|]. apply Z.div_lt_upper_bound; lia.
Qed.

Lemma le_val_bound bs : Forall is_byte bs -> u_ok (length bs) (le_val bs).
Proof.
  unfold u_ok, is_byte. induction 1 as [|b bs Hb _ IH]; cbn [length le_val];
    [simpl; lia|rewrite pow8_succ; lia].
Qed.

Lemma le_bytes_le_val bs : Forall is_byte bs -> le_bytes (length bs) (le_val bs) = bs.
Proof.
  unfold is_byte. induction 1 as [|b bs Hb _ IH]; cbn [length le_val le_bytes]; [done|].
  rewrite (Z.mul_comm 256), Z.mod_add, Z.div_add by lia.
  rewrite Z.mod_small, Z.div_small by lia. by rewrite Z.add_0_l, IH.
Qed.

(** The bytes of a [n]-byte word as [MarshalReversed] (swap) or a plain store
    (no swap) writes them on the little-endian host. *)
Definition put (endianSwap : bool) (n : nat) (v : Z) : list Z :=
  if endianSwap then rev (le_bytes n v) else le_bytes n v.

Definition EndianSwap (n : nat) (v : Z) : Z := le_val (rev (le_bytes n v)).

(** A [n]-byte word read from memory, swapped when the message is foreign. *)
Definition get (endianSwap : bool) (bs : list Z) : Z :=
  if endianSwap then EndianSwap (length bs) (le_val bs) else le_val bs.

Lemma length_put sw n v : length (put sw n v) = n.
Proof. destruct sw; simpl; rewrite ?length_rev; apply length_le_bytes. Qed.

Lemma put_bytes sw n v : Forall is_byte (put sw n v).
Proof.
  destruct sw; simpl; [apply Forall_rev|]; apply le_bytes_bytes.
Qed.

Lemma get_put sw n v : u_ok n v -> get sw (put sw n v) = v.
Proof.
  intros Hv. destruct sw; simpl; [|by apply le_val_le_bytes].
  unfold EndianSwap. rewrite le_bytes_le_val by apply (put_bytes true).
  rewrite rev_involutive. by apply le_val_le_bytes.
Qed.

Lemma get_bound sw bs : Forall is_byte bs -> u_ok (length bs) (get sw bs).
Proof.
  intros Hb. destruct sw; simpl; [|by apply le_val_bound].
  unfold EndianSwap. rewrite le_bytes_le_val by done.
  rewrite <- (length_rev bs). apply le_val_bound, Forall_rev, Hb.
Qed.

Lemma put_get sw bs : Forall is_byte bs -> put sw (length bs) (get sw bs) = bs.
Proof.
  intros Hb. destruct sw; simpl; [|by apply le_bytes_le_val].
  unfold EndianSwap. rewrite (le_bytes_le_val bs) by done.
  rewrite <- (length_rev bs), le_bytes_le_val by (by apply Forall_rev).
  apply rev_involutive.
Qed.

(** Two bytes in network order, as the name service writes ports. *)
Definition be16 (v : Z) : list Z := [Z.land (Z.shiftr v 8) 255; Z.land v 255].

(** Bits of two numbers that do not overlap add up. *)
Lemma lor_disjoint a b k : 0 <= k -> 0 <= a < 2 ^ k -> 0 <= b -> Z.lor a (b * 2 ^ k) = a + b * 2 ^ k.
Proof.
  intros Hk Ha Hb. rewrite <- Z.add_lor_land, Z.land_comm.
  enough (Z.land (b * 2 ^ k) a = 0) as -> by lia.
  apply Z.bits_inj'. intros n Hn. rewrite Z.land_spec, Z.bits_0.
  destruct (Z.lt_ge_cases n k).
  - by rewrite Z.mul_pow2_bits_low.
  - assert (Z.testbit a n = false) as ->; [|apply andb_false_r].
    apply Z.testbit_false; [done|]. rewrite Z.div_small; [done|]. split; [lia|].
    apply Z.lt_le_trans with (2 ^ k); [lia|]. apply Z.pow_le_mono_r; lia.
Qed.

(** * Alignment

    [PadBytes] and [AlignPtr] (qcc/Util.h), [PadUp] (SignatureUtils.cc) and the
    zero bytes [MarshalPad] writes. Addresses are offsets from the start of the
    message buffer, which the code aligns to 8 bytes. *)

Definition PadBytes (p b : Z) : Z := Z.land (b - p) (b - 1).
Definition AlignPtr (p b : Z) : Z := p + PadBytes p b.
Definition PadUp (n i : Z) : Z := Z.land (n + i - 1) (Z.lnot (i - 1)).
Definition MarshalPad (p b : Z) : list Z := replicate (Z.to_nat (Z.land (PadBytes p b) 7)) 0.

Definition alignment (b : Z) : Prop := b = 1 \/ b = 2 \/ b = 4 \/ b = 8.

Lemma align1 : alignment 1. Proof. by left. Qed.
Lemma align2 : alignment 2. Proof. by right; left. Qed.
Lemma align4 : alignment 4. Proof. by right; right; left. Qed.
Lemma align8 : alignment 8. Proof. by right; right; right. Qed.
#[export] Hint Resolve align1 align2 align4 align8 : core.

Lemma alignment_pow2 b : alignment b -> exists k, 0 <= k <= 3 /\ b = 2 ^ k /\ b - 1 = Z.ones k.
Proof.
  intros [->|[->|[->| ->]]]; [exists 0|exists 1|exists 2|exists 3]; repeat split; lia.
Qed.

Lemma PadBytes_mod p b : alignment b -> PadBytes p b = (- p) mod b.
Proof.
  intros (k & Hk & -> & Hones)%alignment_pow2. unfold PadBytes.
  rewrite Hones, Z.land_ones by lia.
  replace (2 ^ k - p) with (- p + 1 * 2 ^ k) by lia.
  apply Z.mod_add. lia.
Qed.

Lemma PadBytes_bound p b : alignment b -> 0 <= PadBytes p b < b.
Proof.
  intros Hb. rewrite PadBytes_mod by done.
  apply Z.mod_pos_bound. unfold alignment in Hb. lia.
Qed.

Lemma PadUp_AlignPtr n b : alignment b -> PadUp n b = AlignPtr n b.
Proof.
  intros Hb. unfold AlignPtr. rewrite PadBytes_mod by done.
  pose proof Hb as (k & Hk & Hpow & Hones)%alignment_pow2. unfold PadUp.
  rewrite Hones, <- Z.ldiff_land, Z.ldiff_ones_r, Z.shiftl_mul_pow2,
    Z.shiftr_div_pow2, <- Hpow by lia.
  clear -Hb. unfold alignment in Hb.
  destruct Hb as [->|[->|[->| ->]]]; Z.to_euclidean_division_equations; lia.
Qed.

Lemma AlignPtr_bound p b : alignment b -> p <= AlignPtr p b < p + b.
Proof. intros Hb. unfold AlignPtr. pose proof (PadBytes_bound p b Hb). lia. Qed.

Lemma AlignPtr_multiple p b : alignment b -> (AlignPtr p b) mod b = 0.
Proof.
  intros Hb. unfold AlignPtr. rewrite PadBytes_mod by done.
  destruct Hb as [->|[->|[->| ->]]]; Z.to_euclidean_division_equations; lia.
Qed.

(** Aligning never passes an aligned limit. *)
Lemma AlignPtr_le p b lim :
  alignment b -> p <= lim -> lim mod 8 = 0 -> AlignPtr p b <= lim.
Proof.
  intros Hb. unfold AlignPtr. rewrite PadBytes_mod by done.
  destruct Hb as [->|[->|[->| ->]]]; Z.to_euclidean_division_equations; lia.
Qed.

Lemma AlignPtr_id p b : alignment b -> p mod b = 0 -> AlignPtr p b = p.
Proof.
  intros Hb. unfold AlignPtr. rewrite PadBytes_mod by done.
  destruct Hb as [->|[->|[->| ->]]]; Z.to_euclidean_division_equations; lia.
Qed.

Lemma AlignPtr_coarser p b : alignment b -> p mod 8 = 0 -> AlignPtr p b = p.
Proof.
  intros Hb ?. apply AlignPtr_id; [done|].
  destruct Hb as [->|[->|[->| ->]]]; Z.to_euclidean_division_equations; lia.
Qed.

Lemma AlignPtr_4_le4 p b : alignment b -> b <= 4 -> p mod 4 = 0 -> AlignPtr p b = p.
Proof.
  intros Hb ? ?. apply AlignPtr_id; [done|].
  destruct Hb as [->|[->|[->| ->]]]; Z.to_euclidean_division_equations; lia.
Qed.

Lemma zlen_MarshalPad p b : alignment b -> zlen (MarshalPad p b) = PadBytes p b.
Proof.
  intros Hb. unfold MarshalPad. rewrite length_replicate.
  pose proof (PadBytes_bound p b Hb). change 7 with (Z.ones 3).
  rewrite Z.land_ones by lia. unfold alignment in Hb.
  rewrite Z.mod_small by (simpl; lia). lia.
Qed.

Lemma MarshalPad_bytes p b : Forall is_byte (MarshalPad p b).
Proof. apply Forall_replicate. unfold is_byte. lia. Qed.

(** * Reading a buffer

    [rd buf p n] is the [n] bytes at offset [p]; outside the allocation the
    read is undefined. [has_at buf p l] says the bytes [l] are stored there. *)

Definition rd {E} (buf : list Z) (p : Z) (n : nat) : result E (list Z) :=
  if bool_decide (0 <= p /\ p + Z.of_nat n <= zlen buf)
  then Ok (take n (drop (Z.to_nat p) buf)) else Undef.

Definition has_at (buf : list Z) (p : Z) (l : list Z) : Prop :=
  0 <= p /\ exists suf, drop (Z.to_nat p) buf = l ++ suf.

Lemma has_at_app buf p l1 l2 :
  has_at buf p (l1 ++ l2) <-> has_at buf p l1 /\ has_at buf (p + zlen l1) l2.
Proof.
  unfold has_at. split.
  - intros (Hp & suf & Hs). rewrite <- app_assoc in Hs. split_and!; eauto; [lia|].
    exists suf. replace (Z.to_nat (p + zlen l1)) with (Z.to_nat p + length l1)%nat by lia.
    by rewrite <- drop_drop, Hs, drop_app_length.
  - intros ((Hp & s1 & Hs1) & (_ & s2 & Hs2)). split; [done|]. exists s2.
    replace (Z.to_nat (p + zlen l1)) with (Z.to_nat p + length l1)%nat in Hs2 by lia.
    rewrite <- drop_drop, Hs1, drop_app_length in Hs2. by rewrite Hs1, Hs2, app_assoc.
Qed.

Lemma has_at_nil buf p : has_at buf p [] <-> 0 <= p.
Proof. unfold has_at. naive_solver. Qed.

Lemma has_at_cons buf p x l :
  has_at buf p (x :: l) <-> has_at buf p [x] /\ has_at buf (p + 1) l.
Proof. apply (has_at_app buf p [x] l). Qed.

Lemma has_at_bound buf p l : has_at buf p l -> l <> [] -> p + zlen l <= zlen buf.
Proof.
  intros (Hp & suf & Hs) Hl. apply (f_equal length) in Hs.
  rewrite length_drop, length_app in Hs. destruct l; simpl in *; [done|lia].
Qed.

Lemma has_at_whole pre l suf : has_at (pre ++ l ++ suf) (zlen pre) l.
Proof.
  split; [lia|]. exists suf. by rewrite Nat2Z.id, drop_app_length.
Qed.

Lemma rd_has_at {E} buf p l :
  has_at buf p l -> l <> [] -> rd (E:=E) buf p (length l) = Ok l.
Proof.
  intros Hat Hl. pose proof (has_at_bound _ _ _ Hat Hl). destruct Hat as (Hp & suf & Hs).
  unfold rd. rewrite bool_decide_true by lia. by rewrite Hs, take_app_length.
Qed.

Lemma rd_defined {E} buf p n :
  0 <= p -> p + Z.of_nat n <= zlen buf -> exists l, rd (E:=E) buf p n = Ok l /\ length l = n.
Proof.
  intros. unfold rd. rewrite bool_decide_true by done. eexists; split; [done|].
  rewrite length_take, length_drop. lia.
Qed.

Lemma rd_Ok {E} buf p n l :
  rd (E:=E) buf p n = Ok l -> 0 <= p /\ p + Z.of_nat n <= zlen buf /\ length l = n.
Proof.
  unfold rd. case_bool_decide; intros; inv_Ok. split_and!; [lia..|].
  rewrite length_take, length_drop. lia.
Qed.

Lemma rd_bytes {E} buf p n l :
  rd (E:=E) buf p n = Ok l -> Forall is_byte buf -> Forall is_byte l.
Proof.
  unfold rd. case_bool_decide; intros; inv_Ok. by apply Forall_take, Forall_drop.
Qed.

(** Alignment only depends on the offset modulo 8. *)
Lemma PadBytes_congr p q b : alignment b -> p mod 8 = q mod 8 -> PadBytes p b = PadBytes q b.
Proof.
  intros Hb. rewrite !PadBytes_mod by done.
  destruct Hb as [->|[->|[->| ->]]]; Z.to_euclidean_division_equations; lia.
Qed.

Lemma congr_add p q x : p mod 8 = q mod 8 -> (p + x) mod 8 = (q + x) mod 8.
Proof. intros H. by rewrite Z.add_mod, H, <- Z.add_mod by lia. Qed.

Lemma is_byte_0 : is_byte 0.
Proof. unfold is_byte. lia. Qed.
#[export] Hint Resolve is_byte_0 put_bytes MarshalPad_bytes : core.

(** The database [bytes]: a list that is written out or composed of such lists
    holds bytes. *)
Create HintDb bytes.
#[export] Hint Resolve is_byte_0 put_bytes MarshalPad_bytes le_bytes_bytes Forall_nil_2 Forall_cons_2
  Forall_app_2 Forall_take Forall_drop Forall_rev : bytes.
