(* ===== verification/Types.v ===== *)
(** Shared data of the message code: the status codes the modelled functions
    return (alljoyn_core/src/Status.xml names), the wire type codes
    [AllJoynTypeId] and the tagged union [MsgArg] (inc/alljoyn/MsgArg.h). *)
From S2P Require Import Prelude.

(** * Status codes *)

Inductive QStatus : Type :=
| ER_OK
| ER_FAIL
| ER_AUTH_FAIL
| ER_BAD_ARG_2
| ER_BAD_ARG_3
| ER_PARSE_ERROR
| ER_BAD_STRING_ENCODING
| ER_CRYPTO_INSUFFICIENT_SECURITY
| ER_CRYPTO_ILLEGAL_PARAMETERS
| ER_SOCK_OTHER
| ER_BUS_BAD_VALUE
| ER_BUS_BAD_VALUE_TYPE
| ER_BUS_BAD_SIGNATURE
| ER_BUS_BAD_LENGTH
| ER_BUS_BAD_OBJ_PATH
| ER_BUS_NO_ENDPOINT
| ER_BUS_NOT_AUTHENTICATING
| ER_BUS_KEY_UNAVAILABLE
| ER_BUS_INVALID_AUTH_MECHANISM
| ER_BUS_ESTABLISH_FAILED
| ER_BUS_ENDPOINT_REDIRECTED
| ER_BUS_SELF_CONNECT
| ER_BUS_UNKNOWN_SERIAL
| ER_END_OF_DATA
| ER_BUFFER_TOO_SMALL
| ER_BAD_ARG_1
| ER_BUS_NOT_NUL_TERMINATED
| ER_BUS_NO_SUCH_HANDLE
| ER_BUS_BAD_HEADER_FIELD
| ER_BUS_BAD_HEADER_LEN
| ER_BUS_BAD_BODY_LEN
| ER_BUS_SIGNATURE_MISMATCH
| ER_BUS_INTERFACE_MISSING
| ER_BUS_PATH_MISSING
| ER_BUS_MEMBER_MISSING
| ER_BUS_ERROR_NAME_MISSING
| ER_BUS_REPLY_SERIAL_MISSING
| ER_BUS_NAME_TOO_LONG
| ER_BUS_BAD_INTERFACE_NAME
| ER_BUS_BAD_MEMBER_NAME
| ER_BUS_BAD_ERROR_NAME
| ER_BUS_BAD_BUS_NAME
| ER_BUS_HANDLES_NOT_ENABLED
| ER_BUS_HANDLES_MISMATCH
| ER_TIMEOUT
| ER_WOULDBLOCK
| ER_INVALID_DATA
| ER_INVALID_CONFIG
| ER_ARDP_BACKPRESSURE
| ER_ARDP_INVALID_STATE
| ER_ARDP_TTL_EXPIRED
| ER_ARDP_PERSIST_TIMEOUT
| ER_ARDP_PROBE_TIMEOUT
| ER_ARDP_REMOTE_CONNECTION_RESET
| ER_ARDP_INVALID_CONNECTION
| ER_ARDP_INVALID_RESPONSE
| ER_ARDP_DISCONNECTING
| ER_ARDP_VERSION_NOT_SUPPORTED
| ER_ARDP_WRITE_BLOCKED
| ER_OUT_OF_MEMORY
| ER_BAD_ARG_4
| ER_BAD_ARG_5
| ER_INVALID_ADDRESS
| ER_NOT_IMPLEMENTED
| ER_PERMISSION_DENIED
| ER_BUS_NOT_A_COMPLETE_TYPE
| ER_BUS_TRUNCATED
| ER_BUS_NOT_A_DICTIONARY
| ER_BUS_ELEMENT_NOT_FOUND
| ER_BUS_MATCH_RULE_NOT_FOUND
| ER_BUS_UNEXPECTED_SIGNATURE
| ER_BUS_BAD_HDR_FLAGS
| ER_BUS_EMPTY_MESSAGE
| ER_BUS_BUS_NOT_STARTED.

#[export] Instance QStatus_eq_dec : EqDecision QStatus.
Proof. solve_decision. Defined.

(** The outcome of a modelled call: a value, a status other than [ER_OK], or
    undefined behaviour. *)
Abbreviation res := (result QStatus).

(** * Wire type codes *)

Inductive AllJoynTypeId : Type :=
| ALLJOYN_INVALID
| ALLJOYN_ARRAY
| ALLJOYN_BOOLEAN
| ALLJOYN_DOUBLE
| ALLJOYN_DICT_ENTRY
| ALLJOYN_SIGNATURE
| ALLJOYN_HANDLE
| ALLJOYN_INT32
| ALLJOYN_INT16
| ALLJOYN_OBJECT_PATH
| ALLJOYN_UINT16
| ALLJOYN_STRUCT
| ALLJOYN_STRING
| ALLJOYN_UINT64
| ALLJOYN_UINT32
| ALLJOYN_VARIANT
| ALLJOYN_INT64
| ALLJOYN_BYTE
| ALLJOYN_STRUCT_OPEN
| ALLJOYN_STRUCT_CLOSE
| ALLJOYN_DICT_ENTRY_OPEN
| ALLJOYN_DICT_ENTRY_CLOSE
| ALLJOYN_BOOLEAN_ARRAY
| ALLJOYN_DOUBLE_ARRAY
| ALLJOYN_INT32_ARRAY
| ALLJOYN_INT16_ARRAY
| ALLJOYN_UINT16_ARRAY
| ALLJOYN_UINT64_ARRAY
| ALLJOYN_UINT32_ARRAY
| ALLJOYN_INT64_ARRAY
| ALLJOYN_BYTE_ARRAY
| ALLJOYN_WILDCARD
| ALLJOYN_OTHER (c : Z).

#[export] Instance AllJoynTypeId_eq_dec : EqDecision AllJoynTypeId.
Proof. solve_decision. Defined.

(** The cast [(AllJoynTypeId)c] of a signature character. *)
Definition typeId_of_char (c : Z) : AllJoynTypeId :=
  match c with
  | 0 => ALLJOYN_INVALID
  | 97 => ALLJOYN_ARRAY
  | 98 => ALLJOYN_BOOLEAN
  | 100 => ALLJOYN_DOUBLE
  | 101 => ALLJOYN_DICT_ENTRY
  | 103 => ALLJOYN_SIGNATURE
  | 104 => ALLJOYN_HANDLE
  | 105 => ALLJOYN_INT32
  | 110 => ALLJOYN_INT16
  | 111 => ALLJOYN_OBJECT_PATH
  | 113 => ALLJOYN_UINT16
  | 114 => ALLJOYN_STRUCT
  | 115 => ALLJOYN_STRING
  | 116 => ALLJOYN_UINT64
  | 117 => ALLJOYN_UINT32
  | 118 => ALLJOYN_VARIANT
  | 120 => ALLJOYN_INT64
  | 121 => ALLJOYN_BYTE
  | 40 => ALLJOYN_STRUCT_OPEN
  | 41 => ALLJOYN_STRUCT_CLOSE
  | 123 => ALLJOYN_DICT_ENTRY_OPEN
  | 125 => ALLJOYN_DICT_ENTRY_CLOSE
  | 42 => ALLJOYN_WILDCARD
  | _ => ALLJOYN_OTHER c
  end.

(** The enumerator's value; [(char)typeId] for the one-character codes. *)
Definition typeId_val (t : AllJoynTypeId) : Z :=
  match t with
  | ALLJOYN_INVALID => 0
  | ALLJOYN_ARRAY => 97
  | ALLJOYN_BOOLEAN => 98
  | ALLJOYN_DOUBLE => 100
  | ALLJOYN_DICT_ENTRY => 101
  | ALLJOYN_SIGNATURE => 103
  | ALLJOYN_HANDLE => 104
  | ALLJOYN_INT32 => 105
  | ALLJOYN_INT16 => 110
  | ALLJOYN_OBJECT_PATH => 111
  | ALLJOYN_UINT16 => 113
  | ALLJOYN_STRUCT => 114
  | ALLJOYN_STRING => 115
  | ALLJOYN_UINT64 => 116
  | ALLJOYN_UINT32 => 117
  | ALLJOYN_VARIANT => 118
  | ALLJOYN_INT64 => 120
  | ALLJOYN_BYTE => 121
  | ALLJOYN_STRUCT_OPEN => 40
  | ALLJOYN_STRUCT_CLOSE => 41
  | ALLJOYN_DICT_ENTRY_OPEN => 123
  | ALLJOYN_DICT_ENTRY_CLOSE => 125
  | ALLJOYN_BOOLEAN_ARRAY => Z.lor (Z.shiftl 98 8) 97
  | ALLJOYN_DOUBLE_ARRAY => Z.lor (Z.shiftl 100 8) 97
  | ALLJOYN_INT32_ARRAY => Z.lor (Z.shiftl 105 8) 97
  | ALLJOYN_INT16_ARRAY => Z.lor (Z.shiftl 110 8) 97
  | ALLJOYN_UINT16_ARRAY => Z.lor (Z.shiftl 113 8) 97
  | ALLJOYN_UINT64_ARRAY => Z.lor (Z.shiftl 116 8) 97
  | ALLJOYN_UINT32_ARRAY => Z.lor (Z.shiftl 117 8) 97
  | ALLJOYN_INT64_ARRAY => Z.lor (Z.shiftl 120 8) 97
  | ALLJOYN_BYTE_ARRAY => Z.lor (Z.shiftl 121 8) 97
  | ALLJOYN_WILDCARD => 42
  | ALLJOYN_OTHER c => c
  end.

Lemma typeId_val_of_char c : typeId_val (typeId_of_char c) = c.
Proof.
  destruct c as [|p|p]; [reflexivity| |reflexivity].
  do 7 (destruct p as [p|p|]; try reflexivity).
Qed.

(** Array ids carry the element code in the second byte. *)
Definition elem_char (t : AllJoynTypeId) : Z := Z.land (Z.shiftr (typeId_val t) 8) 255.

(** * Message arguments *)

(** The union members that several type codes share. *)
Inductive Ty16 : Type := TY_INT16 | TY_UINT16.
Inductive Ty32 : Type := TY_INT32 | TY_UINT32.
Inductive Ty64 : Type := TY_DOUBLE | TY_UINT64 | TY_INT64.
Inductive TyStr : Type := TY_OBJECT_PATH | TY_STRING.

(** [v_scalarArray]: a count and a pointer that may be NULL. *)
Inductive scalars (A : Type) : Type :=
| S_NULL (numElements : nat)
| S_PTR (elems : list A).
Arguments S_NULL {A} numElements.
Arguments S_PTR {A} elems.

Definition numElements {A} (s : scalars A) : nat :=
  match s with S_NULL n => n | S_PTR l => length l end.

(** [A_NULL] stands for a NULL [MsgArg*]; a NULL pointer with a count of [n] is
    [n] times [A_NULL]. Integers are the unsigned contents of their union
    member. [v_string] and [v_signature] keep the declared length next to the
    characters stored at the pointer, the terminator included. *)
Inductive MsgArg : Type :=
| A_NULL
| A_INVALID
| A_BYTE (v_byte : Z)
| A_BOOLEAN (v_bool : bool)
| A_16 (t : Ty16) (v_uint16 : Z)
| A_32 (t : Ty32) (v_uint32 : Z)
| A_64 (t : Ty64) (v_uint64 : Z)
| A_STRING (t : TyStr) (len : Z) (str : option (list Z))
| A_SIGNATURE (len : Z) (sig : option (list Z))
| A_HANDLE (fd : Z)
| A_BOOLEAN_ARRAY (v_bool : scalars bool)
| A_BYTE_ARRAY (v_byte : scalars Z)
| A_16_ARRAY (t : Ty16) (v_uint16 : scalars Z)
| A_32_ARRAY (t : Ty32) (v_uint32 : scalars Z)
| A_64_ARRAY (t : Ty64) (v_uint64 : scalars Z)
| A_ARRAY (elemSig : option (list Z)) (elements : list MsgArg)
| A_STRUCT (members : list MsgArg)
| A_DICT_ENTRY (key val : MsgArg)
| A_VARIANT (val : MsgArg).

Definition ty16 (t : Ty16) : AllJoynTypeId :=
  match t with TY_INT16 => ALLJOYN_INT16 | TY_UINT16 => ALLJOYN_UINT16 end.
Definition ty32 (t : Ty32) : AllJoynTypeId :=
  match t with TY_INT32 => ALLJOYN_INT32 | TY_UINT32 => ALLJOYN_UINT32 end.
Definition ty64 (t : Ty64) : AllJoynTypeId :=
  match t with
  | TY_DOUBLE => ALLJOYN_DOUBLE | TY_UINT64 => ALLJOYN_UINT64 | TY_INT64 => ALLJOYN_INT64
  end.
Definition tystr (t : TyStr) : AllJoynTypeId :=
  match t with TY_OBJECT_PATH => ALLJOYN_OBJECT_PATH | TY_STRING => ALLJOYN_STRING end.
Definition ty16_array (t : Ty16) : AllJoynTypeId :=
  match t with TY_INT16 => ALLJOYN_INT16_ARRAY | TY_UINT16 => ALLJOYN_UINT16_ARRAY end.
Definition ty32_array (t : Ty32) : AllJoynTypeId :=
  match t with TY_INT32 => ALLJOYN_INT32_ARRAY | TY_UINT32 => ALLJOYN_UINT32_ARRAY end.
Definition ty64_array (t : Ty64) : AllJoynTypeId :=
  match t with
  | TY_DOUBLE => ALLJOYN_DOUBLE_ARRAY
  | TY_UINT64 => ALLJOYN_UINT64_ARRAY
  | TY_INT64 => ALLJOYN_INT64_ARRAY
  end.

(** The [typeId] member. *)
Definition typeId (a : MsgArg) : AllJoynTypeId :=
  match a with
  | A_NULL => ALLJOYN_INVALID
  | A_INVALID => ALLJOYN_INVALID
  | A_BYTE _ => ALLJOYN_BYTE
  | A_BOOLEAN _ => ALLJOYN_BOOLEAN
  | A_16 t _ => ty16 t
  | A_32 t _ => ty32 t
  | A_64 t _ => ty64 t
  | A_STRING t _ _ => tystr t
  | A_SIGNATURE _ _ => ALLJOYN_SIGNATURE
  | A_HANDLE _ => ALLJOYN_HANDLE
  | A_BOOLEAN_ARRAY _ => ALLJOYN_BOOLEAN_ARRAY
  | A_BYTE_ARRAY _ => ALLJOYN_BYTE_ARRAY
  | A_16_ARRAY t _ => ty16_array t
  | A_32_ARRAY t _ => ty32_array t
  | A_64_ARRAY t _ => ty64_array t
  | A_ARRAY _ _ => ALLJOYN_ARRAY
  | A_STRUCT _ => ALLJOYN_STRUCT
  | A_DICT_ENTRY _ _ => ALLJOYN_DICT_ENTRY
  | A_VARIANT _ => ALLJOYN_VARIANT
  end.

(** Induction over the arguments a container holds. *)
Section MsgArg_induction.
Variable P : MsgArg -> Prop.
Hypothesis Hleaf : forall a,
  match a with
  | A_ARRAY _ _ | A_STRUCT _ | A_DICT_ENTRY _ _ | A_VARIANT _ => True
  | _ => P a
  end.
Hypothesis Harray : forall s l, Forall P l -> P (A_ARRAY s l).
Hypothesis Hstruct : forall l, Forall P l -> P (A_STRUCT l).
Hypothesis Hdict : forall k v, P k -> P v -> P (A_DICT_ENTRY k v).
Hypothesis Hvariant : forall v, P v -> P (A_VARIANT v).

Fixpoint MsgArg_nested_ind (a : MsgArg) : P a :=
  let all := fix all (l : list MsgArg) : Forall P l :=
    match l with
    | [] => @Forall_nil_2 _ P
    | a :: l => @Forall_cons_2 _ P a l (MsgArg_nested_ind a) (all l)
    end in
  match a with
  | A_ARRAY s l => Harray s l (all l)
  | A_STRUCT l => Hstruct l (all l)
  | A_DICT_ENTRY k v => Hdict k v (MsgArg_nested_ind k) (MsgArg_nested_ind v)
  | A_VARIANT v => Hvariant v (MsgArg_nested_ind v)
  | A_NULL => Hleaf A_NULL
  | A_INVALID => Hleaf A_INVALID
  | A_BYTE v => Hleaf (A_BYTE v)
  | A_BOOLEAN v => Hleaf (A_BOOLEAN v)
  | A_16 t v => Hleaf (A_16 t v)
  | A_32 t v => Hleaf (A_32 t v)
  | A_64 t v => Hleaf (A_64 t v)
  | A_STRING t n s => Hleaf (A_STRING t n s)
  | A_SIGNATURE n s => Hleaf (A_SIGNATURE n s)
  | A_HANDLE fd => Hleaf (A_HANDLE fd)
  | A_BOOLEAN_ARRAY v => Hleaf (A_BOOLEAN_ARRAY v)
  | A_BYTE_ARRAY v => Hleaf (A_BYTE_ARRAY v)
  | A_16_ARRAY t v => Hleaf (A_16_ARRAY t v)
  | A_32_ARRAY t v => Hleaf (A_32_ARRAY t v)
  | A_64_ARRAY t v => Hleaf (A_64_ARRAY t v)
  end.
End MsgArg_induction.
