(* ===== verification/SignatureUtils.v ===== *)
(** Model of alljoyn_core/src/SignatureUtils.cc, the parsing half: recognising
    complete types in a signature string. Signatures are C strings: a list of
    characters with an implicit NUL after the last one. *)
From S2P Require Import Prelude Types.

Definition IsBasicType (t : AllJoynTypeId) : bool :=
  match t with
  | ALLJOYN_BYTE | ALLJOYN_INT16 | ALLJOYN_UINT16 | ALLJOYN_BOOLEAN
  | ALLJOYN_INT32 | ALLJOYN_UINT32 | ALLJOYN_DOUBLE | ALLJOYN_UINT64
  | ALLJOYN_INT64 | ALLJOYN_OBJECT_PATH | ALLJOYN_STRING | ALLJOYN_SIGNATURE
  | ALLJOYN_HANDLE => true
  | _ => false
  end.

(** * ParseContainerSignature

    [ContainerStack containerStack[64]] with the pointer [outer]: the entry
    [outer] points at, then the entries below it. *)

Record ContainerEntry := { c_typeId : AllJoynTypeId; members : Z }.

Record PState := {
  outer : ContainerEntry;
  below : list ContainerEntry;
  structDepth : Z;
  arrayDepth : Z;
  numMembers : option Z        (* container.v_struct.numMembers, once written *)
}.

Definition u8 (x : Z) : Z := x mod 256.

Definition is_array (e : ContainerEntry) : bool := bool_decide (c_typeId e = ALLJOYN_ARRAY).

Definition with_outer (st : PState) (e : ContainerEntry) : PState :=
  {| outer := e; below := below st; structDepth := structDepth st;
     arrayDepth := arrayDepth st; numMembers := numMembers st |}.

Definition bump (e : ContainerEntry) : ContainerEntry :=
  {| c_typeId := c_typeId e; members := u8 (members e + 1) |}.

(** [PushContainer]: a 65th entry would be stored past the end of the array. *)
Definition PushContainer (t : AllJoynTypeId) (st : PState) : res PState :=
  if bool_decide (length (below st) < 63)%nat then
    Ok {| outer := {| c_typeId := t; members := 0 |}; below := outer st :: below st;
          structDepth := structDepth st; arrayDepth := arrayDepth st;
          numMembers := numMembers st |}
  else Undef.

(** [PopContainer]: back to the enclosing container, which gains a member; the
    bottom entry stays. *)
Definition PopContainer (st : PState) : PState :=
  match below st with
  | e :: bl => {| outer := bump e; below := bl; structDepth := structDepth st;
                  arrayDepth := arrayDepth st; numMembers := numMembers st |}
  | [] => with_outer st (bump (outer st))
  end.

Definition set_depths (st : PState) (sd ad : Z) : PState :=
  {| outer := outer st; below := below st; structDepth := sd;
     arrayDepth := ad; numMembers := numMembers st |}.

Definition set_numMembers (st : PState) (n : Z) : PState :=
  {| outer := outer st; below := below st; structDepth := structDepth st;
     arrayDepth := arrayDepth st; numMembers := Some n |}.

(** The [switch] on one character [c]; [next] is the character after it. The
    boolean says whether the dictionary case consumed [next] as well. *)
Definition pcs_switch (container : AllJoynTypeId) (st : PState) (c next : Z) : res (PState * bool) :=
  match typeId_of_char c with
  | ALLJOYN_INVALID =>
      if structDepth st + arrayDepth st >? 0 then Fail ER_BUS_BAD_SIGNATURE
      else Ok (st, false)
  | ALLJOYN_WILDCARD | ALLJOYN_BYTE | ALLJOYN_INT16 | ALLJOYN_UINT16
  | ALLJOYN_BOOLEAN | ALLJOYN_INT32 | ALLJOYN_UINT32 | ALLJOYN_DOUBLE
  | ALLJOYN_UINT64 | ALLJOYN_INT64 | ALLJOYN_OBJECT_PATH | ALLJOYN_STRING
  | ALLJOYN_SIGNATURE | ALLJOYN_VARIANT | ALLJOYN_STRUCT | ALLJOYN_HANDLE =>
      Ok (with_outer st (bump (outer st)), false)
  | ALLJOYN_ARRAY =>
      let ad := u8 (arrayDepth st + 1) in
      if ad >? 32 then Fail ER_BUS_BAD_SIGNATURE
      else let! st' := PushContainer ALLJOYN_ARRAY (set_depths st (structDepth st) ad) in
           Ok (st', false)
  | ALLJOYN_DICT_ENTRY_OPEN =>
      let sd := u8 (structDepth st + 1) in
      if sd >? 32 then Fail ER_BUS_BAD_SIGNATURE
      else if is_array (outer st) && IsBasicType (typeId_of_char next) then
        let! st' := PushContainer ALLJOYN_DICT_ENTRY (set_depths st sd (arrayDepth st)) in
        Ok (with_outer st' (bump (outer st')), true)
      else Fail ER_BUS_BAD_SIGNATURE
  | ALLJOYN_DICT_ENTRY_CLOSE =>
      if bool_decide (c_typeId (outer st) = ALLJOYN_DICT_ENTRY) && (members (outer st) =? 2) then
        Ok (PopContainer (set_depths st (u8 (structDepth st - 1)) (arrayDepth st)), false)
      else Fail ER_BUS_BAD_SIGNATURE
  | ALLJOYN_STRUCT_OPEN =>
      let sd := u8 (structDepth st + 1) in
      if sd >? 32 then Fail ER_BUS_BAD_SIGNATURE
      else let! st' := PushContainer ALLJOYN_STRUCT (set_depths st sd (arrayDepth st)) in
           Ok (st', false)
  | ALLJOYN_STRUCT_CLOSE =>
      if bool_decide (c_typeId (outer st) = ALLJOYN_STRUCT) && (members (outer st) >? 0) then
        let sd := u8 (structDepth st - 1) in
        let st1 := set_depths st sd (arrayDepth st) in
        let st2 := if (sd =? 0) && bool_decide (container = ALLJOYN_STRUCT)
                   then set_numMembers st1 (members (outer st)) else st1 in
        Ok (PopContainer st2, false)
      else Fail ER_BUS_BAD_SIGNATURE
  | _ => Fail ER_BUS_BAD_SIGNATURE
  end.

(** [while (outer is an array with one member) ...]: a finished array is a
    member of the container around it. The loop body does nothing when
    [arrayDepth] is 0, and the loop would then spin for ever. *)
Fixpoint collapse (e : ContainerEntry) (bl : list ContainerEntry) (ad : Z)
  : option (ContainerEntry * list ContainerEntry * Z) :=
  if is_array e && (members e =? 1) then
    if ad >? 0 then
      match bl with
      | e' :: bl' => collapse (bump e') bl' (u8 (ad - 1))
      | [] => Some (bump e, [], u8 (ad - 1))
      end
    else None
  else Some (e, bl, ad).

Definition collapse_arrays (st : PState) : res PState :=
  match collapse (outer st) (below st) (arrayDepth st) with
  | Some (e, bl, ad) =>
      Ok {| outer := e; below := bl; structDepth := structDepth st;
            arrayDepth := ad; numMembers := numMembers st |}
  | None => Undef
  end.

(** The [do ... while] loop; each turn consumes a character, so it follows the
    string. Returns the member count and the rest of the signature. *)
Fixpoint pcs_loop (container : AllJoynTypeId) (st : PState) (sig : list Z) {struct sig}
  : res (option Z * list Z) :=
  match sig with
  | [] =>
      let! (st1, _) := pcs_switch container st 0 0 in
      let! st2 := collapse_arrays st1 in
      if structDepth st2 + arrayDepth st2 =? 0 then Ok (numMembers st2, []) else Undef
  | c :: sig1 =>
      let! (st1, twice) := pcs_switch container st c (hd 0 sig1) in
      let! st2 := collapse_arrays st1 in
      let complete := structDepth st2 + arrayDepth st2 =? 0 in
      match twice, sig1 with
      | true, _ :: sig2 =>
          if complete then Ok (numMembers st2, sig2) else pcs_loop container st2 sig2
      | true, [] => Undef
      | false, _ =>
          if complete then Ok (numMembers st2, sig1) else pcs_loop container st2 sig1
      end
  end.

Definition pcs_init (container : AllJoynTypeId) : PState :=
  {| outer := {| c_typeId := container; members := 0 |}; below := [];
     structDepth := if bool_decide (container = ALLJOYN_ARRAY) then 0 else 1;
     arrayDepth := if bool_decide (container = ALLJOYN_ARRAY) then 1 else 0;
     numMembers := None |}.

Definition ParseContainerSignature (container : AllJoynTypeId) (sig : list Z)
  : res (option Z * list Z) :=
  pcs_loop container (pcs_init container) sig.

(** * Complete types *)

Definition ParseCompleteType (sig : list Z) : res (list Z) :=
  match typeId_of_char (hd 0 sig) with
  | ALLJOYN_BYTE | ALLJOYN_INT16 | ALLJOYN_UINT16 | ALLJOYN_BOOLEAN
  | ALLJOYN_INT32 | ALLJOYN_UINT32 | ALLJOYN_DOUBLE | ALLJOYN_UINT64
  | ALLJOYN_INT64 | ALLJOYN_OBJECT_PATH | ALLJOYN_STRING | ALLJOYN_SIGNATURE
  | ALLJOYN_VARIANT | ALLJOYN_STRUCT | ALLJOYN_WILDCARD | ALLJOYN_HANDLE =>
      Ok (tail sig)
  | ALLJOYN_DICT_ENTRY_OPEN =>
      let! (_, rest) := ParseContainerSignature ALLJOYN_DICT_ENTRY (tail sig) in Ok rest
  | ALLJOYN_STRUCT_OPEN =>
      let! (_, rest) := ParseContainerSignature ALLJOYN_STRUCT (tail sig) in Ok rest
  | ALLJOYN_ARRAY =>
      let! (_, rest) := ParseContainerSignature ALLJOYN_ARRAY (tail sig) in Ok rest
  | _ => Fail ER_BUS_BAD_SIGNATURE
  end.

(** The loop of [CountCompleteTypes]: a [uint8_t] counter. Every turn shortens
    the string, so the length of the string is enough fuel. *)
Fixpoint count_loop (fuel : nat) (sig : list Z) (count : Z) : res Z :=
  match sig with
  | [] => Ok count
  | _ =>
      match fuel with
      | O => Undef
      | S fuel =>
          match ParseCompleteType sig with
          | Ok rest => count_loop fuel rest (u8 (count + 1))
          | Fail _ => Ok count
          | Undef => Undef
          end
      end
  end.

Definition CountCompleteTypes (sig : option (list Z)) : res Z :=
  match sig with
  | None => Ok 0
  | Some s => count_loop (length s) s 0
  end.

Fixpoint valid_loop (fuel : nat) (sig : list Z) : res bool :=
  match sig with
  | [] => Ok true
  | _ =>
      match fuel with
      | O => Undef
      | S fuel =>
          match ParseCompleteType sig with
          | Ok rest => valid_loop fuel rest
          | Fail _ => Ok false
          | Undef => Undef
          end
      end
  end.

Definition IsValidSignature (sig : option (list Z)) : res bool :=
  match sig with
  | None => Ok false
  | Some s =>
      let! ok := valid_loop (length s) s in
      Ok (if ok then zlen s <=? 255 else false)
  end.
