(* ===== verification/SigMachine.v ===== *)
(** The container parser of SignatureUtils.cc seen as a machine on its stack:
    the depth counters are functions of the stack, the array it indexes never
    overflows, the array loop ends, and each character has one equation. *)
From S2P Require Import Prelude Types SignatureUtils.

Abbreviation entry t m := {| c_typeId := t; members := m |}.

Definition container_type (t : AllJoynTypeId) : Prop :=
  t = ALLJOYN_ARRAY \/ t = ALLJOYN_STRUCT \/ t = ALLJOYN_DICT_ENTRY.

Fixpoint arrays (s : list ContainerEntry) : Z :=
  match s with
  | [] => 0
  | e :: s => (if is_array e then 1 else 0) + arrays s
  end.

Fixpoint structs (s : list ContainerEntry) : Z :=
  match s with
  | [] => 0
  | e :: s => (if is_array e then 0 else 1) + structs s
  end.

(** An entry of the running parser: an array is left as soon as it has its
    element, so an array on the stack has none yet. *)
Definition entry_ok (e : ContainerEntry) : Prop :=
  container_type (c_typeId e) /\ (is_array e = true -> members e = 0).

Fixpoint bottom_type (s : list ContainerEntry) : option AllJoynTypeId :=
  match s with
  | [] => None
  | [e] => Some (c_typeId e)
  | _ :: s => bottom_type s
  end.

Record stack_ok (ct : AllJoynTypeId) (s : list ContainerEntry) : Prop := {
  so_entries : Forall entry_ok s;
  so_bottom : bottom_type s = Some ct;
  so_arrays : arrays s <= 32;
  so_structs : structs s <= 32
}.

(** The parser state whose counters agree with its stack. *)
Definition mk (e : ContainerEntry) (bl : list ContainerEntry) (nm : option Z) : PState :=
  {| outer := e; below := bl; structDepth := structs (e :: bl);
     arrayDepth := arrays (e :: bl); numMembers := nm |}.

(** One more member for the stack [e :: bl]: enclosing arrays are complete. *)
Fixpoint settle (e : ContainerEntry) (bl : list ContainerEntry)
  : option (ContainerEntry * list ContainerEntry) :=
  if is_array e then
    match bl with
    | [] => None
    | e' :: bl' => settle e' bl'
    end
  else Some (bump e, bl).

(** What the loop does once a member of [e :: bl] is complete. *)
Definition resume (ct : AllJoynTypeId) (e : ContainerEntry) (bl : list ContainerEntry)
    (nm : option Z) (rest : list Z) : res (option Z * list Z) :=
  match settle e bl with
  | None => Ok (nm, rest)
  | Some (e', bl') => pcs_loop ct (mk e' bl' nm) rest
  end.

Lemma arrays_nonneg s : 0 <= arrays s.
Proof. induction s as [|e s]; simpl; [lia|]. destruct (is_array e); lia. Qed.

Lemma structs_nonneg s : 0 <= structs s.
Proof. induction s as [|e s]; simpl; [lia|]. destruct (is_array e); lia. Qed.

Lemma arrays_structs s : arrays s + structs s = zlen s.
Proof. induction s as [|e s]; simpl; [lia|]. destruct (is_array e); lia. Qed.

Lemma is_array_entry t m : is_array (entry t m) = bool_decide (t = ALLJOYN_ARRAY).
Proof. done. Qed.

Lemma push_counts t m s :
  arrays (entry t m :: s) = (if bool_decide (t = ALLJOYN_ARRAY) then arrays s + 1 else arrays s) /\
  structs (entry t m :: s) = (if bool_decide (t = ALLJOYN_ARRAY) then structs s else structs s + 1).
Proof. cbn [arrays structs]. rewrite is_array_entry. case_bool_decide; lia. Qed.

Lemma is_array_bump e : is_array (bump e) = is_array e.
Proof. done. Qed.

Lemma u8_small x : 0 <= x < 256 -> u8 x = x.
Proof. intros. unfold u8. apply Z.mod_small. lia. Qed.

Lemma stack_ok_tail ct e e' bl : stack_ok ct (e :: e' :: bl) -> stack_ok ct (e' :: bl).
Proof.
  intros [He Hb Ha Hs]. inversion He; subst. constructor; [done|done|..].
  - pose proof (arrays_nonneg [e]). simpl in *. lia.
  - pose proof (structs_nonneg [e]). simpl in *. lia.
Qed.

(** The array loop ends and leaves the counters in step with the stack. *)
Lemma collapse_settle e bl :
  Forall entry_ok (e :: bl) -> arrays (e :: bl) <= 32 ->
  exists e2,
  collapse (bump e) bl (arrays (e :: bl)) =
  match settle e bl with
  | Some (e', bl') => Some (e', bl', arrays (e' :: bl'))
  | None => Some (e2, [], 0)
  end.
Proof.
  revert e. induction bl as [|e' bl IH]; intros e Hok Ha;
    inversion Hok as [|?? [_ Hm] Hok']; subst; cbn [collapse settle arrays] in *;
    rewrite is_array_bump; destruct (is_array e) eqn:He; cbn [andb bump members];
    rewrite ?Hm by done.
  - by exists (bump (bump e)).
  - exists e. cbn [arrays]. by rewrite is_array_bump, He.
  - pose proof (arrays_nonneg (e' :: bl)) as Hn.
    destruct (IH e') as [e2 IH2]; [done|lia|]. exists e2. cbn [arrays] in *.
    change (u8 (0 + 1) =? 1) with true. cbv iota.
    rewrite (proj2 (Z.gtb_lt _ _)) by lia. rewrite u8_small by lia.
    rewrite <- IH2. f_equal. lia.
  - exists e. cbn [arrays]. by rewrite is_array_bump, He.
Qed.

Lemma settle_None e bl : settle e bl = None -> structs (e :: bl) = 0.
Proof.
  revert e. induction bl as [|e' bl IH]; intros e; cbn [settle structs];
    destruct (is_array e); intros; try done.
  cbn [structs] in IH. rewrite IH by done. lia.
Qed.

Lemma entry_ok_bump e : is_array e = false -> entry_ok e -> entry_ok (bump e).
Proof. intros He [? _]. split; [done|]. rewrite is_array_bump, He. done. Qed.

Lemma settle_Some ct e bl e' bl' :
  stack_ok ct (e :: bl) -> settle e bl = Some (e', bl') ->
  stack_ok ct (e' :: bl') /\ structs (e' :: bl') = structs (e :: bl) /\
  is_array e' = false /\ exists e0, e' = bump e0.
Proof.
  revert e. induction bl as [|e2 bl IH]; intros e Hok; cbn [settle];
    destruct (is_array e) eqn:He; intros Hs; try done.
  - simplify_eq. destruct Hok as [H1 H2 H3 H4]. inversion H1; subst.
    split_and!; [constructor|..]; cbn [structs arrays] in *; eauto;
      rewrite ?is_array_bump, ?He in *; eauto.
    constructor; [by apply entry_ok_bump|done].
  - destruct (IH e2) as (? & ? & ? & ?); [by eapply stack_ok_tail|done|].
    split_and!; [done| |done|done]. cbn [structs] in *. rewrite He. lia.
  - simplify_eq. destruct Hok as [H1 H2 H3 H4]. inversion H1; subst.
    split_and!; [constructor|..]; cbn [structs arrays] in *; eauto;
      rewrite ?is_array_bump, ?He in *; eauto.
    constructor; [by apply entry_ok_bump|done].
Qed.

Lemma mk_incomplete e bl nm :
  (structDepth (mk e bl nm) + arrayDepth (mk e bl nm) =? 0) = false.
Proof.
  pose proof (arrays_structs (e :: bl)) as H. unfold mk; cbn [structDepth arrayDepth].
  apply Z.eqb_neq. cbn [length] in H. lia.
Qed.

(** The end of a loop turn in which [e :: bl] gained a member. *)
Lemma turn_end ct e bl nm rest :
  stack_ok ct (e :: bl) ->
  rbind (collapse_arrays {| outer := bump e; below := bl; structDepth := structs (e :: bl);
                            arrayDepth := arrays (e :: bl); numMembers := nm |})
    (fun st2 => if structDepth st2 + arrayDepth st2 =? 0 then Ok (numMembers st2, rest)
                else pcs_loop ct st2 rest)
  = resume ct e bl nm rest.
Proof.
  intros Hok. unfold resume, collapse_arrays. cbn [outer below arrayDepth structDepth numMembers].
  destruct (collapse_settle e bl) as [e2 ->]; [apply Hok..|].
  destruct (settle e bl) as [[e' bl']|] eqn:Hs; simpl.
  - destruct (settle_Some _ _ _ _ _ Hok Hs) as (_ & Hst & _).
    pose proof (mk_incomplete e' bl' nm) as Hinc. unfold mk in *.
    cbn [structs arrays structDepth arrayDepth] in *. rewrite <- Hst. by rewrite Hinc.
  - apply settle_None in Hs. cbn [structs] in Hs. by rewrite Hs.
Qed.

(** A turn that changed nothing a finished array depends on. *)
Lemma turn_idle ct e bl nm rest :
  is_array e = false \/ members e = 0 ->
  rbind (collapse_arrays (mk e bl nm))
    (fun st2 => if structDepth st2 + arrayDepth st2 =? 0 then Ok (numMembers st2, rest)
                else pcs_loop ct st2 rest)
  = pcs_loop ct (mk e bl nm) rest.
Proof.
  intros He. unfold collapse_arrays. cbn [mk outer below arrayDepth structDepth numMembers].
  assert (collapse e bl (arrays (e :: bl)) = Some (e, bl, arrays (e :: bl))) as ->.
  { destruct bl; cbn [collapse]; destruct He as [->| ->]; try done; by rewrite andb_false_r. }
  pose proof (mk_incomplete e bl nm) as Hi. unfold mk in *.
  cbn [structDepth arrayDepth rbind] in *. by rewrite Hi.
Qed.

Definition is_leaf (c : Z) : bool :=
  match typeId_of_char c with
  | ALLJOYN_WILDCARD | ALLJOYN_BYTE | ALLJOYN_INT16 | ALLJOYN_UINT16
  | ALLJOYN_BOOLEAN | ALLJOYN_INT32 | ALLJOYN_UINT32 | ALLJOYN_DOUBLE
  | ALLJOYN_UINT64 | ALLJOYN_INT64 | ALLJOYN_OBJECT_PATH | ALLJOYN_STRING
  | ALLJOYN_SIGNATURE | ALLJOYN_VARIANT | ALLJOYN_STRUCT | ALLJOYN_HANDLE => true
  | _ => false
  end.

Section equations.
Context (ct : AllJoynTypeId) (e : ContainerEntry) (bl : list ContainerEntry) (nm : option Z).
Hypothesis Hok : stack_ok ct (e :: bl).

Lemma loop_leaf c rest :
  is_leaf c = true -> pcs_loop ct (mk e bl nm) (c :: rest) = resume ct e bl nm rest.
Proof.
  intros Hc. cbn [pcs_loop].
  assert (pcs_switch ct (mk e bl nm) c (hd 0 rest)
          = Ok (with_outer (mk e bl nm) (bump e), false)) as ->.
  { unfold pcs_switch. unfold is_leaf in Hc. by destruct (typeId_of_char c). }
  cbn [rbind]. by rewrite <- turn_end.
Qed.

Lemma PushContainer_mk t :
  arrays (entry t 0 :: e :: bl) <= 32 -> structs (entry t 0 :: e :: bl) <= 32 ->
  PushContainer t {| outer := e; below := bl;
                     structDepth := structs (entry t 0 :: e :: bl);
                     arrayDepth := arrays (entry t 0 :: e :: bl); numMembers := nm |}
  = Ok (mk (entry t 0) (e :: bl) nm).
Proof.
  intros. pose proof (arrays_structs (entry t 0 :: e :: bl)) as Hl.
  cbn [length] in Hl. unfold PushContainer. cbn [below].
  by rewrite bool_decide_true by lia.
Qed.

Lemma loop_array rest :
  pcs_loop ct (mk e bl nm) (97 :: rest) =
  if arrays (e :: bl) <? 32 then pcs_loop ct (mk (entry ALLJOYN_ARRAY 0) (e :: bl) nm) rest
  else Fail ER_BUS_BAD_SIGNATURE.
Proof using Hok.
  destruct Hok as [H1 H2 H3 H4]. pose proof (arrays_nonneg (e :: bl)).
  cbn [pcs_loop]. unfold pcs_switch. cbn [typeId_of_char].
  cbn [mk arrayDepth structDepth]. rewrite u8_small by lia.
  destruct (Z.ltb_spec (arrays (e :: bl)) 32).
  - destruct (arrays (e :: bl) + 1 >? 32) eqn:Hg; [lia|].
    unfold set_depths. cbn [mk outer below numMembers].
    replace (arrays (e :: bl) + 1) with (arrays (entry ALLJOYN_ARRAY 0 :: e :: bl))
      by (cbn [arrays]; rewrite is_array_entry; simpl; lia).
    change (structs (e :: bl)) with (structs (entry ALLJOYN_ARRAY 0 :: e :: bl)).
    rewrite PushContainer_mk; [|cbn [arrays structs] in *; rewrite is_array_entry; simpl; lia..].
    cbn [rbind]. apply turn_idle. by right.
  - destruct (arrays (e :: bl) + 1 >? 32) eqn:Hg; [done|lia].
Qed.

Lemma push_struct t :
  t = ALLJOYN_STRUCT \/ t = ALLJOYN_DICT_ENTRY -> structs (e :: bl) < 32 ->
  PushContainer t (set_depths (mk e bl nm) (structs (e :: bl) + 1) (arrays (e :: bl)))
  = Ok (mk (entry t 0) (e :: bl) nm).
Proof using Hok.
  intros Ht Hs. destruct Hok as [_ _ H3 _].
  assert (is_array (entry t 0) = false) as Ha
    by (rewrite is_array_entry; destruct Ht as [->| ->]; done).
  assert (arrays (entry t 0 :: e :: bl) = arrays (e :: bl)) as Hea
    by (change (arrays (entry t 0 :: e :: bl)) with
          ((if is_array (entry t 0) then 1 else 0) + arrays (e :: bl)); rewrite Ha; lia).
  assert (structs (entry t 0 :: e :: bl) = structs (e :: bl) + 1) as Hes
    by (change (structs (entry t 0 :: e :: bl)) with
          ((if is_array (entry t 0) then 0 else 1) + structs (e :: bl)); rewrite Ha; lia).
  unfold set_depths. cbn [mk outer below numMembers]. rewrite <- Hea, <- Hes.
  apply PushContainer_mk; lia.
Qed.

Lemma loop_struct_open rest :
  pcs_loop ct (mk e bl nm) (40 :: rest) =
  if structs (e :: bl) <? 32 then pcs_loop ct (mk (entry ALLJOYN_STRUCT 0) (e :: bl) nm) rest
  else Fail ER_BUS_BAD_SIGNATURE.
Proof using Hok.
  pose proof (so_structs _ _ Hok). pose proof (structs_nonneg (e :: bl)).
  cbn [pcs_loop]. unfold pcs_switch. cbn [typeId_of_char].
  change (structDepth (mk e bl nm)) with (structs (e :: bl)).
  change (arrayDepth (mk e bl nm)) with (arrays (e :: bl)). rewrite u8_small by lia.
  destruct (Z.ltb_spec (structs (e :: bl)) 32);
    destruct (structs (e :: bl) + 1 >? 32) eqn:Hg; try lia; [|done].
  rewrite push_struct by eauto. cbn [rbind]. apply turn_idle. by right.
Qed.

Lemma loop_dict_open rest :
  pcs_loop ct (mk e bl nm) (123 :: rest) =
  if structs (e :: bl) <? 32 then
    match rest with
    | k :: rest' =>
        if is_array e && IsBasicType (typeId_of_char k) then
          pcs_loop ct (mk (entry ALLJOYN_DICT_ENTRY 1) (e :: bl) nm) rest'
        else Fail ER_BUS_BAD_SIGNATURE
    | [] => Fail ER_BUS_BAD_SIGNATURE
    end
  else Fail ER_BUS_BAD_SIGNATURE.
Proof using Hok.
  pose proof (so_structs _ _ Hok). pose proof (structs_nonneg (e :: bl)).
  cbn [pcs_loop]. unfold pcs_switch. cbn [typeId_of_char].
  change (structDepth (mk e bl nm)) with (structs (e :: bl)).
  change (arrayDepth (mk e bl nm)) with (arrays (e :: bl)).
  change (outer (mk e bl nm)) with e. rewrite u8_small by lia.
  destruct (Z.ltb_spec (structs (e :: bl)) 32);
    destruct (structs (e :: bl) + 1 >? 32) eqn:Hg; try lia; [|done].
  destruct rest as [|k rest']; cbn [hd].
  { simpl. by rewrite andb_false_r. }
  destruct (is_array e && IsBasicType (typeId_of_char k)); [|done].
  rewrite push_struct by eauto. cbn [rbind].
  change (with_outer _ _) with (mk (entry ALLJOYN_DICT_ENTRY 1) (e :: bl) nm).
  apply turn_idle. by left.
Qed.

Lemma loop_nil : pcs_loop ct (mk e bl nm) [] = Fail ER_BUS_BAD_SIGNATURE.
Proof.
  cbn [pcs_loop]. unfold pcs_switch. cbn [typeId_of_char].
  change (structDepth (mk e bl nm)) with (structs (e :: bl)).
  change (arrayDepth (mk e bl nm)) with (arrays (e :: bl)).
  pose proof (arrays_structs (e :: bl)) as Hl. cbn [length] in Hl.
  destruct (structs (e :: bl) + arrays (e :: bl) >? 0) eqn:Hg; [done|lia].
Qed.

(** A closing bracket of the innermost container. *)
Lemma loop_close c :
  (c = 41 /\ c_typeId e = ALLJOYN_STRUCT /\ members e > 0) \/
  (c = 125 /\ c_typeId e = ALLJOYN_DICT_ENTRY /\ members e = 2) -> forall rest,
  pcs_loop ct (mk e bl nm) (c :: rest) =
  match bl with
  | [] => Ok (if bool_decide (ct = ALLJOYN_STRUCT) then Some (members e) else nm, rest)
  | e' :: bl' => resume ct e' bl' nm rest
  end.
Proof using Hok.
  intros Hc rest. pose proof (so_structs _ _ Hok). pose proof (structs_nonneg bl).
  assert (is_array e = false) as He
    by (unfold is_array; destruct Hc as [(_ & -> & _)|(_ & -> & _)]; done).
  cbn [pcs_loop]. unfold pcs_switch.
  change (structDepth (mk e bl nm)) with (structs (e :: bl)).
  change (arrayDepth (mk e bl nm)) with (arrays (e :: bl)).
  change (outer (mk e bl nm)) with e.
  assert (structs (e :: bl) = structs bl + 1) as Hs by (cbn [structs]; rewrite He; lia).
  assert (arrays (e :: bl) = arrays bl) as Ha by (cbn [arrays]; rewrite He; lia).
  rewrite Hs, Ha. rewrite Hs in *.
  assert (u8 (structs bl + 1 - 1) = structs bl) as Hu by (rewrite u8_small; lia).
  pose proof (so_bottom _ _ Hok) as Hb.
  assert (structs bl = 0 -> bl <> [] -> ct <> ALLJOYN_STRUCT) as Hbot.
  { clear -Hb. intros H0 Hne ->. destruct bl as [|e1 bl1]; [done|]. clear Hne.
    cbn [bottom_type] in Hb. revert e1 H0 Hb. induction bl1 as [|e2 bl2 IH]; intros e1 H0 Hb.
    - injection Hb as Hb. unfold structs, is_array in H0. rewrite Hb in H0. simpl in H0. lia.
    - apply (IH e2); [|done]. pose proof (structs_nonneg (e2 :: bl2)).
      pose proof (structs_nonneg [e1]). cbn [structs] in *. lia. }
  destruct Hc as [(-> & Hte & Hm)|(-> & Hte & Hm)]; cbn [typeId_of_char];
    rewrite Hu; clear Hu.
  - rewrite Hte, bool_decide_true by done.
    destruct (members e >? 0) eqn:Hg; [|lia]. cbn [andb rbind].
    destruct bl as [|e' bl'].
    + cbn [structs arrays]. cbn [bottom_type] in Hb. injection Hb as Hb.
      assert (ct = ALLJOYN_STRUCT) as -> by congruence.
      rewrite (bool_decide_true (ALLJOYN_STRUCT = _)) by done.
      unfold PopContainer, collapse_arrays. cbn. by rewrite is_array_bump, He.
    + assert ((structs (e' :: bl') =? 0) && bool_decide (ct = ALLJOYN_STRUCT) = false) as ->.
      { destruct (structs (e' :: bl') =? 0) eqn:E0; [|done]. apply bool_decide_false.
        apply Hbot; [lia|done]. }
      rewrite <- turn_end; [done|]. by eapply stack_ok_tail.
  - rewrite Hte, bool_decide_true by done. rewrite Hm. cbn [andb rbind Z.eqb Pos.eqb].
    destruct bl as [|e' bl'].
    + cbn [structs arrays]. cbn [bottom_type] in Hb. injection Hb as Hb.
      assert (ct = ALLJOYN_DICT_ENTRY) as -> by congruence.
      rewrite (bool_decide_false (ALLJOYN_DICT_ENTRY = _)) by done.
      unfold PopContainer, collapse_arrays. cbn. by rewrite is_array_bump, He.
    + rewrite <- turn_end; [done|]. by eapply stack_ok_tail.
Qed.

(** Everything else is rejected. *)
Lemma loop_bad c rest :
  is_leaf c = false -> c <> 97 -> c <> 40 -> c <> 123 ->
  ~ (c = 41 /\ c_typeId e = ALLJOYN_STRUCT /\ members e > 0) ->
  ~ (c = 125 /\ c_typeId e = ALLJOYN_DICT_ENTRY /\ members e = 2) ->
  pcs_loop ct (mk e bl nm) (c :: rest) = Fail ER_BUS_BAD_SIGNATURE.
Proof.
  intros Hl H1 H2 H3 H4 H5. cbn [pcs_loop]. unfold pcs_switch, is_leaf in *.
  pose proof (typeId_val_of_char c) as Hv.
  change (structDepth (mk e bl nm)) with (structs (e :: bl)).
  change (arrayDepth (mk e bl nm)) with (arrays (e :: bl)).
  change (outer (mk e bl nm)) with e.
  destruct (typeId_of_char c); try done; cbn [typeId_val] in Hv; subst c; try done.
  - pose proof (arrays_structs (e :: bl)) as Hn. cbn [length] in Hn.
    destruct (structs (e :: bl) + arrays (e :: bl) >? 0) eqn:Hg; [done|lia].
  - case_bool_decide; [|done]. destruct (members e >? 0) eqn:Hg; [|done].
    destruct H4. split_and!; [done|done|lia].
  - case_bool_decide; [|done]. destruct (members e =? 2) eqn:Hg; [|done].
    destruct H5. split_and!; [done|done|lia].
Qed.
End equations.

Definition closes (e : ContainerEntry) (c : Z) : Prop :=
  (c = 41 /\ c_typeId e = ALLJOYN_STRUCT /\ members e > 0) \/
  (c = 125 /\ c_typeId e = ALLJOYN_DICT_ENTRY /\ members e = 2).

#[export] Instance closes_dec e c : Decision (closes e c).
Proof.
  unfold closes. destruct (Z_gt_dec (members e) 0).
  - destruct (decide ((c = 41 /\ c_typeId e = ALLJOYN_STRUCT) \/
      (c = 125 /\ c_typeId e = ALLJOYN_DICT_ENTRY /\ members e = 2))); [left|right]; tauto.
  - destruct (decide (c = 125 /\ c_typeId e = ALLJOYN_DICT_ENTRY /\ members e = 2));
      [left|right]; tauto.
Defined.

(** The characters, by what they do to the machine. *)
Inductive char_view (e : ContainerEntry) : Z -> Prop :=
| CV_leaf c : is_leaf c = true -> char_view e c
| CV_array : char_view e 97
| CV_struct : char_view e 40
| CV_dict : char_view e 123
| CV_close c : closes e c -> char_view e c
| CV_bad c : is_leaf c = false -> c <> 97 -> c <> 40 -> c <> 123 -> ~ closes e c -> char_view e c.

Lemma char_view_all e c : char_view e c.
Proof.
  destruct (is_leaf c) eqn:Hl; [by apply CV_leaf|].
  destruct (decide (c = 97)) as [->|]; [apply CV_array|].
  destruct (decide (c = 40)) as [->|]; [apply CV_struct|].
  destruct (decide (c = 123)) as [->|]; [apply CV_dict|].
  destruct (decide (closes e c)); [by apply CV_close|by apply CV_bad].
Qed.

Lemma loop_bad' ct e bl nm c rest :
  is_leaf c = false -> c <> 97 -> c <> 40 -> c <> 123 -> ~ closes e c ->
  pcs_loop ct (mk e bl nm) (c :: rest) = Fail ER_BUS_BAD_SIGNATURE.
Proof. unfold closes. intros. apply loop_bad; tauto. Qed.

(** * The parser neither overruns its stack nor loops for ever *)

Lemma stack_ok_push ct t e bl :
  container_type t -> stack_ok ct (e :: bl) ->
  arrays (entry t 0 :: e :: bl) <= 32 -> structs (entry t 0 :: e :: bl) <= 32 ->
  stack_ok ct (entry t 0 :: e :: bl).
Proof. intros ? [H1 H2 H3 H4] ??. constructor; [|done..]. by constructor. Qed.

Lemma stack_ok_members ct t m m' bl :
  t <> ALLJOYN_ARRAY -> stack_ok ct (entry t m :: bl) -> stack_ok ct (entry t m' :: bl).
Proof.
  intros Ht [H1 H2 H3 H4].
  assert (is_array (entry t m') = is_array (entry t m)) as Hea by done.
  constructor.
  - inversion H1 as [|?? [Hc _] Hf]; subst. constructor; [|done]. split; [done|].
    rewrite is_array_entry, bool_decide_false by done. done.
  - destruct bl; [done|]. exact H2.
  - cbn [arrays] in *. by rewrite Hea.
  - cbn [structs] in *. by rewrite Hea.
Qed.

Ltac push_depth :=
  rewrite ?(proj1 (push_counts _ _ _)), ?(proj2 (push_counts _ _ _));
  repeat first [rewrite bool_decide_true by done | rewrite bool_decide_false by done].

Lemma stack_ok_push_array ct e bl :
  stack_ok ct (e :: bl) -> arrays (e :: bl) < 32 -> stack_ok ct (entry ALLJOYN_ARRAY 0 :: e :: bl).
Proof. intros [] ?. apply stack_ok_push; [by left|done|..]; push_depth; lia. Qed.

Lemma stack_ok_push_struct ct t m e bl :
  t = ALLJOYN_STRUCT \/ t = ALLJOYN_DICT_ENTRY ->
  stack_ok ct (e :: bl) -> structs (e :: bl) < 32 -> stack_ok ct (entry t m :: e :: bl).
Proof.
  intros Ht [] ?. apply stack_ok_members with (m := 0); [by destruct Ht as [->| ->]|].
  apply stack_ok_push; [by right|done|..]; destruct Ht as [->| ->]; push_depth; lia.
Qed.

Lemma pcs_loop_defined n : forall ct e bl nm sig,
  (length sig <= n)%nat -> stack_ok ct (e :: bl) -> defined (pcs_loop ct (mk e bl nm) sig).
Proof.
  induction n as [|n IH]; intros ct e bl nm [|c rest] Hl Hok; simpl in Hl; try lia;
    try (by rewrite loop_nil).
  assert (forall e bl, stack_ok ct (e :: bl) -> defined (resume ct e bl nm rest)) as Hres.
  { clear e bl Hok. intros e bl Hok. unfold resume. destruct (settle e bl) as [[e' bl']|] eqn:Hs; [|done].
    apply IH; [lia|]. by destruct (settle_Some _ _ _ _ _ Hok Hs). }
  destruct (char_view_all e c) as [c Hc| | | |c Hc|c ?????].
  - rewrite loop_leaf by done. by apply Hres.
  - rewrite loop_array by done. destruct (Z.ltb_spec (arrays (e :: bl)) 32); [|done].
    apply IH; [lia|by apply stack_ok_push_array].
  - rewrite loop_struct_open by done. destruct (Z.ltb_spec (structs (e :: bl)) 32); [|done].
    apply IH; [lia|by apply stack_ok_push_struct; [left|..]].
  - rewrite loop_dict_open by done. destruct (Z.ltb_spec (structs (e :: bl)) 32); [|done].
    destruct rest as [|k rest]; [done|]. destruct (is_array e && _); [|done].
    apply IH; [simpl in Hl; lia|by apply stack_ok_push_struct; [right|..]].
  - rewrite loop_close by done. destruct bl; [done|]. apply Hres. by eapply stack_ok_tail.
  - by rewrite loop_bad'.
Qed.

Lemma stack_ok_init ct : container_type ct -> stack_ok ct [entry ct 0].
Proof.
  intros Hct. constructor; [by apply Forall_singleton|done|..]; push_depth;
    case_bool_decide; simpl; lia.
Qed.

Lemma pcs_init_mk ct : pcs_init ct = mk (entry ct 0) [] None.
Proof. unfold pcs_init, mk. cbn [structs arrays]. rewrite is_array_entry. by case_bool_decide. Qed.

(** [ParseContainerSignature] never writes past [containerStack[64]] and
    its inner loop over finished arrays always ends: on every string, for each
    of the three container kinds the function is called with, the outcome is a
    status or a result, never undefined behaviour. *)
Theorem ParseContainerSignature_safe :
  (forall sig, defined (ParseContainerSignature ALLJOYN_STRUCT sig)) /\
  (forall sig, defined (ParseContainerSignature ALLJOYN_DICT_ENTRY sig)) /\
  (forall sig, defined (ParseContainerSignature ALLJOYN_ARRAY sig)).
Proof.
  unfold ParseContainerSignature. split_and!; intros sig; rewrite pcs_init_mk;
    apply (pcs_loop_defined (length sig)); try done; apply stack_ok_init;
    unfold container_type; eauto.
Qed.
