(* ===== verification/SigGrammar.v ===== *)
(** The signatures the parser accepts, as a grammar, and the two directions of
    its correctness: every printed type is recognised, and whatever is
    recognised is a printed type. *)
From S2P Require Import Prelude Types SignatureUtils SigMachine.

Inductive sigty : Type :=
| SLeaf (c : Z)
| SArray (t : sigty)
| SStruct (ts : list sigty)
| SDict (k v : sigty).

Section sigty_induction.
Variable P : sigty -> Prop.
Hypothesis Hleaf : forall c, P (SLeaf c).
Hypothesis Harr : forall t, P t -> P (SArray t).
Hypothesis Hstr : forall ts, Forall P ts -> P (SStruct ts).
Hypothesis Hdict : forall k v, P k -> P v -> P (SDict k v).
Fixpoint sigty_nested_ind (t : sigty) : P t :=
  match t with
  | SLeaf c => Hleaf c
  | SArray t => Harr t (sigty_nested_ind t)
  | SStruct ts =>
      Hstr ts ((fix all (l : list sigty) : Forall P l :=
        match l with
        | [] => @Forall_nil_2 _ P
        | t :: l => @Forall_cons_2 _ P t l (sigty_nested_ind t) (all l)
        end) ts)
  | SDict k v => Hdict k v (sigty_nested_ind k) (sigty_nested_ind v)
  end.
End sigty_induction.

(** The text of a type. *)
Fixpoint print (t : sigty) : list Z :=
  match t with
  | SLeaf c => [c]
  | SArray t => 97 :: print t
  | SStruct ts => 40 :: concat (map print ts) ++ [41]
  | SDict k v => 123 :: print k ++ print v ++ [125]
  end.

Abbreviation prints ts := (concat (map print ts)).

Definition basic_key (t : sigty) : bool :=
  match t with SLeaf c => IsBasicType (typeId_of_char c) | _ => false end.

(** A type that may appear inside [sd] open structs or dictionary entries and
    [ad] open arrays; [inarr] when it is the element of an array. *)
Fixpoint wf_ty (sd ad : Z) (inarr : bool) (t : sigty) : bool :=
  match t with
  | SLeaf c => is_leaf c
  | SArray t => (ad <? 32) && wf_ty sd (ad + 1) true t
  | SStruct ts =>
      (sd <? 32) && (0 <? zlen ts) && (zlen ts <? 256) && forallb (wf_ty (sd + 1) ad false) ts
  | SDict k v => inarr && (sd <? 32) && basic_key k && wf_ty (sd + 1) ad false v
  end.

Lemma print_nonempty t : print t <> [].
Proof. by destruct t. Qed.

Lemma length_prints ts : (length ts <= length (prints ts))%nat.
Proof.
  induction ts as [|t ts]; simpl; [lia|]. rewrite length_app.
  pose proof (print_nonempty t). destruct (print t); simpl; [done|lia].
Qed.

(** * Every well-formed type is recognised *)

Lemma settle_struct e bl : is_array e = false -> settle e bl = Some (bump e, bl).
Proof. intros He. destruct bl; cbn [settle]; by rewrite He. Qed.

Definition accepts (t : sigty) : Prop := forall ct e bl nm rest,
  stack_ok ct (e :: bl) ->
  wf_ty (structs (e :: bl)) (arrays (e :: bl)) (is_array e) t = true ->
  pcs_loop ct (mk e bl nm) (print t ++ rest) = resume ct e bl nm rest.

(** The members of a struct or a dictionary entry, one after the other. *)
Lemma loop_prints ct ty bl nm : forall ts m rest,
  Forall accepts ts -> ty <> ALLJOYN_ARRAY -> stack_ok ct (entry ty m :: bl) ->
  0 <= m -> m + zlen ts < 256 ->
  forallb (wf_ty (structs (entry ty m :: bl)) (arrays (entry ty m :: bl)) false) ts = true ->
  pcs_loop ct (mk (entry ty m) bl nm) (prints ts ++ rest)
  = pcs_loop ct (mk (entry ty (m + zlen ts)) bl nm) rest.
Proof.
  induction ts as [|t ts IH]; intros m rest Hacc Hty Hok Hm Hlt Hwf; cbn [map concat].
  - simpl. by rewrite Z.add_0_r.
  - inversion Hacc as [|?? Ht Hts]; subst. cbn [forallb] in Hwf.
    apply andb_true_iff in Hwf as [Hwt Hwts]. cbn [length] in Hlt.
    rewrite <- app_assoc, Ht; [|done|by rewrite is_array_entry, bool_decide_false].
    unfold resume. rewrite settle_struct by (by rewrite is_array_entry, bool_decide_false).
    replace (bump (entry ty m)) with (entry ty (m + 1))
      by (unfold bump; cbn [c_typeId members]; rewrite u8_small by lia; done).
    rewrite IH; [|done|done|by eapply stack_ok_members|lia|lia|done].
    cbn [length]. by rewrite Nat2Z.inj_succ, <- Z.add_assoc, Z.add_1_l.
Qed.

Ltac split_andb H :=
  repeat match type of H with
  | _ && _ = true => let H' := fresh H in apply andb_true_iff in H as [H H']
  end.

Lemma accepts_all t : accepts t.
Proof.
  induction t as [c|t IH|ts IH|k v IHk IHv] using sigty_nested_ind;
    intros ct e bl nm rest Hok Hwf; cbn [print wf_ty app] in *.
  - by apply loop_leaf.
  - split_andb Hwf. rewrite loop_array, Hwf by done.
    assert (stack_ok ct (entry ALLJOYN_ARRAY 0 :: e :: bl)) as Hok'.
    { apply stack_ok_push_array; [done|lia]. }
    rewrite (IH ct); [|done|].
    + unfold resume. cbn [settle]. by rewrite is_array_entry.
    + push_depth. by rewrite is_array_entry.
  - split_andb Hwf. rewrite loop_struct_open, Hwf by done. rewrite <- app_assoc.
    assert (stack_ok ct (entry ALLJOYN_STRUCT 0 :: e :: bl)) as Hok'.
    { apply stack_ok_push_struct; [by left|done|lia]. }
    rewrite loop_prints; [|done|done|done|lia|lia|].
    + simpl app. rewrite loop_close; [done|by eapply stack_ok_members|].
      left. split_and!; [done|done|cbn [members]; lia].
    + by push_depth.
  - split_andb Hwf. destruct k as [k| | |]; try done. cbn [print app basic_key] in *.
    rewrite loop_dict_open, Hwf2, Hwf, Hwf1 by done. cbn [andb].
    assert (stack_ok ct (entry ALLJOYN_DICT_ENTRY 1 :: e :: bl)) as Hok'.
    { apply stack_ok_push_struct; [by right|done|lia]. }
    pose proof (loop_prints ct ALLJOYN_DICT_ENTRY (e :: bl) nm [v] 1 (125 :: rest)) as Hv.
    cbn [map concat] in Hv. rewrite app_nil_r in Hv. rewrite <- app_assoc. simpl app.
    rewrite Hv; [|by constructor|done|done|lia|simpl; lia|].
    + rewrite loop_close; [done|by eapply stack_ok_members|]. by right.
    + cbn [forallb]. rewrite andb_true_r. by push_depth.
Qed.

(** * Whatever is recognised is a well-formed type

    [after s c]: the text [c] completes the containers of [s], the innermost of
    which has just got one more member; [now s c]: the same before any more
    member. *)

Definition closer (e : ContainerEntry) : Z :=
  if bool_decide (c_typeId e = ALLJOYN_STRUCT) then 41 else 125.

Definition count_ok (e : ContainerEntry) (n : Z) : Prop :=
  if bool_decide (c_typeId e = ALLJOYN_STRUCT) then 0 < n < 256 else n = 2.

Fixpoint after (s : list ContainerEntry) (c : list Z) : Prop :=
  match s with
  | [] => c = []
  | e :: bl =>
      if is_array e then after bl c
      else exists ts c', c = prints ts ++ closer e :: c' /\
             forallb (wf_ty (structs s) (arrays s) false) ts = true /\
             count_ok e (members e + 1 + zlen ts) /\ after bl c'
  end.

Definition now (e : ContainerEntry) (bl : list ContainerEntry) (c : list Z) : Prop :=
  if is_array e then
    exists t c', c = print t ++ c' /\
      wf_ty (structs (e :: bl)) (arrays (e :: bl)) true t = true /\ after bl c'
  else exists ts c', c = prints ts ++ closer e :: c' /\
         forallb (wf_ty (structs (e :: bl)) (arrays (e :: bl)) false) ts = true /\
         count_ok e (members e + zlen ts) /\ after bl c'.

Lemma now_member e bl t c :
  wf_ty (structs (e :: bl)) (arrays (e :: bl)) (is_array e) t = true ->
  after (e :: bl) c -> now e bl (print t ++ c).
Proof.
  unfold now. cbn [after]. destruct (is_array e) eqn:He; intros Hwf.
  - eauto.
  - intros (ts & c' & -> & Hts & Hn & Hc). exists (t :: ts), c'. cbn [map concat forallb].
    rewrite Hwf, Hts, <- app_assoc. split_and!; [done..| |done].
    cbn [length]. replace (members e + Z.of_nat (S (length ts))) with (members e + 1 + zlen ts) by lia.
    done.
Qed.

(** No counter wraps while at most [n] characters are left. *)
Definition no_wrap (n : nat) (s : list ContainerEntry) : Prop :=
  Forall (fun e => 0 <= members e /\ members e + Z.of_nat n < 256) s.

Lemma no_wrap_cons n e s :
  no_wrap n (e :: s) <-> (0 <= members e /\ members e + Z.of_nat n < 256) /\ no_wrap n s.
Proof. unfold no_wrap. by rewrite Forall_cons. Qed.

Lemma no_wrap_le n n' s : (n' <= n)%nat -> no_wrap n s -> no_wrap n' s.
Proof. intros ? H. eapply Forall_impl; [exact H|]. simpl. lia. Qed.

Lemma bump_small e : 0 <= members e < 255 -> bump e = entry (c_typeId e) (members e + 1).
Proof. intros. unfold bump. by rewrite u8_small by lia. Qed.

Lemma settle_no_wrap n e bl e' bl' :
  no_wrap (S n) (e :: bl) -> settle e bl = Some (e', bl') -> no_wrap n (e' :: bl').
Proof.
  revert e. induction bl as [|e2 bl IH]; intros e Hn; cbn [settle]; inversion Hn; subst;
    destruct (is_array e); intros; simplify_eq; eauto;
    rewrite bump_small by lia; constructor; cbn [members]; try lia;
    by apply no_wrap_le with (n := S n); [lia|].
Qed.

Lemma settle_after n e bl :
  no_wrap (S n) (e :: bl) ->
  match settle e bl with
  | None => after (e :: bl) []
  | Some (e', bl') => forall c, now e' bl' c -> after (e :: bl) c
  end.
Proof.
  revert e. induction bl as [|e2 bl IH]; intros e Hn; cbn [settle]; inversion Hn; subst;
    destruct (is_array e) eqn:He.
  - simpl. by rewrite He.
  - intros c. unfold now. rewrite is_array_bump, He. cbn [after]. rewrite He.
    rewrite bump_small by lia. intros (ts & c' & Hc). by exists ts, c'.
  - specialize (IH e2 ltac:(done)). destruct (settle e2 bl) as [[e' bl']|];
      [intros c Hc; specialize (IH c Hc)|]; cbn [after] in *; by rewrite He.
  - intros c. unfold now. rewrite is_array_bump, He. cbn [after]. rewrite He.
    rewrite bump_small by lia. cbn [structs arrays].
    change (is_array (entry (c_typeId e) (members e + 1))) with (is_array e).
    intros (ts & c' & Hc). by exists ts, c'.
Qed.

Definition struct_count (ct : AllJoynTypeId) (nm : option Z) : Prop :=
  ct = ALLJOYN_STRUCT -> exists n, nm = Some n /\ 0 < n < 256.

Definition sound_for (n : nat) : Prop := forall ct e bl nm sig nm' rest,
  (length sig <= n)%nat -> stack_ok ct (e :: bl) -> no_wrap (length sig) (e :: bl) ->
  pcs_loop ct (mk e bl nm) sig = Ok (nm', rest) ->
  (exists c, sig = c ++ rest /\ now e bl c) /\ struct_count ct nm'.

Lemma settle_None_bottom e bl ct :
  settle e bl = None -> bottom_type (e :: bl) = Some ct -> ct = ALLJOYN_ARRAY.
Proof.
  revert e. induction bl as [|e' bl IH]; intros e; cbn [settle];
    unfold is_array at 1; case_bool_decide as Ha; intros Hs Hb; try done.
  - cbn in Hb. congruence.
  - eapply IH; [done|]. done.
Qed.

Lemma resume_sound n ct e bl nm sig nm' rest :
  sound_for n -> (length sig <= n)%nat -> stack_ok ct (e :: bl) ->
  no_wrap (S (length sig)) (e :: bl) ->
  resume ct e bl nm sig = Ok (nm', rest) ->
  (exists c, sig = c ++ rest /\ after (e :: bl) c) /\ struct_count ct nm'.
Proof.
  intros IH Hl Hok Hn. unfold resume. pose proof (settle_after _ _ _ Hn) as Ha.
  destruct (settle e bl) as [[e' bl']|] eqn:Hs.
  - intros Hr. destruct (settle_Some _ _ _ _ _ Hok Hs) as (Hok' & _).
    apply IH in Hr as ((c & -> & Hc) & Hnm); [|done|done|by eapply settle_no_wrap].
    split; [|done]. exists c. split; [done|]. by apply Ha.
  - intros [= <- <-]. split; [by exists []|]. intros ->.
    by pose proof (settle_None_bottom _ _ _ Hs (so_bottom _ _ Hok)).
Qed.

(** One turn of the loop, by the character it consumes, when the turns after it
    are sound. *)
Section sound_turn.
Context (n : nat) (ct : AllJoynTypeId) (e : ContainerEntry) (bl : list ContainerEntry) (nm nm' : option Z) (rest : list Z).
Context (IH : sound_for n) (Hok : stack_ok ct (e :: bl)).

Abbreviation turn_sound c sig :=
  ((Nat.le (length sig) n) -> no_wrap (S (length sig)) (e :: bl) ->
   pcs_loop ct (mk e bl nm) (c :: sig) = Ok (nm', rest) ->
   (exists t, c :: sig = t ++ rest /\ now e bl t) /\ struct_count ct nm').

Lemma sound_leaf c sig : is_leaf c = true -> turn_sound c sig.
Proof using IH Hok.
  intros Hc Hl Hnw Hr. rewrite loop_leaf in Hr by done.
  apply (resume_sound n) in Hr as ((c' & -> & Ha) & Hn); [|done..].
  split; [|done]. exists (c :: c'). split; [done|]. by apply (now_member e bl (SLeaf c)).
Qed.

Lemma no_wrap_push (sig : list Z) k t m : no_wrap (S (length sig)) (e :: bl) -> (k <= length sig)%nat ->
  0 <= m <= 1 -> (m = 1 -> (k < length sig)%nat) -> no_wrap k (entry t m :: e :: bl).
Proof using.
  intros Hnw Hk Hm Hm1. apply no_wrap_cons. split; [|by apply no_wrap_le with (n := S (length sig)); [lia|]].
  apply no_wrap_cons in Hnw. cbn [members]. lia.
Qed.

Lemma sound_array sig : turn_sound 97 sig.
Proof using IH Hok.
  intros Hl Hnw Hr. rewrite loop_array in Hr by done. destruct (Z.ltb_spec (arrays (e :: bl)) 32); [|done].
  apply IH in Hr as ((c' & -> & Hnow) & Hn); [|done|by apply stack_ok_push_array|by eapply no_wrap_push; [done|lia..]].
  split; [|done]. unfold now in Hnow. rewrite is_array_entry, bool_decide_true in Hnow by done.
  destruct Hnow as (t & c2 & -> & Hwf & Ha). exists (97 :: print t ++ c2). split; [done|].
  apply (now_member e bl (SArray t)); [|done]. cbn [wf_ty].
  revert Hwf. push_depth. intros ->. rewrite andb_true_r. by apply Z.ltb_lt.
Qed.

Lemma sound_struct_open sig : turn_sound 40 sig.
Proof using IH Hok.
  intros Hl Hnw Hr. rewrite loop_struct_open in Hr by done. destruct (Z.ltb_spec (structs (e :: bl)) 32); [|done].
  apply IH in Hr as ((c' & -> & Hnow) & Hn);
    [|done|by apply stack_ok_push_struct; [left|..]|by eapply no_wrap_push; [done|lia..]].
  split; [|done]. unfold now in Hnow. rewrite is_array_entry, bool_decide_false in Hnow by done.
  destruct Hnow as (ts & c2 & -> & Hwf & Hcnt & Ha).
  exists (40 :: prints ts ++ 41 :: c2). split; [done|].
  pose proof (now_member e bl (SStruct ts) c2) as Hm. cbn [print app] in Hm.
  rewrite <- app_assoc in Hm. apply Hm; [|done]. cbn [wf_ty].
  revert Hwf. push_depth. intros ->. rewrite andb_true_r. unfold count_ok in Hcnt.
  rewrite bool_decide_true in Hcnt by done. cbn [members] in Hcnt.
  rewrite !andb_true_iff, !Z.ltb_lt. lia.
Qed.

Lemma sound_dict_open sig : turn_sound 123 sig.
Proof using IH Hok.
  intros Hl Hnw Hr. rewrite loop_dict_open in Hr by done. destruct (Z.ltb_spec (structs (e :: bl)) 32); [|done].
  destruct sig as [|k sig]; [done|]. destruct (is_array e && _) eqn:Hk; [|done]. split_andb Hk.
  apply IH in Hr as ((c' & -> & Hnow) & Hn);
    [|simpl in Hl; lia|by apply stack_ok_push_struct; [right|..]|by eapply no_wrap_push; [done|simpl; lia..]].
  split; [|done]. unfold now in Hnow. rewrite is_array_entry, bool_decide_false in Hnow by done.
  destruct Hnow as (ts & c2 & -> & Hwf & Hcnt & Ha). unfold count_ok in Hcnt.
  rewrite bool_decide_false in Hcnt by done. cbn [members] in Hcnt.
  destruct ts as [|v [|]]; simpl in Hcnt; try lia. cbn [map concat forallb] in *.
  rewrite app_nil_r in *. exists (123 :: k :: print v ++ 125 :: c2). split; [done|].
  pose proof (now_member e bl (SDict (SLeaf k) v) c2) as Hm. cbn [print app] in Hm.
  rewrite <- app_assoc in Hm. apply Hm; [|done]. cbn [wf_ty basic_key].
  revert Hwf. push_depth. rewrite andb_true_r. intros ->. rewrite Hk, Hk0.
  rewrite !andb_true_iff. split_and!; try done. by apply Z.ltb_lt.
Qed.

Lemma sound_close c sig : closes e c -> turn_sound c sig.
Proof using IH Hok.
  intros Hc Hl Hnw Hr. rewrite loop_close in Hr by done.
  assert (is_array e = false) as He
    by (unfold is_array; destruct Hc as [(_ & -> & _)|(_ & -> & _)]; done).
  assert (closer e = c /\ count_ok e (members e)) as [Hcl Hcnt].
  { apply no_wrap_cons in Hnw as [Hnw _]. unfold closer, count_ok.
    destruct Hc as [(-> & -> & ?)|(-> & -> & ?)]; simpl; split; try done; lia. }
  assert (forall c', after bl c' -> now e bl (c :: c')) as Hnow.
  { intros c' Ha. unfold now. rewrite He. exists [], c'. simpl. rewrite Z.add_0_r, Hcl. done. }
  destruct bl as [|e' bl'].
  - injection Hr as <- <-. split; [exists [c]; split; [done|by apply Hnow]|]. intros ->.
    rewrite bool_decide_true by done. eexists. split; [done|]. unfold count_ok in Hcnt.
    pose proof (so_bottom _ _ Hok) as Hb. cbn in Hb. injection Hb as Hb.
    by rewrite bool_decide_true in Hcnt.
  - apply (resume_sound n) in Hr as ((c' & -> & Ha) & Hn); [|done|lia|by eapply stack_ok_tail|].
    + split; [|done]. exists (c :: c'). split; [done|by apply Hnow].
    + by inversion Hnw.
Qed.
End sound_turn.

(** The text consumed by the loop completes its stack. *)
Lemma pcs_loop_sound n : sound_for n.
Proof.
  induction n as [|n IH]; intros ct e bl nm [|c sig] nm' rest Hl Hok Hnw Hr; simpl in Hl; try lia;
    try (by rewrite loop_nil in Hr).
  cbn [length] in Hnw. assert (length sig <= n)%nat as Hl' by lia.
  destruct (char_view_all e c) as [c Hc| | | |c Hc|c ?????].
  - by apply (sound_leaf n _ _ _ nm).
  - by apply (sound_array n _ _ _ nm).
  - by apply (sound_struct_open n _ _ _ nm).
  - by apply (sound_dict_open n _ _ _ nm).
  - by apply (sound_close n _ _ _ nm).
  - by rewrite loop_bad' in Hr.
Qed.

(** * Complete types and whole signatures *)

(** A type at the start of a signature. Unlike the element of an array, a
    dictionary entry is accepted here on its own and with any type of key. *)
Definition wf_top (t : sigty) : bool :=
  match t with
  | SLeaf c => is_leaf c
  | SArray t => wf_ty 0 1 true t
  | SStruct ts => (0 <? zlen ts) && (zlen ts <? 256) && forallb (wf_ty 1 0 false) ts
  | SDict k v => wf_ty 1 0 false k && wf_ty 1 0 false v
  end.

Lemma accepts_Forall ts : Forall accepts ts.
Proof. apply Forall_true, accepts_all. Qed.

Lemma ParseContainerSignature_array t rest :
  wf_ty 0 1 true t = true ->
  ParseContainerSignature ALLJOYN_ARRAY (print t ++ rest) = Ok (None, rest).
Proof.
  intros Hwf. unfold ParseContainerSignature. rewrite pcs_init_mk.
  rewrite accepts_all; [done| |done]. apply stack_ok_init. by left.
Qed.

Lemma ParseContainerSignature_struct ts rest :
  0 < zlen ts < 256 -> forallb (wf_ty 1 0 false) ts = true ->
  ParseContainerSignature ALLJOYN_STRUCT (prints ts ++ 41 :: rest) = Ok (Some (zlen ts), rest).
Proof.
  intros Hn Hwf. unfold ParseContainerSignature. rewrite pcs_init_mk.
  assert (stack_ok ALLJOYN_STRUCT [entry ALLJOYN_STRUCT 0]) as Hok
    by (apply stack_ok_init; by right; left).
  rewrite loop_prints; [|apply accepts_Forall|done|done|lia|lia|done].
  rewrite loop_close; [done|by eapply stack_ok_members|].
  left. split_and!; [done|done|cbn [members]; lia].
Qed.

Lemma ParseContainerSignature_dict k v rest :
  wf_ty 1 0 false k = true -> wf_ty 1 0 false v = true ->
  ParseContainerSignature ALLJOYN_DICT_ENTRY (print k ++ print v ++ 125 :: rest) = Ok (None, rest).
Proof.
  intros Hk Hv. unfold ParseContainerSignature. rewrite pcs_init_mk.
  assert (stack_ok ALLJOYN_DICT_ENTRY [entry ALLJOYN_DICT_ENTRY 0]) as Hok
    by (apply stack_ok_init; by right; right).
  replace (print k ++ print v ++ 125 :: rest) with (prints [k; v] ++ 125 :: rest)
    by (simpl; by rewrite app_nil_r, <- app_assoc).
  rewrite loop_prints; [|apply accepts_Forall|done|done|lia|simpl; lia|].
  - rewrite loop_close; [done|by eapply stack_ok_members|]. by right.
  - cbn [forallb]. change (structs [entry ALLJOYN_DICT_ENTRY 0]) with 1.
    change (arrays [entry ALLJOYN_DICT_ENTRY 0]) with 0. by rewrite Hk, Hv.
Qed.

Lemma ParseCompleteType_print t rest :
  wf_top t = true -> ParseCompleteType (print t ++ rest) = Ok rest.
Proof.
  destruct t as [c|t|ts|k v]; cbn [wf_top print]; intros Hwf; unfold ParseCompleteType.
  - simpl hd. simpl tail. unfold is_leaf in Hwf. by destruct (typeId_of_char c).
  - cbn [app hd tail typeId_of_char]. by rewrite ParseContainerSignature_array.
  - split_andb Hwf. cbn [app hd tail typeId_of_char]. rewrite <- app_assoc. simpl app.
    rewrite ParseContainerSignature_struct; [done|lia|done].
  - split_andb Hwf. cbn [app hd tail typeId_of_char]. rewrite <- !app_assoc. simpl app.
    by rewrite ParseContainerSignature_dict.
Qed.

Lemma container_sound ct sig nm rest :
  container_type ct -> (length sig < 256)%nat ->
  ParseContainerSignature ct sig = Ok (nm, rest) ->
  (exists c, sig = c ++ rest /\ now (entry ct 0) [] c) /\ struct_count ct nm.
Proof.
  intros Hct Hl. unfold ParseContainerSignature. rewrite pcs_init_mk.
  apply (pcs_loop_sound (length sig)); [done|by apply stack_ok_init|].
  apply no_wrap_cons. split; [cbn [members]; lia|constructor].
Qed.

Lemma ParseCompleteType_sound sig rest :
  (length sig <= 256)%nat -> ParseCompleteType sig = Ok rest ->
  exists t, wf_top t = true /\ sig = print t ++ rest.
Proof.
  intros Hl. destruct sig as [|c sig]; [done|]. unfold ParseCompleteType. simpl hd. simpl tail.
  simpl in Hl. intros Hp. destruct (is_leaf c) eqn:Hc.
  { exists (SLeaf c). split; [done|]. unfold is_leaf in Hc.
    destruct (typeId_of_char c); try done; by injection Hp as ->. }
  pose proof (typeId_val_of_char c) as Hv. unfold is_leaf in Hc.
  destruct (typeId_of_char c); try done; cbn [typeId_val] in Hv; subst c;
    apply rbind_Ok in Hp as ([nm r] & Hp & [= ->]);
    apply container_sound in Hp as ((c & -> & Hn) & _); try lia;
    unfold container_type; eauto; unfold now in Hn; cbn [structs arrays after] in Hn;
    rewrite is_array_entry in Hn.
  - rewrite bool_decide_true in Hn by done. destruct Hn as (t & c' & -> & Hwf & ->).
    exists (SArray t). by rewrite app_nil_r.
  - rewrite bool_decide_false in Hn by done.
    destruct Hn as (ts & c' & -> & Hwf & Hcnt & ->). exists (SStruct ts).
    unfold count_ok in Hcnt. rewrite bool_decide_true in Hcnt by done. cbn [members] in Hcnt.
    split; [|done]. cbn [wf_top].
    rewrite !andb_true_iff, !Z.ltb_lt. split_and!; [lia|lia|exact Hwf].
  - rewrite bool_decide_false in Hn by done.
    destruct Hn as (ts & c' & -> & Hwf & Hcnt & ->).
    unfold count_ok in Hcnt. rewrite bool_decide_false in Hcnt by done. cbn [members] in Hcnt.
    destruct ts as [|k [|v [|]]]; simpl in Hcnt; try lia. exists (SDict k v).
    cbn [forallb map concat] in *. rewrite app_nil_r in *. rewrite andb_true_r in Hwf.
    split; [exact Hwf|]. cbn [print app closer]. by rewrite <- !app_assoc.
Qed.

Lemma ParseCompleteType_defined sig : defined (ParseCompleteType sig).
Proof.
  unfold ParseCompleteType. destruct (typeId_of_char (hd 0 sig)); try done;
    apply rbind_defined; try (intros []; done);
    unfold ParseContainerSignature; rewrite pcs_init_mk;
    (apply (pcs_loop_defined (length (tail sig))); [done|]);
    apply stack_ok_init; unfold container_type; eauto.
Qed.


(** The parser always moves forward, whatever the length of the signature. *)
Lemma pcs_loop_shorter n : forall ct st sig nm rest,
  (length sig <= n)%nat -> pcs_loop ct st sig = Ok (nm, rest) ->
  (length rest <= length sig)%nat.
Proof.
  induction n as [|n IH]; intros ct st [|c sig] nm rest Hl; simpl in Hl; try lia;
    cbn [pcs_loop]; intros Hp; apply rbind_Ok in Hp as ([st1 tw] & _ & Hp);
    apply rbind_Ok in Hp as (st2 & _ & Hp).
  - by inv_Ok.
  - by inv_Ok.
  - destruct tw; [destruct sig as [|k sig]; [done|]|];
      (destruct (structDepth st2 + arrayDepth st2 =? 0); [injection Hp as <- <-; simpl; lia|]);
      apply IH in Hp; simpl in *; lia.
Qed.

Lemma ParseCompleteType_shorter sig rest :
  ParseCompleteType sig = Ok rest -> (length rest < length sig)%nat.
Proof.
  destruct sig as [|c sig]; [done|]. unfold ParseCompleteType. simpl hd. simpl tail.
  destruct (typeId_of_char c); intros Hp; try done; try (injection Hp as <-; simpl; lia);
    apply rbind_Ok in Hp as ([nm r] & Hp & [= ->]);
    apply (pcs_loop_shorter (length sig)) in Hp; simpl; lia.
Qed.

Lemma valid_loop_total fuel sig :
  (length sig <= fuel)%nat -> exists b, valid_loop fuel sig = Ok b.
Proof.
  revert sig. induction fuel as [|fuel IH]; intros [|c sig] Hl; try (simpl in Hl; lia); eauto.
  cbn [valid_loop]. destruct (ParseCompleteType (c :: sig)) as [rest| |] eqn:Hp; eauto.
  - apply IH. apply ParseCompleteType_shorter in Hp. simpl in *. lia.
  - by destruct (ParseCompleteType_defined (c :: sig)).
Qed.

Lemma valid_loop_true fuel sig :
  (length sig <= fuel)%nat -> (length sig <= 256)%nat ->
  valid_loop fuel sig = Ok true <-> exists ts, sig = prints ts /\ forallb wf_top ts = true.
Proof.
  revert sig. induction fuel as [|fuel IH]; intros [|c sig] Hl Hl2; try (simpl in Hl; lia).
  - split; [by exists []|done].
  - split; [by exists []|done].
  - cbn [valid_loop]. split.
    + destruct (ParseCompleteType (c :: sig)) as [rest| |] eqn:Hp; try done. intros Hv.
      pose proof (ParseCompleteType_shorter _ _ Hp) as Hs.
      apply ParseCompleteType_sound in Hp as (t & Ht & ->); [|done].
      apply IH in Hv as (ts & -> & Hts); [|simpl in *; lia..].
      exists (t :: ts). simpl. by rewrite Ht, Hts.
    + intros ([|t ts] & Hs & Hts); [done|]. simpl in Hts. split_andb Hts.
      cbn [map concat] in Hs. rewrite Hs, ParseCompleteType_print by done.
      pose proof (ParseCompleteType_shorter _ _ (ParseCompleteType_print t (prints ts) Hts)) as Hlt.
      rewrite <- Hs in Hlt. apply IH; [simpl in *; lia..|]. eauto.
Qed.

(** C1: [IsValidSignature] terminates on every string and answers true exactly for the
    texts, at most 255 characters long, of a sequence of complete types within the
    nesting limits (32 arrays, 32 structs). The grammar [wf_top] is the code's: a leaf
    is one of its letters, the wildcard ['*'] and ['r'] included; an array element may
    be a dictionary entry, whose key is then a basic type; a dictionary entry that is no
    array element is accepted too, outside of other types, and its key is any type. *)
Theorem IsValidSignature_correct (s : list Z) :
  exists b, IsValidSignature (Some s) = Ok b /\
  (b = true <-> zlen s <= 255 /\ exists ts, s = prints ts /\ forallb wf_top ts = true).
Proof.
  unfold IsValidSignature. destruct (valid_loop_total (length s) s) as [b Hb]; [done|].
  rewrite Hb. simpl. eexists. split; [done|]. destruct (Z.leb_spec (zlen s) 255).
  - pose proof (valid_loop_true (length s) s ltac:(done) ltac:(lia)) as Hv.
    rewrite Hb in Hv. split.
    + intros Ht. split; [done|]. apply Hv. by destruct b.
    + intros [_ Hts]. apply Hv in Hts. by injection Hts as ->.
  - split; [by destruct b|lia].
Qed.

(** What the documentation excludes and the code accepts: the wildcard as a type, and a
    dictionary entry outside of an array, there with a key that is no basic type; in an
    array the key must be one. *)
Lemma accepted_beyond_doc :
  IsValidSignature (Some [42 (* * *)]) = Ok true /\
  IsValidSignature (Some [123; 118; 115; 125] (* {vs} *)) = Ok true /\
  IsValidSignature (Some [97; 123; 118; 115; 125] (* a{vs} *)) = Ok false.
Proof. split_and!; reflexivity. Qed.

Lemma count_loop_prints fuel ts count :
  (length (prints ts) <= fuel)%nat -> forallb wf_top ts = true ->
  count_loop fuel (prints ts) count = Ok (fold_left (fun c _ => u8 (c + 1)) ts count).
Proof.
  revert fuel count. induction ts as [|t ts IH]; intros fuel count Hl Hwf; [by destruct fuel|].
  cbn [map concat forallb fold_left] in *. split_andb Hwf.
  pose proof (ParseCompleteType_print t (prints ts) Hwf) as Hp.
  pose proof (ParseCompleteType_shorter _ _ Hp) as Hs.
  destruct (print t ++ prints ts) as [|c s] eqn:He; [simpl in Hs; lia|].
  destruct fuel as [|fuel]; [simpl in Hl; lia|]. cbn [count_loop]. rewrite Hp.
  apply IH; [simpl in *; lia|done].
Qed.

Lemma fold_count {A} (ts : list A) count :
  0 <= count -> count + zlen ts < 256 ->
  fold_left (fun c _ => u8 (c + 1)) ts count = count + zlen ts.
Proof.
  revert count. induction ts as [|t ts IH]; intros count H0 H1; cbn [fold_left length] in *; [lia|].
  rewrite u8_small by lia. rewrite IH by lia. lia.
Qed.

(** [CountCompleteTypes] counts the types of a signature of legal length. *)
Lemma CountCompleteTypes_prints ts :
  forallb wf_top ts = true -> zlen (prints ts) <= 255 ->
  CountCompleteTypes (Some (prints ts)) = Ok (zlen ts).
Proof.
  intros Hwf Hl. unfold CountCompleteTypes. rewrite count_loop_prints by done.
  pose proof (length_prints ts). rewrite fold_count; [f_equal; lia|lia..].
Qed.
