(* ===== verification/SigBuild.v ===== *)
(** Model of alljoyn_core/src/SignatureUtils.cc, the generating half:
    composing the signature of a list of arguments in a 256 character buffer,
    alignments, and the marshaled size; with [MsgArg::HasSignature] and
    [AllJoynArray::SetElements] of MsgArg.cc, which use them. *)
From S2P Require Import Prelude Types SignatureUtils SigMachine SigGrammar.

(** * The signature buffer

    [char sig[256]] and the running length. [None] is a character that was
    never written; storing outside the array is undefined. *)

Record SigBuf := { sb_sig : list (option Z); sb_len : Z }.

Definition SIG_SIZE : nat := 256.
Definition sb_empty : SigBuf := {| sb_sig := replicate SIG_SIZE None; sb_len := 0 |}.

Definition sb_store (st : SigBuf) (i : Z) (c : option Z) : res (list (option Z)) :=
  if bool_decide (0 <= i < zlen (sb_sig st)) then Ok (<[Z.to_nat i := c]> (sb_sig st)) else Undef.

(** [sig[len++] = c] *)
Definition sb_put (c : option Z) (st : SigBuf) : res SigBuf :=
  let! s := sb_store st (sb_len st) c in
  Ok {| sb_sig := s; sb_len := sb_len st + 1 |}.

(** [sig[len] = 0] *)
Definition sb_term (st : SigBuf) : res SigBuf :=
  let! s := sb_store st (sb_len st) (Some 0) in
  Ok {| sb_sig := s; sb_len := sb_len st |}.

(** The ALLJOYN_ARRAY case up to [typeChar = sig[--len]]: the element signature
    is copied only if it fits below 254, but the length is always advanced. *)
Definition sb_elemSig (es : list Z) (st : SigBuf) : res (SigBuf * option Z) :=
  let! st := sb_put (Some 97) st in
  let n := zlen es in
  let s := if sb_len st + n <? 254
           then take (Z.to_nat (sb_len st)) (sb_sig st) ++ map Some es
                ++ drop (Z.to_nat (sb_len st + n)) (sb_sig st)
           else sb_sig st in
  let len := sb_len st + n - 1 in
  match s !! Z.to_nat len with
  | Some c => Ok ({| sb_sig := s; sb_len := len |}, c)
  | None => Undef
  end.

Definition is_null (a : MsgArg) : bool := match a with A_NULL => true | _ => false end.

(** The start of a call and the loop: NULL values or a full buffer return at
    once, otherwise the text is terminated. *)
Definition ms_enter (null : bool) (body : SigBuf -> res (QStatus * SigBuf)) (st : SigBuf)
  : res (QStatus * SigBuf) :=
  if null then Ok (ER_BUS_BAD_VALUE, st)
  else if sb_len st >? 254 then Ok (ER_BUS_BAD_VALUE, st)
  else let! (status, st) := body st in
       let! st := sb_term st in
       Ok (status, st).

(** The end of a turn: the length check, then [sig[len++] = typeChar]. *)
Definition ms_finish (status : QStatus) (typeChar : option Z) (st : SigBuf) : res (QStatus * SigBuf) :=
  let status := if sb_len st >? 254 then ER_BUS_BAD_VALUE else status in
  if bool_decide (status = ER_OK) then let! st := sb_put typeChar st in Ok (ER_OK, st)
  else Ok (status, st).

Section ms_loop.
Variable make : MsgArg -> SigBuf -> res (QStatus * SigBuf).
Fixpoint ms_loop (l : list MsgArg) (numValues : nat) (st : SigBuf) {struct l}
  : res (QStatus * SigBuf) :=
  match l, numValues with
  | a :: l, S n =>
      let! (status, st) := make a st in
      if bool_decide (status = ER_OK) then ms_loop l n st else Ok (status, st)
  | _, _ => Ok (ER_OK, st)
  end.
End ms_loop.

(** The [uint8_t numValues] parameter. *)
Definition numValues8 (l : list MsgArg) : nat := Z.to_nat (u8 (zlen l)).

Definition nulls (l : list MsgArg) : bool := match l with a :: _ => is_null a | [] => false end.

Fixpoint ms_value (a : MsgArg) (st : SigBuf) {struct a} : res (QStatus * SigBuf) :=
  match a with
  | A_DICT_ENTRY k v =>
      let! st := sb_put (Some 123) st in
      let! (s, st) := ms_enter (is_null k) (ms_value k) st in
      let! (s, st) := if bool_decide (s = ER_OK) then ms_enter (is_null v) (ms_value v) st
                      else Ok (s, st) in
      ms_finish s (Some 125) st
  | A_STRUCT ms =>
      let! st := sb_put (Some 40) st in
      let! (s, st) := ms_enter (nulls ms) (ms_loop ms_value ms (numValues8 ms)) st in
      ms_finish s (Some 41) st
  | A_ARRAY es _ =>
      let! (st, c) := sb_elemSig (default [] es) st in
      ms_finish ER_OK c st
  | A_BOOLEAN_ARRAY _ | A_BYTE_ARRAY _ | A_16_ARRAY _ _ | A_32_ARRAY _ _ | A_64_ARRAY _ _ =>
      let! st := sb_put (Some 97) st in
      ms_finish ER_OK (Some (elem_char (typeId a))) st
  | A_BYTE _ | A_BOOLEAN _ | A_16 _ _ | A_32 _ _ | A_64 _ _ | A_STRING _ _ _
  | A_SIGNATURE _ _ | A_HANDLE _ | A_VARIANT _ =>
      ms_finish ER_OK (Some (typeId_val (typeId a))) st
  | A_NULL | A_INVALID => ms_finish ER_BUS_BAD_VALUE_TYPE None st
  end.

(** A list with a first argument stands for a valid pointer. *)
Definition MakeSignature (values : list MsgArg) (st : SigBuf) : res (QStatus * SigBuf) :=
  ms_enter (nulls values) (ms_loop ms_value values (numValues8 values)) st.

(** The buffer read as a C string: up to the first NUL, if it gets there. *)
Fixpoint c_string (s : list (option Z)) : option (list Z) :=
  match s with
  | Some 0 :: _ => Some []
  | Some c :: s => cons c <$> c_string s
  | _ => None
  end.

(** [MsgArg::HasSignature] *)
Definition HasSignature (a : MsgArg) (signature : list Z) : res bool :=
  let! (_, st) := MakeSignature [a] sb_empty in
  match c_string (sb_sig st) with
  | Some s => Ok (bool_decide (signature = s))
  | None => Undef
  end.

(** [AllJoynArray::SetElements]; a failed call leaves an array without
    signature and elements. *)
Definition SetElements (elemSig : list Z) (elements : list MsgArg) : res (QStatus * MsgArg) :=
  if nulls elements then Ok (ER_BAD_ARG_2, A_ARRAY None [])
  else let! n := CountCompleteTypes (Some elemSig) in
       if negb (n =? 1) then Ok (ER_BUS_BAD_SIGNATURE, A_ARRAY None [])
       else match elements with
            | e :: es =>
                if forallb (fun e' => bool_decide (typeId e' = typeId e)) es
                then Ok (ER_OK, A_ARRAY (Some elemSig) elements)
                else Ok (ER_BUS_BAD_VALUE, A_ARRAY None [])
            | [] => Ok (ER_OK, A_ARRAY (Some elemSig) elements)
            end.

(** * Alignment and size *)

Definition AlignmentForType (t : AllJoynTypeId) : Z :=
  match t with
  | ALLJOYN_BOOLEAN | ALLJOYN_INT32 | ALLJOYN_UINT32 | ALLJOYN_HANDLE => 4
  | ALLJOYN_OBJECT_PATH | ALLJOYN_STRING | ALLJOYN_ARRAY | ALLJOYN_BOOLEAN_ARRAY
  | ALLJOYN_DOUBLE_ARRAY | ALLJOYN_INT32_ARRAY | ALLJOYN_INT16_ARRAY
  | ALLJOYN_UINT16_ARRAY | ALLJOYN_UINT64_ARRAY | ALLJOYN_UINT32_ARRAY
  | ALLJOYN_INT64_ARRAY | ALLJOYN_BYTE_ARRAY => 4
  | ALLJOYN_INT16 | ALLJOYN_UINT16 => 2
  | ALLJOYN_VARIANT | ALLJOYN_SIGNATURE | ALLJOYN_BYTE => 1
  | ALLJOYN_STRUCT | ALLJOYN_STRUCT_OPEN | ALLJOYN_DICT_ENTRY | ALLJOYN_DICT_ENTRY_OPEN
  | ALLJOYN_DOUBLE | ALLJOYN_UINT64 | ALLJOYN_INT64 => 8
  | _ => 0
  end.

(** [(AllJoynTypeId)elemSig[0]] *)
Definition elem_alignment (es : list Z) : Z := AlignmentForType (typeId_of_char (hd 0 es)).

Section gs_loop.
Variable size1 : MsgArg -> Z -> res (option Z).
(** [None]: the loop met an argument without a type and the call returns 0. *)
Fixpoint gs_loop (l : list MsgArg) (sz : Z) : res (option Z) :=
  match l with
  | [] => Ok (Some sz)
  | a :: l =>
      let! r := size1 a sz in
      match r with
      | Some sz => gs_loop l sz
      | None => Ok None
      end
  end.
End gs_loop.

Definition gs_call (null : bool) (body : Z -> res (option Z)) (offset : Z) : res Z :=
  if null then Ok offset
  else let! r := body offset in Ok (default 0 r).

Fixpoint gs_value (a : MsgArg) (sz : Z) {struct a} : res (option Z) :=
  match a with
  | A_DICT_ENTRY k v =>
      let! sz := gs_call (is_null k) (gs_value k) (PadUp sz 8) in
      let! sz := gs_call (is_null v) (gs_value v) sz in
      Ok (Some sz)
  | A_STRUCT ms =>
      let! sz := gs_call (nulls ms) (gs_loop gs_value ms) (PadUp sz 8) in
      Ok (Some sz)
  | A_ARRAY es els =>
      let sz := PadUp sz 4 + 4 in
      match els with
      | _ :: _ => let! sz := gs_call (nulls els) (gs_loop gs_value els) sz in Ok (Some sz)
      | [] =>
          match es with
          | Some es => Ok (Some (PadUp sz (elem_alignment es)))
          | None => Undef
          end
      end
  | A_BOOLEAN_ARRAY v => Ok (Some (PadUp sz 4 + 4 + 4 * Z.of_nat (numElements v)))
  | A_32_ARRAY _ v => Ok (Some (PadUp sz 4 + 4 + 4 * Z.of_nat (numElements v)))
  | A_64_ARRAY _ v => Ok (Some (PadUp (PadUp sz 4 + 4) 8 + 8 * Z.of_nat (numElements v)))
  | A_16_ARRAY _ v => Ok (Some (PadUp sz 4 + 4 + 2 * Z.of_nat (numElements v)))
  | A_BYTE_ARRAY v => Ok (Some (PadUp sz 4 + 4 + Z.of_nat (numElements v)))
  | A_BOOLEAN _ | A_32 _ _ | A_HANDLE _ => Ok (Some (PadUp sz 4 + 4))
  | A_64 _ _ => Ok (Some (PadUp sz 8 + 8))
  | A_SIGNATURE len _ => Ok (Some (sz + (1 + len + 1)))
  | A_16 _ _ => Ok (Some (PadUp sz 2 + 2))
  | A_STRING _ len _ => Ok (Some (PadUp sz 4 + 4 + len + 1))
  | A_VARIANT v =>
      let! (_, st) := ms_enter (is_null v) (ms_value v) sb_empty in
      let! sz := gs_call (is_null v) (gs_value v) (sz + 1 + sb_len st + 1) in
      Ok (Some sz)
  | A_BYTE _ => Ok (Some (sz + 1))
  | A_NULL | A_INVALID => Ok None
  end.

Definition GetSize (values : list MsgArg) (offset : Z) : res Z :=
  gs_call (nulls values) (gs_loop gs_value values) offset.

(** * What the buffer holds *)

Record holds (st : SigBuf) (pre : list Z) : Prop := {
  h_size : length (sb_sig st) = SIG_SIZE;
  h_len : sb_len st = zlen pre;
  h_text : take (length pre) (sb_sig st) = map Some pre
}.

Lemma holds_empty : holds sb_empty [].
Proof. constructor; [apply length_replicate|done|done]. Qed.

Lemma sb_put_holds st pre c :
  holds st pre -> zlen pre < 256 -> exists st', sb_put (Some c) st = Ok st' /\ holds st' (pre ++ [c]).
Proof.
  intros [Hs Hl Ht] Hb. unfold sb_put, sb_store, SIG_SIZE in *.
  rewrite Hl, bool_decide_true by (rewrite Hs; lia). simpl. eexists. split; [done|].
  constructor; cbn [sb_sig sb_len]; rewrite ?length_insert, ?length_app; simpl; [done|lia|].
  rewrite Nat2Z.id, map_app. simpl.
  rewrite Nat.add_1_r, (take_S_r _ _ (Some c)).
  - by rewrite take_insert_ge, Ht.
  - apply list_lookup_insert_eq. lia.
Qed.

Lemma sb_term_holds st pre :
  holds st pre -> zlen pre < 256 ->
  exists st', sb_term st = Ok st' /\ holds st' pre /\ sb_sig st' !! length pre = Some (Some 0).
Proof.
  intros [Hs Hl Ht] Hb. unfold sb_term, sb_store, SIG_SIZE in *.
  rewrite Hl, bool_decide_true by (rewrite Hs; lia). simpl. eexists. split; [done|].
  cbn [sb_sig]. rewrite Nat2Z.id. split.
  - constructor; cbn [sb_sig sb_len]; rewrite ?length_insert; [done|done|].
    by rewrite take_insert_ge.
  - apply list_lookup_insert_eq. lia.
Qed.

Lemma c_string_map s rest :
  Forall (fun c => c <> 0) s -> c_string (map Some s ++ Some 0 :: rest) = Some s.
Proof.
  induction 1 as [|c s Hc _ IH]; [done|]. cbn [map app c_string]. rewrite IH.
  by destruct c.
Qed.

(** Reading back a terminated text. *)
Lemma holds_c_string st pre :
  holds st pre -> sb_sig st !! length pre = Some (Some 0) -> Forall (fun c => c <> 0) pre ->
  c_string (sb_sig st) = Some pre.
Proof.
  intros [Hs Hl Ht] H0 Hn. rewrite <- (take_drop_middle _ _ _ H0), Ht. by apply c_string_map.
Qed.

(** * The signature of an argument, as a list *)

Fixpoint sig_of (a : MsgArg) : list Z :=
  match a with
  | A_DICT_ENTRY k v => 123 :: sig_of k ++ sig_of v ++ [125]
  | A_STRUCT ms => 40 :: concat (map sig_of ms) ++ [41]
  | A_ARRAY es _ => 97 :: default [] es
  | A_BOOLEAN_ARRAY _ | A_BYTE_ARRAY _ | A_16_ARRAY _ _ | A_32_ARRAY _ _ | A_64_ARRAY _ _ =>
      [97; elem_char (typeId a)]
  | _ => [typeId_val (typeId a)]
  end.

(** Arguments every part of which has a type. *)
Fixpoint sig_ok (a : MsgArg) : bool :=
  match a with
  | A_NULL | A_INVALID => false
  | A_DICT_ENTRY k v => sig_ok k && sig_ok v
  | A_STRUCT ms => (zlen ms <? 256) && forallb sig_ok ms
  | A_ARRAY es _ => bool_decide (default [] es <> [])
  | _ => true
  end.

Lemma sig_ok_not_null a : sig_ok a = true -> is_null a = false.
Proof. by destruct a. Qed.

Lemma forallb_not_nulls l : forallb sig_ok l = true -> nulls l = false.
Proof. destruct l as [|[] l]; simpl; try done. Qed.

Definition makes (a : MsgArg) : Prop := forall st pre,
  sig_ok a = true -> holds st pre -> zlen pre + zlen (sig_of a) <= 253 ->
  exists st', ms_value a st = Ok (ER_OK, st') /\ holds st' (pre ++ sig_of a).

Lemma ms_finish_holds st pre c :
  holds st pre -> zlen pre <= 254 ->
  exists st', ms_finish ER_OK (Some c) st = Ok (ER_OK, st') /\ holds st' (pre ++ [c]).
Proof.
  intros Hh Hb. unfold ms_finish. rewrite (h_len _ _ Hh).
  destruct (zlen pre >? 254) eqn:Hg; [lia|]. rewrite bool_decide_true by done.
  destruct (sb_put_holds st pre c Hh) as (st' & -> & Hh'); [lia|]. simpl. eauto.
Qed.

Lemma ms_enter_holds body st pre txt :
  holds st pre -> zlen pre + zlen txt <= 253 ->
  (exists st', body st = Ok (ER_OK, st') /\ holds st' (pre ++ txt)) ->
  exists st', ms_enter false body st = Ok (ER_OK, st') /\ holds st' (pre ++ txt) /\
    sb_sig st' !! length (pre ++ txt) = Some (Some 0).
Proof.
  intros Hh Hb (st1 & Hbody & Hh1). unfold ms_enter. rewrite (h_len _ _ Hh).
  destruct (zlen pre >? 254) eqn:Hg; [lia|]. rewrite Hbody. simpl.
  destruct (sb_term_holds st1 (pre ++ txt) Hh1) as (st2 & -> & Hh2 & H0).
  - rewrite length_app. lia.
  - simpl. eauto.
Qed.

Lemma ms_loop_holds l n : forall st pre,
  Forall makes l -> (length l <= n)%nat -> forallb sig_ok l = true -> holds st pre ->
  zlen pre + zlen (concat (map sig_of l)) <= 253 ->
  exists st', ms_loop ms_value l n st = Ok (ER_OK, st') /\ holds st' (pre ++ concat (map sig_of l)).
Proof.
  revert n. induction l as [|a l IH]; intros n st pre Hm Hn Hok Hh Hb; cbn [map concat ms_loop] in *.
  - exists st. rewrite app_nil_r. done.
  - simpl in Hok. split_andb Hok. inversion Hm as [|?? Ha Hl]; subst. rewrite length_app in Hb.
    destruct n as [|n]; [simpl in Hn; lia|].
    destruct (Ha st pre) as (st1 & -> & Hh1); [done|done|lia|]. cbn [rbind].
    destruct (IH n st1 (pre ++ sig_of a)) as (st2 & Hl2 & Hh2); [done|simpl in Hn; lia|done|done| |].
    + rewrite length_app. lia.
    + exists st2. rewrite Hl2, <- app_assoc in *. done.
Qed.

Lemma sb_elemSig_holds st pre es :
  holds st pre -> es <> [] -> zlen pre + 1 + zlen es <= 253 ->
  exists st' c, sb_elemSig es st = Ok (st', Some c) /\ exists es', es = es' ++ [c] /\
    holds st' (pre ++ 97 :: es').
Proof.
  intros Hh Hne Hb. unfold sb_elemSig.
  destruct (sb_put_holds st pre 97 Hh) as (st1 & -> & [Hs Hl Ht]); [lia|]. simpl.
  rewrite Hl, length_app in *. simpl in *. unfold SIG_SIZE in *.
  destruct (Z.ltb_spec (Z.of_nat (length pre + 1) + zlen es) 254); [|lia].
  destruct (exists_last Hne) as (es' & c & ->). rewrite length_app in *. simpl in *.
  replace (Z.to_nat (Z.of_nat (length pre + 1))) with (length (pre ++ [97]))
    by (rewrite length_app; simpl; lia).
  replace (take (length (pre ++ [97])) (sb_sig st1)) with (map Some (pre ++ [97]))
    by (rewrite length_app; simpl; by rewrite Ht).
  set (tl := drop _ _). 
  replace (Z.to_nat (Z.of_nat (length pre + 1) + Z.of_nat (length es' + 1) - 1))
    with (length (map Some (pre ++ [97] ++ es')))
    by (rewrite length_map, !length_app; simpl; lia).
  assert (map Some (pre ++ [97]) ++ map Some (es' ++ [c]) ++ tl
          = map Some (pre ++ [97] ++ es') ++ Some c :: tl) as ->.
  { rewrite !map_app, <- !app_assoc. done. }
  rewrite list_lookup_middle by done. eexists _, c. split; [done|]. exists es'. split; [done|].
  constructor; cbn [sb_sig sb_len].
  - unfold tl. rewrite length_app, length_map, !length_app. simpl. rewrite length_drop. unfold SIG_SIZE. lia.
  - rewrite !length_app. simpl. lia.
  - change (97 :: es') with ([97] ++ es'). rewrite <- (length_map Some (pre ++ [97] ++ es')).
    by rewrite take_app_length.
Qed.

Lemma scalar_array_holds st pre c :
  holds st pre -> zlen pre + 2 <= 253 ->
  exists st', rbind (sb_put (Some 97) st) (fun st => ms_finish ER_OK (Some c) st) = Ok (ER_OK, st') /\
    holds st' (pre ++ [97; c]).
Proof.
  intros Hh Hb. destruct (sb_put_holds st pre 97 Hh) as (st1 & -> & Hh1); [lia|]. cbn [rbind].
  destruct (ms_finish_holds st1 _ c Hh1) as (st2 & -> & Hh2); [rewrite length_app; simpl; lia|].
  exists st2. by rewrite <- app_assoc in Hh2.
Qed.

Lemma makes_all a : makes a.
Proof.
  revert a. apply MsgArg_nested_ind; [intros a|intros es l _|intros l IH|intros k v IHk IHv|intros v _].
  - destruct a; try done; intros st pre Hok Hh Hb; cbn [sig_of ms_value length] in *;
      try (apply ms_finish_holds; [done|lia]);
      (apply scalar_array_holds; [done|lia]).
  - intros st pre Hok Hh Hb. cbn [sig_of ms_value sig_ok length] in *.
    apply bool_decide_eq_true in Hok.
    destruct (sb_elemSig_holds st pre (default [] es) Hh) as (st1 & c & -> & es' & Hes & Hh1);
      [done|lia|]. cbn [rbind]. rewrite Hes in *. rewrite length_app in Hb.
    destruct (ms_finish_holds st1 _ c Hh1) as (st2 & -> & Hh2);
      [rewrite length_app; cbn [length] in *; lia|].
    exists st2. by rewrite <- app_assoc in Hh2.
  - intros st pre Hok Hh Hb. cbn [sig_of ms_value sig_ok length] in *. split_andb Hok.
    rewrite length_app in Hb. cbn [length] in Hb.
    destruct (sb_put_holds st pre 40 Hh) as (st1 & -> & Hh1); [lia|]. cbn [rbind].
    rewrite forallb_not_nulls by done.
    destruct (ms_enter_holds (ms_loop ms_value l (numValues8 l)) st1 (pre ++ [40])
                (concat (map sig_of l)) Hh1) as (st2 & -> & Hh2 & _).
    + rewrite length_app. simpl. lia.
    + apply ms_loop_holds; [done| |done|done|rewrite length_app; simpl; lia].
      unfold numValues8. rewrite u8_small; lia.
    + cbn [rbind]. destruct (ms_finish_holds st2 _ 41 Hh2) as (st3 & -> & Hh3);
        [rewrite !length_app; simpl; lia|].
      exists st3. by rewrite <- !app_assoc in Hh3.
  - intros st pre Hok Hh Hb. cbn [sig_of ms_value sig_ok length] in *. split_andb Hok.
    rewrite !length_app in Hb. cbn [length] in Hb.
    destruct (sb_put_holds st pre 123 Hh) as (st1 & -> & Hh1); [lia|]. cbn [rbind].
    rewrite !sig_ok_not_null by done.
    destruct (ms_enter_holds (ms_value k) st1 (pre ++ [123]) (sig_of k) Hh1) as (st2 & -> & Hh2 & _);
      [rewrite length_app; simpl; lia|apply IHk; [done|done|rewrite length_app; simpl; lia]|].
    cbn [rbind]. rewrite bool_decide_true by done.
    destruct (ms_enter_holds (ms_value v) st2 _ (sig_of v) Hh2) as (st3 & -> & Hh3 & _);
      [rewrite !length_app; simpl; lia|apply IHv; [done|done|rewrite !length_app; simpl; lia]|].
    cbn [rbind]. destruct (ms_finish_holds st3 _ 125 Hh3) as (st4 & -> & Hh4);
      [rewrite !length_app; simpl; lia|].
    exists st4. by rewrite <- !app_assoc in Hh4.
  - intros st pre Hok Hh Hb. cbn [sig_of ms_value length] in *. apply ms_finish_holds; [done|lia].
Qed.

(** Arguments with a type and at most 255 of them (the [uint8_t] count). *)
Definition sigs_ok (l : list MsgArg) : bool := (zlen l <? 256) && forallb sig_ok l.
Abbreviation sigs_of l := (concat (map sig_of l)).

Lemma MakeSignature_text (values : list MsgArg) :
  sigs_ok values = true -> zlen (sigs_of values) <= 253 ->
  exists st, MakeSignature values sb_empty = Ok (ER_OK, st) /\
    sb_len st = zlen (sigs_of values) /\
    take (S (length (sigs_of values))) (sb_sig st) = map Some (sigs_of values ++ [0]).
Proof.
  intros Hok Hb. unfold sigs_ok in Hok. split_andb Hok. unfold MakeSignature.
  rewrite forallb_not_nulls by done.
  destruct (ms_enter_holds (ms_loop ms_value values (numValues8 values)) sb_empty []
              (sigs_of values) holds_empty) as (st & Hm & Hh & H0).
  - simpl. lia.
  - apply (ms_loop_holds _ _ _ []); [by apply Forall_true, makes_all| |done|apply holds_empty|simpl; lia].
    unfold numValues8. rewrite u8_small; lia.
  - exists st. split; [done|]. split; [apply (h_len _ _ Hh)|].
    rewrite (take_S_r _ _ (Some 0)) by done. rewrite map_app. pose proof (h_text _ _ Hh) as Ht. simpl app in Ht. by rewrite Ht.
Qed.

(** C35: as long as the signature of the arguments has at most 253 characters,
    [MakeSignature] succeeds, stays inside its 256 character buffer and leaves
    there exactly the signature, NUL terminated, with its length. *)
Theorem MakeSignature_correct (values : list MsgArg) :
  sigs_ok values = true -> zlen (sigs_of values) <= 253 ->
  exists st, MakeSignature values sb_empty = Ok (ER_OK, st) /\
    sb_len st = zlen (sigs_of values) /\
    take (S (length (sigs_of values))) (sb_sig st) = map Some (sigs_of values ++ [0]).
Proof. apply MakeSignature_text. Qed.

Lemma MakeSignature_correct_witness :
  exists st, MakeSignature [A_STRUCT [A_BYTE 1; A_VARIANT (A_BYTE 2)]] sb_empty = Ok (ER_OK, st) /\
    sb_len st = 4 /\ take 5 (sb_sig st) = map Some [40; 121; 118; 41; 0].
Proof.
  apply (MakeSignature_correct [A_STRUCT [A_BYTE 1; A_VARIANT (A_BYTE 2)]]);
    [reflexivity|vm_compute; discriminate].
Defined.

(** One argument in a fresh buffer, as [HasSignature] and variants use it. *)
Lemma MakeSignature_one a :
  sig_ok a = true -> zlen (sig_of a) <= 253 ->
  exists st, ms_enter (is_null a) (ms_value a) sb_empty = Ok (ER_OK, st) /\ holds st (sig_of a) /\
    sb_sig st !! length (sig_of a) = Some (Some 0).
Proof.
  intros Hok Hb. rewrite sig_ok_not_null by done.
  apply (ms_enter_holds (ms_value a) sb_empty [] (sig_of a) holds_empty); [simpl; lia|].
  apply (makes_all a sb_empty []); [done|apply holds_empty|simpl; lia].
Qed.

Lemma ms_loop_one a st : ms_loop ms_value [a] 1 st = ms_value a st.
Proof.
  cbn [ms_loop]. destruct (ms_value a st) as [[s st']| |]; simpl; [|done..].
  case_bool_decide; by subst.
Qed.

Lemma MakeSignature_singleton a st :
  MakeSignature [a] st = ms_enter (is_null a) (ms_value a) st.
Proof.
  unfold MakeSignature. change (numValues8 [a]) with 1%nat. unfold nulls, ms_enter.
  by rewrite ms_loop_one.
Qed.

Lemma HasSignature_sig_of a :
  sig_ok a = true -> zlen (sig_of a) <= 253 -> Forall (fun c => c <> 0) (sig_of a) ->
  forall s, HasSignature a s = Ok (bool_decide (s = sig_of a)).
Proof.
  intros Hok Hb Hn s. unfold HasSignature. rewrite MakeSignature_singleton.
  destruct (MakeSignature_one a Hok Hb) as (st & -> & Hh & H0). simpl.
  by rewrite (holds_c_string _ _ Hh H0 Hn).
Qed.

(** The signature ["(yy...y)"] of a struct of [n] bytes. *)
Definition byte_struct (n : nat) : list Z := 40 :: replicate n 121 ++ [41].

(** The copy test in the ALLJOYN_ARRAY case stops two characters short of
    the length test after it. For an array of structs of 251 bytes, whose
    signature of 254 characters is valid and accepted by [SetElements],
    [MakeSignature] reports success although everything after the ['a'] was
    never written; with 255 bytes it accesses the buffer past its end. *)
Theorem MakeSignature_unwritten :
  IsValidSignature (Some (97 :: byte_struct 251)) = Ok true /\
  SetElements (byte_struct 251) [] = Ok (ER_OK, A_ARRAY (Some (byte_struct 251)) []) /\
  (exists st, MakeSignature [A_ARRAY (Some (byte_struct 251)) []] sb_empty = Ok (ER_OK, st) /\
     sb_len st = 254 /\ sb_sig st !! 1%nat = Some None /\ c_string (sb_sig st) = None) /\
  SetElements (byte_struct 255) [] = Ok (ER_OK, A_ARRAY (Some (byte_struct 255)) []) /\
  MakeSignature [A_ARRAY (Some (byte_struct 255)) []] sb_empty = Undef.
Proof.
  split_and!; [vm_compute; reflexivity..| |vm_compute; reflexivity|vm_compute; reflexivity].
  eexists. split; [vm_compute; reflexivity|]. split_and!; vm_compute; reflexivity.
Qed.
