(* ===== verification/Marshal.v ===== *)
(** Model of [_Message::MarshalArgs] (alljoyn_core/src/Message_Gen.cc): the
    bytes written for a list of arguments from a given offset of the message
    buffer, and the handles collected on the way. *)
From S2P Require Import Prelude Types SignatureUtils SigMachine SigGrammar SigBuild.

Definition ALLJOYN_MAX_ARRAY_LEN : Z := 131072.
Definition ALLJOYN_MAX_PACKET_LEN : Z := ALLJOYN_MAX_ARRAY_LEN + 4096.

Definition CheckedArraySize (sz : Z) : res Z :=
  if sz >? ALLJOYN_MAX_ARRAY_LEN then Fail ER_BUS_BAD_LENGTH else Ok sz.

(** The first position in [handles] of the descriptor [fd], or their number. *)
Fixpoint handle_index (handles : list Z) (fd : Z) : Z :=
  match handles with
  | [] => 0
  | h :: hs => if h =? fd then 0 else 1 + handle_index hs fd
  end.

Section marshal.
(** [endianSwap], and the operating system's duplication of a descriptor. *)
Context (endianSwap : bool) (SocketDup : list Z -> Z -> res Z).

Abbreviation put4 v := (put endianSwap 4 v).

(** A counted sequence of scalars: [CheckedArraySize], the NULL test, the
    length, the elements of [w] bytes each. *)
Definition marshal_scalars {A} (w : nat) (bytes : A -> list Z) (v : scalars A) : res (list Z) :=
  let! len := CheckedArraySize (Z.of_nat w * Z.of_nat (numElements v)) in
  match v with
  | S_NULL _ => if negb (len =? 0) then Fail ER_BUS_BAD_VALUE else Ok (put4 len)
  | S_PTR l => Ok (put4 len ++ concat (map bytes l))
  end.

(** The 64-bit arrays: the elements are aligned after the length. *)
Definition marshal_scalars8 (v : scalars Z) (pos : Z) : res (list Z) :=
  let! len := CheckedArraySize (8 * Z.of_nat (numElements v)) in
  if len >? 0 then
    match v with
    | S_NULL _ => Fail ER_BUS_BAD_VALUE
    | S_PTR l => Ok (put4 len ++ MarshalPad (pos + 4) 8 ++ concat (map (put endianSwap 8) l))
    end
  else Ok (put4 0 ++ MarshalPad (pos + 4) 8).

(** A string with its length in front: [lenBytes], the characters, the NUL. *)
Definition marshal_chars (lenBytes nullBytes : list Z) (len : Z) (str : option (list Z)) : res (list Z) :=
  match str with
  | Some s =>
      match s !! Z.to_nat len with
      | Some c => if c =? 0 then Ok (lenBytes ++ take (Z.to_nat len + 1) s)
                  else Fail ER_BUS_NOT_NUL_TERMINATED
      | None => Undef
      end
  | None => Ok nullBytes
  end.

(** The signature of a variant: its length, its text and the NUL. *)
Definition marshal_variant_sig (v : MsgArg) : res (list Z) :=
  let! (status, st) := ms_enter (is_null v) (ms_value v) sb_empty in
  if bool_decide (status = ER_OK) then
    match mapM id (take (Z.to_nat (sb_len st) + 1) (sb_sig st)) with
    | Some cs => Ok (sb_len st :: cs)
    | None => Undef
    end
  else Fail status.

Fixpoint check_elements (es : list Z) (l : list MsgArg) : res unit :=
  match l with
  | [] => Ok tt
  | a :: l =>
      let! ok := HasSignature a es in
      if ok : bool then check_elements es l else Fail ER_BUS_BAD_VALUE
  end.

Section loop.
Variable marshal1 : MsgArg -> Z -> list Z -> res (list Z * list Z).
(** The [while (numArgs--)] loop. *)
Fixpoint ma_loop (l : list MsgArg) (pos : Z) (handles : list Z) : res (list Z * list Z) :=
  match l with
  | [] => Ok ([], handles)
  | a :: l =>
      let! (bs, handles) := marshal1 a pos handles in
      let! (bs', handles) := ma_loop l (pos + zlen bs) handles in
      Ok (bs ++ bs', handles)
  end.
End loop.

Definition no_handles (r : res (list Z)) (handles : list Z) : res (list Z * list Z) :=
  let! bs := r in Ok (bs, handles).

(** One turn of the loop: the NULL test, the padding, the [switch]. *)
Fixpoint marshal_value (a : MsgArg) (pos0 : Z) (handles : list Z) {struct a} : res (list Z * list Z) :=
  let pad := MarshalPad pos0 (AlignmentForType (typeId a)) in
  let pos := pos0 + zlen pad in
  let! (bs, handles) :=
    match a with
    | A_NULL => Fail ER_BUS_BAD_VALUE
    | A_INVALID => Fail ER_BUS_BAD_VALUE_TYPE
    | A_DICT_ENTRY k v =>
        let! (b1, handles) := marshal_value k pos handles in
        let! (b2, handles) := marshal_value v (pos + zlen b1) handles in
        Ok (b1 ++ b2, handles)
    | A_STRUCT ms => ma_loop marshal_value ms pos handles
    | A_ARRAY es els =>
        match es with
        | None => Fail ER_BUS_BAD_VALUE
        | Some es =>
            let epad := if elem_alignment es =? 8 then MarshalPad (pos + 4) 8 else [] in
            match els with
            | [] => Ok (put4 0 ++ epad, handles)
            | _ =>
                if nulls els then Fail ER_BUS_BAD_VALUE
                else
                  let! _ := check_elements es els in
                  let! (bs, handles) := ma_loop marshal_value els (pos + 4 + zlen epad) handles in
                  let! len := CheckedArraySize (zlen bs) in
                  Ok (put4 len ++ epad ++ bs, handles)
            end
        end
    | A_BOOLEAN_ARRAY v =>
        no_handles (marshal_scalars 4 (fun b : bool => put4 (if b then 1 else 0)) v) handles
    | A_32_ARRAY _ v => no_handles (marshal_scalars 4 (put endianSwap 4) v) handles
    | A_64_ARRAY _ v => no_handles (marshal_scalars8 v pos) handles
    | A_16_ARRAY _ v => no_handles (marshal_scalars 2 (put endianSwap 2) v) handles
    | A_BYTE_ARRAY v => no_handles (marshal_scalars 1 (fun b => [b]) v) handles
    | A_BOOLEAN b => Ok (put4 (if b then 1 else 0), handles)
    | A_32 _ v => Ok (put4 v, handles)
    | A_64 _ v => Ok (put endianSwap 8 v, handles)
    | A_SIGNATURE len sig =>
        no_handles (marshal_chars [len] [0; 0] len sig) handles
    | A_16 _ v => Ok (put endianSwap 2 v, handles)
    | A_STRING t len str =>
        if match t, str with
           | TY_OBJECT_PATH, None => true
           | TY_OBJECT_PATH, Some _ => len =? 0
           | TY_STRING, _ => false
           end
        then Fail ER_BUS_BAD_OBJ_PATH
        else no_handles (marshal_chars (put4 len) (put4 0 ++ [0]) len str) handles
    | A_VARIANT v =>
        let! sg := marshal_variant_sig v in
        let! (bs, handles) := marshal_value v (pos + zlen sg) handles in
        Ok (sg ++ bs, handles)
    | A_BYTE v => Ok ([v], handles)
    | A_HANDLE fd =>
        let index := handle_index handles fd in
        if index =? zlen handles then
          let! h := SocketDup handles fd in
          Ok (put4 index, handles ++ [h])
        else Ok (put4 index, handles)
    end in
  Ok (pad ++ bs, handles).

Definition MarshalArgs (args : list MsgArg) (pos : Z) (handles : list Z) : res (list Z * list Z) :=
  ma_loop marshal_value args pos handles.
End marshal.
