(* ===== verification/Typed.v ===== *)
(** Arguments that have a type of the signature grammar: what a caller must
    hand to [MarshalArgs] for the message to be readable at the other end. *)
From S2P Require Import Prelude Types SignatureUtils SigMachine SigGrammar SigBuild Marshal.

(** Element types whose arrays [ParseArray] returns as scalar arrays. *)
Definition scalar_elem (t : sigty) : bool :=
  match t with
  | SLeaf c =>
      match typeId_of_char c with
      | ALLJOYN_BYTE | ALLJOYN_INT16 | ALLJOYN_UINT16 | ALLJOYN_BOOLEAN | ALLJOYN_INT32
      | ALLJOYN_UINT32 | ALLJOYN_DOUBLE | ALLJOYN_INT64 | ALLJOYN_UINT64 => true
      | _ => false
      end
  | _ => false
  end.

(** [str] holds the [len] characters [s] and the terminator. *)
Definition c_chars (len : Z) (str : option (list Z)) (s : list Z) : Prop :=
  str = Some (s ++ [0]) /\ len = zlen s /\ Forall is_byte s.

(** The wildcard ['*'] and the struct letter ['r'] are accepted in signatures but
    no value has them as type, and their alignments do not match the parser's:
    an empty array must not be declared with such an element. *)
Definition concrete (t : sigty) : Prop := t <> SLeaf 42 /\ t <> SLeaf 114.

(** [typed elem a t]: the argument [a] is a value of type [t]; [elem] when it is
    an array element, the only place for a dictionary entry. *)
Fixpoint typed (elem : bool) (a : MsgArg) (t : sigty) {struct a} : Prop :=
  match a, t with
  | A_BYTE v, SLeaf c => c = 121 /\ is_byte v
  | A_BOOLEAN _, SLeaf c => c = 98
  | A_16 ty v, SLeaf c => c = typeId_val (ty16 ty) /\ u_ok 2 v
  | A_32 ty v, SLeaf c => c = typeId_val (ty32 ty) /\ u_ok 4 v
  | A_64 ty v, SLeaf c => c = typeId_val (ty64 ty) /\ u_ok 8 v
  | A_STRING ty len str, SLeaf c =>
      c = typeId_val (tystr ty) /\
      exists s, c_chars len str s /\ zlen s <= ALLJOYN_MAX_PACKET_LEN /\
                (ty = TY_OBJECT_PATH -> s <> [])
  | A_SIGNATURE len sig, SLeaf c => c = 103 /\ exists s, c_chars len sig s /\ zlen s <= 255
  | A_BOOLEAN_ARRAY (S_PTR l), SArray (SLeaf c) => c = 98
  | A_BYTE_ARRAY (S_PTR l), SArray (SLeaf c) => c = 121 /\ Forall is_byte l
  | A_16_ARRAY ty (S_PTR l), SArray (SLeaf c) => c = typeId_val (ty16 ty) /\ Forall (u_ok 2) l
  | A_32_ARRAY ty (S_PTR l), SArray (SLeaf c) => c = typeId_val (ty32 ty) /\ Forall (u_ok 4) l
  | A_64_ARRAY ty (S_PTR l), SArray (SLeaf c) => c = typeId_val (ty64 ty) /\ Forall (u_ok 8) l
  | A_ARRAY es els, SArray t =>
      es = Some (print t) /\ wf_ty 0 1 true t = true /\ scalar_elem t = false /\
      zlen (print t) <= 252 /\ concrete t /\
      (fix all (l : list MsgArg) : Prop :=
         match l with [] => True | a :: l => typed true a t /\ all l end) els
  | A_STRUCT ms, SStruct ts =>
      wf_top t = true /\
      (fix all2 (l : list MsgArg) (ts : list sigty) : Prop :=
         match l, ts with
         | [], [] => True
         | a :: l, t :: ts => typed false a t /\ all2 l ts
         | _, _ => False
         end) ms ts
  | A_DICT_ENTRY k v, SDict kt vt =>
      elem = true /\ basic_key kt = true /\ wf_ty 1 0 false vt = true /\
      typed false k kt /\ typed false v vt
  | A_VARIANT v, SLeaf c =>
      c = 118 /\ exists t, typed false v t /\ wf_top t = true /\ zlen (print t) <= 253
  | _, _ => False
  end.

Lemma typed_array e es els t :
  typed e (A_ARRAY es els) t <->
  exists t', t = SArray t' /\ es = Some (print t') /\ wf_ty 0 1 true t' = true /\
    scalar_elem t' = false /\ zlen (print t') <= 252 /\ concrete t' /\ Forall (fun a => typed true a t') els.
Proof.
  assert (forall t' els, (fix all (l : list MsgArg) : Prop :=
    match l with [] => True | a :: l => typed true a t' /\ all l end) els
    <-> Forall (fun a => typed true a t') els) as Hall.
  { intros t' l. induction l as [|a l IH]; [by rewrite Forall_nil|]. by rewrite Forall_cons, IH. }
  destruct t as [|t'| |]; cbn [typed].
  2:{ rewrite Hall. naive_solver. }
  all: split; [done|by intros (? & ? & ?)].
Qed.

Lemma typed_struct e ms t :
  typed e (A_STRUCT ms) t <->
  exists ts, t = SStruct ts /\ wf_top t = true /\ Forall2 (typed false) ms ts.
Proof.
  assert (forall l ts, (fix all2 (l : list MsgArg) (ts : list sigty) : Prop :=
    match l, ts with
    | [], [] => True
    | a :: l, t :: ts => typed false a t /\ all2 l ts
    | _, _ => False
    end) l ts <-> Forall2 (typed false) l ts) as Hall.
  { intros l. induction l as [|a l IH]; intros [|t' ts]; split; try done; try (by inversion 1).
    - intros [??]. constructor; [done|by apply IH].
    - inversion 1; subst. split; [done|by apply IH]. }
  destruct t as [| |ts|]; cbn [typed].
  3:{ rewrite Hall. naive_solver. }
  all: split; [done|by intros (? & ? & ?)].
Qed.

(** Every character of a well-formed type is a letter or a bracket. *)
Definition is_sigchar (c : Z) : Prop := 0 < c < 128.

Lemma is_leaf_sigchar c : is_leaf c = true -> is_sigchar c.
Proof.
  unfold is_leaf, is_sigchar. pose proof (typeId_val_of_char c) as Hv.
  destruct (typeId_of_char c); try done; intros _; cbn [typeId_val] in Hv; lia.
Qed.

Lemma basic_leaf c : IsBasicType (typeId_of_char c) = true -> is_leaf c = true.
Proof. unfold is_leaf. by destruct (typeId_of_char c). Qed.

Lemma forallb_Forall {A} (f : A -> bool) l : forallb f l = true <-> Forall (fun x => f x = true) l.
Proof.
  induction l as [|x l IH]; simpl; [by rewrite Forall_nil|].
  by rewrite andb_true_iff, IH, Forall_cons.
Qed.

Lemma print_sigchars t : forall sd ad b, wf_ty sd ad b t = true -> Forall is_sigchar (print t).
Proof.
  induction t as [c|t IH|ts IH|k v IHk IHv] using sigty_nested_ind; intros sd ad b Hwf; cbn [wf_ty print] in *.
  - constructor; [by apply is_leaf_sigchar|constructor].
  - split_andb Hwf. constructor; [by cbv|eauto].
  - split_andb Hwf. constructor; [by cbv|]. apply Forall_app. split; [|by repeat constructor].
    apply forallb_Forall in Hwf0. apply Forall_concat, Forall_map.
    rewrite Forall_forall in *. eauto.
  - split_andb Hwf. constructor; [by cbv|]. rewrite !Forall_app. split_and!; [|eauto|by repeat constructor].
    destruct k; try done. apply basic_leaf, is_leaf_sigchar in Hwf1. by constructor.
Qed.

Lemma wf_top_sigchars t : wf_top t = true -> Forall is_sigchar (print t).
Proof.
  destruct t as [c|t|ts|k v]; cbn [wf_top print]; intros Hwf.
  - constructor; [by apply is_leaf_sigchar|constructor].
  - constructor; [by cbv|]. by eapply print_sigchars.
  - split_andb Hwf. constructor; [by cbv|]. apply Forall_app. split; [|by repeat constructor].
    apply forallb_Forall in Hwf0. apply Forall_concat, Forall_map.
    eapply Forall_impl; [exact Hwf0|]. intros t. apply print_sigchars.
  - split_andb Hwf. constructor; [by cbv|]. rewrite !Forall_app.
    split_and!; [by eapply print_sigchars..|by repeat constructor].
Qed.

Lemma sigchars_nonzero s : Forall is_sigchar s -> Forall (fun c => c <> 0) s.
Proof. intros H. eapply Forall_impl; [exact H|]. unfold is_sigchar. intros. lia. Qed.

Lemma sigchars_bytes s : Forall is_sigchar s -> Forall is_byte s.
Proof. intros H. eapply Forall_impl; [exact H|]. unfold is_sigchar, is_byte. intros. lia. Qed.

(** A typed argument has its type's text as signature. *)
Definition sig_typed (a : MsgArg) : Prop :=
  forall e t, typed e a t -> sig_of a = print t /\ sig_ok a = true.

Lemma typed_sig a : sig_typed a.
Proof.
  revert a. apply MsgArg_nested_ind; [intros a|intros es l _|intros l IH|intros k v IHk IHv|intros v _].
  - destruct a; try done; intros e [c|[c| | |]| |] H; cbn [typed] in H; try done;
      try match type of H with match ?v with _ => _ end => destruct v; [done|] end;
      destruct_and?; subst; try done; by destruct t.
  - intros e t (t' & -> & -> & _)%typed_array. cbn [sig_of sig_ok print default].
    split; [done|]. apply bool_decide_eq_true. apply print_nonempty.
  - intros e t (ts & -> & Hwf & Hall)%typed_struct. cbn [sig_of sig_ok print].
    cbn [wf_top] in Hwf. split_andb Hwf.
    assert (map sig_of l = map print ts /\ forallb sig_ok l = true) as [-> ->].
    { clear Hwf Hwf0 Hwf1. induction Hall as [|a t l ts Ha _ IHl]; [done|].
      inversion IH as [|?? IHa IH']; subst. destruct (IHa _ _ Ha) as [Hs Ho], (IHl IH') as [Hs' Ho'].
      simpl. by rewrite Hs, Ho, Hs', Ho'. }
    split; [done|]. rewrite andb_true_r. apply Forall2_length in Hall. rewrite Hall. done.
  - intros e [| | |kt vt]; try done. cbn [typed]. intros (_ & _ & _ & Hk & Hv).
    apply IHk in Hk as [Hk Hk']. apply IHv in Hv as [Hv Hv'].
    cbn [sig_of sig_ok print]. by rewrite Hk, Hv, Hk', Hv'.
  - intros e [c| | |]; try done. cbn [typed]. by intros [-> _].
Qed.
