(* ===== verification/MarshalProofs.v ===== *)
(** [MarshalArgs] on typed arguments: it is defined, fails only for an array
    over the length limit, and writes exactly the bytes [GetSize] announced. *)
From S2P Require Import Prelude Types SignatureUtils SigMachine SigGrammar SigBuild Marshal Typed.

(** Padding a size and padding the buffer agree. *)
Lemma pad_size pos off b :
  alignment b -> pos mod 8 = off mod 8 -> PadUp off b = off + zlen (MarshalPad pos b).
Proof.
  intros Hb Hm. rewrite PadUp_AlignPtr, zlen_MarshalPad by done. unfold AlignPtr.
  by rewrite (PadBytes_congr off pos) by done.
Qed.

Lemma AlignPtr_pad pos b : alignment b -> pos + zlen (MarshalPad pos b) = AlignPtr pos b.
Proof. intros. by rewrite zlen_MarshalPad. Qed.

Lemma PadUp8_idem sz : PadUp (PadUp sz 8) 8 = PadUp sz 8.
Proof.
  rewrite !PadUp_AlignPtr by done. apply AlignPtr_id; [done|]. by apply AlignPtr_multiple.
Qed.

Lemma zlen_app {A} (l k : list A) : zlen (l ++ k) = zlen l + zlen k.
Proof. rewrite length_app. lia. Qed.

Lemma zlen_put sw n v : zlen (put sw n v) = Z.of_nat n.
Proof. by rewrite length_put. Qed.

Lemma zlen_concat_map {A} w (f : A -> list Z) l :
  (forall a, length (f a) = w) -> zlen (concat (map f l)) = Z.of_nat w * zlen l.
Proof.
  intros Hf. induction l as [|a l IH]; [simpl; lia|]. cbn [map concat].
  rewrite zlen_app, IH, Hf. cbn [length]. lia.
Qed.

Lemma bytes_concat_map {A} (f : A -> list Z) l :
  (forall a, a ∈ l -> Forall is_byte (f a)) -> Forall is_byte (concat (map f l)).
Proof. intros Hf. apply Forall_concat, Forall_map, Forall_forall. exact Hf. Qed.

Lemma MarshalPad1 p : MarshalPad p 1 = [].
Proof.
  apply length_zero_iff_nil. pose proof (zlen_MarshalPad p 1 align1).
  pose proof (PadBytes_bound p 1 align1). lia.
Qed.

Lemma PadUp1 p : PadUp p 1 = p.
Proof. rewrite PadUp_AlignPtr by done. apply AlignPtr_id; [done|]. apply Z.mod_1_r. Qed.

Section size.
Context (sw : bool) (SocketDup : list Z -> Z -> res Z).

Definition good (a : MsgArg) (off : Z) (h : list Z) (r : res (list Z * list Z)) : Prop :=
  match r with
  | Ok (bs, h') => h' = h /\ bs <> [] /\ Forall is_byte bs /\
                   gs_value a off = Ok (Some (off + zlen bs))
  | Fail s => s = ER_BUS_BAD_LENGTH
  | Undef => False
  end.

Definition sizes (a : MsgArg) : Prop := forall e t pos off h,
  typed e a t -> pos mod 8 = off mod 8 -> good a off h (marshal_value sw SocketDup a pos h).

(** From the bytes after the padding to those with the padding. *)
Lemma good_pad a off h pos bs n :
  alignment (AlignmentForType (typeId a)) -> pos mod 8 = off mod 8 ->
  0 < n -> zlen bs = n -> Forall is_byte bs ->
  gs_value a off = Ok (Some (PadUp off (AlignmentForType (typeId a)) + n)) ->
  good a off h (Ok (MarshalPad pos (AlignmentForType (typeId a)) ++ bs, h)).
Proof.
  intros Ha Hm Hn Hl Hb Hg. split_and!; [done| | |].
  - intros Hnil. apply app_nil in Hnil as [_ ->]. simpl in Hl. lia.
  - by apply Forall_app.
  - rewrite Hg, (pad_size pos) by done. rewrite zlen_app, Hl. do 2 f_equal. lia.
Qed.

Lemma good_scalars {A} a off h pos w (f : A -> list Z) v :
  alignment (AlignmentForType (typeId a)) -> pos mod 8 = off mod 8 ->
  (exists l, v = S_PTR l /\ (forall x, x ∈ l -> Forall is_byte (f x))) ->
  (forall x, length (f x) = w) ->
  gs_value a off = Ok (Some (PadUp off (AlignmentForType (typeId a)) +
                             (4 + Z.of_nat w * Z.of_nat (numElements v)))) ->
  good a off h (rbind (no_handles (marshal_scalars sw w f v) h)
    (fun '(bs, h) => Ok (MarshalPad pos (AlignmentForType (typeId a)) ++ bs, h))).
Proof.
  intros Ha Hm (l & -> & Hf) Hw Hg. unfold marshal_scalars, CheckedArraySize.
  cbn [numElements] in *.
  destruct (Z.of_nat w * zlen l >? ALLJOYN_MAX_ARRAY_LEN); [done|]. cbn [rbind no_handles].
  apply good_pad with (n := 4 + Z.of_nat w * zlen l); [done|done|lia| | |done].
  - rewrite zlen_app, zlen_put, (zlen_concat_map w) by done. lia.
  - apply Forall_app. split; [done|]. by apply bytes_concat_map.
Qed.

Lemma good_chars a off h pos lenBytes nullBytes len str s :
  alignment (AlignmentForType (typeId a)) -> pos mod 8 = off mod 8 ->
  c_chars len str s -> Forall is_byte lenBytes -> 0 < zlen lenBytes ->
  gs_value a off = Ok (Some (PadUp off (AlignmentForType (typeId a)) +
                             (zlen lenBytes + len + 1))) ->
  good a off h (rbind (no_handles (marshal_chars lenBytes nullBytes len str) h)
    (fun '(bs, h) => Ok (MarshalPad pos (AlignmentForType (typeId a)) ++ bs, h))).
Proof.
  intros Ha Hm (-> & -> & Hs) Hlb Hpos Hg. unfold marshal_chars. rewrite Nat2Z.id.
  rewrite list_lookup_middle by done. cbn [rbind no_handles Z.eqb].
  replace (length s + 1)%nat with (length (s ++ [0])) by (rewrite length_app; simpl; lia).
  rewrite firstn_all.
  apply good_pad with (n := zlen lenBytes + zlen s + 1); [done|done|lia| | |done].
  - rewrite !zlen_app. simpl. lia.
  - rewrite !Forall_app. split_and!; [done|done|]. by constructor.
Qed.

Definition good_list (l : list MsgArg) (off : Z) (h : list Z) (r : res (list Z * list Z)) : Prop :=
  match r with
  | Ok (bs, h') => h' = h /\ (l <> [] -> bs <> []) /\ Forall is_byte bs /\
                   gs_loop gs_value l off = Ok (Some (off + zlen bs))
  | Fail s => s = ER_BUS_BAD_LENGTH
  | Undef => False
  end.

Lemma loop_sizes l : Forall sizes l -> Forall (fun a => exists e t, typed e a t) l ->
  forall pos off h, pos mod 8 = off mod 8 ->
  good_list l off h (ma_loop (marshal_value sw SocketDup) l pos h).
Proof.
  induction 1 as [|a l Ha _ IH]; intros Ht pos off h Hm; cbn [ma_loop].
  - split_and!; [done|done|constructor|]. simpl. by rewrite Z.add_0_r.
  - apply Forall_cons in Ht as [(e & t & Ht) Htl]. specialize (Ha e t pos off h Ht Hm).
    unfold good in Ha. destruct (marshal_value _ _ a pos h) as [[bs h1]|s|]; [|done..].
    destruct Ha as (-> & Hne & Hb & Hg). cbn [rbind].
    specialize (IH Htl (pos + zlen bs) (off + zlen bs) h (congr_add _ _ _ Hm)).
    unfold good_list in IH. destruct (ma_loop _ l _ h) as [[bs2 h2]|s|]; [|done..].
    destruct IH as (-> & _ & Hb2 & Hg2). cbn [rbind].
    split_and!; [done| |by apply Forall_app|].
    + intros _ Hnil. by apply app_nil in Hnil as [? _].
    + cbn [gs_loop]. rewrite Hg. cbn [rbind]. rewrite Hg2, zlen_app. do 2 f_equal. lia.
Qed.

Lemma mapM_id_Some (l : list Z) : mapM id (map Some l) = Some l.
Proof. induction l as [|x l IH]; [done|]. cbn. by rewrite IH. Qed.

Lemma variant_sig v e t :
  typed e v t -> zlen (print t) <= 253 ->
  marshal_variant_sig v = Ok (zlen (print t) :: print t ++ [0]) /\
  exists st, ms_enter (is_null v) (ms_value v) sb_empty = Ok (ER_OK, st) /\ sb_len st = zlen (print t).
Proof.
  intros Ht Hl. destruct (typed_sig _ _ _ Ht) as [Hsig Hok]. rewrite <- Hsig in *.
  destruct (MakeSignature_one v Hok Hl) as (st & Hm & Hh & H0). split; [|by eauto using h_len].
  unfold marshal_variant_sig. rewrite Hm. cbn [rbind]. rewrite bool_decide_true by done.
  rewrite (h_len _ _ Hh), Nat2Z.id, Nat.add_1_r, (take_S_r _ _ (Some 0)) by done.
  rewrite (h_text _ _ Hh). change [Some 0] with (map Some [0]). rewrite <- map_app.
  by rewrite mapM_id_Some.
Qed.

Lemma typed_not_nulls a l e t : typed e a t -> nulls (a :: l) = false.
Proof. by destruct a. Qed.

Lemma check_elements_typed t l :
  wf_ty 0 1 true t = true -> zlen (print t) <= 253 -> Forall (fun a => typed true a t) l ->
  check_elements (print t) l = Ok tt.
Proof.
  intros Hwf Hl. induction 1 as [|a l Ha _ IH]; [done|]. cbn [check_elements].
  destruct (typed_sig _ _ _ Ha) as [Hsig Hok].
  rewrite HasSignature_sig_of; [|done|by rewrite Hsig|rewrite Hsig; by eapply sigchars_nonzero, print_sigchars].
  by rewrite Hsig, bool_decide_true.
Qed.

(** An element aligned on 8 bytes starts with its own padding. *)
Lemma elem8_gs a t sz :
  typed true a t -> scalar_elem t = false -> elem_alignment (print t) = 8 ->
  gs_value a (PadUp sz 8) = gs_value a sz.
Proof.
  intros Ht Hs He. destruct a; try done; cbn [gs_value]; rewrite ?PadUp8_idem; try done;
    exfalso; destruct t as [c| | |]; try done; cbn [typed] in Ht;
    repeat match type of Ht with match ?v with _ => _ end => destruct v; try done end;
    destruct_and?; subst; try done; by destruct t0.
Qed.

Lemma elem_alignment_typed t :
  wf_ty 0 1 true t = true -> concrete t -> alignment (elem_alignment (print t)).
Proof.
  destruct t as [c| | |]; cbn [wf_ty]; intros Hwf [Hne _]; try (by cbv; eauto).
  unfold elem_alignment, is_leaf in *. cbn [print hd].
  pose proof (typeId_val_of_char c) as Hv.
  destruct (typeId_of_char c); try done; cbn [typeId_val] in Hv; subst c; cbn; eauto; done.
Qed.

(** Between the length and the elements, both functions pad alike. *)
Lemma elem_pad_size es pos off : alignment (elem_alignment es) -> pos mod 8 = off mod 8 ->
  (AlignPtr pos 4 + 4) mod 8 = (PadUp off 4 + 4) mod 8 /\
  PadUp (PadUp off 4 + 4) (elem_alignment es) =
  PadUp off 4 + 4 + zlen (if elem_alignment es =? 8 then MarshalPad (AlignPtr pos 4 + 4) 8 else []).
Proof.
  intros Hal Hm. set (x := PadUp off 4 + 4).
  assert (AlignPtr pos 4 + 4 = pos + zlen (MarshalPad pos 4) + 4) as Hx4 by (by rewrite AlignPtr_pad).
  assert (x = off + zlen (MarshalPad pos 4) + 4) as Hx by (unfold x; by rewrite (pad_size pos)).
  assert ((AlignPtr pos 4 + 4) mod 8 = x mod 8) as Hxm
    by (rewrite Hx4, Hx; by do 2 apply congr_add).
  split; [done|]. destruct (elem_alignment es =? 8) eqn:H8.
  - apply Z.eqb_eq in H8. rewrite H8. by apply pad_size.
  - rewrite PadUp_AlignPtr by done. simpl. rewrite Z.add_0_r. apply AlignPtr_4_le4; [done| |].
    + unfold alignment in Hal. lia.
    + unfold x. rewrite PadUp_AlignPtr, Z.add_mod by (done || lia).
      rewrite AlignPtr_multiple by done. done.
Qed.

Lemma sizes_array es l : Forall sizes l -> sizes (A_ARRAY es l).
Proof.
  intros IH e t pos off h (t' & -> & -> & Hwf & Hsc & Hl & Hstar & Hty)%typed_array Hm.
  pose proof (elem_alignment_typed t' Hwf Hstar) as Hal.
  cbn [marshal_value typeId AlignmentForType]. rewrite AlignPtr_pad by done.
  set (epad := if elem_alignment (print t') =? 8 then MarshalPad (AlignPtr pos 4 + 4) 8 else []).
  set (x := PadUp off 4 + 4).
  destruct (elem_pad_size (print t') pos off Hal Hm) as [Hxm Hep]. fold x epad in Hxm, Hep.
  assert (Forall is_byte epad) as Hepb by (unfold epad; destruct (_ =? _); [done|constructor]).
  destruct l as [|a l].
  - cbn [rbind]. change 4 with (AlignmentForType (typeId (A_ARRAY (Some (print t')) []))) at 1.
    apply good_pad with (n := 4 + zlen epad); [done|done|lia| |by apply Forall_app|].
    + by rewrite zlen_app, zlen_put.
    + cbn [gs_value typeId AlignmentForType]. fold x. rewrite Hep. unfold x. do 2 f_equal. lia.
  - assert (nulls (a :: l) = false) as Hnn.
    { apply Forall_cons in Hty as [Ha _]. by eapply typed_not_nulls. }
    rewrite Hnn, check_elements_typed by (done || lia). cbn [rbind].
    assert (Forall (fun a => exists e t, typed e a t) (a :: l)) as Hex.
    { eapply Forall_impl; [exact Hty|]. simpl. eauto. }
    pose proof (loop_sizes (a :: l) IH Hex (AlignPtr pos 4 + 4 + zlen epad) (x + zlen epad) h
      (congr_add _ _ _ Hxm)) as Hloop.
    destruct (ma_loop _ (a :: l) _ h) as [[bs h']|s|]; [|done..].
    destruct Hloop as (-> & Hne & Hb & Hg). cbn [rbind]. unfold CheckedArraySize.
    destruct (zlen bs >? ALLJOYN_MAX_ARRAY_LEN); [done|]. cbn [rbind].
    change 4 with (AlignmentForType (typeId (A_ARRAY (Some (print t')) (a :: l)))) at 1.
    apply good_pad with (n := 4 + zlen epad + zlen bs); [done|done|lia| |by rewrite !Forall_app|].
    + rewrite !zlen_app, zlen_put. lia.
    + cbn [gs_value typeId AlignmentForType]. fold x. unfold gs_call. rewrite Hnn.
      assert (gs_loop gs_value (a :: l) x = gs_loop gs_value (a :: l) (x + zlen epad)) as ->.
      { destruct (elem_alignment (print t') =? 8) eqn:H8.
        - apply Z.eqb_eq in H8. rewrite <- Hep, H8. cbn [gs_loop].
          apply Forall_cons in Hty as [Ha _]. by rewrite (elem8_gs a t').
        - unfold epad. simpl length. by rewrite Z.add_0_r. }
      rewrite Hg. cbn [rbind default id]. unfold x. do 2 f_equal. lia.
Qed.

Lemma sizes_struct l : Forall sizes l -> sizes (A_STRUCT l).
Proof.
  intros IH e t pos off h (ts & -> & Hwf & Hall)%typed_struct Hm.
  cbn [wf_top] in Hwf. split_andb Hwf. pose proof (Forall2_length _ _ _ Hall) as Hlen.
  assert (Forall (fun a => exists e t, typed e a t) l) as Hty.
  { eapply Forall2_Forall_l; [exact Hall|]. apply Forall_true. eauto. }
  cbn [marshal_value typeId AlignmentForType].
  pose proof (loop_sizes l IH Hty (pos + zlen (MarshalPad pos 8)) (PadUp off 8) h) as Hloop.
  specialize (Hloop ltac:(rewrite (pad_size pos) by done; by apply congr_add)).
  destruct (ma_loop _ l _ h) as [[bs h']|s|]; [|done..].
  destruct Hloop as (-> & Hne & Hb & Hg). cbn [rbind].
  assert (l <> []) as Hl by (intros ->; simpl in Hlen; lia).
  change 8 with (AlignmentForType (typeId (A_STRUCT l))).
  apply good_pad with (n := zlen bs); [done|done| |done|done|].
  - destruct bs; [by destruct Hne|simpl; lia].
  - cbn [gs_value typeId AlignmentForType]. unfold gs_call.
    assert (nulls l = false) as ->.
    { destruct l as [|a l']; [done|]. apply Forall_cons in Hty as [(e' & t' & Ht) _].
      by eapply typed_not_nulls. }
    by rewrite Hg.
Qed.

Lemma sizes_dict k v : sizes k -> sizes v -> sizes (A_DICT_ENTRY k v).
Proof.
  intros IHk IHv e [| | |kt vt] pos off h Ht Hm; try done.
  destruct Ht as (_ & _ & _ & Hk & Hv). cbn [marshal_value typeId AlignmentForType].
  assert ((pos + zlen (MarshalPad pos 8)) mod 8 = (PadUp off 8) mod 8) as Hm1
    by (rewrite (pad_size pos) by done; by apply congr_add).
  specialize (IHk _ _ _ _ h Hk Hm1). unfold good in IHk.
  destruct (marshal_value _ _ k _ h) as [[b1 h1]|s|]; [|done..].
  destruct IHk as (-> & Hne & Hb & Hg). cbn [rbind].
  specialize (IHv _ _ _ _ h Hv (congr_add _ _ (zlen b1) Hm1)). unfold good in IHv.
  destruct (marshal_value _ _ v _ h) as [[b2 h2]|s|]; [|done..].
  destruct IHv as (-> & Hne2 & Hb2 & Hg2). cbn [rbind].
  change 8 with (AlignmentForType (typeId (A_DICT_ENTRY k v))).
  apply good_pad with (n := zlen (b1 ++ b2)); [done|done| |done|by apply Forall_app|].
  - rewrite zlen_app. destruct b1; [done|]. simpl. lia.
  - cbn [gs_value typeId AlignmentForType]. unfold gs_call.
    pose proof (typed_not_nulls _ [] _ _ Hk) as Hnk. pose proof (typed_not_nulls _ [] _ _ Hv) as Hnv.
    cbn [nulls] in *. rewrite Hnk, Hnv, Hg. cbn [rbind default id]. rewrite Hg2. cbn [rbind default id].
    rewrite zlen_app. do 2 f_equal. lia.
Qed.

Lemma sizes_variant v : sizes v -> sizes (A_VARIANT v).
Proof.
  intros IHv e [c| | |] pos off h Ht Hm; try done.
  destruct Ht as (-> & t & Ht & Hwf & Hl). cbn [marshal_value typeId AlignmentForType].
  destruct (variant_sig _ _ _ Ht Hl) as (-> & st & Hst & Hlen). cbn [rbind].
  set (sg := zlen (print t) :: print t ++ [0]).
  assert (zlen sg = zlen (print t) + 2) as Hsg
    by (unfold sg; cbn [length]; rewrite length_app; simpl; lia).
  assert ((pos + zlen (MarshalPad pos 1) + zlen sg) mod 8 = (off + zlen sg) mod 8) as Hm1.
  { rewrite MarshalPad1. simpl. rewrite Z.add_0_r. by apply congr_add. }
  specialize (IHv _ _ _ _ h Ht Hm1). unfold good in IHv.
  destruct (marshal_value _ _ v _ h) as [[bs h1]|s|]; [|done..].
  destruct IHv as (-> & Hne & Hb & Hg). cbn [rbind].
  change 1 with (AlignmentForType (typeId (A_VARIANT v))) at 1.
  apply good_pad with (n := zlen sg + zlen bs); [done|done|lia|apply zlen_app| |].
  - apply Forall_app. split; [|done]. unfold sg. constructor; [unfold is_byte; lia|].
    apply Forall_app. split; [|by constructor].
    by apply sigchars_bytes, wf_top_sigchars.
  - cbn [gs_value typeId AlignmentForType]. rewrite Hst. cbn [rbind]. unfold gs_call.
    pose proof (typed_not_nulls _ [] _ _ Ht) as Hnv. cbn [nulls] in Hnv.
    rewrite Hnv, Hlen. replace (off + 1 + zlen (print t) + 1) with (off + zlen sg) by lia.
    rewrite Hg. cbn [rbind default id]. rewrite PadUp_AlignPtr by done.
    rewrite AlignPtr_id by (done || apply Z.mod_1_r). do 2 f_equal. lia.
Qed.

Lemma good_scalars8 ty v off h pos :
  pos mod 8 = off mod 8 -> (exists l, v = S_PTR l) ->
  good (A_64_ARRAY ty v) off h (marshal_value sw SocketDup (A_64_ARRAY ty v) pos h).
Proof.
  intros Hm (l & ->). cbn [marshal_value]. unfold marshal_scalars8, CheckedArraySize.
  assert (AlignmentForType (typeId (A_64_ARRAY ty (S_PTR l))) = 4) as H4 by (by destruct ty).
  cbn [numElements]. destruct (8 * zlen l >? ALLJOYN_MAX_ARRAY_LEN); [done|]. cbn [rbind].
  set (pos1 := pos + zlen (MarshalPad pos (AlignmentForType (typeId (A_64_ARRAY ty (S_PTR l)))))).
  assert (PadUp (PadUp off 4 + 4) 8 = PadUp off 4 + 4 + zlen (MarshalPad (pos1 + 4) 8)) as Hp8.
  { apply pad_size; [done|]. unfold pos1. rewrite H4, (pad_size pos) by done.
    by do 2 apply congr_add. }
  destruct (8 * zlen l >? 0) eqn:Hz.
  - cbn [no_handles rbind].
    apply good_pad with (n := 4 + zlen (MarshalPad (pos1 + 4) 8) + 8 * zlen l);
      rewrite ?H4; [done|done|lia| | |].
    + rewrite !zlen_app, zlen_put, (zlen_concat_map 8) by apply length_put. lia.
    + rewrite !Forall_app. split_and!; [done|done|]. by apply bytes_concat_map.
    + cbn [gs_value numElements]. rewrite Hp8. do 2 f_equal. lia.
  - cbn [no_handles rbind].
    apply good_pad with (n := 4 + zlen (MarshalPad (pos1 + 4) 8));
      rewrite ?H4; [done|done|lia| | |].
    + by rewrite zlen_app, zlen_put.
    + by rewrite Forall_app.
    + cbn [gs_value numElements]. rewrite Hp8. do 2 f_equal. lia.
Qed.

Lemma sizes_leaf a :
  match a with
  | A_ARRAY _ _ | A_STRUCT _ | A_DICT_ENTRY _ _ | A_VARIANT _ => True
  | _ => sizes a
  end.
Proof.
  destruct a; try done; intros e tt pos off h Ht Hm; destruct tt as [c|[c| | |]| |];
    cbn [typed] in Ht; try done;
    try match type of Ht with match ?v with _ => _ end => destruct v; [done|] end;
    try (by apply good_scalars8; eauto); cbn [marshal_value];
    try match goal with t : Ty16 |- _ => destruct t | t : Ty32 |- _ => destruct t
        | t : Ty64 |- _ => destruct t | t : TyStr |- _ => destruct t end.
  all: try (eapply good_pad; [cbn; eauto|done| | |by auto|cbn; reflexivity];
            [|rewrite zlen_put; reflexivity]; done).
  all: try (apply good_scalars; [cbn; eauto|done| |intros; by rewrite ?length_put|
            cbn; do 2 f_equal; lia]; eexists; split; [done|]; intros x Hx; try done).
  - eapply good_pad; [cbn; eauto|done| |reflexivity| |]; [done|by repeat constructor; apply Ht|].
    cbn. by rewrite PadUp1.
  - destruct Ht as (_ & s & Hc & _ & Hne). destruct (Hc) as (-> & -> & _). specialize (Hne eq_refl).
    destruct s as [|x s]; [done|]. replace (zlen (x :: s) =? 0) with false by (simpl; lia).
    eapply good_chars; [cbn; eauto|done|exact Hc|done|by rewrite zlen_put|].
    rewrite zlen_put. cbn [gs_value typeId tystr AlignmentForType]. do 2 f_equal. lia.
  - destruct Ht as (_ & s & Hc & _).
    eapply good_chars; [cbn; eauto|done|exact Hc|done|by rewrite zlen_put|].
    rewrite zlen_put. cbn [gs_value typeId tystr AlignmentForType]. do 2 f_equal. lia.
  - destruct Ht as (_ & s & Hc & Hl).
    assert (is_byte len) as Hb by (destruct Hc as (_ & -> & _); unfold is_byte; lia).
    eapply good_chars; [cbn; eauto|done|exact Hc|by apply Forall_singleton|done|].
    cbn [gs_value typeId AlignmentForType]. rewrite PadUp1. do 2 f_equal.
  - destruct Ht as [_ Ht]. rewrite Forall_forall in Ht. constructor; [by apply Ht|constructor].
Qed.

Lemma sizes_all a : sizes a.
Proof.
  revert a. apply MsgArg_nested_ind;
    [exact sizes_leaf|exact sizes_array|exact sizes_struct|exact sizes_dict|exact sizes_variant].
Qed.

Lemma MarshalArgs_sizes l ts pos off h :
  Forall2 (typed false) l ts -> pos mod 8 = off mod 8 ->
  good_list l off h (MarshalArgs sw SocketDup l pos h).
Proof.
  intros Ht Hm. apply loop_sizes; [by apply Forall_true, sizes_all| |done].
  eapply Forall2_Forall_l; [exact Ht|]. apply Forall_true. eauto.
Qed.
End size.

(** C7: for arguments that have types of the signature grammar, in either byte
    order and at any 8-byte aligned body, [MarshalArgs] never reads or writes
    outside an object. It either fails because an array is longer than
    ALLJOYN_MAX_ARRAY_LEN or writes exactly as many bytes as [GetSize] told
    [MarshalMessage] to allocate, leaving the handle list alone. *)
Theorem MarshalArgs_GetSize (endianSwap : bool) SocketDup (args : list MsgArg) ts pos handles :
  Forall2 (typed false) args ts -> pos mod 8 = 0 ->
  match MarshalArgs endianSwap SocketDup args pos handles with
  | Ok (bs, handles') =>
      handles' = handles /\ Forall is_byte bs /\ GetSize args 0 = Ok (zlen bs)
  | Fail s => s = ER_BUS_BAD_LENGTH
  | Undef => False
  end.
Proof.
  intros Ht Hm. pose proof (MarshalArgs_sizes endianSwap SocketDup args ts pos 0 handles Ht Hm) as H.
  unfold good_list in H. destruct (MarshalArgs _ _ _ _ _) as [[bs h]|s|]; [|done..].
  destruct H as (-> & _ & Hb & Hg). split_and!; [done..|]. unfold GetSize, gs_call.
  assert (nulls args = false) as ->.
  { destruct Ht as [|a t l ts' Ha _]; [done|]. by eapply typed_not_nulls. }
  by rewrite Hg.
Qed.

(** An array of dictionary entries and a struct, as in a property map. *)
Definition sample_args : list MsgArg :=
  [A_ARRAY (Some [123; 115; 118; 125])
     [A_DICT_ENTRY (A_STRING TY_STRING 2 (Some [104; 105; 0])) (A_VARIANT (A_32 TY_UINT32 7));
      A_DICT_ENTRY (A_STRING TY_STRING 0 (Some [0])) (A_VARIANT (A_BYTE_ARRAY (S_PTR [1; 2])))];
   A_STRUCT [A_BYTE 9; A_64 TY_DOUBLE 5; A_BOOLEAN true]].
Definition sample_types : list sigty :=
  [SArray (SDict (SLeaf 115) (SLeaf 118)); SStruct [SLeaf 121; SLeaf 100; SLeaf 98]].

Lemma sample_typed : Forall2 (typed false) sample_args sample_types.
Proof.
  repeat constructor; try done.
  - exists [104; 105]. by repeat constructor.
  - exists (SLeaf 117). by repeat constructor.
  - exists []. by repeat constructor.
  - exists (SArray (SLeaf 121)). by repeat constructor.
Qed.

Lemma MarshalArgs_GetSize_witness :
  exists bs, MarshalArgs true (fun _ fd => Ok fd) sample_args 16 [] = Ok (bs, []) /\
    Forall is_byte bs /\ GetSize sample_args 0 = Ok (zlen bs).
Proof.
  pose proof (MarshalArgs_GetSize true (fun _ fd => Ok fd) sample_args sample_types 16 []
    sample_typed eq_refl) as H.
  destruct (MarshalArgs _ _ _ _ _) as [[bs h]|s|] eqn:Hm; [|by vm_compute in Hm|done].
  destruct H as (-> & Hb & Hs). by exists bs.
Defined.

(** ['*'] is accepted as an element signature but has no alignment, and
    [PadUp] to a multiple of 0 is 0: for an empty array of it [GetSize] forgets
    all that was counted before, so that fewer bytes are allocated for the body
    than [MarshalArgs] writes. *)
Theorem GetSize_wildcard_array (endianSwap : bool) SocketDup v :
  SetElements [42] [] = Ok (ER_OK, A_ARRAY (Some [42]) []) /\
  GetSize [A_64 TY_UINT64 v; A_ARRAY (Some [42]) []] 0 = Ok 0 /\
  MarshalArgs endianSwap SocketDup [A_64 TY_UINT64 v; A_ARRAY (Some [42]) []] 16 [] =
    Ok (put endianSwap 8 v ++ put endianSwap 4 0, []).
Proof.
  split_and!; [reflexivity|reflexivity|]. destruct endianSwap; reflexivity.
Qed.

(** [handles] keeps the duplicated descriptors while the search compares
    them with the original one: a descriptor that occurs twice is duplicated and
    sent twice, although the code means to find it in the list. *)
Theorem MarshalArgs_repeated_handle (endianSwap : bool) SocketDup fd d1 d2 :
  SocketDup [] fd = Ok d1 -> SocketDup [d1] fd = Ok d2 -> d1 <> fd ->
  MarshalArgs endianSwap SocketDup [A_HANDLE fd; A_HANDLE fd] 0 [] =
    Ok (put endianSwap 4 0 ++ put endianSwap 4 1, [d1; d2]).
Proof.
  intros H1 H2 Hne. unfold MarshalArgs. cbn [ma_loop marshal_value rbind handle_index length].
  change (0 =? Z.of_nat 0) with true. rewrite H1. cbn [rbind handle_index app length].
  destruct (Z.eqb_spec d1 fd); [done|]. change (1 + 0 =? Z.of_nat 1) with true.
  rewrite H2. destruct endianSwap; reflexivity.
Qed.

Lemma MarshalArgs_repeated_handle_witness :
  MarshalArgs false (fun hs fd => Ok (fd + 1 + zlen hs)) [A_HANDLE 7; A_HANDLE 7] 0 [] =
    Ok ([0; 0; 0; 0; 1; 0; 0; 0], [8; 9]).
Proof. apply (MarshalArgs_repeated_handle false (fun hs fd => Ok (fd + 1 + zlen hs)) 7 8 9); [reflexivity..|lia]. Defined.
