(* ===== verification/Unmarshal.v ===== *)
(** Model of the value parser of alljoyn_core/src/Message_Parse.cc: ParseArray,
    ParseStruct, ParseDictEntry, ParseVariant, ParseSignature and ParseValue.

    A pointer into the message is an offset in the aligned buffer [msgBuf],
    whose allocated bytes are [buf]; reading outside [buf] is undefined. The
    recursion follows the data, so it is run with fuel and running out of fuel
    counts as undefined. A signature is the list of characters before its NUL. *)
From S2P Require Import Prelude Types SignatureUtils SigMachine SigGrammar SigBuild Marshal.

(** The C string at offset [p]: it must end inside the allocation. *)
Fixpoint c_str (l : list Z) : res (list Z) :=
  match l with
  | [] => Undef
  | c :: l => if c =? 0 then Ok [] else let! s := c_str l in Ok (c :: s)
  end.

Section unmarshal.
Context (buf : list Z) (bufEOD : Z) (endianSwap : bool).
(** The handles that came with the message, and the count the header gives. *)
Context (handles : list Z) (num : Z).

Definition c_str_at (p : Z) : res (list Z) :=
  if bool_decide (0 <= p <= zlen buf) then c_str (drop (Z.to_nat p) buf) else Undef.

Definition rd_uint (w : nat) (p : Z) : res Z :=
  let! bs := rd buf p w in Ok (get endianSwap bs).

(** [n] consecutive words of [w] bytes. *)
Fixpoint rd_words (w n : nat) (p : Z) : res (list Z) :=
  match n with
  | O => Ok []
  | S n =>
      let! v := rd_uint w p in
      let! l := rd_words w n (p + Z.of_nat w) in
      Ok (v :: l)
  end.

(** The loop over a boolean array, left at the first word above 1. *)
Fixpoint rd_bools (n : nat) (p : Z) : res (list bool) :=
  match n with
  | O => Ok []
  | S n =>
      let! b := rd_uint 4 p in
      if b >? 1 then Fail ER_BUS_BAD_VALUE
      else let! l := rd_bools n (p + 4) in Ok ((b =? 1) :: l)
  end.

Definition ParseSignature (pos : Z) : res (MsgArg * Z) :=
  let! len := rd_uint 1 pos in
  let p := pos + 1 in
  if p + len >=? bufEOD then Fail ER_BUS_BAD_LENGTH
  else let! z := rd_uint 1 (p + len) in
       if negb (z =? 0) then Fail ER_BUS_NOT_NUL_TERMINATED
       else let! s := rd buf p (Z.to_nat len + 1) in
            Ok (A_SIGNATURE len (Some s), p + len + 1).

Definition ParseString (t : TyStr) (pos : Z) : res (MsgArg * Z) :=
  let pos := AlignPtr pos 4 in
  let! len := rd_uint 4 pos in
  if len >? ALLJOYN_MAX_PACKET_LEN then Fail ER_BUS_BAD_LENGTH
  else let p := pos + 4 in
       if p + len >=? bufEOD then Fail ER_BUS_BAD_LENGTH
       else let! z := rd_uint 1 (p + len) in
            if negb (z =? 0) then Fail ER_BUS_NOT_NUL_TERMINATED
            else let! s := rd buf p (Z.to_nat len + 1) in
                 Ok (A_STRING t len (Some s), p + len + 1).

Definition ParseHandle (pos : Z) : res (MsgArg * Z) :=
  let pos := AlignPtr pos 4 in
  let! index := rd_uint 4 pos in
  if index >=? num then Fail ER_BUS_NO_SUCH_HANDLE
  else match handles !! Z.to_nat index with
       | Some fd => Ok (A_HANDLE fd, pos + 4)
       | None => Undef
       end.

Section containers.
(** [ParseValue] as the containers call it. *)
Variable ParseValue : bool -> list Z -> Z -> res (MsgArg * list Z * Z).

(** [while (bufPos < endOfArray)]: an element takes at least a byte. *)
Fixpoint elem_loop (n : nat) (esig : list Z) (pos endOfArray : Z) : res (list MsgArg * Z) :=
  if pos <? endOfArray then
    match n with
    | O => Undef
    | S n =>
        let! (a, _, pos) := ParseValue true esig pos in
        let! (l, pos) := elem_loop n esig pos endOfArray in
        Ok (a :: l, pos)
    end
  else Ok ([], pos).

(** The elements that are not scalars, from the aligned start. *)
Definition ParseElements (elemSig : list Z) (pos len : Z) : res (MsgArg * Z) :=
  let! (els, pos) :=
    if len >? 0 then elem_loop (Z.to_nat len) elemSig pos (pos + len) else Ok ([], pos) in
  let! (_, arr) := SetElements elemSig els in
  Ok (arr, pos).

(** The [switch] on the first character of the element signature; [pos] is
    just after the length. *)
Definition array_body (elemTypeId : Z) (elemSig : list Z) (pos len : Z) : res (MsgArg * Z) :=
  match typeId_of_char elemTypeId with
  | ALLJOYN_BYTE =>
      let! l := rd_words 1 (Z.to_nat len) pos in
      Ok (A_BYTE_ARRAY (S_PTR l), pos + len)
  | ALLJOYN_INT16 =>
      if Z.land len 1 =? 0 then
        let! l := rd_words 2 (Z.to_nat (len / 2)) pos in
        Ok (A_16_ARRAY TY_INT16 (S_PTR l), pos + len)
      else Fail ER_BUS_BAD_LENGTH
  | ALLJOYN_UINT16 =>
      if Z.land len 1 =? 0 then
        let! l := rd_words 2 (Z.to_nat (len / 2)) pos in
        Ok (A_16_ARRAY TY_UINT16 (S_PTR l), pos + len)
      else Fail ER_BUS_BAD_LENGTH
  | ALLJOYN_BOOLEAN =>
      if Z.land len 3 =? 0 then
        let! l := rd_bools (Z.to_nat (len / 4)) pos in
        Ok (A_BOOLEAN_ARRAY (S_PTR l), pos + len)
      else Fail ER_BUS_BAD_LENGTH
  | ALLJOYN_INT32 =>
      if Z.land len 3 =? 0 then
        let! l := rd_words 4 (Z.to_nat (len / 4)) pos in
        Ok (A_32_ARRAY TY_INT32 (S_PTR l), pos + len)
      else Fail ER_BUS_BAD_LENGTH
  | ALLJOYN_UINT32 =>
      if Z.land len 3 =? 0 then
        let! l := rd_words 4 (Z.to_nat (len / 4)) pos in
        Ok (A_32_ARRAY TY_UINT32 (S_PTR l), pos + len)
      else Fail ER_BUS_BAD_LENGTH
  | ALLJOYN_DOUBLE =>
      if Z.land len 7 =? 0 then
        let! l := rd_words 8 (Z.to_nat (len / 8)) (AlignPtr pos 8) in
        Ok (A_64_ARRAY TY_DOUBLE (S_PTR l), AlignPtr pos 8 + len)
      else Fail ER_BUS_BAD_LENGTH
  | ALLJOYN_INT64 =>
      if Z.land len 7 =? 0 then
        let! l := rd_words 8 (Z.to_nat (len / 8)) (AlignPtr pos 8) in
        Ok (A_64_ARRAY TY_INT64 (S_PTR l), AlignPtr pos 8 + len)
      else Fail ER_BUS_BAD_LENGTH
  | ALLJOYN_UINT64 =>
      if Z.land len 7 =? 0 then
        let! l := rd_words 8 (Z.to_nat (len / 8)) (AlignPtr pos 8) in
        Ok (A_64_ARRAY TY_UINT64 (S_PTR l), AlignPtr pos 8 + len)
      else Fail ER_BUS_BAD_LENGTH
  | ALLJOYN_STRUCT_OPEN | ALLJOYN_DICT_ENTRY_OPEN =>
      ParseElements elemSig (AlignPtr pos 8) len
  | _ => ParseElements elemSig pos len
  end.

Definition ParseArray (sig : list Z) (pos : Z) : res (MsgArg * list Z * Z) :=
  let! (_, rest) := ParseContainerSignature ALLJOYN_ARRAY sig in
  let elemSig := take (length sig - length rest) sig in
  let pos := AlignPtr pos 4 in
  let! len := rd_uint 4 pos in
  let pos := pos + 4 in
  if (len >? ALLJOYN_MAX_ARRAY_LEN) || (len + pos >? bufEOD) then Fail ER_BUS_BAD_LENGTH
  else let! (arr, pos) := array_body (hd 0 sig) elemSig pos len in
       Ok (arr, rest, pos).

Fixpoint member_loop (n : nat) (memberSig : list Z) (pos : Z) : res (list MsgArg * Z) :=
  match n with
  | O => Ok ([], pos)
  | S n =>
      let! (a, memberSig, pos) := ParseValue false memberSig pos in
      let! (l, pos) := member_loop n memberSig pos in
      Ok (a :: l, pos)
  end.

(** The cleared argument has [numMembers] 0 unless the signature sets it. *)
Definition ParseStruct (sig : list Z) (pos : Z) : res (MsgArg * list Z * Z) :=
  let! (nm, rest) := ParseContainerSignature ALLJOYN_STRUCT sig in
  let! (ms, pos) := member_loop (Z.to_nat (default 0 nm)) sig (AlignPtr pos 8) in
  Ok (A_STRUCT ms, rest, pos).

Definition ParseDictEntry (sig : list Z) (pos : Z) : res (MsgArg * list Z * Z) :=
  let! (_, rest) := ParseContainerSignature ALLJOYN_DICT_ENTRY sig in
  let! (k, memberSig, pos) := ParseValue false sig (AlignPtr pos 8) in
  let! (v, _, pos) := ParseValue false memberSig pos in
  Ok (A_DICT_ENTRY k v, rest, pos).

Definition ParseVariant (pos : Z) : res (MsgArg * Z) :=
  let! len := rd_uint 1 pos in
  let p := pos + 1 in
  if p + len >=? bufEOD then Fail ER_BUS_BAD_LENGTH
  else let! z := rd_uint 1 (p + len) in
       if negb (z =? 0) then Fail ER_BUS_BAD_SIGNATURE
       else let! vsig := c_str_at p in
            let! (v, rest, pos) := ParseValue false vsig (p + len + 1) in
            if bool_decide (rest = []) then Ok (A_VARIANT v, pos)
            else Fail ER_BUS_BAD_SIGNATURE.
End containers.

(** A case that does not move [sigPtr] further. *)
Definition same_sig (r : res (MsgArg * Z)) (sig : list Z) : res (MsgArg * list Z * Z) :=
  let! (a, pos) := r in Ok (a, sig, pos).

Fixpoint ParseValue (fuel : nat) (arrayElem : bool) (sig0 : list Z) (pos : Z)
  : res (MsgArg * list Z * Z) :=
  match fuel with
  | O => Undef
  | S fuel =>
      let pv := ParseValue fuel in
      let sig := tail sig0 in
      let! (a, sig, pos) :=
        match typeId_of_char (hd 0 sig0) with
        | ALLJOYN_BYTE => let! v := rd_uint 1 pos in Ok (A_BYTE v, sig, pos + 1)
        | ALLJOYN_INT16 =>
            let! v := rd_uint 2 (AlignPtr pos 2) in Ok (A_16 TY_INT16 v, sig, AlignPtr pos 2 + 2)
        | ALLJOYN_UINT16 =>
            let! v := rd_uint 2 (AlignPtr pos 2) in Ok (A_16 TY_UINT16 v, sig, AlignPtr pos 2 + 2)
        | ALLJOYN_BOOLEAN =>
            let! v := rd_uint 4 (AlignPtr pos 4) in
            if v >? 1 then Fail ER_BUS_BAD_VALUE
            else Ok (A_BOOLEAN (v =? 1), sig, AlignPtr pos 4 + 4)
        | ALLJOYN_INT32 =>
            let! v := rd_uint 4 (AlignPtr pos 4) in Ok (A_32 TY_INT32 v, sig, AlignPtr pos 4 + 4)
        | ALLJOYN_UINT32 =>
            let! v := rd_uint 4 (AlignPtr pos 4) in Ok (A_32 TY_UINT32 v, sig, AlignPtr pos 4 + 4)
        | ALLJOYN_DOUBLE =>
            let! v := rd_uint 8 (AlignPtr pos 8) in Ok (A_64 TY_DOUBLE v, sig, AlignPtr pos 8 + 8)
        | ALLJOYN_UINT64 =>
            let! v := rd_uint 8 (AlignPtr pos 8) in Ok (A_64 TY_UINT64 v, sig, AlignPtr pos 8 + 8)
        | ALLJOYN_INT64 =>
            let! v := rd_uint 8 (AlignPtr pos 8) in Ok (A_64 TY_INT64 v, sig, AlignPtr pos 8 + 8)
        | ALLJOYN_OBJECT_PATH => same_sig (ParseString TY_OBJECT_PATH pos) sig
        | ALLJOYN_STRING => same_sig (ParseString TY_STRING pos) sig
        | ALLJOYN_SIGNATURE => same_sig (ParseSignature pos) sig
        | ALLJOYN_ARRAY => ParseArray pv sig pos
        | ALLJOYN_DICT_ENTRY_OPEN =>
            if arrayElem then ParseDictEntry pv sig pos else Fail ER_BUS_BAD_SIGNATURE
        | ALLJOYN_STRUCT_OPEN => ParseStruct pv sig pos
        | ALLJOYN_VARIANT => same_sig (ParseVariant pv pos) sig
        | ALLJOYN_HANDLE => same_sig (ParseHandle pos) sig
        | _ => Fail ER_BUS_BAD_VALUE_TYPE
        end in
      if pos >? bufEOD then Fail ER_BUS_BAD_SIGNATURE else Ok (a, sig, pos)
  end.

(** Nesting is bounded by the signature inside a value, and every variant
    takes at least two bytes and brings a signature of at most 255. *)
Definition pv_fuel (sig : list Z) (pos : Z) : nat :=
  Z.to_nat (256 * (bufEOD + 8 - pos)) + length sig + 1.
End unmarshal.
