(* ===== verification/UnmarshalSafe.v ===== *)
(** Any bytes, any signature: the value parser stays inside the message buffer,
    terminates within its fuel and always moves forward. *)
From S2P Require Import Prelude Types SignatureUtils SigMachine SigGrammar SigBuild Marshal Unmarshal.

(** * The signature functions on arbitrary strings *)

Definition struct_member (ct : AllJoynTypeId) (nm : option Z) : Prop :=
  ct = ALLJOYN_STRUCT -> exists n, nm = Some n /\ 0 < n.

(** A struct signature that is accepted has a member, however long it is. *)
Lemma pcs_loop_count n : forall ct e bl nm sig nm' rest,
  (length sig <= n)%nat -> stack_ok ct (e :: bl) ->
  pcs_loop ct (mk e bl nm) sig = Ok (nm', rest) -> struct_member ct nm'.
Proof.
  induction n as [|n IH]; intros ct e bl nm [|c sig] nm' rest Hl Hok Hr; simpl in Hl; try lia;
    try (by rewrite loop_nil in Hr).
  assert (forall e bl, stack_ok ct (e :: bl) -> resume ct e bl nm sig = Ok (nm', rest) ->
    struct_member ct nm') as Hres.
  { clear e bl Hok Hr. intros e bl Hok. unfold resume. destruct (settle e bl) as [[e' bl']|] eqn:Hs.
    - destruct (settle_Some _ _ _ _ _ Hok Hs) as (Hok' & _). intros Hr. eapply IH; [|done|done]. lia.
    - intros _ ->. by pose proof (settle_None_bottom _ _ _ Hs (so_bottom _ _ Hok)). }
  destruct (char_view_all e c) as [c Hc| | | |c Hc|c ?????].
  - rewrite loop_leaf in Hr by done. eauto.
  - rewrite loop_array in Hr by done. destruct (Z.ltb_spec (arrays (e :: bl)) 32); [|done].
    eapply IH; [|by apply stack_ok_push_array|done]. lia.
  - rewrite loop_struct_open in Hr by done. destruct (Z.ltb_spec (structs (e :: bl)) 32); [|done].
    eapply IH; [|by apply stack_ok_push_struct; [left|..]|done]. lia.
  - rewrite loop_dict_open in Hr by done. destruct (Z.ltb_spec (structs (e :: bl)) 32); [|done].
    destruct sig as [|k sig]; [done|]. destruct (is_array e && _) eqn:Hk; [|done]. split_andb Hk.
    eapply IH; [|by apply stack_ok_push_struct; [right|..]|done]. simpl in Hl. lia.
  - rewrite loop_close in Hr by done. destruct bl as [|e' bl'].
    + injection Hr as <- <-. intros ->. rewrite bool_decide_true by done. eexists. split; [done|].
      pose proof (so_bottom _ _ Hok) as Hb. cbn in Hb. injection Hb as Hb.
      destruct Hc as [(_ & _ & ?)|(_ & He & _)]; [lia|congruence].
    + apply (Hres e' bl'); [by eapply stack_ok_tail|done].
  - by rewrite loop_bad' in Hr.
Qed.

Lemma container_parse ct sig :
  container_type ct ->
  match ParseContainerSignature ct sig with
  | Ok (nm, rest) => (length rest <= length sig)%nat /\ struct_member ct nm
  | Fail _ => True
  | Undef => False
  end.
Proof.
  intros Hct. unfold ParseContainerSignature.
  pose proof (pcs_loop_shorter (length sig) ct (pcs_init ct) sig) as Hsh.
  rewrite pcs_init_mk in *. pose proof (stack_ok_init ct Hct) as Hok.
  pose proof (pcs_loop_defined (length sig) ct _ _ None sig ltac:(done) Hok) as Hd.
  pose proof (pcs_loop_count (length sig) ct (entry ct 0) [] None sig) as Hc.
  destruct (pcs_loop _ _ sig) as [[nm rest]| |]; [|done..]. eauto.
Qed.

Lemma CountCompleteTypes_defined sig : defined (CountCompleteTypes (Some sig)).
Proof.
  unfold CountCompleteTypes. generalize (Nat.le_refl (length sig)). generalize (length sig) at 2 3.
  intros fuel. generalize 0. revert sig. induction fuel as [|fuel IH]; intros [|c sig] count Hl;
    try done; [simpl in Hl; lia|].
  cbn [count_loop]. destruct (ParseCompleteType (c :: sig)) as [rest| |] eqn:Hp; [|done|].
  - apply IH. apply ParseCompleteType_shorter in Hp. simpl in *. lia.
  - by destruct (ParseCompleteType_defined (c :: sig)).
Qed.

Lemma CountCompleteTypes_nonneg sig n : CountCompleteTypes (Some sig) = Ok n -> 0 <= n.
Proof.
  unfold CountCompleteTypes. generalize (length sig) at 1. assert (0 <= 0) as H0 by lia. revert H0.
  generalize 0 at 2 3. intros count Hc fuel. revert count Hc sig.
  induction fuel as [|fuel IH]; intros count Hc [|c sig]; cbn [count_loop];
    try (by intros [= <-]).
  destruct (ParseCompleteType (c :: sig)); [|by intros [= <-]|done].
  apply IH. unfold u8. by apply Z.mod_pos_bound.
Qed.

Lemma SetElements_defined es els : defined (SetElements es els).
Proof.
  unfold SetElements. destruct (nulls els); [done|].
  apply rbind_defined; [apply CountCompleteTypes_defined|]. intros n _.
  destruct (negb (n =? 1)); [done|]. destruct els as [|e l]; [done|]. by destruct (forallb _ l).
Qed.

(** [step r P]: no undefined behaviour, and a returned value satisfies [P]. *)
Definition step {E A} (r : result E A) (P : A -> Prop) : Prop :=
  match r with Ok a => P a | Fail _ => True | Undef => False end.

Lemma step_bind {E A B} (r : result E A) (k : A -> result E B) (P : A -> Prop) (Q : B -> Prop) :
  step r P -> (forall a, P a -> step (k a) Q) -> step (rbind r k) Q.
Proof. destruct r; simpl; auto. Qed.

Lemma step_defined {E A} (r : result E A) : defined r -> step r (fun _ => True).
Proof. by destruct r. Qed.

(** * The parser *)

Section safe.
Context (buf : list Z) (bufEOD : Z) (endianSwap : bool) (handles : list Z) (num : Z).

(** What [InterpretHeader] sets up: the data ends at [bufEOD] and eight more
    bytes follow the next multiple of eight; and the header does not announce
    more handles than came with the message. *)
Record layout : Prop := {
  l_bytes : Forall is_byte buf;
  l_eod : 0 <= bufEOD;
  l_room : AlignPtr bufEOD 8 + 8 <= zlen buf;
  l_handles : num <= zlen handles
}.
Context (L : layout).

Abbreviation lim := (AlignPtr bufEOD 8).

Lemma lim_ge : bufEOD <= lim < bufEOD + 8.
Proof. by apply AlignPtr_bound. Qed.

Lemma lim_mult : lim mod 8 = 0.
Proof. by apply AlignPtr_multiple. Qed.

Lemma align_lim pos b : alignment b -> 0 <= pos <= lim -> pos <= AlignPtr pos b <= lim.
Proof.
  intros Hb Hp. split; [by apply AlignPtr_bound|].
  apply AlignPtr_le; [done|lia|apply lim_mult].
Qed.

Lemma rd_step p n :
  0 <= p -> p + Z.of_nat n <= zlen buf ->
  step (rd (E:=QStatus) buf p n) (fun l => Forall is_byte l /\ length l = n).
Proof.
  intros Hp Hn. destruct (rd_defined (E:=QStatus) buf p n Hp Hn) as (l & Hr & Hl). rewrite Hr.
  split; [|done]. by eapply rd_bytes; [|apply L].
Qed.

Lemma rd_uint_step w p :
  0 <= p -> p + Z.of_nat w <= zlen buf ->
  step (rd_uint buf endianSwap w p) (u_ok w).
Proof.
  intros. eapply step_bind; [by apply rd_step|]. intros bs [Hb <-]. by apply get_bound.
Qed.

Lemma rd_words_step w n : forall p,
  0 <= p -> p + Z.of_nat w * Z.of_nat n <= zlen buf ->
  step (rd_words buf endianSwap w n p) (fun _ => True).
Proof.
  induction n as [|n IH]; intros p Hp Hn; [done|]. cbn [rd_words].
  eapply step_bind; [apply rd_uint_step; lia|]. intros v _.
  eapply step_bind; [apply IH; lia|]. done.
Qed.

Lemma rd_bools_step n : forall p,
  0 <= p -> p + 4 * Z.of_nat n <= zlen buf -> step (rd_bools buf endianSwap n p) (fun _ => True).
Proof.
  induction n as [|n IH]; intros p Hp Hn; [done|]. cbn [rd_bools].
  eapply step_bind; [apply rd_uint_step; lia|]. intros b _. destruct (b >? 1); [done|].
  eapply step_bind; [apply IH; lia|]. done.
Qed.

(** What a successful parse of a value at [pos] has done. *)
Definition moved (pos : Z) (r : MsgArg * Z) : Prop := pos < r.2.
Definition parsed (sig : list Z) (pos : Z) (r : MsgArg * list Z * Z) : Prop :=
  pos < r.2 /\ (length r.1.2 < length sig)%nat.
Definition advanced (sig : list Z) (pos : Z) (r : MsgArg * list Z * Z) : Prop :=
  pos < r.2 <= bufEOD /\ (length r.1.2 < length sig)%nat.

Lemma counted_step pos base (f : Z -> list Z -> MsgArg) err :
  0 <= pos <= base -> forall len, 0 <= len ->
  step (if base + len >=? bufEOD then Fail ER_BUS_BAD_LENGTH
        else let! z := rd_uint buf endianSwap 1 (base + len) in
             if negb (z =? 0) then Fail err
             else let! s := rd buf base (Z.to_nat len + 1) in
                  Ok (f len s, base + len + 1)) (moved pos).
Proof.
  intros Hp len Hl. destruct (Z.geb_spec (base + len) bufEOD); [done|].
  pose proof lim_ge. destruct L.
  eapply step_bind; [apply rd_uint_step; lia|]. intros z _. destruct (negb (z =? 0)); [done|].
  eapply step_bind; [apply rd_step; lia|]. intros s _. unfold moved. simpl. lia.
Qed.

Lemma u_ok_nonneg w v : u_ok w v -> 0 <= v.
Proof. unfold u_ok. lia. Qed.

Lemma ParseSignature_step pos :
  0 <= pos <= lim -> step (ParseSignature buf bufEOD endianSwap pos) (moved pos).
Proof.
  intros Hp. unfold ParseSignature. destruct L.
  eapply step_bind; [apply rd_uint_step; lia|]. intros len Hl%u_ok_nonneg.
  apply (counted_step pos (pos + 1) (fun len s => A_SIGNATURE len (Some s))); lia.
Qed.

Lemma ParseString_step t pos :
  0 <= pos <= lim -> step (ParseString buf bufEOD endianSwap t pos) (moved pos).
Proof.
  intros Hp. pose proof (align_lim pos 4 align4 Hp) as Ha.
  unfold ParseString. destruct L.
  eapply step_bind; [apply rd_uint_step; lia|]. intros len Hl%u_ok_nonneg.
  destruct (len >? ALLJOYN_MAX_PACKET_LEN); [done|].
  apply (counted_step pos (AlignPtr pos 4 + 4) (fun len s => A_STRING t len (Some s))); lia.
Qed.

Lemma ParseHandle_step pos :
  0 <= pos <= lim -> step (ParseHandle buf endianSwap handles num pos) (moved pos).
Proof.
  intros Hp. pose proof (align_lim pos 4 align4 Hp) as Ha.
  unfold ParseHandle. destruct L.
  eapply step_bind; [apply rd_uint_step; lia|]. intros i Hi%u_ok_nonneg.
  destruct (Z.geb_spec i num); [done|].
  destruct (lookup_lt_is_Some_2 handles (Z.to_nat i)) as [fd ->]; [lia|].
  unfold moved. simpl. lia.
Qed.

(** ** Containers, for any parser of the values inside *)
Section containers.
Context (pv : bool -> list Z -> Z -> res (MsgArg * list Z * Z)).

(** [pv] handles signatures shorter than [n] at positions from [p0] on. *)
Definition pv_good (n : nat) (p0 : Z) : Prop := forall e s p,
  p0 <= p <= lim -> (length s < n)%nat -> step (pv e s p) (advanced s p).

Lemma elem_loop_step n p0 es : pv_good n p0 -> (length es < n)%nat ->
  forall k pos endp, p0 <= pos <= lim -> endp - pos <= Z.of_nat k ->
  step (elem_loop pv k es pos endp) (fun r => pos <= r.2).
Proof.
  intros Hpv Hes. induction k as [|k IH]; intros pos endp Hp Hk; cbn [elem_loop];
    (destruct (Z.ltb_spec pos endp); [|simpl; lia]); [lia|].
  eapply step_bind; [by apply Hpv|]. intros [[a r] pos'] [Hm _]. simpl in Hm.
  pose proof lim_ge. eapply step_bind; [apply IH; lia|]. intros [l pos2] H2. simpl in *. lia.
Qed.

Lemma ParseElements_step n p0 es pos len : pv_good n p0 -> (length es < n)%nat ->
  p0 <= pos <= lim -> 0 <= len -> step (ParseElements pv es pos len) (fun r => pos <= r.2).
Proof.
  intros Hpv Hes Hp Hl. unfold ParseElements.
  eapply step_bind with (P := fun r => pos <= r.2).
  - destruct (len >? 0); [|simpl; lia]. apply (elem_loop_step n p0); [done..|lia].
  - intros [els pos'] Hp'. eapply step_bind; [apply step_defined, SetElements_defined|].
    intros [s arr] _. exact Hp'.
Qed.

Lemma ParseArray_step sig pos : pv_good (S (length sig)) pos -> 0 <= pos <= lim ->
  step (ParseArray buf bufEOD endianSwap pv sig pos)
    (fun r => pos < r.2 /\ (length r.1.2 <= length sig)%nat).
Proof.
  intros Hpv Hp. unfold ParseArray.
  pose proof (container_parse ALLJOYN_ARRAY sig ltac:(by left)) as Hc.
  destruct (ParseContainerSignature _ _) as [[nm rest]| |]; [|done..]. destruct Hc as [Hr _].
  cbn [rbind]. set (es := take _ sig).
  assert (length es < S (length sig))%nat as Hes by (unfold es; rewrite length_take; lia).
  pose proof (align_lim pos 4 align4 Hp) as Ha.
  pose proof lim_ge. set (pos1 := AlignPtr pos 4 + 4). destruct (L) as [_ ? ? _].
  eapply step_bind; [apply rd_uint_step; lia|]. intros len Hl%u_ok_nonneg.
  destruct (_ || _) eqn:Hlen; [done|]. apply orb_false_iff in Hlen as [_ Hlen].
  pose proof (align_lim pos1 8 align8 ltac:(lia)) as Ha8.
  assert (AlignPtr pos1 8 + len <= zlen buf) as Hroom.
  { pose proof (AlignPtr_bound pos1 8 align8). lia. }
  eapply step_bind with (P := fun r => pos < r.2); [|intros [arr p'] Hp'; simpl in *; lia].
  assert (forall q, pos1 <= q <= lim -> step (ParseElements pv es q len) (fun r => pos < r.2)) as Hel.
  { intros q Hq. pose proof (ParseElements_step _ pos es q len Hpv Hes ltac:(lia) Hl) as Hpe.
    destruct (ParseElements _ _ _ _) as [[arr p']| |]; [|done..]. simpl in *. lia. }
  assert (forall w m q f, pos1 <= q -> Z.of_nat w * Z.of_nat m <= len -> q <= AlignPtr pos1 8 ->
    step (let! l := rd_words buf endianSwap w m q in Ok (f l, q + len))
         (fun r : MsgArg * Z => pos < r.2)) as Hw.
  { intros w m q f Hq Hm Hq8. eapply step_bind; [apply rd_words_step; lia|]. intros l _. simpl. lia. }
  unfold array_body. destruct (typeId_of_char (hd 0 sig)); try (apply Hel; lia); try (apply Hw; lia);
    match goal with |- step (if ?b then _ else _) _ => destruct b end; try done;
    try (apply Hw; try lia; pose proof (Z.mul_div_le len 2 ltac:(lia));
         pose proof (Z.mul_div_le len 4 ltac:(lia)); pose proof (Z.mul_div_le len 8 ltac:(lia));
         pose proof (Z.div_pos len 2); pose proof (Z.div_pos len 4); pose proof (Z.div_pos len 8); lia).
  eapply step_bind; [apply rd_bools_step; [lia|]|intros l _; simpl; lia].
  pose proof (Z.mul_div_le len 4 ltac:(lia)); pose proof (Z.div_pos len 4). lia.
Qed.

Lemma member_loop_step n p0 : pv_good n p0 -> forall k ms pos,
  p0 <= pos <= lim -> (length ms < n)%nat ->
  step (member_loop pv k ms pos) (fun r => pos <= r.2 /\ (k <> O -> pos < r.2)).
Proof.
  intros Hpv. induction k as [|k IH]; intros ms pos Hp Hl; cbn [member_loop]; [simpl; lia|].
  eapply step_bind; [by apply Hpv|]. intros [[a r] pos'] [Hm Hr]. simpl in *.
  pose proof lim_ge. eapply step_bind; [apply IH; lia|]. intros [l pos2] [H2 _]. simpl in *. lia.
Qed.

Lemma ParseStruct_step sig pos : pv_good (S (length sig)) pos -> 0 <= pos <= lim ->
  step (ParseStruct pv sig pos) (fun r => pos < r.2 /\ (length r.1.2 <= length sig)%nat).
Proof.
  intros Hpv Hp. unfold ParseStruct.
  pose proof (container_parse ALLJOYN_STRUCT sig ltac:(by right; left)) as Hc.
  destruct (ParseContainerSignature _ _) as [[nm rest]| |]; [|done..].
  destruct Hc as (Hr & n & -> & Hn); [done|]. cbn [rbind default id].
  pose proof (align_lim pos 8 align8 Hp) as Ha.
  eapply step_bind; [apply (member_loop_step _ pos Hpv); lia|].
  intros [ms pos'] [_ Hm]. simpl in *. lia.
Qed.

Lemma ParseDictEntry_step sig pos : pv_good (S (length sig)) pos -> 0 <= pos <= lim ->
  step (ParseDictEntry pv sig pos) (fun r => pos < r.2 /\ (length r.1.2 <= length sig)%nat).
Proof.
  intros Hpv Hp. unfold ParseDictEntry.
  pose proof (container_parse ALLJOYN_DICT_ENTRY sig ltac:(by right; right)) as Hc.
  destruct (ParseContainerSignature _ _) as [[nm rest]| |]; [|done..].
  destruct Hc as [Hr _]. cbn [rbind]. pose proof lim_ge.
  pose proof (align_lim pos 8 align8 Hp) as Ha.
  eapply step_bind; [apply Hpv; lia|]. intros [[k ms] p1] [H1 Hl1]. simpl in *.
  eapply step_bind; [apply Hpv; lia|]. intros [[v ms2] p2] [H2 _]. simpl in *. lia.
Qed.

Lemma c_str_step l i : l !! i = Some 0 -> step (c_str l) (fun s => (length s <= i)%nat).
Proof.
  revert i. induction l as [|c l IH]; intros i Hi; [done|]. cbn [c_str].
  destruct (Z.eqb_spec c 0); [simpl; lia|]. destruct i as [|i]; [by injection Hi|].
  eapply step_bind; [by apply (IH i)|]. intros s Hs. simpl in *. lia.
Qed.

Lemma rd_uint1_lookup p z : rd_uint buf endianSwap 1 p = Ok z -> buf !! Z.to_nat p = Some z.
Proof.
  unfold rd_uint. intros H. apply rbind_Ok in H as (bs & Hr & [= <-]).
  pose proof (rd_Ok _ _ _ _ Hr) as (Hp & Hl & Hlen). unfold rd in Hr.
  case_bool_decide; [|done]. injection Hr as <-.
  destruct (lookup_lt_is_Some_2 buf (Z.to_nat p)) as [x Hx]; [lia|].
  assert (take 1 (drop (Z.to_nat p) buf) = [x]) as ->.
  { rewrite <- (take_drop_middle buf (Z.to_nat p) x Hx) at 1.
    rewrite drop_app_length'; [done|]. rewrite length_take. lia. }
  rewrite Hx. f_equal. destruct endianSwap; cbn.
  - assert (is_byte x) as Hb.
    { destruct L as [Hall _ _ _]. by apply (Forall_lookup_1 _ _ _ _ Hall Hx). }
    unfold EndianSwap. cbn. unfold is_byte in Hb. rewrite Z.mod_small by lia. lia.
  - lia.
Qed.

Lemma ParseVariant_step pos : 0 <= pos <= lim ->
  (forall s p, pos + 2 <= p <= lim -> (length s <= 255)%nat -> step (pv false s p) (advanced s p)) ->
  step (ParseVariant buf bufEOD endianSwap pv pos) (moved pos).
Proof.
  intros Hp Hpv. unfold ParseVariant. pose proof lim_ge. destruct (L) as [_ ? ? _].
  eapply step_bind; [apply rd_uint_step; lia|]. intros len Hl. unfold u_ok in Hl. simpl in Hl.
  destruct (Z.geb_spec (pos + 1 + len) bufEOD); [done|].
  destruct (rd_uint _ _ 1 (pos + 1 + len)) as [z| |] eqn:Hz; [|done|].
  2:{ pose proof (rd_uint_step 1 (pos + 1 + len) ltac:(lia) ltac:(lia)) as Hs. by rewrite Hz in Hs. }
  cbn [rbind]. destruct (Z.eqb_spec z 0) as [->|]; [|done]. cbn [negb].
  apply rd_uint1_lookup in Hz. unfold c_str_at. rewrite bool_decide_true by lia.
  eapply step_bind; [apply (c_str_step _ (Z.to_nat len))|].
  { rewrite lookup_drop, <- Hz. f_equal. lia. }
  intros vsig Hv. simpl in Hv. eapply step_bind; [apply Hpv; lia|]. intros [[v rest] p'] [Hm _].
  simpl in Hm. case_bool_decide; [|done]. unfold moved. simpl. lia.
Qed.
End containers.

Lemma read_step w pos (f : Z -> MsgArg) sig :
  alignment (Z.of_nat w) -> 0 <= pos <= lim -> sig <> [] ->
  step (let! v := rd_uint buf endianSwap w (AlignPtr pos (Z.of_nat w)) in
        Ok (f v, tail sig, AlignPtr pos (Z.of_nat w) + Z.of_nat w)) (parsed sig pos).
Proof.
  intros Hw Hp Hs. pose proof (align_lim pos _ Hw Hp) as Ha. destruct (L) as [_ ? ? _].
  assert (1 <= Z.of_nat w <= 8) by (unfold alignment in Hw; lia).
  eapply step_bind; [apply rd_uint_step; lia|]. intros v _. split; simpl; [lia|].
  destruct sig; [done|simpl; lia].
Qed.

Lemma same_sig_step (r : res (MsgArg * Z)) pos sig :
  step r (moved pos) -> sig <> [] -> step (same_sig r (tail sig)) (parsed sig pos).
Proof.
  intros Hr Hs. eapply step_bind; [exact Hr|]. intros [a p] Hm. split; [exact Hm|].
  destruct sig; [done|simpl; lia].
Qed.

Lemma shorter_step (r : res (MsgArg * list Z * Z)) pos sig :
  step r (fun r => pos < r.2 /\ (length r.1.2 <= length (tail sig))%nat) -> sig <> [] ->
  step r (parsed sig pos).
Proof.
  intros Hr Hs. destruct r; [|done..]. destruct sig; [done|]. unfold parsed in *. simpl in *. lia.
Qed.

Lemma ParseValue_step fuel : forall e sig pos,
  0 <= pos <= lim -> (pv_fuel bufEOD sig pos <= fuel)%nat ->
  step (ParseValue buf bufEOD endianSwap handles num fuel e sig pos) (advanced sig pos).
Proof.
  induction fuel as [|fuel IH]; intros e sig pos Hp Hf; [unfold pv_fuel in Hf; lia|].
  cbn [ParseValue]. set (pv := ParseValue _ _ _ _ _ fuel) in *.
  eapply step_bind with (P := parsed sig pos).
  2:{ intros [[a rest] p] [Hm Hr]. simpl in *. destruct (Z.gtb_spec p bufEOD); [done|].
      unfold advanced. simpl. lia. }
  destruct sig as [|c sig]; [done|]. set (sg := c :: sig). assert (sg <> []) as Hne by done.
  pose proof lim_ge. unfold pv_fuel in *.
  assert (pv_good pv (S (length sig)) pos) as Hgood.
  { intros e' s p Hp' Hl. apply IH; [lia|]. simpl in Hf. lia. }
  assert (forall s p, pos + 2 <= p <= lim -> (length s <= 255)%nat ->
    step (pv false s p) (advanced s p)) as Hvar.
  { intros s p Hp' Hl. apply IH; [lia|]. simpl in Hf. lia. }
  simpl hd. destruct (typeId_of_char c); try done;
    try (by apply same_sig_step; [auto using ParseString_step, ParseSignature_step,
           ParseHandle_step, ParseVariant_step|]).
  - by apply shorter_step; [apply ParseArray_step|].
  - pose proof (read_step 4 pos (fun v => A_BOOLEAN (v =? 1)) sg align4 Hp Hne) as Hr.
    change (Z.of_nat 4) with 4 in Hr. destruct (rd_uint _ _ 4 _) as [v| |]; [|done..].
    cbn [rbind] in *. by destruct (v >? 1).
  - by apply (read_step 8).
  - by apply (read_step 4).
  - by apply (read_step 2).
  - by apply (read_step 2).
  - by apply (read_step 8).
  - by apply (read_step 4).
  - by apply (read_step 8).
  - pose proof (read_step 1 pos A_BYTE sg align1 Hp Hne) as Hr.
    change (Z.of_nat 1) with 1 in Hr. rewrite AlignPtr_id in Hr by (by left || apply Z.mod_1_r). done.
  - by apply shorter_step; [apply ParseStruct_step|].
  - destruct e; [|done]. by apply shorter_step; [apply ParseDictEntry_step|].
Qed.
End safe.
