(* ===== verification/Roundtrip.v ===== *)
(** What [MarshalArgs] writes, [ParseValue] reads back, in both byte orders. *)
From S2P Require Import Prelude Types SignatureUtils SigMachine SigGrammar SigBuild Marshal Typed MarshalProofs Unmarshal UnmarshalSafe.

(** [only r x]: the call does not fail, and [x] is all it can return. *)
Definition only {A} (r : res A) (x : A) : Prop :=
  match r with Ok y => y = x | Fail _ => False | Undef => True end.

Lemma only_bind {A B} (r : res A) x (k : A -> res B) y :
  only r x -> only (k x) y -> only (rbind r k) y.
Proof. destruct r; simpl; [by intros ->|done|done]. Qed.

Lemma only_Ok {A} (r : res A) x : r = Ok x -> only r x.
Proof. by intros ->. Qed.

Lemma only_step {A} (r : res A) x P : only r x -> step r P -> r = Ok x /\ P x.
Proof. destruct r; simpl; [by intros ->|done|done]. Qed.

Lemma wf_leaf c : is_leaf c = true -> wf_ty 0 1 true (SLeaf c) = true.
Proof. done. Qed.

(** A type that fits inside containers also stands on its own. *)
Lemma wf_ty_mono t : forall sd ad b sd' ad' b',
  wf_ty sd ad b t = true -> sd' <= sd -> ad' <= ad -> implb b b' = true -> wf_ty sd' ad' b' t = true.
Proof.
  induction t as [c|t IH|ts IH|k v _ IHv] using sigty_nested_ind;
    intros sd ad b sd' ad' b' Hwf Hs Ha Hb; cbn [wf_ty] in *; [done|..]; split_andb Hwf.
  - apply andb_true_iff. split; [lia|]. by apply (IH sd (ad + 1) true); [|lia|lia|].
  - rewrite !andb_true_iff. split_and!; [lia..|]. rewrite forallb_Forall in *.
    rewrite Forall_forall in *. intros t Ht. by eapply (IH t Ht); [eauto|lia|lia|].
  - rewrite !andb_true_iff. destruct b; [|done]. split_and!; [by destruct b'|lia|done|].
    by eapply (IHv (sd + 1) ad false); [done|lia|lia|].
Qed.

Lemma basic_key_wf k sd ad b : basic_key k = true -> wf_ty sd ad b k = true.
Proof. destruct k as [c| | |]; [apply basic_leaf|done..]. Qed.

Lemma wf_ty_top t sd ad b : 0 <= sd -> 0 <= ad -> wf_ty sd ad b t = true -> wf_top t = true.
Proof.
  intros Hs Ha. destruct t as [c|t|ts|k v]; cbn [wf_ty wf_top]; intros Hwf; [done|..]; split_andb Hwf.
  - by eapply wf_ty_mono; [done|lia|lia|].
  - rewrite !andb_true_iff. split_and!; [lia..|]. rewrite forallb_Forall in *.
    eapply Forall_impl; [done|]. simpl. intros t Ht. by eapply wf_ty_mono; [done|lia|lia|].
  - rewrite basic_key_wf by done. by eapply wf_ty_mono; [done|lia|lia|].
Qed.

(** The [typeId] of every value of a type. *)
Definition value_type (t : sigty) : AllJoynTypeId :=
  match t with
  | SLeaf c => typeId_of_char c
  | SArray (SLeaf c) =>
      match typeId_of_char c with
      | ALLJOYN_BYTE => ALLJOYN_BYTE_ARRAY
      | ALLJOYN_INT16 => ALLJOYN_INT16_ARRAY
      | ALLJOYN_UINT16 => ALLJOYN_UINT16_ARRAY
      | ALLJOYN_BOOLEAN => ALLJOYN_BOOLEAN_ARRAY
      | ALLJOYN_INT32 => ALLJOYN_INT32_ARRAY
      | ALLJOYN_UINT32 => ALLJOYN_UINT32_ARRAY
      | ALLJOYN_DOUBLE => ALLJOYN_DOUBLE_ARRAY
      | ALLJOYN_INT64 => ALLJOYN_INT64_ARRAY
      | ALLJOYN_UINT64 => ALLJOYN_UINT64_ARRAY
      | _ => ALLJOYN_ARRAY
      end
  | SArray _ => ALLJOYN_ARRAY
  | SStruct _ => ALLJOYN_STRUCT
  | SDict _ _ => ALLJOYN_DICT_ENTRY
  end.

Lemma typed_typeId e a t : typed e a t -> typeId a = value_type t.
Proof.
  destruct a, t as [c|[c| | |]| |]; cbn [typed]; try done;
    try match goal with |- match ?v with _ => _ end -> _ => destruct v; [done|] end;
    intros H; destruct_and?; subst; try done; try (by destruct t0).
  cbn [value_type typeId]. unfold scalar_elem in *. by destruct (typeId_of_char c).
Qed.

Lemma SetElements_typed t l :
  wf_ty 0 1 true t = true -> zlen (print t) <= 252 -> Forall (fun a => typed true a t) l ->
  SetElements (print t) l = Ok (ER_OK, A_ARRAY (Some (print t)) l).
Proof.
  intros Hwf Hl Hty. unfold SetElements.
  assert (nulls l = false) as -> by (destruct Hty; [done|by eapply typed_not_nulls]).
  assert (CountCompleteTypes (Some (print t)) = Ok 1) as ->.
  { pose proof (CountCompleteTypes_prints [t]) as Hc. simpl in Hc. rewrite app_nil_r in Hc.
    apply Hc; [|lia]. by rewrite (wf_ty_top t 0 1 true). }
  cbn [rbind Z.eqb negb]. destruct Hty as [|a l Ha Hty]; [done|].
  assert (forallb (fun e' => bool_decide (typeId e' = typeId a)) l = true) as ->; [|done].
  apply forallb_Forall. eapply Forall_impl; [exact Hty|]. intros b Hb. apply bool_decide_eq_true.
  by rewrite (typed_typeId _ _ _ Ha), (typed_typeId _ _ _ Hb).
Qed.

Section roundtrip.
Context (buf : list Z) (bufEOD : Z) (sw : bool) (handles : list Z) (num : Z).
Context (SocketDup : list Z -> Z -> res Z).
Abbreviation parse := (ParseValue buf bufEOD sw handles num).
Abbreviation marshal := (marshal_value sw SocketDup).

Lemma rd_uint_put w p v :
  has_at buf p (put sw w v) -> (0 < w)%nat -> u_ok w v -> rd_uint buf sw w p = Ok v.
Proof.
  intros Hat Hw Hv. unfold rd_uint. pose proof (length_put sw w v) as Hl.
  pose proof (rd_has_at (E:=QStatus) buf p (put sw w v) Hat) as Hr. rewrite Hl in Hr.
  rewrite Hr by (intros Hn; rewrite Hn in Hl; simpl in Hl; lia).
  cbn [rbind]. by rewrite get_put.
Qed.

Lemma rd_uint_byte p v : has_at buf p [v] -> is_byte v -> rd_uint buf sw 1 p = Ok v.
Proof.
  intros Hat Hv. apply rd_uint_put; [|lia|exact Hv]. unfold is_byte in Hv.
  replace (put sw 1 v) with [v]; [done|]. destruct sw; cbn; by rewrite Z.mod_small.
Qed.

Lemma rd_words_put w : (0 < w)%nat -> forall l p,
  has_at buf p (concat (map (put sw w) l)) -> Forall (u_ok w) l ->
  rd_words buf sw w (length l) p = Ok l.
Proof.
  intros Hw. induction l as [|v l IH]; intros p Hat Hl; [done|]. cbn [map concat length rd_words] in *.
  apply has_at_app in Hat as [Hv Hat]. rewrite length_put in Hat. inversion Hl; subst.
  rewrite (rd_uint_put w p v) by done. cbn [rbind]. by rewrite IH.
Qed.

Lemma rd_words_bytes : forall l p,
  has_at buf p (concat (map (fun b => [b]) l)) -> Forall is_byte l ->
  rd_words buf sw 1 (length l) p = Ok l.
Proof.
  induction l as [|v l IH]; intros p Hat Hl; [done|]. cbn [map concat length rd_words] in *.
  apply has_at_app in Hat as [Hv Hat]. inversion Hl; subst.
  rewrite (rd_uint_byte p v) by done. cbn [rbind]. by rewrite IH.
Qed.

Lemma rd_bools_put : forall (l : list bool) p,
  has_at buf p (concat (map (fun b : bool => put sw 4 (if b then 1 else 0)) l)) ->
  rd_bools buf sw (length l) p = Ok l.
Proof.
  induction l as [|v l IH]; intros p Hat; [done|]. cbn [map concat length rd_bools] in *.
  apply has_at_app in Hat as [Hv Hat]. rewrite length_put in Hat.
  rewrite (rd_uint_put 4 p (if v then 1 else 0)) by (done || lia || by destruct v).
  cbn [rbind]. rewrite IH by done. by destruct v.
Qed.

(** A text stored with its terminator. *)
Lemma rd_text p s : has_at buf p (s ++ [0]) ->
  rd_uint buf sw 1 (p + zlen s) = Ok 0 /\ rd (E:=QStatus) buf p (Z.to_nat (zlen s) + 1) = Ok (s ++ [0]).
Proof.
  intros Hat. split.
  - apply has_at_app in Hat as [_ Hat]. by apply rd_uint_byte.
  - replace (Z.to_nat (zlen s) + 1)%nat with (length (s ++ [0])) by (rewrite length_app; simpl; lia).
    apply rd_has_at; [done|]. by destruct s.
Qed.

Lemma ParseSignature_put pos s :
  has_at buf pos (zlen s :: s ++ [0]) -> zlen s <= 255 -> pos + 1 + zlen s < bufEOD ->
  ParseSignature buf bufEOD sw pos = Ok (A_SIGNATURE (zlen s) (Some (s ++ [0])), pos + 1 + zlen s + 1).
Proof.
  intros Hat Hs He. apply has_at_cons in Hat as [Hl Hat]. unfold ParseSignature.
  rewrite (rd_uint_byte pos (zlen s)) by (done || unfold is_byte; lia). cbn [rbind].
  destruct (Z.geb_spec (pos + 1 + zlen s) bufEOD); [lia|].
  destruct (rd_text _ _ Hat) as [-> ->]. done.
Qed.

Lemma ParseString_put t pos s :
  has_at buf (AlignPtr pos 4) (put sw 4 (zlen s) ++ s ++ [0]) -> zlen s <= ALLJOYN_MAX_PACKET_LEN ->
  AlignPtr pos 4 + 4 + zlen s < bufEOD ->
  ParseString buf bufEOD sw t pos =
    Ok (A_STRING t (zlen s) (Some (s ++ [0])), AlignPtr pos 4 + 4 + zlen s + 1).
Proof.
  intros Hat Hs He. apply has_at_app in Hat as [Hl Hat]. rewrite length_put in Hat.
  change (Z.of_nat 4) with 4 in Hat. unfold ParseString.
  unfold ALLJOYN_MAX_PACKET_LEN, ALLJOYN_MAX_ARRAY_LEN in *.
  rewrite (rd_uint_put 4 _ (zlen s)) by (done || unfold u_ok; simpl; lia). cbn [rbind].
  destruct (Z.gtb_spec (zlen s) (131072 + 4096)); [lia|].
  destruct (Z.geb_spec (AlignPtr pos 4 + 4 + zlen s) bufEOD); [lia|].
  destruct (rd_text _ _ Hat) as [-> ->]. done.
Qed.

Section array.
Context (pv : bool -> list Z -> Z -> res (MsgArg * list Z * Z)).

(** The way into an array: its signature, its length and the bounds check. *)
Lemma ParseArray_enter t rest pos len :
  wf_ty 0 1 true t = true -> has_at buf (AlignPtr pos 4) (put sw 4 len) ->
  0 <= len <= ALLJOYN_MAX_ARRAY_LEN -> len + (AlignPtr pos 4 + 4) <= bufEOD ->
  ParseArray buf bufEOD sw pv (print t ++ rest) pos =
  (let! (arr, p) := array_body buf sw pv (hd 0 (print t)) (print t) (AlignPtr pos 4 + 4) len in
   Ok (arr, rest, p)).
Proof.
  intros Hwf Hat Hlen He. unfold ParseArray. rewrite ParseContainerSignature_array by done.
  cbn [rbind]. unfold ALLJOYN_MAX_ARRAY_LEN in *.
  rewrite (rd_uint_put 4 _ len) by (done || unfold u_ok; simpl; lia). cbn [rbind].
  destruct (Z.gtb_spec len 131072); [lia|].
  destruct (Z.gtb_spec (len + (AlignPtr pos 4 + 4)) bufEOD); [lia|]. cbn [orb].
  replace (length (print t ++ rest) - length rest)%nat with (length (print t))
    by (rewrite length_app; lia).
  rewrite take_app_length. do 2 f_equal. pose proof (print_nonempty t). by destruct (print t).
Qed.
End array.

Definition rt (a : MsgArg) : Prop := forall e t pos h bs h' fuel rest,
  typed e a t -> 0 <= pos -> marshal a pos h = Ok (bs, h') -> has_at buf pos bs ->
  pos + zlen bs <= bufEOD ->
  only (parse fuel e (print t ++ rest) pos) (a, rest, pos + zlen bs).

Lemma only_finish (r : res (MsgArg * list Z * Z)) a rest p :
  only r (a, rest, p) -> p <= bufEOD ->
  only (let! (a, sig, pos) := r in
        if pos >? bufEOD then Fail ER_BUS_BAD_SIGNATURE else Ok (a, sig, pos)) (a, rest, p).
Proof.
  intros Hr Hp. eapply only_bind; [exact Hr|]. cbn beta iota. by destruct (Z.gtb_spec p bufEOD); [lia|].
Qed.

(** The bytes after the padding, where the parser looks for them. *)
Lemma after_pad pos b bs :
  alignment b -> has_at buf pos (MarshalPad pos b ++ bs) -> pos + zlen (MarshalPad pos b ++ bs) <= bufEOD ->
  has_at buf (AlignPtr pos b) bs /\ AlignPtr pos b + zlen bs <= bufEOD /\
  pos + zlen (MarshalPad pos b ++ bs) = AlignPtr pos b + zlen bs.
Proof.
  intros Hb Hat He. apply has_at_app in Hat as [_ Hat].
  rewrite AlignPtr_pad in Hat by done. rewrite zlen_app, Z.add_assoc, AlignPtr_pad in * by done. done.
Qed.


Ltac open_pad b :=
  match goal with
  | Hat : has_at buf ?pos (MarshalPad ?pos ?al ++ ?bs), He : _ <= bufEOD |- _ =>
      change al with b in *; destruct (after_pad pos b bs ltac:(auto) Hat He) as (Hat' & He' & Heq);
      rewrite Heq; clear Hat He Heq
  end.

Lemma rt_16 ty v : rt (A_16 ty v).
Proof.
  intros e [c|t| |] pos h bs h' [|fuel] rest Ht Hp Hm Hat He; try done. destruct Ht as [-> Hv].
  cbn [marshal_value rbind] in Hm. injection Hm as <- <-.
  destruct ty; open_pad 2; rewrite zlen_put in *; apply only_finish; try done;
    cbn [print app hd tail typeId_of_char typeId_val ty16]; by rewrite (rd_uint_put 2 _ v) by (done || lia).
Qed.

Lemma rt_32 ty v : rt (A_32 ty v).
Proof.
  intros e [c|t| |] pos h bs h' [|fuel] rest Ht Hp Hm Hat He; try done. destruct Ht as [-> Hv].
  cbn [marshal_value rbind] in Hm. injection Hm as <- <-.
  destruct ty; open_pad 4; rewrite zlen_put in *; apply only_finish; try done;
    cbn [print app hd tail typeId_of_char typeId_val ty32]; by rewrite (rd_uint_put 4 _ v) by (done || lia).
Qed.

Lemma rt_64 ty v : rt (A_64 ty v).
Proof.
  intros e [c|t| |] pos h bs h' [|fuel] rest Ht Hp Hm Hat He; try done. destruct Ht as [-> Hv].
  cbn [marshal_value rbind] in Hm. injection Hm as <- <-.
  destruct ty; open_pad 8; rewrite zlen_put in *; apply only_finish; try done;
    cbn [print app hd tail typeId_of_char typeId_val ty64]; by rewrite (rd_uint_put 8 _ v) by (done || lia).
Qed.

Lemma rt_bool b : rt (A_BOOLEAN b).
Proof.
  intros e [c|t| |] pos h bs h' [|fuel] rest Ht Hp Hm Hat He; try done. cbn [typed] in Ht. subst c.
  cbn [marshal_value rbind] in Hm. injection Hm as <- <-.
  open_pad 4; rewrite zlen_put in *; apply only_finish; try done.
  cbn [print app hd tail typeId_of_char].
  rewrite (rd_uint_put 4 _ (if b then 1 else 0)) by (done || lia || by destruct b). by destruct b.
Qed.

Lemma rt_byte v : rt (A_BYTE v).
Proof.
  intros e [c|t| |] pos h bs h' [|fuel] rest Ht Hp Hm Hat He; try done. destruct Ht as [-> Hv].
  cbn [marshal_value rbind typeId AlignmentForType] in Hm. rewrite MarshalPad1 in Hm. injection Hm as <- <-.
  apply only_finish; [|done]. cbn [print app hd tail typeId_of_char]. by rewrite (rd_uint_byte _ v).
Qed.

Lemma chars_Ok lenBytes nullBytes len str s h bs h' :
  c_chars len str s -> no_handles (marshal_chars lenBytes nullBytes len str) h = Ok (bs, h') ->
  len = zlen s /\ str = Some (s ++ [0]) /\ bs = lenBytes ++ s ++ [0] /\ h' = h.
Proof.
  intros (-> & -> & _). unfold marshal_chars. rewrite Nat2Z.id, list_lookup_middle by done.
  cbn [rbind no_handles Z.eqb].
  replace (length s + 1)%nat with (length (s ++ [0])) by (rewrite length_app; simpl; lia).
  rewrite firstn_all. by intros [= <- <-].
Qed.

Lemma rt_string ty len str : rt (A_STRING ty len str).
Proof.
  intros e [c|t| |] pos h bs h' [|fuel] rest Ht Hp Hm Hat He; try done.
  destruct Ht as (-> & s & Hc & Hl & _). cbn [marshal_value] in Hm.
  apply rbind_Ok in Hm as ([bs0 h0] & Hm & [= <- <-]).
  destruct (match ty, str with TY_OBJECT_PATH, None => true | TY_OBJECT_PATH, Some _ => len =? 0
    | TY_STRING, _ => false end); [done|].
  destruct (chars_Ok _ _ _ _ _ _ _ _ Hc Hm) as (-> & -> & -> & ->).
  replace (AlignmentForType _) with 4 in * by (by destruct ty). open_pad 4.
  rewrite !zlen_app, zlen_put in *. apply only_finish; [|done].
  assert (length ([0] : list Z) = 1%nat) as E1 by done. rewrite E1 in *.
  cbn [print app hd tail]. destruct ty; cbn [typeId_of_char typeId_val tystr];
    rewrite (ParseString_put _ _ s) by (done || lia); cbn [same_sig rbind only]; f_equal; lia.
Qed.

Lemma rt_signature len sig : rt (A_SIGNATURE len sig).
Proof.
  intros e [c|t| |] pos h bs h' [|fuel] rest Ht Hp Hm Hat He; try done.
  destruct Ht as (-> & s & Hc & Hl). cbn [marshal_value typeId AlignmentForType] in Hm.
  apply rbind_Ok in Hm as ([bs0 h0] & Hm & [= <- <-]).
  destruct (chars_Ok _ _ _ _ _ _ _ _ Hc Hm) as (-> & -> & -> & ->).
  rewrite MarshalPad1 in *. cbn [app] in *. cbn [length] in *. rewrite length_app in *. cbn [length] in *.
  apply only_finish; [|done]. cbn [print app hd tail typeId_of_char].
  rewrite (ParseSignature_put _ s) by (done || lia). cbn [same_sig rbind only]. f_equal; lia.
Qed.

Lemma scalars_Ok {A} w (f : A -> list Z) l h bs h' :
  no_handles (marshal_scalars sw w f (S_PTR l)) h = Ok (bs, h') ->
  Z.of_nat w * zlen l <= ALLJOYN_MAX_ARRAY_LEN /\
  bs = put sw 4 (Z.of_nat w * zlen l) ++ concat (map f l).
Proof.
  unfold marshal_scalars, CheckedArraySize. cbn [numElements].
  destruct (Z.gtb_spec (Z.of_nat w * zlen l) ALLJOYN_MAX_ARRAY_LEN); [done|].
  cbn [rbind no_handles]. by intros [= <- _].
Qed.

Lemma land_mul k n : 0 <= k -> Z.land (2 ^ k * n) (Z.ones k) = 0.
Proof. intros. rewrite Z.land_ones, Z.mul_comm by done. apply Z.mod_mul. lia. Qed.

(** Scalar arrays, from what their branch of the [switch] does. *)
Lemma rt_scalars {A} a c w (f : A -> list Z) l pos h bs h' fuel e rest :
  is_leaf c = true -> AlignmentForType (typeId a) = 4 -> (forall x, length (f x) = w) ->
  (let! (bs, h) := no_handles (marshal_scalars sw w f (S_PTR l)) h in
   Ok (MarshalPad pos (AlignmentForType (typeId a)) ++ bs, h)) = Ok (bs, h') ->
  (forall p, has_at buf p (concat (map f l)) -> forall pv,
    array_body buf sw pv c [c] p (Z.of_nat w * zlen l) = Ok (a, p + Z.of_nat w * zlen l)) ->
  has_at buf pos bs -> pos + zlen bs <= bufEOD ->
  only (parse fuel e (print (SArray (SLeaf c)) ++ rest) pos) (a, rest, pos + zlen bs).
Proof.
  intros Hc Ha Hf Hm Hbody Hat He. destruct fuel as [|fuel]; [done|]. rewrite Ha in Hm.
  apply rbind_Ok in Hm as ([bs0 h0] & Hm & [= <- <-]). apply scalars_Ok in Hm as [Hl ->].
  open_pad 4. rewrite zlen_app, zlen_put, (zlen_concat_map w) in * by done.
  apply only_finish; [|done]. apply has_at_app in Hat' as [Hlen Hat']. rewrite length_put in Hat'.
  cbn [print app hd tail typeId_of_char]. apply only_Ok. change (c :: rest) with (print (SLeaf c) ++ rest).
  rewrite (ParseArray_enter _ (SLeaf c) rest pos (Z.of_nat w * zlen l)) by (done || lia).
  cbn [print hd]. rewrite Hbody by done. cbn [rbind]. do 2 f_equal. lia.
Qed.

Lemma count_of w n : 0 < w -> Z.to_nat (w * Z.of_nat n / w) = n.
Proof. intros. rewrite Z.mul_comm, Z.div_mul by lia. lia. Qed.

Lemma rt_scalar_arrays a :
  match a with
  | A_BOOLEAN_ARRAY _ | A_BYTE_ARRAY _ | A_16_ARRAY _ _ | A_32_ARRAY _ _ => rt a
  | _ => True
  end.
Proof.
  destruct a; try done; intros e [c|[c| | |]| |] pos h bs h' fuel rest Ht Hp Hm Hat He;
    cbn [typed] in Ht; try done; destruct v_bool || destruct v_byte || destruct v_uint16 || destruct v_uint32;
    try done; cbn [marshal_value] in Hm.
  - subst c. eapply rt_scalars; [done|done| |exact Hm| |done|done]; [intros; apply length_put|].
    intros p Hat' pv. cbn [array_body typeId_of_char]. rewrite (land_mul 2) by done.
    cbn [Z.eqb]. by rewrite (count_of 4), rd_bools_put.
  - destruct Ht as [-> Hl]. eapply rt_scalars; [done|done| |exact Hm| |done|done]; [done|].
    intros p Hat' pv. cbn [array_body typeId_of_char].
    replace (Z.to_nat (Z.of_nat 1 * zlen elems)) with (length elems) by lia. by rewrite rd_words_bytes.
  - destruct Ht as [-> Hl]. eapply rt_scalars; [by destruct t|by destruct t| |exact Hm| |done|done];
      [intros; apply length_put|].
    intros p Hat' pv. destruct t; cbn [array_body typeId_of_char typeId_val ty16];
      rewrite (land_mul 1) by done; cbn [Z.eqb];
      by rewrite (count_of 2), rd_words_put by (done || lia).
  - destruct Ht as [-> Hl]. eapply rt_scalars; [by destruct t|by destruct t| |exact Hm| |done|done];
      [intros; apply length_put|].
    intros p Hat' pv. destruct t; cbn [array_body typeId_of_char typeId_val ty32];
      rewrite (land_mul 2) by done; cbn [Z.eqb];
      by rewrite (count_of 4), rd_words_put by (done || lia).
Qed.

Lemma rt_64_array ty v : rt (A_64_ARRAY ty v).
Proof.
  intros e [c|[c| | |]| |] pos h bs h' [|fuel] rest Ht Hp Hm Hat He; cbn [typed] in Ht; try done;
    destruct v as [|l]; try done.
  destruct Ht as [-> Hl]. cbn [marshal_value] in Hm.
  replace (AlignmentForType _) with 4 in Hm by (by destruct ty).
  rewrite AlignPtr_pad in Hm by done.
  apply rbind_Ok in Hm as ([bs0 h0] & Hm & [= <- <-]). open_pad 4.
  assert (8 * zlen l <= ALLJOYN_MAX_ARRAY_LEN /\
    bs0 = put sw 4 (8 * zlen l) ++ MarshalPad (AlignPtr pos 4 + 4) 8 ++ concat (map (put sw 8) l)) as [Hlen ->].
  { unfold marshal_scalars8, CheckedArraySize in Hm. cbn [numElements] in Hm.
    destruct (Z.gtb_spec (8 * zlen l) ALLJOYN_MAX_ARRAY_LEN); [done|]. cbn [rbind] in Hm.
    split; [done|]. destruct (Z.gtb_spec (8 * zlen l) 0); injection Hm as <- _; [done|].
    destruct l; [by rewrite app_nil_r|simpl in *; lia]. }
  rewrite !zlen_app, zlen_put, (zlen_concat_map 8) in * by apply length_put.
  apply only_finish; [|done]. apply has_at_app in Hat' as [Hn Hat']. rewrite length_put in Hat'.
  apply has_at_app in Hat' as [_ Hat']. change (Z.of_nat 4) with 4 in *. change (Z.of_nat 8) with 8 in *.
  pose proof (AlignPtr_pad (AlignPtr pos 4 + 4) 8 align8) as Hpad. rewrite Hpad in Hat'.
  cbn [print app hd tail typeId_of_char]. apply only_Ok.
  rewrite (ParseArray_enter _ (SLeaf (typeId_val (ty64 ty))) rest pos (8 * zlen l))
    by (done || lia || by destruct ty).
  destruct ty; cbn [print hd array_body typeId_of_char typeId_val ty64];
    rewrite (land_mul 3) by done; cbn [Z.eqb]; rewrite (count_of 8), rd_words_put by (done || lia);
    cbn [rbind]; do 2 f_equal; lia.
Qed.

Lemma marshal_nonempty e a t pos h bs h' :
  typed e a t -> marshal a pos h = Ok (bs, h') -> bs <> [] /\ h' = h.
Proof.
  intros Ht Hm. pose proof (sizes_all sw SocketDup a e t pos pos h Ht eq_refl) as H.
  rewrite Hm in H. by destruct H as (-> & Hne & _).
Qed.

Lemma elem_loop_rt t fuel l : Forall rt l -> Forall (fun a => typed true a t) l ->
  forall n pos h bs h', 0 <= pos -> ma_loop marshal l pos h = Ok (bs, h') -> has_at buf pos bs ->
  pos + zlen bs <= bufEOD ->
  only (elem_loop (parse fuel) n (print t) pos (pos + zlen bs)) (l, pos + zlen bs).
Proof.
  induction 1 as [|a l Ha _ IH]; intros Hty n pos h bs h' Hp Hm Hat He; cbn [ma_loop] in Hm.
  - injection Hm as <- <-. destruct n; cbn [elem_loop length]; by rewrite Z.add_0_r, Z.ltb_irrefl.
  - apply Forall_cons in Hty as [Hta Hty].
    apply rbind_Ok in Hm as ([b1 h1] & H1 & Hm). apply rbind_Ok in Hm as ([b2 h2] & H2 & [= <- <-]).
    destruct (marshal_nonempty _ _ _ _ _ _ _ Hta H1) as [Hne _].
    rewrite zlen_app in *. apply has_at_app in Hat as [Hat1 Hat2].
    assert (0 < zlen b1) by (destruct b1; [done|simpl; lia]).
    destruct n as [|n]; cbn [elem_loop];
      destruct (Z.ltb_spec pos (pos + (zlen b1 + zlen b2))); try lia; [done|].
    pose proof (Ha true t pos h b1 h1 fuel [] Hta Hp H1 Hat1 ltac:(lia)) as Hv.
    rewrite app_nil_r in Hv. eapply only_bind; [exact Hv|]. cbn beta iota.
    rewrite Z.add_assoc in *. eapply only_bind; [apply (IH Hty n _ h1 b2 h2); [lia|done|done|lia]|].
    done.
Qed.

Lemma member_loop_rt fuel rest l ts : Forall rt l -> Forall2 (typed false) l ts ->
  forall pos h bs h', 0 <= pos -> ma_loop marshal l pos h = Ok (bs, h') -> has_at buf pos bs ->
  pos + zlen bs <= bufEOD ->
  only (member_loop (parse fuel) (length l) (prints ts ++ rest) pos) (l, pos + zlen bs).
Proof.
  intros Hrt Hty. revert Hrt. induction Hty as [|a t l ts Ha _ IH];
    intros Hrt pos h bs h' Hp Hm Hat He; cbn [ma_loop] in Hm.
  - injection Hm as <- <-. cbn. by rewrite Z.add_0_r.
  - apply Forall_cons in Hrt as [Hra Hrt].
    apply rbind_Ok in Hm as ([b1 h1] & H1 & Hm). apply rbind_Ok in Hm as ([b2 h2] & H2 & [= <- <-]).
    rewrite zlen_app in *. apply has_at_app in Hat as [Hat1 Hat2].
    cbn [length member_loop map concat]. rewrite <- app_assoc.
    eapply only_bind; [apply (Hra false t pos h b1 h1); [done|lia|done|done|lia]|]. cbn beta iota.
    rewrite Z.add_assoc in *. eapply only_bind; [apply (IH Hrt _ h1 b2 h2); [lia|done|done|lia]|].
    done.
Qed.

(** The padding between the length of an array and its first element. *)
Definition elem_pad (t : sigty) (p : Z) : list Z :=
  if elem_alignment (print t) =? 8 then MarshalPad p 8 else [].

Lemma array_body_elems pv t p len :
  wf_ty 0 1 true t = true -> scalar_elem t = false -> concrete t ->
  array_body buf sw pv (hd 0 (print t)) (print t) p len =
  ParseElements pv (print t) (p + zlen (elem_pad t p)) len.
Proof.
  intros Hwf Hs [Hc1 Hc2]. unfold elem_pad, elem_alignment, array_body.
  assert (forall x, p + zlen (if x =? 8 then MarshalPad p 8 else []) = if x =? 8 then AlignPtr p 8 else p) as Hx.
  { intros x. destruct (x =? 8); [by apply AlignPtr_pad|simpl; lia]. }
  rewrite Hx. destruct t as [c| | |]; [|done..].
  cbn [wf_ty print hd scalar_elem] in *. unfold is_leaf in Hwf.
  pose proof (typeId_val_of_char c) as Hv. destruct (typeId_of_char c); try done;
    cbn [typeId_val] in Hv; subst c; done.
Qed.

Lemma ParseElements_rt t l fuel pos h bs h' :
  wf_ty 0 1 true t = true -> zlen (print t) <= 252 -> Forall rt l -> Forall (fun a => typed true a t) l ->
  0 <= pos -> ma_loop marshal l pos h = Ok (bs, h') -> has_at buf pos bs -> pos + zlen bs <= bufEOD ->
  only (ParseElements (parse fuel) (print t) pos (zlen bs)) (A_ARRAY (Some (print t)) l, pos + zlen bs).
Proof.
  intros Hwf Hl Hrt Hty Hp Hm Hat He. unfold ParseElements.
  eapply only_bind with (x := (l, pos + zlen bs)).
  - destruct (Z.gtb_spec (zlen bs) 0); [by eapply elem_loop_rt|].
    destruct bs; [|simpl in *; lia]. destruct Hty as [|a l Ha _]; [simpl; by rewrite Z.add_0_r|].
    cbn [ma_loop] in Hm. apply rbind_Ok in Hm as ([b1 h1] & H1 & Hm).
    apply rbind_Ok in Hm as ([b2 h2] & _ & [= Hnil _]). apply app_nil in Hnil as [-> _].
    by destruct (marshal_nonempty _ _ _ _ _ _ _ Ha H1).
  - cbn beta iota. by rewrite SetElements_typed.
Qed.

Lemma marshal_array_Ok t l pos h bs h' :
  wf_ty 0 1 true t = true -> zlen (print t) <= 252 -> Forall (fun a => typed true a t) l ->
  marshal (A_ARRAY (Some (print t)) l) pos h = Ok (bs, h') ->
  exists bs1 h1, bs = MarshalPad pos 4 ++ put sw 4 (zlen bs1) ++ elem_pad t (AlignPtr pos 4 + 4) ++ bs1 /\
    zlen bs1 <= ALLJOYN_MAX_ARRAY_LEN /\
    ma_loop marshal l (AlignPtr pos 4 + 4 + zlen (elem_pad t (AlignPtr pos 4 + 4))) h = Ok (bs1, h1).
Proof.
  intros Hwf Hl Hty Hm. cbn [marshal_value typeId AlignmentForType] in Hm.
  rewrite AlignPtr_pad in Hm by done. fold (elem_pad t (AlignPtr pos 4 + 4)) in Hm.
  apply rbind_Ok in Hm as ([bs0 h0] & Hm & [= <- <-]). destruct l as [|a l].
  - injection Hm as <- <-. exists [], h. by rewrite app_nil_r.
  - assert (nulls (a :: l) = false) as Hnn by (inversion Hty; by eapply typed_not_nulls).
    rewrite Hnn, check_elements_typed in Hm by (done || lia). cbn [rbind] in Hm.
    apply rbind_Ok in Hm as ([bs1 h1] & Hloop & Hm). unfold CheckedArraySize in Hm.
    destruct (Z.gtb_spec (zlen bs1) ALLJOYN_MAX_ARRAY_LEN); [done|]. injection Hm as <- <-.
    by exists bs1, h1.
Qed.

Lemma rt_array es l : Forall rt l -> rt (A_ARRAY es l).
Proof.
  intros Hrt e t pos h bs h' [|fuel] rest Ht Hp Hm Hat He; [done|].
  apply typed_array in Ht as (t' & -> & -> & Hwf & Hs & Hl & Hc & Hty).
  destruct (marshal_array_Ok t' l pos h bs h' Hwf Hl Hty Hm) as (bs1 & h1 & -> & Hlen & Hloop).
  open_pad 4. apply only_finish; [|done]. rewrite !zlen_app, zlen_put in *.
  apply has_at_app in Hat' as [Hn Hat']. rewrite length_put in Hat'.
  apply has_at_app in Hat' as [_ Hat']. change (Z.of_nat 4) with 4 in *.
  cbn [print app hd tail typeId_of_char]. pose proof (AlignPtr_bound pos 4 align4).
  rewrite (ParseArray_enter _ t' rest pos (zlen bs1)) by (done || lia).
  rewrite array_body_elems by done.
  eapply only_bind; [eapply ParseElements_rt; [done..|lia|exact Hloop|done|lia]|].
  cbn. f_equal. lia.
Qed.

Lemma rt_struct l : Forall rt l -> rt (A_STRUCT l).
Proof.
  intros Hrt e t pos h bs h' [|fuel] rest Ht Hp Hm Hat He; [done|].
  apply typed_struct in Ht as (ts & -> & Hwf & Hty). cbn [wf_top] in Hwf. split_andb Hwf.
  cbn [marshal_value typeId AlignmentForType] in Hm. rewrite AlignPtr_pad in Hm by done.
  apply rbind_Ok in Hm as ([bs0 h0] & Hm & [= <- <-]). open_pad 8. apply only_finish; [|done].
  cbn [print app hd tail typeId_of_char]. rewrite <- app_assoc. cbn [app]. unfold ParseStruct.
  rewrite ParseContainerSignature_struct by (done || lia). cbn [rbind default id].
  rewrite Nat2Z.id, <- (Forall2_length _ _ _ Hty). pose proof (AlignPtr_bound pos 8 align8).
  eapply only_bind; [eapply member_loop_rt; [done|done|lia|exact Hm|done|done]|]. done.
Qed.

Lemma rt_dict k v : rt k -> rt v -> rt (A_DICT_ENTRY k v).
Proof.
  intros Hk Hv e [| | |kt vt] pos h bs h' [|fuel] rest Ht Hp Hm Hat He; try done.
  destruct Ht as (-> & Hkey & Hwf & Htk & Htv). cbn [marshal_value typeId AlignmentForType] in Hm.
  rewrite AlignPtr_pad in Hm by done. apply rbind_Ok in Hm as ([bs0 h0] & Hm & [= <- <-]).
  apply rbind_Ok in Hm as ([b1 h1] & H1 & Hm). apply rbind_Ok in Hm as ([b2 h2] & H2 & [= <- <-]).
  open_pad 8. apply only_finish; [|done]. rewrite zlen_app in *. pose proof (AlignPtr_bound pos 8 align8).
  apply has_at_app in Hat' as [Hat1 Hat2].
  cbn [print app hd tail typeId_of_char]. rewrite <- !app_assoc. cbn [app]. unfold ParseDictEntry.
  rewrite ParseContainerSignature_dict by (done || by apply basic_key_wf). cbn [rbind].
  eapply only_bind; [eapply Hk; [done|lia|exact H1|done|lia]|]. cbn beta iota.
  eapply only_bind; [eapply Hv; [done|lia|exact H2|done|lia]|]. cbn. by rewrite Z.add_assoc.
Qed.

Lemma c_str_text s suf : Forall (fun c => c <> 0) s -> c_str (s ++ 0 :: suf) = Ok s.
Proof.
  induction 1 as [|c s Hc _ IH]; [done|]. cbn [app c_str].
  destruct (Z.eqb_spec c 0); [done|]. by rewrite IH.
Qed.

Lemma c_str_at_text p s :
  has_at buf p (s ++ [0]) -> Forall (fun c => c <> 0) s -> c_str_at buf p = Ok s.
Proof.
  intros Hat Hs. assert (s ++ [0] <> []) as Hne by (by destruct s).
  pose proof (has_at_bound _ _ _ Hat Hne). destruct Hat as (Hp & suf & Hd). unfold c_str_at.
  rewrite bool_decide_true by lia. rewrite Hd, <- app_assoc. by apply c_str_text.
Qed.

Lemma rt_variant v : rt v -> rt (A_VARIANT v).
Proof.
  intros Hv e [c| | |] pos h bs h' [|fuel] rest Ht Hp Hm Hat He; try done.
  destruct Ht as (-> & t & Ht & Hwf & Hl). cbn [marshal_value typeId AlignmentForType] in Hm.
  rewrite MarshalPad1 in *. destruct (variant_sig _ _ _ Ht Hl) as (Hsg & _). rewrite Hsg in Hm.
  cbn [rbind app] in Hm. apply rbind_Ok in Hm as ([bs0 h0] & Hm & [= <- <-]).
  apply rbind_Ok in Hm as ([b1 h1] & H1 & [= <- <-]).
  change (length []) with O in H1. rewrite Z.add_0_r in H1.
  change (zlen (print t) :: (print t ++ [0]) ++ b1)
    with ((zlen (print t) :: (print t ++ [0])) ++ b1) in *.
  apply only_finish; [|done]. rewrite zlen_app in *.
  set (sg := zlen (print t) :: print t ++ [0]) in *.
  assert (zlen sg = zlen (print t) + 2) as Hsgl
    by (unfold sg; cbn [length]; rewrite length_app; simpl; lia).
  apply has_at_app in Hat as [Hat1 Hat2]. apply has_at_cons in Hat1 as [Hn Htxt].
  destruct (rd_text _ _ Htxt) as [Hz _].
  cbn [print app hd tail typeId_of_char]. unfold ParseVariant.
  rewrite (rd_uint_byte pos (zlen (print t))) by (done || unfold is_byte; lia). cbn [rbind].
  destruct (marshal_nonempty _ _ _ _ _ _ _ Ht H1) as [Hne _].
  assert (0 < zlen b1) by (destruct b1; [done|simpl; lia]).
  destruct (Z.geb_spec (pos + 1 + zlen (print t)) bufEOD); [lia|]. rewrite Hz. cbn [rbind Z.eqb negb].
  rewrite (c_str_at_text _ (print t)) by (done || by apply sigchars_nonzero, wf_top_sigchars).
  cbn [rbind]. replace (pos + 1 + zlen (print t) + 1) with (pos + zlen sg) by lia.
  pose proof (Hv false t (pos + zlen sg) h b1 h1 fuel [] Ht ltac:(lia) H1 Hat2 ltac:(lia)) as Hpv.
  rewrite app_nil_r in Hpv. unfold same_sig. eapply only_bind; [eapply only_bind; [exact Hpv|]|].
  - cbn beta iota. rewrite bool_decide_true by done. cbn. reflexivity.
  - cbn. by rewrite Z.add_assoc.
Qed.

Lemma rt_all a : rt a.
Proof.
  revert a. apply MsgArg_nested_ind;
    [|exact rt_array|exact rt_struct|exact rt_dict|exact rt_variant].
  intros a. pose proof (rt_scalar_arrays a) as Hs.
  destruct a; try done; auto using rt_byte, rt_bool, rt_16, rt_32, rt_64, rt_string, rt_signature,
    rt_64_array; intros e [| | |] *; done.
Qed.
End roundtrip.
