(* ===== verification/UnmarshalSig.v ===== *)
(** A value parsed under a signature has that signature: the parser and the
    signature functions agree on where a complete type ends, and
    [MakeSignature] of the result would print what was consumed. *)
From S2P Require Import Prelude Types SignatureUtils SigMachine SigGrammar SigBuild Marshal Typed Unmarshal UnmarshalSafe Roundtrip.

(** What an accepted container signature consists of. *)
Lemma array_sound sig nm rest : (length sig < 256)%nat ->
  ParseContainerSignature ALLJOYN_ARRAY sig = Ok (nm, rest) ->
  exists t, sig = print t ++ rest /\ wf_ty 0 1 true t = true.
Proof.
  intros Hl Hp. apply container_sound in Hp as ((c & -> & Hn) & _); [|by left|done].
  destruct Hn as (t & c' & -> & Hwf & Ha). cbn in Ha. subst c'. exists t. by rewrite app_nil_r.
Qed.

Lemma struct_sound sig nm rest : (length sig < 256)%nat ->
  ParseContainerSignature ALLJOYN_STRUCT sig = Ok (nm, rest) ->
  exists ts, sig = prints ts ++ 41 :: rest /\ forallb (wf_ty 1 0 false) ts = true /\
    0 < zlen ts < 256 /\ nm = Some (zlen ts).
Proof.
  intros Hl Hp. pose proof Hp as Hs.
  apply container_sound in Hs as ((c & -> & Hn) & _); [|by right; left|done].
  destruct Hn as (ts & c' & -> & Hwf & Hcnt & Ha). cbn in Hcnt, Ha. subst c'. exists ts.
  unfold count_ok in Hcnt. rewrite bool_decide_true in Hcnt by done.
  rewrite <- app_assoc in *. cbn [app] in *. split_and!; [done|done|lia|lia|].
  change (closer _) with 41 in Hp. rewrite ParseContainerSignature_struct in Hp by (done || lia).
  by injection Hp as <-.
Qed.

Lemma dict_sound sig nm rest : (length sig < 256)%nat ->
  ParseContainerSignature ALLJOYN_DICT_ENTRY sig = Ok (nm, rest) ->
  exists k v, sig = print k ++ print v ++ 125 :: rest /\ wf_ty 1 0 false k = true /\ wf_ty 1 0 false v = true.
Proof.
  intros Hl Hp. apply container_sound in Hp as ((c & -> & Hn) & _); [|by right; right|done].
  destruct Hn as (ts & c' & -> & Hwf & Hcnt & Ha). cbn in Hcnt, Ha. subst c'.
  unfold count_ok in Hcnt. rewrite bool_decide_false in Hcnt by done.
  destruct ts as [|k [|v [|]]]; simpl in Hcnt; try lia. exists k, v. cbn [map concat forallb] in *.
  rewrite !app_nil_r, <- !app_assoc in *. split_andb Hwf. rewrite andb_true_r in Hwf0. done.
Qed.

(** The [typeId] the parser gives to a value with this signature. *)
Definition sig_typeId (sig : list Z) : AllJoynTypeId :=
  match typeId_of_char (hd 0 sig) with
  | ALLJOYN_ARRAY => value_type (SArray (SLeaf (hd 0 (tail sig))))
  | ALLJOYN_STRUCT_OPEN => ALLJOYN_STRUCT
  | ALLJOYN_DICT_ENTRY_OPEN => ALLJOYN_DICT_ENTRY
  | t => t
  end.

Record parsed_as (sig : list Z) (a : MsgArg) (rest : list Z) : Prop := {
  pa_type : ParseCompleteType sig = Ok rest;
  pa_sig : sig = sig_of a ++ rest;
  pa_ok : sig_ok a = true;
  pa_id : typeId a = sig_typeId sig
}.

Lemma parsed_as_leaf c s a :
  is_leaf c = true -> c <> 97 -> typeId a = typeId_of_char c -> sig_of a = [c] -> sig_ok a = true ->
  parsed_as (c :: s) a s.
Proof.
  intros Hl Hc Ht Hs Ho. constructor; [|by rewrite Hs|done|].
  - apply (ParseCompleteType_print (SLeaf c) s). done.
  - unfold sig_typeId. simpl hd. rewrite Ht. unfold is_leaf in Hl.
    pose proof (typeId_val_of_char c). by destruct (typeId_of_char c).
Qed.

(** A value in front of a complete type of the grammar is a value of it. *)
Lemma parsed_as_print t s a rest : wf_top t = true -> parsed_as (print t ++ s) a rest ->
  rest = s /\ sig_of a = print t /\ sig_ok a = true.
Proof.
  intros Hwf [Hp Hs Ho _]. rewrite ParseCompleteType_print in Hp by done. injection Hp as <-.
  split_and!; [done| |done]. by apply app_inv_tail in Hs.
Qed.

Section sig.
Context (buf : list Z) (bufEOD : Z) (endianSwap : bool) (handles : list Z) (num : Z).

Section containers.
Context (pv : bool -> list Z -> Z -> res (MsgArg * list Z * Z)).
Definition pv_sig : Prop := forall e sig pos a rest pos',
  (length sig <= 256)%nat -> pv e sig pos = Ok (a, rest, pos') -> parsed_as sig a rest.
Context (Hpv : pv_sig).

Lemma elem_loop_sig es n : forall pos endp l pos', (length es <= 256)%nat ->
  elem_loop pv n es pos endp = Ok (l, pos') ->
  Forall (fun a => sig_ok a = true /\ typeId a = sig_typeId es) l.
Proof.
  induction n as [|n IH]; intros pos endp l pos' Hl; cbn [elem_loop];
    destruct (pos <? endp); try (by intros [= <- _]; apply Forall_nil_2).
  intros H. apply rbind_Ok in H as ([[a r] p] & Ha & H). apply rbind_Ok in H as ([l' p'] & Hl' & [= <- <-]).
  destruct (Hpv _ _ _ _ _ _ Hl Ha). constructor; [done|]. by eapply IH.
Qed.

Lemma SetElements_parsed es l r arr : wf_ty 0 1 true es = true -> zlen (print es) <= 255 ->
  Forall (fun a => sig_ok a = true /\ typeId a = sig_typeId (print es)) l ->
  SetElements (print es) l = Ok (r, arr) -> arr = A_ARRAY (Some (print es)) l.
Proof.
  intros Hwf Hlen Hall. unfold SetElements.
  assert (nulls l = false) as -> by (destruct Hall as [|a l [Ha _] _]; [done|by apply sig_ok_not_null]).
  assert (CountCompleteTypes (Some (print es)) = Ok 1) as ->.
  { pose proof (CountCompleteTypes_prints [es]) as Hc. simpl in Hc. rewrite app_nil_r in Hc.
    apply Hc; [|done]. by rewrite (wf_ty_top es 0 1 true). }
  cbn [rbind Z.eqb negb].
  destruct Hall as [|a l [_ Ha] Hall]; [by intros [= _ <-]|].
  assert (forallb (fun e' => bool_decide (typeId e' = typeId a)) l = true) as ->; [|by intros [= _ <-]].
  apply forallb_Forall. eapply Forall_impl; [exact Hall|]. intros b [_ Hb].
  apply bool_decide_eq_true. congruence.
Qed.

Lemma member_loop_sig ts rest : forall pos l pos',
  forallb (wf_ty 1 0 false) ts = true -> (length (prints ts ++ rest) <= 256)%nat ->
  member_loop pv (length ts) (prints ts ++ rest) pos = Ok (l, pos') ->
  length l = length ts /\ map sig_of l = map print ts /\ forallb sig_ok l = true.
Proof.
  induction ts as [|t ts IH]; intros pos l pos' Hwf Hl; cbn [member_loop length map concat forallb] in *.
  - by intros [= <- _].
  - split_andb Hwf. rewrite <- app_assoc in *. intros H.
    apply rbind_Ok in H as ([[a r] p] & Ha & H). apply rbind_Ok in H as ([l' p'] & Hl' & [= <- <-]).
    apply Hpv in Ha; [|done]. apply parsed_as_print in Ha as (-> & Hs & Ho); [|by eapply (wf_ty_top t 1 0 false)].
    apply IH in Hl' as (Hn & Hm & Hf); [|done|rewrite length_app in Hl; lia].
    cbn [map forallb length]. by rewrite Hn, Hs, Hm, Ho, Hf.
Qed.

Lemma take_print (x rest : list Z) : take (length (x ++ rest) - length rest) (x ++ rest) = x.
Proof. rewrite length_app. replace (_ - _)%nat with (length x) by lia. apply take_app_length. Qed.

(** The elements of an array that is not scalar. *)
Lemma ParseElements_sig t pos len arr pos' : wf_ty 0 1 true t = true -> zlen (print t) <= 255 ->
  ParseElements pv (print t) pos len = Ok (arr, pos') -> exists l, arr = A_ARRAY (Some (print t)) l.
Proof.
  intros Hwf Hl H. unfold ParseElements in H. apply rbind_Ok in H as ([l p] & He & H).
  apply rbind_Ok in H as ([r arr'] & Hse & [= <- <-]). exists l.
  eapply SetElements_parsed; [done|done| |done].
  destruct (len >? 0); [|by injection He as <- _; apply Forall_nil_2].
  eapply elem_loop_sig; [|exact He]. lia.
Qed.

Lemma ParseArray_sig sig pos a rest pos' : (length sig < 256)%nat ->
  ParseArray buf bufEOD endianSwap pv sig pos = Ok (a, rest, pos') -> parsed_as (97 :: sig) a rest.
Proof.
  intros Hl H. unfold ParseArray in H. apply rbind_Ok in H as ([nm r] & Hp & H).
  apply rbind_Ok in H as (len & _ & H). destruct (_ || _); [done|].
  apply rbind_Ok in H as ([arr p] & Hb & [= <- <- <-]).
  destruct (array_sound _ _ _ Hl Hp) as (t & -> & Hwf). rewrite take_print in Hb.
  assert (zlen (print t) <= 255) as Hlt by (rewrite length_app in Hl; lia).
  assert (hd 0 (print t ++ r) = hd 0 (print t)) as Hhd
    by (pose proof (print_nonempty t); by destruct (print t)).
  rewrite Hhd in Hb.
  assert (forall a, sig_of a = 97 :: print t -> sig_ok a = true ->
    typeId a = value_type (SArray (SLeaf (hd 0 (print t)))) -> parsed_as (97 :: print t ++ r) a r) as Hpa.
  { intros b Hs Ho Hi. constructor; [|by rewrite Hs|done|].
    - by apply (ParseCompleteType_print (SArray t) r).
    - unfold sig_typeId. cbn [hd tail]. by rewrite Hhd. }
  assert ((exists l, arr = A_ARRAY (Some (print t)) l) ->
    value_type (SArray (SLeaf (hd 0 (print t)))) = ALLJOYN_ARRAY -> parsed_as (97 :: print t ++ r) arr r) as Harr.
  { intros [l ->] Hv. apply Hpa; [done| |by rewrite Hv].
    cbn. apply bool_decide_eq_true. apply print_nonempty. }
  assert (forall c, is_leaf c = true -> hd 0 (print t) = c -> print t = [c]) as Hleaf.
  { intros c Hc Hh. destruct t; cbn in Hh; subst c; done. }
  unfold array_body in Hb. cbn [value_type] in Harr.
  pose proof (typeId_val_of_char (hd 0 (print t))) as Hv.
  destruct (typeId_of_char (hd 0 (print t))) eqn:Hty; cbn [typeId_val] in Hv;
    try (apply Harr; [by eapply ParseElements_sig|done]);
    try (destruct (Z.land len _ =? 0); [|done]);
    apply rbind_Ok in Hb as (l & _ & [= <- <-]);
    assert (is_leaf (hd 0 (print t)) = true) as Hlf by (rewrite <- Hv; reflexivity);
    pose proof (Hleaf _ Hlf eq_refl) as Hpt;
    (apply Hpa; [by rewrite Hpt, <- Hv|done|cbn [value_type]; by rewrite Hty]).
Qed.

Lemma ParseStruct_sig sig pos a rest pos' : (length sig < 256)%nat ->
  ParseStruct pv sig pos = Ok (a, rest, pos') -> parsed_as (40 :: sig) a rest.
Proof.
  intros Hl H. unfold ParseStruct in H. apply rbind_Ok in H as ([nm r] & Hp & H).
  apply rbind_Ok in H as ([ms p] & Hm & [= <- <- <-]).
  destruct (struct_sound _ _ _ Hl Hp) as (ts & -> & Hwf & Hn & ->).
  cbn [default id] in Hm. rewrite Nat2Z.id in Hm.
  apply member_loop_sig in Hm as (Hlen & Hmap & Hok); [|done|lia].
  constructor; [| | |done].
  - pose proof (ParseCompleteType_print (SStruct ts) r) as Hc. cbn [print app] in Hc.
    rewrite <- app_assoc in Hc. apply Hc. cbn [wf_top]. rewrite Hwf. lia.
  - cbn [sig_of]. rewrite Hmap. by rewrite <- app_comm_cons, <- app_assoc.
  - cbn [sig_ok]. rewrite Hok, Hlen, andb_true_r. lia.
Qed.

Lemma ParseDictEntry_sig sig pos a rest pos' : (length sig < 256)%nat ->
  ParseDictEntry pv sig pos = Ok (a, rest, pos') -> parsed_as (123 :: sig) a rest.
Proof.
  intros Hl H. unfold ParseDictEntry in H. apply rbind_Ok in H as ([nm r] & Hp & H).
  apply rbind_Ok in H as ([[k ms] p] & Hk & H). apply rbind_Ok in H as ([[v ms2] p2] & Hv & [= <- <- <-]).
  destruct (dict_sound _ _ _ Hl Hp) as (kt & vt & -> & Hwk & Hwv).
  apply Hpv in Hk; [|lia]. apply parsed_as_print in Hk as (-> & Hsk & Hok); [|by eapply (wf_ty_top kt 1 0 false)].
  rewrite length_app in Hl.
  apply Hpv in Hv; [|lia]. apply parsed_as_print in Hv as (-> & Hsv & Hov); [|by eapply (wf_ty_top vt 1 0 false)].
  constructor; [| | |done].
  - pose proof (ParseCompleteType_print (SDict kt vt) r) as Hc. cbn [print app] in Hc.
    rewrite <- !app_assoc in Hc. apply Hc. cbn [wf_top]. by rewrite Hwk, Hwv.
  - cbn [sig_of]. rewrite Hsk, Hsv. by rewrite <- app_comm_cons, <- !app_assoc.
  - cbn [sig_ok]. by rewrite Hok, Hov.
Qed.
End containers.

(** The parser and [ParseCompleteType] agree on every value that is accepted. *)
Lemma ParseValue_sig fuel : pv_sig (ParseValue buf bufEOD endianSwap handles num fuel).
Proof.
  induction fuel as [|fuel IH]; [done|]. intros e [|c sig] pos a rest pos' Hl H; cbn [ParseValue] in H;
    apply rbind_Ok in H as ([[a' r] p] & H & Hend); [done|].
  destruct (p >? bufEOD); [done|]. injection Hend as <- <- <-. cbn [hd tail] in H. simpl in Hl.
  pose proof (typeId_val_of_char c) as Hv. destruct (typeId_of_char c) eqn:Hc; try done;
    cbn [typeId_val] in Hv; subst c.
  all: try (apply rbind_Ok in H as (v & _ & H); try (destruct (v >? 1); [done|]);
            injection H as <- <- <-; by apply parsed_as_leaf).
  all: try (eapply ParseArray_sig; [exact IH|lia|exact H]).
  all: try (eapply ParseStruct_sig; [exact IH|lia|exact H]).
  all: try (destruct e; [|done]; eapply ParseDictEntry_sig; [exact IH|lia|exact H]).
  all: unfold same_sig in H; apply rbind_Ok in H as ([b p1] & Hb & [= <- <- <-]).
  all: unfold ParseSignature, ParseHandle, ParseString, ParseVariant in Hb;
    repeat match type of Hb with
    | rbind _ _ = Ok _ => apply rbind_Ok in Hb as (? & _ & Hb)
    | (if ?x then _ else _) = Ok _ => destruct x; [try done|try done]
    | match ?x with _ => _ end = Ok _ => destruct x; try done
    end.
  all: try (injection Hb as <- <-; by apply parsed_as_leaf).
Qed.
End sig.
