(* ===== verification/BusUtil.v ===== *)
(** Model of alljoyn_core/src/BusUtil.cc: the tests for well-formed bus, path,
    interface and member names, the match rule parser and the wildcard matcher,
    with the character classes of common/src/StringUtil.cc.

    A C string is the list of its characters before the NUL; [None] is a NULL
    pointer. Looking one character ahead at the end finds the NUL, 0. *)
From S2P Require Import Prelude Types.

(** * Character classes *)

Definition IsDecimalDigit (c : Z) : bool := (48 <=? c) && (c <=? 57).
Definition IsAlpha (c : Z) : bool := (65 <=? c) && (c <=? 90) || (97 <=? c) && (c <=? 122).
Definition IsAlphaNumeric (c : Z) : bool := IsAlpha c || IsDecimalDigit c.

Definition dot : Z := 46.
Definition slash : Z := 47.
Definition word_char (c : Z) : bool := IsAlphaNumeric c || (c =? 95).
Definition name_char (c : Z) : bool := IsAlphaNumeric c || (c =? 45) || (c =? 95).

Definition MAX_NAME_LEN : Z := 256.

(** * Names

    The [while ((c = *p++))] loops: a character outside [ok] must be the
    separator, and the character after it must not be [bad]. The result is the
    number of separators, or [None] for [return false]. *)
Fixpoint scan (ok : Z -> bool) (sep : Z) (bad : Z -> bool) (s : list Z) (periods : nat) : option nat :=
  match s with
  | [] => Some periods
  | c :: s =>
      if ok c then scan ok sep bad s periods
      else if negb (c =? sep) || bad (hd 0 s) then None
      else scan ok sep bad s (S periods)
  end.

(** [(periods > 0) && ((p - str) <= MAX_NAME_LEN)]; [p] is past the NUL. *)
Definition dotted (str : list Z) (r : option nat) : bool :=
  match r with
  | Some periods => negb (Nat.eqb periods 0) && (zlen str + 1 <=? MAX_NAME_LEN)
  | None => false
  end.

Definition ends_element (sep c : Z) : bool := (c =? sep) || (c =? 0).

Definition IsLegalUniqueName (str : option (list Z)) : bool :=
  match str with
  | Some (c :: c1 :: s) =>
      if negb (c =? 58) || negb (name_char c1) then false
      else dotted (c :: c1 :: s) (scan name_char dot (ends_element dot) s 0)
  | _ => false
  end.

Definition IsLegalBusName (str : option (list Z)) : bool :=
  match str with
  | Some (c :: s) =>
      if c =? 58 then IsLegalUniqueName str
      else if negb (IsAlpha c) && negb (c =? 95) && negb (c =? 45) then false
      else dotted (c :: s)
             (scan name_char dot (fun n => ends_element dot n || IsDecimalDigit n) s 0)
  | _ => false
  end.

Definition IsLegalObjectPath (str : option (list Z)) : bool :=
  match str with
  | Some (c :: s) =>
      if negb (c =? slash) then false
      else match scan word_char slash (ends_element slash) s 0 with
           | Some _ => true
           | None => false
           end
  | _ => false
  end.

Definition IsLegalInterfaceName (str : option (list Z)) : bool :=
  match str with
  | Some (c :: s) =>
      if negb (IsAlpha c) && negb (c =? 95) then false
      else dotted (c :: s) (scan word_char dot (ends_element dot) s 0)
  | _ => false
  end.

Definition IsLegalErrorName (str : option (list Z)) : bool := IsLegalInterfaceName str.

Definition IsLegalMemberName (str : option (list Z)) : bool :=
  match str with
  | Some (c :: s) =>
      if negb (IsAlpha c) && negb (c =? 95) then false
      else forallb word_char s && (zlen (c :: s) + 1 <=? MAX_NAME_LEN)
  | _ => false
  end.

(** The loop stores the leading slash as well. *)
Definition BusNameFromObjPath (str : option (list Z)) : list Z :=
  match str with
  | Some (c :: c1 :: s) =>
      if IsLegalObjectPath str
      then map (fun c => if c =? slash then dot else c) (c :: c1 :: s) else []
  | _ => []
  end.

(** * Match rules

    [std::multimap<String, String>]: insertion keeps equal keys. Positions are
    [size_t]; [None] is [String::npos]. *)

Definition find_first_of (c : Z) (s : list Z) (pos : nat) : option nat :=
  (fun '(i, _) => i + pos)%nat <$> list_find (fun x => x = c) (drop pos s).

Definition substr (s : list Z) (pos n : nat) : list Z := take n (drop pos s).

(** Inserts after the entries with a key that is not greater. *)
Fixpoint lex_lt (a b : list Z) : bool :=
  match a, b with
  | [], _ :: _ => true
  | x :: a, y :: b => (x <? y) || (x =? y) && lex_lt a b
  | _, [] => false
  end.

Fixpoint multimap_insert (k v : list Z) (m : list (list Z * list Z)) : list (list Z * list Z) :=
  match m with
  | [] => [(k, v)]
  | (k', v') :: m' => if lex_lt k k' then (k, v) :: m else (k', v') :: multimap_insert k v m'
  end.

(** One turn finds [key=...'value'] up to the next comma and moves past it. *)
Fixpoint match_loop (fuel : nat) (s : list Z) (pos : nat) (m : list (list Z * list Z))
  : option (QStatus * list (list Z * list Z)) :=
  if Nat.ltb pos (length s) then
    match fuel with
    | O => None
    | S fuel =>
        let endPos := default (length s) (find_first_of 44 s pos) in
        match find_first_of 61 s pos with
        | None => Some (ER_FAIL, m)
        | Some eqPos =>
            if Nat.leb endPos eqPos then Some (ER_FAIL, m)
            else
              let eqPos := S eqPos in
              let endQuote :=
                match find_first_of 39 s eqPos with
                | Some q => if Nat.ltb (S q) (length s)
                            then (fun e => (S q, e)) <$> find_first_of 39 s (S q) else None
                | None => None
                end in
              match endQuote with
              | None => Some (ER_FAIL, m)
              | Some (begQuotePos, endQuotePos) =>
                  let key := substr s pos (eqPos - 1 - pos) in
                  let value := substr s begQuotePos (endQuotePos - begQuotePos) in
                  match_loop fuel s (S endPos) (multimap_insert key value m)
              end
        end
    end
  else Some (ER_OK, m).

(** Every turn moves [pos] forward, so the length of the rule is enough. *)
Definition ParseMatchRule (s : list Z) (m : list (list Z * list Z)) : option (QStatus * list (list Z * list Z)) :=
  match_loop (length s) s 0 m.

(** * WildcardMatch

    [true] means that string and pattern differ. The loop follows the pattern;
    the scan after a star runs [s] to the first [c]. A position is the suffix
    of the text that is left; [None] is one character past the end. *)

Definition star : Z := 42.
Definition question : Z := 63.

Fixpoint scan_to (c : Z) (s : list Z) : option (list Z) :=
  match s with
  | [] => None
  | x :: s' => if x =? c then Some s' else scan_to c s'
  end.

Fixpoint wm_loop (p s : list Z) {struct p} : bool :=
  match p, s with
  | [], [] => false
  | c :: _, [] => negb (c =? star)
  | [], _ :: _ => true
  | c :: p', x :: s' =>
      if c =? star then
        match p' with
        | [] => false
        | c2 :: p'' =>
            if (c2 =? star) || (c2 =? question) then true
            else match scan_to c2 (x :: s') with
                 | Some s'' => wm_loop p'' s''
                 | None => true
                 end
        end
      else if c =? question then wm_loop p' s'
      else if negb (c =? x) then true
      else wm_loop p' s'
  end.

Definition WildcardMatch (str pat : list Z) : bool :=
  match pat, str with
  | [], _ | _, [] => true
  | _, _ => wm_loop pat str
  end.
