(* ===== verification/StrSet.v ===== *)
(** Ordered sets of strings (std::set<qcc::String>) as lists without repetition in the
    order of the characters, which the authentication engine and the match rules keep. *)
From Stdlib Require Import Sorted.
From stdpp Require Import sets.
From S2P Require Import Prelude BusUtil.

Definition StrSet := list (list Z).

Fixpoint set_insert (x : list Z) (s : StrSet) : StrSet :=
  match s with
  | [] => [x]
  | y :: s' => if lex_lt x y then x :: s else if lex_lt y x then y :: set_insert x s' else s
  end.

Definition set_count (x : list Z) (s : StrSet) : bool := bool_decide (x ∈ s).
Definition set_erase (x : list Z) (s : StrSet) : StrSet := filter (fun y => y <> x) s.

Lemma lex_lt_irrefl a : lex_lt a a = false.
Proof. induction a as [|x a IH]; [done|]. cbn. rewrite IH. by rewrite Z.ltb_irrefl, andb_false_r. Qed.

Lemma lex_lt_trans a b c : lex_lt a b = true -> lex_lt b c = true -> lex_lt a c = true.
Proof.
  revert b c. induction a as [|x a IH]; intros [|y b] [|z c]; cbn; try done.
  rewrite !orb_true_iff, !andb_true_iff, !Z.ltb_lt, !Z.eqb_eq.
  intros [?|[-> Hab]] [?|[-> Hbc]]; [left; lia|left; lia|left; lia|right; eauto].
Qed.

Lemma lex_lt_asym a b : lex_lt a b = true -> lex_lt b a = false.
Proof.
  intros H. destruct (lex_lt b a) eqn:E; [|done]. pose proof (lex_lt_trans _ _ _ H E) as H'.
  by rewrite lex_lt_irrefl in H'.
Qed.

Lemma lex_lt_eq a b : lex_lt a b = false -> lex_lt b a = false -> a = b.
Proof.
  revert b. induction a as [|x a IH]; intros [|y b]; cbn; try done.
  rewrite !orb_false_iff, !Z.ltb_ge. intros [? E1] [? E2]. assert (x = y) as -> by lia.
  rewrite Z.eqb_refl in *. f_equal. by apply IH.
Qed.

Definition sorted_set (s : StrSet) : Prop := StronglySorted (fun a b => lex_lt a b = true) s.

Lemma elem_of_set_insert x y s : y ∈ set_insert x s <-> y = x \/ y ∈ s.
Proof.
  induction s as [|z s IH]; cbn; [set_solver|].
  destruct (lex_lt x z) eqn:E1; [set_solver|]. destruct (lex_lt z x) eqn:E2; [set_solver|].
  rewrite (lex_lt_eq _ _ E1 E2). set_solver.
Qed.

Lemma set_insert_sorted x s : sorted_set s -> sorted_set (set_insert x s).
Proof.
  unfold sorted_set. induction 1 as [|y s Hs IH Hy]; cbn; [repeat constructor|].
  destruct (lex_lt x y) eqn:E1; [|destruct (lex_lt y x) eqn:E2].
  - constructor; [by constructor|]. constructor; [done|]. eapply Forall_impl; [exact Hy|].
    intros z. by apply lex_lt_trans.
  - constructor; [exact IH|]. apply Forall_forall. intros z [->|Hz]%elem_of_set_insert; [done|].
    by eapply (proj1 (Forall_forall _ _) Hy).
  - by constructor.
Qed.

Lemma set_insert_last x s : Forall (fun y => lex_lt y x = true) s -> set_insert x s = s ++ [x].
Proof. induction 1 as [|y s Hy _ IH]; [done|]. cbn. rewrite (lex_lt_asym _ _ Hy), Hy. by rewrite IH. Qed.
