(* ===== verification/BusUtilProofs.v ===== *)
(** The name tests accept exactly the documented grammars, except for a doubled
    slash at the start of an object path; match rules and wildcards. *)
From S2P Require Import Prelude Types BusUtil.

(** * Names as lists of elements *)

(** The elements of a name: what is left between separators. *)
Fixpoint split (sep : Z) (s : list Z) : list (list Z) :=
  match s with
  | [] => [[]]
  | c :: s =>
      if c =? sep then [] :: split sep s
      else match split sep s with
           | e :: es => (c :: e) :: es
           | [] => [[c]]
           end
  end.

Lemma split_cons sep s : exists e es, split sep s = e :: es.
Proof.
  induction s as [|c s (e & es & IH)]; simpl; [eauto|]. destruct (c =? sep); [eauto|]. rewrite IH. eauto.
Qed.

Abbreviation chars ok e := (Forall (fun c => ok c = true) e).

(** An element that does not start with a character refused after a separator. *)
Definition starts (bad : Z -> bool) (e : list Z) : Prop := exists c e', e = c :: e' /\ bad c = false.

Lemma starts_hd bad sep s e es :
  bad 0 = true -> bad sep = true -> split sep s = e :: es ->
  starts bad e <-> bad (hd 0 s) = false.
Proof.
  intros H0 Hsep. destruct s as [|c s]; cbn [split hd].
  - intros [= <- <-]. rewrite H0. split; [by intros (? & ? & ? & _)|done].
  - destruct (Z.eqb_spec c sep) as [->|Hc].
    + intros [= <- _]. rewrite Hsep. split; [by intros (? & ? & ? & _)|done].
    + destruct (split_cons sep s) as (e' & es' & ->). intros [= <- _]. unfold starts.
      split; [by intros (? & ? & [= -> ->] & ?)|eauto].
Qed.

(** The loop accepts the rest of a name: its first element continues the one
    being read, the others must start properly. *)
Lemma scan_spec ok sep bad : ok sep = false -> bad 0 = true -> bad sep = true ->
  forall s n m, scan ok sep bad s n = Some m <->
    S m = (n + length (split sep s))%nat /\ Forall (fun e => chars ok e) (split sep s) /\
    Forall (starts bad) (tail (split sep s)).
Proof.
  intros Hok H0 Hsep. induction s as [|c s IH]; intros n m; cbn [scan split].
  - cbn [length tail]. rewrite Forall_singleton. split.
    + intros [= <-]. split_and!; [lia|constructor|constructor].
    + intros (Hm & _). f_equal. lia.
  - destruct (split_cons sep s) as (e & es & Hsp).
    destruct (ok c) eqn:Hc.
    + destruct (Z.eqb_spec c sep) as [->|]; [congruence|]. rewrite IH, Hsp. cbn [length tail].
      rewrite !Forall_cons. firstorder.
    + destruct (Z.eqb_spec c sep) as [->|]; cbn [negb orb].
      * cbn [length tail]. rewrite Forall_cons. destruct (bad (hd 0 s)) eqn:Hb.
        -- split; [done|]. intros (_ & _ & Hst). rewrite Hsp in Hst. apply Forall_cons in Hst as [Hst _].
           apply (starts_hd bad sep s e es) in Hst; [congruence|done..].
        -- rewrite IH, Hsp. rewrite (Forall_cons (starts bad)).
           rewrite (starts_hd bad sep s e es) by done. cbn [length tail].
           split; [intros (? & ? & ?); split_and!; [lia|constructor|done..]|].
           intros (? & [_ ?] & _ & ?). split_and!; [lia|done|done].
      * split; [done|]. rewrite Hsp. intros (_ & Hall & _). apply Forall_cons in Hall as [He _].
        apply Forall_cons in He as [He _]. congruence.
Qed.

Lemma dotted_scan ok bad str s :
  ok dot = false -> bad 0 = true -> bad dot = true ->
  dotted str (scan ok dot bad s 0) = true <->
  zlen str <= 255 /\ (2 <= length (split dot s))%nat /\
  Forall (fun e => chars ok e) (split dot s) /\ Forall (starts bad) (tail (split dot s)).
Proof.
  intros Hok H0 Hd. unfold dotted, MAX_NAME_LEN. pose proof (scan_spec ok dot bad Hok H0 Hd s 0) as Hs.
  destruct (scan ok dot bad s 0) as [m|] eqn:Hsc.
  - destruct (Hs m) as [(Hm & Hall & Hst) _]; [done|]. rewrite andb_true_iff, negb_true_iff, Nat.eqb_neq, Z.leb_le.
    simpl in Hm. split; [intros []; split_and!; [lia|lia|done|done]|]. intros (? & ? & _). lia.
  - split; [done|]. intros (_ & Hlen & Hall & Hst). exfalso.
    destruct (split_cons dot s) as (e & es & Hsp). specialize (Hs (length es)) as [_ Hs].
    discriminate Hs. rewrite Hsp in *. done.
Qed.

(** * The grammars of BusUtil.h *)

Definition nonempty {A} (e : list A) : Prop := e <> [].
Definition no_digit_first (e : list Z) : Prop := IsDecimalDigit (hd 0 e) = false.

(** At least two elements of the given characters, 255 characters at most. *)
Definition dotted_name (ok : Z -> bool) (first rest : list Z -> Prop) (len : Z) (s : list Z) : Prop :=
  len <= 255 /\ exists e es, split dot s = e :: es /\ es <> [] /\
    Forall (fun e => nonempty e /\ chars ok e) (e :: es) /\ first e /\ Forall rest es.

Definition any_element (e : list Z) : Prop := True.

Definition bus_name (s : list Z) : Prop := dotted_name name_char no_digit_first no_digit_first (zlen s) s.
Definition unique_name (s : list Z) : Prop :=
  exists s', s = 58 :: s' /\ dotted_name name_char any_element any_element (zlen s) s'.
Definition interface_name (s : list Z) : Prop := dotted_name word_char no_digit_first any_element (zlen s) s.
Definition member_name (s : list Z) : Prop :=
  zlen s <= 255 /\ s <> [] /\ chars word_char s /\ no_digit_first s.

Lemma starts_ends e : starts (ends_element dot) e <-> nonempty e /\ hd 0 e <> dot /\ hd 0 e <> 0.
Proof.
  unfold starts, ends_element, nonempty. destruct e as [|c e]; simpl.
  - split; [by intros (? & ? & ? & _)|by intros []].
  - split.
    + intros (? & ? & [= <- <-] & H). apply orb_false_iff in H as [?%Z.eqb_neq ?%Z.eqb_neq]. done.
    + intros (_ & ? & ?). exists c, e. split; [done|]. apply orb_false_iff. by rewrite !Z.eqb_neq.
Qed.

Lemma hd_ok ok (e : list Z) : ok dot = false -> ok 0 = false -> nonempty e -> chars ok e ->
  hd 0 e <> dot /\ hd 0 e <> 0.
Proof. intros Hd H0 Hn He. destruct He as [|c e Hc _]; [done|]. simpl. split; intros ->; congruence. Qed.

(** Elements after a separator: nonempty is what the loop's look-ahead asks. *)
Lemma rest_elements ok es : ok dot = false -> ok 0 = false -> Forall (fun e => chars ok e) es ->
  Forall (starts (ends_element dot)) es <-> Forall nonempty es.
Proof.
  intros Hd H0 Hall. split; intros H; [by eapply Forall_impl; [exact H|]; intros e [? _]%starts_ends|].
  rewrite Forall_forall in *. intros e He. apply starts_ends. split; [by apply H|].
  apply (hd_ok ok); [done..|by apply H|by apply Hall].
Qed.

Lemma rest_elements_digit ok es : ok dot = false -> ok 0 = false -> Forall (fun e => chars ok e) es ->
  Forall (starts (fun n => ends_element dot n || IsDecimalDigit n)) es <->
  Forall nonempty es /\ Forall no_digit_first es.
Proof.
  intros Hd H0 Hall. rewrite <- (rest_elements ok es Hd H0 Hall), <- Forall_and.
  unfold starts, no_digit_first. split; intros H; eapply Forall_impl; try exact H; simpl.
  - intros e (c & e' & -> & [? ?]%orb_false_iff). simpl. eauto.
  - intros e ((c & e' & -> & ?) & Hn). simpl in Hn. exists c, e'. split; [done|]. by apply orb_false_iff.
Qed.

(** The first character is tested apart, then the loop continues its element. *)
Lemma dotted_first ok bad (rest : list Z -> Prop) c s :
  ok dot = false -> ok 0 = false -> ok c = true ->
  (forall es, Forall (fun e => chars ok e) es ->
     Forall (starts bad) es <-> Forall nonempty es /\ Forall rest es) ->
  bad 0 = true -> bad dot = true -> forall str,
  dotted str (scan ok dot bad s 0) = true <->
  zlen str <= 255 /\ exists e es, split dot (c :: s) = e :: es /\ es <> [] /\
    Forall (fun e => nonempty e /\ chars ok e) (e :: es) /\ Forall rest es.
Proof.
  intros Hd H0 Hc Hrest Hb0 Hbd str. rewrite dotted_scan by done. cbn [split].
  destruct (Z.eqb_spec c dot) as [->|_]; [congruence|].
  destruct (split_cons dot s) as (e & es & ->). cbn [length tail].
  rewrite Forall_cons. split.
  - intros (Hl & Hn & [He Hes] & Hst). split; [done|]. exists (c :: e), es.
    apply Hrest in Hst as [Hne Hr]; [|done]. split_and!; [done| | |done].
    + intros ->. simpl in Hn. lia.
    + apply Forall_cons. split; [split; [done|by constructor]|]. by apply Forall_and.
  - intros (Hl & e' & es' & [= <- <-] & Hne & Hall & Hr).
    apply Forall_cons in Hall as [[_ He] Hes]. apply Forall_and in Hes as [Hn Hes].
    apply Forall_cons in He as [_ He]. split_and!; [done| |done|done|by apply Hrest].
    destruct es; [done|simpl; lia].
Qed.

Lemma rest_any ok es : ok dot = false -> ok 0 = false -> Forall (fun e => chars ok e) es ->
  Forall (starts (ends_element dot)) es <-> Forall nonempty es /\ Forall any_element es.
Proof.
  intros Hd H0 Hall. rewrite (rest_elements ok es Hd H0 Hall).
  split; [|by intros []]. intros H. split; [done|]. by apply Forall_true.
Qed.

Lemma IsLegalUniqueName_iff s : IsLegalUniqueName (Some s) = true <-> unique_name s.
Proof.
  unfold unique_name, dotted_name. destruct s as [|c [|c1 s]]; cbn [IsLegalUniqueName].
  - split; [done|]. by intros (? & ? & _).
  - split; [done|]. intros (s' & [= -> <-] & _ & e & es & [= <- <-] & Hne & _). done.
  - destruct (Z.eqb_spec c 58) as [->|]; cbn [negb orb].
    2:{ split; [done|]. by intros (? & [= ? _] & _). }
    destruct (name_char c1) eqn:H1; cbn [negb].
    + rewrite (dotted_first name_char (ends_element dot) any_element c1 s)
        by (done || by intros; apply (rest_any name_char)).
      split.
      * intros (Hl & e & es & Hsp & Hne & Hall & Hr). exists (c1 :: s). split; [done|]. split; [done|].
        exists e, es. done.
      * intros (s' & [= <-] & Hl & e & es & Hsp & Hne & Hall & _ & Hr). split; [done|]. eauto 10.
    + split; [done|]. intros (s' & [= <-] & Hl & e & es & Hsp & Hne & Hall & _). exfalso.
      cbn [split] in Hsp. apply Forall_cons in Hall as [[Hn He] _].
      destruct (c1 =? dot); [injection Hsp as <- _; done|].
      destruct (split_cons dot s) as (e' & es' & Hs). rewrite Hs in Hsp. injection Hsp as <- <-.
      apply Forall_cons in He as [He _]. congruence.
Qed.

(** The first element of a split starts with the first character. *)
Lemma split_first sep c s e es : c <> sep -> split sep (c :: s) = e :: es -> hd 0 e = c.
Proof.
  intros Hc. cbn [split]. destruct (Z.eqb_spec c sep); [done|].
  destruct (split_cons sep s) as (e' & es' & ->). by intros [= <- _].
Qed.

Lemma IsLegalInterfaceName_iff s : IsLegalInterfaceName (Some s) = true <-> interface_name s.
Proof.
  unfold interface_name, dotted_name. destruct s as [|c s]; cbn [IsLegalInterfaceName].
  - split; [done|]. intros (_ & e & es & [= <- <-] & ? & _). done.
  - destruct (negb (IsAlpha c) && negb (c =? 95)) eqn:Hc.
    + split; [done|]. intros (_ & e & es & Hsp & _ & Hall & Hf & _). exfalso.
      apply Forall_cons in Hall as [[Hn He] _].
      assert (c <> dot) as Hcd by (intros ->; cbn in Hsp; by injection Hsp as <- _).
      pose proof (split_first _ _ _ _ _ Hcd Hsp) as Hhd. unfold no_digit_first in Hf. rewrite Hhd in Hf.
      destruct He as [|x e' Hx _]; [done|]. simpl in Hhd. subst x. unfold word_char, IsAlphaNumeric in Hx.
      rewrite Hf, orb_false_r in Hx. by destruct (IsAlpha c), (c =? 95).
    + assert (word_char c = true /\ IsDecimalDigit c = false) as [Hw Hd].
      { unfold word_char, IsAlphaNumeric, IsAlpha, IsDecimalDigit in *. lia. }
      rewrite (dotted_first word_char (ends_element dot) any_element c s)
        by (done || by intros; apply (rest_any word_char)).
      assert (c <> dot) as Hcd by (by intros ->).
      split.
      * intros (Hl & e & es & Hsp & Hne & Hall & Hr). split; [done|]. exists e, es. split_and!; try done.
        unfold no_digit_first. by rewrite (split_first _ _ _ _ _ Hcd Hsp).
      * intros (Hl & e & es & Hsp & Hne & Hall & _ & Hr). split; [done|]. eauto 10.
Qed.

Lemma IsLegalBusName_iff s : IsLegalBusName (Some s) = true <-> unique_name s \/ bus_name s.
Proof.
  destruct s as [|c s]; cbn [IsLegalBusName].
  { split; [done|]. intros [(? & ? & _)|(_ & e & es & [= <- <-] & ? & _)]; done. }
  destruct (Z.eqb_spec c 58) as [->|H58].
  { rewrite IsLegalUniqueName_iff. split; [by left|]. intros [?|(_ & e & es & Hsp & _ & Hall & _)]; [done|].
    exfalso. apply Forall_cons in Hall as [[Hn He] _].
    pose proof (split_first dot 58 s e es ltac:(done) Hsp) as Hhd.
    destruct He as [|x e' Hx _]; [done|]. simpl in Hhd. by subst x. }
  assert (~ unique_name (c :: s)) as Hnu by (intros (? & [= ? _] & _); congruence).
  unfold bus_name, dotted_name. destruct (negb (IsAlpha c) && negb (c =? 95) && negb (c =? 45)) eqn:Hc.
  - split; [done|]. intros [?|(_ & e & es & Hsp & _ & Hall & Hf & _)]; [done|]. exfalso.
    apply Forall_cons in Hall as [[Hn He] _].
    assert (c <> dot) as Hcd by (intros ->; cbn in Hsp; by injection Hsp as <- _).
    pose proof (split_first _ _ _ _ _ Hcd Hsp) as Hhd. unfold no_digit_first in Hf. rewrite Hhd in Hf.
    destruct He as [|x e' Hx _]; [done|]. simpl in Hhd. subst x. unfold name_char, IsAlphaNumeric in Hx.
    rewrite Hf, orb_false_r in Hx. by destruct (IsAlpha c), (c =? 95), (c =? 45).
  - assert (name_char c = true /\ IsDecimalDigit c = false) as [Hw Hd].
    { unfold name_char, IsAlphaNumeric, IsAlpha, IsDecimalDigit in *. lia. }
    rewrite (dotted_first name_char _ no_digit_first c s)
      by (done || by intros; apply (rest_elements_digit name_char)).
    assert (c <> dot) as Hcd by (by intros ->).
    split.
    + intros (Hl & e & es & Hsp & Hne & Hall & Hr). right. split; [done|]. exists e, es. split_and!; try done.
      unfold no_digit_first. by rewrite (split_first _ _ _ _ _ Hcd Hsp).
    + intros [?|(Hl & e & es & Hsp & Hne & Hall & _ & Hr)]; [done|]. split; [done|]. eauto 10.
Qed.

Lemma IsLegalMemberName_iff s : IsLegalMemberName (Some s) = true <-> member_name s.
Proof.
  unfold member_name, MAX_NAME_LEN. destruct s as [|c s]; cbn [IsLegalMemberName]; [by split; [|intros (_ & ? & _)]|].
  unfold MAX_NAME_LEN, no_digit_first. rewrite Forall_cons. cbn [hd].
  destruct (negb (IsAlpha c) && negb (c =? 95)) eqn:Hc.
  - split; [done|]. intros (_ & _ & [Hw _] & Hd). unfold word_char, IsAlphaNumeric, IsAlpha, IsDecimalDigit in *. lia.
  - assert (word_char c = true /\ IsDecimalDigit c = false) as [Hw Hd].
    { unfold word_char, IsAlphaNumeric, IsAlpha, IsDecimalDigit in *. lia. }
    rewrite andb_true_iff, Z.leb_le. rewrite forallb_forall, Forall_forall.
    split.
    + intros [Hall Hl]. split_and!; try done; [lia|]. intros x Hx. apply Hall. by apply list_elem_of_In.
    + intros (Hl & _ & [_ Hall] & _). split; [|lia]. intros x Hx. apply Hall. by apply list_elem_of_In.
Qed.

(** C39: the scanning loops accept exactly the names of these grammars, which are the
    code's: a unique name is a colon and at least two dot-separated nonempty elements of
    letters, digits, ['_'] and ['-'], also such as start with a digit; a bus name is a
    unique name, or at least two such elements none of which starts with a digit;
    interface and error names are at least two elements of letters, digits and ['_'], of
    which the first must not start with a digit; a member name is one element that does
    not; all of at most 255 characters. *)
Theorem legal_names_correct (s : list Z) :
  (IsLegalUniqueName (Some s) = true <-> unique_name s) /\
  (IsLegalBusName (Some s) = true <-> unique_name s \/ bus_name s) /\
  (IsLegalInterfaceName (Some s) = true <-> interface_name s) /\
  (IsLegalErrorName (Some s) = true <-> interface_name s) /\
  (IsLegalMemberName (Some s) = true <-> member_name s).
Proof.
  split_and!; [apply IsLegalUniqueName_iff|apply IsLegalBusName_iff|apply IsLegalInterfaceName_iff|
    apply IsLegalInterfaceName_iff|apply IsLegalMemberName_iff].
Qed.

(** * Object paths *)

Definition object_path (s : list Z) : Prop :=
  s = [slash] \/ exists t, s = slash :: t /\ Forall (fun e => nonempty e /\ chars word_char e) (split slash t).

Lemma starts_slash es : Forall (fun e => chars word_char e) es ->
  Forall (starts (ends_element slash)) es <-> Forall nonempty es.
Proof.
  intros Hall. rewrite !Forall_forall in *. split; intros H e He; specialize (H e He).
  - by destruct H as (c & e' & -> & _).
  - specialize (Hall e He). destruct Hall as [|c e' Hc _]; [done|]. exists c, e'. split; [done|].
    unfold ends_element. apply orb_false_iff. split; apply Z.eqb_neq; by intros ->.
Qed.

Lemma IsLegalObjectPath_split s :
  IsLegalObjectPath (Some s) = true <->
  exists t, s = slash :: t /\ Forall (fun e => chars word_char e) (split slash t) /\
    Forall nonempty (tail (split slash t)).
Proof.
  destruct s as [|c s]; cbn [IsLegalObjectPath]; [by split; [|intros (? & ? & _)]|].
  destruct (Z.eqb_spec c slash) as [->|Hc]; cbn [negb].
  2:{ split; [done|]. by intros (? & [= ? _] & _). }
  pose proof (scan_spec word_char slash (ends_element slash) eq_refl eq_refl eq_refl s 0) as Hs.
  destruct (split_cons slash s) as (e & es & Hsp). rewrite Hsp in *. cbn [tail length] in *. split.
  - destruct (scan _ _ _ s 0) as [m|]; [|done]. intros _.
    destruct (Hs m) as [(_ & Hall & Hst) _]; [done|]. exists s. split; [done|]. rewrite Hsp. split; [done|].
    apply Forall_cons in Hall as [_ Hall]. by apply starts_slash.
  - intros (t & [= <-] & Hall & Hne). rewrite Hsp in Hall, Hne. cbn [tail] in Hne.
    destruct (Hs (length es)) as [_ ->]; [done|]. split_and!; [done|done|].
    apply Forall_cons in Hall as [_ Hall]. by apply starts_slash.
Qed.

(** An object path is accepted when it is one of the documented paths, or
    one with its first slash doubled: the loop compares each slash with the next
    character only, and the first slash is tested before the loop. *)
Theorem IsLegalObjectPath_correct (s : list Z) :
  IsLegalObjectPath (Some s) = true <->
  object_path s \/ exists t, t <> [] /\ s = slash :: slash :: t /\ object_path (slash :: t).
Proof.
  rewrite IsLegalObjectPath_split. unfold object_path. split.
  - intros (t & -> & Hall & Hne). destruct t as [|c t]; [by left; left|].
    destruct (Z.eqb_spec c slash) as [->|Hc].
    + right. exists t. cbn [split] in Hall, Hne. rewrite Z.eqb_refl in Hall, Hne. cbn [tail] in Hne.
      apply Forall_cons in Hall as [_ Hall]. split.
      * intros ->. cbn in Hne. apply Forall_cons in Hne as [Hne _]. by apply Hne.
      * split; [done|]. right. exists t. split; [done|]. by apply Forall_and.
    + left. right. exists (c :: t). split; [done|]. cbn [split] in *.
      destruct (Z.eqb_spec c slash); [done|]. destruct (split_cons slash t) as (e & es & Hsp). rewrite Hsp in *.
      apply Forall_and. split; [by constructor|done].
  - intros [[->|(t & -> & [Hn Hall]%Forall_and)]|(t & Ht & -> & [[= ->]|(t' & [= <-] & [Hn Hall]%Forall_and)])].
    + exists []. cbn. split_and!; [done|by repeat constructor|constructor].
    + exists t. split_and!; [done|done|]. by destruct (split slash t); [|inversion Hn].
    + done.
    + exists (slash :: t). cbn [split]. rewrite Z.eqb_refl. cbn [tail]. split_and!; [done|by constructor|done].
Qed.

(** [BusNameFromObjPath] is documented to remove the leading slash; it
    turns it into a dot, so that its result is never a legal bus name. *)
Theorem BusNameFromObjPath_never_legal (s : list Z) :
  IsLegalBusName (Some (BusNameFromObjPath (Some s))) = false /\
  (IsLegalObjectPath (Some s) = true -> s <> [slash] ->
   exists n, BusNameFromObjPath (Some s) = dot :: n /\ length n = length (tail s)).
Proof.
  destruct s as [|c [|c1 s]]; cbn [BusNameFromObjPath].
  - split; [done|]. done.
  - split; [done|]. intros Hl Hs. exfalso. cbn [IsLegalObjectPath] in Hl.
    destruct (Z.eqb_spec c slash); [congruence|done].
  - destruct (IsLegalObjectPath (Some (c :: c1 :: s))) eqn:Hl; [|done].
    cbn [IsLegalObjectPath] in Hl. destruct (Z.eqb_spec c slash) as [->|]; [|done]. split; [done|].
    intros _ _. eexists. split; [reflexivity|]. cbn [tail length]. f_equal. apply length_map.
Qed.

Lemma BusNameFromObjPath_never_legal_witness :
  exists n, BusNameFromObjPath (Some [47; 111; 47; 97]) = dot :: n /\ length n = 3%nat.
Proof. apply (BusNameFromObjPath_never_legal [47; 111; 47; 97]); [reflexivity|discriminate]. Defined.

(** * Wildcards *)

(** Shell-style matching: a star matches any text, a question mark a character. *)
Inductive glob : list Z -> list Z -> Prop :=
| glob_nil : glob [] []
| glob_skip p s : glob p s -> glob (star :: p) s
| glob_take p x s : glob (star :: p) s -> glob (star :: p) (x :: s)
| glob_any p x s : glob p s -> glob (question :: p) (x :: s)
| glob_char c p s : c <> star -> c <> question -> glob p s -> glob (c :: p) (c :: s).

(** Patterns whose only star is the last character. *)
Fixpoint star_last (p : list Z) : bool :=
  match p with
  | [] => true
  | c :: p' => if c =? star then bool_decide (p' = []) else star_last p'
  end.

Lemma glob_star s : glob [star] s.
Proof. induction s; [by apply glob_skip, glob_nil|by apply glob_take]. Qed.

Lemma wm_loop_glob p : star_last p = true -> forall s, wm_loop p s = false <-> glob p s.
Proof.
  induction p as [|c p IH]; intros Hp s; cbn [star_last] in Hp.
  - destruct s; cbn [wm_loop]; split; try done; [constructor|by inversion 1].
  - destruct (Z.eqb_spec c star) as [->|Hc].
    + apply bool_decide_eq_true in Hp as ->. split; intros _; [apply glob_star|]. by destruct s.
    + destruct s as [|x s]; cbn [wm_loop].
      * destruct (Z.eqb_spec c star); [done|]. split; [done|]. by inversion 1.
      * destruct (Z.eqb_spec c star); [done|]. destruct (Z.eqb_spec c question) as [->|Hq].
        -- rewrite IH by done. split; [by constructor|]. inversion 1; subst; done.
        -- destruct (Z.eqb_spec c x) as [->|Hx]; cbn [negb].
           ++ rewrite IH by done. split; [by constructor|]. inversion 1; subst; done.
           ++ split; [done|]. inversion 1; subst; done.
Qed.

(** for patterns that have no star but at the end, such as
    ["org.alljoyn.*"], [WildcardMatch] decides the usual wildcard matching of
    nonempty strings ([false] means a match). *)
Theorem WildcardMatch_correct (str pat : list Z) :
  star_last pat = true ->
  WildcardMatch str pat = false <-> str <> [] /\ pat <> [] /\ glob pat str.
Proof.
  intros Hp. unfold WildcardMatch. destruct pat as [|c p]; [naive_solver|].
  destruct str as [|x s]; [naive_solver|]. rewrite wm_loop_glob by done. naive_solver.
Qed.

Lemma WildcardMatch_correct_witness :
  glob [111; 114; 63; 46; 42] [111; 114; 103; 46; 97; 106].
Proof. apply (WildcardMatch_correct [111; 114; 103; 46; 97; 106] [111; 114; 63; 46; 42]); reflexivity. Defined.

(** With a star elsewhere the answer is wrong in both directions: ["a"] is
    reported to match ["a*b"], since only the next pattern character is looked
    at when the string ends, and ["abbc"] not to match ["a*bc"], since the scan
    after a star is never resumed. *)
Theorem WildcardMatch_inner_star :
  (WildcardMatch [97] [97; 42; 98] = false /\ ~ glob [97; 42; 98] [97]) /\
  (WildcardMatch [97; 98; 98; 99] [97; 42; 98; 99] = true /\ glob [97; 42; 98; 99] [97; 98; 98; 99]).
Proof.
  split; split; [reflexivity| |reflexivity|].
  - intros H. repeat match goal with H : glob _ _ |- _ => inversion H; subst; clear H end; done.
  - apply glob_char; [done..|]. apply glob_take, glob_skip. do 2 (apply glob_char; [done..|]). apply glob_nil.
Qed.

(** * Match rules *)

(** Every turn consumes a segment, so the fuel of [ParseMatchRule] suffices. *)
Lemma find_first_of_ge c s pos i : find_first_of c s pos = Some i -> (pos <= i < length s)%nat.
Proof.
  unfold find_first_of. destruct (list_find _ _) as [[j x]|] eqn:Hf; [|done]. intros [= <-].
  apply list_find_Some in Hf as (Hj & _). apply lookup_lt_Some in Hj. rewrite length_drop in Hj. lia.
Qed.

Lemma match_loop_total s : forall fuel pos m,
  (length s - pos <= fuel)%nat -> exists r, match_loop fuel s pos m = Some r.
Proof.
  induction fuel as [|fuel IH]; intros pos m Hf; cbn [match_loop];
    (destruct (Nat.ltb_spec pos (length s)); [|by eauto]); [lia|].
  destruct (find_first_of 61 s pos) as [eq|]; [|by eauto].
  destruct (Nat.leb _ eq); [by eauto|].
  match goal with |- context [match ?q with Some _ => _ | None => Some (ER_FAIL, m) end] => destruct q as [[b e]|]; [|by eauto] end.
  apply IH. destruct (find_first_of 44 s pos) as [i|] eqn:Hi; simpl; [apply find_first_of_ge in Hi|]; lia.
Qed.

(** A rule as a client writes it. *)
Definition assignment (kv : list Z * list Z) : list Z := kv.1 ++ [61; 39] ++ kv.2 ++ [39].

Fixpoint rule (kvs : list (list Z * list Z)) : list Z :=
  match kvs with
  | [] => []
  | [kv] => assignment kv
  | kv :: kvs => assignment kv ++ 44 :: rule kvs
  end.

Definition plain_pair (kv : list Z * list Z) : Prop :=
  Forall (fun c => c <> 44 /\ c <> 61) kv.1 /\ Forall (fun c => c <> 44 /\ c <> 39) kv.2.

Lemma find_first_of_mid c pre x y :
  Forall (fun d => d <> c) x ->
  find_first_of c (pre ++ x ++ c :: y) (length pre) = Some (length pre + length x)%nat.
Proof.
  intros Hx. unfold find_first_of. rewrite drop_app_length.
  rewrite list_find_app_r; [|by apply list_find_None, Forall_forall; intros d Hd; rewrite Forall_forall in Hx; auto].
  cbn. rewrite decide_True by done. cbn. f_equal. lia.
Qed.

Lemma find_first_of_none c pre x :
  Forall (fun d => d <> c) x -> find_first_of c (pre ++ x) (length pre) = None.
Proof.
  intros Hx. unfold find_first_of. rewrite drop_app_length.
  by replace (list_find _ x) with (@None (nat * Z)) by (symmetry; by apply list_find_None).
Qed.

Lemma substr_mid pre x y n : n = length x -> substr (pre ++ x ++ y) (length pre) n = x.
Proof. intros ->. unfold substr. by rewrite drop_app_length, take_app_length. Qed.

Lemma endPos_assignment pre kv tl :
  plain_pair kv -> (tl = [] \/ exists t, tl = 44 :: t) ->
  default (length (pre ++ assignment kv ++ tl)) (find_first_of 44 (pre ++ assignment kv ++ tl) (length pre))
  = (length pre + length (assignment kv))%nat.
Proof.
  intros [Hk Hv] Htl.
  assert (Forall (fun c => c <> 44) (assignment kv)) as Hc.
  { unfold assignment. rewrite !Forall_app. split_and!; try (by repeat constructor);
      eapply Forall_impl; try eassumption; naive_solver. }
  destruct Htl as [->|(t & ->)].
  - rewrite app_nil_r, find_first_of_none by done. simpl. by rewrite length_app.
  - by rewrite find_first_of_mid.
Qed.

(** One assignment is read whole, whatever the rest of the rule. *)
Lemma match_loop_assignment fuel pre k v tl m :
  plain_pair (k, v) -> (tl = [] \/ exists t, tl = 44 :: t) ->
  match_loop (S fuel) (pre ++ assignment (k, v) ++ tl) (length pre) m =
  match_loop fuel (pre ++ assignment (k, v) ++ tl) (S (length pre + length (assignment (k, v))))
    (multimap_insert k v m).
Proof.
  intros Hp Htl. cbn [match_loop]. set (s := pre ++ assignment (k, v) ++ tl).
  pose proof (endPos_assignment pre (k, v) tl Hp Htl) as He. fold s in He. rewrite He. clear He.
  destruct Hp as [Hk Hv]. cbn [fst snd] in *.
  assert (length s = (length pre + length (assignment (k, v)) + length tl)%nat) as Hls
    by (unfold s; rewrite !length_app; lia).
  assert (length (assignment (k, v)) = (length k + length v + 3)%nat) as Hla
    by (unfold assignment; simpl; rewrite !length_app; simpl; rewrite length_app; simpl; lia).
  destruct (Nat.ltb_spec (length pre) (length s)); [|lia].
  assert (find_first_of 61 s (length pre) = Some (length pre + length k)%nat) as ->.
  { unfold s, assignment. cbn [fst snd]. rewrite <- !app_assoc. apply find_first_of_mid.
    eapply Forall_impl; [exact Hk|]. naive_solver. }
  destruct (Nat.leb_spec (length pre + length (assignment (k, v))) (length pre + length k)); [lia|].
  assert (find_first_of 39 s (S (length pre + length k)) = Some (S (length pre + length k))) as ->.
  { pose proof (find_first_of_mid 39 (pre ++ k ++ [61]) [] (v ++ [39] ++ tl) ltac:(constructor)) as Hf.
    replace (length (pre ++ k ++ [61])) with (S (length pre + length k)) in Hf
      by (rewrite !length_app; simpl; lia).
    unfold s, assignment. cbn [fst snd]. rewrite <- !app_assoc in *. simpl in *. rewrite Hf. f_equal. lia. }
  destruct (Nat.ltb_spec (S (S (length pre + length k))) (length s)); [|lia].
  assert (find_first_of 39 s (S (S (length pre + length k)))
          = Some (S (S (length pre + length k)) + length v)%nat) as ->.
  { pose proof (find_first_of_mid 39 (pre ++ k ++ [61; 39]) v tl) as Hf.
    replace (length (pre ++ k ++ [61; 39])) with (S (S (length pre + length k))) in Hf
      by (rewrite !length_app; simpl; lia).
    unfold s, assignment. cbn [fst snd]. rewrite <- !app_assoc in *. simpl in *. apply Hf.
    eapply Forall_impl; [exact Hv|]. naive_solver. }
  cbn [fmap option_fmap option_map].
  assert (substr s (length pre) (S (length pre + length k) - 1 - length pre) = k) as ->.
  { unfold s, assignment. cbn [fst snd]. rewrite <- !app_assoc. apply substr_mid. lia. }
  assert (substr s (S (S (length pre + length k)))
     (S (S (length pre + length k)) + length v - S (S (length pre + length k))) = v) as ->.
  { pose proof (substr_mid (pre ++ k ++ [61; 39]) v ([39] ++ tl) (length v) eq_refl) as Hf.
    replace (length (pre ++ k ++ [61; 39])) with (S (S (length pre + length k))) in Hf
      by (rewrite !length_app; simpl; lia).
    unfold s, assignment. cbn [fst snd]. rewrite <- !app_assoc in *. simpl in *.
    match goal with |- substr _ _ ?n = _ => replace n with (length v) by lia end. exact Hf. }
  done.
Qed.

Definition insert_all (kvs : list (list Z * list Z)) (m : list (list Z * list Z)) : list (list Z * list Z) :=
  fold_left (fun m kv => multimap_insert kv.1 kv.2 m) kvs m.

Lemma match_loop_rule kvs : Forall plain_pair kvs -> forall fuel pre m,
  (length (rule kvs) <= fuel)%nat ->
  match_loop fuel (pre ++ rule kvs) (length pre) m = Some (ER_OK, insert_all kvs m).
Proof.
  induction 1 as [|[k v] kvs Hp _ IH]; intros fuel pre m Hf.
  - cbn [rule insert_all fold_left]. rewrite app_nil_r. destruct fuel; cbn [match_loop];
      by rewrite Nat.ltb_irrefl.
  - assert (0 < length (assignment (k, v)))%nat
      by (unfold assignment; rewrite !length_app; simpl; lia).
    assert (length (rule ((k, v) :: kvs)) >= length (assignment (k, v)) /\
      (kvs <> [] -> length (rule ((k, v) :: kvs)) = length (assignment (k, v)) + S (length (rule kvs))))%nat as [Hl1 Hl2].
    { cbn [rule]. destruct kvs; [by split; [lia|]|]. rewrite length_app. simpl. split; [lia|done]. }
    destruct fuel as [|fuel]; [lia|]. destruct kvs as [|kv kvs].
    + pose proof (match_loop_assignment fuel pre k v [] m Hp ltac:(by left)) as Ha.
      rewrite app_nil_r in Ha. cbn [rule]. rewrite Ha.
      destruct fuel; cbn [match_loop];
        (destruct (Nat.ltb_spec (S (length pre + length (assignment (k, v)))) (length (pre ++ assignment (k, v))));
          [rewrite length_app in *; lia|done]).
    + change (rule ((k, v) :: kv :: kvs)) with (assignment (k, v) ++ 44 :: rule (kv :: kvs)).
      rewrite match_loop_assignment by (done || by right; eauto).
      specialize (IH fuel (pre ++ assignment (k, v) ++ [44]) (multimap_insert k v m)).
      rewrite <- !app_assoc in IH. cbn [app] in IH.
      replace (S (length pre + length (assignment (k, v)))) with (length (pre ++ assignment (k, v) ++ [44]))
        by (rewrite !length_app; simpl; lia).
      apply IH. specialize (Hl2 ltac:(done)). lia.
Qed.

(** [ParseMatchRule] always terminates, and reads back the keys and values
    of a rule written as [key='value',...], inserted in that order. *)
Theorem ParseMatchRule_roundtrip (kvs m : list (list Z * list Z)) :
  Forall plain_pair kvs -> ParseMatchRule (rule kvs) m = Some (ER_OK, insert_all kvs m) /\
  forall s, exists r, ParseMatchRule s m = Some r.
Proof.
  intros Hp. split; [by apply (match_loop_rule kvs Hp (length (rule kvs)) [])|].
  intros s. apply match_loop_total. lia.
Qed.

(** [type='signal',member='Foo'] *)
Definition sample_rule : list (list Z * list Z) :=
  [([116; 121; 112; 101], [115; 105; 103]); ([109; 101; 109], [70; 111; 111])].

Lemma ParseMatchRule_roundtrip_witness :
  ParseMatchRule (rule sample_rule) [] =
    Some (ER_OK, [([109; 101; 109], [70; 111; 111]); ([116; 121; 112; 101], [115; 105; 103])]).
Proof. apply (ParseMatchRule_roundtrip sample_rule []). by repeat constructor. Defined.

(** A comma inside a quoted value ends the segment although the quote does
    not, so ["a='b,c'"] is rejected after its value was inserted; and a missing
    quote is looked for in the next segment: ["a=b,c='d'"] gives [a] the value
    ["d"]. *)
Theorem ParseMatchRule_quoting :
  ParseMatchRule [97; 61; 39; 98; 44; 99; 39] [] = Some (ER_FAIL, [([97], [98; 44; 99])]) /\
  ParseMatchRule [97; 61; 98; 44; 99; 61; 39; 100; 39] [] = Some (ER_OK, [([97], [100]); ([99], [100])]).
Proof. split; vm_compute; reflexivity. Qed.
