(* ===== verification/Header.v ===== *)
(** Model of the message level of alljoyn_core/src/Message_Parse.cc: the fixed
    header and the buffer ([InterpretHeader], [LoadBytes]), the header fields
    ([Unmarshal] up to the handle count), [HeaderChecks] with [PedanticCheck],
    and [UnmarshalArgs] for messages that are not encrypted.

    The host is little-endian. *)
From S2P Require Import Prelude Types SignatureUtils SigMachine SigGrammar SigBuild Marshal Unmarshal BusUtil.

(** * The fixed header and the message buffer *)

Record MessageHeader := {
  endian : Z;
  msgType : Z;
  flags : Z;
  majorVersion : Z;
  bodyLen : Z;
  serialNum : Z;
  headerLen : Z
}.

Definition ALLJOYN_LITTLE_ENDIAN : Z := 108.
Definition ALLJOYN_BIG_ENDIAN : Z := 66.
Definition myEndian : Z := ALLJOYN_LITTLE_ENDIAN.
Definition MAX_HEADER_LEN : Z := 1024 * 64.
Definition HDR : nat := 16.

Definition u32 (x : Z) : Z := x mod 2 ^ 32.

(** The structure as it lies in memory, and back. *)
Definition hdr_of_bytes (b : list Z) : MessageHeader :=
  {| endian := nth 0 b 0; msgType := nth 1 b 0; flags := nth 2 b 0; majorVersion := nth 3 b 0;
     bodyLen := le_val (take 4 (drop 4 b)); serialNum := le_val (take 4 (drop 8 b));
     headerLen := le_val (take 4 (drop 12 b)) |}.

Definition hdr_to_bytes (h : MessageHeader) : list Z :=
  [endian h; msgType h; flags h; majorVersion h] ++
  le_bytes 4 (bodyLen h) ++ le_bytes 4 (serialNum h) ++ le_bytes 4 (headerLen h).

Definition hdr_swap (h : MessageHeader) : MessageHeader :=
  {| endian := endian h; msgType := msgType h; flags := flags h; majorVersion := majorVersion h;
     bodyLen := EndianSwap 4 (bodyLen h); serialNum := EndianSwap 4 (serialNum h);
     headerLen := EndianSwap 4 (headerLen h) |}.

Record Loaded := {
  l_hdr : MessageHeader;
  l_swap : bool;
  l_pktSize : Z;
  l_bufSize : Z;
  l_buf : list Z       (* the [l_bufSize] bytes at [msgBuf] *)
}.

(** [bufEOD] as an offset in [msgBuf]. *)
Definition l_end (m : Loaded) : Z := Z.of_nat HDR + l_pktSize m.

Section load.
(** What freshly allocated memory of some size holds. *)
Context (fresh : Z -> list Z).

Definition InterpretHeader (hdr16 : list Z) : res Loaded :=
  let h0 := hdr_of_bytes hdr16 in
  let endianSwap := negb (endian h0 =? myEndian) in
  if endianSwap && negb (endian h0 =? ALLJOYN_LITTLE_ENDIAN) && negb (endian h0 =? ALLJOYN_BIG_ENDIAN)
  then Fail ER_BUS_BAD_HEADER_FIELD
  else
    let h := if endianSwap then hdr_swap h0 else h0 in
    if headerLen h >? MAX_HEADER_LEN then Fail ER_BUS_BAD_HEADER_LEN
    else
      let pktSize := u32 (Z.land (u32 (headerLen h + 7)) (Z.lnot 7) + bodyLen h) in
      if (pktSize >? ALLJOYN_MAX_PACKET_LEN) || (bodyLen h >? ALLJOYN_MAX_PACKET_LEN)
      then Fail ER_BUS_BAD_BODY_LEN
      else
        let bufSize := Z.of_nat HDR + Z.land (pktSize + 7) (Z.lnot 7) + 8 in
        let restored := if endianSwap then hdr_swap h else h in
        let pad := bufSize - (Z.of_nat HDR + pktSize) in
        Ok {| l_hdr := h; l_swap := endianSwap; l_pktSize := pktSize; l_bufSize := bufSize;
              l_buf := hdr_to_bytes restored ++ fresh pktSize ++ replicate (Z.to_nat pad) 0 |}.

(** [memcpy] of [src] to offset [p] of the buffer. *)
Definition memcpy (buf : list Z) (p : Z) (src : list Z) : res (list Z) :=
  if bool_decide (0 <= p /\ p + zlen src <= zlen buf)
  then Ok (take (Z.to_nat p) buf ++ src ++ drop (Z.to_nat p + length src) buf)
  else Undef.

(** The whole of the caller's [buflen] bytes is copied behind the header. *)
Definition LoadBytes (bytes : list Z) : res Loaded :=
  let! hdr16 := rd bytes 0 HDR in
  let! m := InterpretHeader hdr16 in
  let! buf := memcpy (l_buf m) (Z.of_nat HDR) (drop HDR bytes) in
  Ok {| l_hdr := l_hdr m; l_swap := l_swap m; l_pktSize := l_pktSize m;
        l_bufSize := l_bufSize m; l_buf := buf |}.
End load.

(** * Header fields *)

Inductive AllJoynFieldType : Type :=
| ALLJOYN_HDR_FIELD_INVALID
| ALLJOYN_HDR_FIELD_PATH
| ALLJOYN_HDR_FIELD_INTERFACE
| ALLJOYN_HDR_FIELD_MEMBER
| ALLJOYN_HDR_FIELD_ERROR_NAME
| ALLJOYN_HDR_FIELD_REPLY_SERIAL
| ALLJOYN_HDR_FIELD_DESTINATION
| ALLJOYN_HDR_FIELD_SENDER
| ALLJOYN_HDR_FIELD_SIGNATURE
| ALLJOYN_HDR_FIELD_HANDLES
| ALLJOYN_HDR_FIELD_TIMESTAMP
| ALLJOYN_HDR_FIELD_TIME_TO_LIVE
| ALLJOYN_HDR_FIELD_COMPRESSION_TOKEN
| ALLJOYN_HDR_FIELD_SESSION_ID
| ALLJOYN_HDR_FIELD_UNKNOWN.

#[export] Instance AllJoynFieldType_eq_dec : EqDecision AllJoynFieldType.
Proof. solve_decision. Defined.

Definition FieldTypeMapping : list AllJoynFieldType :=
  [ALLJOYN_HDR_FIELD_INVALID; ALLJOYN_HDR_FIELD_PATH; ALLJOYN_HDR_FIELD_INTERFACE;
   ALLJOYN_HDR_FIELD_MEMBER; ALLJOYN_HDR_FIELD_ERROR_NAME; ALLJOYN_HDR_FIELD_REPLY_SERIAL;
   ALLJOYN_HDR_FIELD_DESTINATION; ALLJOYN_HDR_FIELD_SENDER; ALLJOYN_HDR_FIELD_SIGNATURE;
   ALLJOYN_HDR_FIELD_HANDLES; ALLJOYN_HDR_FIELD_UNKNOWN; ALLJOYN_HDR_FIELD_UNKNOWN;
   ALLJOYN_HDR_FIELD_UNKNOWN; ALLJOYN_HDR_FIELD_UNKNOWN; ALLJOYN_HDR_FIELD_UNKNOWN;
   ALLJOYN_HDR_FIELD_UNKNOWN; ALLJOYN_HDR_FIELD_TIMESTAMP; ALLJOYN_HDR_FIELD_TIME_TO_LIVE;
   ALLJOYN_HDR_FIELD_COMPRESSION_TOKEN; ALLJOYN_HDR_FIELD_SESSION_ID; ALLJOYN_HDR_FIELD_UNKNOWN].

(** [HeaderFields::FieldType] (Message.cc) *)
Definition FieldType (f : AllJoynFieldType) : AllJoynTypeId :=
  match f with
  | ALLJOYN_HDR_FIELD_PATH => ALLJOYN_OBJECT_PATH
  | ALLJOYN_HDR_FIELD_INTERFACE | ALLJOYN_HDR_FIELD_MEMBER | ALLJOYN_HDR_FIELD_ERROR_NAME
  | ALLJOYN_HDR_FIELD_DESTINATION | ALLJOYN_HDR_FIELD_SENDER => ALLJOYN_STRING
  | ALLJOYN_HDR_FIELD_SIGNATURE => ALLJOYN_SIGNATURE
  | ALLJOYN_HDR_FIELD_REPLY_SERIAL | ALLJOYN_HDR_FIELD_HANDLES | ALLJOYN_HDR_FIELD_TIMESTAMP
  | ALLJOYN_HDR_FIELD_COMPRESSION_TOKEN | ALLJOYN_HDR_FIELD_SESSION_ID => ALLJOYN_UINT32
  | ALLJOYN_HDR_FIELD_TIME_TO_LIVE => ALLJOYN_UINT16
  | ALLJOYN_HDR_FIELD_INVALID | ALLJOYN_HDR_FIELD_UNKNOWN => ALLJOYN_INVALID
  end.

(** The enumerator's value. *)
Definition field_index (f : AllJoynFieldType) : nat :=
  match f with
  | ALLJOYN_HDR_FIELD_INVALID => 0
  | ALLJOYN_HDR_FIELD_PATH => 1
  | ALLJOYN_HDR_FIELD_INTERFACE => 2
  | ALLJOYN_HDR_FIELD_MEMBER => 3
  | ALLJOYN_HDR_FIELD_ERROR_NAME => 4
  | ALLJOYN_HDR_FIELD_REPLY_SERIAL => 5
  | ALLJOYN_HDR_FIELD_DESTINATION => 6
  | ALLJOYN_HDR_FIELD_SENDER => 7
  | ALLJOYN_HDR_FIELD_SIGNATURE => 8
  | ALLJOYN_HDR_FIELD_HANDLES => 9
  | ALLJOYN_HDR_FIELD_TIMESTAMP => 10
  | ALLJOYN_HDR_FIELD_TIME_TO_LIVE => 11
  | ALLJOYN_HDR_FIELD_COMPRESSION_TOKEN => 12
  | ALLJOYN_HDR_FIELD_SESSION_ID => 13
  | ALLJOYN_HDR_FIELD_UNKNOWN => 14
  end.

(** [hdrFields.field[]]: an argument for every field, invalid when absent. *)
Abbreviation HeaderFields := (list MsgArg).

Definition no_fields : HeaderFields := replicate 14 A_INVALID.

Definition field (fs : HeaderFields) (f : AllJoynFieldType) : MsgArg := nth (field_index f) fs A_INVALID.

Definition set_field (fs : HeaderFields) (f : AllJoynFieldType) (a : MsgArg) : HeaderFields :=
  <[field_index f := a]> fs.

Definition present (fs : HeaderFields) (f : AllJoynFieldType) : bool :=
  negb (bool_decide (typeId (field fs f) = ALLJOYN_INVALID)).

(** The number of handles the header announces. *)
Definition hdr_handles (fs : HeaderFields) : Z :=
  match field fs ALLJOYN_HDR_FIELD_HANDLES with A_32 _ v => v | _ => 0 end.

(** When an unknown field cannot be parsed, the status depends on the character
    at which the parser left [sigPtr]: it is that of the parser, or
    ER_BUS_BAD_HEADER_FIELD. *)
Inductive field_error : Type :=
| Status (s : QStatus)
| Status_or_bad_field (s : QStatus).

Definition fres := (result field_error).

Definition with_error {A} (e : QStatus -> field_error) (r : res A) : fres A :=
  match r with Ok a => Ok a | Fail s => Fail (e s) | Undef => Undef end.

Inductive field_outcome : Type :=
| Next (fs : HeaderFields) (pos : Z)     (* the loop goes on *)
| Stop (fs : HeaderFields) (pos : Z).    (* break *)

Section fields.
Context (m : Loaded) (handles : list Z).

Abbreviation byte_at p := (with_error Status (rd_uint (l_buf m) (l_swap m) 1 p)).

(** The body of [while (bufPos < endOfHdr)]. *)
Definition parse_field (endOfHdr : Z) (fs : HeaderFields) (pos : Z) : fres field_outcome :=
  let pos := AlignPtr pos 8 in
  let! b := byte_at pos in
  let fieldId := nth (Z.to_nat b) FieldTypeMapping ALLJOYN_HDR_FIELD_UNKNOWN in
  let pos := pos + 1 in
  if pos >? endOfHdr then Ok (Stop fs pos)
  else if bool_decide (fieldId = ALLJOYN_HDR_FIELD_INVALID) then Fail (Status ER_BUS_BAD_HEADER_FIELD)
  else
    let! sigLen := byte_at pos in
    let sigPtr := pos + 1 in
    let pos := sigPtr + (1 + sigLen) in
    if pos >? endOfHdr then Ok (Stop fs pos)
    else
      let parse sig :=
        ParseValue (l_buf m) (l_end m) (l_swap m) handles (hdr_handles fs)
          (pv_fuel (l_end m) sig pos) false sig pos in
      if bool_decide (fieldId = ALLJOYN_HDR_FIELD_UNKNOWN) then
        let! sig := with_error Status (c_str_at (l_buf m) sigPtr) in
        let! (_, rest, pos) := with_error Status_or_bad_field (parse sig) in
        if bool_decide (rest = []) then Ok (Next fs pos) else Fail (Status ER_BUS_BAD_HEADER_FIELD)
      else if negb (sigLen =? 1) then Fail (Status ER_BUS_BAD_HEADER_FIELD)
      else
        let! c0 := byte_at sigPtr in
        let! c1 := byte_at (sigPtr + 1) in
        if negb (c0 =? typeId_val (FieldType fieldId)) || negb (c1 =? 0)
        then Fail (Status ER_BUS_BAD_HEADER_FIELD)
        else let! (a, _, pos) := with_error Status (parse [c0]) in
             Ok (Next (set_field fs fieldId a) pos).

Fixpoint field_loop (fuel : nat) (endOfHdr : Z) (fs : HeaderFields) (pos : Z) : fres (HeaderFields * Z) :=
  if pos <? endOfHdr then
    match fuel with
    | O => Undef
    | S fuel =>
        let! o := parse_field endOfHdr fs pos in
        match o with
        | Next fs pos => field_loop fuel endOfHdr fs pos
        | Stop fs pos => Ok (fs, pos)
        end
    end
  else Ok (fs, pos).
End fields.

(** * Header checks *)

Definition MESSAGE_METHOD_CALL : Z := 1.
Definition MESSAGE_METHOD_RET : Z := 2.
Definition MESSAGE_ERROR : Z := 3.
Definition MESSAGE_SIGNAL : Z := 4.
Definition ALLJOYN_MAX_NAME_LEN : Z := 255.

(** The C string a [char*] points at: the characters before the first NUL. *)
Fixpoint until_nul (s : list Z) : list Z :=
  match s with
  | [] => []
  | c :: s => if c =? 0 then [] else c :: until_nul s
  end.

Definition PedanticCheck (fld : MsgArg) (fieldId : AllJoynFieldType) : QStatus :=
  match fld with
  | A_STRING TY_STRING len str =>
      let check (legal : option (list Z) -> bool) (bad : QStatus) :=
        if len >? ALLJOYN_MAX_NAME_LEN then ER_BUS_NAME_TOO_LONG
        else if negb (legal (until_nul <$> str)) then bad else ER_OK in
      match fieldId with
      | ALLJOYN_HDR_FIELD_PATH => check IsLegalObjectPath ER_BUS_BAD_OBJ_PATH
      | ALLJOYN_HDR_FIELD_INTERFACE => check IsLegalInterfaceName ER_BUS_BAD_INTERFACE_NAME
      | ALLJOYN_HDR_FIELD_MEMBER => check IsLegalMemberName ER_BUS_BAD_MEMBER_NAME
      | ALLJOYN_HDR_FIELD_ERROR_NAME => check IsLegalInterfaceName ER_BUS_BAD_ERROR_NAME
      | ALLJOYN_HDR_FIELD_SENDER | ALLJOYN_HDR_FIELD_DESTINATION => check IsLegalBusName ER_BUS_BAD_BUS_NAME
      | _ => ER_OK
      end
  | _ => ER_OK
  end.

(** The fields the loop of [HeaderChecks] visits, in order. *)
Definition checked_fields : list AllJoynFieldType :=
  [ALLJOYN_HDR_FIELD_PATH; ALLJOYN_HDR_FIELD_INTERFACE; ALLJOYN_HDR_FIELD_MEMBER;
   ALLJOYN_HDR_FIELD_ERROR_NAME; ALLJOYN_HDR_FIELD_REPLY_SERIAL; ALLJOYN_HDR_FIELD_DESTINATION;
   ALLJOYN_HDR_FIELD_SENDER; ALLJOYN_HDR_FIELD_SIGNATURE; ALLJOYN_HDR_FIELD_HANDLES;
   ALLJOYN_HDR_FIELD_TIMESTAMP; ALLJOYN_HDR_FIELD_TIME_TO_LIVE;
   ALLJOYN_HDR_FIELD_COMPRESSION_TOKEN; ALLJOYN_HDR_FIELD_SESSION_ID].

Definition HeaderChecks (msgType : Z) (fs : HeaderFields) (pedantic : bool) : QStatus :=
  let missing (l : list (AllJoynFieldType * QStatus)) : QStatus :=
    fold_right (fun fe s => if present fs fe.1 then s else fe.2) ER_OK l in
  let status :=
    if msgType =? MESSAGE_SIGNAL then
      missing [(ALLJOYN_HDR_FIELD_INTERFACE, ER_BUS_INTERFACE_MISSING);
               (ALLJOYN_HDR_FIELD_PATH, ER_BUS_PATH_MISSING);
               (ALLJOYN_HDR_FIELD_MEMBER, ER_BUS_MEMBER_MISSING)]
    else if msgType =? MESSAGE_METHOD_CALL then
      missing [(ALLJOYN_HDR_FIELD_PATH, ER_BUS_PATH_MISSING);
               (ALLJOYN_HDR_FIELD_MEMBER, ER_BUS_MEMBER_MISSING)]
    else if msgType =? MESSAGE_ERROR then
      missing [(ALLJOYN_HDR_FIELD_ERROR_NAME, ER_BUS_ERROR_NAME_MISSING);
               (ALLJOYN_HDR_FIELD_REPLY_SERIAL, ER_BUS_REPLY_SERIAL_MISSING)]
    else if msgType =? MESSAGE_METHOD_RET then
      missing [(ALLJOYN_HDR_FIELD_REPLY_SERIAL, ER_BUS_REPLY_SERIAL_MISSING)]
    else ER_OK in
  if bool_decide (status = ER_OK) && pedantic
  then fold_left (fun _ f => PedanticCheck (field fs f) f) checked_fields status
  else status.

(** * Unmarshal, up to the check of the handles *)

Definition check_handles (handlePassing : bool) (fs : HeaderFields) (numHandles : Z) : QStatus :=
  let expectFds := hdr_handles fs in
  if negb handlePassing then
    if negb (expectFds =? 0) || negb (numHandles =? 0) then ER_BUS_HANDLES_NOT_ENABLED else ER_OK
  else if negb (expectFds =? numHandles) then ER_BUS_HANDLES_MISMATCH else ER_OK.

(** The fields and [bodyPtr]. *)
Definition UnmarshalHeader (m : Loaded) (handles : list Z) (handlePassing pedantic : bool)
  : fres (HeaderFields * Z) :=
  let endOfHdr := Z.of_nat HDR + headerLen (l_hdr m) in
  let! (fs, pos) :=
    field_loop m handles (Z.to_nat (headerLen (l_hdr m))) endOfHdr no_fields (Z.of_nat HDR) in
  if negb (pos =? endOfHdr) then Fail (Status ER_BUS_BAD_HEADER_LEN)
  else
    let status := HeaderChecks (msgType (l_hdr m)) fs pedantic in
    let status := if bool_decide (status = ER_OK) then check_handles handlePassing fs (zlen handles)
                  else status in
    if bool_decide (status = ER_OK) then Ok (fs, AlignPtr pos 8) else Fail (Status status).

(** * UnmarshalArgs *)

Definition GetSignature (fs : HeaderFields) : list Z :=
  match field fs ALLJOYN_HDR_FIELD_SIGNATURE with
  | A_SIGNATURE _ (Some s) => until_nul s
  | _ => []
  end.

Definition WildCardSignature : list Z := [42].

Section args.
Context (m : Loaded) (handles : list Z) (fs : HeaderFields).

(** The loop over the [n] arguments. *)
Fixpoint arg_loop (n : nat) (sig : list Z) (pos : Z) : res (list MsgArg * Z) :=
  match n with
  | O => Ok ([], pos)
  | S n =>
      let! (a, sig, pos) :=
        ParseValue (l_buf m) (l_end m) (l_swap m) handles (hdr_handles fs)
          (pv_fuel (l_end m) sig pos) false sig pos in
      let! (l, pos) := arg_loop n sig pos in
      Ok (a :: l, pos)
  end.

(** A message with [msgArgs] not yet set and ALLJOYN_FLAG_ENCRYPTED clear. *)
Definition UnmarshalArgs (bodyPtr : Z) (expectedSignature : list Z) : res (list MsgArg) :=
  let sig := GetSignature fs in
  if msgType (l_hdr m) =? 0 then Fail ER_FAIL
  else if negb (bool_decide (expectedSignature = sig)) && negb (bool_decide (expectedSignature = WildCardSignature))
  then Fail ER_BUS_SIGNATURE_MISMATCH
  else if (bodyLen (l_hdr m) =? 0) &&
          (negb (bool_decide (sig = [])) ||
           (negb (bool_decide (expectedSignature = [])) && negb (bool_decide (expectedSignature = WildCardSignature))))
  then Fail ER_BUS_BAD_BODY_LEN
  else
    let! n := CountCompleteTypes (Some sig) in
    let! (args, pos) := arg_loop (Z.to_nat n) sig bodyPtr in
    if negb (pos - bodyPtr =? bodyLen (l_hdr m)) then Fail ER_BUS_BAD_SIGNATURE else Ok args.
End args.
