(* ===== verification/HeaderProofs.v ===== *)
(** The message level: the buffer [InterpretHeader] allocates is large enough
    for everything the parser reads, and what happens when [LoadBytes] or the
    handle count break its assumptions. *)
From stdpp Require Import relations.
From S2P Require Import Prelude Types SignatureUtils SigMachine SigGrammar SigBuild Marshal Typed MarshalProofs Unmarshal UnmarshalSafe Roundtrip UnmarshalSig BusUtil Header.

(** * The buffer *)

Record loaded_ok (m : Loaded) : Prop := {
  lo_bytes : Forall is_byte (l_buf m);
  lo_room : AlignPtr (l_end m) 8 + 8 <= zlen (l_buf m);
  lo_nul : l_buf m !! Z.to_nat (l_end m) = Some 0;
  lo_end : l_end m = 16 + AlignPtr (headerLen (l_hdr m)) 8 + bodyLen (l_hdr m);
  lo_headerLen : 0 <= headerLen (l_hdr m) <= MAX_HEADER_LEN;
  lo_bodyLen : 0 <= bodyLen (l_hdr m) <= ALLJOYN_MAX_PACKET_LEN
}.

Lemma EndianSwap_bound n v : u_ok n (EndianSwap n v).
Proof.
  unfold EndianSwap. pose proof (le_val_bound (rev (le_bytes n v))) as H.
  rewrite length_rev, length_le_bytes in H. apply H. apply Forall_rev, le_bytes_bytes.
Qed.

Lemma EndianSwap_involutive n v : u_ok n v -> EndianSwap n (EndianSwap n v) = v.
Proof.
  intros Hv. unfold EndianSwap at 1. unfold EndianSwap.
  assert (le_bytes n (le_val (rev (le_bytes n v))) = rev (le_bytes n v)) as ->.
  { pose proof (le_bytes_le_val (rev (le_bytes n v))) as H. rewrite length_rev, length_le_bytes in H.
    apply H, Forall_rev, le_bytes_bytes. }
  rewrite rev_involutive. by apply le_val_le_bytes.
Qed.

Lemma hdr_swap_involutive h :
  u_ok 4 (bodyLen h) -> u_ok 4 (serialNum h) -> u_ok 4 (headerLen h) -> hdr_swap (hdr_swap h) = h.
Proof.
  intros. destruct h as [en ty fl ma bo se he]. unfold hdr_swap. cbn [endian msgType flags majorVersion bodyLen serialNum headerLen] in *. by rewrite !EndianSwap_involutive.
Qed.

Lemma field_u32 (b : list Z) k : length b = HDR -> Forall is_byte b -> (k + 4 <= HDR)%nat ->
  u_ok 4 (le_val (take 4 (drop k b))) /\
  le_bytes 4 (le_val (take 4 (drop k b))) = take 4 (drop k b).
Proof.
  intros Hl Hb Hk.
  assert (length (take 4 (drop k b)) = 4%nat) as H4 by (rewrite length_take, length_drop; lia).
  assert (Forall is_byte (take 4 (drop k b))) as Hf by (by apply Forall_take, Forall_drop).
  pose proof (le_val_bound _ Hf) as Hv. pose proof (le_bytes_le_val _ Hf) as He. by rewrite H4 in *.
Qed.

(** The buffered header holds the bytes that were received. *)
Lemma hdr_bytes_roundtrip b : length b = HDR -> Forall is_byte b -> hdr_to_bytes (hdr_of_bytes b) = b.
Proof.
  intros Hl Hb. unfold hdr_to_bytes, hdr_of_bytes. cbn [endian msgType flags majorVersion bodyLen serialNum headerLen].
  rewrite (proj2 (field_u32 b 4 Hl Hb ltac:(unfold HDR; lia))),
    (proj2 (field_u32 b 8 Hl Hb ltac:(unfold HDR; lia))),
    (proj2 (field_u32 b 12 Hl Hb ltac:(unfold HDR; lia))).
  do 16 (destruct b as [|? b]; [done|]). by destruct b.
Qed.

Lemma land_PadUp x : Z.land (x + 7) (Z.lnot 7) = AlignPtr x 8.
Proof. rewrite <- PadUp_AlignPtr by done. unfold PadUp. f_equal. lia. Qed.

Lemma AlignPtr_plus16 x : AlignPtr (16 + x) 8 = 16 + AlignPtr x 8.
Proof.
  unfold AlignPtr. rewrite !PadBytes_mod by done.
  replace (- (16 + x)) with (- x + -2 * 8) by lia. rewrite Z.mod_add by lia. lia.
Qed.

Section interpret.
Context (fresh : Z -> list Z).
Hypothesis fresh_bytes : forall n, Forall is_byte (fresh n).
Hypothesis fresh_size : forall n, 0 <= n -> zlen (fresh n) = n.

Lemma InterpretHeader_ok hdr16 :
  length hdr16 = HDR -> Forall is_byte hdr16 ->
  match InterpretHeader fresh hdr16 with
  | Ok m => loaded_ok m /\ zlen (l_buf m) = l_bufSize m /\ 0 <= l_pktSize m /\
            exists pad, l_buf m = hdr16 ++ fresh (l_pktSize m) ++ replicate pad 0 /\ (8 <= pad)%nat
  | Fail s => s = ER_BUS_BAD_HEADER_FIELD \/ s = ER_BUS_BAD_HEADER_LEN \/ s = ER_BUS_BAD_BODY_LEN
  | Undef => False
  end.
Proof.
  intros Hl Hb. unfold InterpretHeader. destruct (_ && _ && _); [by left|].
  set (sw := negb _). set (h0 := hdr_of_bytes hdr16). set (h := if sw then hdr_swap h0 else h0).
  assert (u_ok 4 (bodyLen h0) /\ u_ok 4 (serialNum h0) /\ u_ok 4 (headerLen h0)) as (Hb0 & Hs0 & Hh0).
  { unfold h0. cbn [bodyLen serialNum headerLen hdr_of_bytes].
    split_and!; apply field_u32; (done || unfold HDR; lia). }
  assert (u_ok 4 (bodyLen h) /\ u_ok 4 (headerLen h)) as [Hbo Hhe].
  { unfold h. destruct sw; [|done]. cbn [bodyLen headerLen hdr_swap]. split; apply EndianSwap_bound. }
  assert ((if sw then hdr_swap h else h) = h0) as Hrest.
  { unfold h. destruct sw; [|done]. by apply hdr_swap_involutive. }
  assert (hdr_to_bytes h0 = hdr16) as H16 by (by apply hdr_bytes_roundtrip).
  rewrite Hrest, H16. clear Hrest Hb0 Hs0 Hh0.
  unfold u_ok in Hbo, Hhe. simpl in Hbo, Hhe.
  destruct (Z.gtb_spec (headerLen h) MAX_HEADER_LEN) as [|Hmax]; [by right; left|].
  destruct (_ || _) eqn:Hpk; [by right; right|]. apply orb_false_iff in Hpk as [_ Hbm].
  rewrite Z.gtb_ltb, Z.ltb_ge in Hbm.
  assert (u32 (Z.land (u32 (headerLen h + 7)) (Z.lnot 7) + bodyLen h)
          = AlignPtr (headerLen h) 8 + bodyLen h) as ->.
  { unfold u32, MAX_HEADER_LEN, ALLJOYN_MAX_PACKET_LEN, ALLJOYN_MAX_ARRAY_LEN in *.
    rewrite (Z.mod_small (headerLen h + 7)) by lia. rewrite land_PadUp.
    pose proof (AlignPtr_bound (headerLen h) 8 align8). apply Z.mod_small. lia. }
  set (pk := AlignPtr (headerLen h) 8 + bodyLen h).
  pose proof (AlignPtr_bound (headerLen h) 8 align8). assert (0 <= pk) as Hpk0 by (unfold pk; lia).
  rewrite land_PadUp. pose proof (AlignPtr_bound pk 8 align8) as Hpad. unfold HDR in *.
  set (padn := Z.to_nat _). assert (Z.of_nat padn = AlignPtr pk 8 - pk + 8) as Hpn by (unfold padn; lia).
  assert (zlen (hdr16 ++ fresh pk ++ replicate padn 0) = 16 + AlignPtr pk 8 + 8) as Hlen.
  { rewrite !zlen_app, Hl, fresh_size, length_replicate by done. lia. }
  cbn [l_buf l_bufSize l_pktSize l_hdr]. split_and!; [|exact Hlen|done|exists padn; split; [done|lia]].
  assert (l_end {| l_hdr := h; l_swap := sw; l_pktSize := pk; l_bufSize := Z.of_nat 16 + AlignPtr pk 8 + 8;
      l_buf := hdr16 ++ fresh pk ++ replicate padn 0 |} = 16 + pk) as He by done.
  constructor; rewrite ?He; cbn [l_buf l_hdr].
  - rewrite !Forall_app. split_and!; [done|apply fresh_bytes|]. by apply Forall_replicate.
  - rewrite AlignPtr_plus16, Hlen. lia.
  - rewrite app_assoc, lookup_app_r by (rewrite length_app; pose proof (fresh_size pk Hpk0); lia).
    apply lookup_replicate_2. rewrite length_app. pose proof (fresh_size pk Hpk0). lia.
  - unfold pk. lia.
  - unfold MAX_HEADER_LEN in *. lia.
  - lia.
Qed.

(** Replacing the data leaves the layout alone. *)
Lemma loaded_ok_data m pre data pad :
  loaded_ok m -> l_buf m = pre ++ fresh (l_pktSize m) ++ replicate pad 0 -> length pre = HDR ->
  0 <= l_pktSize m -> Forall is_byte data -> zlen data = l_pktSize m ->
  loaded_ok {| l_hdr := l_hdr m; l_swap := l_swap m; l_pktSize := l_pktSize m;
               l_bufSize := l_bufSize m; l_buf := pre ++ data ++ replicate pad 0 |}.
Proof.
  intros [H1 H2 H3 H4 H5 H6] Hbuf Hpre Hpk Hd Hdl. unfold l_end in *.
  assert (length data = length (fresh (l_pktSize m))) as Hlen
    by (pose proof (fresh_size _ Hpk); lia).
  rewrite Hbuf in H1, H2, H3. constructor; unfold l_end; cbn [l_buf l_hdr l_pktSize]; try done.
  - rewrite !Forall_app in *. naive_solver.
  - by rewrite !length_app, Hlen in *.
  - unfold HDR in *. rewrite !lookup_app_r in * by (rewrite ?length_app; lia).
    by rewrite Hlen.
Qed.

Lemma LoadBytes_exact bytes m :
  Forall is_byte bytes -> rd (E:=QStatus) bytes 0 HDR = Ok (take HDR bytes) ->
  InterpretHeader fresh (take HDR bytes) = Ok m -> zlen bytes = 16 + l_pktSize m ->
  exists m', LoadBytes fresh bytes = Ok m' /\ loaded_ok m' /\ l_hdr m' = l_hdr m /\
    l_swap m' = l_swap m /\ l_end m' = zlen bytes /\ has_at (l_buf m') 0 bytes.
Proof.
  intros Hb Hrd Hi Hl. unfold LoadBytes. rewrite Hrd. cbn [rbind]. rewrite Hi. cbn [rbind].
  pose proof (InterpretHeader_ok (take HDR bytes)) as H. rewrite Hi in H.
  assert (length (take HDR bytes) = HDR) as H16
    by (apply rd_Ok in Hrd as (_ & _ & Hd); done).
  destruct H as (Hok & Hsz & Hpk & pad & Hbuf & Hpad); [done|by apply Forall_take|].
  assert (length (drop HDR bytes) = length (fresh (l_pktSize m))) as Hdl
    by (pose proof (fresh_size _ Hpk); rewrite length_drop; unfold HDR in *; lia).
  unfold memcpy. rewrite Hbuf.
  rewrite bool_decide_true by (rewrite !length_app, H16, Hdl; unfold HDR; lia). cbn [rbind].
  rewrite Nat2Z.id, take_app_length' by done.
  rewrite (app_assoc (take HDR bytes) (fresh _)), drop_app_length' by (rewrite length_app; lia).
  eexists. split; [reflexivity|]. split_and!.
  - eapply loaded_ok_data; [done..|by apply Forall_drop|]. rewrite length_drop. unfold HDR in *. lia.
  - done.
  - done.
  - unfold l_end, HDR. cbn [l_pktSize]. lia.
  - cbn [l_buf]. rewrite app_assoc, take_drop.
    apply (has_at_whole [] bytes).
Qed.
End interpret.

(** a packet whose length agrees with its header is loaded into a buffer with
    room for everything the parser may read: the data, and eight bytes after the
    next multiple of eight. The computation of the size cannot wrap around. *)
Theorem LoadBytes_layout (fresh : Z -> list Z) (bytes : list Z) :
  (forall n, Forall is_byte (fresh n)) -> (forall n, 0 <= n -> zlen (fresh n) = n) ->
  Forall is_byte bytes -> (HDR <= length bytes)%nat ->
  match InterpretHeader fresh (take HDR bytes) with
  | Ok m =>
      l_pktSize m = AlignPtr (headerLen (l_hdr m)) 8 + bodyLen (l_hdr m) /\
      (zlen bytes = 16 + l_pktSize m ->
       exists m', LoadBytes fresh bytes = Ok m' /\ loaded_ok m' /\ has_at (l_buf m') 0 bytes)
  | Fail s => LoadBytes fresh bytes = Fail s
  | Undef => False
  end.
Proof.
  intros Hf1 Hf2 Hb Hl.
  assert (rd (E:=QStatus) bytes 0 HDR = Ok (take HDR bytes)) as Hrd.
  { unfold rd. by rewrite bool_decide_true by lia. }
  pose proof (InterpretHeader_ok fresh Hf1 Hf2 (take HDR bytes)) as H.
  destruct (InterpretHeader fresh (take HDR bytes)) as [m|s|] eqn:Hi.
  - destruct H as ([] & _ & _ & _); [rewrite length_take; lia|by apply Forall_take|].
    split; [unfold l_end, HDR in *; lia|]. intros Hlen.
    destruct (LoadBytes_exact fresh Hf1 Hf2 bytes m) as (m' & ? & ? & _ & _ & _ & ?); [done..|]. eauto.
  - unfold LoadBytes. rewrite Hrd. cbn [rbind]. by rewrite Hi.
  - apply H; [rewrite length_take; lia|by apply Forall_take].
Qed.

Definition zeros (n : Z) : list Z := replicate (Z.to_nat n) 0.

Lemma zeros_bytes n : Forall is_byte (zeros n).
Proof. by apply Forall_replicate. Qed.
Lemma zeros_size n : 0 <= n -> zlen (zeros n) = n.
Proof. intros. unfold zeros. rewrite length_replicate. lia. Qed.

(** A little-endian header: message type 1, the given body and header length. *)
Definition sample_header (bodyLen headerLen : Z) : list Z :=
  [108; 1; 0; 1] ++ le_bytes 4 bodyLen ++ le_bytes 4 1 ++ le_bytes 4 headerLen.

Lemma LoadBytes_layout_witness :
  exists m, LoadBytes zeros (sample_header 3 5 ++ replicate 11 7) = Ok m /\ loaded_ok m /\
    has_at (l_buf m) 0 (sample_header 3 5 ++ replicate 11 7).
Proof.
  pose proof (LoadBytes_layout zeros (sample_header 3 5 ++ replicate 11 7) zeros_bytes zeros_size) as H.
  destruct H as [_ H].
  - apply (bool_decide_unpack _). vm_compute. exact I.
  - cbv; lia.
  - apply H. reflexivity.
Defined.

(** nothing compares the packet with the lengths in its header: every packet
    longer than the buffer that was sized from its header, such as 100 bytes with
    a header that announces an empty message, is copied over the end of it. *)
Theorem LoadBytes_overflow (fresh : Z -> list Z) (bytes : list Z) m :
  (forall n, Forall is_byte (fresh n)) -> (forall n, 0 <= n -> zlen (fresh n) = n) ->
  Forall is_byte bytes -> (HDR <= length bytes)%nat ->
  InterpretHeader fresh (take HDR bytes) = Ok m -> l_bufSize m < zlen bytes ->
  LoadBytes fresh bytes = Undef.
Proof.
  intros Hf1 Hf2 Hb Hl Hi Hlong. unfold LoadBytes, rd. rewrite bool_decide_true by lia.
  change (drop (Z.to_nat 0) bytes) with bytes. cbn [rbind]. rewrite Hi. cbn [rbind].
  pose proof (InterpretHeader_ok fresh Hf1 Hf2 (take HDR bytes)) as H. rewrite Hi in H.
  destruct H as (_ & Hs & _); [rewrite length_take; lia|by apply Forall_take|].
  unfold memcpy. rewrite bool_decide_false; [done|]. rewrite length_drop, Hs. lia.
Qed.

Lemma LoadBytes_overflow_witness : LoadBytes zeros (sample_header 0 0 ++ replicate 84 0) = Undef.
Proof.
  eapply (LoadBytes_overflow zeros (sample_header 0 0 ++ replicate 84 0) _ zeros_bytes zeros_size).
  - apply (bool_decide_unpack _). vm_compute. exact I.
  - apply (bool_decide_unpack _). vm_compute. exact I.
  - vm_compute. reflexivity.
  - vm_compute. reflexivity.
Defined.

(** * Header fields *)

Lemma with_error_step {A} e (r : res A) P : step r P -> step (with_error e r) P.
Proof. by destruct r. Qed.

Section field_safety.
Context (m : Loaded) (handles : list Z) (Hm : loaded_ok m).
Abbreviation endOfHdr := (Z.of_nat HDR + headerLen (l_hdr m)).

(** One turn of the loop that goes on. *)
Definition field_turn (st st' : HeaderFields * Z) : Prop :=
  st.2 < endOfHdr /\ parse_field m handles endOfHdr st.1 st.2 = Ok (Next st'.1 st'.2).

(** At no point does the header announce more handles than there are. *)
Definition handles_covered (fs : HeaderFields) (pos : Z) : Prop :=
  forall st, rtc field_turn (fs, pos) st -> hdr_handles st.1 <= zlen handles.

Lemma endOfHdr_le : endOfHdr <= l_end m.
Proof.
  destruct Hm. pose proof (AlignPtr_bound (headerLen (l_hdr m)) 8 align8). unfold HDR. lia.
Qed.

Lemma loaded_layout n : n <= zlen handles -> layout (l_buf m) (l_end m) handles n.
Proof.
  intros. destruct Hm. constructor; [done| |done|done].
  pose proof (AlignPtr_bound (headerLen (l_hdr m)) 8 align8). lia.
Qed.

Lemma parse_step n sig pos : n <= zlen handles -> 0 <= pos <= l_end m ->
  step (ParseValue (l_buf m) (l_end m) (l_swap m) handles n (pv_fuel (l_end m) sig pos) false sig pos)
    (advanced (l_end m) sig pos).
Proof.
  intros Hn Hp. pose proof (AlignPtr_bound (l_end m) 8 align8).
  apply ParseValue_step; [by apply loaded_layout|lia|done].
Qed.

Lemma byte_at_step p : 0 <= p <= l_end m ->
  step (with_error Status (rd_uint (l_buf m) (l_swap m) 1 p)) (fun v => 0 <= v).
Proof.
  intros Hp. destruct Hm. pose proof (AlignPtr_bound (l_end m) 8 align8).
  apply with_error_step. pose proof (loaded_layout 0 ltac:(lia)) as L.
  pose proof (rd_uint_step (l_buf m) (l_end m) (l_swap m) handles 0 L 1 p) as Hs.
  destruct (rd_uint _ _ 1 p); simpl in *; [|done|]; [apply (u_ok_nonneg 1), Hs; lia|apply Hs; lia].
Qed.

Lemma sig_at_step p : 0 <= p <= l_end m ->
  step (with_error Status (c_str_at (l_buf m) p)) (fun _ => True).
Proof.
  intros Hp. destruct Hm. pose proof (AlignPtr_bound (l_end m) 8 align8).
  apply with_error_step. unfold c_str_at. rewrite bool_decide_true by lia.
  pose proof (c_str_step (drop (Z.to_nat p) (l_buf m)) (Z.to_nat (l_end m - p))) as Hc.
  rewrite lookup_drop in Hc.
  replace (Z.to_nat p + Z.to_nat (l_end m - p))%nat with (Z.to_nat (l_end m)) in Hc by lia.
  specialize (Hc lo_nul0). by destruct (c_str _).
Qed.

Lemma parse_field_step fs pos :
  0 <= pos < endOfHdr -> hdr_handles fs <= zlen handles ->
  step (parse_field m handles endOfHdr fs pos)
    (fun o => match o with Next _ pos' => pos < pos' <= l_end m | Stop _ _ => True end).
Proof.
  intros Hp Hn. pose proof endOfHdr_le as He. unfold parse_field.
  assert (pos <= AlignPtr pos 8 <= l_end m) as Ha.
  { destruct Hm. pose proof (AlignPtr_bound pos 8 align8).
    pose proof (AlignPtr_bound (headerLen (l_hdr m)) 8 align8). unfold HDR in *.
    assert (AlignPtr pos 8 <= 16 + AlignPtr (headerLen (l_hdr m)) 8); [|lia].
    apply AlignPtr_le; [done|lia|].
    rewrite Z.add_mod, AlignPtr_multiple by (done || lia). done. }
  eapply step_bind; [apply byte_at_step; lia|]. intros b _. cbn beta.
  set (fieldId := nth _ _ _). destruct (Z.gtb_spec (AlignPtr pos 8 + 1) endOfHdr); [done|].
  case_bool_decide as Hinv; [done|].
  eapply step_bind; [apply byte_at_step; lia|]. intros sigLen Hs. cbn beta in Hs.
  set (sigPtr := AlignPtr pos 8 + 1 + 1). set (p := sigPtr + (1 + sigLen)).
  destruct (Z.gtb_spec p endOfHdr); [done|].
  case_bool_decide as Hunk.
  - eapply step_bind; [apply sig_at_step; lia|]. intros sig _.
    eapply step_bind; [apply with_error_step, parse_step; [done|lia]|].
    intros [[a rest] p'] [Hp' _]. simpl in Hp'. case_bool_decide; [simpl; lia|done].
  - destruct (negb (sigLen =? 1)) eqn:H1; [done|].
    eapply step_bind; [apply byte_at_step; lia|]. intros c0 _.
    eapply step_bind; [apply byte_at_step; lia|]. intros c1 _. destruct (_ || _); [done|].
    eapply step_bind; [apply with_error_step, parse_step; [done|lia]|].
    intros [[a rest] p'] [Hp' _]. simpl in *. lia.
Qed.

Lemma field_loop_step fuel : forall fs pos,
  0 <= pos -> endOfHdr - pos <= Z.of_nat fuel -> handles_covered fs pos ->
  step (field_loop m handles fuel endOfHdr fs pos) (fun _ => True).
Proof.
  induction fuel as [|fuel IH]; intros fs pos Hp Hf Hc; cbn [field_loop];
    (destruct (Z.ltb_spec pos endOfHdr); [|done]); [lia|].
  destruct (parse_field m handles endOfHdr fs pos) as [o| |] eqn:Ho; [|done|].
  - cbn [rbind]. destruct o as [fs' pos'|]; [|done].
    pose proof (parse_field_step fs pos ltac:(lia) (Hc _ (rtc_refl _ _))) as Hs. rewrite Ho in Hs.
    simpl in Hs. apply IH; [lia|lia|]. intros st Hst. apply Hc. eapply rtc_l; [|exact Hst]. split; [done|].
    exact Ho.
  - pose proof (parse_field_step fs pos ltac:(lia) (Hc _ (rtc_refl _ _))) as Hs. by rewrite Ho in Hs.
Qed.
End field_safety.

(** Running the loop over the fields decides whether the handles are covered. *)
Fixpoint covered_run (m : Loaded) (handles : list Z) (fuel : nat) (fs : HeaderFields) (pos : Z) : bool :=
  (hdr_handles fs <=? zlen handles) &&
  if pos <? Z.of_nat HDR + headerLen (l_hdr m) then
    match fuel with
    | O => false
    | S fuel =>
        match parse_field m handles (Z.of_nat HDR + headerLen (l_hdr m)) fs pos with
        | Ok (Next fs pos) => covered_run m handles fuel fs pos
        | _ => true
        end
    end
  else true.

Lemma covered_run_sound m handles fuel : forall fs pos,
  covered_run m handles fuel fs pos = true -> handles_covered m handles fs pos.
Proof.
  induction fuel as [|fuel IH]; intros fs pos; cbn [covered_run]; rewrite andb_true_iff; intros [Hle Hrun] st Hst;
    (inversion Hst as [|? [fs1 pos1] ? [Hlt Hf] Hst1]; subst; [simpl; lia|]);
    cbn [fst snd] in *; (destruct (Z.ltb_spec pos (Z.of_nat HDR + headerLen (l_hdr m))); [|lia]); [done|].
  rewrite Hf in Hrun. by apply (IH fs1 pos1).
Qed.

(** C6: whatever bytes a packet holds, reading its header fields neither leaves
    the buffer nor runs for ever, as long as the fields read so far never
    announce more handles than came with the packet. *)
Theorem UnmarshalHeader_safe (m : Loaded) handles handlePassing pedantic :
  loaded_ok m -> handles_covered m handles no_fields (Z.of_nat HDR) ->
  defined (UnmarshalHeader m handles handlePassing pedantic).
Proof.
  intros Hm Hc. unfold UnmarshalHeader.
  pose proof (field_loop_step m handles Hm (Z.to_nat (headerLen (l_hdr m))) no_fields (Z.of_nat HDR)
    ltac:(unfold HDR; lia) ltac:(destruct Hm; lia) Hc) as Hs.
  destruct (field_loop _ _ _ _ _ _) as [[fs pos]|e|]; [|done|done]. cbn [rbind].
  destruct (negb (pos =? _)); [done|]. by case_bool_decide; [case_bool_decide|case_bool_decide].
Qed.

(** A message with one header field, the path ["/"]. *)
Definition sample_message : Loaded :=
  {| l_hdr := hdr_of_bytes (sample_header 0 10); l_swap := false; l_pktSize := 16; l_bufSize := 40;
     l_buf := sample_header 0 10 ++ [1; 1; 111; 0; 1; 0; 0; 0; 47; 0] ++ replicate 14 0 |}.

Lemma sample_message_ok : loaded_ok sample_message.
Proof.
  constructor; try (vm_compute; first [reflexivity|split; discriminate|discriminate]).
  apply (bool_decide_unpack _). vm_compute. exact I.
Qed.

Lemma sample_message_covered : handles_covered sample_message [] no_fields (Z.of_nat HDR).
Proof. apply (covered_run_sound _ _ 10). vm_compute. reflexivity. Qed.

Lemma UnmarshalHeader_safe_witness : defined (UnmarshalHeader sample_message [] false true).
Proof. apply (UnmarshalHeader_safe _ _ _ _ sample_message_ok sample_message_covered). Defined.

(** A packet without handles: the field HANDLES announces five, an unknown
    field holds a value of type handle with index three. *)
Definition handle_message : Loaded :=
  {| l_hdr := hdr_of_bytes (sample_header 0 16); l_swap := false; l_pktSize := 16; l_bufSize := 40;
     l_buf := sample_header 0 16 ++ [9; 1; 117; 0; 5; 0; 0; 0; 20; 1; 104; 0; 3; 0; 0; 0] ++ replicate 8 0 |}.

(** The number of handles is only compared with those received after the
    loop over the header fields. A packet without handles can announce five and
    carry an unknown field of type handle: [handles[3]] is then read although
    [handles] is NULL. *)
Theorem UnmarshalHeader_bad_handle :
  LoadBytes zeros (take 32 (l_buf handle_message)) = Ok handle_message /\
  UnmarshalHeader handle_message [] false false = Undef /\
  UnmarshalHeader handle_message [] true true = Undef.
Proof. split_and!; vm_compute; reflexivity. Qed.

(** The pedantic loop overwrites its status at every field, and the last
    one it visits is always in order: [HeaderChecks] never rejects a message
    because of a malformed name, whatever its header fields hold. *)
Theorem HeaderChecks_pedantic_void (msgType : Z) (fs : HeaderFields) :
  HeaderChecks msgType fs true = HeaderChecks msgType fs false.
Proof.
  unfold HeaderChecks. cbv zeta. set (st := if msgType =? MESSAGE_SIGNAL then _ else _).
  rewrite andb_true_r, andb_false_r. case_bool_decide as H; [|done]. rewrite H.
  cbn [checked_fields fold_left]. unfold PedanticCheck.
  by destruct (field fs ALLJOYN_HDR_FIELD_SESSION_ID) as [| | | | | | |[]| | | | | | | | | | |].
Qed.

(** * The body *)

(** For any buffer laid out as by [InterpretHeader], any signature and any
    bytes, [ParseValue] stays inside the buffer and terminates within its fuel.
    When it succeeds it has advanced, not past the end of the data, and the value
    has the signature that was consumed, up to the end of the complete type. *)
Theorem ParseValue_safe buf bufEOD endianSwap handles num arrayElem sig pos :
  layout buf bufEOD handles num -> 0 <= pos <= AlignPtr bufEOD 8 ->
  match ParseValue buf bufEOD endianSwap handles num (pv_fuel bufEOD sig pos) arrayElem sig pos with
  | Ok (a, rest, pos') =>
      pos < pos' <= bufEOD /\ (length rest < length sig)%nat /\
      (zlen sig <= 256 -> ParseCompleteType sig = Ok rest /\ sig = sig_of a ++ rest /\ sig_ok a = true)
  | Fail _ => True
  | Undef => False
  end.
Proof.
  intros L Hp. pose proof (ParseValue_step buf bufEOD endianSwap handles num L
    (pv_fuel bufEOD sig pos) arrayElem sig pos Hp (Nat.le_refl _)) as Hs.
  pose proof (ParseValue_sig buf bufEOD endianSwap handles num (pv_fuel bufEOD sig pos)) as Hg.
  destruct (ParseValue _ _ _ _ _ _ _ _ _) as [[[a rest] pos']| |] eqn:Hv; [|done..].
  destruct Hs as [H1 H2]. split_and!; [apply H1|apply H1|done|]. intros Hl.
  destruct (Hg arrayElem sig pos a rest pos' ltac:(lia) Hv). done.
Qed.

Lemma ParseValue_safe_witness :
  exists a, ParseValue (l_buf sample_message) 26 false [] 0 (pv_fuel 26 [111] 20) false [111] 20 = Ok (a, [], 26) /\
    sig_of a = [111].
Proof.
  assert (layout (l_buf sample_message) 26 [] 0) as L.
  { constructor; [apply sample_message_ok|done|vm_compute; discriminate|done]. }
  pose proof (ParseValue_safe _ _ false _ _ false [111] 20 L ltac:(vm_compute; split; discriminate)) as H.
  destruct (ParseValue _ _ _ _ _ _ _ _ _) as [[[a rest] pos']| |] eqn:Hv; [| |done].
  - exists a. destruct H as (_ & _ & H). destruct H as (_ & Hs & _); [vm_compute; discriminate|].
    vm_compute in Hv. injection Hv as <- <- <-. done.
  - vm_compute in Hv. discriminate Hv.
Defined.

Lemma typed_wf_top a t : typed false a t -> wf_top t = true.
Proof.
  destruct a, t as [c|[c| | |]| |]; cbn [typed]; try done;
    try match goal with |- match ?v with _ => _ end -> _ => destruct v; [done|] end;
    intros H; destruct_and?; subst; try done; try (by destruct t0).
Qed.

(** What a parsed header guarantees to [UnmarshalArgs]. *)
Lemma UnmarshalHeader_Ok m handles handlePassing pedantic fs bodyPtr :
  loaded_ok m -> UnmarshalHeader m handles handlePassing pedantic = Ok (fs, bodyPtr) ->
  hdr_handles fs = zlen handles /\ bodyPtr + bodyLen (l_hdr m) = l_end m /\ 0 <= bodyPtr.
Proof.
  intros Hm. unfold UnmarshalHeader. destruct (field_loop _ _ _ _ _ _) as [[fs' pos]| |]; [|done..].
  cbn [rbind]. destruct (Z.eqb_spec pos (Z.of_nat HDR + headerLen (l_hdr m))) as [->|]; [|done]. cbn [negb].
  set (st := HeaderChecks _ _ _).
  assert (forall s, bool_decide (s = ER_OK) = true -> s = ER_OK) as Hbd by (by intros s ?%bool_decide_eq_true).
  destruct (bool_decide (st = ER_OK)) eqn:Hst.
  2:{ rewrite Hst. done. }
  destruct (bool_decide (check_handles _ _ _ = ER_OK)) eqn:Hch; [|done]. apply Hbd in Hch. intros [= <- <-].
  unfold check_handles in Hch. split.
  - destruct handlePassing; cbn [negb] in Hch.
    + destruct (Z.eqb_spec (hdr_handles fs') (zlen handles)); cbn [negb] in Hch; [done|discriminate Hch].
    + destruct (Z.eqb_spec (hdr_handles fs') 0), (Z.eqb_spec (zlen handles) 0); cbn in Hch; try done. lia.
  - destruct Hm. pose proof (AlignPtr_bound (headerLen (l_hdr m)) 8 align8).
    change (Z.of_nat HDR) with 16. rewrite AlignPtr_plus16. lia.
Qed.

Lemma arg_loop_step m handles fs n : loaded_ok m -> hdr_handles fs <= zlen handles ->
  forall sig pos, 0 <= pos <= l_end m -> (length sig <= 256)%nat ->
  step (arg_loop m handles fs n sig pos)
    (fun r => exists rest, sig = sigs_of r.1 ++ rest /\ length r.1 = n /\ forallb sig_ok r.1 = true).
Proof.
  intros Hm Hn. induction n as [|n IH]; intros sig pos Hp Hl; cbn [arg_loop]; [by exists sig|].
  pose proof (parse_step m handles Hm (hdr_handles fs) sig pos Hn Hp) as Hs.
  destruct (ParseValue _ _ _ _ _ _ _ _ _) as [[[a rest] pos']| |] eqn:Hv; [|done..].
  apply ParseValue_sig in Hv as [_ Hsig Hok _]; [|done]. destruct Hs as [Hp' Hr]. simpl in Hp', Hr.
  cbn [rbind]. eapply step_bind; [apply IH; lia|]. intros [l p] (rest' & Hr' & Hlen & Hoks). simpl in *.
  exists rest'. rewrite <- app_assoc, <- Hr', Hlen, Hok, Hoks. done.
Qed.

(** ** The signature of the message *)

Definition sig_field_ok (fs : HeaderFields) : Prop := zlen (GetSignature fs) <= 255.

Lemma until_nul_length s i : s !! i = Some 0 -> (length (until_nul s) <= i)%nat.
Proof.
  revert i. induction s as [|c s IH]; intros i Hi; [done|]. cbn [until_nul].
  destruct (Z.eqb_spec c 0); [simpl; lia|]. destruct i as [|i]; [by injection Hi|].
  specialize (IH i Hi). simpl. lia.
Qed.

Lemma ParseSignature_nul buf bufEOD endianSwap handles num pos a pos' :
  layout buf bufEOD handles num -> 0 <= pos ->
  ParseSignature buf bufEOD endianSwap pos = Ok (a, pos') ->
  exists len s, a = A_SIGNATURE len (Some s) /\ zlen (until_nul s) <= 255.
Proof.
  intros L Hp. unfold ParseSignature. intros H. apply rbind_Ok in H as (len & Hlen & H).
  destruct (pos + 1 + len >=? bufEOD); [done|]. apply rbind_Ok in H as (z & Hz & H).
  destruct (Z.eqb_spec z 0) as [->|]; [|done]. cbn [negb] in H.
  apply rbind_Ok in H as (s & Hs & [= <- <-]). exists len, s. split; [done|].
  assert (u_ok 1 len) as Hu.
  { pose proof Hlen as Hl2. unfold rd_uint in Hlen. apply rbind_Ok in Hlen as (bs & Hr & _).
    apply rd_Ok in Hr as (_ & Hr & _).
    pose proof (rd_uint_step _ _ endianSwap _ _ L 1 pos Hp ltac:(lia)) as Hst. by rewrite Hl2 in Hst. }
  unfold u_ok in Hu. simpl in Hu.
  apply (rd_uint1_lookup buf bufEOD endianSwap handles num L) in Hz. unfold rd in Hs.
  case_bool_decide as Hb; [|done]. injection Hs as <-.
  assert ((length (until_nul (take (Z.to_nat len + 1) (drop (Z.to_nat (pos + 1)) buf))) <= Z.to_nat len)%nat).
  { apply until_nul_length. rewrite lookup_take_lt by lia. rewrite lookup_drop.
    replace (Z.to_nat (pos + 1) + Z.to_nat len)%nat with (Z.to_nat (pos + 1 + len)) by lia. done. }
  lia.
Qed.

Lemma FieldType_signature f : FieldType f = ALLJOYN_SIGNATURE -> f = ALLJOYN_HDR_FIELD_SIGNATURE.
Proof. by destruct f. Qed.

Lemma field_set_ne fs f g a : f <> g -> field (set_field fs f a) g = field fs g.
Proof.
  intros Hne. unfold field, set_field. rewrite !nth_lookup.
  rewrite list_lookup_insert_ne; [done|]. by destruct f, g.
Qed.

Lemma field_set_eq fs f a : field (set_field fs f a) f = a \/ field (set_field fs f a) f = field fs f.
Proof.
  unfold field, set_field. rewrite !nth_lookup.
  destruct (decide (field_index f < length fs)%nat) as [Hl|Hl].
  - left. by rewrite list_lookup_insert_eq.
  - right. by rewrite list_insert_ge by lia.
Qed.

Section field_signature.
Context (m : Loaded) (handles : list Z) (Hm : loaded_ok m).
Abbreviation endOfHdr := (Z.of_nat HDR + headerLen (l_hdr m)).

Lemma parse_signature_value n fuel pos a rest pos' : 0 <= pos ->
  ParseValue (l_buf m) (l_end m) (l_swap m) handles n fuel false [103] pos = Ok (a, rest, pos') ->
  exists len s, a = A_SIGNATURE len (Some s) /\ zlen (until_nul s) <= 255.
Proof.
  intros Hp. destruct fuel as [|fuel]; [done|]. cbn [ParseValue hd tail typeId_of_char]. intros H.
  apply rbind_Ok in H as ([[a' r] p] & H & Hend). destruct (p >? l_end m); [done|].
  injection Hend as <- <- <-. unfold same_sig in H. apply rbind_Ok in H as ([b p1] & Hb & [= <- <- <-]).
  by eapply ParseSignature_nul; [apply (loaded_layout m handles Hm 0); lia|done|exact Hb].
Qed.

Lemma parse_field_signature fs pos fs' pos' : 0 <= pos < endOfHdr ->
  sig_field_ok fs -> parse_field m handles endOfHdr fs pos = Ok (Next fs' pos') -> sig_field_ok fs'.
Proof.
  intros Hp Hfs. unfold parse_field. intros H. pose proof (AlignPtr_bound pos 8 align8) as Ha.
  apply rbind_Ok in H as (b & _ & H). set (f := nth _ _ _) in H.
  destruct (_ >? _); [done|]. case_bool_decide; [done|]. apply rbind_Ok in H as (sigLen & Hlen & H).
  destruct (_ >? _); [done|]. case_bool_decide as Hunk.
  - apply rbind_Ok in H as (sig & _ & H). apply rbind_Ok in H as ([[a rest] p] & _ & H).
    case_bool_decide; [|done]. by injection H as <- _.
  - destruct (Z.eqb_spec sigLen 1) as [->|]; [|done]. cbn [negb] in H.
    apply rbind_Ok in H as (c0 & _ & H). apply rbind_Ok in H as (c1 & _ & H).
    destruct (Z.eqb_spec c0 (typeId_val (FieldType f))) as [->|]; [|done]. cbn [negb orb] in H.
    destruct (negb (c1 =? 0)); [done|]. apply rbind_Ok in H as ([[a rest] p] & Hv & [= <- _]).
    unfold sig_field_ok, GetSignature. destruct (decide (f = ALLJOYN_HDR_FIELD_SIGNATURE)) as [Hf|Hf].
    2:{ by rewrite field_set_ne. }
    pose proof (field_set_eq fs f a) as Hse. rewrite Hf in *.
    destruct Hse as [->| ->]; [|done]. cbn [FieldType typeId_val] in Hv.
    destruct (ParseValue _ _ _ _ _ _ _ _ _) as [[[a' r'] p']| |] eqn:Hpv; [|done..].
    injection Hv as -> _ _. apply parse_signature_value in Hpv as (len & s & -> & Hs); [done|lia].
Qed.

Lemma field_loop_signature fuel : forall fs pos fs' pos', 0 <= pos -> handles_covered m handles fs pos ->
  sig_field_ok fs -> field_loop m handles fuel endOfHdr fs pos = Ok (fs', pos') -> sig_field_ok fs'.
Proof.
  induction fuel as [|fuel IH]; intros fs pos fs' pos' Hp Hc Hfs; cbn [field_loop];
    (destruct (Z.ltb_spec pos endOfHdr); [|by intros [= <- _]]); [done|].
  destruct (parse_field m handles endOfHdr fs pos) as [o| |] eqn:Ho; [|done..]. cbn [rbind].
  destruct o as [fs1 pos1|fs1 pos1].
  - pose proof (parse_field_step m handles Hm fs pos ltac:(lia) (Hc _ (rtc_refl _ _))) as Hs.
    rewrite Ho in Hs. simpl in Hs. apply IH; [lia| |by eapply parse_field_signature; [|done|]].
    intros st Hst. apply Hc. eapply rtc_l; [|exact Hst]. by split.
  - intros [= <- _]. unfold parse_field in Ho. apply rbind_Ok in Ho as (b & _ & Ho).
    destruct (_ >? _); [by injection Ho as <- _|]. case_bool_decide; [done|].
    apply rbind_Ok in Ho as (sl & _ & Ho). destruct (_ >? _); [by injection Ho as <- _|].
    case_bool_decide.
    + apply rbind_Ok in Ho as (? & _ & Ho). apply rbind_Ok in Ho as ([[? ?] ?] & _ & Ho).
      by case_bool_decide.
    + destruct (negb (sl =? 1)); [done|]. apply rbind_Ok in Ho as (? & _ & Ho).
      apply rbind_Ok in Ho as (? & _ & Ho). destruct (_ || _); [done|].
      by apply rbind_Ok in Ho as ([[? ?] ?] & _ & Ho).
Qed.
End field_signature.

Lemma UnmarshalHeader_signature m handles handlePassing pedantic fs bodyPtr :
  loaded_ok m -> handles_covered m handles no_fields (Z.of_nat HDR) ->
  UnmarshalHeader m handles handlePassing pedantic = Ok (fs, bodyPtr) -> sig_field_ok fs.
Proof.
  intros Hm Hc. unfold UnmarshalHeader. destruct (field_loop _ _ _ _ _ _) as [[fs' pos]| |] eqn:Hf; [|done..].
  apply (field_loop_signature m handles Hm) in Hf; [|done|done|done].
  cbn [rbind]. destruct (negb _); [done|]. case_bool_decide; case_bool_decide; try done; by intros [= <- _].
Qed.


(** A method call on ["/"], member ["A"], with one argument of signature ["u"]. *)
Definition sample_call_bytes : list Z :=
  sample_header 4 39 ++
  [1; 1; 111; 0; 1; 0; 0; 0; 47; 0; 0; 0; 0; 0; 0; 0] ++
  [3; 1; 115; 0; 1; 0; 0; 0; 65; 0; 0; 0; 0; 0; 0; 0] ++
  [8; 1; 103; 0; 1; 117; 0; 0] ++ [7; 0; 0; 0].

Definition sample_call : Loaded :=
  {| l_hdr := hdr_of_bytes (sample_header 4 39); l_swap := false; l_pktSize := 44; l_bufSize := 72;
     l_buf := sample_call_bytes ++ replicate 12 0 |}.

Lemma sample_call_ok : loaded_ok sample_call.
Proof.
  constructor; try (vm_compute; first [reflexivity|split; discriminate|discriminate]).
  apply (bool_decide_unpack _). vm_compute. exact I.
Qed.

Lemma sample_call_covered : handles_covered sample_call [] no_fields (Z.of_nat HDR).
Proof. apply (covered_run_sound _ _ 10). vm_compute. reflexivity. Qed.


Lemma arg_loop_rt m handles fs SocketDup : loaded_ok m -> hdr_handles fs <= zlen handles ->
  forall args ts, Forall2 (typed false) args ts -> forall pos h bs h',
  0 <= pos -> MarshalArgs (l_swap m) SocketDup args pos h = Ok (bs, h') -> has_at (l_buf m) pos bs ->
  pos + zlen bs <= l_end m ->
  arg_loop m handles fs (length args) (prints ts) pos = Ok (args, pos + zlen bs).
Proof.
  intros Hm Hn args ts. induction 1 as [|a t args ts Ha _ IH]; intros pos h bs h' Hp Hmar Hat He;
    unfold MarshalArgs in Hmar; cbn [ma_loop] in Hmar.
  - injection Hmar as <- <-. cbn. by rewrite Z.add_0_r.
  - apply rbind_Ok in Hmar as ([b1 h1] & H1 & Hmar). apply rbind_Ok in Hmar as ([b2 h2] & H2 & [= <- <-]).
    rewrite zlen_app in *. apply has_at_app in Hat as [Hat1 Hat2]. cbn [length arg_loop map concat].
    pose proof (rt_all (l_buf m) (l_end m) (l_swap m) handles (hdr_handles fs) SocketDup a false t pos h b1 h1
      (pv_fuel (l_end m) (print t ++ prints ts) pos) (prints ts) Ha Hp H1 Hat1 ltac:(lia)) as Ho.
    pose proof (parse_step m handles Hm (hdr_handles fs) (print t ++ prints ts) pos Hn ltac:(lia)) as Hs.
    destruct (only_step _ _ _ Ho Hs) as [-> _]. cbn [rbind].
    rewrite (IH (pos + zlen b1) h1 b2 h2) by (done || lia). cbn [rbind]. do 2 f_equal. lia.
Qed.

Lemma UnmarshalArgs_rt (m : Loaded) handles fs bodyPtr SocketDup args ts h bs h' :
  loaded_ok m -> hdr_handles fs <= zlen handles -> msgType (l_hdr m) <> 0 ->
  Forall2 (typed false) args ts -> GetSignature fs = prints ts -> zlen (prints ts) <= 255 ->
  MarshalArgs (l_swap m) SocketDup args bodyPtr h = Ok (bs, h') ->
  0 <= bodyPtr -> has_at (l_buf m) bodyPtr bs -> bodyPtr + zlen bs = l_end m ->
  bodyLen (l_hdr m) = zlen bs ->
  UnmarshalArgs m handles fs bodyPtr (prints ts) = Ok args.
Proof.
  intros Hm Hn Hty Ht Hsig Hl Hmar Hp Hat He Hbl. unfold UnmarshalArgs. rewrite Hsig, Hbl.
  destruct (Z.eqb_spec (msgType (l_hdr m)) 0); [done|]. rewrite bool_decide_true by done. cbn [negb andb].
  assert ((zlen bs =? 0) && (negb (bool_decide (prints ts = [])) || (negb (bool_decide (prints ts = []))
    && negb (bool_decide (prints ts = WildCardSignature)))) = false) as ->.
  { destruct Ht as [|a t args ts Ha Ht]; [cbn; by rewrite andb_false_r|].
    unfold MarshalArgs in Hmar. cbn [ma_loop] in Hmar. apply rbind_Ok in Hmar as ([b1 h1] & H1 & Hmar).
    apply rbind_Ok in Hmar as ([b2 h2] & _ & [= <- <-]).
    destruct (marshal_nonempty _ _ _ _ _ _ _ _ _ Ha H1) as [Hne _].
    rewrite zlen_app. destruct b1; [done|]. by destruct (Z.eqb_spec (zlen (z :: b1) + zlen b2) 0); [simpl in *; lia|]. }
  rewrite CountCompleteTypes_prints; [|apply forallb_Forall|done].
  2:{ eapply Forall2_Forall_r; [exact Ht|]. apply Forall_true. intros t a. apply typed_wf_top. }
  cbn [rbind]. rewrite Nat2Z.id, <- (Forall2_length _ _ _ Ht).
  rewrite (arg_loop_rt m handles fs SocketDup Hm Hn args ts Ht bodyPtr h bs h') by (done || lia).
  cbn [rbind]. replace (bodyPtr + zlen bs - bodyPtr) with (zlen bs) by lia. by rewrite Z.eqb_refl.
Qed.

(** C2: the body of a message that [MarshalArgs] wrote, in either byte order, is
    read back by [UnmarshalArgs] as exactly the same arguments. *)
Theorem UnmarshalArgs_roundtrip (m : Loaded) handles fs bodyPtr SocketDup args ts h bs h' :
  loaded_ok m -> hdr_handles fs <= zlen handles -> msgType (l_hdr m) <> 0 ->
  Forall2 (typed false) args ts -> GetSignature fs = prints ts -> zlen (prints ts) <= 255 ->
  MarshalArgs (l_swap m) SocketDup args bodyPtr h = Ok (bs, h') ->
  0 <= bodyPtr -> has_at (l_buf m) bodyPtr bs -> bodyPtr + zlen bs = l_end m ->
  bodyLen (l_hdr m) = zlen bs ->
  UnmarshalArgs m handles fs bodyPtr (prints ts) = Ok args.
Proof. apply UnmarshalArgs_rt. Qed.

(** [sample_args] as a big-endian message without other header fields. *)
Definition sample_body : list Z :=
  match MarshalArgs true (fun _ fd => Ok fd) sample_args 16 [] with Ok (bs, _) => bs | _ => [] end.
Definition sample_swapped : Loaded :=
  {| l_hdr := {| endian := ALLJOYN_BIG_ENDIAN; msgType := 1; flags := 0; majorVersion := 1;
                 bodyLen := zlen sample_body; serialNum := 1; headerLen := 0 |};
     l_swap := true; l_pktSize := zlen sample_body; l_bufSize := 16 + zlen sample_body + 16;
     l_buf := replicate 16 0 ++ sample_body ++ replicate 16 0 |}.
Definition sample_fields : HeaderFields :=
  set_field no_fields ALLJOYN_HDR_FIELD_SIGNATURE (A_SIGNATURE 10 (Some (prints sample_types ++ [0]))).

Lemma sample_swapped_ok : loaded_ok sample_swapped.
Proof.
  constructor; try (vm_compute; first [reflexivity|split; discriminate|discriminate]).
  apply (bool_decide_unpack _). vm_compute. exact I.
Qed.

Lemma UnmarshalArgs_roundtrip_witness :
  UnmarshalArgs sample_swapped [] sample_fields 16 (prints sample_types) = Ok sample_args.
Proof.
  apply (UnmarshalArgs_roundtrip sample_swapped [] sample_fields 16 (fun _ fd => Ok fd) sample_args
           sample_types [] sample_body []).
  - exact sample_swapped_ok.
  - vm_compute. discriminate.
  - vm_compute. discriminate.
  - exact sample_typed.
  - vm_compute. reflexivity.
  - vm_compute. discriminate.
  - vm_compute. reflexivity.
  - lia.
  - apply (has_at_whole (replicate 16 0) sample_body (replicate 16 0)).
  - vm_compute. reflexivity.
  - reflexivity.
Defined.
