(* ===== verification/IPAddress.v ===== *)
(** Model of the address conversions of common/src/IPAddress.cc, with the digit
    functions of common/src/StringUtil.cc: IPv4ToString, IPv6ToString,
    StringToIPv4 and StringToIPv6 on a little-endian host. Addresses are lists of
    4 or 16 bytes in network order. *)
From S2P Require Import Prelude Types BusUtil.

(** * Digits *)

Definition IsOctalDigit (c : Z) : bool := (48 <=? c) && (c <=? 55).
Definition IsHexDigit (c : Z) : bool :=
  (48 <=? c) && (c <=? 57) || (97 <=? c) && (c <=? 102) || (65 <=? c) && (c <=? 70).

Definition CharToU8 (c : Z) : Z :=
  if (48 <=? c) && (c <=? 57) then c - 48
  else if (65 <=? c) && (c <=? 70) then c - 65 + 10
  else if (97 <=? c) && (c <=? 102) then c - 97 + 10
  else 255.

Definition U8ToChar (d : Z) : Z :=
  if d <=? 9 then d + 48
  else if (10 <=? d) && (d <=? 15) then d - 10 + 97
  else 0.

(** [AccumulateDigits] over the characters from [startIndex] to [lastIndex];
    [None] is -1. At most 11 digits reach it, so 64 bits are enough. *)
Definition AccumulateDigits (digits : list Z) (radix : Z) : option Z :=
  if radix =? 16 then
    Some (fold_left (fun temp c => Z.lor (Z.shiftl temp 4) (CharToU8 c)) digits 0)
  else if radix =? 10 then
    fold_left (fun temp c => match temp with
                             | Some t => if IsDecimalDigit c then Some (t * 10 + CharToU8 c) else None
                             | None => None end) digits (Some 0)
  else if radix =? 8 then
    fold_left (fun temp c => match temp with
                             | Some t => if IsOctalDigit c then Some (Z.lor (Z.shiftl t 3) (CharToU8 c)) else None
                             | None => None end) digits (Some 0)
  else None.

(** * Printing *)

(** [while (val > 0) num[numIndex--] = val % 10], in an array of three. *)
Fixpoint dec_loop (room : nat) (val : Z) (num : list Z) : res (list Z) :=
  if val >? 0 then
    match room with
    | O => Undef
    | S room => dec_loop room (val / 10) (val mod 10 :: num)
    end
  else Ok num.

Definition octet_text (val : Z) : res (list Z) :=
  let! num := if val >? 0 then dec_loop 3 val [] else Ok [0] in
  Ok (map U8ToChar num).

(** The octets with dots between them. *)
Fixpoint octets_text (addr : list Z) : res (list Z) :=
  match addr with
  | [] => Ok []
  | [v] => octet_text v
  | v :: addr =>
      let! t := octet_text v in
      let! r := octets_text addr in
      Ok (t ++ 46 :: r)
  end.

Definition IPv4_SIZE : nat := 4.
Definition IPv6_SIZE : nat := 16.

(** The text is built in [addressChars], which must hold it and its NUL. *)
Definition fits (room : nat) (r : res (list Z)) : res (list Z) :=
  let! t := r in if bool_decide (length t + 1 <= room)%nat then Ok t else Undef.

Definition IPv4ToString (addr : option (list Z)) : res (list Z) :=
  match addr with
  | None => Ok []
  | Some a => fits (4 * 3 + 3 + 1) (octets_text (take IPv4_SIZE a))
  end.

(** The scan for zero groups: the current run and the longest before it, as
    numbers of their first and last group, -1 for none. *)
Record ZeroScan := {
  firstGroupZero : Z;
  lastGroupZero : Z;
  minFirstGroupZero : Z;
  maxLastGroupZero : Z
}.

Definition zs_init : ZeroScan :=
  {| firstGroupZero := -1; lastGroupZero := -1; minFirstGroupZero := -1; maxLastGroupZero := -1 |}.

Definition zs_step (z : ZeroScan) (group : Z) (zero : bool) : ZeroScan :=
  if zero then
    {| firstGroupZero := if firstGroupZero z =? -1 then group else firstGroupZero z;
       lastGroupZero := group;
       minFirstGroupZero := minFirstGroupZero z; maxLastGroupZero := maxLastGroupZero z |}
  else
    let keep :=
      negb (firstGroupZero z =? -1) && negb (lastGroupZero z =? -1) &&
      ((minFirstGroupZero z =? -1) && (maxLastGroupZero z =? -1) ||
       (lastGroupZero z - firstGroupZero z >? maxLastGroupZero z - minFirstGroupZero z)) in
    {| firstGroupZero := -1; lastGroupZero := -1;
       minFirstGroupZero := if keep then firstGroupZero z else minFirstGroupZero z;
       maxLastGroupZero := if keep then lastGroupZero z else maxLastGroupZero z |}.

Fixpoint zs_loop (z : ZeroScan) (group : Z) (addr : list Z) : ZeroScan :=
  match addr with
  | v :: v2 :: addr => zs_loop (zs_step z group ((v =? 0) && (v2 =? 0))) (group + 1) addr
  | _ => z
  end.

Definition zs_finish (z : ZeroScan) : Z * Z :=
  if (minFirstGroupZero z =? -1) && (maxLastGroupZero z =? -1)
  then (firstGroupZero z, lastGroupZero z) else (minFirstGroupZero z, maxLastGroupZero z).

Definition u64 (x : Z) : Z := x mod 2 ^ 64.

(** A group in hexadecimal without leading zeros. *)
Definition group_text (val val2 : Z) : list Z :=
  let n3 := Z.shiftr val 4 in
  let n2 := Z.land val 15 in
  let n1 := Z.shiftr val2 4 in
  let n0 := Z.land val2 15 in
  (if negb (n3 =? 0) then [U8ToChar n3] else []) ++
  (if negb (n2 =? 0) || negb (n3 =? 0) then [U8ToChar n2] else []) ++
  (if negb (n1 =? 0) || negb (n2 =? 0) || negb (n3 =? 0) then [U8ToChar n1] else []) ++
  [U8ToChar n0].

(** The groups from [addrCounter] on; [size_t] comparisons. *)
Fixpoint groups_text (addrCounter minFirstZero maxLastZero : Z) (addr : list Z) : list Z :=
  match addr with
  | v :: v2 :: addr =>
      if (minFirstZero <=? addrCounter) && (addrCounter <=? maxLastZero) then
        (if addrCounter =? minFirstZero then [58; 58] else []) ++
        groups_text (addrCounter + 2) minFirstZero maxLastZero addr
      else
        group_text v v2 ++
        (if negb (addrCounter + 2 =? minFirstZero) && (addrCounter + 2 <? 16) then [58] else []) ++
        groups_text (addrCounter + 2) minFirstZero maxLastZero addr
  | _ => []
  end.

Definition IPv6ToString (addr : option (list Z)) : res (list Z) :=
  match addr with
  | None => Ok []
  | Some a =>
      let '(minFirst, maxLast) := zs_finish (zs_loop zs_init 1 a) in
      let minFirstZero := u64 (Z.shiftl (minFirst - 1) 1) in
      let maxLastZero := u64 (Z.shiftl (maxLast - 1) 1) in
      fits (8 * 4 + 7 + 1)
        (if (minFirstZero =? 0) && (maxLastZero =? 8) && (nth 10 a 0 =? 255) && (nth 11 a 0 =? 255)
         then let! t := octets_text (drop 12 a) in Ok ([58; 58; 102; 102; 102; 102; 58] ++ t)
         else Ok (groups_text 0 minFirstZero maxLastZero a))
  end.

(** * StringToIPv4 *)

Record V4 := {
  v4_digits : list Z;       (* digits[0 .. digitCount) *)
  v4_mode : Z;              (* 0 decimal, 1 hexadecimal, 2 octal *)
  v4_parts : list Z
}.

Definition v4_init : V4 := {| v4_digits := []; v4_mode := 0; v4_parts := [] |}.

Definition v4_digit (st : V4) (c : Z) : res V4 :=
  if bool_decide (11 <= length (v4_digits st))%nat then Fail ER_PARSE_ERROR
  else Ok {| v4_digits := v4_digits st ++ [c]; v4_mode := v4_mode st; v4_parts := v4_parts st |}.

(** The digits read so far become a part. *)
Definition v4_part (st : V4) : res V4 :=
  if bool_decide (4 <= length (v4_parts st))%nat then Fail ER_PARSE_ERROR
  else
    match AccumulateDigits (v4_digits st)
            (if v4_mode st =? 0 then 10 else if v4_mode st =? 1 then 16 else 8) with
    | None => Fail ER_PARSE_ERROR
    | Some temp =>
        if temp >? 4294967295 then Fail ER_PARSE_ERROR
        else Ok {| v4_digits := []; v4_mode := 0; v4_parts := v4_parts st ++ [temp] |}
    end.

Fixpoint v4_loop (s : list Z) (st : V4) {struct s} : res V4 :=
  match s with
  | [] => Ok st
  | c :: s' =>
      if c =? 46 then
        if bool_decide (v4_digits st = []) then Fail ER_PARSE_ERROR
        else let! st := v4_part st in v4_loop s' st
      else if c =? 48 then
        match s' with
        | c1 :: s'' =>
            if c1 =? 120 then
              if negb (bool_decide (v4_digits st = [])) then Fail ER_PARSE_ERROR
              else v4_loop s'' {| v4_digits := []; v4_mode := 1; v4_parts := v4_parts st |}
            else if bool_decide (v4_digits st = []) && IsOctalDigit c1
            then v4_loop s' {| v4_digits := []; v4_mode := 2; v4_parts := v4_parts st |}
            else let! st := v4_digit st c in v4_loop s' st
        | [] => v4_digit st c
        end
      else if IsHexDigit c then
        if (v4_mode st =? 0) && negb (IsDecimalDigit c) then Fail ER_PARSE_ERROR
        else if (v4_mode st =? 2) && negb (IsOctalDigit c) then Fail ER_PARSE_ERROR
        else let! st := v4_digit st c in v4_loop s' st
      else Fail ER_PARSE_ERROR
  end.

Definition byte_of (v k : Z) : Z := Z.land (Z.shiftr v k) 255.

(** Packing the parts; with two or three parts every byte but the leading ones
    is taken from the first part. *)
Definition v4_pack (parts : list Z) : res (list Z) :=
  match parts with
  | [p0] => Ok [byte_of p0 24; byte_of p0 16; byte_of p0 8; byte_of p0 0]
  | [p0; p1] =>
      if (p0 >? 255) || (p1 >? 16777215) then Fail ER_PARSE_ERROR
      else Ok [byte_of p0 0; byte_of p0 16; byte_of p0 8; byte_of p0 0]
  | [p0; p1; p2] =>
      if (p0 >? 255) || (p1 >? 255) || (p2 >? 65535) then Fail ER_PARSE_ERROR
      else Ok [byte_of p0 0; byte_of p1 0; byte_of p0 8; byte_of p0 0]
  | [p0; p1; p2; p3] =>
      if (p0 >? 255) || (p1 >? 255) || (p2 >? 255) || (p3 >? 255) then Fail ER_PARSE_ERROR
      else Ok [byte_of p0 0; byte_of p1 0; byte_of p2 0; byte_of p3 0]
  | _ => Fail ER_PARSE_ERROR
  end.

(** [addrBuf] is NULL, or a buffer of [addrBufSize] bytes. *)
Definition StringToIPv4 (address : list Z) (null : bool) (addrBufSize : Z) : res (list Z) :=
  if null then Fail ER_BAD_ARG_2
  else if negb (addrBufSize =? 4) then Fail ER_BAD_ARG_3
  else let! st := v4_loop address v4_init in
       let! st := if bool_decide (v4_digits st = []) then Ok st else v4_part st in
       v4_pack (v4_parts st).

(** * StringToIPv6 *)

(** [uint64_t set[2]]: an offset of 128 or more is outside the array. *)
Definition SetBits (set : list Z) (offset bits : Z) : res (list Z) :=
  let index := Z.shiftr offset 6 in
  match set !! Z.to_nat index with
  | Some w =>
      let shift := if index =? 0 then offset else offset - 64 in
      Ok (<[Z.to_nat index := Z.lor w (u64 (Z.shiftl bits shift))]> set)
  | None => Undef
  end.

(** The locals of the loop. [digits] holds the last [digitCount] characters of
    the array, which is filled from its end. *)
Record V6 := {
  leftBits : list Z;
  rightBits : list Z;
  leftBitCount : Z;
  rightBitCount : Z;
  groupExpansionCount : Z;
  groupProcessed : bool;
  octetCount : Z;
  leftCounter : bool;
  digits : list Z;
  parseModeAny : bool
}.

Definition v6_init : V6 :=
  {| leftBits := [0; 0]; rightBits := [0; 0]; leftBitCount := 0; rightBitCount := 0;
     groupExpansionCount := 0; groupProcessed := false; octetCount := 0; leftCounter := false;
     digits := []; parseModeAny := true |}.

(** Stores the digits as a group of [width] bits in the bits being filled and
    resets them. *)
Definition v6_store (st : V6) (width temp : Z) : res V6 :=
  if leftCounter st then
    let! b := SetBits (leftBits st) (leftBitCount st) temp in
    Ok {| leftBits := b; rightBits := rightBits st; leftBitCount := leftBitCount st + width;
          rightBitCount := rightBitCount st; groupExpansionCount := groupExpansionCount st;
          groupProcessed := groupProcessed st; octetCount := octetCount st;
          leftCounter := leftCounter st; digits := []; parseModeAny := parseModeAny st |}
  else
    let! b := SetBits (rightBits st) (rightBitCount st) temp in
    Ok {| leftBits := leftBits st; rightBits := b; leftBitCount := leftBitCount st;
          rightBitCount := rightBitCount st + width; groupExpansionCount := groupExpansionCount st;
          groupProcessed := groupProcessed st; octetCount := octetCount st;
          leftCounter := leftCounter st; digits := []; parseModeAny := parseModeAny st |}.

Definition v6_group (st : V6) : res V6 :=
  match AccumulateDigits (digits st) 16 with
  | Some temp => v6_store st 16 temp
  | None => Fail ER_PARSE_ERROR
  end.

Definition v6_octet (st : V6) : res V6 :=
  match AccumulateDigits (digits st) 10 with
  | Some temp => if temp >? 255 then Fail ER_PARSE_ERROR else v6_store st 8 temp
  | None => Fail ER_PARSE_ERROR
  end.

Definition v6_digit (st : V6) (c : Z) : res V6 :=
  if bool_decide (4 <= length (digits st))%nat then Fail ER_PARSE_ERROR
  else Ok {| leftBits := leftBits st; rightBits := rightBits st; leftBitCount := leftBitCount st;
             rightBitCount := rightBitCount st; groupExpansionCount := groupExpansionCount st;
             groupProcessed := groupProcessed st; octetCount := octetCount st;
             leftCounter := leftCounter st; digits := c :: digits st;
             parseModeAny := parseModeAny st |}.

Definition with_flags (st : V6) (expansions : Z) (processed : bool) (octets : Z) (left any : bool) : V6 :=
  {| leftBits := leftBits st; rightBits := rightBits st; leftBitCount := leftBitCount st;
     rightBitCount := rightBitCount st; groupExpansionCount := expansions;
     groupProcessed := processed; octetCount := octets; leftCounter := left;
     digits := digits st; parseModeAny := any |}.

(** ["::"] *)
Definition v6_expand (st : V6) : res V6 :=
  let n := groupExpansionCount st + 1 in
  if n >? 1 then Fail ER_PARSE_ERROR
  else
    let! st := if bool_decide (digits st = []) then Ok st else v6_group st in
    Ok (with_flags st n (groupProcessed st) (octetCount st) true (parseModeAny st)).

(** One character [c] in the mode for groups, [c] not part of ["::"]. *)
Definition v6_any (st : V6) (c : Z) : res V6 :=
  if c =? 58 then
    if bool_decide (digits st = []) then Fail ER_PARSE_ERROR
    else let! st := v6_group st in
         Ok (with_flags st (groupExpansionCount st) true (octetCount st) (leftCounter st) (parseModeAny st))
  else if IsHexDigit c then v6_digit st c
  else if c =? 46 then
    let n := octetCount st + 1 in
    if n >? 4 then Fail ER_PARSE_ERROR
    else if groupProcessed st || (groupExpansionCount st >? 0) then Fail ER_PARSE_ERROR
    else if bool_decide (digits st = []) then Fail ER_PARSE_ERROR
    else let! st := v6_octet (with_flags st (groupExpansionCount st) (groupProcessed st) n
                                (leftCounter st) (parseModeAny st)) in
         Ok (with_flags st (groupExpansionCount st) (groupProcessed st) (octetCount st) (leftCounter st) false)
  else Fail ER_PARSE_ERROR.

(** One character in the mode for octets. *)
Definition v6_octets (st : V6) (c : Z) : res V6 :=
  if IsDecimalDigit c then v6_digit st c
  else if (c =? 46) || (c =? 58) then
    let n := octetCount st + 1 in
    if (c =? 58) && negb (n =? 4) then Fail ER_PARSE_ERROR
    else if n >? 4 then Fail ER_PARSE_ERROR
    else if bool_decide (digits st = []) then Fail ER_PARSE_ERROR
    else v6_octet (with_flags st (groupExpansionCount st) (groupProcessed st) n (leftCounter st)
                     (if c =? 58 then true else parseModeAny st))
  else Fail ER_PARSE_ERROR.

(** The loop runs from the last character to the first: [s] is reversed. *)
Fixpoint v6_loop (s : list Z) (st : V6) {struct s} : res V6 :=
  match s with
  | [] => Ok st
  | c :: s' =>
      if parseModeAny st then
        match s' with
        | c' :: s'' =>
            if (c =? 58) && (c' =? 58) then let! st := v6_expand st in v6_loop s'' st
            else let! st := v6_any st c in v6_loop s' st
        | [] => v6_any st c
        end
      else let! st := v6_octets st c in v6_loop s' st
  end.

(** [while (bitCount < count)]: two bytes a turn, downwards from [index]. *)
Fixpoint v6_unpack (n : nat) (w0 w1 bitCount index : Z) (addrBuf : list Z) : res (list Z * Z) :=
  match n with
  | O => Ok (addrBuf, index)
  | S n =>
      if bool_decide (1 <= index < zlen addrBuf) then
        if bitCount <? 64 then
          v6_unpack n (Z.shiftr (Z.shiftr w0 8) 8) w1 (bitCount + 16) (index - 2)
            (<[Z.to_nat (index - 1) := Z.land (Z.shiftr w0 8) 255]> (<[Z.to_nat index := Z.land w0 255]> addrBuf))
        else
          v6_unpack n w0 (Z.shiftr (Z.shiftr w1 8) 8) (bitCount + 16) (index - 2)
            (<[Z.to_nat (index - 1) := Z.land (Z.shiftr w1 8) 255]> (<[Z.to_nat index := Z.land w1 255]> addrBuf))
      else Undef
  end.

Definition v6_bits (set : list Z) (count index : Z) (addrBuf : list Z) : res (list Z * Z) :=
  v6_unpack (Z.to_nat ((count + 15) / 16)) (nth 0 set 0) (nth 1 set 0) 0 index addrBuf.

Definition v6_pack (st : V6) : res (list Z) :=
  let zero := replicate IPv6_SIZE 0 in
  if (rightBitCount st >? 0) && (leftBitCount st >? 0) then
    let expansionBits := 128 - rightBitCount st - leftBitCount st in
    let! (buf, index) := v6_bits (rightBits st) (rightBitCount st) 15 zero in
    let! (buf, _) := v6_bits (leftBits st) (leftBitCount st) (index - Z.shiftr expansionBits 3) buf in
    Ok buf
  else if (rightBitCount st =? 0) && (leftBitCount st =? 0) then
    if groupExpansionCount st >? 0 then Ok zero else Fail ER_PARSE_ERROR
  else if leftBitCount st >? 0 then
    if groupExpansionCount st >? 0 then
      let! (buf, _) := v6_bits (leftBits st) (leftBitCount st)
                         (15 - Z.shiftr (128 - leftBitCount st) 3) zero in Ok buf
    else if negb (leftBitCount st =? 128) then Fail ER_PARSE_ERROR
    else let! (buf, _) := v6_bits (leftBits st) (leftBitCount st) 15 zero in Ok buf
  else
    if (groupExpansionCount st =? 0) && negb (rightBitCount st =? 128) then Fail ER_PARSE_ERROR
    else let! (buf, _) := v6_bits (rightBits st) (rightBitCount st) 15 zero in Ok buf.

Definition StringToIPv6 (address : list Z) (null : bool) (addrBufSize : Z) : res (list Z) :=
  if null then Fail ER_BAD_ARG_2
  else if negb (addrBufSize =? 16) then Fail ER_BAD_ARG_3
  else let! st := v6_loop (rev address) v6_init in
       if negb (parseModeAny st) then Fail ER_PARSE_ERROR
       else let! st := if bool_decide (digits st = []) then Ok st else v6_group st in
            v6_pack st.
