(* ===== verification/IPAddressProofs.v ===== *)
(** Printing and parsing addresses. *)
From S2P Require Import Prelude Types BusUtil BusUtilProofs IPAddress.

Lemma rbind_Ok_r {E A} (r : result E A) : rbind r Ok = r.
Proof. by destruct r. Qed.

(** * The interface

    What the users of an address family rely on: an address of [size] bytes is
    printed, parsing the text gives it back, and what is parsed from any text is
    an address. *)
Class AddrCodec (print : option (list Z) -> res (list Z)) (parse : list Z -> bool -> Z -> res (list Z))
  (size : nat) : Prop := {
  codec_roundtrip : forall addr, length addr = size -> Forall is_byte addr ->
    exists s, print (Some addr) = Ok s /\ parse s false (Z.of_nat size) = Ok addr;
  codec_parsed : forall s addr, parse s false (Z.of_nat size) = Ok addr ->
    length addr = size /\ Forall is_byte addr
}.

(** * IPv4 *)

(** What the parser needs to know about the text of an octet. *)
Definition octet_like (v : Z) (t : list Z) : bool :=
  forallb IsDecimalDigit t && (1 <=? zlen t) && (zlen t <=? 3) &&
  (negb (hd 0 t =? 48) || bool_decide (t = [48])) && bool_decide (AccumulateDigits t 10 = Some v).

Definition octet_check (v : Z) : bool :=
  match octet_text v with Ok t => octet_like v t | _ => false end.

Lemma octets_checked : forallb octet_check (map Z.of_nat (seq 0 256)) = true.
Proof. vm_compute. reflexivity. Qed.

Lemma octet_text_like v : is_byte v -> exists t, octet_text v = Ok t /\ octet_like v t = true.
Proof.
  intros Hv. pose proof octets_checked as H. rewrite forallb_forall in H.
  specialize (H v). unfold octet_check in H. destruct (octet_text v) as [t| |].
  - exists t. split; [done|]. apply H, in_map_iff. exists (Z.to_nat v). unfold is_byte in Hv.
    split; [lia|]. apply in_seq. lia.
  - exfalso. discriminate H. apply in_map_iff. exists (Z.to_nat v). unfold is_byte in Hv.
    split; [lia|]. apply in_seq. lia.
  - exfalso. discriminate H. apply in_map_iff. exists (Z.to_nat v). unfold is_byte in Hv.
    split; [lia|]. apply in_seq. lia.
Qed.

(** A decimal text in front of a dot or at the end is collected as it is. *)
Lemma v4_loop_digits t : forall rest st,
  chars IsDecimalDigit t -> (rest = [] \/ exists r, rest = 46 :: r) -> v4_mode st = 0 ->
  (length (v4_digits st) + length t <= 11)%nat ->
  (v4_digits st <> [] \/ hd 0 t <> 48 \/ t = [48]) ->
  v4_loop (t ++ rest) st =
  v4_loop rest {| v4_digits := v4_digits st ++ t; v4_mode := 0; v4_parts := v4_parts st |}.
Proof.
  induction t as [|c t IH]; intros rest st Ht Hr Hm Hl Hz; cbn [app].
  - rewrite app_nil_r, <- Hm. by destruct st.
  - apply Forall_cons in Ht as [Hc Ht]. cbn [length] in Hl.
    assert (v4_digit st c = Ok {| v4_digits := v4_digits st ++ [c]; v4_mode := 0; v4_parts := v4_parts st |}) as Hd.
    { unfold v4_digit. rewrite bool_decide_false by lia. by rewrite Hm. }
    assert (forall X, (let! st := v4_digit st c in v4_loop (t ++ rest) st) = X ->
      v4_loop rest {| v4_digits := v4_digits st ++ c :: t; v4_mode := 0; v4_parts := v4_parts st |} = X) as Hgo.
    { intros X <-. rewrite Hd. cbn [rbind]. rewrite IH; cbn [v4_digits v4_mode v4_parts];
        [by rewrite <- app_assoc|done|done|done|rewrite length_app; simpl; lia|].
      left. by destruct (v4_digits st). }
    cbn [v4_loop]. unfold IsDecimalDigit in Hc.
    destruct (Z.eqb_spec c 46); [lia|]. destruct (Z.eqb_spec c 48) as [->|H48].
    + assert (bool_decide (v4_digits st = []) && match t ++ rest with c1 :: _ => IsOctalDigit c1 | [] => false end = false) as Hoct.
      { case_bool_decide as Hnil; [|done]. destruct Hz as [?|[?|[= ->]]]; [done|done|].
        by destruct Hr as [->|(r & ->)]. }
      destruct (t ++ rest) as [|c1 s''] eqn:Hs.
      * symmetry. apply Hgo. cbn [v4_loop]. apply rbind_Ok_r.
      * destruct (Z.eqb_spec c1 120) as [->|].
        { exfalso. destruct t as [|x t'].
          - destruct Hr as [->|(r & ->)]; discriminate Hs.
          - injection Hs as -> _. apply Forall_cons in Ht as [Hx _]. discriminate Hx. }
        rewrite Hoct. symmetry. by apply Hgo.
    + assert (IsHexDigit c = true) as -> by (unfold IsHexDigit; lia).
      assert (IsDecimalDigit c = true) as -> by (unfold IsDecimalDigit; lia).
      rewrite Hm. cbn [Z.eqb negb andb]. symmetry. by apply Hgo.
Qed.

Lemma octet_like_facts v t : octet_like v t = true ->
  chars IsDecimalDigit t /\ (1 <= length t <= 3)%nat /\ (hd 0 t <> 48 \/ t = [48]) /\
  AccumulateDigits t 10 = Some v.
Proof.
  unfold octet_like. rewrite !andb_true_iff. intros ((((Hd & H1) & H3) & Hz) & Ha%bool_decide_eq_true).
  split_and!; [|lia|lia| |done].
  - rewrite forallb_forall in Hd. apply Forall_forall. intros c Hc. by apply Hd, list_elem_of_In.
  - apply orb_true_iff in Hz as [Hz|Hz%bool_decide_eq_true]; [|by right]. left. lia.
Qed.

Lemma v4_part_octet v t parts : is_byte v -> octet_like v t = true -> (length parts < 4)%nat ->
  v4_part {| v4_digits := t; v4_mode := 0; v4_parts := parts |} =
  Ok {| v4_digits := []; v4_mode := 0; v4_parts := parts ++ [v] |}.
Proof.
  intros Hv (_ & _ & _ & Ha)%octet_like_facts Hp. unfold v4_part. cbn [v4_digits v4_mode v4_parts Z.eqb].
  rewrite bool_decide_false by lia. rewrite Ha. unfold is_byte in Hv.
  destruct (Z.gtb_spec v 4294967295); [lia|done].
Qed.

Lemma v4_loop_octet v t rest parts : is_byte v -> octet_like v t = true -> (length parts < 4)%nat ->
  v4_loop (t ++ 46 :: rest) {| v4_digits := []; v4_mode := 0; v4_parts := parts |} =
  v4_loop rest {| v4_digits := []; v4_mode := 0; v4_parts := parts ++ [v] |}.
Proof.
  intros Hv Ht Hp. destruct (octet_like_facts _ _ Ht) as (Hd & Hl & Hz & _).
  rewrite v4_loop_digits; cbn [v4_digits v4_mode v4_parts length app]; [|done|by right; eauto|done|lia|by right].
  cbn [v4_loop]. change (46 =? 46) with true. cbn iota. cbn [v4_digits].
  rewrite bool_decide_false by (by intros ->; simpl in Hl; lia).
  by rewrite (v4_part_octet v t parts).
Qed.

Lemma byte_of_small v : is_byte v -> byte_of v 0 = v.
Proof.
  unfold is_byte, byte_of. intros Hv. rewrite Z.shiftr_0_r. change 255 with (Z.ones 8).
  rewrite Z.land_ones by lia. apply Z.mod_small. lia.
Qed.

Lemma IPv4_print_parse (addr : list Z) :
  length addr = 4%nat -> Forall is_byte addr ->
  exists s, IPv4ToString (Some addr) = Ok s /\ StringToIPv4 s false 4 = Ok addr.
Proof.
  destruct addr as [|a [|b [|c [|d [|]]]]]; try done. intros _ Hall.
  rewrite !Forall_cons in Hall. destruct Hall as (Ha & Hb & Hc & Hd & _).
  destruct (octet_text_like a Ha) as (ta & Hta & La), (octet_text_like b Hb) as (tb & Htb & Lb),
    (octet_text_like c Hc) as (tc & Htc & Lc), (octet_text_like d Hd) as (td & Htd & Ld).
  unfold IPv4ToString, fits, IPv4_SIZE. cbn [take octets_text]. rewrite Hta, Htb, Htc, Htd. cbn [rbind].
  destruct (octet_like_facts _ _ La) as (_ & ? & _), (octet_like_facts _ _ Lb) as (_ & ? & _),
    (octet_like_facts _ _ Lc) as (_ & ? & _), (octet_like_facts _ _ Ld) as (Hdd & Hld & Hzd & _).
  rewrite bool_decide_true by (rewrite length_app; cbn [length]; rewrite length_app; cbn [length];
    rewrite length_app; cbn [length]; lia).
  eexists. split; [reflexivity|]. unfold StringToIPv4, v4_init. cbn [negb Z.eqb].
  rewrite (v4_loop_octet a), (v4_loop_octet b), (v4_loop_octet c) by (done || cbn; lia).
  rewrite <- (app_nil_r td), v4_loop_digits; cbn [v4_digits v4_mode v4_parts app];
    [|done|by left|done|cbn; lia|by right].
  cbn [v4_loop rbind v4_digits]. rewrite bool_decide_false by (by intros ->; simpl in Hld; lia).
  rewrite (v4_part_octet d) by (done || cbn; lia). cbn [rbind v4_parts app v4_pack].
  rewrite !byte_of_small by done. unfold is_byte in *.
  destruct (Z.gtb_spec a 255), (Z.gtb_spec b 255), (Z.gtb_spec c 255), (Z.gtb_spec d 255); try lia. done.
Qed.

Lemma byte_of_byte v k : is_byte (byte_of v k).
Proof. unfold is_byte, byte_of. change 255 with (Z.ones 8). rewrite Z.land_ones by lia. apply Z.mod_pos_bound. lia. Qed.

Lemma v4_pack_address parts addr : v4_pack parts = Ok addr -> length addr = 4%nat /\ Forall is_byte addr.
Proof.
  intros H. destruct parts as [|p0 [|p1 [|p2 [|p3 [|]]]]]; cbn [v4_pack] in H; try discriminate H; inv_Ok;
    (split; [done|]); repeat apply Forall_cons_2; auto using byte_of_byte, Forall_nil_2.
Qed.

#[export] Instance IPv4_codec : AddrCodec IPv4ToString StringToIPv4 4.
Proof.
  split; [exact IPv4_print_parse|]. unfold StringToIPv4. cbn [negb Z.eqb Pos.eqb Z.of_nat Pos.of_succ_nat Pos.succ].
  intros s addr H. inv_Ok; by eapply v4_pack_address.
Qed.

(** Every IPv4 address is printed within its buffer, and parsing the text
    gives the address back. *)
Theorem IPv4_roundtrip (addr : list Z) :
  length addr = 4%nat -> Forall is_byte addr ->
  exists s, IPv4ToString (Some addr) = Ok s /\ StringToIPv4 s false 4 = Ok addr.
Proof. exact (codec_roundtrip (AddrCodec := IPv4_codec) addr). Qed.

Lemma IPv4_roundtrip_witness :
  exists s, IPv4ToString (Some [192; 168; 0; 255]) = Ok s /\ StringToIPv4 s false 4 = Ok [192; 168; 0; 255].
Proof.
  apply (IPv4_roundtrip [192; 168; 0; 255]); [reflexivity|].
  apply (bool_decide_unpack _). vm_compute. exact I.
Defined.

(** An address written with two or three parts is documented to carry the
    rest of the address in the last part; the code packs the first part there:
    for all [a] and [b] the text ["a.b"] is read as [a.0.0.a]. *)
Theorem StringToIPv4_short_forms a b ta tb :
  is_byte a -> is_byte b -> octet_text a = Ok ta -> octet_text b = Ok tb ->
  StringToIPv4 (ta ++ 46 :: tb) false 4 = Ok [a; 0; 0; a].
Proof.
  intros Ha Hb Hta Htb.
  destruct (octet_text_like a Ha) as (ta' & Hta' & La), (octet_text_like b Hb) as (tb' & Htb' & Lb).
  assert (ta' = ta) as -> by congruence. assert (tb' = tb) as -> by congruence.
  destruct (octet_like_facts _ _ Lb) as (Hbd & Hlb & Hzb & _).
  unfold StringToIPv4, v4_init. cbn [negb Z.eqb].
  rewrite (v4_loop_octet a) by (done || cbn; lia).
  rewrite <- (app_nil_r tb), v4_loop_digits; cbn [v4_digits v4_mode v4_parts app];
    [|done|by left|done|cbn; lia|by right].
  cbn [v4_loop rbind v4_digits]. rewrite bool_decide_false by (by intros ->; simpl in Hlb; lia).
  rewrite (v4_part_octet b) by (done || cbn; lia). cbn [rbind v4_parts app v4_pack].
  rewrite byte_of_small by done. unfold is_byte, byte_of in *.
  destruct (Z.gtb_spec a 255), (Z.gtb_spec b 16777215); try lia. cbn [orb].
  rewrite !Z.shiftr_div_pow2, !Z.div_small by lia. done.
Qed.

(** ["10.1"] *)
Lemma StringToIPv4_short_forms_witness :
  StringToIPv4 [49; 48; 46; 49] false 4 = Ok [10; 0; 0; 10].
Proof. apply (StringToIPv4_short_forms 10 1 [49; 48] [49]); (reflexivity || (unfold is_byte; lia)). Defined.
