(* ===== verification/IPv6Proofs.v ===== *)
(** Printing an IPv6 address and parsing the text again. *)
From S2P Require Import Prelude Types BusUtil BusUtilProofs IPAddress IPAddressProofs.

(** * The text of a group *)

Definition group_like (v v2 : Z) (t : list Z) : bool :=
  forallb IsHexDigit t && (1 <=? zlen t) && (zlen t <=? 4) &&
  bool_decide (AccumulateDigits t 16 = Some (256 * v + v2)).

Lemma groups_checked :
  forallb (fun v => forallb (fun v2 => group_like (Z.of_nat v) (Z.of_nat v2)
                                         (group_text (Z.of_nat v) (Z.of_nat v2))) (seq 0 256)) (seq 0 256) = true.
Proof. vm_compute. reflexivity. Qed.

Lemma group_text_facts v v2 : is_byte v -> is_byte v2 ->
  chars IsHexDigit (group_text v v2) /\ (1 <= length (group_text v v2) <= 4)%nat /\
  AccumulateDigits (group_text v v2) 16 = Some (256 * v + v2).
Proof.
  unfold is_byte. intros Hv Hv2. pose proof groups_checked as H. rewrite forallb_forall in H.
  specialize (H (Z.to_nat v) ltac:(apply in_seq; lia)). rewrite forallb_forall in H.
  specialize (H (Z.to_nat v2) ltac:(apply in_seq; lia)). rewrite !Z2Nat.id in H by lia.
  unfold group_like in H. rewrite !andb_true_iff in H.
  destruct H as (((Hd & H1) & H4) & Ha%bool_decide_eq_true). split_and!; [|lia|lia|done].
  rewrite forallb_forall in Hd. apply Forall_forall. intros c Hc. by apply Hd, list_elem_of_In.
Qed.

(** * The two words of bits *)

Definition words (V : Z) : list Z := [V mod 2 ^ 64; V / 2 ^ 64].

(** A field behind the bits written so far, within one word. *)
Lemma SetBits_words V o w g :
  0 <= o -> 0 < w -> o < 128 -> (o + w <= 64 \/ 64 <= o) -> o + w <= 128 ->
  0 <= V < 2 ^ o -> 0 <= g < 2 ^ w ->
  SetBits (words V) o g = Ok (words (V + g * 2 ^ o)).
Proof.
  intros Ho Hw Ho' Hstraddle Hend HV Hg. unfold SetBits, words, u64.
  assert (forall s, 0 <= s -> s + w <= 64 -> Z.shiftl g s mod 2 ^ 64 = g * 2 ^ s) as Hs.
  { intros s ? ?. rewrite Z.shiftl_mul_pow2 by done. apply Z.mod_small.
    split; [nia|]. apply Z.lt_le_trans with (2 ^ w * 2 ^ s); [nia|].
    rewrite <- Z.pow_add_r by lia. apply Z.pow_le_mono_r; lia. }
  destruct Hstraddle as [Hlow|Hhigh].
  - assert (Z.shiftr o 6 = 0) as -> by (rewrite Z.shiftr_div_pow2 by lia; apply Z.div_small; lia).
    assert (2 ^ o <= 2 ^ 64) by (apply Z.pow_le_mono_r; lia).
    change (Z.to_nat 0) with 0%nat. cbn -[Z.pow Z.modulo Z.div Z.lor Z.mul Z.add Z.shiftl].
    rewrite Hs, (Z.mod_small V), lor_disjoint by lia.
    assert (V + g * 2 ^ o < 2 ^ 64).
    { apply Z.lt_le_trans with (2 ^ w * 2 ^ o); [nia|].
      rewrite <- Z.pow_add_r by lia. apply Z.pow_le_mono_r; lia. }
    rewrite (Z.mod_small (_ + _)), !Z.div_small by nia. done.
  - assert (Z.shiftr o 6 = 1) as ->.
    { rewrite Z.shiftr_div_pow2 by lia. change (2 ^ 6) with 64. Z.to_euclidean_division_equations. lia. }
    change (Z.to_nat 1) with 1%nat. cbn -[Z.pow Z.modulo Z.div Z.lor Z.mul Z.add Z.shiftl Z.sub].
    assert (2 ^ o = 2 ^ (o - 64) * 2 ^ 64) as Ho64 by (rewrite <- Z.pow_add_r by lia; f_equal; lia).
    rewrite Hs, lor_disjoint; try lia.
    + rewrite Ho64, Z.mul_assoc, Z.mod_add, Z.div_add by lia. done.
    + split; [apply Z.div_pos; lia|]. apply Z.div_lt_upper_bound; lia.
Qed.

(** The bytes [bs] of a side, the last one in the lowest bits. *)
Definition side_bits (bs : list Z) : list Z := words (le_val (rev bs)).

Lemma le_val_snoc bs x : le_val (bs ++ [x]) = le_val bs + x * 2 ^ (8 * zlen bs).
Proof.
  induction bs as [|b bs IH]; cbn [app le_val length]; [simpl; lia|].
  rewrite IH, pow8_succ. lia.
Qed.

Lemma rev_bound bs : Forall is_byte bs -> 0 <= le_val (rev bs) < 2 ^ (8 * zlen bs).
Proof. intros Hb. rewrite <- (length_rev bs). apply le_val_bound, Forall_rev, Hb. Qed.

Lemma SetBits_byte bs b : Forall is_byte bs -> is_byte b -> (length bs < 16)%nat ->
  SetBits (side_bits bs) (8 * zlen bs) b = Ok (side_bits (b :: bs)).
Proof.
  intros Hbs Hb Hl. unfold side_bits. rewrite (SetBits_words _ _ 8) by (try apply rev_bound; unfold is_byte in *; try done; lia).
  cbn [rev]. by rewrite le_val_snoc, length_rev.
Qed.

Lemma SetBits_group bs a b : Forall is_byte bs -> is_byte a -> is_byte b ->
  (length bs < 16)%nat -> Nat.Even (length bs) ->
  SetBits (side_bits bs) (8 * zlen bs) (256 * a + b) = Ok (side_bits (a :: b :: bs)).
Proof.
  intros Hbs Ha Hb Hl [k Hk]. unfold side_bits.
  rewrite (SetBits_words _ _ 16) by (try apply rev_bound; unfold is_byte in *; try done; lia).
  cbn [rev]. rewrite !le_val_snoc, length_app, !length_rev. cbn [length].
  rewrite Nat2Z.inj_add, Z.mul_add_distr_l, (Z.pow_add_r 2 (8 * zlen bs)) by lia.
  change (2 ^ (8 * Z.of_nat 1)) with 256. do 2 f_equal. lia.
Qed.

(** [v6_unpack] copies the bytes of the words downwards; [w0] and [w1] are what is
    left of the words of [V] after [m] turns. *)
Definition unpacking (V : Z) (m : nat) (w0 w1 : Z) : Prop :=
  if bool_decide (m < 4)%nat then w0 = V mod 2 ^ 64 / 2 ^ (16 * Z.of_nat m) /\ w1 = V / 2 ^ 64
  else w1 = V / 2 ^ (16 * Z.of_nat m).

Lemma land255 x : Z.land x 255 = x mod 256.
Proof. change 255 with (Z.ones 8). by rewrite Z.land_ones. Qed.

Lemma shift16 x p : 0 <= p -> Z.shiftr (Z.shiftr (x / 2 ^ p) 8) 8 = x / 2 ^ (p + 16).
Proof.
  intros. rewrite !Z.shiftr_div_pow2, !Z.div_div by (try apply Z.pow_pos_nonneg; lia).
  f_equal. by rewrite Z.pow_add_r by lia.
Qed.

(** The low 16 bits of what is left of the first word are those of [V]. *)
Lemma low_word V m i : (m < 4)%nat -> i = 0 \/ i = 8 ->
  Z.shiftr (V mod 2 ^ 64 / 2 ^ (16 * Z.of_nat m)) i mod 256 = Z.shiftr (V / 2 ^ (16 * Z.of_nat m)) i mod 256.
Proof.
  intros Hm Hi. change 256 with (2 ^ 8). rewrite <- !Z.land_ones by lia.
  apply Z.bits_inj'. intros n Hn. rewrite !Z.land_spec, !Z.shiftr_spec by lia.
  destruct (Z.lt_ge_cases n 8); [|by rewrite !Z.ones_spec_high, !andb_false_r by lia].
  rewrite !Z.div_pow2_bits, Z.land_spec, (Z.ones_spec_low 64) by lia. by rewrite andb_true_r.
Qed.

Lemma unpacking_step V m w0 w1 : unpacking V m w0 w1 ->
  let w := if 16 * Z.of_nat m <? 64 then w0 else w1 in
  Z.land w 255 = V / 2 ^ (16 * Z.of_nat m) mod 256 /\
  Z.land (Z.shiftr w 8) 255 = V / 2 ^ (16 * Z.of_nat m) / 256 mod 256 /\
  (if 16 * Z.of_nat m <? 64 then unpacking V (S m) (Z.shiftr (Z.shiftr w0 8) 8) w1
   else unpacking V (S m) w0 (Z.shiftr (Z.shiftr w1 8) 8)).
Proof.
  unfold unpacking. intros H. rewrite !land255.
  change (V / 2 ^ (16 * Z.of_nat m) / 256) with (V / 2 ^ (16 * Z.of_nat m) / 2 ^ 8).
  rewrite <- (Z.shiftr_div_pow2 _ 8) by lia.
  assert (forall x, x mod 256 = Z.shiftr x 0 mod 256) as H0 by (intros; by rewrite Z.shiftr_0_r).
  case_bool_decide as Hm.
  - destruct H as [-> ->]. rewrite (proj2 (Z.ltb_lt _ _)) by lia.
    split_and!; [rewrite !(H0 (_ / _)); apply low_word; auto|by apply low_word; auto|].
    case_bool_decide as Hm'.
    + split; [|done]. rewrite shift16 by lia. do 2 f_equal. lia.
    + assert (m = 3%nat) as -> by lia. done.
  - subst w1. rewrite (proj2 (Z.ltb_ge _ _)) by lia. split_and!; [done..|].
    rewrite bool_decide_false by lia. rewrite shift16 by lia. do 2 f_equal. lia.
Qed.

Lemma insert_pair {A} (buf : list A) (i : nat) (x y : A) : (S i < length buf)%nat ->
  <[i := x]> (<[S i := y]> buf) = take i buf ++ x :: y :: drop (S (S i)) buf.
Proof.
  revert i. induction buf as [|b buf IH]; intros [|i] Hi; simpl in *; try lia.
  - destruct buf; simpl in *; [lia|]. done.
  - f_equal. apply IH. lia.
Qed.

Lemma v6_unpack_ok V n : forall m w0 w1 index buf,
  unpacking V m w0 w1 -> 2 * Z.of_nat n <= index + 1 -> index < zlen buf ->
  v6_unpack n w0 w1 (16 * Z.of_nat m) index buf =
  Ok (take (Z.to_nat (index + 1 - 2 * Z.of_nat n)) buf
        ++ rev (le_bytes (2 * n) (V / 2 ^ (16 * Z.of_nat m))) ++ drop (Z.to_nat (index + 1)) buf,
      index - 2 * Z.of_nat n).
Proof.
  induction n as [|n IH]; intros m w0 w1 index buf Hu Hi Hb; cbn [v6_unpack].
  - cbn [le_bytes rev app Nat.mul Nat.add]. replace (index + 1 - 2 * Z.of_nat 0) with (index + 1) by lia.
    rewrite take_drop. do 2 f_equal. lia.
  - rewrite bool_decide_true by lia.
    destruct (unpacking_step _ _ _ _ Hu) as (H1 & H2 & H3).
    set (b1 := V / 2 ^ (16 * Z.of_nat m) mod 256) in *.
    set (b2 := V / 2 ^ (16 * Z.of_nat m) / 256 mod 256) in *.
    assert (forall w0' w1', unpacking V (S m) w0' w1' ->
      v6_unpack n w0' w1' (16 * Z.of_nat m + 16) (index - 2)
        (<[Z.to_nat (index - 1) := b2]> (<[Z.to_nat index := b1]> buf)) =
      Ok (take (Z.to_nat (index + 1 - 2 * Z.of_nat (S n))) buf
        ++ rev (le_bytes (2 * S n) (V / 2 ^ (16 * Z.of_nat m))) ++ drop (Z.to_nat (index + 1)) buf,
        index - 2 * Z.of_nat (S n))) as Hgo.
    { intros w0' w1' Hu'. replace (16 * Z.of_nat m + 16) with (16 * Z.of_nat (S m)) by lia.
      rewrite IH; [|done|lia|rewrite !length_insert; lia].
      replace (Z.to_nat index) with (S (Z.to_nat (index - 1))) by lia.
      rewrite insert_pair by lia. f_equal. f_equal; [|lia].
      rewrite take_app_le, take_take by (rewrite length_take; lia).
      replace (2 * S n)%nat with (S (S (2 * n))) by lia. cbn [le_bytes rev]. rewrite <- !app_assoc.
      replace (V / 2 ^ (16 * Z.of_nat m) / 256 / 256) with (V / 2 ^ (16 * Z.of_nat (S m))).
      2:{ rewrite !Z.div_div by lia. f_equal. replace (16 * Z.of_nat (S m)) with (16 * Z.of_nat m + 16) by lia.
          rewrite Z.pow_add_r by lia. lia. }
      f_equal; [f_equal; lia|]. f_equal. cbn [app].
      rewrite drop_app_ge by (rewrite length_take; lia). rewrite length_take.
      replace (Z.to_nat (index - 2 + 1) - _)%nat with 0%nat by lia.
      cbn [drop]. subst b1 b2. do 3 f_equal. lia. }
    destruct (16 * Z.of_nat m <? 64); rewrite H1, H2; by apply Hgo.
Qed.

Lemma v6_bits_ok bs index buf : Forall is_byte bs -> Nat.Even (length bs) -> (length bs <= 16)%nat ->
  zlen bs <= index + 1 -> index < zlen buf ->
  v6_bits (side_bits bs) (8 * zlen bs) index buf =
  Ok (take (Z.to_nat (index + 1 - zlen bs)) buf ++ bs ++ drop (Z.to_nat (index + 1)) buf, index - zlen bs).
Proof.
  intros Hbs [k Hk] Hl Hi Hb. unfold v6_bits, side_bits, words. cbn [nth].
  replace (Z.to_nat ((8 * zlen bs + 15) / 16)) with k by (Z.to_euclidean_division_equations; lia).
  pose proof (v6_unpack_ok (le_val (rev bs)) k 0 _ _ index buf
    (conj (eq_sym (Z.div_1_r _)) eq_refl) ltac:(lia) ltac:(lia)) as H.
  change (16 * Z.of_nat 0) with 0 in H. rewrite Z.div_1_r, <- Hk in H. rewrite H.
  replace (le_bytes (length bs) (le_val (rev bs))) with (rev bs)
    by (rewrite <- (length_rev bs); symmetry; by apply le_bytes_le_val, Forall_rev).
  rewrite rev_involutive. by replace (2 * Z.of_nat k) with (zlen bs) by lia.
Qed.

(** * The parser on the text of groups *)

(** The state with the bytes [R] in the right bits and [L] in the left bits. *)
Definition mkst (left : bool) (exp : Z) (proc : bool) (oct : Z) (R L ds : list Z) (any : bool) : V6 :=
  {| leftBits := side_bits L; rightBits := side_bits R; leftBitCount := 8 * zlen L;
     rightBitCount := 8 * zlen R; groupExpansionCount := exp; groupProcessed := proc;
     octetCount := oct; leftCounter := left; digits := ds; parseModeAny := any |}.

(** [push left bs R L]: the sides after the bytes [bs] went to the side being
    filled. *)
Definition pushR (left : bool) (bs R : list Z) : list Z := if left then R else bs ++ R.
Definition pushL (left : bool) (bs L : list Z) : list Z := if left then bs ++ L else L.

Definition side_ok (bs : list Z) : Prop := Forall is_byte bs /\ Nat.Even (length bs).
Definition room (left : bool) (R L : list Z) (n : nat) : Prop :=
  (length (if left then L else R) + n <= 16)%nat.

Lemma v6_group_push left exp proc oct R L any a b : is_byte a -> is_byte b ->
  side_ok R -> side_ok L -> room left R L 2 ->
  v6_group (mkst left exp proc oct R L (group_text a b) any) =
  Ok (mkst left exp proc oct (pushR left [a; b] R) (pushL left [a; b] L) [] any).
Proof.
  intros Ha Hb (HR & HR2) (HL & HL2) Hroom. unfold v6_group. cbn [digits mkst].
  destruct (group_text_facts a b Ha Hb) as (_ & _ & ->).
  unfold v6_store, room, mkst in *. cbn [leftCounter leftBits rightBits leftBitCount rightBitCount].
  destruct left; rewrite SetBits_group by (done || lia); cbn [rbind pushR pushL app length];
    do 2 f_equal; cbn [leftBitCount rightBitCount]; lia.
Qed.

(** Hexadecimal digits are collected from the last to the first. *)
Lemma v6_loop_digits t : forall rest left exp proc oct R L ds,
  chars IsHexDigit t -> (length t + length ds <= 4)%nat ->
  v6_loop (rev t ++ rest) (mkst left exp proc oct R L ds true) =
  v6_loop rest (mkst left exp proc oct R L (t ++ ds) true).
Proof.
  induction t as [|c t IH] using rev_ind; intros rest left exp proc oct R L ds Ht Hl; [done|].
  apply Forall_app in Ht as [Ht Hc]. rewrite Forall_singleton in Hc. rewrite length_app in Hl. cbn [length] in Hl.
  rewrite rev_app_distr. cbn [rev app v6_loop parseModeAny mkst].
  assert (forall st', st' = mkst left exp proc oct R L ds true -> v6_any st' c = Ok (mkst left exp proc oct R L (c :: ds) true)) as Hany.
  { intros ? ->. unfold v6_any. unfold IsHexDigit in Hc. destruct (Z.eqb_spec c 58); [lia|].
    assert (IsHexDigit c = true) as -> by (unfold IsHexDigit; lia).
    unfold v6_digit. cbn [digits mkst]. by rewrite bool_decide_false by lia. }
  assert ((c =? 58) = false) as Hc58 by (unfold IsHexDigit in Hc; lia).
  rewrite <- app_assoc. cbn [app]. rewrite <- (IH rest) by first [exact Ht | cbn [length]; lia].
  destruct (rev t ++ rest) as [|c' s'']; rewrite ?Hc58; cbn [andb]; by rewrite Hany.
Qed.

(** The groups of [bs] with colons between them. *)
Fixpoint seg_text (bs : list Z) : list Z :=
  match bs with
  | [a; b] => group_text a b
  | a :: b :: bs => group_text a b ++ 58 :: seg_text bs
  | _ => []
  end.

Lemma seg_text_cons a b bs : bs <> [] -> seg_text (a :: b :: bs) = group_text a b ++ 58 :: seg_text bs.
Proof. by destruct bs. Qed.

Lemma even_ind (P : list Z -> Prop) :
  P [] -> (forall a b bs, Nat.Even (length bs) -> P bs -> P (a :: b :: bs)) ->
  forall bs, Nat.Even (length bs) -> P bs.
Proof.
  intros H0 H2. assert (forall n bs, (length bs <= n)%nat -> Nat.Even (length bs) -> P bs) as H; [|eauto].
  induction n as [|n IH]; intros [|a [|b bs]] Hl He; simpl in *; try lia; try done.
  - by destruct He as [? He]; lia.
  - assert (Nat.Even (length bs)) by (destruct He as [k He]; exists (k - 1)%nat; lia).
    apply H2; [done|]. apply IH; [lia|done].
Qed.

Lemma even_S2 n : Nat.Even n -> Nat.Even (S (S n)).
Proof. intros [k ->]. exists (S k). lia. Qed.

Lemma side_ok_push left a b R L : is_byte a -> is_byte b -> side_ok R -> side_ok L ->
  side_ok (pushR left [a; b] R) /\ side_ok (pushL left [a; b] L).
Proof.
  unfold side_ok, pushR, pushL. intros Ha Hb (? & ?) (? & ?).
  destruct left; cbn [app length]; split_and!; try done; try (by apply even_S2); by repeat apply Forall_cons_2.
Qed.

Lemma group_text_rev a b : is_byte a -> is_byte b ->
  exists d ds, rev (group_text a b) = d :: ds /\ (d =? 58) = false.
Proof.
  intros Ha Hb. destruct (group_text_facts a b Ha Hb) as (Ht & Hl & _).
  apply Forall_rev in Ht. destruct (rev (group_text a b)) as [|d ds] eqn:Hr.
  - apply (f_equal length) in Hr. rewrite length_rev in Hr. simpl in Hr. lia.
  - exists d, ds. split; [done|]. inversion Ht as [|? ? Hd]; subst. unfold IsHexDigit in Hd. lia.
Qed.

(** A colon behind which no second one follows ends a group. *)
Lemma v6_loop_colon a b d s left exp proc oct R L : is_byte a -> is_byte b ->
  side_ok R -> side_ok L -> room left R L 2 -> (d =? 58) = false ->
  v6_loop (58 :: d :: s) (mkst left exp proc oct R L (group_text a b) true) =
  v6_loop (d :: s) (mkst left exp true oct (pushR left [a; b] R) (pushL left [a; b] L) [] true).
Proof.
  intros Ha Hb HR HL Hroom Hd. remember (d :: s) as ds eqn:Hds. cbn [v6_loop parseModeAny mkst].
  rewrite Hds, Hd, andb_false_r. unfold v6_any. cbn [Z.eqb Pos.eqb].
  rewrite bool_decide_false.
  2:{ cbn [digits mkst]. destruct (group_text_facts a b Ha Hb) as (_ & Hl & _). intros H. rewrite H in Hl. simpl in Hl. lia. }
  by rewrite v6_group_push by done.
Qed.

Lemma v6_loop_seg : forall bs, Nat.Even (length bs) -> forall a b rest left exp proc oct R L,
  Forall is_byte (a :: b :: bs) -> side_ok R -> side_ok L -> room left R L (length bs) ->
  exists proc',
    v6_loop (rev (seg_text (a :: b :: bs)) ++ rest) (mkst left exp proc oct R L [] true) =
    v6_loop rest (mkst left exp proc' oct (pushR left bs R) (pushL left bs L) (group_text a b) true).
Proof.
  refine (even_ind _ _ _).
  - intros a b rest left exp proc oct R L Hall ? ? _. rewrite !Forall_cons in Hall. destruct Hall as (Ha & Hb & _).
    exists proc. cbn [seg_text]. destruct (group_text_facts a b) as (Ht & Hl & _); [done..|].
    rewrite v6_loop_digits, app_nil_r by (done || cbn [length]; lia). by destruct left.
  - intros x y bs He IH a b rest left exp proc oct R L Hall HR HL Hroom.
    inversion Hall as [|? ? Ha Hall2]; subst. inversion Hall2 as [|? ? Hb Hall3]; subst.
    inversion Hall3 as [|? ? Hx Hall4]; subst. inversion Hall4 as [|? ? Hy Hbs]; subst.
    destruct (group_text_facts a b Ha Hb) as (Ht & Hl & _).
    rewrite seg_text_cons by done. rewrite rev_app_distr. cbn [rev]. rewrite <- !app_assoc. cbn [app].
    unfold room in *. cbn [length] in Hroom.
    destruct (IH x y (58 :: rev (group_text a b) ++ rest) left exp proc oct R L) as (proc' & ->);
      [done..|lia|].
    exists true. destruct (group_text_rev a b Ha Hb) as (d & ds & Hrev & Hd).
    rewrite Hrev. cbn [app]. rewrite v6_loop_colon; [|done|done| | | |done].
    + rewrite app_comm_cons, <- Hrev. rewrite v6_loop_digits, app_nil_r by (done || cbn [length]; lia).
      by destruct left.
    + unfold side_ok in *. destruct left; cbn [pushR]; [done|]. rewrite length_app, Forall_app.
      destruct HR. split; [done|]. by apply Nat.Even_Even_add.
    + unfold side_ok in *. destruct left; cbn [pushL]; [|done]. rewrite length_app, Forall_app.
      destruct HL. split; [done|]. by apply Nat.Even_Even_add.
    + unfold room. destruct left; cbn [pushR pushL]; rewrite length_app; lia.
Qed.

(** A whole side: nothing, or groups of which the first is still in the digits;
    [v6_flush] is what both ["::"] and the end of the text do with them. *)
Definition v6_flush (st : V6) : res V6 := if bool_decide (digits st = []) then Ok st else v6_group st.

Lemma v6_loop_side bs rest left exp proc oct R L :
  side_ok bs -> side_ok R -> side_ok L -> room left R L (length bs) ->
  exists st proc',
    v6_loop (rev (seg_text bs) ++ rest) (mkst left exp proc oct R L [] true) = v6_loop rest st /\
    v6_flush st = Ok (mkst left exp proc' oct (pushR left bs R) (pushL left bs L) [] true) /\
    parseModeAny st = true /\ groupExpansionCount st = exp.
Proof.
  intros (Hbs & He) HR HL Hroom. destruct bs as [|a [|b bs]].
  - exists (mkst left exp proc oct R L [] true), proc. split_and!; [done| |done|done]. by destruct left.
  - by destruct He as [? He]; simpl in He; lia.
  - assert (Nat.Even (length bs)) as He' by (destruct He as [k He]; exists (k - 1)%nat; simpl in He; lia).
    unfold room in Hroom. cbn [length] in Hroom.
    destruct (v6_loop_seg bs He' a b rest left exp proc oct R L) as (proc' & ->);
      [done..|unfold room; lia|].
    eexists _, proc'. split; [reflexivity|]. split_and!; [|done|done].
    rewrite !Forall_cons in Hbs. destruct Hbs as (Ha & Hb & Hbs).
    unfold v6_flush. rewrite bool_decide_false.
    2:{ cbn [digits mkst]. destruct (group_text_facts a b Ha Hb) as (_ & Hl & _). intros H. rewrite H in Hl. simpl in Hl. lia. }
    rewrite v6_group_push; [by destruct left|done|done| | |].
    + unfold side_ok in *. destruct left; cbn [pushR]; [done|]. rewrite length_app, Forall_app.
      destruct HR. split; [done|]. by apply Nat.Even_Even_add.
    + unfold side_ok in *. destruct left; cbn [pushL]; [|done]. rewrite length_app, Forall_app.
      destruct HL. split; [done|]. by apply Nat.Even_Even_add.
    + unfold room. destruct left; cbn [pushR pushL]; rewrite length_app; lia.
Qed.

Lemma v6_loop_expand rest st proc oct R :
  v6_flush st = Ok (mkst false 0 proc oct R [] [] true) -> parseModeAny st = true ->
  groupExpansionCount st = 0 ->
  v6_loop (58 :: 58 :: rest) st = v6_loop rest (mkst true 1 proc oct R [] [] true).
Proof.
  intros Hf Hany He. cbn [v6_loop]. rewrite Hany. cbn [Z.eqb Pos.eqb andb]. unfold v6_expand.
  rewrite He. cbn [Z.add Z.gtb Z.compare Pos.compare Pos.compare_cont]. fold (v6_flush st). by rewrite Hf.
Qed.

Lemma v6_bits_front bs index buf : side_ok bs -> (length bs <= 16)%nat ->
  index = zlen bs - 1 -> (length bs <= length buf)%nat ->
  v6_bits (side_bits bs) (8 * zlen bs) index buf = Ok (bs ++ drop (length bs) buf, -1).
Proof.
  intros (Hbs & He) Hl -> Hb. rewrite v6_bits_ok by (done || lia).
  replace (zlen bs - 1 + 1 - zlen bs) with 0 by lia. replace (zlen bs - 1 + 1) with (zlen bs) by lia.
  rewrite Nat2Z.id. cbn [Z.to_nat take app]. do 2 f_equal. lia.
Qed.

Lemma v6_bits_back bs : side_ok bs -> (length bs <= 16)%nat ->
  v6_bits (side_bits bs) (8 * zlen bs) 15 (replicate 16 0) =
  Ok (replicate (16 - length bs) 0 ++ bs, 15 - zlen bs).
Proof.
  intros (Hbs & He) Hl. rewrite v6_bits_ok by (try done; rewrite ?length_replicate; lia).
  rewrite take_replicate, drop_replicate. change (16 - Z.to_nat (15 + 1))%nat with 0%nat.
  cbn [replicate]. rewrite app_nil_r. do 4 f_equal. lia.
Qed.

Lemma shift3 x : 0 <= x -> Z.shiftr (8 * x) 3 = x.
Proof. intros. rewrite Z.shiftr_div_pow2, Z.mul_comm by lia. by apply Z.div_mul. Qed.

(** The address the collected sides make up. *)
Lemma v6_pack_sides exp proc oct R L left : side_ok R -> side_ok L ->
  (length R + length L <= 16)%nat -> (L = [] \/ exp = 1) -> (exp = 1 \/ length R = 16%nat) ->
  v6_pack (mkst left exp proc oct R L [] true) = Ok (L ++ replicate (16 - length R - length L) 0 ++ R).
Proof.
  intros HR HL Hlen HLe HRe. unfold v6_pack, IPv6_SIZE.
  cbn [rightBitCount leftBitCount leftBits rightBits groupExpansionCount mkst].
  replace (128 - 8 * zlen R - 8 * zlen L) with (8 * (16 - zlen R - zlen L)) by lia.
  replace (128 - 8 * zlen L) with (8 * (16 - zlen L)) by lia. rewrite !shift3 by lia.
  pose proof (length_zero_iff_nil R) as HRn. pose proof (length_zero_iff_nil L) as HLn.
  destruct (Z.gtb_spec (8 * zlen R) 0), (Z.gtb_spec (8 * zlen L) 0); cbn [andb].
  - destruct HLe as [->| ->]; [simpl in *; lia|]. rewrite v6_bits_back by (done || lia). cbn [rbind].
    rewrite v6_bits_front by (try done; rewrite ?length_app, ?length_replicate; lia). cbn [rbind].
    rewrite drop_app_le by (rewrite length_replicate; lia). by rewrite drop_replicate.
  - assert (L = []) as -> by (apply HLn; lia).
    rewrite (proj2 (Z.eqb_neq (8 * zlen R) 0)) by lia. cbn [andb].
    rewrite v6_bits_back by (done || lia). cbn [rbind].
    replace ((exp =? 0) && negb (8 * zlen R =? 128)) with false by (destruct HRe; lia).
    cbn [length app]. by rewrite Nat.sub_0_r.
  - assert (R = []) as -> by (apply HRn; lia). destruct HLe as [->| ->]; [simpl in *; lia|].
    rewrite (proj2 (Z.eqb_neq (8 * zlen L) 0)), andb_false_r by lia. cbn [Z.gtb Z.compare].
    rewrite v6_bits_front by (try done; rewrite ?length_replicate; lia). cbn [rbind].
    by rewrite drop_replicate, app_nil_r.
  - assert (R = []) as -> by (apply HRn; lia). assert (L = []) as -> by (apply HLn; lia).
    destruct HRe as [->|?]; [done|simpl in *; lia].
Qed.

(** ["L::R"] is parsed to [L], zeros and [R]. *)
Lemma StringToIPv6_expanded L R : side_ok L -> side_ok R -> (length R + length L <= 16)%nat ->
  StringToIPv6 (seg_text L ++ 58 :: 58 :: seg_text R) false 16 =
  Ok (L ++ replicate (16 - length R - length L) 0 ++ R).
Proof.
  intros HL HR Hlen. unfold StringToIPv6. cbn [negb Z.eqb Pos.eqb].
  rewrite rev_app_distr. cbn [rev]. rewrite <- !app_assoc. cbn [app].
  change v6_init with (mkst false 0 false 0 [] [] [] true).
  assert (side_ok []) as Hnil by (split; [by apply Forall_nil_2|by exists 0%nat]).
  destruct (v6_loop_side R (58 :: 58 :: rev (seg_text L)) false 0 false 0 [] [])
    as (st & proc' & -> & Hf & Ha & He); [done..|unfold room; simpl; lia|].
  rewrite (v6_loop_expand _ _ proc' 0 R) by (done || by rewrite Hf; cbn [pushR pushL]; rewrite app_nil_r).
  rewrite <- (app_nil_r (rev (seg_text L))).
  destruct (v6_loop_side L [] true 1 proc' 0 R []) as (st' & proc'' & -> & Hf' & Ha' & He');
    [done..|unfold room; simpl; lia|].
  cbn [v6_loop rbind]. rewrite Ha'. cbn [negb]. fold (v6_flush st'). rewrite Hf'. cbn [rbind pushR pushL].
  rewrite app_nil_r. by apply v6_pack_sides; auto.
Qed.

(** Eight groups. *)
Lemma StringToIPv6_plain R : side_ok R -> length R = 16%nat ->
  StringToIPv6 (seg_text R) false 16 = Ok R.
Proof.
  intros HR Hlen. unfold StringToIPv6. cbn [negb Z.eqb Pos.eqb].
  change v6_init with (mkst false 0 false 0 [] [] [] true).
  assert (side_ok []) as Hnil by (split; [by apply Forall_nil_2|by exists 0%nat]).
  rewrite <- (app_nil_r (rev (seg_text R))).
  destruct (v6_loop_side R [] false 0 false 0 [] []) as (st & proc' & -> & Hf & Ha & He);
    [done..|unfold room; simpl; lia|].
  cbn [v6_loop rbind]. rewrite Ha. cbn [negb]. fold (v6_flush st). rewrite Hf. cbn [rbind pushR pushL].
  rewrite app_nil_r, v6_pack_sides by (try done; simpl; auto; lia). by rewrite Hlen.
Qed.

(** * Mapped IPv4 addresses *)

Lemma decimal_hex t : chars IsDecimalDigit t -> chars IsHexDigit t.
Proof. intros H. eapply Forall_impl; [exact H|]. intros c. unfold IsDecimalDigit, IsHexDigit. lia. Qed.

Lemma v6_octet_push v t exp proc oct R any : is_byte v -> octet_like v t = true -> Forall is_byte R ->
  (length R < 16)%nat ->
  v6_octet (mkst false exp proc oct R [] t any) = Ok (mkst false exp proc oct (v :: R) [] [] any).
Proof.
  intros Hv (_ & _ & _ & Ha)%octet_like_facts HR Hl. unfold v6_octet. cbn [digits mkst]. rewrite Ha.
  unfold is_byte in Hv. destruct (Z.gtb_spec v 255); [lia|].
  unfold v6_store. cbn [leftCounter rightBits rightBitCount mkst]. rewrite SetBits_byte by done.
  cbn [rbind]. unfold mkst. cbn [length]. do 2 f_equal. cbn [rightBitCount]. lia.
Qed.

Lemma v6_loop_octdigits t : forall rest exp proc oct R ds,
  chars IsDecimalDigit t -> (length t + length ds <= 4)%nat ->
  v6_loop (rev t ++ rest) (mkst false exp proc oct R [] ds false) =
  v6_loop rest (mkst false exp proc oct R [] (t ++ ds) false).
Proof.
  induction t as [|c t IH] using rev_ind; intros rest exp proc oct R ds Ht Hl; [done|].
  apply Forall_app in Ht as [Ht Hc]. rewrite Forall_singleton in Hc.
  rewrite length_app in Hl. cbn [length] in Hl.
  rewrite rev_app_distr. cbn [rev app v6_loop parseModeAny mkst]. unfold v6_octets. rewrite Hc.
  unfold v6_digit. cbn [digits mkst]. rewrite bool_decide_false by lia. cbn [rbind].
  rewrite <- app_assoc. cbn [app]. rewrite <- (IH rest) by first [exact Ht|cbn [length]; lia]. done.
Qed.

(** An octet and the separator in front of it: a dot, or the colon that ends the
    octets. *)
Lemma v6_loop_octet v t sep rest n R : is_byte v -> octet_like v t = true -> Forall is_byte R ->
  (length R < 16)%nat -> sep = 46 /\ n + 1 <= 4 \/ sep = 58 /\ n + 1 = 4 ->
  v6_loop (rev t ++ sep :: rest) (mkst false 0 false n R [] [] false) =
  v6_loop rest (mkst false 0 false (n + 1) (v :: R) [] [] (sep =? 58)).
Proof.
  intros Hv Ht HR Hl Hsep. destruct (octet_like_facts _ _ Ht) as (Hd & Hlt & _ & _).
  rewrite v6_loop_octdigits, app_nil_r by (done || simpl; lia).
  cbn [v6_loop parseModeAny mkst]. unfold v6_octets.
  assert (IsDecimalDigit sep = false) as -> by (by destruct Hsep as [[-> _]|[-> _]]).
  replace ((sep =? 46) || (sep =? 58)) with true by lia. cbn [octetCount mkst].
  replace ((sep =? 58) && negb (n + 1 =? 4)) with false by lia.
  destruct (Z.gtb_spec (n + 1) 4); [lia|].
  rewrite bool_decide_false by (cbn [digits mkst]; intros ->; simpl in Hlt; lia).
  change (with_flags _ _ _ _ _ _) with (mkst false 0 false (n + 1) R [] t (if sep =? 58 then true else false)).
  rewrite (v6_octet_push v) by done. by destruct (sep =? 58).
Qed.

(** The first dot switches to octets. *)
Lemma v6_loop_first_octet v t rest : is_byte v -> octet_like v t = true ->
  v6_loop (rev t ++ 46 :: rest) (mkst false 0 false 0 [] [] [] true) =
  v6_loop rest (mkst false 0 false 1 [v] [] [] false).
Proof.
  intros Hv Ht. destruct (octet_like_facts _ _ Ht) as (Hd & Hlt & _ & _).
  rewrite v6_loop_digits, app_nil_r by first [by apply decimal_hex|simpl; lia].
  cbn [v6_loop parseModeAny mkst].
  assert (v6_any (mkst false 0 false 0 [] [] t true) 46 = Ok (mkst false 0 false 1 [v] [] [] false)) as Hany.
  { unfold v6_any. cbn [Z.eqb Pos.eqb]. change (IsHexDigit 46) with false. cbn iota.
    cbn [octetCount groupProcessed groupExpansionCount mkst Z.add Z.gtb Z.compare Pos.compare Pos.compare_cont orb].
    rewrite bool_decide_false by (cbn [digits mkst]; intros ->; simpl in Hlt; lia).
    change (0 + 1 >? 4) with false. cbn iota.
    change (with_flags (mkst _ _ _ _ _ _ _ _) _ _ _ _ _) with (mkst false 0 false 1 [] [] t true).
    by rewrite (v6_octet_push v) by first [done|apply Forall_nil_2|simpl; lia]. }
  fold (mkst false 0 false 0 [] [] t true). destruct rest as [|c' s]; cbn [Z.eqb Pos.eqb andb]; by rewrite Hany.
Qed.

Lemma StringToIPv6_mapped a b c d ta tb tc td : Forall is_byte [a; b; c; d] ->
  octet_like a ta = true -> octet_like b tb = true -> octet_like c tc = true -> octet_like d td = true ->
  StringToIPv6 ([58; 58; 102; 102; 102; 102; 58] ++ ta ++ 46 :: tb ++ 46 :: tc ++ 46 :: td) false 16 =
  Ok (replicate 10 0 ++ [255; 255; a; b; c; d]).
Proof.
  intros Hall La Lb Lc Ld. pose proof Hall as Hall'. rewrite !Forall_cons in Hall'.
  destruct Hall' as (Ha & Hb & Hc & Hd & _).
  unfold StringToIPv6. cbn [negb Z.eqb Pos.eqb].
  replace (rev _) with (rev td ++ 46 :: rev tc ++ 46 :: rev tb ++ 46 :: rev ta ++ 58 ::
    rev (seg_text [255; 255]) ++ [58; 58])
    by (repeat (rewrite rev_app_distr || cbn [rev app]); rewrite <- ?app_assoc; cbn [app]; by rewrite <- ?app_assoc).
  change v6_init with (mkst false 0 false 0 [] [] [] true).
  rewrite (v6_loop_first_octet d) by done.
  rewrite (v6_loop_octet c) by first [done|by repeat apply Forall_cons_2|simpl; lia|left; split; [done|lia]].
  rewrite (v6_loop_octet b) by first [done|by repeat apply Forall_cons_2|simpl; lia|left; split; [done|lia]].
  rewrite (v6_loop_octet a) by first [done|by repeat apply Forall_cons_2|simpl; lia|right; split; [done|lia]].
  change (1 + 1 + 1 + 1) with 4. change (58 =? 58) with true.
  assert (side_ok []) as Hnil by (split; [by apply Forall_nil_2|by exists 0%nat]).
  assert (side_ok [a; b; c; d]) as Hs by (split; [done|by exists 2%nat]).
  assert (side_ok [255; 255]) as Hff by (split; [apply (bool_decide_unpack _); exact I|by exists 1%nat]).
  destruct (v6_loop_side [255; 255] [58; 58] false 0 false 4 [a; b; c; d] [])
    as (st & proc' & H & Hf & Hm & He); [done..|unfold room; simpl; lia|].
  rewrite H, (v6_loop_expand _ _ proc' 4 [255; 255; a; b; c; d]) by done.
  cbn [v6_loop rbind parseModeAny mkst negb digits]. rewrite bool_decide_true by done. cbn [rbind].
  change (v6_pack _) with (v6_pack (mkst true 1 proc' 4 [255; 255; a; b; c; d] [] [] true)).
  rewrite v6_pack_sides; [done| |done|simpl; lia|by left|by left].
  split; [|by exists 3%nat]. apply Forall_app_2 with (l1 := [255; 255]); [apply Hff|done].
Qed.

(** * What the printer prints *)

Lemma groups_text_tail mfz mlz : forall bs, Nat.Even (length bs) -> forall c,
  c + zlen bs = 16 -> (mfz <= mlz < c \/ 16 < mfz) ->
  groups_text c mfz mlz bs = seg_text bs.
Proof.
  refine (even_ind _ _ _); [done|]. intros a b bs He IH c Hc Hr. cbn [length] in Hc.
  cbn [groups_text]. rewrite IH by lia.
  replace ((mfz <=? c) && (c <=? mlz)) with false by lia.
  destruct bs as [|x bs]; cbn [length] in Hc.
  - replace (negb (c + 2 =? mfz) && (c + 2 <? 16)) with false by lia. apply app_nil_r.
  - replace (negb (c + 2 =? mfz) && (c + 2 <? 16)) with true by lia. done.
Qed.

Lemma groups_text_skip mfz mlz rest : forall zs, Nat.Even (length zs) -> forall c,
  c + zlen zs = mlz + 2 -> mfz < c ->
  groups_text c mfz mlz (zs ++ rest) = groups_text (mlz + 2) mfz mlz rest.
Proof.
  refine (even_ind _ _ _); [intros c Hc _; cbn [length app] in *; f_equal; lia|].
  intros a b zs He IH c Hc Hm. cbn [length] in Hc. cbn [app groups_text]. rewrite IH by lia.
  replace ((mfz <=? c) && (c <=? mlz)) with true by lia. by replace (c =? mfz) with false by lia.
Qed.

Lemma groups_text_front mfz mlz rest : mfz <= mlz -> mfz < 16 ->
  forall L, Nat.Even (length L) -> forall c, c + zlen L = mfz ->
  groups_text c mfz mlz (L ++ rest) = seg_text L ++ groups_text mfz mfz mlz rest.
Proof.
  intros Hm H16. refine (even_ind _ _ _); [intros c Hc; cbn [length app seg_text] in *; f_equal; lia|].
  intros a b L He IH c Hc. cbn [length] in Hc. cbn [app groups_text]. rewrite IH by lia.
  replace ((mfz <=? c) && (c <=? mlz)) with false by lia.
  destruct L as [|x L]; cbn [length] in Hc.
  - replace (negb (c + 2 =? mfz) && (c + 2 <? 16)) with false by lia. done.
  - replace (negb (c + 2 =? mfz) && (c + 2 <? 16)) with true by lia.
    rewrite seg_text_cons, <- !app_assoc by done. done.
Qed.

Lemma groups_text_run L zs R mfz mlz :
  Nat.Even (length L) -> Nat.Even (length zs) -> Nat.Even (length R) -> zs <> [] ->
  zlen L + zlen zs + zlen R = 16 -> mfz = zlen L -> mlz = zlen L + zlen zs - 2 ->
  groups_text 0 mfz mlz (L ++ zs ++ R) = seg_text L ++ 58 :: 58 :: seg_text R.
Proof.
  intros HL Hz HR Hzn Hlen -> ->. destruct zs as [|x [|y zs]]; [done|by destruct Hz as [? Hz]; simpl in Hz; lia|].
  cbn [length] in *. rewrite groups_text_front by (done || lia).
  assert (Nat.Even (length zs)) by (destruct Hz as [k Hz]; exists (k - 1)%nat; lia).
  f_equal. cbn [app groups_text]. rewrite groups_text_skip by (done || lia).
  rewrite groups_text_tail by (done || lia).
  rewrite Z.eqb_refl, Z.leb_refl. cbn [andb].
  by rewrite (proj2 (Z.leb_le (zlen L) (zlen L + Z.of_nat (S (S (length zs))) - 2))) by lia.
Qed.

(** The scan only sees which groups are zero: all 256 cases are evaluated. *)
Fixpoint zero_groups (addr : list Z) : list bool :=
  match addr with
  | v :: v2 :: addr => ((v =? 0) && (v2 =? 0)) :: zero_groups addr
  | _ => []
  end.

Fixpoint zs_fold (z : ZeroScan) (group : Z) (l : list bool) : ZeroScan :=
  match l with
  | [] => z
  | b :: l => zs_fold (zs_step z group b) (group + 1) l
  end.

Lemma zs_loop_fold : forall addr, Nat.Even (length addr) -> forall z group,
  zs_loop z group addr = zs_fold z group (zero_groups addr).
Proof. refine (even_ind _ _ _); [done|]. intros a b addr He IH z group. simpl. apply IH. Qed.

Fixpoint all_bools (n : nat) : list (list bool) :=
  match n with
  | O => [[]]
  | S n => map (cons true) (all_bools n) ++ map (cons false) (all_bools n)
  end.

Lemma all_bools_in l : In l (all_bools (length l)).
Proof.
  induction l as [|[] l IH]; cbn [length all_bools]; [by left|apply in_app_iff..].
  - left. by apply in_map.
  - right. by apply in_map.
Qed.

Definition run_ok (l : list bool) : bool :=
  let '(mf, ml) := zs_finish (zs_fold zs_init 1 l) in
  (mf =? -1) && (ml =? -1) ||
  (1 <=? mf) && (mf <=? ml) && (ml <=? 8) &&
  forallb id (take (Z.to_nat (ml - mf + 1)) (drop (Z.to_nat (mf - 1)) l)).

Lemma runs_checked : forallb run_ok (all_bools 8) = true.
Proof. vm_compute. reflexivity. Qed.

Lemma zero_groups_take_drop : forall addr, Nat.Even (length addr) -> forall i n,
  forallb id (take n (drop i (zero_groups addr))) = true ->
  Forall (fun b => b = 0) (take (2 * n) (drop (2 * i) addr)).
Proof.
  refine (even_ind _ _ _).
  - intros i n _. rewrite drop_nil, take_nil. apply Forall_nil_2.
  - intros a b addr He IH [|i] n H.
    + destruct n as [|n]; [apply Forall_nil_2|]. cbn [zero_groups drop take forallb] in H.
      apply andb_true_iff in H as [Hz H]. unfold id in Hz at 1.
      replace (2 * S n)%nat with (S (S (2 * n))) by lia. cbn [drop Nat.mul take].
      apply Forall_cons_2; [lia|]. apply Forall_cons_2; [lia|]. apply (IH 0%nat n). done.
    + replace (2 * S i)%nat with (S (S (2 * i))) by lia. cbn [drop]. apply IH. done.
Qed.

(** The address splits into groups, a run of zeros and groups; the run is what
    the printer abbreviates, [None] when no group is zero. *)
Lemma zero_run addr : length addr = 16%nat ->
  zs_finish (zs_loop zs_init 1 addr) = (-1, -1) \/
  exists L n R, zs_finish (zs_loop zs_init 1 addr) = (zlen L / 2 + 1, zlen L / 2 + Z.of_nat n) /\
    addr = L ++ replicate (2 * n) 0 ++ R /\ (0 < n)%nat /\ Nat.Even (length L) /\ Nat.Even (length R).
Proof.
  intros Hlen. assert (Nat.Even (length addr)) as He by (by rewrite Hlen; exists 8%nat).
  rewrite zs_loop_fold by done. pose proof runs_checked as H. rewrite forallb_forall in H.
  assert (length (zero_groups addr) = 8%nat) as Hz.
  { by do 17 (destruct addr as [|? addr]; try done). }
  specialize (H (zero_groups addr)). rewrite <- Hz in H. specialize (H (all_bools_in _)).
  unfold run_ok in H. destruct (zs_finish _) as [mf ml].
  apply orb_true_iff in H as [H|H]; [left; f_equal; lia|right].
  apply andb_true_iff in H as [H Hrun]. apply zero_groups_take_drop in Hrun; [|done].
  set (i := Z.to_nat (mf - 1)) in *. set (n := Z.to_nat (ml - mf + 1)) in *.
  assert (length (take (2 * i) addr) = (2 * i)%nat) as HL by (rewrite length_take; lia).
  exists (take (2 * i) addr), n, (drop (2 * n) (drop (2 * i) addr)). rewrite HL. split_and!; [| |lia|by exists i|].
  - f_equal; rewrite Nat2Z.inj_mul, Z.mul_comm, Z.div_mul by lia; lia.
  - rewrite <- (take_drop (2 * i) addr) at 1. f_equal.
    rewrite <- (take_drop (2 * n) (drop (2 * i) addr)) at 1. f_equal.
    symmetry. apply replicate_as_Forall_2; [rewrite length_take, length_drop; lia|].
    eapply Forall_impl; [exact Hrun|]. by intros ? ->.
  - rewrite !length_drop, Hlen. exists (8 - i - n)%nat. lia.
Qed.

Lemma seg_text_length : forall bs, Nat.Even (length bs) -> Forall is_byte bs -> bs <> [] ->
  (2 * length (seg_text bs) + 2 <= 5 * length bs)%nat.
Proof.
  refine (even_ind _ _ _); [done|]. intros a b bs He IH Hall _. rewrite !Forall_cons in Hall.
  destruct Hall as (Ha & Hb & Hbs). destruct (group_text_facts a b Ha Hb) as (_ & Hl & _).
  destruct (decide (bs = [])) as [->|Hn]; [cbn [seg_text length]; lia|].
  specialize (IH Hbs Hn). rewrite seg_text_cons, length_app by done. cbn [length]. lia.
Qed.

Lemma seg_text_short bs : side_ok bs -> (2 * length (seg_text bs) <= 5 * length bs)%nat.
Proof.
  intros [Hb He]. destruct (decide (bs = [])) as [->|Hn]; [simpl; lia|].
  pose proof (seg_text_length bs He Hb Hn). lia.
Qed.

Lemma fits_Ok n t : (length t + 1 <= n)%nat -> fits n (Ok t) = Ok t.
Proof. intros. unfold fits. cbn [rbind]. by rewrite bool_decide_true. Qed.

(** The bounds of the run as offsets of bytes. *)
Lemma run_offsets (L : list Z) n : Nat.Even (length L) -> (length L + 2 * n <= 16)%nat -> (0 < n)%nat ->
  u64 (Z.shiftl (zlen L / 2 + 1 - 1) 1) = zlen L /\
  u64 (Z.shiftl (zlen L / 2 + Z.of_nat n - 1) 1) = zlen L + 2 * Z.of_nat n - 2.
Proof.
  intros [k ->] ? ?. unfold u64. rewrite !Z.shiftl_mul_pow2 by lia. change (2 ^ 1) with 2.
  replace (Z.of_nat (2 * k) / 2) with (Z.of_nat k) by (Z.to_euclidean_division_equations; lia).
  rewrite !Z.mod_small by lia. lia.
Qed.

Lemma IPv6_mapped_print_parse R : Forall is_byte R -> length R = 6%nat -> nth 0 R 0 = 255 -> nth 1 R 0 = 255 ->
  exists s, fits 40 (let! t := octets_text (drop 2 R) in Ok ([58; 58; 102; 102; 102; 102; 58] ++ t)) = Ok s /\
    StringToIPv6 s false 16 = Ok (replicate 10 0 ++ R).
Proof.
  destruct R as [|x [|y [|a [|b [|c [|d [|]]]]]]]; try done. intros Hall _ Hx Hy. cbn [nth] in Hx, Hy. subst x y.
  rewrite !Forall_cons in Hall. destruct Hall as (_ & _ & Ha & Hb & Hc & Hd & _).
  destruct (octet_text_like a Ha) as (ta & Hta & La), (octet_text_like b Hb) as (tb & Htb & Lb),
    (octet_text_like c Hc) as (tc & Htc & Lc), (octet_text_like d Hd) as (td & Htd & Ld).
  cbn [drop octets_text]. rewrite Hta, Htb, Htc, Htd. cbn [rbind].
  destruct (octet_like_facts _ _ La) as (_ & ? & _), (octet_like_facts _ _ Lb) as (_ & ? & _),
    (octet_like_facts _ _ Lc) as (_ & ? & _), (octet_like_facts _ _ Ld) as (_ & ? & _).
  eexists. split.
  - apply fits_Ok. repeat (rewrite length_app; cbn [length]). lia.
  - apply StringToIPv6_mapped; [|done..]. by repeat apply Forall_cons_2.
Qed.

Lemma IPv6_print_parse addr : length addr = 16%nat -> Forall is_byte addr ->
  exists s, IPv6ToString (Some addr) = Ok s /\ StringToIPv6 s false 16 = Ok addr.
Proof.
  intros Hlen Hb. unfold IPv6ToString. change (8 * 4 + 7 + 1)%nat with 40%nat.
  assert (side_ok addr) as Hs by (split; [done|by rewrite Hlen; exists 8%nat]).
  destruct (zero_run addr Hlen) as [->|(L & n & R & -> & -> & Hn & HeL & HeR)].
  - change (u64 (Z.shiftl (-1 - 1) 1)) with 18446744073709551612. cbn [Z.eqb andb].
    rewrite groups_text_tail by first [exact (proj2 Hs)|lia]. exists (seg_text addr).
    split; [|by apply StringToIPv6_plain]. apply fits_Ok.
    assert (addr <> []) as Hne by (by intros ->). pose proof (seg_text_length addr (proj2 Hs) Hb Hne). lia.
  - rewrite !length_app, length_replicate in Hlen. destruct (run_offsets L n HeL) as [-> ->]; [lia..|].
    rewrite !Forall_app in Hb. destruct Hb as (HbL & _ & HbR).
    destruct (_ && _ && _ && _) eqn:Hmap.
    + rewrite !andb_true_iff in Hmap. destruct Hmap as (((HL0 & H8) & H10) & H11).
      assert (length L = 0%nat) as HL by lia. apply length_zero_iff_nil in HL as ->.
      assert (n = 5%nat) as -> by (apply Z.eqb_eq in H8; cbn [length] in H8; clear -H8; lia). cbn [length app] in *.
      apply (IPv6_mapped_print_parse R); [done|simpl in Hlen; lia|simpl in H10; lia|simpl in H11; lia].
    + rewrite groups_text_run; try done; try (rewrite ?length_replicate; lia).
      2:{ rewrite length_replicate. by exists n. }
      2:{ by destruct n; [lia|]. }
      eexists. split.
      * apply fits_Ok. pose proof (seg_text_short L (conj HbL HeL)). pose proof (seg_text_short R (conj HbR HeR)).
        rewrite length_app. cbn [length]. lia.
      * rewrite StringToIPv6_expanded by (done || lia). do 4 f_equal. lia.
Qed.

(** What is parsed is an address. *)
Definition address (a : list Z) : Prop := length a = 16%nat /\ Forall is_byte a.

Lemma v6_unpack_address n : forall w0 w1 bc index buf buf' i', address buf ->
  v6_unpack n w0 w1 bc index buf = Ok (buf', i') -> address buf'.
Proof.
  assert (forall x, is_byte (Z.land x 255)) as Hland.
  { intros x. rewrite land255. apply Z.mod_pos_bound. lia. }
  induction n as [|n IH]; intros w0 w1 bc index buf buf' i' Ha H; cbn [v6_unpack] in H; [by inv_Ok; simplify_eq|].
  case_bool_decide; [|done].
  assert (forall i j x y, address (<[i := Z.land x 255]> (<[j := Z.land y 255]> buf))) as Hins.
  { intros. destruct Ha. split; [by rewrite !length_insert|]. by repeat apply Forall_insert. }
  destruct (bc <? 64); eapply IH; [|exact H| |exact H]; apply Hins.
Qed.

Lemma v6_pack_address st a : v6_pack st = Ok a -> address a.
Proof.
  assert (address (replicate 16 0)) as H0.
  { split; [done|]. apply Forall_replicate. auto. }
  unfold v6_pack, v6_bits. intros H. repeat (progress inv_Ok || match goal with p : (_ * _)%type |- _ => destruct p end);
    eauto using v6_unpack_address.
Qed.

#[export] Instance IPv6_codec : AddrCodec IPv6ToString StringToIPv6 16.
Proof.
  split; [exact IPv6_print_parse|]. unfold StringToIPv6. change (Z.of_nat 16) with 16. cbn [negb Z.eqb Pos.eqb].
  intros s addr H. inv_Ok; by eapply v6_pack_address.
Qed.

(** C40: every IPv6 address, with the longest run of zero groups abbreviated or
    as a mapped IPv4 address, is printed within its buffer, and parsing the text
    gives the address back. *)
Theorem IPv6_roundtrip (addr : list Z) :
  length addr = 16%nat -> Forall is_byte addr ->
  exists s, IPv6ToString (Some addr) = Ok s /\ StringToIPv6 s false 16 = Ok addr.
Proof. exact (codec_roundtrip (AddrCodec := IPv6_codec) addr). Qed.

Lemma IPv6_roundtrip_witness :
  let addr := [32; 1; 13; 184; 0; 0; 0; 0; 0; 1; 0; 0; 0; 0; 0; 7] in
  exists s, IPv6ToString (Some addr) = Ok s /\ StringToIPv6 s false 16 = Ok addr.
Proof.
  intros addr. apply (IPv6_roundtrip addr); [reflexivity|].
  apply (bool_decide_unpack _). vm_compute. exact I.
Defined.

(** The number of groups is never bounded: for every text of nine groups,
    such as ["1:1:1:1:1:1:1:1:1"], the ninth group is stored behind the two words
    of [rightBits]. *)
Theorem StringToIPv6_overflow (bs : list Z) :
  length bs = 18%nat -> Forall is_byte bs -> StringToIPv6 (seg_text bs) false 16 = Undef.
Proof.
  intros Hlen Hall. destruct bs as [|a [|b bs]]; try done. injection Hlen as Hlen.
  assert (side_ok []) as Hnil by (split; [by apply Forall_nil_2|by exists 0%nat]).
  unfold StringToIPv6. cbn [negb Z.eqb Pos.eqb]. rewrite <- (app_nil_r (rev _)).
  change v6_init with (mkst false 0 false 0 [] [] [] true).
  destruct (v6_loop_seg bs ltac:(rewrite Hlen; by exists 8%nat) a b [] false 0 false 0 [] []) as (proc & ->);
    [done..|unfold room; cbn [length]; lia|].
  cbn [v6_loop rbind parseModeAny mkst negb]. rewrite !Forall_cons in Hall. destruct Hall as (Ha & Hb & _).
  destruct (group_text_facts a b Ha Hb) as (_ & Hl & Hacc). cbn [digits].
  rewrite bool_decide_false by (cbn [digits mkst]; intros H; rewrite H in Hl; simpl in Hl; lia).
  unfold v6_group. cbn [digits mkst]. rewrite Hacc. unfold v6_store. cbn [leftCounter rightBits rightBitCount mkst].
  cbn [pushR]. rewrite app_nil_r, Hlen. done.
Qed.

Lemma StringToIPv6_overflow_witness :
  StringToIPv6 (concat (replicate 8 [49; 58]) ++ [49]) false 16 = Undef.
Proof.
  apply (StringToIPv6_overflow (concat (replicate 9 [0; 1]))); [reflexivity|].
  apply (bool_decide_unpack _). vm_compute. exact I.
Defined.
