(* ===== verification/NameService.v ===== *)
(** Model of the name service packets of router/ns/IpNsProtocol.cc (versions
    zero and one): StringData, IsAt, WhoHas and _NSPacket with their setters,
    GetSerializedSize, Serialize and Deserialize.

    A string is the list of its bytes. [Serialize] gives the bytes it writes; its
    return value is their number. [Deserialize] reads a buffer [buf] from a
    cursor: the pointer [p] as an offset and the remaining [bufsize]; [Fail tt]
    is the early [return 0], and the size it returns otherwise is the distance
    the pointer moved. A violated assert is [Undef], and so is sending bytes that
    were never written. *)
From S2P Require Import Prelude Types IPAddress.

Definition io (A : Type) : Type := result unit A.

(** A call whose status is ignored: what it leaves when it does not succeed is
    not defined. *)
Definition unchecked {A} (r : res A) : io A :=
  match r with Ok a => Ok a | _ => Undef end.

Record Cursor := { c_p : Z; c_left : Z }.

Definition advance (c : Cursor) (n : Z) : Cursor := {| c_p := c_p c + n; c_left := c_left c - n |}.

(** * StringData *)

Record StringData := { m_size : Z; m_string : list Z }.

Definition StringData_init : StringData := {| m_size := 0; m_string := [] |}.

Definition StringData_Set (string : list Z) : StringData :=
  {| m_size := zlen string; m_string := string |}.

Definition StringData_GetSerializedSize (s : StringData) : Z := 1 + m_size s.

Definition StringData_Serialize (s : StringData) : io (list Z) :=
  if m_size s =? zlen (m_string s)
  then Ok (m_size s mod 256 :: take (Z.to_nat (m_size s)) (m_string s)) else Undef.

Definition StringData_Deserialize (buf : list Z) (c : Cursor) : io (StringData * Cursor) :=
  if c_left c <? 1 then Fail tt
  else
    let! b := rd buf (c_p c) 1 in
    let size := nth 0 b 0 in
    if c_left c - 1 <? size then Fail tt
    else if size >? 0 then
      let! s := rd buf (c_p c + 1) (Z.to_nat size) in
      Ok ({| m_size := size; m_string := s |}, advance c (1 + size))
    else Ok ({| m_size := size; m_string := [] |}, advance c (1 + size)).

(** * IsAt *)

(** One of the four groups of [m_flagXY], [m_xyAddress] and [m_xyPort]. *)
Record EndPoint := { e_flag : bool; e_addr : list Z; e_port : Z }.

Definition EndPoint_clear : EndPoint := {| e_flag := false; e_addr := []; e_port := 0 |}.

(** [m_transportMask] is not initialised by the constructor: [None]. *)
Record IsAt := mkIsAt {
  i_version : Z;
  i_flagG : bool; i_flagC : bool; i_flagT : bool; i_flagU : bool; i_flagS : bool; i_flagF : bool;
  i_R4 : EndPoint; i_U4 : EndPoint; i_R6 : EndPoint; i_U6 : EndPoint;
  i_guid : list Z; i_ipv4 : list Z; i_ipv6 : list Z;
  i_port : Z;
  i_transportMask : option Z;
  i_names : list (list Z)
}.

Definition IsAt_init : IsAt :=
  mkIsAt 0 false false false false false false
    EndPoint_clear EndPoint_clear EndPoint_clear EndPoint_clear [] [] [] 0 None [].

Definition IsAt_SetVersion (x : IsAt) (nsVersion msgVersion : Z) : IsAt :=
  let 'mkIsAt v g c t u s f r4 u4 r6 u6 gu a4 a6 po tm na := x in
  mkIsAt (Z.lor (Z.shiftl nsVersion 4) msgVersion mod 256) g c t u s f r4 u4 r6 u6 gu a4 a6 po tm na.

Definition IsAt_SetGuid (x : IsAt) (guid : list Z) : IsAt :=
  let 'mkIsAt v g c t u s f r4 u4 r6 u6 gu a4 a6 po tm na := x in
  mkIsAt v true c t u s f r4 u4 r6 u6 guid a4 a6 po tm na.

Definition IsAt_SetPort (x : IsAt) (port : Z) : IsAt :=
  let 'mkIsAt v g c t u s f r4 u4 r6 u6 gu a4 a6 po tm na := x in
  mkIsAt v g c t u s f r4 u4 r6 u6 gu a4 a6 port tm na.

Definition IsAt_SetTransportMask (x : IsAt) (mask : Z) : IsAt :=
  let 'mkIsAt v g c t u s f r4 u4 r6 u6 gu a4 a6 po tm na := x in
  mkIsAt v g c t u s f r4 u4 r6 u6 gu a4 a6 po (Some mask) na.

Definition IsAt_SetCompleteFlag (x : IsAt) (flag : bool) : IsAt :=
  let 'mkIsAt v g c t u s f r4 u4 r6 u6 gu a4 a6 po tm na := x in
  mkIsAt v g flag t u s f r4 u4 r6 u6 gu a4 a6 po tm na.

Definition IsAt_SetTcpFlag (x : IsAt) (flag : bool) : IsAt :=
  let 'mkIsAt v g c t u s f r4 u4 r6 u6 gu a4 a6 po tm na := x in
  mkIsAt v g c flag u s f r4 u4 r6 u6 gu a4 a6 po tm na.

Definition IsAt_SetUdpFlag (x : IsAt) (flag : bool) : IsAt :=
  let 'mkIsAt v g c t u s f r4 u4 r6 u6 gu a4 a6 po tm na := x in
  mkIsAt v g c t flag s f r4 u4 r6 u6 gu a4 a6 po tm na.

Definition IsAt_ClearIPv4 (x : IsAt) : IsAt :=
  let 'mkIsAt v g c t u s f r4 u4 r6 u6 gu a4 a6 po tm na := x in
  mkIsAt v g c t u s false r4 u4 r6 u6 gu [] a6 po tm na.

Definition IsAt_SetIPv4 (x : IsAt) (ipv4 : list Z) : IsAt :=
  let 'mkIsAt v g c t u s f r4 u4 r6 u6 gu a4 a6 po tm na := x in
  mkIsAt v g c t u s true r4 u4 r6 u6 gu ipv4 a6 po tm na.

Definition IsAt_ClearIPv6 (x : IsAt) : IsAt :=
  let 'mkIsAt v g c t u s f r4 u4 r6 u6 gu a4 a6 po tm na := x in
  mkIsAt v g c t u false f r4 u4 r6 u6 gu a4 [] po tm na.

Definition IsAt_SetIPv6 (x : IsAt) (ipv6 : list Z) : IsAt :=
  let 'mkIsAt v g c t u s f r4 u4 r6 u6 gu a4 a6 po tm na := x in
  mkIsAt v g c t u true f r4 u4 r6 u6 gu a4 ipv6 po tm na.

Definition with_R4 (x : IsAt) (e : EndPoint) : IsAt :=
  let 'mkIsAt v g c t u s f r4 u4 r6 u6 gu a4 a6 po tm na := x in
  mkIsAt v g c t u s f e u4 r6 u6 gu a4 a6 po tm na.

Definition with_U4 (x : IsAt) (e : EndPoint) : IsAt :=
  let 'mkIsAt v g c t u s f r4 u4 r6 u6 gu a4 a6 po tm na := x in
  mkIsAt v g c t u s f r4 e r6 u6 gu a4 a6 po tm na.

Definition with_R6 (x : IsAt) (e : EndPoint) : IsAt :=
  let 'mkIsAt v g c t u s f r4 u4 r6 u6 gu a4 a6 po tm na := x in
  mkIsAt v g c t u s f r4 u4 e u6 gu a4 a6 po tm na.

Definition with_U6 (x : IsAt) (e : EndPoint) : IsAt :=
  let 'mkIsAt v g c t u s f r4 u4 r6 u6 gu a4 a6 po tm na := x in
  mkIsAt v g c t u s f r4 u4 r6 e gu a4 a6 po tm na.

Definition IsAt_ClearReliableIPv4 (x : IsAt) : IsAt := with_R4 x EndPoint_clear.
Definition IsAt_SetReliableIPv4 (x : IsAt) (addr : list Z) (port : Z) : IsAt :=
  with_R4 x {| e_flag := true; e_addr := addr; e_port := port |}.
Definition IsAt_ClearUnreliableIPv4 (x : IsAt) : IsAt := with_U4 x EndPoint_clear.
Definition IsAt_SetUnreliableIPv4 (x : IsAt) (addr : list Z) (port : Z) : IsAt :=
  with_U4 x {| e_flag := true; e_addr := addr; e_port := port |}.
Definition IsAt_ClearReliableIPv6 (x : IsAt) : IsAt := with_R6 x EndPoint_clear.
Definition IsAt_SetReliableIPv6 (x : IsAt) (addr : list Z) (port : Z) : IsAt :=
  with_R6 x {| e_flag := true; e_addr := addr; e_port := port |}.
Definition IsAt_ClearUnreliableIPv6 (x : IsAt) : IsAt := with_U6 x EndPoint_clear.
Definition IsAt_SetUnreliableIPv6 (x : IsAt) (addr : list Z) (port : Z) : IsAt :=
  with_U6 x {| e_flag := true; e_addr := addr; e_port := port |}.

Definition with_names (x : IsAt) (names : list (list Z)) : IsAt :=
  let 'mkIsAt v g c t u s f r4 u4 r6 u6 gu a4 a6 po tm na := x in
  mkIsAt v g c t u s f r4 u4 r6 u6 gu a4 a6 po tm names.

Definition IsAt_Reset (x : IsAt) : IsAt := with_names x [].
Definition IsAt_AddName (x : IsAt) (name : list Z) : IsAt := with_names x (i_names x ++ [name]).
Definition IsAt_RemoveName (x : IsAt) (index : Z) : IsAt :=
  if index <? zlen (i_names x)
  then with_names x (take (Z.to_nat index) (i_names x) ++ drop (S (Z.to_nat index)) (i_names x))
  else x.
Definition IsAt_GetNumberNames (x : IsAt) : Z := zlen (i_names x).
Definition IsAt_GetName (x : IsAt) (index : Z) : io (list Z) :=
  match i_names x !! Z.to_nat index with Some n => Ok n | None => Undef end.

(** ** GetSerializedSize *)

(** The sum over the names. *)
Definition names_size (names : list (list Z)) : Z :=
  foldr (fun n size => StringData_GetSerializedSize (StringData_Set n) + size) 0 names.

Definition when (b : bool) (n : Z) : Z := if b then n else 0.

Definition guid_size (x : IsAt) : Z :=
  if i_flagG x then StringData_GetSerializedSize (StringData_Set (i_guid x)) else 0.

Definition IsAt_size_v0 (x : IsAt) : Z :=
  4 + when (i_flagF x) (32 / 8) + when (i_flagS x) (128 / 8) + guid_size x + names_size (i_names x).

Definition IsAt_size_v1 (x : IsAt) : Z :=
  4 + when (e_flag (i_R4 x)) 6 + when (e_flag (i_U4 x)) 6 + when (e_flag (i_R6 x)) 18
    + when (e_flag (i_U6 x)) 18 + guid_size x + names_size (i_names x).

Definition IsAt_GetSerializedSize (x : IsAt) : io Z :=
  let version := Z.land (i_version x) 15 in
  if version =? 0 then Ok (IsAt_size_v0 x)
  else if version =? 1 then Ok (IsAt_size_v1 x)
  else Undef.

(** ** Serialize *)

Definition flag (b : bool) (bit : Z) (typeAndFlags : Z) : Z :=
  if b then Z.lor typeAndFlags bit else typeAndFlags.

Definition put_string (s : list Z) : io (list Z) := StringData_Serialize (StringData_Set s).

Fixpoint put_names (names : list (list Z)) : io (list Z) :=
  match names with
  | [] => Ok []
  | n :: names =>
      let! b := put_string n in
      let! r := put_names names in
      Ok (b ++ r)
  end.

Definition put_when (b : bool) (w : io (list Z)) : io (list Z) := if b then w else Ok [].

(** An address, its text turned into bytes by one of the two parsers. *)
Definition put_addr (parse : list Z -> bool -> Z -> res (list Z)) (size : Z) (addr : list Z) : io (list Z) :=
  unchecked (parse addr false size).
Definition put_v4 : list Z -> io (list Z) := put_addr StringToIPv4 4.
Definition put_v6 : list Z -> io (list Z) := put_addr StringToIPv6 16.

(** An address and a port, when the flag is set. *)
Definition put_ep (put_addr : list Z -> io (list Z)) (e : EndPoint) : io (list Z) :=
  put_when (e_flag e) (let! a := put_addr (e_addr e) in Ok (a ++ be16 (e_port e))).

Definition IsAt_Serialize_v0 (x : IsAt) : io (list Z) :=
  let typeAndFlags :=
    flag (i_flagF x) 1 (flag (i_flagS x) 2 (flag (i_flagU x) 4 (flag (i_flagT x) 8
      (flag (i_flagC x) 16 (flag (i_flagG x) 32 (Z.shiftl 1 6)))))) in
  if bool_decide (zlen (i_names x) < 256) then
    let! a4 := put_when (i_flagF x) (put_v4 (i_ipv4 x)) in
    let! a6 := put_when (i_flagS x) (put_v6 (i_ipv6 x)) in
    let! g := put_when (i_flagG x) (put_string (i_guid x)) in
    let! n := put_names (i_names x) in
    Ok (typeAndFlags :: zlen (i_names x) :: be16 (i_port x) ++ a4 ++ a6 ++ g ++ n)
  else Undef.

Definition IsAt_Serialize_v1 (x : IsAt) : io (list Z) :=
  let typeAndFlags :=
    flag (e_flag (i_U6 x)) 1 (flag (e_flag (i_R6 x)) 2 (flag (e_flag (i_U4 x)) 4
      (flag (e_flag (i_R4 x)) 8 (flag (i_flagC x) 16 (flag (i_flagG x) 32 (Z.shiftl 1 6)))))) in
  if bool_decide (zlen (i_names x) < 256) then
    match i_transportMask x with
    | None => Undef
    | Some mask =>
        let! r4 := put_ep put_v4 (i_R4 x) in
        let! u4 := put_ep put_v4 (i_U4 x) in
        let! r6 := put_ep put_v6 (i_R6 x) in
        let! u6 := put_ep put_v6 (i_U6 x) in
        let! g := put_when (i_flagG x) (put_string (i_guid x)) in
        let! n := put_names (i_names x) in
        Ok (typeAndFlags :: zlen (i_names x) :: be16 mask ++ r4 ++ u4 ++ r6 ++ u6 ++ g ++ n)
    end
  else Undef.

Definition IsAt_Serialize (x : IsAt) : io (list Z) :=
  let version := Z.land (i_version x) 15 in
  if version =? 0 then IsAt_Serialize_v0 x
  else if version =? 1 then IsAt_Serialize_v1 x
  else Undef.

(** ** Deserialize *)

Definition bit_set (typeAndFlags bit : Z) : bool := negb (Z.land typeAndFlags bit =? 0).

Definition from_be16 (b : list Z) : Z := Z.lor (Z.shiftl (nth 0 b 0) 8) (Z.land (nth 1 b 0) 255).

(** The four fixed bytes, checked to be there and to be of type [M = 1]. *)
Definition IsAt_fixed (buf : list Z) (c : Cursor) : io (list Z) :=
  if c_left c <? 4 then Fail tt
  else let! b := rd buf (c_p c) 4 in
       if negb (Z.land (nth 0 b 0) 192 =? Z.shiftl 1 6) then Fail tt else Ok b.

(** [if (flag)] around a read that needs [n] bytes, the old value otherwise. *)
Definition get_when {A} (b : bool) (n : Z) (old : A) (get : Cursor -> io A) (c : Cursor) : io (A * Cursor) :=
  if b then
    if c_left c <? n then Fail tt
    else let! a := get c in Ok (a, advance c n)
  else Ok (old, c).

Definition get_addr (print : option (list Z) -> res (list Z)) (size : nat) (buf : list Z) (c : Cursor) :
  io (list Z) :=
  let! b := rd buf (c_p c) size in unchecked (print (Some b)).
Definition get_v4 : list Z -> Cursor -> io (list Z) := get_addr IPv4ToString 4.
Definition get_v6 : list Z -> Cursor -> io (list Z) := get_addr IPv6ToString 16.

Definition get_ep (print : option (list Z) -> res (list Z)) (size : nat) (buf : list Z) (c : Cursor) : io EndPoint :=
  let! a := get_addr print size buf c in
  let! b := rd buf (c_p c + Z.of_nat size) 2 in
  Ok {| e_flag := true; e_addr := a; e_port := from_be16 b |}.
Definition get_ep4 : list Z -> Cursor -> io EndPoint := get_ep IPv4ToString 4.
Definition get_ep6 : list Z -> Cursor -> io EndPoint := get_ep IPv6ToString 16.

Definition unset (e : EndPoint) : EndPoint :=
  {| e_flag := false; e_addr := e_addr e; e_port := e_port e |}.

(** The guid, through [SetGuid]. *)
Definition get_guid (buf : list Z) (x : IsAt) (c : Cursor) : io (IsAt * Cursor) :=
  if i_flagG x then
    let! (s, c) := StringData_Deserialize buf c in
    Ok (IsAt_SetGuid x (m_string s), c)
  else Ok (x, c).

(** [numberNames] strings, each handed to [AddName]. *)
Fixpoint get_names {T} (AddName : T -> list Z -> T) (buf : list Z) (numberNames : nat) (x : T) (c : Cursor) :
  io (T * Cursor) :=
  match numberNames with
  | O => Ok (x, c)
  | S n =>
      let! (s, c) := StringData_Deserialize buf c in
      get_names AddName buf n (AddName x (m_string s)) c
  end.

Definition IsAt_Deserialize_v0 (x : IsAt) (buf : list Z) (c : Cursor) : io (IsAt * Cursor) :=
  let! b := IsAt_fixed buf c in
  let typeAndFlags := nth 0 b 0 in
  let c := advance c 4 in
  let! (ipv4, c) := get_when (bit_set typeAndFlags 1) 4 (i_ipv4 x) (get_v4 buf) c in
  let! (ipv6, c) := get_when (bit_set typeAndFlags 2) 16 (i_ipv6 x) (get_v6 buf) c in
  let! (x, c) := get_guid buf
    (mkIsAt (i_version x) (bit_set typeAndFlags 32) (bit_set typeAndFlags 16) (bit_set typeAndFlags 8)
       (bit_set typeAndFlags 4) (bit_set typeAndFlags 2) (bit_set typeAndFlags 1)
       (i_R4 x) (i_U4 x) (i_R6 x) (i_U6 x) (i_guid x) ipv4 ipv6 (from_be16 (drop 2 b))
       (i_transportMask x) (i_names x)) c in
  get_names IsAt_AddName buf (Z.to_nat (nth 1 b 0)) x c.

Definition IsAt_Deserialize_v1 (x : IsAt) (buf : list Z) (c : Cursor) : io (IsAt * Cursor) :=
  let! b := IsAt_fixed buf c in
  let typeAndFlags := nth 0 b 0 in
  let c := advance c 4 in
  let! (r4, c) := get_when (bit_set typeAndFlags 8) 6 (unset (i_R4 x)) (get_ep4 buf) c in
  let! (u4, c) := get_when (bit_set typeAndFlags 4) 6 (unset (i_U4 x)) (get_ep4 buf) c in
  let! (r6, c) := get_when (bit_set typeAndFlags 2) 18 (unset (i_R6 x)) (get_ep6 buf) c in
  let! (u6, c) := get_when (bit_set typeAndFlags 1) 18 (unset (i_U6 x)) (get_ep6 buf) c in
  let! (x, c) := get_guid buf
    (mkIsAt (i_version x) (bit_set typeAndFlags 32) (bit_set typeAndFlags 16) (i_flagT x)
       (i_flagU x) (i_flagS x) (i_flagF x) r4 u4 r6 u6 (i_guid x) (i_ipv4 x) (i_ipv6 x) (i_port x)
       (Some (from_be16 (drop 2 b))) (i_names x)) c in
  get_names IsAt_AddName buf (Z.to_nat (nth 1 b 0)) x c.

Definition IsAt_Deserialize (x : IsAt) (buf : list Z) (c : Cursor) : io (IsAt * Cursor) :=
  let version := Z.land (i_version x) 15 in
  if version =? 0 then IsAt_Deserialize_v0 x buf c
  else if version =? 1 then IsAt_Deserialize_v1 x buf c
  else Undef.

(** * WhoHas *)

Record WhoHas := mkWhoHas {
  w_version : Z;
  w_transportMask : Z;
  w_flagT : bool; w_flagU : bool; w_flagS : bool; w_flagF : bool;
  w_names : list (list Z)
}.

Definition TRANSPORT_NONE : Z := 0.

Definition WhoHas_init : WhoHas := mkWhoHas 0 TRANSPORT_NONE false false false false [].

Definition WhoHas_SetVersion (x : WhoHas) (nsVersion msgVersion : Z) : WhoHas :=
  mkWhoHas (Z.lor (Z.shiftl nsVersion 4) msgVersion mod 256) (w_transportMask x)
    (w_flagT x) (w_flagU x) (w_flagS x) (w_flagF x) (w_names x).

Definition WhoHas_SetTransportMask (x : WhoHas) (mask : Z) : WhoHas :=
  mkWhoHas (w_version x) mask (w_flagT x) (w_flagU x) (w_flagS x) (w_flagF x) (w_names x).

Definition WhoHas_SetTcpFlag (x : WhoHas) (flag : bool) : WhoHas :=
  mkWhoHas (w_version x) (w_transportMask x) flag (w_flagU x) (w_flagS x) (w_flagF x) (w_names x).

Definition WhoHas_SetUdpFlag (x : WhoHas) (flag : bool) : WhoHas :=
  mkWhoHas (w_version x) (w_transportMask x) (w_flagT x) flag (w_flagS x) (w_flagF x) (w_names x).

Definition WhoHas_SetIPv6Flag (x : WhoHas) (flag : bool) : WhoHas :=
  mkWhoHas (w_version x) (w_transportMask x) (w_flagT x) (w_flagU x) flag (w_flagF x) (w_names x).

Definition WhoHas_SetIPv4Flag (x : WhoHas) (flag : bool) : WhoHas :=
  mkWhoHas (w_version x) (w_transportMask x) (w_flagT x) (w_flagU x) (w_flagS x) flag (w_names x).

Definition WhoHas_Reset (x : WhoHas) : WhoHas :=
  mkWhoHas (w_version x) (w_transportMask x) (w_flagT x) (w_flagU x) (w_flagS x) (w_flagF x) [].

Definition WhoHas_AddName (x : WhoHas) (name : list Z) : WhoHas :=
  mkWhoHas (w_version x) (w_transportMask x) (w_flagT x) (w_flagU x) (w_flagS x) (w_flagF x)
    (w_names x ++ [name]).

Definition WhoHas_GetNumberNames (x : WhoHas) : Z := zlen (w_names x).
Definition WhoHas_GetName (x : WhoHas) (index : Z) : io (list Z) :=
  match w_names x !! Z.to_nat index with Some n => Ok n | None => Undef end.

Definition WhoHas_GetSerializedSize (x : WhoHas) : io Z :=
  let version := Z.land (w_version x) 15 in
  if (version =? 0) || (version =? 1) then Ok (2 + names_size (w_names x)) else Undef.

(** Every version but zero is written like version one. *)
Definition WhoHas_Serialize (x : WhoHas) : io (list Z) :=
  let typeAndFlags :=
    if Z.land (w_version x) 15 =? 0
    then flag (w_flagF x) 1 (flag (w_flagS x) 2 (flag (w_flagU x) 4 (flag (w_flagT x) 8 (Z.shiftl 2 6))))
    else Z.lor (Z.shiftl 2 6) 4 in
  if bool_decide (zlen (w_names x) < 256) then
    let! n := put_names (w_names x) in
    Ok (typeAndFlags :: zlen (w_names x) :: n)
  else Undef.

Definition WhoHas_Deserialize (x : WhoHas) (buf : list Z) (c : Cursor) : io (WhoHas * Cursor) :=
  if c_left c <? 2 then Fail tt
  else
    let! b := rd buf (c_p c) 2 in
    let typeAndFlags := nth 0 b 0 in
    if negb (Z.land typeAndFlags 192 =? Z.shiftl 2 6) then Fail tt
    else
      let version := Z.land (w_version x) 15 in
      let! x :=
        if version =? 0 then
          Ok (mkWhoHas (w_version x) TRANSPORT_NONE (bit_set typeAndFlags 8) (bit_set typeAndFlags 4)
                (bit_set typeAndFlags 2) (bit_set typeAndFlags 1) (w_names x))
        else if version =? 1 then
          Ok (mkWhoHas (w_version x) TRANSPORT_NONE false (bit_set typeAndFlags 4) false false (w_names x))
        else Undef in
      get_names WhoHas_AddName buf (Z.to_nat (nth 1 b 0)) x (advance c 2).

(** * _NSPacket *)

Record NSPacket := mkNSPacket {
  n_version : Z;
  n_timer : Z;
  n_questions : list WhoHas;
  n_answers : list IsAt
}.

Definition NSPacket_init : NSPacket := mkNSPacket 0 0 [] [].

Definition NSPacket_SetVersion (x : NSPacket) (nsVersion msgVersion : Z) : NSPacket :=
  mkNSPacket (Z.lor (Z.shiftl nsVersion 4) msgVersion mod 256) (n_timer x) (n_questions x) (n_answers x).
Definition NSPacket_SetTimer (x : NSPacket) (timer : Z) : NSPacket :=
  mkNSPacket (n_version x) timer (n_questions x) (n_answers x).
Definition NSPacket_Reset (x : NSPacket) : NSPacket := mkNSPacket (n_version x) (n_timer x) [] [].
Definition NSPacket_AddQuestion (x : NSPacket) (question : WhoHas) : NSPacket :=
  mkNSPacket (n_version x) (n_timer x) (n_questions x ++ [question]) (n_answers x).
Definition NSPacket_AddAnswer (x : NSPacket) (answer : IsAt) : NSPacket :=
  mkNSPacket (n_version x) (n_timer x) (n_questions x) (n_answers x ++ [answer]).
Definition NSPacket_RemoveAnswer (x : NSPacket) (index : Z) : NSPacket :=
  if index <? zlen (n_answers x)
  then mkNSPacket (n_version x) (n_timer x) (n_questions x)
         (take (Z.to_nat index) (n_answers x) ++ drop (S (Z.to_nat index)) (n_answers x))
  else x.
Definition NSPacket_GetNumberQuestions (x : NSPacket) : Z := zlen (n_questions x).
Definition NSPacket_GetNumberAnswers (x : NSPacket) : Z := zlen (n_answers x).
Definition NSPacket_GetQuestion (x : NSPacket) (index : Z) : io WhoHas :=
  match n_questions x !! Z.to_nat index with Some q => Ok q | None => Undef end.
Definition NSPacket_GetAnswer (x : NSPacket) (index : Z) : io IsAt :=
  match n_answers x !! Z.to_nat index with Some a => Ok a | None => Undef end.

(** A loop over the items that adds up what [f] gives. *)
Fixpoint sum_io {T} (f : T -> io Z) (l : list T) : io Z :=
  match l with
  | [] => Ok 0
  | x :: l => let! n := f x in let! r := sum_io f l in Ok (n + r)
  end.

Fixpoint cat_io {T} (f : T -> io (list Z)) (l : list T) : io (list Z) :=
  match l with
  | [] => Ok []
  | x :: l => let! n := f x in let! r := cat_io f l in Ok (n ++ r)
  end.

Definition NSPacket_GetSerializedSize (x : NSPacket) : io Z :=
  let! q := sum_io WhoHas_GetSerializedSize (n_questions x) in
  let! a := sum_io IsAt_GetSerializedSize (n_answers x) in
  Ok (4 + q + a).

(** The counts are cast to a byte. *)
Definition NSPacket_Serialize (x : NSPacket) : io (list Z) :=
  let! q := cat_io WhoHas_Serialize (n_questions x) in
  let! a := cat_io IsAt_Serialize (n_answers x) in
  Ok (n_version x :: zlen (n_questions x) mod 256 :: zlen (n_answers x) mod 256 :: n_timer x :: q ++ a).

(** [qCount] questions, each pushed behind those there are. *)
Fixpoint get_questions (n : nat) (x : NSPacket) (buf : list Z) (c : Cursor) : io (NSPacket * Cursor) :=
  match n with
  | O => Ok (x, c)
  | S n =>
      let whoHas := WhoHas_SetVersion WhoHas_init (Z.shiftr (n_version x) 4) (Z.land (n_version x) 15) in
      let! (whoHas, c) := WhoHas_Deserialize whoHas buf c in
      get_questions n (NSPacket_AddQuestion x whoHas) buf c
  end.

Fixpoint get_answers (n : nat) (x : NSPacket) (buf : list Z) (c : Cursor) : io (NSPacket * Cursor) :=
  match n with
  | O => Ok (x, c)
  | S n =>
      let isAt := IsAt_SetVersion IsAt_init (Z.shiftr (n_version x) 4) (Z.land (n_version x) 15) in
      let! (isAt, c) := IsAt_Deserialize isAt buf c in
      get_answers n (NSPacket_AddAnswer x isAt) buf c
  end.

Definition NSPacket_Deserialize (x : NSPacket) (buf : list Z) (c : Cursor) : io (NSPacket * Cursor) :=
  if c_left c <? 4 then Fail tt
  else
    let! b := rd buf (c_p c) 4 in
    let msgVersion := Z.land (nth 0 b 0) 15 in
    if negb (msgVersion =? 0) && negb (msgVersion =? 1) then Fail tt
    else
      let x := NSPacket_SetTimer (mkNSPacket (nth 0 b 0) (n_timer x) (n_questions x) (n_answers x)) (nth 3 b 0) in
      let! (x, c) := get_questions (Z.to_nat (nth 1 b 0)) x buf (advance c 4) in
      get_answers (Z.to_nat (nth 2 b 0)) x buf c.
