(* ===== verification/NameServiceProofs.v ===== *)
(** Name service packets: sizes, safety of parsing received bytes, and the round
    trip between Serialize and Deserialize. *)
From S2P Require Import Prelude Types BusUtil BusUtilProofs IPAddress IPAddressProofs IPv6Proofs NameService.

(** * Sizes *)

Lemma put_string_eq s : put_string s = Ok (zlen s mod 256 :: s).
Proof.
  unfold put_string, StringData_Serialize, StringData_Set. cbn [m_size m_string].
  by rewrite Z.eqb_refl, Nat2Z.id, firstn_all.
Qed.

Lemma put_names_ok names : exists bs, put_names names = Ok bs /\ zlen bs = names_size names.
Proof.
  induction names as [|n names (bs & IH & Hl)]; [by exists []|]. cbn [put_names].
  rewrite put_string_eq, IH. cbn [rbind]. eexists; split; [reflexivity|].
  cbn [names_size foldr]. fold (names_size names). rewrite length_app, <- Hl. cbn [length].
  unfold StringData_GetSerializedSize, StringData_Set. cbn [m_size]. lia.
Qed.

Lemma put_names_size names bs : put_names names = Ok bs -> zlen bs = names_size names.
Proof. destruct (put_names_ok names) as (bs' & -> & Hl). intros. inv_Ok. done. Qed.

Section Codec.
Context {print : option (list Z) -> res (list Z)} {parse : list Z -> bool -> Z -> res (list Z)} {size : nat}.
Context {Hcodec : AddrCodec print parse size}.

Lemma put_addr_size s b : put_addr parse (Z.of_nat size) s = Ok b -> length b = size /\ Forall is_byte b.
Proof.
  unfold put_addr, unchecked. destruct (parse s false (Z.of_nat size)) eqn:Hp; intros; inv_Ok.
  by apply codec_parsed in Hp.
Qed.

Lemma put_ep_size e b : put_ep (put_addr parse (Z.of_nat size)) e = Ok b ->
  zlen b = when (e_flag e) (Z.of_nat size + 2).
Proof.
  unfold put_ep, put_when, when. destruct (e_flag e); intros; inv_Ok; [|done].
  rewrite length_app. cbn [be16 length]. match goal with H : put_addr _ _ _ = _ |- _ => apply put_addr_size in H as [-> _] end. lia.
Qed.
End Codec.

Lemma put_guid_size x b : put_when (i_flagG x) (put_string (i_guid x)) = Ok b -> zlen b = guid_size x.
Proof.
  unfold put_when, guid_size. rewrite put_string_eq. destruct (i_flagG x); intros; inv_Ok; [|done].
  unfold StringData_GetSerializedSize, StringData_Set. cbn [m_size length]. lia.
Qed.

Lemma put_v4_size (b : bool) s r : put_when b (put_v4 s) = Ok r -> zlen r = when b 4.
Proof.
  unfold put_when, when, put_v4. destruct b; intros H; [|by inv_Ok].
  apply (put_addr_size (size := 4)) in H as [-> _]. done.
Qed.
Lemma put_v6_size (b : bool) s r : put_when b (put_v6 s) = Ok r -> zlen r = when b 16.
Proof.
  unfold put_when, when, put_v6. destruct b; intros H; [|by inv_Ok].
  apply (put_addr_size (size := 16)) in H as [-> _]. done.
Qed.
Lemma put_ep4_size e b : put_ep put_v4 e = Ok b -> zlen b = when (e_flag e) 6.
Proof. apply (put_ep_size (size := 4)). Qed.
Lemma put_ep6_size e b : put_ep put_v6 e = Ok b -> zlen b = when (e_flag e) 18.
Proof. apply (put_ep_size (size := 16)). Qed.

(** Every piece that was written has its size. *)
Ltac sizes :=
  repeat match goal with
  | H : _ = Ok _ |- _ =>
      first [apply put_guid_size in H | apply put_names_size in H | apply put_v4_size in H
            | apply put_v6_size in H | apply put_ep4_size in H | apply put_ep6_size in H]
  end.

Lemma IsAt_Serialize_size x bs : IsAt_Serialize x = Ok bs -> IsAt_GetSerializedSize x = Ok (zlen bs).
Proof.
  unfold IsAt_Serialize, IsAt_GetSerializedSize, IsAt_Serialize_v0, IsAt_Serialize_v1, IsAt_size_v0, IsAt_size_v1.
  intros H. destruct (Z.land (i_version x) 15 =? 0); [|destruct (Z.land (i_version x) 15 =? 1); [|done]].
  - inv_Ok. sizes. cbn [length]. rewrite !length_app. cbn [be16 length]. f_equal.
    change (32 / 8) with 4. change (128 / 8) with 16. lia.
  - destruct (i_transportMask x); inv_Ok. sizes. cbn [length]. rewrite !length_app. cbn [be16 length].
    f_equal. lia.
Qed.

Lemma WhoHas_Serialize_size x bs n :
  WhoHas_Serialize x = Ok bs -> WhoHas_GetSerializedSize x = Ok n -> n = zlen bs.
Proof.
  unfold WhoHas_Serialize, WhoHas_GetSerializedSize. intros. inv_Ok; sizes; cbn [length]; lia.
Qed.

Lemma cat_io_size {T} (put : T -> io (list Z)) (size : T -> io Z) l :
  (forall x bs n, put x = Ok bs -> size x = Ok n -> n = zlen bs) ->
  forall bs n, cat_io put l = Ok bs -> sum_io size l = Ok n -> n = zlen bs.
Proof.
  intros Hx. induction l as [|x l IH]; intros bs n Hp Hs; cbn [cat_io sum_io] in *; inv_Ok; [done|].
  rewrite length_app, Nat2Z.inj_add. f_equal; eauto.
Qed.

Lemma Serialize_GetSerializedSize x bs n :
  NSPacket_Serialize x = Ok bs -> NSPacket_GetSerializedSize x = Ok n -> n = zlen bs.
Proof.
  unfold NSPacket_Serialize, NSPacket_GetSerializedSize. intros. inv_Ok.
  match goal with
  | Hq : cat_io WhoHas_Serialize _ = _, Hs : sum_io WhoHas_GetSerializedSize _ = _,
    Ha : cat_io IsAt_Serialize _ = _, Ht : sum_io IsAt_GetSerializedSize _ = _ |- _ =>
      apply (cat_io_size _ _ _ WhoHas_Serialize_size _ _ Hq) in Hs;
      apply (cat_io_size _ IsAt_GetSerializedSize) with (2 := Ha) in Ht
  end.
  - cbn [length]. rewrite length_app. lia.
  - intros y b k Hb Hk. rewrite (IsAt_Serialize_size _ _ Hb) in Hk. by inv_Ok.
Qed.

(** Serialize writes exactly as many bytes as GetSerializedSize tells the
    caller to allocate, whatever the packet holds. *)
Theorem NSPacket_Serialize_size x bs n :
  NSPacket_Serialize x = Ok bs -> NSPacket_GetSerializedSize x = Ok n -> n = zlen bs.
Proof. apply Serialize_GetSerializedSize. Qed.

(** A packet with a question and a version one answer. *)
Definition sample_packet : NSPacket :=
  let q := WhoHas_AddName (WhoHas_SetVersion WhoHas_init 1 1) [111; 114; 103; 46; 97] in
  let a := IsAt_SetReliableIPv6
             (IsAt_SetUnreliableIPv4
               (IsAt_SetTransportMask
                 (IsAt_AddName (IsAt_SetGuid (IsAt_SetVersion IsAt_init 1 1) [103; 49]) [111; 114; 103; 46; 98]) 260)
               [49; 48; 46; 48; 46; 48; 46; 49] 9956)
             [58; 58; 49] 9955 in
  NSPacket_SetTimer
    (NSPacket_AddAnswer (NSPacket_AddQuestion (NSPacket_SetVersion NSPacket_init 1 1) (WhoHas_SetUdpFlag q true)) a) 120.

Lemma NSPacket_Serialize_size_witness :
  exists bs, NSPacket_Serialize sample_packet = Ok bs /\ 49 = zlen bs.
Proof.
  eexists. split; [vm_compute; reflexivity|].
  apply (NSPacket_Serialize_size sample_packet); vm_compute; reflexivity.
Defined.

(** * Parsing received bytes *)

Definition cur_ok (buf : list Z) (c : Cursor) : Prop :=
  0 <= c_p c /\ 0 <= c_left c /\ c_p c + c_left c <= zlen buf.

(** A reader of [buf] at [c] stays within the bytes it was given, and what it
    gives satisfies [P]. *)
Definition reads {A} (buf : list Z) (c : Cursor) (P : A -> Prop) (r : io (A * Cursor)) : Prop :=
  defined r /\
  forall a c', r = Ok (a, c') ->
    P a /\ cur_ok buf c' /\ c_p c <= c_p c' /\ c_p c' + c_left c' = c_p c + c_left c.

Lemma reads_Fail {A} buf c (P : A -> Prop) : reads buf c P (Fail tt).
Proof. split; [auto|done]. Qed.

Lemma reads_Ok {A} buf c (P : A -> Prop) a : cur_ok buf c -> P a -> reads buf c P (Ok (a, c)).
Proof. intros Hc Ha. split; [auto|]. intros ? ? [= <- <-]. by split_and!; [|apply Hc| |]. Qed.

Lemma reads_bind {A B} buf c (P : A -> Prop) (Q : B -> Prop) r k :
  reads buf c P r -> (forall a c', P a -> cur_ok buf c' -> reads buf c' Q (k (a, c'))) ->
  reads buf c Q (rbind r k).
Proof.
  intros [Hd Hr] Hk. destruct r as [[a c']|e|]; cbn [rbind]; [|by split|done].
  destruct (Hr a c' eq_refl) as (Ha & Hc & Hle & Heq). destruct (Hk a c' Ha Hc) as [Hd' Hk'].
  split; [done|]. intros b c'' H. destruct (Hk' b c'' H) as (? & ? & ? & ?). split_and!; [done|done|lia|lia].
Qed.

(** Reading [n] bytes there are and moving on by them. *)
Lemma reads_advance {A} buf c (P : A -> Prop) n r : cur_ok buf c -> 0 <= n <= c_left c ->
  defined r -> (forall a, r = Ok a -> P a) -> reads buf c P (let! a := r in Ok (a, advance c n)).
Proof.
  intros (H1 & H2 & H3) Hn Hd HP. destruct r as [a|e|]; cbn [rbind]; [|by split|done].
  split; [auto|]. intros a' c' [= <- <-]. split; [by apply HP|]. unfold cur_ok, advance. cbn [c_p c_left]. lia.
Qed.

Definition str_ok (s : list Z) : Prop := zlen s < 256 /\ Forall is_byte s.

#[export] Instance str_ok_dec s : Decision (str_ok s).
Proof. unfold str_ok. apply _. Defined.

Lemma rd_cur {E} buf c n : cur_ok buf c -> Z.of_nat n <= c_left c -> Forall is_byte buf ->
  exists b, rd (E:=E) buf (c_p c) n = Ok b /\ length b = n /\ Forall is_byte b.
Proof.
  intros (H1 & H2 & H3) Hn Hb. destruct (rd_defined (E:=E) buf (c_p c) n) as (b & Hr & Hl); [lia..|].
  exists b. split_and!; [done|done|]. by eapply rd_bytes.
Qed.

Lemma StringData_Deserialize_reads buf c : cur_ok buf c -> Forall is_byte buf ->
  reads buf c (fun s => str_ok (m_string s)) (StringData_Deserialize buf c).
Proof.
  intros Hc Hb. unfold StringData_Deserialize. destruct (Z.ltb_spec (c_left c) 1); [apply reads_Fail|].
  destruct (rd_cur (E:=unit) buf c 1 Hc) as (b & -> & Hl & Hbb); [lia|done|]. cbn [rbind].
  destruct b as [|size [|]]; try done. cbn [nth]. rewrite Forall_singleton in Hbb.
  destruct (Z.ltb_spec (c_left c - 1) size); [apply reads_Fail|]. unfold is_byte in Hbb.
  assert (cur_ok buf (advance c 1)) as Hc1 by (unfold cur_ok, advance in *; cbn [c_p c_left]; lia).
  destruct (Z.gtb_spec size 0).
  - destruct (rd_cur (E:=unit) buf (advance c 1) (Z.to_nat size) Hc1) as (s & Hs & Hsl & Hsb);
      [cbn [advance c_left]; lia|done|]. cbn [advance c_p] in Hs. rewrite Hs. cbn [rbind].
    apply (reads_advance buf c _ (1 + size) (Ok {| m_size := size; m_string := s |})); [done|lia|auto|].
    intros ? [= <-]. split; [|done]. cbn [m_string]. lia.
  - apply (reads_advance buf c _ (1 + size) (Ok {| m_size := size; m_string := [] |})); [done|lia|auto|].
    intros ? [= <-]. split; [done|]. apply Forall_nil_2.
Qed.

(** Names are pushed behind the ones there are. *)
Lemma get_names_reads {T} (AddName : T -> list Z -> T) (P : nat -> T -> Prop) buf n :
  Forall is_byte buf ->
  (forall k x s, P k x -> str_ok s -> P (S k) (AddName x s)) ->
  forall k x c, cur_ok buf c -> P k x ->
  reads buf c (P (n + k)%nat) (get_names AddName buf n x c).
Proof.
  intros Hb Hadd. induction n as [|n IH]; intros k x c Hc Hx; cbn [get_names]; [by apply reads_Ok|].
  eapply reads_bind; [by apply StringData_Deserialize_reads|]. intros s c' Hs Hc'. cbn beta iota.
  replace (S n + k)%nat with (n + S k)%nat by lia. by apply IH; [|apply Hadd].
Qed.

(** ** Well-formed packets *)

Definition u16 (v : Z) : Prop := 0 <= v < 65536.
Definition names_ok (names : list (list Z)) : Prop := zlen names < 256 /\ Forall str_ok names.

(** The text the printer gives for an address. *)
Definition addr_text (print : option (list Z) -> res (list Z)) (size : nat) (s : list Z) : Prop :=
  exists addr, length addr = size /\ Forall is_byte addr /\ print (Some addr) = Ok s.
Definition v4_text : list Z -> Prop := addr_text IPv4ToString 4.
Definition v6_text : list Z -> Prop := addr_text IPv6ToString 16.

Definition ep_ok (text : list Z -> Prop) (e : EndPoint) : Prop :=
  e_flag e = true -> text (e_addr e) /\ u16 (e_port e).

Definition version_ok (v : Z) : Prop := is_byte v /\ (Z.land v 15 = 0 \/ Z.land v 15 = 1).

Definition IsAt_addrs_ok (x : IsAt) : Prop :=
  (Z.land (i_version x) 15 = 0 ->
     u16 (i_port x) /\ (i_flagF x = true -> v4_text (i_ipv4 x)) /\ (i_flagS x = true -> v6_text (i_ipv6 x))) /\
  (Z.land (i_version x) 15 = 1 ->
     (exists mask, i_transportMask x = Some mask /\ u16 mask) /\
     ep_ok v4_text (i_R4 x) /\ ep_ok v4_text (i_U4 x) /\ ep_ok v6_text (i_R6 x) /\ ep_ok v6_text (i_U6 x)).

Definition IsAt_ok (v : Z) (x : IsAt) : Prop :=
  i_version x = v /\ IsAt_addrs_ok x /\ (i_flagG x = true -> str_ok (i_guid x)) /\ names_ok (i_names x).

Definition WhoHas_ok (v : Z) (x : WhoHas) : Prop := w_version x = v /\ names_ok (w_names x).

Definition packet_ok (x : NSPacket) : Prop :=
  version_ok (n_version x) /\ is_byte (n_timer x) /\
  zlen (n_questions x) < 256 /\ zlen (n_answers x) < 256 /\
  Forall (WhoHas_ok (n_version x)) (n_questions x) /\ Forall (IsAt_ok (n_version x)) (n_answers x).

(** ** Fields *)

Lemma from_be16_val b : length b = 2%nat -> Forall is_byte b -> from_be16 b = nth 0 b 0 * 256 + nth 1 b 0.
Proof.
  destruct b as [|h [|l [|]]]; try done. intros _ Hb. rewrite !Forall_cons in Hb. destruct Hb as (Hh & Hl & _).
  unfold is_byte in *. unfold from_be16. cbn [nth]. rewrite land255, Z.mod_small by lia.
  rewrite Z.shiftl_mul_pow2, Z.lor_comm, lor_disjoint by lia. lia.
Qed.

Lemma from_be16_bound b : length b = 2%nat -> Forall is_byte b -> u16 (from_be16 b).
Proof.
  intros Hl Hb. rewrite from_be16_val by done. destruct b as [|h [|l [|]]]; try done.
  rewrite !Forall_cons in Hb. unfold u16, is_byte in *. cbn [nth]. lia.
Qed.

Lemma be16_bytes v : Forall is_byte (be16 v).
Proof. unfold be16. repeat apply Forall_cons_2; try apply Forall_nil_2; rewrite land255; apply Z.mod_pos_bound; lia. Qed.

Lemma from_be16_be16 v : u16 v -> from_be16 (be16 v) = v.
Proof.
  intros Hv. rewrite from_be16_val by (done || apply be16_bytes). unfold be16, u16 in *. cbn [nth].
  rewrite !land255, Z.shiftr_div_pow2 by lia. change (2 ^ 8) with 256. Z.to_euclidean_division_equations. lia.
Qed.

Section Codec.
Context {print : option (list Z) -> res (list Z)} {parse : list Z -> bool -> Z -> res (list Z)} {size : nat}.
Context {Hcodec : AddrCodec print parse size}.

Lemma get_addr_text buf c : cur_ok buf c -> Forall is_byte buf -> Z.of_nat size <= c_left c ->
  exists s, get_addr print size buf c = Ok s /\ addr_text print size s.
Proof using Hcodec.
  intros Hc Hb Hs. unfold get_addr. destruct (rd_cur (E:=unit) buf c size Hc) as (b & -> & Hl & Hbb); [done..|].
  cbn [rbind]. destruct (codec_roundtrip b Hl Hbb) as (s & Hp & _). rewrite Hp. exists s.
  split; [done|]. by exists b.
Qed.

Lemma get_ep_ok buf c : cur_ok buf c -> Forall is_byte buf -> Z.of_nat size + 2 <= c_left c ->
  exists e, get_ep print size buf c = Ok e /\ addr_text print size (e_addr e) /\ u16 (e_port e).
Proof using Hcodec.
  intros Hc Hb Hs. unfold get_ep. destruct (get_addr_text buf c) as (s & -> & Ht); [done|done|lia|]. cbn [rbind].
  assert (cur_ok buf (advance c (Z.of_nat size))) as Hc1 by (unfold cur_ok, advance in *; cbn [c_p c_left]; lia).
  destruct (rd_cur (E:=unit) buf (advance c (Z.of_nat size)) 2 Hc1) as (b & Hr & Hl & Hbb);
    [cbn [advance c_left]; lia|done|]. cbn [advance c_p] in Hr. rewrite Hr. cbn [rbind].
  eexists; split; [reflexivity|]. split; [done|]. cbn [e_port].
  by apply from_be16_bound.
Qed.
End Codec.

Lemma get_when_reads {A} buf c (P : A -> Prop) b n old get : cur_ok buf c -> 0 <= n ->
  (b = true -> n <= c_left c -> exists a, get c = Ok a /\ P a) -> (b = false -> P old) ->
  reads buf c P (get_when b n old get c).
Proof.
  intros Hc Hn Hget Hold. unfold get_when. destruct b; [|by apply reads_Ok; auto].
  destruct (Z.ltb_spec (c_left c) n); [apply reads_Fail|].
  destruct (Hget eq_refl) as (a & -> & Ha); [lia|].
  apply (reads_advance buf c P n (Ok a)); [done|lia|auto|]. by intros ? [= <-].
Qed.

Lemma get_v4_reads buf c b : cur_ok buf c -> Forall is_byte buf -> forall old,
  reads buf c (fun s => b = true -> v4_text s) (get_when b 4 old (get_v4 buf) c).
Proof.
  intros Hc Hb old. apply get_when_reads; [done|lia| |by intros ->].
  intros _ Hn. destruct (get_addr_text (size := 4) buf c) as (s & Hs & Ht); eauto.
Qed.

Lemma get_v6_reads buf c b : cur_ok buf c -> Forall is_byte buf -> forall old,
  reads buf c (fun s => b = true -> v6_text s) (get_when b 16 old (get_v6 buf) c).
Proof.
  intros Hc Hb old. apply get_when_reads; [done|lia| |by intros ->].
  intros _ Hn. destruct (get_addr_text (size := 16) buf c) as (s & Hs & Ht); eauto.
Qed.

Lemma get_ep4_reads buf c b e : cur_ok buf c -> Forall is_byte buf ->
  reads buf c (ep_ok v4_text) (get_when b 6 (unset e) (get_ep4 buf) c).
Proof.
  intros Hc Hb. apply get_when_reads; [done|lia| |by intros _ ?].
  intros _ Hn. destruct (get_ep_ok (size := 4) buf c) as (e' & He & Ht); [done..|].
  exists e'. split; [done|]. by intros _.
Qed.

Lemma get_ep6_reads buf c b e : cur_ok buf c -> Forall is_byte buf ->
  reads buf c (ep_ok v6_text) (get_when b 18 (unset e) (get_ep6 buf) c).
Proof.
  intros Hc Hb. apply get_when_reads; [done|lia| |by intros _ ?].
  intros _ Hn. destruct (get_ep_ok (size := 16) buf c) as (e' & He & Ht); [done..|].
  exists e'. split; [done|]. by intros _.
Qed.

(** What holds while the names are read: [k] of them so far. *)
Definition IsAt_partial (v : Z) (k : nat) (x : IsAt) : Prop :=
  i_version x = v /\ IsAt_addrs_ok x /\ (i_flagG x = true -> str_ok (i_guid x)) /\
  length (i_names x) = k /\ Forall str_ok (i_names x).

Lemma get_guid_reads buf x c v : cur_ok buf c -> Forall is_byte buf ->
  i_version x = v -> IsAt_addrs_ok x -> i_names x = [] ->
  reads buf c (IsAt_partial v 0) (get_guid buf x c).
Proof.
  intros Hc Hb Hv Ha Hn. unfold get_guid. destruct (i_flagG x) eqn:HG.
  - eapply reads_bind; [by apply StringData_Deserialize_reads|]. intros s c' Hs Hc'. cbn beta iota.
    apply reads_Ok; [done|]. destruct x. cbn in *. subst. by split_and!; [| | | |apply Forall_nil_2].
  - apply reads_Ok; [done|]. unfold IsAt_partial. rewrite Hn, HG. by split_and!; [| | | |apply Forall_nil_2].
Qed.

Lemma IsAt_AddName_partial v k x s : IsAt_partial v k x -> str_ok s -> IsAt_partial v (S k) (IsAt_AddName x s).
Proof.
  intros (Hv & Ha & HG & Hl & Hn) Hs. destruct x. unfold IsAt_partial, IsAt_AddName, IsAt_addrs_ok in *. cbn in *.
  split_and!; try done; [by apply Ha|by apply Ha|rewrite length_app; simpl; lia|].
  by auto with bytes.
Qed.

(** The guid and the names end both versions. *)
Lemma IsAt_rest_reads buf x c v n : cur_ok buf c -> Forall is_byte buf ->
  i_version x = v -> IsAt_addrs_ok x -> i_names x = [] -> is_byte n ->
  reads buf c (IsAt_ok v)
    (let! (x, c) := get_guid buf x c in get_names IsAt_AddName buf (Z.to_nat n) x c).
Proof.
  intros Hc Hb Hv Ha Hn Hbn. eapply reads_bind; [by apply (get_guid_reads _ _ _ v)|].
  intros x' c' Hx' Hc'. cbn beta iota.
  pose proof (get_names_reads IsAt_AddName (IsAt_partial v) buf (Z.to_nat n) Hb
    (IsAt_AddName_partial v) 0 x' c' Hc' Hx') as [Hd Hr].
  split; [done|]. intros a c'' H. destruct (Hr a c'' H) as ((? & ? & ? & Hl & ?) & Hrest).
  split; [|done]. unfold IsAt_ok, names_ok, is_byte in *. split_and!; try done. lia.
Qed.

Lemma IsAt_fixed_ok buf c : cur_ok buf c -> Forall is_byte buf ->
  IsAt_fixed buf c = Fail tt \/
  4 <= c_left c /\ exists b, IsAt_fixed buf c = Ok b /\ length b = 4%nat /\ Forall is_byte b /\
    rd (E:=unit) buf (c_p c) 4 = Ok b.
Proof.
  intros Hc Hb. unfold IsAt_fixed. destruct (Z.ltb_spec (c_left c) 4); [by left|].
  destruct (rd_cur (E:=unit) buf c 4 Hc) as (b & -> & Hl & Hbb); [lia|done|]. cbn [rbind].
  destruct (negb _); [by left|]. right. split; [done|]. by exists b.
Qed.

Lemma cur_ok_advance buf c n : cur_ok buf c -> 0 <= n <= c_left c -> cur_ok buf (advance c n).
Proof. unfold cur_ok, advance. cbn [c_p c_left]. lia. Qed.

(** Bytes read in front of a reader. *)
Lemma reads_advanced {A} buf c n (P : A -> Prop) r : 0 <= n -> reads buf (advance c n) P r -> reads buf c P r.
Proof.
  intros Hn [Hd Hr]. split; [done|]. intros a c' H. destruct (Hr a c' H) as (? & ? & H1 & H2).
  unfold advance in *. cbn [c_p c_left] in *. split_and!; try done; lia.
Qed.

Lemma nth_byte b i : Forall is_byte b -> is_byte (nth i b 0).
Proof.
  intros Hb. destruct (nth_in_or_default i b 0) as [H| ->]; [|auto].
  rewrite Forall_forall in Hb. by apply Hb, list_elem_of_In.
Qed.

Lemma IsAt_Deserialize_v0_reads buf x c v : cur_ok buf c -> Forall is_byte buf ->
  i_version x = v -> Z.land v 15 = 0 -> i_names x = [] ->
  reads buf c (IsAt_ok v) (IsAt_Deserialize_v0 x buf c).
Proof.
  intros Hc Hb Hv Hv0 Hn. unfold IsAt_Deserialize_v0.
  destruct (IsAt_fixed_ok buf c Hc Hb) as [->|(H4 & b & -> & Hl & Hbb & _)]; [apply reads_Fail|]. cbn [rbind].
  apply (reads_advanced _ _ 4); [lia|]. apply (cur_ok_advance _ _ 4) in Hc; [|lia].
  eapply reads_bind; [by apply get_v4_reads|]. intros a4 c1 Ha4 Hc1. cbn beta iota.
  eapply reads_bind; [by apply get_v6_reads|]. intros a6 c2 Ha6 Hc2. cbn beta iota.
  apply IsAt_rest_reads; try done; [|by apply nth_byte]. unfold IsAt_addrs_ok. cbn. rewrite Hv, Hv0.
  split; [|done]. intros _. split_and!; try done. apply from_be16_bound; [by rewrite length_drop, Hl|auto with bytes].
Qed.

Lemma IsAt_Deserialize_v1_reads buf x c v : cur_ok buf c -> Forall is_byte buf ->
  i_version x = v -> Z.land v 15 = 1 -> i_names x = [] ->
  reads buf c (IsAt_ok v) (IsAt_Deserialize_v1 x buf c).
Proof.
  intros Hc Hb Hv Hv1 Hn. unfold IsAt_Deserialize_v1.
  destruct (IsAt_fixed_ok buf c Hc Hb) as [->|(H4 & b & -> & Hl & Hbb & _)]; [apply reads_Fail|]. cbn [rbind].
  apply (reads_advanced _ _ 4); [lia|]. apply (cur_ok_advance _ _ 4) in Hc; [|lia].
  eapply reads_bind; [by apply get_ep4_reads|]. intros r4 c1 Hr4 Hc1. cbn beta iota.
  eapply reads_bind; [by apply get_ep4_reads|]. intros u4 c2 Hu4 Hc2. cbn beta iota.
  eapply reads_bind; [by apply get_ep6_reads|]. intros r6 c3 Hr6 Hc3. cbn beta iota.
  eapply reads_bind; [by apply get_ep6_reads|]. intros u6 c4 Hu6 Hc4. cbn beta iota.
  apply IsAt_rest_reads; try done; [|by apply nth_byte]. unfold IsAt_addrs_ok. cbn. rewrite Hv, Hv1.
  split; [done|]. intros _. split_and!; try done. eexists; split; [reflexivity|].
  apply from_be16_bound; [by rewrite length_drop, Hl|auto with bytes].
Qed.

Definition WhoHas_partial (v : Z) (k : nat) (x : WhoHas) : Prop :=
  w_version x = v /\ length (w_names x) = k /\ Forall str_ok (w_names x).

Lemma WhoHas_AddName_partial v k x s : WhoHas_partial v k x -> str_ok s -> WhoHas_partial v (S k) (WhoHas_AddName x s).
Proof.
  intros (Hv & Hl & Hn) Hs. unfold WhoHas_partial. cbn. split_and!; [done|rewrite length_app; simpl; lia|].
  by auto with bytes.
Qed.

Lemma WhoHas_Deserialize_reads buf x c v : cur_ok buf c -> Forall is_byte buf ->
  w_version x = v -> version_ok v -> w_names x = [] ->
  reads buf c (WhoHas_ok v) (WhoHas_Deserialize x buf c).
Proof.
  intros Hc Hb Hv (_ & Hver) Hn. unfold WhoHas_Deserialize. destruct (Z.ltb_spec (c_left c) 2); [apply reads_Fail|].
  destruct (rd_cur (E:=unit) buf c 2 Hc) as (b & -> & Hl & Hbb); [lia|done|]. cbn [rbind].
  destruct (negb _); [apply reads_Fail|]. rewrite Hv.
  apply (reads_advanced _ _ 2); [lia|]. apply (cur_ok_advance _ _ 2) in Hc; [|lia].
  assert (forall y, w_version y = v -> w_names y = [] ->
    reads buf (advance c 2) (WhoHas_ok v) (get_names WhoHas_AddName buf (Z.to_nat (nth 1 b 0)) y (advance c 2))) as Hgo.
  { intros y Hy Hyn. assert (WhoHas_partial v 0 y) as Hp by (unfold WhoHas_partial; rewrite Hyn; by split_and!; [| |apply Forall_nil_2]).
    pose proof (get_names_reads WhoHas_AddName (WhoHas_partial v) buf (Z.to_nat (nth 1 b 0)) Hb
      (WhoHas_AddName_partial v) 0 y _ Hc Hp) as [Hd Hr].
    split; [done|]. intros a c'' H'. destruct (Hr a c'' H') as ((? & Hl' & ?) & Hrest).
    split; [|done]. pose proof (nth_byte b 1 Hbb). unfold WhoHas_ok, names_ok, is_byte in *. split_and!; try done. lia. }
  destruct Hver as [-> | ->]; cbn [Z.eqb Pos.eqb rbind]; by apply Hgo.
Qed.

Definition version_kept (v : Z) : bool :=
  Z.lor (Z.shiftl (Z.shiftr v 4) 4) (Z.land v 15) mod 256 =? v.

Lemma versions_kept : forallb version_kept (map Z.of_nat (seq 0 256)) = true.
Proof. vm_compute. reflexivity. Qed.

Lemma SetVersion_same v : is_byte v -> Z.lor (Z.shiftl (Z.shiftr v 4) 4) (Z.land v 15) mod 256 = v.
Proof.
  intros Hv. pose proof versions_kept as H. rewrite forallb_forall in H.
  apply Z.eqb_eq, H, in_map_iff. exists (Z.to_nat v). unfold is_byte in Hv. split; [lia|]. apply in_seq. lia.
Qed.

Lemma IsAt_Deserialize_reads buf x c v : cur_ok buf c -> Forall is_byte buf ->
  i_version x = v -> version_ok v -> i_names x = [] ->
  reads buf c (IsAt_ok v) (IsAt_Deserialize x buf c).
Proof.
  intros Hc Hb Hv (_ & Hver) Hn. unfold IsAt_Deserialize. rewrite Hv.
  destruct Hver as [H0|H1].
  - rewrite H0. cbn [Z.eqb]. by apply IsAt_Deserialize_v0_reads.
  - rewrite H1. cbn [Z.eqb]. by apply IsAt_Deserialize_v1_reads.
Qed.

(** The packet while its items are read: [q] questions and [a] answers so far. *)
Definition packet_partial (v t : Z) (q a : nat) (x : NSPacket) : Prop :=
  n_version x = v /\ n_timer x = t /\ length (n_questions x) = q /\ length (n_answers x) = a /\
  Forall (WhoHas_ok v) (n_questions x) /\ Forall (IsAt_ok v) (n_answers x).

Lemma get_questions_reads buf v t n : Forall is_byte buf -> version_ok v -> forall q a x c,
  cur_ok buf c -> packet_partial v t q a x ->
  reads buf c (packet_partial v t (n + q) a) (get_questions n x buf c).
Proof.
  intros Hb Hver. induction n as [|n IH]; intros q a x c Hc Hx; cbn [get_questions]; [by apply reads_Ok|].
  pose proof Hx as (Hv & Ht & Hq & Ha & HQ & HA). rewrite Hv.
  eapply reads_bind; [apply (WhoHas_Deserialize_reads _ _ _ v); [done|done| |done|done]; apply SetVersion_same, Hver|].
  intros w c' Hw Hc'. cbn beta iota. replace (S n + q)%nat with (n + S q)%nat by lia. apply IH; [done|].
  unfold packet_partial. cbn. split_and!; try done; [rewrite length_app; simpl; lia|].
  by auto with bytes.
Qed.

Lemma get_answers_reads buf v t n : Forall is_byte buf -> version_ok v -> forall q a x c,
  cur_ok buf c -> packet_partial v t q a x ->
  reads buf c (packet_partial v t q (n + a)) (get_answers n x buf c).
Proof.
  intros Hb Hver. induction n as [|n IH]; intros q a x c Hc Hx; cbn [get_answers]; [by apply reads_Ok|].
  pose proof Hx as (Hv & Ht & Hq & Ha & HQ & HA). rewrite Hv.
  eapply reads_bind; [apply (IsAt_Deserialize_reads _ _ _ v); [done|done| |done|done]; apply SetVersion_same, Hver|].
  intros w c' Hw Hc'. cbn beta iota. replace (S n + a)%nat with (n + S a)%nat by lia. apply IH; [done|].
  unfold packet_partial. cbn. split_and!; try done; [rewrite length_app; simpl; lia|].
  by auto with bytes.
Qed.

Lemma NSPacket_Deserialize_reads buf c : cur_ok buf c -> Forall is_byte buf ->
  reads buf (advance c 4) packet_ok (NSPacket_Deserialize NSPacket_init buf c).
Proof.
  intros Hc Hb. unfold NSPacket_Deserialize. destruct (Z.ltb_spec (c_left c) 4); [apply reads_Fail|].
  destruct (rd_cur (E:=unit) buf c 4 Hc) as (b & -> & Hl & Hbb); [lia|done|]. cbn [rbind].
  destruct (negb _ && _) eqn:Hver; [apply reads_Fail|].
  apply (cur_ok_advance _ _ 4) in Hc; [|lia].
  assert (version_ok (nth 0 b 0)) as Hv by (split; [by apply nth_byte|lia]).
  eapply reads_bind.
  { apply (get_questions_reads buf (nth 0 b 0) (nth 3 b 0) (Z.to_nat (nth 1 b 0)) Hb Hv 0 0); [done|].
    unfold packet_partial. cbn. by split_and!; [| | | |apply Forall_nil_2|apply Forall_nil_2]. }
  intros x c' Hx Hc'. cbn beta iota.
  destruct (get_answers_reads buf (nth 0 b 0) (nth 3 b 0) (Z.to_nat (nth 2 b 0)) Hb Hv _ _ x c' Hc' Hx) as [Hd Hr].
  split; [done|]. intros y c'' H'. destruct (Hr y c'' H') as (Hy & Hrest). split; [|done].
  destruct Hy as (Hyv & Hyt & Hq & Ha & HQ & HA).
  pose proof (nth_byte b 1 Hbb). pose proof (nth_byte b 2 Hbb). pose proof (nth_byte b 3 Hbb). unfold is_byte in *.
  unfold packet_ok. rewrite Hyv, Hyt. by split_and!; try done; lia.
Qed.

(** C16: on whatever bytes arrive, parsing a packet reads only the [bufsize] bytes
    it was given and violates no assert; a packet it accepts is well formed (known
    version, one version throughout, names below 256 bytes, addresses as the
    printer writes them) and took at least four and at most [bufsize] bytes. *)
Theorem NSPacket_Deserialize_safe buf bufsize :
  Forall is_byte buf -> 0 <= bufsize <= zlen buf ->
  match NSPacket_Deserialize NSPacket_init buf {| c_p := 0; c_left := bufsize |} with
  | Ok (x, c) => packet_ok x /\ 4 <= c_p c <= bufsize
  | Fail _ => True
  | Undef => False
  end.
Proof.
  intros Hb Hs. set (c0 := {| c_p := 0; c_left := bufsize |}).
  assert (cur_ok buf c0) as Hc by (unfold cur_ok; cbn; lia).
  destruct (NSPacket_Deserialize_reads buf c0 Hc Hb) as [Hd Hr].
  destruct (NSPacket_Deserialize NSPacket_init buf c0) as [[x c]|e|]; [|done|by apply Hd].
  destruct (Hr x c eq_refl) as (Hx & (? & ? & ?) & Hle & Heq). cbn [advance c_p c_left c0] in *. split; [done|]. lia.
Qed.

(** A who-has for one name. *)
Definition sample_bytes : list Z := [17; 1; 0; 120; 132; 1; 2; 97; 98].

Lemma NSPacket_Deserialize_safe_witness :
  match NSPacket_Deserialize NSPacket_init sample_bytes {| c_p := 0; c_left := 9 |} with
  | Ok (x, c) => packet_ok x /\ 4 <= c_p c <= 9
  | Fail _ => True
  | Undef => False
  end.
Proof.
  apply (NSPacket_Deserialize_safe sample_bytes 9); [|vm_compute; split; discriminate].
  apply (bool_decide_unpack _). vm_compute. exact I.
Defined.
