(* ===== verification/NameServiceRoundtrip.v ===== *)
(** Deserialize gives back what Serialize wrote, for every well-formed packet. *)
From S2P Require Import Prelude Types BusUtil BusUtilProofs IPAddress IPAddressProofs IPv6Proofs NameService NameServiceProofs.

(** The bytes [bs] are at the cursor, within the remaining size. *)
Definition serves (buf : list Z) (c : Cursor) (bs : list Z) : Prop :=
  has_at buf (c_p c) bs /\ zlen bs <= c_left c.

Lemma advance_advance c m n : advance (advance c m) n = advance c (m + n).
Proof. unfold advance. cbn [c_p c_left]. f_equal; lia. Qed.

Lemma advance_0 c : advance c 0 = c.
Proof. destruct c as [p l]. unfold advance. cbn [c_p c_left]. f_equal; lia. Qed.

Lemma serves_app buf c b1 b2 :
  serves buf c (b1 ++ b2) -> serves buf c b1 /\ serves buf (advance c (zlen b1)) b2.
Proof.
  intros [Hat Hl]. apply has_at_app in Hat as [H1 H2]. rewrite length_app in Hl. unfold serves, advance.
  cbn [c_p c_left]. split_and!; (done || lia).
Qed.

Lemma serves_rd {E} buf c bs : serves buf c bs -> bs <> [] -> rd (E:=E) buf (c_p c) (length bs) = Ok bs.
Proof. intros [Hat _] Hn. by apply rd_has_at. Qed.

Lemma StringData_inverts s buf c : str_ok s -> serves buf c (zlen s mod 256 :: s) ->
  StringData_Deserialize buf c = Ok (StringData_Set s, advance c (1 + zlen s)).
Proof.
  intros [Hl Hs] Hat. rewrite Z.mod_small in Hat by lia.
  destruct (serves_app buf c [zlen s] s Hat) as [H1 H2]. destruct Hat as [_ Hleft]. cbn [length] in Hleft.
  unfold StringData_Deserialize. destruct (Z.ltb_spec (c_left c) 1); [lia|].
  pose proof (serves_rd (E:=unit) buf c [zlen s] H1 ltac:(done)) as Hr. cbn [length] in Hr. rewrite Hr.
  cbn [rbind nth]. destruct (Z.ltb_spec (c_left c - 1) (zlen s)); [lia|].
  destruct (Z.gtb_spec (zlen s) 0) as [Hp|Hp].
  - rewrite Nat2Z.id. assert (s <> []) as Hne by (by intros ->; simpl in Hp; lia).
    pose proof (serves_rd (E:=unit) _ _ _ H2 Hne) as Hr2. cbn [length advance c_p] in Hr2.
    change (Z.of_nat 1) with 1 in Hr2. by rewrite Hr2.
  - destruct s; [done|simpl in Hp; lia].
Qed.

Lemma put_names_cons n names : exists r, put_names names = Ok r /\
  put_names (n :: names) = Ok ((zlen n mod 256 :: n) ++ r).
Proof.
  destruct (put_names_ok names) as (r & Hr & _). exists r. split; [done|]. cbn [put_names].
  by rewrite put_string_eq, Hr.
Qed.

Lemma names_invert {T} (AddName : T -> list Z -> T) buf names : forall bs x c,
  Forall str_ok names -> put_names names = Ok bs -> serves buf c bs ->
  get_names AddName buf (length names) x c = Ok (fold_left AddName names x, advance c (zlen bs)).
Proof.
  induction names as [|n names IH]; intros bs x c Hn Hp Hs; cbn [get_names length fold_left].
  - cbn [put_names] in Hp. inv_Ok. by rewrite advance_0.
  - apply Forall_cons in Hn as [Hn Hns]. destruct (put_names_cons n names) as (r & Hr & Hp').
    rewrite Hp' in Hp. inv_Ok. rewrite app_comm_cons in *. apply serves_app in Hs as [H1 H2].
    rewrite (StringData_inverts n) by done. cbn [rbind StringData_Set m_string].
    rewrite length_app. cbn [length] in *. replace (Z.of_nat (S (length n))) with (1 + zlen n) in H2 by lia.
    rewrite (IH r) by done. rewrite advance_advance. do 3 f_equal. lia.
Qed.

Section Codec.
Context {print : option (list Z) -> res (list Z)} {parse : list Z -> bool -> Z -> res (list Z)} {size : nat}.
Context {Hcodec : AddrCodec print parse size} (Hsize : (0 < size)%nat).

Lemma addr_invert s : addr_text print size s ->
  exists b, put_addr parse (Z.of_nat size) s = Ok b /\ length b = size /\
    forall buf c, serves buf c b -> get_addr print size buf c = Ok s.
Proof using Hcodec Hsize.
  intros (a & Hl & Hb & Hp). destruct (codec_roundtrip a Hl Hb) as (s' & Hp' & Hparse).
  rewrite Hp in Hp'. injection Hp' as <-. exists a. unfold put_addr, get_addr. rewrite Hparse.
  split_and!; [done|done|]. intros buf c Hs.
  assert (a <> []) as Hne by (by intros ->; simpl in Hl; lia).
  pose proof (serves_rd (E:=unit) _ _ _ Hs Hne) as Hr. rewrite Hl in Hr. rewrite Hr. cbn [rbind]. by rewrite Hp.
Qed.

Lemma ep_invert e : ep_ok (addr_text print size) e ->
  exists b, put_ep (put_addr parse (Z.of_nat size)) e = Ok b /\
    forall buf c n, serves buf c b -> n = Z.of_nat size + 2 ->
      get_when (e_flag e) n (unset EndPoint_clear) (get_ep print size buf) c =
      Ok (if e_flag e then e else EndPoint_clear, advance c (zlen b)).
Proof using Hcodec Hsize.
  intros He. unfold put_ep, put_when, get_when. destruct e as [[] s p]; cbn [e_flag e_addr e_port] in *.
  - destruct (He eq_refl) as [Ht Hport]. destruct (addr_invert s Ht) as (b & -> & Hl & Hget). cbn [rbind].
    eexists. split; [reflexivity|]. intros buf c n Hs ->. rewrite length_app, Hl. cbn [be16 length].
    pose proof (proj2 Hs) as Hleft. rewrite length_app, Hl in Hleft. cbn [be16 length] in Hleft.
    apply serves_app in Hs as [H1 H2]. rewrite Hl in H2.
    destruct (Z.ltb_spec (c_left c) (Z.of_nat size + 2)); [lia|]. unfold get_ep. rewrite (Hget _ _ H1). cbn [rbind].
    pose proof (serves_rd (E:=unit) _ _ _ H2 ltac:(done)) as Hr. cbn [be16 length advance c_p] in Hr.
    rewrite Hr. cbn [rbind]. fold (be16 p). rewrite from_be16_be16 by done. do 3 f_equal. lia.
  - exists []. split; [done|]. intros. by rewrite advance_0.
Qed.
End Codec.

Lemma v4_invert s : v4_text s ->
  exists b, put_v4 s = Ok b /\ length b = 4%nat /\ forall buf c, serves buf c b -> get_v4 buf c = Ok s.
Proof. apply (addr_invert (size := 4)). lia. Qed.
Lemma v6_invert s : v6_text s ->
  exists b, put_v6 s = Ok b /\ length b = 16%nat /\ forall buf c, serves buf c b -> get_v6 buf c = Ok s.
Proof. apply (addr_invert (size := 16)). lia. Qed.

(** An address on its own, behind its flag. *)
Lemma when_invert (put : list Z -> io (list Z)) (get : list Z -> Cursor -> io (list Z)) (n : nat) (b : bool) s :
  (b = true -> exists r, put s = Ok r /\ length r = n /\ forall buf c, serves buf c r -> get buf c = Ok s) ->
  exists r, put_when b (put s) = Ok r /\
    forall buf c, serves buf c r ->
      get_when b (Z.of_nat n) [] (get buf) c = Ok (if b then s else [], advance c (zlen r)).
Proof.
  intros H. unfold put_when, get_when. destruct b.
  - destruct (H eq_refl) as (r & -> & Hl & Hg). exists r. split; [done|]. intros buf c Hs.
    pose proof (proj2 Hs). rewrite Hl in *. destruct (Z.ltb_spec (c_left c) (Z.of_nat n)); [lia|].
    by rewrite (Hg _ _ Hs).
  - exists []. split; [done|]. intros. by rewrite advance_0.
Qed.

(** ** IsAt *)

(** What a receiver sees of a message: the fields that are not sent have their
    initial values. *)
Definition ep_view (e : EndPoint) : EndPoint := if e_flag e then e else EndPoint_clear.
Definition shown (b : bool) (s : list Z) : list Z := if b then s else [].

Definition IsAt_view (x : IsAt) : IsAt :=
  if Z.land (i_version x) 15 =? 0 then
    mkIsAt (i_version x) (i_flagG x) (i_flagC x) (i_flagT x) (i_flagU x) (i_flagS x) (i_flagF x)
      EndPoint_clear EndPoint_clear EndPoint_clear EndPoint_clear
      (shown (i_flagG x) (i_guid x)) (shown (i_flagF x) (i_ipv4 x)) (shown (i_flagS x) (i_ipv6 x))
      (i_port x) None (i_names x)
  else
    mkIsAt (i_version x) (i_flagG x) (i_flagC x) false false false false
      (ep_view (i_R4 x)) (ep_view (i_U4 x)) (ep_view (i_R6 x)) (ep_view (i_U6 x))
      (shown (i_flagG x) (i_guid x)) [] [] 0 (i_transportMask x) (i_names x).

Lemma guid_invert (G : bool) guid : (G = true -> str_ok guid) ->
  exists r, put_when G (put_string guid) = Ok r /\
    forall buf cur v c t u s f r4 u4 r6 u6 a4 a6 po tm na, serves buf cur r ->
      get_guid buf (mkIsAt v G c t u s f r4 u4 r6 u6 [] a4 a6 po tm na) cur =
      Ok (mkIsAt v G c t u s f r4 u4 r6 u6 (shown G guid) a4 a6 po tm na, advance cur (zlen r)).
Proof.
  intros HG. unfold put_when, get_guid. rewrite put_string_eq. destruct G.
  - eexists. split; [reflexivity|]. intros. cbn [i_flagG]. rewrite (StringData_inverts guid) by auto. cbn [rbind].
    cbn [IsAt_SetGuid StringData_Set m_string shown length]. do 3 f_equal. lia.
  - exists []. split; [done|]. intros. cbn [i_flagG]. by rewrite advance_0.
Qed.

Lemma AddName_names names : forall x, fold_left IsAt_AddName names x = with_names x (i_names x ++ names).
Proof.
  induction names as [|n names IH]; intros x; cbn [fold_left].
  - rewrite app_nil_r. by destruct x.
  - rewrite IH. destruct x. cbn. by rewrite <- app_assoc.
Qed.

(** The bits of the first byte. *)
Lemma IsAt_bits (b1 b2 b4 b8 b16 b32 : bool) :
  let t := flag b1 1 (flag b2 2 (flag b4 4 (flag b8 8 (flag b16 16 (flag b32 32 (Z.shiftl 1 6)))))) in
  Z.land t 192 = Z.shiftl 1 6 /\ bit_set t 1 = b1 /\ bit_set t 2 = b2 /\ bit_set t 4 = b4 /\
  bit_set t 8 = b8 /\ bit_set t 16 = b16 /\ bit_set t 32 = b32.
Proof. by destruct b1, b2, b4, b8, b16, b32. Qed.

Lemma IsAt_fixed_invert buf c t n v : Z.land t 192 = Z.shiftl 1 6 -> serves buf c (t :: n :: be16 v) ->
  IsAt_fixed buf c = Ok (t :: n :: be16 v).
Proof.
  intros Ht Hs. unfold IsAt_fixed. pose proof (proj2 Hs) as Hl. cbn [be16 length] in Hl.
  destruct (Z.ltb_spec (c_left c) 4); [lia|].
  pose proof (serves_rd (E:=unit) _ _ _ Hs ltac:(done)) as Hr. cbn [be16 length] in Hr. fold (be16 v) in Hr.
  rewrite Hr. cbn [rbind nth]. by rewrite Ht, Z.eqb_refl.
Qed.

(** Splits off the pieces of a message one after the other. *)
Ltac split_serves :=
  repeat match goal with
  | H : serves _ _ (_ ++ _) |- _ =>
      let H1 := fresh "Hs" in let H2 := fresh "Hs" in apply serves_app in H as [H1 H2]
  end.

Definition IsAt_at (v : Z) : IsAt :=
  mkIsAt v false false false false false false
    EndPoint_clear EndPoint_clear EndPoint_clear EndPoint_clear [] [] [] 0 None [].

Lemma IsAt_v0_invert v x : IsAt_ok v x -> Z.land v 15 = 0 ->
  exists bs, IsAt_Serialize_v0 x = Ok bs /\
    forall buf c, serves buf c bs ->
      IsAt_Deserialize_v0 (IsAt_at v) buf c = Ok (IsAt_view x, advance c (zlen bs)).
Proof.
  intros (Hv & (Ha & _) & HG & Hnl & Hns) Hv0. rewrite Hv in Ha. destruct (Ha Hv0) as (Hport & H4 & H6).
  unfold IsAt_Serialize_v0. rewrite bool_decide_true by done.
  destruct (when_invert put_v4 get_v4 4 (i_flagF x) (i_ipv4 x)) as (b4 & -> & Hg4); [intros; by apply v4_invert; auto|].
  destruct (when_invert put_v6 get_v6 16 (i_flagS x) (i_ipv6 x)) as (b6 & -> & Hg6); [intros; by apply v6_invert; auto|].
  destruct (guid_invert (i_flagG x) (i_guid x) HG) as (bg & -> & Hgg).
  destruct (put_names_ok (i_names x)) as (bn & Hbn & _). rewrite Hbn. cbn [rbind].
  set (t := flag (i_flagF x) 1 _).
  destruct (IsAt_bits (i_flagF x) (i_flagS x) (i_flagU x) (i_flagT x) (i_flagC x) (i_flagG x))
    as (Ht & B1 & B2 & B4 & B8 & B16 & B32). fold t in Ht, B1, B2, B4, B8, B16, B32.
  change (Z.of_nat 4) with 4 in Hg4. change (Z.of_nat 16) with 16 in Hg6.
  eexists. split; [reflexivity|]. intros buf c Hs. rewrite !app_comm_cons in *.
  apply serves_app in Hs as [Hfix Hs].
  change (zlen (t :: zlen (i_names x) :: be16 (i_port x))) with 4 in Hs. split_serves.
  unfold IsAt_Deserialize_v0. rewrite (IsAt_fixed_invert buf c t (zlen (i_names x)) (i_port x)) by done.
  cbn [rbind nth]. change (drop 2 (t :: zlen (i_names x) :: be16 (i_port x))) with (be16 (i_port x)).
  rewrite B1, B2, B4, B8, B16, B32, from_be16_be16 by done.
  cbn [IsAt_at i_version i_ipv4 i_ipv6 i_R4 i_U4 i_R6 i_U6 i_guid i_transportMask i_names].
  rewrite (Hg4 buf (advance c 4)) by done. cbn [rbind].
  erewrite (Hg6 buf) by done. cbn [rbind]. erewrite (Hgg buf) by done. cbn [rbind].
  rewrite Nat2Z.id, (names_invert IsAt_AddName buf (i_names x) bn) by done.
  rewrite AddName_names. unfold IsAt_view. rewrite Hv, Hv0. cbn [Z.eqb with_names i_names app].
  rewrite !advance_advance. do 3 f_equal. cbn [app length]. rewrite !length_app. cbn [be16 length]. lia.
Qed.

Lemma IsAt_v1_invert v x : IsAt_ok v x -> Z.land v 15 = 1 ->
  exists bs, IsAt_Serialize_v1 x = Ok bs /\
    forall buf c, serves buf c bs ->
      IsAt_Deserialize_v1 (IsAt_at v) buf c = Ok (IsAt_view x, advance c (zlen bs)).
Proof.
  intros (Hv & (_ & Ha) & HG & Hnl & Hns) Hv1. rewrite Hv in Ha.
  destruct (Ha Hv1) as ((mask & Hm & Hmask) & HR4 & HU4 & HR6 & HU6).
  unfold IsAt_Serialize_v1. rewrite bool_decide_true, Hm by done.
  destruct (ep_invert (size := 4) ltac:(lia) _ HR4) as (r4 & Hr4 & Gr4).
  destruct (ep_invert (size := 4) ltac:(lia) _ HU4) as (u4 & Hu4 & Gu4).
  destruct (ep_invert (size := 16) ltac:(lia) _ HR6) as (r6 & Hr6 & Gr6).
  destruct (ep_invert (size := 16) ltac:(lia) _ HU6) as (u6 & Hu6 & Gu6).
  change (put_addr StringToIPv4 (Z.of_nat 4)) with put_v4 in *.
  change (put_addr StringToIPv6 (Z.of_nat 16)) with put_v6 in *. rewrite Hr4, Hu4, Hr6, Hu6.
  destruct (guid_invert (i_flagG x) (i_guid x) HG) as (bg & -> & Hgg).
  destruct (put_names_ok (i_names x)) as (bn & Hbn & _). rewrite Hbn. cbn [rbind].
  set (t := flag (e_flag (i_U6 x)) 1 _).
  destruct (IsAt_bits (e_flag (i_U6 x)) (e_flag (i_R6 x)) (e_flag (i_U4 x)) (e_flag (i_R4 x)) (i_flagC x) (i_flagG x))
    as (Ht & B1 & B2 & B4 & B8 & B16 & B32). fold t in Ht, B1, B2, B4, B8, B16, B32.
  eexists. split; [reflexivity|]. intros buf c Hs. rewrite !app_comm_cons in *.
  apply serves_app in Hs as [Hfix Hs].
  change (zlen (t :: zlen (i_names x) :: be16 mask)) with 4 in Hs. split_serves.
  unfold IsAt_Deserialize_v1. rewrite (IsAt_fixed_invert buf c t (zlen (i_names x)) mask) by done.
  cbn [rbind nth]. change (drop 2 (t :: zlen (i_names x) :: be16 mask)) with (be16 mask).
  rewrite B1, B2, B4, B8, B16, B32, from_be16_be16 by done.
  cbn [IsAt_at i_version i_flagT i_flagU i_flagS i_flagF i_port i_ipv4 i_ipv6 i_R4 i_U4 i_R6 i_U6 i_guid i_transportMask i_names].
  unfold get_ep4, get_ep6.
  rewrite (Gr4 buf (advance c 4) 6) by done. cbn [rbind]. erewrite (Gu4 buf _ 6) by done. cbn [rbind].
  erewrite (Gr6 buf _ 18) by done. cbn [rbind]. erewrite (Gu6 buf _ 18) by done. cbn [rbind].
  erewrite (Hgg buf) by done. cbn [rbind].
  rewrite Nat2Z.id, (names_invert IsAt_AddName buf (i_names x) bn) by done.
  rewrite AddName_names. unfold IsAt_view. rewrite Hv, Hv1, Hm. cbn [Z.eqb with_names i_names app].
  rewrite !advance_advance. do 3 f_equal. cbn [app length]. rewrite !length_app. cbn [be16 length]. lia.
Qed.

Lemma IsAt_invert v x : IsAt_ok v x -> version_ok v ->
  exists bs, IsAt_Serialize x = Ok bs /\
    forall buf c, serves buf c bs -> IsAt_Deserialize (IsAt_at v) buf c = Ok (IsAt_view x, advance c (zlen bs)).
Proof.
  intros Hx (_ & Hver). pose proof (proj1 Hx) as Hv. unfold IsAt_Serialize, IsAt_Deserialize.
  cbn [IsAt_at i_version]. rewrite Hv. destruct Hver as [H0|H1].
  - destruct (IsAt_v0_invert v x Hx H0) as (bs & ? & ?). rewrite H0. by exists bs.
  - destruct (IsAt_v1_invert v x Hx H1) as (bs & ? & ?). rewrite H1. by exists bs.
Qed.

(** ** WhoHas

    In version one Serialize sets the bit of the flag U whatever the flag is, and
    Deserialize reads the flag from it, although the comments there and in the header say
    that version one drops all four flags. *)

Definition WhoHas_view (x : WhoHas) : WhoHas :=
  if Z.land (w_version x) 15 =? 0
  then mkWhoHas (w_version x) TRANSPORT_NONE (w_flagT x) (w_flagU x) (w_flagS x) (w_flagF x) (w_names x)
  else mkWhoHas (w_version x) TRANSPORT_NONE false true false false (w_names x).

Definition WhoHas_at (v : Z) : WhoHas := mkWhoHas v TRANSPORT_NONE false false false false [].

Lemma WhoHas_AddName_names names : forall v m t u s f na,
  fold_left WhoHas_AddName names (mkWhoHas v m t u s f na) = mkWhoHas v m t u s f (na ++ names).
Proof.
  induction names as [|n names IH]; intros; cbn [fold_left]; [by rewrite app_nil_r|].
  unfold WhoHas_AddName at 2. cbn. by rewrite IH, <- app_assoc.
Qed.

Lemma WhoHas_bits (b1 b2 b4 b8 : bool) :
  let t := flag b1 1 (flag b2 2 (flag b4 4 (flag b8 8 (Z.shiftl 2 6)))) in
  Z.land t 192 = Z.shiftl 2 6 /\ bit_set t 1 = b1 /\ bit_set t 2 = b2 /\ bit_set t 4 = b4 /\ bit_set t 8 = b8.
Proof. by destruct b1, b2, b4, b8. Qed.

Lemma WhoHas_invert v x : WhoHas_ok v x -> version_ok v ->
  exists bs, WhoHas_Serialize x = Ok bs /\
    forall buf c, serves buf c bs -> WhoHas_Deserialize (WhoHas_at v) buf c = Ok (WhoHas_view x, advance c (zlen bs)).
Proof.
  intros (Hv & Hnl & Hns) (_ & Hver). unfold WhoHas_Serialize. rewrite bool_decide_true by done.
  destruct (put_names_ok (w_names x)) as (bn & Hbn & _). rewrite Hbn. cbn [rbind].
  set (t := if Z.land (w_version x) 15 =? 0 then _ else Z.lor (Z.shiftl 2 6) 4).
  eexists. split; [reflexivity|]. intros buf c Hs.
  destruct (WhoHas_bits (w_flagF x) (w_flagS x) (w_flagU x) (w_flagT x)) as (Ht & B1 & B2 & B4 & B8).
  pose proof (proj2 Hs) as Hl. cbn [length] in Hl.
  apply (serves_app buf c [t; zlen (w_names x)] bn) in Hs as [Hfix Hs]. change (zlen [t; zlen (w_names x)]) with 2 in Hs.
  unfold WhoHas_Deserialize. destruct (Z.ltb_spec (c_left c) 2); [lia|].
  pose proof (serves_rd (E:=unit) _ _ _ Hfix ltac:(done)) as Hr. cbn [length] in Hr. rewrite Hr.
  cbn [rbind nth]. cbn [WhoHas_at w_version w_names].
  assert (forall y, fold_left WhoHas_AddName (w_names x) y = WhoHas_view x ->
    get_names WhoHas_AddName buf (Z.to_nat (zlen (w_names x))) y (advance c 2) =
    Ok (WhoHas_view x, advance c (zlen (t :: zlen (w_names x) :: bn)))) as Hgo.
  { intros y Hy. rewrite Nat2Z.id, (names_invert WhoHas_AddName buf (w_names x) bn), Hy by done.
    rewrite advance_advance. cbn [length]. do 3 f_equal. lia. }
  subst t. unfold WhoHas_view in *. rewrite Hv in *. destruct Hver as [Hver|Hver]; rewrite Hver in *.
  - change (0 =? 0) with true in *. cbn iota in *. rewrite Ht, Z.eqb_refl, B1, B2, B4, B8. cbn [negb rbind].
    apply Hgo, WhoHas_AddName_names.
  - change (1 =? 0) with false in *. change (1 =? 1) with true. cbn iota in *.
    apply Hgo, WhoHas_AddName_names.
Qed.

(** ** Packets *)

Definition packet_view (x : NSPacket) : NSPacket :=
  mkNSPacket (n_version x) (n_timer x) (map WhoHas_view (n_questions x)) (map IsAt_view (n_answers x)).

Lemma questions_invert v : version_ok v -> forall qs, Forall (WhoHas_ok v) qs ->
  exists bs, cat_io WhoHas_Serialize qs = Ok bs /\
    forall buf t q0 a0 c, serves buf c bs ->
      get_questions (length qs) (mkNSPacket v t q0 a0) buf c =
      Ok (mkNSPacket v t (q0 ++ map WhoHas_view qs) a0, advance c (zlen bs)).
Proof.
  intros Hv qs HQ. induction HQ as [|q qs Hq _ (br & Hbr & IH)]; cbn [cat_io length get_questions map].
  - exists []. split; [done|]. intros. by rewrite app_nil_r, advance_0.
  - destruct (WhoHas_invert v q Hq Hv) as (bq & -> & Hgq). rewrite Hbr. cbn [rbind].
    eexists. split; [reflexivity|]. intros buf t q0 a0 c Hs. apply serves_app in Hs as [H1 H2]. cbn [n_version].
    unfold WhoHas_SetVersion. cbn [WhoHas_init w_transportMask w_flagT w_flagU w_flagS w_flagF w_names].
    rewrite SetVersion_same by apply Hv. fold (WhoHas_at v). rewrite (Hgq _ _ H1). cbn [rbind].
    unfold NSPacket_AddQuestion. cbn [n_version n_timer n_questions n_answers].
    rewrite (IH buf t (q0 ++ [WhoHas_view q]) a0 _ H2), <- app_assoc, advance_advance, length_app, Nat2Z.inj_add. done.
Qed.

Lemma answers_invert v : version_ok v -> forall ans, Forall (IsAt_ok v) ans ->
  exists bs, cat_io IsAt_Serialize ans = Ok bs /\
    forall buf t q0 a0 c, serves buf c bs ->
      get_answers (length ans) (mkNSPacket v t q0 a0) buf c =
      Ok (mkNSPacket v t q0 (a0 ++ map IsAt_view ans), advance c (zlen bs)).
Proof.
  intros Hv ans HA. induction HA as [|a ans Ha _ (br & Hbr & IH)]; cbn [cat_io length get_answers map].
  - exists []. split; [done|]. intros. by rewrite app_nil_r, advance_0.
  - destruct (IsAt_invert v a Ha Hv) as (ba & -> & Hga). rewrite Hbr. cbn [rbind].
    eexists. split; [reflexivity|]. intros buf t q0 a0 c Hs. apply serves_app in Hs as [H1 H2]. cbn [n_version].
    unfold IsAt_SetVersion, IsAt_init. rewrite SetVersion_same by apply Hv. fold (IsAt_at v).
    rewrite (Hga _ _ H1). cbn [rbind]. unfold NSPacket_AddAnswer. cbn [n_version n_timer n_questions n_answers].
    rewrite (IH buf t q0 (a0 ++ [IsAt_view a]) _ H2), <- app_assoc, advance_advance, length_app, Nat2Z.inj_add. done.
Qed.

Lemma packet_size v : version_ok v -> forall qs ans ba, Forall (WhoHas_ok v) qs ->
  cat_io IsAt_Serialize ans = Ok ba ->
  exists n, (let! q := sum_io WhoHas_GetSerializedSize qs in
             let! a := sum_io IsAt_GetSerializedSize ans in Ok (4 + q + a) : io Z) = Ok n.
Proof.
  intros [_ Hv] qs ans ba HQ Hba.
  assert (exists q, sum_io WhoHas_GetSerializedSize qs = Ok q) as (q & ->).
  { induction HQ as [|x qs [Hx _] _ (q & IH)]; cbn [sum_io]; [by eexists|]. rewrite IH.
    unfold WhoHas_GetSerializedSize. rewrite Hx. destruct Hv as [-> | ->]; cbn; by eexists. }
  assert (exists a, sum_io IsAt_GetSerializedSize ans = Ok a) as (a & ->); [|by eexists].
  revert ba Hba. induction ans as [|x ans IH]; intros ba Hba; cbn [sum_io cat_io] in *; [by eexists|].
  inv_Ok. match goal with H : IsAt_Serialize x = Ok _ |- _ => rewrite (IsAt_Serialize_size _ _ H) end.
  edestruct IH as (a & ->); [eassumption|]. by eexists.
Qed.

(** C15: a well-formed packet of either version can always be sent, and a receiver that
    finds its bytes at the start of what arrived (whatever follows them) gets exactly
    the version, the timer, the questions and the answers that were sent, as far as the
    message version carries them ([packet_view]): a question of version one arrives with
    the flag U set and T, S and F clear whatever they were, and one of version zero with
    all four. It consumes exactly the packet. *)
Theorem NSPacket_roundtrip x rest :
  packet_ok x ->
  exists bs, NSPacket_Serialize x = Ok bs /\ NSPacket_GetSerializedSize x = Ok (zlen bs) /\
    NSPacket_Deserialize NSPacket_init (bs ++ rest) {| c_p := 0; c_left := zlen (bs ++ rest) |} =
    Ok (packet_view x, {| c_p := zlen bs; c_left := zlen rest |}).
Proof.
  intros (Hv & Ht & Hql & Hal & HQ & HA).
  destruct (questions_invert _ Hv _ HQ) as (bq & Hbq & Gq), (answers_invert _ Hv _ HA) as (ba & Hba & Ga).
  destruct (packet_size _ Hv _ _ _ HQ Hba) as (n & Hn).
  eexists. split_and!.
  - unfold NSPacket_Serialize. rewrite Hbq, Hba. cbn [rbind]. rewrite !Z.mod_small by lia. reflexivity.
  - fold (NSPacket_GetSerializedSize x) in Hn. rewrite Hn. f_equal. apply (Serialize_GetSerializedSize x); [|done].
    unfold NSPacket_Serialize. rewrite Hbq, Hba. cbn [rbind]. by rewrite !Z.mod_small by lia.
  - set (hd := [n_version x; zlen (n_questions x); zlen (n_answers x); n_timer x]).
    set (bs := n_version x :: _). assert (bs = hd ++ bq ++ ba) as -> by done.
    set (c0 := {| c_p := 0; c_left := _ |}).
    assert (serves ((hd ++ bq ++ ba) ++ rest) c0 (hd ++ bq ++ ba)) as Hs.
    { split; [apply (has_at_whole [])|]. cbn [c0 c_left]. rewrite (length_app _ rest). lia. }
    apply serves_app in Hs as [H1 Hs]. change (zlen hd) with 4 in Hs. apply serves_app in Hs as [H2 H3].
    pose proof (proj2 H1) as Hl. unfold NSPacket_Deserialize. destruct (Z.ltb_spec (c_left c0) 4); [cbn [hd length] in Hl; lia|].
    pose proof (serves_rd (E:=unit) _ _ _ H1 ltac:(done)) as Hr. cbn [hd length] in Hr. fold hd in Hr. rewrite Hr.
    cbn [rbind hd nth]. replace (negb _ && negb _) with false by (destruct Hv as [_ Hv]; lia).
    unfold NSPacket_SetTimer. cbn [NSPacket_init n_version n_timer n_questions n_answers].
    rewrite Nat2Z.id, (Gq _ _ _ _ _ H2). cbn [rbind]. rewrite Nat2Z.id, (Ga _ _ _ _ _ H3). cbn [app].
    rewrite !advance_advance. do 2 f_equal. unfold advance. cbn [c0 c_p c_left].
    rewrite !length_app. cbn [hd length]. f_equal; lia.
Qed.

Lemma sample_packet_ok : packet_ok sample_packet.
Proof.
  assert (version_ok 17) as Hv by (split; [vm_compute; split; [discriminate|reflexivity]|by right]).
  assert (forall s, bool_decide (str_ok s) = true -> str_ok s) as Hs by (intros s; apply bool_decide_eq_true).
  unfold packet_ok. split_and!; [exact Hv|vm_compute; split; [discriminate|reflexivity]|done|done| |].
  - apply Forall_cons_2; [|apply Forall_nil_2]. split; [done|]. split; [done|].
    apply Forall_cons_2; [|apply Forall_nil_2]. apply Hs; vm_compute; reflexivity.
  - apply Forall_cons_2; [|apply Forall_nil_2]. split; [done|]. split; [|split].
    + split; [done|]. intros _. split; [by exists 260|]. split; [done|]. split; [|split; [|done]].
      * intros _. split; [|done]. exists [10; 0; 0; 1]. split_and!; [done| |vm_compute; reflexivity].
        apply (bool_decide_unpack _). exact I.
      * intros _. split; [|done]. exists (replicate 15 0 ++ [1]). split_and!; [done| |vm_compute; reflexivity].
        apply (bool_decide_unpack _). exact I.
    + intros _. apply Hs. vm_compute. reflexivity.
    + split; [done|]. apply Forall_cons_2; [|apply Forall_nil_2]. apply Hs. vm_compute. reflexivity.
Qed.

Lemma NSPacket_roundtrip_witness :
  exists bs, NSPacket_Serialize sample_packet = Ok bs /\ NSPacket_GetSerializedSize sample_packet = Ok (zlen bs) /\
    NSPacket_Deserialize NSPacket_init (bs ++ [7]) {| c_p := 0; c_left := zlen (bs ++ [7]) |} =
    Ok (packet_view sample_packet, {| c_p := zlen bs; c_left := zlen [7] |}).
Proof. apply (NSPacket_roundtrip sample_packet [7]). exact sample_packet_ok. Defined.
