(* ===== verification/StringUtil.v ===== *)
(** Model of the conversions of common/src/StringUtil.cc: byte arrays and
    hexadecimal text, unsigned and signed integers of 32 and 64 bits and their
    text in any base, and the white space functions.

    The 32 and the 64 bit functions have the same text but for the width of
    their integers, which is the argument [w] here. Signed arithmetic is two's
    complement. *)
From S2P Require Import Prelude Types BusUtil IPAddress.

(** * Hexadecimal text *)

Definition hexCharsUC (d : Z) : Z := if d <=? 9 then d + 48 else d + 55.
Definition hexCharsLC (d : Z) : Z := if d <=? 9 then d + 48 else d + 87.

Fixpoint hex_loop (hexChars : Z -> Z) (separator : Z) (first : bool) (bytes : list Z) : list Z :=
  match bytes with
  | [] => []
  | b :: bytes =>
      (if negb (separator =? 0) && negb first then [separator] else []) ++
      hexChars (Z.shiftr b 4) :: hexChars (Z.land b 15) :: hex_loop hexChars separator false bytes
  end.

Definition BytesToHexString (bytes : list Z) (toLower : bool) (separator : Z) : list Z :=
  hex_loop (if toLower then hexCharsLC else hexCharsUC) separator true bytes.

(** One turn of the reading loops: the separator, then two digits. [None] is the
    [break]; reading past the end of the text is [Undef]. *)
Definition hex_digits (it : list Z) : result QStatus (option (Z * list Z)) :=
  match it with
  | c :: d :: it =>
      let h := CharToU8 c in
      let l := CharToU8 d in
      Ok (if (15 <? h) || (15 <? l) then None else Some ((Z.shiftl h 4 + l) mod 256, it))
  | _ => Undef
  end.

Definition hex_turn (separator : Z) (first : bool) (it : list Z) : result QStatus (option (Z * list Z)) :=
  if negb (separator =? 0) && negb first then
    match it with
    | c :: it => if negb (c =? separator) then Ok None else hex_digits it
    | [] => Undef
    end
  else hex_digits it.

Fixpoint hex_read (n : nat) (separator : Z) (first : bool) (it : list Z) : result QStatus (list Z) :=
  match n with
  | O => Ok []
  | S n =>
      let! t := hex_turn separator first it in
      match t with
      | None => Ok []
      | Some (b, it) => let! r := hex_read n separator false it in Ok (b :: r)
      end
  end.

Definition hex_len (hex : list Z) (separator : Z) : Z :=
  if negb (separator =? 0) then (1 + zlen hex) / 3 else zlen hex / 2.

(** The bytes written to [outBytes]; their number is what is returned. *)
Definition HexStringToBytes (hex : list Z) (len separator : Z) : result QStatus (list Z) :=
  hex_read (Z.to_nat (Z.min (hex_len hex separator) len)) separator true hex.

Definition HexStringToByteString (hex : list Z) (separator : Z) : result QStatus (list Z) :=
  hex_read (Z.to_nat (hex_len hex separator)) separator true hex.

(** * Integers to text *)

(** The loop that counts the fill characters needed in front. *)
Fixpoint fill_loop (k : nat) (tmp base fill : Z) : result QStatus (list Z) :=
  match k with
  | O => Ok []
  | S k =>
      if base <=? tmp then
        if base =? 0 then Undef else fill_loop k (tmp / base) base fill
      else let! r := fill_loop k tmp base fill in Ok (fill :: r)
  end.

(** Digits are inserted in front of those of higher place. *)
Fixpoint digit_loop (fuel : nat) (num base : Z) (ds : list Z) : result QStatus (list Z) :=
  match fuel with
  | O => Undef
  | S fuel =>
      let ds := hexCharsUC (num mod base) :: ds in
      let num := num / base in
      if num =? 0 then Ok ds else digit_loop fuel num base ds
  end.

(** A base of two or more at least halves the number in each turn. *)
Definition digit_fuel (num : Z) : nat := S (Z.to_nat (Z.log2 num)).

Definition UToString (num base : Z) (width : nat) (fill : Z) : result QStatus (list Z) :=
  let width := if Nat.eqb width 0 then 1%nat else width in
  let! pad := fill_loop (pred width) num base fill in
  let! ds := if (0 <? base) && (base <=? 16) then digit_loop (digit_fuel num) num base [] else Ok [] in
  match pad ++ ds with
  | [] => Ok [48]
  | out => Ok out
  end.

Definition U32ToString (num base : Z) (width : nat) (fill : Z) := UToString num base width fill.
Definition U64ToString (num base : Z) (width : nat) (fill : Z) := UToString num base width fill.

Definition wrap_u (w v : Z) : Z := v mod 2 ^ w.
Definition wrap_s (w v : Z) : Z := (v + 2 ^ (w - 1)) mod 2 ^ w - 2 ^ (w - 1).

Definition IToString (w num base : Z) (width : nat) (fill : Z) : result QStatus (list Z) :=
  let width := if Nat.eqb width 0 then 1%nat else width in
  if 0 <=? num then UToString (wrap_u w num) base width fill
  else
    let unum := if wrap_s w (num * 2) =? 0 then wrap_u w num else wrap_u w (wrap_s w (- num)) in
    let! s := UToString unum base (pred width) fill in Ok (45 :: s).

Definition I32ToString := IToString 32.
Definition I64ToString := IToString 64.

(** * Text to integers *)

(** The default white space: space, tab, newline, return, vertical tab. *)
Definition IsWhite (c : Z) : bool := existsb (Z.eqb c) [32; 9; 10; 13; 11].

Fixpoint number_loop (w base : Z) (it : list Z) (isBad : bool) (val : Z) : option Z :=
  match it with
  | [] => if isBad then None else Some val
  | c :: it =>
      if negb (IsWhite c) then
        let n := CharToU8 c in
        if base <=? n then None
        else number_loop w base it false (wrap_u w (wrap_u w (val * base) + n))
      else if negb isBad then Some val
      else number_loop w base it isBad val
  end.

Definition is_x (c : Z) : bool := (c =? 120) || (c =? 88).

(** The prefix decides the base (0) or is skipped (16). *)
Definition number_start (inStr : list Z) (base : Z) : option (Z * list Z) :=
  if base =? 0 then
    match inStr with
    | 48 :: [] => None
    | 48 :: c :: it => if is_x c then Some (16, it) else Some (8, c :: it)
    | _ => Some (10, inStr)
    end
  else if base =? 16 then
    match inStr with
    | 48 :: c :: it => if is_x c then Some (16, it) else Some (16, inStr)
    | _ => Some (16, inStr)
    end
  else Some (base, inStr).

Definition StringToU (w : Z) (inStr : list Z) (base badValue : Z) : Z :=
  if 16 <? base then badValue
  else match number_start inStr base with
       | None => 0
       | Some (base, it) => default badValue (number_loop w base it true 0)
       end.

Definition StringToU32 := StringToU 32.
Definition StringToU64 := StringToU 64.

(** [badWord] is the cast of [badValue] that is handed to the unsigned
    conversion: of the same width in StringToI32, of 32 bits in StringToI64. *)
Definition StringToI (w : Z) (badWord : Z -> Z) (inStr : list Z) (base badValue : Z) : Z :=
  match inStr with
  | [] => badValue
  | c :: rest =>
      if c =? 45 then
        let i := StringToU w rest base (badWord badValue) in
        if negb (i =? wrap_u w badValue) && (i <=? 2 ^ (w - 1)) then wrap_s w (- wrap_s w i) else badValue
      else
        let i := StringToU w inStr base (badWord badValue) in
        if negb (i =? wrap_u w badValue) && (i <? 2 ^ (w - 1)) then i else badValue
  end.

Definition StringToI32 := StringToI 32 (wrap_u 32).
Definition StringToI64 := StringToI 64 (wrap_u 32).

(** * Digits and their text *)

Lemma hexCharsUC_digit d : 0 <= d < 16 -> CharToU8 (hexCharsUC d) = d.
Proof. unfold hexCharsUC, CharToU8. intros. repeat case_match; lia. Qed.

Lemma hexCharsLC_digit d : 0 <= d < 16 -> CharToU8 (hexCharsLC d) = d.
Proof. unfold hexCharsLC, CharToU8. intros. repeat case_match; lia. Qed.

Lemma IsWhite_CharToU8 c : IsWhite c = true -> CharToU8 c = 255.
Proof. unfold IsWhite, existsb, CharToU8. intros. repeat case_match; lia. Qed.

Lemma CharToU8_x c : CharToU8 c <> 255 -> is_x c = false.
Proof. unfold CharToU8, is_x. intros. repeat case_match; lia. Qed.

Lemma white_x c : IsWhite c = true -> is_x c = false.
Proof. unfold IsWhite, existsb, is_x. lia. Qed.

(** A digit is no white space. *)
Lemma digit_white c : CharToU8 c < 16 -> IsWhite c = false.
Proof. intros H. destruct (IsWhite c) eqn:E; [|done]. apply IsWhite_CharToU8 in E. lia. Qed.

Lemma wrap_u_step w val base n :
  0 <= w -> wrap_u w (wrap_u w (val * base) + n) = wrap_u w (val * base + n).
Proof. unfold wrap_u. intros. by rewrite Zplus_mod_idemp_l. Qed.

Lemma wrap_u_small w v : 0 <= v < 2 ^ w -> wrap_u w v = v.
Proof. apply Z.mod_small. Qed.

Lemma number_loop_digit w base c it bad val :
  0 <= w -> CharToU8 c < base -> base <= 16 ->
  number_loop w base (c :: it) bad val = number_loop w base it false (wrap_u w (val * base + CharToU8 c)).
Proof.
  intros. cbn [number_loop]. rewrite digit_white by lia. cbn [negb].
  assert ((base <=? CharToU8 c) = false) as -> by lia. by rewrite wrap_u_step.
Qed.

(** [ds] is the text of [num]: read on from any value it appends the digits. *)
Definition text_of (base num : Z) (ds : list Z) : Prop :=
  ds <> [] /\ Forall (fun c => CharToU8 c < base) ds /\ num < base ^ zlen ds /\
  (num = 0 -> ds = [48]) /\ (num <> 0 -> hd 0 ds <> 48) /\
  forall w it bad val, 0 <= w ->
    number_loop w base (ds ++ it) bad val =
    number_loop w base it false (wrap_u w (val * base ^ zlen ds + num)).

Lemma text_of_digit base d : 2 <= base <= 16 -> 0 <= d < base -> text_of base d [hexCharsUC d].
Proof.
  intros Hb Hd. split_and!; [done| | | | |].
  - constructor; [rewrite hexCharsUC_digit; lia|done].
  - cbn [length]. rewrite Z.pow_1_r. lia.
  - by intros ->.
  - cbn. unfold hexCharsUC. case_match; lia.
  - intros w it bad val Hw. cbn [app]. rewrite number_loop_digit by (rewrite ?hexCharsUC_digit; lia).
    rewrite hexCharsUC_digit by lia. cbn [length]. by rewrite Z.pow_1_r.
Qed.

Lemma pow_len_snoc base (ds : list Z) c : 0 < base -> base ^ zlen (ds ++ [c]) = base ^ zlen ds * base.
Proof. intros. rewrite length_app, Nat2Z.inj_add, Z.pow_add_r by (simpl; lia). by rewrite Z.pow_1_r. Qed.

Lemma text_of_snoc base num d ds :
  2 <= base <= 16 -> 0 < num -> 0 <= d < base -> text_of base num ds ->
  text_of base (num * base + d) (ds ++ [hexCharsUC d]).
Proof.
  intros Hb Hn Hd (Hne & Hall & Hlt & _ & Hhd & Hval). split_and!.
  - by destruct ds.
  - apply Forall_app. split; [done|]. constructor; [rewrite hexCharsUC_digit; lia|done].
  - rewrite pow_len_snoc by lia. nia.
  - nia.
  - intros _. destruct ds; [done|]. apply Hhd. lia.
  - intros w it bad val Hw. rewrite <- app_assoc. cbn [app]. rewrite Hval by done.
    rewrite number_loop_digit by (rewrite ?hexCharsUC_digit; lia).
    rewrite hexCharsUC_digit by lia. f_equal. unfold wrap_u.
    rewrite pow_len_snoc by lia.
    rewrite <- Zplus_mod_idemp_l, Zmult_mod_idemp_l, Zplus_mod_idemp_l. f_equal. ring.
Qed.

Lemma digit_loop_text base fuel num ds :
  2 <= base <= 16 -> (0 < fuel)%nat -> 0 <= num < 2 ^ Z.of_nat fuel ->
  exists pre, digit_loop fuel num base ds = Ok (pre ++ ds) /\ text_of base num pre.
Proof.
  intros Hb. revert num ds. induction fuel as [|fuel IH]; intros num ds Hf Hn; [lia|].
  cbn [digit_loop]. pose proof (Z.mod_pos_bound num base) as Hm. pose proof (Z.div_mod num base) as Hd.
  destruct (Z.eqb_spec (num / base) 0) as [H0|H0].
  - exists [hexCharsUC (num mod base)]. split; [done|].
    replace num with (num mod base) at 1 by lia. apply text_of_digit; lia.
  - assert (0 < num / base) by (pose proof (Z.div_pos num base); lia).
    rewrite Nat2Z.inj_succ, Z.pow_succ_r in Hn by lia.
    assert (num / base < 2 ^ Z.of_nat fuel) by nia.
    destruct (IH (num / base) (hexCharsUC (num mod base) :: ds)) as (pre & -> & Hpre); [|lia|].
    { destruct fuel; [cbn in *; lia|lia]. }
    exists (pre ++ [hexCharsUC (num mod base)]). rewrite <- app_assoc. split; [done|].
    replace num with (num / base * base + num mod base) at 1 by lia. apply text_of_snoc; (done || lia).
Qed.

Lemma digit_fuel_enough num : 0 <= num -> num < 2 ^ Z.of_nat (digit_fuel num).
Proof.
  intros. unfold digit_fuel. pose proof (Z.log2_nonneg num).
  rewrite Nat2Z.inj_succ, Z2Nat.id by lia.
  destruct (Z.eq_dec num 0) as [->|]; [done|]. apply Z.log2_spec. lia.
Qed.

Lemma fill_loop_pad k tmp base fill :
  0 < base -> exists n, fill_loop k tmp base fill = Ok (replicate n fill) /\
    (0 <= tmp -> forall j, (j <= k)%nat -> tmp < base ^ Z.of_nat (S (k - j)) -> (j <= n)%nat).
Proof.
  intros Hb. revert tmp. induction k as [|k IH]; intros tmp; cbn [fill_loop].
  { exists O. split; [done|]. lia. }
  destruct (Z.leb_spec base tmp).
  - assert ((base =? 0) = false) as -> by lia. destruct (IH (tmp / base)) as (n & -> & Hn).
    exists n. split; [done|]. intros Ht j Hj Hlt. destruct (decide (j = S k)) as [->|].
    { rewrite Nat.sub_diag, Z.pow_1_r in Hlt. lia. }
    apply Hn; [apply Z.div_pos; lia|lia|]. apply Z.div_lt_upper_bound; [lia|].
    rewrite <- Z.pow_succ_r by lia. by replace (Z.succ (Z.of_nat (S (k - j)))) with (Z.of_nat (S (S k - j))) by lia.
  - destruct (IH tmp) as (n & -> & Hn). exists (S n). split; [done|]. intros Ht j Hj Hlt.
    destruct j as [|j]; [lia|]. apply le_n_S, Hn; [done|lia|done].
Qed.

(** The text of a number: white space, then its digits, of the width asked for. *)
Lemma UToString_text num base width fill :
  2 <= base <= 16 -> 0 <= num ->
  exists n ds, UToString num base width fill = Ok (replicate n fill ++ ds) /\ text_of base num ds /\
    (width <= n + length ds)%nat.
Proof.
  intros Hb Hn. unfold UToString.
  assert ((0 <? base) && (base <=? 16) = true) as -> by lia.
  set (wd := if Nat.eqb width 0 then 1%nat else width).
  destruct (fill_loop_pad (pred wd) num base fill) as (n & -> & Hpad); [lia|].
  destruct (digit_loop_text base (digit_fuel num) num []) as (ds & Hds & Ht);
    [done|unfold digit_fuel; lia|split; [done|by apply digit_fuel_enough]|].
  exists n, ds. cbn [rbind]. rewrite Hds, app_nil_r. cbn [rbind].
  pose proof Ht as (Hne & _ & Hlt & _). split_and!; [|done|].
  - destruct (replicate n fill ++ ds) eqn:E; [|done]. apply app_eq_nil in E as [_ ?]. done.
  - assert (width <= wd)%nat by (subst wd; case_match; [apply Nat.eqb_eq in H; lia|lia]).
    destruct ds as [|d ds]; [done|]. cbn [length] in *.
    destruct (decide (wd <= S (length ds))%nat); [lia|].
    enough (wd - S (length ds) <= n)%nat by lia. apply Hpad; [done|lia|].
    eapply Z.lt_le_trans; [exact Hlt|]. apply Z.pow_le_mono_r; lia.
Qed.

(** Reading back what was printed: the white space in front is skipped. *)
Lemma number_loop_pad w base n fill ds :
  IsWhite fill = true -> number_loop w base (replicate n fill ++ ds) true 0 = number_loop w base ds true 0.
Proof. intros Hf. induction n; [done|]. cbn [replicate app number_loop]. rewrite Hf. done. Qed.

Lemma number_loop_text w base num n fill ds :
  0 <= w -> 0 <= num < 2 ^ w -> IsWhite fill = true -> text_of base num ds ->
  number_loop w base (replicate n fill ++ ds) true 0 = Some num.
Proof.
  intros Hw Hn Hf (_ & _ & _ & _ & _ & Hv). rewrite number_loop_pad by done.
  rewrite <- (app_nil_r ds), Hv by done. cbn. by rewrite wrap_u_small by lia.
Qed.

Lemma number_start_text base base' num n fill ds :
  2 <= base <= 16 -> IsWhite fill = true -> text_of base num ds ->
  base' = base \/ base' = 0 /\ base = 10 ->
  number_start (replicate n fill ++ ds) base' = Some (base, replicate n fill ++ ds) \/
  base' = 0 /\ n = 0%nat /\ num = 0 /\ number_start (replicate n fill ++ ds) base' = None.
Proof.
  intros Hb Hf (Hne & Hall & _ & H0 & Hhd & _) Hbase. unfold number_start.
  assert (48 <> fill) by (intros <-; discriminate Hf).
  assert (Forall (fun c => is_x c = false) (replicate n fill ++ ds)) as Hx.
  { apply Forall_app. split; [apply Forall_replicate; by apply white_x|].
    eapply Forall_impl; [exact Hall|]. intros c Hc. cbn in Hc. apply CharToU8_x. lia. }
  destruct Hbase as [->|[-> ->]].
  - left. assert ((base =? 0) = false) as -> by lia. destruct (Z.eqb_spec base 16) as [->|]; [|done].
    repeat case_match; try done. inversion Hx as [|? ? _ Hx']; inversion Hx'; subst. congruence.
  - change (0 =? 0) with true. cbv iota. destruct n as [|n].
    + cbn [replicate app] in *. destruct (Z.eq_dec num 0) as [Hz|Hz].
      * right. by rewrite (H0 Hz).
      * left. destruct ds as [|d ds]; [done|]. cbn in Hhd. repeat case_match; try done; exfalso; by apply Hhd.
    + left. cbn [replicate app]. repeat case_match; done.
Qed.

Lemma StringToU_text w base base' bad num n fill ds :
  0 <= w -> 0 <= num < 2 ^ w -> 2 <= base <= 16 -> IsWhite fill = true -> text_of base num ds ->
  base' = base \/ base' = 0 /\ base = 10 ->
  StringToU w (replicate n fill ++ ds) base' bad = num.
Proof.
  intros Hw Hn Hb Hf Ht Hbase. unfold StringToU. assert ((16 <? base') = false) as -> by lia.
  destruct (number_start_text base base' num n fill ds) as [->|(-> & -> & -> & ->)]; [done..| |done].
  by erewrite number_loop_text.
Qed.

Section signed.
Context (w : Z) (Hw : 2 <= w).

Lemma pow_half : 2 ^ w = 2 * 2 ^ (w - 1).
Proof. rewrite <- Z.pow_succ_r by lia. f_equal. lia. Qed.

Lemma wrap_s_small v : - 2 ^ (w - 1) <= v < 2 ^ (w - 1) -> wrap_s w v = v.
Proof. intros. unfold wrap_s. pose proof pow_half. rewrite Z.mod_small; lia. Qed.

Lemma wrap_s_max : wrap_s w (2 ^ (w - 1)) = - 2 ^ (w - 1).
Proof.
  unfold wrap_s. replace (2 ^ (w - 1) + 2 ^ (w - 1)) with (2 ^ w) by (pose proof pow_half; lia).
  rewrite Z.mod_same; [lia|]. pose proof (Z.pow_pos_nonneg 2 w). lia.
Qed.

(** The magnitude of a negative number, that of the least one included. *)
Lemma magnitude num :
  - 2 ^ (w - 1) <= num < 0 ->
  (if wrap_s w (num * 2) =? 0 then wrap_u w num else wrap_u w (wrap_s w (- num))) = - num.
Proof.
  intros Hn. pose proof pow_half as Hp. assert (0 < 2 ^ (w - 1)) by (apply Z.pow_pos_nonneg; lia).
  destruct (Z.eq_dec num (- 2 ^ (w - 1))) as [->|Hmin].
  - rewrite Z.opp_involutive, wrap_s_max. replace (- 2 ^ (w - 1) * 2) with (0 - 1 * 2 ^ w) by lia.
    assert (wrap_s w (0 - 1 * 2 ^ w) = 0) as ->.
    { unfold wrap_s. replace (0 - 1 * 2 ^ w + 2 ^ (w - 1)) with (2 ^ (w - 1) + (-1) * 2 ^ w) by lia.
      rewrite Z.mod_add, Z.mod_small by lia. lia. }
    cbn [Z.eqb]. unfold wrap_u. rewrite <- (Z.mod_add _ 1), Z.mod_small by lia. lia.
  - rewrite (wrap_s_small (- num)) by lia. unfold wrap_u. rewrite (Z.mod_small (- num)) by lia.
    case_match eqn:E; [|done]. exfalso. apply Z.eqb_eq in E. unfold wrap_s in E.
    assert ((num * 2 + 2 ^ (w - 1)) mod 2 ^ w = 2 ^ (w - 1)) as E' by lia.
    pose proof (Z.div_mod (num * 2 + 2 ^ (w - 1)) (2 ^ w) ltac:(lia)) as D. rewrite E', Hp in D.
    revert D. generalize ((num * 2 + 2 ^ (w - 1)) / (2 * 2 ^ (w - 1))). intros k D.
    clear E E' Hp. revert Hn H Hmin D. generalize (2 ^ (w - 1)). intros h ? ? ? D.
    assert (num = h * k) by lia. destruct (Z.ltb_spec k 0); nia.
Qed.

Lemma StringToI_text badWord base base' bad num width fill :
  2 <= base <= 16 -> base' = base \/ base' = 0 /\ base = 10 -> IsWhite fill = true ->
  - 2 ^ (w - 1) <= num < 2 ^ (w - 1) -> - 2 ^ (w - 1) <= bad < 2 ^ (w - 1) -> (num < 0 -> bad <> - num) ->
  exists s, IToString w num base width fill = Ok s /\ StringToI w badWord s base' bad = num.
Proof.
  intros Hb Hbase Hf Hn Hbad Hne. pose proof pow_half as Hp. unfold IToString.
  set (wd := if Nat.eqb width 0 then 1%nat else width).
  destruct (Z.leb_spec 0 num) as [Hpos|Hneg].
  - rewrite wrap_u_small by lia.
    destruct (UToString_text num base wd fill) as (n & ds & -> & Ht & _); [done..|]. eexists. split; [done|].
    assert (forall c s, replicate n fill ++ ds = c :: s -> (c =? 45) = false) as Hsign.
    { intros c s E. apply Z.eqb_neq. intros ->. destruct n; cbn in E.
      - destruct Ht as (_ & Hall & _). rewrite E in Hall. inversion Hall as [|? ? Hc _]; subst. change (CharToU8 45) with 255 in Hc. lia.
      - injection E as -> _. discriminate Hf. }
    unfold StringToI. destruct (replicate n fill ++ ds) as [|c s] eqn:E.
    { apply app_eq_nil in E as [_ ->]. by destruct Ht. }
    rewrite (Hsign _ _ eq_refl), <- E, (StringToU_text w base base' _ num) by (done || lia).
    unfold wrap_u. destruct (Z.eqb_spec num (bad mod 2 ^ w)) as [Eb|]; cbn [negb andb].
    + destruct (Z.ltb_spec bad 0); [|rewrite Z.mod_small in Eb; lia].
      rewrite <- (Z.mod_add _ 1), Z.mod_small in Eb by lia. lia.
    + assert ((num <? 2 ^ (w - 1)) = true) as -> by lia. done.
  - rewrite magnitude by lia.
    destruct (UToString_text (- num) base (pred wd) fill) as (n & ds & -> & Ht & _); [lia..|].
    eexists. split; [done|]. unfold StringToI. cbn [Z.eqb Pos.eqb].
    rewrite (StringToU_text w base base' _ (- num)) by (done || lia).
    assert ((- num <=? 2 ^ (w - 1)) = true) as -> by lia.
    destruct (Z.eqb_spec (- num) (wrap_u w bad)) as [Eb|]; cbn [negb andb].
    + unfold wrap_u in Eb. destruct (Z.ltb_spec bad 0); [|rewrite Z.mod_small in Eb; lia].
      rewrite <- (Z.mod_add _ 1), Z.mod_small in Eb by lia. lia.
    + destruct (Z.eq_dec num (- 2 ^ (w - 1))) as [->|].
      * rewrite Z.opp_involutive, wrap_s_max, Z.opp_involutive. apply wrap_s_max.
      * rewrite (wrap_s_small (- num)), Z.opp_involutive by lia. apply wrap_s_small. lia.
Qed.
End signed.

(** A number printed in a base of 2 to 16, padded with white space to any
    width, takes at least that width and is read back by StringToU32 or
    StringToU64, in that base or, when it is ten, with the base left to the text. *)
Theorem StringToU_roundtrip w num base base' width fill bad :
  w = 32 \/ w = 64 -> 0 <= num < 2 ^ w -> 2 <= base <= 16 ->
  base' = base \/ base' = 0 /\ base = 10 -> IsWhite fill = true ->
  exists s, UToString num base width fill = Ok s /\ (width <= length s)%nat /\
    StringToU w s base' bad = num.
Proof.
  intros Hw Hn Hb Hbase Hf.
  destruct (UToString_text num base width fill) as (n & ds & E & Ht & Hl); [lia..|].
  exists (replicate n fill ++ ds). split_and!; [done| |].
  - by rewrite length_app, length_replicate.
  - apply (StringToU_text w base); (done || lia).
Qed.

Lemma StringToU_roundtrip_witness :
  U32ToString 4000000000 16 10 32 = Ok [32; 32; 69; 69; 54; 66; 50; 56; 48; 48] /\
  exists s, UToString 4000000000 16 10 32 = Ok s /\ (10 <= length s)%nat /\ StringToU 32 s 16 0 = 4000000000.
Proof.
  split; [reflexivity|].
  apply (StringToU_roundtrip 32 4000000000 16 16 10 32 0); first [by left|lia|reflexivity].
Defined.

(** A signed number, the least one included, is read back from its text
    by StringToI32 or StringToI64, unless it is negative and its magnitude is
    the value that stands for bad text. *)
Theorem StringToI_roundtrip w badWord num base base' width fill bad :
  w = 32 \/ w = 64 -> - 2 ^ (w - 1) <= num < 2 ^ (w - 1) -> - 2 ^ (w - 1) <= bad < 2 ^ (w - 1) ->
  2 <= base <= 16 -> base' = base \/ base' = 0 /\ base = 10 -> IsWhite fill = true ->
  (num < 0 -> bad <> - num) ->
  exists s, IToString w num base width fill = Ok s /\ StringToI w badWord s base' bad = num.
Proof. intros. apply StringToI_text; (done || lia). Qed.

Lemma StringToI_roundtrip_witness :
  I32ToString (-2147483648) 10 1 32 = Ok [45; 50; 49; 52; 55; 52; 56; 51; 54; 52; 56] /\
  exists s, IToString 32 (-2147483648) 10 1 32 = Ok s /\ StringToI 32 (wrap_u 32) s 0 0 = -2147483648.
Proof.
  split; [reflexivity|].
  apply (StringToI_roundtrip 32 (wrap_u 32) (-2147483648) 10 0 1 32 0);
    first [by left|by right|lia|reflexivity].
Defined.

(** For a text that starts with no digit, sign or white space StringToI32
    returns the value asked for, but StringToI64 returns its low 32 bits, which
    differ from it for every negative value and every one of more bits. *)
Theorem StringToI64_bad c s base bad :
  c <> 45 -> IsWhite c = false -> CharToU8 c = 255 -> 1 <= base <= 16 ->
  - 2 ^ 63 <= bad < 2 ^ 63 -> (bad < 0 \/ 2 ^ 32 <= bad) ->
  StringToI64 (c :: s) base bad = bad mod 2 ^ 32 /\ StringToI64 (c :: s) base bad <> bad /\
  forall bad', - 2 ^ 31 <= bad' < 2 ^ 31 -> StringToI32 (c :: s) base bad' = bad'.
Proof.
  intros Hc Hw Hx Hb Hbad Hout. assert ((c =? 45) = false) as Hc' by lia.
  assert (forall w bw, StringToU w (c :: s) base bw = bw) as HU.
  { intros w bw. unfold StringToU. assert ((16 <? base) = false) as -> by lia.
    assert (number_start (c :: s) base = Some (base, c :: s)) as ->.
    { unfold number_start. assert ((base =? 0) = false) as -> by lia.
      destruct (Z.eqb_spec base 16) as [->|]; [|done].
      repeat case_match; simplify_eq; (done || discriminate Hx). }
    cbn [number_loop]. rewrite Hw, Hx. cbn [negb]. by assert ((base <=? 255) = true) as -> by lia. }
  pose proof (Z.mod_pos_bound bad (2 ^ 32) ltac:(lia)) as Hm.
  assert (StringToI64 (c :: s) base bad = bad mod 2 ^ 32) as E.
  { unfold StringToI64, StringToI. rewrite Hc', HU. unfold wrap_u.
    assert (bad mod 2 ^ 32 <> bad mod 2 ^ 64) as Hne.
    { destruct Hout.
      - rewrite <- (Z.mod_add bad 1 (2 ^ 64)), (Z.mod_small (bad + 1 * 2 ^ 64)) by lia. lia.
      - rewrite (Z.mod_small bad (2 ^ 64)) by lia. lia. }
    apply Z.eqb_neq in Hne as ->. cbn [negb andb].
    by assert ((bad mod 2 ^ 32 <? 2 ^ (64 - 1)) = true) as -> by lia. }
  split_and!; [done|rewrite E; lia|]. intros bad' _.
  unfold StringToI32, StringToI. rewrite Hc', HU, Z.eqb_refl. done.
Qed.

Lemma StringToI64_bad_witness :
  StringToI64 [120] 10 (-1) = 4294967295 /\ StringToI64 [120] 10 (-1) <> -1 /\
  forall bad', - 2 ^ 31 <= bad' < 2 ^ 31 -> StringToI32 [120] 10 bad' = bad'.
Proof.
  destruct (StringToI64_bad 120 [] 10 (-1)) as (H1 & H2 & H3); [lia|reflexivity|reflexivity|lia|lia|lia|].
  split_and!; assumption.
Defined.

(** In base one, which the header allows, the printing loop never ends. *)
Lemma UToString_base_one num width fill : 0 < num -> UToString num 1 width fill = Undef.
Proof.
  intros Hn. unfold UToString.
  destruct (fill_loop_pad (pred (if Nat.eqb width 0 then 1%nat else width)) num 1 fill) as (n & -> & _); [lia|].
  cbn [rbind]. change ((0 <? 1) && (1 <=? 16)) with true. cbv iota.
  assert (forall fuel ds, digit_loop fuel num 1 ds = Undef) as ->; [|done].
  induction fuel as [|fuel IH]; intros ds; [done|]. cbn [digit_loop].
  rewrite Z.div_1_r. by assert ((num =? 0) = false) as -> by lia.
Qed.

(** * Hexadecimal text *)

Lemma hex_byte b : 0 <= b < 256 ->
  0 <= Z.shiftr b 4 < 16 /\ 0 <= Z.land b 15 < 16 /\ (Z.shiftl (Z.shiftr b 4) 4 + Z.land b 15) mod 256 = b.
Proof.
  intros Hb. rewrite Z.shiftr_div_pow2, Z.shiftl_mul_pow2 by lia. change 15 with (Z.ones 4).
  rewrite Z.land_ones by lia. change (2 ^ 4) with 16.
  pose proof (Z.mod_pos_bound b 16). pose proof (Z.div_mod b 16).
  split_and!; [apply Z.div_pos; lia|apply Z.div_lt_upper_bound; lia|lia|lia|].
  rewrite Z.mod_small by lia. lia.
Qed.

Lemma hex_read_loop hexChars sep first bytes :
  (forall d, 0 <= d < 16 -> CharToU8 (hexChars d) = d) -> Forall is_byte bytes ->
  hex_read (length bytes) sep first (hex_loop hexChars sep first bytes) = Ok bytes.
Proof.
  intros Hhex Hb. revert first. induction Hb as [|b bytes Hb _ IH]; intros first; [done|].
  destruct (hex_byte b Hb) as (Hh & Hl & E).
  assert (forall it, hex_digits (hexChars (Z.shiftr b 4) :: hexChars (Z.land b 15) :: it) = Ok (Some (b, it))) as Hd.
  { intros it. unfold hex_digits. rewrite !Hhex by done. rewrite E.
    by assert ((15 <? Z.shiftr b 4) || (15 <? Z.land b 15) = false) as -> by lia. }
  cbn [length hex_read hex_loop]. unfold hex_turn.
  destruct (negb (sep =? 0) && negb first); cbn [app]; rewrite ?Z.eqb_refl; cbn [negb];
    rewrite Hd; cbn [rbind]; by rewrite IH.
Qed.

Lemma hex_loop_length hexChars sep first bytes :
  zlen (hex_loop hexChars sep first bytes) =
  2 * zlen bytes + (if sep =? 0 then 0 else zlen bytes - (if first && (0 <? zlen bytes) then 1 else 0)).
Proof.
  revert first. induction bytes as [|b bytes IH]; intros first; [destruct first, (sep =? 0); done|].
  cbn [hex_loop]. rewrite length_app, Nat2Z.inj_add. cbn [length]. rewrite !Nat2Z.inj_succ, IH.
  assert ((0 <? Z.succ (zlen bytes)) = true) as -> by (clear IH; apply Z.ltb_lt; lia).
  destruct first, (sep =? 0); cbn [negb andb length Nat.add Z.of_nat]; lia.
Qed.

Lemma hex_len_loop hexChars sep bytes : hex_len (hex_loop hexChars sep true bytes) sep = zlen bytes.
Proof.
  unfold hex_len. rewrite hex_loop_length. destruct (sep =? 0); cbn [negb andb].
  - rewrite Z.add_0_r, Z.mul_comm. by rewrite Z.div_mul.
  - symmetry. destruct (Z.ltb_spec 0 (zlen bytes)).
    + apply Z.div_unique with 0; lia.
    + apply Z.div_unique with 1; lia.
Qed.

Lemma hex_read_defined n sep (first : bool) it :
  ((if (sep =? 0)%Z then 2 * n else 3 * n - (if first then 1 else 0)) <= length it)%nat ->
  defined (hex_read n sep first it).
Proof.
  revert first it. induction n as [|n IH]; intros first it Hl; [done|]. cbn [hex_read].
  apply rbind_defined.
  - unfold hex_turn, hex_digits. destruct (sep =? 0), first; cbn [negb andb]; destruct it as [|? [|? [|? ?]]]; cbn in Hl; try lia;
      repeat case_match; done.
  - intros [[b it']|] E; [|done]. apply rbind_defined; [|done]. apply IH.
    unfold hex_turn, hex_digits in E. destruct (sep =? 0), first; cbn [negb andb] in E;
      destruct it as [|? [|? [|? ?]]]; cbn in Hl; try lia; repeat case_match; simplify_eq; cbn [length] in *; lia.
Qed.

(** Reading hexadecimal text never leaves the text; and whatever the case
    and the separator, the bytes that were printed are read back, by
    HexStringToBytes when the array has room for them and by
    HexStringToByteString. *)
Theorem HexString_roundtrip bytes toLower separator len :
  Forall is_byte bytes -> zlen bytes <= len ->
  HexStringToBytes (BytesToHexString bytes toLower separator) len separator = Ok bytes /\
  HexStringToByteString (BytesToHexString bytes toLower separator) separator = Ok bytes /\
  forall hex n sep, defined (HexStringToBytes hex n sep).
Proof.
  intros Hb Hlen. unfold HexStringToBytes, HexStringToByteString, BytesToHexString.
  rewrite hex_len_loop, Z.min_l, Nat2Z.id by done.
  assert (forall d, 0 <= d < 16 -> CharToU8 ((if toLower then hexCharsLC else hexCharsUC) d) = d) as Hh.
  { destruct toLower; [apply hexCharsLC_digit|apply hexCharsUC_digit]. }
  split_and!; [by apply hex_read_loop..|]. intros hex n sep.
  apply hex_read_defined. unfold hex_len. pose proof (Z.div_mod (1 + zlen hex) 3). pose proof (Z.div_mod (zlen hex) 2).
  pose proof (Z.mod_pos_bound (1 + zlen hex) 3). pose proof (Z.mod_pos_bound (zlen hex) 2).
  destruct (sep =? 0); cbn [negb]; lia.
Qed.

Lemma HexString_roundtrip_witness :
  BytesToHexString [0; 175; 18] false 58 = [48; 48; 58; 65; 70; 58; 49; 50] /\
  HexStringToBytes (BytesToHexString [0; 175; 18] false 58) 3 58 = Ok [0; 175; 18].
Proof.
  split; [reflexivity|].
  apply (HexString_roundtrip [0; 175; 18] false 58 3); [repeat constructor; lia|cbn; lia].
Defined.

(** Reading never fails, and never reads more than asked for. *)
Lemma hex_read_fail n sep first it s : hex_read n sep first it <> Fail s.
Proof.
  revert first it. induction n as [|n IH]; intros first it; [done|]. cbn [hex_read].
  destruct (hex_turn sep first it) as [[[x it']|]|st|] eqn:Et; cbn [rbind]; [|done| |done].
  - destruct (hex_read n sep false it') eqn:Er; cbn [rbind]; [done| |done]. intros [= ->]. by eapply IH.
  - unfold hex_turn, hex_digits in Et. repeat case_match; done.
Qed.

Lemma hex_read_shape n sep first it bytes : hex_read n sep first it = Ok bytes ->
  Forall is_byte bytes /\ (length bytes <= n)%nat.
Proof.
  revert first it bytes. induction n as [|n IH]; intros first it bytes; cbn [hex_read].
  { intros [= <-]. split; [constructor|cbn; lia]. }
  destruct (hex_turn sep first it) as [[[x it']|]|st|] eqn:Et; cbn [rbind]; [| |done|done].
  - destruct (hex_read n sep false it') as [r| |] eqn:Er; cbn [rbind]; [|done..]. intros [= <-].
    destruct (IH _ _ _ Er) as [H1 H2]. split; [|cbn; lia]. constructor; [|done].
    unfold hex_turn, hex_digits in Et. unfold is_byte.
    repeat case_match; simplify_eq; apply Z.mod_pos_bound; lia.
  - intros [= <-]. split; [constructor|cbn; lia].
Qed.

Lemma HexStringToBytes_ok hex len sep : 0 <= len ->
  exists bytes, HexStringToBytes hex len sep = Ok bytes /\ Forall is_byte bytes /\ zlen bytes <= len.
Proof.
  intros Hl. destruct (HexString_roundtrip [] true 0 0 ltac:(done) ltac:(cbn; lia)) as (_ & _ & Hd).
  specialize (Hd hex len sep). unfold HexStringToBytes in *.
  destruct (hex_read _ _ _ _) as [bytes|s|] eqn:E; [| |done].
  - exists bytes. destruct (hex_read_shape _ _ _ _ _ E). split_and!; [done|done|lia].
  - by apply hex_read_fail in E.
Qed.
