(* ===== verification/GUID.v ===== *)
(** Model of common/src/GUID.cc and common/inc/qcc/GUID.h: identifiers of 128
    bits, their hexadecimal text and their short text, both of which the object
    keeps once they were asked for. *)
From S2P Require Import Prelude Types BusUtil IPAddress StringUtil.

Module GUID.

Definition SIZE : Z := 16.
Definition SHORT_SIZE : Z := 8.

Record GUID128 := { guid : list Z; value : list Z; shortValue : list Z }.

Definition new_guid (bytes : list Z) : GUID128 := {| guid := bytes; value := []; shortValue := [] |}.

(** The constructors: from random bytes, filled with one byte, from text, and
    as a copy. *)
Definition GUID_random (bytes : list Z) : GUID128 := new_guid bytes.
Definition GUID_fill (init : Z) : GUID128 := new_guid (replicate (Z.to_nat SIZE) init).
Definition GUID_hex (hexStr : list Z) : res GUID128 :=
  let! bytes := HexStringToBytes hexStr SIZE 0 in
  Ok (new_guid (bytes ++ replicate (Z.to_nat (SIZE - zlen bytes)) 0)).
Definition GUID_copy (other : GUID128) : GUID128 := new_guid (guid other).

(** Assignment; [same] tells that it is to itself. *)
Definition GUID_assign (this other : GUID128) (same : bool) : GUID128 :=
  if same then this else {| guid := guid other; value := []; shortValue := [] |}.

Definition SetBytes (this : GUID128) (rawBytes : list Z) : GUID128 :=
  {| guid := take (Z.to_nat SIZE) rawBytes; value := []; shortValue := [] |}.

Definition IsGUID (str : list Z) (exactLen : bool) : res bool :=
  if exactLen && negb (zlen str =? 2 * SIZE) then Ok false
  else let! hex := HexStringToBytes str SIZE 0 in Ok (zlen hex =? SIZE).

Definition Compare (this : GUID128) (other : list Z) : res bool :=
  let! them := HexStringToBytes other SIZE 0 in
  Ok ((zlen them =? SIZE) && bool_decide (guid this = them)).

(** memcmp of the bytes: the other first. *)
Definition GUID_eq (this other : GUID128) : bool := bool_decide (guid other = guid this).
Definition GUID_lt (this other : GUID128) : bool := lex_lt (guid other) (guid this).

(** The text, and the object that keeps it. *)
Definition ToString (this : GUID128) : list Z * GUID128 :=
  match value this with
  | [] => let v := BytesToHexString (guid this) true 0 in
          (v, {| guid := guid this; value := v; shortValue := shortValue this |})
  | v => (v, this)
  end.

Definition short_char (b : Z) : Z :=
  let cur := Z.land b 63 in
  if cur <? 10 then cur + 48
  else if cur <? 36 then (cur - 10) + 65
  else if cur <? 62 then (cur - 36) + 97
  else if cur =? 63 then 95
  else 45.

Definition short_text (bytes : list Z) : list Z := map short_char (take (Z.to_nat SHORT_SIZE) bytes).

Definition ToShortString (this : GUID128) : list Z * GUID128 :=
  match shortValue this with
  | [] => let v := short_text (guid this) in
          (v, {| guid := guid this; value := value this; shortValue := v |})
  | v => (v, this)
  end.

(** [data] is the room behind the pointer; the copy takes [len] bytes, or 16 if
    that is more, out of an array of 16. *)
Definition Render (this : GUID128) (data : list Z) (len : Z) : res (list Z) :=
  let len := if len <? SIZE then SIZE else len in
  if (len <=? zlen (guid this)) && (len <=? zlen data) then
    Ok (take (Z.to_nat len) (guid this) ++ drop (Z.to_nat len) data)
  else Undef.

Definition RenderByteString (this : GUID128) : list Z := guid this.

(** * Theorems *)

(** Sixteen bytes, and a text that is kept is the text of these bytes. *)
Definition guid_ok (this : GUID128) : Prop :=
  Forall is_byte (guid this) /\ zlen (guid this) = SIZE /\
  (value this = [] \/ value this = BytesToHexString (guid this) true 0) /\
  (shortValue this = [] \/ shortValue this = short_text (guid this)).

Lemma new_guid_ok bytes : Forall is_byte bytes -> zlen bytes = SIZE -> guid_ok (new_guid bytes).
Proof. intros. split_and!; [done|done|by left|by left]. Qed.

Lemma GUID_hex_ok hexStr : exists g, GUID_hex hexStr = Ok g /\ guid_ok g.
Proof.
  unfold GUID_hex. destruct (HexStringToBytes_ok hexStr SIZE 0 ltac:(done)) as (bytes & -> & Hb & Hl). cbn [rbind].
  eexists; split; [done|]. apply new_guid_ok.
  - apply Forall_app. split; [done|]. apply Forall_replicate. done.
  - rewrite length_app, length_replicate. unfold SIZE in *. lia.
Qed.

(** Whatever is done with an identifier: its texts, kept or computed, are
    those of its bytes; the text read again gives the same identifier, and is
    accepted by IsGUID and by Compare. *)
Theorem GUID_texts g : guid_ok g ->
  (ToString g).1 = BytesToHexString (guid g) true 0 /\
  (ToShortString g).1 = short_text (guid g) /\
  guid_ok (ToString g).2 /\ guid_ok (ToShortString g).2 /\
  GUID_hex (ToString g).1 = Ok (new_guid (guid g)) /\
  IsGUID (ToString g).1 true = Ok true /\ Compare g (ToString g).1 = Ok true.
Proof.
  intros Hg. pose proof Hg as (Hb & Hl & Hv & Hs).
  assert ((ToString g).1 = BytesToHexString (guid g) true 0) as E.
  { unfold ToString. destruct (value g) eqn:Ev; [done|]. by destruct Hv. }
  assert (zlen (BytesToHexString (guid g) true 0) = 2 * SIZE) as E2.
  { unfold BytesToHexString. rewrite hex_loop_length, Hl. done. }
  destruct (HexString_roundtrip (guid g) true 0 SIZE Hb ltac:(lia)) as [Er _].
  split_and!; [done|..].
  - unfold ToShortString. destruct (shortValue g) eqn:Ev; [done|]. by destruct Hs.
  - unfold ToString. destruct (value g) eqn:Ev; [|exact Hg]. split_and!; cbn; [done..|by right|done].
  - unfold ToShortString. destruct (shortValue g) eqn:Ev; [|exact Hg]. split_and!; cbn; [done..|by right].
  - rewrite E. unfold GUID_hex. rewrite Er. cbn [rbind]. rewrite Hl, Z.sub_diag. cbn [Z.to_nat replicate].
    by rewrite app_nil_r.
  - rewrite E. unfold IsGUID. rewrite E2, Er. cbn. by rewrite Hl.
  - rewrite E. unfold Compare. rewrite Er. cbn [rbind]. rewrite Hl, bool_decide_eq_true_2 by done. done.
Qed.

Lemma short_char_eq a b : short_char a = short_char b <-> Z.land a 63 = Z.land b 63.
Proof.
  unfold short_char. assert (forall z, Z.land z 63 = z mod 64) as Hm by (intros z; exact (Z.land_ones z 6 ltac:(lia))).
  rewrite !Hm.
  pose proof (Z.mod_pos_bound a 64). pose proof (Z.mod_pos_bound b 64). split; [|by intros ->].
  repeat case_match; lia.
Qed.

(** The short text is equal exactly for identifiers whose first eight bytes
    agree in their low six bits. *)
Theorem ToShortString_eq g h : guid_ok g -> guid_ok h ->
  (ToShortString g).1 = (ToShortString h).1 <->
  forall i a b, (i < Z.to_nat SHORT_SIZE)%nat -> guid g !! i = Some a -> guid h !! i = Some b -> Z.land a 63 = Z.land b 63.
Proof.
  intros Hg Hh. destruct (GUID_texts g Hg) as (_ & -> & _). destruct (GUID_texts h Hh) as (_ & -> & _).
  destruct Hg as (_ & Hg & _). destruct Hh as (_ & Hh & _). unfold SIZE in *. split.
  - intros E i a b Hi Ha Hb. apply short_char_eq.
    assert (short_text (guid g) !! i = Some (short_char a)) as E1.
    { unfold short_text. rewrite list_lookup_fmap, lookup_take_lt by done. by rewrite Ha. }
    assert (short_text (guid h) !! i = Some (short_char b)) as E2.
    { unfold short_text. rewrite list_lookup_fmap, lookup_take_lt by done. by rewrite Hb. }
    congruence.
  - intros H. apply list_eq. intros i. unfold short_text. rewrite !list_lookup_fmap.
    destruct (decide (i < Z.to_nat SHORT_SIZE)%nat) as [Hi|Hi].
    + rewrite !lookup_take_lt by done. unfold SHORT_SIZE in *.
      destruct (lookup_lt_is_Some_2 (guid g) i) as [a Ea]; [lia|]. destruct (lookup_lt_is_Some_2 (guid h) i) as [b Eb]; [lia|].
      rewrite Ea, Eb. cbn. f_equal. apply short_char_eq. by eapply H.
    + rewrite !lookup_take_ge by lia. done.
Qed.

(** Rendering into a buffer of any size but 16 leaves an array: a shorter one is
    overrun, for a longer one the identifier is read beyond its end. *)
Theorem Render_size g data : guid_ok g -> Render g data (zlen data) = Undef <-> zlen data <> SIZE.
Proof.
  intros (_ & Hl & _). unfold Render. rewrite Hl. unfold SIZE in *.
  destruct (Z.ltb_spec (zlen data) 16); case_match eqn:E; split; try done; try lia.
  all: intros _; destruct (andb_prop _ _ E); lia.
Qed.

End GUID.
