(* ===== verification/NameTable.v ===== *)
(** Model of alljoyn_core/router/NameTable.cc: the router's table of unique
    names, of well-known names with their queues of owners, and of the names
    owned by endpoints of other routers (virtual aliases), with the calls made
    to the registered listeners.

    An endpoint is a handle. What an endpoint says of itself may change between
    calls and is read from a store; its unique name does not change once it is
    in the table. [None] is a default constructed endpoint, which is not valid.
    The order in which an unordered map is traversed is a parameter and may
    depend on the whole history of the table. Every operation runs alone, as the
    lock of the table has it, and listeners do not call back into the table. *)
From stdpp Require Import gmap sorting.
From S2P Require Import Prelude Types BusUtil IPAddress StringUtil GUID.

Abbreviation Name := (list Z).
Abbreviation Endpoint := Z.
Abbreviation Listener := Z.

(** SessionOpts::NameTransferType. *)
Inductive NameTransferType := ALL_NAMES | SLS_NAMES | MP_NAMES | P2P_NAMES.
#[export] Instance NameTransferType_eq_dec : EqDecision NameTransferType.
Proof. solve_decision. Defined.

Inductive EndpointType :=
| ENDPOINT_TYPE_INVALID | ENDPOINT_TYPE_NULL | ENDPOINT_TYPE_LOCAL | ENDPOINT_TYPE_REMOTE
| ENDPOINT_TYPE_BUS2BUS | ENDPOINT_TYPE_VIRTUAL | ENDPOINT_TYPE_MQTT.
#[export] Instance EndpointType_eq_dec : EqDecision EndpointType.
Proof. solve_decision. Defined.

(** What endpoints say of themselves at one moment: validity, type, and the
    name transfer of each bus-to-bus endpoint of a virtual one. *)
Record EpStore := {
  isValid : Endpoint -> bool;
  GetEndpointType : Endpoint -> EndpointType;
  GetBusToBusEndpoints : Endpoint -> list NameTransferType;
}.

Record UniqueNameEntry := { endpoint : Endpoint; nameTransfer : NameTransferType }.
Record NameQueueEntry := { endpointName : Name; flags : Z }.
Record VirtualAliasEntry := { vendpoint : Endpoint; vnameTransfer : NameTransferType }.

(** The calls made to listeners. *)
Inductive Call :=
| NameOwnerChanged (l : Listener) (alias : Name)
    (oldOwner : option Name) (oldOwnerNameTransfer : NameTransferType)
    (newOwner : option Name) (newOwnerNameTransfer : NameTransferType)
| AddAliasComplete (l : Listener) (aliasName : Name) (disposition : Z)
| RemoveAliasComplete (l : Listener) (aliasName : Name) (disposition : Z).

Record NameTable := {
  uniqueNames : gmap Name UniqueNameEntry;
  aliasNames : gmap Name (list NameQueueEntry);
  uniqueId : Z;
  uniquePrefix : Name;
  listeners : list Listener;
  virtualAliasNames : gmap Name VirtualAliasEntry;
  calls : list Call;
}.

(** The constructor; the prefix is ":1.". *)
Definition NameTable_init : NameTable :=
  {| uniqueNames := ∅; aliasNames := ∅; uniqueId := 0; uniquePrefix := [58; 49; 46];
     listeners := []; virtualAliasNames := ∅; calls := [] |}.

Definition set_unique (t : NameTable) m := {| uniqueNames := m; aliasNames := aliasNames t;
  uniqueId := uniqueId t; uniquePrefix := uniquePrefix t; listeners := listeners t;
  virtualAliasNames := virtualAliasNames t; calls := calls t |}.
Definition set_alias (t : NameTable) m := {| uniqueNames := uniqueNames t; aliasNames := m;
  uniqueId := uniqueId t; uniquePrefix := uniquePrefix t; listeners := listeners t;
  virtualAliasNames := virtualAliasNames t; calls := calls t |}.
Definition set_virtual (t : NameTable) m := {| uniqueNames := uniqueNames t; aliasNames := aliasNames t;
  uniqueId := uniqueId t; uniquePrefix := uniquePrefix t; listeners := listeners t;
  virtualAliasNames := m; calls := calls t |}.
Definition set_listeners (t : NameTable) l := {| uniqueNames := uniqueNames t; aliasNames := aliasNames t;
  uniqueId := uniqueId t; uniquePrefix := uniquePrefix t; listeners := l;
  virtualAliasNames := virtualAliasNames t; calls := calls t |}.
Definition set_ids (t : NameTable) i p := {| uniqueNames := uniqueNames t; aliasNames := aliasNames t;
  uniqueId := i; uniquePrefix := p; listeners := listeners t;
  virtualAliasNames := virtualAliasNames t; calls := calls t |}.
Definition add_calls (t : NameTable) cs := {| uniqueNames := uniqueNames t; aliasNames := aliasNames t;
  uniqueId := uniqueId t; uniquePrefix := uniquePrefix t; listeners := listeners t;
  virtualAliasNames := virtualAliasNames t; calls := calls t ++ cs |}.

(** * Listeners *)

(** The set of listeners, ordered by address. *)
Fixpoint listener_insert (l : Listener) (ls : list Listener) : list Listener :=
  match ls with
  | [] => [l]
  | x :: xs => if l <? x then l :: x :: xs else if l =? x then x :: xs else x :: listener_insert l xs
  end.

Definition AddListener (t : NameTable) (listener : Listener) : NameTable :=
  set_listeners t (listener_insert listener (listeners t)).

(** The wait for calls in progress is left out. *)
Definition RemoveListener (t : NameTable) (listener : Listener) : NameTable :=
  set_listeners t (filter (fun l => l <> listener) (listeners t)).

Definition CallListeners (t : NameTable) (aliasName : Name)
    (oldOwner : option Name) (oldOwnerNameTransfer : NameTransferType)
    (newOwner : option Name) (newOwnerNameTransfer : NameTransferType) : NameTable :=
  add_calls t (map (fun l => NameOwnerChanged l aliasName oldOwner oldOwnerNameTransfer
                               newOwner newOwnerNameTransfer) (listeners t)).

Definition complete (t : NameTable) (listener : option Listener) (call : Listener -> Call) : NameTable :=
  match listener with Some l => add_calls t [call l] | None => t end.

(** A string that is tested with [empty()] and then passed by address. *)
Definition non_empty (s : Name) : option Name := match s with [] => None | _ => Some s end.

(** * Name transfer *)

Definition GetNameTransfer_virtual (st : EpStore) (vep : Endpoint) : NameTransferType :=
  match GetBusToBusEndpoints st vep with
  | [] => ALL_NAMES
  | b2bEps => if existsb (fun nt => negb (bool_decide (nt = SLS_NAMES))) b2bEps then ALL_NAMES else SLS_NAMES
  end.

Definition GetNameTransfer (st : EpStore) (ep : Endpoint) : NameTransferType :=
  if decide (GetEndpointType st ep = ENDPOINT_TYPE_VIRTUAL) then GetNameTransfer_virtual st ep else ALL_NAMES.

Definition ep_valid (st : EpStore) (ep : option Endpoint) : bool :=
  match ep with Some e => isValid st e | None => false end.

(** * Unique names *)

Definition SetGUID (t : NameTable) (guid : list Z) : NameTable :=
  set_ids t (uniqueId t) ([58] ++ GUID.short_text guid ++ [46]).

Definition GenerateUniqueName (t : NameTable) : result QStatus (NameTable * Name) :=
  let id := wrap_u 32 (uniqueId t + 1) in
  let! s := U32ToString id 10 1 32 in
  Ok (set_ids t id (uniquePrefix t), uniquePrefix t ++ s).

(** Position of the first [c] at or after [pos]; [None] is npos. *)
Fixpoint find_char (c : Z) (s : list Z) : option nat :=
  match s with
  | [] => None
  | x :: s => if x =? c then Some O else S <$> find_char c s
  end.

(** A local name has exactly one period, the prefix of this table, and the
    number of a name that was given out. Taking the rest of a string beyond its
    end throws, which is [Undef] here. *)
Definition IsValidLocalUniqueName (t : NameTable) (uniqueName : Name) : result QStatus bool :=
  match find_char 46 uniqueName with
  | None => Ok false
  | Some period_pos =>
      match find_char 46 (drop (S period_pos) uniqueName) with
      | Some _ => Ok false
      | None =>
          let guid := take (Z.to_nat (GUID.SHORT_SIZE + 2)) uniqueName in
          if decide (guid = uniquePrefix t) then
            if zlen uniqueName <? GUID.SHORT_SIZE + 2 then Undef
            else
              let id := StringToU32 (drop (Z.to_nat (GUID.SHORT_SIZE + 2)) uniqueName) 0 0 in
              Ok (negb (id =? 0) && (id <=? uniqueId t))
          else Ok false
      end
  end.

(** * Flags and dispositions (DBusStdDefines.h) *)

Definition ALLOW_REPLACEMENT : Z := 1.
Definition REPLACE_EXISTING : Z := 2.
Definition DO_NOT_QUEUE : Z := 4.
Definition has_flag (f bit : Z) : bool := negb (Z.land f bit =? 0).

Definition REPLY_PRIMARY_OWNER : Z := 1.
Definition REPLY_IN_QUEUE : Z := 2.
Definition REPLY_EXISTS : Z := 3.
Definition REPLY_ALREADY_OWNER : Z := 4.

Definition REPLY_RELEASED : Z := 1.
Definition REPLY_NON_EXISTENT : Z := 2.
Definition REPLY_NOT_OWNER : Z := 3.

(** std::string order, by which the map of virtual aliases is traversed. *)
Fixpoint str_le (a b : Name) : bool :=
  match a, b with
  | [], _ => true
  | _ :: _, [] => false
  | x :: a, y :: b => if x <? y then true else if x =? y then str_le a b else false
  end.

Definition str_leP (a b : Name) : Prop := str_le a b = true.
#[export] Instance str_leP_dec : RelDecision str_leP.
Proof. intros a b. unfold str_leP. apply _. Defined.

Definition virtual_order (t : NameTable) : list Name :=
  merge_sort str_leP (map_to_list (virtualAliasNames t)).*1.

Definition starts_unique (name : Name) : bool := match name with c :: _ => c =? 58 | [] => false end.

Section table.
Context (GetUniqueName : Endpoint -> Name) (alias_order : NameTable -> list Name).

(** * Lookup *)

(** The recursion follows owners of well-known names; with more steps than
    there are such names it has met one twice and does not end. *)
Fixpoint find_endpoint (fuel : nat) (st : EpStore) (t : NameTable) (busName : Name) : res (option Endpoint) :=
  match fuel with
  | O => Undef
  | S fuel =>
      if starts_unique busName then Ok (endpoint <$> uniqueNames t !! busName)
      else
        let! ep := match aliasNames t !! busName with
                   | Some (primary :: _) => find_endpoint fuel st t (endpointName primary)
                   | Some [] => Undef
                   | None => Ok None
                   end in
        if negb (ep_valid st ep) then
          match virtualAliasNames t !! busName with
          | Some v => Ok (Some (vendpoint v))
          | None => Ok ep
          end
        else Ok ep
  end.

Definition FindEndpoint (st : EpStore) (t : NameTable) (busName : Name) : res (option Endpoint) :=
  find_endpoint (S (S (size (aliasNames t)))) st t busName.

(** The empty string is no owner. *)
Definition GetNameOwner (t : NameTable) (name : Name) : Name :=
  match aliasNames t !! name with
  | Some (e :: _) => endpointName e
  | Some [] => []
  | None => match virtualAliasNames t !! name with
            | Some v => GetUniqueName (vendpoint v)
            | None => []
            end
  end.

Definition IsAlias (t : NameTable) (name1 name2 : Name) : bool :=
  let un (name other : Name) :=
    if starts_unique name then name
    else match GetNameOwner t name with [] => other | un => un end in
  bool_decide (un name1 [49] = un name2 [50]).

(** [names] is what the caller passes in. *)
Definition GetQueuedNames (t : NameTable) (busName : Name) (names : list Name) : list Name :=
  match aliasNames t !! busName with
  | Some q => names ++ map endpointName q
  | None => []
  end.

(** * Unique names *)

Definition AddUniqueName (st : EpStore) (t : NameTable) (ep : Endpoint) : NameTable :=
  let nameTransfer := GetNameTransfer st ep in
  let uniqueName := GetUniqueName ep in
  let entry := {| endpoint := ep; nameTransfer := nameTransfer |} in
  let t := set_unique t (<[uniqueName := entry]> (uniqueNames t)) in
  CallListeners t uniqueName None ALL_NAMES (Some uniqueName) nameTransfer.

(** * Well-known names *)

Definition AddAlias (t : NameTable) (aliasName uniqueName : Name) (fl : Z) (listener : option Listener)
    : res (NameTable * Z) :=
  match uniqueNames t !! uniqueName with
  | None => Fail ER_BUS_NO_ENDPOINT
  | Some _ =>
      let entry := {| endpointName := uniqueName; flags := fl |} in
      let finish t disposition origOwner origOwnerNameTransfer (newOwner : option Name) :=
        let t := complete t listener (fun l => AddAliasComplete l aliasName disposition) in
        let t := match newOwner with
                 | Some _ => CallListeners t aliasName (non_empty origOwner) origOwnerNameTransfer
                               newOwner ALL_NAMES
                 | None => t
                 end in
        Ok (t, disposition) in
      match aliasNames t !! aliasName with
      | Some [] => Undef
      | Some (primary :: queue) =>
          if decide (endpointName primary = uniqueName) then
            finish t REPLY_ALREADY_OWNER [] ALL_NAMES None
          else if has_flag (flags primary) ALLOW_REPLACEMENT && has_flag fl REPLACE_EXISTING then
            let t := set_alias t (<[aliasName := entry :: primary :: queue]> (aliasNames t)) in
            finish t REPLY_PRIMARY_OWNER (endpointName primary) ALL_NAMES (Some uniqueName)
          else if has_flag fl DO_NOT_QUEUE then
            finish t REPLY_EXISTS [] ALL_NAMES None
          else
            let t := set_alias t (<[aliasName := (primary :: queue) ++ [entry]]> (aliasNames t)) in
            finish t REPLY_IN_QUEUE [] ALL_NAMES None
      | None =>
          let t := set_alias t (<[aliasName := [entry]]> (aliasNames t)) in
          match virtualAliasNames t !! aliasName with
          | Some v => finish t REPLY_PRIMARY_OWNER (GetUniqueName (vendpoint v)) (vnameTransfer v) (Some uniqueName)
          | None => finish t REPLY_PRIMARY_OWNER [] ALL_NAMES (Some uniqueName)
          end
      end
  end.

Definition RemoveAlias (st : EpStore) (t : NameTable) (aliasName ownerName : Name) (listener : option Listener)
    : res (NameTable * Z) :=
  let finish t disposition oldOwner newOwner newOwnerNameTransfer :=
    let t := complete t listener (fun l => RemoveAliasComplete l aliasName disposition) in
    let t := match non_empty oldOwner with
             | Some _ => CallListeners t aliasName (Some oldOwner) ALL_NAMES
                           (non_empty newOwner) newOwnerNameTransfer
             | None => t
             end in
    Ok (t, disposition) in
  match aliasNames t !! aliasName with
  | None => finish t REPLY_NON_EXISTENT [] [] ALL_NAMES
  | Some [] => Undef
  | Some (primary :: queue) =>
      if decide (endpointName primary = ownerName) then
        let! r := match queue with
                  | next :: _ =>
                      let t := set_alias t (<[aliasName := queue]> (aliasNames t)) in
                      let! ep := FindEndpoint st t (endpointName next) in
                      Ok (t, if ep_valid st ep then endpointName next else [])
                  | [] => Ok (t, [])
                  end in
        let (t, newOwner) := r : NameTable * Name in
        match newOwner with
        | [] =>
            let t' := set_alias t (delete aliasName (aliasNames t)) in
            match virtualAliasNames t !! aliasName with
            | Some v => finish t' REPLY_RELEASED ownerName (GetUniqueName (vendpoint v)) (vnameTransfer v)
            | None => finish t' REPLY_RELEASED ownerName [] ALL_NAMES
            end
        | _ => finish t REPLY_RELEASED ownerName newOwner ALL_NAMES
        end
      else finish t REPLY_NOT_OWNER [] [] ALL_NAMES
  end.

(** Position of the first entry of [epName] in a queue. *)
Fixpoint find_entry (epName : Name) (q : list NameQueueEntry) : option nat :=
  match q with
  | [] => None
  | e :: q => if decide (endpointName e = epName) then Some O else S <$> find_entry epName q
  end.

(** The traversal of the queues in RemoveUniqueName: [keys] are the names still
    ahead. Releasing a name starts it over; an entry behind the owner is erased
    in place. Advancing from an erased position is undefined. *)
Fixpoint release_loop (fuel : nat) (st : EpStore) (t : NameTable) (uniqueName epName : Name)
    (keys : list Name) : res NameTable :=
  match fuel with
  | O => Undef
  | S fuel =>
      match keys with
      | [] => Ok t
      | alias :: keys =>
          match aliasNames t !! alias with
          | None => Undef
          | Some q =>
              match find_entry epName q with
              | None => release_loop fuel st t uniqueName epName keys
              | Some O =>
                  let! r := RemoveAlias st t alias epName None in
                  let (t, disposition) := r : NameTable * Z in
                  let next := match aliasNames t !! alias with
                              | Some _ => release_loop fuel st t uniqueName epName keys
                              | None => Undef
                              end in
                  match uniqueNames t !! uniqueName with
                  | None => next
                  | Some _ =>
                      if disposition =? REPLY_RELEASED
                      then release_loop fuel st t uniqueName epName (alias_order t)
                      else next
                  end
              | Some i =>
                  let t := set_alias t (<[alias := take i q ++ drop (S i) q]> (aliasNames t)) in
                  release_loop fuel st t uniqueName epName keys
              end
          end
      end
  end.

(** Every restart follows a release, which shortens a queue. *)
Definition entries (t : NameTable) : nat := map_fold (fun _ q n => length q + n)%nat O (aliasNames t).
Definition release_fuel (t : NameTable) : nat := S (S (entries t) * S (size (aliasNames t))).

Definition RemoveUniqueName (st : EpStore) (t : NameTable) (uniqueName : Name) : res NameTable :=
  match uniqueNames t !! uniqueName with
  | None => Ok t
  | Some entry =>
      let! t := release_loop (release_fuel t) st t uniqueName (GetUniqueName (endpoint entry)) (alias_order t) in
      let t := set_unique t (delete uniqueName (uniqueNames t)) in
      Ok (CallListeners t uniqueName (Some uniqueName) (nameTransfer entry) None ALL_NAMES)
  end.

(** * Virtual aliases *)

Definition update_one (st : EpStore) (epName : Name) (ep : Endpoint) (t : NameTable) (alias : Name) : NameTable :=
  match virtualAliasNames t !! alias with
  | Some v =>
      if decide (vendpoint v = ep) then
        let newNameTransfer := GetNameTransfer_virtual st (vendpoint v) in
        let t := set_virtual t (<[alias := {| vendpoint := vendpoint v; vnameTransfer := newNameTransfer |}]>
                                  (virtualAliasNames t)) in
        if decide (vnameTransfer v <> newNameTransfer /\ aliasNames t !! alias = None)
        then CallListeners t alias (Some epName) (vnameTransfer v) (Some epName) newNameTransfer
        else t
      else t
  | None => t
  end.

Definition UpdateVirtualAliases (st : EpStore) (t : NameTable) (epName : Name) : res NameTable :=
  let! tempEp := FindEndpoint st t epName in
  match tempEp with
  | Some ep =>
      if isValid st ep then
        let t := match uniqueNames t !! epName with
                 | Some entry =>
                     if decide (endpoint entry = ep) then
                       let newNameTransfer := GetNameTransfer st (endpoint entry) in
                       let t := set_unique t (<[epName := {| endpoint := endpoint entry;
                                                             nameTransfer := newNameTransfer |}]> (uniqueNames t)) in
                       if decide (nameTransfer entry <> newNameTransfer)
                       then CallListeners t epName (Some epName) (nameTransfer entry) (Some epName) newNameTransfer
                       else t
                     else t
                 | None => t
                 end in
        Ok (fold_left (update_one st epName ep) (virtual_order t) t)
      else Ok t
  | None => Ok t
  end.

Definition remove_one (epName : Name) (ep : Endpoint) (t : NameTable) (alias : Name) : NameTable :=
  match virtualAliasNames t !! alias with
  | Some v =>
      if decide (vendpoint v = ep) then
        let t := set_virtual t (delete alias (virtualAliasNames t)) in
        if decide (aliasNames t !! alias = None)
        then CallListeners t alias (Some epName) (vnameTransfer v) None ALL_NAMES
        else t
      else t
  | None => t
  end.

Definition RemoveVirtualAliases (st : EpStore) (t : NameTable) (epName : Name) : res NameTable :=
  let! tempEp := FindEndpoint st t epName in
  match tempEp with
  | Some ep => if isValid st ep then Ok (fold_left (remove_one epName ep) (virtual_order t) t) else Ok t
  | None => Ok t
  end.

(** The part of a name before its first period, all of it when there is none. *)
Definition daemon_part (name : Name) : Name :=
  match find_char 46 name with Some n => take n name | None => name end.

Definition SetVirtualAlias (st : EpStore) (t : NameTable) (alias : Name)
    (newOwner : option Endpoint) (requestingEndpoint : Endpoint) : NameTable * bool :=
  let old := virtualAliasNames t !! alias in
  let oldOwner := match old with
                  | Some v => if isValid st (vendpoint v) then Some v else None
                  | None => None
                  end in
  let foreign := match oldOwner with
                 | Some v =>
                     let oldName := GetUniqueName (vendpoint v) in
                     match find_char 46 oldName with
                     | None => true
                     | Some _ => negb (bool_decide (daemon_part oldName = daemon_part (GetUniqueName requestingEndpoint)))
                     end
                 | None => false
                 end in
  if foreign then (t, false)
  else
    let oldName := match oldOwner with Some v => GetUniqueName (vendpoint v) | None => [] end in
    let oldOwnerNameTransfer := match oldOwner with Some v => vnameTransfer v | None => ALL_NAMES end in
    let maskingLocalName := negb (bool_decide (aliasNames t !! alias = None)) in
    let notify t madeChange newName newOwnerNameTransfer :=
      (if madeChange && negb maskingLocalName
       then CallListeners t alias (non_empty oldName) oldOwnerNameTransfer (non_empty newName) newOwnerNameTransfer
       else t, madeChange) in
    match newOwner with
    | Some ep =>
        if isValid st ep then
          let newOwnerNameTransfer := GetNameTransfer_virtual st ep in
          let entry := {| vendpoint := ep; vnameTransfer := newOwnerNameTransfer |} in
          let madeChange := negb (bool_decide (vendpoint <$> old = Some ep)) ||
                            negb (bool_decide (oldOwnerNameTransfer = newOwnerNameTransfer)) in
          notify (set_virtual t (<[alias := entry]> (virtualAliasNames t))) madeChange
                 (GetUniqueName ep) newOwnerNameTransfer
        else notify (set_virtual t (delete alias (virtualAliasNames t))) true [] ALL_NAMES
    | None => notify (set_virtual t (delete alias (virtualAliasNames t))) true [] ALL_NAMES
    end.

(** * Listings *)

Context (unique_order : NameTable -> list Name).

Definition GetBusNames (t : NameTable) (names : list Name) : list Name :=
  names ++ alias_order t ++ unique_order t.

Definition GetAllBusEndpoints (t : NameTable) : list Endpoint :=
  omap (fun u => endpoint <$> uniqueNames t !! u) (unique_order t).

(** A multimap from endpoints to names: a new pair goes behind its equals. *)
Fixpoint mm_insert (ep : Endpoint) (name : Name) (m : list (Endpoint * Name)) : list (Endpoint * Name) :=
  match m with
  | [] => [(ep, name)]
  | p :: m' => if p.1 <=? ep then p :: mm_insert ep name m' else (ep, name) :: m
  end.

Definition mm_of (l : list (Endpoint * Name)) : list (Endpoint * Name) :=
  fold_left (fun m p => mm_insert p.1 p.2 m) l [].

(** The pairs inserted, in the order of the three loops. *)
Definition ep_names (st : EpStore) (t : NameTable) : res (list (Endpoint * Name)) :=
  let unique := omap (fun u => (fun e => (endpoint e, u)) <$> uniqueNames t !! u) (unique_order t) in
  let! aliases := (fix go keys :=
     match keys with
     | [] => Ok []
     | a :: keys =>
         match aliasNames t !! a with
         | Some (e :: _) =>
             let! ep := FindEndpoint st t (endpointName e) in
             let! r := go keys in
             Ok (match ep with
                 | Some e => if isValid st e then (e, a) :: r else r
                 | None => r
                 end)
         | _ => go keys
         end
     end) (alias_order t) in
  let virtual := omap (fun a => (fun v => (vendpoint v, a)) <$> virtualAliasNames t !! a) (virtual_order t) in
  Ok (unique ++ aliases ++ virtual).

(** The last loop: a group ends when the endpoint changes, and is kept when a
    unique name was among its names. *)
Fixpoint group_loop (lastEp : option Endpoint) (uniqueName : Name) (aliasVec : list Name)
    (m : list (Endpoint * Name)) : list (Name * list Name) :=
  let push := match uniqueName with [] => [] | _ => [(uniqueName, aliasVec)] end in
  match m with
  | [] => push
  | (ep, name) :: m =>
      let same := bool_decide (lastEp = Some ep) in
      let uniqueName := if same then uniqueName else [] in
      let aliasVec := if same then aliasVec else [] in
      (if same then [] else push) ++
      (if starts_unique name then group_loop (Some ep) name aliasVec m
       else group_loop (Some ep) uniqueName (aliasVec ++ [name]) m)
  end.

Definition GetUniqueNamesAndAliases (st : EpStore) (t : NameTable) : res (list (Name * list Name)) :=
  let! pairs := ep_names st t in
  Ok (group_loop None [] [] (mm_of pairs)).
End table.
