(* ===== verification/NameTableProofs.v ===== *)
(** The name table: its invariant, that its operations end and meet no violated
    assertion, what RemoveUniqueName leaves behind, and that a listener which
    replays the calls it receives knows the owner of every name. *)
From stdpp Require Import gmap relations.
From S2P Require Import Prelude Types BusUtil IPAddress StringUtil GUID NameTable.

Section table.
Context (GetUniqueName : Endpoint -> Name) (alias_order : NameTable -> list Name).

(** * The invariant *)

Definition unique_ok (u : Name) (e : UniqueNameEntry) : Prop :=
  GetUniqueName (endpoint e) = u /\ starts_unique u = true.
Definition entry_ok (e : NameQueueEntry) : Prop := starts_unique (endpointName e) = true.
Definition queue_ok (a : Name) (q : list NameQueueEntry) : Prop :=
  starts_unique a = false /\ q <> [] /\ Forall entry_ok q.
Definition virtual_ok (a : Name) (v : VirtualAliasEntry) : Prop :=
  starts_unique a = false /\ starts_unique (GetUniqueName (vendpoint v)) = true.

(** Keys of unique names are the names of their endpoints and start with a
    colon; well-known names do not; no queue is empty; owners are unique names. *)
Record WF (t : NameTable) : Prop := {
  wf_unique : map_Forall unique_ok (uniqueNames t);
  wf_alias : map_Forall queue_ok (aliasNames t);
  wf_virtual : map_Forall virtual_ok (virtualAliasNames t);
}.

(** * What the table says, and what a listener knows *)

(** The owner of a name and the transfer type it is announced with. *)
Definition owner_of (t : NameTable) (name : Name) : option (Name * NameTransferType) :=
  if starts_unique name then (fun e => (name, nameTransfer e)) <$> uniqueNames t !! name
  else match aliasNames t !! name with
       | Some (e :: _) => Some (endpointName e, ALL_NAMES)
       | Some [] => None
       | None => (fun v => (GetUniqueName (vendpoint v), vnameTransfer v)) <$> virtualAliasNames t !! name
       end.

Definition note (a : Name) (new : option (Name * NameTransferType)) (m : gmap Name (Name * NameTransferType)) :=
  match new with Some o => <[a := o]> m | None => delete a m end.

(** The map a listener keeps by replaying its calls. *)
Definition hear (l : Listener) (m : gmap Name (Name * NameTransferType)) (c : Call) :=
  match c with
  | NameOwnerChanged l' a _ _ new nt => if decide (l' = l) then note a ((fun o => (o, nt)) <$> new) m else m
  | _ => m
  end.
Definition replay (l : Listener) (cs : list Call) := fold_left (hear l) cs ∅.

Definition tracks (l : Listener) (t : NameTable) : Prop :=
  l ∈ listeners t /\ forall n, replay l (calls t) !! n = owner_of t n.

Lemma note_lookup a new m n : note a new m !! n = if decide (a = n) then new else m !! n.
Proof.
  destruct new; simpl; case_decide; subst; by rewrite ?lookup_insert_eq, ?lookup_insert_ne, ?lookup_delete_eq, ?lookup_delete_ne.
Qed.

Lemma note_idemp a new m : note a new (note a new m) = note a new m.
Proof. apply map_eq. intros n. rewrite !note_lookup. by case_decide. Qed.

Lemma replay_app l cs cs' : replay l (cs ++ cs') = fold_left (hear l) cs' (replay l cs).
Proof. apply fold_left_app. Qed.

(** A registered listener hears a change, however often it is told. *)
Lemma hear_all l ls a o ot new nt m :
  l ∈ ls -> fold_left (hear l) (map (fun l' => NameOwnerChanged l' a o ot new nt) ls) m =
            note a ((fun o => (o, nt)) <$> new) m.
Proof.
  set (g := fun l' => NameOwnerChanged l' a o ot new nt). set (no := (fun o => (o, nt)) <$> new).
  assert (forall ls m, fold_left (hear l) (map g ls) (note a no m) = note a no m) as Hidem.
  { intros ls'. induction ls' as [|x ls' IH]; intros m'; [done|]. simpl. case_decide; [|done].
    fold no. by rewrite note_idemp. }
  intros Hl. revert m. induction Hl as [ls|x y ls _ IH]; intros m; simpl.
  - rewrite decide_True by done. apply Hidem.
  - case_decide; [apply Hidem|by apply IH].
Qed.

Lemma tracks_call l t t' a o ot new nt :
  tracks l t -> replay l (calls t') = replay l (calls t) -> listeners t' = listeners t ->
  (forall n, n <> a -> owner_of t' n = owner_of t n) ->
  owner_of t' a = (fun o => (o, nt)) <$> new ->
  tracks l (CallListeners t' a o ot new nt).
Proof.
  intros [Hl Ht] Hc Hls Hn Ha. split; [simpl; by rewrite Hls|]. intros n. simpl.
  rewrite replay_app, hear_all by (by rewrite Hls). rewrite note_lookup, Hc.
  change (owner_of (CallListeners t' a o ot new nt) n) with (owner_of t' n).
  case_decide; [by subst|]. by rewrite Hn, Ht.
Qed.

Lemma tracks_silent l t t' :
  tracks l t -> replay l (calls t') = replay l (calls t) -> listeners t' = listeners t ->
  (forall n, owner_of t' n = owner_of t n) -> tracks l t'.
Proof. intros [Hl Ht] Hc Hls Hn. split; [by rewrite Hls|]. intros n. by rewrite Hc, Ht, Hn. Qed.

(** The completion callbacks tell nothing about owners. *)
Lemma complete_fields t lst c :
  uniqueNames (complete t lst c) = uniqueNames t /\ aliasNames (complete t lst c) = aliasNames t /\
  virtualAliasNames (complete t lst c) = virtualAliasNames t /\ listeners (complete t lst c) = listeners t.
Proof. by destruct lst. Qed.

Lemma complete_owner t lst c n : owner_of (complete t lst c) n = owner_of t n.
Proof. by destruct lst. Qed.

Lemma complete_replay l t lst c :
  (forall x, hear l (replay l (calls t)) (c x) = replay l (calls t)) ->
  replay l (calls (complete t lst c)) = replay l (calls t).
Proof. intros Hc. destruct lst; [|done]. simpl. rewrite replay_app. apply Hc. Qed.

Lemma complete_WF t lst c : WF t -> WF (complete t lst c).
Proof. by destruct lst, 1. Qed.

Lemma WF_call t a o ot new nt : WF t -> WF (CallListeners t a o ot new nt).
Proof. by destruct 1. Qed.

(** Owners of other names do not change when one queue does. *)
Lemma owner_set_alias t m a n :
  (forall n, n <> a -> m !! n = aliasNames t !! n) -> n <> a ->
  owner_of (set_alias t m) n = owner_of t n.
Proof. intros Hm Hn. unfold owner_of. simpl. by rewrite Hm. Qed.

Lemma owner_set_virtual t m a n :
  (forall n, n <> a -> m !! n = virtualAliasNames t !! n) -> n <> a ->
  owner_of (set_virtual t m) n = owner_of t n.
Proof. intros Hm Hn. unfold owner_of. simpl. by rewrite Hm. Qed.

Lemma non_empty_unique s : starts_unique s = true -> non_empty s = Some s.
Proof. by destruct s. Qed.

(** * Lookup *)

Lemma find_unique st t u : starts_unique u = true -> FindEndpoint st t u = Ok (endpoint <$> uniqueNames t !! u).
Proof. intros Hu. unfold FindEndpoint. cbn [find_endpoint]. by rewrite Hu. Qed.

Lemma FindEndpoint_defined st t n : WF t -> exists ep, FindEndpoint st t n = Ok ep.
Proof.
  intros Ht. destruct (starts_unique n) eqn:Hn; [eexists; by apply find_unique|].
  unfold FindEndpoint. generalize (size (aliasNames t)). intros k. cbn [find_endpoint]. rewrite Hn.
  destruct (aliasNames t !! n) as [[|e q]|] eqn:Ha.
  - by destruct (wf_alias _ Ht _ _ Ha) as (_ & ? & _).
  - destruct (wf_alias _ Ht _ _ Ha) as (_ & _ & Hq). apply Forall_cons in Hq as [He _].
    rewrite He. cbn [rbind]. repeat case_match; eauto.
  - cbn [rbind]. repeat case_match; eauto.
Qed.

(** * AddUniqueName *)

Lemma AddUniqueName_WF st t ep :
  WF t -> starts_unique (GetUniqueName ep) = true -> WF (AddUniqueName GetUniqueName st t ep).
Proof.
  intros [Hu Ha Hv] Hep. apply WF_call. split; [|done|done]. by apply map_Forall_insert_2.
Qed.

Lemma AddUniqueName_tracks l st t ep :
  tracks l t -> starts_unique (GetUniqueName ep) = true -> tracks l (AddUniqueName GetUniqueName st t ep).
Proof.
  intros Ht Hep. apply tracks_call with t; [done..| |].
  - intros n Hn. unfold owner_of. simpl. by rewrite lookup_insert_ne.
  - unfold owner_of. simpl. by rewrite Hep, lookup_insert_eq.
Qed.

(** * AddAlias *)

Lemma AddAlias_sound l t a u fl lst t' d :
  WF t -> tracks l t -> starts_unique a = false ->
  AddAlias GetUniqueName t a u fl lst = Ok (t', d) -> WF t' /\ tracks l t'.
Proof.
  intros Ht Hl Ha. unfold AddAlias. destruct (uniqueNames t !! u) as [ue|] eqn:Eu; [|done].
  destruct (wf_unique _ Ht _ _ Eu) as [_ Hu]. pose proof Ht as [Wu Wa Wv].
  set (entry := {| endpointName := u; flags := fl |}).
  assert (forall q, q <> [] -> Forall entry_ok q -> WF (set_alias t (<[a := q]> (aliasNames t)))) as HW.
  { intros q Hq Hf. split; [done| |done]. by apply map_Forall_insert_2. }
  assert (forall q oo ot d, q <> [] -> hd entry q = entry ->
    tracks l (CallListeners (complete (set_alias t (<[a := q]> (aliasNames t))) lst (fun l => AddAliasComplete l a d)) a oo ot (Some u) ALL_NAMES)) as HT.
  { intros q oo ot d' Hq Hh. apply tracks_call with t; [done| | | |].
    - by rewrite complete_replay.
    - by rewrite (proj2 (proj2 (proj2 (complete_fields _ _ _)))).
    - intros n Hn. rewrite complete_owner. apply owner_set_alias with a; [|done].
      intros. by rewrite lookup_insert_ne.
    - rewrite complete_owner. unfold owner_of. simpl. rewrite Ha, lookup_insert_eq.
      destruct q as [|e q]; [done|]. simpl in Hh. by subst e. }
  destruct (aliasNames t !! a) as [[|p q]|] eqn:Ea; [done| |].
  - destruct (Wa _ _ Ea) as (_ & _ & Hq). repeat case_match; intros [= <- <-];
      (split; [repeat first [apply WF_call|apply complete_WF]|]); try done.
    + apply tracks_silent with t; [done|by rewrite complete_replay|by destruct lst|]. intros. apply complete_owner.
    + apply HW; [done|]. by constructor.
    + by apply (HT (entry :: p :: q)).
    + apply tracks_silent with t; [done|by rewrite complete_replay|by destruct lst|]. intros. apply complete_owner.
    + apply HW; [done|]. apply (Forall_app_2 _ (p :: q)); [done|]. by repeat constructor.
    + apply tracks_silent with t; [done|by rewrite complete_replay|by destruct lst|]. intros m.
      rewrite complete_owner. unfold owner_of. simpl. destruct (decide (m = a)) as [->|].
      * by rewrite lookup_insert_eq, Ea.
      * by rewrite lookup_insert_ne.
  - repeat case_match; intros [= <- <-]; (split; [repeat first [apply WF_call|apply complete_WF]|]);
      try (apply HW; [done|by repeat constructor]); by apply (HT [entry]).
Qed.

(** * RemoveAlias *)

(** The queues once the owner of [a] has released it; [q] waited behind it. *)
Definition after_release (st : EpStore) (t : NameTable) (a : Name) (q : list NameQueueEntry) :=
  match q with
  | next :: _ =>
      if ep_valid st (endpoint <$> uniqueNames t !! endpointName next)
      then <[a := q]> (aliasNames t) else delete a (aliasNames t)
  | [] => delete a (aliasNames t)
  end.

Lemma after_release_ne st t a q n : n <> a -> after_release st t a q !! n = aliasNames t !! n.
Proof. intros. unfold after_release. repeat case_match; by rewrite ?lookup_insert_ne, ?lookup_delete_ne. Qed.

Lemma after_release_ok st t a q :
  starts_unique a = false -> Forall entry_ok q -> map_Forall queue_ok (aliasNames t) ->
  map_Forall queue_ok (after_release st t a q).
Proof.
  intros Ha Hq Hm. unfold after_release. repeat case_match; try by apply map_Forall_delete.
  by apply map_Forall_insert_2.
Qed.

(** Telling the listeners about the release of a name by [o]. *)
Lemma announce_release st t a q m lst o no nt :
  m = after_release st t a q -> owner_of (set_alias t m) a = (fun o => (o, nt)) <$> no ->
  let t' := CallListeners (complete (set_alias t m) lst (fun l => RemoveAliasComplete l a REPLY_RELEASED))
              a (Some o) ALL_NAMES no nt in
  uniqueNames t' = uniqueNames t /\ virtualAliasNames t' = virtualAliasNames t /\
  aliasNames t' = after_release st t a q /\ forall l, tracks l t -> tracks l t'.
Proof.
  intros -> Ho t'. split_and!; [by destruct lst..|]. intros l Hl. apply tracks_call with t; [done| | | |].
  - by rewrite complete_replay.
  - by destruct lst.
  - intros n Hn. rewrite complete_owner. apply owner_set_alias with a; [|done].
    intros. by apply after_release_ne.
  - by rewrite complete_owner.
Qed.

(** With no queue left the name falls to its virtual owner, if it has one. *)
Lemma owner_unmasked t a :
  WF t -> starts_unique a = false ->
  owner_of (set_alias t (delete a (aliasNames t))) a =
  match virtualAliasNames t !! a with
  | Some v => (fun o => (o, vnameTransfer v)) <$> non_empty (GetUniqueName (vendpoint v))
  | None => None
  end.
Proof.
  intros Ht Ha. unfold owner_of. simpl. rewrite Ha, lookup_delete_eq.
  destruct (virtualAliasNames t !! a) as [v|] eqn:Ev; [|done].
  destruct (wf_virtual _ Ht _ _ Ev) as [_ Hv]. by rewrite non_empty_unique.
Qed.

Lemma RemoveAlias_release st t a lst p q :
  WF t -> aliasNames t !! a = Some (p :: q) ->
  exists t', RemoveAlias GetUniqueName st t a (endpointName p) lst = Ok (t', REPLY_RELEASED) /\
    uniqueNames t' = uniqueNames t /\ virtualAliasNames t' = virtualAliasNames t /\
    aliasNames t' = after_release st t a q /\ forall l, tracks l t -> tracks l t'.
Proof.
  intros Ht Ea. destruct (wf_alias _ Ht _ _ Ea) as (Ha & _ & Hq). apply Forall_cons in Hq as [Hp Hq].
  unfold entry_ok in Hp. unfold RemoveAlias. rewrite Ea, decide_True by done. rewrite (non_empty_unique _ Hp).
  pose proof (owner_unmasked t a Ht Ha) as Hun.
  destruct q as [|next q].
  - cbn [rbind]. destruct (virtualAliasNames t !! a) as [v|] eqn:Ev;
      (eexists; split; [reflexivity|]; by apply (announce_release st t a [])).
  - apply Forall_cons in Hq as [Hn _]. unfold entry_ok in Hn. rewrite find_unique by done. cbn [rbind].
    cbn [set_alias uniqueNames virtualAliasNames aliasNames].
    destruct (ep_valid st (endpoint <$> uniqueNames t !! endpointName next)) eqn:Hval.
    + destruct (endpointName next) as [|c s] eqn:En; [done|]. rewrite <- En in *.
      eexists. split; [reflexivity|]. apply (announce_release st t a (next :: q)).
      * unfold after_release. by rewrite Hval.
      * rewrite (non_empty_unique _ Hn). unfold owner_of. simpl. by rewrite Ha, lookup_insert_eq.
    + unfold set_alias at 1 2. cbn [uniqueNames virtualAliasNames aliasNames uniqueId uniquePrefix listeners calls].
      rewrite delete_insert_eq.
      assert (delete a (aliasNames t) = after_release st t a (next :: q)) as E.
      { unfold after_release. by rewrite Hval. }
      destruct (virtualAliasNames t !! a) as [v|] eqn:Ev;
        (eexists; split; [reflexivity|]; by apply (announce_release st t a (next :: q))).
Qed.

Lemma WF_released st t t' a p q :
  WF t -> aliasNames t !! a = Some (p :: q) ->
  uniqueNames t' = uniqueNames t -> virtualAliasNames t' = virtualAliasNames t ->
  aliasNames t' = after_release st t a q -> WF t'.
Proof.
  intros [Wu Wa Wv] Ea Eu Ev Et. split; [by rewrite Eu| |by rewrite Ev]. rewrite Et.
  destruct (Wa _ _ Ea) as (Ha & _ & Hq). apply Forall_cons in Hq as [_ Hq]. by apply after_release_ok.
Qed.

Lemma RemoveAlias_total st t a o lst :
  WF t -> exists t' d, RemoveAlias GetUniqueName st t a o lst = Ok (t', d) /\ WF t' /\
    forall l, tracks l t -> tracks l t'.
Proof.
  intros Ht.
  assert (forall d, let t' := complete t lst (fun l => RemoveAliasComplete l a d) in
    WF t' /\ forall l, tracks l t -> tracks l t') as Hcom.
  { intros d. split; [by apply complete_WF|]. intros l Hl.
    apply tracks_silent with t; [done|by rewrite complete_replay|by destruct lst|]. intros. apply complete_owner. }
  destruct (aliasNames t !! a) as [[|p q]|] eqn:Ea.
  - by destruct (wf_alias _ Ht _ _ Ea) as (_ & ? & _).
  - destruct (decide (endpointName p = o)) as [<-|Ho].
    + destruct (RemoveAlias_release st t a lst p q Ht Ea) as (t' & E & Eu & Ev & Em & Hl).
      exists t', REPLY_RELEASED. split_and!; [done| |done]. by eapply WF_released.
    + unfold RemoveAlias. rewrite Ea, decide_False by done. eexists _, _. split; [reflexivity|]. apply Hcom.
  - unfold RemoveAlias. rewrite Ea. eexists _, _. split; [reflexivity|]. apply Hcom.
Qed.

(** * The traversal of RemoveUniqueName *)

Definition ent (m : gmap Name (list NameQueueEntry)) : nat := map_fold (fun _ q n => length q + n)%nat O m.

Lemma ent_delete m a q : m !! a = Some q -> ent m = (length q + ent (delete a m))%nat.
Proof. intros Ha. unfold ent. apply (map_fold_delete_L (fun _ q n => (length q + n)%nat) O a q m); [|done]. intros. lia. Qed.

Lemma ent_insert m a q q' : m !! a = Some q -> (ent (<[a := q']> m) + length q = ent m + length q')%nat.
Proof.
  intros Ha. rewrite (ent_delete m a q Ha). rewrite (ent_delete _ a q') by apply lookup_insert_eq.
  rewrite delete_insert_eq. lia.
Qed.

Lemma find_entry_Some u q i :
  find_entry u q = Some i ->
  exists q1 e q2, q = q1 ++ e :: q2 /\ length q1 = i /\ endpointName e = u /\
    Forall (fun e => endpointName e <> u) q1.
Proof.
  revert i. induction q as [|e q IH]; intros i; simpl; [done|]. case_decide as He.
  - intros [= <-]. by exists [], e, q.
  - intros (j & Hj & ->)%fmap_Some. destruct (IH j Hj) as (q1 & e' & q2 & -> & <- & ? & ?).
    exists (e :: q1), e', q2. split_and!; [done..|]. by constructor.
Qed.

Lemma find_entry_None u q : find_entry u q = None -> Forall (fun e => endpointName e <> u) q.
Proof.
  induction q as [|e q IH]; simpl; [by constructor|]. case_decide; [done|].
  intros H0%fmap_None. constructor; [done|]. by apply IH.
Qed.

Lemma erase_middle {A} (q1 q2 : list A) e i :
  length q1 = i -> take i (q1 ++ e :: q2) ++ drop (S i) (q1 ++ e :: q2) = q1 ++ q2.
Proof.
  intros <-. rewrite take_app_length. f_equal. rewrite drop_app_ge by lia.
  by replace (S (length q1) - length q1)%nat with 1%nat by lia.
Qed.

(** An order visits every name with a queue once. *)
Context (Horder : forall t, alias_order t ≡ₚ (map_to_list (aliasNames t)).*1).

Lemma order_length t : length (alias_order t) = size (aliasNames t).
Proof. rewrite Horder, length_fmap. apply length_map_to_list. Qed.

Lemma order_elem t a : a ∈ alias_order t <-> is_Some (aliasNames t !! a).
Proof.
  rewrite Horder, list_elem_of_fmap. split.
  - intros ([b q] & -> & Hq). apply elem_of_map_to_list in Hq. eauto.
  - intros [q Hq]. exists (a, q). by rewrite elem_of_map_to_list.
Qed.

Lemma order_NoDup t : NoDup (alias_order t).
Proof. rewrite Horder. apply NoDup_fst_map_to_list. Qed.

Lemma after_release_size st t a p q :
  aliasNames t !! a = Some (p :: q) ->
  (ent (after_release st t a q) < ent (aliasNames t))%nat /\
  (size (after_release st t a q) <= size (aliasNames t))%nat.
Proof.
  intros Ea. pose proof (ent_delete _ _ _ Ea) as Ed. simpl in Ed.
  assert (size (delete a (aliasNames t)) <= size (aliasNames t))%nat.
  { rewrite map_size_delete. destruct (aliasNames t !! a); simpl; lia. }
  unfold after_release. repeat case_match; try (split; lia).
  pose proof (ent_insert _ _ _ q Ea) as Ei. subst q. simpl in *. split; [lia|].
  rewrite map_size_insert_Some by eauto. done.
Qed.

Section traversal.
Context (st : EpStore) (u : Name) (P : NameTable -> list Name -> Prop).
Context (Hskip : forall t a keys q, WF t -> P t (a :: keys) -> aliasNames t !! a = Some q ->
  Forall (fun e => endpointName e <> u) q -> P t keys).
Context (Hrelease : forall t t' a keys p q, WF t -> P t (a :: keys) -> aliasNames t !! a = Some (p :: q) ->
  endpointName p = u -> aliasNames t' = after_release st t a q -> uniqueNames t' = uniqueNames t ->
  virtualAliasNames t' = virtualAliasNames t -> (forall l, tracks l t -> tracks l t') -> P t' (alias_order t')).
Context (Herase : forall t a keys q1 e q2, WF t -> P t (a :: keys) ->
  aliasNames t !! a = Some (q1 ++ e :: q2) -> q1 <> [] -> endpointName e = u ->
  Forall (fun e => endpointName e <> u) q1 ->
  P (set_alias t (<[a := q1 ++ q2]> (aliasNames t))) keys).

Lemma erase_WF t a q1 e q2 :
  WF t -> aliasNames t !! a = Some (q1 ++ e :: q2) -> q1 <> [] ->
  WF (set_alias t (<[a := q1 ++ q2]> (aliasNames t))).
Proof.
  intros [Wu Wa Wv] Ea Hq. split; [done| |done]. apply map_Forall_insert_2; [|done].
  destruct (Wa _ _ Ea) as (Ha & _ & Hf). split_and!; [done|by destruct q1|].
  apply Forall_app in Hf as [? [_ ?]%Forall_cons]. by apply Forall_app.
Qed.

(** Whatever the traversal keeps, it keeps to the end, and the end is reached. *)
Lemma release_loop_rule N fuel t keys :
  WF t -> P t keys -> (forall k, k ∈ keys -> is_Some (aliasNames t !! k)) ->
  is_Some (uniqueNames t !! u) -> (size (aliasNames t) <= N)%nat ->
  (ent (aliasNames t) * S N + length keys < fuel)%nat ->
  exists t', release_loop GetUniqueName alias_order fuel st t u u keys = Ok t' /\ WF t' /\ P t' [] /\
    uniqueNames t' = uniqueNames t.
Proof.
  revert t keys. induction fuel as [|fuel IH]; intros t keys Ht HP Hk Hu HN Hf; [lia|].
  cbn [release_loop]. destruct keys as [|a keys]; [by exists t|].
  destruct (Hk a) as [q Ea]; [apply list_elem_of_here|]. rewrite Ea. simpl in Hf.
  assert (forall k, k ∈ keys -> is_Some (aliasNames t !! k)) as Hk' by (intros; apply Hk; by apply list_elem_of_further).
  destruct (find_entry u q) as [[|i]|] eqn:Ef.
  - apply find_entry_Some in Ef as (q1 & p & q2 & -> & Hl & <- & _). destruct q1; [|done]. simpl in Ea.
    destruct (RemoveAlias_release st t a None p q2 Ht Ea) as (t' & -> & Eu & Ev & Em & Hl').
    cbn [rbind]. destruct Hu as [e Hu]. rewrite Eu, Hu, Z.eqb_refl.
    destruct (after_release_size st t a p q2 Ea) as [He Hs]. rewrite <- Em in He, Hs.
    destruct (IH t' (alias_order t')) as (t'' & -> & ? & ? & Eu'').
    + by eapply WF_released.
    + by eauto.
    + intros k. apply order_elem.
    + rewrite Eu. by exists e.
    + lia.
    + rewrite order_length. nia.
    + exists t''. by rewrite Eu'', Eu.
  - apply find_entry_Some in Ef as (q1 & p & q2 & -> & Hl & Hp & Hq1). rewrite erase_middle by done.
    assert (q1 <> []) by (by destruct q1).
    pose proof (ent_insert _ _ _ (q1 ++ q2) Ea) as Ei. rewrite !length_app in Ei. simpl in Ei.
    apply (IH (set_alias t (<[a := q1 ++ q2]> (aliasNames t))) keys); [by eapply erase_WF|by eapply Herase| |done| |cbn; nia].
    + intros k Hkk. cbn. destruct (decide (k = a)) as [->|]; [rewrite lookup_insert_eq|rewrite lookup_insert_ne by done]; eauto.
    + cbn. by rewrite map_size_insert_Some by eauto.
  - apply IH; [done| |done..|lia]. eapply Hskip; [done..|]. by apply find_entry_None.
Qed.
End traversal.

(** * RemoveUniqueName *)

Lemma RemoveUniqueName_run st t u e (P : NameTable -> list Name -> Prop) :
  WF t -> uniqueNames t !! u = Some e -> P t (alias_order t) ->
  (forall t a keys q, WF t -> P t (a :: keys) -> aliasNames t !! a = Some q ->
    Forall (fun e => endpointName e <> u) q -> P t keys) ->
  (forall t t' a keys p q, WF t -> P t (a :: keys) -> aliasNames t !! a = Some (p :: q) ->
    endpointName p = u -> aliasNames t' = after_release st t a q -> uniqueNames t' = uniqueNames t ->
    virtualAliasNames t' = virtualAliasNames t -> (forall l, tracks l t -> tracks l t') -> P t' (alias_order t')) ->
  (forall t a keys q1 e q2, WF t -> P t (a :: keys) ->
    aliasNames t !! a = Some (q1 ++ e :: q2) -> q1 <> [] -> endpointName e = u ->
    Forall (fun e => endpointName e <> u) q1 ->
    P (set_alias t (<[a := q1 ++ q2]> (aliasNames t))) keys) ->
  exists t1, RemoveUniqueName GetUniqueName alias_order st t u =
      Ok (CallListeners (set_unique t1 (delete u (uniqueNames t1))) u (Some u) (nameTransfer e) None ALL_NAMES) /\
    WF t1 /\ P t1 [] /\ uniqueNames t1 = uniqueNames t.
Proof.
  intros Ht Eu HP Hskip Hrel Her. unfold RemoveUniqueName. rewrite Eu.
  destruct (wf_unique _ Ht _ _ Eu) as [-> _].
  destruct (release_loop_rule st u P Hskip Hrel Her (size (aliasNames t)) (release_fuel t) t (alias_order t))
    as (t1 & -> & ? & ? & ?); [done|done|intros; by apply order_elem|by eauto|done| |by exists t1].
  rewrite order_length. unfold release_fuel, entries. unfold ent. lia.
Qed.

Lemma WF_set_unique t u : WF t -> WF (set_unique t (delete u (uniqueNames t))).
Proof. intros [? ? ?]. split; [by apply map_Forall_delete|done..]. Qed.

Lemma RemoveUniqueName_total st t u :
  WF t -> exists t', RemoveUniqueName GetUniqueName alias_order st t u = Ok t' /\ WF t' /\
    forall l, tracks l t -> tracks l t'.
Proof.
  intros Ht. destruct (uniqueNames t !! u) as [e|] eqn:Eu; [|unfold RemoveUniqueName; rewrite Eu; by exists t].
  destruct (wf_unique _ Ht _ _ Eu) as [_ Hu].
  destruct (RemoveUniqueName_run st t u e (fun t' _ => forall l, tracks l t -> tracks l t'))
    as (t1 & -> & Ht1 & Hl & _); [done..|eauto| |].
  - intros t' a keys q1 e' q2 Ht' HP Ea Hq1 He' Hf l Hl. apply tracks_silent with t'; [by apply HP|done..|].
    intros n. unfold owner_of. simpl. destruct (decide (n = a)) as [->|]; [|by rewrite lookup_insert_ne].
    rewrite lookup_insert_eq, Ea. by destruct q1.
  - eexists. split_and!; [done|by apply WF_call, WF_set_unique|]. intros l Hlt.
    apply tracks_call with t1; [by apply Hl|done..| |].
    + intros n Hn. unfold owner_of. simpl. by rewrite lookup_delete_ne.
    + unfold owner_of. simpl. by rewrite Hu, lookup_delete_eq.
Qed.

(** A queue without the entries of [u]; a queue left empty disappears. *)
Definition without (u : Name) (oq : option (list NameQueueEntry)) : option (list NameQueueEntry) :=
  match oq with
  | Some q => match filter (fun e => endpointName e <> u) q with [] => None | q' => Some q' end
  | None => None
  end.

(** No endpoint waits twice for a name, and those that wait can take over. *)
Definition queues_sane (st : EpStore) (u : Name) (t : NameTable) : Prop :=
  map_Forall (fun _ q => NoDup (endpointName <$> q) /\
    Forall (fun e => endpointName e <> u -> ep_valid st (endpoint <$> uniqueNames t !! endpointName e) = true) q)
    (aliasNames t).

Definition releasing (st : EpStore) (u : Name) (t0 t : NameTable) (keys : list Name) : Prop :=
  uniqueNames t = uniqueNames t0 /\ virtualAliasNames t = virtualAliasNames t0 /\ queues_sane st u t /\
  (forall a, without u (aliasNames t !! a) = without u (aliasNames t0 !! a)) /\
  (forall a q, a ∉ keys -> aliasNames t !! a = Some q -> Forall (fun e => endpointName e <> u) q).

Lemma without_none u q : q <> [] -> Forall (fun e => endpointName e <> u) q -> without u (Some q) = Some q.
Proof.
  intros Hq Hf. unfold without.
  assert (filter (fun e => endpointName e <> u) q = q) as ->; [|by destruct q].
  clear Hq. induction Hf as [|e q He _ IH]; [done|]. by rewrite filter_cons_True, IH.
Qed.

Lemma sane_update st u t t' a oq' :
  queues_sane st u t -> uniqueNames t' = uniqueNames t ->
  (forall n, n <> a -> aliasNames t' !! n = aliasNames t !! n) -> aliasNames t' !! a = oq' ->
  (forall q' , oq' = Some q' -> exists q, aliasNames t !! a = Some q /\ sublist q' q) -> queues_sane st u t'.
Proof.
  intros Hs Eu Hne Ea Hsub n q Hq. rewrite Eu. destruct (decide (n = a)) as [->|Hn].
  - rewrite Ea in Hq. destruct (Hsub _ Hq) as (q0 & E0 & Hsq). destruct (Hs _ _ E0) as [Hnd Hf].
    split.
    + eapply sublist_NoDup; [exact Hnd|by apply fmap_sublist].
    + rewrite Forall_forall in *. intros e He. apply Hf. by eapply elem_of_sublist.
  - rewrite Hne in Hq by done. by apply (Hs n).
Qed.

Lemma releasing_release st u t0 t t' a keys p q :
  releasing st u t0 t (a :: keys) -> aliasNames t !! a = Some (p :: q) -> endpointName p = u ->
  aliasNames t' = after_release st t a q -> uniqueNames t' = uniqueNames t ->
  virtualAliasNames t' = virtualAliasNames t -> releasing st u t0 t' (alias_order t').
Proof.
  intros (Eu & Ev & Hs & Hw & _) Ea Hp Em Eu' Ev'. destruct (Hs _ _ Ea) as [Hnd Hf].
  assert (aliasNames t' !! a = match q with [] => None | _ => Some q end) as Ea'.
  { rewrite Em. unfold after_release. destruct q as [|next q]; [apply lookup_delete_eq|].
    apply Forall_cons in Hf as [_ [Hn _]%Forall_cons]. rewrite Hn, lookup_insert_eq; [done|].
    apply NoDup_cons in Hnd as [Hnd _]. intros E. apply Hnd. simpl. rewrite <- Hp in E. rewrite E. apply list_elem_of_here. }
  assert (forall n, n <> a -> aliasNames t' !! n = aliasNames t !! n) as Hne.
  { intros. rewrite Em. by apply after_release_ne. }
  split_and!; [congruence..| | |].
  - eapply sane_update; [exact Hs|done|exact Hne|exact Ea'|]. intros q' Hq'. exists (p :: q). split; [done|].
    assert (q' = q) as -> by (destruct q; congruence). by apply sublist_cons.
  - intros n. rewrite <- Hw. destruct (decide (n = a)) as [->|]; [|by rewrite Hne]. rewrite Ea, Ea'.
    unfold without at 2. rewrite filter_cons_False by (by intros []). by destruct q.
  - intros n q' Hn Hq'. exfalso. apply Hn, order_elem. eauto.
Qed.

Lemma releasing_erase st u t0 t a keys q1 e q2 :
  releasing st u t0 t (a :: keys) -> aliasNames t !! a = Some (q1 ++ e :: q2) ->
  endpointName e = u -> Forall (fun e => endpointName e <> u) q1 ->
  releasing st u t0 (set_alias t (<[a := q1 ++ q2]> (aliasNames t))) keys.
Proof.
  intros (Eu & Ev & Hs & Hw & Hk) Ea He Hq1. destruct (Hs _ _ Ea) as [Hnd _].
  assert (Forall (fun e => endpointName e <> u) q2) as Hq2.
  { rewrite fmap_app, fmap_cons in Hnd. apply NoDup_app in Hnd as (_ & _ & [Hnd _]%NoDup_cons).
    apply Forall_forall. intros e' He' E. apply Hnd. rewrite He, <- E. by apply list_elem_of_fmap_2. }
  split_and!; [done..| | |].
  - eapply sane_update with (a := a); [exact Hs|done| |apply lookup_insert_eq|].
    + intros. simpl. by rewrite lookup_insert_ne.
    + intros q' [= <-]. eexists. split; [exact Ea|]. apply sublist_app; [done|]. by apply sublist_cons.
  - intros n. rewrite <- Hw. simpl. destruct (decide (n = a)) as [->|]; [|by rewrite lookup_insert_ne].
    rewrite lookup_insert_eq, Ea. unfold without. rewrite !filter_app, filter_cons_False; [done|]. by intros [].
  - intros n q Hn Hq. simpl in Hq. destruct (decide (n = a)) as [->|Hna].
    + rewrite lookup_insert_eq in Hq. injection Hq as <-. by apply Forall_app.
    + rewrite lookup_insert_ne in Hq by done. apply (Hk n); [|done]. by rewrite not_elem_of_cons.
Qed.

(** * Virtual aliases *)

(** A change of the virtual owner of [a] is told unless a local owner masks it. *)
Lemma set_virtual_tracks l t m a o ot new nt (told : bool) :
  tracks l t -> starts_unique a = false ->
  (forall n, n <> a -> m !! n = virtualAliasNames t !! n) ->
  (fun v => (GetUniqueName (vendpoint v), vnameTransfer v)) <$> m !! a = (fun o => (o, nt)) <$> new ->
  (aliasNames t !! a = None -> told = false -> owner_of t a = (fun o => (o, nt)) <$> new) ->
  (told = true -> aliasNames t !! a = None) -> map_Forall queue_ok (aliasNames t) ->
  tracks l (if told then CallListeners (set_virtual t m) a o ot new nt else set_virtual t m).
Proof.
  intros Hl Ha Hne Hm Hquiet Htold Hq.
  assert (aliasNames t !! a = None -> owner_of (set_virtual t m) a = (fun o => (o, nt)) <$> new) as Ho.
  { intros E. unfold owner_of. simpl. by rewrite Ha, E. }
  destruct told.
  - apply tracks_call with t; [done..| |by apply Ho, Htold]. intros n Hn. by apply owner_set_virtual with a.
  - apply tracks_silent with t; [done..|]. intros n. destruct (decide (n = a)) as [->|Hn]; [|by apply owner_set_virtual with a].
    destruct (aliasNames t !! a) as [[|e q]|] eqn:E.
    + by destruct (Hq _ _ E) as (_ & ? & _).
    + unfold owner_of. simpl. by rewrite Ha, E.
    + rewrite Ho by done. symmetry. by apply Hquiet.
Qed.

Lemma remove_one_ok t epName ep a :
  WF t -> WF (remove_one epName ep t a) /\ forall l, tracks l t -> tracks l (remove_one epName ep t a).
Proof.
  intros Ht. pose proof Ht as [Wu Wa Wv]. unfold remove_one.
  destruct (virtualAliasNames t !! a) as [v|] eqn:Ev; [|done]. destruct (Wv _ _ Ev) as [Ha _].
  destruct (decide (vendpoint v = ep)) as [<-|]; [|done].
  assert (WF (set_virtual t (delete a (virtualAliasNames t)))) as HW.
  { split; [done..|]. by apply map_Forall_delete. }
  assert (forall n, n <> a -> delete a (virtualAliasNames t) !! n = virtualAliasNames t !! n) as Hne
    by (intros; by apply lookup_delete_ne).
  split; [case_decide; [by apply WF_call|done]|]. intros l Hl. destruct (decide (_ = None)) as [Hc|Hc].
  - apply (set_virtual_tracks l t (delete a (virtualAliasNames t)) a _ _ _ _ true); try done. by rewrite lookup_delete_eq.
  - apply (set_virtual_tracks l t (delete a (virtualAliasNames t)) a None ALL_NAMES None ALL_NAMES false); try done.
    by rewrite lookup_delete_eq.
Qed.

Lemma update_one_ok st t epName ep a :
  WF t -> GetUniqueName ep = epName ->
  WF (update_one st epName ep t a) /\ forall l, tracks l t -> tracks l (update_one st epName ep t a).
Proof.
  intros Ht Hep. pose proof Ht as [Wu Wa Wv]. unfold update_one.
  destruct (virtualAliasNames t !! a) as [v|] eqn:Ev; [|done]. destruct (Wv _ _ Ev) as [Ha Hv].
  destruct (decide (vendpoint v = ep)) as [<-|]; [|done].
  set (nt := GetNameTransfer_virtual st (vendpoint v)).
  set (m := <[a := {| vendpoint := vendpoint v; vnameTransfer := nt |}]> (virtualAliasNames t)).
  assert (WF (set_virtual t m)) as HW.
  { split; [done..|]. by apply map_Forall_insert_2. }
  assert (forall n, n <> a -> m !! n = virtualAliasNames t !! n) as Hne by (intros; by apply lookup_insert_ne).
  assert ((fun v => (GetUniqueName (vendpoint v), vnameTransfer v)) <$> m !! a =
    (fun o => (o, nt)) <$> Some epName) as Hm.
  { unfold m. rewrite lookup_insert_eq. simpl. by rewrite Hep. }
  split; [case_decide; [by apply WF_call|done]|]. intros l Hl.
  destruct (decide (vnameTransfer v <> nt /\ _)) as [[Hnt Hc]|Hc].
  - by apply (set_virtual_tracks l t m a _ _ _ _ true).
  - apply (set_virtual_tracks l t m a (Some epName) (vnameTransfer v) (Some epName) nt false); try done.
    intros E _. unfold owner_of. rewrite Ha, E, Ev. simpl. rewrite Hep.
    destruct (decide (vnameTransfer v = nt)) as [->|]; [done|]. exfalso. by apply Hc.
Qed.

Lemma fold_ok {A} (f : NameTable -> A -> NameTable) xs t :
  (forall t x, WF t -> WF (f t x) /\ forall l, tracks l t -> tracks l (f t x)) -> WF t ->
  WF (fold_left f xs t) /\ forall l, tracks l t -> tracks l (fold_left f xs t).
Proof.
  intros Hf. revert t. induction xs as [|x xs IH]; intros t Ht; [done|]. simpl.
  destruct (Hf t x Ht) as [HW HT]. destruct (IH _ HW) as [HW' HT']. split; [done|]. eauto.
Qed.

Lemma RemoveVirtualAliases_total st t epName :
  WF t -> exists t', RemoveVirtualAliases st t epName = Ok t' /\ WF t' /\ forall l, tracks l t -> tracks l t'.
Proof.
  intros Ht. unfold RemoveVirtualAliases. destruct (FindEndpoint_defined st t epName Ht) as [ep ->]. cbn [rbind].
  repeat case_match; eexists; (split; [done|]); try done. apply fold_ok; [|done]. intros. by apply remove_one_ok.
Qed.

Lemma UpdateVirtualAliases_total st t epName :
  WF t -> starts_unique epName = true ->
  exists t', UpdateVirtualAliases st t epName = Ok t' /\ WF t' /\ forall l, tracks l t -> tracks l t'.
Proof.
  intros Ht Hep. unfold UpdateVirtualAliases. rewrite find_unique by done. cbn [rbind].
  destruct (uniqueNames t !! epName) as [e|] eqn:Eu; [|by exists t]. simpl.
  destruct (isValid st (endpoint e)); [|by exists t]. rewrite decide_True by done.
  destruct (wf_unique _ Ht _ _ Eu) as [Hname _]. eexists. split; [done|].
  set (nt := GetNameTransfer st (endpoint e)).
  set (t1 := set_unique t (<[epName := {| endpoint := endpoint e; nameTransfer := nt |}]> (uniqueNames t))).
  assert (WF t1) as HW.
  { destruct Ht as [? ? ?]. split; [|done..]. by apply map_Forall_insert_2. }
  assert (forall n, n <> epName -> owner_of t1 n = owner_of t n) as Hne.
  { intros n Hn. unfold owner_of, t1. simpl. by rewrite lookup_insert_ne. }
  assert (owner_of t1 epName = Some (epName, nt)) as Ho.
  { unfold owner_of, t1. simpl. by rewrite Hep, lookup_insert_eq. }
  case_decide as Hnt.
  - destruct (fold_ok (update_one st epName (endpoint e))
      (virtual_order (CallListeners t1 epName (Some epName) (nameTransfer e) (Some epName) nt))
      (CallListeners t1 epName (Some epName) (nameTransfer e) (Some epName) nt)) as [HW' HT'];
      [intros; by apply update_one_ok|by apply WF_call|]. split; [done|]. intros l Hl. apply HT'.
    by apply tracks_call with t.
  - destruct (fold_ok (update_one st epName (endpoint e)) (virtual_order t1) t1) as [HW' HT'];
      [intros; by apply update_one_ok|done|]. split; [done|]. intros l Hl. apply HT'.
    apply tracks_silent with t; [done..|]. intros n. destruct (decide (n = epName)) as [->|]; [|by apply Hne].
    rewrite Ho. unfold owner_of. rewrite Hep, Eu. simpl. destruct (decide (nameTransfer e = nt)) as [->|]; [done|naive_solver].
Qed.

Lemma SetVirtualAlias_ok st t a newOwner req :
  WF t -> starts_unique a = false ->
  (forall ep, newOwner = Some ep -> starts_unique (GetUniqueName ep) = true) ->
  let t' := (SetVirtualAlias GetUniqueName st t a newOwner req).1 in
  WF t' /\ forall l, tracks l t -> tracks l t'.
Proof.
  intros Ht Ha Hnew. pose proof Ht as [Wu Wa Wv]. unfold SetVirtualAlias.
  destruct (match _ with Some v => _ | None => false end); [done|].
  set (oldName := match _ with Some v => GetUniqueName _ | None => [] end).
  set (oldNT := match _ with Some v => vnameTransfer v | None => ALL_NAMES end).
  set (masked := negb (bool_decide (aliasNames t !! a = None))).
  assert (forall made : bool, made && negb masked = true -> aliasNames t !! a = None) as Hmask.
  { intros made. unfold masked. rewrite negb_involutive. intros [_ ?]%andb_true_iff. by apply bool_decide_eq_true_1 in H. }
  assert (forall made : bool, aliasNames t !! a = None -> made && negb masked = made) as Hunmask.
  { intros made E. unfold masked. rewrite bool_decide_true by done. by rewrite andb_true_r. }
  assert (let t' := if negb masked then CallListeners (set_virtual t (delete a (virtualAliasNames t))) a
                        (non_empty oldName) oldNT None ALL_NAMES
                    else set_virtual t (delete a (virtualAliasNames t)) in
          WF t' /\ forall l, tracks l t -> tracks l t') as Hdel.
  { assert (WF (set_virtual t (delete a (virtualAliasNames t)))) by (split; [done..|by apply map_Forall_delete]).
    split; [case_match; [by apply WF_call|done]|]. intros l Hl.
    apply (set_virtual_tracks l t (delete a (virtualAliasNames t)) a _ _ _ _ (negb masked)); try done.
    - intros. by apply lookup_delete_ne.
    - by rewrite lookup_delete_eq.
    - intros E Hq. pose proof (Hunmask true E) as E'. simpl in E'. congruence.
    - apply (Hmask true). }
  destruct newOwner as [ep|]; [|exact Hdel]. destruct (isValid st ep) eqn:Hep; [|exact Hdel].
  specialize (Hnew ep eq_refl). set (nt := GetNameTransfer_virtual st ep).
  set (m := <[a := {| vendpoint := ep; vnameTransfer := nt |}]> (virtualAliasNames t)).
  set (made := negb (bool_decide (vendpoint <$> virtualAliasNames t !! a = Some ep)) ||
               negb (bool_decide (oldNT = nt))).
  assert (WF (set_virtual t m)) by (split; [done..|by apply map_Forall_insert_2]). cbn [fst].
  rewrite (non_empty_unique _ Hnew).
  split; [by destruct (made && negb masked); [apply WF_call|]|]. intros l Hl.
  apply (set_virtual_tracks l t m a _ _ _ _ (made && negb masked)); try done.
  - intros. by apply lookup_insert_ne.
  - unfold m. by rewrite lookup_insert_eq.
  - intros E Hq. rewrite Hunmask in Hq by done. unfold made in Hq.
    apply orb_false_iff in Hq as [H1 H2]. apply negb_false_iff, bool_decide_eq_true_1 in H1, H2.
    apply fmap_Some in H1 as (v & Ev & ->). unfold owner_of. rewrite Ha, E, Ev. simpl.
    unfold oldNT in H2. rewrite Ev, Hep in H2. by rewrite H2.
  - apply Hmask.
Qed.

(** * Runs of the table *)

(** One call of the interface; the store of endpoints is that of the moment.
    Well-known names do not start with a colon, names of endpoints do. The
    listener [keep] stays registered. *)
Inductive step (keep : Listener) (t : NameTable) : NameTable -> Prop :=
| step_AddUniqueName st ep :
    starts_unique (GetUniqueName ep) = true -> step keep t (AddUniqueName GetUniqueName st t ep)
| step_RemoveUniqueName st u t' :
    RemoveUniqueName GetUniqueName alias_order st t u = Ok t' -> step keep t t'
| step_AddAlias a u fl lst t' d :
    starts_unique a = false -> AddAlias GetUniqueName t a u fl lst = Ok (t', d) -> step keep t t'
| step_RemoveAlias st a o lst t' d :
    RemoveAlias GetUniqueName st t a o lst = Ok (t', d) -> step keep t t'
| step_SetVirtualAlias st a newOwner req :
    starts_unique a = false -> (forall ep, newOwner = Some ep -> starts_unique (GetUniqueName ep) = true) ->
    step keep t (SetVirtualAlias GetUniqueName st t a newOwner req).1
| step_RemoveVirtualAliases st epName t' :
    RemoveVirtualAliases st t epName = Ok t' -> step keep t t'
| step_UpdateVirtualAliases st epName t' :
    starts_unique epName = true -> UpdateVirtualAliases st t epName = Ok t' -> step keep t t'
| step_AddListener l : step keep t (AddListener t l)
| step_RemoveListener l : l <> keep -> step keep t (RemoveListener t l)
| step_GenerateUniqueName t' n : GenerateUniqueName t = Ok (t', n) -> step keep t t'
| step_SetGUID guid : step keep t (SetGUID t guid).

Lemma listener_insert_elem l x ls : x ∈ ls \/ x = l -> x ∈ listener_insert l ls.
Proof.
  induction ls as [|y ls IH]; simpl; rewrite ?elem_of_cons; [by intros [[]%elem_of_nil | ->]; left|].
  intros Hx. destruct (Z.ltb_spec l y); [rewrite !elem_of_cons; tauto|].
  destruct (Z.eqb_spec l y) as [->|]; rewrite !elem_of_cons; tauto.
Qed.

Lemma tracks_same l t t' :
  (forall x, x ∈ listeners t -> x = l -> x ∈ listeners t') -> calls t' = calls t -> uniqueNames t' = uniqueNames t ->
  aliasNames t' = aliasNames t -> virtualAliasNames t' = virtualAliasNames t -> tracks l t -> tracks l t'.
Proof.
  intros Hls Ec Eu Ea Ev [Hl Ht]. split; [by apply Hls|]. intros n. rewrite Ec, Ht.
  unfold owner_of. by rewrite Eu, Ea, Ev.
Qed.

Lemma WF_same t t' :
  uniqueNames t' = uniqueNames t -> aliasNames t' = aliasNames t ->
  virtualAliasNames t' = virtualAliasNames t -> WF t -> WF t'.
Proof. intros Eu Ea Ev [? ? ?]. split; [by rewrite Eu|by rewrite Ea|by rewrite Ev]. Qed.

Ltac same_result :=
  match goal with H : ?e = Ok _, H' : ?e = Ok _ |- _ => rewrite H in H'; simplify_eq end.

Lemma step_sound keep t t' : WF t -> tracks keep t -> step keep t t' -> WF t' /\ tracks keep t'.
Proof.
  intros Ht Hl Hs. destruct Hs.
  - split; [by apply AddUniqueName_WF|by apply AddUniqueName_tracks].
  - destruct (RemoveUniqueName_total st t u Ht) as (t1 & E & ? & ?). same_result. eauto.
  - by eapply AddAlias_sound.
  - destruct (RemoveAlias_total st t a o lst Ht) as (t1 & d1 & E & ? & ?). same_result. eauto.
  - destruct (SetVirtualAlias_ok st t a newOwner req Ht) as [? ?]; eauto.
  - destruct (RemoveVirtualAliases_total st t epName Ht) as (t1 & E & ? & ?). same_result. eauto.
  - destruct (UpdateVirtualAliases_total st t epName Ht) as (t1 & E & ? & ?); [done|]. same_result. eauto.
  - split; [by apply (WF_same t)|]. apply (tracks_same _ t); try done. intros x Hx _. apply listener_insert_elem. by left.
  - split; [by apply (WF_same t)|]. apply (tracks_same _ t); try done. intros x Hx ->. apply list_elem_of_filter. by split.
  - unfold GenerateUniqueName in *. inv_Ok. split; [by apply (WF_same t)|by apply (tracks_same _ t)].
  - split; [by apply (WF_same t)|by apply (tracks_same _ t)].
Qed.

Lemma run_sound keep t t' : rtc (step keep) t t' -> WF t -> tracks keep t -> WF t' /\ tracks keep t'.
Proof. induction 1 as [|t t1 t2 Hs _ IH]; [done|]. intros Ht Hl. destruct (step_sound keep t t1); eauto. Qed.

Lemma init_ok l : WF (AddListener NameTable_init l) /\ tracks l (AddListener NameTable_init l).
Proof.
  split; [split; apply map_Forall_empty|]. split; [apply list_elem_of_here|]. intros n.
  unfold owner_of. simpl. rewrite !lookup_empty. by case_match.
Qed.

(** C36: A listener registered from the start that replays the calls it gets
    knows, after any sequence of operations, the owner of every unique and
    well-known name and how it is to be announced. *)
Theorem NameTable_replay l t :
  rtc (step l) (AddListener NameTable_init l) t -> forall n, replay l (calls t) !! n = owner_of t n.
Proof. intros Hr. destruct (init_ok l) as [HW Hl]. by destruct (run_sound l _ _ Hr HW Hl) as [_ [_ ?]]. Qed.

(** C37: In every table that can arise the queues have an owner, and no
    operation meets a violated assertion, an invalid iterator or a loop
    without end: lookups, releases, removals and updates return. *)
Theorem NameTable_progress l t st :
  rtc (step l) (AddListener NameTable_init l) t ->
  map_Forall (fun _ q => q <> []) (aliasNames t) /\
  (forall n, exists ep, FindEndpoint st t n = Ok ep) /\
  (forall a u fl lst, AddAlias GetUniqueName t a u fl lst <> Undef) /\
  (forall a o lst, exists r, RemoveAlias GetUniqueName st t a o lst = Ok r) /\
  (forall u, exists t', RemoveUniqueName GetUniqueName alias_order st t u = Ok t') /\
  (forall n, exists t', RemoveVirtualAliases st t n = Ok t') /\
  (forall n, starts_unique n = true -> exists t', UpdateVirtualAliases st t n = Ok t').
Proof.
  intros Hr. destruct (init_ok l) as [HW Hl]. destruct (run_sound l _ _ Hr HW Hl) as [Ht _].
  split_and!.
  - intros a q Hq. by destruct (wf_alias _ Ht _ _ Hq) as (_ & ? & _).
  - intros n. by apply FindEndpoint_defined.
  - intros a u fl lst. unfold AddAlias. destruct (uniqueNames t !! u); [|done].
    destruct (aliasNames t !! a) as [[|p q]|] eqn:Ea; [|repeat case_match; done..].
    by destruct (wf_alias _ Ht _ _ Ea) as (_ & ? & _).
  - intros a o lst. destruct (RemoveAlias_total st t a o lst Ht) as (t' & d & -> & _). eauto.
  - intros u. destruct (RemoveUniqueName_total st t u Ht) as (t' & -> & _). eauto.
  - intros n. destruct (RemoveVirtualAliases_total st t n Ht) as (t' & -> & _). eauto.
  - intros n Hn. destruct (UpdateVirtualAliases_total st t n Ht Hn) as (t' & -> & _). eauto.
Qed.

(** When nobody waits twice for a name and all who wait are connected,
    RemoveUniqueName ends, forgets the endpoint, and leaves every queue as it
    was without it, in the same order; a queue left empty is gone. *)
Theorem RemoveUniqueName_queues st t u e :
  WF t -> uniqueNames t !! u = Some e -> queues_sane st u t ->
  exists t', RemoveUniqueName GetUniqueName alias_order st t u = Ok t' /\
    uniqueNames t' = delete u (uniqueNames t) /\ virtualAliasNames t' = virtualAliasNames t /\
    forall a, aliasNames t' !! a = without u (aliasNames t !! a).
Proof.
  intros Ht Eu Hs.
  destruct (RemoveUniqueName_run st t u e (releasing st u t)) as (t1 & -> & Ht1 & (Eu1 & Ev1 & _ & Hw & Hk) & _); [done|done| | | | |].
  - split_and!; [done..|]. intros a q Hn Hq. exfalso. apply Hn, order_elem. eauto.
  - intros t1 a keys q _ (? & ? & ? & ? & Hk) Ea Hq. split_and!; [done..|]. intros n q' Hn Hq'.
    destruct (decide (n = a)) as [->|]; [by simplify_eq|]. apply (Hk n); [|done]. by rewrite not_elem_of_cons.
  - intros. by eapply releasing_release.
  - intros. by eapply releasing_erase.
  - eexists. split_and!; [done|simpl; by rewrite Eu1|done|]. intros a. simpl. rewrite <- Hw.
    destruct (aliasNames t1 !! a) as [q|] eqn:Ea; [|done]. symmetry. apply without_none.
    + by destruct (wf_alias _ Ht1 _ _ Ea) as (_ & ? & _).
    + apply (Hk a); [apply not_elem_of_nil|done].
Qed.

(** A release hands the name to nobody when the next in line has gone. *)
Lemma RemoveAlias_gone st t a p x q :
  WF t -> aliasNames t !! a = Some (p :: x :: q) -> uniqueNames t !! endpointName x = None ->
  exists t', RemoveAlias GetUniqueName st t a (endpointName p) None = Ok (t', REPLY_RELEASED) /\
    aliasNames t' = delete a (aliasNames t) /\ virtualAliasNames t' = virtualAliasNames t.
Proof.
  intros Ht Ea Hx. destruct (RemoveAlias_release st t a None p (x :: q) Ht Ea) as (t' & ? & _ & ? & Em & _).
  exists t'. split_and!; [done| |done]. rewrite Em. unfold after_release. by rewrite Hx.
Qed.

(** What the traversal does when [u] owns nothing: one entry goes per queue. *)
Definition trimming (u a : Name) (q q' : list NameQueueEntry) (t0 t : NameTable) (keys : list Name) : Prop :=
  NoDup keys /\ virtualAliasNames t = virtualAliasNames t0 /\
  map_Forall (fun _ q => hd_error (endpointName <$> q) <> Some u) (aliasNames t) /\
  aliasNames t !! a = Some (if decide (a ∈ keys) then q else q').

(** An endpoint can wait twice for a name, and RemoveUniqueName erases only
    one of its entries in each queue. When the owner then releases the name, the
    entry that stayed is next, its endpoint is gone, and the queue is dropped:
    all others that waited in [q], connected or not, lose the name. *)
Theorem RemoveUniqueName_stale st t u e a p x y q :
  WF t -> uniqueNames t !! u = Some e ->
  map_Forall (fun _ q => hd_error (endpointName <$> q) <> Some u) (aliasNames t) ->
  aliasNames t !! a = Some (p :: x :: y :: q) -> endpointName x = u -> endpointName y = u ->
  virtualAliasNames t !! a = None ->
  exists t1 t2, RemoveUniqueName GetUniqueName alias_order st t u = Ok t1 /\
    RemoveAlias GetUniqueName st t1 a (endpointName p) None = Ok (t2, REPLY_RELEASED) /\
    aliasNames t2 !! a = None /\ owner_of t2 a = None.
Proof.
  intros Ht Eu Hown Ea Hx Hy Hv. assert (endpointName p <> u) as Hp by (intros <-; by apply (Hown _ _ Ea)).
  destruct (RemoveUniqueName_run st t u e (trimming u a (p :: x :: y :: q) (p :: y :: q) t))
    as (t1 & E1 & Ht1 & (_ & Ev1 & _ & Ea1) & Eu1); [done|done| | | | |].
  - split_and!; [apply order_NoDup|done..|]. rewrite decide_True; [done|]. apply order_elem. eauto.
  - intros t1 b keys q1 _ (Hnd & ? & ? & Eb) Ea1 Hf. apply NoDup_cons in Hnd as [Hb Hnd].
    split_and!; [done..|]. rewrite Eb. destruct (decide (b = a)) as [->|Hba].
    + rewrite decide_True in Eb by apply list_elem_of_here. simplify_eq.
      apply Forall_cons in Hf as [_ [Hf _]%Forall_cons]. done.
    + f_equal. do 2 case_decide; try done; set_solver.
  - intros t1 t2 b keys p' q' _ (_ & _ & Hh & _) Eb Hp'. exfalso. apply (Hh _ _ Eb). simpl. by rewrite Hp'.
  - intros t1 b keys q1 x' q2 _ (Hnd & ? & Hh & Ea1) Eb Hq1 Hx' Hf. apply NoDup_cons in Hnd as [Hb Hnd].
    split_and!; [done..| |].
    + simpl. apply map_Forall_insert_2; [|done]. specialize (Hh _ _ Eb). by destruct q1.
    + simpl. destruct (decide (b = a)) as [->|Hba].
      * rewrite lookup_insert_eq, decide_False by done. rewrite decide_True in Ea1 by apply list_elem_of_here.
        rewrite Ea1 in Eb. destruct q1 as [|p1 [|x1 q1]]; [done|by simplify_list_eq|]. exfalso. simplify_list_eq.
        apply Forall_cons in Hf as [_ [Hf _]%Forall_cons]. done.
      * rewrite lookup_insert_ne, Ea1 by done. f_equal. do 2 case_decide; try done; set_solver.
  - rewrite decide_False in Ea1 by apply not_elem_of_nil.
    set (t2 := CallListeners (set_unique t1 (delete u (uniqueNames t1))) u (Some u) (nameTransfer e) None ALL_NAMES) in *.
    destruct (RemoveAlias_gone st t2 a p y q) as (t3 & E3 & Em & Ev); [by apply WF_call, WF_set_unique|done| |].
    { simpl. rewrite Hy. apply lookup_delete_eq. }
    exists t2, t3. assert (aliasNames t3 !! a = None) as Ea3 by (rewrite Em; apply lookup_delete_eq).
    split_and!; [done..|]. unfold owner_of. destruct (wf_alias _ Ht _ _ Ea) as (Ha & _).
    rewrite Ha, Ea3, Ev. simpl. by rewrite Ev1, Hv.
Qed.

(** AddAlias tells the truth: after it reports that the endpoint is the
    owner the name resolves to that endpoint, if it is still connected; after any
    other report the owner is the one it was, another one, and the endpoint is
    queued behind exactly when that was reported. *)
Theorem AddAlias_outcome st t a u e fl lst :
  WF t -> starts_unique a = false -> uniqueNames t !! u = Some e ->
  exists t' d, AddAlias GetUniqueName t a u fl lst = Ok (t', d) /\
    (d = REPLY_PRIMARY_OWNER \/ d = REPLY_ALREADY_OWNER ->
       GetNameOwner GetUniqueName t' a = u /\
       (isValid st (endpoint e) = true -> FindEndpoint st t' a = Ok (Some (endpoint e)))) /\
    (d = REPLY_IN_QUEUE \/ d = REPLY_EXISTS ->
       GetNameOwner GetUniqueName t' a = GetNameOwner GetUniqueName t a /\ GetNameOwner GetUniqueName t a <> u) /\
    GetQueuedNames t' a [] = (if decide (d = REPLY_PRIMARY_OWNER) then [u] else []) ++ GetQueuedNames t a [] ++
                             (if decide (d = REPLY_IN_QUEUE) then [u] else []) /\
    d ∈ [REPLY_PRIMARY_OWNER; REPLY_IN_QUEUE; REPLY_EXISTS; REPLY_ALREADY_OWNER].
Proof.
  intros Ht Ha Eu. destruct (wf_unique _ Ht _ _ Eu) as [_ Hu].
  assert (forall t' x q, uniqueNames t' = uniqueNames t -> aliasNames t' !! a = Some (x :: q) -> endpointName x = u ->
    GetNameOwner GetUniqueName t' a = u /\
    (isValid st (endpoint e) = true -> FindEndpoint st t' a = Ok (Some (endpoint e)))) as Hown.
  { intros t' x q Eu' Ea' Hx. split; [unfold GetNameOwner; by rewrite Ea'|]. intros Hval.
    unfold FindEndpoint. generalize (size (aliasNames t')). intros k. cbn [find_endpoint]. rewrite Ha, Ea', Hx, Hu, Eu', Eu.
    cbn [fmap option_fmap option_map rbind ep_valid]. by rewrite Hval. }
  assert (forall t' lst c, GetQueuedNames (complete t' lst c) a [] = GetQueuedNames t' a [] /\
    GetNameOwner GetUniqueName (complete t' lst c) a = GetNameOwner GetUniqueName t' a) as Hcom by (intros ? []; done).
  assert (forall q q', aliasNames t !! a = Some q -> GetNameOwner GetUniqueName (set_alias t (<[a := q']> (aliasNames t))) a =
    match q' with x :: _ => endpointName x | [] => [] end) as Hset.
  { intros. unfold GetNameOwner. simpl. rewrite lookup_insert_eq. by destruct q'. }
  unfold AddAlias. rewrite Eu. destruct (aliasNames t !! a) as [[|p q]|] eqn:Ea.
  - by destruct (wf_alias _ Ht _ _ Ea) as (_ & ? & _).
  - assert (GetNameOwner GetUniqueName t a = endpointName p) as Hp by (unfold GetNameOwner; by rewrite Ea).
    case_decide as Hpu; [|case_match; [|case_match]]; eexists _, _; (split; [reflexivity|]); split_and!;
      try (intros [?|?]; discriminate); try (by rewrite !list_elem_of_In; simpl; tauto).
    + intros _. by apply (Hown _ p q); [destruct lst..|].
    + rewrite (proj1 (Hcom _ _ _)). simpl. by rewrite app_nil_r.
    + intros _. eapply Hown; [by destruct lst|destruct lst; apply lookup_insert_eq|done].
    + unfold GetQueuedNames. destruct lst; simpl; rewrite lookup_insert_eq, Ea; simpl; by rewrite app_nil_r.
    + intros _. by rewrite (proj2 (Hcom _ _ _)), Hp.
    + rewrite (proj1 (Hcom _ _ _)). simpl. by rewrite app_nil_r.
    + intros _. rewrite (proj2 (Hcom _ _ _)), Hp. by erewrite Hset.
    + rewrite (proj1 (Hcom _ _ _)). unfold GetQueuedNames. simpl. rewrite lookup_insert_eq, Ea. simpl. by rewrite map_app.
  - assert (GetQueuedNames t a [] = []) as Hq by (unfold GetQueuedNames; by rewrite Ea). cbv zeta.
    case_match; eexists _, _; (split; [reflexivity|]); split_and!;
      try (intros [?|?]; discriminate); try (by rewrite !list_elem_of_In; simpl; tauto);
      try (intros _; eapply Hown; [by destruct lst|destruct lst; apply lookup_insert_eq|done]);
      rewrite Hq; unfold GetQueuedNames; destruct lst; simpl; by rewrite lookup_insert_eq.
Qed.
End table.

(** * Generated names *)

Lemma find_char_None c s : find_char c s = None <-> Forall (fun x => x <> c) s.
Proof.
  induction s as [|x s IH]; simpl; [by split|]. destruct (Z.eqb_spec x c) as [->|Hx].
  - split; [done|]. by intros [? _]%Forall_cons.
  - rewrite fmap_None, Forall_cons, IH. naive_solver.
Qed.

Lemma find_char_app c s x s' :
  Forall (fun x => x <> c) s -> find_char c (s ++ x :: s') = if x =? c then Some (length s) else (fun n => n + S (length s))%nat <$> find_char c s'.
Proof.
  induction 1 as [|y s Hy _ IH]; simpl.
  - destruct (x =? c); [done|]. destruct (find_char c s'); [|done]. simpl. f_equal. lia.
  - apply Z.eqb_neq in Hy as ->. rewrite IH. destruct (x =? c); [done|]. destruct (find_char c s'); [|done].
    simpl. f_equal. lia.
Qed.

Lemma short_char_dot b : GUID.short_char b <> 46.
Proof.
  unfold GUID.short_char. assert (0 <= Z.land b 63 < 64).
  { change 63 with (Z.ones 6). rewrite Z.land_ones by lia. apply Z.mod_pos_bound. lia. }
  repeat case_match; lia.
Qed.

Lemma digit_dot c : CharToU8 c < 10 -> c <> 46.
Proof. by intros H ->. Qed.

(** C38: Once SetGUID was called and while fewer than 2^32 - 1 names were given out,
    GenerateUniqueName gives a name that starts with a colon, that
    IsValidLocalUniqueName refused before and accepts afterwards: names given out
    earlier are never repeated. That test, which knows only the prefix and the last
    number given out, accepts the name whether an endpoint has taken it or not. *)
Theorem GenerateUniqueName_fresh t guid :
  length guid = 16%nat -> 0 <= uniqueId t < 2 ^ 32 - 1 ->
  exists t' n, GenerateUniqueName (SetGUID t guid) = Ok (t', n) /\ starts_unique n = true /\
    IsValidLocalUniqueName (SetGUID t guid) n = Ok false /\ IsValidLocalUniqueName t' n = Ok true /\
    uniqueId t' = uniqueId t + 1 /\ uniquePrefix t' = uniquePrefix (SetGUID t guid).
Proof.
  intros Hg Hid. unfold GenerateUniqueName. cbn [SetGUID set_ids uniqueId uniquePrefix].
  rewrite wrap_u_small by lia. unfold U32ToString.
  destruct (UToString_text (uniqueId t + 1) 10 1 32) as (n & ds & -> & Ht & _); [lia..|]. cbn [rbind].
  set (s := replicate n 32 ++ ds). set (prefix := [58] ++ GUID.short_text guid ++ [46]).
  assert (Forall (fun x => x <> 46) s) as Hs.
  { apply Forall_app. split; [by apply Forall_replicate|]. destruct Ht as (_ & Hd & _).
    eapply Forall_impl; [exact Hd|]. apply digit_dot. }
  assert (StringToU32 s 0 0 = uniqueId t + 1) as Hnum.
  { apply (StringToU_text 32 10); [lia..|done|done|by right]. }
  assert (length (GUID.short_text guid) = 8%nat) as Hlen.
  { unfold GUID.short_text. rewrite length_map, length_take, Hg. done. }
  assert (length prefix = 10%nat) as Hpl by (unfold prefix; rewrite !length_app, Hlen; done).
  assert (forall t', uniquePrefix t' = prefix ->
    IsValidLocalUniqueName t' (prefix ++ s) = Ok (uniqueId t + 1 <=? uniqueId t')) as Hvalid.
  { intros t' Hp. unfold IsValidLocalUniqueName.
    assert (find_char 46 (prefix ++ s) = Some 9%nat) as ->.
    { replace (prefix ++ s) with ((58 :: GUID.short_text guid) ++ 46 :: s)
        by (unfold prefix; simpl; by rewrite <- app_assoc).
      rewrite find_char_app.
      - cbn. by rewrite Hlen.
      - constructor; [done|]. apply Forall_fmap, Forall_true. intros. apply short_char_dot. }
    change (Z.to_nat (GUID.SHORT_SIZE + 2)) with 10%nat. rewrite <- Hpl, drop_app_length, take_app_length.
    apply find_char_None in Hs as ->. rewrite decide_True by done. rewrite length_app, Hpl, Hnum.
    assert ((Z.of_nat (10 + length s) <? GUID.SHORT_SIZE + 2) = false) as -> 
      by (apply Z.ltb_ge; change (10 <= Z.of_nat (10 + length s)); clear; lia).
    by assert ((uniqueId t + 1 =? 0) = false) as -> by lia. }
  eexists _, _. split_and!; [reflexivity|done| | |done..].
  - rewrite Hvalid by done. f_equal. cbn. lia.
  - rewrite Hvalid by done. f_equal. cbn. lia.
Qed.

Lemma GenerateUniqueName_fresh_witness :
  exists t' n, GenerateUniqueName (SetGUID NameTable_init (seqZ 0 16)) = Ok (t', n) /\ starts_unique n = true /\
    IsValidLocalUniqueName (SetGUID NameTable_init (seqZ 0 16)) n = Ok false /\ IsValidLocalUniqueName t' n = Ok true /\
    uniqueId t' = 1 /\ uniquePrefix t' = uniquePrefix (SetGUID NameTable_init (seqZ 0 16)).
Proof. apply (GenerateUniqueName_fresh NameTable_init (seqZ 0 16)); [reflexivity|cbn; lia]. Defined.

(** * A small bus

    Four connected endpoints named :1.1 to :1.4 and the listener 7, with the
    queues traversed in the order of the map. *)
Definition ex_name (ep : Endpoint) : Name := [58; 49; 46; 48 + ep].
Definition ex_order (t : NameTable) : list Name := (map_to_list (aliasNames t)).*1.
Definition ex_store : EpStore := {| isValid := fun _ => true;
  GetEndpointType := fun _ => ENDPOINT_TYPE_REMOTE; GetBusToBusEndpoints := fun _ => [] |}.
Definition ex_alias : Name := [97; 46; 98].
Definition ex_add (t : NameTable) (ep fl : Z) : NameTable :=
  match AddAlias ex_name t ex_alias (ex_name ep) fl None with Ok (t', _) => t' | _ => t end.
Definition ex_start : NameTable := AddListener NameTable_init 7.
Definition ex_bus : NameTable := fold_left (AddUniqueName ex_name ex_store) [1; 2; 3] ex_start.

(** The name is owned by the first, and the second and third wait. *)
Definition ex_queue : NameTable := fold_left (fun t ep => ex_add t ep 0) [1; 2; 3] ex_bus.
(** The second has asked again before the third. *)
Definition ex_twice : NameTable := fold_left (fun t ep => ex_add t ep 0) [1; 2; 2; 3] ex_bus.

Lemma ex_order_ok t : ex_order t ≡ₚ (map_to_list (aliasNames t)).*1.
Proof. done. Qed.

Lemma ex_add_run l t ep fl t0 :
  rtc (step ex_name ex_order l) t0 t -> AddAlias ex_name t ex_alias (ex_name ep) fl None <> Undef ->
  rtc (step ex_name ex_order l) t0 (ex_add t ep fl).
Proof.
  intros Hr Hd. unfold ex_add. destruct (AddAlias _ _ _ _ _ _) as [[t' d]| |] eqn:E; [|done..].
  eapply rtc_r; [exact Hr|]. eapply step_AddAlias; [|exact E]. reflexivity.
Qed.

Lemma ex_bus_run : rtc (step ex_name ex_order 7) ex_start ex_bus.
Proof. do 3 (eapply rtc_l; [by apply step_AddUniqueName|]). apply rtc_refl. Qed.

Lemma ex_queue_run : rtc (step ex_name ex_order 7) ex_start ex_queue.
Proof. do 3 (apply ex_add_run; [|by vm_compute]). apply ex_bus_run. Qed.

Lemma ex_twice_run : rtc (step ex_name ex_order 7) ex_start ex_twice.
Proof. do 4 (apply ex_add_run; [|by vm_compute]). apply ex_bus_run. Qed.

Lemma ex_WF t : rtc (step ex_name ex_order 7) ex_start t -> WF ex_name t.
Proof.
  intros Hr. destruct (init_ok ex_name 7) as [HW Hl].
  by destruct (run_sound ex_name ex_order ex_order_ok 7 _ _ Hr HW Hl).
Qed.

Lemma NameTable_replay_witness :
  owner_of ex_name ex_queue ex_alias = Some (ex_name 1, ALL_NAMES) /\
  replay 7 (calls ex_queue) !! ex_alias = owner_of ex_name ex_queue ex_alias.
Proof.
  split; [reflexivity|].
  apply (NameTable_replay ex_name ex_order ex_order_ok 7 ex_queue ex_queue_run).
Defined.

Lemma NameTable_progress_witness :
  exists t', RemoveUniqueName ex_name ex_order ex_store ex_twice (ex_name 2) = Ok t'.
Proof.
  destruct (NameTable_progress ex_name ex_order ex_order_ok 7 ex_twice ex_store ex_twice_run)
    as (_ & _ & _ & _ & H & _).
  apply H.
Defined.

Lemma RemoveUniqueName_queues_witness :
  exists t', RemoveUniqueName ex_name ex_order ex_store ex_queue (ex_name 2) = Ok t' /\
    uniqueNames t' = delete (ex_name 2) (uniqueNames ex_queue) /\
    virtualAliasNames t' = virtualAliasNames ex_queue /\
    forall a, aliasNames t' !! a = without (ex_name 2) (aliasNames ex_queue !! a).
Proof.
  apply (RemoveUniqueName_queues ex_name ex_order ex_order_ok ex_store ex_queue (ex_name 2)
           {| endpoint := 2; nameTransfer := ALL_NAMES |}).
  - apply ex_WF, ex_queue_run.
  - reflexivity.
  - unfold queues_sane. refine (bool_decide_unpack _ _). vm_compute. exact I.
Defined.

Lemma RemoveUniqueName_stale_witness :
  exists t1 t2, RemoveUniqueName ex_name ex_order ex_store ex_twice (ex_name 2) = Ok t1 /\
    RemoveAlias ex_name ex_store t1 ex_alias (ex_name 1) None = Ok (t2, REPLY_RELEASED) /\
    aliasNames t2 !! ex_alias = None /\ owner_of ex_name t2 ex_alias = None.
Proof.
  apply (RemoveUniqueName_stale ex_name ex_order ex_order_ok ex_store ex_twice (ex_name 2)
           {| endpoint := 2; nameTransfer := ALL_NAMES |} ex_alias {| endpointName := ex_name 1; flags := 0 |}
           {| endpointName := ex_name 2; flags := 0 |} {| endpointName := ex_name 2; flags := 0 |}
           [{| endpointName := ex_name 3; flags := 0 |}]); try reflexivity.
  - apply ex_WF, ex_twice_run.
  - refine (bool_decide_unpack _ _). vm_compute. exact I.
Defined.

Lemma AddAlias_outcome_witness :
  exists t' d, AddAlias ex_name ex_bus ex_alias (ex_name 1) 0 None = Ok (t', d) /\
    GetNameOwner ex_name t' ex_alias = ex_name 1.
Proof.
  destruct (AddAlias_outcome ex_name ex_store ex_bus ex_alias (ex_name 1)
    {| endpoint := 1; nameTransfer := ALL_NAMES |} 0 None) as (t' & d & E & H & _).
  - apply ex_WF, ex_bus_run.
  - reflexivity.
  - reflexivity.
  - exists t', d. split; [exact E|]. apply H. left. vm_compute in E. injection E as _ <-. reflexivity.
Defined.
