(* ===== verification/BigNum.v ===== *)
(** Model of common/src/BigNum.cc and common/inc/qcc/BigNum.h: integers of any
    size as sequences of 32-bit digits, least significant first, with a sign.

    A value is its digits and its sign; the digits array of the code is the list
    here and [length] its length. Words of 64 bits wrap around where the code
    computes in uint64_t. A violated assertion, a division by zero and an access
    outside the digits are [Undef]. Values do not share storage here; in the code
    they do, with a count of references. *)
From S2P Require Import Prelude Types.

Definition w32 (v : Z) : Z := v mod 2 ^ 32.
Definition w64 (v : Z) : Z := v mod 2 ^ 64.

Record BigNum := { digits : list Z; neg : bool }.

Definition digit (ds : list Z) (i : nat) : Z := nth i ds 0.

Definition zero : BigNum := {| digits := [0]; neg := false |}.
Definition of_u32 (v : Z) : BigNum := {| digits := [v]; neg := false |}.

(** * Bit positions *)

Definition DeBruijnPos : list Z :=
  [0; 9; 1; 10; 13; 21; 2; 29; 11; 14; 16; 18; 22; 25; 3; 30;
   8; 12; 20; 28; 15; 17; 24; 7; 19; 27; 23; 6; 26; 5; 4; 31].
Definition DeBruijnMagic : Z := 0x07C4ACDD.

Definition log2 (n : Z) : Z :=
  let n := Z.lor n (Z.shiftr n 1) in
  let n := Z.lor n (Z.shiftr n 2) in
  let n := Z.lor n (Z.shiftr n 4) in
  let n := Z.lor n (Z.shiftr n 8) in
  let n := Z.lor n (Z.shiftr n 16) in
  digit DeBruijnPos (Z.to_nat (Z.shiftr (w32 (n * DeBruijnMagic)) 27)).

(** * Leading zeros *)

Fixpoint strip_len (n : nat) (ds : list Z) : nat :=
  match n with
  | S (S m as n') => if digit ds n' =? 0 then strip_len n' ds else n
  | _ => n
  end.

Definition strip_lz (x : BigNum) : BigNum :=
  let n := strip_len (length (digits x)) (digits x) in
  {| digits := take n (digits x);
     neg := if Nat.eqb n 1 && (digit (digits x) 0 =? 0) then false else neg x |}.

Definition haslz (x : BigNum) : bool :=
  (1 <? length (digits x))%nat && (digit (digits x) (length (digits x) - 1) =? 0).

(** The copy constructor. *)
Definition copy (x : BigNum) : BigNum := strip_lz x.

Definition opp (x : BigNum) : BigNum :=
  let r := copy x in {| digits := digits r; neg := negb (neg r) |}.

Definition abs (x : BigNum) : BigNum := if neg x then opp x else copy x.

(** * Comparison *)

Fixpoint sig_len (n : nat) (ds : list Z) : nat :=
  match n with
  | S n' => if digit ds n' =? 0 then sig_len n' ds else n
  | O => O
  end.

Fixpoint cmp_digits (n : nat) (a b : list Z) : Z :=
  match n with
  | O => 0
  | S n => if digit a n =? digit b n then cmp_digits n a b
           else if digit a n >? digit b n then 1 else -1
  end.

Definition compare (a b : BigNum) : Z :=
  let aLen := sig_len (length (digits a)) (digits a) in
  let bLen := sig_len (length (digits b)) (digits b) in
  let nz n := negb (Nat.eqb n 0) in
  if negb (Bool.eqb (neg a && nz aLen) (neg b && nz bLen)) then (if neg a then -1 else 1)
  else if Nat.eqb aLen bLen then cmp_digits aLen (digits a) (digits b)
  else if (bLen <? aLen)%nat then 1 else -1.

Definition ltb (a b : BigNum) : bool := compare a b <? 0.
Definition gtb (a b : BigNum) : bool := compare a b >? 0.
Definition geb (a b : BigNum) : bool := 0 <=? compare a b.
Definition eqb (a b : BigNum) : bool := compare a b =? 0.

(** * Addition and subtraction *)

(** The two loops: while both have digits, then on with the carry. *)
Fixpoint add_loop (x y : list Z) (carry : Z) : list Z * Z :=
  match x with
  | [] => ([], carry)
  | x0 :: x =>
      let n := w64 (x0 + hd 0 y + carry) in
      let '(r, c) := add_loop x (tl y) (Z.shiftr n 32) in (w32 n :: r, c)
  end.

Definition add_digits (a b : list Z) : list Z :=
  let '(x, y) := if (length b <=? length a)%nat then (a, b) else (b, a) in
  let '(r, carry) := add_loop x y 0 in
  if negb (carry =? 0) then r ++ [w32 carry] else r.

Fixpoint sub_loop (x y : list Z) (borrow : Z) : list Z :=
  match x with
  | [] => []
  | x0 :: x =>
      let n := w64 (x0 - hd 0 y - borrow) in
      w32 n :: sub_loop x (tl y) (Z.shiftr n 63)
  end.

(** Number of digits up to the highest one that differs. *)
Fixpoint diff_len (n : nat) (a b : list Z) : nat :=
  match n with
  | O => O
  | S n' => if digit a n' =? digit b n' then diff_len n' a b else n
  end.

Definition sub_digits (a b : list Z) : BigNum :=
  if (length b <? length a)%nat then strip_lz {| digits := sub_loop a b 0; neg := false |}
  else if (length a <? length b)%nat then strip_lz {| digits := sub_loop b a 0; neg := true |}
  else
    let xLen := diff_len (length a) a b in
    match xLen with
    | O => zero
    | S i =>
        let r x y := sub_loop (take xLen x) (take xLen y) 0 in
        if digit a i >? digit b i then strip_lz {| digits := r a b; neg := false |}
        else strip_lz {| digits := r b a; neg := true |}
    end.

(** operator+ and operator- call each other for negative operands. *)
Fixpoint plus_ (fuel : nat) (x n : BigNum) : res BigNum :=
  match fuel with
  | O => Undef
  | S fuel =>
      if neg n then minus_ fuel x (opp n)
      else if neg x then minus_ fuel n (opp x)
      else Ok {| digits := add_digits (digits x) (digits n); neg := false |}
  end
with minus_ (fuel : nat) (x n : BigNum) : res BigNum :=
  match fuel with
  | O => Undef
  | S fuel =>
      if neg n then plus_ fuel x (opp n)
      else if neg x then let! r := minus_ fuel n x in Ok (opp r)
      else Ok (sub_digits (digits x) (digits n))
  end.

(** Three calls deep for numbers without a negative zero. *)
Definition plus (x n : BigNum) : res BigNum := plus_ 4 x n.
Definition minus (x n : BigNum) : res BigNum := minus_ 4 x n.

Definition plus_int (x : BigNum) (i : Z) : res BigNum := if i =? 0 then Ok (copy x) else plus x (of_u32 i).
Definition minus_int (x : BigNum) (i : Z) : res BigNum :=
  if haslz x then Undef else if i =? 0 then Ok (copy x) else minus x (of_u32 i).

(** In-place subtraction of magnitudes; the sign is the caller's business. *)
Definition sub (x n : BigNum) : res BigNum :=
  if negb (geb (abs x) (abs n)) || (length (digits x) <? length (digits n))%nat then Undef
  else Ok (strip_lz {| digits := sub_loop (digits x) (digits n) 0; neg := neg x |}).

Definition plus_assign (x n : BigNum) : res BigNum :=
  if negb (neg x) && neg n then sub x n else plus x n.

Definition minus_assign (x n : BigNum) : res BigNum :=
  if haslz x || haslz n then Undef
  else if (length (digits n) <? length (digits x))%nat && Bool.eqb (neg x) (neg n) then sub x n
  else minus x n.

Definition minus_assign_int (x : BigNum) (i : Z) : res BigNum :=
  if haslz x then Undef
  else if neg x then minus x (of_u32 i) else sub x (of_u32 i).

(** * Shifts *)

Fixpoint shl_loop (ds : list Z) (shift ext : Z) : list Z :=
  match ds with
  | [] => [ext]
  | y :: ds =>
      let v := w64 (Z.shiftl y shift) in
      Z.lor (w32 v) ext :: shl_loop ds shift (w32 (Z.shiftr v 32))
  end.

Definition shl (x : BigNum) (shift : Z) : BigNum :=
  if shift =? 0 then copy x
  else
    let shift32 := Z.to_nat (Z.shiftr shift 5) in
    let shift := Z.land shift 31 in
    strip_lz {| digits := replicate shift32 0 ++
                  (if shift =? 0 then digits x else shl_loop (digits x) shift 0);
                neg := neg x |}.

(** From the top digit down; the digits that remain. *)
Fixpoint shr_loop (ds : list Z) (shift : Z) : list Z * Z :=
  match ds with
  | [] => ([], 0)
  | v :: ds =>
      let '(r, ext) := shr_loop ds shift in
      (Z.lor ext (Z.shiftr v shift) :: r, w32 (Z.shiftl v (32 - shift)))
  end.

Definition right_shift (n : BigNum) (shift : Z) : res BigNum :=
  let shift32 := Z.to_nat (Z.shiftr shift 5) in
  if (shift32 <? length (digits n))%nat then
    let t := strip_lz (copy n) in
    if (length (digits t) <=? shift32)%nat then Undef
    else
      let shift := Z.land shift 31 in
      let rest := drop shift32 (digits t) in
      Ok (strip_lz {| digits := if shift =? 0 then rest else (shr_loop rest shift).1; neg := neg t |})
  else Ok {| digits := [0]; neg := false |}.

Definition bit_len (x : BigNum) : Z :=
  match sig_len (length (digits x)) (digits x) with
  | O => 0
  | S i => Z.of_nat i * 32 + 1 + log2 (digit (digits x) i)
  end.

Definition byte_len (x : BigNum) : Z := (7 + bit_len x) / 8.

Definition test_bit (x : BigNum) (index : Z) : bool :=
  let d := Z.to_nat (Z.shiftr index 5) in
  (d <? length (digits x))%nat && negb (Z.land (digit (digits x) d) (w32 (Z.shiftl 1 (Z.land index 31))) =? 0).

Definition is_odd (x : BigNum) : bool := negb (Z.land (digit (digits x) 0) 1 =? 0).

(** * Multiplication *)

Fixpoint mul1_loop (ds : list Z) (b carry : Z) : list Z :=
  match ds with
  | [] => [w32 carry]
  | v :: ds =>
      let x := w64 (v * b + carry) in
      w32 x :: mul1_loop ds b (Z.shiftr x 32)
  end.

(** By one digit; small factors have cases of their own. *)
Definition mul1 (a : BigNum) (b : Z) (bneg : bool) : BigNum :=
  strip_lz
    (if b >? 2 then {| digits := mul1_loop (digits a) b 0; neg := xorb (neg a) bneg |}
     else if b =? 1 then {| digits := digits a; neg := xorb (neg a) bneg |}
     else if b =? 2 then {| digits := digits (shl a 1); neg := xorb (neg a) bneg |}
     else zero).

(** One row: [s] is the result from the place of digit [x] on. *)
Fixpoint mul_row (x : Z) (y s : list Z) (carry : Z) : list Z :=
  match y, s with
  | y0 :: y, s0 :: s =>
      let p := w64 (x * y0 + s0 + carry) in
      w32 p :: mul_row x y s (Z.shiftr p 32)
  | [], _ :: s => w32 carry :: s
  | _, [] => []
  end.

Fixpoint mul_rows (a b r : list Z) : list Z :=
  match a with
  | [] => r
  | x :: a =>
      match mul_row x b r 0 with
      | s0 :: s => s0 :: mul_rows a b s
      | [] => []
      end
  end.

Definition mul (a b : BigNum) : BigNum :=
  let '(a, b) := if (length (digits b) <? length (digits a))%nat then (b, a) else (a, b) in
  if Nat.eqb (length (digits a)) 1 then mul1 b (digit (digits a) 0) (neg a)
  else strip_lz {| digits := mul_rows (digits a) (digits b) (replicate (length (digits a) + length (digits b)) 0);
                   neg := xorb (neg a) (neg b) |}.

(** * Division *)

(** By one digit, from the top down. *)
Fixpoint div1_loop (ds : list Z) (Y : Z) : list Z * Z :=
  match ds with
  | [] => ([], 0)
  | x0 :: ds =>
      let '(q, carry) := div1_loop ds Y in
      let X := w64 (x0 + w64 (Z.shiftl carry 32)) in
      let d := X / Y in
      (w32 d :: q, w64 (X - w64 (d * Y)))
  end.

Definition with_sign (x : BigNum) (s : bool) : BigNum :=
  {| digits := digits x; neg := s && negb (eqb x zero) |}.

(** A view of the digits from place [d] on, changed by [f]. *)
Definition on_view {A} (d : nat) (x : BigNum) (f : BigNum -> res (BigNum * A)) : res (BigNum * A) :=
  if (length (digits x) <? d)%nat then Undef
  else let! r := f {| digits := drop d (digits x); neg := neg x |} in
       let '(v, a) := r in
       Ok ({| digits := take d (digits x) ++ digits v; neg := neg v |}, a).

(** [while (x >= y)] on the view; a normalized divisor fits at most once. *)
Fixpoint top_loop (fuel : nat) (x y : BigNum) (top : Z) : res (BigNum * Z) :=
  match fuel with
  | O => Undef
  | S fuel =>
      if geb x y then let! x := sub x y in top_loop fuel x y (w32 (top + 1))
      else Ok (x, top)
  end.

(** [while (mul(prod, y2, qdigit, false) > xm3) --qdigit]. *)
Fixpoint adjust_loop (fuel : nat) (y2 xm3 : BigNum) (qdigit : Z) : res Z :=
  match fuel with
  | O => Undef
  | S fuel => if gtb (mul1 y2 qdigit false) xm3 then adjust_loop fuel y2 xm3 (w32 (qdigit - 1)) else Ok qdigit
  end.

(** The digit of the quotient at place [d]; [t] is the top place of [y]. Digits
    of [x] above its length are the zeros that were stripped. *)
Definition div_digit (t d : nat) (x y : BigNum) : res (BigNum * Z) :=
  let i := (d + t + 1)%nat in
  let xd k := digit (digits x) k in
  let ymsd := digit (digits y) t in
  let y2 := {| digits := [digit (digits y) (t - 1); ymsd]; neg := false |} in
  let qdigit := if xd i =? ymsd then 0xFFFFFFFF
                else w32 (w64 (w64 (Z.shiftl (xd i) 32) + xd (i - 1)%nat) / ymsd) in
  let xm3 := {| digits := [xd (i - 2)%nat; xd (i - 1)%nat; xd i]; neg := false |} in
  let! qdigit := adjust_loop 4 y2 xm3 qdigit in
  on_view d x (fun v =>
    let! v := sub v (mul1 y qdigit false) in
    if ltb v zero then let! v := plus_assign v y in Ok (v, w32 (qdigit - 1))
    else Ok (v, qdigit)).

(** Quotient digits from place [d - 1] down to 0, least significant first. *)
Fixpoint div_loop (t d : nat) (x y : BigNum) : res (BigNum * list Z) :=
  match d with
  | O => Ok (x, [])
  | S d =>
      let! r := div_digit t d x y in
      let '(x, q) := r in
      let! r := div_loop t d x y in
      let '(x, qs) := r in
      Ok (x, qs ++ [q])
  end.

(** Long division of normalized numbers: the remainder and the quotient's digits. *)
Definition div_long (t : nat) (x y : BigNum) : res (BigNum * list Z) :=
  let d := (length (digits x) - 1 - t)%nat in
  let! r := on_view d x (fun v => top_loop 3 v y 0) in
  let '(x, top) := r in
  let! r := div_loop t d x y in
  let '(x, qs) := r in
  Ok (x, if top =? 0 then (match qs with [] => [0] | _ => qs end) else qs ++ [top]).

(** Quotient and remainder. *)
Definition div (this divisor : BigNum) : res (BigNum * BigNum) :=
  let x := abs this in
  let y := abs divisor in
  let c := compare x y in
  if c =? -1 then Ok (zero, this)
  else if c =? 0 then Ok (of_u32 1, zero)
  else
    let n := (length (digits x) - 1)%nat in
    let t := (length (digits y) - 1)%nat in
    let qneg := xorb (neg this) (neg divisor) in
    if Nat.eqb t 0 then
      let Y := digit (digits y) 0 in
      if Y =? 0 then Undef
      else
        let '(q, carry) := div1_loop (digits x) Y in
        Ok (strip_lz {| digits := q; neg := qneg |}, with_sign (of_u32 (w32 carry)) (neg this))
    else if (n <? 2)%nat then
      let X := w64 (digit (digits x) 0 + w64 (Z.shiftl (digit (digits x) 1) 32)) in
      let Y := w64 (digit (digits y) 0 + w64 (Z.shiftl (digit (digits y) 1) 32)) in
      let Q := X / Y in
      let R := w64 (X - w64 (Y * Q)) in
      let two v := w32 v :: (if Z.shiftr v 32 =? 0 then [] else [w32 (Z.shiftr v 32)]) in
      Ok (strip_lz {| digits := two Q; neg := qneg |},
          with_sign {| digits := two R; neg := false |} (neg this))
    else
      let norm := 31 - log2 (digit (digits y) t) in
      let x := shl x norm in
      let y := shl y norm in
      let! r := div_long t x y in
      let '(x, q) := r in
      let! rem := if norm =? 0 then Ok x else right_shift x norm in
      Ok (strip_lz {| digits := q; neg := qneg |}, with_sign (strip_lz rem) (neg this)).

Definition modulo (x m : BigNum) : res BigNum := let! qr := div x m in Ok (snd qr).

(** * Bytes *)

(** Up to four bytes from the end of the array make a digit. *)
Fixpoint byte_digit (k : nat) (i : Z) (p : list Z) (n : Z) : Z * list Z :=
  match k, p with
  | S k, b :: p => byte_digit k (i + 8) p (Z.lor n (w32 (Z.shiftl b i)))
  | _, _ => (n, p)
  end.

Fixpoint byte_digits (fuel : nat) (p : list Z) : list Z :=
  match fuel, p with
  | S fuel, _ :: _ => let '(n, p) := byte_digit 4 0 p 0 in n :: byte_digits fuel p
  | _, _ => []
  end.

Definition set_bytes (data : list Z) : BigNum :=
  {| digits := byte_digits (length data) (rev data); neg := false |}.

(** The bytes of the digits, most significant first. *)
Definition digit_bytes (d : Z) : list Z :=
  [Z.shiftr d 24; Z.shiftr (w32 (Z.shiftl d 8)) 24; Z.shiftr (w32 (Z.shiftl d 16)) 24; Z.shiftr (w32 (Z.shiftl d 24)) 24].
Definition all_bytes (ds : list Z) : list Z := concat (map digit_bytes (rev ds)).

(** Leading zeros are stored but not counted. The result is the buffer and the
    number of bytes gotten; a store behind the buffer is [Undef]. *)
Fixpoint get_loop (bs : list Z) (buffer : list Z) (p : nat) (len nZ : Z) : res (list Z * nat) :=
  match bs with
  | [] => Ok (buffer, p)
  | b :: bs =>
      if (p <? length buffer)%nat then
        let buffer := <[p := b]> buffer in
        let nZ := Z.lor nZ b in
        let '(p, len) := if negb (nZ =? 0) then (S p, w64 (len - 1)) else (p, len) in
        if len =? 0 then Ok (buffer, p) else get_loop bs buffer p len nZ
      else Undef
  end.

Definition get_bytes (x : BigNum) (buffer : list Z) (pad : bool) : res (list Z * nat) :=
  let len := zlen buffer in
  if pad && (byte_len x <? len) then
    let padLen := Z.to_nat (len - byte_len x) in
    get_loop (all_bytes (digits x)) (replicate padLen 0 ++ drop padLen buffer) padLen (byte_len x) 0
  else get_loop (all_bytes (digits x)) buffer 0 len 0.

(** * Hexadecimal text *)

Definition hex_value (c : Z) : option Z :=
  if (48 <=? c) && (c <=? 57) then Some (c - 48)
  else if (97 <=? c) && (c <=? 102) then Some (c + 10 - 97)
  else if (65 <=? c) && (c <=? 70) then Some (c + 10 - 65)
  else None.

Fixpoint hex_digit (k : nat) (i : Z) (p : list Z) (n : Z) : option (Z * list Z) :=
  match k, p with
  | S k, c :: p => v ← hex_value c; hex_digit k (i + 4) p (Z.lor n (w32 (Z.shiftl v i)))
  | _, _ => Some (n, p)
  end.

Fixpoint hex_number (fuel : nat) (p : list Z) : option (list Z) :=
  match fuel, p with
  | S fuel, _ :: _ => '(n, p) ← hex_digit 8 0 p 0; ns ← hex_number fuel p; Some (n :: ns)
  | _, _ => Some []
  end.

Fixpoint skip_zeros (p : list Z) : list Z :=
  match p with c :: q => if c =? 48 then skip_zeros q else p | [] => [] end.

(** A sign; the prefix 0x. *)
Definition skip_sign (p : list Z) : list Z * bool :=
  match p with c :: q => if c =? 45 then (q, true) else (p, false) | [] => ([], false) end.
Definition skip_prefix (p : list Z) : list Z :=
  match p with c :: x :: q => if (c =? 48) && (x =? 120) then q else p | _ => p end.

(** [None] is a return of false. *)
Definition set_hex (number : list Z) : option BigNum :=
  let '(p, neg) := skip_sign number in
  let p := skip_zeros (skip_prefix p) in
  match p with
  | [] => Some zero
  | _ => ds ← hex_number (length p) (rev p); Some {| digits := ds; neg := neg |}
  end.

Definition hex_char (toLower : bool) (v : Z) : Z :=
  if v <? 10 then v + 48 else if toLower then v + 87 else v + 55.

(** Eight characters, most significant first. *)
Fixpoint fmt_digit (k : nat) (toLower : bool) (d : Z) : list Z :=
  match k with
  | O => []
  | S k => fmt_digit k toLower (d / 16) ++ [hex_char toLower (d mod 16)]
  end.

Definition get_hex (x : BigNum) (toLower : bool) : list Z :=
  match skip_zeros (48 :: concat (map (fmt_digit 8 toLower) (rev (digits x)))) with
  | [] => [48]
  | s => if neg x then 45 :: s else s
  end.

(** * Powers and inverses *)

(** The loops over the bits of the exponent, from the top. *)
Fixpoint exp_loop (i : nat) (x e a : BigNum) : BigNum :=
  match i with
  | O => a
  | S i => let a := mul a a in
           exp_loop i x e (if test_bit e (Z.of_nat i) then mul a x else a)
  end.

Definition exp (x e : BigNum) : BigNum := strip_lz (exp_loop (Z.to_nat (bit_len e)) x e (of_u32 1)).

Fixpoint mod_exp_loop (i : nat) (x e m a : BigNum) : res BigNum :=
  match i with
  | O => Ok a
  | S i => let! a := modulo (mul a a) m in
           let! a := if test_bit e (Z.of_nat i) then modulo (mul a x) m else Ok a in
           mod_exp_loop i x e m a
  end.

(** -1/b modulo 2^32 for odd [b]. *)
Definition monty_rho (b : Z) : Z :=
  if Z.land b 1 =? 0 then 0
  else
    let x := w64 (Z.shiftl (Z.land (b + 2) 4) 1 + b) in
    let x := w64 (x * (2 - b * x)) in
    let x := w64 (x * (2 - b * x)) in
    let x := w64 (x * (2 - b * x)) in
    w32 (- x).

(** The inner loop: digits of the running sum plus [X * y + u * m]. *)
Fixpoint monty_row (X u : Z) (y m r : list Z) (carry : Z) : list Z :=
  match y, m, r with
  | y0 :: y, m0 :: m, r0 :: r =>
      let Y := w64 (X * y0) in
      let M := w64 (u * m0) in
      let R := w64 (r0 + carry + w32 Y + w32 M) in
      w32 R :: monty_row X u y m r (w64 (Z.shiftr R 32 + Z.shiftr Y 32 + Z.shiftr M 32))
  | _, _, r0 :: _ => let R := w64 (r0 + carry) in [w32 R; w32 (Z.shiftr R 32)]
  | _, _, [] => []
  end.

(** Each row drops its lowest digit, which is zero. *)
Fixpoint monty_rows (x y m r : list Z) (rho : Z) : list Z :=
  match x with
  | [] => r
  | X :: x =>
      let u := w32 (w64 (w64 (hd 0 r + w64 (X * hd 0 y)) * rho)) in
      monty_rows x y m (tl (monty_row X u y m r 0)) rho
  end.

Definition pad_to (len : nat) (ds : list Z) : list Z := ds ++ replicate (len - length ds) 0.

Definition monty_mul (this n m : BigNum) (rho : Z) : res BigNum :=
  let len := length (digits m) in
  if (len <? length (digits this))%nat || (len <? length (digits n))%nat then Undef
  else
    let r := monty_rows (pad_to len (digits this)) (pad_to len (digits n)) (digits m)
               (replicate (S len) 0) rho in
    let r := {| digits := r; neg := false |} in
    let! r := if geb r m then sub r m else Ok r in
    Ok (strip_lz r).

Fixpoint monty_loop (i : nat) (x e m a : BigNum) (rho : Z) : res BigNum :=
  match i with
  | O => Ok a
  | S i => let! a := monty_mul a a m rho in
           let! a := if test_bit e (Z.of_nat i) then monty_mul a x m rho else Ok a in
           monty_loop i x e m a rho
  end.

Definition power_of_base (n : nat) : BigNum := {| digits := replicate n 0 ++ [1]; neg := false |}.

Definition monty_mod_exp (this e m : BigNum) : res BigNum :=
  if negb (is_odd m) then Undef
  else
    let rho := monty_rho (digit (digits m) 0) in
    let len := length (digits m) in
    let! a := modulo (power_of_base len) m in
    let! rr := modulo (power_of_base (len * 2)) m in
    let! x := monty_mul this rr m rho in
    let! a := monty_loop (Z.to_nat (bit_len e)) x e m a rho in
    monty_mul a (of_u32 1) m rho.

Definition mod_exp (this e m : BigNum) : res BigNum :=
  let x := copy this in
  let! x := if (length (digits m) <? length (digits x))%nat then modulo x m else Ok x in
  if is_odd m then monty_mod_exp x e m
  else let! a := mod_exp_loop (Z.to_nat (bit_len e)) x e m (of_u32 1) in Ok (strip_lz a).

(** The extended Euclidean algorithm; [v3] decreases. *)
Fixpoint inv_loop (fuel : nat) (u1 u3 v1 v3 : BigNum) (iter : bool) : res (BigNum * BigNum * bool) :=
  match fuel with
  | O => Undef
  | S fuel =>
      if eqb v3 zero then Ok (u1, u3, iter)
      else
        let! qr := div u3 v3 in
        let! t1 := plus u1 (mul (fst qr) v1) in
        inv_loop fuel v1 v3 t1 (snd qr) (negb iter)
  end.

Definition mod_inv (this modulus : BigNum) : res BigNum :=
  let! r := inv_loop (64 * length (digits modulus) + 3) (of_u32 1) (copy this) zero (copy modulus) true in
  let '(u1, u3, iter) := r in
  if negb (eqb u3 (of_u32 1)) then Ok zero
  else if iter then Ok u1 else minus modulus u1.
