(* ===== verification/BigNumProofs.v ===== *)
(** The arithmetic of BigNum against the integers: comparison, addition,
    subtraction, multiplication and shifts. *)
From S2P Require Import Prelude Types BigNum.

#[global] Arguments strip_lz : simpl never.
#[global] Arguments Z.pow : simpl never.
#[global] Arguments Z.mul : simpl never.

(** * The value of digits *)

Fixpoint val (ds : list Z) : Z :=
  match ds with [] => 0 | d :: ds => d + 2 ^ 32 * val ds end.

Definition is_digit (d : Z) : Prop := 0 <= d < 2 ^ 32.
Abbreviation ok ds := (Forall is_digit ds).

Definition zval (x : BigNum) : Z := if neg x then - val (digits x) else val (digits x).

(** Numbers as the operations leave them: no leading zeros, no negative zero. *)
Record wf (x : BigNum) : Prop := {
  wf_ok : ok (digits x);
  wf_ne : digits x <> [];
  wf_lz : haslz x = false;
  wf_sign : neg x = true -> val (digits x) <> 0;
}.

Abbreviation base n := (2 ^ (32 * Z.of_nat n)).

Lemma base_S n : base (S n) = 2 ^ 32 * base n.
Proof. rewrite Nat2Z.inj_succ, Z.mul_succ_r, Z.pow_add_r by lia. lia. Qed.

Lemma base_add n m : base (n + m) = base n * base m.
Proof. rewrite Nat2Z.inj_add, Z.mul_add_distr_l, Z.pow_add_r by lia. done. Qed.

Lemma base_pos n : 0 < base n.
Proof. apply Z.pow_pos_nonneg; lia. Qed.

Lemma val_nonneg ds : ok ds -> 0 <= val ds.
Proof. induction 1 as [|d ds Hd _ IH]; simpl; unfold is_digit in *; lia. Qed.

Lemma val_bound ds : ok ds -> 0 <= val ds < base (length ds).
Proof.
  induction 1 as [|d ds Hd _ IH]; [simpl; lia|]. cbn [length val]. rewrite base_S. unfold is_digit in Hd. lia.
Qed.

Lemma val_app a b : val (a ++ b) = val a + base (length a) * val b.
Proof.
  induction a as [|d a IH]; [cbn [app length val]; change (base 0) with 1; lia|].
  cbn [app length val]. rewrite IH, base_S. lia.
Qed.

Lemma val_replicate n : val (replicate n 0) = 0.
Proof. induction n; simpl; lia. Qed.

Lemma ok_replicate n : ok (replicate n 0).
Proof. apply Forall_replicate. unfold is_digit. lia. Qed.

Lemma ok_take n ds : ok ds -> ok (take n ds).
Proof. apply Forall_take. Qed.

Lemma ok_drop n ds : ok ds -> ok (drop n ds).
Proof. apply Forall_drop. Qed.

Lemma val_take_drop n ds : val ds = val (take n ds) + base (length (take n ds)) * val (drop n ds).
Proof. rewrite <- val_app. by rewrite take_drop. Qed.

Lemma digit_ok ds i : ok ds -> is_digit (digit ds i).
Proof.
  intros H. unfold digit. revert i. induction H as [|d ds Hd _ IH]; intros [|i]; simpl; try done; unfold is_digit; lia.
Qed.

Lemma digit_out ds i : (length ds <= i)%nat -> digit ds i = 0.
Proof. apply nth_overflow. Qed.

Lemma val_take_S n ds : val (take (S n) ds) = val (take n ds) + base n * digit ds n.
Proof.
  unfold digit. revert ds. induction n as [|n IH]; intros [|d ds]; simpl take; cbn [nth].
  - simpl. lia.
  - change (base 0) with 1. cbn [val]. rewrite take_0. simpl. lia.
  - simpl. lia.
  - cbn [val]. rewrite IH, base_S. lia.
Qed.

Lemma val_top ds : ds <> [] -> val ds = val (take (length ds - 1) ds) + base (length ds - 1) * digit ds (length ds - 1).
Proof.
  intros H. rewrite <- val_take_S. rewrite firstn_all2; [done|]. destruct ds; simpl; [done|lia].
Qed.

(** * Words *)

Lemma w32_range v : is_digit (w32 v).
Proof. apply Z.mod_pos_bound. lia. Qed.

Lemma w32_small v : is_digit v -> w32 v = v.
Proof. apply Z.mod_small. Qed.

Lemma w64_small v : 0 <= v < 2 ^ 64 -> w64 v = v.
Proof. apply Z.mod_small. Qed.

Lemma shr32 v : Z.shiftr v 32 = v / 2 ^ 32.
Proof. apply Z.shiftr_div_pow2. lia. Qed.

Lemma split32 v : v = w32 v + 2 ^ 32 * Z.shiftr v 32.
Proof. rewrite shr32. unfold w32. pose proof (Z.div_mod v (2 ^ 32)). lia. Qed.

Lemma shr32_bound v c : 0 <= v < 2 ^ 32 * c -> 0 <= Z.shiftr v 32 < c.
Proof. intros. rewrite shr32. split; [apply Z.div_pos; lia|apply Z.div_lt_upper_bound; lia]. Qed.

(** * Leading zeros *)

Lemma strip_len_spec n ds :
  (0 < n)%nat -> (0 < strip_len n ds <= n)%nat /\ val (take (strip_len n ds) ds) = val (take n ds) /\
  (strip_len n ds = 1%nat \/ digit ds (strip_len n ds - 1) <> 0).
Proof.
  induction n as [|n IH]; intros Hn; [lia|]. destruct n as [|n]; [cbn; auto|].
  change (strip_len (S (S n)) ds) with (if digit ds (S n) =? 0 then strip_len (S n) ds else S (S n)).
  destruct (Z.eqb_spec (digit ds (S n)) 0) as [E|E].
  - destruct IH as (? & Hv & ?); [lia|]. split_and!; [lia..| |done]. rewrite Hv, (val_take_S (S n)), E. lia.
  - split_and!; [lia..|done|]. right. replace (S (S n) - 1)%nat with (S n) by lia. done.
Qed.

Lemma digit_take ds n i : (i < n)%nat -> digit (take n ds) i = digit ds i.
Proof. unfold digit. revert n i. induction ds; intros [|n] [|i] H; simpl; try done; try lia. apply IHds. lia. Qed.

Lemma val_zero_digit ds : ok ds -> val ds = 0 -> forall i, digit ds i = 0.
Proof.
  unfold digit. induction 1 as [|d ds Hd Hok IH]; simpl; intros Hv [|i]; try done; pose proof (val_nonneg ds Hok);
    unfold is_digit in Hd; [lia|apply IH; lia].
Qed.

Lemma strip_digits x : digits x <> [] ->
  val (digits (strip_lz x)) = val (digits x) /\ digits (strip_lz x) <> [] /\ haslz (strip_lz x) = false /\
  (length (digits (strip_lz x)) <= length (digits x))%nat.
Proof.
  intros Hne. assert (0 < length (digits x))%nat as Hl by (destruct (digits x); [done|simpl; lia]).
  destruct (strip_len_spec (length (digits x)) (digits x) Hl) as (Hk & Hv & Hd).
  unfold strip_lz, haslz. cbn [digits]. set (k := strip_len _ _) in *.
  rewrite firstn_all in Hv. assert (length (take k (digits x)) = k) as Hlen by (rewrite length_take; lia).
  split_and!; [done| | |rewrite Hlen; lia].
  - intros E. rewrite E in Hlen. simpl in Hlen. lia.
  - rewrite Hlen. destruct Hd as [->|Hd]; [done|].
    rewrite digit_take by lia. apply Z.eqb_neq in Hd as ->. apply andb_false_r.
Qed.

Lemma strip_nonneg x : neg x = false -> neg (strip_lz x) = false.
Proof. intros H. unfold strip_lz. cbn [neg]. rewrite H. by case_match. Qed.

Lemma strip_ok x : ok (digits x) -> ok (digits (strip_lz x)).
Proof. apply ok_take. Qed.

Lemma haslz_top x : digits x <> [] -> haslz x = false ->
  length (digits x) = 1%nat \/ digit (digits x) (length (digits x) - 1) <> 0.
Proof.
  unfold haslz. intros Hne H. apply andb_false_iff in H as [H|H].
  - left. apply Nat.ltb_ge in H. destruct (digits x); simpl in *; [done|lia].
  - right. by apply Z.eqb_neq.
Qed.

(** A number without leading zeros is zero only as the digit zero. *)
Lemma haslz_val x : ok (digits x) -> digits x <> [] -> haslz x = false ->
  (val (digits x) = 0 -> digits x = [0]) /\
  ((1 < length (digits x))%nat -> base (length (digits x) - 1) <= val (digits x)).
Proof.
  intros Hok Hne Hlz. pose proof (val_top _ Hne) as Hv.
  pose proof (val_nonneg _ (ok_take (length (digits x) - 1) _ Hok)) as Ht.
  pose proof (digit_ok _ (length (digits x) - 1) Hok) as Hd. unfold is_digit in Hd.
  pose proof (base_pos (length (digits x) - 1)) as Hb.
  destruct (haslz_top x Hne Hlz) as [Hl|Hn].
  - split; [|lia]. intros H0. destruct (digits x) as [|d [|? ?]]; simpl in *; [done| |lia]. f_equal. lia.
  - split; [intros H0; nia|]. intros _. nia.
Qed.

Lemma strip_wf x : ok (digits x) -> digits x <> [] -> wf (strip_lz x) /\ zval (strip_lz x) = zval x.
Proof.
  intros Hok Hne. destruct (strip_digits x Hne) as (Hv & Hne' & Hlz & _).
  pose proof (strip_ok x Hok) as Hok'. destruct (haslz_val _ Hok' Hne' Hlz) as [Hz _].
  assert (val (digits x) = 0 -> neg (strip_lz x) = false) as Hs.
  { intros H0. rewrite <- Hv in H0. specialize (Hz H0). unfold strip_lz in *. cbn [digits neg] in *.
    assert (strip_len (length (digits x)) (digits x) = 1%nat) as E.
    { apply (f_equal length) in Hz. rewrite length_take in Hz. simpl in Hz.
      destruct (strip_len_spec (length (digits x)) (digits x)) as (? & _); [destruct (digits x); [done|simpl; lia]|]. lia. }
    rewrite E. simpl. by rewrite (val_zero_digit (digits x) Hok) by lia. }
  split; [split; [done..|]|].
  - rewrite Hv. intros Hn H0. rewrite Hs in Hn by done. done.
  - unfold zval. rewrite Hv. destruct (Z.eq_dec (val (digits x)) 0) as [H0|H0].
    + rewrite H0. by destruct (neg _), (neg _).
    + assert (neg (strip_lz x) = neg x) as ->; [|done]. unfold strip_lz. cbn [neg].
      destruct (_ && _) eqn:E; [|done]. exfalso. apply andb_true_iff in E as [E1 E2].
      apply Nat.eqb_eq in E1. apply Z.eqb_eq in E2. apply H0. rewrite <- Hv. unfold strip_lz. cbn [digits].
      rewrite E1. destruct (digits x); [done|]. simpl. unfold digit in E2. simpl in E2. lia.
Qed.

Lemma copy_wf x : wf x -> wf (copy x) /\ zval (copy x) = zval x.
Proof. intros []. by apply strip_wf. Qed.

Lemma opp_zval x : ok (digits x) -> digits x <> [] -> zval (opp x) = - zval x /\
  digits (opp x) = digits (strip_lz x) /\ (zval x <> 0 -> wf (opp x)).
Proof.
  intros Hok Hne. destruct (strip_wf x Hok Hne) as [[W1 W2 W3 W4] Hz]. unfold opp, copy.
  split_and!; [|done|].
  - rewrite <- Hz. unfold zval. cbn [digits neg]. destruct (neg (strip_lz x)); cbn [negb]; lia.
  - intros Hnz. split; try done. cbn [digits neg]. intros _ H0. apply Hnz. rewrite <- Hz. unfold zval. rewrite H0. by case_match.
Qed.

Lemma abs_spec x : wf x -> wf (abs x) /\ zval (abs x) = Z.abs (zval x) /\ neg (abs x) = false /\ digits (abs x) = digits (strip_lz x).
Proof.
  intros Hx. pose proof Hx as [W1 W2 W3 W4]. pose proof (val_nonneg _ W1) as Hp.
  destruct (strip_wf x W1 W2) as [Hs Hz]. unfold abs. destruct (neg x) eqn:En.
  - specialize (W4 eq_refl). destruct (opp_zval x W1 W2) as (Ho & Hd & Hw).
    assert (zval x = - val (digits x)) as Ex by (unfold zval; by rewrite En).
    split_and!; [apply Hw; lia|lia| |done]. unfold opp, copy. cbn [neg].
    assert (neg (strip_lz x) = true) as ->; [|done].
    destruct (neg (strip_lz x)) eqn:E; [done|]. exfalso. unfold zval in Hz. rewrite E, En in Hz.
    pose proof (val_nonneg _ (strip_ok x W1)). lia.
  - unfold copy. assert (zval x = val (digits x)) as Ex by (unfold zval; by rewrite En).
    split_and!; [done|lia| |done]. unfold strip_lz. cbn [neg]. case_match; done.
Qed.

(** A well-formed number is not changed by stripping. *)
Lemma strip_len_id n ds : n = 1%nat \/ digit ds (n - 1) <> 0 -> strip_len n ds = n.
Proof.
  intros H. destruct n as [|[|n]]; [done..|]. cbn [strip_len].
  destruct H as [H|H]; [done|]. replace (S (S n) - 1)%nat with (S n) in H by lia.
  by apply Z.eqb_neq in H as ->.
Qed.

Lemma strip_id x : digits x <> [] -> haslz x = false -> digits (strip_lz x) = digits x.
Proof.
  intros Hne Hlz. unfold strip_lz. cbn [digits]. rewrite strip_len_id by (by apply haslz_top). apply firstn_all.
Qed.

(** * Comparison *)

Lemma sig_len_spec n ds :
  (sig_len n ds <= n)%nat /\ val (take (sig_len n ds) ds) = val (take n ds) /\
  (sig_len n ds = O \/ digit ds (sig_len n ds - 1) <> 0).
Proof.
  induction n as [|n IH]; [cbn; auto|]. cbn [sig_len]. destruct (Z.eqb_spec (digit ds n) 0) as [E|E].
  - destruct IH as (? & Hv & ?). split_and!; [lia| |done]. rewrite Hv, val_take_S, E. lia.
  - split_and!; [lia|done|]. right. by replace (S n - 1)%nat with n by lia.
Qed.

Lemma sig_len_bounds n ds : ok ds ->
  val (take n ds) < base (sig_len n ds) /\ (sig_len n ds <> O -> base (sig_len n ds - 1) <= val (take n ds)).
Proof.
  intros Hok. destruct (sig_len_spec n ds) as (Hl & Hv & Hd). rewrite <- Hv.
  pose proof (val_bound _ (ok_take (sig_len n ds) ds Hok)) as Hb.
  assert (base (length (take (sig_len n ds) ds)) <= base (sig_len n ds)).
  { apply Z.pow_le_mono_r; [lia|]. rewrite length_take. lia. }
  split; [lia|]. intros Hn. destruct Hd as [Hd|Hd]; [done|].
  destruct (sig_len n ds) as [|k]; [done|]. replace (S k - 1)%nat with k in * by lia. rewrite val_take_S.
  pose proof (val_nonneg _ (ok_take k ds Hok)). pose proof (digit_ok ds k Hok) as Hk. unfold is_digit in Hk.
  pose proof (base_pos k). nia.
Qed.

Lemma cmp_digits_spec n a b : ok a -> ok b -> cmp_digits n a b = Z.sgn (val (take n a) - val (take n b)).
Proof.
  intros Ha Hb. induction n as [|n IH]; [done|]. cbn [cmp_digits]. rewrite !val_take_S.
  pose proof (val_bound _ (ok_take n a Ha)) as Ba. pose proof (val_bound _ (ok_take n b Hb)) as Bb.
  assert (forall l : list Z, base (length (take n l)) <= base n).
  { intros l. apply Z.pow_le_mono_r; [lia|]. rewrite length_take. lia. }
  pose proof (H a). pose proof (H b). pose proof (base_pos n).
  destruct (Z.eqb_spec (digit a n) (digit b n)) as [->|E].
  - rewrite IH. f_equal. lia.
  - destruct (Z.gtb_spec (digit a n) (digit b n)); symmetry; [apply Z.sgn_pos|apply Z.sgn_neg]; nia.
Qed.

Lemma sgn_lt a b : a < b -> Z.sgn (a - b) = -1.
Proof. intros. apply Z.sgn_neg. lia. Qed.
Lemma sgn_gt a b : b < a -> Z.sgn (a - b) = 1.
Proof. intros. apply Z.sgn_pos. lia. Qed.

(** Magnitudes are compared right, with or without leading zeros. *)
Lemma compare_magnitude a b :
  ok (digits a) -> ok (digits b) ->
  neg a && negb (val (digits a) =? 0) = neg b && negb (val (digits b) =? 0) ->
  compare a b = Z.sgn (val (digits a) - val (digits b)).
Proof.
  intros Ha Hb Hs. unfold compare.
  assert (forall ds, ok ds -> Nat.eqb (sig_len (length ds) ds) 0 = (val ds =? 0)) as Hz.
  { intros ds Hok. destruct (sig_len_bounds (length ds) ds Hok) as [H1 H2]. rewrite firstn_all in H1, H2.
    pose proof (val_nonneg ds Hok). destruct (Nat.eqb_spec (sig_len (length ds) ds) 0) as [E|E].
    - rewrite E in H1. change (base 0) with 1 in H1. symmetry. apply Z.eqb_eq. lia.
    - specialize (H2 E). pose proof (base_pos (sig_len (length ds) ds - 1)). symmetry. apply Z.eqb_neq. lia. }
  rewrite (Hz _ Ha), (Hz _ Hb), Hs, Bool.eqb_reflx. cbn [negb].
  destruct (sig_len_bounds (length (digits a)) _ Ha) as [A1 A2]. destruct (sig_len_bounds (length (digits b)) _ Hb) as [B1 B2].
  destruct (sig_len_spec (length (digits a)) (digits a)) as (_ & A3 & _).
  destruct (sig_len_spec (length (digits b)) (digits b)) as (_ & B3 & _).
  rewrite firstn_all in *. set (la := sig_len _ (digits a)) in *. set (lb := sig_len _ (digits b)) in *.
  assert (forall n m, (n < m)%nat -> base n <= base (m - 1)) as Hm by (intros; apply Z.pow_le_mono_r; lia).
  destruct (Nat.eqb_spec la lb) as [E|E].
  - rewrite cmp_digits_spec by done. rewrite A3, E, B3. done.
  - destruct (Nat.ltb_spec lb la) as [Hl|Hl]; symmetry; [apply sgn_gt|apply sgn_lt].
    + specialize (Hm lb la Hl). lia.
    + specialize (Hm la lb). lia.
Qed.

(** Numbers of different signs are told apart, two negative ones the wrong way. *)
Lemma compare_wf a b : wf a -> wf b ->
  compare a b = if neg a && neg b then Z.sgn (zval b - zval a) else Z.sgn (zval a - zval b).
Proof.
  intros [Wa1 Wa2 Wa3 Wa4] [Wb1 Wb2 Wb3 Wb4]. pose proof (val_nonneg _ Wa1). pose proof (val_nonneg _ Wb1).
  assert (forall x, (neg x = true -> val (digits x) <> 0) -> neg x && negb (val (digits x) =? 0) = neg x) as Hn.
  { intros x Hx. destruct (neg x); [|done]. specialize (Hx eq_refl). by apply Z.eqb_neq in Hx as ->. }
  destruct (Bool.bool_dec (neg a) (neg b)) as [E|E].
  - rewrite compare_magnitude; [|done..|by rewrite !Hn]. unfold zval. rewrite E.
    destruct (neg b); simpl; f_equal; lia.
  - unfold zval, compare.
    assert (forall x, ok (digits x) -> (neg x = true -> val (digits x) <> 0) ->
      neg x && negb (Nat.eqb (sig_len (length (digits x)) (digits x)) 0) = neg x) as Hz.
    { intros x Hok Hx. destruct (neg x); [|done]. specialize (Hx eq_refl). simpl.
      destruct (Nat.eqb_spec (sig_len (length (digits x)) (digits x)) 0) as [E0|]; [|done]. exfalso.
      destruct (sig_len_bounds (length (digits x)) _ Hok) as [H1 _]. rewrite E0, firstn_all in H1.
      change (base 0) with 1 in H1. pose proof (val_nonneg _ Hok). lia. }
    rewrite !Hz by done. destruct (neg a), (neg b); try done; simpl; symmetry; [apply sgn_lt|apply sgn_gt];
      try specialize (Wa4 eq_refl); try specialize (Wb4 eq_refl); lia.
Qed.

(** * Addition *)

Lemma ok_hd ds : ok ds -> is_digit (hd 0 ds).
Proof. destruct 1; simpl; [unfold is_digit; lia|done]. Qed.

Lemma ok_tl ds : ok ds -> ok (tl ds).
Proof. by destruct 1. Qed.

Lemma val_hd_tl ds : val ds = hd 0 ds + 2 ^ 32 * val (tl ds).
Proof. destruct ds; simpl; lia. Qed.

Lemma add_loop_spec x y c :
  ok x -> ok y -> (length y <= length x)%nat -> 0 <= c <= 1 ->
  let '(r, c') := add_loop x y c in
  ok r /\ length r = length x /\ 0 <= c' <= 1 /\ val r + base (length x) * c' = val x + val y + c.
Proof.
  intros Hx. revert y c. induction Hx as [|x0 x Hx0 _ IH]; intros y c Hy Hl Hc.
  - destruct y; [|simpl in Hl; lia]. simpl. change (base 0) with 1. split_and!; (done || lia).
  - cbn [add_loop]. pose proof (ok_hd y Hy) as Hy0. unfold is_digit in *.
    rewrite w64_small by lia. set (n := x0 + hd 0 y + c).
    pose proof (shr32_bound n 2 ltac:(lia)) as Hn.
    specialize (IH (tl y) (Z.shiftr n 32) (ok_tl y Hy)).
    destruct (add_loop x (tl y) (Z.shiftr n 32)) as [r c'].
    destruct IH as (Hr & Hlen & Hc' & Hv); [destruct y; simpl in *; lia|lia|].
    split_and!; [constructor; [apply w32_range|done]|simpl; lia|lia|lia|].
    cbn [length val]. rewrite base_S, (val_hd_tl y). pose proof (split32 n) as Hs. subst n. lia.
Qed.

Lemma add_digits_spec a b :
  ok a -> ok b -> ok (add_digits a b) /\ val (add_digits a b) = val a + val b /\
  (length a <= length (add_digits a b))%nat.
Proof.
  intros Ha Hb. unfold add_digits.
  assert (forall x y, ok x -> ok y -> (length y <= length x)%nat ->
    let '(r, carry) := add_loop x y 0 in
    let s := if negb (carry =? 0) then r ++ [w32 carry] else r in
    ok s /\ val s = val x + val y /\ (length x <= length s)%nat) as H.
  { intros x y Hx Hy Hl. pose proof (add_loop_spec x y 0 Hx Hy Hl) as H.
    destruct (add_loop x y 0) as [r c]. destruct H as (Hr & Hlen & Hc & Hv); [lia|].
    destruct (Z.eqb_spec c 0) as [->|Hnz]; cbn [negb].
    - split_and!; [done|lia|lia].
    - assert (c = 1) as -> by lia. rewrite w32_small by (unfold is_digit; lia). split_and!.
      + apply Forall_app. split; [done|]. repeat constructor; lia.
      + rewrite val_app, Hlen. simpl. lia.
      + rewrite length_app. lia. }
  destruct (Nat.leb_spec (length b) (length a)) as [Hl|Hl].
  - specialize (H a b Ha Hb Hl). by destruct (add_loop a b 0).
  - specialize (H b a Hb Ha). destruct (add_loop b a 0). destruct H as (? & ? & ?); [lia|]. split_and!; [done|lia|lia].
Qed.

(** * Subtraction *)

Lemma sub_step x0 y0 b : is_digit x0 -> is_digit y0 -> 0 <= b <= 1 ->
  let n := w64 (x0 - y0 - b) in
  0 <= Z.shiftr n 63 <= 1 /\ w32 n = x0 - y0 - b + 2 ^ 32 * Z.shiftr n 63.
Proof.
  intros Hx Hy Hb. cbv zeta. unfold is_digit in *. unfold w64, w32. rewrite Z.shiftr_div_pow2 by lia.
  destruct (Z.leb_spec 0 (x0 - y0 - b)).
  - rewrite (Z.mod_small _ (2 ^ 64)) by lia. rewrite (Z.mod_small _ (2 ^ 32)), Z.div_small by lia. lia.
  - assert ((x0 - y0 - b) mod 2 ^ 64 = x0 - y0 - b + 2 ^ 64) as ->.
    { rewrite <- (Z.mod_add _ 1) by lia. apply Z.mod_small. lia. }
    assert ((x0 - y0 - b + 2 ^ 64) / 2 ^ 63 = 1) as ->.
    { symmetry. apply Z.div_unique with (x0 - y0 - b + 2 ^ 63); lia. }
    split; [lia|]. replace (x0 - y0 - b + 2 ^ 64) with (x0 - y0 - b + 2 ^ 32 + (2 ^ 32 - 1) * 2 ^ 32) by lia.
    rewrite Z.mod_add by lia. rewrite Z.mod_small by lia. lia.
Qed.

Lemma sub_loop_spec x y b :
  ok x -> ok y -> (length y <= length x)%nat -> 0 <= b <= 1 ->
  ok (sub_loop x y b) /\ length (sub_loop x y b) = length x /\
  exists b', 0 <= b' <= 1 /\ val (sub_loop x y b) = val x - val y - b + base (length x) * b'.
Proof.
  intros Hx. revert y b. induction Hx as [|x0 x Hx0 _ IH]; intros y b Hy Hl Hb.
  - destruct y; [|simpl in Hl; lia]. simpl. split_and!; [done..|]. exists b. change (base 0) with 1. lia.
  - cbn [sub_loop]. destruct (sub_step x0 (hd 0 y) b Hx0 (ok_hd y Hy) Hb) as [Hb' Hs].
    destruct (IH (tl y) (Z.shiftr (w64 (x0 - hd 0 y - b)) 63) (ok_tl y Hy)) as (Hr & Hlen & b' & Hbb & Hv);
      [destruct y; simpl in *; lia|done|].
    split_and!; [constructor; [apply w32_range|done]|simpl; lia|]. exists b'. split; [done|].
    cbn [length val]. rewrite Hs, Hv, base_S, (val_hd_tl y). lia.
Qed.

Lemma sub_loop_ge x y : ok x -> ok y -> (length y <= length x)%nat -> val y <= val x ->
  ok (sub_loop x y 0) /\ length (sub_loop x y 0) = length x /\ val (sub_loop x y 0) = val x - val y.
Proof.
  intros Hx Hy Hl Hle. destruct (sub_loop_spec x y 0 Hx Hy Hl) as (Hr & Hlen & b' & Hb & Hv); [lia|].
  pose proof (val_bound _ Hr) as Hbd. pose proof (val_bound _ Hx) as Hbx. pose proof (val_nonneg _ Hy). rewrite Hlen in Hbd.
  pose proof (base_pos (length x)). split_and!; [done..|]. assert (b' = 0) by nia. subst. lia.
Qed.

Lemma diff_len_spec n a b :
  (diff_len n a b <= n)%nat /\
  (val (take n a) - val (take n b) = val (take (diff_len n a b) a) - val (take (diff_len n a b) b)) /\
  (diff_len n a b <> O -> digit a (diff_len n a b - 1) <> digit b (diff_len n a b - 1)).
Proof.
  induction n as [|n IH]; [cbn; auto|]. cbn [diff_len]. destruct (Z.eqb_spec (digit a n) (digit b n)) as [E|E].
  - destruct IH as (? & Hv & ?). split_and!; [lia| |done]. rewrite !val_take_S, E. lia.
  - split_and!; [lia|done|]. intros _. by replace (S n - 1)%nat with n by lia.
Qed.

(** More digits, more value. *)
Lemma wf_length a b : wf a -> wf b -> (length (digits a) < length (digits b))%nat -> val (digits a) < val (digits b).
Proof.
  intros [Wa1 Wa2 _ _] [Wb1 Wb2 Wb3 _] Hl. destruct (haslz_val b Wb1 Wb2 Wb3) as [_ Hb].
  pose proof (val_bound _ Wa1) as Ba. assert (0 < length (digits a))%nat by (destruct (digits a); simpl; [done|lia]).
  specialize (Hb ltac:(lia)). assert (base (length (digits a)) <= base (length (digits b) - 1)); [|lia].
  apply Z.pow_le_mono_r; lia.
Qed.

Lemma ok_strip_zval ds s : ok ds -> ds <> [] ->
  wf (strip_lz {| digits := ds; neg := s |}) /\
  zval (strip_lz {| digits := ds; neg := s |}) = if s then - val ds else val ds.
Proof. intros. by apply (strip_wf {| digits := ds; neg := s |}). Qed.

Lemma zero_wf : wf zero.
Proof. split; try done. repeat constructor; unfold is_digit; lia. Qed.

Lemma sub_digits_spec a b : wf a -> wf b -> wf (sub_digits (digits a) (digits b)) /\
  zval (sub_digits (digits a) (digits b)) = val (digits a) - val (digits b).
Proof.
  intros Ha Hb. pose proof Ha as [Wa1 Wa2 _ _]. pose proof Hb as [Wb1 Wb2 _ _]. unfold sub_digits.
  assert (forall x y, ok x -> ok y -> (0 < length x)%nat -> (length y <= length x)%nat -> val y <= val x ->
    forall s, wf (strip_lz {| digits := sub_loop x y 0; neg := s |}) /\
    zval (strip_lz {| digits := sub_loop x y 0; neg := s |}) = if s then val y - val x else val x - val y) as H.
  { intros x y Hx Hy H0 Hl Hv s. destruct (sub_loop_ge x y Hx Hy Hl Hv) as (Hr & Hlen & Hval).
    destruct (ok_strip_zval (sub_loop x y 0) s Hr) as [Hw Hz]; [intros E; rewrite E in Hlen; simpl in Hlen; lia|].
    split; [done|]. rewrite Hz, Hval. destruct s; lia. }
  destruct (Nat.ltb_spec (length (digits b)) (length (digits a))) as [L1|L1].
  { pose proof (wf_length b a Hb Ha L1). apply (H (digits a) (digits b)); (done || lia). }
  destruct (Nat.ltb_spec (length (digits a)) (length (digits b))) as [L2|L2].
  { pose proof (wf_length a b Ha Hb L2).
    destruct (H (digits b) (digits a)) with (s := true) as [Hw Hz]; [done..|lia|lia|lia|]. split; [done|lia]. }
  destruct (diff_len_spec (length (digits a)) (digits a) (digits b)) as (Hl & Hv & Hd).
  rewrite firstn_all in Hv. rewrite (firstn_all2 (digits b)) in Hv by lia.
  destruct (diff_len _ _ _) as [|i] eqn:E; [split; [apply zero_wf|]; simpl in Hv; cbn; lia|].
  replace (S i - 1)%nat with i in Hd by lia. specialize (Hd ltac:(lia)).
  pose proof (cmp_digits_spec (S i) (digits a) (digits b) Wa1 Wb1) as Hc. cbn [cmp_digits] in Hc.
  apply Z.eqb_neq in Hd. rewrite Hd in Hc.
  assert (length (take (S i) (digits a)) = S i /\ length (take (S i) (digits b)) = S i) as [La Lb]
    by (rewrite !length_take; lia).
  rewrite Hv. destruct (digit (digits a) i >? digit (digits b) i).
  - apply (H (take (S i) (digits a)) (take (S i) (digits b))); [by apply ok_take..|lia|lia|].
    destruct (Z.sgn_spec (val (take (S i) (digits a)) - val (take (S i) (digits b)))) as [[? ?]|[[? ?]|[? ?]]]; lia.
  - destruct (H (take (S i) (digits b)) (take (S i) (digits a))) with (s := true) as [Hw Hz]; [by apply ok_take..|lia|lia| |].
    { destruct (Z.sgn_spec (val (take (S i) (digits a)) - val (take (S i) (digits b)))) as [[? ?]|[[? ?]|[? ?]]]; lia. }
    split; [done|lia].
Qed.

Lemma haslz_of_val x : ok (digits x) -> digits x <> [] ->
  length (digits x) = 1%nat \/ base (length (digits x) - 1) <= val (digits x) -> haslz x = false.
Proof.
  intros Hok Hne [H|H]; unfold haslz; [by rewrite H|].
  destruct (Z.eqb_spec (digit (digits x) (length (digits x) - 1)) 0) as [E|E]; [|apply andb_false_r].
  exfalso. rewrite (val_top _ Hne), E in H. pose proof (val_bound _ (ok_take (length (digits x) - 1) _ Hok)) as Hb.
  rewrite length_take in Hb. replace (min (length (digits x) - 1) (length (digits x))) with (length (digits x) - 1)%nat in Hb by lia.
  lia.
Qed.

Lemma add_wf a b : wf a -> wf b -> wf {| digits := add_digits (digits a) (digits b); neg := false |}.
Proof.
  intros Ha Hb. pose proof Ha as [Wa1 Wa2 Wa3 _]. pose proof Hb as [Wb1 Wb2 Wb3 _].
  destruct (add_digits_spec _ _ Wa1 Wb1) as (Hok & Hv & Hl).
  assert (digits a <> []) by done. pose proof (val_nonneg _ Wa1). pose proof (val_nonneg _ Wb1).
  assert (0 < length (digits a))%nat by (destruct (digits a); simpl; [done|lia]).
  assert (add_digits (digits a) (digits b) <> []) by (intros E; rewrite E in Hl; simpl in Hl; lia).
  split; [done|done| |done]. apply haslz_of_val; [done..|]. cbn [digits].
  (* either the longer operand decides, or a carry was appended *)
  unfold add_digits in *. set (p := if (length (digits b) <=? length (digits a))%nat then _ else _) in *.
  assert (ok p.1 /\ ok p.2 /\ (length p.2 <= length p.1)%nat /\ val p.1 + val p.2 = val (digits a) + val (digits b) /\
    (length p.1 = 1%nat \/ base (length p.1 - 1) <= val p.1)) as (P1 & P2 & P3 & P4 & P5).
  { destruct (haslz_val a Wa1 Wa2 Wa3) as [_ A]. destruct (haslz_val b Wb1 Wb2 Wb3) as [_ B].
    assert (0 < length (digits b))%nat by (destruct (digits b); simpl; [done|lia]).
    unfold p. destruct (Nat.leb_spec (length (digits b)) (length (digits a))); cbn [fst snd];
      split_and!; try done; try lia. }
  destruct p as [x y]. cbn [fst snd] in *. pose proof (add_loop_spec x y 0 P1 P2 P3) as Hs.
  destruct (add_loop x y 0) as [r c]. destruct Hs as (Hr & Hlen & Hc & Hval); [lia|].
  pose proof (val_nonneg _ P2). destruct (Z.eqb_spec c 0) as [Hc0|Hnz]; cbn [negb] in *.
  - rewrite Hc0 in *. rewrite Hlen. destruct P5; [by left|right; lia].
  - right. assert (c = 1) as -> by lia. rewrite length_app, Hlen. simpl length.
    replace (length x + 1 - 1)%nat with (length x) by lia. pose proof (val_nonneg _ Hr). lia.
Qed.

Lemma opp_wf x : wf x -> zval x <> 0 -> wf (opp x) /\ zval (opp x) = - zval x /\ neg (opp x) = negb (neg x).
Proof.
  intros Hx Hnz. pose proof Hx as [W1 W2 W3 W4]. destruct (opp_zval x W1 W2) as (Hz & _ & Hw).
  split_and!; [by apply Hw|done|]. unfold opp, copy. cbn [neg]. f_equal. unfold strip_lz. cbn [neg].
  destruct (_ && _) eqn:E; [|done]. exfalso. apply Hnz. apply andb_true_iff in E as [E1 E2].
  apply Nat.eqb_eq in E1. apply Z.eqb_eq in E2. rewrite strip_len_id in E1 by (by apply haslz_top).
  destruct (digits x) as [|d [|? ?]] eqn:Ed; simpl in E1; try lia. unfold digit in E2. simpl in E2. subst d.
  unfold zval. rewrite Ed. simpl. by case_match.
Qed.

Lemma wf_neg x : wf x -> (neg x = true -> zval x < 0) /\ (neg x = false -> 0 <= zval x /\ zval x = val (digits x)).
Proof.
  intros [W1 W2 W3 W4]. pose proof (val_nonneg _ W1). unfold zval. split; intros E; rewrite E; [specialize (W4 E)|]; lia.
Qed.

Lemma plus_nonneg f x n : wf x -> wf n -> neg x = false -> neg n = false ->
  exists r, plus_ (S f) x n = Ok r /\ wf r /\ zval r = zval x + zval n.
Proof.
  intros Hx Hn Ex En. cbn [plus_]. rewrite Ex, En. eexists. split; [done|]. split; [by apply add_wf|].
  pose proof (add_digits_spec _ _ (wf_ok _ Hx) (wf_ok _ Hn)) as (_ & Hv & _). unfold zval. rewrite Ex, En. done.
Qed.

Lemma minus_nonneg f x n : wf x -> wf n -> neg x = false -> neg n = false ->
  exists r, minus_ (S f) x n = Ok r /\ wf r /\ zval r = zval x - zval n.
Proof.
  intros Hx Hn Ex En. cbn [minus_]. rewrite Ex, En. eexists. split; [done|].
  destruct (sub_digits_spec x n Hx Hn) as [Hw Hz]. split; [done|]. rewrite Hz. unfold zval. by rewrite Ex, En.
Qed.

(** The calls for the other combinations of signs. *)
Lemma minus_neg_l f x n : wf x -> wf n -> neg x = true -> neg n = false ->
  exists r, minus_ (S (S (S f))) x n = Ok r /\ wf r /\ zval r = zval x - zval n.
Proof.
  intros Hx Hn Ex En. destruct (wf_neg x Hx) as [Zx _]. specialize (Zx Ex). destruct (wf_neg n Hn) as [_ Zn]. specialize (Zn En).
  destruct (opp_wf x Hx) as (Ho & Hz & Hs); [lia|]. rewrite Ex in Hs. cbn [negb] in Hs.
  destruct (plus_nonneg f n (opp x) Hn Ho En Hs) as (r & E & Hr & Hv).
  assert (minus_ (S (S f)) n x = Ok r) as E2 by (cbn [minus_]; rewrite Ex; exact E).
  destruct (opp_wf r Hr) as (Ho' & Hz' & _); [lia|].
  exists (opp r). split_and!; [|done|lia]. change (minus_ (S (S (S f))) x n) with
    (if neg n then plus_ (S (S f)) x (opp n) else if neg x then let! r := minus_ (S (S f)) n x in Ok (opp r)
     else Ok (sub_digits (digits x) (digits n))). by rewrite Ex, En, E2.
Qed.

Lemma plus_spec x n : wf x -> wf n -> exists r, plus x n = Ok r /\ wf r /\ zval r = zval x + zval n.
Proof.
  intros Hx Hn. destruct (wf_neg x Hx) as [Zx _], (wf_neg n Hn) as [Zn _]. unfold plus.
  destruct (neg n) eqn:En.
  - specialize (Zn eq_refl). destruct (opp_wf n Hn) as (Ho & Hz & Hs); [lia|]. rewrite En in Hs. cbn [negb] in Hs.
    assert (plus_ 4 x n = minus_ 3 x (opp n)) as -> by (cbn [plus_]; by rewrite En).
    destruct (neg x) eqn:Ex; [destruct (minus_neg_l 0 x (opp n)) as (r & -> & ? & ?)|
      destruct (minus_nonneg 2 x (opp n)) as (r & -> & ? & ?)]; try done; exists r; split_and!; (done || lia).
  - destruct (neg x) eqn:Ex; [|by apply plus_nonneg].
    specialize (Zx eq_refl). destruct (opp_wf x Hx) as (Ho & Hz & Hs); [lia|]. rewrite Ex in Hs. cbn [negb] in Hs.
    assert (plus_ 4 x n = minus_ 3 n (opp x)) as -> by (cbn [plus_]; by rewrite En, Ex).
    destruct (minus_nonneg 2 n (opp x)) as (r & -> & ? & ?); try done. exists r. split_and!; (done || lia).
Qed.

Lemma minus_spec x n : wf x -> wf n -> exists r, minus x n = Ok r /\ wf r /\ zval r = zval x - zval n.
Proof.
  intros Hx Hn. destruct (wf_neg x Hx) as [Zx _], (wf_neg n Hn) as [Zn _]. unfold minus.
  destruct (neg n) eqn:En.
  - specialize (Zn eq_refl). destruct (opp_wf n Hn) as (Ho & Hz & Hs); [lia|]. rewrite En in Hs. cbn [negb] in Hs.
    assert (minus_ 4 x n = plus_ 3 x (opp n)) as -> by (cbn [minus_]; by rewrite En).
    destruct (neg x) eqn:Ex.
    + specialize (Zx eq_refl). destruct (opp_wf x Hx) as (Ho' & Hz' & Hs'); [lia|]. rewrite Ex in Hs'. cbn [negb] in Hs'.
      assert (plus_ 3 x (opp n) = minus_ 2 (opp n) (opp x)) as -> by (cbn [plus_]; by rewrite Hs, Ex).
      destruct (minus_nonneg 1 (opp n) (opp x)) as (r & -> & ? & ?); try done. exists r. split_and!; (done || lia).
    + destruct (plus_nonneg 2 x (opp n)) as (r & -> & ? & ?); try done. exists r. split_and!; (done || lia).
  - destruct (neg x) eqn:Ex; [by apply minus_neg_l|by apply minus_nonneg].
Qed.

(** * Shifts *)

Lemma lor_digit v s ext : 0 < s < 32 -> 0 <= v -> 0 <= ext < 2 ^ s -> Z.lor (w32 (v * 2 ^ s)) ext = w32 (v * 2 ^ s) + ext.
Proof.
  intros Hs Hv He. unfold w32. replace (2 ^ 32) with (2 ^ (32 - s) * 2 ^ s) by (rewrite <- Z.pow_add_r by lia; f_equal; lia).
  rewrite Zmult_mod_distr_r, Z.lor_comm, lor_disjoint; [lia|lia|done|]. apply Z.mod_pos_bound. apply Z.pow_pos_nonneg; lia.
Qed.

Lemma shl_loop_spec ds s ext :
  ok ds -> 0 < s < 32 -> 0 <= ext < 2 ^ s ->
  ok (shl_loop ds s ext) /\ length (shl_loop ds s ext) = S (length ds) /\ val (shl_loop ds s ext) = val ds * 2 ^ s + ext.
Proof.
  intros Hok Hs. assert (2 ^ s < 2 ^ 32) as Hp by (apply Z.pow_lt_mono_r; lia).
  revert ext. induction Hok as [|y ds Hy _ IH]; intros ext He.
  - simpl. split_and!; [repeat constructor; lia|done|lia].
  - cbn [shl_loop]. rewrite Z.shiftl_mul_pow2 by lia. unfold is_digit in Hy.
    assert (0 <= y * 2 ^ s < 2 ^ 32 * 2 ^ s) by nia.
    rewrite w64_small by nia. pose proof (shr32_bound (y * 2 ^ s) (2 ^ s) ltac:(lia)) as Hx.
    rewrite (w32_small (Z.shiftr _ _)) by (unfold is_digit; lia). rewrite lor_digit by lia.
    destruct (IH _ Hx) as (Hr & Hl & Hv). pose proof (split32 (y * 2 ^ s)) as Hsp. split_and!.
    + constructor; [|done]. unfold is_digit, w32.
      replace (2 ^ 32) with (2 ^ (32 - s) * 2 ^ s) by (rewrite <- Z.pow_add_r by lia; f_equal; lia).
      rewrite Zmult_mod_distr_r. pose proof (Z.mod_pos_bound y (2 ^ (32 - s)) ltac:(apply Z.pow_pos_nonneg; lia)).
      pose proof (Z.pow_pos_nonneg 2 s). nia.
    + simpl. lia.
    + cbn [val]. rewrite Hv. lia.
Qed.

(** The parts of a shift count: whole digits and bits. *)
Lemma shift_split shift : 0 <= shift ->
  shift = 32 * Z.of_nat (Z.to_nat (Z.shiftr shift 5)) + Z.land shift 31 /\ 0 <= Z.land shift 31 < 32.
Proof.
  intros H. change 31 with (Z.ones 5). rewrite Z.land_ones, Z.shiftr_div_pow2 by lia.
  rewrite Z2Nat.id by (apply Z.div_pos; lia). pose proof (Z.div_mod shift (2 ^ 5)). pose proof (Z.mod_pos_bound shift (2 ^ 5)). lia.
Qed.

Lemma shl_spec x shift : ok (digits x) -> digits x <> [] -> 0 <= shift ->
  wf (shl x shift) /\ zval (shl x shift) = zval x * 2 ^ shift.
Proof.
  intros Hok Hne Hs. unfold shl, copy. destruct (Z.eqb_spec shift 0) as [->|].
  { destruct (strip_wf x Hok Hne) as [? ->]. split; [done|lia]. }
  destruct (shift_split shift Hs) as [E Hb]. set (k := Z.to_nat _) in *. set (b := Z.land shift 31) in *.
  assert (ok (if b =? 0 then digits x else shl_loop (digits x) b 0) /\
    val (if b =? 0 then digits x else shl_loop (digits x) b 0) = val (digits x) * 2 ^ b /\
    (if b =? 0 then digits x else shl_loop (digits x) b 0) <> []) as (H1 & H2 & H3).
  { destruct (Z.eqb_spec b 0) as [->|]; [split_and!; [done|lia|done]|].
    destruct (shl_loop_spec (digits x) b 0 Hok) as (? & Hl & Hv); [lia|split; [lia|apply Z.pow_pos_nonneg; lia]|].
    split_and!; [done|lia|]. intros E0. rewrite E0 in Hl. done. }
  destruct (ok_strip_zval (replicate k 0 ++ (if b =? 0 then digits x else shl_loop (digits x) b 0)) (neg x)) as [Hw Hz].
  - apply Forall_app. split; [apply ok_replicate|done].
  - intros [_ ?]%app_eq_nil. done.
  - split; [done|]. rewrite Hz, val_app, val_replicate, length_replicate, H2. unfold zval.
    rewrite E, Z.pow_add_r by lia. destruct (neg x); lia.
Qed.

Lemma shl_nonneg x shift : neg x = false -> neg (shl x shift) = false.
Proof. intros H. unfold shl, copy. case_match; by apply strip_nonneg. Qed.

Lemma shr_loop_spec ds s : ok ds -> 0 < s < 32 ->
  let '(r, ext) := shr_loop ds s in
  ok r /\ length r = length ds /\ val r = val ds / 2 ^ s /\ ext = val ds mod 2 ^ s * 2 ^ (32 - s).
Proof.
  intros Hok Hs. assert (2 ^ 32 = 2 ^ s * 2 ^ (32 - s)) as Hp by (rewrite <- Z.pow_add_r by lia; f_equal; lia).
  pose proof (Z.pow_pos_nonneg 2 s ltac:(lia) ltac:(lia)). pose proof (Z.pow_pos_nonneg 2 (32 - s) ltac:(lia) ltac:(lia)).
  induction Hok as [|v ds Hv Hok IH]; [cbn; split_and!; [done..|]; rewrite Z.mod_0_l by lia; lia|].
  cbn [shr_loop]. destruct (shr_loop ds s) as [r ext]. destruct IH as (Hr & Hl & Hval & ->). unfold is_digit in Hv.
  rewrite Z.shiftr_div_pow2, Z.shiftl_mul_pow2 by lia.
  pose proof (Z.mod_pos_bound (val ds) (2 ^ s) ltac:(lia)) as Hm. pose proof (Z.div_mod (val ds) (2 ^ s) ltac:(lia)) as Hd.
  assert (0 <= v / 2 ^ s < 2 ^ (32 - s)) as Hq by (split; [apply Z.div_pos; lia|apply Z.div_lt_upper_bound; lia]).
  rewrite Z.lor_comm, lor_disjoint by lia. cbn [val length]. rewrite Hval. split_and!.
  - constructor; [unfold is_digit; nia|done].
  - lia.
  - apply Z.div_unique with (v mod 2 ^ s); [left; apply Z.mod_pos_bound; lia|].
    pose proof (Z.div_mod v (2 ^ s)). nia.
  - unfold w32. rewrite Hp at 1. rewrite Zmult_mod_distr_r. f_equal.
    replace (v + 2 ^ 32 * val ds) with (v + (2 ^ (32 - s) * val ds) * 2 ^ s) by (rewrite Hp; ring). by rewrite Z.mod_add by lia.
Qed.

(** Numbers without leading zeros are shifted towards zero. *)
Lemma right_shift_spec x shift : wf x -> 0 <= shift ->
  exists r, right_shift x shift = Ok r /\ wf r /\ zval r = Z.quot (zval x) (2 ^ shift).
Proof.
  intros Hx Hs. pose proof Hx as [W1 W2 W3 W4]. unfold right_shift. destruct (shift_split shift Hs) as [E Hb].
  set (k := Z.to_nat _) in *. set (b := Z.land shift 31) in *. pose proof (val_bound _ W1) as Hbd.
  assert (zval x = (if neg x then -1 else 1) * val (digits x)) as Ex by (unfold zval; destruct (neg x); lia).
  assert (0 < 2 ^ shift) by (apply Z.pow_pos_nonneg; lia).
  assert (Z.quot (zval x) (2 ^ shift) = (if neg x then -1 else 1) * (val (digits x) / 2 ^ shift)) as Eq.
  { rewrite Ex. destruct (neg x); [replace (-1 * val (digits x)) with (- val (digits x)) by lia; rewrite Z.quot_opp_l by lia|rewrite Z.mul_1_l];
      rewrite Z.quot_div_nonneg by lia; lia. }
  destruct (Nat.ltb_spec k (length (digits x))) as [Hk|Hk].
  - unfold copy. destruct (strip_wf x W1 W2) as [[S1 S2 S3 _] _].
    rewrite (strip_id (strip_lz x)), (strip_id x) by done.
    destruct (Nat.leb_spec (length (digits x)) k); [lia|]. eexists. split; [reflexivity|].
    set (ds := if b =? 0 then drop k (digits x) else (shr_loop (drop k (digits x)) b).1).
    assert (ok ds /\ length ds = (length (digits x) - k)%nat /\ val ds = val (drop k (digits x)) / 2 ^ b) as (D1 & D2 & D3).
    { unfold ds. pose proof (ok_drop k _ W1) as Hd. destruct (Z.eqb_spec b 0) as [->|].
      - rewrite length_drop. split_and!; [done..|]. change (2 ^ 0) with 1. by rewrite Z.div_1_r.
      - pose proof (shr_loop_spec (drop k (digits x)) b Hd ltac:(lia)) as Hsp. destruct (shr_loop _ b).
        destruct Hsp as (? & ? & ? & _). rewrite length_drop in *. done. }
    destruct (ok_strip_zval ds (neg (strip_lz (strip_lz x))) D1) as [Hw Hz]; [intros E0; rewrite E0 in D2; simpl in D2; lia|].
    split; [done|]. rewrite Hz, Eq, D3.
    assert (val (drop k (digits x)) / 2 ^ b = val (digits x) / 2 ^ shift) as ->.
    { rewrite E, Z.pow_add_r, <- Z.div_div by (try lia; apply Z.pow_nonzero || apply Z.pow_pos_nonneg; lia). f_equal.
      apply Z.div_unique with (val (take k (digits x))).
      - left. pose proof (val_bound _ (ok_take k _ W1)) as Hbk. rewrite length_take in Hbk.
        by replace (min k (length (digits x))) with k in Hbk by lia.
      - rewrite (val_take_drop k) at 1. rewrite length_take. replace (min k (length (digits x))) with k by lia. lia. }
    assert (neg (strip_lz (strip_lz x)) = neg x) as ->; [|destruct (neg x); lia].
    assert (forall y, wf y -> neg (strip_lz y) = neg y) as Hneg.
    { intros y Hy. pose proof Hy as [Y1 Y2 Y3 Y4]. destruct (strip_wf y Y1 Y2) as [[_ _ _ Z4] Hzy].
      unfold zval in Hzy. rewrite (strip_id y) in * by done. pose proof (val_nonneg _ Y1).
      destruct (neg y) eqn:E1, (neg (strip_lz y)) eqn:E2; try done;
        [specialize (Y4 eq_refl)|specialize (Z4 eq_refl)]; lia. }
    rewrite Hneg by (by apply strip_wf). by apply Hneg.
  - eexists. split; [reflexivity|]. split; [apply zero_wf|]. change (zval {| digits := [0]; neg := false |}) with 0.
    rewrite Eq. assert (val (digits x) / 2 ^ shift = 0) as ->; [|lia]. apply Z.div_small. split; [lia|].
    eapply Z.lt_le_trans; [apply Hbd|]. apply Z.pow_le_mono_r; lia.
Qed.
