(* ===== verification/BigNumMul.v ===== *)
(** Multiplication, bit positions and powers of BigNum against the integers. *)
From S2P Require Import Prelude Types BigNum BigNumProofs.

(** * By one digit *)

Lemma mul1_loop_spec ds b c : ok ds -> is_digit b -> is_digit c ->
  ok (mul1_loop ds b c) /\ length (mul1_loop ds b c) = S (length ds) /\ val (mul1_loop ds b c) = val ds * b + c.
Proof.
  intros Hok Hb. revert c. induction Hok as [|v ds Hv _ IH]; intros c Hc.
  - cbn [mul1_loop]. rewrite w32_small by done. split_and!; [by constructor|done|simpl; lia].
  - cbn [mul1_loop]. unfold is_digit in *. assert (0 <= v * b + c < 2 ^ 32 * 2 ^ 32) by nia.
    rewrite w64_small by lia. pose proof (shr32_bound (v * b + c) (2 ^ 32) ltac:(lia)) as Hs.
    destruct (IH _ Hs) as (Hr & Hl & Hval). split_and!; [constructor; [apply w32_range|done]|simpl; lia|].
    cbn [val]. rewrite Hval. pose proof (split32 (v * b + c)). lia.
Qed.

Lemma xorb_sign s t a b :
  (if xorb s t then - (a * b) else a * b) = (if s then - a else a) * (if t then - b else b).
Proof. destruct s, t; simpl; lia. Qed.

Lemma mul1_spec a b s : ok (digits a) -> digits a <> [] -> is_digit b ->
  wf (mul1 a b s) /\ zval (mul1 a b s) = zval a * (if s then - b else b).
Proof.
  intros Hok Hne Hb. unfold mul1.
  assert (forall ds, ok ds -> ds <> [] -> val ds = val (digits a) * b ->
    wf (strip_lz {| digits := ds; neg := xorb (neg a) s |}) /\
    zval (strip_lz {| digits := ds; neg := xorb (neg a) s |}) = zval a * (if s then - b else b)) as H.
  { intros ds H1 H2 H3. destruct (ok_strip_zval ds (xorb (neg a) s) H1 H2) as [Hw Hz]. split; [done|].
    rewrite Hz, H3, xorb_sign. done. }
  unfold is_digit in Hb. destruct (Z.gtb_spec b 2).
  - destruct (mul1_loop_spec (digits a) b 0 Hok) as (? & Hl & Hv); [done|unfold is_digit; lia|].
    apply H; [done| |lia]. intros E. rewrite E in Hl. done.
  - destruct (Z.eqb_spec b 1) as [->|]; [apply H; [done..|lia]|].
    destruct (Z.eqb_spec b 2) as [->|].
    + destruct (shl_spec {| digits := digits a; neg := false |} 1) as [[S1 S2 _ _] Sz]; [done|done|lia|].
      assert (digits (shl a 1) = digits (shl {| digits := digits a; neg := false |} 1)) as -> by done.
      apply H; [done..|]. unfold zval in Sz. cbn [neg digits] in Sz.
      rewrite shl_nonneg in Sz by done. rewrite Sz. lia.
    + assert (b = 0) as -> by lia. destruct (strip_wf zero) as [Hw Hz]; [apply zero_wf|done|]. split; [done|].
      rewrite Hz. cbn. destruct s; lia.
Qed.

(** * Row by row *)

Lemma mul_row_spec x y s1 z s2 c :
  is_digit x -> ok y -> ok s1 -> ok s2 -> is_digit c -> length s1 = length y ->
  ok (mul_row x y (s1 ++ z :: s2) c) /\ length (mul_row x y (s1 ++ z :: s2) c) = length (s1 ++ z :: s2) /\
  val (mul_row x y (s1 ++ z :: s2) c) = val s1 + x * val y + c + base (S (length y)) * val s2 /\
  drop (S (length y)) (mul_row x y (s1 ++ z :: s2) c) = s2.
Proof.
  intros Hx Hy. revert s1 c. induction Hy as [|y0 y Hy0 _ IH]; intros s1 c Hs1 Hs2 Hc Hl.
  - destruct s1; [|done]. cbn [app mul_row length]. rewrite w32_small by done.
    split_and!; [by constructor|done| |done]. cbn [val]. rewrite base_S. change (base 0) with 1. lia.
  - destruct s1 as [|s0 s1]; [done|]. apply Forall_cons in Hs1 as [Hs0 Hs1]. cbn [app mul_row]. unfold is_digit in *.
    assert (0 <= x * y0 + s0 + c < 2 ^ 32 * 2 ^ 32) by nia. rewrite w64_small by lia.
    pose proof (shr32_bound (x * y0 + s0 + c) (2 ^ 32) ltac:(lia)) as Hsh.
    destruct (IH s1 _ Hs1 Hs2 Hsh) as (Hr & Hlen & Hv & Hd); [by injection Hl|].
    split_and!; [constructor; [apply w32_range|done]|simpl; by rewrite Hlen| |done].
    cbn [val length]. rewrite Hv, (base_S (S (length y))). pose proof (split32 (x * y0 + s0 + c)). lia.
Qed.

Lemma mul_rows_spec a b s :
  ok a -> ok b -> ok s -> length s = length b ->
  let r := mul_rows a b (s ++ replicate (length a) 0) in
  ok r /\ length r = (length a + length b)%nat /\ val r = val s + val a * val b.
Proof.
  intros Ha Hb. revert s. induction Ha as [|x a Hx _ IH]; intros s Hs Hl.
  - cbn [length replicate mul_rows]. rewrite app_nil_r. split_and!; [done|simpl; lia|simpl; lia].
  - cbn [length replicate mul_rows]. cbv zeta.
    destruct (mul_row_spec x b s 0 (replicate (length a) 0) 0) as (Hr & Hlen & Hv & Hd);
      [done..|apply ok_replicate|unfold is_digit; lia|done|].
    rewrite val_replicate in Hv. rewrite length_app in Hlen. cbn [length] in Hlen. rewrite length_replicate in Hlen.
    destruct (mul_row x b _ 0) as [|s0 r] eqn:E; [simpl in Hlen; lia|]. simpl in Hlen, Hd.
    apply Forall_cons in Hr as [Hs0 Hr].
    assert (r = take (length b) r ++ replicate (length a) 0) as Er by (rewrite <- Hd; by rewrite take_drop).
    assert (length (take (length b) r) = length b) as Hlt by (rewrite length_take; lia).
    rewrite Er. destruct (IH (take (length b) r) (ok_take _ _ Hr) Hlt) as (Hr' & Hl' & Hv').
    split_and!; [by constructor|simpl; lia|]. cbn [val] in *. rewrite Hv'.
    rewrite Er, val_app, val_replicate in Hv. lia.
Qed.

(** Leading zeros of the factors do not matter. *)
Lemma mul_ok a b : ok (digits a) -> digits a <> [] -> ok (digits b) -> digits b <> [] ->
  wf (mul a b) /\ zval (mul a b) = zval a * zval b.
Proof.
  intros Ha Ha' Hb Hb'. unfold mul.
  set (p := if (length (digits b) <? length (digits a))%nat then (b, a) else (a, b)).
  assert ((ok (digits p.1) /\ digits p.1 <> []) /\ (ok (digits p.2) /\ digits p.2 <> []) /\
    zval p.1 * zval p.2 = zval a * zval b) as ([X1 X2] & [Y1 Y2] & <-).
  { unfold p. case_match; split_and!; try done. simpl. lia. }
  destruct p as [x y]. cbn [fst snd] in *.
  destruct (Nat.eqb_spec (length (digits x)) 1) as [E|E].
  - destruct (mul1_spec y (digit (digits x) 0) (neg x) Y1 Y2 (digit_ok _ _ X1)) as [Hw Hz]. split; [done|].
    rewrite Hz. unfold zval at 2. destruct (digits x) as [|d [|? ?]] eqn:Ed; try done. unfold digit. simpl.
    rewrite Z.mul_comm. destruct (neg x); lia.
  - destruct (mul_rows_spec (digits x) (digits y) (replicate (length (digits y)) 0) X1 Y1 (ok_replicate _))
      as (Hr & Hl & Hv); [apply length_replicate|]. rewrite val_replicate in Hv.
    rewrite <- replicate_add, (Nat.add_comm (length (digits y))) in Hr, Hl, Hv.
    destruct (ok_strip_zval _ (xorb (neg x) (neg y)) Hr) as [Hw Hz].
    + intros E0. rewrite E0 in Hl. destruct (digits x); [done|simpl in Hl; lia].
    + split; [done|]. rewrite Hz, Hv, Z.add_0_l, xorb_sign. done.
Qed.

Lemma mul_spec a b : wf a -> wf b -> wf (mul a b) /\ zval (mul a b) = zval a * zval b.
Proof. intros [] []. by apply mul_ok. Qed.

(** * Bit positions *)

(** Smearing the bits of a number to the right, by doubling distances. *)
Lemma smear_step n m w :
  0 <= w -> (forall i, 0 <= i -> Z.testbit m i = true <-> exists j, i <= j < i + w /\ Z.testbit n j = true) ->
  forall i, 0 <= i -> Z.testbit (Z.lor m (Z.shiftr m w)) i = true <-> exists j, i <= j < i + 2 * w /\ Z.testbit n j = true.
Proof.
  intros Hw Hm i Hi. rewrite Z.lor_spec, Z.shiftr_spec, orb_true_iff, !Hm by lia. split.
  - intros [(j & ? & ?)|(j & ? & ?)]; exists j; (split; [lia|done]).
  - intros (j & ? & ?). destruct (Z.ltb_spec j (i + w)); [left|right]; exists j; (split; [lia|done]).
Qed.

Definition smear (n : Z) : Z :=
  let n := Z.lor n (Z.shiftr n 1) in
  let n := Z.lor n (Z.shiftr n 2) in
  let n := Z.lor n (Z.shiftr n 4) in
  let n := Z.lor n (Z.shiftr n 8) in
  Z.lor n (Z.shiftr n 16).

Lemma smear_ones n : 0 < n < 2 ^ 32 -> smear n = Z.ones (Z.log2 n + 1).
Proof.
  intros Hn. assert (0 <= Z.log2 n < 32) as Hl by (split; [apply Z.log2_nonneg|apply Z.log2_lt_pow2; lia]).
  assert (forall i, 0 <= i -> Z.testbit n i = true <-> exists j, i <= j < i + 1 /\ Z.testbit n j = true) as H0.
  { intros i Hi. split; [intros; exists i; split; [lia|done]|]. intros (j & ? & ?). by replace i with j by lia. }
  pose proof (smear_step n _ 1 ltac:(lia) H0) as H1. pose proof (smear_step n _ 2 ltac:(lia) H1) as H2.
  pose proof (smear_step n _ 4 ltac:(lia) H2) as H3. pose proof (smear_step n _ 8 ltac:(lia) H3) as H4.
  pose proof (smear_step n _ 16 ltac:(lia) H4) as H5. fold (smear n) in H5. clear H0 H1 H2 H3 H4.
  apply Z.bits_inj'. intros i Hi. apply eq_true_iff_eq. rewrite H5 by done. clear H5.
  rewrite Z.testbit_ones_nonneg by lia. rewrite Z.ltb_lt. split.
  - intros (j & Hj & Hb). destruct (Z.ltb_spec i (Z.log2 n + 1)); [done|]. rewrite Z.bits_above_log2 in Hb by lia. done.
  - intros. exists (Z.log2 n). split; [lia|]. apply Z.bit_log2. lia.
Qed.

(** The table inverts the multiplication by the magic number. *)
Lemma DeBruijn_table k : 0 <= k < 32 ->
  digit DeBruijnPos (Z.to_nat (Z.shiftr (w32 (Z.ones (k + 1) * DeBruijnMagic)) 27)) = k.
Proof.
  intros Hk.
  assert (forallb (fun k => digit DeBruijnPos (Z.to_nat (Z.shiftr (w32 (Z.ones (k + 1) * DeBruijnMagic)) 27)) =? k)
    (seqZ 0 32) = true) as H by (vm_compute; reflexivity).
  rewrite forallb_forall in H. apply Z.eqb_eq, H, list_elem_of_In, elem_of_seqZ. lia.
Qed.

Lemma log2_spec n : 0 < n < 2 ^ 32 -> log2 n = Z.log2 n.
Proof.
  intros Hn. change (log2 n) with (digit DeBruijnPos (Z.to_nat (Z.shiftr (w32 (smear n * DeBruijnMagic)) 27))).
  rewrite smear_ones by done. apply DeBruijn_table. split; [apply Z.log2_nonneg|apply Z.log2_lt_pow2; lia].
Qed.

Lemma bit_len_spec x : ok (digits x) ->
  bit_len x = if val (digits x) =? 0 then 0 else Z.log2 (val (digits x)) + 1.
Proof.
  intros Hok. unfold bit_len. destruct (sig_len_spec (length (digits x)) (digits x)) as (Hl & Hv & Hd).
  rewrite firstn_all in Hv. destruct (sig_len _ _) as [|i]; [simpl in Hv; by rewrite <- Hv|].
  destruct Hd as [Hd|Hd]; [done|]. replace (S i - 1)%nat with i in Hd by lia. rewrite val_take_S in Hv.
  pose proof (digit_ok _ i Hok) as Hi. unfold is_digit in Hi. pose proof (val_bound _ (ok_take i _ Hok)) as Hb.
  rewrite length_take, Nat.min_l in Hb by lia. pose proof (base_pos i). rewrite log2_spec by lia.
  pose proof (Z.log2_spec (digit (digits x) i) ltac:(lia)) as [L1 L2].
  destruct (Z.eqb_spec (val (digits x)) 0); [nia|].
  assert (Z.log2 (val (digits x)) = 32 * Z.of_nat i + Z.log2 (digit (digits x) i)) as ->; [|lia].
  pose proof (Z.log2_nonneg (digit (digits x) i)).
  apply Z.log2_unique; [lia|]. rewrite <- Z.add_succ_r, !Z.pow_add_r by lia. nia.
Qed.

(** * Single bits *)

Lemma digit_val ds i : ok ds -> digit ds i = val ds / base i mod 2 ^ 32.
Proof.
  intros Hok. rewrite (val_take_drop (S i) ds). rewrite val_take_S.
  pose proof (digit_ok ds i Hok) as Hd. pose proof (val_bound _ (ok_take i _ Hok)) as Hb. pose proof (base_pos i).
  assert (base (length (take i ds)) <= base i) by (apply Z.pow_le_mono_r; [lia|rewrite length_take; lia]).
  assert (base (length (take (S i) ds)) * val (drop (S i) ds) = base i * (2 ^ 32 * val (drop (S i) ds))) as ->.
  { destruct (Nat.le_gt_cases (S i) (length ds)).
    - rewrite length_take, Nat.min_l, base_S by lia. lia.
    - rewrite drop_ge by lia. simpl. lia. }
  symmetry. replace (val (take i ds) + base i * digit ds i + base i * (2 ^ 32 * val (drop (S i) ds)))
    with (val (take i ds) + (digit ds i + val (drop (S i) ds) * 2 ^ 32) * base i) by lia.
  rewrite Z.div_add by lia. rewrite (Z.div_small (val (take i ds))) by lia. rewrite Z.add_0_l, Z.mod_add by lia.
  by apply Z.mod_small.
Qed.

Lemma land_bit d k : 0 <= k -> negb (Z.land d (2 ^ k) =? 0) = Z.testbit d k.
Proof.
  intros Hk. destruct (Z.testbit d k) eqn:E.
  - apply negb_true_iff, Z.eqb_neq. intros H. apply (f_equal (fun v => Z.testbit v k)) in H.
    rewrite Z.land_spec, E, Z.pow2_bits_true, Z.bits_0 in H by lia. done.
  - apply negb_false_iff, Z.eqb_eq. apply Z.bits_inj'. intros n Hn. rewrite Z.land_spec, Z.bits_0.
    destruct (Z.eq_dec n k) as [->|]; [by rewrite E|]. rewrite Z.pow2_bits_false by lia. apply andb_false_r.
Qed.

Lemma test_bit_spec x i : ok (digits x) -> 0 <= i -> test_bit x i = Z.testbit (val (digits x)) i.
Proof.
  intros Hok Hi. unfold test_bit. destruct (shift_split i Hi) as [E Hb].
  set (k := Z.to_nat _) in *. set (b := Z.land i 31) in *.
  assert (is_digit (2 ^ b)) by (split; [apply Z.pow_nonneg; lia|apply Z.pow_lt_mono_r; lia]).
  rewrite Z.shiftl_1_l, w32_small, land_bit by (done || lia).
  assert (Z.testbit (val (digits x)) i = Z.testbit (digit (digits x) k) b) as ->.
  { rewrite digit_val, Z.mod_pow2_bits_low, Z.div_pow2_bits by (done || lia). f_equal. lia. }
  destruct (Nat.ltb_spec k (length (digits x))); [done|]. rewrite digit_out by lia. by rewrite Z.bits_0.
Qed.

Lemma is_odd_spec x : ok (digits x) -> is_odd x = Z.odd (val (digits x)).
Proof.
  intros Hok. unfold is_odd. change 1 with (2 ^ 0) at 1. rewrite land_bit by lia. rewrite Z.bit0_odd.
  destruct (digits x) as [|d ds]; [done|]. unfold digit. simpl. rewrite Z.odd_add, Z.odd_mul. simpl. by rewrite xorb_false_r.
Qed.

(** * Powers *)

(** The exponent read from its top bit: one more bit squares and multiplies. *)
Lemma exponent_step E i : 0 <= i -> 0 <= E -> E / 2 ^ i = 2 * (E / 2 ^ (i + 1)) + Z.b2z (Z.testbit E i).
Proof.
  intros Hi HE. pose proof (Z.bit0_mod (E / 2 ^ i)) as Hb. rewrite Z.div_pow2_bits, Z.add_0_l in Hb by lia.
  pose proof (Z.div_mod (E / 2 ^ i) 2 ltac:(lia)) as Hd.
  rewrite Z.div_div in Hd by (lia || (apply Z.pow_nonzero; lia)).
  replace (2 ^ i * 2) with (2 ^ (i + 1)) in Hd by (rewrite Z.pow_add_r by lia; lia). lia.
Qed.

Lemma exponent_start x : ok (digits x) -> val (digits x) / 2 ^ bit_len x = 0.
Proof.
  intros Hok. rewrite bit_len_spec by done. pose proof (val_nonneg _ Hok).
  destruct (Z.eqb_spec (val (digits x)) 0) as [->|]; [done|].
  apply Z.div_small. split; [lia|]. rewrite Z.add_1_r. apply Z.log2_spec. lia.
Qed.

Lemma bit_len_nonneg x : ok (digits x) -> 0 <= bit_len x.
Proof.
  intros Hok. rewrite bit_len_spec by done. case_match; [lia|]. pose proof (Z.log2_nonneg (val (digits x))). lia.
Qed.

Lemma exp_loop_spec i x e a : wf x -> ok (digits e) -> wf a ->
  zval a = zval x ^ (val (digits e) / 2 ^ Z.of_nat i) ->
  wf (exp_loop i x e a) /\ zval (exp_loop i x e a) = zval x ^ val (digits e).
Proof.
  intros Hx He. pose proof (val_nonneg _ He) as Hp. revert a. induction i as [|i IH]; intros a Ha Hv.
  { change (2 ^ Z.of_nat 0) with 1 in Hv. rewrite Z.div_1_r in Hv. done. }
  cbn [exp_loop]. destruct (mul_spec a a Ha Ha) as [Hw Hz]. rewrite test_bit_spec by (done || lia).
  pose proof (exponent_step (val (digits e)) (Z.of_nat i) ltac:(lia) Hp) as Hs.
  rewrite <- Nat2Z.inj_succ in Hs || rewrite Z.add_1_r, <- Nat2Z.inj_succ in Hs.
  assert (0 <= val (digits e) / 2 ^ Z.of_nat (S i)) by (apply Z.div_pos; [lia|apply Z.pow_pos_nonneg; lia]).
  destruct (Z.testbit (val (digits e)) (Z.of_nat i)); cbn [Z.b2z] in Hs.
  - destruct (mul_spec (mul a a) x Hw Hx) as [Hw' Hz']. apply IH; [done|]. rewrite Hz', Hz, Hv, Hs.
    rewrite Z.pow_add_r, Z.pow_mul_r, Z.pow_1_r by lia. rewrite Z.pow_2_r. rewrite <- Z.pow_mul_l. done.
  - apply IH; [done|]. rewrite Hz, Hv, Hs, Z.add_0_r, Z.pow_mul_r, Z.pow_2_r, Z.pow_mul_l by lia. done.
Qed.

Lemma of_u32_wf v : is_digit v -> wf (of_u32 v).
Proof. intros Hv. split; try done. by constructor. Qed.

Lemma exp_spec x e : wf x -> ok (digits e) -> wf (exp x e) /\ zval (exp x e) = zval x ^ val (digits e).
Proof.
  intros Hx He. pose proof (exponent_start e He) as Hs. pose proof (bit_len_nonneg e He).
  destruct (exp_loop_spec (Z.to_nat (bit_len e)) x e (of_u32 1)) as [Hw Hz]; [done..| | |].
  - apply of_u32_wf. unfold is_digit. lia.
  - rewrite Z2Nat.id by done. by rewrite Hs.
  - unfold exp. destruct (strip_wf _ (wf_ok _ Hw) (wf_ne _ Hw)) as [? ->]. done.
Qed.
