(* ===== verification/BigNumDiv.v ===== *)
(** Division of BigNum: the loop of long division computes quotient and
    remainder whenever no quotient digit was estimated too large, which never
    happens for divisors of one or two digits and does happen for longer ones. *)
From S2P Require Import Prelude Types BigNum BigNumProofs BigNumMul.

(** * Building blocks *)

(** Literal lists of digits. *)
Ltac ok_list := repeat (apply Forall_cons; split; [done|]); apply Forall_nil; done.

Lemma geb_spec a b : ok (digits a) -> ok (digits b) -> neg a = false -> neg b = false ->
  geb a b = (val (digits b) <=? val (digits a)).
Proof.
  intros Ha Hb Na Nb. unfold geb. rewrite compare_magnitude by (try done; by rewrite Na, Nb).
  destruct (Z.sgn_spec (val (digits a) - val (digits b))) as [[? ->]|[[? ->]|[? ->]]]; symmetry;
    [apply Z.leb_le|apply Z.leb_le|apply Z.leb_gt]; lia.
Qed.

Lemma gtb_spec a b : ok (digits a) -> ok (digits b) -> neg a = false -> neg b = false ->
  gtb a b = (val (digits b) <? val (digits a)).
Proof.
  intros Ha Hb Na Nb. unfold gtb. rewrite compare_magnitude by (try done; by rewrite Na, Nb).
  destruct (Z.sgn_spec (val (digits a) - val (digits b))) as [[? ->]|[[? ->]|[? ->]]]; symmetry;
    [apply Z.ltb_lt|apply Z.ltb_ge|apply Z.ltb_ge]; lia.
Qed.

Lemma abs_nonneg x : neg x = false -> abs x = strip_lz x.
Proof. intros E. unfold abs, copy. by rewrite E. Qed.

Lemma strip_val x : digits x <> [] -> val (digits (strip_lz x)) = val (digits x).
Proof. intros H. by destruct (strip_digits x H). Qed.

(** The number of digits is decided by the value. *)
Lemma length_of_val x k : wf x -> base k <= val (digits x) < base (S k) -> length (digits x) = S k.
Proof.
  intros [W1 W2 W3 _] Hv. destruct (haslz_val x W1 W2 W3) as [_ Hl]. pose proof (val_bound _ W1) as Hb.
  assert (0 < length (digits x))%nat by (destruct (digits x); simpl; [done|lia]).
  assert (forall i j, base i < base j -> (i < j)%nat) as Hm.
  { intros i j Hij. apply Nat.nle_gt. intros Hji. assert (base j <= base i); [apply Z.pow_le_mono_r; lia|lia]. }
  assert (k < length (digits x))%nat by (apply Hm; lia).
  destruct (decide (length (digits x) = 1%nat)); [lia|].
  assert (length (digits x) - 1 < S k)%nat by (apply Hm; specialize (Hl ltac:(lia)); lia). lia.
Qed.

(** A smaller number without leading zeros has no more digits. *)
Lemma length_le x n : ok (digits x) -> digits x <> [] -> wf n -> val (digits n) <= val (digits x) ->
  (length (digits n) <= length (digits x))%nat.
Proof.
  intros Hx Hne [N1 N2 N3 _] Hle. destruct (haslz_val n N1 N2 N3) as [_ Hl]. pose proof (val_bound _ Hx) as Hb.
  destruct (Nat.le_gt_cases (length (digits n)) (length (digits x))) as [|Hgt]; [done|].
  assert (0 < length (digits x))%nat by (destruct (digits x); simpl; [done|lia]).
  specialize (Hl ltac:(lia)). assert (base (length (digits x)) <= base (length (digits n) - 1)); [|lia].
  apply Z.pow_le_mono_r; lia.
Qed.

(** A value has one representation. *)
Lemma val_inj ds es : ok ds -> ok es -> length ds = length es -> val ds = val es -> ds = es.
Proof.
  intros Hd. revert es. induction Hd as [|d ds Hd _ IH]; intros es He Hl Hv; [by destruct es|].
  destruct He as [|e es He1 He2]; [done|]. cbn [val] in Hv. unfold is_digit in *. simpl in Hl.
  assert (d = e) as -> by lia. f_equal. apply IH; [done|lia|lia].
Qed.

Lemma wf_inj x y : wf x -> wf y -> zval x = zval y -> x = y.
Proof.
  intros Hx Hy E. pose proof Hx as [X1 X2 _ _]. pose proof Hy as [Y1 Y2 _ _].
  destruct (wf_neg x Hx) as [Xn Xp], (wf_neg y Hy) as [Yn Yp].
  assert (neg x = neg y) as En.
  { destruct (neg x), (neg y); try done; [specialize (Xn eq_refl); specialize (Yp eq_refl)|specialize (Xp eq_refl); specialize (Yn eq_refl)]; lia. }
  assert (val (digits x) = val (digits y)) as Ev by (unfold zval in E; rewrite En in E; destruct (neg y); lia).
  pose proof (length_le x y X1 X2 Hy ltac:(lia)). pose proof (length_le y x Y1 Y2 Hx ltac:(lia)).
  destruct x as [dx nx], y as [dy ny]. cbn [digits neg] in *. subst. f_equal. apply val_inj; [done|done|lia|done].
Qed.

Lemma sub_ok x n : ok (digits x) -> digits x <> [] -> neg x = false -> wf n -> neg n = false ->
  val (digits n) <= val (digits x) ->
  exists r, sub x n = Ok r /\ wf r /\ neg r = false /\ val (digits r) = val (digits x) - val (digits n).
Proof.
  intros Hx Hne Nx Hn Nn Hle. pose proof Hn as [N1 N2 N3 _]. unfold sub.
  rewrite geb_spec by (rewrite abs_nonneg by done; first [by apply strip_ok|by apply strip_nonneg]).
  rewrite !abs_nonneg, !strip_val by done. assert ((val (digits n) <=? val (digits x)) = true) as -> by lia.
  pose proof (length_le x n Hx Hne Hn Hle). destruct (Nat.ltb_spec (length (digits x)) (length (digits n))); [lia|].
  cbn [negb orb]. destruct (sub_loop_ge _ _ Hx N1 ltac:(lia) Hle) as (Hr & Hl & Hv).
  assert (sub_loop (digits x) (digits n) 0 <> []) as Hnil by (intros E; rewrite E in Hl; destruct (digits x); simpl in *; done).
  eexists. split; [reflexivity|]. rewrite Nx. destruct (ok_strip_zval _ false Hr Hnil) as [Hw _]. split_and!; [done|by apply strip_nonneg|].
  by rewrite strip_val.
Qed.

Lemma sub_undef x n : ok (digits x) -> digits x <> [] -> neg x = false -> wf n -> neg n = false ->
  val (digits x) < val (digits n) -> sub x n = Undef.
Proof.
  intros Hx Hne Nx [N1 N2 N3 _] Nn Hlt. unfold sub.
  rewrite geb_spec by (rewrite abs_nonneg by done; first [by apply strip_ok|by apply strip_nonneg]).
  rewrite !abs_nonneg, !strip_val by done. by assert ((val (digits n) <=? val (digits x)) = false) as -> by lia.
Qed.

(** * One digit of divisor *)

Lemma div1_loop_spec ds Y : ok ds -> 0 < Y < 2 ^ 32 ->
  let '(q, r) := div1_loop ds Y in
  ok q /\ length q = length ds /\ val q = val ds / Y /\ r = val ds mod Y.
Proof.
  intros Hok HY. induction Hok as [|x0 ds Hx Hok IH]; [cbn; by rewrite Z.div_0_l, Z.mod_0_l by lia|].
  cbn [div1_loop]. destruct (div1_loop ds Y) as [q c]. destruct IH as (Hq & Hl & Hv & ->). unfold is_digit in Hx.
  pose proof (Z.mod_pos_bound (val ds) Y ltac:(lia)) as Hm. pose proof (Z.div_mod (val ds) Y ltac:(lia)) as Hd.
  rewrite Z.shiftl_mul_pow2 by lia. rewrite (w64_small (val ds mod Y * 2 ^ 32)) by lia.
  set (X := x0 + val ds mod Y * 2 ^ 32). assert (0 <= X < 2 ^ 32 * Y) as HX by (unfold X; nia).
  rewrite (w64_small X) by nia. pose proof (Z.mod_pos_bound X Y ltac:(lia)) as HmX. pose proof (Z.div_mod X Y ltac:(lia)) as HdX.
  assert (is_digit (X / Y)) as Hdig by (split; [apply Z.div_pos; lia|apply Z.div_lt_upper_bound; lia]).
  pose proof (Z.mod_le X Y ltac:(lia) ltac:(lia)).
  assert (X < 2 ^ 64) by nia. assert (X / Y * Y = X - X mod Y) as Hmul by lia.
  rewrite (w32_small _ Hdig), Hmul, (w64_small (X - X mod Y)) by lia.
  replace (X - (X - X mod Y)) with (X mod Y) by lia. rewrite w64_small by lia.
  cbn [val length]. rewrite Hv. split_and!; [by constructor|lia| |].
  - apply Z.div_unique with (X mod Y); [lia|]. unfold X in *. lia.
  - apply Z.mod_unique with (X / Y + 2 ^ 32 * (val ds / Y)); [lia|]. unfold X in *. lia.
Qed.

(** * The estimate of a quotient digit *)

Lemma three_digits ds k : ok ds -> val ds < base (k + 3) ->
  digit ds k + 2 ^ 32 * digit ds (k + 1) + 2 ^ 64 * digit ds (k + 2) = val ds / base k.
Proof.
  intros Hok Hv. pose proof (val_nonneg _ Hok). pose proof (base_pos k).
  assert (forall j, val ds / base (k + j) = val ds / base k / base j) as Hd.
  { intros j. rewrite base_add, Z.div_div by (pose proof (base_pos j); lia). done. }
  rewrite !digit_val, !Hd by done. set (Q := val ds / base k).
  assert (0 <= Q < 2 ^ 96) as HQ.
  { unfold Q. split; [apply Z.div_pos; lia|apply Z.div_lt_upper_bound; [lia|]]. rewrite base_add in Hv. exact Hv. }
  change (base 1) with (2 ^ 32). change (base 2) with (2 ^ 64).
  rewrite (Z.mod_small (Q / 2 ^ 64)) by (split; [apply Z.div_pos; lia|apply Z.div_lt_upper_bound; lia]).
  assert (Q / 2 ^ 64 = Q / 2 ^ 32 / 2 ^ 32) as -> by (rewrite Z.div_div by lia; done).
  pose proof (Z.div_mod Q (2 ^ 32)). pose proof (Z.div_mod (Q / 2 ^ 32) (2 ^ 32)). lia.
Qed.

Section estimate.
Context (Y H b v v2 h1 h0 hm : Z).
Context (Hb : 0 < b) (Hv : 2 ^ 31 <= v < 2 ^ 32) (Hv2 : is_digit v2).
Context (Hh1 : is_digit h1) (Hh0 : is_digit h0) (Hhm : is_digit hm).
Context (HY : (v2 + 2 ^ 32 * v) * b <= Y < (v2 + 2 ^ 32 * v + 1) * b).
Context (HH : (hm + 2 ^ 32 * h0 + 2 ^ 64 * h1) * b <= H < (hm + 2 ^ 32 * h0 + 2 ^ 64 * h1 + 1) * b).
Context (Hlt : H < 2 ^ 32 * Y).

Definition estimate : Z := if h1 =? v then 2 ^ 32 - 1 else (h1 * 2 ^ 32 + h0) / v.

Lemma Y_pos : 0 < Y.
Proof. unfold is_digit in *. pose proof (Z.mul_pos_pos (v2 + 2 ^ 32 * v) b). lia. Qed.

Lemma Y_lt : Y < 2 ^ 32 * (v + 1) * b.
Proof.
  unfold is_digit in *. pose proof (Z.mul_le_mono_nonneg_r (v2 + 2 ^ 32 * v + 1) (2 ^ 32 * (v + 1)) b). lia.
Qed.

Lemma H_ge h : h <= h1 * 2 ^ 32 + h0 -> h * (2 ^ 32 * b) <= H.
Proof.
  intros Hle. unfold is_digit in *.
  pose proof (Z.mul_le_mono_nonneg_r (h * 2 ^ 32) (hm + 2 ^ 32 * h0 + 2 ^ 64 * h1) b). lia.
Qed.

Lemma top_le : h1 <= v.
Proof.
  pose proof Y_lt. unfold is_digit in *. apply Z.lt_succ_r, Z.nle_gt. intros Hgt.
  pose proof (H_ge ((v + 1) * 2 ^ 32) ltac:(lia)). lia.
Qed.

Lemma quotient_digit : 0 <= H / Y < 2 ^ 32.
Proof.
  pose proof Y_pos. unfold is_digit in *. pose proof (H_ge 0 ltac:(lia)).
  split; [apply Z.div_pos; lia|apply Z.div_lt_upper_bound; lia].
Qed.

Lemma estimate_mul : estimate * v <= h1 * 2 ^ 32 + h0.
Proof.
  unfold estimate. unfold is_digit in *. destruct (Z.eqb_spec h1 v) as [->|]; [lia|].
  pose proof (Z.mul_div_le (h1 * 2 ^ 32 + h0) v). lia.
Qed.

Lemma estimate_digit : is_digit estimate.
Proof.
  unfold estimate, is_digit in *. pose proof top_le. destruct (Z.eqb_spec h1 v); [lia|].
  split; [apply Z.div_pos; lia|apply Z.div_lt_upper_bound; lia].
Qed.

Lemma estimate_ge : H / Y <= estimate.
Proof.
  pose proof Y_pos. pose proof quotient_digit as Hq. unfold estimate, is_digit in *.
  destruct (Z.eqb_spec h1 v); [lia|]. apply Z.div_le_lower_bound; [lia|].
  pose proof (Z.mul_div_le H Y ltac:(lia)) as Hm. set (q := H / Y) in *.
  assert (2 ^ 32 * v * b * q <= Y * q).
  { apply Z.mul_le_mono_nonneg_r; [lia|]. pose proof (Z.mul_nonneg_nonneg v2 b). lia. }
  apply Z.lt_succ_r, (Z.mul_lt_mono_pos_r (2 ^ 32 * b)); [lia|].
  pose proof (Z.mul_le_mono_nonneg_r (hm + 1) (2 ^ 32) b). lia.
Qed.

Lemma estimate_le : estimate <= H / Y + 2.
Proof.
  pose proof Y_pos. pose proof Y_lt. pose proof estimate_mul as Hm. pose proof estimate_digit as Hd. pose proof quotient_digit.
  unfold is_digit in *. set (e := estimate) in *. destruct (Z.leb_spec e 2); [lia|].
  enough (e - 2 <= H / Y) by lia. apply Z.div_le_lower_bound; [lia|].
  pose proof (H_ge ((e - 2) * (v + 1)) ltac:(lia)).
  pose proof (Z.mul_le_mono_nonneg_l Y (2 ^ 32 * (v + 1) * b) (e - 2)). lia.
Qed.

(** A digit that is not too large passes the test on two and three digits. *)
Lemma test_passes q : q <= H / Y -> q * (v2 + 2 ^ 32 * v) <= hm + 2 ^ 32 * h0 + 2 ^ 64 * h1.
Proof.
  intros Hq. pose proof Y_pos. pose proof quotient_digit. pose proof (Z.mul_div_le H Y ltac:(lia)).
  unfold is_digit in *. destruct (Z.leb_spec q 0) as [Hq0|Hq0].
  { pose proof (Z.mul_le_mono_nonneg_r q 0 (v2 + 2 ^ 32 * v)). lia. }
  apply Z.lt_succ_r, (Z.mul_lt_mono_pos_r b); [done|].
  pose proof (Z.mul_le_mono_nonneg_l _ _ q ltac:(lia) (proj1 HY)).
  pose proof (Z.mul_le_mono_nonneg_l _ _ Y ltac:(lia) Hq). lia.
Qed.

Lemma adjust_loop_spec fuel q :
  is_digit q -> H / Y <= q -> q - H / Y < Z.of_nat fuel ->
  exists q', adjust_loop fuel {| digits := [v2; v]; neg := false |} {| digits := [hm; h0; h1]; neg := false |} q = Ok q' /\
    is_digit q' /\ H / Y <= q' /\ q' * (v2 + 2 ^ 32 * v) <= hm + 2 ^ 32 * h0 + 2 ^ 64 * h1.
Proof.
  pose proof quotient_digit as Hqd. assert (is_digit v) as Hvd by (unfold is_digit; lia).
  revert q. induction fuel as [|fuel IH]; intros q Hq Hle Hf; [lia|]. cbn [adjust_loop].
  destruct (mul1_spec {| digits := [v2; v]; neg := false |} q false) as [Hw Hz]; [ok_list|done|done|].
  destruct (wf_neg _ Hw) as [Hneg Hpos]. unfold zval at 2 in Hz. cbn [digits neg val] in Hz.
  assert (neg (mul1 {| digits := [v2; v]; neg := false |} q false) = false) as Nm.
  { destruct (neg (mul1 _ q false)); [|done]. specialize (Hneg eq_refl). unfold is_digit in *. nia. }
  destruct (Hpos Nm) as [_ Hval]. rewrite gtb_spec by (done || apply Hw || (cbn [digits]; ok_list)).
  rewrite <- Hval, Hz. cbn [digits val]. destruct (Z.ltb_spec (hm + 2 ^ 32 * (h0 + 2 ^ 32 * (h1 + 2 ^ 32 * 0)))
    ((v2 + 2 ^ 32 * (v + 2 ^ 32 * 0)) * q)) as [Hgt|Hng].
  - assert (H / Y < q) as Hlt'.
    { apply Z.nle_gt. intros Hc. pose proof (test_passes q Hc). lia. }
    rewrite w32_small by (unfold is_digit in *; lia). apply IH; [unfold is_digit in *; lia|lia|lia].
  - exists q. split_and!; [done..|lia].
Qed.
End estimate.

(** * One digit of the quotient *)

Lemma mul1_nonneg x q : wf x -> neg x = false -> is_digit q ->
  wf (mul1 x q false) /\ neg (mul1 x q false) = false /\ val (digits (mul1 x q false)) = val (digits x) * q.
Proof.
  intros Hx Nx Hq. pose proof Hx as [W1 W2 _ _]. destruct (mul1_spec x q false W1 W2 Hq) as [Hw Hz].
  destruct (wf_neg _ Hw) as [Hn Hp], (wf_neg _ Hx) as [_ Hxp]. destruct (Hxp Nx) as [Hx0 Hxv].
  destruct (neg (mul1 x q false)) eqn:E.
  - specialize (Hn eq_refl). unfold is_digit in Hq. pose proof (Z.mul_nonneg_nonneg (zval x) q). lia.
  - destruct (Hp eq_refl) as [_ Hv]. split_and!; [done..|]. rewrite <- Hv, Hz, Hxv. done.
Qed.

Lemma not_negative v : wf v -> neg v = false -> ltb v zero = false.
Proof.
  intros [V1 _ _ _] Nv. unfold ltb. rewrite compare_magnitude by (apply zero_wf || (by rewrite Nv) || done).
  pose proof (val_nonneg _ V1). change (val (digits zero)) with 0. apply Z.ltb_ge.
  rewrite Z.sub_0_r. by apply Z.sgn_nonneg.
Qed.

Section normalized.
Context (t : nat) (y : BigNum).
Context (Ht : (1 <= t)%nat) (Hy : wf y) (Ny : neg y = false) (Ly : length (digits y) = S t).
Context (Hmsd : 2 ^ 31 <= digit (digits y) t).
Local Abbreviation Y := (val (digits y)).

Lemma divisor_digits :
  (digit (digits y) (t - 1) + 2 ^ 32 * digit (digits y) t) * base (t - 1) <= Y <
  (digit (digits y) (t - 1) + 2 ^ 32 * digit (digits y) t + 1) * base (t - 1).
Proof.
  pose proof Hy as [W1 _ _ _]. pose proof (val_bound _ (ok_take (t - 1) _ W1)) as Hb. rewrite length_take in Hb.
  replace (min (t - 1) (length (digits y))) with (t - 1)%nat in Hb by lia.
  assert (Y = val (take (S t) (digits y))) as -> by (rewrite firstn_all2 by lia; done).
  pose proof (val_take_S (t - 1) (digits y)) as H1. pose proof (base_S (t - 1)) as H2.
  replace (S (t - 1)) with t in H1, H2 by lia. rewrite val_take_S, H1, H2. lia.
Qed.

Lemma divisor_bounds : 2 ^ 31 * base t <= Y < base (S t).
Proof.
  pose proof Hy as [W1 _ _ _]. pose proof (val_bound _ W1) as Hb. rewrite Ly in Hb. split; [|lia].
  pose proof (val_nonneg _ (ok_take t _ W1)). pose proof (base_pos t).
  assert (Y = val (take (S t) (digits y))) as -> by (rewrite firstn_all2 by lia; done).
  rewrite val_take_S. pose proof (Z.mul_le_mono_nonneg_r (2 ^ 31) (digit (digits y) t) (base t)). lia.
Qed.

Lemma digit_drop ds d k : digit (drop d ds) k = digit ds (d + k).
Proof. unfold digit. revert ds. induction d as [|d IH]; intros [|e ds]; simpl; try done. by destruct k. Qed.

(** The estimated digit is right or one or two too large. *)
Lemma estimated_digit H d x :
  ok (digits x) -> H = val (drop d (digits x)) -> H < 2 ^ 32 * Y ->
  exists q,
    (let xd k := digit (digits x) k in
     let i := (d + t + 1)%nat in
     let ymsd := digit (digits y) t in
     adjust_loop 4 {| digits := [digit (digits y) (t - 1); ymsd]; neg := false |}
       {| digits := [xd (i - 2)%nat; xd (i - 1)%nat; xd i]; neg := false |}
       (if xd i =? ymsd then 0xFFFFFFFF else w32 (w64 (w64 (Z.shiftl (xd i) 32) + xd (i - 1)%nat) / ymsd))) = Ok q /\
    is_digit q /\ H / Y <= q /\ (t = 1%nat -> q = H / Y).
Proof.
  intros Hx HH Hlt. pose proof Hy as [W1 _ _ _]. pose proof divisor_digits as Hd. pose proof divisor_bounds as Hbd.
  pose proof (ok_drop d _ Hx) as Hok. cbv zeta.
  replace (d + t + 1 - 2)%nat with (d + (t - 1))%nat by lia.
  replace (d + t + 1 - 1)%nat with (d + (t - 1 + 1))%nat by lia.
  replace (d + t + 1)%nat with (d + (t - 1 + 2))%nat by lia. rewrite <- !(digit_drop (digits x)).
  pose proof (three_digits (drop d (digits x)) (t - 1) Hok) as H3. rewrite <- HH in H3.
  replace (t - 1 + 3)%nat with (S (S t)) in H3 by lia. rewrite (base_S (S t)) in H3. specialize (H3 ltac:(lia)).
  set (hm := digit (drop d (digits x)) (t - 1)) in *. set (h0 := digit (drop d (digits x)) (t - 1 + 1)) in *.
  set (h1 := digit (drop d (digits x)) (t - 1 + 2)) in *. set (v := digit (digits y) t) in *.
  set (v2 := digit (digits y) (t - 1)) in *.
  assert (is_digit hm /\ is_digit h0 /\ is_digit h1 /\ is_digit v /\ is_digit v2) as (Dm & D0 & D1 & Dv & Dv2)
    by (split_and!; by apply digit_ok).
  pose proof (base_pos (t - 1)) as Hb.
  assert ((hm + 2 ^ 32 * h0 + 2 ^ 64 * h1) * base (t - 1) <= H < (hm + 2 ^ 32 * h0 + 2 ^ 64 * h1 + 1) * base (t - 1)) as HH3.
  { rewrite H3. pose proof (Z.div_mod H (base (t - 1)) ltac:(lia)). pose proof (Z.mod_pos_bound H (base (t - 1)) Hb). lia. }
  assert (2 ^ 31 <= v < 2 ^ 32) as Hv by (unfold is_digit in Dv; lia).
  pose proof (estimate_digit Y H (base (t - 1)) v v2 h1 h0 hm Hb Hv Dv2 D1 D0 Dm Hd HH3 Hlt) as Ed.
  assert ((if h1 =? v then 0xFFFFFFFF else w32 (w64 (w64 (Z.shiftl h1 32) + h0) / v)) = estimate v h1 h0) as ->.
  { unfold estimate in *. destruct (h1 =? v); [done|]. unfold is_digit in *.
    rewrite Z.shiftl_mul_pow2, (w64_small (h1 * 2 ^ 32)), w64_small by lia. by apply w32_small. }
  destruct (adjust_loop_spec Y H (base (t - 1)) v v2 h1 h0 hm Hb Hv Dv2 D1 D0 Dm Hd HH3 Hlt 4 (estimate v h1 h0) Ed) as (q & Hq & Dq & Hge & Hle).
  - by eapply (estimate_ge Y H (base (t - 1)) v v2 h1 h0 hm).
  - epose proof (estimate_le Y H (base (t - 1)) v v2 h1 h0 hm Hb Hv Dv2 D1 D0 Dm Hd HH3 Hlt). lia.
  - exists q. split_and!; [done..|]. intros E. assert (base (t - 1) = 1) as E1 by (rewrite E; done). rewrite E1 in Hd, HH3.
    assert (Y = v2 + 2 ^ 32 * v) as EY by lia. rewrite EY in *.
    assert (q <= H / (v2 + 2 ^ 32 * v)); [|lia]. apply Z.div_le_lower_bound; [unfold is_digit in *; lia|]. lia.
Qed.

Lemma view_val d x : (d <= length (digits x))%nat ->
  val (digits x) = val (take d (digits x)) + base d * val (drop d (digits x)).
Proof. intros Hd. rewrite (val_take_drop d) at 1. rewrite length_take. by replace (min d (length (digits x))) with d by lia. Qed.

Lemma take_bound d x : ok (digits x) -> (d <= length (digits x))%nat -> 0 <= val (take d (digits x)) < base d.
Proof.
  intros Hx Hd. pose proof (val_bound _ (ok_take d _ Hx)) as Hb. rewrite length_take in Hb.
  by replace (min d (length (digits x))) with d in Hb by lia.
Qed.

(** What the loop keeps: [d] digits of the quotient are still to come. *)
Record todo (d : nat) (x : BigNum) : Prop := {
  todo_ok : ok (digits x);
  todo_neg : neg x = false;
  todo_len : (d < length (digits x))%nat;
  todo_lt : val (digits x) < base d * Y;
  todo_wf : d = O -> wf x
}.

(** Replacing the view by a number below the divisor. *)
Lemma view_todo d x v :
  ok (digits x) -> (d <= length (digits x))%nat -> wf v -> neg v = false -> val (digits v) < Y ->
  let x' := {| digits := take d (digits x) ++ digits v; neg := neg v |} in
  todo d x' /\ val (digits x') = val (digits x) - base d * (val (drop d (digits x)) - val (digits v)).
Proof.
  intros Hx Hd Hv Nv Hlt. pose proof Hv as [V1 V2 _ _]. pose proof (take_bound d x Hx Hd). pose proof (base_pos d).
  assert (length (take d (digits x)) = d) as Hl by (rewrite length_take; lia).
  cbv zeta. cbn [digits]. rewrite (view_val d x Hd), val_app, Hl. split; [|lia]. split; cbn [digits neg].
  - apply Forall_app. split; [by apply ok_take|done].
  - done.
  - rewrite length_app, Hl. destruct (digits v); [done|simpl; lia].
  - rewrite val_app, Hl. pose proof (Z.mul_le_mono_nonneg_l (val (digits v) + 1) Y (base d)). lia.
  - intros ->. destruct v. done.
Qed.

Lemma div_digit_spec d x : todo (S d) x ->
  (div_digit t d x y = Undef /\ t <> 1%nat) \/
  exists x' q, div_digit t d x y = Ok (x', q) /\ is_digit q /\ todo d x' /\ val (digits x) = base d * q * Y + val (digits x').
Proof.
  intros [T1 T2 T3 T4 _]. set (H := val (drop d (digits x))).
  pose proof divisor_bounds as Hbd. pose proof (base_pos d). pose proof (base_pos t). pose proof (view_val d x ltac:(lia)) as Hxv. fold H in Hxv.
  pose proof (take_bound d x T1 ltac:(lia)) as Htk. pose proof (ok_drop d _ T1) as Hok.
  assert (H < 2 ^ 32 * Y) as Hlt.
  { apply (Z.mul_lt_mono_pos_l (base d)); [done|]. rewrite base_S in T4. lia. }
  destruct (estimated_digit H d x T1 eq_refl Hlt) as (q & Hadj & Dq & Hge & Heq).
  unfold div_digit. cbv zeta in *. rewrite Hadj. cbn [rbind]. unfold on_view.
  destruct (Nat.ltb_spec (length (digits x)) d); [lia|].
  destruct (mul1_nonneg y q Hy Ny Dq) as (Hm & Nm & Vm).
  assert (drop d (digits x) <> []) as Hne.
  { intros E%(f_equal length). rewrite length_drop in E. simpl in E. lia. }
  set (v := {| digits := drop d (digits x); neg := neg x |}).
  pose proof (Z.div_mod H Y ltac:(lia)) as Hdm. pose proof (Z.mod_pos_bound H Y ltac:(lia)) as Hmb.
  destruct (Z.eq_dec q (H / Y)) as [Eq|Nq].
  - right. assert (val (digits (mul1 y q false)) <= H) as Hle by (rewrite Vm, Eq; lia).
    destruct (sub_ok v (mul1 y q false) Hok Hne T2 Hm Nm Hle) as (r & -> & Wr & Nr & Vr). cbn [rbind].
    rewrite not_negative by done. cbn [rbind].
    assert (val (digits r) = H mod Y) as Er by (rewrite Vr, Vm, Eq; change (val (digits v)) with H; lia).
    destruct (view_todo d x r T1 ltac:(lia) Wr Nr ltac:(lia)) as [Ht' Hv'].
    eexists _, q. split_and!; [reflexivity|done|done|]. rewrite Hv', Er. fold H. rewrite Eq. lia.
  - left. rewrite (sub_undef v (mul1 y q false) Hok Hne T2 Hm Nm); [split; [done|tauto]|].
    rewrite Vm. change (val (digits v)) with H. pose proof (Z.mul_le_mono_nonneg_l (H / Y + 1) q Y). lia.
Qed.

Lemma div_loop_spec d x : todo d x ->
  (div_loop t d x y = Undef /\ t <> 1%nat) \/
  exists x' qs, div_loop t d x y = Ok (x', qs) /\ ok qs /\ length qs = d /\ todo O x' /\
    val (digits x) = val qs * Y + val (digits x').
Proof.
  revert x. induction d as [|d IH]; intros x Hx; cbn [div_loop].
  { right. exists x, []. split_and!; [done..|simpl; lia]. }
  destruct (div_digit_spec d x Hx) as [[-> ?]|(x1 & q & -> & Dq & Hx1 & E1)]; [by left|]. cbn [rbind].
  destruct (IH x1 Hx1) as [[-> ?]|(x2 & qs & -> & Hqs & Hl & Hx2 & E2)]; [by left|]. cbn [rbind].
  right. exists x2, (qs ++ [q]). split_and!; [done| | |done|].
  - apply Forall_app. split; [done|ok_list].
  - rewrite length_app. simpl. lia.
  - rewrite val_app, Hl. simpl. lia.
Qed.

(** The divisor fits at most once into as many digits as it has. *)
Lemma top_loop_spec v : ok (digits v) -> digits v <> [] -> neg v = false -> val (digits v) < 2 * Y ->
  (val (digits v) < Y /\ top_loop 3 v y 0 = Ok (v, 0)) \/
  exists r, top_loop 3 v y 0 = Ok (r, 1) /\ wf r /\ neg r = false /\ val (digits r) = val (digits v) - Y /\ val (digits r) < Y.
Proof.
  intros Hv Hne Nv Hlt. pose proof Hy as [W1 _ _ _]. cbn [top_loop]. rewrite geb_spec by done.
  destruct (Z.leb_spec Y (val (digits v))) as [Hle|Hgt]; [|by left].
  destruct (sub_ok v y Hv Hne Nv Hy Ny Hle) as (r & -> & Hr & Nr & Vr). cbn [rbind].
  rewrite geb_spec by (done || apply Hr). destruct (Z.leb_spec Y (val (digits r))); [lia|].
  right. exists r. by split_and!.
Qed.

(** From the normalized operands to the digits of the quotient. *)
Lemma long_division x : wf x -> neg x = false -> Y < val (digits x) ->
  (div_long t x y = Undef /\ t <> 1%nat) \/
  exists x' q, div_long t x y = Ok (x', q) /\ ok q /\ q <> [] /\ todo O x' /\ val (digits x) = val q * Y + val (digits x').
Proof.
  intros Hx Nx Hgt. pose proof Hx as [X1 X2 _ _]. pose proof divisor_bounds as Hbd.
  unfold div_long. set (d := (length (digits x) - 1 - t)%nat).
  pose proof (length_le x y X1 X2 Hy ltac:(lia)) as Hl. rewrite Ly in Hl.
  assert (drop d (digits x) <> []) as Hne.
  { intros E%(f_equal length). rewrite length_drop in E. simpl in E. lia. }
  assert (val (drop d (digits x)) < 2 * Y) as H2.
  { pose proof (val_bound _ (ok_drop d _ X1)) as Hb. rewrite length_drop in Hb.
    replace (length (digits x) - d)%nat with (S t) in Hb by lia. rewrite base_S in Hb. lia. }
  pose proof (base_pos d). pose proof (take_bound d x X1 ltac:(lia)). pose proof (view_val d x ltac:(lia)) as Hxv.
  assert (exists x1 top, on_view d x (fun v => top_loop 3 v y 0) = Ok (x1, top) /\ todo d x1 /\ is_digit top /\
            val (digits x) = base d * top * Y + val (digits x1)) as (x1 & top & E1 & Ht1 & Dtop & V1).
  { unfold on_view. destruct (Nat.ltb_spec (length (digits x)) d); [lia|].
    destruct (top_loop_spec {| digits := drop d (digits x); neg := neg x |} (ok_drop d _ X1) Hne Nx H2)
      as [[Hlt ->]|(r & -> & Wr & Nr & Vr & Hr)]; cbn [rbind digits neg] in *.
    - exists x, 0. rewrite take_drop. split_and!; [by destruct x| |unfold is_digit; lia|lia].
      split; [done..|lia| |done]. pose proof (Z.mul_le_mono_nonneg_l (val (drop d (digits x)) + 1) Y (base d)). lia.
    - destruct (view_todo d x r X1 ltac:(lia) Wr Nr Hr) as [Ht' Hv'].
      eexists _, 1. split_and!; [reflexivity|done|unfold is_digit; lia|]. rewrite Hv', Vr. lia. }
  rewrite E1. cbn [rbind].
  destruct (div_loop_spec d x1 Ht1) as [[-> ?]|(x2 & qs & -> & Hqs & Hlq & Ht2 & V2)]; [by left|right]. cbn [rbind].
  eexists x2, _. split; [reflexivity|].
  destruct (Z.eqb_spec top 0) as [->|Hnz].
  - destruct qs as [|q0 qs].
    + split_and!; [constructor; [unfold is_digit; lia|done]|done|done|simpl in *; lia].
    + split_and!; [done..|lia].
  - split_and!; [apply Forall_app; split; [done|ok_list]|by destruct qs|done|].
    rewrite val_app, Hlq. simpl. lia.
Qed.
End normalized.

(** * Quotient and remainder *)

Lemma with_sign_spec x s : wf x -> neg x = false ->
  wf (with_sign x s) /\ zval (with_sign x s) = if s then - val (digits x) else val (digits x).
Proof.
  intros [W1 W2 W3 W4] Nx. pose proof (val_nonneg _ W1).
  assert (eqb x zero = (val (digits x) =? 0)) as E.
  { unfold eqb. rewrite compare_magnitude by (apply zero_wf || (by rewrite Nx) || done).
    change (val (digits zero)) with 0. rewrite Z.sub_0_r. destruct (Z.eqb_spec (val (digits x)) 0) as [->|]; [done|].
    rewrite Z.sgn_pos by lia. done. }
  unfold with_sign. rewrite E. split.
  - split; cbn [digits neg]; [done..|]. destruct s; [|done]. simpl. intros Hn. apply negb_true_iff, Z.eqb_neq in Hn. lia.
  - unfold zval. cbn [digits neg]. destruct s; simpl; [|done]. destruct (Z.eqb_spec (val (digits x)) 0) as [->|]; done.
Qed.

(** Quotient and remainder of the magnitudes, with the signs of the operands. *)
Definition signed_result (a b q r : BigNum) (Q R : Z) : Prop :=
  wf q /\ wf r /\ zval q = (if xorb (neg a) (neg b) then - Q else Q) /\ zval r = (if neg a then - R else R).

Lemma signed_quotient a b q r Q R :
  wf a -> wf b -> val (digits a) = Q * val (digits b) + R -> 0 <= R < val (digits b) ->
  signed_result a b q r Q R -> wf q /\ wf r /\ zval q = Z.quot (zval a) (zval b) /\ zval r = Z.rem (zval a) (zval b).
Proof.
  intros [A1 _ _ _] [B1 _ _ _] E HR (Hq & Hr & Eq & Er). split_and!; [done..| |]; rewrite ?Eq, ?Er; unfold zval;
    pose proof (val_nonneg _ A1) as HA.
  - assert (val (digits a) ÷ val (digits b) = Q) as <-.
    { rewrite Z.quot_div_nonneg by lia. symmetry. apply Z.div_unique with R; lia. }
    destruct (neg a), (neg b); simpl; rewrite ?Z.quot_opp_l, ?Z.quot_opp_r by lia; lia.
  - assert (Z.rem (val (digits a)) (val (digits b)) = R) as <-.
    { rewrite Z.rem_mod_nonneg by lia. symmetry. apply Z.mod_unique with Q; lia. }
    destruct (neg a), (neg b); rewrite ?Z.rem_opp_l, ?Z.rem_opp_r by lia; lia.
Qed.

Lemma two_digits v : 0 <= v < 2 ^ 64 ->
  let ds := w32 v :: (if Z.shiftr v 32 =? 0 then [] else [w32 (Z.shiftr v 32)]) in
  wf {| digits := ds; neg := false |} /\ val ds = v.
Proof.
  intros Hv ds. destruct (shr32_bound v (2 ^ 32) ltac:(lia)) as [Hs1 Hs2]. pose proof (split32 v) as E.
  assert (ok ds) as Hok.
  { unfold ds. case_match; repeat (apply Forall_cons; split; [apply w32_range|]); by apply Forall_nil. }
  assert (val ds = v) as Hval.
  { unfold ds. destruct (Z.eqb_spec (Z.shiftr v 32) 0) as [E0|]; cbn [val]; [lia|].
    rewrite (w32_small (Z.shiftr v 32)) by done. lia. }
  split; [|done]. split; [done|done| |done]. apply haslz_of_val; [done..|]. cbn [digits]. unfold ds in *.
  destruct (Z.eqb_spec (Z.shiftr v 32) 0); [by left|right]. rewrite Hval. cbn [length]. change (base (2 - 1)) with (2 ^ 32).
  pose proof (w32_range v) as Hw. unfold is_digit in Hw. lia.
Qed.

(** By one digit. *)
Lemma div_short a b q r : wf a -> wf b -> length (digits b) = 1%nat -> val (digits b) <> 0 ->
  div1_loop (digits a) (digit (digits b) 0) = (q, r) ->
  signed_result a b (strip_lz {| digits := q; neg := xorb (neg a) (neg b) |}) (with_sign (of_u32 (w32 r)) (neg a))
    (val (digits a) / val (digits b)) (val (digits a) mod val (digits b)).
Proof.
  intros [A1 A2 _ _] [B1 B2 _ _] Hl Hnz Hdiv. pose proof (val_nonneg _ B1).
  assert (val (digits b) = digit (digits b) 0) as EY.
  { destruct (digits b) as [|d [|? ?]]; try done. cbn. lia. }
  pose proof (digit_ok (digits b) 0 B1) as Hd. unfold is_digit in Hd. rewrite EY in *.
  pose proof (div1_loop_spec (digits a) (digit (digits b) 0) A1 ltac:(lia)) as Hspec. rewrite Hdiv in Hspec.
  destruct Hspec as (Hq & Hlq & Vq & ->). set (Y := digit (digits b) 0) in *.
  pose proof (Z.mod_pos_bound (val (digits a)) Y ltac:(lia)) as Hm.
  assert (q <> []) as Hne by (intros ->; destruct (digits a); done).
  destruct (ok_strip_zval q (xorb (neg a) (neg b)) Hq Hne) as [Wq Zq]. rewrite w32_small by (unfold is_digit; lia).
  destruct (with_sign_spec (of_u32 (val (digits a) mod Y)) (neg a)) as [Wr Zr]; [apply of_u32_wf; unfold is_digit; lia|done|].
  split_and!; [done..| |]; [by rewrite Zq, Vq|]. rewrite Zr. cbn [of_u32 digits val]. by rewrite Z.mul_0_r, Z.add_0_r.
Qed.

(** Two digits by two digits, in machine words. *)
Lemma div_words a b : wf a -> wf b -> length (digits a) = 2%nat -> length (digits b) = 2%nat ->
  let X := w64 (digit (digits a) 0 + w64 (Z.shiftl (digit (digits a) 1) 32)) in
  let Y := w64 (digit (digits b) 0 + w64 (Z.shiftl (digit (digits b) 1) 32)) in
  X = val (digits a) /\ Y = val (digits b) /\ 0 < Y < 2 ^ 64 /\ 0 <= X < 2 ^ 64.
Proof.
  intros [A1 A2 _ _] Hb Ha2 Hb2. pose proof Hb as [B1 B2 B3 _].
  destruct (haslz_val b B1 B2 B3) as [_ Hl]. specialize (Hl ltac:(lia)).
  pose proof (val_bound _ A1) as Ba. pose proof (val_bound _ B1) as Bb. rewrite Ha2 in Ba. rewrite Hb2 in Bb, Hl.
  change (base 2) with (2 ^ 64) in *. change (base (2 - 1)) with (2 ^ 32) in *.
  assert (forall ds, ok ds -> length ds = 2%nat -> w64 (digit ds 0 + w64 (Z.shiftl (digit ds 1) 32)) = val ds) as Hw.
  { intros ds Hok H2. destruct ds as [|d0 [|d1 [|? ?]]]; try done.
    inversion Hok as [|? ? H0 H1']; subst. inversion H1' as [|? ? H1 _]; subst. unfold is_digit in *.
    cbn [digit nth val]. rewrite Z.shiftl_mul_pow2, (w64_small (d1 * 2 ^ 32)), w64_small by lia. lia. }
  cbv zeta. rewrite !Hw by done. lia.
Qed.

(** Normalization makes the top digit of the divisor large and adds no digit. *)
Lemma normalize y t : wf y -> neg y = false -> length (digits y) = S t -> (1 <= t)%nat ->
  let norm := 31 - log2 (digit (digits y) t) in
  let y' := shl y norm in
  0 <= norm < 32 /\ wf y' /\ neg y' = false /\ length (digits y') = S t /\ 2 ^ 31 <= digit (digits y') t /\
  val (digits y') = val (digits y) * 2 ^ norm.
Proof.
  intros Hy Ny Hl Ht. pose proof Hy as [W1 W2 W3 _]. pose proof (val_top (digits y) W2) as Htop.
  pose proof (val_bound _ (ok_take t _ W1)) as Hlow. rewrite length_take, Hl in *. replace (min t (S t)) with t in Hlow by lia.
  replace (S t - 1)%nat with t in Htop by lia. destruct (haslz_top y W2 W3) as [?|Hd]; [lia|].
  rewrite Hl in Hd. replace (S t - 1)%nat with t in Hd by lia.
  pose proof (digit_ok (digits y) t W1) as Hm. unfold is_digit in Hm. set (m := digit (digits y) t) in *.
  rewrite log2_spec by lia. pose proof (Z.log2_spec m ltac:(lia)) as [Hk1 Hk2]. rewrite <- Z.add_1_r in Hk2.
  assert (0 <= Z.log2 m < 32) as Hk by (split; [apply Z.log2_nonneg|apply Z.log2_lt_pow2; lia]).
  set (norm := 31 - Z.log2 m). cbv zeta. pose proof (base_pos t) as Hb.
  destruct (shl_spec y norm W1 W2 ltac:(lia)) as [Wy Zy]. pose proof (shl_nonneg y norm Ny) as Ny'.
  destruct (wf_neg _ Wy) as [_ Hp]. destruct (Hp Ny') as [_ Vy]. unfold zval at 2 in Zy. rewrite Ny in Zy. rewrite Zy in Vy.
  assert (2 ^ 31 = 2 ^ Z.log2 m * 2 ^ norm) as E31 by (rewrite <- Z.pow_add_r by lia; f_equal; lia).
  assert (2 ^ 32 = 2 ^ (Z.log2 m + 1) * 2 ^ norm) as E32 by (rewrite <- Z.pow_add_r by lia; f_equal; lia).
  pose proof (Z.pow_pos_nonneg 2 norm ltac:(lia) ltac:(lia)) as Hn0.
  assert (2 ^ 31 * base t <= val (digits y) * 2 ^ norm) as Hlo.
  { rewrite E31. replace (2 ^ Z.log2 m * 2 ^ norm * base t) with (2 ^ Z.log2 m * base t * 2 ^ norm) by ring.
    apply Z.mul_le_mono_nonneg_r; [lia|]. pose proof (Z.mul_le_mono_nonneg_r (2 ^ Z.log2 m) m (base t)). lia. }
  assert (val (digits y) * 2 ^ norm < 2 ^ 32 * base t) as Hhi.
  { rewrite E32. replace (2 ^ (Z.log2 m + 1) * 2 ^ norm * base t) with (2 ^ (Z.log2 m + 1) * base t * 2 ^ norm) by ring.
    apply Z.mul_lt_mono_pos_r; [lia|]. pose proof (Z.mul_le_mono_nonneg_r (m + 1) (2 ^ (Z.log2 m + 1)) (base t)). lia. }
  split_and!; [lia|lia|done|done| | |lia].
  - apply length_of_val; [done|]. rewrite base_S. lia.
  - rewrite digit_val, <- Vy by apply Wy.
    assert (2 ^ 31 <= val (digits y) * 2 ^ norm / base t) by (apply Z.div_le_lower_bound; lia).
    rewrite Z.mod_small; [done|]. split; [lia|]. apply Z.div_lt_upper_bound; lia.
Qed.

(** The remainder is shifted back. *)
Lemma unshift x norm R : wf x -> neg x = false -> 0 <= norm -> val (digits x) = R * 2 ^ norm ->
  exists r, (if norm =? 0 then Ok x else right_shift x norm) = Ok r /\
    wf (strip_lz r) /\ neg (strip_lz r) = false /\ val (digits (strip_lz r)) = R.
Proof.
  intros Hx Nx Hn Hv. pose proof (Z.pow_pos_nonneg 2 norm ltac:(lia) Hn) as Hp.
  assert (exists r, (if norm =? 0 then Ok x else right_shift x norm) = Ok r /\ wf r /\ zval r = R) as (r & E & Hr & Zr).
  { destruct (wf_neg x Hx) as [_ Hz]. destruct (Hz Nx) as [Hz0 Hzv]. destruct (Z.eqb_spec norm 0) as [->|].
    - exists x. split_and!; [done..|]. rewrite Hzv, Hv. lia.
    - destruct (right_shift_spec x norm Hx Hn) as (r & -> & Hr & Zr). exists r. split_and!; [done..|].
      rewrite Zr, Hzv, Hv, Z.quot_mul by lia. done. }
  exists r. split; [done|]. pose proof Hr as [R1 R2 R3 R4]. destruct (strip_wf r R1 R2) as [Hs Zs].
  assert (0 <= R) as HR0 by (pose proof (val_nonneg _ (wf_ok _ Hx)); nia).
  destruct (wf_neg _ Hs) as [Hsn Hsp]. assert (neg (strip_lz r) = false) as Ns.
  { destruct (neg (strip_lz r)); [|done]. specialize (Hsn eq_refl). lia. }
  split_and!; [done..|]. destruct (Hsp Ns) as [_ <-]. lia.
Qed.

(** Long division of magnitudes [x] by [y], whatever the number of digits. *)
Lemma div_long_spec a b x y t :
  wf x -> neg x = false -> wf y -> neg y = false -> length (digits y) = S t -> (1 <= t)%nat ->
  val (digits y) < val (digits x) ->
  let norm := 31 - log2 (digit (digits y) t) in
  let run :=
    let! r := div_long t (shl x norm) (shl y norm) in
    let '(x, q) := r in
    let! rem := if norm =? 0 then Ok x else right_shift x norm in
    Ok (strip_lz {| digits := q; neg := xorb (neg a) (neg b) |}, with_sign (strip_lz rem) (neg a)) in
  (run = Undef /\ t <> 1%nat) \/
  exists q r, run = Ok (q, r) /\ signed_result a b q r (val (digits x) / val (digits y)) (val (digits x) mod val (digits y)).
Proof.
  intros Hx Nx Hy Ny Hl Ht Hgt norm run. pose proof Hx as [X1 X2 _ _].
  destruct (normalize y t Hy Ny Hl Ht) as (Hn & Wy & Ny' & Ly & Hmsd & Vy). fold norm in Hn, Wy, Ny', Ly, Hmsd, Vy.
  pose proof (Z.pow_pos_nonneg 2 norm ltac:(lia) ltac:(lia)) as Hp.
  destruct (shl_spec x norm X1 X2 ltac:(lia)) as [Wx Zx]. pose proof (shl_nonneg x norm Nx) as Nx'.
  destruct (wf_neg _ Wx) as [_ Hvx]. destruct (Hvx Nx') as [_ Vx]. unfold zval at 2 in Zx. rewrite Nx, Vx in Zx.
  pose proof (val_nonneg _ (wf_ok _ Hy)) as Hy0.
  destruct (long_division t _ Ht Wy Ny' Ly Hmsd _ Wx Nx') as [[E ?]|(x' & q & E & Hq & Hqn & [T1 T2 _ T4 T5] & Hdiv)].
  { rewrite Vy, Zx. by apply Z.mul_lt_mono_pos_r. }
  { left. unfold run. rewrite E. done. }
  right. change (base 0) with 1 in T4. rewrite Vy, Zx in *. pose proof (val_nonneg _ T1) as Hx'.
  set (Xv := val (digits x)) in *. set (Yv := val (digits y)) in *.
  pose (R := Xv - val q * Yv). assert (val (digits x') = R * 2 ^ norm) as HR by (unfold R; lia).
  assert (0 <= R < Yv) as HRb.
  { split; [apply (Z.mul_le_mono_pos_r _ _ (2 ^ norm)); lia|apply (Z.mul_lt_mono_pos_r (2 ^ norm)); lia]. }
  assert (Xv / Yv = val q) as -> by (symmetry; apply Z.div_unique with R; unfold R in *; lia).
  assert (Xv mod Yv = R) as -> by (symmetry; apply Z.mod_unique with (val q); unfold R in *; lia).
  destruct (unshift x' norm R (T5 eq_refl) T2 ltac:(lia) HR) as (r & Er & Wr & Nr & Vr).
  unfold run. rewrite E. cbn [rbind]. rewrite Er. cbn [rbind]. eexists _, _. split; [reflexivity|].
  destruct (ok_strip_zval q (xorb (neg a) (neg b)) Hq Hqn) as [Wq Zq].
  destruct (with_sign_spec (strip_lz r) (neg a) Wr Nr) as [Ws Zs]. rewrite Vr in Zs. by split_and!.
Qed.

(** Quotient and remainder of the operands themselves. *)
Definition quotient_of (a b q r : BigNum) : Prop :=
  wf q /\ wf r /\ zval q = Z.quot (zval a) (zval b) /\ zval r = Z.rem (zval a) (zval b).

Lemma div_smaller a b : wf a -> wf b -> val (digits a) < val (digits b) -> quotient_of a b zero a.
Proof.
  intros Ha [B1 _ _ _] Hlt. pose proof (val_nonneg _ (wf_ok _ Ha)). split_and!; [apply zero_wf|done| |].
  - change (zval zero) with 0. symmetry. apply Z.quot_small_iff; unfold zval; destruct (neg a), (neg b); lia.
  - symmetry. apply Z.rem_small_iff; unfold zval; destruct (neg a), (neg b); lia.
Qed.

Lemma div_two a b : wf a -> wf b -> length (digits a) = 2%nat -> length (digits b) = 2%nat ->
  let X := w64 (digit (digits a) 0 + w64 (Z.shiftl (digit (digits a) 1) 32)) in
  let Y := w64 (digit (digits b) 0 + w64 (Z.shiftl (digit (digits b) 1) 32)) in
  let R := w64 (X - w64 (Y * (X / Y))) in
  let two v := w32 v :: (if Z.shiftr v 32 =? 0 then [] else [w32 (Z.shiftr v 32)]) in
  signed_result a b (strip_lz {| digits := two (X / Y); neg := xorb (neg a) (neg b) |})
    (with_sign {| digits := two R; neg := false |} (neg a))
    (val (digits a) / val (digits b)) (val (digits a) mod val (digits b)).
Proof.
  intros Ha Hb La Lb X Y R two. destruct (div_words a b Ha Hb La Lb) as (EX & EY & HY & HX). fold X Y in EX, EY, HX, HY.
  rewrite <- EX, <- EY. clearbody X Y. pose proof (Z.mod_pos_bound X Y ltac:(lia)). pose proof (Z.div_mod X Y ltac:(lia)).
  assert (0 <= X / Y < 2 ^ 64) as HQ by (split; [apply Z.div_pos; lia|apply Z.div_lt_upper_bound; nia]).
  assert (R = X mod Y) as ->.
  { unfold R. rewrite (w64_small (Y * (X / Y))) by lia. replace (X - Y * (X / Y)) with (X mod Y) by lia. apply w64_small. lia. }
  destruct (two_digits (X / Y) HQ) as [[Q1 Q2 _ _] VQ], (two_digits (X mod Y) ltac:(lia)) as [WR VR].
  destruct (ok_strip_zval _ (xorb (neg a) (neg b)) Q1 Q2) as [Wq Zq]. cbn [digits] in Zq, Wq.
  destruct (with_sign_spec _ (neg a) WR eq_refl) as [Wr Zr]. cbn [digits] in Zr.
  unfold two. split_and!; [done..| |]; [by rewrite Zq, VQ|by rewrite Zr, VR].
Qed.

Lemma div_spec a b : wf a -> wf b -> zval b <> 0 ->
  (div a b = Undef /\ (2 < length (digits b))%nat) \/
  exists q r, div a b = Ok (q, r) /\
    if val (digits a) =? val (digits b) then q = of_u32 1 /\ r = zero
    else quotient_of a b q r.
Proof.
  intros Ha Hb Hnz. pose proof Ha as [A1 A2 A3 _]. pose proof Hb as [B1 B2 B3 _].
  destruct (abs_spec a Ha) as (Wx & Zx & Nx & Dx), (abs_spec b Hb) as (Wy & Zy & Ny & Dy).
  rewrite strip_id in Dx, Dy by done. pose proof (val_nonneg _ B1) as HB. pose proof (val_nonneg _ A1) as HA.
  assert (val (digits b) <> 0) as HBnz by (intros E; apply Hnz; unfold zval; rewrite E; by destruct (neg b)).
  pose proof (Z.mod_pos_bound (val (digits a)) (val (digits b)) ltac:(lia)) as Hm.
  pose proof (Z.div_mod (val (digits a)) (val (digits b)) ltac:(lia)) as Hdm.
  unfold div. rewrite compare_magnitude by (try apply Wx; try apply Wy; by rewrite Nx, Ny). rewrite Dx, Dy.
  destruct (Z.eqb_spec (val (digits a)) (val (digits b))) as [E|NE].
  { right. rewrite E, Z.sub_diag. by eexists _, _. }
  destruct (Z.lt_total (val (digits a)) (val (digits b))) as [Hlt|[?|Hgt]]; [|done|].
  { right. rewrite sgn_lt by done. eexists zero, a. split; [done|]. by apply div_smaller. }
  rewrite sgn_gt by done. cbn [Z.eqb Pos.eqb].
  assert (forall q r, signed_result a b q r (val (digits a) / val (digits b)) (val (digits a) mod val (digits b)) ->
    quotient_of a b q r) as Hsig.
  { intros q r. apply signed_quotient; [done|done|lia|lia]. }
  assert (length (digits b) <= length (digits a))%nat as Hlen by (apply length_le; [done|done|done|lia]).
  assert (0 < length (digits b))%nat by (destruct (digits b); simpl; [done|lia]).
  destruct (Nat.eqb_spec (length (digits b) - 1) 0) as [H1|H1].
  { right. assert ((digit (digits b) 0 =? 0) = false) as ->.
    { apply Z.eqb_neq. destruct (digits b) as [|? [|? ?]]; cbn [length digit nth val] in *; lia. }
    destruct (div1_loop (digits a) (digit (digits b) 0)) as [q r] eqn:Ed. eexists _, _. split; [reflexivity|].
    apply Hsig. apply div_short; [done|done|lia|done|done]. }
  destruct (Nat.ltb_spec (length (digits a) - 1) 2) as [H2|H2].
  { right. eexists _, _. split; [reflexivity|]. apply Hsig. apply div_two; [done|done|lia|lia]. }
  destruct (div_long_spec a b (abs a) (abs b) (length (digits b) - 1)) as [[E ?]|(q & r & E & Hs)]; rewrite ?Dx, ?Dy;
    [done..|lia|lia|lia| |].
  - left. rewrite Dy in E. split; [exact E|lia].
  - right. rewrite Dx, Dy in *. exists q, r. split; [exact E|]. by apply Hsig.
Qed.

(** The quotient that is one too large. *)
Example div_add_back :
  div {| digits := [3; 0; 0x80000000]; neg := false |} {| digits := [1; 0; 0x20000000]; neg := false |} = Undef.
Proof. reflexivity. Qed.
