(* ===== verification/BigNumMonty.v ===== *)
(** Montgomery multiplication and modular exponentiation of BigNum.

    [monty_mul] never fails and multiplies in the Montgomery domain: its result
    times the power of 2^32 that is one above the modulus is congruent to the
    product of its arguments. *)
From S2P Require Import Prelude Types BigNum BigNumProofs BigNumMul BigNumDiv.
From Stdlib Require Import Zdiv Zpow_facts.

(** * Congruence *)

Definition cong (M a b : Z) : Prop := exists k, a - b = k * M.

#[export] Instance cong_equivalence M : Equivalence (cong M).
Proof.
  split; [intros a; exists 0; lia|intros a b [k H]; exists (- k); lia|intros a b c [k H] [l H']; exists (k + l); lia].
Qed.

#[export] Instance cong_add M : Proper (cong M ==> cong M ==> cong M) Z.add.
Proof. intros a a' [k H] b b' [l H']. exists (k + l). lia. Qed.

#[export] Instance cong_sub M : Proper (cong M ==> cong M ==> cong M) Z.sub.
Proof. intros a a' [k H] b b' [l H']. exists (k - l). lia. Qed.

#[export] Instance cong_opp M : Proper (cong M ==> cong M) Z.opp.
Proof. intros a a' [k H]. exists (- k). lia. Qed.

#[export] Instance cong_mul M : Proper (cong M ==> cong M ==> cong M) Z.mul.
Proof.
  intros a a' [k H] b b' [l H']. exists (k * b + a' * l).
  replace (a * b - a' * b') with ((a - a') * b + a' * (b - b')) by ring. rewrite H, H'. ring.
Qed.

Lemma cong_mod M a b : cong M a b <-> a mod M = b mod M.
Proof. symmetry. apply Z.cong_iff_ex. Qed.

Lemma mod_cong M a : cong M (a mod M) a.
Proof. apply cong_mod. apply Zmod_mod. Qed.

Lemma cong_add_mul M a k : cong M (a + M * k) a.
Proof. exists k. lia. Qed.

Lemma cong_small M a b : cong M a b -> 0 <= a < M -> a = b mod M.
Proof. intros <-%cong_mod ?. symmetry. by apply Z.mod_small. Qed.

Lemma cong_divides M N a b : (N | M) -> cong M a b -> cong N a b.
Proof. intros [k ->] [n Hn]. exists (n * k). lia. Qed.

(** The power of the base has an inverse modulo an odd number. *)
Lemma base_inverse M n : Z.odd M = true -> 0 < M -> exists i, cong M (base n * i) 1.
Proof.
  intros Hodd HM. exists (((M + 1) / 2) ^ (32 * Z.of_nat n)).
  assert (2 * ((M + 1) / 2) = M + 1) as E.
  { pose proof (Z.div_mod (M + 1) 2 ltac:(lia)) as Hd. rewrite Zmod_odd, Z.odd_add, Hodd in Hd. simpl in Hd. lia. }
  rewrite <- Z.pow_mul_l, E. apply cong_mod. rewrite Zpower_mod by done.
  replace (M + 1) with (1 + 1 * M) by lia. rewrite Z_mod_plus_full. destruct (Z.eq_dec M 1) as [->|]; [by rewrite !Z.mod_1_r|].
  rewrite (Z.mod_small 1 M) by lia. by rewrite Z.pow_1_l, Z.mod_small by lia.
Qed.

Lemma cong_cancel M n a b : Z.odd M = true -> 0 < M -> cong M (a * base n) (b * base n) -> cong M a b.
Proof.
  intros Hodd HM H. destruct (base_inverse M n Hodd HM) as [i Hi].
  assert (forall c, cong M (c * base n * i) c) as Hc
    by (intros c; rewrite <- Z.mul_assoc, Hi, Z.mul_1_r; reflexivity).
  rewrite <- (Hc a). rewrite H. apply Hc.
Qed.

(** * The constant rho *)

(** One Newton step doubles the number of right bits. *)
Lemma newton_step b x k : 0 <= k -> cong (2 ^ k) (b * x) 1 -> cong (2 ^ (2 * k)) (b * (x * (2 - b * x))) 1.
Proof.
  intros Hk [n Hn]. exists (- (n * n)).
  replace (2 * k) with (k + k) by lia. rewrite Z.pow_add_r by lia.
  replace (b * (x * (2 - b * x)) - 1) with (- ((b * x - 1) * (b * x - 1))) by ring. rewrite Hn. ring.
Qed.

Lemma newton_w64 b x k : 0 <= k <= 32 -> cong (2 ^ k) (b * x) 1 -> cong (2 ^ (2 * k)) (b * w64 (x * (2 - b * x))) 1.
Proof.
  intros Hk H. transitivity (b * (x * (2 - b * x))); [|apply newton_step; [lia|done]]. apply cong_mul; [reflexivity|].
  apply cong_divides with (2 ^ 64); [|apply mod_cong].
  exists (2 ^ (64 - 2 * k)). rewrite <- Z.pow_add_r by lia. f_equal. lia.
Qed.

Lemma rho_start b : 0 <= b < 2 ^ 32 -> Z.odd b = true -> cong (2 ^ 4) (b * w64 (Z.shiftl (Z.land (b + 2) 4) 1 + b)) 1.
Proof.
  intros Hb Hodd.
  assert (Z.land (b + 2) 4 = Z.land ((b + 2) mod 2 ^ 4) 4) as E.
  { rewrite <- Z.land_ones, <- Z.land_assoc by lia. done. }
  assert (0 <= Z.land (b + 2) 4 <= 4) as Hr.
  { rewrite E. pose proof (Z.mod_pos_bound (b + 2) (2 ^ 4) ltac:(lia)) as Hm.
    assert (forallb (fun c => (0 <=? Z.land c 4) && (Z.land c 4 <=? 4)) (map Z.of_nat (seq 0 16)) = true) as Hall by reflexivity.
    rewrite forallb_forall in Hall. specialize (Hall ((b + 2) mod 2 ^ 4)).
    rewrite in_map_iff in Hall. specialize (Hall ltac:(exists (Z.to_nat ((b + 2) mod 2 ^ 4)); rewrite in_seq; lia)). lia. }
  rewrite w64_small by (rewrite Z.shiftl_mul_pow2 by lia; lia). rewrite E.
  assert ((b + 2) mod 2 ^ 4 = (b mod 2 ^ 4 + 2) mod 2 ^ 4) as -> by (by rewrite Zplus_mod_idemp_l).
  pose proof (mod_cong (2 ^ 4) b) as Hc. pose proof (Z.mod_pos_bound b (2 ^ 4) ltac:(lia)) as Hm.
  assert (Z.odd (b mod 2 ^ 4) = true) as Ho.
  { rewrite (Z.div_mod b (2 ^ 4)), Z.odd_add, Z.odd_mul in Hodd by lia. exact Hodd. }
  set (c := b mod 2 ^ 4) in *. rewrite <- Hc. clearbody c. clear -Hm Ho. apply cong_mod.
  assert (forallb (fun c => negb (Z.odd c) || (c * (Z.shiftl (Z.land ((c + 2) mod 2 ^ 4) 4) 1 + c) mod 2 ^ 4 =? 1 mod 2 ^ 4))
    (map Z.of_nat (seq 0 16)) = true) as Hall by reflexivity.
  rewrite forallb_forall in Hall. specialize (Hall c). rewrite in_map_iff in Hall.
  specialize (Hall ltac:(exists (Z.to_nat c); rewrite in_seq; lia)). rewrite Ho in Hall. by apply Z.eqb_eq in Hall.
Qed.

Lemma monty_rho_spec b : 0 <= b < 2 ^ 32 -> Z.odd b = true -> is_digit (monty_rho b) /\ cong (2 ^ 32) (b * monty_rho b) (-1).
Proof.
  intros Hb Hodd. unfold monty_rho. pose proof (land_bit b 0 ltac:(lia)) as Hl.
  rewrite Z.bit0_odd, Hodd in Hl. change (2 ^ 0) with 1 in Hl. destruct (Z.land b 1 =? 0); [done|]. split; [apply w32_range|].
  pose proof (newton_w64 b _ 16 ltac:(lia) (newton_w64 b _ 8 ltac:(lia) (newton_w64 b _ 4 ltac:(lia) (rho_start b Hb Hodd)))) as H.
  change (2 * 16) with 32 in H. 
  unfold w32. match type of H with cong _ (b * ?x) _ => generalize dependent x end. intros x H.
  rewrite (mod_cong _ (- x)), Z.mul_opp_r, H. reflexivity.
Qed.

(** * Multiplication *)

Lemma row_sum X u y0 m0 r0 c vr vy vm wR sR wY sY wM sM :
  r0 + c + wY + wM = wR + 2 ^ 32 * sR -> X * y0 = wY + 2 ^ 32 * sY -> u * m0 = wM + 2 ^ 32 * sM ->
  wR + 2 ^ 32 * (vr + X * vy + u * vm + (sR + sY + sM)) =
  r0 + 2 ^ 32 * vr + X * (y0 + 2 ^ 32 * vy) + u * (m0 + 2 ^ 32 * vm) + c.
Proof. lia. Qed.

(** One row adds [X * y + u * m] exactly. *)
Lemma monty_row_spec X u y m r c :
  is_digit X -> is_digit u -> ok y -> ok m -> ok r -> length m = length y -> length r = S (length y) -> 0 <= c < 2 ^ 34 ->
  ok (monty_row X u y m r c) /\ length (monty_row X u y m r c) = S (S (length y)) /\
  val (monty_row X u y m r c) = val r + X * val y + u * val m + c.
Proof.
  intros HX Hu Hy. revert m r c. unfold is_digit in HX, Hu.
  induction Hy as [|y0 y Hy0 Hy IH]; intros m r c Hm Hr Hlm Hlr Hc.
  - destruct m; [|done]. destruct r as [|r0 [|? ?]]; try done. inversion Hr as [|? ? Hr0 _]; subst. unfold is_digit in Hr0.
    cbn [monty_row]. rewrite w64_small by lia. pose proof (split32 (r0 + c)) as E.
    pose proof (shr32_bound (r0 + c) (2 ^ 32) ltac:(lia)) as Hs. rewrite (w32_small (Z.shiftr (r0 + c) 32)) by done.
    split_and!; [|done|cbn [val]; lia]. repeat (apply Forall_cons; split; [by apply w32_range|]).
    apply Forall_cons; split; [done|]. by apply Forall_nil.
  - destruct m as [|m0 m]; [done|]. destruct r as [|r0 r]; [done|].
    inversion Hm as [|? ? Hm0 Hm']; subst. inversion Hr as [|? ? Hr0 Hr']; subst. unfold is_digit in Hy0, Hm0, Hr0.
    assert (0 <= X * y0 <= (2 ^ 32 - 1) * (2 ^ 32 - 1)) as HY by (split; [lia|apply Z.mul_le_mono_nonneg; lia]).
    assert (0 <= u * m0 <= (2 ^ 32 - 1) * (2 ^ 32 - 1)) as HM by (split; [lia|apply Z.mul_le_mono_nonneg; lia]).
    cbn [monty_row]. rewrite (w64_small (X * y0)), (w64_small (u * m0)) by lia.
    set (Y := X * y0) in *. set (M := u * m0) in *.
    pose proof (w32_range Y) as WY. pose proof (w32_range M) as WM. unfold is_digit in WY, WM.
    rewrite (w64_small (r0 + c + w32 Y + w32 M)) by lia. set (R := r0 + c + w32 Y + w32 M) in *.
    pose proof (shr32_bound R 8 ltac:(lia)) as SR. pose proof (shr32_bound Y (2 ^ 32) ltac:(lia)) as SY.
    pose proof (shr32_bound M (2 ^ 32) ltac:(lia)) as SM. rewrite w64_small by lia.
    destruct (IH m r (Z.shiftr R 32 + Z.shiftr Y 32 + Z.shiftr M 32) Hm' Hr') as (I1 & I2 & I3); [simpl in *; lia..|].
    split_and!; [apply Forall_cons; split; [apply w32_range|done]|cbn [length]; lia|].
    cbn [val]. rewrite I3. eapply row_sum; [apply (split32 R)|apply (split32 Y)|apply (split32 M)].
Qed.

Section montgomery.
Context (m : list Z) (rho : Z).
Context (Hm : ok m) (Hne : m <> []) (Hrho : cong (2 ^ 32) (hd 0 m * rho) (-1)).
Local Abbreviation M := (val m).

Lemma M_pos : 0 < M.
Proof.
  pose proof (val_nonneg _ Hm). destruct (Z.eq_dec M 0) as [E|]; [|lia]. exfalso.
  assert (hd 0 m = 0) as H0 by (pose proof (val_zero_digit m Hm E 0) as Hz; destruct m; done).
  rewrite H0 in Hrho. destruct Hrho as [k Hk]. lia.
Qed.

(** A row leaves a zero in the lowest place, which is dropped. *)
Lemma monty_step X y r :
  is_digit X -> ok y -> ok r -> length y = length m -> length r = S (length m) ->
  let u := w32 (w64 (w64 (hd 0 r + w64 (X * hd 0 y)) * rho)) in
  let r' := tl (monty_row X u y m r 0) in
  ok r' /\ length r' = S (length m) /\ is_digit u /\ 2 ^ 32 * val r' = val r + X * val y + u * M.
Proof.
  intros HX Hy Hr Hly Hlr u r'. assert (is_digit u) as Hu by apply w32_range.
  destruct (monty_row_spec X u y m r 0 HX Hu Hy Hm Hr ltac:(lia) ltac:(lia) ltac:(lia)) as (I1 & I2 & I3).
  unfold r'. set (row := monty_row X u y m r 0) in *.
  split_and!; [by apply ok_tl|destruct row; simpl in *; lia|done|].
  pose proof (val_hd_tl row) as E. enough (hd 0 row = 0) by lia.
  pose proof (ok_hd row I1) as Hh. unfold is_digit in Hh.
  assert (cong (2 ^ 32) (hd 0 row) 0) as Hc.
  { replace (hd 0 row) with (val r + X * val y + u * M + 2 ^ 32 * - val (tl row)) by lia. rewrite (val_hd_tl r), (val_hd_tl y), (val_hd_tl m).
    rewrite !(cong_add_mul (2 ^ 32)).
    assert (cong (2 ^ 32) u ((hd 0 r + X * hd 0 y) * rho)) as ->.
    { unfold u, w32. rewrite mod_cong. assert (forall v, cong (2 ^ 32) (w64 v) v) as Hw.
      { intros v. apply cong_divides with (2 ^ 64); [exists (2 ^ 32); done|apply mod_cong]. }
      rewrite !Hw. reflexivity. }
    replace ((hd 0 r + X * hd 0 y) * rho * hd 0 m) with ((hd 0 r + X * hd 0 y) * (hd 0 m * rho)) by ring.
    rewrite Hrho. exists 0. lia. }
  destruct Hc as [k Hk]. lia.
Qed.

Lemma monty_rows_spec x y r :
  ok x -> ok y -> ok r -> length y = length m -> length r = S (length m) -> val r < val y + M ->
  ok (monty_rows x y m r rho) /\ length (monty_rows x y m r rho) = S (length m) /\
  val (monty_rows x y m r rho) < val y + M /\
  cong M (val (monty_rows x y m r rho) * base (length x)) (val r + val x * val y).
Proof.
  intros Hx Hy. revert r. induction Hx as [|X x HX Hx IH]; intros r Hr Hly Hlr Hlt; cbn [monty_rows].
  { split_and!; [done..|]. cbn [length val]. change (base 0) with 1. exists 0. lia. }
  destruct (monty_step X y r HX Hy Hr Hly Hlr) as (S1 & S2 & Hu & S3). set (u := w32 _) in *. unfold is_digit in HX, Hu.
  pose proof (val_nonneg _ Hy). pose proof M_pos.
  destruct (IH (tl (monty_row X u y m r 0)) S1 Hly S2) as (I1 & I2 & I3 & I4).
  { apply (Z.mul_lt_mono_pos_l (2 ^ 32)); [lia|]. pose proof (Z.mul_le_mono_nonneg_r X (2 ^ 32 - 1) (val y)).
    pose proof (Z.mul_le_mono_nonneg_r u (2 ^ 32 - 1) M). lia. }
  split_and!; [done..|]. cbn [length val]. rewrite base_S.
  set (r' := monty_rows x y m (tl (monty_row X u y m r 0)) rho) in *.
  replace (val r' * (2 ^ 32 * base (length x))) with (2 ^ 32 * (val r' * base (length x))) by ring. rewrite I4.
  rewrite Z.mul_add_distr_l, S3. exists u. lia.
Qed.
End montgomery.

Lemma pad_to_spec len ds : ok ds -> (length ds <= len)%nat ->
  ok (pad_to len ds) /\ length (pad_to len ds) = len /\ val (pad_to len ds) = val ds.
Proof.
  intros Hok Hl. unfold pad_to. split_and!.
  - apply Forall_app. split; [done|apply ok_replicate].
  - rewrite length_app, length_replicate. lia.
  - rewrite val_app, val_replicate. lia.
Qed.

(** The modulus of a Montgomery multiplication and its constant. *)
Record odd_modulus (m : BigNum) (rho : Z) : Prop := {
  om_wf : wf m;
  om_neg : neg m = false;
  om_odd : Z.odd (val (digits m)) = true;
  om_rho : cong (2 ^ 32) (hd 0 (digits m) * rho) (-1)
}.

Lemma odd_modulus_rho m : wf m -> neg m = false -> is_odd m = true -> odd_modulus m (monty_rho (digit (digits m) 0)).
Proof.
  intros Hm Nm Ho. pose proof Hm as [M1 M2 _ _]. rewrite is_odd_spec in Ho by done. split; [done..|].
  assert (Z.odd (digit (digits m) 0) = true) as H0.
  { rewrite digit_val by done. change (base 0) with 1. rewrite Z.div_1_r.
    rewrite (Z.div_mod (val (digits m)) (2 ^ 32)), Z.odd_add, Z.odd_mul in Ho by lia. exact Ho. }
  destruct (monty_rho_spec (digit (digits m) 0) (digit_ok _ 0 M1) H0) as [_ Hr]. by destruct (digits m).
Qed.

Lemma monty_mul_spec a n m rho : odd_modulus m rho ->
  ok (digits a) -> ok (digits n) -> (length (digits a) <= length (digits m))%nat -> (length (digits n) <= length (digits m))%nat ->
  exists r, monty_mul a n m rho = Ok r /\ wf r /\ neg r = false /\
    val (digits r) < Z.max (val (digits n)) (val (digits m)) /\
    cong (val (digits m)) (val (digits r) * base (length (digits m))) (val (digits a) * val (digits n)).
Proof.
  intros [Hm Nm Ho Hrho] Ha Hn Hla Hln. pose proof Hm as [M1 M2 _ _]. pose proof (M_pos _ _ M1 M2 Hrho) as HM.
  pose proof (val_nonneg _ Hn) as Hn0. unfold monty_mul. set (len := length (digits m)).
  destruct (Nat.ltb_spec len (length (digits a))); [lia|]. destruct (Nat.ltb_spec len (length (digits n))); [lia|].
  cbn [orb]. destruct (pad_to_spec len _ Ha ltac:(lia)) as (A1 & A2 & A3), (pad_to_spec len _ Hn ltac:(lia)) as (N1 & N2 & N3).
  destruct (monty_rows_spec (digits m) rho M1 M2 Hrho _ _ (replicate (S len) 0) A1 N1 (ok_replicate _)) as (R1 & R2 & R3 & R4);
    [done|by rewrite length_replicate|rewrite val_replicate; lia|].
  set (rs := monty_rows _ _ _ _ rho) in *. rewrite val_replicate, Z.add_0_l, A2, A3, N3 in R4. rewrite N3 in R3.
  assert (rs <> []) as Hne by (intros E; rewrite E in R2; done).
  assert (exists r, (if geb {| digits := rs; neg := false |} m then sub {| digits := rs; neg := false |} m
                     else Ok {| digits := rs; neg := false |}) = Ok r /\ ok (digits r) /\ digits r <> [] /\ neg r = false /\
            val (digits r) < Z.max (val (digits n)) (val (digits m)) /\ cong (val (digits m)) (val (digits r)) (val rs))
    as (r & -> & Hr & Hrne & Nr & Hlt & Hc).
  { rewrite geb_spec by done. cbn [digits]. destruct (Z.leb_spec (val (digits m)) (val rs)) as [Hle|Hgt].
    - destruct (sub_ok {| digits := rs; neg := false |} m R1 Hne eq_refl Hm Nm Hle) as (r & -> & [W1 W2 _ _] & Nr & Vr).
      cbn [digits] in Vr. exists r. split_and!; [done..|lia|]. rewrite Vr. exists (-1). lia.
    - eexists. split_and!; [done..|cbn [digits]; lia|reflexivity]. }
  cbn [rbind]. destruct (strip_wf r Hr Hrne) as [Hs _]. eexists. split; [reflexivity|].
  rewrite strip_val by done. split_and!; [done|by apply strip_nonneg|done|]. by rewrite Hc.
Qed.

(** * Exponentiation *)

(** A modulus by which BigNum fails to divide some number: the correction of a digit that
    was guessed too large ends in an assertion. It has more than two digits. *)
Definition hard (m : BigNum) : Prop := (2 < length (digits m))%nat /\ exists a, wf a /\ div a m = Undef.

Lemma div_nonneg a m : wf a -> wf m -> neg a = false -> neg m = false -> val (digits m) <> 0 ->
  (div a m = Undef /\ hard m) \/
  exists q r, div a m = Ok (q, r) /\ wf q /\ neg q = false /\ val (digits q) = val (digits a) / val (digits m) /\
    wf r /\ neg r = false /\ val (digits r) = val (digits a) mod val (digits m).
Proof.
  intros Ha Hm Na Nm Hnz. destruct (wf_neg a Ha) as [_ Za], (wf_neg m Hm) as [_ Zm].
  destruct (Za Na) as [Ha0 Hav], (Zm Nm) as [Hm0 Hmv].
  destruct (div_spec a m Ha Hm ltac:(lia)) as [[E Hl]|(q & r & -> & Hqr)]; [left; split; [done|]; split; [done|by exists a]|right]. exists q, r. split; [done|].
  destruct (Z.eqb_spec (val (digits a)) (val (digits m))) as [E|].
  - destruct Hqr as [-> ->]. rewrite E, Z.mod_same, Z.div_same by done.
    split_and!; [apply of_u32_wf; unfold is_digit; lia|done|done|apply zero_wf|done|done].
  - destruct Hqr as (Hq & Hr & Zq & Zr). rewrite Z.rem_mod_nonneg, Hav, Hmv in Zr by lia.
    rewrite Z.quot_div_nonneg, Hav, Hmv in Zq by lia.
    pose proof (Z.mod_pos_bound (val (digits a)) (val (digits m)) ltac:(lia)).
    pose proof (Z.div_pos (val (digits a)) (val (digits m)) ltac:(lia) ltac:(lia)).
    assert (forall x, wf x -> 0 <= zval x -> neg x = false /\ val (digits x) = zval x) as Hpos.
    { intros x Hx Hx0. destruct (wf_neg x Hx) as [Hn Hp]. destruct (neg x); [specialize (Hn eq_refl); lia|].
      split; [done|]. by destruct (Hp eq_refl). }
    destruct (Hpos q Hq ltac:(lia)) as [-> ->], (Hpos r Hr ltac:(lia)) as [-> ->]. by split_and!.
Qed.

Lemma modulo_spec a m : wf a -> wf m -> neg a = false -> neg m = false -> val (digits m) <> 0 ->
  (modulo a m = Undef /\ hard m) \/
  exists r, modulo a m = Ok r /\ wf r /\ neg r = false /\ val (digits r) = val (digits a) mod val (digits m).
Proof.
  intros Ha Hm Na Nm Hnz. unfold modulo.
  destruct (div_nonneg a m Ha Hm Na Nm Hnz) as [[-> ?]|(q & r & -> & _ & _ & _ & Hr)]; [by left|right]. by exists r.
Qed.

Section exponentiation.
Context (m : BigNum) (rho : Z) (Hom : odd_modulus m rho).
Local Abbreviation M := (val (digits m)).
Local Abbreviation R := (base (length (digits m))).

Lemma modulus_pos : 0 < M.
Proof. destruct Hom as [[M1 M2 _ _] _ _ Hrho]. by apply (M_pos _ rho). Qed.

(** A number below the modulus that stands for [A] in the Montgomery domain. *)
Record stands_for (a : BigNum) (A : Z) : Prop := {
  sf_wf : wf a;
  sf_neg : neg a = false;
  sf_lt : val (digits a) < M;
  sf_cong : cong M (val (digits a)) (A * R)
}.

Lemma below_length a : wf a -> val (digits a) < M -> (length (digits a) <= length (digits m))%nat.
Proof. intros Ha Hlt. destruct Hom as [[M1 M2 _ _] _ _ _]. apply length_le; [done|done|done|lia]. Qed.

(** Multiplication in the domain multiplies what the numbers stand for. *)
Lemma monty_mul_domain a b A B : stands_for a A -> stands_for b B ->
  exists r, monty_mul a b m rho = Ok r /\ stands_for r (A * B).
Proof.
  intros [A1 A2 A3 A4] [B1 B2 B3 B4]. pose proof (below_length a A1 A3). pose proof (below_length b B1 B3).
  destruct (monty_mul_spec a b m rho Hom (wf_ok _ A1) (wf_ok _ B1)) as (r & -> & Hr & Nr & Hlt & Hc); [done..|].
  exists r. split; [done|]. split; [done|done|lia|].
  apply (cong_cancel M (length (digits m))); [apply Hom|apply modulus_pos|]. rewrite Hc, A4, B4. exists 0. lia.
Qed.

(** Into the domain: times the square of the radix. *)
Lemma monty_enter a rr A : wf a -> (length (digits a) <= length (digits m))%nat -> A = val (digits a) ->
  wf rr -> val (digits rr) = (R * R) mod M -> exists r, monty_mul a rr m rho = Ok r /\ stands_for r A.
Proof.
  intros Ha Hla -> Hrr Vrr. pose proof modulus_pos. pose proof (Z.mod_pos_bound (R * R) M ltac:(lia)) as Hb.
  pose proof (below_length rr Hrr ltac:(lia)).
  destruct (monty_mul_spec a rr m rho Hom (wf_ok _ Ha) (wf_ok _ Hrr)) as (r & -> & Hr & Nr & Hlt & Hc); [done..|].
  exists r. split; [done|]. split; [done|done|lia|].
  apply (cong_cancel M (length (digits m))); [apply Hom|done|]. rewrite Hc, Vrr, mod_cong. exists 0. lia.
Qed.

(** Out of it: times one. *)
Lemma monty_leave a A : stands_for a A ->
  exists r, monty_mul a (of_u32 1) m rho = Ok r /\ wf r /\ neg r = false /\ val (digits r) = A mod M.
Proof.
  intros [A1 A2 A3 A4]. pose proof modulus_pos. assert (is_digit 1) as H1 by (unfold is_digit; lia).
  assert (1 <= length (digits m))%nat by (destruct Hom as [[_ M2 _ _] _ _ _]; destruct (digits m); simpl; [done|lia]).
  destruct (monty_mul_spec a (of_u32 1) m rho Hom (wf_ok _ A1)) as (r & -> & Hr & Nr & Hlt & Hc);
    [apply of_u32_wf, H1|by apply below_length|done|].
  exists r. split_and!; [done..|]. pose proof (val_nonneg _ (wf_ok _ Hr)). cbn [of_u32 digits val] in *.
  apply cong_small; [|lia]. apply (cong_cancel M (length (digits m))); [apply Hom|done|].
  rewrite Hc, A4. exists 0. lia.
Qed.

Lemma monty_loop_spec i x e a X : ok (digits e) -> stands_for x X ->
  stands_for a (X ^ (val (digits e) / 2 ^ Z.of_nat i)) ->
  exists r, monty_loop i x e m a rho = Ok r /\ stands_for r (X ^ val (digits e)).
Proof.
  intros He Hx. pose proof (val_nonneg _ He) as Hp. revert a. induction i as [|i IH]; intros a Ha; cbn [monty_loop].
  { exists a. split; [done|]. change (2 ^ Z.of_nat 0) with 1 in Ha. by rewrite Z.div_1_r in Ha. }
  destruct (monty_mul_domain a a _ _ Ha Ha) as (b & -> & Hb). cbn [rbind].
  pose proof (exponent_step (val (digits e)) (Z.of_nat i) ltac:(lia) Hp) as Hs.
  rewrite Nat2Z.inj_succ, <- Z.add_1_r, <- Z.pow_add_r, Z.add_diag in Hb by (apply Z.div_pos; [lia|apply Z.pow_pos_nonneg; lia]).
  rewrite test_bit_spec by (done || lia). destruct (Z.testbit (val (digits e)) (Z.of_nat i)); simpl Z.b2z in Hs.
  - destruct (monty_mul_domain b x _ _ Hb Hx) as (c & -> & Hc). cbn [rbind]. apply IH. rewrite Hs, Z.pow_add_r, Z.pow_1_r;
      [done|apply Z.mul_nonneg_nonneg; [lia|apply Z.div_pos; [lia|apply Z.pow_pos_nonneg; lia]]|lia].
  - cbn [rbind]. apply IH. by rewrite Hs, Z.add_0_r.
Qed.
End exponentiation.

Lemma power_of_base_wf n : wf (power_of_base n) /\ val (digits (power_of_base n)) = base n.
Proof.
  assert (ok (digits (power_of_base n))) as Hok.
  { apply Forall_app. split; [apply ok_replicate|]. apply Forall_cons. split; [unfold is_digit; lia|by apply Forall_nil]. }
  assert (val (digits (power_of_base n)) = base n) as Hv.
  { cbn [digits power_of_base]. rewrite val_app, val_replicate, length_replicate. simpl. lia. }
  assert (digits (power_of_base n) <> []) as Hne by (cbn [digits power_of_base]; destruct (replicate n 0); done).
  split; [|done]. split; [done|done| |done]. apply haslz_of_val; [done..|]. right. rewrite Hv.
  cbn [digits power_of_base]. rewrite length_app, length_replicate. apply Z.pow_le_mono_r; [lia|]. simpl length. lia.
Qed.

Lemma monty_mod_exp_spec x e m :
  wf x -> ok (digits e) -> wf m -> neg m = false -> is_odd m = true -> (length (digits x) <= length (digits m))%nat ->
  (monty_mod_exp x e m = Undef /\ hard m) \/
  exists r, monty_mod_exp x e m = Ok r /\ wf r /\ neg r = false /\
    val (digits r) = val (digits x) ^ val (digits e) mod val (digits m).
Proof.
  intros Hx He Hm Nm Ho Hl. unfold monty_mod_exp. rewrite Ho. cbn [negb].
  pose proof (odd_modulus_rho m Hm Nm Ho) as Hom. set (rho := monty_rho _) in *. set (len := length (digits m)) in *.
  pose proof (modulus_pos m rho Hom) as HM.
  destruct (power_of_base_wf len) as [W1 V1], (power_of_base_wf (len * 2)) as [W2 V2].
  destruct (modulo_spec _ m W1 Hm eq_refl Nm ltac:(lia)) as [[-> ?]|(a & -> & Wa & Na & Va)]; [by left|]. cbn [rbind].
  destruct (modulo_spec _ m W2 Hm eq_refl Nm ltac:(lia)) as [[-> ?]|(rr & -> & Wr & Nr & Vr)]; [by left|]. cbn [rbind].
  right. rewrite V1 in Va. rewrite V2 in Vr. replace (len * 2)%nat with (len + len)%nat in Vr by lia. rewrite base_add in Vr.
  destruct (monty_enter m rho Hom x rr (val (digits x)) Hx Hl eq_refl Wr Vr) as (y & -> & Hy). cbn [rbind].
  pose proof (exponent_start e He) as Hs. pose proof (bit_len_nonneg e He).
  destruct (monty_loop_spec m rho Hom (Z.to_nat (bit_len e)) y e a (val (digits x)) He Hy) as (b & -> & Hb).
  - rewrite Z2Nat.id, Hs by done. pose proof (Z.mod_pos_bound (base len) (val (digits m)) HM).
    split; [done|done|lia|]. rewrite Va, mod_cong. exists 0. unfold len. lia.
  - cbn [rbind]. destruct (monty_leave m rho Hom b _ Hb) as (r & -> & Hr & Nr' & Vr'). by exists r.
Qed.

Lemma mul_nonneg a b : wf a -> wf b -> neg a = false -> neg b = false ->
  wf (mul a b) /\ neg (mul a b) = false /\ val (digits (mul a b)) = val (digits a) * val (digits b).
Proof.
  intros Ha Hb Na Nb. destruct (mul_spec a b Ha Hb) as [Hw Hz]. destruct (wf_neg a Ha) as [_ Za], (wf_neg b Hb) as [_ Zb].
  destruct (Za Na) as [Ha0 Hav], (Zb Nb) as [Hb0 Hbv], (wf_neg _ Hw) as [Hn Hp]. pose proof (Z.mul_nonneg_nonneg _ _ Ha0 Hb0).
  assert (neg (mul a b) = false) as Nm by (destruct (neg (mul a b)); [specialize (Hn eq_refl); lia|done]).
  split_and!; [done..|]. destruct (Hp Nm) as [_ <-]. by rewrite Hz, Hav, Hbv.
Qed.

(** A product reduced at once. *)
Lemma mul_modulo a b m A B : wf a -> wf b -> wf m -> neg a = false -> neg b = false -> neg m = false ->
  val (digits m) <> 0 -> cong (val (digits m)) (val (digits a)) A -> cong (val (digits m)) (val (digits b)) B ->
  (modulo (mul a b) m = Undef /\ hard m) \/
  exists r, modulo (mul a b) m = Ok r /\ wf r /\ neg r = false /\ 0 <= val (digits r) < val (digits m) /\
    cong (val (digits m)) (val (digits r)) (A * B).
Proof.
  intros Ha Hb Hm Na Nb Nm Hnz HA HB. destruct (mul_nonneg a b Ha Hb Na Nb) as (Hw & Nw & Vw).
  destruct (modulo_spec _ m Hw Hm Nw Nm Hnz) as [?|(r & -> & Hr & Nr & Vr)]; [by left|right].
  pose proof (val_nonneg _ (wf_ok _ Hm)). exists r. split_and!; [done..| | |]; rewrite Vr;
    [apply Z.mod_pos_bound; lia|apply Z.mod_pos_bound; lia|]. rewrite mod_cong, Vw, HA, HB. reflexivity.
Qed.

Lemma mod_exp_loop_spec i x e m a X : wf x -> neg x = false -> ok (digits e) -> wf m -> neg m = false -> val (digits m) <> 0 ->
  cong (val (digits m)) (val (digits x)) X -> wf a -> neg a = false -> 0 <= val (digits a) < val (digits m) ->
  cong (val (digits m)) (val (digits a)) (X ^ (val (digits e) / 2 ^ Z.of_nat i)) ->
  (mod_exp_loop i x e m a = Undef /\ hard m) \/
  exists r, mod_exp_loop i x e m a = Ok r /\ wf r /\ neg r = false /\ val (digits r) = X ^ val (digits e) mod val (digits m).
Proof.
  intros Hx Nx He Hm Nm Hnz HX. pose proof (val_nonneg _ He) as Hp. revert a. induction i as [|i IH]; intros a Ha Na Hlt HA;
    cbn [mod_exp_loop].
  { right. exists a. change (2 ^ Z.of_nat 0) with 1 in HA. rewrite Z.div_1_r in HA. split_and!; [done..|]. by apply cong_small. }
  destruct (mul_modulo a a m _ _ Ha Ha Hm Na Na Nm Hnz HA HA) as [[-> ?]|(b & -> & Wb & Nb & Lb & HB)]; [by left|]. cbn [rbind].
  pose proof (exponent_step (val (digits e)) (Z.of_nat i) ltac:(lia) Hp) as Hs.
  assert (0 <= val (digits e) / 2 ^ (Z.of_nat i + 1)) as Hd by (apply Z.div_pos; [lia|apply Z.pow_pos_nonneg; lia]).
  rewrite Nat2Z.inj_succ, <- Z.add_1_r, <- Z.pow_add_r, Z.add_diag in HB by done.
  rewrite test_bit_spec by (done || lia). destruct (Z.testbit (val (digits e)) (Z.of_nat i)); simpl Z.b2z in Hs.
  - destruct (mul_modulo b x m _ _ Wb Hx Hm Nb Nx Nm Hnz HB HX) as [[-> ?]|(c & -> & Wc & Nc & Lc & HC)]; [by left|]. cbn [rbind].
    apply IH; [done..|]. rewrite HC, Hs, (Z.pow_add_r X), Z.pow_1_r by lia. reflexivity.
  - cbn [rbind]. apply IH; [done..|]. rewrite HB, Hs, Z.add_0_r. reflexivity.
Qed.

Lemma mod_exp_spec x e m : wf x -> neg x = false -> ok (digits e) -> wf m -> 0 < zval m ->
  (mod_exp x e m = Undef /\ hard m) \/
  exists r, mod_exp x e m = Ok r /\ wf r /\ zval r = zval x ^ val (digits e) mod zval m.
Proof.
  intros Hx Nx He Hm Hpos. pose proof (wf_neg m Hm) as [Zn Zp]. assert (neg m = false) as Nm.
  { destruct (neg m); [specialize (Zn eq_refl); lia|done]. }
  destruct (Zp Nm) as [_ Vm]. destruct (wf_neg x Hx) as [_ Zx]. destruct (Zx Nx) as [Hx0 Vx]. rewrite Vm, Vx in *.
  assert (forall r, wf r -> neg r = false -> zval r = val (digits r)) as Hzv by (intros r Hr Nr; by destruct (wf_neg r Hr) as [_ H]; apply H).
  destruct (copy_wf x Hx) as [Wc Zc]. pose proof (strip_nonneg x Nx) as Nc.
  unfold mod_exp. set (y := copy x) in *. rewrite (Hzv y Wc Nc) in Zc. rewrite Vx in Zc.
  set (red := if (length (digits m) <? length (digits y))%nat then modulo y m else Ok y).
  assert ((red = Undef /\ hard m) \/ exists z, red = Ok z /\ wf z /\ neg z = false /\
    (length (digits z) <= length (digits m))%nat /\ cong (val (digits m)) (val (digits z)) (val (digits x))) as [[-> ?]|(z & -> & Wz & Nz & Lz & Cz)].
  { unfold red. destruct (Nat.ltb_spec (length (digits m)) (length (digits y))) as [Hlt|Hge].
    - destruct (modulo_spec y m Wc Hm Nc Nm ltac:(lia)) as [?|(z & -> & Wz & Nz & Vz)]; [by left|right]. exists z.
      pose proof (Z.mod_pos_bound (val (digits y)) (val (digits m)) ltac:(lia)).
      split_and!; [done..| |]; [apply length_le; [apply Hm|apply Hm|done|lia]|]. rewrite Vz, mod_cong, Zc. reflexivity.
    - right. exists y. split_and!; [done..|]. rewrite Zc. reflexivity. }
  { by left. }
  cbn [rbind]. destruct (is_odd m) eqn:Ho.
  - destruct (monty_mod_exp_spec z e m Wz He Hm Nm Ho Lz) as [?|(r & -> & Hr & Nr & Vr)]; [by left|right].
    exists r. split_and!; [done..|]. rewrite (Hzv r Hr Nr), Vr. apply cong_mod in Cz.
    rewrite (Zpower_mod (val (digits z))), (Zpower_mod (val (digits x))) by done. by rewrite Cz.
  - assert (1 < val (digits m)) as H1.
    { rewrite is_odd_spec in Ho by apply Hm. destruct (Z.eq_dec (val (digits m)) 1) as [E|]; [by rewrite E in Ho|lia]. }
    pose proof (exponent_start e He) as Hs. pose proof (bit_len_nonneg e He).
    destruct (mod_exp_loop_spec (Z.to_nat (bit_len e)) z e m (of_u32 1) (val (digits x)) Wz Nz He Hm Nm ltac:(lia) Cz)
      as [[-> ?]|(r & -> & Hr & Nr & Vr)]; [apply of_u32_wf; unfold is_digit; lia|done|cbn; lia| | |].
    + rewrite Z2Nat.id, Hs by done. reflexivity.
    + by left.
    + right. cbn [rbind]. pose proof Hr as [R1 R2 _ _]. destruct (strip_wf r R1 R2) as [Ws Zs].
      eexists. split_and!; [done..|]. by rewrite Zs, (Hzv r Hr Nr), Vr.
Qed.
