(* ===== verification/BigNumInv.v ===== *)
(** The modular inverse of BigNum: the extended Euclidean algorithm ends with
    the inverse, or with zero where there is none. *)
From S2P Require Import Prelude Types BigNum BigNumProofs BigNumMul BigNumDiv BigNumMonty.
From Stdlib Require Import Znumtheory.

Lemma plus_nonneg_spec a b : wf a -> wf b -> neg a = false -> neg b = false ->
  exists r, plus a b = Ok r /\ wf r /\ neg r = false /\ val (digits r) = val (digits a) + val (digits b).
Proof.
  intros Ha Hb Na Nb. destruct (plus_spec a b Ha Hb) as (r & -> & Hr & Zr). exists r.
  destruct (wf_neg a Ha) as [_ Za], (wf_neg b Hb) as [_ Zb], (wf_neg r Hr) as [Hn Hp].
  destruct (Za Na) as [Ha0 Hav], (Zb Nb) as [Hb0 Hbv]. destruct (neg r); [specialize (Hn eq_refl); lia|].
  destruct (Hp eq_refl) as [_ <-]. split_and!; [done..|lia].
Qed.

Lemma eqb_small x v : wf x -> neg x = false -> is_digit v -> eqb x (of_u32 v) = (val (digits x) =? v).
Proof.
  intros [W1 _ _ _] Nx Hv. unfold eqb. rewrite compare_magnitude by (done || (by apply of_u32_wf) || (by rewrite Nx)).
  cbn [of_u32 digits val]. destruct (Z.eqb_spec (val (digits x)) v) as [->|]; [by rewrite Z.mul_0_r, Z.add_0_r, Z.sub_diag|].
  apply Z.eqb_neq. intros E%Z.sgn_null_iff. lia.
Qed.

Lemma eqb_zero x : wf x -> neg x = false -> eqb x zero = (val (digits x) =? 0).
Proof. intros Hx Nx. apply (eqb_small x 0 Hx Nx). unfold is_digit. lia. Qed.

Section inverse.
Context (a : Z) (m : BigNum) (Hm : wf m).
Local Abbreviation M := (val (digits m)).

Definition sign (iter : bool) : Z := if iter then 1 else -1.

(** What a turn of the loop keeps of its four numbers. *)
Record euclid (u1 u3 v1 v3 : BigNum) (iter : bool) : Prop := {
  eu_wf : (wf u1 /\ wf u3 /\ wf v1 /\ wf v3) /\ neg u1 = false /\ neg u3 = false /\ neg v1 = false /\ neg v3 = false;
  eu_u : cong M (sign iter * val (digits u1) * a) (val (digits u3));
  eu_v : cong M (- sign iter * val (digits v1) * a) (val (digits v3));
  eu_gcd : Z.gcd (val (digits u3)) (val (digits v3)) = Z.gcd a M;
  eu_det : val (digits u1) * val (digits v3) + val (digits v1) * val (digits u3) = M;
  eu_le : val (digits v3) <= M
}.

Lemma euclid_step u1 u3 v1 v3 iter : euclid u1 u3 v1 v3 iter -> val (digits v3) <> 0 ->
  (div u3 v3 = Undef /\ (2 < length (digits m))%nat) \/
  exists q t3 t1, div u3 v3 = Ok (q, t3) /\ plus u1 (mul q v1) = Ok t1 /\ euclid v1 v3 t1 t3 (negb iter) /\
    val (digits t3) = val (digits u3) mod val (digits v3) /\
    val (digits t1) = val (digits u1) + val (digits u3) / val (digits v3) * val (digits v1).
Proof.
  intros [[(W1 & W3 & X1 & X3) (N1 & N3 & P1 & P3)] HU HV HG HD HL] Hnz.
  destruct (div_nonneg u3 v3 W3 X3 N3 P3 Hnz) as [[E [Hl _]]|(q & t3 & E & Wq & Nq & Vq & Wt & Nt & Vt)].
  { left. split; [done|]. assert (length (digits v3) <= length (digits m))%nat; [|lia].
    apply length_le; [apply Hm|apply Hm|done|done]. }
  destruct (mul_nonneg q v1 Wq X1 Nq P1) as (Wm & Nmul & Vm).
  destruct (plus_nonneg_spec u1 (mul q v1) W1 Wm N1 Nmul) as (t1 & E1 & Wt1 & Nt1 & Vt1). rewrite Vm, Vq in Vt1.
  right. exists q, t3, t1. split_and!; [done|done| |done|done].
  pose proof (val_nonneg _ (wf_ok _ X3)). pose proof (Z.div_mod (val (digits u3)) (val (digits v3)) Hnz) as Hdm. rewrite <- Vt, <- Vq in Hdm.
  pose proof (Z.mod_pos_bound (val (digits u3)) (val (digits v3)) ltac:(lia)) as Hmb. rewrite <- Vt in Hmb. rewrite <- Vq in Vt1.
  assert (sign (negb iter) = - sign iter) as Es by (by destruct iter). split; rewrite ?Es, ?Vt1.
  - by split_and!.
  - done.
  - replace (- - sign iter * (val (digits u1) + val (digits q) * val (digits v1)) * a)
      with (sign iter * val (digits u1) * a + - (val (digits q) * (- sign iter * val (digits v1) * a))) by ring.
    rewrite HU, HV. exists 0. lia.
  - rewrite <- HG, Vt, Z.gcd_comm, Z.gcd_mod by done. apply Z.gcd_comm.
  - rewrite <- HD, Hdm. ring.
  - lia.
Qed.

(** Products of the two remainders halve, so the fuel is enough. *)
Lemma inv_loop_spec fuel u1 u3 v1 v3 iter :
  euclid u1 u3 v1 v3 iter -> val (digits v3) < val (digits u3) -> val (digits u1) <= val (digits v1) ->
  val (digits u3) * val (digits v3) < 2 ^ (Z.of_nat fuel - 1) -> (0 < fuel)%nat ->
  (inv_loop fuel u1 u3 v1 v3 iter = Undef /\ (2 < length (digits m))%nat) \/
  exists r1 r3 it, inv_loop fuel u1 u3 v1 v3 iter = Ok (r1, r3, it) /\ wf r1 /\ neg r1 = false /\ wf r3 /\ neg r3 = false /\
    val (digits r3) = Z.gcd a M /\ cong M (sign it * val (digits r1) * a) (Z.gcd a M) /\ val (digits r1) <= M.
Proof.
  revert u1 u3 v1 v3 iter. induction fuel as [|fuel IH]; intros u1 u3 v1 v3 iter He Hlt Hle Hf Hf0; [lia|]. cbn [inv_loop].
  pose proof He as [[(W1 & W3 & X1 & X3) (N1 & N3 & P1 & P3)] HU HV HG HD HL].
  rewrite eqb_zero by done.
  pose proof (val_nonneg _ (wf_ok _ X3)) as H3. pose proof (val_nonneg _ (wf_ok _ X1)) as H1. destruct (Z.eqb_spec (val (digits v3)) 0) as [E0|Hnz].
  { right. exists u1, u3, iter. rewrite E0 in *. rewrite Z.gcd_0_r_nonneg in HG by lia. rewrite <- HG.
    split_and!; [done..|]. pose proof (Z.mul_le_mono_nonneg_l 1 (val (digits u3)) (val (digits v1))). lia. }
  destruct (euclid_step u1 u3 v1 v3 iter He Hnz) as [[-> ?]|(q & t3 & t1 & -> & E1 & He' & Vt & Vt1)]; [by left|]. cbn [rbind fst snd].
  rewrite E1. cbn [rbind]. pose proof (Z.mod_pos_bound (val (digits u3)) (val (digits v3)) ltac:(lia)) as Hmb. rewrite <- Vt in Hmb.
  pose proof (Z.div_mod (val (digits u3)) (val (digits v3)) Hnz) as Hdm. rewrite <- Vt in Hdm.
  assert (1 <= val (digits u3) / val (digits v3)) as Hq1 by (apply Z.div_le_lower_bound; lia).
  pose proof (val_nonneg _ (wf_ok _ W1)).
  pose proof (Z.mul_le_mono_nonneg_l 1 _ (val (digits v3)) ltac:(lia) Hq1). pose proof (Z.mul_le_mono_nonneg_r 1 _ (val (digits v1)) ltac:(lia) Hq1).
  rewrite Nat2Z.inj_succ in Hf. replace (Z.succ (Z.of_nat fuel) - 1) with (Z.of_nat fuel) in Hf by lia.
  assert (0 < fuel)%nat as Hf1.
  { destruct fuel; [|lia]. change (2 ^ Z.of_nat 0) with 1 in Hf. pose proof (Z.mul_pos_pos (val (digits u3)) (val (digits v3))). lia. }
  apply IH; [done|lia|lia| |done]. replace (Z.of_nat fuel) with (Z.of_nat fuel - 1 + 1) in Hf by lia.
  rewrite Z.pow_add_r in Hf by lia. pose proof (Z.mul_le_mono_nonneg_r (2 * val (digits t3)) (val (digits u3)) (val (digits v3))). lia.
Qed.
End inverse.

Lemma mod_inv_spec x m : wf x -> neg x = false -> wf m -> 0 < zval m ->
  (mod_inv x m = Undef /\ (2 < length (digits m))%nat) \/
  exists r, mod_inv x m = Ok r /\ wf r /\
    if Z.gcd (zval x) (zval m) =? 1 then 0 <= zval r <= zval m /\ (zval r * zval x) mod zval m = 1 mod zval m
    else zval r = 0.
Proof.
  intros Hx Nx Hm Hpos. destruct (wf_neg m Hm) as [Zn Zp]. assert (neg m = false) as Nm.
  { destruct (neg m); [specialize (Zn eq_refl); lia|done]. }
  destruct (Zp Nm) as [_ Vm]. destruct (wf_neg x Hx) as [_ Zx]. destruct (Zx Nx) as [Hx0 Vx]. rewrite Vm, Vx in *.
  destruct (copy_wf x Hx) as [Wc Zc], (copy_wf m Hm) as [Wd Zd]. pose proof (strip_nonneg x Nx) as Nc. pose proof (strip_nonneg m Nm) as Nd.
  destruct (wf_neg _ Wc) as [_ Hc], (wf_neg _ Wd) as [_ Hd]. destruct (Hc Nc) as [_ Vc], (Hd Nd) as [_ Vd]. rewrite Zc, Vx in Vc. rewrite Zd, Vm in Vd.
  set (a := val (digits x)) in *. set (M := val (digits m)) in *. set (g := Z.gcd a M).
  assert (is_digit 0 /\ is_digit 1) as [D0 D1] by (unfold is_digit; lia).
  assert (euclid a m (of_u32 1) (copy x) zero (copy m) true) as He.
  { split; rewrite <- ?Vc, <- ?Vd; cbn [of_u32 zero digits val sign]; fold M.
    - split_and!; [by apply of_u32_wf|done|apply zero_wf|done|done|done|done|done].
    - exists 0. lia.
    - exists (-1). lia.
    - done.
    - lia.
    - lia. }
  unfold mod_inv. replace (64 * length (digits m) + 3)%nat with (S (64 * length (digits m) + 2)) by lia. cbn [inv_loop].
  rewrite eqb_zero by done. rewrite <- Vd. destruct (Z.eqb_spec M 0); [lia|].
  destruct (euclid_step a m Hm _ _ _ _ _ He) as [[-> ?]|(q & t3 & t1 & -> & E1 & He' & Vt & Vt1)]; [by rewrite <- Vd|by left|].
  cbn [rbind fst snd]. rewrite E1. cbn [rbind].
  rewrite <- Vc, <- Vd in Vt. pose proof (Z.mod_pos_bound a M ltac:(lia)) as Hmb. rewrite <- Vt in Hmb.
  cbn [zero of_u32 digits val] in Vt1.
  destruct (inv_loop_spec a m Hm (64 * length (digits m) + 2) _ _ _ _ _ He') as
    [[-> ?]|(r1 & r3 & it & -> & W1 & N1 & W3 & N3 & V3 & HC & HL)]; [rewrite <- Vd; lia|cbn; lia| |lia|by left|].
  { rewrite <- Vd. pose proof (val_bound _ (wf_ok _ Hm)) as Hb. fold M in Hb.
    apply Z.lt_le_trans with (base (length (digits m)) * base (length (digits m))); [nia|].
    rewrite <- Z.pow_add_r by lia. apply Z.pow_le_mono_r; lia. }
  right. cbn [rbind]. fold M in HC, HL, V3. fold g in HC, V3. rewrite eqb_small by done. rewrite V3.
  destruct (Z.eqb_spec g 1) as [->|]; cbn [negb]; [|exists zero; split_and!; [done|apply zero_wf|done]].
  destruct (wf_neg r1 W1) as [_ Hr]. destruct (Hr N1) as [Hr0 Vr]. destruct it; cbn [sign] in HC.
  - exists r1. split_and!; [done|done|lia|lia|]. apply cong_mod. rewrite Vr, <- HC. exists 0. lia.
  - destruct (minus_spec m r1 Hm W1) as (r & -> & Hrw & Zr). exists r. split_and!; [done|done|lia|lia|].
    apply cong_mod. rewrite Zr, Vm, Vr, <- HC. exists a. lia.
Qed.
