(* ===== verification/BigNumText.v ===== *)
(** Conversions of BigNum: bytes and hexadecimal text are read and written
    without loss. *)
From S2P Require Import Prelude Types BigNum BigNumProofs BigNumMul BigNumDiv.

(** * Units of a digit *)

Section units.
Context (w : Z) (Hw : 0 < w).

(** Little-endian value of units of [w] bits. *)
Fixpoint le (p : list Z) : Z := match p with [] => 0 | b :: p => b + 2 ^ w * le p end.
Definition is_unit (b : Z) : Prop := 0 <= b < 2 ^ w.

Fixpoint unit_digit (k : nat) (i : Z) (p : list Z) (n : Z) : Z * list Z :=
  match k, p with
  | S k, b :: p => unit_digit k (i + w) p (Z.lor n (w32 (Z.shiftl b i)))
  | _, _ => (n, p)
  end.

Fixpoint unit_digits (k fuel : nat) (p : list Z) : list Z :=
  match fuel, p with
  | S fuel, _ :: _ => let '(n, p) := unit_digit k 0 p 0 in n :: unit_digits k fuel p
  | _, _ => []
  end.

Lemma le_app a b : le (a ++ b) = le a + 2 ^ (w * zlen a) * le b.
Proof.
  induction a as [|c a IH]; [cbn [app le length]; rewrite Z.mul_0_r; lia|].
  cbn [app le length]. rewrite IH, Nat2Z.inj_succ, Z.mul_succ_r, Z.pow_add_r by lia. lia.
Qed.

Lemma le_bound p : Forall is_unit p -> 0 <= le p < 2 ^ (w * zlen p).
Proof.
  unfold is_unit. induction 1 as [|b p Hb _ IH]; [cbn [le length]; rewrite Z.mul_0_r; lia|].
  cbn [le length]. rewrite Nat2Z.inj_succ, Z.mul_succ_r, Z.pow_add_r by lia. nia.
Qed.

Lemma le_rev_ge c cs : Forall is_unit (c :: cs) -> c <> 0 -> 2 ^ (w * zlen cs) <= le (rev (c :: cs)).
Proof.
  intros H Hc. inversion H as [|? ? Hc' Hcs]; subst. unfold is_unit in Hc'. cbn [rev]. rewrite le_app, length_rev.
  pose proof (le_bound (rev cs)) as Hb. specialize (Hb ltac:(by apply Forall_rev)). cbn [le].
  pose proof (Z.mul_le_mono_nonneg_l 1 c (2 ^ (w * zlen cs)) ltac:(apply Z.pow_nonneg; lia) ltac:(lia)). lia.
Qed.

Lemma unit_digit_spec k i p n :
  Forall is_unit p -> 0 <= i -> i + w * Z.of_nat k <= 32 -> 0 <= n < 2 ^ i ->
  unit_digit k i p n = (n + 2 ^ i * le (take k p), drop k p).
Proof.
  intros Hp. revert k i n. induction Hp as [|b p Hb Hp IH]; intros [|k] i n Hi Hk Hn; cbn [unit_digit take drop le];
    try (f_equal; lia). unfold is_unit in Hb.
  assert (0 <= b * 2 ^ i < 2 ^ (i + w)) as Hs by (rewrite Z.pow_add_r by lia; nia).
  assert (2 ^ (i + w) <= 2 ^ 32) by (apply Z.pow_le_mono_r; lia).
  rewrite Z.shiftl_mul_pow2, w32_small by (unfold is_digit; lia).
  rewrite lor_disjoint by lia.
  rewrite IH by (rewrite ?Z.pow_add_r by lia; rewrite ?Z.pow_add_r in Hs by lia; nia). f_equal.
  rewrite Z.pow_add_r by lia. lia.
Qed.

Lemma unit_digits_spec k fuel p :
  Forall is_unit p -> w * Z.of_nat k = 32 -> (length p <= fuel)%nat ->
  ok (unit_digits k fuel p) /\ val (unit_digits k fuel p) = le p /\
  (p <> [] -> (1 <= length (unit_digits k fuel p))%nat /\ ((length (unit_digits k fuel p) - 1) * k < length p)%nat).
Proof.
  intros Hp Hk. assert (0 < k)%nat by lia. revert p Hp. induction fuel as [|fuel IH]; intros p Hp Hf.
  { destruct p; [done|simpl in Hf; lia]. }
  destruct p as [|b p]; [done|]. cbn [unit_digits].
  rewrite unit_digit_spec by (done || lia || (change (2 ^ 0) with 1; lia)).
  destruct (IH (drop k (b :: p))) as (I1 & I2 & I3); [by apply Forall_drop|rewrite length_drop; simpl in *; lia|].
  pose proof (le_bound _ (Forall_take _ k _ Hp)) as Hb. change (2 ^ 0) with 1. rewrite Z.add_0_l, Z.mul_1_l.
  assert (2 ^ (w * zlen (take k (b :: p))) <= 2 ^ 32).
  { apply Z.pow_le_mono_r; [lia|]. rewrite length_take. rewrite <- Hk. apply Z.mul_le_mono_nonneg_l; lia. }
  split_and!; [constructor; [unfold is_digit; lia|done]| |].
  2: { intros _. split; [simpl; lia|]. cbn [length]. rewrite Nat.sub_succ, Nat.sub_0_r.
    rewrite length_drop in I3. cbn [length] in I3. destruct (drop k (b :: p)) as [|c q] eqn:Ed.
    - destruct fuel; simpl; lia.
    - assert (S (length p) - k = S (length q))%nat as Hl by (apply (f_equal length) in Ed; rewrite length_drop in Ed; exact Ed).
      specialize (I3 ltac:(done)). nia. }
  cbn [val]. rewrite I2.
  rewrite <- (take_drop k (b :: p)) at 3. rewrite le_app. f_equal.
  destruct (Nat.le_gt_cases (length (b :: p)) k) as [Hle|Hgt].
  - rewrite drop_ge by done. simpl. lia.
  - rewrite length_take, Nat.min_l by lia. by rewrite Hk.
Qed.
End units.

(** * Bytes *)

Abbreviation byte := (is_unit 8).
(** Big-endian value of bytes. *)
Definition be (data : list Z) : Z := le 8 (rev data).

Lemma byte_digit_unit k i p n : byte_digit k i p n = unit_digit 8 k i p n.
Proof. revert i p n. induction k as [|k IH]; intros i [|b p] n; cbn [byte_digit unit_digit]; [done..|]. apply IH. Qed.

Lemma byte_digits_unit fuel p : byte_digits fuel p = unit_digits 8 4 fuel p.
Proof.
  revert p. induction fuel as [|fuel IH]; intros [|b p]; [done..|]. cbn [byte_digits unit_digits].
  rewrite byte_digit_unit. destruct (unit_digit 8 4 0 (b :: p) 0). by rewrite IH.
Qed.

Lemma set_bytes_spec data : Forall byte data ->
  ok (digits (set_bytes data)) /\ neg (set_bytes data) = false /\ val (digits (set_bytes data)) = be data.
Proof.
  intros H. unfold set_bytes. cbn [digits neg]. rewrite byte_digits_unit.
  destruct (unit_digits_spec 8 ltac:(lia) 4 (length data) (rev data)) as (H1 & H2 & _); [|lia|by rewrite length_rev|done].
  by apply Forall_rev.
Qed.

Lemma be_app a b : be (a ++ b) = be b + 2 ^ (8 * zlen b) * be a.
Proof. unfold be. rewrite rev_app_distr, le_app, length_rev by lia. done. Qed.

Lemma be_zeros k : be (replicate k 0) = 0.
Proof. induction k as [|k IH]; [done|]. change (replicate (S k) 0) with ([0] ++ replicate k 0). rewrite be_app, IH. change (be [0]) with 0. lia. Qed.

Lemma be_bound data : Forall byte data -> 0 <= be data < 2 ^ (8 * zlen data).
Proof. intros H. unfold be. pose proof (le_bound 8 ltac:(lia) (rev data)) as Hb. rewrite length_rev in Hb. apply Hb. by apply Forall_rev. Qed.

Lemma digit_bytes_spec d : is_digit d -> Forall byte (digit_bytes d) /\ be (digit_bytes d) = d.
Proof.
  intros Hd. unfold is_digit in Hd.
  assert (forall s, 0 <= s <= 24 -> Z.shiftr (w32 (Z.shiftl d s)) 24 = d / 2 ^ (24 - s) mod 2 ^ 8) as Hs.
  { intros s Hs. rewrite Z.shiftl_mul_pow2, Z.shiftr_div_pow2 by lia. unfold w32.
    replace (2 ^ 32) with (2 ^ (32 - s) * 2 ^ s) by (rewrite <- Z.pow_add_r by lia; f_equal; lia).
    rewrite Zmult_mod_distr_r. replace 24 with ((24 - s) + s) at 1 by lia. rewrite Z.pow_add_r by lia.
    rewrite Z.div_mul_cancel_r by (apply Z.pow_nonzero; lia).
    replace (2 ^ (32 - s)) with (2 ^ (24 - s) * 2 ^ 8) by (rewrite <- Z.pow_add_r by lia; f_equal; lia).
    rewrite Z.rem_mul_r by (try apply Z.pow_nonzero; try apply Z.pow_pos_nonneg; lia).
    rewrite Z.mul_comm, Z.div_add, Z.div_small by (try apply Z.mod_pos_bound; try apply Z.pow_nonzero; try apply Z.pow_pos_nonneg; lia). done. }
  unfold digit_bytes. replace (Z.shiftr d 24) with (Z.shiftr (w32 (Z.shiftl d 0)) 24) by (rewrite Z.shiftl_0_r, w32_small by done; done).
  rewrite !Hs by lia. split.
  { repeat (apply Forall_cons; split; [apply Z.mod_pos_bound; lia|]). by apply Forall_nil. }
  cbn [be rev app le]. change (24 - 0) with 24. change (24 - 8) with 16. change (24 - 16) with 8. change (24 - 24) with 0.
  change (2 ^ 0) with 1. rewrite Z.div_1_r.
  assert (d / 2 ^ 16 = d / 2 ^ 8 / 2 ^ 8) as -> by (rewrite Z.div_div by lia; done).
  assert (d / 2 ^ 24 = d / 2 ^ 8 / 2 ^ 8 / 2 ^ 8) as -> by (rewrite !Z.div_div by lia; done).
  rewrite (Z.mod_small (d / 2 ^ 8 / 2 ^ 8 / 2 ^ 8) (2 ^ 8)).
  - pose proof (Z.div_mod d (2 ^ 8)). pose proof (Z.div_mod (d / 2 ^ 8) (2 ^ 8)). pose proof (Z.div_mod (d / 2 ^ 8 / 2 ^ 8) (2 ^ 8)). lia.
  - rewrite !Z.div_div by lia. split; [apply Z.div_pos; lia|apply Z.div_lt_upper_bound; lia].
Qed.

Lemma all_bytes_spec ds : ok ds -> Forall byte (all_bytes ds) /\ be (all_bytes ds) = val ds.
Proof.
  unfold all_bytes. induction 1 as [|d ds Hd _ [IH1 IH2]]; [done|].
  cbn [rev]. rewrite map_app, concat_app. cbn [map concat]. rewrite app_nil_r.
  destruct (digit_bytes_spec d Hd) as [D1 D2]. split; [apply Forall_app; split; [done|done]|].
  rewrite be_app, IH2, D2. done.
Qed.

(** Leading zeros and the significant bytes behind them. *)
Lemma significant_bytes l : Forall byte l -> be l <> 0 ->
  exists k b bs, l = replicate k 0 ++ b :: bs /\ b <> 0 /\ be l = be (b :: bs) /\ Forall byte (b :: bs).
Proof.
  induction 1 as [|b l Hb Hl IH]; intros Hne; [done|].
  destruct (Z.eq_dec b 0) as [->|].
  - change (0 :: l) with ([0] ++ l) in Hne |- *. rewrite be_app in Hne |- *. change (be [0]) with 0 in *. rewrite Z.mul_0_r, Z.add_0_r in *.
    destruct (IH Hne) as (k & b & bs & -> & ? & ? & ?). by exists (S k), b, bs.
  - exists O, b, l. split_and!; [done..|]. by constructor.
Qed.

(** Storing the bytes: zeros are overwritten by what follows them. *)
Lemma get_loop_bytes bs buffer p nZ :
  (p + length bs <= length buffer)%nat -> zlen bs < 2 ^ 64 -> bs <> [] ->
  nZ <> 0 \/ hd 0 bs <> 0 -> Forall byte bs ->
  get_loop bs buffer p (zlen bs) nZ = Ok (take p buffer ++ bs ++ drop (p + length bs) buffer, (p + length bs)%nat).
Proof.
  revert buffer p nZ. induction bs as [|b bs IH]; intros buffer p nZ Hp Hlen Hne Hnz Hbs; [done|].
  cbn [get_loop]. cbn [length] in *. destruct (Nat.ltb_spec p (length buffer)); [|lia].
  inversion Hbs as [|? ? Hb Hbs']; subst. unfold is_unit in Hb.
  assert (Z.lor nZ b <> 0) as Hor.
  { intros E. apply Z.lor_eq_0_iff in E as [-> ->]. by destruct Hnz. }
  assert ((Z.lor nZ b =? 0) = false) as -> by (by apply Z.eqb_neq). cbn [negb].
  rewrite Nat2Z.inj_succ, w64_small by lia. replace (Z.succ (zlen bs) - 1) with (zlen bs) by lia.
  assert (take (S p) (<[p:=b]> buffer) = take p buffer ++ [b]) as Ht.
  { erewrite take_S_r by (apply list_lookup_insert_eq; lia). by rewrite take_insert_ge by lia. }
  assert (drop (S p) (<[p:=b]> buffer) = drop (S p) buffer) as Hd by (apply drop_insert_lt; lia).
  destruct (Z.eqb_spec (zlen bs) 0) as [E|E].
  - destruct bs; [|done]. cbn [length] in *. f_equal. f_equal; [|lia].
    rewrite <- (take_drop (S p) (<[p:=b]> buffer)), Ht, Hd. rewrite <- app_assoc. simpl. by rewrite Nat.add_1_r.
  - rewrite IH; [|rewrite length_insert; lia|lia|by intros ->| |done].
    + rewrite Ht. replace (S p + length bs)%nat with (p + S (length bs))%nat by lia.
      rewrite drop_insert_lt by lia. by rewrite <- app_assoc.
    + by left.
Qed.

Lemma get_loop_spec k bs buffer p :
  (p + length bs <= length buffer)%nat -> zlen bs < 2 ^ 64 -> hd 0 bs <> 0 -> Forall byte bs ->
  get_loop (replicate k 0 ++ bs) buffer p (zlen bs) 0 = Ok (take p buffer ++ bs ++ drop (p + length bs) buffer, (p + length bs)%nat).
Proof.
  intros Hp Hlen Hh Hbs. assert (bs <> []) as Hne by (by intros ->). assert (0 < length bs)%nat by (destruct bs; simpl; [done|lia]).
  revert buffer Hp. induction k as [|k IH]; intros buffer Hp; cbn [replicate app].
  { apply get_loop_bytes; auto. }
  cbn [get_loop]. destruct (Nat.ltb_spec p (length buffer)); [|lia]. change (Z.lor 0 0) with 0. change (negb (0 =? 0)) with false.
  cbv iota beta. destruct (Z.eqb_spec (zlen bs) 0); [lia|]. rewrite IH by (rewrite length_insert; lia).
  rewrite take_insert_ge, drop_insert_lt by lia. done.
Qed.

Lemma byte_len_spec x b bs : ok (digits x) -> b <> 0 -> Forall byte (b :: bs) -> val (digits x) = be (b :: bs) ->
  byte_len x = zlen (b :: bs).
Proof.
  intros Hx Hb Hbs Hv. inversion Hbs as [|? ? Hb' Hbs']; subst. unfold is_unit in Hb'. pose proof (be_bound _ Hbs') as Hbd.
  change (b :: bs) with ([b] ++ bs) in Hv. rewrite be_app in Hv. change (be [b]) with (b + 2 ^ 8 * 0) in Hv.
  pose proof (Z.pow_pos_nonneg 2 (8 * zlen bs) ltac:(lia) ltac:(lia)) as Hp.
  assert (2 ^ (8 * zlen bs) <= val (digits x) < 2 ^ (8 * zlen bs + 8)) as Hr by (rewrite Z.pow_add_r by lia; nia).
  unfold byte_len. rewrite bit_len_spec by done. destruct (Z.eqb_spec (val (digits x)) 0); [lia|].
  assert (8 * zlen bs <= Z.log2 (val (digits x)) < 8 * zlen bs + 8) as Hl.
  { split; [apply Z.log2_le_pow2; lia|apply Z.log2_lt_pow2; lia]. }
  cbn [length]. rewrite Nat2Z.inj_succ. symmetry. apply Z.div_unique with (7 + (Z.log2 (val (digits x)) + 1) - 8 * Z.succ (zlen bs)); lia.
Qed.

(** A number that fits is stored with zeros in front of it. *)
Lemma get_bytes_spec x buffer : ok (digits x) -> val (digits x) <> 0 -> byte_len x <= zlen buffer -> zlen buffer < 2 ^ 64 ->
  exists out, get_bytes x buffer true = Ok (out, length buffer) /\ length out = length buffer /\ Forall byte out /\
    be out = val (digits x).
Proof.
  intros Hx Hnz Hfit Hlen. destruct (all_bytes_spec _ Hx) as [HA HV].
  destruct (significant_bytes _ HA ltac:(lia)) as (k & b & bs & E & Hb & Hbe & Hbs). rewrite HV in Hbe.
  pose proof (byte_len_spec x b bs Hx Hb Hbs Hbe) as EL. rewrite EL in Hfit.
  set (sig := b :: bs) in *. set (n := (length buffer - length sig)%nat).
  assert (get_bytes x buffer true = Ok (replicate n 0 ++ sig, length buffer)) as ->.
  { unfold get_bytes. rewrite EL, E. cbn [andb]. destruct (Z.ltb_spec (zlen sig) (zlen buffer)).
    - cbv zeta. replace (Z.to_nat (zlen buffer - zlen sig)) with n by lia.
      rewrite get_loop_spec by (rewrite ?length_app, ?length_replicate, ?length_drop; lia || done).
      rewrite take_app_length' by (by rewrite length_replicate). rewrite drop_ge by (rewrite length_app, length_replicate, length_drop; lia).
      rewrite app_nil_r. f_equal. f_equal. lia.
    - replace (zlen buffer) with (zlen sig) by lia. rewrite get_loop_spec by (lia || done).
      replace n with O by lia. rewrite drop_ge by lia. rewrite app_nil_r. f_equal. f_equal. lia. }
  eexists. split; [reflexivity|]. split_and!.
  - rewrite length_app, length_replicate. lia.
  - apply Forall_app. split; [|done]. apply Forall_replicate. unfold is_unit. lia.
  - rewrite be_app, be_zeros, Hbe. lia.
Qed.

(** * Hexadecimal text *)

Abbreviation nibble := (is_unit 4).

Lemma nibble_cases (P : Z -> Prop) : Forall P (map Z.of_nat (seq 0 16)) -> forall v, nibble v -> P v.
Proof.
  intros H v Hv. unfold is_unit in Hv. rewrite Forall_forall in H. apply H. apply list_elem_of_In, in_map_iff.
  exists (Z.to_nat v). rewrite in_seq. lia.
Qed.

Lemma hex_char_value lo v : nibble v -> hex_value (hex_char lo v) = Some v.
Proof. revert v. apply nibble_cases. destruct lo; repeat constructor. Qed.

Lemma hex_char_plain lo v : nibble v -> hex_char lo v <> 45 /\ hex_char lo v <> 58 /\ (hex_char lo v = 48 <-> v = 0).
Proof. revert v. apply nibble_cases. destruct lo; repeat constructor; cbn in *; lia || done. Qed.

Lemma hex_digit_unit lo k i vs n : Forall nibble vs ->
  hex_digit k i (map (hex_char lo) vs) n =
  Some ((unit_digit 4 k i vs n).1, map (hex_char lo) (unit_digit 4 k i vs n).2).
Proof.
  intros Hvs. revert k i n. induction Hvs as [|v vs Hv _ IH]; intros [|k] i n; cbn [map hex_digit unit_digit]; [done..|].
  rewrite hex_char_value by done. apply IH.
Qed.

Lemma hex_number_unit lo fuel vs : Forall nibble vs ->
  hex_number fuel (map (hex_char lo) vs) = Some (unit_digits 4 8 fuel vs).
Proof.
  revert vs. induction fuel as [|fuel IH]; intros vs Hvs; [by destruct vs|]. destruct vs as [|v vs]; [done|].
  cbn [hex_number unit_digits map]. change (hex_char lo v :: map (hex_char lo) vs) with (map (hex_char lo) (v :: vs)).
  rewrite hex_digit_unit by done. rewrite unit_digit_spec by (done || lia). cbn [mbind option_bind fst snd].
  rewrite IH by (by apply Forall_drop). done.
Qed.

(** The nibbles of a digit, most significant first. *)
Fixpoint nibbles (k : nat) (d : Z) : list Z :=
  match k with O => [] | S k => nibbles k (d / 16) ++ [d mod 16] end.

Lemma nibbles_spec k d : 0 <= d < 2 ^ (4 * Z.of_nat k) ->
  Forall nibble (nibbles k d) /\ length (nibbles k d) = k /\ le 4 (rev (nibbles k d)) = d.
Proof.
  revert d. induction k as [|k IH]; intros d Hd; [cbn in *; split_and!; [done..|lia]|].
  rewrite Nat2Z.inj_succ, Z.mul_succ_r, Z.pow_add_r in Hd by lia. cbn [nibbles].
  destruct (IH (d / 16)) as (I1 & I2 & I3); [split; [apply Z.div_pos; lia|apply Z.div_lt_upper_bound; lia]|].
  rewrite rev_app_distr, length_app. cbn [rev app le length]. rewrite I3, I2. pose proof (Z.mod_pos_bound d 16 ltac:(lia)).
  split_and!; [|lia|pose proof (Z.div_mod d 16); lia]. apply Forall_app. split; [done|]. apply Forall_cons. split; [done|by apply Forall_nil].
Qed.

(** All nibbles of the digits. *)
Definition all_nibbles (ds : list Z) : list Z := concat (map (nibbles 8) (rev ds)).

Lemma all_nibbles_spec ds : ok ds -> Forall nibble (all_nibbles ds) /\ le 4 (rev (all_nibbles ds)) = val ds.
Proof.
  unfold all_nibbles. induction 1 as [|d ds Hd _ [IH1 IH2]]; [done|].
  cbn [rev]. rewrite map_app, concat_app. cbn [map concat]. rewrite app_nil_r.
  destruct (nibbles_spec 8 d Hd) as (D1 & D2 & D3). split; [by apply Forall_app|].
  rewrite rev_app_distr, le_app, length_rev, D2, D3, IH2 by lia. done.
Qed.

Lemma text_nibbles lo ds : concat (map (fmt_digit 8 lo) (rev ds)) = map (hex_char lo) (all_nibbles ds).
Proof. unfold all_nibbles. rewrite concat_map, map_map. reflexivity. Qed.

(** Skipping zeros: nothing is left of zero, the rest begins with a digit that is not zero. *)
Lemma skip_zeros_nibbles lo vs : Forall nibble vs ->
  exists ws, skip_zeros (map (hex_char lo) vs) = map (hex_char lo) ws /\ Forall nibble ws /\
    le 4 (rev ws) = le 4 (rev vs) /\ (ws = [] \/ hd 0 ws <> 0).
Proof.
  induction 1 as [|v vs Hv Hvs (ws & I1 & I2 & I3 & I4)]; [by exists []; auto|].
  destruct (hex_char_plain lo v Hv) as (_ & _ & Hz). destruct (Z.eq_dec v 0) as [->|Hnz].
  - exists ws. cbn [map]. rewrite (proj2 Hz eq_refl). cbn [skip_zeros]. split_and!; [done..| |done].
    cbn [rev]. rewrite le_app, I3 by lia. cbn [le]. lia.
  - exists (v :: vs). split_and!; [|by constructor|done|by right]. cbn [map].
    assert (hex_char lo v <> 48) as H48 by (intros E; by apply Hz in E). cbn [skip_zeros]. by rewrite (proj2 (Z.eqb_neq _ _) H48).
Qed.

Lemma set_hex_plain lo ws : Forall nibble ws -> ws <> [] -> hd 0 ws <> 0 ->
  set_hex (map (hex_char lo) ws) = Some {| digits := unit_digits 4 8 (length ws) (rev ws); neg := false |} /\
  set_hex (45 :: map (hex_char lo) ws) = Some {| digits := unit_digits 4 8 (length ws) (rev ws); neg := true |}.
Proof.
  intros Hws Hne Hh. destruct ws as [|w ws]; [done|]. inversion Hws as [|? ? Hw _]; subst. cbn [hd] in Hh.
  destruct (hex_char_plain lo w Hw) as (H45 & _ & H48). assert (hex_char lo w <> 48) as Hn by tauto.
  apply Z.eqb_neq in H45, Hn.
  assert (hex_number (S (length ws)) (rev (map (hex_char lo) (w :: ws))) = Some (unit_digits 4 8 (S (length ws)) (rev (w :: ws)))) as Hnum.
  { rewrite <- map_rev. apply hex_number_unit. by apply Forall_rev. }
  unfold set_hex. cbn [map skip_sign] in *. rewrite H45.
  assert (skip_prefix (hex_char lo w :: map (hex_char lo) ws) = hex_char lo w :: map (hex_char lo) ws) as Hp.
  { unfold skip_prefix. destruct (map (hex_char lo) ws); [done|]. by rewrite Hn. }
  change (45 =? 45) with true. cbv iota. rewrite Hp. cbn [skip_zeros]. rewrite Hn. cbn [length]. by rewrite length_map, Hnum.
Qed.

(** Text written and read again, in either case. *)
Lemma hex_spec x lo : ok (digits x) -> digits x <> [] ->
  exists y, set_hex (get_hex x lo) = Some y /\ wf y /\ zval y = zval x.
Proof.
  intros W1 W2. pose proof (val_nonneg _ W1). destruct (all_nibbles_spec _ W1) as [N1 N2].
  unfold get_hex. rewrite text_nibbles. cbn [skip_zeros]. change (48 =? 48) with true. cbv iota.
  destruct (skip_zeros_nibbles lo (all_nibbles (digits x)) N1) as (ws & -> & Hws & Hv & Hh). rewrite N2 in Hv.
  destruct ws as [|w ws].
  - exists zero. simpl in Hv. split_and!; [done|apply zero_wf|]. unfold zval at 2. rewrite <- Hv. by destruct (neg x).
  - destruct Hh as [|Hh]; [done|]. destruct (set_hex_plain lo (w :: ws) Hws ltac:(done) Hh) as [Hp Hn].
    destruct (unit_digits_spec 4 ltac:(lia) 8 (length (w :: ws)) (rev (w :: ws))) as (U1 & U2 & U3);
      [by apply Forall_rev|done|by rewrite length_rev|].
    destruct U3 as [U3 U4]; [by intros E%(f_equal length); rewrite length_rev in E|]. rewrite length_rev in U4.
    pose proof (le_rev_ge 4 ltac:(lia) w ws Hws Hh) as Hge. set (ds := unit_digits 4 8 (length (w :: ws)) (rev (w :: ws))) in *.
    assert (forall n, wf {| digits := ds; neg := n |}) as Hwf.
    { intros n. pose proof (Z.pow_pos_nonneg 2 (4 * zlen ws) ltac:(lia) ltac:(lia)).
      assert (ds <> []) as Hne by (destruct ds; [simpl in U3; lia|done]). split; cbn [digits neg]; [done|done| |intros _; lia].
      apply haslz_of_val; [done|done|]. right. cbn [digits]. rewrite U2. etransitivity; [|exact Hge].
      apply Z.pow_le_mono_r; [lia|]. cbn [length] in U4. lia. }
    cbn [map] in *. destruct (neg x) eqn:En; rewrite ?Hp, ?Hn; eexists; (split_and!; [reflexivity|apply Hwf|]);
      unfold zval; cbn [digits neg]; rewrite En; lia.
Qed.

(** Reading gives the number without leading zeros. *)
Lemma hex_strip x lo : ok (digits x) -> digits x <> [] -> set_hex (get_hex x lo) = Some (strip_lz x).
Proof.
  intros Hx Hne. destruct (hex_spec x lo Hx Hne) as (y & -> & Hy & Hz). destruct (strip_wf x Hx Hne) as [Hs Hz'].
  f_equal. apply wf_inj; [done|done|lia].
Qed.

Lemma strip_self x : wf x -> strip_lz x = x.
Proof. intros Hx. pose proof Hx as [X1 X2 _ _]. destruct (strip_wf x X1 X2) as [Hs Hz]. by apply wf_inj. Qed.

Lemma hex_same x lo : wf x -> set_hex (get_hex x lo) = Some x.
Proof. intros Hx. rewrite hex_strip by apply Hx. by rewrite strip_self. Qed.
