(* ===== verification/BigNumTheorems.v ===== *)
(** What BigNum promises, against the integers as the abstract specification,
    and where it does not keep the promise. *)
From S2P Require Import Prelude Types BigNum BigNumProofs BigNumMul BigNumDiv BigNumMonty BigNumInv BigNumText.

(** A BigNum stands for an integer. *)
Record repr (x : BigNum) (z : Z) : Prop := { repr_wf : wf x; repr_val : zval x = z }.

Lemma repr_intro x z : wf x -> zval x = z -> repr x z.
Proof. by split. Qed.
#[local] Hint Resolve repr_intro : core.

(** C34: addition, subtraction, multiplication, absolute value, the shifts and, for
    numbers other than zero, negation of BigNum refine those of the integers: they
    always return, with the representation of the result and no leading zeros; the right
    shift rounds towards zero. The negation of zero is left out, since it has a sign. *)
Theorem BigNum_refines_Z x n p q : repr x p -> repr n q ->
  (exists r, plus x n = Ok r /\ repr r (p + q)) /\
  (exists r, minus x n = Ok r /\ repr r (p - q)) /\
  repr (mul x n) (p * q) /\ repr (abs x) (Z.abs p) /\ (p <> 0 -> repr (opp x) (- p)) /\
  (forall shift, 0 <= shift -> repr (shl x shift) (p * 2 ^ shift) /\
     exists r, right_shift x shift = Ok r /\ repr r (Z.quot p (2 ^ shift))).
Proof.
  intros [Hx <-] [Hn <-]. split_and!.
  - destruct (plus_spec x n Hx Hn) as (r & ? & ? & ?). eauto.
  - destruct (minus_spec x n Hx Hn) as (r & ? & ? & ?). eauto.
  - destruct (mul_spec x n Hx Hn). auto.
  - destruct (abs_spec x Hx) as (? & ? & _). auto.
  - intros Hnz. destruct (opp_wf x Hx Hnz) as (? & ? & _). auto.
  - intros shift Hs. destruct (shl_spec x shift (wf_ok _ Hx) (wf_ne _ Hx) Hs). split; [auto|].
    destruct (right_shift_spec x shift Hx Hs) as (r & ? & ? & ?). eauto.
Qed.

(** The number 2^64 - 1 and its neighbours. *)
Lemma repr_of ds s : forallb (fun d => (0 <=? d) && (d <? 2 ^ 32)) ds = true -> ds <> [] ->
  haslz {| digits := ds; neg := s |} = false -> (s = true -> val ds <> 0) ->
  repr {| digits := ds; neg := s |} (if s then - val ds else val ds).
Proof.
  intros H Hne Hlz Hs. split; [|done]. split; [|done..]. apply List.Forall_forall. intros d Hd.
  rewrite forallb_forall in H. specialize (H d Hd). unfold is_digit. lia.
Qed.

Lemma BigNum_refines_Z_witness :
  exists r, plus {| digits := [0xFFFFFFFF; 0xFFFFFFFF]; neg := false |} (of_u32 1) = Ok r /\ repr r (2 ^ 64).
Proof.
  pose proof (BigNum_refines_Z _ _ _ _
    (repr_of [0xFFFFFFFF; 0xFFFFFFFF] false eq_refl ltac:(discriminate) eq_refl ltac:(discriminate))
    (repr_of [1] false eq_refl ltac:(discriminate) eq_refl ltac:(discriminate))) as [H _]. exact H.
Defined.

(** division by a number of at most two digits always returns; for longer
    divisors it returns or violates the assertion of the in-place subtraction.
    What it returns is the quotient rounded towards zero and the remainder with
    the sign of the dividend, except that opposite numbers have the quotient 1. *)
Theorem BigNum_division x y : wf x -> wf y -> zval y <> 0 ->
  (div x y = Undef /\ (2 < length (digits y))%nat) \/
  exists q r, div x y = Ok (q, r) /\
    if Z.abs (zval x) =? Z.abs (zval y) then repr q 1 /\ repr r 0
    else repr q (Z.quot (zval x) (zval y)) /\ repr r (Z.rem (zval x) (zval y)).
Proof.
  intros Hx Hy Hnz. assert (forall n, wf n -> Z.abs (zval n) = val (digits n)) as Ha.
  { intros n Hn. pose proof (val_nonneg _ (wf_ok _ Hn)). unfold zval. destruct (neg n); lia. }
  rewrite !Ha by done. destruct (div_spec x y Hx Hy Hnz) as [?|(q & r & E & H)]; [by left|right]. exists q, r. split; [done|].
  destruct (val (digits x) =? val (digits y)).
  - destruct H as [-> ->]. split; apply repr_intro; [apply of_u32_wf; unfold is_digit; lia|done|apply zero_wf|done].
  - destruct H as (? & ? & ? & ?). auto.
Qed.

(** -2^64 divided by 10. *)
Lemma BigNum_division_witness :
  let x := {| digits := [0; 0; 1]; neg := true |} in
  let y := of_u32 10 in
  (div x y = Undef /\ (2 < 1)%nat) \/
  exists q r, div x y = Ok (q, r) /\ repr q (Z.quot (- 2 ^ 64) 10) /\ repr r (Z.rem (- 2 ^ 64) 10).
Proof.
  apply (BigNum_division {| digits := [0; 0; 1]; neg := true |} (of_u32 10)).
  - apply (repr_of [0; 0; 1] true eq_refl ltac:(discriminate) eq_refl ltac:(discriminate)).
  - apply (repr_of [10] false eq_refl ltac:(discriminate) eq_refl ltac:(discriminate)).
  - discriminate.
Defined.

(** The correction of long division, where the estimated digit is still one
    too large and the divisor is to be added back, is never reached: the
    subtraction before it succeeds only with a result that is not negative, and
    for these numbers of three digits it violates its assertion instead. *)
Theorem BigNum_add_back_unreachable :
  div {| digits := [3; 0; 0x80000000]; neg := false |} {| digits := [1; 0; 0x20000000]; neg := false |} = Undef /\
  forall v y q, ok (digits v) -> digits v <> [] -> wf y -> neg v = false -> neg y = false -> is_digit q ->
    forall r, sub v (mul1 y q false) = Ok r -> ltb r zero = false.
Proof.
  split; [reflexivity|]. intros v y q Hv Hne Hy Nv Ny Hq r Hr. destruct (mul1_nonneg y q Hy Ny Hq) as (Wm & Nm & Vm).
  destruct (Z.le_gt_cases (val (digits (mul1 y q false))) (val (digits v))) as [Hle|Hgt].
  - destruct (sub_ok v _ Hv Hne Nv Wm Nm Hle) as (r' & E & Wr & Nr & _). rewrite E in Hr.
    injection Hr as <-. by apply not_negative.
  - by rewrite (sub_undef v _ Hv Hne Nv Wm Nm Hgt) in Hr.
Qed.

(** The negation of zero has a sign, and adding or subtracting it never
    returns: the two operators call each other, each time with the same number. *)
Theorem BigNum_negated_zero fuel x : plus_ fuel x (opp zero) = Undef /\ minus_ fuel x (opp zero) = Undef.
Proof.
  assert (opp (opp zero) = opp zero) as E by reflexivity. induction fuel as [|fuel [IH1 IH2]]; [done|].
  cbn [plus_ minus_]. change (neg (opp zero)) with true. cbv iota. rewrite E. done.
Qed.

(** A positive number whose bytes fit into a buffer is written padded with
    zeros, filling the buffer, and read back from it. *)
Theorem BigNum_bytes_roundtrip x buffer :
  wf x -> 0 < zval x -> byte_len x <= zlen buffer -> zlen buffer < 2 ^ 64 ->
  exists out, get_bytes x buffer true = Ok (out, length buffer) /\ length out = length buffer /\ zval (set_bytes out) = zval x.
Proof.
  intros Hx Hp Hfit Hlen. destruct (wf_neg x Hx) as [Hn Hv]. assert (neg x = false) as Nx by (destruct (neg x); [specialize (Hn eq_refl); lia|done]).
  destruct (Hv Nx) as [_ Ev]. destruct (get_bytes_spec x buffer (wf_ok _ Hx) ltac:(lia) Hfit Hlen) as (out & E & El & Hb & Hbe).
  exists out. split_and!; [done..|]. destruct (set_bytes_spec out Hb) as (_ & Ns & Vs). unfold zval at 1. rewrite Ns. lia.
Qed.

(** Five bytes into a buffer of eight. *)
Lemma BigNum_bytes_roundtrip_witness :
  let x := {| digits := [0x01020304; 0xFF]; neg := false |} in
  exists out, get_bytes x (replicate 8 7) true = Ok (out, 8%nat) /\ length out = 8%nat /\ zval (set_bytes out) = zval x.
Proof.
  apply (BigNum_bytes_roundtrip {| digits := [0x01020304; 0xFF]; neg := false |} (replicate 8 7)).
  - apply (repr_of [0x01020304; 0xFF] false eq_refl ltac:(discriminate) eq_refl ltac:(discriminate)).
  - reflexivity.
  - vm_compute. discriminate.
  - vm_compute. reflexivity.
Defined.

(** A number of either sign printed in hexadecimal, in lower or upper case,
    is read back as the same number without leading zeros; the very same BigNum
    when it had none. *)
Theorem BigNum_hex_roundtrip x lower : ok (digits x) -> digits x <> [] ->
  set_hex (get_hex x lower) = Some (strip_lz x) /\ zval (strip_lz x) = zval x /\ (wf x -> strip_lz x = x).
Proof.
  intros Hx Hne. split_and!; [by apply hex_strip|by apply strip_wf|apply strip_self].
Qed.

(** A negative number with a leading zero. *)
Lemma BigNum_hex_roundtrip_witness :
  let x := {| digits := [0xDEADBEEF; 0]; neg := true |} in
  set_hex (get_hex x true) = Some {| digits := [0xDEADBEEF]; neg := true |} /\ zval {| digits := [0xDEADBEEF]; neg := true |} = zval x /\
  (wf x -> {| digits := [0xDEADBEEF]; neg := true |} = x).
Proof.
  apply (BigNum_hex_roundtrip {| digits := [0xDEADBEEF; 0]; neg := true |} true).
  - apply Forall_cons; split; [split; reflexivity || discriminate|]. apply Forall_cons; split; [split; reflexivity || discriminate|]. by apply Forall_nil.
  - discriminate.
Defined.

(** modular exponentiation, by Montgomery multiplication for odd moduli and
    by division for even ones, gives the power modulo the modulus; it fails only
    where a division by a modulus of more than two digits fails. *)
Theorem BigNum_mod_exp x e m p k : repr x p -> 0 <= p -> repr e k -> 0 <= k -> wf m -> 0 < zval m ->
  (mod_exp x e m = Undef /\ (2 < length (digits m))%nat) \/
  exists r, mod_exp x e m = Ok r /\ repr r (p ^ k mod zval m).
Proof.
  intros [Hx <-] Hp [He <-] Hk Hm Hpos. assert (forall n, wf n -> 0 <= zval n -> neg n = false /\ val (digits n) = zval n) as Ha.
  { intros n Hn H0. destruct (wf_neg n Hn) as [Nn Np]. destruct (neg n); [specialize (Nn eq_refl); lia|]. split; [done|]. by destruct (Np eq_refl). }
  destruct (Ha x Hx Hp) as [Nx _], (Ha e He Hk) as [_ Ve].
  destruct (mod_exp_spec x e m Hx Nx (wf_ok _ He) Hm Hpos) as [[? [? _]]|(r & E & Hr & Zr)]; [by left|right]. exists r. rewrite Ve in Zr. auto.
Qed.

(** 7^(2^32) modulo the odd number 2^32 + 15. *)
Lemma BigNum_mod_exp_witness :
  let m := {| digits := [15; 1]; neg := false |} in
  (mod_exp (of_u32 7) {| digits := [0; 1]; neg := false |} m = Undef /\ (2 < 2)%nat) \/
  exists r, mod_exp (of_u32 7) {| digits := [0; 1]; neg := false |} m = Ok r /\ repr r (7 ^ (2 ^ 32) mod (2 ^ 32 + 15)).
Proof.
  refine (BigNum_mod_exp (of_u32 7) {| digits := [0; 1]; neg := false |} {| digits := [15; 1]; neg := false |} 7 (2 ^ 32)
    (repr_of [7] false eq_refl _ eq_refl _) _ (repr_of [0; 1] false eq_refl _ eq_refl _) _
    (repr_wf _ _ (repr_of [15; 1] false eq_refl _ eq_refl _)) _); discriminate || reflexivity.
Defined.

(** the modular inverse ends; it is an inverse between zero and the modulus
    when the numbers are coprime and zero when they are not; it fails only where
    a division by a number of more than two digits fails. *)
Theorem BigNum_mod_inv x m : wf x -> 0 <= zval x -> wf m -> 0 < zval m ->
  (mod_inv x m = Undef /\ (2 < length (digits m))%nat) \/
  exists r, mod_inv x m = Ok r /\ wf r /\
    if Z.gcd (zval x) (zval m) =? 1 then 0 <= zval r <= zval m /\ (zval r * zval x) mod zval m = 1 mod zval m
    else zval r = 0.
Proof.
  intros Hx H0. apply mod_inv_spec; [done|]. destruct (wf_neg x Hx) as [Hn _]. destruct (neg x); [specialize (Hn eq_refl); lia|done].
Qed.

(** The inverse of 3 modulo 2^32. *)
Lemma BigNum_mod_inv_witness :
  let m := {| digits := [0; 1]; neg := false |} in
  (mod_inv (of_u32 3) m = Undef /\ (2 < 2)%nat) \/
  exists r, mod_inv (of_u32 3) m = Ok r /\ wf r /\
    0 <= zval r <= 2 ^ 32 /\ (zval r * 3) mod 2 ^ 32 = 1 mod 2 ^ 32.
Proof.
  refine (BigNum_mod_inv (of_u32 3) {| digits := [0; 1]; neg := false |}
    (repr_wf _ _ (repr_of [3] false eq_refl _ eq_refl _)) _
    (repr_wf _ _ (repr_of [0; 1] false eq_refl _ eq_refl _)) _); discriminate || reflexivity.
Defined.
