(* ===== verification/CryptoSRP.v ===== *)
(** Model of common/src/CryptoSRP.cc: password authentication by the Secure
    Remote Password protocol, on top of BigNum.

    The hash function, SHA-1 of the crypto library the build selects, is a
    parameter; random numbers are arguments. The object's members are the record
    [BN]. A call is [Undef] where BigNum violates an assertion or a buffer is
    overrun. The test switch, on only inside TestVector, is off. *)
From S2P Require Import Prelude Types BigNum.

Module SRP.

Definition Prime1024 : list Z :=
  [0xEE; 0xAF; 0x0A; 0xB9; 0xAD; 0xB3; 0x8D; 0xD6; 0x9C; 0x33; 0xF8; 0x0A; 0xFA; 0x8F; 0xC5; 0xE8;
   0x60; 0x72; 0x61; 0x87; 0x75; 0xFF; 0x3C; 0x0B; 0x9E; 0xA2; 0x31; 0x4C; 0x9C; 0x25; 0x65; 0x76;
   0xD6; 0x74; 0xDF; 0x74; 0x96; 0xEA; 0x81; 0xD3; 0x38; 0x3B; 0x48; 0x13; 0xD6; 0x92; 0xC6; 0xE0;
   0xE0; 0xD5; 0xD8; 0xE2; 0x50; 0xB9; 0x8B; 0xE4; 0x8E; 0x49; 0x5C; 0x1D; 0x60; 0x89; 0xDA; 0xD1;
   0x5D; 0xC7; 0xD7; 0xB4; 0x61; 0x54; 0xD6; 0xB6; 0xCE; 0x8E; 0xF4; 0xAD; 0x69; 0xB1; 0x5D; 0x49;
   0x82; 0x55; 0x9B; 0x29; 0x7B; 0xCF; 0x18; 0x85; 0xC5; 0x29; 0xF5; 0x66; 0x66; 0x0E; 0x57; 0xEC;
   0x68; 0xED; 0xBC; 0x3C; 0x05; 0x72; 0x6C; 0xC0; 0x2F; 0xD4; 0xCB; 0xF4; 0x97; 0x6E; 0xAA; 0x9A;
   0xFD; 0x51; 0x38; 0xFE; 0x83; 0x76; 0x43; 0x5B; 0x9F; 0xC6; 0x1D; 0x2F; 0xC0; 0xEB; 0x06; 0xE3].

Definition Prime1536 : list Z :=
  [0x9D; 0xEF; 0x3C; 0xAF; 0xB9; 0x39; 0x27; 0x7A; 0xB1; 0xF1; 0x2A; 0x86; 0x17; 0xA4; 0x7B; 0xBB;
   0xDB; 0xA5; 0x1D; 0xF4; 0x99; 0xAC; 0x4C; 0x80; 0xBE; 0xEE; 0xA9; 0x61; 0x4B; 0x19; 0xCC; 0x4D;
   0x5F; 0x4F; 0x5F; 0x55; 0x6E; 0x27; 0xCB; 0xDE; 0x51; 0xC6; 0xA9; 0x4B; 0xE4; 0x60; 0x7A; 0x29;
   0x15; 0x58; 0x90; 0x3B; 0xA0; 0xD0; 0xF8; 0x43; 0x80; 0xB6; 0x55; 0xBB; 0x9A; 0x22; 0xE8; 0xDC;
   0xDF; 0x02; 0x8A; 0x7C; 0xEC; 0x67; 0xF0; 0xD0; 0x81; 0x34; 0xB1; 0xC8; 0xB9; 0x79; 0x89; 0x14;
   0x9B; 0x60; 0x9E; 0x0B; 0xE3; 0xBA; 0xB6; 0x3D; 0x47; 0x54; 0x83; 0x81; 0xDB; 0xC5; 0xB1; 0xFC;
   0x76; 0x4E; 0x3F; 0x4B; 0x53; 0xDD; 0x9D; 0xA1; 0x15; 0x8B; 0xFD; 0x3E; 0x2B; 0x9C; 0x8C; 0xF5;
   0x6E; 0xDF; 0x01; 0x95; 0x39; 0x34; 0x96; 0x27; 0xDB; 0x2F; 0xD5; 0x3D; 0x24; 0xB7; 0xC4; 0x86;
   0x65; 0x77; 0x2E; 0x43; 0x7D; 0x6C; 0x7F; 0x8C; 0xE4; 0x42; 0x73; 0x4A; 0xF7; 0xCC; 0xB7; 0xAE;
   0x83; 0x7C; 0x26; 0x4A; 0xE3; 0xA9; 0xBE; 0xB8; 0x7F; 0x8A; 0x2F; 0xE9; 0xB8; 0xB5; 0x29; 0x2E;
   0x5A; 0x02; 0x1F; 0xFF; 0x5E; 0x91; 0x47; 0x9E; 0x8C; 0xE7; 0xA2; 0x8C; 0x24; 0x42; 0xC6; 0xF3;
   0x15; 0x18; 0x0F; 0x93; 0x49; 0x9A; 0x23; 0x4D; 0xCF; 0x76; 0xE3; 0xFE; 0xD1; 0x35; 0xF9; 0xBB].

(** * The members *)

Record BN := {
  a : BigNum; b : BigNum; g : BigNum; k : BigNum; s : BigNum; u : BigNum;
  v : BigNum; x : BigNum; A : BigNum; B : BigNum; N : BigNum; pms : BigNum
}.

Definition set_a (n : BigNum) (bn : BN) : BN :=
  {| a := n; b := bn.(b); g := bn.(g); k := bn.(k); s := bn.(s); u := bn.(u); v := bn.(v); x := bn.(x); A := bn.(A); B := bn.(B); N := bn.(N); pms := bn.(pms) |}.
Definition set_b (n : BigNum) (bn : BN) : BN :=
  {| a := bn.(a); b := n; g := bn.(g); k := bn.(k); s := bn.(s); u := bn.(u); v := bn.(v); x := bn.(x); A := bn.(A); B := bn.(B); N := bn.(N); pms := bn.(pms) |}.
Definition set_g (n : BigNum) (bn : BN) : BN :=
  {| a := bn.(a); b := bn.(b); g := n; k := bn.(k); s := bn.(s); u := bn.(u); v := bn.(v); x := bn.(x); A := bn.(A); B := bn.(B); N := bn.(N); pms := bn.(pms) |}.
Definition set_k (n : BigNum) (bn : BN) : BN :=
  {| a := bn.(a); b := bn.(b); g := bn.(g); k := n; s := bn.(s); u := bn.(u); v := bn.(v); x := bn.(x); A := bn.(A); B := bn.(B); N := bn.(N); pms := bn.(pms) |}.
Definition set_s (n : BigNum) (bn : BN) : BN :=
  {| a := bn.(a); b := bn.(b); g := bn.(g); k := bn.(k); s := n; u := bn.(u); v := bn.(v); x := bn.(x); A := bn.(A); B := bn.(B); N := bn.(N); pms := bn.(pms) |}.
Definition set_u (n : BigNum) (bn : BN) : BN :=
  {| a := bn.(a); b := bn.(b); g := bn.(g); k := bn.(k); s := bn.(s); u := n; v := bn.(v); x := bn.(x); A := bn.(A); B := bn.(B); N := bn.(N); pms := bn.(pms) |}.
Definition set_v (n : BigNum) (bn : BN) : BN :=
  {| a := bn.(a); b := bn.(b); g := bn.(g); k := bn.(k); s := bn.(s); u := bn.(u); v := n; x := bn.(x); A := bn.(A); B := bn.(B); N := bn.(N); pms := bn.(pms) |}.
Definition set_x (n : BigNum) (bn : BN) : BN :=
  {| a := bn.(a); b := bn.(b); g := bn.(g); k := bn.(k); s := bn.(s); u := bn.(u); v := bn.(v); x := n; A := bn.(A); B := bn.(B); N := bn.(N); pms := bn.(pms) |}.
Definition set_A (n : BigNum) (bn : BN) : BN :=
  {| a := bn.(a); b := bn.(b); g := bn.(g); k := bn.(k); s := bn.(s); u := bn.(u); v := bn.(v); x := bn.(x); A := n; B := bn.(B); N := bn.(N); pms := bn.(pms) |}.
Definition set_B (n : BigNum) (bn : BN) : BN :=
  {| a := bn.(a); b := bn.(b); g := bn.(g); k := bn.(k); s := bn.(s); u := bn.(u); v := bn.(v); x := bn.(x); A := bn.(A); B := n; N := bn.(N); pms := bn.(pms) |}.
Definition set_N (n : BigNum) (bn : BN) : BN :=
  {| a := bn.(a); b := bn.(b); g := bn.(g); k := bn.(k); s := bn.(s); u := bn.(u); v := bn.(v); x := bn.(x); A := bn.(A); B := bn.(B); N := n; pms := bn.(pms) |}.
Definition set_pms (n : BigNum) (bn : BN) : BN :=
  {| a := bn.(a); b := bn.(b); g := bn.(g); k := bn.(k); s := bn.(s); u := bn.(u); v := bn.(v); x := bn.(x); A := bn.(A); B := bn.(B); N := bn.(N); pms := n |}.

Definition fresh : BN :=
  {| a := zero; b := zero; g := zero; k := zero; s := zero; u := zero; v := zero; x := zero; A := zero; B := zero;
     N := zero; pms := zero |}.

(** We only trust primes that we know. *)
Definition IsValidPrimeGroup (N g : BigNum) : bool :=
  let n := bit_len N in
  if n =? 1024 then eqb g (of_u32 2) && eqb N (set_bytes Prime1024)
  else if n =? 1536 then eqb g (of_u32 2) && eqb N (set_bytes Prime1536)
  else false.

(** * Parameters in text *)

Fixpoint split_colon (str : list Z) : list Z * option (list Z) :=
  match str with
  | [] => ([], None)
  | c :: str =>
      if c =? 58 then ([], Some str)
      else let '(f, rest) := split_colon str in (c :: f, rest)
  end.

(** A number that could not be read has no digits. *)
Definition bad_number : BigNum := {| digits := []; neg := false |}.

(** [setters] are the places of the numbers still to be read. *)
Fixpoint Parse_Parameters (setters : list (BigNum -> BN -> BN)) (str : list Z) (bn : BN) : QStatus * BN :=
  match setters with
  | [] => (ER_BAD_STRING_ENCODING, bn)
  | set :: setters =>
      let '(field, rest) := split_colon str in
      match set_hex field with
      | None => (ER_BAD_STRING_ENCODING, set bad_number bn)
      | Some n =>
          let bn := set n bn in
          match rest, setters with
          | None, [] => (ER_OK, bn)
          | None, _ => (ER_BAD_STRING_ENCODING, bn)
          | Some str, _ => Parse_Parameters setters str bn
          end
      end
  end.

Definition colon : list Z := [58].
Definition four_hex (n1 n2 n3 n4 : BigNum) : list Z :=
  get_hex n1 false ++ colon ++ get_hex n2 false ++ colon ++ get_hex n3 false ++ colon ++ get_hex n4 false.

(** * Random numbers *)

(** [rnd] are the digits the random generator filled in. *)
Definition gen_rand (len : nat) (rnd : list Z) : BigNum :=
  let length := Nat.div (3 + len) 4 in
  let excess := (length * 4 - len)%nat in
  let top := (length - 1)%nat in
  {| digits := <[top := Z.land (digit rnd top) (Z.shiftr 0xFFFFFFFF (8 * Z.of_nat excess))]> (take length rnd); neg := false |}.

Definition SALT_LEN : nat := 40.

(** * Hashes *)

Section hash.
Context (SHA1 : list Z -> list Z).

(** The bytes of a number in an array of [byte_len] bytes. *)
Definition number_bytes (n : BigNum) : res (list Z) :=
  let! r := get_bytes n (replicate (Z.to_nat (byte_len n)) 0) false in Ok r.1.

(** In an array of [lenN] bytes, with zeros in front. *)
Definition padded_bytes (n : BigNum) (lenN : Z) : res (list Z) :=
  let! r := get_bytes n (replicate (Z.to_nat lenN) 0) true in Ok r.1.

Definition hash_u (bn : BN) : res BigNum :=
  let lenN := byte_len bn.(N) in
  let! pA := padded_bytes bn.(A) lenN in
  let! pB := padded_bytes bn.(B) lenN in
  Ok (set_bytes (SHA1 (pA ++ pB))).

Definition hash_k (bn : BN) : res BigNum :=
  let lenN := byte_len bn.(N) in
  let! pN := number_bytes bn.(N) in
  let! pg := padded_bytes bn.(g) lenN in
  Ok (set_bytes (SHA1 (pN ++ pg))).

Definition hash_x (bn : BN) (id pwd : list Z) : res BigNum :=
  let digest := SHA1 (id ++ colon ++ pwd) in
  let! ps := number_bytes bn.(s) in
  Ok (set_bytes (SHA1 (ps ++ digest))).

(** * The client *)

Definition ClientInit (bn : BN) (rnd fromServer toServer : list Z) : res (QStatus * BN * list Z) :=
  let '(status, bn) := Parse_Parameters [set_N; set_g; set_s; set_B] fromServer bn in
  match status with
  | ER_OK =>
      if negb (IsValidPrimeGroup bn.(N) bn.(g)) then Ok (ER_CRYPTO_INSUFFICIENT_SECURITY, bn, toServer)
      else if eqb bn.(B) zero || geb bn.(B) bn.(N) then Ok (ER_CRYPTO_ILLEGAL_PARAMETERS, bn, toServer)
      else
        let bn := set_a (gen_rand 32 rnd) bn in
        let! A' := mod_exp bn.(g) bn.(a) bn.(N) in
        let bn := set_A A' bn in
        Ok (ER_OK, bn, get_hex bn.(A) false)
  | _ => Ok (status, bn, toServer)
  end.

(** [%] has the sign of the dividend. *)
Definition group_element (diff N : BigNum) : res BigNum :=
  let! tmp1 := modulo diff N in
  if ltb tmp1 zero then plus_assign tmp1 N else Ok tmp1.

Definition ClientFinish (bn : BN) (id pwd : list Z) : res BN :=
  let! u' := hash_u bn in
  let bn := set_u u' bn in
  let! k' := hash_k bn in
  let bn := set_k k' bn in
  let! x' := hash_x bn id pwd in
  let bn := set_x x' bn in
  let! gx := mod_exp bn.(g) bn.(x) bn.(N) in
  let! diff := minus bn.(B) (mul bn.(k) gx) in
  let! tmp1 := group_element diff bn.(N) in
  let! tmp2 := plus bn.(a) (mul bn.(u) bn.(x)) in
  let! pms' := mod_exp tmp1 tmp2 bn.(N) in
  Ok (set_pms pms' bn).

(** * The server *)

Definition ServerCommon (bn : BN) (rnd : list Z) : res (BN * list Z) :=
  let bn := set_b (gen_rand 32 rnd) bn in
  let! k' := hash_k bn in
  let bn := set_k k' bn in
  let! gb := mod_exp bn.(g) bn.(b) bn.(N) in
  let! sum := plus (mul bn.(k) bn.(v)) gb in
  let! B' := modulo sum bn.(N) in
  let bn := set_B B' bn in
  Ok (bn, four_hex bn.(N) bn.(g) bn.(s) bn.(B)).

(** From the verifier kept by the server. *)
Definition ServerInit_verifier (bn : BN) (rnd verifier toClient : list Z) : res (QStatus * BN * list Z) :=
  let '(status, bn) := Parse_Parameters [set_N; set_g; set_s; set_v] verifier bn in
  match status with
  | ER_OK => let! r := ServerCommon bn rnd in Ok (ER_OK, r.1, r.2)
  | _ => Ok (status, bn, toClient)
  end.

(** From the password; [salt] and [rnd] are random. *)
Definition ServerInit (bn : BN) (salt rnd id pwd : list Z) : res (BN * list Z) :=
  let bn := set_N (set_bytes Prime1024) bn in
  let bn := set_g (of_u32 2) bn in
  let bn := set_s (gen_rand SALT_LEN salt) bn in
  let! x' := hash_x bn id pwd in
  let bn := set_x x' bn in
  let! v' := mod_exp bn.(g) bn.(x) bn.(N) in
  let bn := set_v v' bn in
  ServerCommon bn rnd.

Definition ServerGetVerifier (bn : BN) : list Z := four_hex bn.(N) bn.(g) bn.(s) bn.(v).

(** The result of reading A is not checked: comparing a number without digits
    reads outside of them. *)
Definition ServerFinish (bn : BN) (fromClient : list Z) : res (QStatus * BN) :=
  match set_hex fromClient with
  | None => Undef
  | Some A' =>
      let bn := set_A A' bn in
      if eqb bn.(A) zero || geb bn.(A) bn.(N) then Ok (ER_CRYPTO_ILLEGAL_PARAMETERS, bn)
      else
        let! u' := hash_u bn in
        let bn := set_u u' bn in
        let! vu := mod_exp bn.(v) bn.(u) bn.(N) in
        let! tmp := modulo (mul bn.(A) vu) bn.(N) in
        let! pms' := mod_exp tmp bn.(b) bn.(N) in
        Ok (ER_OK, set_pms pms' bn)
  end.

(** Both sides in turn, as TestVector runs them: first the public values, then
    the secrets. *)
Definition finish (server client : BN) (toServer id pwd : list Z) : res (QStatus * BN * BN) :=
  let! r := ServerFinish server toServer in
  let '(status, server) := r in
  match status with
  | ER_OK => let! client := ClientFinish client id pwd in Ok (ER_OK, server, client)
  | _ => Ok (status, server, client)
  end.

Definition exchange (salt rb ra id pwd : list Z) : res (QStatus * BN * BN) :=
  let! r := ServerInit fresh salt rb id pwd in
  let '(server, toClient) := r in
  let! r := ClientInit fresh ra toClient [] in
  let '(status, client, toServer) := r in
  match status with
  | ER_OK => finish server client toServer id pwd
  | _ => Ok (status, server, client)
  end.
End hash.

Definition GetPremasterSecret (bn : BN) : res (list Z) := number_bytes bn.(pms).

End SRP.
