(* ===== verification/CryptoSRPProofs.v ===== *)
(** Theorems on CryptoSRP.cc: the two sides of an honest exchange compute the
    same premaster secret; the verifier is kept and read again without loss; and
    a client that sends a negative multiple of the modulus gets the secret zero
    whatever the password. *)
From S2P Require Import Prelude Types BigNum BigNumProofs BigNumMul BigNumDiv BigNumMonty BigNumInv BigNumText CryptoSRP.
Import SRP.

(** * Text *)

Lemma hex_no_colon x : ok (digits x) -> ~ In 58 (get_hex x false).
Proof.
  intros Hx Hin. unfold get_hex in Hin. rewrite text_nibbles in Hin. cbn [skip_zeros] in Hin. change (48 =? 48) with true in Hin. cbv iota in Hin.
  destruct (all_nibbles_spec _ Hx) as [N1 _]. destruct (skip_zeros_nibbles false _ N1) as (ws & E & Hws & _ & _). rewrite E in Hin.
  assert (~ In 58 (map (hex_char false) ws)) as Hno.
  { rewrite in_map_iff. intros (w & Ew & Hw). rewrite List.Forall_forall in Hws. specialize (Hws w Hw).
    by destruct (hex_char_plain false w Hws) as (_ & ? & _). }
  destruct (map (hex_char false) ws) as [|c cs]; [simpl in Hin; lia|]. destruct (neg x); [|done].
  destruct Hin as [?|?]; [lia|done].
Qed.

Lemma split_colon_app f rest : ~ In 58 f -> split_colon (f ++ 58 :: rest) = (f, Some rest).
Proof.
  induction f as [|c f IH]; intros H; [done|]. cbn [app split_colon]. destruct (Z.eqb_spec c 58) as [->|]; [simpl in H; tauto|].
  rewrite IH; [done|]. simpl in H. tauto.
Qed.

Lemma split_colon_last f : ~ In 58 f -> split_colon f = (f, None).
Proof.
  induction f as [|c f IH]; intros H; [done|]. cbn [split_colon]. destruct (Z.eqb_spec c 58) as [->|]; [simpl in H; tauto|].
  rewrite IH; [done|]. simpl in H. tauto.
Qed.

Definition readable (x : BigNum) : Prop := ok (digits x) /\ digits x <> [].

(** Four numbers written are read in the same order. *)
Lemma Parse_four s1 s2 s3 s4 n1 n2 n3 n4 bn : readable n1 -> readable n2 -> readable n3 -> readable n4 ->
  Parse_Parameters [s1; s2; s3; s4] (four_hex n1 n2 n3 n4) bn =
  (ER_OK, s4 (strip_lz n4) (s3 (strip_lz n3) (s2 (strip_lz n2) (s1 (strip_lz n1) bn)))).
Proof.
  intros [O1 E1] [O2 E2] [O3 E3] [O4 E4]. unfold four_hex, colon. cbn [app Parse_Parameters].
  rewrite split_colon_app by (by apply hex_no_colon). rewrite hex_strip by done.
  rewrite split_colon_app by (by apply hex_no_colon). rewrite hex_strip by done.
  rewrite split_colon_app by (by apply hex_no_colon). rewrite hex_strip by done.
  rewrite split_colon_last by (by apply hex_no_colon). rewrite hex_strip by done. done.
Qed.

(** * Bytes hashed *)

Lemma bytes_of_strip x : readable x -> exists j, all_bytes (digits x) = replicate j 0 ++ all_bytes (digits (strip_lz x)).
Proof.
  intros [Hx Hne]. destruct (strip_digits x Hne) as (Hv & _ & _ & Hl).
  assert (exists n, digits (strip_lz x) = take n (digits x)) as [n En] by (eexists; reflexivity). rewrite En in *.
  assert (Forall (fun d => d = 0) (drop n (digits x))) as Hz.
  { pose proof (val_take_drop n (digits x)) as E. rewrite Hv in E. pose proof (val_nonneg _ (ok_drop n _ Hx)).
    pose proof (base_pos (length (take n (digits x)))). assert (val (drop n (digits x)) = 0) as E0 by nia.
    apply List.Forall_forall. intros d Hd. apply In_nth with (d := 0) in Hd as (i & _ & <-).
    exact (val_zero_digit _ (ok_drop n _ Hx) E0 i). }
  assert (forall ds, Forall (fun d => d = 0) ds -> exists j, all_bytes ds = replicate j 0) as Hj.
  { intros ds. unfold all_bytes. induction 1 as [|d ds -> _ (j & IH)]; [by exists O|]. cbn [rev]. rewrite map_app, concat_app, IH.
    exists (j + 4)%nat. rewrite replicate_add. done. }
  destruct (Hj _ Hz) as [j Ej]. exists j. rewrite <- Ej. rewrite <- (take_drop n (digits x)) at 1. unfold all_bytes.
  by rewrite rev_app_distr, map_app, concat_app.
Qed.

Lemma length_all_bytes ds : length (all_bytes ds) = (4 * length ds)%nat.
Proof.
  unfold all_bytes. induction ds as [|d ds IH]; [done|]. cbn [rev]. rewrite map_app, concat_app, length_app, IH. simpl. lia.
Qed.

(** Numbers are hashed without zeros in front; zero overruns the buffer. *)
Lemma number_bytes_sig x k c cs : readable x -> zlen (digits x) < 2 ^ 32 ->
  all_bytes (digits x) = replicate k 0 ++ c :: cs -> c <> 0 -> number_bytes x = Ok (c :: cs).
Proof.
  intros [Hx Hne] Hlen E Hc. destruct (all_bytes_spec _ Hx) as [B1 B2]. rewrite E in B1. apply Forall_app in B1 as [_ B1].
  pose proof (length_all_bytes (digits x)) as Hl. rewrite E, length_app, length_replicate in Hl.
  assert (val (digits x) = be (c :: cs)) as Hv by (rewrite <- B2, E, be_app, be_zeros; lia).
  pose proof (byte_len_spec x c cs Hx Hc B1 Hv) as EL. unfold number_bytes, get_bytes. cbn [andb]. rewrite E, EL, Nat2Z.id, length_replicate.
  rewrite get_loop_spec by (rewrite ?length_replicate; done || lia). cbn [rbind fst].
  rewrite drop_ge by (rewrite length_replicate; lia). simpl. by rewrite app_nil_r.
Qed.

Lemma number_bytes_zero x : readable x -> val (digits x) = 0 -> number_bytes x = Undef.
Proof.
  intros [Hx Hne] Hv. unfold number_bytes, get_bytes. cbn [andb]. unfold byte_len. rewrite bit_len_spec, Hv by done.
  change (Z.to_nat ((7 + (if 0 =? 0 then 0 else Z.log2 0 + 1)) / 8)) with O. pose proof (length_all_bytes (digits x)) as Hl.
  destruct (all_bytes (digits x)) as [|c cs]; [|done]. destruct (digits x); [done|simpl in Hl; lia].
Qed.

(** The bytes of a number that are hashed do not depend on leading zeros. *)
Lemma number_bytes_strip x : readable x -> zlen (digits x) < 2 ^ 32 -> number_bytes (strip_lz x) = number_bytes x.
Proof.
  intros Hr Hlen. pose proof Hr as [Hx Hne]. destruct (strip_digits x Hne) as (Hv & Hne' & _ & Hl).
  assert (readable (strip_lz x)) as Hs by (split; [by apply strip_ok|done]).
  destruct (Z.eq_dec (val (digits x)) 0) as [E0|Hnz]; [by rewrite !number_bytes_zero by (done || lia)|].
  destruct (all_bytes_spec _ (strip_ok x Hx)) as [B1 B2].
  destruct (significant_bytes _ B1 ltac:(lia)) as (k & c & cs & E & Hc & _ & _).
  destruct (bytes_of_strip x Hr) as [j Ej].
  rewrite (number_bytes_sig (strip_lz x) k c cs) by (done || lia). symmetry.
  apply (number_bytes_sig x (j + k)%nat c cs); [done|done| |done]. by rewrite Ej, E, replicate_add, app_assoc.
Qed.

(** * Arithmetic modulo N *)

Lemma cong_pow M p q e : 0 <= e -> cong M p q -> cong M (p ^ e) (q ^ e).
Proof.
  intros He H. revert e He. apply natlike_ind; [reflexivity|]. intros e He IH. rewrite !Z.pow_succ_r by done. by apply cong_mul.
Qed.

(** Both sides of the protocol raise the generator to the same power. *)
Lemma srp_algebra M g a b x u k A B v tmp1 tmp :
  0 <= a -> 0 <= b -> 0 <= x -> 0 <= u ->
  cong M v (g ^ x) -> cong M A (g ^ a) -> cong M B (k * v + g ^ b) ->
  cong M tmp1 (B - k * g ^ x) -> cong M tmp (A * v ^ u) ->
  cong M (tmp1 ^ (a + u * x)) (tmp ^ b).
Proof.
  intros Ha Hb Hx Hu Hv HA HB H1 H2.
  assert (cong M tmp1 (g ^ b)) as T1.
  { rewrite H1, HB, Hv. exists 0. lia. }
  assert (cong M tmp (g ^ (a + u * x))) as T2.
  { rewrite H2, HA, (cong_pow M v (g ^ x) u Hu Hv), <- Z.pow_mul_r, <- Z.pow_add_r, (Z.mul_comm x u) by lia. reflexivity. }
  assert (0 <= a + u * x) by nia.
  rewrite (cong_pow M tmp1 _ _ ltac:(done) T1), (cong_pow M tmp _ _ Hb T2), <- !Z.pow_mul_r by lia.
  rewrite Z.mul_comm. reflexivity.
Qed.

(** Reduction of a number of either sign. *)
Lemma modulo_signed x m : wf x -> wf m -> neg m = false -> 0 < val (digits m) ->
  (modulo x m = Undef /\ hard m) \/
  exists r, modulo x m = Ok r /\ wf r /\ cong (val (digits m)) (zval r) (zval x) /\
    - val (digits m) < zval r < val (digits m).
Proof.
  intros Hx Hm Nm Hpos. destruct (wf_neg m Hm) as [_ Zm]. destruct (Zm Nm) as [_ Vm]. unfold modulo.
  destruct (div_spec x m Hx Hm ltac:(lia)) as [[E Hl]|(q & r & -> & Hqr)]; [left; rewrite E; split; [done|]; split; [done|by exists x]|right]. exists r. split; [done|].
  destruct (Z.eqb_spec (val (digits x)) (val (digits m))) as [E|].
  - destruct Hqr as [_ ->]. change (zval zero) with 0. split_and!; [apply zero_wf| |lia|lia]. unfold zval. rewrite E.
    destruct (neg x); [exists 1|exists (-1)]; lia.
  - destruct Hqr as (_ & Hr & _ & Zr). rewrite Vm in Zr. pose proof (Z.quot_rem' (zval x) (val (digits m))) as Hd. rewrite <- Zr in Hd.
    pose proof (Z.rem_bound_abs (zval x) (val (digits m)) ltac:(lia)) as Hb. rewrite <- Zr in Hb.
    split_and!; [done| |lia|lia]. exists (- (zval x ÷ val (digits m))). lia.
Qed.

(** * The steps of the two sides *)

(** A modulus of the protocol. *)
Record modulus (m : BigNum) : Prop := {
  mod_wf : wf m;
  mod_neg : neg m = false;
  mod_pos : 1 < val (digits m);
  mod_size : byte_len m < 2 ^ 33
}.

(** A number of the group: not zero and below the modulus. *)
Record element (m n : BigNum) : Prop := {
  el_wf : wf n;
  el_neg : neg n = false;
  el_range : 0 < val (digits n) < val (digits m)
}.

(** An exponent: digits of any kind. *)
Record exponent (e : BigNum) : Prop := { ex_readable : readable e; ex_neg : neg e = false }.

Lemma byte_len_mono x y : ok (digits x) -> ok (digits y) -> val (digits x) <= val (digits y) -> byte_len x <= byte_len y.
Proof.
  intros Hx Hy Hle. pose proof (val_nonneg _ Hx). unfold byte_len. rewrite !bit_len_spec by done. apply Z.div_le_mono; [lia|].
  destruct (Z.eqb_spec (val (digits x)) 0), (Z.eqb_spec (val (digits y)) 0); try lia.
  - pose proof (Z.log2_nonneg (val (digits y))). lia.
  - pose proof (Z.log2_le_mono (val (digits x)) (val (digits y)) Hle). lia.
Qed.

Lemma byte_len_digits x : ok (digits x) -> byte_len x <= 4 * zlen (digits x).
Proof.
  intros Hx. pose proof (val_bound _ Hx) as Hb. unfold byte_len. rewrite bit_len_spec by done.
  assert ((if val (digits x) =? 0 then 0 else Z.log2 (val (digits x)) + 1) <= 32 * zlen (digits x)) as Hl.
  { destruct (Z.eqb_spec (val (digits x)) 0); [lia|].
    assert (Z.log2 (val (digits x)) < 32 * zlen (digits x)); [apply Z.log2_lt_pow2; lia|lia]. }
  apply Z.lt_succ_r, Z.div_lt_upper_bound; lia.
Qed.

Lemma padded_ok m n : modulus m -> ok (digits n) -> 0 < val (digits n) <= val (digits m) ->
  exists out, padded_bytes n (byte_len m) = Ok out /\ Forall byte out.
Proof.
  intros [Hm _ _ Hsz] Hn Hr. unfold padded_bytes. set (buf := replicate (Z.to_nat (byte_len m)) 0).
  pose proof (byte_len_mono n m Hn (wf_ok _ Hm) ltac:(lia)) as Hle.
  assert (0 <= byte_len n) by (unfold byte_len; pose proof (bit_len_nonneg n Hn); apply Z.div_pos; lia).
  assert (zlen buf = byte_len m) as El by (unfold buf; rewrite length_replicate; lia).
  destruct (get_bytes_spec n buf Hn ltac:(lia) ltac:(lia) ltac:(lia)) as (out & -> & _ & Ho & _). by exists out.
Qed.

Lemma number_bytes_ok x : readable x -> zlen (digits x) < 2 ^ 32 -> 0 < val (digits x) ->
  exists out, number_bytes x = Ok out /\ Forall byte out.
Proof.
  intros Hr Hlen Hv. pose proof Hr as [Hx _]. destruct (all_bytes_spec _ Hx) as [B1 B2].
  destruct (significant_bytes _ B1 ltac:(lia)) as (k & c & cs & E & Hc & _ & Hcs). exists (c :: cs).
  split; [by apply (number_bytes_sig x k c cs)|done].
Qed.

Section steps.
Context (SHA1 : list Z -> list Z) (HSHA : forall l, Forall byte (SHA1 l) /\ length (SHA1 l) = 20%nat).

Lemma digest_exponent l : exponent (set_bytes (SHA1 l)).
Proof.
  destruct (HSHA l) as [Hb Hl]. destruct (set_bytes_spec _ Hb) as (H1 & H2 & _). split; [|done]. split; [done|].
  unfold set_bytes. cbn [digits]. rewrite byte_digits_unit.
  destruct (unit_digits_spec 8 ltac:(lia) 4 (length (SHA1 l)) (rev (SHA1 l))) as (_ & _ & H3);
    [by apply Forall_rev|done|by rewrite length_rev|].
  destruct H3 as [H3 _]; [intros E%(f_equal length); by rewrite length_rev, Hl in E|].
  destruct (unit_digits _ _ _ _); [simpl in H3; lia|done].
Qed.

Lemma hash_u_ok bn : modulus bn.(N) -> element bn.(N) bn.(A) -> element bn.(N) bn.(B) ->
  exists n, hash_u SHA1 bn = Ok n /\ exponent n.
Proof.
  intros Hm [A1 _ A2] [B1 _ B2]. unfold hash_u.
  destruct (padded_ok _ _ Hm (wf_ok _ A1) ltac:(lia)) as (pa & -> & _).
  destruct (padded_ok _ _ Hm (wf_ok _ B1) ltac:(lia)) as (pb & -> & _). eexists. split; [reflexivity|]. apply digest_exponent.
Qed.

Lemma modulus_length m : modulus m -> zlen (digits m) < 2 ^ 32.
Proof.
  intros [[W1 W2 W3 _] _ Hp Hs]. destruct (haslz_val m W1 W2 W3) as [_ Hl].
  destruct (Nat.le_gt_cases (length (digits m)) 1) as [|H1]; [lia|]. specialize (Hl H1).
  unfold byte_len in Hs. rewrite bit_len_spec in Hs by done. destruct (Z.eqb_spec (val (digits m)) 0); [lia|].
  assert (32 * Z.of_nat (length (digits m) - 1) <= Z.log2 (val (digits m))) as Hg by (apply Z.log2_le_pow2; lia).
  pose proof (Z.div_mod (7 + (Z.log2 (val (digits m)) + 1)) 8 ltac:(lia)).
  pose proof (Z.mod_pos_bound (7 + (Z.log2 (val (digits m)) + 1)) 8 ltac:(lia)). lia.
Qed.

Lemma hash_k_ok bn : modulus bn.(N) -> element bn.(N) bn.(g) -> exists n, hash_k SHA1 bn = Ok n /\ exponent n.
Proof.
  intros Hm [G1 _ G2]. unfold hash_k. pose proof Hm as [[M1 M2 _ _] _ Mp _].
  destruct (number_bytes_ok bn.(N) (conj M1 M2) (modulus_length _ Hm) ltac:(lia)) as (pn & -> & _).
  destruct (padded_ok _ _ Hm (wf_ok _ G1) ltac:(lia)) as (pg & -> & _). eexists. split; [reflexivity|]. apply digest_exponent.
Qed.

Lemma power_ok m n e : modulus m -> wf n -> neg n = false -> exponent e ->
  (mod_exp n e m = Undef /\ hard m) \/
  exists r, mod_exp n e m = Ok r /\ wf r /\ neg r = false /\ 0 <= val (digits r) < val (digits m) /\
    cong (val (digits m)) (val (digits r)) (val (digits n) ^ val (digits e)).
Proof.
  intros [Hm Nm Hp _] Hn Nn [[E1 _] _]. destruct (wf_neg m Hm) as [_ Zm]. destruct (Zm Nm) as [_ Vm].
  destruct (wf_neg n Hn) as [_ Zn]. destruct (Zn Nn) as [_ Vn].
  destruct (mod_exp_spec n e m Hn Nn E1 Hm ltac:(lia)) as [?|(r & -> & Hr & Zr)]; [by left|right]. exists r.
  rewrite Vn, Vm in Zr. pose proof (Z.mod_pos_bound (val (digits n) ^ val (digits e)) (val (digits m)) ltac:(lia)) as Hb.
  destruct (wf_neg r Hr) as [Rn Rp]. assert (neg r = false) as Nr by (destruct (neg r); [specialize (Rn eq_refl); lia|done]).
  destruct (Rp Nr) as [_ Vr]. rewrite <- Vr, Zr. split_and!; [done|done|done|lia|lia|]. apply mod_cong.
Qed.

(** A product of numbers that are not negative, leading zeros allowed. *)
Lemma product_ok p q : exponent p -> exponent q ->
  wf (mul p q) /\ neg (mul p q) = false /\ val (digits (mul p q)) = val (digits p) * val (digits q).
Proof.
  intros [[P1 P2] Np] [[Q1 Q2] Nq]. destruct (mul_ok p q P1 P2 Q1 Q2) as [Hw Hz]. unfold zval in Hz at 2 3. rewrite Np, Nq in Hz.
  pose proof (Z.mul_nonneg_nonneg _ _ (val_nonneg _ P1) (val_nonneg _ Q1)). destruct (wf_neg _ Hw) as [Hn Hp].
  assert (neg (mul p q) = false) as Nm by (destruct (neg (mul p q)); [specialize (Hn eq_refl); lia|done]).
  destruct (Hp Nm) as [_ Hv]. split_and!; [done|done|lia].
Qed.

Lemma sum_ok p q : exponent p -> exponent q ->
  exists r, plus p q = Ok r /\ exponent r /\ val (digits r) = val (digits p) + val (digits q).
Proof.
  intros [[P1 P2] Np] [[Q1 Q2] Nq]. unfold plus. cbn [plus_]. rewrite Nq, Np. eexists. split; [reflexivity|].
  destruct (add_digits_spec _ _ P1 Q1) as (H1 & H2 & H3). split; [|done]. split; [|done]. split; [done|]. cbn [digits].
  intros E. rewrite E in H3. destruct (digits p); [done|simpl in H3; lia].
Qed.

Lemma wf_exponent n : wf n -> neg n = false -> exponent n.
Proof. intros [] ?. by split. Qed.

(** The check of a public value lets the numbers of the group pass. *)
Lemma element_passes m n : modulus m -> element m n -> eqb n zero || geb n m = false.
Proof.
  intros [Hm Nm _ _] [Hn Nn Hr]. rewrite eqb_zero by done. rewrite geb_spec by (done || apply Hn || apply Hm).
  apply orb_false_iff. split; [apply Z.eqb_neq; lia|apply Z.leb_gt; lia].
Qed.

(** What the server computes at the end. *)
Lemma ServerFinish_ok server A' :
  modulus server.(N) -> wf server.(v) -> neg server.(v) = false -> exponent server.(b) ->
  element server.(N) A' -> element server.(N) server.(B) ->
  (ServerFinish SHA1 server (get_hex A' false) = Undef /\ hard server.(N)) \/
  exists u' server' tmp, hash_u SHA1 (set_A A' server) = Ok u' /\ exponent u' /\
    ServerFinish SHA1 server (get_hex A' false) = Ok (ER_OK, server') /\
    cong (val (digits server.(N))) tmp (val (digits A') * val (digits server.(v)) ^ val (digits u')) /\
    wf server'.(pms) /\ neg server'.(pms) = false /\ 0 <= val (digits server'.(pms)) < val (digits server.(N)) /\
    cong (val (digits server.(N))) (val (digits server'.(pms))) (tmp ^ val (digits server.(b))).
Proof.
  intros Hm Wv Nv Hb HA HB. pose proof Hm as [Wm Nm Mp _]. pose proof HA as [WA NA _]. unfold ServerFinish. rewrite hex_same by done.
  cbn [set_A A N]. rewrite element_passes by done.
  destruct (hash_u_ok (set_A A' server)) as (u' & Eu & Hu); [done..|]. rewrite Eu. cbn [rbind set_A set_u N v u A b].
  destruct (power_ok _ _ _ Hm Wv Nv Hu) as [[-> ?]|(vu & -> & Wvu & Nvu & _ & Cvu)]; [by left|]. cbn [rbind].
  destruct (mul_nonneg A' vu WA Wvu NA Nvu) as (Wp & Np & Vp).
  destruct (modulo_spec (mul A' vu) server.(N) Wp Wm Np Nm ltac:(lia)) as [[-> ?]|(tmp & -> & Wt & Nt & Vt)]; [by left|]. cbn [rbind].
  destruct (power_ok _ _ _ Hm Wt Nt Hb) as [[-> ?]|(p & -> & Wpm & Npm & Rp & Cp)]; [by left|right]. cbn [rbind].
  exists u', (set_pms p (set_u u' (set_A A' server))), (val (digits tmp)). cbn [set_pms pms]. split_and!; [done..| |done|done|lia|lia|done].
  rewrite Vt, mod_cong, Vp, Cvu. reflexivity.
Qed.

(** A difference of either sign, brought into the range of the group. *)
Lemma reduce_ok m d : modulus m -> wf d ->
  (group_element d m = Undef /\ hard m) \/
  exists r, group_element d m = Ok r /\ wf r /\ neg r = false /\ cong (val (digits m)) (val (digits r)) (zval d).
Proof.
  intros [Hm Nm Hp _] Hd. destruct (wf_neg m Hm) as [_ Zm]. destruct (Zm Nm) as [_ Vm].
  destruct (modulo_signed d m Hd Hm Nm ltac:(lia)) as [[E ?]|(r & E & Hr & Hc & Hb)]; unfold group_element; rewrite E; [by left|right]. cbn [rbind].
  destruct (wf_neg r Hr) as [Rn Rp].
  assert (ltb r zero = (zval r <? 0)) as ->.
  { unfold ltb. rewrite compare_wf by (done || apply zero_wf). rewrite andb_false_r. change (zval zero) with 0. rewrite Z.sub_0_r.
    destruct (Z.sgn_spec (zval r)) as [[? ->]|[[<- ->]|[? ->]]]; [|done|]; symmetry; [apply Z.ltb_ge|apply Z.ltb_lt]; lia. }
  destruct (Z.ltb_spec (zval r) 0) as [Hlt|Hge].
  - unfold plus_assign. rewrite Nm, andb_false_r. destruct (plus_spec r m Hr Hm) as (q & -> & Hq & Zq). exists q.
    destruct (wf_neg q Hq) as [Qn Qp]. assert (neg q = false) as Nq by (destruct (neg q); [specialize (Qn eq_refl); lia|done]).
    destruct (Qp Nq) as [_ <-]. split_and!; [done..|]. rewrite Zq, Vm, Hc. exists 1. lia.
  - exists r. assert (neg r = false) as Nr by (destruct (neg r); [specialize (Rn eq_refl); lia|done]).
    destruct (Rp Nr) as [_ <-]. by split_and!.
Qed.

(** What the client computes at the end. *)
Lemma ClientFinish_ok client id pwd u' k' x' :
  modulus client.(N) -> element client.(N) client.(g) -> element client.(N) client.(B) -> exponent client.(a) ->
  hash_u SHA1 client = Ok u' -> hash_k SHA1 client = Ok k' -> hash_x SHA1 client id pwd = Ok x' ->
  exponent u' -> exponent k' -> exponent x' ->
  let M := val (digits client.(N)) in
  (ClientFinish SHA1 client id pwd = Undef /\ hard client.(N)) \/
  exists client' tmp, ClientFinish SHA1 client id pwd = Ok client' /\
    cong M tmp (val (digits client.(B)) - val (digits k') * val (digits client.(g)) ^ val (digits x')) /\
    wf client'.(pms) /\ neg client'.(pms) = false /\ 0 <= val (digits client'.(pms)) < M /\
    cong M (val (digits client'.(pms))) (tmp ^ (val (digits client.(a)) + val (digits u') * val (digits x'))).
Proof.
  intros Hm HG HB Ha Eu Ek Ex Hu Hk Hx M. pose proof HG as [WG NG _]. pose proof HB as [WB NB _]. unfold ClientFinish.
  rewrite Eu. cbn [rbind]. change (hash_k SHA1 (set_u u' client)) with (hash_k SHA1 client). rewrite Ek. cbn [rbind].
  change (hash_x SHA1 (set_k k' (set_u u' client)) id pwd) with (hash_x SHA1 client id pwd). rewrite Ex.
  cbn [rbind set_x set_k set_u N g x u k a B].
  destruct (power_ok _ _ _ Hm WG NG Hx) as [[-> ?]|(gx & -> & Wgx & Ngx & _ & Cgx)]; [by left|]. cbn [rbind].
  destruct (product_ok k' gx Hk (wf_exponent _ Wgx Ngx)) as (Wp & Np & Vp).
  destruct (minus_spec client.(B) (mul k' gx) WB Wp) as (d & -> & Wd & Zd). cbn [rbind].
  destruct (wf_neg _ WB) as [_ ZB], (wf_neg _ Wp) as [_ Zp]. destruct (ZB NB) as [_ VB], (Zp Np) as [_ Vz]. rewrite VB, Vz, Vp in Zd.
  destruct (reduce_ok client.(N) d Hm Wd) as [[-> ?]|(r & -> & Wr & Nr & Cr)]; [by left|]. cbn [rbind].
  destruct (product_ok u' x' Hu Hx) as (Wq & Nq & Vq).
  destruct (sum_ok client.(a) (mul u' x') Ha (wf_exponent _ Wq Nq)) as (e & -> & He & Ve). cbn [rbind].
  destruct (power_ok _ _ _ Hm Wr Nr He) as [[-> ?]|(p & -> & Wpm & Npm & Rp & Cp)]; [by left|right]. cbn [rbind].
  eexists _, (val (digits r)). split; [reflexivity|]. cbn [set_pms pms]. split_and!; [|done|done|lia|lia|].
  - rewrite Cr, Zd, Cgx. reflexivity.
  - by rewrite Cp, Ve, Vq.
Qed.

(** * The two sides together *)

(** Server and client after the public values have been computed. *)
Record session (server client : BN) (id pwd : list Z) : Prop := {
  ss_mod : modulus server.(N);
  ss_g : element server.(N) server.(g);
  ss_salt : readable server.(s) /\ zlen (digits server.(s)) < 2 ^ 32 /\ 0 < val (digits server.(s));
  ss_a : exponent client.(a);
  ss_b : exponent server.(b);
  ss_v : wf server.(v) /\ neg server.(v) = false /\
    exists x', hash_x SHA1 server id pwd = Ok x' /\
      cong (val (digits server.(N))) (val (digits server.(v))) (val (digits server.(g)) ^ val (digits x'));
  ss_B : element server.(N) server.(B) /\
    exists k', hash_k SHA1 server = Ok k' /\
      cong (val (digits server.(N))) (val (digits server.(B)))
        (val (digits k') * val (digits server.(v)) + val (digits server.(g)) ^ val (digits server.(b)));
  ss_A : element server.(N) client.(A) /\
    cong (val (digits server.(N))) (val (digits client.(A))) (val (digits server.(g)) ^ val (digits client.(a)));
  ss_same : client.(N) = server.(N) /\ client.(g) = server.(g) /\ client.(B) = server.(B) /\ client.(s) = strip_lz server.(s)
}.

Lemma exponent_nonneg e : exponent e -> 0 <= val (digits e).
Proof. intros [[H _] _]. by apply val_nonneg. Qed.

Lemma hash_x_exponent bn id pwd x' : hash_x SHA1 bn id pwd = Ok x' -> exponent x'.
Proof. unfold hash_x. destruct (number_bytes bn.(s)); simpl; intros [= <-]. apply digest_exponent. Qed.

Lemma hash_k_exponent bn k' : hash_k SHA1 bn = Ok k' -> exponent k'.
Proof.
  unfold hash_k. destruct (number_bytes bn.(N)); simpl; [|done..]. destruct (padded_bytes _ _); simpl; intros [= <-]. apply digest_exponent.
Qed.

Lemma session_agrees server client id pwd : session server client id pwd ->
  (finish SHA1 server client (get_hex client.(A) false) id pwd = Undef /\ hard server.(N)) \/
  exists server' client', finish SHA1 server client (get_hex client.(A) false) id pwd = Ok (ER_OK, server', client') /\
    server'.(pms) = client'.(pms).
Proof.
  unfold finish. intros [Hm HG (Rs & Ls & Ps) Ha Hb (Wv & Nv & x' & Ex & Cv) [HB (k' & Ek & CB)] [HA CA] (EN & Eg & EB & Es)].
  destruct (ServerFinish_ok server client.(A) Hm Wv Nv Hb HA HB) as [[-> ?]|(u' & server' & t2 & Eu & Hu & -> & C2 & W2 & N2 & R2 & P2)]; [by left|].
  cbn [rbind]. pose proof (hash_x_exponent _ _ _ _ Ex) as Hx. pose proof (hash_k_exponent _ _ Ek) as Hk.
  assert (hash_u SHA1 client = Ok u') as Eu' by (rewrite <- Eu; unfold hash_u; cbn [set_A A B N]; by rewrite EN, EB).
  assert (hash_k SHA1 client = Ok k') as Ek' by (rewrite <- Ek; unfold hash_k; by rewrite EN, Eg).
  assert (hash_x SHA1 client id pwd = Ok x') as Ex' by (rewrite <- Ex; unfold hash_x; by rewrite Es, number_bytes_strip).
  destruct (ClientFinish_ok client id pwd u' k' x') as [[-> ?]|(client' & t1 & -> & C1 & W1 & N1 & R1 & P1)]; rewrite ?EN, ?Eg, ?EB; try done;
    [by left; rewrite <- EN|right]. rewrite EN, ?Eg, ?EB in *.
  exists server', client'. split; [done|]. apply wf_inj; [done|done|].
  destruct (wf_neg _ W1) as [_ Z1], (wf_neg _ W2) as [_ Z2]. destruct (Z1 N1) as [_ ->], (Z2 N2) as [_ ->].
  rewrite <- (Z.mod_small _ _ R1), <- (Z.mod_small _ _ R2). apply cong_mod. rewrite P1, P2. symmetry.
  eapply srp_algebra; [by apply exponent_nonneg..|exact Cv|exact CA|exact CB|exact C1|exact C2].
Qed.

(** * The whole exchange *)

Lemma gen_rand_exponent k rnd : (0 < k)%nat -> ok rnd -> (k <= length rnd)%nat ->
  exponent (gen_rand (4 * k) rnd) /\ length (digits (gen_rand (4 * k) rnd)) = k.
Proof.
  intros Hk Hr Hl. unfold gen_rand.
  assert (Nat.div (3 + 4 * k) 4 = k) as -> by (rewrite (Nat.mul_comm 4 k), Nat.div_add by done; done).
  replace (k * 4 - 4 * k)%nat with O by lia. cbn [digits neg].
  assert (is_digit (Z.land (digit rnd (k - 1)) (Z.shiftr 4294967295 (8 * Z.of_nat 0)))) as Hd.
  { change (Z.shiftr 4294967295 (8 * Z.of_nat 0)) with (Z.ones 32). rewrite Z.land_ones by lia. apply Z.mod_pos_bound. lia. }
  split.
  - split; [|done]. split; cbn [digits].
    + apply Forall_insert; [by apply ok_take|done].
    + intros E%(f_equal length). rewrite length_insert, length_take in E. simpl in E. lia.
  - rewrite length_insert, length_take. lia.
Qed.

(** A power of two is not a multiple of an odd modulus. *)
Lemma power_of_two_not_zero M e r : 1 < M -> Z.odd M = true -> 0 <= e -> cong M r (2 ^ e) -> 0 <= r < M -> 0 < r.
Proof.
  intros HM Ho He Hc Hr. destruct (Z.eq_dec r 0) as [->|]; [exfalso|lia].
  assert (2 * ((M + 1) / 2) = M + 1) as E.
  { pose proof (Z.div_mod (M + 1) 2 ltac:(lia)) as Hd. rewrite Zmod_odd, Z.odd_add, Ho in Hd. simpl in Hd. lia. }
  assert (cong M 0 1) as [k Hk].
  { assert (cong M (2 ^ e * ((M + 1) / 2) ^ e) 1) as <-.
    { rewrite <- Z.pow_mul_l, E. rewrite (cong_pow M (M + 1) 1 e He); [by rewrite Z.pow_1_l|exists 1; lia]. }
    rewrite <- Hc. exists 0. lia. }
  destruct (Z.le_gt_cases 0 k) as [H0|H0]; [pose proof (Z.mul_nonneg_nonneg k M)|pose proof (Z.mul_le_mono_nonneg_r k (-1) M)]; lia.
Qed.

(** The first message of the server, from the group, the salt and the verifier. *)
Lemma ServerCommon_ok bn rnd : modulus bn.(N) -> element bn.(N) bn.(g) -> wf bn.(v) -> neg bn.(v) = false -> ok rnd -> (8 <= length rnd)%nat ->
  (ServerCommon SHA1 bn rnd = Undef /\ hard bn.(N)) \/
  exists k' B', let bn' := set_B B' (set_k k' (set_b (gen_rand 32 rnd) bn)) in
    ServerCommon SHA1 bn rnd = Ok (bn', four_hex bn.(N) bn.(g) bn.(s) B') /\ hash_k SHA1 bn = Ok k' /\ exponent (gen_rand 32 rnd) /\
    wf B' /\ neg B' = false /\ 0 <= val (digits B') < val (digits bn.(N)) /\
    cong (val (digits bn.(N))) (val (digits B'))
      (val (digits k') * val (digits bn.(v)) + val (digits bn.(g)) ^ val (digits (gen_rand 32 rnd))).
Proof.
  intros Hm HG Wv Nv Hr Hl. pose proof Hm as [Wm Nm Mp _]. pose proof HG as [WG NG _].
  destruct (gen_rand_exponent 8 rnd ltac:(lia) Hr Hl) as [Hb _]. change (4 * 8)%nat with 32%nat in Hb. unfold ServerCommon.
  change (hash_k SHA1 (set_b (gen_rand 32 rnd) bn)) with (hash_k SHA1 bn).
  destruct (hash_k_ok bn Hm HG) as (k' & -> & Hk). cbn [rbind set_k set_b k v g b N s].
  destruct (power_ok _ _ _ Hm WG NG Hb) as [[-> ?]|(gb & -> & Wgb & Ngb & _ & Cgb)]; [by left|]. cbn [rbind].
  destruct (product_ok k' bn.(v) Hk (wf_exponent _ Wv Nv)) as (Wp & Np & Vp).
  destruct (plus_nonneg_spec (mul k' bn.(v)) gb Wp Wgb Np Ngb) as (sum & -> & Ws & Ns & Vs). cbn [rbind].
  destruct (modulo_spec sum bn.(N) Ws Wm Ns Nm ltac:(lia)) as [[-> ?]|(B' & -> & WB & NB & VB)]; [by left|right]. cbn [rbind].
  exists k', B'. cbn [set_B B N g s]. rewrite VB, Vs, Vp.
  pose proof (Z.mod_pos_bound (val (digits k') * val (digits bn.(v)) + val (digits gb)) (val (digits bn.(N))) ltac:(lia)).
  split_and!; [done|done|done|done|done|lia|lia|]. rewrite mod_cong, Cgb. reflexivity.
Qed.

Section prime.
Context (P : BigNum) (HP : modulus P) (HV : IsValidPrimeGroup P (of_u32 2) = true) (HT : element P (of_u32 2)).
Context (HO : Z.odd (val (digits P)) = true).

(** The answer of the client to a message with the known prime. *)
Lemma ClientInit_ok s' B' ra : readable s' -> wf B' -> neg B' = false -> 0 <= val (digits B') < val (digits P) ->
  ok ra -> (8 <= length ra)%nat ->
  let bn := set_B B' (set_s (strip_lz s') (set_g (of_u32 2) (set_N P fresh))) in
  let run := ClientInit fresh ra (four_hex P (of_u32 2) s' B') [] in
  run = Undef \/ (val (digits B') = 0 /\ run = Ok (ER_CRYPTO_ILLEGAL_PARAMETERS, bn, [])) \/
  exists A', run = Ok (ER_OK, set_A A' (set_a (gen_rand 32 ra) bn), get_hex A' false) /\
    exponent (gen_rand 32 ra) /\ element P B' /\ element P A' /\
    cong (val (digits P)) (val (digits A')) (2 ^ val (digits (gen_rand 32 ra))).
Proof.
  intros Rs WB NB RB Hra Hl bn run. pose proof HP as Hm. pose proof Hm as [[M1 M2 _ _] _ Mp _].
  assert (wf (of_u32 2)) as W2 by (apply of_u32_wf; unfold is_digit; lia). pose proof W2 as [T1 T2 _ _]. pose proof WB as [B1 B2 _ _].
  destruct (gen_rand_exponent 8 ra ltac:(lia) Hra Hl) as [Ha _]. change (4 * 8)%nat with 32%nat in Ha.
  unfold run, ClientInit. rewrite (Parse_four _ _ _ _ _ _ _ _ _ (conj M1 M2) (conj T1 T2) Rs (conj B1 B2)).
  rewrite (strip_self P (mod_wf _ Hm)), (strip_self (of_u32 2) W2), (strip_self B' WB).
  fold bn. change bn.(N) with P. change bn.(g) with (of_u32 2). change bn.(B) with B'. rewrite HV. cbn [negb].
  destruct (Z.eq_dec (val (digits B')) 0) as [E0|Hnz].
  { right. left. split; [done|]. rewrite eqb_zero, E0 by done. done. }
  assert (element P B') as EB by (split; [done|done|lia]). rewrite element_passes by done.
  change (g (set_a (gen_rand 32 ra) bn)) with (of_u32 2). change (a (set_a (gen_rand 32 ra) bn)) with (gen_rand 32 ra).
  change (N (set_a (gen_rand 32 ra) bn)) with P.
  destruct (power_ok _ _ _ Hm W2 eq_refl Ha) as [[-> ?]|(A' & -> & WA & NA & RA & CA)]; [by left|right; right]. cbn [rbind].
  exists A'. cbn [of_u32 digits val] in CA. change (2 + 2 ^ 32 * 0) with 2 in CA. split_and!; [done|done|done| |done].
  split; [done|done|]. split; [|lia]. eapply power_of_two_not_zero; [exact Mp|exact HO|by apply exponent_nonneg|exact CA|lia].
Qed.

(** The exchange with any prime in place of the known one. *)
Definition ServerInit_with (bn : BN) (salt rnd id pwd : list Z) : res (BN * list Z) :=
  let bn := set_N P bn in
  let bn := set_g (of_u32 2) bn in
  let bn := set_s (gen_rand SALT_LEN salt) bn in
  let! x' := hash_x SHA1 bn id pwd in
  let bn := set_x x' bn in
  let! v' := mod_exp bn.(g) bn.(x) bn.(N) in
  let bn := set_v v' bn in
  ServerCommon SHA1 bn rnd.

Definition exchange_with (salt rb ra id pwd : list Z) : res (QStatus * BN * BN) :=
  let! r := ServerInit_with fresh salt rb id pwd in
  let '(server, toClient) := r in
  let! r := ClientInit fresh ra toClient [] in
  let '(status, client, toServer) := r in
  match status with
  | ER_OK => finish SHA1 server client toServer id pwd
  | _ => Ok (status, server, client)
  end.

Lemma exchange_with_spec salt rb ra id pwd :
  ok salt -> ok rb -> ok ra -> (10 <= length salt)%nat -> (8 <= length rb)%nat -> (8 <= length ra)%nat ->
  exchange_with salt rb ra id pwd = Undef \/
  exists status server client, exchange_with salt rb ra id pwd = Ok (status, server, client) /\
    ((status = ER_OK /\ server.(pms) = client.(pms)) \/
     (status = ER_CRYPTO_ILLEGAL_PARAMETERS /\ val (digits server.(B)) = 0)).
Proof.
  intros Hs Hrb Hra Ls Lb La. unfold exchange_with, ServerInit_with. pose proof HP as Hm. pose proof HT as H2.
  destruct (gen_rand_exponent 10 salt ltac:(lia) Hs Ls) as [[Rs Ns] Lgs]. change (4 * 10)%nat with SALT_LEN in Rs, Ns, Lgs.
  set (s' := gen_rand SALT_LEN salt) in *. set (bn0 := set_s s' (set_g (of_u32 2) (set_N P fresh))).
  destruct (Z.eq_dec (val (digits s')) 0) as [E0|Hnz].
  { left. unfold hash_x. change (s bn0) with s'. by rewrite number_bytes_zero. }
  pose proof (val_nonneg _ (proj1 Rs)) as Hs0.
  assert (exists x', hash_x SHA1 bn0 id pwd = Ok x') as [x' Ex].
  { unfold hash_x. change (s bn0) with s'. destruct (number_bytes_ok s' Rs ltac:(lia) ltac:(lia)) as (out & -> & _). by eexists. }
  pose proof (hash_x_exponent _ _ _ _ Ex) as Hx. pose proof H2 as [W2 N2 _]. rewrite Ex. cbn [rbind].
  change (g (set_x x' bn0)) with (of_u32 2). change (x (set_x x' bn0)) with x'. change (N (set_x x' bn0)) with P.
  destruct (power_ok _ _ _ Hm W2 N2 Hx) as [[-> ?]|(v' & -> & Wv & Nv & _ & Cv)]; [by left|]. cbn [rbind].
  set (bn1 := set_v v' (set_x x' bn0)).
  destruct (ServerCommon_ok bn1 rb Hm H2 Wv Nv Hrb Lb) as [[-> ?]|(k' & B' & -> & Ek & Hb & WB & NB & RB & CB)]; [by left|].
  cbn [rbind]. set (server := set_B B' (set_k k' (set_b (gen_rand 32 rb) bn1))) in *.
  change (four_hex bn1.(N) bn1.(g) bn1.(s) B') with (four_hex P (of_u32 2) s' B').
  destruct (ClientInit_ok s' B' ra Rs WB NB RB Hra La) as [->|[[E0 ->]|(A' & -> & Ha & EB & EA & CA)]]; cbn [rbind]; [by left| |].
  { right. eexists _, server, _. split; [reflexivity|]. right. exact (conj eq_refl E0). }
  set (client := set_A A' _) in *. change (get_hex A' false) with (get_hex client.(A) false).
  assert (session server client id pwd) as Hses.
  { split; [exact Hm|exact H2| |exact Ha|exact Hb| | |exact (conj EA CA)|repeat split].
    - change (s server) with s'. split; [exact Rs|]. rewrite Lgs. lia.
    - split; [exact Wv|]. split; [exact Nv|]. exists x'. exact (conj Ex Cv).
    - split; [exact EB|]. exists k'. exact (conj Ek CB). }
  destruct (session_agrees _ _ _ _ Hses) as [[E _]|(server' & client' & E1 & Ep)]; [by left|right].
  eexists _, _, _. split; [exact E1|]. left. exact (conj eq_refl Ep).
Qed.
End prime.

Definition N1024 : BigNum := set_bytes Prime1024.

Lemma N1024_modulus : modulus N1024.
Proof.
  assert (Forall byte Prime1024) as Hb.
  { apply List.Forall_forall. intros c Hc. assert (forallb (fun c => (0 <=? c) && (c <? 2 ^ 8)) Prime1024 = true) as H by reflexivity.
    rewrite forallb_forall in H. specialize (H c Hc). unfold is_unit. lia. }
  destruct (set_bytes_spec _ Hb) as (H1 & H2 & H3). split; [|done| |].
  - split; [exact H1|vm_compute; discriminate|vm_compute; reflexivity|unfold N1024; rewrite H2; discriminate].
  - assert ((1 <? val (digits N1024)) = true) as H by (vm_compute; reflexivity). lia.
  - assert ((byte_len N1024 <? 2 ^ 33) = true) as H by (vm_compute; reflexivity). lia.
Qed.

Lemma N1024_valid : IsValidPrimeGroup N1024 (of_u32 2) = true.
Proof. vm_compute. reflexivity. Qed.

Lemma N1024_odd : Z.odd (val (digits N1024)) = true.
Proof. vm_compute. reflexivity. Qed.

Lemma two_element : element N1024 (of_u32 2).
Proof.
  split; [apply of_u32_wf; unfold is_digit; lia|done|].
  assert ((2 <? val (digits N1024)) = true) as H by (vm_compute; reflexivity). cbn [of_u32 digits val]. lia.
Qed.

Lemma exchange_spec salt rb ra id pwd :
  ok salt -> ok rb -> ok ra -> (10 <= length salt)%nat -> (8 <= length rb)%nat -> (8 <= length ra)%nat ->
  exchange SHA1 salt rb ra id pwd = Undef \/
  exists status server client, exchange SHA1 salt rb ra id pwd = Ok (status, server, client) /\
    ((status = ER_OK /\ server.(pms) = client.(pms)) \/
     (status = ER_CRYPTO_ILLEGAL_PARAMETERS /\ val (digits server.(B)) = 0)).
Proof. exact (exchange_with_spec N1024 N1024_modulus N1024_valid two_element N1024_odd salt rb ra id pwd). Qed.

(** * A negative public value *)

Lemma opp_text m : modulus m -> get_hex (opp m) false = 45 :: get_hex m false.
Proof.
  intros [[W1 W2 W3 _] Nm Mp _]. unfold get_hex, opp, copy. cbn [digits neg]. rewrite strip_id, (strip_nonneg m Nm), Nm by done. cbn [negb].
  rewrite text_nibbles. cbn [skip_zeros]. change (48 =? 48) with true. cbv iota.
  destruct (all_nibbles_spec _ W1) as [N1 N2]. destruct (skip_zeros_nibbles false _ N1) as (ws & -> & _ & Hv & _).
  destruct ws as [|w ws]; [|done]. cbn [rev le] in Hv. lia.
Qed.

Lemma negative_passes m : modulus m -> eqb (opp m) zero || geb (opp m) m = false.
Proof.
  intros [Hm Nm Mp _]. destruct (wf_neg m Hm) as [_ Zm]. destruct (Zm Nm) as [_ Vm].
  destruct (opp_wf m Hm ltac:(lia)) as (Wo & Zo & No). unfold eqb, geb. rewrite !compare_wf by (done || apply zero_wf).
  rewrite Nm, !andb_false_r, Zo, Vm. change (zval zero) with 0. rewrite !Z.sgn_neg by lia. done.
Qed.

Lemma ServerFinish_negative server :
  modulus server.(N) -> wf server.(v) -> neg server.(v) = false -> exponent server.(b) -> 0 < val (digits server.(b)) ->
  element server.(N) server.(B) ->
  (ServerFinish SHA1 server (45 :: get_hex server.(N) false) = Undef /\ hard server.(N)) \/
  exists server', ServerFinish SHA1 server (45 :: get_hex server.(N) false) = Ok (ER_OK, server') /\ server'.(pms) = zero.
Proof.
  intros Hm Wv Nv Hb Hb0 HB. pose proof Hm as [Wm Nm Mp _]. pose proof HB as [WB _ RB].
  destruct (wf_neg _ Wm) as [_ Zm]. destruct (Zm Nm) as [_ Vm]. destruct (opp_wf _ Wm ltac:(lia)) as (Wo & Zo & No).
  assert (digits (opp server.(N)) = digits server.(N)) as Do by (unfold opp, copy; cbn [digits]; apply strip_id; apply Wm).
  rewrite <- opp_text by done. unfold ServerFinish. rewrite hex_same by done. cbn [set_A A N]. rewrite negative_passes by done.
  assert (exists u', hash_u SHA1 (set_A (opp server.(N)) server) = Ok u' /\ exponent u') as (u' & -> & Hu).
  { unfold hash_u. cbn [set_A A B N]. destruct (padded_ok _ (opp server.(N)) Hm) as (pa & -> & _); [apply Wo|rewrite Do; lia|].
    destruct (padded_ok _ _ Hm (wf_ok _ WB) ltac:(lia)) as (pb & -> & _). eexists. split; [reflexivity|]. apply digest_exponent. }
  cbn [rbind set_A set_u N v u A b].
  destruct (power_ok _ _ _ Hm Wv Nv Hu) as [[-> ?]|(vu & -> & Wvu & Nvu & _ & _)]; [by left|]. cbn [rbind].
  destruct (mul_spec (opp server.(N)) vu Wo Wvu) as [Wp Zp].
  destruct (modulo_signed (mul (opp server.(N)) vu) server.(N) Wp Wm Nm ltac:(lia)) as [[-> ?]|(tmp & -> & Wt & [c Hc] & Ht)]; [by left|]. cbn [rbind].
  assert (zval tmp = 0) as Z0.
  { rewrite Zp, Zo, Vm in Hc. assert (zval tmp = (c - zval vu) * val (digits server.(N))) as E by lia.
    destruct (Z.lt_total (c - zval vu) 0) as [Hlt|[E0|Hgt]].
    - pose proof (Z.mul_le_mono_nonneg_r (c - zval vu) (-1) (val (digits server.(N)))). lia.
    - rewrite E, E0. lia.
    - pose proof (Z.mul_le_mono_nonneg_r 1 (c - zval vu) (val (digits server.(N)))). lia. }
  assert (tmp = zero) as -> by (apply wf_inj; [done|apply zero_wf|done]).
  destruct (power_ok _ zero _ Hm zero_wf eq_refl Hb) as [[-> ?]|(p & -> & Wpm & Npm & Rp & Cp)]; [by left|right]. cbn [rbind].
  eexists. split; [reflexivity|]. cbn [set_pms pms]. apply wf_inj; [done|apply zero_wf|]. change (zval zero) with 0.
  destruct (wf_neg _ Wpm) as [_ Zpm]. destruct (Zpm Npm) as [_ ->]. change (val (digits zero)) with 0 in Cp. rewrite Z.pow_0_l in Cp by done.
  rewrite <- (Z.mod_small _ _ Rp). apply cong_mod in Cp. by rewrite Cp, Z.mod_0_l by lia.
Qed.
End steps.

(** * The theorems *)

(** C33: once server and client have each other's public values, made from the same
    password with the same salt, which is not zero, they end the calculation with
    ER_OK and the same premaster secret, in particular with every modulus of at most
    two digits. The exception are the moduli by which a division of BigNum can fail
    its assertion: there the calculation may stop at such a division, but it never
    ends with another status or with different secrets. *)
Theorem SRP_agreement SHA1 server client id pwd :
  (forall l, Forall byte (SHA1 l) /\ length (SHA1 l) = 20%nat) -> session SHA1 server client id pwd ->
  let run := finish SHA1 server client (get_hex client.(A) false) id pwd in
  let agreed := exists server' client', run = Ok (ER_OK, server', client') /\ server'.(pms) = client'.(pms) in
  (~ hard server.(N) -> agreed) /\ (run <> Undef -> agreed).
Proof. intros H Hs. destruct (session_agrees _ H _ _ _ _ Hs) as [[E Hh]|Ha]; split; intros Hn; done. Qed.

(** A modulus of at most two digits divides every number. *)
Lemma short_not_hard m : (length (digits m) <= 2)%nat -> ~ hard m.
Proof. intros Hl [H _]. lia. Qed.

(** A small group: modulus 23, generator 5, every digest the number 3; the
    verifier is 5^3, the public values are 5^2 and 3 * 5^3 + 5^1. *)
Definition small_sha (l : list Z) : list Z := replicate 19 0 ++ [3].
Definition small_server : BN :=
  set_B (of_u32 12) (set_k (set_bytes (small_sha [])) (set_v (of_u32 10) (set_b (of_u32 1) (set_s (of_u32 9)
    (set_g (of_u32 5) (set_N (of_u32 23) fresh)))))).
Definition small_client : BN :=
  set_A (of_u32 2) (set_a (of_u32 2) (set_B (of_u32 12) (set_s (of_u32 9) (set_g (of_u32 5) (set_N (of_u32 23) fresh))))).

Lemma small_wf d : (0 <=? d) && (d <? 2 ^ 32) = true -> wf (of_u32 d).
Proof. intros H. apply of_u32_wf. unfold is_digit. lia. Qed.

Lemma small_sha_bytes l : Forall byte (small_sha l) /\ length (small_sha l) = 20%nat.
Proof.
  split; [|done]. apply Forall_app. split; [apply Forall_replicate; unfold is_unit; lia|].
  apply Forall_cons. split; [unfold is_unit; lia|by apply Forall_nil].
Qed.

Lemma small_session : session small_sha small_server small_client [] [].
Proof.
  assert (modulus (of_u32 23)) as Hm by (split; [by apply small_wf|done|done|vm_compute; done]).
  assert (forall d, (0 <? d) && (d <? 23) = true -> element (of_u32 23) (of_u32 d)) as He.
  { intros d Hd. split; [apply of_u32_wf; unfold is_digit; lia|done|]. cbn [of_u32 digits val]. lia. }
  assert (forall d, (0 <=? d) && (d <? 2 ^ 32) = true -> exponent (of_u32 d)) as Hx by (intros d Hd; by apply wf_exponent; [apply small_wf|]).
  split; [exact Hm|by apply He| |by apply Hx|by apply Hx| | | |done].
  - split; [exact (ex_readable _ (Hx 9 eq_refl))|done].
  - split; [by apply small_wf|]. split; [done|]. exists (set_bytes (small_sha [])). split; [reflexivity|]. exists (-5). vm_compute. reflexivity.
  - split; [by apply He|]. exists (set_bytes (small_sha [])). split; [reflexivity|]. exists (-1). vm_compute. reflexivity.
  - split; [by apply He|]. exists (-1). vm_compute. reflexivity.
Qed.

Lemma SRP_agreement_witness :
  exists server' client', finish small_sha small_server small_client (get_hex (of_u32 2) false) [] [] = Ok (ER_OK, server', client') /\
    server'.(pms) = client'.(pms).
Proof.
  apply (proj1 (SRP_agreement small_sha small_server small_client [] [] small_sha_bytes small_session)).
  apply short_not_hard. vm_compute. lia.
Defined.

(** the whole exchange between a new server and a new client with the same
    user and password, whatever the random numbers: unless a number operation
    fails on the way, the client refuses the server's public value, which is then
    zero, or both end with the same premaster secret. All that goes over the wire
    is text, and is read back as it was meant. *)
Theorem SRP_exchange SHA1 salt rb ra id pwd :
  (forall l, Forall byte (SHA1 l) /\ length (SHA1 l) = 20%nat) ->
  ok salt -> ok rb -> ok ra -> (10 <= length salt)%nat -> (8 <= length rb)%nat -> (8 <= length ra)%nat ->
  exchange SHA1 salt rb ra id pwd = Undef \/
  exists status server client, exchange SHA1 salt rb ra id pwd = Ok (status, server, client) /\
    ((status = ER_OK /\ server.(pms) = client.(pms)) \/
     (status = ER_CRYPTO_ILLEGAL_PARAMETERS /\ val (digits server.(B)) = 0)).
Proof. intros H. by apply exchange_spec. Qed.

Lemma SRP_exchange_witness :
  exchange small_sha (replicate 10 1) (replicate 8 1) (replicate 8 1) [] [] = Undef \/
  exists status server client, exchange small_sha (replicate 10 1) (replicate 8 1) (replicate 8 1) [] [] = Ok (status, server, client) /\
    ((status = ER_OK /\ server.(pms) = client.(pms)) \/
     (status = ER_CRYPTO_ILLEGAL_PARAMETERS /\ val (digits server.(B)) = 0)).
Proof.
  assert (forall n, ok (replicate n 1)) as H by (intros n; apply Forall_replicate; split; [discriminate|reflexivity]).
  exact (SRP_exchange small_sha (replicate 10 1) (replicate 8 1) (replicate 8 1) [] [] small_sha_bytes (H _) (H _) (H _)
    (le_n _) (le_n _) (le_n _)).
Defined.

(** a client that does not know the password and sends the modulus with a
    minus sign as its public value passes the checks of the server, and the
    premaster secret of the server is then zero, whatever the password is. *)
Theorem SRP_negative_public_value SHA1 server :
  (forall l, Forall byte (SHA1 l) /\ length (SHA1 l) = 20%nat) ->
  modulus server.(N) -> wf server.(v) -> neg server.(v) = false -> exponent server.(b) -> 0 < val (digits server.(b)) ->
  element server.(N) server.(B) ->
  (ServerFinish SHA1 server (45 :: get_hex server.(N) false) = Undef /\ hard server.(N)) \/
  exists server', ServerFinish SHA1 server (45 :: get_hex server.(N) false) = Ok (ER_OK, server') /\ server'.(pms) = zero.
Proof. intros H. by apply ServerFinish_negative. Qed.

(** The text -17 for the modulus 0x17. *)
Lemma SRP_negative_public_value_witness :
  (ServerFinish small_sha small_server [45; 49; 55] = Undef /\ hard (of_u32 23)) \/
  exists server', ServerFinish small_sha small_server [45; 49; 55] = Ok (ER_OK, server') /\ server'.(pms) = zero.
Proof.
  pose proof small_session as [Hm _ _ _ Hb (Wv & Nv & _) [HB _] _ _].
  exact (SRP_negative_public_value small_sha small_server small_sha_bytes Hm Wv Nv Hb eq_refl HB).
Defined.
