(* ===== verification/SASL.v ===== *)
(** Model of alljoyn_core/src/SASLEngine.cc, with the interface of
    AuthMechanism.h: the state machine by which a challenger and a responder
    agree on an authentication mechanism and run it.

    A mechanism is an object of a type [M] behind the class [AuthMechanism]; its
    operations may change the object and the world [W] around it (listener, key
    store, random numbers). Extension commands go to the class
    [ExtensionHandler]. NULL is [None], and calling an operation through it is
    [Undef]. Strings are lists of bytes. *)
From stdpp Require Import strings.
From S2P Require Import Prelude Types BusUtil StrSet IPAddress StringUtil.

(** String literals. *)
Definition text (s : string) : list Z :=
  map (fun c => Z.of_nat (Ascii.nat_of_ascii c)) (String.list_ascii_of_string s).

(** The C string held in a buffer: what is before the first NUL. *)
Fixpoint c_str (s : list Z) : list Z :=
  match s with
  | [] => []
  | c :: s => if c =? 0 then [] else c :: c_str s
  end.

Definition CRLF : list Z := [13; 10].
Definition MAX_AUTH_COUNT : Z := 64.

(** * Commands *)

Inductive AuthCmdType :=
| CMD_AUTH | CMD_CANCEL | CMD_BEGIN | CMD_DATA | CMD_ERROR | CMD_REJECTED | CMD_OK | CMD_INVALID.
#[export] Instance AuthCmdType_eq_dec : EqDecision AuthCmdType.
Proof. solve_decision. Defined.

Definition cmdStr (cmd : AuthCmdType) : list Z :=
  match cmd with
  | CMD_AUTH => text "AUTH"
  | CMD_CANCEL => text "CANCEL"
  | CMD_BEGIN => text "BEGIN"
  | CMD_DATA => text "DATA"
  | CMD_ERROR => text "ERROR"
  | CMD_REJECTED => text "REJECTED"
  | CMD_OK => text "OK"
  | CMD_INVALID => text "invalid"
  end.

(** AllJoynAuthCmdList without its last entry, which ends the search. *)
Definition AllJoynAuthCmdList : list AuthCmdType :=
  [CMD_AUTH; CMD_CANCEL; CMD_BEGIN; CMD_DATA; CMD_ERROR; CMD_REJECTED; CMD_OK].

Definition HexToAscii (hex : list Z) : res (list Z) :=
  let len := zlen hex / 2 in
  let! asciiStr := HexStringToBytes hex len 0 in
  Ok (if zlen asciiStr =? len then c_str asciiStr else []).

Definition AsciiToHex (ascii : list Z) : list Z := BytesToHexString ascii true 0.

Definition space : Z := 32.

(** Each turn erases at least one character. *)
Fixpoint ParseAuthNames_loop (fuel : nat) (authSet : StrSet) (names : list Z) : StrSet :=
  match fuel with
  | O => authSet
  | S fuel =>
      match names with
      | [] => authSet
      | _ =>
          match find_first_of space names 0 with
          | Some O => ParseAuthNames_loop fuel authSet (drop 1 names)
          | None => set_insert names authSet
          | Some pos => ParseAuthNames_loop fuel (set_insert (substr names 0 pos) authSet) (drop (pos + 1) names)
          end
      end
  end.

Definition ParseAuthNames (authSet : StrSet) (mechanisms : list Z) : StrSet :=
  ParseAuthNames_loop (length mechanisms) authSet mechanisms.

Fixpoint ExpandAuthNames (authSet : StrSet) : list Z :=
  match authSet with
  | [] => []
  | [n] => n
  | n :: s => n ++ space :: ExpandAuthNames s
  end.

(** What is before the first CRLF. *)
Fixpoint before_CRLF (s : list Z) : list Z :=
  match s with
  | [] => []
  | c :: s' =>
      match s' with
      | d :: _ => if (c =? 13) && (d =? 10) then [] else c :: before_CRLF s'
      | [] => s
      end
  end.

Definition has_prefix (p s : list Z) : bool := bool_decide (take (length p) s = p).

Fixpoint find_cmd (l : list AuthCmdType) (str : list Z) : AuthCmdType * list Z :=
  match l with
  | [] => (CMD_INVALID, str)
  | cmd :: l => if has_prefix (cmdStr cmd) str then (cmd, drop (length (cmdStr cmd)) str) else find_cmd l str
  end.

Definition ParseAuth (str : list Z) : AuthCmdType * list Z := find_cmd AllJoynAuthCmdList (before_CRLF str).

Definition after_space (str : list Z) : list Z := match str with [] => [] | _ => space :: str end.

Definition ComposeAuth (cmd : AuthCmdType) (str1 str2 : list Z) : list Z :=
  cmdStr cmd ++ after_space str1 ++ after_space str2 ++ CRLF.

(** * The interfaces *)

Inductive AuthRole := CHALLENGER | RESPONDER.
#[export] Instance AuthRole_eq_dec : EqDecision AuthRole.
Proof. solve_decision. Defined.

Inductive AuthResult := ALLJOYN_AUTH_OK | ALLJOYN_AUTH_CONTINUE | ALLJOYN_AUTH_RETRY | ALLJOYN_AUTH_FAIL | ALLJOYN_AUTH_ERROR.
#[export] Instance AuthResult_eq_dec : EqDecision AuthResult.
Proof. solve_decision. Defined.

Class AuthMechanism (M W : Type) := {
  GetName : M -> list Z;
  Init : AuthRole -> list Z -> M -> W -> QStatus * M * W;
  InitialResponse : M -> W -> list Z * AuthResult * M * W;
  MechResponse : list Z -> M -> W -> list Z * AuthResult * M * W;
  InitialChallenge : M -> W -> list Z * AuthResult * M * W;
  MechChallenge : list Z -> M -> W -> list Z * AuthResult * M * W;
  IsMutual : M -> bool;
  MechMasterSecret : M -> option (list Z);
}.

(** AuthManager::GetMechanism: a new object, or NULL for an unknown name. *)
Class MechanismFactory (M W : Type) := GetMechanism : list Z -> W -> option M * W.

(** SASLCallout sees of the engine its role. *)
Class ExtensionHandler (W : Type) := SASLCallout : AuthRole -> list Z -> W -> list Z * W.

Inductive AuthState :=
| ALLJOYN_SEND_AUTH_REQ | ALLJOYN_WAIT_FOR_AUTH | ALLJOYN_WAIT_FOR_BEGIN | ALLJOYN_WAIT_FOR_DATA
| ALLJOYN_WAIT_FOR_OK | ALLJOYN_WAIT_FOR_REJECT | ALLJOYN_WAIT_EXT_RESPONSE | ALLJOYN_AUTH_SUCCESS
| ALLJOYN_AUTH_FAILED.
#[export] Instance AuthState_eq_dec : EqDecision AuthState.
Proof. solve_decision. Defined.

(** * The engine *)

Record SASLEngine {M : Type} := {
  authRole : AuthRole;
  authPeer : list Z;
  authSet : StrSet;
  authCount : Z;
  authMechanism : option M;
  authState : AuthState;
  remoteId : list Z;
  localId : list Z;
  extHandler : bool;   (** whether the pointer is not NULL *)
  authIsMutual : bool;
}.
Arguments SASLEngine : clear implicits.

Section Updates.
Context {M : Type}.
Implicit Type e : SASLEngine M.

Definition SetState e s := {| authRole := authRole e; authPeer := authPeer e; authSet := authSet e;
  authCount := authCount e; authMechanism := authMechanism e; authState := s; remoteId := remoteId e;
  localId := localId e; extHandler := extHandler e; authIsMutual := authIsMutual e |}.
Definition with_authSet e s := {| authRole := authRole e; authPeer := authPeer e; authSet := s;
  authCount := authCount e; authMechanism := authMechanism e; authState := authState e; remoteId := remoteId e;
  localId := localId e; extHandler := extHandler e; authIsMutual := authIsMutual e |}.
Definition with_mechanism e (m : option M) := {| authRole := authRole e; authPeer := authPeer e; authSet := authSet e;
  authCount := authCount e; authMechanism := m; authState := authState e; remoteId := remoteId e;
  localId := localId e; extHandler := extHandler e; authIsMutual := authIsMutual e |}.
Definition with_remoteId e i := {| authRole := authRole e; authPeer := authPeer e; authSet := authSet e;
  authCount := authCount e; authMechanism := authMechanism e; authState := authState e; remoteId := i;
  localId := localId e; extHandler := extHandler e; authIsMutual := authIsMutual e |}.
Definition SetLocalId e i := {| authRole := authRole e; authPeer := authPeer e; authSet := authSet e;
  authCount := authCount e; authMechanism := authMechanism e; authState := authState e; remoteId := remoteId e;
  localId := i; extHandler := extHandler e; authIsMutual := authIsMutual e |}.
Definition with_mutual e b := {| authRole := authRole e; authPeer := authPeer e; authSet := authSet e;
  authCount := authCount e; authMechanism := authMechanism e; authState := authState e; remoteId := remoteId e;
  localId := localId e; extHandler := extHandler e; authIsMutual := b |}.
(** [++authCount] on sixteen bits *)
Definition count_up e := {| authRole := authRole e; authPeer := authPeer e; authSet := authSet e;
  authCount := (authCount e + 1) mod 2 ^ 16; authMechanism := authMechanism e; authState := authState e;
  remoteId := remoteId e; localId := localId e; extHandler := extHandler e; authIsMutual := authIsMutual e |}.
End Updates.

Definition NewEngine {M} (role : AuthRole) (mechanisms peer : list Z) (ext : bool) : SASLEngine M :=
  {| authRole := role; authPeer := peer; authSet := ParseAuthNames [] mechanisms; authCount := 0;
     authMechanism := None;
     authState := match role with RESPONDER => ALLJOYN_SEND_AUTH_REQ | CHALLENGER => ALLJOYN_WAIT_FOR_AUTH end;
     remoteId := []; localId := []; extHandler := ext; authIsMutual := false |}.

Section Engine.
Context {M W : Type} `{!AuthMechanism M W, !MechanismFactory M W, !ExtensionHandler W}.
Abbreviation Engine := (SASLEngine M).
Implicit Types (e : Engine) (w : W).

(** The body of the loop for a mechanism that is there: [None] when it has to be dropped. *)
Definition try_mechanism e (m : M) w : option (list Z * AuthState * M) * W :=
  let '(status, m, w) := Init (authRole e) (authPeer e) m w in
  match status with
  | ER_OK =>
      let '(r, authResult, m, w) := InitialResponse m w in
      let response := AsciiToHex r in
      match authResult with
      | ALLJOYN_AUTH_OK => (Some (ComposeAuth CMD_AUTH (GetName m) response, ALLJOYN_WAIT_FOR_OK, m), w)
      | ALLJOYN_AUTH_CONTINUE => (Some (ComposeAuth CMD_AUTH (GetName m) response, ALLJOYN_WAIT_FOR_DATA, m), w)
      | _ => (None, w)
      end
  | _ => (None, w)
  end.

(** The loop; it follows the set, from which each turn takes the first name. *)
Fixpoint new_auth_loop e (mech : option M) (set : StrSet) w : QStatus * list Z * Engine * W :=
  let '(found, w) :=
    match mech with
    | None => (None, w)
    | Some m => try_mechanism e m w
    end in
  match found with
  | Some (authCmd, st, m) => (ER_OK, authCmd, SetState (with_mechanism (with_authSet e set) (Some m)) st, w)
  | None =>
      match set with
      | [] => (ER_AUTH_FAIL, [], with_mechanism (with_authSet e []) None, w)
      | name :: set => let '(mech, w) := GetMechanism name w in new_auth_loop e mech set w
      end
  end.

Definition NewAuthRequest e w : QStatus * list Z * Engine * W :=
  match authMechanism e with
  | Some m =>
      if set_count (GetName m) (authSet e) then new_auth_loop e (Some m) (set_erase (GetName m) (authSet e)) w
      else new_auth_loop e None (authSet e) w
  | None => new_auth_loop e None (authSet e) w
  end.

(** What a case of the switch leaves behind: status, command, response text,
    output composed so far, engine and world. *)
Definition Turn : Type := QStatus * AuthCmdType * list Z * list Z * Engine * W.

Definition Response_REJECTED e (inStr : list Z) w : Turn :=
  let set := match authMechanism e with
             | Some m => if bool_decide (authState e <> ALLJOYN_WAIT_FOR_REJECT) then set_insert (GetName m) (authSet e) else authSet e
             | None => authSet e
             end in
  let inAuth := ParseAuthNames [] inStr in
  let e := with_authSet e (filter (fun n => set_count n inAuth) set) in
  let '(status, outStr, e, w) := NewAuthRequest e w in
  (status, CMD_REJECTED, [], outStr, e, w).

Definition Response_DATA e (inStr : list Z) w : res Turn :=
  match authState e with
  | ALLJOYN_WAIT_FOR_DATA =>
      let! challenge := match inStr with [] => Ok [] | _ => HexToAscii (drop 1 inStr) end in
      if bool_decide (inStr <> []) && bool_decide (challenge = []) then
        Ok (ER_OK, CMD_ERROR, text "Expected hex-encoded data", [], e, w)
      else
        match authMechanism e with
        | None => Undef
        | Some m =>
            let '(r, authResult, m, w) := MechResponse challenge m w in
            let response := AsciiToHex r in
            let e := with_mechanism e (Some m) in
            match authResult with
            | ALLJOYN_AUTH_OK => Ok (ER_OK, CMD_DATA, response, [], SetState e ALLJOYN_WAIT_FOR_OK, w)
            | ALLJOYN_AUTH_ERROR => Ok (ER_OK, CMD_ERROR, response, [], SetState e ALLJOYN_WAIT_FOR_DATA, w)
            | ALLJOYN_AUTH_CONTINUE => Ok (ER_OK, CMD_DATA, response, [], SetState e ALLJOYN_WAIT_FOR_DATA, w)
            | ALLJOYN_AUTH_RETRY =>
                let e := with_authSet e (set_insert (GetName m) (authSet e)) in
                Ok (ER_OK, CMD_CANCEL, [], [], SetState e ALLJOYN_WAIT_FOR_REJECT, w)
            | ALLJOYN_AUTH_FAIL => Ok (ER_OK, CMD_CANCEL, [], [], SetState e ALLJOYN_WAIT_FOR_REJECT, w)
            end
        end
  | ALLJOYN_WAIT_FOR_OK => Ok (ER_OK, CMD_CANCEL, [], [], SetState e ALLJOYN_WAIT_FOR_REJECT, w)
  | _ => Ok (ER_AUTH_FAIL, CMD_DATA, [], [], e, w)
  end.

Definition Response_OK e (inStr : list Z) w : Turn :=
  match authState e with
  | ALLJOYN_WAIT_FOR_DATA | ALLJOYN_WAIT_FOR_OK =>
      let e := with_remoteId e (drop 1 inStr) in
      let '(outStr, w) := if extHandler e then SASLCallout (authRole e) [] w else ([], w) in
      match outStr with
      | [] => (ER_OK, CMD_BEGIN, localId e, [], SetState e ALLJOYN_AUTH_SUCCESS, w)
      | _ => (ER_OK, CMD_OK, [], outStr ++ CRLF, SetState e ALLJOYN_WAIT_EXT_RESPONSE, w)
      end
  | _ => (ER_AUTH_FAIL, CMD_OK, [], [], e, w)
  end.

(** The answer to an extension command, or the end of the conversation. *)
Definition ext_response e (cmd : AuthCmdType) (extCmd : list Z) w : res Turn :=
  if extHandler e then
    let '(outStr, w) := SASLCallout (authRole e) extCmd w in
    match outStr with
    | [] => Ok (ER_OK, CMD_BEGIN, localId e, [], SetState e ALLJOYN_AUTH_SUCCESS, w)
    | _ => Ok (ER_OK, cmd, [], outStr ++ CRLF, e, w)
    end
  else Undef.

Definition Response_ERROR e w : res Turn :=
  match authState e with
  | ALLJOYN_WAIT_FOR_DATA => Ok (ER_OK, CMD_CANCEL, [], [], SetState e ALLJOYN_WAIT_FOR_REJECT, w)
  | ALLJOYN_WAIT_FOR_OK => Ok (ER_OK, CMD_BEGIN, localId e, [], SetState e ALLJOYN_WAIT_FOR_REJECT, w)
  | ALLJOYN_WAIT_EXT_RESPONSE => ext_response e CMD_ERROR (text "ERROR") w
  | _ => Ok (ER_AUTH_FAIL, CMD_ERROR, [], [], e, w)
  end.

Definition Response_default e (cmd : AuthCmdType) (inStr : list Z) w : res Turn :=
  match authState e with
  | ALLJOYN_WAIT_EXT_RESPONSE => ext_response e cmd inStr w
  | ALLJOYN_WAIT_FOR_DATA | ALLJOYN_WAIT_FOR_OK => Ok (ER_OK, CMD_ERROR, text "Unexpected Command", [], e, w)
  | _ => Ok (ER_AUTH_FAIL, cmd, [], [], e, w)
  end.

Definition Response_switch e (cmd : AuthCmdType) (inStr : list Z) w : res Turn :=
  match cmd with
  | CMD_REJECTED => Ok (Response_REJECTED e inStr w)
  | CMD_DATA => Response_DATA e inStr w
  | CMD_OK => Ok (Response_OK e inStr w)
  | CMD_ERROR => Response_ERROR e w
  | _ => Response_default e cmd inStr w
  end.

Definition compose_if_empty (outStr : list Z) (cmd : AuthCmdType) (response : list Z) : list Z :=
  match outStr with [] => ComposeAuth cmd response [] | _ => outStr end.

(** The sanity check at the head of both functions. *)
Definition check_count e : Engine := if MAX_AUTH_COUNT <? authCount e then SetState e ALLJOYN_AUTH_FAILED else e.

Definition Response e (inStr : list Z) w : res (QStatus * list Z * Engine * W) :=
  let e := check_count e in
  if decide (authState e = ALLJOYN_AUTH_FAILED) then Ok (ER_AUTH_FAIL, [], e, w)
  else
    let '(cmd, inStr) :=
      if decide (authState e = ALLJOYN_SEND_AUTH_REQ) then (CMD_REJECTED, space :: ExpandAuthNames (authSet e))
      else ParseAuth inStr in
    let! t := Response_switch e cmd inStr w in
    let '(status, cmd, response, outStr, e, w) := t in
    match status with
    | ER_OK => Ok (ER_OK, compose_if_empty outStr cmd response, e, w)
    | _ =>
        let e := SetState e ALLJOYN_AUTH_FAILED in
        if 0 <? authCount e then Ok (ER_OK, ComposeAuth CMD_BEGIN [] [], e, w) else Ok (status, outStr, e, w)
    end.

(** ** Challenger *)

Definition rejected e w : Turn := (ER_OK, CMD_REJECTED, ExpandAuthNames (authSet e), [], e, w).

(** What follows the call of the mechanism for an AUTH command; the decoded
    [response] is still the text to send when the mechanism fails. *)
Definition challenge_result e (response challenge : list Z) (authResult : AuthResult) w : Turn :=
  match authResult with
  | ALLJOYN_AUTH_OK => (ER_OK, CMD_OK, localId e, [], SetState e ALLJOYN_WAIT_FOR_BEGIN, w)
  | ALLJOYN_AUTH_CONTINUE => (ER_OK, CMD_DATA, AsciiToHex challenge, [], SetState e ALLJOYN_WAIT_FOR_DATA, w)
  | ALLJOYN_AUTH_ERROR =>
      (ER_OK, CMD_ERROR, match challenge with [] => text "Invalid response" | _ => c_str challenge end, [], e, w)
  | ALLJOYN_AUTH_RETRY => rejected e w
  | ALLJOYN_AUTH_FAIL => (ER_AUTH_FAIL, CMD_AUTH, response, [], SetState e ALLJOYN_AUTH_FAILED, w)
  end.

(** The mechanism for the name: the current one again, or a new one; then Init. *)
Definition challenger_mechanism e (name : list Z) w : QStatus * option M * W :=
  let '(mech, w) :=
    match authMechanism e with
    | Some m => if bool_decide (name = GetName m) then (Some m, w) else GetMechanism name w
    | None => GetMechanism name w
    end in
  match mech with
  | None => (ER_OK, None, w)
  | Some m =>
      let '(status, m, w) := Init (authRole e) (authPeer e) m w in
      match status with ER_OK => (ER_OK, Some m, w) | _ => (status, None, w) end
  end.

Definition Challenge_AUTH e (inStr : list Z) w : res Turn :=
  match authState e with
  | ALLJOYN_WAIT_FOR_AUTH =>
      let inStr := drop 1 inStr in
      let '(mechanismName, rest) :=
        match find_first_of space inStr 0 with
        | Some nameEnd => (substr inStr 0 nameEnd, drop nameEnd inStr)
        | None => (inStr, [])
        end in
      let! response := match rest with [] => Ok [] | _ => HexToAscii (drop 1 rest) end in
      if bool_decide (rest <> []) && bool_decide (response = []) then
        Ok (ER_OK, CMD_ERROR, text "Expected hex-encoded data", [], e, w)
      else if negb (set_count mechanismName (authSet e)) then Ok (rejected e w)
      else
        let '(status, mech, w) := challenger_mechanism e mechanismName w in
        let e := with_mechanism e mech in
        match mech with
        | None => Ok (status, CMD_REJECTED, ExpandAuthNames (authSet e), [], e, w)
        | Some m =>
            let '(challenge, authResult, m, w) :=
              match response with [] => InitialChallenge m w | _ => MechChallenge response m w end in
            Ok (challenge_result (with_mechanism e (Some m)) response challenge authResult w)
        end
  | _ => Ok (ER_OK, CMD_ERROR, text "Unexpected", [], e, w)
  end.

Definition Challenge_BEGIN e (inStr : list Z) w : Turn :=
  match authState e with
  | ALLJOYN_WAIT_FOR_BEGIN =>
      (ER_OK, CMD_BEGIN, [], [], SetState (with_remoteId e (drop 1 inStr)) ALLJOYN_AUTH_SUCCESS, w)
  | _ => (ER_AUTH_FAIL, CMD_BEGIN, [], [], e, w)
  end.

Definition Challenge_CANCEL e w : Turn :=
  match authState e with
  | ALLJOYN_WAIT_FOR_AUTH => (ER_OK, CMD_ERROR, text "Expecting AUTH", [], e, w)
  | ALLJOYN_AUTH_FAILED => rejected e w
  | _ => rejected (SetState e ALLJOYN_WAIT_FOR_AUTH) w
  end.

Definition Challenge_DATA e (inStr : list Z) w : res Turn :=
  match authState e with
  | ALLJOYN_WAIT_FOR_DATA =>
      let! response := HexToAscii (drop 1 inStr) in
      match response with
      | [] => Ok (ER_OK, CMD_ERROR, text "Expected hex-encoded data", [], e, w)
      | _ =>
          match authMechanism e with
          | None => Undef
          | Some m =>
              let '(challenge, authResult, m, w) := MechChallenge response m w in
              let e := with_mechanism e (Some m) in
              match authResult with
              | ALLJOYN_AUTH_OK => Ok (ER_OK, CMD_OK, localId e, [], SetState e ALLJOYN_WAIT_FOR_BEGIN, w)
              | ALLJOYN_AUTH_CONTINUE => Ok (ER_OK, CMD_DATA, AsciiToHex challenge, [], SetState e ALLJOYN_WAIT_FOR_DATA, w)
              | ALLJOYN_AUTH_RETRY => Ok (rejected (SetState e ALLJOYN_WAIT_FOR_AUTH) w)
              | _ => Ok (ER_AUTH_FAIL, CMD_DATA, response, [], SetState e ALLJOYN_AUTH_FAILED, w)
              end
          end
      end
  | _ => Ok (ER_OK, CMD_ERROR, text "Unexpected", [], e, w)
  end.

Definition Challenge_default e (cmd : AuthCmdType) (inStr : list Z) w : Turn :=
  let '(outStr, w) :=
    if extHandler e && bool_decide (authState e = ALLJOYN_WAIT_FOR_BEGIN) then SASLCallout (authRole e) inStr w
    else ([], w) in
  match outStr with
  | [] => (ER_OK, CMD_ERROR, text "Unknown", [], e, w)
  | _ => (ER_OK, cmd, [], outStr ++ CRLF, e, w)
  end.

Definition Challenge_switch e (cmd : AuthCmdType) (inStr : list Z) w : res Turn :=
  match cmd with
  | CMD_AUTH => Challenge_AUTH e inStr w
  | CMD_BEGIN => Ok (Challenge_BEGIN e inStr w)
  | CMD_CANCEL | CMD_ERROR => Ok (Challenge_CANCEL e w)
  | CMD_DATA => Challenge_DATA e inStr w
  | _ => Ok (Challenge_default e cmd inStr w)
  end.

Definition Challenge e (inStr : list Z) w : res (QStatus * list Z * Engine * W) :=
  let e := check_count e in
  if decide (authState e = ALLJOYN_AUTH_FAILED) then Ok (ER_AUTH_FAIL, [], e, w)
  else
    let '(cmd, inStr) := ParseAuth inStr in
    let! t := Challenge_switch e cmd inStr w in
    let '(status, cmd, response, outStr, e, w) := t in
    Ok (status, compose_if_empty outStr cmd response, e, w).

(** ** One step of the conversation

    The status, the output and the engine; the state handed back is that of
    the engine when the status is [ER_OK]. *)
Definition Advance e (authIn : list Z) w : res (QStatus * list Z * Engine * W) :=
  match authState e with
  | ALLJOYN_AUTH_SUCCESS | ALLJOYN_AUTH_FAILED => Ok (ER_BUS_NOT_AUTHENTICATING, [], e, w)
  | _ =>
      let! r := match authRole e with RESPONDER => Response e authIn w | CHALLENGER => Challenge e authIn w end in
      let '(status, authOut, e, w) := r in
      match status with
      | ER_OK =>
          match authState e, authMechanism e with
          | ALLJOYN_AUTH_SUCCESS, Some m => Ok (ER_OK, authOut, count_up (with_mutual e (IsMutual m)), w)
          | ALLJOYN_AUTH_SUCCESS, None => Undef
          | _, _ => Ok (ER_OK, authOut, count_up e, w)
          end
      | _ => Ok (status, authOut, count_up (SetState e ALLJOYN_AUTH_FAILED), w)
      end
  end.

Definition GetMechanismName e : list Z := match authMechanism e with Some m => GetName m | None => [] end.

Definition GetMasterSecret e : res (option (list Z)) :=
  match authState e with
  | ALLJOYN_AUTH_SUCCESS => match authMechanism e with Some m => Ok (MechMasterSecret m) | None => Undef end
  | _ => Ok None
  end.
End Engine.
Arguments Turn : clear implicits.
