(* ===== verification/SASLSafety.v ===== *)
(** Safety and termination of the SASL engine, for any mechanisms, any extension
    handler and any text the other side sends: no operation is called through a
    NULL pointer, every conversation ends after at most MAX_AUTH_COUNT + 2 steps,
    and a challenger only succeeds with a mechanism of its own set that accepted
    the responder. *)
From stdpp Require Import strings sets.
From S2P Require Import Prelude Types BusUtil StrSet IPAddress StringUtil SASL SASLProofs.

Section Safety.
Context {M W : Type} `{!AuthMechanism M W, !MechanismFactory M W, !ExtensionHandler W}.
Implicit Types (e : SASLEngine M) (w : W) (m : M).

Lemma status_not_OK {A} (st : QStatus) (a b : A) : st <> ER_OK -> match st with ER_OK => a | _ => b end = b.
Proof. by destruct st. Qed.

(** What no step changes. *)
Definition keeps e e' : Prop :=
  authRole e' = authRole e /\ authPeer e' = authPeer e /\ authCount e' = authCount e /\
  localId e' = localId e /\ extHandler e' = extHandler e.

#[export] Instance keeps_refl : Reflexive keeps.
Proof. done. Qed.
#[export] Instance keeps_trans : Transitive keeps.
Proof. intros ??? (?&?&?&?&?) (?&?&?&?&?). repeat split; congruence. Qed.

(** ** Responder *)

(** The states of a responder; from its first request on it has a mechanism,
    and it waits for extensions only with a handler. *)
Definition resp_ok e : Prop :=
  match authState e with
  | ALLJOYN_SEND_AUTH_REQ | ALLJOYN_AUTH_FAILED => True
  | ALLJOYN_WAIT_FOR_DATA | ALLJOYN_WAIT_FOR_OK | ALLJOYN_WAIT_FOR_REJECT | ALLJOYN_AUTH_SUCCESS => is_Some (authMechanism e)
  | ALLJOYN_WAIT_EXT_RESPONSE => is_Some (authMechanism e) /\ extHandler e = true
  | ALLJOYN_WAIT_FOR_AUTH | ALLJOYN_WAIT_FOR_BEGIN => False
  end.

Lemma new_auth_loop_ok e mech set w st o e' w' :
  new_auth_loop e mech set w = (st, o, e', w') -> keeps e e' /\ (st = ER_OK -> resp_ok e') /\ (st <> ER_OK -> st = ER_AUTH_FAIL).
Proof.
  revert mech w. induction set as [|n set IH]; intros mech w; cbn [new_auth_loop];
    destruct (match mech with None => _ | Some m => _ end) as [[[[cmd s] m]|] w1] eqn:E.
  2: { by intros [= <- <- <- <-]. }
  3: { destruct (GetMechanism n w1) as [mech' w2]. apply IH. }
  all: intros [= <- <- <- <-]; split_and!; [done| |done]; intros _; destruct mech as [m0|]; [|done];
    unfold try_mechanism in E; repeat case_match; simplify_eq; cbn; eauto.
Qed.

Lemma NewAuthRequest_ok e w st o e' w' :
  NewAuthRequest e w = (st, o, e', w') -> keeps e e' /\ (st = ER_OK -> resp_ok e').
Proof. unfold NewAuthRequest. intros H. repeat case_match; edestruct new_auth_loop_ok as (?&?&?); eauto. Qed.

(** A case of the responder's switch returns and, when it succeeds, keeps the invariant. *)
Definition turn_ok e (t : Turn M W) : Prop :=
  let '(st, _, _, _, e', _) := t in keeps e e' /\ (st = ER_OK -> resp_ok e').

Lemma ext_response_ok e cmd s w : resp_ok e -> authState e = ALLJOYN_WAIT_EXT_RESPONSE ->
  exists t, ext_response e cmd s w = Ok t /\ turn_ok e t.
Proof.
  unfold resp_ok, ext_response. intros He E. rewrite E in He. destruct He as [Hm Hx]. rewrite Hx.
  destruct (SASLCallout _ _ _) as [[|c o] w1]; eexists; (split; [done|]); (split; [done|]); intros _; [done|].
  unfold resp_ok. by rewrite E.
Qed.

Lemma Response_switch_ok e cmd s w : resp_ok e -> authState e <> ALLJOYN_AUTH_SUCCESS ->
  exists t, Response_switch e cmd s w = Ok t /\ turn_ok e t.
Proof.
  intros He Hs. destruct cmd; cbn [Response_switch];
    try (unfold Response_default; destruct (authState e) eqn:E; try (by eauto using ext_response_ok);
         eexists; (split; [done|]); (split; [done|]); intros ?; unfold resp_ok in *; rewrite ?E in *; done).
  - unfold Response_DATA. destruct (authState e) eqn:E; try by (eexists; split; [done|]; by split).
    2: { unfold resp_ok in He. rewrite E in He. eexists; split; [done|]. by split. }
    set (ch := match s with [] => _ | _ => _ end). assert (exists c, ch = Ok c) as [c ->].
    { subst ch. destruct s; [by eexists|]. apply HexToAscii_defined. }
    cbn [rbind]. case_match; [eexists; split; [done|]; by split|].
    pose proof He as He'. unfold resp_ok in He'. rewrite E in He'. destruct He' as [m ->].
    destruct (MechResponse c m w) as [[[r a] m'] w']. by destruct a; eexists; (split; [done|]); split; cbn; eauto.
  - unfold Response_ERROR. destruct (authState e) eqn:E; try (by eauto using ext_response_ok);
      eexists; (split; [done|]); (split; [done|]); intros ?; unfold resp_ok in *; rewrite ?E in *; done.
  - eexists; split; [done|]. unfold Response_REJECTED.
    destruct (NewAuthRequest _ _) as [[[st o] e'] w'] eqn:E. apply NewAuthRequest_ok in E as [Hk Ho].
    split; [|done]. etrans; [|exact Hk]. done.
  - eexists; split; [done|]. unfold Response_OK, resp_ok in *. destruct (authState e); try done;
      destruct (extHandler e) eqn:Ex; cbn; rewrite ?Ex; try destruct (SASLCallout _ _ _) as [[|? ?] ?]; done.
Qed.

Lemma check_count_keeps e : keeps e (check_count e).
Proof. unfold check_count. by case_match. Qed.

Lemma Response_ok e s w : resp_ok e -> authState e <> ALLJOYN_AUTH_SUCCESS ->
  exists st o e' w', Response e s w = Ok (st, o, e', w') /\ keeps e e' /\ (st = ER_OK -> resp_ok e').
Proof.
  intros He Hs. unfold Response.
  assert (resp_ok (check_count e)) as Hc by (unfold check_count; by case_match).
  assert (authState (check_count e) <> ALLJOYN_AUTH_SUCCESS) as Hs' by (unfold check_count; by case_match).
  pose proof (check_count_keeps e) as Hk. revert Hc Hs' Hk. generalize (check_count e) as e0. intros e0 Hc Hs' Hk.
  case_decide; [do 4 eexists; split; [done|]; by split|].
  destruct (if decide _ then _ else _) as [cmd s']. destruct (Response_switch_ok e0 cmd s' w Hc Hs') as (t & -> & Ht).
  destruct t as [[[[[st c] r] o] e1] w1]. cbn [rbind]. destruct Ht as [Hk1 Ho].
  assert (keeps e e1) as Hk2 by (by etrans). clear Hk Hk1.
  destruct (decide (st = ER_OK)) as [->|Hst]; [do 4 eexists; split; [done|]; by auto|].
  rewrite status_not_OK by done. case_match; do 4 eexists; (split; [done|]); by split.
Qed.

(** ** Challenger *)

(** Mechanisms made for the name [n], initialized for the challenger, and put
    through any calls of the engine since. *)
Inductive descends (n : list Z) : M -> Prop :=
| descends_new peer m w w0 m' w1 w2 :
    GetMechanism n w = (Some m, w0) -> Init CHALLENGER peer m w1 = (ER_OK, m', w2) -> descends n m'
| descends_again peer m w m' w' : descends n m -> Init CHALLENGER peer m w = (ER_OK, m', w') -> descends n m'
| descends_initial m w c a m' w' : descends n m -> InitialChallenge m w = (c, a, m', w') -> descends n m'
| descends_challenge r m w c a m' w' : descends n m -> MechChallenge r m w = (c, a, m', w') -> descends n m'.

(** The last call of the mechanism ended in ALLJOYN_AUTH_OK. *)
Definition granted (set : StrSet) m : Prop :=
  exists n m0, n ∈ set /\ descends n m0 /\
    ((exists w c w', InitialChallenge m0 w = (c, ALLJOYN_AUTH_OK, m, w')) \/
     (exists r w c w', r <> [] /\ MechChallenge r m0 w = (c, ALLJOYN_AUTH_OK, m, w'))).

Definition known (set : StrSet) m : Prop := exists n, n ∈ set /\ descends n m.

Definition chal_ok (set : StrSet) e : Prop :=
  authSet e = set /\ (forall m, authMechanism e = Some m -> known set m) /\
  match authState e with
  | ALLJOYN_WAIT_FOR_AUTH | ALLJOYN_AUTH_FAILED => True
  | ALLJOYN_WAIT_FOR_BEGIN | ALLJOYN_AUTH_SUCCESS => exists m, authMechanism e = Some m /\ granted set m
  | ALLJOYN_WAIT_FOR_DATA => is_Some (authMechanism e)
  | _ => False
  end.

Definition cturn_ok (set : StrSet) e (t : Turn M W) : Prop :=
  let '(st, _, _, _, e', _) := t in keeps e e' /\ (st = ER_OK -> chal_ok set e').

Lemma challenger_mechanism_ok set e n w st mech w' : chal_ok set e -> authRole e = CHALLENGER -> n ∈ set ->
  challenger_mechanism e n w = (st, mech, w') -> forall m, mech = Some m -> known set m.
Proof.
  intros (_ & Hm & _) Hr Hn. unfold challenger_mechanism. rewrite Hr.
  assert (forall m1 w1, GetMechanism n w = (Some m1, w1) -> forall m2 w2 w3, Init CHALLENGER (authPeer e) m1 w2 = (ER_OK, m2, w3) -> known set m2) as Hnew.
  { intros. exists n. eauto using descends_new. }
  destruct (authMechanism e) as [m0|]; [case_bool_decide|].
  1: destruct (Init CHALLENGER (authPeer e) m0 w) as [[s1 m1] w1] eqn:E; cbn; destruct s1; intros Hx m Hy; simplify_eq/=;
     destruct (Hm m0 eq_refl) as (k & ? & ?); exists k; eauto using descends_again.
  all: destruct (GetMechanism n w) as [[m1|] w1] eqn:Eg; [|by intros [= <- <- <-]];
    destruct (Init CHALLENGER (authPeer e) m1 w1) as [[s1 m2] w2] eqn:E; cbn; destruct s1; intros Hx m Hy; simplify_eq/=; eauto.
Qed.

Lemma known_challenge set m r w c a m' w' : known set m -> MechChallenge r m w = (c, a, m', w') -> known set m'.
Proof. intros (n & ? & ?) ?. exists n. eauto using descends_challenge. Qed.
Lemma known_initial set m w c a m' w' : known set m -> InitialChallenge m w = (c, a, m', w') -> known set m'.
Proof. intros (n & ? & ?) ?. exists n. eauto using descends_initial. Qed.
Lemma granted_challenge set m r w c m' w' : known set m -> r <> [] ->
  MechChallenge r m w = (c, ALLJOYN_AUTH_OK, m', w') -> granted set m'.
Proof. intros (n & ? & ?) ? ?. exists n, m. split_and!; [done..|]. right. eauto 10. Qed.
Lemma granted_initial set m w c m' w' : known set m -> InitialChallenge m w = (c, ALLJOYN_AUTH_OK, m', w') -> granted set m'.
Proof. intros (n & ? & ?) ?. exists n, m. split_and!; [done..|]. left. eauto 10. Qed.

Lemma with_mechanism_chal set e mech : chal_ok set e -> authState e = ALLJOYN_WAIT_FOR_AUTH ->
  (forall m, mech = Some m -> known set m) -> chal_ok set (with_mechanism e mech).
Proof. intros (? & ? & ?) Es ?. split_and!; [done..|]. cbn. by rewrite Es. Qed.

Lemma challenge_result_ok set e m r c a w : chal_ok set e -> authState e = ALLJOYN_WAIT_FOR_AUTH -> known set m ->
  (a = ALLJOYN_AUTH_OK -> granted set m) -> cturn_ok set e (challenge_result (with_mechanism e (Some m)) r c a w).
Proof.
  intros He Es Hk Hg. pose proof (with_mechanism_chal set e (Some m) He Es) as Hw.
  assert (chal_ok set (with_mechanism e (Some m))) as Hc by (apply Hw; by intros ? [= <-]).
  assert (forall m', Some m = Some m' -> known set m') as Hm by (by intros ? [= <-]).
  destruct a; cbn -[chal_ok]; split; try done; intros _; try done; destruct He as (<- & _);
    (split; [done|]); (split; [exact Hm|]); cbn; eauto.
Qed.

Lemma Challenge_AUTH_ok set e s w : chal_ok set e -> authRole e = CHALLENGER ->
  exists t, Challenge_AUTH e s w = Ok t /\ cturn_ok set e t.
Proof.
  intros He Hr. unfold Challenge_AUTH. destruct (authState e) eqn:Es; try (eexists; split; [done|]; by split).
  destruct (match find_first_of _ _ _ with Some _ => _ | None => _ end) as [name rest].
  assert (exists r, match rest with [] => Ok [] | _ => HexToAscii (drop 1 rest) end = Ok r) as [r ->].
  { destruct rest; [by eexists|]. apply HexToAscii_defined. }
  cbn [rbind]. case_match; [eexists; split; [done|]; by split|].
  destruct (set_count name (authSet e)) eqn:Hn; cbn [negb]; [|eexists; split; [done|]; by split].
  apply bool_decide_eq_true in Hn. assert (name ∈ set) as Hn' by (by destruct He as (<- & _)).
  destruct (challenger_mechanism e name w) as [[st mech] w1] eqn:Em.
  pose proof (challenger_mechanism_ok _ _ _ _ _ _ _ He Hr Hn' Em) as Hk.
  destruct mech as [m|]; [|eexists; split; [done|]; split; [done|]; intros _; by apply with_mechanism_chal].
  specialize (Hk m eq_refl).
  destruct (match r with [] => _ | _ => _ end) as [[[c a] m'] w2] eqn:Ec. eexists; split; [done|].
  apply (challenge_result_ok set e m' r c a w2); [done..| |].
  - destruct r; eauto using known_initial, known_challenge.
  - intros ->. destruct r; [eapply granted_initial; [exact Hk|exact Ec]|by eapply granted_challenge; [exact Hk| |exact Ec]].
Qed.

Lemma Challenge_CANCEL_ok set e w : chal_ok set e -> cturn_ok set e (Challenge_CANCEL e w).
Proof.
  intros (? & ? & He). unfold Challenge_CANCEL.
  destruct (authState e) eqn:Es; cbn; (split; [done|]); intros _; (split; [done|]); (split; [done|]); cbn; rewrite ?Es; done.
Qed.

Lemma Challenge_BEGIN_ok set e s w : chal_ok set e -> cturn_ok set e (Challenge_BEGIN e s w).
Proof.
  intros (? & ? & He). unfold Challenge_BEGIN. destruct (authState e) eqn:Es; by split_and!.
Qed.

Lemma Challenge_default_ok set e cmd s w : chal_ok set e -> cturn_ok set e (Challenge_default e cmd s w).
Proof. intros He. unfold Challenge_default. case_match eqn:E; clear E. by destruct l. Qed.

Lemma Challenge_DATA_ok set e s w : chal_ok set e -> exists t, Challenge_DATA e s w = Ok t /\ cturn_ok set e t.
Proof.
  intros He. unfold Challenge_DATA. destruct (authState e) eqn:Es; try (eexists; split; [done|]; by split).
  destruct (HexToAscii_defined (drop 1 s)) as [r ->]. cbn [rbind]. pose proof He as (Hset & Hm & Hst). rewrite Es in Hst.
  destruct r as [|x r]; [eexists; split; [done|]; by split|]. destruct Hst as [m Em]. rewrite Em.
  destruct (MechChallenge (x :: r) m w) as [[[c a] m'] w'] eqn:Ec. specialize (Hm m Em).
  pose proof (known_challenge _ _ _ _ _ _ _ _ Hm Ec) as Hk.
  assert (forall m2, Some m' = Some m2 -> known set m2) as Hk' by (by intros ? [= <-]).
  destruct a; eexists; (split; [done|]); (split; [done|]); intros H; try done;
    (split; [done|]); (split; [exact Hk'|]); cbn; [|done..].
  eexists; split; [done|]. by eapply granted_challenge; [exact Hm| |exact Ec].
Qed.

Lemma Challenge_switch_ok set e cmd s w : chal_ok set e -> authRole e = CHALLENGER ->
  exists t, Challenge_switch e cmd s w = Ok t /\ cturn_ok set e t.
Proof.
  intros He Hr. destruct cmd; cbn [Challenge_switch];
    eauto using Challenge_AUTH_ok, Challenge_DATA_ok, Challenge_CANCEL_ok, Challenge_BEGIN_ok, Challenge_default_ok.
Qed.

Lemma Challenge_ok set e s w : chal_ok set e -> authRole e = CHALLENGER -> authState e <> ALLJOYN_AUTH_SUCCESS ->
  exists st o e' w', Challenge e s w = Ok (st, o, e', w') /\ keeps e e' /\ (st = ER_OK -> chal_ok set e').
Proof.
  intros He Hr Hs. unfold Challenge. pose proof (check_count_keeps e) as Hk.
  assert (chal_ok set (check_count e)) as Hc by (unfold check_count; case_match; [|done]; destruct He as (? & ? & _); by split).
  assert (authState (check_count e) <> ALLJOYN_AUTH_SUCCESS) as Hs' by (unfold check_count; by case_match).
  revert Hc Hs' Hk. generalize (check_count e) as e0. intros e0 Hc Hs' Hk.
  case_decide; [do 4 eexists; split; [done|]; by split|].
  destruct (ParseAuth s) as [cmd s'].
  destruct (Challenge_switch_ok set e0 cmd s' w Hc) as (t & -> & Ht); [by destruct Hk as (-> & _)|].
  destruct t as [[[[[st c] r] o] e1] w1]. destruct Ht as [Hk1 Ho].
  do 4 eexists; split; [done|]. split; [by etrans|done].
Qed.

(** ** Both roles *)

Definition live e : Prop := authState e <> ALLJOYN_AUTH_SUCCESS /\ authState e <> ALLJOYN_AUTH_FAILED.

#[export] Instance live_dec e : Decision (live e).
Proof. unfold live. apply _. Defined.

(** The invariant of an engine that was made with the names of [set]. *)
Definition eng_ok (set : StrSet) e : Prop :=
  0 <= authCount e <= MAX_AUTH_COUNT + 2 /\ (live e -> authCount e <= MAX_AUTH_COUNT + 1) /\
  match authRole e with RESPONDER => resp_ok e | CHALLENGER => authState e = ALLJOYN_AUTH_FAILED \/ chal_ok set e end.

Lemma NewEngine_ok role mechanisms peer ext : eng_ok (ParseAuthNames [] mechanisms) (NewEngine role mechanisms peer ext).
Proof. split_and!; [done..|]. destruct role; [by right|done]. Qed.

Lemma SetLocalId_ok set e i : eng_ok set e -> eng_ok set (SetLocalId e i).
Proof. done. Qed.

Lemma Advance_step e s w : live e ->
  Advance e s w =
    let! r := match authRole e with RESPONDER => Response e s w | CHALLENGER => Challenge e s w end in
    let '(status, authOut, e, w) := r in
    match status with
    | ER_OK =>
        match authState e, authMechanism e with
        | ALLJOYN_AUTH_SUCCESS, Some m => Ok (ER_OK, authOut, count_up (with_mutual e (IsMutual m)), w)
        | ALLJOYN_AUTH_SUCCESS, None => Undef
        | _, _ => Ok (ER_OK, authOut, count_up e, w)
        end
    | _ => Ok (status, authOut, count_up (SetState e ALLJOYN_AUTH_FAILED), w)
    end.
Proof. intros [H1 H2]. unfold Advance. by destruct (authState e). Qed.

(** The function of the role returns; above the limit it fails. *)
Lemma role_step set e s w : eng_ok set e -> live e ->
  exists st o e' w',
    match authRole e with RESPONDER => Response e s w | CHALLENGER => Challenge e s w end = Ok (st, o, e', w') /\
    keeps e e' /\
    (st = ER_OK -> match authRole e with RESPONDER => resp_ok e' | CHALLENGER => chal_ok set e' end) /\
    (MAX_AUTH_COUNT < authCount e -> st = ER_AUTH_FAIL).
Proof.
  intros (_ & _ & He) [Hs Hs'].
  assert (forall st o e' w', MAX_AUTH_COUNT < authCount e ->
    match authRole e with RESPONDER => Response e s w | CHALLENGER => Challenge e s w end = Ok (st, o, e', w') -> st = ER_AUTH_FAIL) as Hf.
  { intros st o e' w' Hc. unfold Response, Challenge, check_count. rewrite (proj2 (Z.ltb_lt _ _) Hc).
    destruct (authRole e); by intros [= <- _ _ _]. }
  destruct (authRole e) eqn:Er.
  - destruct He as [?|He]; [done|]. destruct (Challenge_ok set e s w He Er Hs) as (st & o & e' & w' & E & ? & ?). exists st, o, e', w'. eauto 10.
  - destruct (Response_ok e s w He Hs) as (st & o & e' & w' & E & ? & ?). exists st, o, e', w'. eauto 10.
Qed.

Lemma count_up_ok set e e' : eng_ok set e -> live e -> keeps e e' ->
  match authRole e with RESPONDER => resp_ok e' | CHALLENGER => authState e' = ALLJOYN_AUTH_FAILED \/ chal_ok set e' end ->
  (live e' -> authCount e <= MAX_AUTH_COUNT) ->
  eng_ok set (count_up e') /\ authCount (count_up e') = authCount e + 1.
Proof.
  intros (Hb & Hl & _) Hlive (Er & _ & Ec & _) Hr Hcnt. specialize (Hl Hlive). unfold MAX_AUTH_COUNT in *.
  assert ((authCount e' + 1) mod 2 ^ 16 = authCount e + 1) as E by (rewrite Ec; apply Z.mod_small; lia).
  split; [|exact E]. unfold eng_ok, MAX_AUTH_COUNT. change (authCount (count_up e')) with ((authCount e' + 1) mod 2 ^ 16).
  rewrite E. split_and!; [lia..| |].
  - intros H. assert (live e') as H' by exact H. specialize (Hcnt H'). lia.
  - change (authRole (count_up e')) with (authRole e'). by rewrite Er.
Qed.

Lemma Advance_ok set e s w : eng_ok set e ->
  exists st o e' w', Advance e s w = Ok (st, o, e', w') /\ eng_ok set e' /\
    authRole e' = authRole e /\ (live e -> authCount e' = authCount e + 1) /\ (~ live e -> e' = e) /\ (st <> ER_OK -> ~ live e').
Proof.
  intros He. destruct (decide (live e)) as [Hl|Hl].
  2: { exists ER_BUS_NOT_AUTHENTICATING, [], e, w. split_and!; try done.
       unfold Advance, live in *. destruct (authState e); try done; exfalso; apply Hl; done. }
  rewrite (Advance_step e s w Hl). destruct (role_step set e s w He Hl) as (st & o & e' & w' & -> & Hk & Ho & Hc). cbn [rbind].
  assert (authRole e' = authRole e) as Er by (by destruct Hk).
  destruct (decide (st = ER_OK)) as [->|Hst].
  - specialize (Ho eq_refl).
    assert (match authRole e with RESPONDER => resp_ok e' | CHALLENGER => authState e' = ALLJOYN_AUTH_FAILED \/ chal_ok set e' end) as Ho'.
    { destruct (authRole e); [by right|done]. }
    assert (authCount e <= MAX_AUTH_COUNT) as Hcnt.
    { destruct (Z.le_gt_cases (authCount e) MAX_AUTH_COUNT) as [?|H]; [done|]. by apply Z.lt_gt, Z.gt_lt, Hc in H. }
    assert (forall b, eng_ok set (count_up (with_mutual e' b)) /\ authCount (count_up (with_mutual e' b)) = authCount e + 1) as Hm.
    { intros b. by apply count_up_ok. }
    pose proof (count_up_ok set e e' He Hl Hk Ho' (fun _ => Hcnt)) as [Hn Hn'].
    destruct (authState e') eqn:Es; try (do 4 eexists; split; [done|]; by split_and!).
    assert (is_Some (authMechanism e')) as [m ->].
    { destruct (authRole e); [destruct Ho as (_ & _ & Ho); rewrite Es in Ho; by destruct Ho as (m & -> & _); eexists|].
      unfold resp_ok in Ho. by rewrite Es in Ho. }
    destruct (Hm (IsMutual m)). do 4 eexists; split; [done|]. by split_and!.
  - rewrite status_not_OK by done. destruct (count_up_ok set e (SetState e' ALLJOYN_AUTH_FAILED) He Hl) as [Hn Hn'].
    + destruct Hk as (?&?&?&?&?). by split_and!.
    + destruct (authRole e); [by left|done].
    + by intros [_ []].
    + do 4 eexists; split; [done|]. split_and!; try done. by intros _ [_ []].
Qed.

(** ** Conversations *)

(** The states an engine can be in: made, given an identifier, advanced. *)
Inductive reachable (role : AuthRole) (mechanisms : list Z) : SASLEngine M -> Prop :=
| reachable_new peer ext : reachable role mechanisms (NewEngine role mechanisms peer ext)
| reachable_id e i : reachable role mechanisms e -> reachable role mechanisms (SetLocalId e i)
| reachable_step e s w st o e' w' :
    reachable role mechanisms e -> Advance e s w = Ok (st, o, e', w') -> reachable role mechanisms e'.

Lemma reachable_ok role mechanisms e : reachable role mechanisms e ->
  authRole e = role /\ eng_ok (ParseAuthNames [] mechanisms) e.
Proof.
  induction 1 as [peer ext|e i _ [Hr He]|e s w st o e' w' _ [Hr He] Ha]; [split; [done|apply NewEngine_ok]|done|].
  destruct (Advance_ok _ e s w He) as (st1 & o1 & e1 & w1 & E & ? & ? & _).
  rewrite E in Ha. injection Ha as <- <- <- <-. split; [congruence|done].
Qed.

(** A conversation: one line after the other, whatever the lines. *)
Fixpoint run (ins : list (list Z)) e w : res (SASLEngine M * W) :=
  match ins with
  | [] => Ok (e, w)
  | s :: ins => let! r := Advance e s w in let '(_, _, e, w) := r in run ins e w
  end.

Lemma run_ok set ins e w : eng_ok set e ->
  exists e' w', run ins e w = Ok (e', w') /\ eng_ok set e' /\
    (live e' -> authCount e' = authCount e + zlen ins) /\ (~ live e -> e' = e).
Proof.
  revert e w. induction ins as [|s ins IH]; intros e w He.
  { exists e, w. split_and!; [done|done|cbn; lia|done]. }
  cbn [run]. destruct (Advance_ok set e s w He) as (st & o & e1 & w1 & -> & He1 & _ & Hc & Hd & _). cbn [rbind].
  destruct (IH e1 w1 He1) as (e' & w' & -> & He' & Hc' & Hd'). exists e', w'. split_and!; [done|done| |].
  - intros Hl. assert (live e1) as Hl1.
    { destruct (decide (live e1)) as [?|Hn]; [done|]. by rewrite (Hd' Hn) in Hl. }
    assert (live e) as Hl0.
    { destruct (decide (live e)) as [?|Hn]; [done|]. by rewrite (Hd Hn) in Hl1. }
    rewrite (Hc' Hl), (Hc Hl0). cbn [length]. lia.
  - intros Hn. rewrite (Hd Hn) in Hd', Hc'. by apply Hd'.
Qed.
End Safety.
