(* ===== verification/SASLLive.v ===== *)
(** Liveness of the SASL engine: a responder and a challenger that feed each
    other their output both succeed when the mechanisms they chose agree, over as
    many rounds as the mechanisms take. *)
From stdpp Require Import strings sets.
From S2P Require Import Prelude Types BusUtil StrSet IPAddress StringUtil SASL SASLProofs SASLSafety.

Lemma before_CRLF_line s t : no_CR s -> t = [] \/ t = CRLF -> before_CRLF (s ++ t) = s.
Proof.
  intros Hs [->| ->]; [rewrite app_nil_r; by apply before_CRLF_id|].
  rewrite <- (app_nil_r CRLF). by apply before_CRLF_app.
Qed.

(** A line with or without its end. *)
Lemma ParseAuth_line cmd r t : cmd <> CMD_INVALID -> no_CR r -> t = [] \/ t = CRLF ->
  ParseAuth ((cmdStr cmd ++ r) ++ t) = (cmd, r).
Proof.
  intros Hc Hr Ht. unfold ParseAuth. rewrite before_CRLF_line by (rewrite ?no_CR_app; auto using cmdStr_no_CR).
  by destruct cmd.
Qed.

Lemma ParseAuth_one cmd s : cmd <> CMD_INVALID -> no_CR s -> ParseAuth (ComposeAuth cmd s []) = (cmd, after_space s).
Proof. intros. rewrite ParseAuth_ComposeAuth; [by rewrite app_nil_r|done|done|constructor]. Qed.

Section Live.
Context {M W : Type} `{!AuthMechanism M W, !MechanismFactory M W, !ExtensionHandler W}.
Implicit Types (e ec : SASLEngine M) (w wc wr : W) (m mr mc : M).

(** The end of Advance after a successful turn. *)
Definition finish_turn (out : list Z) e w : res (QStatus * list Z * SASLEngine M * W) :=
  match authState e, authMechanism e with
  | ALLJOYN_AUTH_SUCCESS, Some m => Ok (ER_OK, out, count_up (with_mutual e (IsMutual m)), w)
  | ALLJOYN_AUTH_SUCCESS, None => Undef
  | _, _ => Ok (ER_OK, out, count_up e, w)
  end.

Lemma check_count_low e : authCount e <= MAX_AUTH_COUNT -> check_count e = e.
Proof. intros H. unfold check_count. by rewrite (proj2 (Z.ltb_ge _ _) H). Qed.

Lemma respond_line e line cmd arg w c r o e' w' :
  authRole e = RESPONDER -> live e -> authState e <> ALLJOYN_SEND_AUTH_REQ -> authCount e <= MAX_AUTH_COUNT ->
  ParseAuth line = (cmd, arg) -> Response_switch e cmd arg w = Ok (ER_OK, c, r, o, e', w') ->
  Advance e line w = finish_turn (compose_if_empty o c r) e' w'.
Proof.
  intros Hr Hl Hs Hc Hp Ht. rewrite Advance_step by done. rewrite Hr. unfold Response.
  rewrite check_count_low by done. rewrite decide_False by apply Hl. rewrite decide_False by done.
  rewrite Hp, Ht. done.
Qed.

Lemma respond_start e line w c r o e' w' :
  authRole e = RESPONDER -> authState e = ALLJOYN_SEND_AUTH_REQ -> authCount e <= MAX_AUTH_COUNT ->
  Response_REJECTED e (space :: ExpandAuthNames (authSet e)) w = (ER_OK, c, r, o, e', w') ->
  Advance e line w = finish_turn (compose_if_empty o c r) e' w'.
Proof.
  intros Hr Hs Hc Ht. rewrite Advance_step by (split; by rewrite Hs). rewrite Hr. unfold Response.
  rewrite check_count_low by done. rewrite decide_False by (by rewrite Hs). rewrite decide_True by done.
  cbn [Response_switch]. by rewrite Ht.
Qed.

Lemma challenge_line e line cmd arg w c r o e' w' :
  authRole e = CHALLENGER -> live e -> authCount e <= MAX_AUTH_COUNT ->
  ParseAuth line = (cmd, arg) -> Challenge_switch e cmd arg w = Ok (ER_OK, c, r, o, e', w') ->
  Advance e line w = finish_turn (compose_if_empty o c r) e' w'.
Proof.
  intros Hr Hl Hc Hp Ht. rewrite Advance_step by done. rewrite Hr. unfold Challenge.
  rewrite check_count_low by done. rewrite decide_False by apply Hl. by rewrite Hp, Ht.
Qed.

(** ** Data of a mechanism on its way *)

Lemma Response_DATA_step e c m w r a m' w' : authState e = ALLJOYN_WAIT_FOR_DATA -> authMechanism e = Some m -> sendable c ->
  MechResponse c m w = (r, a, m', w') -> a = ALLJOYN_AUTH_OK \/ a = ALLJOYN_AUTH_CONTINUE ->
  Response_DATA e (after_space (AsciiToHex c)) w =
  Ok (ER_OK, CMD_DATA, AsciiToHex r, [],
      SetState (with_mechanism e (Some m')) (match a with ALLJOYN_AUTH_OK => ALLJOYN_WAIT_FOR_OK | _ => ALLJOYN_WAIT_FOR_DATA end), w').
Proof.
  intros Hs Hm Hc Hr Ha. unfold Response_DATA. rewrite Hs.
  assert (match after_space (AsciiToHex c) with [] => Ok [] | _ => HexToAscii (drop 1 (after_space (AsciiToHex c))) end = Ok c) as ->.
  { rewrite drop_after_space, HexToAscii_AsciiToHex by done. destruct (after_space _) eqn:E; [|done].
    rewrite after_space_nil, AsciiToHex_nil in E. by subst. }
  cbn [rbind]. assert (bool_decide (after_space (AsciiToHex c) <> []) && bool_decide (c = []) = false) as ->.
  { destruct c; [done|]. by rewrite andb_comm. }
  rewrite Hm, Hr. by destruct Ha as [->| ->].
Qed.

Lemma Challenge_DATA_step e r m w c a m' w' : authState e = ALLJOYN_WAIT_FOR_DATA -> authMechanism e = Some m ->
  sendable r -> r <> [] -> MechChallenge r m w = (c, a, m', w') -> a = ALLJOYN_AUTH_OK \/ a = ALLJOYN_AUTH_CONTINUE ->
  Challenge_DATA e (after_space (AsciiToHex r)) w =
  Ok (match a with
      | ALLJOYN_AUTH_OK => (ER_OK, CMD_OK, localId e, [], SetState (with_mechanism e (Some m')) ALLJOYN_WAIT_FOR_BEGIN, w')
      | _ => (ER_OK, CMD_DATA, AsciiToHex c, [], SetState (with_mechanism e (Some m')) ALLJOYN_WAIT_FOR_DATA, w')
      end).
Proof.
  intros Hs Hm Hr Hn Hc Ha. unfold Challenge_DATA. rewrite Hs, drop_after_space, HexToAscii_AsciiToHex by done. cbn [rbind].
  destruct r; [done|]. rewrite Hm, Hc. by destruct Ha as [->| ->].
Qed.

(** ** The dialogue *)

(** The rounds of two mechanisms that agree: the response [r] on its way to the
    challenger, whether the responder's mechanism is done, both mechanisms and
    worlds, and how they are left. A null challenge may be sent, a null response
    may not. *)
Inductive agrees : nat -> list Z -> bool -> M -> W -> M -> W -> M -> W -> M -> W -> Prop :=
| agrees_done r d mr wr mc wc c mc' wc' :
    MechChallenge r mc wc = (c, ALLJOYN_AUTH_OK, mc', wc') -> sendable r -> r <> [] ->
    agrees 0 r d mr wr mc wc mr wr mc' wc'
| agrees_round n r mr wr mc wc c mc1 wc1 r1 a mr1 wr1 mr' wr' mc' wc' :
    sendable r -> r <> [] -> MechChallenge r mc wc = (c, ALLJOYN_AUTH_CONTINUE, mc1, wc1) -> sendable c ->
    MechResponse c mr wr = (r1, a, mr1, wr1) -> a = ALLJOYN_AUTH_OK \/ a = ALLJOYN_AUTH_CONTINUE ->
    agrees n r1 (bool_decide (a = ALLJOYN_AUTH_OK)) mr1 wr1 mc1 wc1 mr' wr' mc' wc' ->
    agrees (S n) r false mr wr mc wc mr' wr' mc' wc'.

(** Each engine reads what the other wrote, until both have succeeded. *)
Fixpoint dialogue (fuel : nat) e w (line : list Z) (ec : SASLEngine M) (wc : W) : res (SASLEngine M * W * SASLEngine M * W) :=
  match fuel with
  | O => Undef
  | S fuel =>
      let! r := Advance e line w in
      let '(st, out, e, w) := r in
      let! r := Advance ec out wc in
      let '(stc, out, ec, wc) := r in
      match st, stc, authState e, authState ec with
      | ER_OK, ER_OK, ALLJOYN_AUTH_SUCCESS, ALLJOYN_AUTH_SUCCESS => Ok (e, w, ec, wc)
      | ER_OK, ER_OK, _, _ => dialogue fuel e w out ec wc
      | ER_OK, _, _, _ => Fail stc
      | _, _, _, _ => Fail st
      end
  end.

(** A responder that has sent data and a challenger that waits for it. *)
Definition waiting (d : bool) e m : Prop :=
  authRole e = RESPONDER /\ authMechanism e = Some m /\ extHandler e = false /\
  authState e = if d then ALLJOYN_WAIT_FOR_OK else ALLJOYN_WAIT_FOR_DATA.
Definition asking e m : Prop :=
  authRole e = CHALLENGER /\ authMechanism e = Some m /\ authState e = ALLJOYN_WAIT_FOR_DATA.

(** Both are done, with these mechanisms, and know each other's identifier. *)
Definition both_done e ec mr mc (lr lc : list Z) : Prop :=
  authState e = ALLJOYN_AUTH_SUCCESS /\ authState ec = ALLJOYN_AUTH_SUCCESS /\
  authMechanism e = Some mr /\ authMechanism ec = Some mc /\ remoteId e = lc /\ remoteId ec = lr.

Lemma count_up_small e : 0 <= authCount e <= MAX_AUTH_COUNT -> authCount (count_up e) = authCount e + 1.
Proof. unfold MAX_AUTH_COUNT. intros H. cbn. apply Z.mod_small. lia. Qed.

(** From the OK of the challenger to the end. *)
Lemma dialogue_OK fuel d e w ec wc mr mc :
  waiting d e mr -> 0 <= authCount e <= MAX_AUTH_COUNT -> 0 <= authCount ec <= MAX_AUTH_COUNT ->
  authRole ec = CHALLENGER -> authMechanism ec = Some mc -> authState ec = ALLJOYN_WAIT_FOR_BEGIN ->
  no_CR (localId e) -> no_CR (localId ec) ->
  exists e' ec', dialogue (S fuel) e w (ComposeAuth CMD_OK (localId ec) []) ec wc = Ok (e', w, ec', wc) /\
    both_done e' ec' mr mc (localId e) (localId ec).
Proof.
  intros (Hr & Hm & Hx & Hs) Hc Hcc Hrc Hmc Hsc Hl Hlc. cbn [dialogue].
  erewrite (respond_line e); [|done|by split; rewrite Hs; destruct d|by rewrite Hs; destruct d|lia| |].
  2: { by apply ParseAuth_one. }
  2: { cbn [Response_switch]. unfold Response_OK. rewrite Hs. rewrite drop_after_space.
       change (extHandler (with_remoteId e (localId ec))) with (extHandler e). rewrite Hx. by destruct d. }
  unfold finish_turn. cbn [authState SetState authMechanism with_remoteId]. rewrite Hm. cbn [rbind compose_if_empty].
  erewrite (challenge_line ec); [|done|by split; rewrite Hsc|lia| |].
  2: { by apply ParseAuth_one. }
  2: { cbn [Challenge_switch]. unfold Challenge_BEGIN. by rewrite Hsc, drop_after_space. }
  unfold finish_turn. cbn [authState SetState authMechanism with_remoteId]. rewrite Hmc. cbn [rbind].
  do 2 eexists; split; [done|]. by split_and!.
Qed.

Lemma Advance_challenge_data ec r mc wc c a mc1 wc1 : asking ec mc -> authCount ec <= MAX_AUTH_COUNT -> sendable r -> r <> [] ->
  MechChallenge r mc wc = (c, a, mc1, wc1) -> a = ALLJOYN_AUTH_OK \/ a = ALLJOYN_AUTH_CONTINUE ->
  Advance ec (ComposeAuth CMD_DATA (AsciiToHex r) []) wc = Ok
    (match a with
     | ALLJOYN_AUTH_OK => (ER_OK, ComposeAuth CMD_OK (localId ec) [], count_up (SetState (with_mechanism ec (Some mc1)) ALLJOYN_WAIT_FOR_BEGIN), wc1)
     | _ => (ER_OK, ComposeAuth CMD_DATA (AsciiToHex c) [], count_up (SetState (with_mechanism ec (Some mc1)) ALLJOYN_WAIT_FOR_DATA), wc1)
     end).
Proof.
  intros (Hrc & Hmc & Hstc) Hc Hr Hn Hch Ha. pose proof (Challenge_DATA_step ec r mc wc c a mc1 wc1 Hstc Hmc Hr Hn Hch Ha) as Hs.
  assert (ParseAuth (ComposeAuth CMD_DATA (AsciiToHex r) []) = (CMD_DATA, after_space (AsciiToHex r))) as Hp
    by (apply ParseAuth_one; [done|by apply AsciiToHex_no_CR, sendable_bytes]).
  destruct Ha as [->| ->]; (eapply eq_trans; [eapply challenge_line; [done|by split; rewrite Hstc|done|exact Hp|exact Hs]|done]).
Qed.

Lemma Advance_respond_data e c mr wr r a mr1 wr1 : waiting false e mr -> authCount e <= MAX_AUTH_COUNT -> sendable c ->
  MechResponse c mr wr = (r, a, mr1, wr1) -> a = ALLJOYN_AUTH_OK \/ a = ALLJOYN_AUTH_CONTINUE ->
  Advance e (ComposeAuth CMD_DATA (AsciiToHex c) []) wr = Ok
    (ER_OK, ComposeAuth CMD_DATA (AsciiToHex r) [],
     count_up (SetState (with_mechanism e (Some mr1)) (if bool_decide (a = ALLJOYN_AUTH_OK) then ALLJOYN_WAIT_FOR_OK else ALLJOYN_WAIT_FOR_DATA)), wr1).
Proof.
  intros (Hr & Hm & Hx & Hst) Hc Hsc Hre Ha. pose proof (Response_DATA_step e c mr wr r a mr1 wr1 Hst Hm Hsc Hre Ha) as Hs.
  assert (ParseAuth (ComposeAuth CMD_DATA (AsciiToHex c) []) = (CMD_DATA, after_space (AsciiToHex c))) as Hp
    by (apply ParseAuth_one; [done|by apply AsciiToHex_no_CR, sendable_bytes]).
  eapply eq_trans; [eapply respond_line; [done|by split; rewrite Hst|by rewrite Hst|done|exact Hp|exact Hs]|].
  by destruct Ha as [->| ->].
Qed.

(** One round: the challenge is answered, and the dialogue goes on from there. *)
Lemma dialogue_round fuel e c mr wr r a mr1 wr1 ec wc wr' wc' (Q : SASLEngine M -> SASLEngine M -> Prop) :
  waiting false e mr -> authCount e <= MAX_AUTH_COUNT -> sendable c ->
  MechResponse c mr wr = (r, a, mr1, wr1) -> a = ALLJOYN_AUTH_OK \/ a = ALLJOYN_AUTH_CONTINUE ->
  (forall e1, waiting (bool_decide (a = ALLJOYN_AUTH_OK)) e1 mr1 -> authCount e1 = (authCount e + 1) mod 2 ^ 16 -> localId e1 = localId e ->
   exists out ec1 wc1 e' ec', Advance ec (ComposeAuth CMD_DATA (AsciiToHex r) []) wc = Ok (ER_OK, out, ec1, wc1) /\
     dialogue fuel e1 wr1 out ec1 wc1 = Ok (e', wr', ec', wc') /\ Q e' ec') ->
  exists e' ec', dialogue (S fuel) e wr (ComposeAuth CMD_DATA (AsciiToHex c) []) ec wc = Ok (e', wr', ec', wc') /\ Q e' ec'.
Proof.
  intros Hw Hc Hsc Hre Ha Hnext. cbn [dialogue]. rewrite (Advance_respond_data e c mr wr r a mr1 wr1) by done. cbn [rbind].
  set (e1 := count_up _). destruct (Hnext e1) as (out & ec1 & wc1 & e' & ec' & -> & E & HQ); [|done|done|].
  { destruct Hw as (? & ? & ? & ?). by split_and!. }
  cbn [rbind]. exists e', ec'. split; [|done].
  assert (authState e1 <> ALLJOYN_AUTH_SUCCESS) as Hns by (subst e1; cbn; by case_bool_decide).
  by destruct (authState e1).
Qed.

(** From data on its way to the challenger to the end. *)
Lemma dialogue_agrees n r d mr wr mc wc mr' wr' mc' wc' : agrees n r d mr wr mc wc mr' wr' mc' wc' ->
  forall e ec fuel, waiting d e mr -> asking ec mc -> 0 <= authCount e -> 0 <= authCount ec ->
  authCount e + Z.of_nat n + 1 <= MAX_AUTH_COUNT -> authCount ec + Z.of_nat n + 1 <= MAX_AUTH_COUNT ->
  no_CR (localId e) -> no_CR (localId ec) -> (S n <= fuel)%nat ->
  exists out ec1 wc1 e' ec',
    Advance ec (ComposeAuth CMD_DATA (AsciiToHex r) []) wc = Ok (ER_OK, out, ec1, wc1) /\
    dialogue fuel e wr out ec1 wc1 = Ok (e', wr', ec', wc') /\
    both_done e' ec' mr' mc' (localId e) (localId ec).
Proof.
  induction 1 as [r d mr wr mc wc c mc1 wc1 Hch Hsr Hnr|n r mr wr mc wc c mc1 wc1 r1 a mr1 wr1 mr' wr' mc' wc' Hsr Hnr Hch Hsc Hre Ha Hag IH];
    intros e ec fuel Hw Hask Hc Hcc Hcn Hccn Hl Hlc Hf; destruct fuel as [|fuel]; try lia.
  - rewrite (Advance_challenge_data ec r mc wc c ALLJOYN_AUTH_OK mc1 wc1) by (auto || lia). cbv beta iota.
    set (ec1 := count_up _). destruct (dialogue_OK fuel d e wr ec1 wc1 mr mc1) as (e' & ec' & E & Hd); try done; [lia| |by apply Hask|].
    { subst ec1. rewrite count_up_small; cbn; lia. }
    do 5 eexists. split; [done|]. split; [exact E|]. exact Hd.
  - rewrite (Advance_challenge_data ec r mc wc c ALLJOYN_AUTH_CONTINUE mc1 wc1) by (auto || lia). cbv beta iota.
    set (ec1 := count_up _).
    assert (authCount ec1 = authCount ec + 1) as Hec1 by (subst ec1; rewrite count_up_small; cbn; lia).
    destruct (dialogue_round fuel e c mr wr r1 a mr1 wr1 ec1 wc1 wr' wc' (fun e' ec' => both_done e' ec' mr' mc' (localId e) (localId ec)))
      as (e' & ec' & E & Hd); try done; [lia| |].
    { intros e1 Hw1 Hc1 Hl1. rewrite Z.mod_small in Hc1 by (unfold MAX_AUTH_COUNT in *; lia). rewrite <- Hl1 in Hl |- *.
      apply (IH e1 ec1 fuel); try done; try lia. destruct Hask as (? & ? & ?). by split_and!. }
    do 5 eexists. split; [done|]. split; [exact E|exact Hd].
Qed.

(** ** The opening *)

(** The first call of the challenger's mechanism depends on whether the AUTH
    command carries a response. *)
Definition first_challenge (r : list Z) mc wc := match r with [] => InitialChallenge mc wc | _ => MechChallenge r mc wc end.

Inductive agrees_first : nat -> list Z -> bool -> M -> W -> M -> W -> M -> W -> M -> W -> Prop :=
| first_done r d mr wr mc wc c mc' wc' :
    first_challenge r mc wc = (c, ALLJOYN_AUTH_OK, mc', wc') -> agrees_first 0 r d mr wr mc wc mr wr mc' wc'
| first_round n r mr wr mc wc c mc1 wc1 r1 a mr1 wr1 mr' wr' mc' wc' :
    first_challenge r mc wc = (c, ALLJOYN_AUTH_CONTINUE, mc1, wc1) -> sendable c ->
    MechResponse c mr wr = (r1, a, mr1, wr1) -> a = ALLJOYN_AUTH_OK \/ a = ALLJOYN_AUTH_CONTINUE ->
    agrees n r1 (bool_decide (a = ALLJOYN_AUTH_OK)) mr1 wr1 mc1 wc1 mr' wr' mc' wc' ->
    agrees_first (S n) r false mr wr mc wc mr' wr' mc' wc'.

(** The arguments of AUTH are taken apart as they were put together. *)
Lemma AUTH_arguments n r (inStr := drop 1 (after_space n ++ after_space (AsciiToHex r))) : name_ok n -> sendable r ->
  match find_first_of space inStr 0 with
  | Some nameEnd => (substr inStr 0 nameEnd, drop nameEnd inStr)
  | None => (inStr, [])
  end = (n, after_space (AsciiToHex r)) /\
  match after_space (AsciiToHex r) with [] => Ok [] | _ => HexToAscii (drop 1 (after_space (AsciiToHex r))) end = Ok r /\
  bool_decide (after_space (AsciiToHex r) <> []) && bool_decide (r = []) = false.
Proof.
  intros [Hn Hsp] Hr. subst inStr.
  assert (drop 1 (after_space n ++ after_space (AsciiToHex r)) = n ++ after_space (AsciiToHex r)) as -> by (by destruct n).
  split_and!.
  - destruct (AsciiToHex r) as [|x h]; cbn [after_space].
    + rewrite app_nil_r. by rewrite find_space_none.
    + rewrite find_space_some by done. unfold substr. by rewrite drop_0, take_app_length, drop_app_length.
  - rewrite drop_after_space, HexToAscii_AsciiToHex by done. destruct (after_space _) eqn:E; [|done].
    rewrite after_space_nil, AsciiToHex_nil in E. by subst.
  - destruct r; [done|]. by rewrite andb_comm.
Qed.

Lemma Challenge_AUTH_step ec n r wc m0 w0 m1 w1 c a mc w2 : authState ec = ALLJOYN_WAIT_FOR_AUTH -> authMechanism ec = None ->
  name_ok n -> n ∈ authSet ec -> sendable r ->
  GetMechanism n wc = (Some m0, w0) -> Init (authRole ec) (authPeer ec) m0 w0 = (ER_OK, m1, w1) ->
  first_challenge r m1 w1 = (c, a, mc, w2) ->
  Challenge_AUTH ec (after_space n ++ after_space (AsciiToHex r)) wc =
    Ok (challenge_result (with_mechanism ec (Some mc)) r c a w2).
Proof.
  intros Hs Hm Hn Hin Hr Hg Hi Hf. unfold Challenge_AUTH. rewrite Hs.
  destruct (AUTH_arguments n r Hn Hr) as (-> & -> & E). cbn [rbind]. rewrite E.
  unfold set_count. rewrite bool_decide_eq_true_2 by done. cbn [negb].
  unfold challenger_mechanism. rewrite Hm, Hg, Hi. unfold first_challenge in Hf.
  by destruct r; rewrite Hf.
Qed.

Lemma Advance_challenge_auth cm peer ext lc line n r wc m0 w0 m1 w1 c a mc w2 (ec := SetLocalId (NewEngine CHALLENGER cm peer ext) lc) :
  ParseAuth line = (CMD_AUTH, after_space n ++ after_space (AsciiToHex r)) ->
  name_ok n -> n ∈ ParseAuthNames [] cm -> sendable r ->
  GetMechanism n wc = (Some m0, w0) -> Init CHALLENGER peer m0 w0 = (ER_OK, m1, w1) ->
  first_challenge r m1 w1 = (c, a, mc, w2) -> a = ALLJOYN_AUTH_OK \/ a = ALLJOYN_AUTH_CONTINUE ->
  Advance ec line wc = Ok
    (match a with
     | ALLJOYN_AUTH_OK => (ER_OK, ComposeAuth CMD_OK lc [], count_up (SetState (with_mechanism ec (Some mc)) ALLJOYN_WAIT_FOR_BEGIN), w2)
     | _ => (ER_OK, ComposeAuth CMD_DATA (AsciiToHex c) [], count_up (SetState (with_mechanism ec (Some mc)) ALLJOYN_WAIT_FOR_DATA), w2)
     end).
Proof.
  intros Hp Hn Hin Hr Hg Hi Hf Ha. assert (live ec) as Hlv by done.
  pose proof (Challenge_AUTH_step ec n r wc m0 w0 m1 w1 c a mc w2 eq_refl eq_refl Hn Hin Hr Hg Hi Hf) as Hs.
  destruct Ha as [->| ->]; exact (challenge_line ec line _ _ wc _ _ _ _ _ eq_refl Hlv ltac:(done) Hp Hs).
Qed.

(** The first turn of a responder that gets a mechanism for the first name of
    its set. *)
Lemma Advance_start rm peer lr line wr n rest m0 w0 m1 w1 r a mr w2 :
  ParseAuthNames [] rm = n :: rest -> GetMechanism n wr = (Some m0, w0) -> Init RESPONDER peer m0 w0 = (ER_OK, m1, w1) ->
  InitialResponse m1 w1 = (r, a, mr, w2) -> a = ALLJOYN_AUTH_OK \/ a = ALLJOYN_AUTH_CONTINUE ->
  exists e, Advance (SetLocalId (NewEngine RESPONDER rm peer false) lr) line wr =
    Ok (ER_OK, ComposeAuth CMD_AUTH (GetName mr) (AsciiToHex r), e, w2) /\
    waiting (bool_decide (a = ALLJOYN_AUTH_OK)) e mr /\ authCount e = 1 /\ localId e = lr.
Proof.
  intros Hp Hg Hi Hr Ha. set (e0 := SetLocalId _ _).
  assert (sorted_set (authSet e0) /\ Forall name_ok (authSet e0)) as [Hs Hn] by (apply ParseAuthNames_wf; constructor).
  assert (authSet e0 = n :: rest) as He by done.
  assert (Response_REJECTED e0 (space :: ExpandAuthNames (authSet e0)) wr =
    (ER_OK, CMD_REJECTED, [], ComposeAuth CMD_AUTH (GetName mr) (AsciiToHex r),
     SetState (with_mechanism (with_authSet e0 rest) (Some mr)) (if bool_decide (a = ALLJOYN_AUTH_OK) then ALLJOYN_WAIT_FOR_OK else ALLJOYN_WAIT_FOR_DATA), w2)) as Ht.
  { unfold Response_REJECTED. change (authMechanism e0) with (@None M). cbv iota zeta. rewrite filter_own_names by done.
    unfold NewAuthRequest. change (authMechanism (with_authSet e0 (authSet e0))) with (@None M).
    change (authSet (with_authSet e0 (authSet e0))) with (authSet e0). rewrite He. cbn [new_auth_loop]. rewrite Hg.
    assert (try_mechanism (with_authSet e0 (n :: rest)) m0 w0 =
      (Some (ComposeAuth CMD_AUTH (GetName mr) (AsciiToHex r), if bool_decide (a = ALLJOYN_AUTH_OK) then ALLJOYN_WAIT_FOR_OK else ALLJOYN_WAIT_FOR_DATA, mr), w2)) as Et.
    { unfold try_mechanism. change (authRole (with_authSet e0 (n :: rest))) with RESPONDER. change (authPeer (with_authSet e0 (n :: rest))) with peer.
      rewrite Hi, Hr. by destruct Ha as [->| ->]. }
    destruct rest; cbn [new_auth_loop]; by rewrite Et. }
  pose proof (respond_start e0 line wr _ _ _ _ _ eq_refl eq_refl ltac:(done) Ht) as Hadv. rewrite Hadv.
  destruct Ha as [->| ->]; (eexists; split; [done|]); unfold waiting; by split_and!.
Qed.

(** A responder without extensions that gets a mechanism for the first name of
    its set, and a challenger whose set has this name and whose mechanism agrees:
    both succeed within as many rounds as the mechanisms take, and learn each
    other's identifier. *)
Theorem SASL_live rm cm peer ext lr lc wr wc n rest m0 w0 m1 w1 r a mr w2 k0 v0 k1 v1 rounds mr' wr' mc' wc' :
  ParseAuthNames [] rm = n :: rest -> GetMechanism n wr = (Some m0, w0) -> Init RESPONDER peer m0 w0 = (ER_OK, m1, w1) ->
  InitialResponse m1 w1 = (r, a, mr, w2) -> a = ALLJOYN_AUTH_OK \/ a = ALLJOYN_AUTH_CONTINUE -> sendable r -> GetName mr = n ->
  n ∈ ParseAuthNames [] cm -> no_CR n -> GetMechanism n wc = (Some k0, v0) -> Init CHALLENGER peer k0 v0 = (ER_OK, k1, v1) ->
  agrees_first rounds r (bool_decide (a = ALLJOYN_AUTH_OK)) mr w2 k1 v1 mr' wr' mc' wc' -> Z.of_nat rounds + 3 <= MAX_AUTH_COUNT ->
  no_CR lr -> no_CR lc ->
  exists e ec, dialogue (rounds + 2) (SetLocalId (NewEngine RESPONDER rm peer false) lr) wr []
                 (SetLocalId (NewEngine CHALLENGER cm peer ext) lc) wc = Ok (e, wr', ec, wc') /\
    both_done e ec mr' mc' lr lc.
Proof.
  intros Hp Hg Hi Hr Ha Hsr Hname Hin Hcr Hgc Hic Hag Hrounds Hl Hlc. rewrite Nat.add_comm. cbn [Nat.add dialogue].
  destruct (Advance_start rm peer lr [] wr n rest m0 w0 m1 w1 r a mr w2 Hp Hg Hi Hr Ha) as (e & -> & Hw & Hc & Hle). cbn [rbind].
  set (ec := SetLocalId _ _). assert (name_ok n) as Hn.
  { destruct (ParseAuthNames_wf [] rm) as [_ H]; [constructor..|]. rewrite Hp in H. by inversion H. }
  assert (ParseAuth (ComposeAuth CMD_AUTH (GetName mr) (AsciiToHex r)) = (CMD_AUTH, after_space n ++ after_space (AsciiToHex r))) as Hpa.
  { rewrite Hname. apply ParseAuth_ComposeAuth; [done|done|]. by apply AsciiToHex_no_CR, sendable_bytes. }
  assert (authState e <> ALLJOYN_AUTH_SUCCESS) as Hns by (destruct Hw as (_ & _ & _ & ->); by case_bool_decide).
  unfold MAX_AUTH_COUNT in *. destruct Hag as [r d mr wr' mc wc0 c mc' wc' Hf|rounds r mr wr1 mc wc0 c mc1 wc1 r1 a1 mr1 wr2 mr' wr' mc' wc' Hf Hsc Hre Ha1 Hag].
  - subst ec. erewrite (Advance_challenge_auth cm peer ext lc); [|done..|by left]. cbn [rbind]. set (ec1 := count_up _).
    destruct (dialogue_OK 0 d e wr' ec1 wc' mr mc') as (e' & ec' & E & Hd); try done; [unfold MAX_AUTH_COUNT; lia|by rewrite Hle|].
    exists e', ec'. split; [|by rewrite Hle in Hd]. by destruct (authState e).
  - subst ec. erewrite (Advance_challenge_auth cm peer ext lc); [|done..|by right]. cbn [rbind]. set (ec1 := count_up _).
    assert (waiting false e mr) as Hw' by (by destruct (bool_decide (a = ALLJOYN_AUTH_OK))).
    destruct (dialogue_round (S rounds) e c mr wr1 r1 a1 mr1 wr2 ec1 wc1 wr' wc' (fun e' ec' => both_done e' ec' mr' mc' lr lc))
      as (e' & ec' & E & Hd); try done; [unfold MAX_AUTH_COUNT; lia| |].
    { intros e1 Hw1 Hc1 Hl1. rewrite Z.mod_small in Hc1 by lia. rewrite <- Hle, <- Hl1 in Hl |- *.
      apply (dialogue_agrees _ _ _ _ _ _ _ _ _ _ _ Hag e1 ec1 (S rounds)); try done; unfold MAX_AUTH_COUNT; try lia.
      change (authCount ec1) with 1. lia. }
    exists e', ec'. split; [|exact Hd]. by destruct (authState e).
Qed.
End Live.
