(* ===== verification/EndpointAuth.v ===== *)
(** Model of alljoyn_core/src/AuthManager.h, of the mechanisms ANONYMOUS and
    EXTERNAL (AuthMechAnonymous.h, AuthMechExternal.h, with their base class in
    AuthMechanism.h), and of how EndpointAuth.cc runs the SASL engine when a
    connection is made: the extension commands and the two loops of Establish up
    to the hello messages. The build is the one for POSIX systems. *)
From stdpp Require Import strings.
From S2P Require Import Prelude Types BusUtil StrSet IPAddress StringUtil GUID SASL.

(** * The registry of mechanisms *)

Section AuthManager.
Context {F : Type}.

(** std::map from names to factories, in the order of the names. *)
Definition AuthMechFactoryMap : Type := list (list Z * F).
Implicit Type am : AuthMechFactoryMap.

Fixpoint RegisterMechanism (factory : F) (mechanismName : list Z) am : AuthMechFactoryMap :=
  match am with
  | [] => [(mechanismName, factory)]
  | (n, f) :: am' =>
      if lex_lt mechanismName n then (mechanismName, factory) :: am
      else if lex_lt n mechanismName then (n, f) :: RegisterMechanism factory mechanismName am'
      else (n, factory) :: am'
  end.

Definition UnregisterMechanism (mechanismName : list Z) am : AuthMechFactoryMap :=
  filter (fun p => p.1 <> mechanismName) am.

Definition find_factory (name : list Z) am : option F :=
  match list_find (fun p => p.1 = name) am with Some (_, (_, f)) => Some f | None => None end.

(** [list.find(name) != npos]: the name is somewhere in the list. *)
Fixpoint contains (s name : list Z) : bool :=
  has_prefix name s || match s with [] => false | _ :: s => contains s name end.

(** The loop, at the entry with number [i]. After an erasure the iterator is the
    first entry and is then incremented: if there is none that is undefined. *)
Fixpoint Filter_loop (fuel : nat) (lst : list Z) am (i : nat) (num : Z) : res (AuthMechFactoryMap * Z) :=
  match fuel with
  | O => Undef
  | S fuel =>
      match am !! i with
      | None => Ok (am, num)
      | Some (n, _) =>
          if contains lst n then Filter_loop fuel lst am (S i) (num + 1)
          else
            match delete i am with
            | [] => Undef
            | am => Filter_loop fuel lst am 1 0
            end
      end
  end.

(** Every erasure is followed by at most as many turns as there are entries. *)
Definition FilterMechanisms (lst : list Z) am : res (AuthMechFactoryMap * Z) :=
  Filter_loop (S (length am) * S (length am)) lst am 0 0.

Definition always_known : list (list Z) :=
  [text "ALLJOYN_ECDHE_NULL"; text "ALLJOYN_ECDHE_PSK"; text "ALLJOYN_ECDHE_ECDSA"].

Fixpoint CheckNames_loop (fuel : nat) am (lst : list Z) : QStatus :=
  match fuel, lst with
  | _, [] => ER_OK
  | O, _ => ER_OK
  | S fuel, _ =>
      let '(name, rest) :=
        match find_first_of space lst 0 with
        | None => (lst, [])
        | Some pos => (substr lst 0 pos, drop (pos + 1) lst)
        end in
      if bool_decide (name ∈ always_known) || bool_decide (is_Some (find_factory name am)) then CheckNames_loop fuel am rest
      else ER_BUS_INVALID_AUTH_MECHANISM
  end.

Definition CheckNames am (lst : list Z) : QStatus := CheckNames_loop (length lst) am lst.
End AuthManager.
Arguments AuthMechFactoryMap : clear implicits.

(** * Two mechanisms

    BusAttachment.cc also registers AuthMechPIN under ALLJOYN_PIN_KEYX and TCPTransport.cc
    lists it. It draws on a listener of the application and on cryptography and is not
    modelled: what follows is about programs that use the two mechanisms below. *)

Inductive MechKind := AuthMechAnonymous | AuthMechExternal.
#[export] Instance MechKind_eq_dec : EqDecision MechKind.
Proof. solve_decision. Defined.

(** The members of the base class; neither mechanism has others or makes a
    master secret. *)
Record Mech := { kind : MechKind; mechCount : Z; mechRole : option AuthRole; mechPeer : list Z }.

Definition AuthName (k : MechKind) : list Z :=
  match k with AuthMechAnonymous => text "ANONYMOUS" | AuthMechExternal => text "EXTERNAL" end.

Definition Factory (k : MechKind) : Mech := {| kind := k; mechCount := 0; mechRole := None; mechPeer := [] |}.

(** AuthMechanism::Init *)
Definition Base_Init (authRole : AuthRole) (authPeer : list Z) (m : Mech) : QStatus * Mech :=
  (ER_OK, {| kind := kind m; mechCount := (mechCount m + 1) mod 2 ^ 16; mechRole := Some authRole; mechPeer := authPeer |}).

(** A number in decimal: [U32ToString] with its default arguments. *)
Definition decimal (n : Z) : list Z := match U32ToString n 10 1 32 with Ok s => s | _ => [] end.

(** ** What surrounds an engine on one side

    The registry, the user, the version of the library, the features of the
    endpoint the handshake sets, and the protocol version of the other side. *)
Record Side := {
  authManager : AuthMechFactoryMap MechKind;
  GetUid : Z;
  GetNumericVersion : Z;
  isBusToBus : bool;
  handlePassing : bool;
  ajVersion : Z;
  processId : Z;
  remoteProtocolVersion : Z;
}.

Definition with_handles (s : Side) (h : bool) (pid : Z) : Side :=
  {| authManager := authManager s; GetUid := GetUid s; GetNumericVersion := GetNumericVersion s; isBusToBus := isBusToBus s;
     handlePassing := h; ajVersion := ajVersion s; processId := pid; remoteProtocolVersion := remoteProtocolVersion s |}.
Definition with_ajVersion (s : Side) (v : Z) : Side :=
  {| authManager := authManager s; GetUid := GetUid s; GetNumericVersion := GetNumericVersion s; isBusToBus := isBusToBus s;
     handlePassing := handlePassing s; ajVersion := v; processId := processId s; remoteProtocolVersion := remoteProtocolVersion s |}.
Definition with_protocol (s : Side) (v : Z) : Side :=
  {| authManager := authManager s; GetUid := GetUid s; GetNumericVersion := GetNumericVersion s; isBusToBus := isBusToBus s;
     handlePassing := handlePassing s; ajVersion := ajVersion s; processId := processId s; remoteProtocolVersion := v |}.

#[export] Instance Mech_AuthMechanism : AuthMechanism Mech Side := {
  GetName m := AuthName (kind m);
  Init r p m w := let '(st, m) := Base_Init r p m in (st, m, w);
  InitialResponse m w :=
    match kind m with
    | AuthMechAnonymous => ([], ALLJOYN_AUTH_CONTINUE, m, w)
    | AuthMechExternal => (decimal (GetUid w), ALLJOYN_AUTH_CONTINUE, m, w)
    end;
  MechResponse _ m w := ([], ALLJOYN_AUTH_OK, m, w);
  InitialChallenge m w := ([], ALLJOYN_AUTH_OK, m, w);
  MechChallenge _ m w := ([], ALLJOYN_AUTH_OK, m, w);
  IsMutual _ := true;
  MechMasterSecret _ := None;
}.

#[export] Instance Mech_Factory : MechanismFactory Mech Side :=
  fun name w => (Factory <$> find_factory name (authManager w), w).

(** * Extension commands *)

Definition NegotiateUnixFd : list Z := text "NEGOTIATE_UNIX_FD".
Definition AgreeUnixFd : list Z := text "AGREE_UNIX_FD".
Definition NegotiateVersion : list Z := text "EXTENSION_NEGOTIATE_VERSION".
Definition AgreeVersion : list Z := text "EXTENSION_AGREE_VERSION".
Definition InformProtocolVersion : list Z := text "INFORM_PROTO_VERSION".
Definition ALLJOYN_PROTOCOL_VERSION : Z := 12.

(** The number after the command. *)
Definition argument (cmd extCmd : list Z) (badValue : Z) : Z := StringToU 32 (drop (length cmd) extCmd) 0 badValue.
Definition minus_one : Z := 2 ^ 32 - 1.

Definition client_callout (extCmd : list Z) (s : Side) : list Z * Side :=
  if bool_decide (extCmd = []) && handlePassing s then (NegotiateUnixFd, with_handles s false (processId s))
  else if has_prefix AgreeUnixFd extCmd then
    (NegotiateVersion ++ space :: decimal (GetNumericVersion s), with_handles s true (argument AgreeUnixFd extCmd minus_one))
  else if has_prefix AgreeVersion extCmd then
    (InformProtocolVersion ++ space :: decimal ALLJOYN_PROTOCOL_VERSION, with_ajVersion s (argument AgreeVersion extCmd minus_one))
  else if has_prefix InformProtocolVersion extCmd then ([], with_protocol s (argument InformProtocolVersion extCmd 0))
  else ([], s).

Definition server_callout (extCmd : list Z) (s : Side) : list Z * Side :=
  if has_prefix NegotiateUnixFd extCmd then (AgreeUnixFd, with_handles s true (argument NegotiateUnixFd extCmd minus_one))
  else if has_prefix NegotiateVersion extCmd then
    let negotiatedVersion := Z.min (argument NegotiateVersion extCmd minus_one) (GetNumericVersion s) in
    (AgreeVersion ++ space :: decimal negotiatedVersion, with_ajVersion s negotiatedVersion)
  else if has_prefix InformProtocolVersion extCmd then
    (InformProtocolVersion ++ space :: decimal ALLJOYN_PROTOCOL_VERSION, with_protocol s (argument InformProtocolVersion extCmd 0))
  else ([], s).

#[export] Instance EndpointAuth_ExtensionHandler : ExtensionHandler Side :=
  fun role extCmd s => match role with RESPONDER => client_callout extCmd s | CHALLENGER => server_callout extCmd s end.

(** * Establish *)

(** Source::GetLine: the next line of the stream and what follows; [None] when
    the stream has no complete line yet. *)
Fixpoint GetLine (stream : list Z) : option (list Z * list Z) :=
  match stream with
  | [] => None
  | c :: stream =>
      if c =? 13 then GetLine stream
      else if c =? 10 then Some ([], stream)
      else (fun '(l, r) => (c :: l, r)) <$> GetLine stream
  end.

(** What a turn of one of the loops does next: leaves with a status, leaves
    authenticated by a mechanism, or goes on. *)
Inductive Next := Exit (status : QStatus) | Authenticated (authUsed : list Z) | Continue.

Definition End : Type := SASLEngine Mech * Side.

(** One turn of the accepting loop, for a line that was read. *)
Definition accept_turn (e : End) (line : list Z) : res (Next * list Z * End) :=
  let! r := Advance e.1 line e.2 in
  let '(status, outStr, sasl, s) := r in
  match status with
  | ER_OK =>
      match authState sasl with
      | ALLJOYN_AUTH_SUCCESS => Ok (Authenticated (GetMechanismName sasl), [], (sasl, s))
      | _ => Ok (Continue, outStr, (sasl, s))
      end
  | _ => Ok (Exit status, [], (sasl, s))
  end.

(** One turn of the connecting loop. *)
Definition connect_turn (e : End) (line : list Z) : res (Next * list Z * End) :=
  let! r := Advance e.1 line e.2 in
  let '(status, outStr, sasl, s) := r in
  match status with
  | ER_OK =>
      match authState sasl with
      | ALLJOYN_AUTH_SUCCESS =>
          let! ok := GUID.IsGUID (remoteId sasl) true in
          Ok (if ok then Authenticated (GetMechanismName sasl) else Exit ER_BUS_ESTABLISH_FAILED, outStr, (sasl, s))
      | _ => Ok (Continue, outStr, (sasl, s))
      end
  | _ => Ok (Exit status, [], (sasl, s))
  end.

(** Both loops over a pair of streams that lose nothing, the client first: the
    outcome of each side, or [None] while it is still waiting. *)
Fixpoint handshake (fuel : nat) (c : End) (line : list Z) (s : End) (toServer toClient : list Z) :
    res (option Next * option Next * End * End) :=
  match fuel with
  | O => Undef
  | S fuel =>
      let! r := connect_turn c line in
      let '(cn, out, c) := r in
      match GetLine (toServer ++ out) with
      | None => Ok (match cn with Continue => None | _ => Some cn end, None, c, s)
      | Some (sline, toServer) =>
          let! r := accept_turn s sline in
          let '(sn, out, s) := r in
          match cn, sn with
          | Continue, Continue =>
              match GetLine (toClient ++ out) with
              | None => Ok (None, None, c, s)
              | Some (line, toClient) => handshake fuel c line s toServer toClient
              end
          | _, _ => Ok (match cn with Continue => None | _ => Some cn end, match sn with Continue => None | _ => Some sn end, c, s)
          end
      end
  end.

Definition client_end (authMechanisms : list Z) (s : Side) : End :=
  (NewEngine RESPONDER authMechanisms [] (negb (isBusToBus s)), s).
Definition server_end (authMechanisms guidStr : list Z) (s : Side) : End :=
  (SetLocalId (NewEngine CHALLENGER authMechanisms [] true) guidStr, s).
