(* ===== verification/EndpointAuthProofs.v ===== *)
(** Establishing a connection (EndpointAuth.cc over SASLEngine.cc): two sides
    with a mechanism in common authenticate each other and agree on versions and
    on the passing of handles; what the filter of mechanisms leaves behind. *)
From stdpp Require Import strings sets.
From S2P Require Import Prelude Types BusUtil StrSet IPAddress StringUtil GUID SASL SASLProofs SASLSafety SASLLive EndpointAuth.

(** * Lines *)

(** Text without line breaks. *)
Definition clean (s : list Z) : Prop := Forall (fun c => c <> 13 /\ c <> 10) s.

#[export] Instance clean_dec s : Decision (clean s).
Proof. unfold clean. apply _. Defined.

Lemma clean_no_CR s : clean s -> no_CR s.
Proof. intros H. eapply Forall_impl; [exact H|]. by intros c [? _]. Qed.

Lemma clean_app s t : clean (s ++ t) <-> clean s /\ clean t.
Proof. apply Forall_app. Qed.

Lemma clean_after_space s : clean s -> clean (after_space s).
Proof. intros H. destruct s; [done|]. by constructor. Qed.

Lemma GetLine_clean s r : clean s -> GetLine (s ++ CRLF ++ r) = Some (s, r).
Proof.
  induction 1 as [|c s [H1 H2] _ IH]; [done|]. cbn [app GetLine].
  assert ((c =? 13) = false) as -> by lia. assert ((c =? 10) = false) as -> by lia. by rewrite IH.
Qed.

Lemma cmdStr_clean cmd : clean (cmdStr cmd).
Proof. destruct cmd; apply (bool_decide_unpack _); by vm_compute. Qed.

Lemma AsciiToHex_clean s : Forall is_byte s -> clean (AsciiToHex s).
Proof. intros H. eapply Forall_impl; [exact (AsciiToHex_chars s H)|]. cbv beta. lia. Qed.

(** ** Decimal numbers *)

Lemma decimal_spec n : 0 <= n -> exists k ds, decimal n = replicate k 32 ++ ds /\ text_of 10 n ds.
Proof.
  intros Hn. destruct (UToString_text n 10 1 32) as (k & ds & E & Ht & _); [lia..|].
  exists k, ds. unfold decimal, U32ToString. by rewrite E.
Qed.

Lemma decimal_chars n : 0 <= n -> Forall (fun c => c = 32 \/ 48 <= c <= 57) (decimal n).
Proof.
  intros Hn. destruct (decimal_spec n Hn) as (k & ds & -> & _ & Hd & _). apply Forall_app. split.
  - apply Forall_replicate. by left.
  - eapply Forall_impl; [exact Hd|]. intros c. cbn. unfold CharToU8. repeat case_match; lia.
Qed.

Lemma decimal_sendable n : 0 <= n -> sendable (decimal n) /\ decimal n <> [] /\ clean (decimal n).
Proof.
  intros Hn. pose proof (decimal_chars n Hn) as H. split_and!.
  - eapply Forall_impl; [exact H|]. cbn. lia.
  - destruct (decimal_spec n Hn) as (k & ds & -> & Hd & _). by intros [_ ?]%app_nil.
  - eapply Forall_impl; [exact H|]. cbn. lia.
Qed.

(** The number after an extension command is read back. *)
Lemma argument_decimal cmd n bad : 0 <= n < 2 ^ 32 -> argument cmd (cmd ++ space :: decimal n) bad = n.
Proof.
  intros Hn. unfold argument. rewrite drop_app_length.
  destruct (decimal_spec n ltac:(lia)) as (k & ds & -> & Ht).
  apply (StringToU_text 32 10 0 bad n (S k) 32 ds); (done || lia || by right).
Qed.

(** * Turns of the loops *)

Lemma connect_continue c line out e w : Advance c.1 line c.2 = Ok (ER_OK, out, e, w) ->
  authState e <> ALLJOYN_AUTH_SUCCESS -> connect_turn c line = Ok (Continue, out, (e, w)).
Proof. intros H Hs. unfold connect_turn. rewrite H. cbn [rbind]. by destruct (authState e). Qed.

Lemma accept_continue s line out e w : Advance s.1 line s.2 = Ok (ER_OK, out, e, w) ->
  authState e <> ALLJOYN_AUTH_SUCCESS -> accept_turn s line = Ok (Continue, out, (e, w)).
Proof. intros H Hs. unfold accept_turn. rewrite H. cbn [rbind]. by destruct (authState e). Qed.

Lemma handshake_turn f c line s cout c' sout s' :
  connect_turn c line = Ok (Continue, cout ++ CRLF, c') -> clean cout ->
  accept_turn s cout = Ok (Continue, sout ++ CRLF, s') -> clean sout ->
  handshake (S f) c line s [] [] = handshake f c' sout s' [] [].
Proof.
  intros Hc Hcc Hs Hsc. cbn [handshake]. rewrite Hc. cbn [rbind app].
  rewrite <- (app_nil_r CRLF), GetLine_clean by done. rewrite Hs. cbn [rbind app].
  by rewrite <- (app_nil_r CRLF), GetLine_clean by done.
Qed.

Lemma handshake_end f c line s cout c' n sout s' n' :
  connect_turn c line = Ok (Authenticated n, cout ++ CRLF, c') -> clean cout ->
  accept_turn s cout = Ok (Authenticated n', sout, s') ->
  handshake (S f) c line s [] [] = Ok (Some (Authenticated n), Some (Authenticated n'), c', s').
Proof.
  intros Hc Hcc Hs. cbn [handshake]. rewrite Hc. cbn [rbind app].
  rewrite <- (app_nil_r CRLF), GetLine_clean by done. by rewrite Hs.
Qed.

(** A client in a state, using a mechanism of a kind; a server likewise. *)
Definition client_in (st : AuthState) (k : MechKind) (ext : bool) (cnt : Z) (e : SASLEngine Mech) : Prop :=
  authRole e = RESPONDER /\ authState e = st /\ (exists m, authMechanism e = Some m /\ kind m = k) /\
  extHandler e = ext /\ localId e = [] /\ authCount e = cnt.

Definition server_in (st : AuthState) (k : option MechKind) (guidStr : list Z) (set : StrSet) (cnt : Z) (e : SASLEngine Mech) : Prop :=
  authRole e = CHALLENGER /\ authState e = st /\ kind <$> authMechanism e = k /\
  extHandler e = true /\ localId e = guidStr /\ authSet e = set /\ authCount e = cnt.

Lemma line_parse cmd r : cmd <> CMD_INVALID -> clean r -> ParseAuth (cmdStr cmd ++ r) = (cmd, r).
Proof.
  intros Hc Hr. pose proof (ParseAuth_line cmd r [] Hc (clean_no_CR r Hr) (or_introl eq_refl)) as H. by rewrite app_nil_r in H.
Qed.

Lemma foreign_parse s : foreign s -> clean s -> ParseAuth s = (CMD_INVALID, s).
Proof.
  intros Hf Hc. unfold ParseAuth. rewrite before_CRLF_id by (by apply clean_no_CR).
  unfold foreign in Hf. induction Hf as [|c l E _ IH]; [done|]. cbn. by rewrite E.
Qed.

(** ** Extension commands *)

Lemma client_ext e k cnt line w out w' : client_in ALLJOYN_WAIT_EXT_RESPONSE k true cnt e -> 0 <= cnt <= MAX_AUTH_COUNT ->
  foreign line -> clean line -> client_callout line w = (out, w') -> out <> [] ->
  exists e', connect_turn (e, w) line = Ok (Continue, out ++ CRLF, (e', w')) /\
    client_in ALLJOYN_WAIT_EXT_RESPONSE k true (cnt + 1) e' /\ remoteId e' = remoteId e.
Proof.
  intros (Hr & Hs & Hm & Hx & Hl & Hc) Hcnt Hf Hcl Hco Hn. exists (count_up e). split.
  - apply connect_continue; [|by cbn; rewrite Hs]. cbn [fst snd].
    rewrite (respond_line e line CMD_INVALID line w CMD_INVALID [] (out ++ CRLF) e w').
    + unfold finish_turn, compose_if_empty. rewrite Hs. by destruct out.
    + done.
    + by split; rewrite Hs.
    + by rewrite Hs.
    + lia.
    + by apply foreign_parse.
    + cbn [Response_switch]. unfold Response_default, ext_response. rewrite Hs, Hx, Hr.
      change (SASLCallout RESPONDER line w) with (client_callout line w). rewrite Hco. by destruct out.
  - split; [|done]. split_and!; try done. rewrite count_up_small by lia. by rewrite Hc.
Qed.

(** The end of the client: BEGIN without an identifier. *)
Definition BEGIN_line : list Z := cmdStr CMD_BEGIN.

Lemma compose_line cmd r : compose_if_empty [] cmd r = (cmdStr cmd ++ after_space r) ++ CRLF.
Proof. unfold compose_if_empty, ComposeAuth. cbn [after_space app]. by rewrite <- app_assoc. Qed.

Lemma connect_success c line out e w m k : Advance c.1 line c.2 = Ok (ER_OK, out, e, w) ->
  authState e = ALLJOYN_AUTH_SUCCESS -> authMechanism e = Some m -> kind m = k -> GUID.IsGUID (remoteId e) true = Ok true ->
  connect_turn c line = Ok (Authenticated (AuthName k), out, (e, w)).
Proof.
  intros H Hs Hm Hk Hg. unfold connect_turn. rewrite H. cbn [rbind]. rewrite Hs, Hg. cbn [rbind].
  unfold GetMechanismName. rewrite Hm. cbn. by rewrite Hk.
Qed.

Lemma client_ext_end e k cnt line w w' : client_in ALLJOYN_WAIT_EXT_RESPONSE k true cnt e -> 0 <= cnt <= MAX_AUTH_COUNT ->
  foreign line -> clean line -> client_callout line w = ([], w') -> GUID.IsGUID (remoteId e) true = Ok true ->
  exists e', connect_turn (e, w) line = Ok (Authenticated (AuthName k), BEGIN_line ++ CRLF, (e', w')) /\
    authState e' = ALLJOYN_AUTH_SUCCESS.
Proof.
  intros (Hr & Hs & (m & Hm & Hk) & Hx & Hl & Hc) Hcnt Hf Hcl Hco Hg.
  exists (count_up (with_mutual (SetState e ALLJOYN_AUTH_SUCCESS) true)).
  split; [apply (connect_success _ _ _ _ _ m k); [|done..]|done]. cbn [fst snd].
  rewrite (respond_line e line CMD_INVALID line w CMD_BEGIN [] [] (SetState e ALLJOYN_AUTH_SUCCESS) w').
  - rewrite compose_line. cbn [after_space]. rewrite app_nil_r. unfold finish_turn. cbn [authState SetState authMechanism]. by rewrite Hm.
  - done.
  - by split; rewrite Hs.
  - by rewrite Hs.
  - lia.
  - by apply foreign_parse.
  - cbn [Response_switch]. unfold Response_default, ext_response. rewrite Hs, Hx, Hr, Hl.
    change (SASLCallout RESPONDER line w) with (client_callout line w). by rewrite Hco.
Qed.

Definition OK_line (guidStr : list Z) : list Z := cmdStr CMD_OK ++ after_space guidStr.

Lemma client_OK e k ext cnt guidStr w : client_in ALLJOYN_WAIT_FOR_DATA k ext cnt e -> 0 <= cnt <= MAX_AUTH_COUNT -> clean guidStr ->
  Response_switch e CMD_OK (after_space guidStr) w =
    (let '(out, w) := if ext then client_callout [] w else ([], w) in
    Ok (match out with
        | [] => (ER_OK, CMD_BEGIN, [], [], SetState (with_remoteId e guidStr) ALLJOYN_AUTH_SUCCESS, w)
        | _ => (ER_OK, CMD_OK, [], out ++ CRLF, SetState (with_remoteId e guidStr) ALLJOYN_WAIT_EXT_RESPONSE, w)
        end)) /\
  ParseAuth (OK_line guidStr) = (CMD_OK, after_space guidStr).
Proof.
  intros (Hr & Hs & Hm & Hx & Hl & Hc) Hcnt Hg. split; [|apply line_parse; [done|by apply clean_after_space]].
  cbn [Response_switch]. unfold Response_OK. rewrite Hs, drop_after_space.
  change (extHandler (with_remoteId e guidStr)) with (extHandler e). change (authRole (with_remoteId e guidStr)) with (authRole e).
  change (localId (with_remoteId e guidStr)) with (localId e). rewrite Hx, Hr, Hl.
  change (SASLCallout RESPONDER [] w) with (client_callout [] w). destruct ext; [|done].
  destruct (client_callout [] w) as [[|? ?] w']; done.
Qed.

Lemma client_OK_end e k ext cnt guidStr w : client_in ALLJOYN_WAIT_FOR_DATA k ext cnt e -> 0 <= cnt <= MAX_AUTH_COUNT -> clean guidStr ->
  ext && handlePassing w = false -> GUID.IsGUID guidStr true = Ok true ->
  exists e', connect_turn (e, w) (OK_line guidStr) = Ok (Authenticated (AuthName k), BEGIN_line ++ CRLF, (e', w)) /\
    authState e' = ALLJOYN_AUTH_SUCCESS.
Proof.
  intros Hin Hcnt Hcl Hh Hg. destruct (client_OK e k ext cnt guidStr w Hin Hcnt Hcl) as [Ht Hp].
  destruct Hin as (Hr & Hs & (m & Hm & Hk) & Hx & Hl & Hc).
  assert ((if ext then client_callout [] w else ([], w)) = ([], w)) as E.
  { destruct ext; [|done]. unfold client_callout. cbn in Hh. rewrite Hh. done. }
  rewrite E in Ht. exists (count_up (with_mutual (SetState (with_remoteId e guidStr) ALLJOYN_AUTH_SUCCESS) true)).
  split; [apply (connect_success _ _ _ _ _ m k); [|done..]|done]. cbn [fst snd].
  erewrite (respond_line e); [|done|by split; rewrite Hs|by rewrite Hs|lia|exact Hp|exact Ht].
  rewrite compose_line. cbn [after_space]. rewrite app_nil_r. unfold finish_turn. cbn [authState SetState authMechanism with_remoteId].
  by rewrite Hm.
Qed.

Lemma client_OK_ext e k cnt guidStr w : client_in ALLJOYN_WAIT_FOR_DATA k true cnt e -> 0 <= cnt <= MAX_AUTH_COUNT -> clean guidStr ->
  handlePassing w = true ->
  exists e', connect_turn (e, w) (OK_line guidStr) = Ok (Continue, NegotiateUnixFd ++ CRLF, (e', with_handles w false (processId w))) /\
    client_in ALLJOYN_WAIT_EXT_RESPONSE k true (cnt + 1) e' /\ remoteId e' = guidStr.
Proof.
  intros Hin Hcnt Hcl Hh. destruct (client_OK e k true cnt guidStr w Hin Hcnt Hcl) as [Ht Hp].
  destruct Hin as (Hr & Hs & Hm & Hx & Hl & Hc).
  assert (client_callout [] w = (NegotiateUnixFd, with_handles w false (processId w))) as E.
  { unfold client_callout. by rewrite Hh. }
  rewrite E in Ht. exists (count_up (SetState (with_remoteId e guidStr) ALLJOYN_WAIT_EXT_RESPONSE)). split.
  - apply connect_continue; [|done]. cbn [fst snd].
    by rewrite (respond_line e _ _ _ _ _ _ _ _ _ Hr ltac:(split; by rewrite Hs) ltac:(by rewrite Hs) ltac:(lia) Hp Ht).
  - split; [|done]. split_and!; try done. rewrite count_up_small by (cbn; lia). cbn. by rewrite Hc.
Qed.

(** ** The server *)

Lemma server_ext e k g set cnt line w out w' : server_in ALLJOYN_WAIT_FOR_BEGIN (Some k) g set cnt e -> 0 <= cnt <= MAX_AUTH_COUNT ->
  foreign line -> clean line -> server_callout line w = (out, w') -> out <> [] ->
  exists e', accept_turn (e, w) line = Ok (Continue, out ++ CRLF, (e', w')) /\
    server_in ALLJOYN_WAIT_FOR_BEGIN (Some k) g set (cnt + 1) e'.
Proof.
  intros (Hr & Hs & Hm & Hx & Hl & Hset & Hc) Hcnt Hf Hcl Hco Hn. exists (count_up e). split.
  - apply accept_continue; [|by cbn; rewrite Hs]. cbn [fst snd].
    rewrite (challenge_line e line CMD_INVALID line w CMD_INVALID [] (out ++ CRLF) e w').
    + unfold finish_turn, compose_if_empty. rewrite Hs. by destruct out.
    + done.
    + by split; rewrite Hs.
    + lia.
    + by apply foreign_parse.
    + cbn [Challenge_switch]. unfold Challenge_default. rewrite Hs, Hx, Hr. cbn [andb bool_decide].
      change (SASLCallout CHALLENGER line w) with (server_callout line w).
      rewrite bool_decide_eq_true_2 by done. rewrite Hco. by destruct out.
  - split_and!; try done. rewrite count_up_small by lia. by rewrite Hc.
Qed.

Lemma server_begin e k g set cnt w : server_in ALLJOYN_WAIT_FOR_BEGIN (Some k) g set cnt e -> 0 <= cnt <= MAX_AUTH_COUNT ->
  exists e' out, accept_turn (e, w) BEGIN_line = Ok (Authenticated (AuthName k), out, (e', w)) /\ authState e' = ALLJOYN_AUTH_SUCCESS.
Proof.
  intros (Hr & Hs & Hm & Hx & Hl & Hset & Hc) Hcnt. destruct (authMechanism e) as [m|] eqn:Em; [|done]. injection Hm as Hk.
  exists (count_up (with_mutual (SetState (with_remoteId e []) ALLJOYN_AUTH_SUCCESS) true)). eexists.
  split; [|done]. unfold accept_turn. cbn [fst snd].
  rewrite (challenge_line e BEGIN_line CMD_BEGIN [] w CMD_BEGIN [] [] (SetState (with_remoteId e []) ALLJOYN_AUTH_SUCCESS) w); try done.
  - unfold finish_turn. cbn [authState SetState authMechanism with_remoteId]. rewrite Em. cbn [rbind authState count_up with_mutual SetState].
    unfold GetMechanismName. cbn. rewrite Em. cbn. by rewrite Hk.
  - by split; rewrite Hs.
  - lia.
  - cbn [Challenge_switch]. unfold Challenge_BEGIN. by rewrite Hs.
Qed.

(** ** The AUTH command *)

(** Factories are registered under the names of their mechanisms. *)
Definition registered_ok (am : AuthMechFactoryMap MechKind) : Prop :=
  forall n k, find_factory n am = Some k -> n = AuthName k.

Definition initial_response (k : MechKind) (w : Side) : list Z :=
  match k with AuthMechAnonymous => [] | AuthMechExternal => decimal (GetUid w) end.

Definition AUTH_line (k : MechKind) (w : Side) : list Z :=
  cmdStr CMD_AUTH ++ after_space (AuthName k) ++ after_space (AsciiToHex (initial_response k w)).

Lemma AuthName_ok k : name_ok (AuthName k) /\ clean (AuthName k).
Proof. destruct k; split; apply (bool_decide_unpack _); by vm_compute. Qed.

Lemma AuthName_inj k k' : AuthName k = AuthName k' -> k = k'.
Proof. by destruct k, k'. Qed.

Lemma initial_response_ok k w : 0 <= GetUid w -> sendable (initial_response k w).
Proof. intros H. destruct k; [constructor|]. by apply decimal_sendable. Qed.

Lemma AUTH_line_clean k w : 0 <= GetUid w -> clean (AUTH_line k w).
Proof.
  intros H. unfold AUTH_line. rewrite !clean_app. split_and!; [apply cmdStr_clean|apply clean_after_space, AuthName_ok|].
  by apply clean_after_space, AsciiToHex_clean, sendable_bytes, initial_response_ok.
Qed.

Lemma AUTH_line_parse k w : 0 <= GetUid w ->
  ParseAuth (AUTH_line k w) = (CMD_AUTH, after_space (AuthName k) ++ after_space (AsciiToHex (initial_response k w))).
Proof.
  intros H. apply line_parse; [done|]. pose proof (AUTH_line_clean k w H) as Hc. unfold AUTH_line in Hc.
  by apply clean_app in Hc as [_ Hc].
Qed.

Lemma server_AUTH e g set cnt k wc w : server_in ALLJOYN_WAIT_FOR_AUTH None g set cnt e -> 0 <= cnt <= MAX_AUTH_COUNT ->
  0 <= GetUid wc -> AuthName k ∈ set -> find_factory (AuthName k) (authManager w) = Some k ->
  exists e', accept_turn (e, w) (AUTH_line k wc) = Ok (Continue, OK_line g ++ CRLF, (e', w)) /\
    server_in ALLJOYN_WAIT_FOR_BEGIN (Some k) g set (cnt + 1) e'.
Proof.
  intros (Hr & Hs & Hm & Hx & Hl & Hset & Hc) Hcnt Hu Hin Hf. destruct (authMechanism e) eqn:Em; [done|].
  set (m := {| kind := k; mechCount := 1; mechRole := Some (authRole e); mechPeer := authPeer e |}).
  exists (count_up (SetState (with_mechanism e (Some m)) ALLJOYN_WAIT_FOR_BEGIN)). split.
  - apply accept_continue; [|done]. cbn [fst snd].
    rewrite (challenge_line e (AUTH_line k wc) CMD_AUTH (after_space (AuthName k) ++ after_space (AsciiToHex (initial_response k wc))) w
               CMD_OK g [] (SetState (with_mechanism e (Some m)) ALLJOYN_WAIT_FOR_BEGIN) w).
    + unfold finish_turn. rewrite compose_line. done.
    + done.
    + by split; rewrite Hs.
    + lia.
    + by apply AUTH_line_parse.
    + cbn [Challenge_switch]. rewrite <- Hset in Hin.
      rewrite (Challenge_AUTH_step e (AuthName k) (initial_response k wc) w (Factory k) w m w [] ALLJOYN_AUTH_OK m w); try done.
      * cbn [challenge_result]. by rewrite <- Hl.
      * apply AuthName_ok.
      * by apply initial_response_ok.
      * unfold GetMechanism, Mech_Factory. by rewrite Hf.
      * unfold first_challenge. by destruct (initial_response k wc).
  - split_and!; try done. rewrite count_up_small by (cbn; lia). cbn. by rewrite Hc.
Qed.

Definition REJECTED_line (set : StrSet) : list Z := cmdStr CMD_REJECTED ++ after_space (ExpandAuthNames set).

Lemma server_reject e g set cnt k wc w : server_in ALLJOYN_WAIT_FOR_AUTH None g set cnt e -> 0 <= cnt <= MAX_AUTH_COUNT ->
  0 <= GetUid wc -> AuthName k ∉ set ->
  exists e', accept_turn (e, w) (AUTH_line k wc) = Ok (Continue, REJECTED_line set ++ CRLF, (e', w)) /\
    server_in ALLJOYN_WAIT_FOR_AUTH None g set (cnt + 1) e'.
Proof.
  intros (Hr & Hs & Hm & Hx & Hl & Hset & Hc) Hcnt Hu Hin. exists (count_up e). split.
  - apply accept_continue; [|by cbn; rewrite Hs]. cbn [fst snd].
    rewrite (challenge_line e (AUTH_line k wc) CMD_AUTH (after_space (AuthName k) ++ after_space (AsciiToHex (initial_response k wc))) w
               CMD_REJECTED (ExpandAuthNames set) [] e w).
    + unfold finish_turn. rewrite compose_line, Hs. done.
    + done.
    + by split; rewrite Hs.
    + lia.
    + by apply AUTH_line_parse.
    + cbn [Challenge_switch]. unfold Challenge_AUTH. rewrite Hs.
      destruct (AUTH_arguments (AuthName k) (initial_response k wc)) as (-> & -> & E); [apply AuthName_ok|by apply initial_response_ok|].
      cbn [rbind]. rewrite E. unfold set_count. rewrite bool_decide_eq_false_2 by (by rewrite Hset). cbn [negb].
      unfold rejected. by rewrite Hset.
  - split_and!; try done. rewrite count_up_small by lia. by rewrite Hc.
Qed.

(** ** Choosing a mechanism *)

(** The first name of the set that is registered, and what is after it. *)
Fixpoint pick (am : AuthMechFactoryMap MechKind) (set : StrSet) : option (MechKind * StrSet) :=
  match set with
  | [] => None
  | n :: set => match find_factory n am with Some k => Some (k, set) | None => pick am set end
  end.

Lemma pick_some am set n k : n ∈ set -> find_factory n am = Some k -> exists k' rest, pick am set = Some (k', rest).
Proof.
  induction set as [|x set IH]; intros Hin Hf; [by apply not_elem_of_nil in Hin|]. cbn.
  destruct (find_factory x am) as [k'|] eqn:E; [by eauto|]. apply elem_of_cons in Hin as [->|Hin]; [congruence|]. by apply IH.
Qed.

Lemma pick_in am set k rest : registered_ok am -> pick am set = Some (k, rest) ->
  AuthName k ∈ set /\ find_factory (AuthName k) am = Some k /\
  forall n k', n ∈ set -> find_factory n am = Some k' -> n = AuthName k \/ n ∈ rest.
Proof.
  intros Ha. induction set as [|x set IH]; [done|]. cbn. destruct (find_factory x am) as [k1|] eqn:E.
  - intros [= -> ->]. pose proof (Ha _ _ E) as ->. split_and!; [left|done|].
    intros n k' [->|?]%elem_of_cons _; [by left|by right].
  - intros Hp. destruct (IH Hp) as (H1 & H2 & H3). split_and!; [by right|done|].
    intros n k' [->|?]%elem_of_cons Hf; [congruence|]. by eapply H3.
Qed.

Lemma pick_rest am set k rest n : pick am set = Some (k, rest) -> n ∈ rest -> n ∈ set.
Proof.
  induction set as [|x set IH]; [done|]. cbn. destruct (find_factory x am); [|intros; right; by apply IH].
  intros [= -> ->] ?. by right.
Qed.

Lemma new_auth_loop_pick e set w : registered_ok (authManager w) ->
  new_auth_loop e None set w =
  match pick (authManager w) set with
  | Some (k, rest) =>
      (ER_OK, AUTH_line k w ++ CRLF,
       SetState (with_mechanism (with_authSet e rest)
         (Some {| kind := k; mechCount := 1; mechRole := Some (authRole e); mechPeer := authPeer e |})) ALLJOYN_WAIT_FOR_DATA, w)
  | None => (ER_AUTH_FAIL, [], with_mechanism (with_authSet e []) None, w)
  end.
Proof.
  intros Ha. induction set as [|n set IH]; [done|]. cbn [new_auth_loop pick].
  change (GetMechanism n w) with (Factory <$> find_factory n (authManager w), w).
  destruct (find_factory n (authManager w)) as [k|] eqn:E; cbn [fmap option_fmap option_map]; [|exact IH].
  clear IH. destruct set; cbn [new_auth_loop]; unfold try_mechanism; by destruct k.
Qed.

(** The first request of a client. *)
Lemma client_start cm w k rest : registered_ok (authManager w) -> pick (authManager w) (ParseAuthNames [] cm) = Some (k, rest) ->
  exists e, connect_turn (client_end cm w) [] = Ok (Continue, AUTH_line k w ++ CRLF, (e, w)) /\
    client_in ALLJOYN_WAIT_FOR_DATA k (negb (isBusToBus w)) 1 e /\ authSet e = rest.
Proof.
  intros Ha Hp. set (e0 := (client_end cm w).1).
  assert (sorted_set (authSet e0) /\ Forall name_ok (authSet e0)) as [Hs Hn] by (apply ParseAuthNames_wf; constructor).
  set (e1 := SetState (with_mechanism (with_authSet e0 rest)
         (Some {| kind := k; mechCount := 1; mechRole := Some RESPONDER; mechPeer := [] |})) ALLJOYN_WAIT_FOR_DATA).
  assert (Response_REJECTED e0 (space :: ExpandAuthNames (authSet e0)) w = (ER_OK, CMD_REJECTED, [], AUTH_line k w ++ CRLF, e1, w)) as Ht.
  { unfold Response_REJECTED. change (authMechanism e0) with (@None Mech). cbv iota zeta. rewrite filter_own_names by done.
    unfold NewAuthRequest. change (authMechanism (with_authSet e0 (authSet e0))) with (@None Mech).
    change (authSet (with_authSet e0 (authSet e0))) with (ParseAuthNames [] cm). cbv iota. by rewrite new_auth_loop_pick, Hp by done. }
  exists (count_up e1). split; [|by unfold client_in; split_and!; eauto].
  apply connect_continue; [|done]. exact (respond_start e0 [] w _ _ _ _ _ eq_refl eq_refl ltac:(done) Ht).
Qed.

(** What is left of the set when the server lists other names: the current
    mechanism is dropped and the next one is chosen among those the server has. *)
Lemma client_rejected e k cnt ext w set k2 rest2 : client_in ALLJOYN_WAIT_FOR_DATA k ext cnt e -> 0 <= cnt <= MAX_AUTH_COUNT ->
  registered_ok (authManager w) -> sorted_set set -> Forall name_ok set -> clean (ExpandAuthNames set) -> AuthName k ∉ set ->
  pick (authManager w) (filter (fun n => Is_true (set_count n set)) (set_insert (AuthName k) (authSet e))) = Some (k2, rest2) ->
  exists e', connect_turn (e, w) (REJECTED_line set) = Ok (Continue, AUTH_line k2 w ++ CRLF, (e', w)) /\
    client_in ALLJOYN_WAIT_FOR_DATA k2 ext (cnt + 1) e'.
Proof.
  intros (Hr & Hs & (m & Hm & Hk) & Hx & Hl & Hc) Hcnt Ha Hsrt Hn Hcl Hnot Hp.
  set (e1 := SetState (with_mechanism (with_authSet e rest2)
         (Some {| kind := k2; mechCount := 1; mechRole := Some (authRole e); mechPeer := authPeer e |})) ALLJOYN_WAIT_FOR_DATA).
  assert (ParseAuthNames [] (after_space (ExpandAuthNames set)) = set) as Hset.
  { destruct (ParseAuthNames_roundtrip set Hsrt Hn) as [H1 H2]. destruct (ExpandAuthNames set) eqn:E; [|exact H2]. by rewrite <- H1. }
  assert (Response_switch e CMD_REJECTED (after_space (ExpandAuthNames set)) w = Ok (ER_OK, CMD_REJECTED, [], AUTH_line k2 w ++ CRLF, e1, w)) as Ht.
  { cbn [Response_switch]. unfold Response_REJECTED. rewrite Hm, Hs. rewrite bool_decide_eq_true_2 by done. cbv zeta. rewrite Hset.
    change (GetName m) with (AuthName (kind m)). rewrite Hk. unfold NewAuthRequest.
    set (set' := filter _ _) in *. change (authMechanism (with_authSet e set')) with (authMechanism e). rewrite Hm.
    change (GetName m) with (AuthName (kind m)). rewrite Hk. change (authSet (with_authSet e set')) with set'.
    assert (set_count (AuthName k) set' = false) as ->.
    { apply bool_decide_eq_false_2. intros Hin. apply list_elem_of_filter in Hin as [Hin _]. by apply bool_decide_unpack in Hin. }
    rewrite new_auth_loop_pick by done. by rewrite Hp. }
  exists (count_up e1). split.
  - apply connect_continue; [|done]. cbn [fst snd].
    assert (ParseAuth (REJECTED_line set) = (CMD_REJECTED, after_space (ExpandAuthNames set))) as Hpa
      by (apply line_parse; [done|by apply clean_after_space]).
    rewrite (respond_line e _ _ _ _ _ _ _ _ _ Hr ltac:(split; by rewrite Hs) ltac:(by rewrite Hs) ltac:(lia) Hpa Ht). done.
  - unfold client_in. split_and!; try done; [by eauto|]. rewrite count_up_small by (cbn; lia). cbn. by rewrite Hc.
Qed.

(** * The handshake *)

Lemma foreign_ext lit n : foreign lit -> (8 <= length lit)%nat -> foreign (lit ++ space :: decimal n).
Proof.
  unfold foreign. intros Hf Hl. eapply Forall_impl; [exact Hf|]. intros cmd. cbv beta. unfold has_prefix.
  rewrite take_app_le; [done|]. destruct cmd; cbn; lia.
Qed.

Lemma clean_ext lit n : clean lit -> 0 <= n -> clean (lit ++ space :: decimal n).
Proof.
  intros Hl Hn. apply clean_app. split; [done|]. constructor; [done|]. by apply decimal_sendable.
Qed.

(** The versions the extension commands settle. *)
Definition agreed (wc ws : Side) : Side * Side :=
  let v := Z.min (GetNumericVersion wc) (GetNumericVersion ws) in
  (with_protocol (with_ajVersion (with_handles (with_handles wc false (processId wc)) true minus_one) v) ALLJOYN_PROTOCOL_VERSION,
   with_protocol (with_ajVersion (with_handles ws true minus_one) v) ALLJOYN_PROTOCOL_VERSION).

Lemma ext_words :
  clean NegotiateUnixFd /\ clean AgreeUnixFd /\ clean NegotiateVersion /\ clean AgreeVersion /\ clean InformProtocolVersion /\
  foreign NegotiateUnixFd /\ foreign AgreeUnixFd /\ foreign NegotiateVersion /\ foreign AgreeVersion /\ foreign InformProtocolVersion.
Proof. split_and!; apply (bool_decide_unpack _); by vm_compute. Qed.

Section Callouts.
Variables wc ws : Side.
Hypothesis Hvc : 0 <= GetNumericVersion wc < 2 ^ 32.
Hypothesis Hvs : 0 <= GetNumericVersion ws < 2 ^ 32.
Let v := Z.min (GetNumericVersion wc) (GetNumericVersion ws).

Lemma callout1 : server_callout NegotiateUnixFd ws = (AgreeUnixFd, with_handles ws true minus_one).
Proof. reflexivity. Qed.

Lemma callout2 w : client_callout AgreeUnixFd w = (NegotiateVersion ++ space :: decimal (GetNumericVersion w), with_handles w true minus_one).
Proof. reflexivity. Qed.

Lemma callout3 w : GetNumericVersion w = GetNumericVersion ws ->
  server_callout (NegotiateVersion ++ space :: decimal (GetNumericVersion wc)) w = (AgreeVersion ++ space :: decimal v, with_ajVersion w v).
Proof.
  intros Hw. unfold server_callout. rewrite has_prefix_app, argument_decimal by done. rewrite Hw. fold v.
  by assert (has_prefix NegotiateUnixFd (NegotiateVersion ++ space :: decimal (GetNumericVersion wc)) = false) as -> by reflexivity.
Qed.

Lemma callout4 w : client_callout (AgreeVersion ++ space :: decimal v) w =
  (InformProtocolVersion ++ space :: decimal ALLJOYN_PROTOCOL_VERSION, with_ajVersion w v).
Proof.
  unfold client_callout. rewrite has_prefix_app, argument_decimal by lia.
  by assert (has_prefix AgreeUnixFd (AgreeVersion ++ space :: decimal v) = false) as -> by reflexivity.
Qed.

Lemma callout5 w : server_callout (InformProtocolVersion ++ space :: decimal ALLJOYN_PROTOCOL_VERSION) w =
  (InformProtocolVersion ++ space :: decimal ALLJOYN_PROTOCOL_VERSION, with_protocol w ALLJOYN_PROTOCOL_VERSION).
Proof. reflexivity. Qed.

Lemma callout6 w : client_callout (InformProtocolVersion ++ space :: decimal ALLJOYN_PROTOCOL_VERSION) w =
  ([], with_protocol w ALLJOYN_PROTOCOL_VERSION).
Proof. reflexivity. Qed.

(** The three rounds of extension commands. *)
Lemma handshake_ext f e ec k cnt scnt g set :
  client_in ALLJOYN_WAIT_FOR_DATA k true cnt e -> server_in ALLJOYN_WAIT_FOR_BEGIN (Some k) g set scnt ec ->
  0 <= cnt <= 10 -> 0 <= scnt <= 10 -> clean g -> handlePassing wc = true ->
  exists e' ec', handshake (4 + f) (e, wc) (OK_line g) (ec, ws) [] [] =
    handshake (1 + f) (e', with_ajVersion (with_handles (with_handles wc false (processId wc)) true minus_one) v)
      (InformProtocolVersion ++ space :: decimal ALLJOYN_PROTOCOL_VERSION)
      (ec', with_protocol (with_ajVersion (with_handles ws true minus_one) v) ALLJOYN_PROTOCOL_VERSION) [] [] /\
    client_in ALLJOYN_WAIT_EXT_RESPONSE k true (cnt + 1 + 1 + 1) e' /\ remoteId e' = g /\
    server_in ALLJOYN_WAIT_FOR_BEGIN (Some k) g set (scnt + 1 + 1 + 1) ec'.
Proof.
  intros Hc Hs Hcnt Hscnt Hg Hh. unfold MAX_AUTH_COUNT in *. assert (0 <= v) as Hv by (subst v; lia).
  destruct ext_words as (Hk1 & Hk2 & Hk3 & Hk4 & Hk5 & Hf1 & Hf2 & Hf3 & Hf4 & Hf5).
  pose proof (foreign_ext NegotiateVersion (GetNumericVersion wc) Hf3 ltac:(cbn; lia)) as G3.
  pose proof (foreign_ext AgreeVersion v Hf4 ltac:(cbn; lia)) as G4.
  pose proof (foreign_ext InformProtocolVersion ALLJOYN_PROTOCOL_VERSION Hf5 ltac:(cbn; lia)) as G5.
  pose proof (clean_ext NegotiateVersion (GetNumericVersion wc) Hk3 ltac:(lia)) as C3.
  pose proof (clean_ext AgreeVersion v Hk4 Hv) as C4.
  pose proof (clean_ext InformProtocolVersion ALLJOYN_PROTOCOL_VERSION Hk5 ltac:(done)) as C5.
  destruct (client_OK_ext e k cnt g wc Hc) as (e1 & E1 & Hc1 & Hr1); [unfold MAX_AUTH_COUNT; lia|done..|].
  destruct (server_ext ec k g set scnt _ ws _ _ Hs ltac:(unfold MAX_AUTH_COUNT; lia) Hf1 Hk1 callout1 ltac:(done)) as (s1 & F1 & Hs1).
  change (4 + f)%nat with (S (3 + f)). rewrite (handshake_turn (3 + f) _ _ _ _ _ _ _ E1 Hk1 F1 Hk2).
  destruct (client_ext e1 k _ _ _ _ _ Hc1 ltac:(unfold MAX_AUTH_COUNT; lia) Hf2 Hk2 (callout2 (with_handles wc false (processId wc))) ltac:(done))
    as (e2 & E2 & Hc2 & Hr2).
  destruct (server_ext s1 k g set _ _ _ _ _ Hs1 ltac:(unfold MAX_AUTH_COUNT; lia) G3 C3 (callout3 (with_handles ws true minus_one) eq_refl) ltac:(done))
    as (s2 & F2 & Hs2).
  change (3 + f)%nat with (S (2 + f)). rewrite (handshake_turn (2 + f) _ _ _ _ _ _ _ E2 C3 F2 C4).
  destruct (client_ext e2 k _ _ _ _ _ Hc2 ltac:(unfold MAX_AUTH_COUNT; lia) G4 C4
    (callout4 (with_handles (with_handles wc false (processId wc)) true minus_one)) ltac:(done)) as (e3 & E3 & Hc3 & Hr3).
  destruct (server_ext s2 k g set _ _ _ _ _ Hs2 ltac:(unfold MAX_AUTH_COUNT; lia) G5 C5
    (callout5 (with_ajVersion (with_handles ws true minus_one) v)) ltac:(done)) as (s3 & F3 & Hs3).
  change (2 + f)%nat with (S (1 + f)). rewrite (handshake_turn (1 + f) _ _ _ _ _ _ _ E3 C5 F3 C5).
  exists e3, s3. split_and!; [done|done| |done]. by rewrite Hr3, Hr2, Hr1.
Qed.

(** From the OK of the server to the end. *)
Lemma handshake_tail f e ec k ext cnt scnt g set :
  client_in ALLJOYN_WAIT_FOR_DATA k ext cnt e -> server_in ALLJOYN_WAIT_FOR_BEGIN (Some k) g set scnt ec ->
  0 <= cnt <= 10 -> 0 <= scnt <= 10 -> clean g -> GUID.IsGUID g true = Ok true ->
  exists e' ec' wc' ws', handshake (4 + f) (e, wc) (OK_line g) (ec, ws) [] [] =
    Ok (Some (Authenticated (AuthName k)), Some (Authenticated (AuthName k)), (e', wc'), (ec', ws')) /\
    authState e' = ALLJOYN_AUTH_SUCCESS /\ authState ec' = ALLJOYN_AUTH_SUCCESS /\
    (wc', ws') = if ext && handlePassing wc then agreed wc ws else (wc, ws).
Proof.
  intros Hc Hs Hcnt Hscnt Hg HG. assert (clean BEGIN_line) as HB by apply cmdStr_clean.
  destruct (ext && handlePassing wc) eqn:Eh.
  2: { destruct (client_OK_end e k ext cnt g wc Hc) as (e' & E1 & ?); [unfold MAX_AUTH_COUNT; lia|done..|].
       destruct (server_begin ec k g set scnt ws Hs) as (ec' & out & E2 & ?); [unfold MAX_AUTH_COUNT; lia|].
       exists e', ec', wc, ws. split; [by eapply handshake_end|done]. }
  apply andb_prop in Eh as [-> Hh].
  destruct (handshake_ext f e ec k cnt scnt g set Hc Hs Hcnt Hscnt Hg Hh) as (e3 & s3 & -> & Hc3 & Hr3 & Hs3).
  destruct ext_words as (_ & _ & _ & _ & Hk5 & _ & _ & _ & _ & Hf5).
  pose proof (foreign_ext InformProtocolVersion ALLJOYN_PROTOCOL_VERSION Hf5 ltac:(cbn; lia)) as G5.
  pose proof (clean_ext InformProtocolVersion ALLJOYN_PROTOCOL_VERSION Hk5 ltac:(done)) as C5.
  destruct (client_ext_end e3 k _ _ _ _ Hc3 ltac:(unfold MAX_AUTH_COUNT; lia) G5 C5
    (callout6 (with_ajVersion (with_handles (with_handles wc false (processId wc)) true minus_one) v)) ltac:(by rewrite Hr3)) as (e4 & E4 & ?).
  destruct (server_begin s3 k g set _ (with_protocol (with_ajVersion (with_handles ws true minus_one) v) ALLJOYN_PROTOCOL_VERSION) Hs3)
    as (s4 & out & F4 & ?); [unfold MAX_AUTH_COUNT; lia|].
  exists e4, s4. do 2 eexists. split; [exact (handshake_end f _ _ _ _ _ _ _ _ _ E4 HB F4)|done].
Qed.
End Callouts.

Lemma Expand_clean set : Forall clean set -> clean (ExpandAuthNames set).
Proof.
  induction 1 as [|n set Hn Hs IH]; [constructor|]. destruct set as [|n' set]; [done|].
  change (ExpandAuthNames (n :: n' :: set)) with (n ++ space :: ExpandAuthNames (n' :: set)).
  apply clean_app. split; [done|]. by constructor.
Qed.

Lemma server_fresh sm g : server_in ALLJOYN_WAIT_FOR_AUTH None g (ParseAuthNames [] sm) 0 (SetLocalId (NewEngine CHALLENGER sm [] true) g).
Proof. by split_and!. Qed.

Section Establish.
Variables (cm sm g : list Z) (wc ws : Side).
Hypothesis Hrc : registered_ok (authManager wc).
Hypothesis Hrs : registered_ok (authManager ws).
Hypothesis Hall : forall x, x ∈ ParseAuthNames [] sm -> is_Some (find_factory x (authManager ws)).
Hypothesis Hu : 0 <= GetUid wc.

Lemma server_names k : AuthName k ∈ ParseAuthNames [] sm -> find_factory (AuthName k) (authManager ws) = Some k.
Proof.
  intros Hin. destruct (Hall _ Hin) as [k' E]. pose proof (Hrs _ _ E) as En. apply AuthName_inj in En. by subst.
Qed.

Lemma server_names_clean : clean (ExpandAuthNames (ParseAuthNames [] sm)).
Proof.
  apply Expand_clean, Forall_forall. intros x Hx. destruct (Hall _ Hx) as [k E]. rewrite (Hrs _ _ E). apply AuthName_ok.
Qed.

(** Until the OK of the server: at most one mechanism is refused. *)
Lemma handshake_head f n kc : n ∈ ParseAuthNames [] cm -> n ∈ ParseAuthNames [] sm -> find_factory n (authManager wc) = Some kc ->
  clean g ->
  exists k e ec cnt scnt f', handshake (2 + f) (client_end cm wc) [] (server_end sm g ws) [] [] =
      handshake f' (e, wc) (OK_line g) (ec, ws) [] [] /\ (f <= f')%nat /\
    client_in ALLJOYN_WAIT_FOR_DATA k (negb (isBusToBus wc)) cnt e /\
    server_in ALLJOYN_WAIT_FOR_BEGIN (Some k) g (ParseAuthNames [] sm) scnt ec /\ 0 <= cnt <= 10 /\ 0 <= scnt <= 10 /\
    AuthName k ∈ ParseAuthNames [] cm /\ AuthName k ∈ ParseAuthNames [] sm.
Proof.
  intros Hnc Hns Hf Hg. destruct (pick_some _ _ _ _ Hnc Hf) as (k1 & rest & Hp). unfold MAX_AUTH_COUNT in *.
  destruct (pick_in _ _ _ _ Hrc Hp) as (Hk1 & _ & Hrest).
  destruct (client_start cm wc k1 rest Hrc Hp) as (e1 & E1 & Hc1 & Hset). change (2 + f)%nat with (S (1 + f)).
  pose proof (server_fresh sm g) as Hs0. unfold server_end.
  assert (clean (OK_line g)) as Hok by (apply clean_app; split; [apply cmdStr_clean|by apply clean_after_space]).
  destruct (decide (AuthName k1 ∈ ParseAuthNames [] sm)) as [Hin|Hout].
  - destruct (server_AUTH _ g _ _ k1 wc ws Hs0 ltac:(done) Hu Hin (server_names k1 Hin)) as (s1 & F1 & Hs1).
    exists k1, e1, s1, 1, 1, (1 + f)%nat. split_and!; try done; try lia.
    exact (handshake_turn (1 + f) _ _ _ _ _ _ _ E1 (AUTH_line_clean k1 wc Hu) F1 Hok).
  - destruct (server_reject _ g _ _ k1 wc ws Hs0 ltac:(done) Hu Hout) as (s1 & F1 & Hs1).
    assert (clean (REJECTED_line (ParseAuthNames [] sm))) as Hrj.
    { apply clean_app. split; [apply cmdStr_clean|apply clean_after_space, server_names_clean]. }
    rewrite (handshake_turn (1 + f) _ _ _ _ _ _ _ E1 (AUTH_line_clean k1 wc Hu) F1 Hrj).
    set (set' := filter (fun n => Is_true (set_count n (ParseAuthNames [] sm))) (set_insert (AuthName k1) (authSet e1))).
    assert (n ∈ set') as Hn'.
    { apply list_elem_of_filter. split; [by apply bool_decide_pack|]. apply elem_of_set_insert. right. rewrite Hset.
      destruct (Hrest n kc Hnc Hf) as [->|?]; done. }
    destruct (pick_some _ _ _ _ Hn' Hf) as (k2 & rest2 & Hp2). destruct (pick_in _ _ _ _ Hrc Hp2) as (Hk2 & _ & _).
    apply list_elem_of_filter in Hk2 as [Hk2%bool_decide_unpack Hk2'].
    destruct (ParseAuthNames_wf [] sm) as [Hsrt Hnm]; [constructor..|].
    destruct (client_rejected e1 k1 1 _ wc _ k2 rest2 Hc1 ltac:(done) Hrc Hsrt Hnm server_names_clean Hout Hp2) as (e2 & E2 & Hc2).
    destruct (server_AUTH s1 g _ _ k2 wc ws Hs1 ltac:(done) Hu Hk2 (server_names k2 Hk2)) as (s2 & F2 & Hs2).
    exists k2, e2, s2, (1 + 1), (0 + 1 + 1), f. split_and!; try done; try lia.
    + exact (handshake_turn f _ _ _ _ _ _ _ E2 (AUTH_line_clean k2 wc Hu) F2 Hok).
    + apply elem_of_set_insert in Hk2' as [E|Hk2']; [by rewrite E in Hk2|]. rewrite Hset in Hk2'.
      by eapply pick_rest.
Qed.
End Establish.

(** C28: Two sides that have registered mechanisms among ANONYMOUS and EXTERNAL, with
    one of them in common and the server having registered every mechanism it lists,
    always finish the authentication of a connection over streams that lose nothing:
    after at most one refused mechanism both are authenticated by the same mechanism of
    both lists, and, if the client wants to pass handles, both have agreed on that, on
    the lower version of the library, and know each other's protocol version. The third
    mechanism of the program, ALLJOYN_PIN_KEYX, is not modelled. *)
Theorem Establish_succeeds cm sm gid wc ws n kc fuel :
  registered_ok (authManager wc) -> registered_ok (authManager ws) ->
  (forall x, x ∈ ParseAuthNames [] sm -> is_Some (find_factory x (authManager ws))) ->
  n ∈ ParseAuthNames [] cm -> n ∈ ParseAuthNames [] sm -> find_factory n (authManager wc) = Some kc ->
  0 <= GetUid wc -> 0 <= GetNumericVersion wc < 2 ^ 32 -> 0 <= GetNumericVersion ws < 2 ^ 32 ->
  GUID.guid_ok gid -> (6 <= fuel)%nat ->
  exists k e' ec' wc' ws',
    handshake fuel (client_end cm wc) [] (server_end sm (GUID.ToString gid).1 ws) [] [] =
      Ok (Some (Authenticated (AuthName k)), Some (Authenticated (AuthName k)), (e', wc'), (ec', ws')) /\
    AuthName k ∈ ParseAuthNames [] cm /\ AuthName k ∈ ParseAuthNames [] sm /\
    authState e' = ALLJOYN_AUTH_SUCCESS /\ authState ec' = ALLJOYN_AUTH_SUCCESS /\
    (negb (isBusToBus wc) && handlePassing wc = true ->
     handlePassing wc' = true /\ handlePassing ws' = true /\
     ajVersion wc' = Z.min (GetNumericVersion wc) (GetNumericVersion ws) /\ ajVersion ws' = ajVersion wc' /\
     remoteProtocolVersion wc' = ALLJOYN_PROTOCOL_VERSION /\ remoteProtocolVersion ws' = ALLJOYN_PROTOCOL_VERSION) /\
    (negb (isBusToBus wc) && handlePassing wc = false -> wc' = wc /\ ws' = ws).
Proof.
  intros Hrc Hrs Hall Hnc Hns Hf Hu Hvc Hvs Hgid Hfuel.
  destruct (GUID.GUID_texts gid Hgid) as (Et & _ & _ & _ & _ & HG & _).
  assert (clean (GUID.ToString gid).1) as Hg.
  { rewrite Et. apply (AsciiToHex_clean (GUID.guid gid)). by destruct Hgid. }
  destruct (handshake_head cm sm _ wc ws Hrc Hrs Hall Hu (fuel - 2) n kc Hnc Hns Hf Hg)
    as (k & e & ec & cnt & scnt & f' & E & Hf' & Hc & Hs & Hcnt & Hscnt & Hkc & Hks).
  replace (2 + (fuel - 2))%nat with fuel in E by lia. rewrite E.
  replace f' with (4 + (f' - 4))%nat by lia.
  destruct (handshake_tail wc ws Hvc Hvs (f' - 4) e ec k _ cnt scnt _ _ Hc Hs Hcnt Hscnt Hg HG) as (e' & ec' & wc' & ws' & -> & ? & ? & Ea).
  exists k, e', ec', wc', ws'. split_and!; [done..| |].
  - intros Hh. rewrite Hh in Ea. injection Ea as -> ->. by split_and!.
  - intros Hh. rewrite Hh in Ea. by injection Ea as -> ->.
Qed.

(** A router and an application on the same machine. *)
Definition sample_manager : AuthMechFactoryMap MechKind :=
  RegisterMechanism AuthMechExternal (AuthName AuthMechExternal) (RegisterMechanism AuthMechAnonymous (AuthName AuthMechAnonymous) []).
Definition sample_side (version : Z) (handles : bool) : Side :=
  {| authManager := sample_manager; GetUid := 1000; GetNumericVersion := version; isBusToBus := false;
     handlePassing := handles; ajVersion := 0; processId := 0; remoteProtocolVersion := 0 |}.

Lemma sample_registered : registered_ok sample_manager.
Proof.
  intros n k. unfold find_factory. destruct (list_find _ _) as [[i [n' k']]|] eqn:E; [|done]. intros [= ->].
  apply list_find_Some in E as (Hl & Hn & _). cbn in Hn. subst n'.
  destruct i as [|[|i]]; cbn in Hl; [by injection Hl as <- <-|by injection Hl as <- <-|done].
Qed.

Lemma Establish_succeeds_witness :
  exists k e' ec' wc' ws',
    handshake 6 (client_end (text "ANONYMOUS EXTERNAL") (sample_side 1604 true)) []
      (server_end (text "EXTERNAL") (GUID.ToString (GUID.GUID_fill 17)).1 (sample_side 1500 false)) [] [] =
      Ok (Some (Authenticated (AuthName k)), Some (Authenticated (AuthName k)), (e', wc'), (ec', ws')) /\
    ajVersion wc' = 1500 /\ ajVersion ws' = 1500.
Proof.
  destruct (Establish_succeeds (text "ANONYMOUS EXTERNAL") (text "EXTERNAL") (GUID.GUID_fill 17) (sample_side 1604 true)
    (sample_side 1500 false) (text "EXTERNAL") AuthMechExternal 6 sample_registered sample_registered) as (k & e' & ec' & wc' & ws' & E & _ & _ & _ & _ & H & _).
  - intros x Hx. vm_compute in Hx. apply list_elem_of_singleton in Hx as ->. eexists. by vm_compute.
  - apply (bool_decide_unpack _). by vm_compute.
  - apply (bool_decide_unpack _). by vm_compute.
  - reflexivity.
  - done.
  - done.
  - done.
  - apply GUID.new_guid_ok; [apply Forall_replicate; done|done].
  - done.
  - destruct (H eq_refl) as (_ & _ & H1 & H2 & _). exists k, e', ec', wc', ws'. split; [exact E|].
    split; [exact H1|exact (eq_trans H2 H1)].
Defined.

(** * The filter of mechanisms *)

Section Filter.
Context {F : Type} (lst : list Z).
Implicit Types (am : list (list Z * F)) (h : list Z * F).

Abbreviation listed := (fun p : list Z * F => Is_true (contains lst p.1)).

Lemma listed_true p : contains lst p.1 = true -> listed p.
Proof. intros E. cbv beta. by rewrite E. Qed.

(** Once the first entry is passed it is never looked at again. *)
Lemma Filter_loop_rest fuel h am i num : (i <= length am)%nat -> (S (length am) * S (length am) <= fuel + i)%nat ->
  Forall listed (take i am) ->
  Filter_loop fuel lst (h :: am) (S i) num =
    Ok (h :: filter listed am, if decide (Forall listed am) then num + zlen am - Z.of_nat i else zlen (filter listed am)).
Proof.
  revert am i num. induction fuel as [|fuel IH]; intros am i num Hi Hf Hl; [lia|].
  cbn [Filter_loop]. change ((h :: am) !! S i) with (am !! i). destruct (am !! i) as [[n f]|] eqn:E.
  - pose proof (lookup_lt_Some _ _ _ E) as Hlt. destruct (contains lst n) eqn:Hc.
    + rewrite IH; [|lia|lia|].
      * f_equal. f_equal. case_decide; [lia|done].
      * erewrite take_S_r by done. apply Forall_app. split; [done|]. constructor; [by apply listed_true|done].
    + match goal with |- ?l = _ => change l with (Filter_loop fuel lst (h :: delete i am) 1 0) end.
      assert (~ Forall listed am) as Hnot.
      { intros H. pose proof (Forall_lookup_1 _ _ _ _ H E) as Hn. cbn [fst] in Hn. by rewrite Hc in Hn. }
      assert (filter listed (delete i am) = filter listed am) as Ef.
      { rewrite <- (take_drop_middle _ _ _ E) at 2. rewrite delete_take_drop. rewrite !filter_app, filter_cons_False; [done|].
        cbn [fst]. rewrite Hc. by intros []. }
      pose proof (length_delete am i (mk_is_Some _ _ E)) as Hd.
      rewrite IH; [|lia|rewrite Hd; nia|by rewrite take_0].
      rewrite Ef, (decide_False (P := Forall listed am)) by done. case_decide as Ha; [|done].
      rewrite <- Ef, filter_all by done. f_equal. f_equal. lia.
  - apply lookup_ge_None in E. assert (i = length am) as -> by lia. rewrite firstn_all in Hl. rewrite decide_True by done.
    rewrite filter_all by done. f_equal. f_equal. lia.
Qed.

(** What FilterMechanisms leaves of the registry: when the first entry is
    unlisted, the second one stays whether it is listed or not, and with no
    second one the iterator is moved past the end of an empty map; the number
    returned is one too low once anything was removed. Otherwise the listed
    mechanisms remain. *)
Theorem FilterMechanisms_result am :
  FilterMechanisms lst am =
  match am with
  | [] => Ok ([], 0)
  | h :: rest =>
      if contains lst h.1 then
        Ok (filter listed am, if decide (Forall listed rest) then zlen am else zlen (filter listed rest))
      else
        match rest with
        | [] => Undef
        | h2 :: rest => Ok (h2 :: filter listed rest, zlen (filter listed rest))
        end
  end.
Proof.
  unfold FilterMechanisms. destruct am as [|[n f] rest]; [done|]. cbn [length].
  remember (S (S (length rest)) * S (S (length rest)))%nat as fuel eqn:Ef. destruct fuel as [|fuel]; [lia|].
  cbn [Filter_loop lookup list_lookup fst]. destruct (contains lst n) eqn:Hc.
  - rewrite Filter_loop_rest; [|lia|nia|constructor]. rewrite filter_cons_True by (by apply listed_true).
    f_equal. f_equal. case_decide; [cbn [length]; lia|done].
  - destruct rest as [|h2 rest]; [done|]. cbn [length] in Ef.
    match goal with |- ?l = _ => change l with (Filter_loop fuel lst (h2 :: rest) 1 0) end.
    rewrite Filter_loop_rest; [|lia|nia|constructor].
    f_equal. f_equal. case_decide; [|done]. rewrite filter_all by done. lia.
Qed.
End Filter.
