(* ===== verification/SASLTheorems.v ===== *)
(** The theorems on the SASL engine, for any mechanisms, with examples: safety,
    representation, termination, what success means for either role, and
    liveness. *)
From Stdlib Require Import Sorted.
From stdpp Require Import strings sets.
From S2P Require Import Prelude Types BusUtil StrSet IPAddress StringUtil GUID SASL SASLProofs SASLSafety SASLLive EndpointAuth EndpointAuthProofs.

Section Sets.
Context {M W : Type} `{!AuthMechanism M W, !MechanismFactory M W, !ExtensionHandler W}.
Implicit Types (e : SASLEngine M) (w : W).

Lemma sorted_filter (s : list (list Z)) (P : list Z -> Prop) `{!forall x, Decision (P x)} : sorted_set s -> sorted_set (filter P s).
Proof.
  unfold sorted_set. induction 1 as [|x s Hs IH Hx]; [constructor|]. rewrite filter_cons. case_decide; [|done].
  constructor; [done|]. apply Forall_forall. intros y [_ Hy]%list_elem_of_filter. by eapply (proj1 (Forall_forall _ _) Hx).
Qed.

Lemma new_auth_loop_sorted e mech set w st o e' w' : sorted_set set ->
  new_auth_loop e mech set w = (st, o, e', w') -> sorted_set (authSet e').
Proof.
  revert mech w. induction set as [|n set IH]; intros mech w Hs; cbn [new_auth_loop];
    destruct (match mech with None => _ | Some m => _ end) as [[[[cmd s] m]|] w1].
  1, 2, 3: intros [= <- <- <- <-]; done || constructor.
  destruct (GetMechanism n w1) as [mech' w2]. apply IH. by inversion Hs.
Qed.

Lemma NewAuthRequest_sorted e w st o e' w' : sorted_set (authSet e) ->
  NewAuthRequest e w = (st, o, e', w') -> sorted_set (authSet e').
Proof.
  unfold NewAuthRequest. intros Hs H. repeat case_match; eapply new_auth_loop_sorted; try exact H; try done.
  by apply sorted_filter.
Qed.

Lemma Response_switch_sorted e cmd s w st c r o e' w' : sorted_set (authSet e) ->
  Response_switch e cmd s w = Ok (st, c, r, o, e', w') -> sorted_set (authSet e').
Proof.
  intros Hs. destruct cmd; cbn [Response_switch]; unfold Response_default, Response_DATA, Response_ERROR, ext_response.
  6: { unfold Response_REJECTED. destruct (NewAuthRequest _ _) as [[[st1 o1] e1] w1] eqn:E. intros [= <- _ _ _ <- _].
       eapply NewAuthRequest_sorted; [|exact E]. cbn [authSet with_authSet]. apply sorted_filter.
       case_match; [|done]. case_match; [by apply set_insert_sorted|done]. }
  6: { unfold Response_OK. intros [= H]. repeat case_match; by simplify_eq/=. }
  4: { destruct (authState e); try by intros [= <- _ _ _ <- _].
       intros (ch & _ & Hx)%rbind_Ok. repeat case_match; simplify_eq/=; try done. by apply set_insert_sorted. }
  all: intros H; repeat case_match; by simplify_eq/=.
Qed.

Lemma check_count_set e : authSet (check_count e) = authSet e.
Proof. unfold check_count. by case_match. Qed.

Lemma Response_sorted e s w st o e' w' : sorted_set (authSet e) -> Response e s w = Ok (st, o, e', w') -> sorted_set (authSet e').
Proof.
  intros Hs. unfold Response. rewrite <- check_count_set in Hs. revert Hs. generalize (check_count e) as e0. intros e0 Hs.
  case_decide; [by intros [= <- <- <- <-]|]. destruct (if decide _ then _ else _) as [cmd s'].
  intros ([[[[[st1 c1] r1] o1] e1] w1] & E & Hx)%rbind_Ok. apply Response_switch_sorted in E; [|done].
  repeat case_match; by simplify_eq/=.
Qed.

Lemma Challenge_switch_set e cmd s w st c r o e' w' :
  Challenge_switch e cmd s w = Ok (st, c, r, o, e', w') -> authSet e' = authSet e.
Proof.
  destruct cmd; cbn [Challenge_switch].
  1: { unfold Challenge_AUTH, challenge_result, rejected. destruct (authState e); try by intros [= <- _ _ _ <- _].
       case_match. intros (ch & _ & Hx)%rbind_Ok. repeat case_match; by simplify_eq/=. }
  3: { unfold Challenge_DATA, rejected. destruct (authState e); try by intros [= <- _ _ _ <- _].
       intros (ch & _ & Hx)%rbind_Ok. repeat case_match; by simplify_eq/=. }
  all: unfold Challenge_CANCEL, Challenge_BEGIN, Challenge_default, rejected; intros [= H]; repeat case_match; by simplify_eq/=.
Qed.

Lemma Challenge_set e s w st o e' w' : Challenge e s w = Ok (st, o, e', w') -> authSet e' = authSet e.
Proof.
  unfold Challenge. rewrite <- (check_count_set e). generalize (check_count e) as e0. intros e0.
  case_decide; [by intros [= <- <- <- <-]|]. destruct (ParseAuth s) as [cmd s'].
  intros ([[[[[st1 c1] r1] o1] e1] w1] & E & Hx)%rbind_Ok. apply Challenge_switch_set in E. by simplify_eq/=.
Qed.

Lemma Advance_sorted e s w st o e' w' : sorted_set (authSet e) -> Advance e s w = Ok (st, o, e', w') -> sorted_set (authSet e').
Proof.
  intros Hs. destruct (decide (live e)) as [Hl|Hl].
  - rewrite Advance_step by done. intros ([[[st1 o1] e1] w1] & E & Hx)%rbind_Ok.
    assert (sorted_set (authSet e1)) as Hs1.
    { destruct (authRole e); [apply Challenge_set in E; by rewrite E|by eapply Response_sorted]. }
    repeat case_match; by simplify_eq/=.
  - unfold Advance. destruct (authState e) eqn:Es;
      first [by intros [= <- <- <- <-]|exfalso; apply Hl; unfold live; by rewrite Es].
Qed.
End Sets.

Section Theorems.
Context {M W : Type} `{!AuthMechanism M W, !MechanismFactory M W, !ExtensionHandler W}.

(** C29: In every state an engine can reach, whatever was received and whatever
    its mechanisms and its extension handler do, the next step returns: nothing is
    called through a NULL pointer, neither by Advance nor by GetMasterSecret, and
    the count of steps does not pass MAX_AUTH_COUNT + 2, so it never wraps. *)
Theorem SASL_safe role mechanisms (e : SASLEngine M) (s : list Z) (w : W) : reachable role mechanisms e ->
  (exists st o e' w', Advance e s w = Ok (st, o, e', w')) /\ defined (GetMasterSecret e) /\
  0 <= authCount e <= MAX_AUTH_COUNT + 2.
Proof.
  intros H. apply reachable_ok in H as [Hr He].
  destruct (Advance_ok _ e s w He) as (st & o & e' & w' & E & _). destruct He as (Hc & _ & He).
  split_and!; [by eauto 10| |lia|lia]. unfold GetMasterSecret, defined. destruct (authState e) eqn:Es; try done.
  assert (is_Some (authMechanism e)) as [m ->]; [|done]. destruct (authRole e).
  - destruct He as [?|(_ & _ & He)]; [congruence|]. rewrite Es in He. destruct He as (m & -> & _). by eexists.
  - unfold resp_ok in He. by rewrite Es in He.
Qed.

(** The set of names of an engine stays a set: in the order of the strings
    and without duplicates, as std::set keeps it. *)
Theorem SASL_authSet role mechanisms (e : SASLEngine M) : reachable role mechanisms e ->
  StronglySorted (fun a b => lex_lt a b = true) (authSet e) /\ NoDup (authSet e).
Proof.
  intros H. assert (sorted_set (authSet e)) as Hs.
  { induction H as [peer ext|e i _ IH|e s w st o e' w' _ IH Ha]; [|done|].
    - apply (ParseAuthNames_wf [] mechanisms); constructor.
    - by eapply Advance_sorted. }
  split; [done|]. clear H. unfold sorted_set in Hs. induction Hs as [|x l Hl IH Hx]; constructor; [|done].
  intros Hin. pose proof (proj1 (Forall_forall _ _) Hx x Hin) as H. cbn in H. by rewrite lex_lt_irrefl in H.
Qed.

(** C32: A conversation ends: after MAX_AUTH_COUNT + 2 steps from any state, the
    engine has succeeded or failed, whatever lines it was given. *)
Theorem SASL_terminates role mechanisms (e : SASLEngine M) (w : W) ins : reachable role mechanisms e ->
  MAX_AUTH_COUNT + 2 <= zlen ins -> exists e' w', run ins e w = Ok (e', w') /\ ~ live e'.
Proof.
  intros H Hl. apply reachable_ok in H as [Hr He]. pose proof He as (Hc & _).
  destruct (run_ok _ ins e w He) as (e' & w' & E & (_ & He' & _) & Hc' & _). exists e', w'. split; [done|].
  intros Hlive. specialize (He' Hlive). specialize (Hc' Hlive). lia.
Qed.

(** C30: A challenger that has sent OK, or has succeeded, did so because of a
    mechanism named in its own set: made for that name and initialized, whose last
    call, the initial challenge or one with a response that was not empty, ended
    in ALLJOYN_AUTH_OK. *)
Theorem SASL_challenger mechanisms (e : SASLEngine M) : reachable CHALLENGER mechanisms e ->
  authState e = ALLJOYN_WAIT_FOR_BEGIN \/ authState e = ALLJOYN_AUTH_SUCCESS ->
  exists m, authMechanism e = Some m /\ granted (ParseAuthNames [] mechanisms) m.
Proof.
  intros H Hs. apply reachable_ok in H as [Hr (_ & _ & He)]. rewrite Hr in He.
  destruct He as [He|(_ & _ & He)]; [destruct Hs; congruence|]. by destruct Hs as [Es|Es]; rewrite Es in He.
Qed.

(** A responder that waits for data takes OK for success although its
    mechanism has verified nothing: the mechanism is not called, and still
    AuthenticationIsMutual reports what the mechanism says of itself. *)
Theorem SASL_responder_OK (e : SASLEngine M) m (w : W) id : waiting false e m -> authCount e <= MAX_AUTH_COUNT -> no_CR id ->
  exists out e', Advance e (ComposeAuth CMD_OK id []) w = Ok (ER_OK, out, e', w) /\
    authState e' = ALLJOYN_AUTH_SUCCESS /\ authMechanism e' = Some m /\ authIsMutual e' = IsMutual m /\ remoteId e' = id.
Proof.
  intros (Hr & Hm & Hx & Hs) Hc Hid. cbv iota in Hs.
  exists (ComposeAuth CMD_BEGIN (localId e) []), (count_up (with_mutual (SetState (with_remoteId e id) ALLJOYN_AUTH_SUCCESS) (IsMutual m))).
  split; [|by split_and!].
  rewrite (respond_line e _ CMD_OK (after_space id) w CMD_BEGIN (localId e) [] (SetState (with_remoteId e id) ALLJOYN_AUTH_SUCCESS) w).
  - unfold finish_turn. cbn [authState SetState authMechanism with_remoteId]. by rewrite Hm.
  - done.
  - by split; rewrite Hs.
  - by rewrite Hs.
  - done.
  - by apply ParseAuth_one.
  - cbn [Response_switch]. unfold Response_OK. rewrite Hs, drop_after_space.
    change (extHandler (with_remoteId e id)) with (extHandler e). by rewrite Hx.
Qed.

(** A challenger whose mechanism fails to initialize does not go on with a
    REJECTED as it means to: the failure is what Advance returns, and the
    conversation is over. *)
Theorem SASL_Init_failure (e : SASLEngine M) (w : W) n m0 w0 st m1 w1 :
  authRole e = CHALLENGER -> authState e = ALLJOYN_WAIT_FOR_AUTH -> authMechanism e = None -> authCount e <= MAX_AUTH_COUNT ->
  name_ok n -> no_CR n -> n ∈ authSet e -> GetMechanism n w = (Some m0, w0) ->
  Init CHALLENGER (authPeer e) m0 w0 = (st, m1, w1) -> st <> ER_OK ->
  exists e', Advance e (ComposeAuth CMD_AUTH n []) w =
    Ok (st, ComposeAuth CMD_REJECTED (ExpandAuthNames (authSet e)) [], e', w1) /\ authState e' = ALLJOYN_AUTH_FAILED.
Proof.
  intros Hr Hs Hm Hc Hn Hcr Hin Hg Hi Hst. eexists. split; [|shelve]. rewrite Advance_step by (split; by rewrite Hs). rewrite Hr.
  unfold Challenge. rewrite check_count_low by done. rewrite decide_False by (by rewrite Hs). rewrite ParseAuth_one by done.
  cbn [Challenge_switch]. unfold Challenge_AUTH. rewrite Hs.
  destruct (AUTH_arguments n [] Hn (Forall_nil_2 _)) as (Ea & _ & _). cbn [AsciiToHex BytesToHexString hex_loop after_space] in Ea.
  rewrite app_nil_r in Ea. rewrite Ea. cbn [rbind]. change (bool_decide ([] <> @nil Z) && _) with false. cbv iota.
  unfold set_count. rewrite bool_decide_eq_true_2 by done. cbn [negb]. unfold challenger_mechanism. rewrite Hm, Hg, Hr, Hi.
  rewrite status_not_OK by done. cbn [rbind]. rewrite status_not_OK by done. reflexivity.
  Unshelve. done.
Qed.

End Theorems.

(** * Examples: the mechanisms of EndpointAuth *)

Abbreviation Eng := (SASLEngine Mech).
Definition ext_names : list Z := text "EXTERNAL".
Definition new_client : Eng := NewEngine RESPONDER ext_names [] false.
Definition new_server : Eng := NewEngine CHALLENGER ext_names [] false.
Definition a_side : Side := sample_side 1604 false.

Lemma SASL_safe_witness :
  (exists st o e' w', Advance new_client (text "BEGIN") a_side = Ok (st, o, e', w')) /\ defined (GetMasterSecret new_client) /\
  0 <= authCount new_client <= MAX_AUTH_COUNT + 2.
Proof. apply (SASL_safe RESPONDER ext_names new_client (text "BEGIN") a_side). apply reachable_new. Defined.

Lemma SASL_authSet_witness : StronglySorted (fun a b => lex_lt a b = true) (authSet new_client) /\ NoDup (authSet new_client).
Proof. apply (SASL_authSet (W := Side) RESPONDER ext_names new_client). apply reachable_new. Defined.

Lemma SASL_terminates_witness : exists e' w', run (replicate 66 (text "DATA")) new_server a_side = Ok (e', w') /\ ~ live e'.
Proof.
  apply (SASL_terminates CHALLENGER ext_names new_server a_side); [apply reachable_new|].
  rewrite length_replicate. exact (Z.le_refl 66).
Defined.

Definition AUTH_EXTERNAL : list Z := AUTH_line AuthMechExternal a_side.

Lemma SASL_challenger_witness :
  exists st o e w m, Advance new_server AUTH_EXTERNAL a_side = Ok (st, o, e, w) /\ authState e = ALLJOYN_WAIT_FOR_BEGIN /\
    authMechanism e = Some m /\ granted (W := Side) (ParseAuthNames [] ext_names) m.
Proof.
  destruct (Advance new_server AUTH_EXTERNAL a_side) as [[[[st o] e] w]| |] eqn:E; [|vm_compute in E; discriminate E..].
  assert (authState e = ALLJOYN_WAIT_FOR_BEGIN) as Es by (vm_compute in E; injection E as <- <- <- <-; reflexivity).
  destruct (SASL_challenger (W := Side) ext_names e) as (m & Hm & Hg).
  - exact (reachable_step CHALLENGER ext_names new_server AUTH_EXTERNAL a_side st o e w (reachable_new _ _ _ _) E).
  - left. exact Es.
  - exists st, o, e, w, m. split; [reflexivity|]. split; [exact Es|]. split; [exact Hm|exact Hg].
Defined.

Definition external (role : AuthRole) : Mech := {| kind := AuthMechExternal; mechCount := 1; mechRole := Some role; mechPeer := [] |}.
Definition waiting_client : Eng := SetState (with_mechanism new_client (Some (external RESPONDER))) ALLJOYN_WAIT_FOR_DATA.

Lemma SASL_responder_OK_witness :
  exists out e', Advance waiting_client (ComposeAuth CMD_OK (text "rogue") []) a_side = Ok (ER_OK, out, e', a_side) /\
    authState e' = ALLJOYN_AUTH_SUCCESS /\ authIsMutual e' = true.
Proof.
  destruct (SASL_responder_OK waiting_client (external RESPONDER) a_side (text "rogue")) as (out & e' & E & Hs & _ & Hmut & _).
  - repeat split.
  - exact (Zle_bool_imp_le 0 64 eq_refl).
  - apply (bool_decide_unpack _). exact I.
  - exists out, e'. split; [exact E|]. split; [exact Hs|exact Hmut].
Defined.

(** A mechanism whose initialization fails. *)
Definition broken_mechanism : AuthMechanism Mech Side :=
  {| GetName m := AuthName (kind m); Init _ _ m w := (ER_FAIL, m, w);
     InitialResponse m w := ([], ALLJOYN_AUTH_FAIL, m, w); MechResponse _ m w := ([], ALLJOYN_AUTH_FAIL, m, w);
     InitialChallenge m w := ([], ALLJOYN_AUTH_FAIL, m, w); MechChallenge _ m w := ([], ALLJOYN_AUTH_FAIL, m, w);
     IsMutual _ := false; MechMasterSecret _ := None |}.

Lemma SASL_Init_failure_witness :
  exists e', Advance (AuthMechanism0 := broken_mechanism) new_server (ComposeAuth CMD_AUTH ext_names []) a_side =
    Ok (ER_FAIL, ComposeAuth CMD_REJECTED ext_names [], e', a_side) /\ authState e' = ALLJOYN_AUTH_FAILED.
Proof.
  apply (SASL_Init_failure (AuthMechanism0 := broken_mechanism) new_server a_side ext_names (Factory AuthMechExternal) a_side
    ER_FAIL (Factory AuthMechExternal) a_side); try reflexivity; try discriminate;
    try (apply (bool_decide_unpack _); vm_compute; exact I).
Defined.

Lemma SASL_live_witness :
  exists e ec, dialogue 2 (SetLocalId new_client (text "client")) a_side [] (SetLocalId new_server (text "server")) a_side = Ok (e, a_side, ec, a_side) /\
    both_done e ec (external RESPONDER) (external CHALLENGER) (text "client") (text "server").
Proof.
  apply (SASL_live ext_names ext_names [] false (text "client") (text "server") a_side a_side ext_names [] (Factory AuthMechExternal) a_side
    (external RESPONDER) a_side (decimal 1000) ALLJOYN_AUTH_CONTINUE (external RESPONDER) a_side (Factory AuthMechExternal) a_side
    (external CHALLENGER) a_side 0); try reflexivity; try (apply (bool_decide_unpack _); vm_compute; exact I).
  apply (first_done _ _ _ _ _ _ []). reflexivity.
Defined.
