(* ===== verification/ASN1.v ===== *)
(** Model of common/src/ASN1.cc (class Crypto_ASN1 of common/inc/qcc/Crypto.h):
    base-64 text, DER encoding and decoding driven by a syntax string, and object
    identifiers.

    Variable arguments are lists of typed values; taking one of another type than
    it was passed with is [Undef]. The decoder's output is the list of values it
    stored through its pointer arguments, in their order. A syntax string is a
    list of characters that ends with a NUL: [Some] is a position in it, [None]
    one behind the NUL, where reading is [Undef]. Positions in the data are
    offsets into the buffer. String::assign with a length of zero violates its
    assert. *)
From S2P Require Import Prelude Types BusUtil IPAddress StringUtil.

Module ASN1.

(** * Base 64 *)

Definition B64Encode (d : Z) : Z :=
  if d <? 26 then 65 + d else if d <? 52 then 97 + (d - 26) else if d <? 62 then 48 + (d - 52)
  else if d =? 62 then 43 else 47.

(** The table row by row; it has 128 entries. *)
Definition B64Decode (c : Z) : res Z :=
  if (c <? 0) || (128 <=? c) then Undef
  else Ok (if c =? 43 then 62 else if c =? 47 then 63
           else if (48 <=? c) && (c <=? 58) then c - 48 + 52
           else if (65 <=? c) && (c <=? 90) then c - 65
           else if (97 <=? c) && (c <=? 122) then c - 97 + 26
           else 255).

(** A char is signed: the index into the table is negative from 128 on. *)
Definition char_index (c : Z) : Z := if c <? 128 then c else c - 256.

Definition LineBreak (n lim : Z) : Z * list Z := if n + 1 =? lim then (0, [10]) else (n + 1, []).

Definition pad_char : Z := 61.

Fixpoint EncodeBase64_loop (bin : list Z) (lbreak : Z) : list Z :=
  match bin with
  | x :: y :: z :: bin =>
      let accum := Z.shiftl x 16 + Z.shiftl y 8 + z in
      let '(lbreak, nl) := LineBreak lbreak 16 in
      B64Encode (Z.land (Z.shiftr accum 18) 63) :: B64Encode (Z.land (Z.shiftr accum 12) 63) ::
      B64Encode (Z.land (Z.shiftr accum 6) 63) :: B64Encode (Z.land accum 63) :: nl ++ EncodeBase64_loop bin lbreak
  | [x; y] =>
      let accum := Z.shiftl x 16 + Z.shiftl y 8 in
      let '(lbreak, nl) := LineBreak lbreak 16 in
      [B64Encode (Z.land (Z.shiftr accum 18) 63); B64Encode (Z.land (Z.shiftr accum 12) 63);
       B64Encode (Z.land (Z.shiftr accum 6) 63); pad_char] ++ nl ++ (if lbreak =? 0 then [] else [10])
  | [x] =>
      let accum := Z.shiftl x 16 in
      let '(lbreak, nl) := LineBreak lbreak 16 in
      [B64Encode (Z.land (Z.shiftr accum 18) 63); B64Encode (Z.land (Z.shiftr accum 12) 63); pad_char; pad_char] ++ nl ++
      (if lbreak =? 0 then [] else [10])
  | [] => if lbreak =? 0 then [] else [10]
  end.

Definition EncodeBase64 (bin : list Z) : list Z := EncodeBase64_loop bin 0.

(** The stripped text and the number of pads; [None] is the early return. *)
Fixpoint DecodeBase64_strip (it : list Z) (pad : Z) : res (option (list Z * Z)) :=
  match it with
  | [] => Ok (Some ([], pad))
  | c :: it =>
      let! v := B64Decode (char_index c) in
      if negb (v =? 255) && (pad =? 0) then
        let! r := DecodeBase64_strip it pad in
        Ok ((fun '(b64, pad) => (c :: b64, pad)) <$> r)
      else if negb (c =? 10) && negb (c =? 13) then
        if negb (c =? pad_char) then Ok None
        else
          let! r := DecodeBase64_strip it (pad + 1) in
          Ok ((fun '(b64, pad) => (B64Encode 0 :: b64, pad)) <$> r)
      else DecodeBase64_strip it pad
  end.

Fixpoint DecodeBase64_loop (it : list Z) : res (list Z) :=
  match it with
  | a :: b :: c :: d :: it =>
      let! a := B64Decode (char_index a) in
      let! b := B64Decode (char_index b) in
      let! c := B64Decode (char_index c) in
      let! d := B64Decode (char_index d) in
      let triad := Z.lor (Z.lor (Z.lor (Z.shiftl a 18) (Z.shiftl b 12)) (Z.shiftl c 6)) d in
      let! r := DecodeBase64_loop it in
      Ok (Z.shiftr triad 16 mod 256 :: Z.shiftr triad 8 mod 256 :: triad mod 256 :: r)
  | [] => Ok []
  | _ => Undef
  end.

Definition DecodeBase64 (b64in : list Z) : res (list Z) :=
  let! s := DecodeBase64_strip b64in 0 in
  match s with
  | None => Fail ER_FAIL
  | Some (b64, pad) =>
      if (2 <? pad) || negb (zlen b64 mod 4 =? 0) then Fail ER_FAIL
      else
        let! bin := DecodeBase64_loop b64 in
        if pad =? 0 then Ok bin
        else if zlen bin <? pad then Undef
        else Ok (take (Z.to_nat (zlen bin - pad)) bin)
  end.

(** * Tags and lengths *)

Definition ASN_BOOLEAN : Z := 1.
Definition ASN_INTEGER : Z := 2.
Definition ASN_BITS : Z := 3.
Definition ASN_OCTETS : Z := 4.
Definition ASN_NULL : Z := 5.
Definition ASN_OID : Z := 6.
Definition ASN_UTF8 : Z := 12.
Definition ASN_SEQ : Z := 16.
Definition ASN_SET_OF : Z := 17.
Definition ASN_PRINTABLE : Z := 19.
Definition ASN_ASCII : Z := 22.
Definition ASN_UTC_TIME : Z := 23.
Definition ASN_GEN_TIME : Z := 24.
Definition ASN_CONTEXT_SPECIFIC : Z := 128.
Definition ASN_CONTEXT_SPECIFIC_CONSTRUCTED : Z := 160.
Definition ASN_CONSTRUCTED_ENCODING : Z := 32.

(** [while (!v[n]) ++n]: running off the array is undefined. *)
Fixpoint skip_zero_bytes (v : list Z) : res (list Z) :=
  match v with
  | [] => Undef
  | b :: v' => if b =? 0 then skip_zero_bytes v' else Ok v
  end.

Definition be32 (v : Z) : list Z := [Z.shiftr v 24 mod 256; Z.shiftr v 16 mod 256; Z.shiftr v 8 mod 256; Z.land v 255].

Definition EncodeLen (len : Z) : res (list Z) :=
  if len <? 128 then Ok [len]
  else let! v := skip_zero_bytes (be32 len) in Ok (Z.lor (zlen v) 128 :: v).

Definition byte_at (buf : list Z) (p : Z) : res Z :=
  if p <? 0 then Undef else match buf !! Z.to_nat p with Some b => Ok b | None => Undef end.

Fixpoint DecodeLen_loop (n : nat) (buf : list Z) (p eod l : Z) : res (option (Z * Z)) :=
  match n with
  | O => Ok (Some (l, p))
  | S n =>
      if eod <=? p then Ok None
      else if Z.shiftl l 8 mod 2 ^ 64 <? l then Ok None
      else let! b := byte_at buf p in DecodeLen_loop n buf (p + 1) eod ((Z.shiftl l 8 + b) mod 2 ^ 64)
  end.

(** [Some (l, p)] is [true] with the length and the position after it. *)
Definition DecodeLen (buf : list Z) (p eod : Z) : res (option (Z * Z)) :=
  if eod <=? p then Ok None
  else
    let! l := byte_at buf p in
    let! r := if negb (Z.land l 128 =? 0) then DecodeLen_loop (Z.to_nat (Z.land l 127)) buf (p + 1) eod 0
              else Ok (Some (l, p + 1)) in
    match r with
    | Some (l, p) => Ok (if l <=? eod - p then Some (l, p) else None)
    | None => Ok None
    end.

(** * Object identifiers *)

(** The numbers of the dotted text; another character gives the empty list. *)
Fixpoint oid_numbers (it : list Z) (accum : Z) (nums : list Z) : list Z :=
  match it with
  | [] => nums ++ [accum]
  | c :: it =>
      if c =? 46 then oid_numbers it 0 (nums ++ [accum])
      else if (48 <=? c) && (c <=? 57) then oid_numbers it ((accum * 10 + c - 48) mod 2 ^ 32) nums
      else [accum]
  end.

Fixpoint skip_empty_groups (b128 : list Z) : res (list Z) :=
  match b128 with
  | [] => Undef
  | b :: r => if b =? 128 then skip_empty_groups r else Ok b128
  end.

Definition b128_bytes (v : Z) : list Z :=
  [Z.lor (Z.shiftr v 28) 128 mod 256; Z.lor (Z.shiftr v 21) 128 mod 256; Z.lor (Z.shiftr v 14) 128 mod 256;
   Z.lor (Z.shiftr v 7) 128 mod 256; Z.land v 127].

Fixpoint encode_arcs (nums : list Z) : res (list Z) :=
  match nums with
  | [] => Ok []
  | v :: nums =>
      let! b := skip_empty_groups (b128_bytes v) in
      let! r := encode_arcs nums in
      Ok (b ++ r)
  end.

(** The status, and the bytes appended. *)
Definition EncodeOID (oid : list Z) : res (QStatus * list Z) :=
  match oid_numbers oid 0 [] with
  | n0 :: n1 :: nums => let! r := encode_arcs nums in Ok (ER_OK, (n0 * 40 + n1) mod 2 ^ 32 mod 256 :: r)
  | _ => Ok (ER_FAIL, [])
  end.

(** [U32ToString] with its default arguments. *)
Definition u32_text (v : Z) : res (list Z) := U32ToString v 10 1 32.

Fixpoint decode_arcs (p : list Z) (v : Z) : res (list Z) :=
  match p with
  | [] => Ok []
  | b :: p =>
      let v := (Z.shiftl v 7 + b mod 128) mod 2 ^ 32 in
      if Z.land b 128 =? 0 then
        let! s := u32_text v in
        let! r := decode_arcs p 0 in
        Ok (46 :: s ++ r)
      else decode_arcs p v
  end.

Definition DecodeOID (p : list Z) : res (list Z) :=
  match p with
  | [] => Ok []
  | b :: p =>
      let! s0 := u32_text (b / 40) in
      let! s1 := u32_text (b mod 40) in
      let! r := decode_arcs p 0 in
      Ok (s0 ++ 46 :: s1 ++ r)
  end.

(** * Syntax strings *)

Definition Syntax : Type := option (list Z).

Definition peek (syntax : Syntax) : res Z :=
  match syntax with Some (c :: _) => Ok c | Some [] => Ok 0 | None => Undef end.
Definition advance (syntax : Syntax) : Syntax :=
  match syntax with Some (_ :: s) => Some s | _ => None end.

(** * Encoding *)

Inductive EArg := EU32 (v : Z) | EStr (s : list Z) | ESize (n : Z).

Definition arg_u32 (args : list EArg) : res (Z * list EArg) :=
  match args with EU32 v :: args => Ok (v, args) | _ => Undef end.
Definition arg_str (args : list EArg) : res (list Z * list EArg) :=
  match args with EStr s :: args => Ok (s, args) | _ => Undef end.
Definition arg_size (args : list EArg) : res (Z * list EArg) :=
  match args with ESize n :: args => Ok (n, args) | _ => Undef end.

(** What is appended for each kind of element. *)
Definition encode_int (v : Z) : res (list Z) :=
  if negb (v =? 0) then
    let n := 0 :: be32 v in
    let! m := skip_zero_bytes n in
    (* [--i] moves back to a zero: the array starts with one *)
    let m := if negb (Z.land (hd 0 m) 128 =? 0) then 0 :: m else m in
    let! l := EncodeLen (zlen m) in
    Ok (ASN_INTEGER :: l ++ m)
  else Ok [ASN_INTEGER; 1; 0].

Fixpoint strip_zeros (s : list Z) : list Z :=
  match s with
  | b :: s' => if b =? 0 then strip_zeros s' else s
  | [] => []
  end.

(** The status and what is appended; behind the data there is a NUL. *)
Definition encode_big (val : list Z) : res (QStatus * list Z) :=
  match val with
  | [] => Ok (ER_FAIL, [])
  | _ =>
      let p := strip_zeros val in
      if negb (Z.land (hd 0 p) 128 =? 0) then
        let! l := EncodeLen (zlen p + 1) in Ok (ER_OK, ASN_INTEGER :: l ++ 0 :: p)
      else
        let! l := EncodeLen (zlen p) in Ok (ER_OK, ASN_INTEGER :: l ++ p)
  end.

Definition encode_string (tag : Z) (val : list Z) : res (list Z) :=
  let! l := EncodeLen (zlen val) in Ok (tag :: l ++ val).

Definition encode_bits (val : list Z) (bitLen : Z) : res (QStatus * list Z) :=
  if bitLen <=? zlen val * 8 then
    let unusedBits := Z.land (8 - bitLen) 7 in
    let len := (bitLen + 7) / 8 in
    let! l := EncodeLen (len + 1) in
    if len =? 0 then Undef
    else
      let! last := byte_at val (len - 1) in
      Ok (ER_OK, ASN_BITS :: l ++ unusedBits :: take (Z.to_nat (len - 1)) val ++
                 [Z.land last (Z.shiftl 255 unusedBits mod 256)])
  else Ok (ER_FAIL, []).

Definition string_tag (c : Z) : option Z :=
  if c =? 120 then Some ASN_OCTETS          (* x *)
  else if c =? 97 then Some ASN_ASCII       (* a *)
  else if c =? 116 then Some ASN_UTC_TIME   (* t *)
  else if c =? 84 then Some ASN_GEN_TIME    (* T *)
  else if c =? 112 then Some ASN_PRINTABLE  (* p *)
  else if c =? 117 then Some ASN_UTF8       (* u *)
  else None.

Record EState := { esyntax : Syntax; eargs : list EArg; easn : list Z }.

Definition ends_block (c : Z) : bool := (c =? 0) || (c =? 41) || (c =? 125).

(** A nested block up to its closing character, with the tag in front. *)
Definition encode_block (EncodeV : Syntax -> list EArg -> res (QStatus * EState)) (close tag : Z)
    (syntax : Syntax) (args : list EArg) (asn : list Z) : res (QStatus * EState) :=
  let! r := EncodeV syntax args in
  let '(status, st) := r in
  let! c := peek (esyntax st) in
  let next := {| esyntax := advance (esyntax st); eargs := eargs st; easn := asn |} in
  if negb (c =? close) then Ok (ER_FAIL, next)
  else
    match status with
    | ER_OK =>
        let! l := EncodeLen (zlen (easn st)) in
        Ok (ER_OK, {| esyntax := esyntax next; eargs := eargs st; easn := asn ++ tag :: l ++ easn st |})
    | _ => Ok (status, next)
    end.

(** One case of the switch; the character is already behind. *)
Definition encode_item (EncodeV : Syntax -> list EArg -> res (QStatus * EState)) (c : Z)
    (syntax : Syntax) (args : list EArg) (asn : list Z) : res (QStatus * EState) :=
  let put args bytes := Ok (ER_OK, {| esyntax := syntax; eargs := args; easn := asn ++ bytes |}) in
  let stop status args bytes := Ok (status, {| esyntax := syntax; eargs := args; easn := asn ++ bytes |}) in
  if c =? 105 then (* i *)
    let! r := arg_u32 args in
    let! b := encode_int r.1 in put r.2 b
  else if c =? 108 then (* l *)
    let! r := arg_str args in
    let! b := encode_big r.1 in stop b.1 r.2 b.2
  else if c =? 111 then (* o *)
    let! r := arg_str args in
    let! b := EncodeOID r.1 in
    match b.1 with
    | ER_OK => let! e := encode_string ASN_OID b.2 in put r.2 e
    | status => stop status r.2 [ASN_OID]
    end
  else if c =? 98 then (* b *)
    let! r := arg_str args in
    let! n := arg_size r.2 in
    let! b := encode_bits r.1 n.1 in stop b.1 n.2 b.2
  else if c =? 110 then (* n *) put args [ASN_NULL; 0]
  else if c =? 40 then (* sequence *) encode_block EncodeV 41 (Z.lor ASN_SEQ 32) syntax args asn
  else if c =? 123 then (* set *) encode_block EncodeV 125 (Z.lor ASN_SET_OF 32) syntax args asn
  else if c =? 99 then (* c *)
    let! r := arg_u32 args in
    let v := r.1 in
    if 32 <=? v then Ok (ER_FAIL, {| esyntax := syntax; eargs := r.2; easn := asn |})
    else
      let! o := peek syntax in
      if negb (o =? 40) then Ok (ER_FAIL, {| esyntax := advance syntax; eargs := r.2; easn := asn |})
      else encode_block EncodeV 41 (Z.lor ASN_CONTEXT_SPECIFIC_CONSTRUCTED v) (advance syntax) r.2 asn
  else if c =? 122 then (* z *)
    let! r := arg_u32 args in
    let! l := EncodeLen 1 in
    put r.2 (ASN_BOOLEAN :: l ++ [if r.1 =? 0 then 0 else 255])
  else if c =? 82 then (* R *)
    let! r := arg_str args in put r.2 r.1
  else
    match string_tag c with
    | Some tag => let! r := arg_str args in let! b := encode_string tag r.1 in put r.2 b
    | None => stop ER_BAD_ARG_1 args []
    end.

(** Every turn takes a character of the syntax. *)
Fixpoint EncodeV (fuel : nat) (syntax : Syntax) (args : list EArg) (asn : list Z) : res (QStatus * EState) :=
  match fuel with
  | O => Undef
  | S fuel =>
      let! c := peek syntax in
      if ends_block c then Ok (ER_OK, {| esyntax := syntax; eargs := args; easn := asn |})
      else
        let! r := encode_item (fun s a => EncodeV fuel s a []) c (advance syntax) args asn in
        match r.1 with
        | ER_OK => EncodeV fuel (esyntax r.2) (eargs r.2) (easn r.2)
        | _ => Ok r
        end
  end.

Definition Encode (syntax : list Z) (args : list EArg) : res (QStatus * list Z) :=
  let! r := EncodeV (S (length syntax)) (Some syntax) args [] in Ok (r.1, easn r.2).

(** * Decoding *)

(** Pointers to an integer, a string and a size, NULL, and an integer. *)
Inductive DArg := PU32 | PStr | PSize | PNull | VU32 (v : Z).
Inductive DVal := OU32 (v : Z) | OStr (s : list Z) | OSize (n : Z).

Record DState := { dsyntax : Syntax; pos : Z; dargs : list DArg; outs : list DVal }.

Definition at_pos (st : DState) (p : Z) : DState :=
  {| dsyntax := dsyntax st; pos := p; dargs := dargs st; outs := outs st |}.
Definition at_syntax (st : DState) (s : Syntax) : DState :=
  {| dsyntax := s; pos := pos st; dargs := dargs st; outs := outs st |}.

(** Store a value through the next pointer. *)
Definition out_u32 (st : DState) (v : Z) : res DState :=
  match dargs st with
  | PU32 :: a => Ok {| dsyntax := dsyntax st; pos := pos st; dargs := a; outs := outs st ++ [OU32 v] |}
  | _ => Undef
  end.
Definition out_str (st : DState) (s : list Z) : res DState :=
  match dargs st with
  | PStr :: a => Ok {| dsyntax := dsyntax st; pos := pos st; dargs := a; outs := outs st ++ [OStr s] |}
  | _ => Undef
  end.
Definition out_size (st : DState) (n : Z) : res DState :=
  match dargs st with
  | PSize :: a => Ok {| dsyntax := dsyntax st; pos := pos st; dargs := a; outs := outs st ++ [OSize n] |}
  | _ => Undef
  end.
(** The pointer may be NULL. *)
Definition out_opt (st : DState) (s : list Z) : res DState :=
  match dargs st with
  | PNull :: a => Ok {| dsyntax := dsyntax st; pos := pos st; dargs := a; outs := outs st |}
  | _ => out_str st s
  end.

Definition bytes_at (buf : list Z) (p len : Z) : res (list Z) := rd buf p (Z.to_nat len).

(** String::assign *)
Definition assign (buf : list Z) (p len : Z) : res (list Z) :=
  if len =? 0 then Undef else bytes_at buf p len.

(** How a case of the switch ends: with [continue] and a status, or at the
    shared code, which stores the next [len] bytes. *)
Inductive Flow := Next (status : QStatus) (st : DState) | Take (len : Z) (st : DState).

Definition be_value (v : Z) (bytes : list Z) : Z := fold_left (fun v b => (Z.shiftl v 8 + b) mod 2 ^ 32) bytes v.

(** A nested block up to its closing character. *)
Definition decode_block (DecodeV : DState -> Z -> res (QStatus * DState)) (close len : Z) (st : DState) : res Flow :=
  let p := pos st in
  let! r := DecodeV st len in
  let '(status, st) := r in
  let st := at_pos st (match status with ER_OK => p + len | _ => p end) in
  let! c := peek (dsyntax st) in
  let st := at_syntax st (advance (dsyntax st)) in
  Ok (Next (if negb (c =? close) then ER_FAIL else status) st).

Section Cases.
Variables (buf : list Z) (eod : Z) (DecodeV : DState -> Z -> res (QStatus * DState)).

(** The tag is the one wanted, and a length follows. *)
Definition with_len (ok : bool) (st : DState) (k : Z -> DState -> res Flow) : res Flow :=
  if ok then
    let! r := DecodeLen buf (pos st) eod in
    match r with
    | Some (len, p) => k len (at_pos st p)
    | None => Ok (Next ER_FAIL st)
    end
  else Ok (Next ER_FAIL st).

Definition decode_int (st : DState) (tag : Z) : res Flow :=
  with_len (tag =? ASN_INTEGER) st (fun len st =>
    if (5 <? len) || (len <? 1) then Ok (Next ER_FAIL st)
    else
      let! b := bytes_at buf (pos st) len in
      let! st := out_u32 st (be_value 0 b) in
      Ok (Next ER_OK (at_pos st (pos st + len)))).

Definition decode_big (st : DState) (tag : Z) : res Flow :=
  with_len (tag =? ASN_INTEGER) st (fun len st =>
    if len <? 1 then Ok (Next ER_FAIL st)
    else
      let! b := byte_at buf (pos st) in
      Ok (if b =? 0 then Take (len - 1) (at_pos st (pos st + 1)) else Take len st)).

Definition decode_oid (st : DState) (tag : Z) : res Flow :=
  with_len (tag =? ASN_OID) st (fun len st =>
    let! b := bytes_at buf (pos st) len in
    let! s := DecodeOID b in
    let! st := out_str st s in
    Ok (Next ER_OK (at_pos st (pos st + len)))).

Definition decode_bits (st : DState) (tag : Z) : res Flow :=
  with_len (tag =? ASN_BITS) st (fun len st =>
    if len =? 0 then Ok (Next ER_FAIL st)
    else
      let! unusedBits := byte_at buf (pos st) in
      let st := at_pos st (pos st + 1) in
      if 7 <? unusedBits then Ok (Next ER_FAIL st)
      else
        let len := len - 1 in
        let! s := assign buf (pos st) len in
        let! st := out_str st s in
        let! st := out_size (at_pos st (pos st + len)) ((len * 8 - unusedBits) mod 2 ^ 64) in
        Ok (Next ER_OK st)).

Definition decode_bool (st : DState) (tag : Z) : res Flow :=
  with_len (tag =? ASN_BOOLEAN) st (fun len st =>
    if negb (len =? 1) then Ok (Next ER_FAIL st)
    else
      let! b := byte_at buf (pos st) in
      let! st := out_u32 st b in
      Ok (Next ER_OK (at_pos st (pos st + 1)))).

(** The byte after the tag is read without asking whether there is one. *)
Definition decode_null (st : DState) (tag : Z) : res Flow :=
  let! bad := if negb (tag =? ASN_NULL) then Ok true else let! b := byte_at buf (pos st) in Ok (negb (b =? 0)) in
  Ok (Next (if bad : bool then ER_FAIL else ER_OK) (at_pos st (pos st + 1))).

(** Up to the closing parenthesis or the end. *)
Fixpoint skip_to_close (s : list Z) : list Z :=
  match s with
  | [] => []
  | c :: s' => if c =? 41 then s else skip_to_close s'
  end.

Definition decode_context (st : DState) (tag : Z) : res Flow :=
  match dargs st with
  | VU32 v :: a =>
      let st := {| dsyntax := dsyntax st; pos := pos st; dargs := a; outs := outs st |} in
      if 32 <=? v then Ok (Next ER_FAIL st)
      else
        let! o := peek (dsyntax st) in
        let st := at_syntax st (advance (dsyntax st)) in
        if negb (o =? 40) then Ok (Next ER_FAIL st)
        else
          with_len ((Z.land tag ASN_CONTEXT_SPECIFIC =? ASN_CONTEXT_SPECIFIC) && (Z.land tag 31 =? v)) st (fun len st =>
            if Z.land tag ASN_CONSTRUCTED_ENCODING =? ASN_CONSTRUCTED_ENCODING then
              let p := pos st in
              let! r := DecodeV st len in
              let '(status, st) := r in
              let! c := peek (dsyntax st) in
              let st := at_syntax st (advance (dsyntax st)) in
              Ok (if negb (c =? 41) then Next ER_FAIL (at_pos st p)
                  else Next status (at_pos st (match status with ER_OK => p + len | _ => p end)))
            else
              match dsyntax st with
              | None => Undef
              | Some s =>
                  match skip_to_close s with
                  | _ :: s => Ok (Take len (at_syntax st (Some s)))
                  | [] => Ok (Next ER_FAIL (at_syntax st (Some [])))
                  end
              end)
  | _ => Undef
  end.

(** One case of the switch; [st] is behind the tag and behind the character. *)
Definition decode_case (c tag : Z) (syntax0 : Syntax) (st : DState) : res Flow :=
  if c =? 47 then (* / *) Ok (Next ER_OK (at_pos st (pos st - 1)))
  else if c =? 105 then decode_int st tag
  else if c =? 108 then decode_big st tag
  else if c =? 111 then decode_oid st tag
  else if c =? 98 then decode_bits st tag
  else if c =? 122 then decode_bool st tag
  else if c =? 110 then decode_null st tag
  else if c =? 40 then with_len (tag =? ASN_SEQ) st (fun len st => decode_block DecodeV 41 len st)
  else if c =? 123 then with_len (tag =? ASN_SET_OF) st (fun len st => decode_block DecodeV 125 len st)
  else if c =? 91 then with_len true st (fun len st => decode_block DecodeV 93 len st)
  else if c =? 99 then decode_context st tag
  else if c =? 63 then (* ? *)
    let start := pos st - 1 in
    with_len true st (fun len st =>
      let! s := match dargs st with PNull :: _ => Ok [] | _ => assign buf start (pos st + len - start) end in
      let! st := out_opt st s in
      Ok (Next ER_OK (at_pos st (pos st + len))))
  else if c =? 42 then (* * *)
    with_len true (at_syntax st syntax0) (fun len st => Ok (Next ER_OK (at_pos st (pos st + len))))
  else if c =? 46 then (* . *)
    let start := pos st - 1 in
    let! s := match dargs st with PNull :: _ => Ok [] | _ => assign buf start (eod - start) end in
    let! st := out_opt st s in
    Ok (Next ER_OK (at_pos st eod))
  else
    match string_tag c with
    | Some t => with_len (tag =? t) st (fun len st => Ok (Take len st))
    | None => Ok (Next ER_BAD_ARG_1 st)
    end.

(** After the loop: a wildcard or an optional element that was not there. *)
Definition decode_finish (status : QStatus) (st : DState) : res (QStatus * DState) :=
  let! c := peek (dsyntax st) in
  if c =? 42 then Ok (status, at_syntax st (advance (dsyntax st)))
  else if c =? 47 then
    let! st := out_str st [] in
    let! d := peek (advance (dsyntax st)) in
    if d =? 0 then Ok (ER_BAD_ARG_1, st) else Ok (status, at_syntax st (advance (advance (dsyntax st))))
  else Ok (status, st).

Definition masked_tag (tag : Z) : Z :=
  if negb (Z.land tag ASN_CONTEXT_SPECIFIC =? ASN_CONTEXT_SPECIFIC) then Z.land tag 31 else tag.
End Cases.

(** Every turn takes a character of the syntax or bytes of the data. *)
Fixpoint decode_loop (fuel : nat) (buf : list Z) (eod : Z) (st : DState) : res (QStatus * DState) :=
  match fuel with
  | O => Undef
  | S fuel =>
      if pos st <? eod then
        let! tag := byte_at buf (pos st) in
        let! c := peek (dsyntax st) in
        let st1 := {| dsyntax := advance (dsyntax st); pos := pos st + 1; dargs := dargs st; outs := outs st |} in
        let rec (st : DState) (len : Z) :=
          if len =? 0 then Ok (ER_FAIL, st) else decode_loop fuel buf (pos st + len) st in
        let! f := decode_case buf eod rec c (masked_tag tag) (dsyntax st) st1 in
        match f with
        | Next ER_OK st => decode_loop fuel buf eod st
        | Next status st => decode_finish status st
        | Take len st =>
            let! s := assign buf (pos st) len in
            let! st := out_str st s in
            decode_loop fuel buf eod (at_pos st (pos st + len))
        end
      else decode_finish ER_OK st
  end.

Definition DecodeV (fuel : nat) (buf : list Z) (syntax : list Z) (args : list DArg) (asnLen : Z) : res (QStatus * DState) :=
  let st := {| dsyntax := Some syntax; pos := 0; dargs := args; outs := [] |} in
  if asnLen =? 0 then Ok (ER_FAIL, st) else decode_loop fuel buf asnLen st.

Definition decode_fuel (buf syntax : list Z) : nat := S (length buf + length syntax).

(** From a pointer and a length, and from a string, behind which is a NUL. *)
Definition Decode (asn : list Z) (syntax : list Z) (args : list DArg) : res (QStatus * list DVal) :=
  let! r := DecodeV (decode_fuel asn syntax) asn syntax args (zlen asn) in Ok (r.1, outs r.2).
Definition Decode_string (asn : list Z) (syntax : list Z) (args : list DArg) : res (QStatus * list DVal) :=
  let! r := DecodeV (decode_fuel asn syntax) (asn ++ [0]) syntax args (zlen asn) in Ok (r.1, outs r.2).

End ASN1.
