(* ===== verification/ASN1Proofs.v ===== *)
(** Lemmas on ASN1: base 64, the length octets, integers, object identifiers. *)
From S2P Require Import Prelude Types BusUtil IPAddress StringUtil ASN1.
Import ASN1.


Ltac euclid := Z.to_euclidean_division_equations; lia.

(** * Base 64 *)

Lemma B64_inverse d : 0 <= d < 64 ->
  B64Decode (char_index (B64Encode d)) = Ok d /\ B64Encode d <> 10.
Proof.
  intros Hd. unfold B64Encode, char_index, B64Decode.
  repeat (case_match; try lia); split; (try f_equal); lia.
Qed.

Lemma B64Encode_0 : B64Decode (char_index (B64Encode 0)) = Ok 0.
Proof. by apply B64_inverse. Qed.

Lemma land_63 n : Z.land n 63 = n mod 64.
Proof. change 63 with (Z.ones 6). by rewrite Z.land_ones. Qed.
Lemma land_255 n : Z.land n 255 = n mod 256.
Proof. change 255 with (Z.ones 8). by rewrite Z.land_ones. Qed.
Lemma land_127 n : Z.land n 127 = n mod 128.
Proof. change 127 with (Z.ones 7). by rewrite Z.land_ones. Qed.

(** The four groups of six bits of a 24-bit word. *)
Definition group (k n : Z) : Z := Z.land (Z.shiftr n k) 63.

Lemma group_bound k n : 0 <= group k n < 64.
Proof. unfold group. rewrite land_63. apply Z.mod_pos_bound. lia. Qed.
Lemma low_bound n : 0 <= Z.land n 63 < 64.
Proof. rewrite land_63. apply Z.mod_pos_bound. lia. Qed.

Lemma groups_join n : 0 <= n < 2 ^ 24 ->
  Z.lor (Z.lor (Z.lor (Z.shiftl (group 18 n) 18) (Z.shiftl (group 12 n) 12)) (Z.shiftl (group 6 n) 6)) (Z.land n 63) = n.
Proof.
  intros Hn. pose proof (group_bound 18 n). pose proof (group_bound 12 n). pose proof (group_bound 6 n).
  pose proof (low_bound n). rewrite !Z.shiftl_mul_pow2 by lia.
  rewrite (Z.lor_comm _ (Z.land n 63)), (Z.lor_comm (Z.lor _ _) (group 6 n * _)), (Z.lor_comm (group 18 n * _)), !Z.lor_assoc.
  rewrite (lor_disjoint (Z.land n 63)), (lor_disjoint (_ + _)), lor_disjoint by lia.
  unfold group. rewrite !land_63, !Z.shiftr_div_pow2 by lia. euclid.
Qed.

(** The bytes of a word put together from bytes. *)
Lemma word_split x y z : is_byte x -> is_byte y -> is_byte z ->
  let n := Z.shiftl x 16 + Z.shiftl y 8 + z in
  0 <= n < 2 ^ 24 /\ Z.shiftr n 16 mod 256 = x /\ Z.shiftr n 8 mod 256 = y /\ n mod 256 = z.
Proof.
  unfold is_byte. intros. cbv zeta. rewrite !Z.shiftl_mul_pow2, !Z.shiftr_div_pow2 by lia.
  split_and!; euclid.
Qed.

(** Induction in steps of three. *)
Lemma triples_ind (P : list Z -> Prop) :
  P [] -> (forall x, P [x]) -> (forall x y, P [x; y]) -> (forall x y z l, P l -> P (x :: y :: z :: l)) ->
  forall l, P l.
Proof.
  intros H0 H1 H2 H3. fix IH 1. intros [|x [|y [|z l]]]; [apply H0|apply H1|apply H2|apply H3, IH].
Qed.

Definition pads (bin : list Z) : Z := (3 - zlen bin mod 3) mod 3.

(** The text without line breaks, a pad written as the character of zero. *)
Fixpoint quads (bin : list Z) : list Z :=
  let four n := [B64Encode (group 18 n); B64Encode (group 12 n); B64Encode (group 6 n); B64Encode (Z.land n 63)] in
  match bin with
  | x :: y :: z :: bin => four (Z.shiftl x 16 + Z.shiftl y 8 + z) ++ quads bin
  | [x; y] => four (Z.shiftl x 16 + Z.shiftl y 8 + 0)
  | [x] => four (Z.shiftl x 16 + Z.shiftl 0 8 + 0)
  | [] => []
  end.

Lemma strip_char d it : 0 <= d < 64 ->
  DecodeBase64_strip (B64Encode d :: it) 0 =
  let! r := DecodeBase64_strip it 0 in Ok ((fun '(b64, pad) => (B64Encode d :: b64, pad)) <$> r).
Proof.
  intros Hd. cbn [DecodeBase64_strip]. destruct (B64_inverse d Hd) as [-> _]. cbn [rbind].
  by assert (negb (d =? 255) && (0 =? 0) = true) as -> by lia.
Qed.

Lemma strip_newlines nl pad it : Forall (eq 10) nl -> DecodeBase64_strip (nl ++ it) pad = DecodeBase64_strip it pad.
Proof. induction 1 as [|? ? <- _ IH]; [done|]. cbn [app DecodeBase64_strip]. exact IH. Qed.

Lemma LineBreak_nl n lim : Forall (eq 10) (LineBreak n lim).2.
Proof. unfold LineBreak. case_match; by repeat constructor. Qed.
Lemma strip_last n pad : DecodeBase64_strip (if n =? 0 then [] else [10]) pad = Ok (Some ([], pad)).
Proof. case_match; done. Qed.

(** What the decoder strips the encoder's text to. *)
Lemma strip_encoded bin : forall lbreak,
  DecodeBase64_strip (EncodeBase64_loop bin lbreak) 0 = Ok (Some (quads bin, pads bin)).
Proof.
  induction bin as [|x|x y|x y z bin IH] using triples_ind; intros lb; cbn [EncodeBase64_loop].
  - rewrite strip_last. done.
  - pose proof (LineBreak_nl lb 16) as Hnl. destruct (LineBreak lb 16) as [lb' nl]. cbn [app].
    rewrite !strip_char by apply group_bound. cbn [DecodeBase64_strip].
    change (B64Decode (char_index pad_char)) with (Ok (E:=QStatus) 255). cbn.
    rewrite strip_newlines by done. rewrite strip_last.
    cbn [quads fmap option_fmap option_map app rbind]. unfold group. change (Z.shiftl 0 8) with 0.
    rewrite !Z.add_0_r, !land_63, !Z.shiftr_div_pow2, !Z.shiftl_mul_pow2 by lia. do 3 f_equal.
    assert ((x * 2 ^ 16 / 2 ^ 6) mod 64 = 0 /\ (x * 2 ^ 16) mod 64 = 0) as [-> ->] by (split; euclid). done.
  - pose proof (LineBreak_nl lb 16) as Hnl. destruct (LineBreak lb 16) as [lb' nl]. cbn [app].
    rewrite !strip_char by apply group_bound. cbn [DecodeBase64_strip].
    change (B64Decode (char_index pad_char)) with (Ok (E:=QStatus) 255). cbn.
    rewrite strip_newlines by done. rewrite strip_last.
    cbn [quads fmap option_fmap option_map app rbind]. unfold group. rewrite !Z.add_0_r. do 3 f_equal. rewrite (land_63 (_ + _)).
    assert ((Z.shiftl x 16 + Z.shiftl y 8) mod 64 = 0) as ->; [|done]. rewrite !Z.shiftl_mul_pow2 by lia. euclid.
  - pose proof (LineBreak_nl lb 16) as Hnl. destruct (LineBreak lb 16) as [lb' nl]. cbn [app].
    rewrite !strip_char by (apply group_bound || apply low_bound). rewrite strip_newlines, IH by done.
    cbn. do 3 f_equal. unfold pads. cbn [length]. f_equal. f_equal. rewrite !Nat2Z.inj_succ. euclid.
Qed.

Lemma quads_size bin : zlen (quads bin) mod 4 = 0 /\ 3 * zlen (quads bin) = 4 * (zlen bin + pads bin).
Proof.
  unfold pads. induction bin as [|x|x y|x y z bin IH] using triples_ind; [done..|].
  cbn [quads app length]. rewrite !Nat2Z.inj_succ. split; euclid.
Qed.

(** One turn of the decoder's loop. *)
Lemma decode_four n it : 0 <= n < 2 ^ 24 ->
  DecodeBase64_loop (B64Encode (group 18 n) :: B64Encode (group 12 n) :: B64Encode (group 6 n) :: B64Encode (Z.land n 63) :: it) =
  let! r := DecodeBase64_loop it in Ok (Z.shiftr n 16 mod 256 :: Z.shiftr n 8 mod 256 :: n mod 256 :: r).
Proof.
  intros Hn. cbn [DecodeBase64_loop].
  destruct (B64_inverse (group 18 n)) as [-> _]; [apply group_bound|].
  destruct (B64_inverse (group 12 n)) as [-> _]; [apply group_bound|].
  destruct (B64_inverse (group 6 n)) as [-> _]; [apply group_bound|].
  destruct (B64_inverse (Z.land n 63)) as [-> _]; [apply low_bound|].
  cbn [rbind]. by rewrite groups_join.
Qed.

(** The quads of a triple of bytes decode to it. *)
Lemma decode_quads bin : Forall is_byte bin ->
  DecodeBase64_loop (quads bin) = Ok (bin ++ replicate (Z.to_nat (pads bin)) 0).
Proof.
  induction bin as [|x|x y|x y z bin IH] using triples_ind; intros Hb; rewrite ?Forall_cons in Hb; cbn [quads app].
  - done.
  - destruct Hb as [Hx _]. destruct (word_split x 0 0) as (Hn & E1 & E2 & E3); [done..|].
    rewrite decode_four, E1, E2, E3 by exact Hn. done.
  - destruct Hb as (Hx & Hy & _). destruct (word_split x y 0) as (Hn & E1 & E2 & E3); [done..|].
    rewrite decode_four, E1, E2, E3 by exact Hn. done.
  - destruct Hb as (Hx & Hy & Hz & Hb). destruct (word_split x y z) as (Hn & E1 & E2 & E3); [done..|].
    rewrite decode_four, E1, E2, E3 by exact Hn. rewrite IH by done. cbn [rbind].
    assert (pads (x :: y :: z :: bin) = pads bin) as ->; [|done].
    unfold pads. cbn [length]. rewrite !Nat2Z.inj_succ. euclid.
Qed.

Lemma Base64_decodes bin : Forall is_byte bin -> DecodeBase64 (EncodeBase64 bin) = Ok bin.
Proof.
  intros Hb. unfold DecodeBase64, EncodeBase64. rewrite strip_encoded. cbn [rbind].
  destruct (quads_size bin) as [Hm Hs]. assert (0 <= pads bin <= 2) as Hp.
  { unfold pads. euclid. }
  assert ((2 <? pads bin) || negb (zlen (quads bin) mod 4 =? 0) = false) as -> by (rewrite Hm; lia).
  rewrite decode_quads by done. cbn [rbind]. rewrite length_app, length_replicate.
  case_match eqn:E; [rewrite (proj1 (Z.eqb_eq _ _) E); by rewrite app_nil_r|].
  assert ((Z.of_nat (length bin + Z.to_nat (pads bin)) <? pads bin) = false) as -> by (apply Z.ltb_ge; rewrite Nat2Z.inj_add, Z2Nat.id by lia; lia).
  f_equal. rewrite take_app_le, take_ge; [done|rewrite Nat2Z.inj_add, Z2Nat.id by lia; lia..].
Qed.

(** * Lengths *)

Lemma byte_at_has_at buf p b : has_at buf p [b] -> byte_at buf p = Ok b.
Proof.
  intros (Hp & suf & Hs). unfold byte_at. assert ((p <? 0) = false) as -> by lia.
  rewrite <- (Nat.add_0_r (Z.to_nat p)), <- lookup_drop, Hs. done.
Qed.

Lemma byte_at_Ok buf p b : byte_at buf p = Ok b -> has_at buf p [b].
Proof.
  unfold byte_at. intros H. inv_Ok. destruct (buf !! Z.to_nat p) eqn:E; [|done]. inv_Ok.
  split; [lia|]. exists (drop (S (Z.to_nat p)) buf). by apply drop_S.
Qed.

Lemma be32_value v : 0 <= v < 2 ^ 32 -> be_value 0 (be32 v) = v.
Proof.
  intros Hv. unfold be_value, be32. cbn [fold_left]. rewrite land_255, !Z.shiftl_mul_pow2, !Z.shiftr_div_pow2 by lia.
  euclid.
Qed.

(** The big-endian value of bytes, not wrapped. *)
Definition big (v : Z) (bytes : list Z) : Z := fold_left (fun v b => v * 256 + b) bytes v.

Lemma big_cons v b bytes : big v (b :: bytes) = big (v * 256 + b) bytes.
Proof. done. Qed.

Lemma big_bounds v bytes : Forall is_byte bytes -> 0 <= v ->
  v * 256 ^ zlen bytes <= big v bytes < (v + 1) * 256 ^ zlen bytes.
Proof.
  intros Hb. revert v. induction Hb as [|b bytes Hb _ IH]; intros v Hv; [cbn; lia|].
  rewrite big_cons. cbn [length]. rewrite Nat2Z.inj_succ, Z.pow_succ_r by lia. unfold is_byte in Hb.
  specialize (IH (v * 256 + b) ltac:(lia)). pose proof (Z.pow_pos_nonneg 256 (zlen bytes)). nia.
Qed.

(** Once a length has wrapped it stays above all sizes of buffers: the test
    against wrapping lets through only values that are too large anyway. *)
Lemma shift_wraps l : 0 <= l < 2 ^ 64 -> (Z.shiftl l 8 mod 2 ^ 64 <? l) = false ->
  forall b, is_byte b ->
  let l' := (Z.shiftl l 8 + b) mod 2 ^ 64 in
  0 <= l' < 2 ^ 64 /\ (l' = l * 256 + b \/ 2 ^ 56 <= l') /\ (2 ^ 56 <= l -> 2 ^ 56 <= l').
Proof.
  unfold is_byte. intros Hl Hw b Hb. cbv zeta. rewrite Z.shiftl_mul_pow2 in * by lia. split_and!; euclid.
Qed.

Lemma DecodeLen_loop_exact n buf eod : Forall is_byte buf -> forall p l,
  0 <= p -> 0 <= l < 2 ^ 64 ->
  forall len q, DecodeLen_loop n buf p eod l = Ok (Some (len, q)) ->
  q = p + Z.of_nat n /\ (2 ^ 56 <= l -> 2 ^ 56 <= len) /\
  exists bytes, length bytes = n /\ has_at buf p bytes /\ (len < 2 ^ 56 -> len = big l bytes).
Proof.
  intros Hbuf. induction n as [|n IH]; intros p l Hp Hl len q H; cbn [DecodeLen_loop] in H.
  { injection H as <- <-. split_and!; [lia..|]. exists []. split_and!; [done|by apply has_at_nil|done]. }
  inv_Ok; [done..|]. apply byte_at_Ok in H0.
  assert (is_byte x) as Hx.
  { destruct H0 as (_ & suf & Hd). apply (f_equal (Forall is_byte)) in Hd.
    assert (Forall is_byte ([x] ++ suf)) as Hf by (rewrite <- Hd; by apply Forall_drop).
    by apply Forall_cons in Hf as [? _]. }
  destruct (shift_wraps l Hl Heqb0 x Hx) as (Hl' & Hor & Hbig).
  apply IH in H as (-> & Hmono & bytes & Hn & Hat & Hlen); [|lia|done].
  split_and!; [lia|by auto|]. exists (x :: bytes). split_and!; [cbn; lia|by apply has_at_cons|].
  intros Hs. rewrite big_cons. destruct Hor as [<-|Hge]; [by auto|]. specialize (Hmono Hge). lia.
Qed.

Lemma DecodeLen_loop_defined n buf eod : eod <= zlen buf -> forall p l,
  0 <= p -> defined (DecodeLen_loop n buf p eod l).
Proof.
  intros He. induction n as [|n IH]; intros p l Hp; cbn [DecodeLen_loop]; [done|].
  repeat (case_match; [done|]). unfold byte_at. assert ((p <? 0) = false) as -> by lia.
  destruct (lookup_lt_is_Some_2 buf (Z.to_nat p)) as [b ->]; [lia|]. apply IH. lia.
Qed.

(** The bytes of the encoder are read back by the decoder's loop. *)
Lemma DecodeLen_loop_reads bytes buf eod : Forall is_byte bytes -> forall p l,
  has_at buf p bytes -> p + zlen bytes <= eod -> 0 <= l -> (l + 1) * 256 ^ zlen bytes <= 2 ^ 32 ->
  DecodeLen_loop (length bytes) buf p eod l = Ok (Some (big l bytes, p + zlen bytes)).
Proof.
  induction 1 as [|b bytes Hb Hbs IH]; intros p l Hat He Hl Hbig.
  { cbn. do 3 f_equal. lia. }
  cbn [length] in *. rewrite Nat2Z.inj_succ, Z.pow_succ_r in * by lia. cbn [DecodeLen_loop].
  apply has_at_cons in Hat as [Hat1 Hat]. pose proof (Z.pow_pos_nonneg 256 (zlen bytes)). unfold is_byte in Hb.
  assert (l < 2 ^ 24) by nia. assert ((eod <=? p) = false) as -> by lia.
  rewrite Z.shiftl_mul_pow2 by lia. assert (((l * 2 ^ 8) mod 2 ^ 64 <? l) = false) as -> by euclid.
  rewrite (byte_at_has_at _ _ _ Hat1). cbn [rbind]. rewrite Z.mod_small by lia.
  rewrite IH by (done || lia || nia). rewrite big_cons. do 3 f_equal. lia.
Qed.

Lemma skip_zero_bytes_cases v bytes :
  skip_zero_bytes v = Ok bytes -> exists n, v = replicate n 0 ++ bytes /\ hd 0 bytes <> 0 /\ bytes <> [].
Proof.
  induction v as [|b v IH]; [done|]. cbn. case_match eqn:E.
  - intros H. apply IH in H as (n & -> & ? & ?). exists (S n). split_and!; [cbn; f_equal; lia|done..].
  - intros H. inv_Ok. exists O. split_and!; [done|cbn; lia|done].
Qed.

Lemma skip_zero_bytes_defined v : Exists (fun b => b <> 0) v -> exists bytes, skip_zero_bytes v = Ok bytes.
Proof.
  induction 1 as [b v Hb|b v _ IH]; cbn.
  - assert ((b =? 0) = false) as -> by lia. eauto.
  - case_match; eauto.
Qed.

Lemma big_zeros n bytes : big 0 (replicate n 0 ++ bytes) = big 0 bytes.
Proof. induction n; [done|]. exact IHn. Qed.

(** A fact on bytes that evaluates to true on all of them. *)
Lemma every_byte (f : Z -> bool) : forallb f (seqZ 0 256) = true -> forall b, is_byte b -> f b = true.
Proof. intros H b Hb. apply forallb_forall with (x := b) in H; [done|]. apply list_elem_of_In, elem_of_seqZ. unfold is_byte in Hb. lia. Qed.

Lemma high_bit b : is_byte b -> (Z.land b 128 =? 0) = (b <? 128).
Proof.
  intros Hb. apply Bool.eqb_prop. revert b Hb. apply (every_byte (fun b => Bool.eqb (Z.land b 128 =? 0) (b <? 128))).
  by vm_compute.
Qed.

Lemma set_high_bit x : 0 <= x -> Z.lor x 128 mod 256 = x mod 128 + 128.
Proof.
  intros Hx. change 256 with (2 ^ 8) at 1. rewrite <- Z.land_ones, Z.land_lor_distr_l, Z.land_ones by lia.
  change (Z.land 128 (Z.ones 8)) with 128. replace (x mod 128) with ((x mod 2 ^ 8) mod 128) by euclid.
  assert (is_byte (x mod 2 ^ 8)) as Hb by (unfold is_byte; apply Z.mod_pos_bound; lia).
  apply Z.eqb_eq. revert Hb. generalize (x mod 2 ^ 8).
  apply (every_byte (fun b => Z.lor b 128 =? b mod 128 + 128)). by vm_compute.
Qed.

Lemma be32_bytes v : Forall is_byte (be32 v).
Proof. unfold be32. rewrite land_255. repeat constructor; apply Z.mod_pos_bound; lia. Qed.

Lemma be32_big v : 0 <= v < 2 ^ 32 -> big 0 (be32 v) = v.
Proof. intros Hv. unfold big, be32. cbn [fold_left]. rewrite land_255, !Z.shiftr_div_pow2 by lia. euclid. Qed.

(** The bytes of a number without the leading zeros. *)
Lemma minimal_bytes v : 0 < v < 2 ^ 32 -> exists bytes, skip_zero_bytes (be32 v) = Ok bytes /\
  Forall is_byte bytes /\ 1 <= zlen bytes <= 4 /\ hd 0 bytes <> 0 /\ big 0 bytes = v.
Proof.
  intros Hv. destruct (skip_zero_bytes_defined (be32 v)) as [bytes Hb].
  { destruct (decide (Exists (fun b => b <> 0) (be32 v))) as [?|Hn]; [done|].
    pose proof (be32_big v ltac:(lia)) as Hv'. unfold be32 in *. rewrite !Exists_cons, Exists_nil in Hn. cbn in Hv'. lia. }
  exists bytes. split; [done|]. apply skip_zero_bytes_cases in Hb as (n & Hn & Hh & Hne).
  pose proof (be32_bytes v) as Hbs. pose proof (be32_big v ltac:(lia)) as Hbig.
  pose proof (f_equal length Hn) as Hlen. rewrite length_app in Hlen. rewrite Hn in Hbs, Hbig.
  apply Forall_app in Hbs as [_ Hbs]. rewrite big_zeros in Hbig. cbn [be32 length] in Hlen.
  split_and!; [done|destruct bytes; [done|cbn; lia]|lia|done..].
Qed.

(** [lb] are the length octets of [len]: every reader finds [len] in them. *)
Definition reads_len (len : Z) (lb : list Z) : Prop :=
  1 <= zlen lb <= 5 /\ forall buf p eod,
    has_at buf p lb -> p + zlen lb + len <= eod -> DecodeLen buf p eod = Ok (Some (len, p + zlen lb)).

Lemma EncodeLen_reads len : 0 <= len < 2 ^ 32 -> exists lb, EncodeLen len = Ok lb /\ reads_len len lb.
Proof.
  intros Hl. unfold EncodeLen. case_match eqn:E.
  - exists [len]. split; [done|]. split; [cbn [length]; lia|].
    intros buf p eod Hat He. cbn [length] in *. unfold DecodeLen.
    assert ((eod <=? p) = false) as -> by lia. rewrite (byte_at_has_at _ _ _ Hat). cbn [rbind].
    rewrite high_bit by (unfold is_byte; lia). rewrite E. cbn [negb rbind].
    by assert ((len <=? eod - (p + 1)) = true) as -> by lia.
  - destruct (minimal_bytes len) as (bytes & Hs & Hb & Hn & _ & Hbig); [lia|]. rewrite Hs. cbn [rbind].
    eexists. split; [done|].
    assert (Z.lor (zlen bytes) 128 = zlen bytes + 128) as ->.
    { assert (zlen bytes = 1 \/ zlen bytes = 2 \/ zlen bytes = 3 \/ zlen bytes = 4) as [->|[->|[->| ->]]] by lia; done. }
    split; [cbn [length]; lia|].
    intros buf p eod Hat He. apply has_at_cons in Hat as [Hat1 Hat]. cbn [length] in *.
    unfold DecodeLen. assert ((eod <=? p) = false) as -> by lia.
    rewrite (byte_at_has_at _ _ _ Hat1). cbn [rbind].
    rewrite high_bit by (unfold is_byte; lia). assert ((zlen bytes + 128 <? 128) = false) as -> by lia. cbn [negb].
    rewrite land_127. replace ((zlen bytes + 128) mod 128) with (zlen bytes) by euclid. rewrite Nat2Z.id.
    assert (256 ^ zlen bytes <= 256 ^ 4) by (apply Z.pow_le_mono_r; lia).
    rewrite DecodeLen_loop_reads by (done || lia). cbn [rbind]. rewrite Hbig.
    assert ((len <=? eod - (p + 1 + zlen bytes)) = true) as -> by lia. do 3 f_equal. lia.
Qed.

(** * Integers *)

Lemma be_value_big bytes : Forall is_byte bytes -> forall v, 0 <= v ->
  be_value (v mod 2 ^ 32) bytes = big v bytes mod 2 ^ 32.
Proof.
  induction 1 as [|b bytes Hb _ IH]; intros v Hv; [done|]. unfold be_value in *. rewrite big_cons.
  cbn [fold_left]. unfold is_byte in Hb. rewrite <- IH by lia. f_equal. rewrite Z.shiftl_mul_pow2 by lia. euclid.
Qed.

Lemma encode_int_shape v : 0 <= v < 2 ^ 32 -> exists lb m, encode_int v = Ok (ASN_INTEGER :: lb ++ m) /\
  reads_len (zlen m) lb /\ 1 <= zlen m <= 5 /\ Forall is_byte m /\ be_value 0 m = v.
Proof.
  intros Hv. unfold encode_int. case_match eqn:E; cbn [negb] in *.
  2:{ exists [1], [0]. destruct (EncodeLen_reads 1) as (lb & Hlb & Hr); [lia|]. injection Hlb as <-.
      split_and!; [done|done|cbn; lia..|by constructor|change (0 = v); lia]. }
  cbn [skip_zero_bytes]. rewrite Z.eqb_refl.
  destruct (minimal_bytes v) as (bytes & Hs & Hb & Hn & Hh & Hbig); [lia|]. rewrite Hs. cbn [rbind].
  set (m := if _ : bool then 0 :: bytes else bytes).
  assert (Forall is_byte m /\ 1 <= zlen m <= 5 /\ big 0 m = v) as (Hm & Hlen & Hv').
  { subst m. case_match; [|split_and!; [done|lia..|done]].
    split_and!; [by constructor|cbn [length]; lia..|done]. }
  destruct (EncodeLen_reads (zlen m)) as (lb & -> & Hr); [lia|]. cbn [rbind].
  exists lb, m. split_and!; [done..|lia|lia|done|].
  pose proof (be_value_big m Hm 0 ltac:(lia)) as Hbe. rewrite Hv' in Hbe. rewrite !Z.mod_small in Hbe by lia. done.
Qed.

Lemma strip_zeros_hd s : strip_zeros s <> [] -> hd 0 (strip_zeros s) <> 0.
Proof. induction s as [|c s IH]; [done|]. cbn. case_match; [done|cbn; lia]. Qed.

Lemma zlen_strip_zeros s : zlen (strip_zeros s) <= zlen s.
Proof. induction s as [|c s IH]; cbn; [done|]. case_match; cbn [length]; lia. Qed.

Lemma encode_big_shape s : strip_zeros s <> [] -> zlen s < 2 ^ 32 - 1 ->
  exists lb m, encode_big s = Ok (ER_OK, ASN_INTEGER :: lb ++ m) /\ reads_len (zlen m) lb /\
    (m = strip_zeros s \/ m = 0 :: strip_zeros s).
Proof.
  intros Hne Hl. pose proof (zlen_strip_zeros s) as Hz. destruct s as [|c s]; [done|]. unfold encode_big.
  set (t := strip_zeros (c :: s)) in *. case_match.
  - destruct (EncodeLen_reads (zlen (0 :: t))) as (lb & Hlb & Hr); [cbn [length] in *; lia|].
    exists lb, (0 :: t). split_and!; [|done|by right].
    replace (zlen t + 1) with (zlen (0 :: t)) by (cbn [length]; lia). by rewrite Hlb.
  - destruct (EncodeLen_reads (zlen t)) as (lb & Hlb & Hr); [lia|].
    exists lb, t. split_and!; [by rewrite Hlb|done|by left].
Qed.

(** * Bit strings *)

(** The first [n] bits, zero up to the end of the last byte. *)
Definition unused_bits (n : Z) : Z := (8 - n) mod 8.
Definition first_bits (val : list Z) (n : Z) : list Z :=
  let len := (n + 7) / 8 in
  take (Z.to_nat (len - 1)) val ++
  [Z.land (default 0 (val !! Z.to_nat (len - 1))) (Z.shiftl 255 (unused_bits n) mod 256)].

Lemma zlen_first_bits val n : 1 <= n <= 8 * zlen val -> zlen (first_bits val n) = (n + 7) / 8.
Proof. intros Hn. unfold first_bits. rewrite length_app, length_take. cbn [length]. euclid. Qed.

Lemma bits_size n : 1 <= n -> (n + 7) / 8 * 8 - unused_bits n = n /\ 0 <= unused_bits n <= 7.
Proof. intros Hn. unfold unused_bits. split; euclid. Qed.

Lemma land_byte_r a b : is_byte b -> is_byte (Z.land a b).
Proof.
  unfold is_byte. intros Hb. assert (0 <= Z.land a b) by (apply Z.land_nonneg; lia). split; [done|].
  rewrite <- (Z.mod_small b 256) by lia. change 256 with (2 ^ 8). rewrite <- Z.land_ones, Z.land_assoc, Z.land_ones by lia.
  apply Z.mod_pos_bound. lia.
Qed.

Lemma encode_bits_shape val n : 1 <= n <= 8 * zlen val -> zlen val < 2 ^ 32 - 1 ->
  exists lb, encode_bits val n = Ok (ER_OK, ASN_BITS :: lb ++ unused_bits n :: first_bits val n) /\
    reads_len (zlen (unused_bits n :: first_bits val n)) lb.
Proof.
  intros Hn Hl. pose proof (zlen_first_bits val n Hn) as Hz. unfold encode_bits.
  assert ((n <=? zlen val * 8) = true) as -> by lia.
  destruct (EncodeLen_reads (zlen (unused_bits n :: first_bits val n))) as (lb & Hlb & Hr).
  { cbn [length]. rewrite Nat2Z.inj_succ, Hz. euclid. }
  exists lb. split; [|done]. replace ((n + 7) / 8 + 1) with (zlen (unused_bits n :: first_bits val n)) by (cbn [length]; lia).
  rewrite Hlb. cbn [rbind]. assert (((n + 7) / 8 =? 0) = false) as -> by euclid.
  unfold byte_at, first_bits. assert (((n + 7) / 8 - 1 <? 0) = false) as -> by euclid.
  destruct (lookup_lt_is_Some_2 val (Z.to_nat ((n + 7) / 8 - 1))) as [b Hb]; [euclid|]. rewrite Hb.
  cbn [rbind default]. assert (Z.land (8 - n) 7 = unused_bits n) as ->; [|done].
  change 7 with (Z.ones 3). by rewrite Z.land_ones.
Qed.

(** * Object identifiers *)

Lemma decimal_digit c : CharToU8 c < 10 -> 48 <= c <= 57 /\ CharToU8 c = c - 48.
Proof. unfold CharToU8. intros. repeat case_match; lia. Qed.

Definition text10 (v : Z) : list Z := match u32_text v with Ok s => s | _ => [] end.

Lemma text10_ok v : 0 <= v -> u32_text v = Ok (text10 v) /\ text_of 10 v (text10 v).
Proof.
  intros Hv. unfold text10, u32_text, U32ToString, UToString.
  destruct (digit_loop_text 10 (digit_fuel v) v []) as (ds & Hds & Ht);
    [lia|unfold digit_fuel; lia|split; [done|by apply digit_fuel_enough]|].
  cbn [Nat.eqb Nat.pred fill_loop rbind]. change ((0 <? 10) && (10 <=? 16)) with true. cbv iota.
  rewrite Hds, app_nil_r. cbn [rbind app]. destruct ds as [|d ds]; [by destruct Ht|done].
Qed.

Definition fold10 (ds : list Z) (accum : Z) : Z :=
  fold_left (fun a c => (a * 10 + CharToU8 c) mod 2 ^ 32) ds accum.

Lemma oid_numbers_digits ds it nums : Forall (fun c => CharToU8 c < 10) ds -> forall accum,
  oid_numbers (ds ++ it) accum nums = oid_numbers it (fold10 ds accum) nums.
Proof.
  induction 1 as [|c ds Hc _ IH]; intros accum; [done|]. apply decimal_digit in Hc as [Hr He].
  cbn [app oid_numbers]. assert ((c =? 46) = false) as -> by lia.
  assert ((48 <=? c) && (c <=? 57) = true) as -> by lia. rewrite IH. unfold fold10. cbn [fold_left].
  do 3 f_equal. lia.
Qed.

Lemma number_loop_fold ds : Forall (fun c => CharToU8 c < 10) ds -> forall bad val,
  number_loop 32 10 ds bad val = if bad && bool_decide (ds = []) then None else Some (fold10 ds val).
Proof.
  induction 1 as [|c ds Hc _ IH]; intros bad val; [by destruct bad|].
  rewrite number_loop_digit, IH by lia. rewrite andb_false_r. done.
Qed.

Lemma fold10_text v : 0 <= v < 2 ^ 32 -> fold10 (text10 v) 0 = v.
Proof.
  intros Hv. destruct (text10_ok v) as [_ (Hne & Hd & _ & _ & _ & Hn)]; [lia|].
  specialize (Hn 32 [] true 0 ltac:(lia)). rewrite app_nil_r, number_loop_fold in Hn by done.
  rewrite bool_decide_false in Hn by done. cbn [andb] in Hn. rewrite Z.mul_0_l, Z.add_0_l, wrap_u_small in Hn by done.
  cbn in Hn. by injection Hn.
Qed.

(** Dotted text: the numbers behind dots, and a whole identifier. *)
Definition dotted_arcs (arcs : list Z) : list Z := concat (map (fun v => 46 :: text10 v) arcs).
Definition oid_text (a0 a1 : Z) (arcs : list Z) : list Z := text10 a0 ++ 46 :: text10 a1 ++ dotted_arcs arcs.

Definition arc (v : Z) : Prop := 0 <= v < 2 ^ 32.

Lemma oid_numbers_text v it nums : arc v ->
  oid_numbers (text10 v ++ it) 0 nums = oid_numbers it v nums.
Proof.
  intros Hv. destruct (text10_ok v) as [_ (_ & Hd & _)]; [unfold arc in Hv; lia|].
  by rewrite oid_numbers_digits, fold10_text.
Qed.

Lemma oid_numbers_dotted arcs : Forall arc arcs -> forall v nums,
  oid_numbers (dotted_arcs arcs) v nums = nums ++ v :: arcs.
Proof.
  induction 1 as [|w arcs Hw _ IH]; intros v nums; [done|].
  unfold dotted_arcs. cbn [map concat app oid_numbers]. rewrite Z.eqb_refl, oid_numbers_text by done.
  fold (dotted_arcs arcs). rewrite IH. by rewrite <- app_assoc.
Qed.

(** The seven-bit groups of an arc, the continuation bit set in all but the last. *)
Lemma b128_groups v : 0 <= v ->
  b128_bytes v = [(v / 2 ^ 28) mod 128 + 128; (v / 2 ^ 21) mod 128 + 128; (v / 2 ^ 14) mod 128 + 128;
                  (v / 2 ^ 7) mod 128 + 128; v mod 128].
Proof.
  intros Hv. unfold b128_bytes. rewrite !Z.shiftr_div_pow2, land_127 by lia.
  rewrite !set_high_bit by (apply Z.div_pos; lia). done.
Qed.

Lemma decode_arcs_more r p v : 0 <= r < 128 ->
  decode_arcs ((r + 128) :: p) v = decode_arcs p ((v * 128 + r) mod 2 ^ 32).
Proof.
  intros Hr. cbn [decode_arcs]. rewrite high_bit by (unfold is_byte; lia).
  assert ((r + 128 <? 128) = false) as -> by lia. rewrite Z.shiftl_mul_pow2 by lia. do 3 f_equal. euclid.
Qed.

Lemma decode_arcs_last r p v : 0 <= r < 128 -> 0 <= v ->
  decode_arcs (r :: p) v = let! t := decode_arcs p 0 in Ok (46 :: text10 ((v * 128 + r) mod 2 ^ 32) ++ t).
Proof.
  intros Hr Hv. cbn [decode_arcs]. rewrite high_bit by (unfold is_byte; lia).
  assert ((r <? 128) = true) as -> by lia. rewrite Z.shiftl_mul_pow2 by lia.
  rewrite (Z.mod_small r 128) by lia. destruct (text10_ok ((v * 2 ^ 7 + r) mod 2 ^ 32)) as [-> _]; [|done].
  apply Z.mod_pos_bound. lia.
Qed.

(** The decoder does not see the groups the encoder leaves out. *)
Lemma skip_empty_groups_decode bytes b p :
  skip_empty_groups bytes = Ok b -> decode_arcs (b ++ p) 0 = decode_arcs (bytes ++ p) 0.
Proof.
  induction bytes as [|c bytes IH]; [done|]. cbn [skip_empty_groups]. case_match eqn:E.
  - intros H. rewrite (IH H). replace c with (0 + 128) by lia. cbn [app]. by rewrite decode_arcs_more.
  - intros H. by inv_Ok.
Qed.

Lemma skip_empty_groups_ends bytes b : b < 128 -> exists r, skip_empty_groups (bytes ++ [b]) = Ok r.
Proof.
  intros Hb. induction bytes as [|c bytes [r Hr]]; cbn.
  - assert ((b =? 128) = false) as -> by lia. eauto.
  - case_match; eauto.
Qed.

Lemma skip_empty_groups_size bytes b :
  skip_empty_groups bytes = Ok b -> (length b <= length bytes)%nat /\ b <> [] /\ (Forall is_byte bytes -> Forall is_byte b).
Proof.
  induction bytes as [|c bytes IH]; [done|]. cbn [skip_empty_groups]. case_match.
  - intros Hb. apply IH in Hb as (? & ? & ?). split_and!; [cbn; lia|done|]. rewrite Forall_cons. tauto.
  - intros Hb. inv_Ok. done.
Qed.

Lemma encode_arc v : arc v -> exists b, skip_empty_groups (b128_bytes v) = Ok b /\ Forall is_byte b /\ (length b <= 5)%nat /\
  forall p, decode_arcs (b ++ p) 0 = let! t := decode_arcs p 0 in Ok (46 :: text10 v ++ t).
Proof.
  unfold arc. intros Hv. rewrite b128_groups by lia.
  set (g k := (v / 2 ^ k) mod 128). assert (forall k, 0 <= g k < 128) as Hg by (intros; apply Z.mod_pos_bound; lia).
  fold (g 28) (g 21) (g 14) (g 7).
  destruct (skip_empty_groups_ends [g 28 + 128; g 21 + 128; g 14 + 128; g 7 + 128] (v mod 128)) as [b Hb].
  { apply Z.mod_pos_bound. lia. }
  cbn [app] in Hb. exists b. pose proof (skip_empty_groups_size _ _ Hb) as (Hlen & _ & Hbytes).
  split_and!; [done| |done|].
  - apply Hbytes. unfold is_byte. pose proof (Z.mod_pos_bound v 128).
    repeat constructor; try (pose proof (Hg 28); pose proof (Hg 21); pose proof (Hg 14); pose proof (Hg 7); lia).
  - intros p. rewrite (skip_empty_groups_decode _ _ p Hb). cbn [app].
    rewrite !decode_arcs_more by apply Hg. rewrite decode_arcs_last; [|apply Z.mod_pos_bound; lia..].
    destruct (decode_arcs p 0) as [t| |]; cbn [rbind]; [|done..]. do 4 f_equal.
    subst g. cbv beta. clear Hg Hb Hbytes. euclid.
Qed.

Lemma encode_arcs_reads arcs : Forall arc arcs -> exists b, encode_arcs arcs = Ok b /\ Forall is_byte b /\
  zlen b <= 5 * zlen arcs /\ decode_arcs b 0 = Ok (dotted_arcs arcs).
Proof.
  induction 1 as [|v arcs Hv _ (b & He & Hb & Hlen & Hd)]; [by exists []|].
  destruct (encode_arc v Hv) as (a & Ha & Hba & Hla & Hda). exists (a ++ b).
  cbn [encode_arcs]. rewrite Ha, He. cbn [rbind]. split_and!; [done|by apply Forall_app| |].
  - rewrite length_app. cbn [length]. lia.
  - rewrite Hda, Hd. done.
Qed.

Lemma EncodeOID_reads a0 a1 arcs : 0 <= a0 -> 0 <= a1 < 40 -> a0 * 40 + a1 < 256 -> Forall arc arcs ->
  exists b, EncodeOID (oid_text a0 a1 arcs) = Ok (ER_OK, b) /\ Forall is_byte b /\ 1 <= zlen b <= 1 + 5 * zlen arcs /\
    DecodeOID b = Ok (oid_text a0 a1 arcs).
Proof.
  intros H0 H1 H01 Ha. unfold EncodeOID, oid_text.
  rewrite oid_numbers_text by (unfold arc; lia). cbn [oid_numbers]. rewrite Z.eqb_refl, oid_numbers_text by (unfold arc; lia).
  rewrite oid_numbers_dotted by done. cbn [app].
  destruct (encode_arcs_reads arcs Ha) as (b & -> & Hb & Hlen & Hd). cbn [rbind].
  rewrite !Z.mod_small by (rewrite ?Z.mod_small; lia). eexists. split; [done|].
  split_and!; [constructor; [unfold is_byte; lia|done]|cbn [length]; lia..|].
  cbn [DecodeOID]. replace ((a0 * 40 + a1) / 40) with a0 by euclid. replace ((a0 * 40 + a1) mod 40) with a1 by euclid.
  destruct (text10_ok a0) as [-> _]; [lia|]. destruct (text10_ok a1) as [-> _]; [lia|]. cbn [rbind]. by rewrite Hd.
Qed.
