(* ===== verification/ASN1Theorems.v ===== *)
(** The DER encoder and decoder of ASN1 against each other: trees of elements, the
    syntax string and the arguments they stand for, and the round trip; what the
    decoder does at its limits. *)
From S2P Require Import Prelude Types BusUtil IPAddress StringUtil ASN1 ASN1Proofs.
Import ASN1.


(** * Trees of elements *)

Inductive Leaf :=
| LInt (v : Z) | LBig (s : list Z) | LOid (a0 a1 : Z) (arcs : list Z) | LStr (c : Z) (s : list Z)
| LBits (s : list Z) (n : Z) | LNull | LBool (v : Z).

Inductive Block := BSeq | BSet | BContext (v : Z).

Inductive Items := Nil | Elem (l : Leaf) (rest : Items) | Nest (b : Block) (inner rest : Items).

(** The syntax string, the arguments of both sides and the values read. *)
Definition leaf_char (l : Leaf) : Z :=
  match l with LInt _ => 105 | LBig _ => 108 | LOid _ _ _ => 111 | LStr c _ => c | LBits _ _ => 98 | LNull => 110 | LBool _ => 122 end.
Definition leaf_eargs (l : Leaf) : list EArg :=
  match l with
  | LInt v | LBool v => [EU32 v] | LBig s | LStr _ s => [EStr s] | LOid a0 a1 arcs => [EStr (oid_text a0 a1 arcs)]
  | LBits s n => [EStr s; ESize n] | LNull => []
  end.
Definition leaf_dargs (l : Leaf) : list DArg :=
  match l with
  | LInt _ | LBool _ => [PU32] | LBig _ | LStr _ _ | LOid _ _ _ => [PStr] | LBits _ _ => [PStr; PSize] | LNull => []
  end.
Definition leaf_outs (l : Leaf) : list DVal :=
  match l with
  | LInt v => [OU32 v] | LBool v => [OU32 (if v =? 0 then 0 else 255)]
  | LBig s => [OStr (strip_zeros s)] | LStr _ s => [OStr s] | LOid a0 a1 arcs => [OStr (oid_text a0 a1 arcs)]
  | LBits s n => [OStr (first_bits s n); OSize n] | LNull => []
  end.
Definition leaf_ok (l : Leaf) : Prop :=
  match l with
  | LInt v => 0 <= v < 2 ^ 32
  | LBool _ | LNull => True
  | LBig s => strip_zeros s <> []
  | LOid a0 a1 arcs => 0 <= a0 /\ 0 <= a1 < 40 /\ a0 * 40 + a1 < 256 /\ Forall arc arcs
  | LStr c s => is_Some (string_tag c) /\ s <> []
  | LBits s n => 1 <= n <= 8 * zlen s
  end.

(** A bound on the bytes an element takes. *)
Definition leaf_weight (l : Leaf) : Z :=
  match l with
  | LInt _ => 11 | LBig s | LStr _ s | LBits s _ => zlen s + 7 | LOid _ _ arcs => 5 * zlen arcs + 7 | LNull => 2 | LBool _ => 3
  end.

Definition block_open (b : Block) : list Z := match b with BSeq => [40] | BSet => [123] | BContext _ => [99; 40] end.
Definition block_close (b : Block) : Z := match b with BSet => 125 | _ => 41 end.
Definition block_eargs (b : Block) : list EArg := match b with BContext v => [EU32 v] | _ => [] end.
Definition block_dargs (b : Block) : list DArg := match b with BContext v => [VU32 v] | _ => [] end.
Definition block_ok (b : Block) : Prop := match b with BContext v => 0 <= v < 32 | _ => True end.
Definition block_tag (b : Block) : Z := match b with BSeq => 48 | BSet => 49 | BContext v => Z.lor 160 v end.

Fixpoint syntax_of (it : Items) : list Z :=
  match it with
  | Nil => []
  | Elem l rest => leaf_char l :: syntax_of rest
  | Nest b inner rest => block_open b ++ syntax_of inner ++ block_close b :: syntax_of rest
  end.
Fixpoint eargs_of (it : Items) : list EArg :=
  match it with
  | Nil => []
  | Elem l rest => leaf_eargs l ++ eargs_of rest
  | Nest b inner rest => block_eargs b ++ eargs_of inner ++ eargs_of rest
  end.
Fixpoint dargs_of (it : Items) : list DArg :=
  match it with
  | Nil => []
  | Elem l rest => leaf_dargs l ++ dargs_of rest
  | Nest b inner rest => block_dargs b ++ dargs_of inner ++ dargs_of rest
  end.
Fixpoint outs_of (it : Items) : list DVal :=
  match it with
  | Nil => []
  | Elem l rest => leaf_outs l ++ outs_of rest
  | Nest _ inner rest => outs_of inner ++ outs_of rest
  end.
Fixpoint weight (it : Items) : Z :=
  match it with
  | Nil => 0
  | Elem l rest => leaf_weight l + weight rest
  | Nest _ inner rest => 6 + weight inner + weight rest
  end.
(** No block is empty. *)
Fixpoint items_ok (it : Items) : Prop :=
  match it with
  | Nil => True
  | Elem l rest => leaf_ok l /\ items_ok rest
  | Nest b inner rest => block_ok b /\ inner <> Nil /\ items_ok inner /\ items_ok rest
  end.

Lemma leaf_weight_pos l : 0 <= leaf_weight l.
Proof. destruct l; cbn [leaf_weight]; lia. Qed.
Lemma weight_pos it : 0 <= weight it.
Proof. induction it; cbn [weight]; [lia|pose proof (leaf_weight_pos l)|]; lia. Qed.

(** * Single turns *)

Section Turns.
Context (buf : list Z) (eod : Z).

Lemma with_len_reads n lb st k :
  reads_len n lb -> has_at buf (pos st) lb -> pos st + zlen lb + n <= eod ->
  with_len buf eod true st k = k n (at_pos st (pos st + zlen lb)).
Proof. intros (_ & Hr) Hat He. unfold with_len. by rewrite Hr. Qed.

Definition nested (fuel : nat) (st : DState) (len : Z) : res (QStatus * DState) :=
  if len =? 0 then Ok (ER_FAIL, st) else decode_loop fuel buf (pos st + len) st.

(** A turn of the loop that ends with [continue], and one that stores a string. *)
Lemma turn_next fuel c s p args o tag st :
  has_at buf p [tag] -> p < eod ->
  decode_case buf eod (nested fuel) c (masked_tag tag) (Some (c :: s)) {| dsyntax := Some s; pos := p + 1; dargs := args; outs := o |} =
    Ok (Next ER_OK st) ->
  decode_loop (S fuel) buf eod {| dsyntax := Some (c :: s); pos := p; dargs := args; outs := o |} = decode_loop fuel buf eod st.
Proof.
  intros Hat Hp Hc. cbn [decode_loop pos dsyntax peek advance dargs outs].
  assert ((p <? eod) = true) as -> by lia. rewrite (byte_at_has_at _ _ _ Hat). cbn [rbind].
  unfold nested in Hc. by rewrite Hc.
Qed.

Lemma turn_take fuel c s p args o tag q str :
  has_at buf p [tag] -> p < eod -> has_at buf q str -> str <> [] ->
  decode_case buf eod (nested fuel) c (masked_tag tag) (Some (c :: s)) {| dsyntax := Some s; pos := p + 1; dargs := PStr :: args; outs := o |} =
    Ok (Take (zlen str) {| dsyntax := Some s; pos := q; dargs := PStr :: args; outs := o |}) ->
  decode_loop (S fuel) buf eod {| dsyntax := Some (c :: s); pos := p; dargs := PStr :: args; outs := o |} =
  decode_loop fuel buf eod {| dsyntax := Some s; pos := q + zlen str; dargs := args; outs := o ++ [OStr str] |}.
Proof.
  intros Hat Hp Hstr Hne Hc. cbn [decode_loop pos dsyntax peek advance dargs outs].
  assert ((p <? eod) = true) as -> by lia. rewrite (byte_at_has_at _ _ _ Hat). cbn [rbind].
  unfold nested in Hc. rewrite Hc. cbn [rbind pos]. unfold assign, bytes_at.
  assert ((zlen str =? 0) = false) as -> by (apply Z.eqb_neq; destruct str; [done|cbn [length]; lia]).
  rewrite Nat2Z.id, rd_has_at by done. done.
Qed.

End Turns.

(** [bytes] encode the element: the encoder appends them and the decoder reads
    them back, wherever they are. *)
Definition codes (l : Leaf) (bytes : list Z) : Prop :=
  1 <= zlen bytes <= leaf_weight l /\
  (forall EV syntax args asn,
    encode_item EV (leaf_char l) syntax (leaf_eargs l ++ args) asn =
    Ok (ER_OK, {| esyntax := syntax; eargs := args; easn := asn ++ bytes |})) /\
  (forall fuel buf eod s p args o, has_at buf p bytes -> p + zlen bytes <= eod ->
    decode_loop (S fuel) buf eod {| dsyntax := Some (leaf_char l :: s); pos := p; dargs := leaf_dargs l ++ args; outs := o |} =
    decode_loop fuel buf eod {| dsyntax := Some s; pos := p + zlen bytes; dargs := args; outs := o ++ leaf_outs l |}).

(** An element of a tag and the bytes [body] behind it. *)
Lemma codes_next l tag body :
  1 + zlen body <= leaf_weight l ->
  (forall EV syntax args asn,
    encode_item EV (leaf_char l) syntax (leaf_eargs l ++ args) asn =
    Ok (ER_OK, {| esyntax := syntax; eargs := args; easn := asn ++ tag :: body |})) ->
  (forall buf eod DV s p args o, has_at buf p body -> p + zlen body <= eod ->
    decode_case buf eod DV (leaf_char l) (masked_tag tag) (Some (leaf_char l :: s))
      {| dsyntax := Some s; pos := p; dargs := leaf_dargs l ++ args; outs := o |} =
    Ok (Next ER_OK {| dsyntax := Some s; pos := p + zlen body; dargs := args; outs := o ++ leaf_outs l |})) ->
  codes l (tag :: body).
Proof.
  intros Hw He Hd. split_and!; [cbn [length]; lia..|exact He|].
  intros fuel buf eod s p args o Hat Hl. apply has_at_cons in Hat as [Ht Hat]. cbn [length] in *.
  rewrite (turn_next buf eod fuel _ s p _ o tag _ Ht ltac:(lia) (Hd buf eod _ s (p + 1) args o Hat ltac:(lia))).
  do 2 f_equal. lia.
Qed.

Lemma codes_take l tag lb skip str :
  2 + zlen lb + zlen str <= leaf_weight l -> zlen skip <= 1 -> str <> [] -> leaf_dargs l = [PStr] -> leaf_outs l = [OStr str] ->
  (forall EV syntax args asn,
    encode_item EV (leaf_char l) syntax (leaf_eargs l ++ args) asn =
    Ok (ER_OK, {| esyntax := syntax; eargs := args; easn := asn ++ tag :: lb ++ skip ++ str |})) ->
  (forall buf eod DV s p args o, has_at buf p lb -> has_at buf (p + zlen lb) (skip ++ str) -> p + zlen (lb ++ skip ++ str) <= eod ->
    decode_case buf eod DV (leaf_char l) (masked_tag tag) (Some (leaf_char l :: s))
      {| dsyntax := Some s; pos := p; dargs := PStr :: args; outs := o |} =
    Ok (Take (zlen str) {| dsyntax := Some s; pos := p + zlen lb + zlen skip; dargs := PStr :: args; outs := o |})) ->
  codes l (tag :: lb ++ skip ++ str).
Proof.
  intros Hw Hs Hne Hda Ho He Hd. split_and!; [cbn [length]; lia|cbn [length]; rewrite !length_app; lia|exact He|].
  intros fuel buf eod s p args o Hat Hl. apply has_at_cons in Hat as [Ht Hat]. apply has_at_app in Hat as [Hat1 Hat].
  cbn [length] in *. rewrite Hda, Ho.
  specialize (Hd buf eod (nested buf fuel) s (p + 1) args o Hat1 Hat ltac:(lia)). apply has_at_app in Hat as [_ Hat].
  cbn [app]. rewrite (turn_take buf eod fuel _ s p args o tag _ str Ht ltac:(lia) Hat Hne Hd).
  do 2 f_equal. rewrite !length_app. lia.
Qed.

Lemma int_codes v : leaf_ok (LInt v) -> exists b, codes (LInt v) b.
Proof.
  intros Hv. destruct (encode_int_shape v Hv) as (lb & m & He & Hr & Hm & _ & Hbe).
  exists (ASN_INTEGER :: lb ++ m). pose proof Hr as (Hlb & _). apply codes_next.
  - cbn [leaf_weight]. rewrite length_app. lia.
  - intros. unfold encode_item. cbn [leaf_char leaf_eargs app Z.eqb Pos.eqb arg_u32 rbind fst snd]. by rewrite He.
  - intros buf eod DV s p args o Hat Hl. apply has_at_app in Hat as [Hat Hm']. rewrite length_app in *.
    change (decode_int buf eod {| dsyntax := Some s; pos := p; dargs := PU32 :: args; outs := o |} ASN_INTEGER =
        Ok (Next ER_OK {| dsyntax := Some s; pos := p + Z.of_nat (length lb + length m); dargs := args; outs := o ++ [OU32 v] |})).
    unfold decode_int. rewrite Z.eqb_refl.
    rewrite (with_len_reads _ _ (zlen m) lb) by (done || (cbn [pos]; lia)). cbn [pos at_pos dsyntax dargs outs].
    assert ((5 <? zlen m) || (zlen m <? 1) = false) as -> by lia. unfold bytes_at. rewrite Nat2Z.id, rd_has_at;
      [|done|intros ->; cbn in Hm; lia]. cbn [rbind out_u32 dargs at_pos pos dsyntax outs]. by rewrite Hbe, Nat2Z.inj_add, Z.add_assoc.
Qed.

Lemma big_codes s : leaf_ok (LBig s) -> leaf_weight (LBig s) < 2 ^ 32 -> exists b, codes (LBig s) b.
Proof.
  intros Hne Hw. cbn [leaf_ok leaf_weight] in *. destruct (encode_big_shape s Hne) as (lb & m & He & Hr & Hm); [lia|].
  assert (exists skip, m = skip ++ strip_zeros s /\ (skip = [] \/ skip = [0])) as (skip & -> & Hskip).
  { destruct Hm as [->| ->]; [exists []|exists [0]]; auto. }
  clear Hm. exists (ASN_INTEGER :: lb ++ skip ++ strip_zeros s). pose proof Hr as (Hlb & _). pose proof (zlen_strip_zeros s).
  apply codes_take; [cbn [leaf_weight]; lia|by destruct Hskip as [->| ->]|done..| |].
  - intros. unfold encode_item. cbn [leaf_char leaf_eargs app Z.eqb Pos.eqb arg_str rbind fst snd]. by rewrite He.
  - intros buf eod DV s' p args o Hat Hm Hl.
    change (decode_big buf eod {| dsyntax := Some s'; pos := p; dargs := PStr :: args; outs := o |} ASN_INTEGER =
      Ok (Take (zlen (strip_zeros s)) {| dsyntax := Some s'; pos := p + zlen lb + zlen skip; dargs := PStr :: args; outs := o |})).
    unfold decode_big. rewrite Z.eqb_refl. rewrite length_app in Hl.
    rewrite (with_len_reads _ _ _ lb) by (done || (cbn [pos]; lia)). cbn [pos at_pos dsyntax dargs outs].
    assert ((zlen (skip ++ strip_zeros s) <? 1) = false) as ->.
    { apply Z.ltb_ge. rewrite length_app. destruct (strip_zeros s); [done|cbn [length]; lia]. }
    pose proof (strip_zeros_hd s Hne) as Hh. destruct Hskip as [->| ->]; cbn [app] in *.
    + destruct (strip_zeros s) as [|c t]; [done|]. apply has_at_cons in Hm as [Hm _].
      rewrite (byte_at_has_at _ _ _ Hm). cbn [rbind hd] in *. assert ((c =? 0) = false) as -> by lia.
      cbn [length]. by rewrite Z.add_0_r.
    + apply has_at_cons in Hm as [Hm _]. rewrite (byte_at_has_at _ _ _ Hm). cbn [rbind]. rewrite Z.eqb_refl.
      cbn [length]. by rewrite Nat2Z.inj_succ, <- Z.add_1_r, Z.add_simpl_r.
Qed.

Lemma oid_codes a0 a1 arcs : leaf_ok (LOid a0 a1 arcs) -> leaf_weight (LOid a0 a1 arcs) < 2 ^ 32 ->
  exists b, codes (LOid a0 a1 arcs) b.
Proof.
  intros (H0 & H1 & H01 & Ha) Hw. cbn [leaf_weight] in Hw.
  destruct (EncodeOID_reads a0 a1 arcs H0 H1 H01 Ha) as (m & He & _ & Hm & Hd).
  destruct (EncodeLen_reads (zlen m)) as (lb & Hlb & Hr); [lia|]. pose proof Hr as (Hlen & _).
  exists (ASN_OID :: lb ++ m). apply codes_next.
  - cbn [leaf_weight]. rewrite length_app. lia.
  - intros. unfold encode_item. cbn [leaf_char leaf_eargs app Z.eqb Pos.eqb arg_str rbind fst snd]. rewrite He.
    cbn [rbind fst snd]. unfold encode_string. by rewrite Hlb.
  - intros buf eod DV s p args o Hat Hl. apply has_at_app in Hat as [Hat Hm']. rewrite length_app in *.
    change (decode_oid buf eod {| dsyntax := Some s; pos := p; dargs := PStr :: args; outs := o |} ASN_OID =
        Ok (Next ER_OK {| dsyntax := Some s; pos := p + Z.of_nat (length lb + length m); dargs := args;
                          outs := o ++ [OStr (oid_text a0 a1 arcs)] |})).
    unfold decode_oid. rewrite Z.eqb_refl.
    rewrite (with_len_reads _ _ (zlen m) lb) by (done || (cbn [pos]; lia)). cbn [pos at_pos dsyntax dargs outs].
    unfold bytes_at. rewrite Nat2Z.id, rd_has_at; [|done|intros ->; cbn in Hm; lia]. cbn [rbind]. rewrite Hd.
    cbn [rbind out_str dargs at_pos pos dsyntax outs]. by rewrite Nat2Z.inj_add, Z.add_assoc.
Qed.

Lemma string_tag_cases c : is_Some (string_tag c) -> c = 120 \/ c = 97 \/ c = 116 \/ c = 84 \/ c = 112 \/ c = 117.
Proof. unfold string_tag. intros [t Ht]. repeat case_match; lia || done. Qed.

Lemma str_codes c s : leaf_ok (LStr c s) -> leaf_weight (LStr c s) < 2 ^ 32 -> exists b, codes (LStr c s) b.
Proof.
  intros (Hc & Hne) Hw. cbn [leaf_weight] in Hw. pose proof (string_tag_cases c Hc) as Hcs. destruct Hc as [tag Htag].
  destruct (EncodeLen_reads (zlen s)) as (lb & Hlb & Hr); [lia|]. pose proof Hr as (Hlen & _).
  exists (tag :: lb ++ [] ++ s). apply codes_take; [cbn [leaf_weight]; lia|done..| |].
  - intros. assert (encode_string tag s = Ok (tag :: lb ++ s)) as He by (unfold encode_string; by rewrite Hlb).
    cbn [leaf_char leaf_eargs app]. unfold encode_item. rewrite Htag.
    destruct Hcs as [->|[->|[->|[->|[->| ->]]]]]; cbn [Z.eqb Pos.eqb arg_str rbind fst snd]; by rewrite He.
  - intros buf eod DV s' p args o Hat Hm Hl. cbn [length app leaf_char] in *. rewrite length_app in Hl.
    assert (decode_case buf eod DV c (masked_tag tag) (Some (c :: s'))
        {| dsyntax := Some s'; pos := p; dargs := PStr :: args; outs := o |} =
      with_len buf eod true {| dsyntax := Some s'; pos := p; dargs := PStr :: args; outs := o |} (fun len st => Ok (Take len st))) as ->.
    { destruct Hcs as [->|[->|[->|[->|[->| ->]]]]]; injection Htag as <-; done. }
    rewrite (with_len_reads _ _ (zlen s) lb) by (done || (cbn [pos]; lia)). by rewrite Z.add_0_r.
Qed.

Lemma bits_codes s n : leaf_ok (LBits s n) -> leaf_weight (LBits s n) < 2 ^ 32 -> exists b, codes (LBits s n) b.
Proof.
  cbn [leaf_ok leaf_weight]. intros Hn Hw. destruct (encode_bits_shape s n Hn) as (lb & He & Hr); [lia|].
  pose proof (zlen_first_bits s n Hn) as Hz. destruct (bits_size n) as [Hsize Hu]; [lia|].
  set (fb := first_bits s n) in *. set (u := unused_bits n) in *. pose proof Hr as (Hlen & _).
  exists (ASN_BITS :: lb ++ u :: fb). apply codes_next.
  - cbn [leaf_weight]. rewrite length_app. cbn [length]. euclid.
  - intros. unfold encode_item. cbn [leaf_char leaf_eargs app Z.eqb Pos.eqb arg_str arg_size rbind fst snd]. by rewrite He.
  - intros buf eod DV s' p args o Hat Hl. apply has_at_app in Hat as [Hat Hm]. rewrite length_app in *.
    change (decode_bits buf eod {| dsyntax := Some s'; pos := p; dargs := PStr :: PSize :: args; outs := o |} ASN_BITS =
        Ok (Next ER_OK {| dsyntax := Some s'; pos := p + Z.of_nat (length lb + length (u :: fb)); dargs := args;
                          outs := o ++ [OStr fb; OSize n] |})).
    unfold decode_bits. rewrite Z.eqb_refl.
    rewrite (with_len_reads _ _ (zlen (u :: fb)) lb) by (done || (cbn [pos]; lia)). cbn [pos at_pos dsyntax dargs outs].
    apply has_at_cons in Hm as [Hm1 Hm]. assert ((zlen (u :: fb) =? 0) = false) as -> by (apply Z.eqb_neq; cbn [length]; lia).
    rewrite (byte_at_has_at _ _ _ Hm1). cbn [rbind]. assert ((7 <? u) = false) as -> by lia.
    replace (zlen (u :: fb) - 1) with (zlen fb) by (cbn [length]; lia). cbn [pos at_pos dsyntax dargs outs].
    unfold assign. assert ((zlen fb =? 0) = false) as -> by (apply Z.eqb_neq; euclid).
    unfold bytes_at. rewrite Nat2Z.id, rd_has_at; [|done|intros E; rewrite E in Hz; cbn in Hz; euclid].
    cbn [rbind out_str out_size at_pos pos dsyntax dargs outs]. rewrite Hz, Hsize, Z.mod_small, <- app_assoc by lia.
    cbn [app]. do 3 f_equal. cbn [length]. lia.
Qed.

Lemma leaf_codes l : leaf_ok l -> leaf_weight l < 2 ^ 32 -> exists b, codes l b.
Proof.
  destruct l as [v|s|a0 a1 arcs|c s|s n| |v]; intros Hok Hw.
  - by apply int_codes.
  - by apply big_codes.
  - by apply oid_codes.
  - by apply str_codes.
  - by apply bits_codes.
  - exists (ASN_NULL :: [0]). apply codes_next; [cbn; lia|done|].
    intros buf eod DV s p args o Hat Hl.
    change (decode_null buf {| dsyntax := Some s; pos := p; dargs := args; outs := o |} ASN_NULL =
      Ok (Next ER_OK {| dsyntax := Some s; pos := p + 1; dargs := args; outs := o ++ [] |})).
    unfold decode_null. cbn [Z.eqb Pos.eqb negb pos rbind ASN_NULL]. rewrite (byte_at_has_at _ _ _ Hat), app_nil_r. done.
  - set (x := if v =? 0 then 0 else 255). exists (ASN_BOOLEAN :: [1; x]). apply codes_next; [cbn; lia|done|].
    intros buf eod DV s p args o Hat Hl. destruct (EncodeLen_reads 1) as (lb & [= <-] & Hr); [lia|].
    change (decode_bool buf eod {| dsyntax := Some s; pos := p; dargs := PU32 :: args; outs := o |} ASN_BOOLEAN =
      Ok (Next ER_OK {| dsyntax := Some s; pos := p + 2; dargs := args; outs := o ++ [OU32 x] |})).
    apply has_at_cons in Hat as [Hat1 Hat]. cbn [length] in Hl. unfold decode_bool. rewrite Z.eqb_refl.
    rewrite (with_len_reads _ _ 1 [1]) by (done || (cbn [pos length]; lia)). cbn [pos at_pos dsyntax dargs outs length Z.eqb Pos.eqb negb].
    change (Z.of_nat 1) with 1. rewrite (byte_at_has_at _ _ _ Hat). cbn [rbind out_u32 dargs at_pos pos dsyntax outs].
    by replace (p + 1 + 1) with (p + 2) by lia.
Qed.

(** * Blocks *)

Lemma context_tag v : 0 <= v < 32 ->
  let tag := Z.lor 160 v in
  masked_tag tag = tag /\ Z.land tag 128 = 128 /\ Z.land tag 31 = v /\ Z.land tag 32 = 32.
Proof.
  intros Hv. cbv zeta.
  assert (forallb (fun v => (masked_tag (Z.lor 160 v) =? Z.lor 160 v) && (Z.land (Z.lor 160 v) 128 =? 128) &&
    (Z.land (Z.lor 160 v) 31 =? v) && (Z.land (Z.lor 160 v) 32 =? 32)) (seqZ 0 32) = true) as H by by vm_compute.
  apply forallb_forall with (x := v) in H; [lia|]. apply list_elem_of_In, elem_of_seqZ. lia.
Qed.

(** What may follow a block's elements. *)
Definition closes (tail : list Z) : Prop := match tail with [] => True | c :: _ => c = 41 \/ c = 125 end.

Lemma closes_block b s : closes (block_close b :: s).
Proof. destruct b; cbn; auto. Qed.

Lemma closes_ends tail fuel args asn : closes tail ->
  EncodeV (S fuel) (Some tail) args asn = Ok (ER_OK, {| esyntax := Some tail; eargs := args; easn := asn |}).
Proof. destruct tail as [|c tail]; [done|]. by intros [->| ->]. Qed.

Lemma closes_finish tail p args o : closes tail ->
  let st := {| dsyntax := Some tail; pos := p; dargs := args; outs := o |} in decode_finish ER_OK st = Ok (ER_OK, st).
Proof. destruct tail as [|c tail]; [done|]. by intros [->| ->]. Qed.

Lemma leaf_char_opens l : leaf_ok l -> ends_block (leaf_char l) = false.
Proof.
  destruct l; [done..| |done|done|done]. intros (Hc & _). apply string_tag_cases in Hc as [->|[->|[->|[->|[->| ->]]]]]; done.
Qed.

(** The first character of a block and what the encoder does with the rest of it. *)
Lemma encode_nest EV b s s' args args' asn bytes lb :
  block_ok b ->
  EV (Some s) args = Ok (ER_OK, {| esyntax := Some (block_close b :: s'); eargs := args'; easn := bytes |}) ->
  EncodeLen (zlen bytes) = Ok lb ->
  exists c s0, block_open b ++ s = c :: s0 /\ ends_block c = false /\
    encode_item EV c (Some s0) (block_eargs b ++ args) asn =
      Ok (ER_OK, {| esyntax := Some s'; eargs := args'; easn := asn ++ block_tag b :: lb ++ bytes |}).
Proof.
  intros Hb He Hl.
  assert (forall close tag, close = block_close b -> encode_block EV close tag (Some s) args asn =
    Ok (ER_OK, {| esyntax := Some s'; eargs := args'; easn := asn ++ tag :: lb ++ bytes |})) as Hblock.
  { intros close tag ->. unfold encode_block. rewrite He. cbn [rbind esyntax peek advance eargs easn].
    rewrite Z.eqb_refl. cbn [negb]. by rewrite Hl. }
  destruct b as [| |v]; (eexists _, _; split; [done|]; split; [done|]);
    [exact (Hblock 41 48 eq_refl)|exact (Hblock 125 49 eq_refl)|].
  cbn [block_ok] in Hb. cbn [block_eargs app]. unfold encode_item. cbn [Z.eqb Pos.eqb arg_u32 rbind fst snd].
  assert ((32 <=? v) = false) as -> by lia. exact (Hblock 41 (Z.lor 160 v) eq_refl).
Qed.

(** The same for the decoder. *)
Lemma decode_nest buf eod fuel b s s' p args args' o o' bytes lb :
  block_ok b -> bytes <> [] -> reads_len (zlen bytes) lb ->
  has_at buf p (block_tag b :: lb ++ bytes) -> p + zlen (block_tag b :: lb ++ bytes) <= eod ->
  let q := p + 1 + zlen lb in
  decode_loop fuel buf (q + zlen bytes) {| dsyntax := Some s; pos := q; dargs := args; outs := o |} =
    Ok (ER_OK, {| dsyntax := Some (block_close b :: s'); pos := q + zlen bytes; dargs := args'; outs := o' |}) ->
  decode_loop (S fuel) buf eod {| dsyntax := Some (block_open b ++ s); pos := p; dargs := block_dargs b ++ args; outs := o |} =
  decode_loop fuel buf eod {| dsyntax := Some s'; pos := p + zlen (block_tag b :: lb ++ bytes); dargs := args'; outs := o' |}.
Proof.
  intros Hb Hne Hr Hat Hl q Hd. subst q. set (q := p + 1 + zlen lb) in Hd. assert (p + 1 + zlen lb = q) as Eq by done.
  apply has_at_cons in Hat as [Ht Hat]. apply has_at_app in Hat as [Hat _].
  cbn [length] in *. rewrite length_app in *.
  assert (q + zlen bytes = p + Z.of_nat (S (length lb + length bytes))) as Hq by lia. rewrite <- Hq.
  assert (nested buf fuel {| dsyntax := Some s; pos := q; dargs := args; outs := o |} (zlen bytes) =
    Ok (ER_OK, {| dsyntax := Some (block_close b :: s'); pos := q + zlen bytes; dargs := args'; outs := o' |})) as Hn.
  { unfold nested. assert ((zlen bytes =? 0) = false) as -> by (apply Z.eqb_neq; destruct bytes; [done|cbn [length]; lia]). exact Hd. }
  assert (forall close, close = block_close b ->
    with_len buf eod true {| dsyntax := Some s; pos := p + 1; dargs := args; outs := o |}
      (fun len st => decode_block (nested buf fuel) close len st) =
    Ok (Next ER_OK {| dsyntax := Some s'; pos := q + zlen bytes; dargs := args'; outs := o' |})) as Hblock.
  { intros close ->. rewrite (with_len_reads _ _ (zlen bytes) lb) by (done || (cbn [pos]; lia)).
    unfold decode_block, at_pos. cbn [pos dsyntax dargs outs]. rewrite Eq, Hn.
    cbn [rbind at_pos at_syntax pos dsyntax dargs outs peek advance]. by rewrite Z.eqb_refl. }
  destruct b as [| |v].
  - apply (turn_next buf eod fuel 40 s p args o 48 _ Ht ltac:(lia)). exact (Hblock 41 eq_refl).
  - apply (turn_next buf eod fuel 123 s p args o 49 _ Ht ltac:(lia)). exact (Hblock 125 eq_refl).
  - cbn [block_tag block_ok block_open block_dargs app] in *. destruct (context_tag v Hb) as (Hm & Hc & Hv & Hx).
    apply (turn_next buf eod fuel 99 (40 :: s) p (VU32 v :: args) o (Z.lor 160 v) _ Ht ltac:(lia)). rewrite Hm.
    unfold decode_case. cbn [Z.eqb Pos.eqb]. unfold decode_context. cbn [dargs dsyntax pos outs].
    assert ((32 <=? v) = false) as -> by lia. cbn [peek rbind Z.eqb Pos.eqb negb at_syntax dsyntax advance].
    unfold ASN_CONTEXT_SPECIFIC, ASN_CONSTRUCTED_ENCODING, at_syntax. cbn [pos dsyntax dargs outs]. rewrite Hc, Hv, Hx, !Z.eqb_refl. cbn [andb].
    rewrite (with_len_reads _ _ (zlen bytes) lb) by (done || (cbn [pos]; lia)). unfold at_pos. cbn [pos dsyntax dargs outs].
    rewrite Eq, Hn. cbn [rbind peek dsyntax block_close Z.eqb Pos.eqb negb]. done.
Qed.

(** * Whole trees *)

Lemma length_block_open b : (1 <= length (block_open b))%nat.
Proof. destruct b; cbn; lia. Qed.

Lemma EncodeV_turn fuel c s args asn r :
  ends_block c = false -> encode_item (fun s a => EncodeV fuel s a []) c (Some s) args asn = Ok (ER_OK, r) ->
  EncodeV (S fuel) (Some (c :: s)) args asn = EncodeV fuel (esyntax r) (eargs r) (easn r).
Proof. intros Hc Hi. cbn [EncodeV peek rbind]. rewrite Hc. cbn [advance]. by rewrite Hi. Qed.

(** [bytes] encode the elements. *)
Definition codes_all (it : Items) (bytes : list Z) : Prop :=
  zlen bytes <= weight it /\ (it <> Nil -> bytes <> []) /\
  (forall fuel tail args asn, closes tail -> (length (syntax_of it) < fuel)%nat ->
    EncodeV fuel (Some (syntax_of it ++ tail)) (eargs_of it ++ args) asn =
    Ok (ER_OK, {| esyntax := Some tail; eargs := args; easn := asn ++ bytes |})) /\
  (forall fuel buf p tail args o, closes tail -> (length (syntax_of it) < fuel)%nat -> has_at buf p bytes ->
    decode_loop fuel buf (p + zlen bytes) {| dsyntax := Some (syntax_of it ++ tail); pos := p; dargs := dargs_of it ++ args; outs := o |} =
    Ok (ER_OK, {| dsyntax := Some tail; pos := p + zlen bytes; dargs := args; outs := o ++ outs_of it |})).

Lemma codes_Nil : codes_all Nil [].
Proof.
  split_and!; [done..| |].
  - intros [|fuel] tail args asn Ht Hf; [cbn in Hf; lia|]. cbn [syntax_of eargs_of app]. rewrite app_nil_r.
    by apply closes_ends.
  - intros [|fuel] buf p tail args o Ht Hf _; [cbn in Hf; lia|]. cbn [syntax_of dargs_of outs_of app length].
    rewrite app_nil_r, Z.add_0_r. cbn [decode_loop pos]. rewrite Z.ltb_irrefl. by apply closes_finish.
Qed.

Lemma codes_Elem l rest b bs : leaf_ok l -> codes l b -> codes_all rest bs -> codes_all (Elem l rest) (b ++ bs).
Proof.
  intros Hok (Hlen & He & Hd) (Hlens & _ & Hes & Hds). split_and!.
  - rewrite length_app. cbn [weight]. lia.
  - intros _ E. apply app_eq_nil in E as [-> _]. cbn in Hlen. lia.
  - intros [|fuel] tail args asn Ht Hf; [lia|]. cbn [syntax_of eargs_of app length] in *. rewrite <- app_assoc.
    erewrite EncodeV_turn; [|by apply leaf_char_opens|by apply He]. cbn [esyntax eargs easn].
    rewrite Hes by (done || lia). by rewrite app_assoc.
  - intros [|fuel] buf p tail args o Ht Hf Hat; [lia|]. apply has_at_app in Hat as [Hat1 Hat2].
    cbn [syntax_of dargs_of outs_of app length] in *. rewrite <- app_assoc, length_app, Nat2Z.inj_add, Z.add_assoc.
    rewrite Hd by (done || lia). rewrite Hds by (done || lia). by rewrite <- app_assoc.
Qed.

Lemma codes_Nest b inner rest bi bs lb : block_ok b -> inner <> Nil ->
  codes_all inner bi -> codes_all rest bs -> EncodeLen (zlen bi) = Ok lb -> reads_len (zlen bi) lb ->
  codes_all (Nest b inner rest) ((block_tag b :: lb ++ bi) ++ bs).
Proof.
  intros Hok Hne (Hleni & Hnei & Hei & Hdi) (Hlens & _ & Hes & Hds) Hl Hr. pose proof Hr as (Hlb & _).
  pose proof (length_block_open b) as Hopen. split_and!.
  - rewrite length_app. cbn [weight length]. rewrite length_app. lia.
  - done.
  - intros [|fuel] tail args asn Ht Hf; [lia|]. cbn [syntax_of eargs_of] in *. rewrite !length_app in Hf. cbn [length] in Hf.
    rewrite <- !app_assoc. destruct (encode_nest (fun s a => EncodeV fuel s a []) b (syntax_of inner ++ (block_close b :: syntax_of rest) ++ tail)
      (syntax_of rest ++ tail) (eargs_of inner ++ eargs_of rest ++ args) (eargs_of rest ++ args) asn bi lb Hok)
      as (c & s0 & -> & Hc & Hi); [|done|].
    { rewrite Hei; [done|apply closes_block|lia]. }
    erewrite EncodeV_turn; [|done|exact Hi]. cbn [esyntax eargs easn]. rewrite Hes by (done || lia). by rewrite <- app_assoc.
  - intros [|fuel] buf p tail args o Ht Hf Hat; [lia|]. apply has_at_app in Hat as [Hat1 Hat2].
    cbn [syntax_of dargs_of outs_of] in *. rewrite !length_app in Hf. cbn [length] in Hf.
    rewrite <- !app_assoc. rewrite (decode_nest buf _ fuel b _ (syntax_of rest ++ tail) p _ (dargs_of rest ++ args) o (o ++ outs_of inner) bi lb);
      [|done|by apply Hnei|done|done|rewrite length_app; lia|].
    + rewrite length_app, Nat2Z.inj_add, Z.add_assoc. rewrite Hds by (done || lia). by rewrite <- app_assoc.
    + apply has_at_cons in Hat1 as [_ Hat1]. apply has_at_app in Hat1 as [_ Hat1].
      cbv zeta. rewrite Hdi; [done|apply closes_block|lia|done].
Qed.

Lemma items_codes it : items_ok it -> weight it < 2 ^ 32 -> exists bytes, codes_all it bytes.
Proof.
  induction it as [|l rest IH|b inner IHi rest IHr]; cbn [items_ok weight]; intros Hok Hw.
  - exists []. apply codes_Nil.
  - destruct Hok as [Hl Hr]. pose proof (weight_pos rest). pose proof (leaf_weight_pos l).
    destruct (leaf_codes l Hl) as [b Hb]; [lia|]. destruct (IH Hr) as [bs Hbs]; [lia|].
    exists (b ++ bs). by apply codes_Elem.
  - destruct Hok as (Hb & Hne & Hi & Hr). pose proof (weight_pos rest). pose proof (weight_pos inner).
    destruct (IHi Hi) as [bi Hbi]; [lia|]. destruct (IHr Hr) as [bs Hbs]; [lia|].
    destruct (EncodeLen_reads (zlen bi)) as (lb & Hlb & Hrl); [pose proof Hbi as (Hz & _); lia|].
    eexists. by eapply codes_Nest.
Qed.

(** * Termination

    A nested call works on a part of the data and never lengthens what is left of
    the syntax, so the bytes and characters left bound the number of turns. *)

Definition left_syntax (s : Syntax) : nat := match s with Some l => length l | None => 0 end.
Definition measure (eod : Z) (st : DState) : nat := (left_syntax (dsyntax st) + Z.to_nat (eod - pos st))%nat.

Lemma left_advance s : (left_syntax (advance s) <= left_syntax s)%nat.
Proof. destruct s as [[|c s]|]; cbn; lia. Qed.

Lemma DecodeLen_loop_pos n buf eod : forall p l len q, DecodeLen_loop n buf p eod l = Ok (Some (len, q)) ->
  p <= q /\ (0 <= l -> 0 <= len).
Proof.
  induction n as [|n IH]; cbn [DecodeLen_loop]; intros p l len q H; [injection H; lia|].
  inv_Ok; [done..|]. apply IH in H as [? Hl]. split; [lia|]. intros _. apply Hl, Z.mod_pos_bound. lia.
Qed.

Lemma byte_at_byte buf p b : Forall is_byte buf -> byte_at buf p = Ok b -> is_byte b.
Proof.
  intros Hb. unfold byte_at. case_match; [done|]. destruct (buf !! Z.to_nat p) eqn:E; [|done]. intros [= <-].
  by eapply Forall_lookup_1.
Qed.

Lemma DecodeLen_pos buf p eod len q : Forall is_byte buf ->
  DecodeLen buf p eod = Ok (Some (len, q)) -> p < q /\ q + len <= eod /\ 0 <= len.
Proof.
  intros Hb. unfold DecodeLen. case_match; [done|]. destruct (byte_at buf p) as [l| |] eqn:El; [|done..]. cbn [rbind].
  apply byte_at_byte in El; [|done].
  match goal with |- rbind ?r _ = _ -> _ => destruct r as [[[l' q']|]| |] eqn:H'; [|done..] end. cbn [rbind].
  destruct (l' <=? eod - q') eqn:Hle; [|done]. intros [= <- <-].
  unfold is_byte in El. case_match; [apply DecodeLen_loop_pos in H'|injection H' as <- <-]; lia.
Qed.

Lemma with_len_Ok buf eod ok st k fl : Forall is_byte buf -> with_len buf eod ok st k = Ok fl ->
  fl = Next ER_FAIL st \/ exists len q, pos st < q /\ q + len <= eod /\ 0 <= len /\ k len (at_pos st q) = Ok fl.
Proof.
  intros Hb. unfold with_len. destruct ok; [|intros [= <-]; by left].
  destruct (DecodeLen buf (pos st) eod) as [[[len q]|]| |] eqn:E; cbn [rbind]; [|intros [= <-]; by left|done..].
  apply DecodeLen_pos in E as (? & ? & ?); [|done]. intros Hk. right. by exists len, q.
Qed.

(** The nested calls of a case start behind its tag, inside its data. *)
Definition agree (eod : Z) (st : DState) (f g : DState -> Z -> res (QStatus * DState)) : Prop :=
  forall st' len, (left_syntax (dsyntax st') <= left_syntax (dsyntax st))%nat -> pos st <= pos st' -> pos st' + len <= eod ->
    f st' len = g st' len.
Definition shrinks (f : DState -> Z -> res (QStatus * DState)) : Prop :=
  forall st len status st', f st len = Ok (status, st') -> (left_syntax (dsyntax st') <= left_syntax (dsyntax st))%nat.

Lemma with_len_agree buf eod ok st k k' : Forall is_byte buf ->
  (forall len p, pos st < p -> p + len <= eod -> k len (at_pos st p) = k' len (at_pos st p)) ->
  with_len buf eod ok st k = with_len buf eod ok st k'.
Proof.
  intros Hb Hk. unfold with_len. destruct ok; [|done]. destruct (DecodeLen buf (pos st) eod) as [[[len p]|]| |] eqn:E; [|done..].
  apply DecodeLen_pos in E as (? & ? & ?); [|done]. cbn [rbind]. by apply Hk.
Qed.

Lemma decode_case_agree buf eod f g c tag s0 st : Forall is_byte buf -> agree eod st f g ->
  decode_case buf eod f c tag s0 st = decode_case buf eod g c tag s0 st.
Proof.
  intros Hb Hfg.
  assert (forall ok close, with_len buf eod ok st (fun len st => decode_block f close len st) =
    with_len buf eod ok st (fun len st => decode_block g close len st)) as Hblock.
  { intros ok close. apply with_len_agree; [done|]. intros len p Hp He. unfold decode_block. by rewrite Hfg by (cbn; lia). }
  assert (decode_context buf eod f st tag = decode_context buf eod g st tag) as Hctx.
  { unfold decode_context. destruct (dargs st) as [|[| | | |v] a]; [done..|]. case_match; [done|].
    cbn [dsyntax]. destruct (peek (dsyntax st)) as [o| |]; [|done..]. cbn [rbind]. case_match; [done|].
    apply with_len_agree; [done|]. cbn [pos at_syntax]. intros len p Hp He. case_match; [|done].
    rewrite Hfg; [done|cbn [at_pos at_syntax dsyntax]; apply left_advance|cbn [pos at_pos at_syntax]; lia|cbn [pos at_pos at_syntax]; lia]. }
  unfold decode_case. by rewrite !Hblock, Hctx.
Qed.

(** What a case leaves: no longer syntax, and less of syntax and data together
    when the loop goes on. *)
Definition less (s0 : Syntax) (p : Z) (s : Syntax) (q : Z) : Prop :=
  (left_syntax s < left_syntax s0)%nat /\ p <= q \/ (left_syntax s <= left_syntax s0)%nat /\ p < q.
Definition progress (s0 : Syntax) (p : Z) (fl : Flow) : Prop :=
  match fl with
  | Next status st => (left_syntax (dsyntax st) <= left_syntax s0)%nat /\ (status = ER_OK -> less s0 p (dsyntax st) (pos st))
  | Take len st => (left_syntax (dsyntax st) <= left_syntax s0)%nat /\ less s0 p (dsyntax st) (pos st + len)
  end.

Lemma less_next s0 p c s q : s0 = Some (c :: s) -> p <= q -> less s0 p (Some s) q.
Proof. intros ->. left. cbn. lia. Qed.

Ltac flow H := repeat match type of H with
  | rbind ?r _ = Ok _ => let E := fresh "E" in destruct r eqn:E; cbn [rbind] in H; [|discriminate H..]
  | (if ?b then _ else _) = Ok _ => destruct b
  | Ok _ = Ok _ => injection H as <-
  | match ?st with Some _ => _ | None => _ end = Ok _ => destruct st eqn:?; try discriminate H
  end.

(** Storing a value moves neither position. *)
Lemma out_u32_st st v st' : out_u32 st v = Ok st' -> dsyntax st' = dsyntax st /\ pos st' = pos st.
Proof. unfold out_u32. destruct (dargs st) as [|[] ?]; by intros [= <-]. Qed.
Lemma out_str_st st v st' : out_str st v = Ok st' -> dsyntax st' = dsyntax st /\ pos st' = pos st.
Proof. unfold out_str. destruct (dargs st) as [|[] ?]; by intros [= <-]. Qed.
Lemma out_size_st st v st' : out_size st v = Ok st' -> dsyntax st' = dsyntax st /\ pos st' = pos st.
Proof. unfold out_size. destruct (dargs st) as [|[] ?]; by intros [= <-]. Qed.
Lemma out_opt_st st v st' : out_opt st v = Ok st' -> dsyntax st' = dsyntax st /\ pos st' = pos st.
Proof. unfold out_opt. destruct (dargs st) as [|[] ?] eqn:E; first [by intros [= <-] | apply out_str_st]. Qed.

Lemma length_skip_to_close l : (length (skip_to_close l) <= length l)%nat.
Proof. induction l as [|d l IH]; cbn [skip_to_close]; [lia|]. destruct (d =? 41); cbn [length]; lia. Qed.

Section Progress.
Context (buf : list Z) (eod : Z) (Hbytes : Forall is_byte buf).
Context (f : DState -> Z -> res (QStatus * DState)) (Hf : shrinks f).
Context (c : Z) (s : list Z) (p : Z) (st : DState) (Hst : dsyntax st = Some s) (Hp : pos st = p + 1) (Hlt : p < eod).

Lemma with_len_progress ok k fl : with_len buf eod ok st k = Ok fl ->
  (forall len q, p < q -> 0 <= len -> k len (at_pos st q) = Ok fl -> progress (Some (c :: s)) p fl) ->
  progress (Some (c :: s)) p fl.
Proof.
  intros H Hk. apply with_len_Ok in H as [->|(len & q & Hq & _ & Hl & H)]; [|eapply Hk; [|done..]; lia|done].
  split; [rewrite Hst; cbn; lia|done].
Qed.

Lemma block_progress close fl ok :
  with_len buf eod ok st (fun len st => decode_block f close len st) = Ok fl -> progress (Some (c :: s)) p fl.
Proof.
  intros H. eapply with_len_progress; [exact H|]. clear H. cbv beta. intros len q Hq Hl H. unfold decode_block in H.
  destruct (f (at_pos st q) len) as [[status st']| |] eqn:E; [|done..]. cbn [rbind] in H. apply Hf in E.
  cbn [at_pos dsyntax pos] in *. rewrite Hst in E. flow H. pose proof (left_advance (dsyntax st')). cbn [progress at_syntax at_pos dsyntax pos left_syntax length] in *.
  split; [lia|]. intros Hs. left. cbn [left_syntax length]. split; [lia|]. repeat case_match; try done; lia.
Qed.

Ltac at_end := cbn [progress at_syntax at_pos dsyntax pos] in *; rewrite ?Hst in *;
  split; [cbn; lia|]; (try intros _); (try done); left; cbn; lia.

Lemma simple_progress (tag : Z) fl :
  decode_int buf eod st tag = Ok fl \/ decode_big buf eod st tag = Ok fl \/ decode_oid buf eod st tag = Ok fl \/
  decode_bits buf eod st tag = Ok fl \/ decode_bool buf eod st tag = Ok fl -> progress (Some (c :: s)) p fl.
Proof.
  intros [H|[H|[H|[H|H]]]]; (eapply with_len_progress; [exact H|]; clear H; cbv beta; intros len q Hq Hl H).
  - flow H; [at_end|]. apply out_u32_st in E0 as [E1 E2]. cbn [at_pos dsyntax pos] in *. rewrite Hst in E1.
    split; cbn [at_pos dsyntax pos]; rewrite E1; [cbn; lia|]. intros _. left. cbn. lia.
  - flow H; [at_end|]. case_match; at_end.
  - flow H. apply out_str_st in E1 as [E1 E2]. cbn [at_pos dsyntax pos] in *. rewrite Hst in E1.
    split; cbn [at_pos dsyntax pos]; rewrite E1; [cbn; lia|]. intros _. left. cbn. lia.
  - flow H; [at_end..|]. apply out_str_st in E1 as [E1 E1']. apply out_size_st in E2 as [E2 E2'].
    cbn [at_pos dsyntax pos] in *. rewrite E1, Hst in E2.
    split; [rewrite E2; cbn; lia|]. intros _. rewrite E2, E2'. left. cbn. lia.
  - flow H; [at_end|]. apply out_u32_st in E0 as [E1 E2]. cbn [at_pos dsyntax pos] in *. rewrite Hst in E1.
    split; cbn [at_pos dsyntax pos]; rewrite E1; [cbn; lia|]. intros _. left. cbn. lia.
Qed.

Lemma context_progress tag fl : decode_context buf eod f st tag = Ok fl -> progress (Some (c :: s)) p fl.
Proof.
  unfold decode_context. destruct (dargs st) as [|[| | | |v] a]; [done..|]. cbn [dsyntax pos].
  rewrite Hst. case_match; intros H'; [injection H' as <-; split; [cbn; lia|done]|].
  destruct (peek (Some s)) as [o| |] eqn:Eo; [|done..]. cbn [rbind] in H'.
  pose proof (left_advance (Some s)) as Hadv. cbn [left_syntax] in Hadv. set (adv := advance (Some s)) in *.
  case_match; [injection H' as <-; split; [cbn [at_syntax dsyntax]; cbn [left_syntax length]; lia|done]|].
  apply with_len_Ok in H' as [->|(len & q & Hq & _ & Hl & H')]; [|cbn [at_syntax at_pos pos dsyntax] in *|done].
  { split; [cbn [at_syntax dsyntax]; cbn [left_syntax length]; lia|done]. }
  case_match.
  - destruct (f _ len) as [[status st']| |] eqn:E; [|done..]. cbn [rbind] in H'. apply Hf in E.
    cbn [at_pos dsyntax pos at_syntax] in E. flow H'. pose proof (left_advance (dsyntax st')).
    case_match; cbn [progress at_syntax at_pos dsyntax pos left_syntax length] in *; (split; [lia|]); [done|].
    intros ->. left. cbn [left_syntax length]. lia.
  - destruct adv as [s'|] eqn:Es; [|done]. cbn [left_syntax length] in Hadv.
    pose proof (length_skip_to_close s'). destruct (skip_to_close s') as [|d s''] eqn:E; injection H' as <-; cbn [length] in *.
    + split; [cbn; lia|done].
    + cbn [progress at_syntax at_pos dsyntax pos left_syntax length]. split; [lia|]. left. cbn. lia.
Qed.

Lemma case_progress tag fl :
  decode_case buf eod f c tag (Some (c :: s)) st = Ok fl -> progress (Some (c :: s)) p fl.
Proof.
  unfold decode_case. intros H.
  destruct (c =? 47); [injection H as <-; cbn [progress at_pos dsyntax pos]; rewrite Hst; split; [cbn; lia|intros _; left; cbn; lia]|].
  destruct (c =? 105); [by eapply simple_progress; eauto|]. destruct (c =? 108); [by eapply simple_progress; eauto|].
  destruct (c =? 111); [by eapply simple_progress; eauto|]. destruct (c =? 98); [by eapply simple_progress; eauto 6|].
  destruct (c =? 122); [by eapply simple_progress; eauto 6|].
  destruct (c =? 110).
  { unfold decode_null in H. apply rbind_Ok in H as (bad & _ & H). injection H as <-. at_end. }
  destruct (c =? 40); [by eapply block_progress|]. destruct (c =? 123); [by eapply block_progress|].
  destruct (c =? 91); [by eapply block_progress|]. destruct (c =? 99); [by eapply context_progress|].
  destruct (c =? 63).
  { eapply with_len_progress; [exact H|]. cbv beta. intros len q Hq Hl H'. apply rbind_Ok in H' as (str & _ & H').
    apply rbind_Ok in H' as (st' & E & H'). injection H' as <-. apply out_opt_st in E as [E1 E2]. cbn [at_pos dsyntax pos] in *.
    rewrite Hst in E1. split; cbn [at_pos dsyntax pos]; rewrite E1; [cbn; lia|]. intros _. left. cbn. lia. }
  destruct (c =? 42).
  { apply with_len_Ok in H as [->|(len & q & Hq & _ & Hl & H')]; [done| |done].
    injection H' as <-. cbn [at_syntax at_pos pos dsyntax progress] in *. split; [done|]. intros _. right. cbn. lia. }
  destruct (c =? 46).
  { apply rbind_Ok in H as (str & Hstr & H). apply rbind_Ok in H as (st' & E & H). injection H as <-.
    apply out_opt_st in E as [E1 E2]. rewrite Hst in E1.
    split; cbn [at_pos dsyntax pos]; rewrite E1; [cbn; lia|]. intros _. left. cbn. lia. }
  destruct (string_tag c); [|injection H as <-; at_end].
  eapply with_len_progress; [exact H|]. cbv beta. intros len q Hq Hl H'. injection H' as <-. at_end.
Qed.
End Progress.

Lemma decode_finish_shrinks status st status' st' :
  decode_finish status st = Ok (status', st') -> (left_syntax (dsyntax st') <= left_syntax (dsyntax st))%nat.
Proof.
  unfold decode_finish. destruct (peek (dsyntax st)) as [c| |]; [|done..]. cbn [rbind].
  pose proof (left_advance (dsyntax st)) as H1. pose proof (left_advance (advance (dsyntax st))) as H2.
  destruct (c =? 42); [by intros [= <- <-]|]. destruct (c =? 47); [|by intros [= <- <-]].
  intros H. apply rbind_Ok in H as (st1 & E & H). apply out_str_st in E as [E _]. rewrite <- E in *.
  apply rbind_Ok in H as (d & _ & H). case_match; injection H as <- <-; [done|]. cbn [at_syntax dsyntax]. lia.
Qed.

(** One turn, as a case of the switch and what follows it. *)
Lemma decode_loop_S fuel buf eod st : pos st < eod ->
  decode_loop (S fuel) buf eod st =
  let! tag := byte_at buf (pos st) in
  let! c := peek (dsyntax st) in
  let! fl := decode_case buf eod (nested buf fuel) c (masked_tag tag) (dsyntax st)
    {| dsyntax := advance (dsyntax st); pos := pos st + 1; dargs := dargs st; outs := outs st |} in
  match fl with
  | Next ER_OK st => decode_loop fuel buf eod st
  | Next status st => decode_finish status st
  | Take len st => let! s := assign buf (pos st) len in let! st := out_str st s in decode_loop fuel buf eod (at_pos st (pos st + len))
  end.
Proof. intros H. cbn [decode_loop]. by assert ((pos st <? eod) = true) as -> by lia. Qed.

(** Progress, also at the end of the syntax. *)
Lemma turn_progress buf eod f st c tag fl : Forall is_byte buf -> shrinks f -> pos st < eod -> peek (dsyntax st) = Ok c ->
  decode_case buf eod f c tag (dsyntax st)
    {| dsyntax := advance (dsyntax st); pos := pos st + 1; dargs := dargs st; outs := outs st |} = Ok fl ->
  progress (dsyntax st) (pos st) fl.
Proof.
  intros Hb Hf Hlt Hc H. destruct (dsyntax st) as [[|c' s]|] eqn:E; [| |done]; injection Hc as <-.
  - cbn in H. injection H as <-. split; [done|]. done.
  - eapply case_progress; [done|done| | |exact Hlt|exact H]; done.
Qed.

Lemma nested_shrinks buf : Forall is_byte buf -> forall fuel, shrinks (nested buf fuel).
Proof.
  intros Hb. assert (forall fuel eod st status st', decode_loop fuel buf eod st = Ok (status, st') ->
    (left_syntax (dsyntax st') <= left_syntax (dsyntax st))%nat) as Hloop.
  2:{ intros fuel st len status st' H. unfold nested in H. case_match; [by injection H as <- <-|]. by eapply Hloop. }
  induction fuel as [|fuel IH]; intros eod st status st' H; [done|].
  destruct (Z.ltb_spec (pos st) eod) as [Hlt|Hge].
  2:{ cbn [decode_loop] in H. assert ((pos st <? eod) = false) as Hb' by lia. rewrite Hb' in H. by apply decode_finish_shrinks in H. }
  rewrite decode_loop_S in H by done. apply rbind_Ok in H as (tag & _ & H). apply rbind_Ok in H as (c & Hc & H).
  apply rbind_Ok in H as (fl & Hfl & H). eapply turn_progress in Hfl; [|done| |done|done].
  2:{ intros st1 len s1 st2 H'. unfold nested in H'. case_match; [by injection H' as <- <-|]. by eapply IH. }
  destruct fl as [s1 st1|len st1]; cbn [progress] in Hfl; destruct Hfl as [Hleft _].
  - destruct (decide (s1 = ER_OK)) as [->|Hne]; [apply IH in H; lia|].
    assert (decode_finish s1 st1 = Ok (status, st')) as H' by (by destruct s1). apply decode_finish_shrinks in H'. lia.
  - apply rbind_Ok in H as (str & _ & H). apply rbind_Ok in H as (st2 & E & H). apply out_str_st in E as [E _].
    apply IH in H. cbn [at_pos dsyntax] in H. rewrite E in H. lia.
Qed.

(** Beyond the bytes and characters left, more fuel changes nothing. *)
Lemma decode_loop_fuel buf : Forall is_byte buf -> forall f g eod st,
  (measure eod st < f)%nat -> (measure eod st < g)%nat -> decode_loop f buf eod st = decode_loop g buf eod st.
Proof.
  intros Hb. induction f as [|f IH]; intros g eod st Hf Hg; [lia|]. destruct g as [|g]; [lia|].
  destruct (Z.ltb_spec (pos st) eod) as [Hlt|Hge].
  2:{ cbn [decode_loop]. by assert ((pos st <? eod) = false) as -> by lia. }
  rewrite !decode_loop_S by done. destruct (byte_at buf (pos st)) as [tag| |]; [|done..]. cbn [rbind].
  destruct (peek (dsyntax st)) as [c| |] eqn:Hc; [|done..]. cbn [rbind]. unfold measure in *.
  rewrite (decode_case_agree buf eod (nested buf f) (nested buf g)); [|done|].
  2:{ intros st' len H1 H2 H3. cbn [dsyntax pos] in *. pose proof (left_advance (dsyntax st)). unfold nested.
      destruct (len =? 0); [done|]. apply IH; lia. }
  destruct (decode_case _ _ _ _ _ _ _) as [fl| |] eqn:Hfl; [|done..]. cbn [rbind].
  eapply turn_progress in Hfl; [|done|by apply nested_shrinks|done|done].
  destruct fl as [s1 st1|len st1]; destruct Hfl as [Hleft Hless].
  - destruct (decide (s1 = ER_OK)) as [->|Hne]; [|by destruct s1]. specialize (Hless eq_refl). unfold less in Hless. apply IH; lia.
  - destruct (assign buf (pos st1) len) as [str| |]; [|done..]. cbn [rbind].
    destruct (out_str st1 str) as [st2| |] eqn:E; [|done..]. apply out_str_st in E as [E1 E2]. cbn [rbind].
    unfold less in Hless. apply IH; cbn [at_pos dsyntax pos]; rewrite E1, E2; lia.
Qed.

(** The same for the encoder, whose turns take a character each. *)
Definition eshrinks (f : Syntax -> list EArg -> res (QStatus * EState)) : Prop :=
  forall s a status st, f s a = Ok (status, st) -> (left_syntax (esyntax st) <= left_syntax s)%nat.

Lemma encode_block_shrinks f close tag s a asn status st : eshrinks f ->
  encode_block f close tag s a asn = Ok (status, st) -> (left_syntax (esyntax st) <= left_syntax s)%nat.
Proof.
  intros Hf. unfold encode_block. destruct (f s a) as [[s1 st1]| |] eqn:E; [|done..]. cbn [rbind]. apply Hf in E.
  pose proof (left_advance (esyntax st1)) as Hadv. destruct (peek (esyntax st1)); [|done..]. cbn [rbind].
  case_match; [by intros [= <- <-]; cbn; lia|].
  destruct (decide (s1 = ER_OK)) as [->|Hne].
  - intros H'. apply rbind_Ok in H' as (l & _ & [= <- <-]). cbn. lia.
  - destruct s1; try done; intros [= <- <-]; cbn; lia.
Qed.

Lemma encode_item_shrinks f c s a asn status st : eshrinks f ->
  encode_item f c s a asn = Ok (status, st) -> (left_syntax (esyntax st) <= left_syntax s)%nat.
Proof.
  intros Hf. unfold encode_item. pose proof (left_advance s) as Hadv.
  repeat match goal with
  | |- rbind ?r _ = Ok _ -> _ => destruct r; cbn [rbind]; [|discriminate..]
  | |- Ok _ = Ok _ -> _ => intros [= <- <-]; cbn; lia
  | |- encode_block _ _ _ _ _ _ = Ok _ -> _ => let H := fresh in intros H; apply encode_block_shrinks in H; [lia|done]
  | |- (if ?b then _ else _) = Ok _ -> _ => destruct b
  | |- match ?b with _ => _ end = Ok _ -> _ => destruct b
  end.
Qed.

Lemma EncodeV_shrinks fuel : forall s a asn status st,
  EncodeV fuel s a asn = Ok (status, st) -> (left_syntax (esyntax st) <= left_syntax s)%nat.
Proof.
  induction fuel as [|fuel IH]; intros s a asn status st H; [done|]. cbn [EncodeV] in H.
  destruct (peek s); [|done..]. cbn [rbind] in H. case_match; [by injection H as <- <-|].
  apply rbind_Ok in H as ([s1 st1] & E & H). cbn [fst snd] in H. pose proof (left_advance s).
  apply encode_item_shrinks in E; [|intros ? ? ? ? H'; by apply IH in H'].
  destruct (decide (s1 = ER_OK)) as [->|Hne]; [apply IH in H; lia|].
  destruct s1; try done; injection H as <- <-; lia.
Qed.

Lemma encode_item_agree f g c s a asn :
  (forall s' a', (left_syntax s' <= left_syntax s)%nat -> f s' a' = g s' a') -> encode_item f c s a asn = encode_item g c s a asn.
Proof.
  intros Hfg. assert (forall close tag s' a', (left_syntax s' <= left_syntax s)%nat ->
    encode_block f close tag s' a' asn = encode_block g close tag s' a' asn) as Hb.
  { intros close tag s' a' Hs. unfold encode_block. by rewrite Hfg. }
  unfold encode_item. rewrite !(Hb _ _ s) by lia. repeat case_match; try done.
  destruct (arg_u32 a) as [[v a']| |]; [|done..]. cbn [rbind fst snd]. case_match; [done|].
  destruct (peek s); [|done..]. cbn [rbind]. case_match; [done|]. apply Hb, left_advance.
Qed.

Lemma EncodeV_fuel f : forall g s a asn,
  (left_syntax s < f)%nat -> (left_syntax s < g)%nat -> EncodeV f s a asn = EncodeV g s a asn.
Proof.
  induction f as [|f IH]; intros g s a asn Hf Hg; [lia|]. destruct g as [|g]; [lia|]. cbn [EncodeV].
  destruct s as [[|c s]|]; [done| |done]. cbn [peek rbind advance left_syntax length] in *. case_match; [done|].
  rewrite (encode_item_agree (fun s a => EncodeV f s a []) (fun s a => EncodeV g s a [])).
  2:{ intros s' a' Hs. cbn [left_syntax] in Hs. apply IH; lia. }
  destruct (encode_item _ c (Some s) a asn) as [[s1 st1]| |] eqn:E; [|done..]. cbn [rbind fst snd].
  apply encode_item_shrinks in E; [|intros ? ? ? ? H'; by apply EncodeV_shrinks in H']. cbn [left_syntax] in E.
  destruct s1; try done. apply IH; lia.
Qed.

(** * The properties *)

Instance arc_dec v : Decision (arc v).
Proof. unfold arc. apply _. Defined.
Instance leaf_ok_dec l : Decision (leaf_ok l).
Proof. destruct l; cbn [leaf_ok]; apply _. Defined.
Instance Items_not_Nil it : Decision (it <> Nil).
Proof. destruct it; [right; tauto|left; done..]. Defined.
Instance block_ok_dec b : Decision (block_ok b).
Proof. destruct b; cbn [block_ok]; apply _. Defined.
Instance items_ok_dec it : Decision (items_ok it).
Proof. induction it; cbn [items_ok]; apply _. Defined.

(** C31: whatever tree of integers, big numbers, object identifiers, strings, bit
    strings, nulls and booleans, nested in sequences, sets and context tags, within
    [items_ok], is encoded with its syntax string, the encoder succeeds and the decoder,
    given the same syntax string, reads the values back: integers and strings exactly,
    big numbers without their leading zeros, bit strings cut to their bits, true as 255.
    [items_ok] asks that no string and no block is empty, that a bit string has a bit,
    that a big number is not zero, that the second number of an identifier is below 40
    and the first two fit in a byte, that a context tag is below 32, and the encoding
    must be shorter than 2^32 bytes. *)
Theorem ASN1_roundtrip it : it <> Nil -> items_ok it -> weight it < 2 ^ 32 ->
  exists asn, Encode (syntax_of it) (eargs_of it) = Ok (ER_OK, asn) /\ zlen asn <= weight it /\
    Decode asn (syntax_of it) (dargs_of it) = Ok (ER_OK, outs_of it).
Proof.
  intros Hne Hok Hw. destruct (items_codes it Hok Hw) as (asn & Hlen & Hasn & He & Hd). exists asn.
  specialize (Hasn Hne). split_and!; [|done|].
  - specialize (He (S (length (syntax_of it))) [] [] [] I ltac:(lia)). rewrite !app_nil_r in He. unfold Encode. by rewrite He.
  - unfold Decode, DecodeV. assert ((zlen asn =? 0) = false) as ->.
    { apply Z.eqb_neq. destruct asn; [done|cbn [length]; lia]. }
    specialize (Hd (decode_fuel asn (syntax_of it)) asn 0 [] [] [] I). rewrite !app_nil_r, Z.add_0_l in Hd.
    rewrite Hd; [done|unfold decode_fuel; lia|]. split; [done|]. exists []. by rewrite app_nil_r.
Qed.

Definition example : Items :=
  Nest BSeq (Elem (LInt 70000) (Elem (LOid 1 2 [840; 113549]) (Nest (BContext 3) (Elem (LStr 120 [1; 2; 3]) Nil)
    (Elem (LBits [255; 255] 11) (Elem LNull (Elem (LBool 1) Nil)))))) (Elem (LBig [0; 200; 1]) Nil).

Lemma ASN1_roundtrip_witness :
  Encode (syntax_of example) (eargs_of example) =
    Ok (ER_OK, [48; 30; 2; 3; 1; 17; 112; 6; 6; 42; 134; 72; 134; 247; 13; 163; 5; 4; 3; 1; 2; 3; 3; 3; 5; 255; 224; 5; 0;
      1; 1; 255; 2; 3; 0; 200; 1]) /\
  exists asn, Encode (syntax_of example) (eargs_of example) = Ok (ER_OK, asn) /\ zlen asn <= weight example /\
    Decode asn (syntax_of example) (dargs_of example) = Ok (ER_OK, outs_of example).
Proof.
  split; [by vm_compute|]. apply ASN1_roundtrip; [discriminate| |done].
  apply (bool_decide_unpack _). by vm_compute.
Defined.

(** the decoder and the encoder end: the turns of their loops, nested ones
    included, are bounded by the characters of the syntax and the bytes of the
    data; more fuel than that gives the same result. *)
Theorem ASN1_terminates buf syntax args eargs : Forall is_byte buf ->
  (forall fuel, (decode_fuel buf syntax <= fuel)%nat ->
    DecodeV fuel buf syntax args (zlen buf) = DecodeV (decode_fuel buf syntax) buf syntax args (zlen buf)) /\
  (forall fuel asn, (length syntax < fuel)%nat ->
    EncodeV fuel (Some syntax) eargs asn = EncodeV (S (length syntax)) (Some syntax) eargs asn).
Proof.
  intros Hb. split.
  - intros fuel Hf. unfold decode_fuel, DecodeV in *. case_match; [done|].
    apply decode_loop_fuel; [done|unfold measure; cbn; lia..].
  - intros fuel asn Hf. apply EncodeV_fuel; cbn; lia.
Qed.

Lemma ASN1_terminates_witness :
  DecodeV 1000 [48; 3; 2; 1; 5] [40; 105; 41] [PU32] 5 = DecodeV (decode_fuel [48; 3; 2; 1; 5] [40; 105; 41]) [48; 3; 2; 1; 5] [40; 105; 41] [PU32] 5.
Proof.
  apply (proj1 (ASN1_terminates [48; 3; 2; 1; 5] [40; 105; 41] [PU32] []
    ltac:(repeat constructor; unfold is_byte; lia))).
  unfold decode_fuel. cbn [length]. lia.
Defined.

(** base-64 text of any bytes, line breaks and padding included, decodes to
    them. *)
Theorem Base64_roundtrip bin : Forall is_byte bin -> DecodeBase64 (EncodeBase64 bin) = Ok bin.
Proof. apply Base64_decodes. Qed.

Lemma Base64_roundtrip_witness :
  EncodeBase64 [65; 108; 108; 74] = [81; 87; 120; 115; 83; 103; 61; 61; 10] /\ DecodeBase64 (EncodeBase64 [65; 108; 108; 74]) = Ok [65; 108; 108; 74].
Proof. split; [by vm_compute|]. apply Base64_roundtrip. repeat constructor; unfold is_byte; lia. Defined.

(** reading a length never leaves the data; the length it accepts lies within
    the data and is exactly the number the bytes spell: the wrapping of its
    accumulator, which the code's test does not always notice, never gets through
    for data of less than 2^56 bytes. *)
Theorem DecodeLen_exact buf p eod : Forall is_byte buf -> 0 <= p -> eod <= zlen buf -> zlen buf < 2 ^ 56 ->
  DecodeLen buf p eod <> Undef /\
  forall len q, DecodeLen buf p eod = Ok (Some (len, q)) ->
    p < q /\ q + len <= eod /\ exists b bytes, has_at buf p (b :: bytes) /\ q = p + 1 + zlen bytes /\
      (b < 128 /\ bytes = [] /\ len = b \/ 128 <= b /\ zlen bytes = b - 128 /\ len = big 0 bytes).
Proof.
  intros Hb Hp He Hsize. unfold DecodeLen. destruct (eod <=? p) eqn:Ep; [done|].
  destruct (lookup_lt_is_Some_2 buf (Z.to_nat p)) as [b Hlook]; [lia|].
  assert (byte_at buf p = Ok b) as Hat by (unfold byte_at; assert ((p <? 0) = false) as -> by lia; by rewrite Hlook).
  assert (is_byte b) as Hbyte by (by eapply byte_at_byte). rewrite Hat. apply byte_at_Ok in Hat. cbn [rbind].
  rewrite high_bit by done. unfold is_byte in Hbyte. destruct (b <? 128) eqn:E8; cbn [negb].
  - cbn [rbind]. split; [done|]. intros len q H. destruct (b <=? eod - (p + 1)) eqn:El; [|done]. injection H as <- <-.
    split_and!; [lia..|]. exists b, []. split_and!; [done|cbn; lia|left; split_and!; [lia|done..]].
  - pose proof (DecodeLen_loop_defined (Z.to_nat (Z.land b 127)) buf eod He (p + 1) 0 ltac:(lia)) as Hdef.
    pose proof (DecodeLen_loop_exact (Z.to_nat (Z.land b 127)) buf eod Hb (p + 1) 0 ltac:(lia) ltac:(lia)) as Hex.
    destruct (DecodeLen_loop _ _ _ _ _) as [[[l r]|]| |]; [|done|done|done]. cbn [rbind]. split; [done|].
    intros len q H. destruct (l <=? eod - r) eqn:El; [|done]. injection H as <- <-.
    destruct (Hex l r eq_refl) as (-> & _ & bytes & Hlen & Hhas & Hval). rewrite land_127 in *.
    assert (zlen bytes = b - 128) as Hz by (rewrite Hlen, Z2Nat.id by (apply Z.mod_pos_bound; lia); euclid).
    rewrite <- Hlen in El |- *. split_and!; [lia..|]. exists b, bytes. split_and!; [by apply has_at_cons|lia|]. right. split_and!; [lia..|apply Hval; lia].
Qed.

Lemma DecodeLen_exact_witness :
  DecodeLen [130; 1; 0; 7] 0 4 = Ok None /\ DecodeLen [129; 1; 7] 0 3 <> Undef.
Proof.
  split; [by vm_compute|].
  apply (DecodeLen_exact [129; 1; 7] 0 3); [repeat constructor; unfold is_byte; lia|cbn; lia..].
Defined.

(** the text of an object identifier decodes to itself only when its first two
    numbers fit the byte they are packed in: otherwise, such as for 2.40 or 2.999,
    encoding succeeds and another identifier comes back. *)
Theorem OID_packed a0 a1 arcs : arc a0 -> arc a1 -> Forall arc arcs ->
  let n := ((a0 * 40 + a1) mod 2 ^ 32) mod 256 in
  exists b, EncodeOID (oid_text a0 a1 arcs) = Ok (ER_OK, b) /\ DecodeOID b = Ok (oid_text (n / 40) (n mod 40) arcs).
Proof.
  intros H0 H1 Ha n. unfold EncodeOID, oid_text. rewrite oid_numbers_text by done. cbn [oid_numbers].
  rewrite Z.eqb_refl, oid_numbers_text, oid_numbers_dotted by done. cbn [app]. fold n.
  destruct (encode_arcs_reads arcs Ha) as (b & -> & _ & _ & Hd). cbn [rbind]. eexists. split; [done|].
  cbn [DecodeOID]. assert (0 <= n < 256) by (apply Z.mod_pos_bound; lia).
  destruct (text10_ok (n / 40)) as [-> _]; [apply Z.div_pos; lia|].
  destruct (text10_ok (n mod 40)) as [-> _]; [apply Z.mod_pos_bound; lia|]. cbn [rbind]. by rewrite Hd.
Qed.

Lemma OID_packed_witness :
  oid_text 2 999 [3] = [50; 46; 57; 57; 57; 46; 51] /\ oid_text 1 15 [3] = [49; 46; 49; 53; 46; 51] /\
  exists b, EncodeOID (oid_text 2 999 [3]) = Ok (ER_OK, b) /\ DecodeOID b = Ok (oid_text 1 15 [3]).
Proof.
  split; [by vm_compute|]. split; [by vm_compute|].
  exact (OID_packed 2 999 [3] ltac:(unfold arc; lia) ltac:(unfold arc; lia) ltac:(repeat constructor; unfold arc; lia)).
Defined.

(** * What the decoder does at its limits *)

(** The reverse table has an entry for the colon, the one of the plus. *)
Lemma DecodeBase64_colon : DecodeBase64 [58; 58; 58; 58] = DecodeBase64 [43; 43; 43; 43].
Proof. done. Qed.

(** A character from 128 on indexes in front of the table. *)
Lemma DecodeBase64_high c s : 128 <= c < 256 -> DecodeBase64 (c :: s) = Undef.
Proof.
  intros Hc. unfold DecodeBase64. cbn [DecodeBase64_strip]. unfold char_index, B64Decode.
  assert ((c <? 128) = false) as -> by lia. by assert ((c - 256 <? 0) || (128 <=? c - 256) = true) as -> by lia.
Qed.

(** Empty strings and empty sequences are encoded but not decoded. *)
Lemma empty_string : Encode [120] [EStr []] = Ok (ER_OK, [4; 0]) /\ Decode [4; 0] [120] [PStr] = Undef.
Proof. done. Qed.
Lemma empty_sequence : Encode [40; 41] [] = Ok (ER_OK, [48; 0]) /\ Decode [48; 0] [40; 41] [] = Ok (ER_FAIL, []).
Proof. done. Qed.

(** Zero as a big number is encoded without a byte, which the decoder refuses, and
    in its proper form it makes the decoder store an empty string. *)
Lemma zero_big : Encode [108] [EStr [0]] = Ok (ER_OK, [2; 0]) /\ Decode [2; 0] [108] [PStr] = Ok (ER_FAIL, []) /\
  Decode [2; 1; 0] [108] [PStr] = Undef.
Proof. done. Qed.

(** More elements than the syntax has make the decoder read behind the syntax
    string; fewer leave outputs unset although the status is ER_OK. *)
Lemma too_many : Decode [5; 0; 5; 0] [110] [] = Undef.
Proof. done. Qed.
Lemma too_few : Decode [2; 1; 7] [105; 105] [PU32; PU32] = Ok (ER_OK, [OU32 7]).
Proof. done. Qed.

(** A null whose length is missing is read behind the data. *)
Lemma cut_null : Decode [5] [110] [] = Undef.
Proof. done. Qed.
