(* ===== verification/Ardp.v ===== *)
(** Model of alljoyn_core/router/ArdpProtocol.cc, first part: sequence numbers,
    the mask of segments received out of order, and the queue of received
    segments.

    The buffers of a queue are an array whose [next] pointers make a ring: they are
    set once, from each index to the following one. A word in network order stands
    for its value. Time stands still during an operation and is an argument of it.
    A violated assert is [Undef], and so is an access outside an array. Statistics,
    logging and test hooks are left out: the protocol never reads them. *)
From S2P Require Import Prelude Types.

Module Ardp.

Definition w16 (x : Z) : Z := x mod 2 ^ 16.
Definition w32 (x : Z) : Z := x mod 2 ^ 32.

(** * Sequence numbers *)

Definition SEQ32_LT (a b : Z) : bool := 2 ^ 31 <=? w32 (a - b).
Definition SEQ32_LET (a b : Z) : bool := SEQ32_LT a b || (a =? b).

Definition IN_RANGE (beg sz p : Z) : bool :=
  let e := w32 (beg + sz) in
  ((beg <? e) && (beg <=? p) && (p <? e)) || ((e <? beg) && negb ((p <? beg) && (e <=? p))).

(** * Constants *)

Definition ARDP_TTL_EXPIRED : Z := 0xffffffff.
Definition ARDP_TTL_INFINITE : Z := 0.
Definition ARDP_BUFFER_IN_USE : Z := 1.
Definition ARDP_BUFFER_DELIVERED : Z := 2.
Definition ARDP_MAX_HEADER_LEN : Z := 255.
Definition ARDP_FIXED_HEADER_LEN : Z := 36.
Definition ARDP_MAX_WINDOW_SIZE : Z :=
  Z.shiftl (Z.shiftr (ARDP_MAX_HEADER_LEN * 2 - ARDP_FIXED_HEADER_LEN) 5) 5.

(** * State of the receiving side *)

Record ArdpTimer := { delta : Z; when_ : Z; retry : Z }.

Record ArdpRcvBuf := {
  r_seq : Z; r_datalen : Z; r_data : option (list Z); r_som : Z; r_ttl : Z; r_tRecv : Z; r_fcnt : Z; r_flags : Z
}.

Definition in_use (b : ArdpRcvBuf) : bool := negb (Z.land (r_flags b) ARDP_BUFFER_IN_USE =? 0).
Definition is_delivered (b : ArdpRcvBuf) : bool := negb (Z.land (r_flags b) ARDP_BUFFER_DELIVERED =? 0).

Definition with_r_seq (b : ArdpRcvBuf) (s : Z) : ArdpRcvBuf :=
  {| r_seq := s; r_datalen := r_datalen b; r_data := r_data b; r_som := r_som b; r_ttl := r_ttl b; r_tRecv := r_tRecv b;
     r_fcnt := r_fcnt b; r_flags := r_flags b |}.
Definition with_r_ttl (b : ArdpRcvBuf) (t : Z) : ArdpRcvBuf :=
  {| r_seq := r_seq b; r_datalen := r_datalen b; r_data := r_data b; r_som := r_som b; r_ttl := t; r_tRecv := r_tRecv b;
     r_fcnt := r_fcnt b; r_flags := r_flags b |}.
Definition with_r_flags (b : ArdpRcvBuf) (f : Z) : ArdpRcvBuf :=
  {| r_seq := r_seq b; r_datalen := r_datalen b; r_data := r_data b; r_som := r_som b; r_ttl := r_ttl b; r_tRecv := r_tRecv b;
     r_fcnt := r_fcnt b; r_flags := f |}.
(** A released buffer. *)
Definition emptied (b : ArdpRcvBuf) : ArdpRcvBuf :=
  {| r_seq := r_seq b; r_datalen := r_datalen b; r_data := None; r_som := r_som b; r_ttl := ARDP_TTL_INFINITE;
     r_tRecv := r_tRecv b; r_fcnt := r_fcnt b; r_flags := 0 |}.

Record ArdpEack := { mask : list Z; htnMask : list Z; sz : Z; fixedSz : Z }.

Record ArdpRcv := {
  CUR : Z; IRS : Z; LCS : Z; rbuf : list ArdpRcvBuf; eack : ArdpEack; rSEGMAX : Z; rSEGBMAX : Z
}.

Definition with_CUR (r : ArdpRcv) (c : Z) : ArdpRcv :=
  {| CUR := c; IRS := IRS r; LCS := LCS r; rbuf := rbuf r; eack := eack r; rSEGMAX := rSEGMAX r; rSEGBMAX := rSEGBMAX r |}.
Definition with_LCS (r : ArdpRcv) (l : Z) : ArdpRcv :=
  {| CUR := CUR r; IRS := IRS r; LCS := l; rbuf := rbuf r; eack := eack r; rSEGMAX := rSEGMAX r; rSEGBMAX := rSEGBMAX r |}.
Definition with_rbuf (r : ArdpRcv) (b : list ArdpRcvBuf) : ArdpRcv :=
  {| CUR := CUR r; IRS := IRS r; LCS := LCS r; rbuf := b; eack := eack r; rSEGMAX := rSEGMAX r; rSEGBMAX := rSEGBMAX r |}.
Definition with_eack (r : ArdpRcv) (e : ArdpEack) : ArdpRcv :=
  {| CUR := CUR r; IRS := IRS r; LCS := LCS r; rbuf := rbuf r; eack := e; rSEGMAX := rSEGMAX r; rSEGBMAX := rSEGBMAX r |}.

(** What the functions on received segments change: the receiving side, the timer
    of acknowledgements, the time of the next call, and what was delivered: the
    fragments of a message that are reachable from the buffer given to RecvCb. *)
Record Rx := { rcv : ArdpRcv; ackTimer : ArdpTimer; msnext : Z; delivered : list (list ArdpRcvBuf) }.

Definition with_rcv (x : Rx) (r : ArdpRcv) : Rx :=
  {| rcv := r; ackTimer := ackTimer x; msnext := msnext x; delivered := delivered x |}.

(** * The mask of extended acknowledgements *)

Definition word_at (l : list Z) (i : Z) : res Z :=
  if i <? 0 then Undef else match l !! Z.to_nat i with Some w => Ok w | None => Undef end.
Definition set_word (l : list Z) (i w : Z) : list Z := <[Z.to_nat i := w]> l.

(** The loop over the words from [i] on, [n] of them. *)
Fixpoint shift_loop (n : nat) (i : Z) (mask htnMask : list Z) (newSz : Z) : res (list Z * list Z * Z) :=
  match n with
  | O => Ok (mask, htnMask, newSz)
  | S n =>
      let! m := word_at mask i in
      if m =? 0 then shift_loop n (i + 1) mask htnMask newSz
      else
        let saveBits := Z.shiftr m 31 in
        let m := w32 (Z.shiftl m 1) in
        let mask := set_word mask i m in
        let! prev := word_at mask (i - 1) in
        let prev := Z.lor prev saveBits in
        let mask := set_word mask (i - 1) prev in
        let newSz := if 0 <? m then i + 1 else if negb (saveBits =? 0) then i else newSz in
        let! _ := word_at htnMask (i - 1) in
        shift_loop n (i + 1) mask (set_word htnMask (i - 1) prev) newSz
  end.

Definition ShiftRcvMsk (e : ArdpEack) : res ArdpEack :=
  if sz e =? 0 then Ok e
  else
    let! m0 := word_at (mask e) 0 in
    let m0 := w32 (Z.shiftl m0 1) in
    let! r := shift_loop (Z.to_nat (sz e) - 1) 1 (set_word (mask e) 0 m0) (htnMask e) (if 0 <? m0 then 1 else 0) in
    let '(mask, htnMask, newSz) := r in
    let i := Z.max 1 (sz e) in
    let! w := word_at mask (i - 1) in
    let! _ := word_at htnMask (i - 1) in
    Ok {| mask := mask; htnMask := set_word htnMask (i - 1) w; sz := newSz; fixedSz := fixedSz e |}.

Definition AddRcvMsk (e : ArdpEack) (delta : Z) : res ArdpEack :=
  let bin32 := w32 (delta - 1) / 32 in
  let offset := w32 (32 - (delta - Z.shiftl bin32 5)) in
  if negb (bin32 <? Z.shiftr (fixedSz e) 2) || (32 <=? offset) then Undef
  else
    let! w := word_at (mask e) bin32 in
    let w := Z.lor w (Z.shiftl 1 offset) in
    let! _ := word_at (htnMask e) bin32 in
    Ok {| mask := set_word (mask e) bin32 w; htnMask := set_word (htnMask e) bin32 w;
          sz := if sz e <? bin32 + 1 then w16 (bin32 + 1) else sz e; fixedSz := fixedSz e |}.

(** * The queue of received segments *)

Definition buf_at (r : ArdpRcv) (i : Z) : res ArdpRcvBuf :=
  if i <? 0 then Undef else match rbuf r !! Z.to_nat i with Some b => Ok b | None => Undef end.
Definition set_buf (r : ArdpRcv) (i : Z) (b : ArdpRcvBuf) : ArdpRcv := with_rbuf r (<[Z.to_nat i := b]> (rbuf r)).

(** [&conn->rcv.buf[seq % SEGMAX]] and [->next]. *)
Definition index_of (r : ArdpRcv) (seq : Z) : res Z := if rSEGMAX r =? 0 then Undef else Ok (w16 (seq mod rSEGMAX r)).
Definition next (r : ArdpRcv) (i : Z) : Z := (i + 1) mod rSEGMAX r.

Definition InitRcv (segmax segbmax : Z) (r : ArdpRcv) : ArdpRcv :=
  {| CUR := CUR r; IRS := IRS r; LCS := LCS r;
     rbuf := replicate (Z.to_nat segmax) {| r_seq := 0; r_datalen := 0; r_data := None; r_som := 0; r_ttl := 0; r_tRecv := 0;
                                            r_fcnt := 0; r_flags := 0 |};
     eack := eack r; rSEGMAX := w16 segmax; rSEGBMAX := w16 segbmax |}.

Definition PostInitRcv (r : ArdpRcv) : ArdpRcv :=
  with_rbuf (with_LCS r (CUR r)) ((fun b => with_r_seq b (IRS r)) <$> rbuf r).

Section Rx.
Context (now delayedAckTimeout : Z).

(** UpdateTimer for the timer of acknowledgements. *)
Definition schedule_ack (x : Rx) (timeout : Z) : Rx :=
  {| rcv := rcv x; ackTimer := {| delta := timeout; when_ := w32 (now + timeout); retry := 1 |};
     msnext := if timeout <? msnext x then timeout else msnext x; delivered := delivered x |}.
Definition ack_if_idle (x : Rx) (timeout : Z) : Rx := if retry (ackTimer x) =? 0 then schedule_ack x timeout else x.

(** The do-while of ReleaseRcvBuffers, at the buffer with index [i]. *)
Fixpoint release_buffers (fuel : nat) (r : ArdpRcv) (i count : Z) : res ArdpRcv :=
  match fuel with
  | O => Undef
  | S fuel =>
      let! b := buf_at r i in
      let r := with_LCS (set_buf r i (emptied b)) (w32 (LCS r + 1)) in
      let count := if count =? 0 then 0 else count - 1 in
      let i := next r i in
      let! c := buf_at r i in
      if negb (count =? 0) || ((r_ttl c =? ARDP_TTL_EXPIRED) && negb (is_delivered c)) then release_buffers fuel r i count
      else Ok r
  end.

(** Every buffer beyond the counted ones is no longer expired once released. *)
Definition release_fuel (r : ArdpRcv) (fcnt : Z) : nat := S (Z.to_nat fcnt + length (rbuf r)).

(** [expired]: the reason is ER_ARDP_TTL_EXPIRED. *)
Definition ReleaseRcvBuffers (x : Rx) (seq fcnt : Z) (expired : bool) : res (QStatus * Rx) :=
  let! i := index_of (rcv x) seq in
  if fcnt =? 0 then Undef
  else if negb (seq =? w32 (LCS (rcv x) + 1)) then (if expired then Ok (ER_OK, x) else Undef)
  else
    let! b := buf_at (rcv x) i in
    if negb expired && negb (r_seq b =? seq) then Undef
    else
      let! r := release_buffers (release_fuel (rcv x) fcnt) (rcv x) i fcnt in
      let r := if SEQ32_LT (CUR r) (LCS r) then with_CUR r (LCS r) else r in
      Ok (ER_OK, ack_if_idle (with_rcv x r) delayedAckTimeout).

(** The [n] buffers of the ring from index [i] on. *)
Fixpoint chain (r : ArdpRcv) (n : nat) (i : Z) : res (list ArdpRcvBuf) :=
  match n with
  | O => Ok []
  | S n => let! b := buf_at r i in let! l := chain r n (next r i) in Ok (b :: l)
  end.

(** Change the [n] buffers from index [i] on. *)
Fixpoint change_chain (f : ArdpRcvBuf -> ArdpRcvBuf) (n : nat) (r : ArdpRcv) (i : Z) : res ArdpRcv :=
  match n with
  | O => Ok r
  | S n => let! b := buf_at r i in change_chain f n (set_buf r i (f b)) (next r i)
  end.

(** One turn of AdvanceRcvQueue for the segment [seq] in the buffer [i]; the
    expiring message, its start and its number of fragments, before and after. *)
Definition advance_turn (x : Rx) (i seq : Z) (expiring : option (Z * Z)) : res (Rx * option (Z * Z)) :=
  if negb (w32 (seq - LCS (rcv x)) <=? rSEGMAX (rcv x)) then Undef
  else
    let! e := ShiftRcvMsk (eack (rcv x)) in
    let x := with_rcv x (with_eack (rcv x) e) in
    let! current := buf_at (rcv x) i in
    match expiring with
    | Some (startSeq, fcnt) =>
        if seq =? w32 (startSeq + fcnt - 1) then
          let! r := ReleaseRcvBuffers x startSeq fcnt true in Ok (r.2, None)
        else Ok (x, expiring)
    | None =>
        if negb (r_ttl current =? ARDP_TTL_INFINITE) && (r_ttl current <=? w32 (now - r_tRecv current)) then
          let! start := index_of (rcv x) (r_som current) in
          (* a do-while: at least one buffer is marked *)
          let! r := change_chain (fun b => with_r_ttl b ARDP_TTL_EXPIRED) (Z.to_nat (Z.max 1 (r_fcnt current))) (rcv x) start in
          let x := with_rcv x r in
          if seq =? w32 (r_som current + r_fcnt current - 1) then
            let! r := ReleaseRcvBuffers x (r_som current) (r_fcnt current) true in Ok (r.2, None)
          else Ok (x, Some (r_som current, r_fcnt current))
        else if r_seq current =? w32 (r_som current + (r_fcnt current - 1)) then
          let! start := index_of (rcv x) (r_som current) in
          let! first := buf_at (rcv x) start in
          let! frags := chain (rcv x) (Z.to_nat (r_fcnt first)) start in
          let! r := change_chain (fun b => with_r_flags b (Z.lor (r_flags b) ARDP_BUFFER_DELIVERED)) (Z.to_nat (r_fcnt current)) (rcv x) start in
          Ok ({| rcv := r; ackTimer := ackTimer x; msnext := msnext x; delivered := delivered x ++ [frags] |}, None)
        else Ok (x, None)
    end.

Fixpoint advance_loop (fuel : nat) (x : Rx) (i seq : Z) (expiring : option (Z * Z)) : res (Rx * Z) :=
  match fuel with
  | O => Undef
  | S fuel =>
      let! t := advance_turn x i seq expiring in
      let '(x, expiring) := t in
      let i := next (rcv x) i in
      let seq := w32 (seq + 1) in
      let! current := buf_at (rcv x) i in
      if (in_use current && negb (is_delivered current)) || bool_decide (is_Some expiring) then advance_loop fuel x i seq expiring
      else Ok (x, seq)
  end.

(** A buffer is visited at most once before it is delivered or released, and the
    assert limits what is passed over while a message expires. *)
Definition advance_fuel (r : ArdpRcv) : nat := S (2 * length (rbuf r)).

Definition AdvanceRcvQueue (x : Rx) (i : Z) : res Rx :=
  let! current := buf_at (rcv x) i in
  let! t := advance_loop (advance_fuel (rcv x)) x i (r_seq current) None in
  let '(x, seq) := t in
  let x := if SEQ32_LT (CUR (rcv x)) (w32 (seq - 1)) then with_rcv x (with_CUR (rcv x) (w32 (seq - 1))) else x in
  Ok (ack_if_idle x delayedAckTimeout).

(** Mark what comes before [acknxt] as expired: [delta] segments of it were
    already acknowledged. *)
Fixpoint expire_loop (fuel : nat) (x : Rx) (i seq delta acknxt : Z) : res (Rx * Z * Z) :=
  match fuel with
  | O => Undef
  | S fuel =>
      let! b := buf_at (rcv x) i in
      if is_delivered b then Undef
      else
        let x := with_rcv x (set_buf (rcv x) i (with_r_ttl b ARDP_TTL_EXPIRED)) in
        let! x := if delta =? 0 then (let! e := ShiftRcvMsk (eack (rcv x)) in Ok (with_rcv x (with_eack (rcv x) e))) else Ok x in
        let delta := if delta =? 0 then 0 else delta - 1 in
        let seq := w32 (seq + 1) in
        let i := next (rcv x) i in
        if SEQ32_LT seq acknxt then expire_loop fuel x i seq delta acknxt else Ok (x, i, seq)
  end.

Definition FlushExpiredRcvMessages (x : Rx) (acknxt : Z) : res Rx :=
  let r := rcv x in
  let! i := index_of r (CUR r) in
  let! current := buf_at r i in
  let whole := negb (in_use current) || (r_seq current =? w32 (r_som current + r_fcnt current - 1)) in
  if whole && (sz (eack r) =? 0) && (LCS r =? CUR r) then
    Ok (ack_if_idle (with_rcv x (with_CUR (with_LCS r (w32 (acknxt - 1))) (w32 (acknxt - 1)))) delayedAckTimeout)
  else
    let! start := if whole then Ok (next r i) else index_of r (r_som current) in
    let startSeq := if whole then w32 (CUR r + 1) else r_som current in
    let delta := if whole then 0 else w32 (CUR r + 1 - r_som current) in
    let! t := expire_loop (S (Z.to_nat (w32 (acknxt - startSeq)))) x start startSeq delta acknxt in
    let '(x, i, seq) := t in
    let x := if SEQ32_LT (CUR (rcv x)) (w32 (acknxt - 1)) then with_rcv x (with_CUR (rcv x) (w32 (acknxt - 1))) else x in
    let! r := ReleaseRcvBuffers x startSeq (w16 (seq - startSeq)) true in
    let x := r.2 in
    let! current := buf_at (rcv x) i in
    let! x := if in_use current && negb (is_delivered current) then AdvanceRcvQueue x i else Ok x in
    Ok (ack_if_idle x delayedAckTimeout).

(** The parts of a received segment that are stored. *)
Record Segment := { SEQ : Z; SOM : Z; FCNT : Z; TTL : Z; payload : list Z }.

Definition AddRcvBuffer (x : Rx) (seg : Segment) (ordered : bool) : res (QStatus * Rx) :=
  let! i := index_of (rcv x) (SEQ seg) in
  let! current := buf_at (rcv x) i in
  if r_seq current =? SEQ seg then Ok (ER_OK, x)
  else if in_use current then Undef
  else
    let b := {| r_seq := SEQ seg; r_datalen := zlen (payload seg); r_data := Some (payload seg); r_som := SOM seg;
                r_ttl := TTL seg; r_tRecv := now; r_fcnt := FCNT seg; r_flags := ARDP_BUFFER_IN_USE |} in
    let x := with_rcv x (set_buf (rcv x) i b) in
    if ordered then let! x := AdvanceRcvQueue x i in Ok (ER_OK, x)
    else
      let! e := AddRcvMsk (eack (rcv x)) (w32 (SEQ seg - (CUR (rcv x) + 1))) in
      Ok (ER_OK, with_rcv x (with_eack (rcv x) e)).

(** A data segment of an open connection, [isDuplicate] as the range check found. *)
Definition receive_data (x : Rx) (seg : Segment) (isDuplicate : bool) : res (QStatus * Rx) :=
  let isDuplicate := if SEQ32_LT (SEQ seg) (w32 (CUR (rcv x) + 1)) then true else isDuplicate in
  if isDuplicate then Ok (ER_OK, x) else AddRcvBuffer x seg (SEQ seg =? w32 (CUR (rcv x) + 1)).

End Rx.

(** The range check of an open connection: None when the sequence number is
    unacceptable, else whether the segment is a duplicate from before the window. *)
Definition segment_range (r : ArdpRcv) (seq dlen : Z) : option bool :=
  let validWindow := if negb (dlen =? 0) then rSEGMAX r else rSEGMAX r + 1 in
  if IN_RANGE (w32 (LCS r + 1)) validWindow seq then Some false
  else if negb (dlen =? 0) && IN_RANGE (w32 (CUR r + 1 - rSEGMAX r)) (rSEGMAX r) seq then Some true
  else None.

End Ardp.
