(* ===== verification/ArdpRcvProofs.v ===== *)
(** Lemmas on the receiving side of ARDP: the mask of extended acknowledgements as
    a set of offsets, the ring of buffers, and what the queue holds. *)
From S2P Require Import Prelude Types Ardp.
Import Ardp.

(** * The mask *)

Definition word (l : list Z) (j : Z) : Z := default 0 (l !! Z.to_nat j).

(** Bit [k] stands for the segment rcv.CUR + 2 + k. *)
Definition eack_bit (l : list Z) (k : Z) : bool := Z.testbit (word l (k / 32)) (31 - k mod 32).

Definition words_ok (l : list Z) : Prop := Forall (fun w => 0 <= w < 2 ^ 32) l.

Lemma word_at_word l i : 0 <= i < zlen l -> word_at l i = Ok (word l i).
Proof.
  intros Hi. unfold word_at, word. assert ((i <? 0) = false) as -> by lia.
  destruct (lookup_lt_is_Some_2 l (Z.to_nat i)) as [w ->]; [lia|]. done.
Qed.

Lemma word_set l i w j : 0 <= i < zlen l -> 0 <= j -> word (set_word l i w) j = if j =? i then w else word l j.
Proof.
  intros Hi Hj. unfold word, set_word. destruct (Z.eqb_spec j i) as [->|Hne].
  - rewrite list_lookup_insert_eq by lia. done.
  - rewrite list_lookup_insert_ne by lia. done.
Qed.

Lemma zlen_set_word l i w : zlen (set_word l i w) = zlen l.
Proof. unfold set_word. by rewrite length_insert. Qed.

Lemma word_bound l j : words_ok l -> 0 <= word l j < 2 ^ 32.
Proof.
  intros H. unfold word. destruct (l !! Z.to_nat j) as [w|] eqn:E; cbn; [|lia]. by eapply Forall_lookup_1 in H.
Qed.

Lemma words_ok_set l i w : words_ok l -> 0 <= w < 2 ^ 32 -> words_ok (set_word l i w).
Proof. intros. by apply Forall_insert. Qed.

(** A word shifted by one, with the first bit of the next word. *)
Definition shifted (w next : Z) : Z := Z.lor (w32 (Z.shiftl w 1)) (Z.shiftr next 31).

Lemma shifted_bit w nx b : 0 <= w < 2 ^ 32 -> 0 <= nx < 2 ^ 32 -> 0 <= b < 32 ->
  Z.testbit (shifted w nx) b = if b =? 0 then Z.testbit nx 31 else Z.testbit w (b - 1).
Proof.
  intros Hw Hn Hb. unfold shifted, w32. rewrite Z.lor_spec, Z.shiftr_spec, Z.mod_pow2_bits_low, Z.shiftl_spec by lia.
  destruct (Z.eqb_spec b 0) as [->|Hne].
  - rewrite (Z.testbit_neg_r w) by lia. done.
  - assert (Z.testbit nx (b + 31) = false) as ->; [|by rewrite orb_false_r].
    destruct (Z.eq_dec nx 0) as [->|]; [by rewrite Z.bits_0|]. apply Z.bits_above_log2; [lia|].
    assert (Z.log2 nx < 32) by (apply Z.log2_lt_pow2; lia). lia.
Qed.

Lemma shifted_bound w nx : 0 <= nx < 2 ^ 32 -> 0 <= shifted w nx < 2 ^ 32.
Proof.
  intros Hn. unfold shifted. pose proof (Z.mod_pos_bound (Z.shiftl w 1) (2 ^ 32)).
  assert (0 <= Z.shiftr nx 31 <= 1).
  { rewrite Z.shiftr_div_pow2 by lia. split; [apply Z.div_pos; lia|]. apply Z.lt_succ_r, Z.div_lt_upper_bound; lia. }
  split; [apply Z.lor_nonneg; unfold w32; lia|].
  destruct (Z.eq_dec (Z.lor (w32 (Z.shiftl w 1)) (Z.shiftr nx 31)) 0) as [->|]; [lia|]. apply Z.log2_lt_cancel.
  change (Z.log2 (2 ^ 32)) with 32. rewrite Z.log2_lor by (unfold w32; lia). apply Z.max_lub_lt.
  - destruct (Z.eq_dec (w32 (Z.shiftl w 1)) 0) as [->|]; [done|]. apply Z.log2_lt_pow2; unfold w32 in *; lia.
  - apply Z.le_lt_trans with (Z.log2 1); [apply Z.log2_le_mono; lia|done].
Qed.

Lemma shifted_0_r w : shifted w 0 = w32 (Z.shiftl w 1).
Proof. unfold shifted. by rewrite Z.shiftr_0_l, Z.lor_0_r. Qed.

Lemma nonzero_shifted w : 0 < w < 2 ^ 32 -> w32 (Z.shiftl w 1) <= 0 -> Z.shiftr w 31 <> 0.
Proof.
  intros Hw Hz. unfold w32 in Hz. rewrite Z.shiftl_mul_pow2 in Hz by lia. rewrite Z.shiftr_div_pow2 by lia.
  change (2 ^ 1) with 2 in Hz. intros E. Z.to_euclidean_division_equations. lia.
Qed.

(** What the loop makes of the words. *)
Lemma shift_loop_words n : forall i l htn newSz,
  words_ok l -> zlen htn = zlen l -> 1 <= i -> i + Z.of_nat n <= zlen l ->
  0 <= newSz <= i -> (forall j, newSz <= j < i -> word l j = 0) -> (forall j, i + Z.of_nat n <= j -> word l j = 0) ->
  exists l' htn' newSz', shift_loop n i l htn newSz = Ok (l', htn', newSz') /\
    words_ok l' /\ zlen l' = zlen l /\ zlen htn' = zlen htn /\ 0 <= newSz' <= i + Z.of_nat n /\
    (forall j, newSz' <= j -> word l' j = 0) /\
    (forall j, 0 <= j < i - 1 -> word l' j = word l j) /\
    word l' (i - 1) = Z.lor (word l (i - 1)) (Z.shiftr (word l i) 31) /\
    (forall j, i <= j -> word l' j = shifted (word l j) (word l (j + 1))).
Proof.
  induction n as [|n IH]; intros i l htn newSz Hok Hh Hi Hn Hs Hz Hbeyond; cbn [shift_loop].
  { exists l, htn, newSz. split; [done|]. split_and!; [done..|lia|lia| |done| |].
    - intros j Hj. destruct (Z.lt_ge_cases j i); [by apply Hz; lia|apply Hbeyond; lia].
    - rewrite (Hbeyond i) by lia. by rewrite Z.shiftr_0_l, Z.lor_0_r.
    - intros j Hj. by rewrite !Hbeyond by lia. }
  rewrite word_at_word by lia. cbn [rbind]. pose proof (word_bound l i Hok) as Hwi. destruct (Z.eqb_spec (word l i) 0) as [Ez|Ez].
  - destruct (IH (i + 1) l htn newSz) as (l' & htn' & newSz' & -> & Hok' & Hl' & Hh' & Hs' & Hz' & Hlow & Hmid & Hhigh);
      [done|done|lia|lia|lia| |intros j Hj; apply Hbeyond; lia|].
    { intros j Hj. destruct (Z.eq_dec j i) as [->|]; [done|apply Hz; lia]. }
    exists l', htn', newSz'. split; [done|]. split_and!; [done..|lia|lia|done| | |].
    + intros j Hj. apply Hlow. lia.
    + rewrite Ez, Z.shiftr_0_l, Z.lor_0_r. apply Hlow. lia.
    + intros j Hj. destruct (Z.eq_dec j i) as [->|]; [|apply Hhigh; lia].
      replace (i + 1 - 1) with i in Hmid by lia. by rewrite Hmid, Ez.
  - set (m := w32 (Z.shiftl (word l i) 1)). assert (0 <= m < 2 ^ 32) as Hm by (apply Z.mod_pos_bound; lia).
    assert (0 <= Z.shiftr (word l i) 31) as Hsave by (apply Z.shiftr_nonneg; lia).
    rewrite word_at_word by (rewrite zlen_set_word; lia). cbn [rbind].
    rewrite (word_set l i m (i - 1)) by lia. assert ((i - 1 =? i) = false) as -> by lia.
    set (prev := Z.lor (word l (i - 1)) (Z.shiftr (word l i) 31)).
    assert (0 <= prev < 2 ^ 32) as Hprev.
    { pose proof (word_bound l (i - 1) Hok). subst prev. split; [apply Z.lor_nonneg; lia|].
      destruct (Z.eq_dec (Z.lor (word l (i - 1)) (Z.shiftr (word l i) 31)) 0) as [->|]; [lia|].
      assert (0 <= Z.lor (word l (i - 1)) (Z.shiftr (word l i) 31)) by (apply Z.lor_nonneg; lia).
      apply Z.log2_lt_cancel. change (Z.log2 (2 ^ 32)) with 32. rewrite Z.log2_lor by lia.
      assert (forall v, 0 <= v < 2 ^ 32 -> Z.log2 v < 32) as Hlog.
      { intros v Hv. destruct (Z.eq_dec v 0) as [->|]; [done|]. apply Z.log2_lt_pow2; lia. }
      apply Z.max_lub_lt; apply Hlog; [done|]. rewrite Z.shiftr_div_pow2 by lia. Z.to_euclidean_division_equations. lia. }
    rewrite (word_at_word htn) by lia. cbn [rbind].
    set (l1 := set_word (set_word l i m) (i - 1) prev).
    assert (forall j, 0 <= j -> word l1 j = if j =? i - 1 then prev else if j =? i then m else word l j) as Hl1.
    { intros j Hj. subst l1. rewrite word_set by (rewrite ?zlen_set_word; lia). case_match; [done|]. by rewrite word_set by lia. }
    set (nsz := if 0 <? m then i + 1 else _).
    assert (0 <= nsz <= i + 1 /\ forall j, nsz <= j < i + 1 -> word l1 j = 0) as [Hnsz Hnz].
    { subst nsz. destruct (Z.ltb_spec 0 m) as [Hpos|Hneg]; [split; [lia|intros; lia]|].
      pose proof (nonzero_shifted (word l i) ltac:(lia) ltac:(lia)) as Hnzs. rewrite (proj2 (Z.eqb_neq _ _) Hnzs). cbn [negb].
      split; [lia|]. intros j Hj. assert (j = i) as -> by lia. rewrite Hl1 by lia.
      assert ((i =? i - 1) = false) as -> by lia. rewrite Z.eqb_refl. lia. }
    destruct (IH (i + 1) l1 (set_word htn (i - 1) prev) nsz) as (l' & htn' & newSz' & -> & Hok' & Hl' & Hh' & Hs' & Hz' & Hlow & Hmid & Hhigh).
    + subst l1. by apply words_ok_set; [apply words_ok_set|].
    + subst l1. rewrite !zlen_set_word. done.
    + lia.
    + subst l1. rewrite !zlen_set_word. lia.
    + lia.
    + done.
    + intros j Hj. rewrite Hl1 by lia. assert ((j =? i - 1) = false) as -> by lia. assert ((j =? i) = false) as -> by lia. apply Hbeyond. lia.
    + subst l1. rewrite !zlen_set_word in *. exists l', htn', newSz'. split; [done|]. split_and!; [done..|lia|lia|done| | |].
      * intros j Hj. rewrite Hlow, Hl1 by lia. assert ((j =? i - 1) = false) as -> by lia. by assert ((j =? i) = false) as -> by lia.
      * rewrite Hlow, Hl1 by lia. by rewrite Z.eqb_refl.
      * intros j Hj. destruct (Z.eq_dec j i) as [->|].
        -- replace (i + 1 - 1) with i in Hmid by lia. rewrite Hmid, !Hl1 by lia.
           assert ((i =? i - 1) = false) as -> by lia. rewrite Z.eqb_refl.
           assert ((i + 1 =? i - 1) = false) as -> by lia. assert ((i + 1 =? i) = false) as -> by lia. done.
        -- rewrite Hhigh, !Hl1 by lia. assert ((j =? i - 1) = false) as -> by lia. assert ((j =? i) = false) as -> by lia.
           assert ((j + 1 =? i - 1) = false) as -> by lia. by assert ((j + 1 =? i) = false) as -> by lia.
Qed.

(** The words in network order, which are what is sent. With one or two words they
    follow the mask. *)
Definition wire_inv (e : ArdpEack) : Prop :=
  (sz e = 2 -> word (mask e) 1 <> 0) /\ forall j, 0 <= j -> word (htnMask e) j = word (mask e) j.

(** The state of the mask for a window of [N] segments. *)
Record eack_inv (N : Z) (e : ArdpEack) : Prop := {
  ei_words : words_ok (mask e);
  ei_len : zlen (mask e) = Z.shiftr ARDP_MAX_WINDOW_SIZE 5;
  ei_htn : zlen (htnMask e) = Z.shiftr ARDP_MAX_WINDOW_SIZE 5;
  ei_fixed : fixedSz e = 4 * Z.shiftr (N + 31) 5;
  ei_sz : 0 <= sz e <= Z.shiftr (N + 31) 5;
  ei_zero : forall j, sz e <= j -> word (mask e) j = 0;
  ei_wire : N <= 64 -> wire_inv e
}.

Definition window_ok (N : Z) : Prop := 1 <= N <= ARDP_MAX_WINDOW_SIZE.

Lemma mask_words N : window_ok N -> 1 <= Z.shiftr (N + 31) 5 <= 14 /\ 32 * Z.shiftr (N + 31) 5 < N + 32 /\ N <= 32 * Z.shiftr (N + 31) 5.
Proof.
  unfold window_ok. change ARDP_MAX_WINDOW_SIZE with 448. intros H. rewrite Z.shiftr_div_pow2 by lia. change (2 ^ 5) with 32.
  Z.to_euclidean_division_equations. lia.
Qed.

Lemma eack_bit_shifted l l' k : words_ok l -> 0 <= k -> word l' (k / 32) = shifted (word l (k / 32)) (word l (k / 32 + 1)) ->
  eack_bit l' k = eack_bit l (k + 1).
Proof.
  intros Hok Hk Hw. unfold eack_bit. rewrite Hw. pose proof (Z.mod_pos_bound k 32 ltac:(lia)).
  rewrite shifted_bit by (try apply word_bound; auto; lia). destruct (Z.eqb_spec (31 - k mod 32) 0) as [E|E].
  - assert ((k + 1) / 32 = k / 32 + 1 /\ (k + 1) mod 32 = 0) as [-> ->] by (Z.to_euclidean_division_equations; lia). done.
  - assert ((k + 1) / 32 = k / 32 /\ (k + 1) mod 32 = k mod 32 + 1) as [-> ->] by (Z.to_euclidean_division_equations; lia).
    f_equal. lia.
Qed.

Lemma Ok_inj {A} (a b : A) : (Ok a : res A) = Ok b -> a = b.
Proof. congruence. Qed.

(** With two words at most, no word is passed over. *)
Lemma ShiftRcvMsk_wire N e e' : window_ok N -> eack_inv N e -> N <= 64 -> ShiftRcvMsk e = Ok e' -> wire_inv e'.
Proof.
  intros HN [Hok Hlen Hhtn Hfix Hsz Hz Hwire] H64. destruct (Hwire H64) as [Htop Hsame]. pose proof (mask_words N HN) as HW.
  change (Z.shiftr ARDP_MAX_WINDOW_SIZE 5) with 14 in *. assert (sz e = 0 \/ sz e = 1 \/ sz e = 2) as Hcase by lia.
  unfold ShiftRcvMsk. rewrite (word_at_word (mask e) 0) by lia. cbn [rbind].
  set (m0 := w32 (Z.shiftl (word (mask e) 0) 1)). destruct Hcase as [E|[E|E]]; rewrite E; cbn [Z.eqb Z.max Z.to_nat Z.compare].
  - intros <-%Ok_inj. split; [lia|done].
  - change (Z.to_nat 1 - 1)%nat with 0%nat. cbn [shift_loop rbind]. change (Z.max 1 1 - 1) with 0.
    rewrite !word_at_word by (rewrite ?zlen_set_word; lia). cbn [rbind]. intros <-%Ok_inj.
    split; cbn [sz mask htnMask]; [case_match; lia|]. intros j Hj. rewrite !word_set by lia. cbn [Z.eqb Pos.eqb]. case_match; [done|by apply Hsame].
  - change (Z.to_nat 2 - 1)%nat with 1%nat. cbn [shift_loop]. change (1 - 1) with 0. change (Z.max 1 2 - 1) with 1.
    rewrite word_at_word by (rewrite ?zlen_set_word; lia). cbn [rbind]. rewrite word_set by lia. cbn [Z.eqb Pos.eqb].
    rewrite (proj2 (Z.eqb_neq _ 0)) by (by apply Htop). rewrite !word_at_word by (rewrite ?zlen_set_word; lia). cbn [rbind].
    rewrite !word_at_word by (rewrite ?zlen_set_word; lia). cbn [rbind]. intros <-%Ok_inj.
    set (m1 := w32 (Z.shiftl (word (mask e) 1) 1)). set (p := Z.lor _ _).
    assert (forall l, zlen l = 14 -> forall j, 0 <= j -> word (set_word (set_word (set_word l 0 m0) 1 m1) 0 p) j =
      if j =? 0 then p else if j =? 1 then m1 else word l j) as Hm.
    { intros l Hl j Hj. rewrite !word_set by (rewrite ?zlen_set_word; lia). by repeat case_match. }
    assert (0 <= m1) by (apply Z.mod_pos_bound; lia).
    split; cbn [sz mask htnMask].
    + rewrite Hm by lia. cbn [Z.eqb Pos.eqb]. destruct (Z.ltb_spec 0 m1); [lia|]. repeat case_match; lia.
    + intros j Hj. rewrite !word_set by (rewrite ?zlen_set_word; lia). cbn [Z.eqb Pos.eqb]. repeat case_match; (done || lia || by apply Hsame).
Qed.

(** Shifting removes the first offset. *)
Lemma ShiftRcvMsk_spec N e : window_ok N -> eack_inv N e ->
  exists e', ShiftRcvMsk e = Ok e' /\ eack_inv N e' /\ forall k, 0 <= k -> eack_bit (mask e') k = eack_bit (mask e) (k + 1).
Proof.
  intros HN He. pose proof He as [Hok Hlen Hhtn Hfix Hsz Hz Hwire]. pose proof (mask_words N HN) as HW.
  cut (exists e', ShiftRcvMsk e = Ok e' /\ ((N <= 64 -> wire_inv e') -> eack_inv N e') /\
    forall k, 0 <= k -> eack_bit (mask e') k = eack_bit (mask e) (k + 1)).
  { intros (e' & E & Hinv & Hb). exists e'. split_and!; [done| |done]. apply Hinv. intros H64. by eapply ShiftRcvMsk_wire. }
  unfold ShiftRcvMsk.
  change (Z.shiftr ARDP_MAX_WINDOW_SIZE 5) with 14 in *.
  destruct (Z.eqb_spec (sz e) 0) as [E|E].
  { exists e. split; [done|]. split; [done|]. intros k Hk. unfold eack_bit.
    rewrite !Hz by (rewrite E; apply Z.div_pos; lia). by rewrite !Z.bits_0. }
  rewrite word_at_word by lia. cbn [rbind]. set (m0 := w32 (Z.shiftl (word (mask e) 0) 1)).
  assert (0 <= m0 < 2 ^ 32) as Hm0 by (apply Z.mod_pos_bound; lia).
  assert (forall j, 0 <= j -> word (set_word (mask e) 0 m0) j = if j =? 0 then m0 else word (mask e) j) as Hl
    by (intros; apply word_set; lia).
  destruct (shift_loop_words (Z.to_nat (sz e) - 1) 1 (set_word (mask e) 0 m0) (htnMask e) (if 0 <? m0 then 1 else 0))
    as (l' & htn' & newSz & -> & Hok' & Hl' & Hh' & Hs' & Hz' & _ & Hmid & Hhigh).
  - by apply words_ok_set.
  - rewrite zlen_set_word. lia.
  - lia.
  - rewrite zlen_set_word. lia.
  - case_match; lia.
  - intros j Hj. destruct (Z.ltb_spec 0 m0); [lia|]. assert (j = 0) as -> by lia. rewrite Hl by lia. cbn. lia.
  - intros j Hj. rewrite Hl by lia. rewrite (proj2 (Z.eqb_neq j 0)) by lia. apply Hz. lia.
  - rewrite zlen_set_word in Hl'. cbn [rbind]. rewrite !word_at_word by lia. cbn [rbind]. eexists. split; [done|].
    assert (forall j, 0 <= j -> word l' j = shifted (word (mask e) j) (word (mask e) (j + 1))) as Hw.
    { intros j Hj. destruct (Z.eq_dec j 0) as [->|].
      - change (1 - 1) with 0 in Hmid. rewrite Hmid, !Hl by lia. done.
      - rewrite Hhigh, !Hl by lia. rewrite !(proj2 (Z.eqb_neq _ 0)) by lia. done. }
    split; [intros Hw'; split; cbn [mask htnMask sz fixedSz]; rewrite ?zlen_set_word; try done; change (Z.shiftr ARDP_MAX_WINDOW_SIZE 5) with 14; lia|].
    intros k Hk. cbn [mask]. apply eack_bit_shifted; [done..|]. apply Hw, Z.div_pos; lia.
Qed.

Lemma bin32_bound N d : window_ok N -> 1 <= d < N -> 0 <= (d - 1) / 32 < Z.shiftr (N + 31) 5.
Proof. intros HN Hd. pose proof (mask_words N HN). Z.to_euclidean_division_equations. lia. Qed.

Lemma lor_bound a b : 0 <= a < 2 ^ 32 -> 0 <= b < 2 ^ 32 -> 0 <= Z.lor a b < 2 ^ 32.
Proof.
  intros Ha Hb. split; [apply Z.lor_nonneg; lia|]. destruct (Z.eq_dec (Z.lor a b) 0) as [->|]; [lia|].
  assert (0 <= Z.lor a b) by (apply Z.lor_nonneg; lia). apply Z.log2_lt_cancel. change (Z.log2 (2 ^ 32)) with 32. rewrite Z.log2_lor by lia.
  assert (forall v, 0 <= v < 2 ^ 32 -> Z.log2 v < 32) as Hlog.
  { intros v Hv. destruct (Z.eq_dec v 0) as [->|]; [done|]. apply Z.log2_lt_pow2; lia. }
  apply Z.max_lub_lt; by apply Hlog.
Qed.

(** Adding the distance [d] sets the offset [d - 1] alone. *)
Lemma AddRcvMsk_spec N e d : window_ok N -> eack_inv N e -> 1 <= d < N ->
  exists e', AddRcvMsk e d = Ok e' /\ eack_inv N e' /\ forall k, 0 <= k -> eack_bit (mask e') k = (k =? d - 1) || eack_bit (mask e) k.
Proof.
  intros HN [Hok Hlen Hhtn Hfix Hsz Hz Hwire] Hd. pose proof (mask_words N HN) as HW. pose proof (bin32_bound N d HN Hd) as HB.
  change (Z.shiftr ARDP_MAX_WINDOW_SIZE 5) with 14 in *. unfold window_ok in HN. change ARDP_MAX_WINDOW_SIZE with 448 in HN.
  unfold AddRcvMsk. assert (w32 (d - 1) = d - 1) as -> by (apply Z.mod_small; lia). set (b := (d - 1) / 32) in *.
  rewrite Z.shiftl_mul_pow2 by lia. change (2 ^ 5) with 32.
  assert (w32 (32 - (d - b * 32)) = 31 - (d - 1) mod 32) as ->.
  { subst b. unfold w32. rewrite Z.mod_small; Z.to_euclidean_division_equations; lia. }
  pose proof (Z.mod_pos_bound (d - 1) 32 ltac:(lia)) as Hmod. set (o := 31 - (d - 1) mod 32) in *.
  assert ((b <? Z.shiftr (fixedSz e) 2) = true) as ->.
  { rewrite Hfix, (Z.shiftr_div_pow2 _ 2) by lia. change (2 ^ 2) with 4. rewrite Z.mul_comm, Z.div_mul by lia. apply Z.ltb_lt. lia. }
  assert ((32 <=? o) = false) as -> by lia. cbn [negb orb]. rewrite !word_at_word by lia. cbn [rbind].
  set (w := Z.lor (word (mask e) b) (Z.shiftl 1 o)).
  assert (0 <= w < 2 ^ 32) as Hw.
  { apply lor_bound; [by apply word_bound|]. rewrite Z.shiftl_1_l. split; [apply Z.pow_nonneg; lia|apply Z.pow_lt_mono_r; lia]. }
  assert (w16 (b + 1) = b + 1) as -> by (apply Z.mod_small; lia).
  eexists. split; [done|]. split.
  - split; cbn [mask htnMask sz fixedSz]; rewrite ?zlen_set_word; try done; [by apply words_ok_set|destruct (sz e <? b + 1) eqn:?; lia| |].
    + intros j Hj. assert (b < j /\ sz e <= j) as [? ?] by (destruct (sz e <? b + 1) eqn:?; lia).
      rewrite word_set by lia. rewrite (proj2 (Z.eqb_neq j b)) by lia. by apply Hz.
    + intros H64. destruct (Hwire H64) as [Htop Hsame]. split; cbn [mask htnMask sz].
      * intros E2. rewrite word_set by lia. destruct (Z.eqb_spec 1 b) as [Eb|Eb].
        -- unfold w. intros [_ Hs]%Z.lor_eq_0_iff. rewrite Z.shiftl_1_l in Hs. pose proof (Z.pow_pos_nonneg 2 o). lia.
        -- apply Htop. destruct (sz e <? b + 1) eqn:?; lia.
      * intros j Hj. rewrite !word_set by lia. case_match; [done|by apply Hsame].
  - intros k Hk. cbn [mask]. unfold eack_bit. pose proof (Z.mod_pos_bound k 32 ltac:(lia)).
    rewrite word_set by (try apply Z.div_pos; lia). destruct (Z.eqb_spec (k / 32) b) as [Eb|Eb].
    + rewrite Eb. unfold w. rewrite Z.lor_spec, Z.shiftl_1_l, Z.pow2_bits_eqb by lia. rewrite orb_comm. f_equal.
      subst o b. destruct (Z.eqb_spec k (d - 1)) as [->|]; [by apply Z.eqb_eq|]. apply Z.eqb_neq. Z.to_euclidean_division_equations. lia.
    + rewrite (proj2 (Z.eqb_neq k (d - 1))); [done|]. intros ->. by apply Eb.
Qed.
