(* ===== verification/ArdpQueueProofs.v ===== *)
(** The queue of received segments against the stream of the sender: whatever the
    order in which segments arrive and however often, the messages are delivered
    once, whole and in order, and the mask is the set of what came out of order. *)
From S2P Require Import Prelude Types Ardp ArdpRcvProofs.
Import Ardp.

(** * Arithmetic of sequence numbers *)

Lemma w32_id z : 0 <= z < 2 ^ 32 -> w32 z = z.
Proof. apply Z.mod_small. Qed.

Lemma SEQ32_LT_near a b : - 2 ^ 31 <= a - b < 2 ^ 31 -> SEQ32_LT a b = (a <? b).
Proof.
  intros H. unfold SEQ32_LT, w32. destruct (Z.ltb_spec a b) as [Hl|Hl].
  - apply Z.leb_le. rewrite <- (Z.mod_unique (a - b) (2 ^ 32) (-1) (a - b + 2 ^ 32)); lia.
  - apply Z.leb_gt. rewrite Z.mod_small; lia.
Qed.

Lemma IN_RANGE_mod beg sz p : 0 <= beg < 2 ^ 32 -> 0 <= p < 2 ^ 32 -> 0 < sz < 2 ^ 32 ->
  IN_RANGE beg sz p = (w32 (p - beg) <? sz).
Proof.
  intros Hb Hp Hs. unfold IN_RANGE, w32.
  assert ((beg + sz) mod 2 ^ 32 = if beg + sz <? 2 ^ 32 then beg + sz else beg + sz - 2 ^ 32) as ->.
  { destruct (Z.ltb_spec (beg + sz) (2 ^ 32)); [apply Z.mod_small; lia|].
    symmetry. apply (Z.mod_unique _ _ 1); lia. }
  assert ((p - beg) mod 2 ^ 32 = if beg <=? p then p - beg else p - beg + 2 ^ 32) as ->.
  { destruct (Z.leb_spec beg p); [apply Z.mod_small; lia|].
    symmetry. apply (Z.mod_unique _ _ (-1)); lia. }
  repeat case_match; lia.
Qed.

Lemma mod_next N s : 0 < N -> (s mod N + 1) mod N = (s + 1) mod N.
Proof. intros. rewrite Zplus_mod_idemp_l. done. Qed.

Lemma mod_inj N s t : 0 < N -> Z.abs (s - t) < N -> s mod N = t mod N -> s = t.
Proof.
  intros HN Ht E. assert ((s - t) mod N = 0) as E'.
  { rewrite Zminus_mod, E, Z.sub_diag. apply Z.mod_0_l. lia. }
  apply Z.mod_divide in E' as [q Hq]; [|lia]. assert (q = 0) by nia. nia.
Qed.

(** * The ring *)

Section Ring.
Context (N : Z) (HN : window_ok N).

Definition ring (r : ArdpRcv) : Prop := rSEGMAX r = N /\ zlen (rbuf r) = N.

(** The buffer that the segment [s] is kept in. *)
Definition slot (r : ArdpRcv) (s : Z) : option ArdpRcvBuf := rbuf r !! Z.to_nat (s mod N).

Lemma window_16 : 1 <= N < 2 ^ 16.
Proof. unfold window_ok in HN. change ARDP_MAX_WINDOW_SIZE with 448 in HN. lia. Qed.

Lemma slot_bound s : 0 <= s mod N < N.
Proof. apply Z.mod_pos_bound. pose proof window_16. lia. Qed.

Lemma index_of_ring r s : ring r -> index_of r s = Ok (s mod N).
Proof.
  intros [Hs _]. unfold index_of. rewrite Hs. pose proof window_16. assert ((N =? 0) = false) as -> by lia.
  f_equal. unfold w16. pose proof (slot_bound s). apply Z.mod_small. lia.
Qed.

Lemma next_ring r s : ring r -> next r (s mod N) = (s + 1) mod N.
Proof. intros [Hs _]. unfold next. rewrite Hs. apply mod_next. pose proof window_16. lia. Qed.

Lemma buf_at_slot r s b : slot r s = Some b -> buf_at r (s mod N) = Ok b.
Proof. intros H. unfold buf_at. pose proof (slot_bound s). assert ((s mod N <? 0) = false) as -> by lia. unfold slot in H. by rewrite H. Qed.

Lemma slot_some r s : ring r -> exists b, slot r s = Some b.
Proof. intros [_ Hl]. apply lookup_lt_is_Some_2. pose proof (slot_bound s). lia. Qed.

Lemma ring_set_buf r i b : ring r -> ring (set_buf r i b).
Proof. intros [? Hl]. split; [done|]. cbn. by rewrite length_insert. Qed.

Lemma slot_set_same r s b : ring r -> slot (set_buf r (s mod N) b) s = Some b.
Proof. intros [_ Hl]. unfold slot, set_buf. cbn. apply list_lookup_insert_eq. pose proof (slot_bound s). lia. Qed.

Lemma slot_set_other r s t b : s mod N <> t mod N -> slot (set_buf r (s mod N) b) t = slot r t.
Proof.
  intros H. unfold slot, set_buf. cbn. apply list_lookup_insert_ne. pose proof (slot_bound s). pose proof (slot_bound t). lia.
Qed.

Lemma slot_near r s t b : s <> t -> Z.abs (s - t) < N -> slot (set_buf r (s mod N) b) t = slot r t.
Proof. intros Hne Hd. apply slot_set_other. intros E. apply Hne. apply (mod_inj N); [pose proof window_16; lia|done..]. Qed.

Lemma slot_period r s : slot r (s + N) = slot r s.
Proof. unfold slot. pose proof window_16. by rewrite Z.add_mod, Z.mod_same, Z.add_0_r, Z.mod_mod by lia. Qed.

(** Walking the ring. *)
Lemma chain_slots r n : forall s, ring r ->
  exists l, chain r n (s mod N) = Ok l /\ length l = n /\ forall k, (k < n)%nat -> l !! k = slot r (s + Z.of_nat k).
Proof.
  induction n as [|n IH]; intros s Hr; cbn [chain]; [exists []; split_and!; [done|done|lia]|].
  destruct (slot_some r s Hr) as [b Hb]. rewrite (buf_at_slot _ _ _ Hb). cbn [rbind]. rewrite next_ring by done.
  destruct (IH (s + 1) Hr) as (l & -> & Hl & H). exists (b :: l). split_and!; [done|cbn; lia|].
  intros [|k] Hk; cbn; [by rewrite Z.add_0_r|]. rewrite H by lia. f_equal. lia.
Qed.

Lemma change_chain_slots f n : forall r s, ring r -> Z.of_nat n <= N ->
  exists r', change_chain f n r (s mod N) = Ok r' /\ ring r' /\ with_rbuf r' (rbuf r) = r /\
    forall t, s <= t < s + N -> slot r' t = if t <? s + Z.of_nat n then f <$> slot r t else slot r t.
Proof.
  induction n as [|n IH]; intros r s Hr Hn; cbn [change_chain].
  { exists r. split_and!; [done|done|by destruct r|]. intros t Ht. by rewrite (proj2 (Z.ltb_ge _ _)) by lia. }
  destruct (slot_some r s Hr) as [b Hb]. rewrite (buf_at_slot _ _ _ Hb). cbn [rbind]. rewrite next_ring by done.
  destruct (IH (set_buf r (s mod N) (f b)) (s + 1)) as (r' & -> & Hr' & Hsame & Hs); [by apply ring_set_buf|lia|].
  exists r'. split_and!; [done|done| |].
  - unfold set_buf, with_rbuf in Hsame. cbn in Hsame. unfold with_rbuf. destruct r', r. cbn in *. congruence.
  - intros t Ht. destruct (Z.eq_dec t s) as [->|Hne].
    + rewrite (proj2 (Z.ltb_lt _ _)) by lia. rewrite Hb. cbn.
      rewrite <- (slot_period r'), Hs by lia. rewrite (proj2 (Z.ltb_ge _ _)) by lia. rewrite slot_period.
      by apply slot_set_same.
    + rewrite Hs by lia. rewrite slot_near by lia. destruct (Z.ltb_spec t (s + 1 + Z.of_nat n)), (Z.ltb_spec t (s + Z.of_nat (S n))); (done || lia).
Qed.

End Ring.

(** * The stream of the sender *)

(** What a sender puts into its segments: for each sequence number after [irs] the
    first segment and the number of fragments of its message, and its data. *)
Record stream := { first : Z -> Z; count : Z -> Z; data : Z -> list Z }.

Record stream_ok (N irs : Z) (st : stream) : Prop := {
  st_start : first st (irs + 1) = irs + 1;
  st_count : forall s, irs < s -> 1 <= count st s <= N;
  st_first : forall s, irs < s -> irs < first st s /\ first st s <= s < first st s + count st s;
  st_same : forall s t, irs < s -> first st s <= t < first st s + count st s -> first st t = first st s /\ count st t = count st s
}.

Definition segment_of (st : stream) (s : Z) : Segment :=
  {| SEQ := s; SOM := first st s; FCNT := count st s; TTL := ARDP_TTL_INFINITE; payload := data st s |}.

(** The last segment of the message of [s]. *)
Definition last_of (st : stream) (s : Z) : Z := first st s + count st s - 1.

(** The data of [n] segments from [s] on. *)
Definition fragments (st : stream) (s : Z) (n : nat) : list (list Z) := (fun k => data st (s + Z.of_nat k)) <$> seq 0 n.

(** The [n] messages from the one that starts with [s] on. *)
Fixpoint messages (st : stream) (n : nat) (s : Z) : list (list (list Z)) :=
  match n with O => [] | S n => fragments st s (Z.to_nat (count st s)) :: messages st n (s + count st s) end.

Fixpoint after_messages (st : stream) (n : nat) (s : Z) : Z :=
  match n with O => s | S n => after_messages st n (s + count st s) end.

Lemma messages_snoc st n : forall s,
  messages st (S n) s = messages st n s ++ [fragments st (after_messages st n s) (Z.to_nat (count st (after_messages st n s)))].
Proof. induction n as [|n IH]; intros s; [done|]. change (messages st (S (S n)) s) with (fragments st s (Z.to_nat (count st s)) :: messages st (S n) (s + count st s)). rewrite IH. done. Qed.

Lemma after_messages_S st n : forall s, after_messages st (S n) s = after_messages st n s + count st (after_messages st n s).
Proof. induction n as [|n IH]; intros s; [done|]. cbn [after_messages] in *. by rewrite <- IH. Qed.

(** What is given to RecvCb, seen as data. *)
Definition view (b : ArdpRcvBuf) : list Z := default [] (r_data b).

(** A buffer that holds the segment [s]. *)
Record holds (st : stream) (s : Z) (f : Z) (b : ArdpRcvBuf) : Prop := {
  h_seq : r_seq b = s; h_data : r_data b = Some (data st s); h_som : r_som b = first st s;
  h_ttl : r_ttl b = 0; h_fcnt : r_fcnt b = count st s; h_flags : r_flags b = f
}.

Section Stream.
Context (N irs : Z) (st : stream) (HN : window_ok N) (Hst : stream_ok N irs st).

Lemma first_next s : irs < s -> first st (s + 1) = if s =? last_of st s then s + 1 else first st s.
Proof.
  intros Hs. destruct (st_first _ _ _ Hst s Hs) as [? Hf]. unfold last_of. destruct (Z.eqb_spec s (first st s + count st s - 1)) as [E|E].
  - destruct (st_first _ _ _ Hst (s + 1) ltac:(lia)) as [Hi Hf1].
    destruct (Z.eq_dec (first st (s + 1)) (s + 1)) as [|Hne]; [done|exfalso].
    destruct (st_same _ _ _ Hst (s + 1) s) as [Ea Eb]; [lia|lia|]. lia.
  - by destruct (st_same _ _ _ Hst s (s + 1)) as [-> _]; [lia|lia|].
Qed.

(** What the slot of [s] holds when the segments up to [c] are acknowledged. *)
Definition slot_state (seen : Z -> Prop) (c s : Z) (b : ArdpRcvBuf) : Prop :=
  if decide (s <= c) then holds st s (if decide (last_of st s <= c) then 3 else 1) b
  else (seen s /\ holds st s 1 b) \/ (~ seen s /\ r_flags b = 0 /\ r_ttl b = 0 /\ r_seq b <> s).

(** The queue between two segments: everything up to [c] was processed. *)
Record queue (seen : Z -> Prop) (c : Z) (x : Rx) : Prop := {
  q_ring : ring N (rcv x);
  q_eack : eack_inv N (eack (rcv x));
  q_irs : 0 <= irs <= LCS (rcv x);
  q_lcs : LCS (rcv x) <= c <= LCS (rcv x) + N;
  q_wrap : LCS (rcv x) + N + 1 < 2 ^ 32;
  q_start : first st (LCS (rcv x) + 1) = LCS (rcv x) + 1;
  q_seen : forall s, seen s -> irs < s <= LCS (rcv x) + N;
  q_all : forall s, irs < s <= c -> seen s;
  q_slots : forall s, LCS (rcv x) < s <= LCS (rcv x) + N -> exists b, slot N (rcv x) s = Some b /\ slot_state seen c s b;
  q_mask : forall k, 0 <= k -> eack_bit (mask (eack (rcv x))) k = true <-> seen (c + 2 + k);
  q_delivered : exists n, map (map view) (delivered x) = messages st n (irs + 1) /\ after_messages st n (irs + 1) = first st (c + 1)
}.

Lemma last_of_ge s : irs < s -> s <= last_of st s < s + N.
Proof. intros Hs. destruct (st_first _ _ _ Hst s Hs). pose proof (st_count _ _ _ Hst s Hs). unfold last_of. lia. Qed.

(** The segments with the last one [s] are those of its message. *)
Lemma last_of_same s t : irs < t -> t <= s -> last_of st t = s -> first st s = first st t /\ last_of st s = s.
Proof.
  intros Ht Hts E. destruct (st_first _ _ _ Hst t Ht) as [? ?]. unfold last_of in *.
  destruct (st_same _ _ _ Hst t s Ht) as [-> ->]; [lia|]. lia.
Qed.

Lemma last_of_message s t : irs < s -> last_of st s = s -> first st s <= t <= s -> last_of st t = s.
Proof.
  intros Hs E Ht. unfold last_of in *. destruct (st_same _ _ _ Hst s t Hs) as [-> ->]; lia.
Qed.

Lemma count_first s : irs < s -> count st (first st s) = count st s.
Proof. intros Hs. destruct (st_first _ _ _ Hst s Hs). by destruct (st_same _ _ _ Hst s (first st s) Hs) as [_ ->]; [lia|]. Qed.

(** No message reaches into another. *)
Lemma boundary l s : irs <= l < s -> first st (l + 1) = l + 1 -> l < first st s.
Proof.
  intros Hl E. destruct (st_first _ _ _ Hst s ltac:(lia)). destruct (Z.lt_ge_cases l (first st s)) as [|Hge]; [done|exfalso].
  destruct (st_same _ _ _ Hst s (l + 1)); lia.
Qed.

Lemma slot_state_next seen c t b : irs < t -> seen (c + 1) -> last_of st t <> c + 1 -> slot_state seen c t b -> slot_state seen (c + 1) t b.
Proof.
  intros Ht Hs Hl H. pose proof (last_of_ge t Ht). unfold slot_state in *. destruct (decide (t <= c)) as [Hc|Hc].
  - rewrite decide_True by lia. destruct (decide (last_of st t <= c)); [rewrite decide_True by lia|rewrite decide_False by lia]; done.
  - destruct (decide (t = c + 1)) as [->|].
    + rewrite decide_True by lia. rewrite decide_False by lia. by destruct H as [[_ H]|[? _]].
    + by rewrite decide_False by lia.
Qed.

Definition mark_delivered (b : ArdpRcvBuf) : ArdpRcvBuf := with_r_flags b (Z.lor (r_flags b) ARDP_BUFFER_DELIVERED).

Lemma slot_state_last seen c t b : irs < t -> seen (c + 1) -> last_of st t = c + 1 -> slot_state seen c t b ->
  slot_state seen (c + 1) t (mark_delivered b).
Proof.
  intros Ht Hs Hl H. pose proof (last_of_ge t Ht). unfold slot_state in *.
  assert (holds st t 1 b) as [].
  { destruct (decide (t <= c)) as [Hc|Hc]; [by rewrite decide_False in H by lia|].
    assert (t = c + 1) as -> by lia. by destruct H as [[_ H]|[? _]]. }
  rewrite decide_True by lia. rewrite decide_True by lia. split; cbn; try done. by rewrite h_flags0.
Qed.

Lemma slot_holds seen c s b : s <= c -> slot_state seen c s b -> exists f, holds st s f b.
Proof. intros Hs. unfold slot_state. rewrite decide_True by done. eauto. Qed.

Lemma w32_eqb s l : 0 <= s < 2 ^ 32 -> s <= l < s + 2 ^ 32 -> (s =? w32 l) = (s =? l).
Proof.
  intros Hs Hl. unfold w32. destruct (Z.lt_ge_cases l (2 ^ 32)); [by rewrite Z.mod_small by lia|].
  rewrite <- (Z.mod_unique l (2 ^ 32) 1 (l - 2 ^ 32)) by lia. rewrite !(proj2 (Z.eqb_neq _ _)) by lia. done.
Qed.

(** What a turn leaves as it is. *)
Record kept (x x' : Rx) : Prop := {
  k_cur : CUR (rcv x') = CUR (rcv x); k_lcs : LCS (rcv x') = LCS (rcv x); k_irs : IRS (rcv x') = IRS (rcv x);
  k_ack : ackTimer x' = ackTimer x; k_msnext : msnext x' = msnext x
}.

Lemma fragments_view s n l : length l = n -> (forall k, (k < n)%nat -> exists b f, l !! k = Some b /\ holds st (s + Z.of_nat k) f b) ->
  map view l = fragments st s n.
Proof using.
  intros Hl H. apply list_eq. intros k. unfold fragments. rewrite list_lookup_fmap. change (map view l) with (view <$> l). rewrite list_lookup_fmap.
  destruct (decide (k < n)%nat) as [Hk|Hk].
  - destruct (H k Hk) as (b & f & -> & []). rewrite lookup_seq_lt by done. cbn. unfold view. by rewrite h_data0.
  - rewrite !lookup_ge_None_2; [done| |lia]. by rewrite length_seq; lia.
Qed.

(** The buffers of a message that [c + 1] completes: what is delivered, and the
    slots afterwards. *)
Lemma deliver_slots seen c r : ring N r -> irs <= LCS r <= c -> c + 1 <= LCS r + N -> seen (c + 1) ->
  first st (LCS r + 1) = LCS r + 1 -> c + 1 = last_of st (c + 1) ->
  (forall s, LCS r < s <= LCS r + N -> exists b, slot N r s = Some b /\ slot_state seen c s b) ->
  let s0 := first st (c + 1) in let n := Z.to_nat (count st (c + 1)) in
  exists b frags r', slot N r s0 = Some b /\ r_fcnt b = count st (c + 1) /\ chain r n (s0 mod N) = Ok frags /\
    map view frags = fragments st s0 n /\ change_chain mark_delivered n r (s0 mod N) = Ok r' /\ ring N r' /\
    with_rbuf r' (rbuf r) = r /\
    forall s, LCS r < s <= LCS r + N -> exists b, slot N r' s = Some b /\ slot_state seen (c + 1) s b.
Proof.
  intros Hr Hl Hc Hs Hb E Hslots s0 n. pose proof (boundary (LCS r) (c + 1) ltac:(lia) Hb) as Hbd. fold s0 in Hbd.
  pose proof (st_count _ _ _ Hst (c + 1) ltac:(lia)) as Hcount. assert (s0 + Z.of_nat n = c + 2) as Hn by (unfold last_of in E; lia).
  assert (forall t, s0 <= t <= c + 1 -> exists b f, slot N r t = Some b /\ holds st t f b) as Hold.
  { intros t Ht. destruct (Hslots t ltac:(lia)) as (b & ? & Hss). unfold slot_state in Hss. exists b.
    destruct (decide (t <= c)); [eauto|]. assert (t = c + 1) as -> by lia. destruct Hss as [[_ ?]|[? _]]; [eauto|done]. }
  destruct (Hold s0 ltac:(lia)) as (b & f & Hslot & Hh).
  destruct (chain_slots N HN r n s0 Hr) as (frags & Hfr & Hlen & Hlk).
  destruct (change_chain_slots N HN mark_delivered n r s0 Hr ltac:(lia)) as (r' & Hr' & Hring' & Hsame & Hsl).
  exists b, frags, r'. split_and!; [done| |done| |done|done|done|].
  - rewrite (h_fcnt _ _ _ _ Hh). apply count_first. lia.
  - apply fragments_view; [done|]. intros k Hk. rewrite Hlk by done. apply Hold. lia.
  - intros s Hsr. destruct (Hslots s Hsr) as (b' & Hb' & Hst'). destruct (Z.lt_ge_cases s s0) as [Hlt|Hge].
    + exists b'. split; [|apply slot_state_next; [lia|done| |done]].
      * rewrite <- (slot_period N HN r'), Hsl by lia. rewrite (proj2 (Z.ltb_ge _ _)) by lia. by rewrite slot_period.
      * intros El. destruct (last_of_same (c + 1) s ltac:(lia) ltac:(lia) El) as [Ef _].
        destruct (st_first _ _ _ Hst s ltac:(lia)). lia.
    + rewrite Hsl, Hb' by lia. destruct (Z.ltb_spec s (s0 + Z.of_nat n)).
      * eexists. split; [done|]. apply slot_state_last; [lia|done| |done]. apply last_of_message; lia.
      * eexists. split; [done|]. apply slot_state_next; [lia|done| |done]. pose proof (last_of_ge s ltac:(lia)). lia.
Qed.

(** The turn of the next segment. *)
Lemma advance_turn_queue now dat seen c x : queue seen c x -> seen (c + 1) ->
  exists x', advance_turn now dat x ((c + 1) mod N) (c + 1) None = Ok (x', None) /\ queue seen (c + 1) x' /\ kept x x'.
Proof.
  intros [Hring Heack Hirs Hlcs Hwrap Hstart Hseen Hall Hslots Hmask (n & Hdel & Hafter)] Hs. pose proof (Hseen _ Hs) as Hsb.
  pose proof (window_16 N HN) as HN16. unfold advance_turn. destruct Hring as [HSEG Hlen]. rewrite HSEG. rewrite w32_id by lia.
  rewrite (proj2 (Z.leb_le _ _)) by lia. cbn [negb].
  destruct (ShiftRcvMsk_spec N _ HN Heack) as (e & -> & Heack' & Hbits). cbn [rbind].
  set (x1 := with_rcv x (with_eack (rcv x) e)).
  assert (ring N (rcv x1)) as Hring1 by done.
  assert (forall k, 0 <= k -> eack_bit (mask e) k = true <-> seen (c + 1 + 2 + k)) as Hmask'.
  { intros k Hk. rewrite Hbits by done. rewrite Hmask by lia. by replace (c + 2 + (k + 1)) with (c + 1 + 2 + k) by lia. }
  assert (forall s, irs < s <= c + 1 -> seen s) as Hall'.
  { intros s Hsr. destruct (decide (s = c + 1)) as [->|]; [done|apply Hall; lia]. }
  destruct (Hslots (c + 1)) as (b & Hb & Hbs); [lia|]. change (slot N (rcv x) (c + 1)) with (slot N (rcv x1) (c + 1)) in Hb.
  rewrite (buf_at_slot N HN _ _ _ Hb). cbn [rbind].
  assert (holds st (c + 1) 1 b) as [Bseq Bdata Bsom Bttl Bfcnt Bflags].
  { unfold slot_state in Hbs. rewrite decide_False in Hbs by lia. by destruct Hbs as [[_ ?]|[? _]]. }
  rewrite Bttl. cbn [Z.eqb negb andb ARDP_TTL_INFINITE]. rewrite Bseq, Bsom, Bfcnt.
  pose proof (last_of_ge (c + 1) ltac:(lia)) as Hlast. rewrite (Z.add_sub_assoc (first st (c + 1))). fold (last_of st (c + 1)).
  rewrite w32_eqb by lia. pose proof (boundary (LCS (rcv x)) (c + 1) ltac:(lia) Hstart) as Hbd.
  pose proof (st_count _ _ _ Hst (c + 1) ltac:(lia)) as Hcount.
  destruct (Z.eqb_spec (c + 1) (last_of st (c + 1))) as [E|E].
  - rewrite (index_of_ring N HN) by done. cbn [rbind].
    destruct (deliver_slots seen c (rcv x1)) as (b0 & frags & r' & Hb0 & Hf0 & Hch & Hview & Hcc & Hring' & Hsame & Hsl);
      [done|cbn; lia|cbn; lia|done|done|done|done|].
    rewrite (buf_at_slot N HN _ _ _ Hb0). cbn [rbind]. rewrite Hf0, Hch. cbn [rbind].
    match goal with |- context [change_chain ?f] => change f with mark_delivered end. rewrite Hcc. cbn [rbind].
    destruct r' as [c' i' l' rb' e' sm' sb']. cbn in Hsame. injection Hsame as -> -> -> -> -> ->.
    eexists. split; [done|]. split; [|done]. split; cbn; try done; try lia.
    exists (S n). rewrite messages_snoc, after_messages_S, Hafter, map_app, Hdel, count_first by lia. cbn [map]. rewrite Hview. split; [done|].
    rewrite (first_next (c + 1)) by lia. rewrite <- E, Z.eqb_refl. unfold last_of in E. lia.
  - exists x1. split; [done|]. split; [|done]. split; cbn; try done; try lia.
    + intros s Hsr. destruct (Hslots s Hsr) as (b' & ? & ?). exists b'. split; [done|]. apply slot_state_next; [lia|done| |done].
      intros El. pose proof (last_of_ge s ltac:(lia)). destruct (last_of_same (c + 1) s ltac:(lia) ltac:(lia) El). lia.
    + exists n. split; [done|]. rewrite (first_next (c + 1)) by lia. by rewrite (proj2 (Z.eqb_neq _ _)) by lia.
Qed.

(** Whether the loop goes on after [c]. *)
Lemma queue_next seen c x : queue seen c x -> LCS (rcv x) < c ->
  exists b, slot N (rcv x) (c + 1) = Some b /\ (in_use b && negb (is_delivered b) = true <-> seen (c + 1)).
Proof.
  intros Hq Hc. pose proof (q_lcs _ _ _ Hq) as Hl. pose proof (q_irs _ _ _ Hq) as Hi.
  destruct (decide (c = LCS (rcv x) + N)) as [E|E].
  - destruct (q_slots _ _ _ Hq (LCS (rcv x) + 1)) as (b & Hb & Hss); [lia|]. exists b.
    rewrite <- (slot_period N HN) in Hb. replace (LCS (rcv x) + 1 + N) with (c + 1) in Hb by lia. split; [done|].
    unfold slot_state in Hss. rewrite decide_True in Hss by lia. pose proof (last_of_ge (LCS (rcv x) + 1) ltac:(lia)) as Hlast.
    assert (last_of st (LCS (rcv x) + 1) <= c) as Hle.
    { pose proof (st_count _ _ _ Hst (LCS (rcv x) + 1) ltac:(lia)). unfold last_of. rewrite (q_start _ _ _ Hq). lia. }
    rewrite decide_True in Hss by done. destruct Hss. unfold in_use, is_delivered. rewrite h_flags0. cbn. split; [done|].
    intros Hs. apply (q_seen _ _ _ Hq) in Hs. lia.
  - destruct (q_slots _ _ _ Hq (c + 1)) as (b & Hb & Hss); [lia|]. exists b. split; [done|].
    unfold slot_state in Hss. rewrite decide_False in Hss by lia. unfold in_use, is_delivered.
    destruct Hss as [[Hs []]|(Hs & Hf & _)]; [rewrite h_flags0|rewrite Hf]; cbn; by split.
Qed.

Lemma advance_loop_queue now dat seen fuel : forall c x, queue seen c x -> seen (c + 1) -> LCS (rcv x) + N - c <= Z.of_nat fuel ->
  exists x' c', advance_loop now dat fuel x ((c + 1) mod N) (c + 1) None = Ok (x', c' + 1) /\
    queue seen c' x' /\ c < c' /\ ~ seen (c' + 1) /\ kept x x'.
Proof.
  induction fuel as [|fuel IH]; intros c x Hq Hs Hf; cbn [advance_loop]; pose proof (q_seen _ _ _ Hq _ Hs) as Hsb; [lia|].
  destruct (advance_turn_queue now dat seen c x Hq Hs) as (x1 & -> & Hq1 & Hk1). cbn [rbind].
  pose proof (q_lcs _ _ _ Hq) as Hl. pose proof (q_wrap _ _ _ Hq) as Hw. pose proof (q_irs _ _ _ Hq) as Hi.
  pose proof (window_16 N HN) as HN16. pose proof (k_lcs _ _ Hk1) as HL.
  destruct (queue_next seen (c + 1) x1 Hq1 ltac:(lia)) as (b & Hb & Hgo).
  rewrite (next_ring N HN) by apply Hq1. rewrite (buf_at_slot N HN _ _ _ Hb). cbn [rbind]. rewrite w32_id by lia.
  rewrite bool_decide_false by (intros [? ?]; done). rewrite orb_false_r.
  destruct (in_use b && negb (is_delivered b)) eqn:E.
  - destruct (IH (c + 1) x1 Hq1) as (x' & c' & -> & Hq' & Hc' & Hn & Hk'); [by apply Hgo|lia|].
    exists x', c'. split_and!; [done|done|lia|done|]. destruct Hk1, Hk'. split; congruence.
  - exists x1, (c + 1). split_and!; [done|done|lia| |done]. intros Hs'. by apply Hgo in Hs'.
Qed.

(** The queue does not depend on CUR and the timer. *)
Lemma queue_ext seen c x x' : queue seen c x -> rbuf (rcv x') = rbuf (rcv x) -> eack (rcv x') = eack (rcv x) ->
  LCS (rcv x') = LCS (rcv x) -> rSEGMAX (rcv x') = rSEGMAX (rcv x) -> delivered x' = delivered x -> queue seen c x'.
Proof.
  intros [] Eb Ee El Es Ed. destruct q_ring0. split; rewrite ?Ee, ?El, ?Ed; try done; [split; congruence|].
  intros s Hs. unfold slot. rewrite Eb. by apply q_slots0.
Qed.

Lemma ack_if_idle_rcv now x t : rcv (ack_if_idle now x t) = rcv x /\ delivered (ack_if_idle now x t) = delivered x.
Proof. unfold ack_if_idle. by case_match. Qed.

(** * The invariant of the receiving side *)

Record receiving (seen : Z -> Prop) (x : Rx) : Prop := {
  rc_queue : queue seen (CUR (rcv x)) x;
  rc_gap : ~ seen (CUR (rcv x) + 1);
  rc_irs : IRS (rcv x) = irs
}.

Lemma AdvanceRcvQueue_receiving now dat seen x : queue seen (CUR (rcv x)) x -> seen (CUR (rcv x) + 1) -> IRS (rcv x) = irs ->
  exists x', AdvanceRcvQueue now dat x ((CUR (rcv x) + 1) mod N) = Ok x' /\ receiving seen x' /\ LCS (rcv x') = LCS (rcv x).
Proof.
  intros Hq Hs Hirs. pose proof (q_seen _ _ _ Hq _ Hs) as Hsb. pose proof (q_lcs _ _ _ Hq) as Hl.
  pose proof (q_wrap _ _ _ Hq) as Hw. pose proof (q_irs _ _ _ Hq) as Hi. pose proof (window_16 N HN) as HN16. unfold AdvanceRcvQueue.
  destruct (q_slots _ _ _ Hq (CUR (rcv x) + 1)) as (b & Hb & Hss); [lia|].
  rewrite (buf_at_slot N HN _ _ _ Hb). cbn [rbind]. unfold slot_state in Hss. rewrite decide_False in Hss by lia.
  destruct Hss as [[_ []]|[? _]]; [|done]. rewrite h_seq0.
  destruct (advance_loop_queue now dat seen (advance_fuel (rcv x)) (CUR (rcv x)) x Hq Hs) as (x1 & c' & -> & Hq' & Hc' & Hn & Hk).
  { destruct (q_ring _ _ _ Hq). unfold advance_fuel. lia. }
  cbn [rbind]. pose proof (q_lcs _ _ _ Hq') as Hl'. destruct Hk.
  replace (c' + 1 - 1) with c' by lia. rewrite w32_id by lia. rewrite SEQ32_LT_near by lia. rewrite (proj2 (Z.ltb_lt _ _)) by lia.
  eexists. split; [done|]. destruct (ack_if_idle_rcv now (with_rcv x1 (with_CUR (rcv x1) c')) dat) as [Er Ed].
  split; [|rewrite Er; cbn; lia]. split; rewrite ?Er; [|done|cbn; congruence].
  by eapply queue_ext; [done|rewrite ?Er, ?Ed..].
Qed.

(** * Arrivals *)

Definition and_seen (seen : Z -> Prop) (s : Z) : Z -> Prop := fun t => t = s \/ seen t.

Lemma receiving_again seen x s : receiving seen x -> seen s -> receiving (and_seen seen s) x.
Proof.
  intros Hrc Hs. assert (forall t, and_seen seen s t <-> seen t) as Hiff by (intros t; split; [intros [->|]; done|by right]).
  destruct Hrc as [[] Hgap Hirs]. split; [|by rewrite Hiff|done]. split; try done.
  - intros t Ht. apply q_seen0. by apply Hiff.
  - intros t Ht. apply Hiff. by apply q_all0.
  - intros t Ht. destruct (q_slots0 t Ht) as (b & Hb & Hss). exists b. split; [done|]. unfold slot_state in *.
    destruct (decide (t <= CUR (rcv x))); [done|by rewrite Hiff].
  - intros k Hk. rewrite Hiff. by apply q_mask0.
Qed.

(** A new segment in its slot. *)
Lemma queue_store seen x s b : queue seen (CUR (rcv x)) x -> CUR (rcv x) < s <= LCS (rcv x) + N -> ~ seen s -> holds st s 1 b ->
  forall e, eack_inv N e -> (forall k, 0 <= k -> eack_bit (mask e) k = true <-> and_seen seen s (CUR (rcv x) + 2 + k)) ->
  queue (and_seen seen s) (CUR (rcv x)) (with_rcv x (with_eack (set_buf (rcv x) (s mod N) b) e)).
Proof.
  intros [Hring Heack Hirs Hlcs Hwrap Hstart Hseen Hall Hslots Hmask Hdel] Hs Hns Hh e He Hbits. split; try done.
  - by apply (ring_set_buf N).
  - intros t [->|Ht]; [cbn; lia|by apply Hseen].
  - intros t Ht. right. by apply Hall.
  - intros t Ht. cbn [rcv with_rcv] in *. destruct (decide (t = s)) as [->|Hne].
    + exists b. split; [by apply (slot_set_same N HN)|]. unfold slot_state. rewrite decide_False by lia. left. split; [by left|done].
    + cbn in Ht. destruct (Hslots t Ht) as (b' & Hb' & Hss). exists b'. split.
      * change (slot N (set_buf (rcv x) (s mod N) b) t = Some b'). by rewrite (slot_near N HN) by lia.
      * unfold slot_state in *. destruct (decide (t <= CUR (rcv x))); [done|]. destruct Hss as [[? ?]|[? ?]]; [left|right].
        -- split; [by right|done].
        -- split; [by intros [?|?]|done].
Qed.

(** The range check takes the window and what was acknowledged lately. *)
Lemma segment_range_in seen x s dlen : queue seen (CUR (rcv x)) x -> irs < s -> 0 < dlen -> CUR (rcv x) - N < s <= LCS (rcv x) + N ->
  exists dup, segment_range (rcv x) s dlen = Some dup /\ (LCS (rcv x) < s -> dup = false).
Proof.
  intros Hq Hs Hd Hr. pose proof (q_lcs _ _ _ Hq). pose proof (q_wrap _ _ _ Hq). pose proof (q_irs _ _ _ Hq).
  pose proof (window_16 N HN). destruct (q_ring _ _ _ Hq) as [HSEG _]. unfold segment_range. rewrite HSEG.
  rewrite (proj2 (Z.eqb_neq dlen 0)) by lia. cbn [negb andb].
  rewrite IN_RANGE_mod by (try apply Z.mod_pos_bound; lia). rewrite (w32_id (LCS _ + 1)) by lia.
  destruct (Z.lt_ge_cases (LCS (rcv x)) s).
  - rewrite w32_id by lia. rewrite (proj2 (Z.ltb_lt _ _)) by lia. by exists false.
  - case_match; [by exists false|]. rewrite IN_RANGE_mod by (try apply Z.mod_pos_bound; lia).
    assert (w32 (s - w32 (CUR (rcv x) + 1 - N)) = s - (CUR (rcv x) + 1 - N)) as ->.
    { unfold w32. rewrite Zminus_mod_idemp_r. apply Z.mod_small. lia. }
    rewrite (proj2 (Z.ltb_lt _ _)) by lia. exists true. split; [done|lia].
Qed.

(** Any segment in range is taken, and the invariant holds of what was seen. *)
Lemma receive_data_receiving now dat seen x s : receiving seen x -> irs < s -> data st s <> [] ->
  CUR (rcv x) - N < s <= LCS (rcv x) + N ->
  exists dup x', segment_range (rcv x) s (zlen (data st s)) = Some dup /\
    receive_data now dat x (segment_of st s) dup = Ok (ER_OK, x') /\ receiving (and_seen seen s) x' /\ LCS (rcv x') = LCS (rcv x).
Proof.
  intros Hrc Hs Hd Hrange. pose proof (rc_queue _ _ Hrc) as Hq. pose proof (q_lcs _ _ _ Hq) as Hl. pose proof (q_wrap _ _ _ Hq) as Hw.
  pose proof (q_irs _ _ _ Hq) as Hi. pose proof (window_16 N HN) as HN16. destruct (q_ring _ _ _ Hq) as [HSEG Hlen].
  destruct (segment_range_in seen x s (zlen (data st s)) Hq Hs) as (dup & Hdup & Hin); [destruct (data st s); [done|cbn; lia]|lia|].
  exists dup. rewrite Hdup. unfold receive_data. cbn [SEQ segment_of]. rewrite w32_id by lia. rewrite SEQ32_LT_near by lia.
  destruct (Z.ltb_spec s (CUR (rcv x) + 1)) as [Hold|Hnew].
  { exists x. split_and!; [done|done| |done]. apply receiving_again; [done|]. apply (q_all _ _ _ Hq). lia. }
  rewrite Hin by lia. unfold AddRcvBuffer. cbn [SEQ segment_of]. rewrite (index_of_ring N HN) by done. cbn [rbind].
  destruct (q_slots _ _ _ Hq s) as (b & Hb & Hss); [lia|]. rewrite (buf_at_slot N HN _ _ _ Hb). cbn [rbind].
  unfold slot_state in Hss. rewrite decide_False in Hss by lia. destruct Hss as [[Hseen []]|(Hns & Hfl & Httl & Hseq)].
  { rewrite h_seq0, Z.eqb_refl. exists x. split_and!; [done|done| |done]. by apply receiving_again. }
  rewrite (proj2 (Z.eqb_neq _ _)) by done. unfold in_use at 1. rewrite Hfl. cbn [Z.land Z.eqb negb].
  set (b1 := {| r_seq := s |}). assert (holds st s 1 b1) as Hh by done.
  destruct (Z.eqb_spec s (CUR (rcv x) + 1)) as [->|Hne].
  - assert (queue (and_seen seen (CUR (rcv x) + 1)) (CUR (rcv x)) (with_rcv x (set_buf (rcv x) ((CUR (rcv x) + 1) mod N) b1))) as Hq1.
    { eapply queue_ext; [eapply (queue_store seen x (CUR (rcv x) + 1) b1 Hq ltac:(lia) Hns Hh (eack (rcv x)) (q_eack _ _ _ Hq))|done..].
      intros k Hk. rewrite (q_mask _ _ _ Hq k Hk). unfold and_seen. split; [by right|intros [?|?]; [lia|done]]. }
    destruct (AdvanceRcvQueue_receiving now dat _ (with_rcv x (set_buf (rcv x) ((CUR (rcv x) + 1) mod N) b1)) Hq1) as (x' & Hx' & Hrc' & HL); [by left|apply Hrc|].
    cbn [rcv with_rcv set_buf with_rbuf CUR] in Hx'. rewrite Hx'. cbn [rbind]. by exists x'.
  - cbn [rcv with_rcv set_buf with_rbuf CUR eack]. rewrite w32_id by lia.
    destruct (AddRcvMsk_spec N _ (s - (CUR (rcv x) + 1)) HN (q_eack _ _ _ Hq)) as (e & -> & He & Hbits); [lia|]. cbn [rbind].
    eexists. split_and!; [done|done| |done]. split; [|intros [?|?]; [cbn in *; lia|by apply (rc_gap _ _ Hrc)]|apply Hrc].
    refine (queue_store seen x s b1 Hq _ Hns Hh e He _); [lia|]. intros k Hk. rewrite Hbits by done. unfold and_seen. rewrite <- (q_mask _ _ _ Hq k Hk).
    rewrite orb_true_iff, Z.eqb_eq. split; (intros [?|?]; [left; lia|by right]).
Qed.

(** * Consumption *)

Lemma with_LCS_change f n : forall r i l, change_chain f n (with_LCS r l) i = let! r' := change_chain f n r i in Ok (with_LCS r' l).
Proof using.
  induction n as [|n IH]; intros r i l; cbn [change_chain]; [done|]. change (buf_at (with_LCS r l) i) with (buf_at r i).
  destruct (buf_at r i) as [b| |]; [|done..]. cbn [rbind]. rewrite <- IH. done.
Qed.

(** Nothing in the queue is expired. *)
Definition unexpired (r : ArdpRcv) : Prop := Forall (fun b => r_ttl b = 0) (rbuf r).

Lemma unexpired_buf r i b : unexpired r -> buf_at r i = Ok b -> r_ttl b = 0.
Proof using.
  unfold buf_at. intros H E. case_match; [done|]. case_match eqn:El; [|done]. injection E as <-. by eapply Forall_lookup_1 in H.
Qed.

Lemma release_buffers_chain n : forall fuel r s, ring N r -> unexpired r -> 0 <= LCS r -> LCS r + Z.of_nat n < 2 ^ 32 ->
  (0 < n <= fuel)%nat ->
  release_buffers fuel r (s mod N) (Z.of_nat n) =
  let! r' := change_chain emptied n r (s mod N) in Ok (with_LCS r' (LCS r + Z.of_nat n)).
Proof using HN.
  induction n as [|n IH]; intros fuel r s Hr Hu H0 Hw Hn; [lia|]. destruct fuel as [|fuel]; [lia|]. cbn [release_buffers change_chain].
  destruct (slot_some N HN r s Hr) as [b Hb]. rewrite (buf_at_slot N HN _ _ _ Hb). cbn [rbind].
  rewrite (proj2 (Z.eqb_neq (Z.of_nat (S n)) 0)) by lia. rewrite w32_id by lia. set (r1 := set_buf r (s mod N) (emptied b)).
  assert (ring N r1) as Hr1 by by apply (ring_set_buf N).
  assert (unexpired r1) as Hu1 by (by apply Forall_insert).
  change (next (with_LCS r1 (LCS r + 1)) (s mod N)) with (next r1 (s mod N)). change (next r (s mod N)) with (next r1 (s mod N)).
  rewrite (next_ring N HN) by done. destruct (slot_some N HN r1 (s + 1) Hr1) as [c Hc].
  change (buf_at (with_LCS r1 (LCS r + 1))) with (buf_at r1). rewrite (buf_at_slot N HN _ _ _ Hc). cbn [rbind].
  rewrite (unexpired_buf r1 _ c Hu1 (buf_at_slot N HN _ _ _ Hc)). cbn [Z.eqb ARDP_TTL_EXPIRED andb]. rewrite orb_false_r.
  replace (Z.of_nat (S n) - 1) with (Z.of_nat n) by lia. destruct (Z.eqb_spec (Z.of_nat n) 0) as [E|E]; cbn [negb].
  - assert (n = 0%nat) as -> by lia. done.
  - rewrite (IH fuel (with_LCS r1 (LCS r + 1)) (s + 1)); [|done|done|cbn; lia|cbn; lia|lia]. rewrite with_LCS_change. cbn [LCS with_LCS].
    destruct (change_chain emptied n r1 ((s + 1) mod N)) as [r'| |]; [|done..]. cbn [rbind]. by replace (LCS r + 1 + Z.of_nat n) with (LCS r + Z.of_nat (S n)) by lia.
Qed.

(** Every buffer is the slot of a segment of the window. *)
Lemma queue_unexpired seen c x : queue seen c x -> unexpired (rcv x).
Proof.
  intros Hq. pose proof (window_16 N HN). apply Forall_lookup. intros j b Hj. set (l := LCS (rcv x)).
  pose proof (Z.mod_pos_bound (Z.of_nat j - (l + 1)) N ltac:(lia)). pose proof (lookup_lt_Some _ _ _ Hj). destruct (q_ring _ _ _ Hq) as [_ Hlen].
  destruct (q_slots _ _ _ Hq (l + 1 + (Z.of_nat j - (l + 1)) mod N)) as (b' & Hb' & Hss); [lia|].
  unfold slot in Hb'. rewrite Zplus_mod_idemp_r in Hb'. replace (l + 1 + (Z.of_nat j - (l + 1))) with (Z.of_nat j) in Hb' by lia.
  rewrite Z.mod_small in Hb' by lia. rewrite Nat2Z.id, Hj in Hb'. injection Hb' as <-. unfold slot_state in Hss.
  case_match; [by destruct Hss|]. by destruct Hss as [[_ []]|(_ & _ & ? & _)].
Qed.

(** The slots of a released message stand for segments of the next window. *)
Lemma queue_released seen c x r' : queue seen c x ->
  let s := LCS (rcv x) + 1 in last_of st s <= c -> last_of st s + N + 1 < 2 ^ 32 -> ring N r' ->
  eack r' = eack (rcv x) -> LCS r' = last_of st s ->
  (forall t, s <= t < s + N -> slot N r' t = if t <? s + count st s then emptied <$> slot N (rcv x) t else slot N (rcv x) t) ->
  queue seen c (with_rcv x r').
Proof.
  intros [Hring Heack Hirs Hlcs Hwrap Hstart Hseen Hall Hslots Hmask Hdel] s Hlast Hw' Hring' He HL Hsl.
  pose proof (st_count _ _ _ Hst s ltac:(lia)) as Hcount. pose proof (last_of_ge s ltac:(lia)) as Hge.
  assert (last_of st s = LCS (rcv x) + count st s) as El by (unfold last_of; fold s in Hstart; lia).
  split; cbn [rcv with_rcv delivered]; rewrite ?He, ?HL; try done; try lia.
  - rewrite first_next by lia. destruct (last_of_same (last_of st s) s ltac:(lia) ltac:(lia) eq_refl) as [_ ->]. by rewrite Z.eqb_refl.
  - intros t Ht. apply Hseen in Ht. lia.
  - intros t Ht. destruct (Z.le_gt_cases t (LCS (rcv x) + N)) as [Hin|Hout].
    + rewrite Hsl by lia. rewrite (proj2 (Z.ltb_ge _ _)) by lia. apply Hslots. lia.
    + destruct (Hslots (t - N)) as (b & Hb & Hss); [lia|]. exists (emptied b). replace t with (t - N + N) at 1 by lia.
      rewrite (slot_period N HN), Hsl by lia. rewrite (proj2 (Z.ltb_lt _ _)) by lia. rewrite Hb. split; [done|].
      destruct (slot_holds seen c (t - N) b ltac:(lia) Hss) as [f []]. unfold slot_state. rewrite decide_False by lia. right.
      split_and!; [|done|done|cbn; lia]. intros Hs. apply Hseen in Hs. lia.
Qed.

(** The first message of the window is consumed. *)
Lemma ReleaseRcvBuffers_receiving now dat seen x : receiving seen x ->
  let s := LCS (rcv x) + 1 in last_of st s <= CUR (rcv x) -> last_of st s + N + 1 < 2 ^ 32 ->
  exists x', ReleaseRcvBuffers now dat x s (count st s) false = Ok (ER_OK, x') /\ receiving seen x' /\
    LCS (rcv x') = last_of st s /\ CUR (rcv x') = CUR (rcv x) /\ delivered x' = delivered x.
Proof.
  intros Hrc s Hlast Hw'. pose proof (rc_queue _ _ Hrc) as Hq. pose proof (q_lcs _ _ _ Hq) as Hl. pose proof (q_wrap _ _ _ Hq) as Hw.
  pose proof (q_irs _ _ _ Hq) as Hi. pose proof (window_16 N HN) as HN16. pose proof (q_ring _ _ _ Hq) as Hring.
  pose proof (st_count _ _ _ Hst s ltac:(lia)) as Hcount. pose proof (q_start _ _ _ Hq) as Hfirst. fold s in Hfirst.
  pose proof (last_of_ge s ltac:(lia)) as Hge.
  assert (last_of st s = LCS (rcv x) + count st s) as El by (unfold last_of; lia).
  unfold ReleaseRcvBuffers. rewrite (index_of_ring N HN) by done. cbn [rbind]. rewrite (proj2 (Z.eqb_neq _ _)) by lia.
  rewrite w32_id by lia. fold s. rewrite Z.eqb_refl. cbn [negb].
  destruct (q_slots _ _ _ Hq s) as (b & Hb & Hss); [lia|]. rewrite (buf_at_slot N HN _ _ _ Hb). cbn [rbind].
  unfold slot_state in Hss. rewrite decide_True in Hss by lia. rewrite (h_seq _ _ _ _ Hss), Z.eqb_refl. cbn [negb andb].
  pose proof (release_buffers_chain (Z.to_nat (count st s)) (release_fuel (rcv x) (count st s)) (rcv x) s Hring
    (queue_unexpired _ _ _ Hq) ltac:(lia) ltac:(lia) ltac:(unfold release_fuel; lia)) as Hrel.
  rewrite Z2Nat.id in Hrel by lia. rewrite Hrel.
  destruct (change_chain_slots N HN emptied (Z.to_nat (count st s)) (rcv x) s Hring ltac:(lia)) as (r' & -> & Hring' & Hsame & Hsl).
  cbn [rbind]. rewrite <- El. clear Hrel.
  assert (CUR r' = CUR (rcv x) /\ eack r' = eack (rcv x) /\ IRS r' = IRS (rcv x)) as (Ec & Ee & Ei)
    by (rewrite <- Hsame; done).
  cbn [CUR LCS with_LCS]. rewrite Ec, SEQ32_LT_near by lia. rewrite (proj2 (Z.ltb_ge _ _)) by lia.
  eexists. split; [done|]. destruct (ack_if_idle_rcv now (with_rcv x (with_LCS r' (last_of st s))) dat) as [Er Ed].
  rewrite Er, Ed. split_and!; [|done|done|done]. split; rewrite ?Er; cbn [rcv with_rcv with_LCS CUR IRS];
    [|rewrite Ec; apply (rc_gap _ _ Hrc)|rewrite Ei; apply (rc_irs _ _ Hrc)].
  rewrite Ec. eapply queue_ext; [exact (queue_released seen _ x (with_LCS r' (last_of st s)) Hq Hlast Hw' Hring' Ee eq_refl ltac:(rewrite Z2Nat.id in Hsl by lia; exact Hsl))|by rewrite ?Er, ?Ed..].
Qed.

End Stream.
