(* ===== verification/ArdpTheorems.v ===== *)
(** What the receiving side of ARDP does for a stream of segments, whatever their
    order, and where the mask it sends departs from what it received. *)
From S2P Require Import Prelude Types Ardp ArdpRcvProofs ArdpQueueProofs.
Import Ardp.

(** * Runs of the receiving side *)

(** The receiving side when the connection opens: rcv.CUR and rcv.IRS are the
    sequence number of the SYN, the mask is empty. *)
Definition opened (N segbmax irs : Z) : Rx :=
  let words := Z.to_nat (Z.shiftr ARDP_MAX_WINDOW_SIZE 5) in
  let e := {| mask := replicate words 0; htnMask := replicate words 0; sz := 0; fixedSz := 4 * Z.shiftr (N + 31) 5 |} in
  {| rcv := PostInitRcv (InitRcv N segbmax {| CUR := irs; IRS := irs; LCS := 0; rbuf := []; eack := e; rSEGMAX := 0; rSEGBMAX := 0 |});
     ackTimer := {| delta := 0; when_ := 0; retry := 0 |}; msnext := 0; delivered := [] |}.

(** A data segment of the stream reaches an open connection. *)
Definition arrive (now delayedAckTimeout : Z) (x : Rx) (seg : Segment) : option (res (QStatus * Rx)) :=
  receive_data now delayedAckTimeout x seg <$> segment_range (rcv x) (SEQ seg) (zlen (payload seg)).

(** The states after segments of the stream arrived, in any order and any number of
    times, within the window or as late duplicates, and messages were consumed as
    they were delivered. The list holds what arrived. *)
Inductive runs (N irs : Z) (st : stream) : list Z -> Rx -> Prop :=
  | runs_open segbmax : runs N irs st [] (opened N segbmax irs)
  | runs_arrive seen x now dat s x' :
      runs N irs st seen x -> irs < s -> data st s <> [] -> CUR (rcv x) - N < s <= LCS (rcv x) + N ->
      arrive now dat x (segment_of st s) = Some (Ok (ER_OK, x')) -> runs N irs st (s :: seen) x'
  | runs_consume seen x now dat x' :
      runs N irs st seen x -> last_of st (LCS (rcv x) + 1) <= CUR (rcv x) -> last_of st (LCS (rcv x) + 1) + N + 1 < 2 ^ 32 ->
      ReleaseRcvBuffers now dat x (LCS (rcv x) + 1) (count st (LCS (rcv x) + 1)) false = Ok (ER_OK, x') -> runs N irs st seen x'.

(** The window, the first sequence number and the stream of the sender; no sequence
    number wraps around. *)
Record setting (N irs : Z) (st : stream) : Prop := {
  se_window : window_ok N; se_irs : 0 <= irs; se_wrap : irs + N + 1 < 2 ^ 32; se_stream : stream_ok N irs st
}.

Definition seen_in (l : list Z) : Z -> Prop := fun s => s ∈ l.

Lemma receiving_iff N irs st p q x : (forall s, p s <-> q s) -> receiving N irs st p x -> receiving N irs st q x.
Proof.
  intros Hiff [[] Hgap Hirs]. split; [|by rewrite <- Hiff|done]. split; try done.
  - intros s Hs. apply q_seen. by apply Hiff.
  - intros s Hs. apply Hiff. by apply q_all.
  - intros s Hs. destruct (q_slots s Hs) as (b & Hb & Hss). exists b. split; [done|]. unfold slot_state in *.
    destruct (decide (s <= CUR (rcv x))); [done|by rewrite <- Hiff].
  - intros k Hk. rewrite <- Hiff. by apply q_mask.
Qed.

Lemma word_replicate n j : word (replicate n 0) j = 0.
Proof. unfold word. destruct (replicate n 0 !! Z.to_nat j) as [w|] eqn:E; [|done]. by apply lookup_replicate in E as [-> _]. Qed.

Lemma opened_receiving N irs st segbmax : setting N irs st -> receiving N irs st (seen_in []) (opened N segbmax irs).
Proof.
  intros [HN Hi Hw Hst]. pose proof (window_16 N HN) as HN16. pose proof (mask_words N HN) as HW.
  assert (forall s, exists b, slot N (rcv (opened N segbmax irs)) s = Some b /\ r_flags b = 0 /\ r_ttl b = 0 /\ r_seq b = irs) as Hslot.
  { intros s. unfold opened, PostInitRcv, slot. cbn. pose proof (slot_bound N HN s). rewrite list_lookup_fmap, lookup_replicate_2 by lia.
    cbn. by eexists. }
  assert (CUR (rcv (opened N segbmax irs)) = irs /\ LCS (rcv (opened N segbmax irs)) = irs) as [HC HL] by done.
  split; [|by intros ?%not_elem_of_nil|done]. split; rewrite ?HC, ?HL; try lia.
  - split; [apply Z.mod_small; lia|]. cbn. rewrite length_fmap, length_replicate. lia.
  - split; cbn; try done; try lia; [apply (Forall_replicate _ _ 0); lia|].
    intros j _. apply word_replicate.
  - apply Hst.
  - intros s Hs. by apply not_elem_of_nil in Hs.
  - intros s Hs. destruct (Hslot s) as (b & Hb & Hf & Ht & Hq). exists b. split; [done|]. unfold slot_state.
    rewrite decide_False by lia. right. split_and!; [by apply not_elem_of_nil|done|done|lia].
  - intros k Hk. unfold eack_bit. cbn. rewrite word_replicate, Z.bits_0. split; [done|by intros ?%not_elem_of_nil].
  - exists 0%nat. cbn. split; [done|]. symmetry. apply Hst.
Qed.

Lemma arrive_receiving N irs st now dat seen x s : setting N irs st -> receiving N irs st (seen_in seen) x ->
  irs < s -> data st s <> [] -> CUR (rcv x) - N < s <= LCS (rcv x) + N ->
  exists x', arrive now dat x (segment_of st s) = Some (Ok (ER_OK, x')) /\ receiving N irs st (seen_in (s :: seen)) x'.
Proof.
  intros [HN Hi Hw Hst] Hrc Hs Hd Hr.
  destruct (receive_data_receiving N irs st HN Hst now dat (seen_in seen) x s Hrc Hs Hd Hr) as (dup & x' & E & E' & Hrc' & _).
  exists x'. split; [unfold arrive; cbn [SEQ payload segment_of]; rewrite E; cbn; by rewrite E'|].
  eapply receiving_iff; [|exact Hrc']. intros t. unfold and_seen, seen_in. by rewrite elem_of_cons.
Qed.

Lemma runs_receiving N irs st seen x : setting N irs st -> runs N irs st seen x -> receiving N irs st (seen_in seen) x.
Proof.
  intros Hse. induction 1 as [segbmax|seen x now dat s x' _ IH Hs Hd Hr E|seen x now dat x' _ IH Hl Hw E].
  - by apply opened_receiving.
  - destruct (arrive_receiving N irs st now dat seen x s Hse IH Hs Hd Hr) as (x1 & E1 & Hrc). rewrite E in E1. by injection E1 as ->.
  - destruct (ReleaseRcvBuffers_receiving N irs st (se_window _ _ _ Hse) (se_stream _ _ _ Hse) now dat _ x IH Hl Hw) as (x1 & E1 & Hrc & _).
    rewrite E in E1. by injection E1 as ->.
Qed.

(** * Delivery *)

(** C22: Take a stream of messages without a time to live whose sequence numbers do not
    wrap around ([setting]), and a receiver that is given its segments within the
    window, in whatever order and with whatever repetitions, and whose buffers are
    released as they can be ([runs]). It delivers the messages of the stream, each once,
    whole, with its fragments in order, and in the order of the stream; rcv.CUR is the
    last of the segments without a gap; every message that is complete without a gap was
    delivered and the next one was not; and the mask of extended acknowledgements is the
    set of the segments received beyond the gap. *)
Theorem ARDP_delivers_in_order N irs st seen x :
  setting N irs st -> runs N irs st seen x ->
  (forall s, irs < s <= CUR (rcv x) -> s ∈ seen) /\ ~ (CUR (rcv x) + 1 ∈ seen) /\
  (exists n, map (map view) (delivered x) = messages st n (irs + 1) /\
     let e := after_messages st n (irs + 1) in e <= CUR (rcv x) + 1 < e + count st e) /\
  forall k, 0 <= k -> eack_bit (mask (eack (rcv x))) k = true <-> (CUR (rcv x) + 2 + k) ∈ seen.
Proof.
  intros Hse Hr. destruct (runs_receiving _ _ _ _ _ Hse Hr) as [Hq Hgap Hi]. split; [apply (q_all _ _ _ _ _ _ Hq)|].
  split; [done|]. split; [|apply (q_mask _ _ _ _ _ _ Hq)].
  destruct (q_delivered _ _ _ _ _ _ Hq) as (n & Hd & Ha). exists n. split; [done|]. cbn. rewrite Ha.
  pose proof (q_irs _ _ _ _ _ _ Hq). pose proof (q_lcs _ _ _ _ _ _ Hq). destruct Hse as [_ _ _ Hst].
  rewrite (count_first N irs st Hst) by lia. apply Hst. lia.
Qed.

(** No run gets stuck: a segment within the window, or a late duplicate, is taken
    without a violated assert or an access out of bounds, and so is the consumption
    of the first delivered message, which moves rcv.LCS to its last fragment. *)
Theorem ARDP_receiving_progress N irs st seen x now dat :
  setting N irs st -> runs N irs st seen x ->
  (forall s, irs < s -> data st s <> [] -> CUR (rcv x) - N < s <= LCS (rcv x) + N ->
     exists x', arrive now dat x (segment_of st s) = Some (Ok (ER_OK, x')) /\ runs N irs st (s :: seen) x') /\
  (last_of st (LCS (rcv x) + 1) <= CUR (rcv x) -> last_of st (LCS (rcv x) + 1) + N + 1 < 2 ^ 32 ->
     exists x', ReleaseRcvBuffers now dat x (LCS (rcv x) + 1) (count st (LCS (rcv x) + 1)) false = Ok (ER_OK, x') /\
       LCS (rcv x') = last_of st (LCS (rcv x) + 1) /\ runs N irs st seen x').
Proof.
  intros Hse Hr. pose proof (runs_receiving _ _ _ _ _ Hse Hr) as Hrc. split.
  - intros s Hs Hd Hrange. destruct (arrive_receiving _ _ _ now dat _ _ _ Hse Hrc Hs Hd Hrange) as (x' & E & _).
    exists x'. split; [done|]. by eapply runs_arrive.
  - intros Hl Hw. destruct (ReleaseRcvBuffers_receiving N irs st (se_window _ _ _ Hse) (se_stream _ _ _ Hse) now dat _ x Hrc Hl Hw)
      as (x' & E & _ & HL & _). exists x'. split_and!; [done|done|]. by eapply runs_consume.
Qed.

(** With a window of at most 64 segments the mask in network order, which is what
    acknowledgements carry, is the mask, so that it too is the set of the segments
    received beyond the gap. *)
Theorem ARDP_wire_mask_small N irs st seen x :
  setting N irs st -> N <= 64 -> runs N irs st seen x ->
  forall k, 0 <= k -> eack_bit (htnMask (eack (rcv x))) k = true <-> (CUR (rcv x) + 2 + k) ∈ seen.
Proof.
  intros Hse H64 Hr k Hk. destruct (runs_receiving _ _ _ _ _ Hse Hr) as [Hq _ _].
  destruct (ei_wire _ _ (q_eack _ _ _ _ _ _ Hq) H64) as [_ Hsame]. unfold eack_bit. rewrite Hsame by (apply Z.div_pos; lia).
  apply (q_mask _ _ _ _ _ _ Hq k Hk).
Qed.

(** * Runs on a stream *)

(** A stream of messages of one segment. *)
Definition singles : stream := {| first := fun s => s; count := fun _ => 1; data := fun s => [s mod 256] |}.
(** A stream of messages of two segments. *)
Definition pairs (irs : Z) : stream :=
  {| first := fun s => s - (s - irs - 1) mod 2; count := fun _ => 2; data := fun s => [s mod 256] |}.

Lemma singles_ok N irs : 1 <= N -> stream_ok N irs singles.
Proof. intros HN. split; cbn; intros; lia. Qed.

Lemma pairs_ok N irs : 2 <= N -> stream_ok N irs (pairs irs).
Proof.
  intros HN. split; cbn [first count pairs].
  - replace (irs + 1 - irs - 1) with 0 by lia. rewrite Z.mod_0_l; lia.
  - lia.
  - intros s Hs. Z.to_euclidean_division_equations. lia.
  - intros s t Hs Ht. Z.to_euclidean_division_equations. lia.
Qed.

(** The state after the segments [l] arrived. *)
Fixpoint arrivals (N irs : Z) (st : stream) (l : list Z) (x : Rx) : option Rx :=
  match l with
  | [] => Some x
  | s :: l =>
      if decide (irs < s /\ data st s <> [] /\ CUR (rcv x) - N < s <= LCS (rcv x) + N) then
        match arrive 0 10 x (segment_of st s) with Some (Ok (ER_OK, x')) => arrivals N irs st l x' | _ => None end
      else None
  end.

Lemma arrivals_runs N irs st l : forall seen x x', runs N irs st seen x -> arrivals N irs st l x = Some x' -> runs N irs st (rev l ++ seen) x'.
Proof.
  induction l as [|s l IH]; intros seen x x' Hr; cbn [arrivals]; [by intros [= <-]|].
  destruct (decide _) as [(Hs & Hd & Hrange)|]; [|done]. destruct (arrive 0 10 x (segment_of st s)) as [[[[] x1]| |]|] eqn:E; try done.
  intros H. cbn [rev]. rewrite <- app_assoc. apply (IH (s :: seen) x1); [|done]. by eapply runs_arrive.
Qed.

Lemma setting_singles N irs : window_ok N -> 0 <= irs -> irs + N + 1 < 2 ^ 32 -> setting N irs singles.
Proof. intros HN ? ?. split; try done. apply singles_ok. apply HN. Qed.

(** The state after arrivals at a fresh connection. *)
Lemma fresh_runs N irs st segbmax l x : arrivals N irs st l (opened N segbmax irs) = Some x -> runs N irs st (rev l) x.
Proof. intros H. rewrite <- (app_nil_r (rev l)). eapply arrivals_runs; [apply runs_open|exact H]. Qed.

Definition sample_state (N irs : Z) (st : stream) (l : list Z) : Rx :=
  default (opened N 1472 irs) (arrivals N irs st l (opened N 1472 irs)).

Lemma sample_runs N irs st l : bool_decide (is_Some (arrivals N irs st l (opened N 1472 irs))) = true ->
  runs N irs st (rev l) (sample_state N irs st l).
Proof. intros [x Hx]%bool_decide_eq_true. apply (fresh_runs N irs st 1472). unfold sample_state. by rewrite Hx. Qed.

(** The second message of two fragments comes first, then the first message. *)
Lemma ARDP_delivers_in_order_witness : exists seen x, setting 4 5 (pairs 5) /\ runs 4 5 (pairs 5) seen x /\
  CUR (rcv x) = 9 /\ ~ (CUR (rcv x) + 1 ∈ seen) /\ map (map view) (delivered x) = [[[6]; [7]]; [[8]; [9]]].
Proof.
  set (x := sample_state 4 5 (pairs 5) [8; 9; 7; 8; 6; 7]). exists (rev [8; 9; 7; 8; 6; 7]), x.
  assert (setting 4 5 (pairs 5)) as Hse by (split; [done|done|done|by apply pairs_ok]).
  assert (runs 4 5 (pairs 5) (rev [8; 9; 7; 8; 6; 7]) x) as Hr by (apply sample_runs; by vm_compute).
  destruct (ARDP_delivers_in_order 4 5 (pairs 5) _ x Hse Hr) as (_ & Hgap & _). split_and!; [done|done| |done|]; by vm_compute.
Defined.

Lemma ARDP_receiving_progress_witness : exists seen x, setting 4 5 (pairs 5) /\ runs 4 5 (pairs 5) seen x /\
  (exists x', ReleaseRcvBuffers 3 10 x 6 2 false = Ok (ER_OK, x') /\ LCS (rcv x') = 7 /\ runs 4 5 (pairs 5) seen x') /\
  exists x', arrive 3 10 x (segment_of (pairs 5) 9) = Some (Ok (ER_OK, x')) /\ runs 4 5 (pairs 5) (9 :: seen) x'.
Proof.
  set (x := sample_state 4 5 (pairs 5) [8; 7; 6]). exists (rev [8; 7; 6]), x.
  assert (setting 4 5 (pairs 5)) as Hse by (split; [done|done|done|by apply pairs_ok]).
  assert (runs 4 5 (pairs 5) (rev [8; 7; 6]) x) as Hr by (apply sample_runs; by vm_compute).
  assert (LCS (rcv x) = 5 /\ CUR (rcv x) = 8) as [HL HC] by (split; by vm_compute).
  destruct (ARDP_receiving_progress 4 5 (pairs 5) _ x 3 10 Hse Hr) as [Ha Hc]. rewrite HL, HC in *. split_and!; [done|done| |].
  - apply Hc; by vm_compute.
  - apply Ha; [done|done|]. split; by vm_compute.
Defined.

Lemma ARDP_wire_mask_small_witness : exists seen x, setting 50 5 singles /\ 50 <= 64 /\ runs 50 5 singles seen x /\
  (eack_bit (htnMask (eack (rcv x))) 40 = true <-> (CUR (rcv x) + 42) ∈ seen).
Proof.
  set (x := sample_state 50 5 singles [49; 6; 7]). exists (rev [49; 6; 7]), x.
  assert (setting 50 5 singles) as Hse by (by apply setting_singles).
  assert (runs 50 5 singles (rev [49; 6; 7]) x) as Hr by (apply sample_runs; by vm_compute).
  split_and!; [done|done|done|]. apply (ARDP_wire_mask_small 50 5 singles _ x Hse ltac:(done) Hr 40). done.
Defined.

(** With the window that the router uses, 93 segments, the mask in network order can go
    stale: the shift passes over a zero word and leaves the word before it as it was.
    Here the segments 8, 75 and 6 arrived and the acknowledgement claims that 9 did,
    which never arrived, and not 8, which did. *)
Theorem ARDP_wire_mask_stale : exists x, runs 93 5 singles [6; 75; 8] x /\ CUR (rcv x) = 6 /\
  eack_bit (htnMask (eack (rcv x))) 1 = true /\ ~ (9 ∈ [6; 75; 8]) /\
  eack_bit (htnMask (eack (rcv x))) 0 = false /\ eack_bit (mask (eack (rcv x))) 0 = true.
Proof.
  exists (sample_state 93 5 singles [8; 75; 6]). split; [apply (sample_runs 93 5 singles [8; 75; 6]); by vm_compute|].
  split_and!; [by vm_compute|by vm_compute|apply (bool_decide_unpack _)|..]; by vm_compute.
Qed.
