(* ===== verification/ArdpState.v ===== *)
(** Model of alljoyn_core/router/ArdpProtocol.cc, the state of a connection: the
    headers, the buffers of sent segments, the connection record with the part of
    the handle that one connection uses, and a record update for every field.

    A number in network order stands for its value. The list of connections is left
    out: [listed] tells whether the one connection is in it. What the callbacks are
    told and what is written to the socket are [events]; [outcomes] are the results
    of the writes to come, and ER_OK after them. *)
From S2P Require Import Prelude Types Ardp.
Import Ardp.

Module ArdpState.

(** * Headers and segments *)

Record ArdpHeader := {
  h_flags : Z;
  h_hlen : Z;
  h_src : Z;
  h_dst : Z;
  h_dlen : Z;
  h_sq : Z;
  h_ack : Z;
  h_time : Z;
  h_lcs : Z;
  h_acknxt : Z;
  h_start : Z;
  h_cnt : Z
}.
Definition with_h_flags (v : Z) (c : ArdpHeader) : ArdpHeader :=
    {| h_flags := v; h_hlen := h_hlen c; h_src := h_src c; h_dst := h_dst c; h_dlen := h_dlen c; h_sq := h_sq c; h_ack
     := h_ack c; h_time := h_time c; h_lcs := h_lcs c; h_acknxt := h_acknxt c; h_start := h_start c; h_cnt := h_cnt c
     |}.
Definition with_h_hlen (v : Z) (c : ArdpHeader) : ArdpHeader :=
    {| h_flags := h_flags c; h_hlen := v; h_src := h_src c; h_dst := h_dst c; h_dlen := h_dlen c; h_sq := h_sq c;
     h_ack := h_ack c; h_time := h_time c; h_lcs := h_lcs c; h_acknxt := h_acknxt c; h_start := h_start c; h_cnt :=
     h_cnt c |}.
Definition with_h_src (v : Z) (c : ArdpHeader) : ArdpHeader :=
    {| h_flags := h_flags c; h_hlen := h_hlen c; h_src := v; h_dst := h_dst c; h_dlen := h_dlen c; h_sq := h_sq c;
     h_ack := h_ack c; h_time := h_time c; h_lcs := h_lcs c; h_acknxt := h_acknxt c; h_start := h_start c; h_cnt :=
     h_cnt c |}.
Definition with_h_dst (v : Z) (c : ArdpHeader) : ArdpHeader :=
    {| h_flags := h_flags c; h_hlen := h_hlen c; h_src := h_src c; h_dst := v; h_dlen := h_dlen c; h_sq := h_sq c;
     h_ack := h_ack c; h_time := h_time c; h_lcs := h_lcs c; h_acknxt := h_acknxt c; h_start := h_start c; h_cnt :=
     h_cnt c |}.
Definition with_h_dlen (v : Z) (c : ArdpHeader) : ArdpHeader :=
    {| h_flags := h_flags c; h_hlen := h_hlen c; h_src := h_src c; h_dst := h_dst c; h_dlen := v; h_sq := h_sq c;
     h_ack := h_ack c; h_time := h_time c; h_lcs := h_lcs c; h_acknxt := h_acknxt c; h_start := h_start c; h_cnt :=
     h_cnt c |}.
Definition with_h_sq (v : Z) (c : ArdpHeader) : ArdpHeader :=
    {| h_flags := h_flags c; h_hlen := h_hlen c; h_src := h_src c; h_dst := h_dst c; h_dlen := h_dlen c; h_sq := v;
     h_ack := h_ack c; h_time := h_time c; h_lcs := h_lcs c; h_acknxt := h_acknxt c; h_start := h_start c; h_cnt :=
     h_cnt c |}.
Definition with_h_ack (v : Z) (c : ArdpHeader) : ArdpHeader :=
    {| h_flags := h_flags c; h_hlen := h_hlen c; h_src := h_src c; h_dst := h_dst c; h_dlen := h_dlen c; h_sq := h_sq
     c; h_ack := v; h_time := h_time c; h_lcs := h_lcs c; h_acknxt := h_acknxt c; h_start := h_start c; h_cnt := h_cnt
     c |}.
Definition with_h_time (v : Z) (c : ArdpHeader) : ArdpHeader :=
    {| h_flags := h_flags c; h_hlen := h_hlen c; h_src := h_src c; h_dst := h_dst c; h_dlen := h_dlen c; h_sq := h_sq
     c; h_ack := h_ack c; h_time := v; h_lcs := h_lcs c; h_acknxt := h_acknxt c; h_start := h_start c; h_cnt := h_cnt
     c |}.
Definition with_h_lcs (v : Z) (c : ArdpHeader) : ArdpHeader :=
    {| h_flags := h_flags c; h_hlen := h_hlen c; h_src := h_src c; h_dst := h_dst c; h_dlen := h_dlen c; h_sq := h_sq
     c; h_ack := h_ack c; h_time := h_time c; h_lcs := v; h_acknxt := h_acknxt c; h_start := h_start c; h_cnt := h_cnt
     c |}.
Definition with_h_acknxt (v : Z) (c : ArdpHeader) : ArdpHeader :=
    {| h_flags := h_flags c; h_hlen := h_hlen c; h_src := h_src c; h_dst := h_dst c; h_dlen := h_dlen c; h_sq := h_sq
     c; h_ack := h_ack c; h_time := h_time c; h_lcs := h_lcs c; h_acknxt := v; h_start := h_start c; h_cnt := h_cnt c
     |}.
Definition with_h_start (v : Z) (c : ArdpHeader) : ArdpHeader :=
    {| h_flags := h_flags c; h_hlen := h_hlen c; h_src := h_src c; h_dst := h_dst c; h_dlen := h_dlen c; h_sq := h_sq
     c; h_ack := h_ack c; h_time := h_time c; h_lcs := h_lcs c; h_acknxt := h_acknxt c; h_start := v; h_cnt := h_cnt c
     |}.
Definition with_h_cnt (v : Z) (c : ArdpHeader) : ArdpHeader :=
    {| h_flags := h_flags c; h_hlen := h_hlen c; h_src := h_src c; h_dst := h_dst c; h_dlen := h_dlen c; h_sq := h_sq
     c; h_ack := h_ack c; h_time := h_time c; h_lcs := h_lcs c; h_acknxt := h_acknxt c; h_start := h_start c; h_cnt :=
     v |}.

Record ArdpSeg := {
    gSEQ : Z; gACK : Z; gLCS : Z; gACKNXT : Z; gSOM : Z; gTTL : Z; gFCNT : Z; gDLEN : Z; gWINDOW : Z; gFLG : Z; gHLEN
  : Z
}.

(** * Sent segments *)

(** [s_data] is the rest of the message from the segment on, of which [s_datalen]
    bytes belong to the segment. *)
Record ArdpSndBuf := {
  s_data : list Z;
  s_datalen : Z;
  s_hdr : ArdpHeader;
  s_ttl : Z;
  s_tStart : Z;
  s_timer : ArdpTimer;
  s_fastRT : Z;
  s_retransmits : Z;
  s_inUse : bool
}.
Definition with_s_data (v : list Z) (c : ArdpSndBuf) : ArdpSndBuf :=
    {| s_data := v; s_datalen := s_datalen c; s_hdr := s_hdr c; s_ttl := s_ttl c; s_tStart := s_tStart c; s_timer :=
     s_timer c; s_fastRT := s_fastRT c; s_retransmits := s_retransmits c; s_inUse := s_inUse c |}.
Definition with_s_datalen (v : Z) (c : ArdpSndBuf) : ArdpSndBuf :=
    {| s_data := s_data c; s_datalen := v; s_hdr := s_hdr c; s_ttl := s_ttl c; s_tStart := s_tStart c; s_timer :=
     s_timer c; s_fastRT := s_fastRT c; s_retransmits := s_retransmits c; s_inUse := s_inUse c |}.
Definition with_s_hdr (v : ArdpHeader) (c : ArdpSndBuf) : ArdpSndBuf :=
    {| s_data := s_data c; s_datalen := s_datalen c; s_hdr := v; s_ttl := s_ttl c; s_tStart := s_tStart c; s_timer :=
     s_timer c; s_fastRT := s_fastRT c; s_retransmits := s_retransmits c; s_inUse := s_inUse c |}.
Definition with_s_ttl (v : Z) (c : ArdpSndBuf) : ArdpSndBuf :=
    {| s_data := s_data c; s_datalen := s_datalen c; s_hdr := s_hdr c; s_ttl := v; s_tStart := s_tStart c; s_timer :=
     s_timer c; s_fastRT := s_fastRT c; s_retransmits := s_retransmits c; s_inUse := s_inUse c |}.
Definition with_s_tStart (v : Z) (c : ArdpSndBuf) : ArdpSndBuf :=
    {| s_data := s_data c; s_datalen := s_datalen c; s_hdr := s_hdr c; s_ttl := s_ttl c; s_tStart := v; s_timer :=
     s_timer c; s_fastRT := s_fastRT c; s_retransmits := s_retransmits c; s_inUse := s_inUse c |}.
Definition with_s_timer (v : ArdpTimer) (c : ArdpSndBuf) : ArdpSndBuf :=
    {| s_data := s_data c; s_datalen := s_datalen c; s_hdr := s_hdr c; s_ttl := s_ttl c; s_tStart := s_tStart c;
     s_timer := v; s_fastRT := s_fastRT c; s_retransmits := s_retransmits c; s_inUse := s_inUse c |}.
Definition with_s_fastRT (v : Z) (c : ArdpSndBuf) : ArdpSndBuf :=
    {| s_data := s_data c; s_datalen := s_datalen c; s_hdr := s_hdr c; s_ttl := s_ttl c; s_tStart := s_tStart c;
     s_timer := s_timer c; s_fastRT := v; s_retransmits := s_retransmits c; s_inUse := s_inUse c |}.
Definition with_s_retransmits (v : Z) (c : ArdpSndBuf) : ArdpSndBuf :=
    {| s_data := s_data c; s_datalen := s_datalen c; s_hdr := s_hdr c; s_ttl := s_ttl c; s_tStart := s_tStart c;
     s_timer := s_timer c; s_fastRT := s_fastRT c; s_retransmits := v; s_inUse := s_inUse c |}.
Definition with_s_inUse (v : bool) (c : ArdpSndBuf) : ArdpSndBuf :=
    {| s_data := s_data c; s_datalen := s_datalen c; s_hdr := s_hdr c; s_ttl := s_ttl c; s_tStart := s_tStart c;
     s_timer := s_timer c; s_fastRT := s_fastRT c; s_retransmits := s_retransmits c; s_inUse := v |}.

Record ArdpSnd := {
  NXT : Z;
  UNA : Z;
  ISS : Z;
  sLCS : Z;
  DACKT : Z;
  sbuf : list ArdpSndBuf;
  thinNXT : Z;
  SEGMAX : Z;
  SEGBMAX : Z;
  thinSEGMAX : Z;
  thinWindow : Z;
  maxDlen : Z;
  pending : Z
}.
Definition with_NXT (v : Z) (c : ArdpSnd) : ArdpSnd :=
    {| NXT := v; UNA := UNA c; ISS := ISS c; sLCS := sLCS c; DACKT := DACKT c; sbuf := sbuf c; thinNXT := thinNXT c;
     SEGMAX := SEGMAX c; SEGBMAX := SEGBMAX c; thinSEGMAX := thinSEGMAX c; thinWindow := thinWindow c; maxDlen :=
     maxDlen c; pending := pending c |}.
Definition with_UNA (v : Z) (c : ArdpSnd) : ArdpSnd :=
    {| NXT := NXT c; UNA := v; ISS := ISS c; sLCS := sLCS c; DACKT := DACKT c; sbuf := sbuf c; thinNXT := thinNXT c;
     SEGMAX := SEGMAX c; SEGBMAX := SEGBMAX c; thinSEGMAX := thinSEGMAX c; thinWindow := thinWindow c; maxDlen :=
     maxDlen c; pending := pending c |}.
Definition with_ISS (v : Z) (c : ArdpSnd) : ArdpSnd :=
    {| NXT := NXT c; UNA := UNA c; ISS := v; sLCS := sLCS c; DACKT := DACKT c; sbuf := sbuf c; thinNXT := thinNXT c;
     SEGMAX := SEGMAX c; SEGBMAX := SEGBMAX c; thinSEGMAX := thinSEGMAX c; thinWindow := thinWindow c; maxDlen :=
     maxDlen c; pending := pending c |}.
Definition with_sLCS (v : Z) (c : ArdpSnd) : ArdpSnd :=
    {| NXT := NXT c; UNA := UNA c; ISS := ISS c; sLCS := v; DACKT := DACKT c; sbuf := sbuf c; thinNXT := thinNXT c;
     SEGMAX := SEGMAX c; SEGBMAX := SEGBMAX c; thinSEGMAX := thinSEGMAX c; thinWindow := thinWindow c; maxDlen :=
     maxDlen c; pending := pending c |}.
Definition with_DACKT (v : Z) (c : ArdpSnd) : ArdpSnd :=
    {| NXT := NXT c; UNA := UNA c; ISS := ISS c; sLCS := sLCS c; DACKT := v; sbuf := sbuf c; thinNXT := thinNXT c;
     SEGMAX := SEGMAX c; SEGBMAX := SEGBMAX c; thinSEGMAX := thinSEGMAX c; thinWindow := thinWindow c; maxDlen :=
     maxDlen c; pending := pending c |}.
Definition with_sbuf (v : list ArdpSndBuf) (c : ArdpSnd) : ArdpSnd :=
    {| NXT := NXT c; UNA := UNA c; ISS := ISS c; sLCS := sLCS c; DACKT := DACKT c; sbuf := v; thinNXT := thinNXT c;
     SEGMAX := SEGMAX c; SEGBMAX := SEGBMAX c; thinSEGMAX := thinSEGMAX c; thinWindow := thinWindow c; maxDlen :=
     maxDlen c; pending := pending c |}.
Definition with_thinNXT (v : Z) (c : ArdpSnd) : ArdpSnd :=
    {| NXT := NXT c; UNA := UNA c; ISS := ISS c; sLCS := sLCS c; DACKT := DACKT c; sbuf := sbuf c; thinNXT := v;
     SEGMAX := SEGMAX c; SEGBMAX := SEGBMAX c; thinSEGMAX := thinSEGMAX c; thinWindow := thinWindow c; maxDlen :=
     maxDlen c; pending := pending c |}.
Definition with_SEGMAX (v : Z) (c : ArdpSnd) : ArdpSnd :=
    {| NXT := NXT c; UNA := UNA c; ISS := ISS c; sLCS := sLCS c; DACKT := DACKT c; sbuf := sbuf c; thinNXT := thinNXT
     c; SEGMAX := v; SEGBMAX := SEGBMAX c; thinSEGMAX := thinSEGMAX c; thinWindow := thinWindow c; maxDlen := maxDlen
     c; pending := pending c |}.
Definition with_SEGBMAX (v : Z) (c : ArdpSnd) : ArdpSnd :=
    {| NXT := NXT c; UNA := UNA c; ISS := ISS c; sLCS := sLCS c; DACKT := DACKT c; sbuf := sbuf c; thinNXT := thinNXT
     c; SEGMAX := SEGMAX c; SEGBMAX := v; thinSEGMAX := thinSEGMAX c; thinWindow := thinWindow c; maxDlen := maxDlen
     c; pending := pending c |}.
Definition with_thinSEGMAX (v : Z) (c : ArdpSnd) : ArdpSnd :=
    {| NXT := NXT c; UNA := UNA c; ISS := ISS c; sLCS := sLCS c; DACKT := DACKT c; sbuf := sbuf c; thinNXT := thinNXT
     c; SEGMAX := SEGMAX c; SEGBMAX := SEGBMAX c; thinSEGMAX := v; thinWindow := thinWindow c; maxDlen := maxDlen c;
     pending := pending c |}.
Definition with_thinWindow (v : Z) (c : ArdpSnd) : ArdpSnd :=
    {| NXT := NXT c; UNA := UNA c; ISS := ISS c; sLCS := sLCS c; DACKT := DACKT c; sbuf := sbuf c; thinNXT := thinNXT
     c; SEGMAX := SEGMAX c; SEGBMAX := SEGBMAX c; thinSEGMAX := thinSEGMAX c; thinWindow := v; maxDlen := maxDlen c;
     pending := pending c |}.
Definition with_maxDlen (v : Z) (c : ArdpSnd) : ArdpSnd :=
    {| NXT := NXT c; UNA := UNA c; ISS := ISS c; sLCS := sLCS c; DACKT := DACKT c; sbuf := sbuf c; thinNXT := thinNXT
     c; SEGMAX := SEGMAX c; SEGBMAX := SEGBMAX c; thinSEGMAX := thinSEGMAX c; thinWindow := thinWindow c; maxDlen :=
     v; pending := pending c |}.
Definition with_pending (v : Z) (c : ArdpSnd) : ArdpSnd :=
    {| NXT := NXT c; UNA := UNA c; ISS := ISS c; sLCS := sLCS c; DACKT := DACKT c; sbuf := sbuf c; thinNXT := thinNXT
     c; SEGMAX := SEGMAX c; SEGBMAX := SEGBMAX c; thinSEGMAX := thinSEGMAX c; thinWindow := thinWindow c; maxDlen :=
     maxDlen c; pending := v |}.

(** * Connections *)

Inductive ArdpState : Type := CLOSED | CLOSE_WAIT | LISTEN | SYN_SENT | SYN_RCVD | OPEN.

#[export] Instance ArdpState_eq_dec : EqDecision ArdpState.
Proof. solve_decision. Defined.

Inductive Event : Type :=
| Sent (bytes : list Z) (st : QStatus)
| ConnectCb (passive : bool) (data : list Z) (st : QStatus)
| DisconnectCb (st : QStatus)
| SendCb (buf : list Z) (len : Z) (st : QStatus)
| SendWindowCb (window : Z) (st : QStatus).

(** [connectHandler] is the handler of the timer: DisconnectTimerHandler with its
    reason, or ConnectTimerHandler. [confirm] stands for sndFlags. [rx] holds rcv,
    ackTimer, the msnext of the handle and what RecvCb was given. *)
Record ArdpConnRecord := {
  state : ArdpState;
  passive : bool;
  snd : ArdpSnd;
  rx : Rx;
  local : Z;
  foreign : Z;
  window : Z;
  remoteMskSz : Z;
  lastSeen : Z;
  synData : option (list Z);
  rttInit : bool;
  rttMean : Z;
  rttMeanVar : Z;
  backoff : Z;
  rttMeanUnit : Z;
  connectTimer : ArdpTimer;
  connectHandler : option QStatus;
  probeTimer : ArdpTimer;
  persistTimer : ArdpTimer;
  ackPending : Z;
  modeSimple : bool;
  confirm : bool;
  trafficJam : bool;
  dataTimers : list Z;
  listed : bool;
  outcomes : list QStatus;
  events : list Event
}.
Definition with_state (v : ArdpState) (c : ArdpConnRecord) : ArdpConnRecord :=
    {| state := v; passive := passive c; snd := snd c; rx := rx c; local := local c; foreign := foreign c; window :=
     window c; remoteMskSz := remoteMskSz c; lastSeen := lastSeen c; synData := synData c; rttInit := rttInit c;
     rttMean := rttMean c; rttMeanVar := rttMeanVar c; backoff := backoff c; rttMeanUnit := rttMeanUnit c;
     connectTimer := connectTimer c; connectHandler := connectHandler c; probeTimer := probeTimer c; persistTimer :=
     persistTimer c; ackPending := ackPending c; modeSimple := modeSimple c; confirm := confirm c; trafficJam :=
     trafficJam c; dataTimers := dataTimers c; listed := listed c; outcomes := outcomes c; events := events c |}.
Definition with_passive (v : bool) (c : ArdpConnRecord) : ArdpConnRecord :=
    {| state := state c; passive := v; snd := snd c; rx := rx c; local := local c; foreign := foreign c; window :=
     window c; remoteMskSz := remoteMskSz c; lastSeen := lastSeen c; synData := synData c; rttInit := rttInit c;
     rttMean := rttMean c; rttMeanVar := rttMeanVar c; backoff := backoff c; rttMeanUnit := rttMeanUnit c;
     connectTimer := connectTimer c; connectHandler := connectHandler c; probeTimer := probeTimer c; persistTimer :=
     persistTimer c; ackPending := ackPending c; modeSimple := modeSimple c; confirm := confirm c; trafficJam :=
     trafficJam c; dataTimers := dataTimers c; listed := listed c; outcomes := outcomes c; events := events c |}.
Definition with_snd (v : ArdpSnd) (c : ArdpConnRecord) : ArdpConnRecord :=
    {| state := state c; passive := passive c; snd := v; rx := rx c; local := local c; foreign := foreign c; window :=
     window c; remoteMskSz := remoteMskSz c; lastSeen := lastSeen c; synData := synData c; rttInit := rttInit c;
     rttMean := rttMean c; rttMeanVar := rttMeanVar c; backoff := backoff c; rttMeanUnit := rttMeanUnit c;
     connectTimer := connectTimer c; connectHandler := connectHandler c; probeTimer := probeTimer c; persistTimer :=
     persistTimer c; ackPending := ackPending c; modeSimple := modeSimple c; confirm := confirm c; trafficJam :=
     trafficJam c; dataTimers := dataTimers c; listed := listed c; outcomes := outcomes c; events := events c |}.
Definition with_rx (v : Rx) (c : ArdpConnRecord) : ArdpConnRecord :=
    {| state := state c; passive := passive c; snd := snd c; rx := v; local := local c; foreign := foreign c; window
     := window c; remoteMskSz := remoteMskSz c; lastSeen := lastSeen c; synData := synData c; rttInit := rttInit c;
     rttMean := rttMean c; rttMeanVar := rttMeanVar c; backoff := backoff c; rttMeanUnit := rttMeanUnit c;
     connectTimer := connectTimer c; connectHandler := connectHandler c; probeTimer := probeTimer c; persistTimer :=
     persistTimer c; ackPending := ackPending c; modeSimple := modeSimple c; confirm := confirm c; trafficJam :=
     trafficJam c; dataTimers := dataTimers c; listed := listed c; outcomes := outcomes c; events := events c |}.
Definition with_local (v : Z) (c : ArdpConnRecord) : ArdpConnRecord :=
    {| state := state c; passive := passive c; snd := snd c; rx := rx c; local := v; foreign := foreign c; window :=
     window c; remoteMskSz := remoteMskSz c; lastSeen := lastSeen c; synData := synData c; rttInit := rttInit c;
     rttMean := rttMean c; rttMeanVar := rttMeanVar c; backoff := backoff c; rttMeanUnit := rttMeanUnit c;
     connectTimer := connectTimer c; connectHandler := connectHandler c; probeTimer := probeTimer c; persistTimer :=
     persistTimer c; ackPending := ackPending c; modeSimple := modeSimple c; confirm := confirm c; trafficJam :=
     trafficJam c; dataTimers := dataTimers c; listed := listed c; outcomes := outcomes c; events := events c |}.
Definition with_foreign (v : Z) (c : ArdpConnRecord) : ArdpConnRecord :=
    {| state := state c; passive := passive c; snd := snd c; rx := rx c; local := local c; foreign := v; window :=
     window c; remoteMskSz := remoteMskSz c; lastSeen := lastSeen c; synData := synData c; rttInit := rttInit c;
     rttMean := rttMean c; rttMeanVar := rttMeanVar c; backoff := backoff c; rttMeanUnit := rttMeanUnit c;
     connectTimer := connectTimer c; connectHandler := connectHandler c; probeTimer := probeTimer c; persistTimer :=
     persistTimer c; ackPending := ackPending c; modeSimple := modeSimple c; confirm := confirm c; trafficJam :=
     trafficJam c; dataTimers := dataTimers c; listed := listed c; outcomes := outcomes c; events := events c |}.
Definition with_window (v : Z) (c : ArdpConnRecord) : ArdpConnRecord :=
    {| state := state c; passive := passive c; snd := snd c; rx := rx c; local := local c; foreign := foreign c;
     window := v; remoteMskSz := remoteMskSz c; lastSeen := lastSeen c; synData := synData c; rttInit := rttInit c;
     rttMean := rttMean c; rttMeanVar := rttMeanVar c; backoff := backoff c; rttMeanUnit := rttMeanUnit c;
     connectTimer := connectTimer c; connectHandler := connectHandler c; probeTimer := probeTimer c; persistTimer :=
     persistTimer c; ackPending := ackPending c; modeSimple := modeSimple c; confirm := confirm c; trafficJam :=
     trafficJam c; dataTimers := dataTimers c; listed := listed c; outcomes := outcomes c; events := events c |}.
Definition with_remoteMskSz (v : Z) (c : ArdpConnRecord) : ArdpConnRecord :=
    {| state := state c; passive := passive c; snd := snd c; rx := rx c; local := local c; foreign := foreign c;
     window := window c; remoteMskSz := v; lastSeen := lastSeen c; synData := synData c; rttInit := rttInit c; rttMean
     := rttMean c; rttMeanVar := rttMeanVar c; backoff := backoff c; rttMeanUnit := rttMeanUnit c; connectTimer :=
     connectTimer c; connectHandler := connectHandler c; probeTimer := probeTimer c; persistTimer := persistTimer c;
     ackPending := ackPending c; modeSimple := modeSimple c; confirm := confirm c; trafficJam := trafficJam c;
     dataTimers := dataTimers c; listed := listed c; outcomes := outcomes c; events := events c |}.
Definition with_lastSeen (v : Z) (c : ArdpConnRecord) : ArdpConnRecord :=
    {| state := state c; passive := passive c; snd := snd c; rx := rx c; local := local c; foreign := foreign c;
     window := window c; remoteMskSz := remoteMskSz c; lastSeen := v; synData := synData c; rttInit := rttInit c;
     rttMean := rttMean c; rttMeanVar := rttMeanVar c; backoff := backoff c; rttMeanUnit := rttMeanUnit c;
     connectTimer := connectTimer c; connectHandler := connectHandler c; probeTimer := probeTimer c; persistTimer :=
     persistTimer c; ackPending := ackPending c; modeSimple := modeSimple c; confirm := confirm c; trafficJam :=
     trafficJam c; dataTimers := dataTimers c; listed := listed c; outcomes := outcomes c; events := events c |}.
Definition with_synData (v : option (list Z)) (c : ArdpConnRecord) : ArdpConnRecord :=
    {| state := state c; passive := passive c; snd := snd c; rx := rx c; local := local c; foreign := foreign c;
     window := window c; remoteMskSz := remoteMskSz c; lastSeen := lastSeen c; synData := v; rttInit := rttInit c;
     rttMean := rttMean c; rttMeanVar := rttMeanVar c; backoff := backoff c; rttMeanUnit := rttMeanUnit c;
     connectTimer := connectTimer c; connectHandler := connectHandler c; probeTimer := probeTimer c; persistTimer :=
     persistTimer c; ackPending := ackPending c; modeSimple := modeSimple c; confirm := confirm c; trafficJam :=
     trafficJam c; dataTimers := dataTimers c; listed := listed c; outcomes := outcomes c; events := events c |}.
Definition with_rttInit (v : bool) (c : ArdpConnRecord) : ArdpConnRecord :=
    {| state := state c; passive := passive c; snd := snd c; rx := rx c; local := local c; foreign := foreign c;
     window := window c; remoteMskSz := remoteMskSz c; lastSeen := lastSeen c; synData := synData c; rttInit := v;
     rttMean := rttMean c; rttMeanVar := rttMeanVar c; backoff := backoff c; rttMeanUnit := rttMeanUnit c;
     connectTimer := connectTimer c; connectHandler := connectHandler c; probeTimer := probeTimer c; persistTimer :=
     persistTimer c; ackPending := ackPending c; modeSimple := modeSimple c; confirm := confirm c; trafficJam :=
     trafficJam c; dataTimers := dataTimers c; listed := listed c; outcomes := outcomes c; events := events c |}.
Definition with_rttMean (v : Z) (c : ArdpConnRecord) : ArdpConnRecord :=
    {| state := state c; passive := passive c; snd := snd c; rx := rx c; local := local c; foreign := foreign c;
     window := window c; remoteMskSz := remoteMskSz c; lastSeen := lastSeen c; synData := synData c; rttInit :=
     rttInit c; rttMean := v; rttMeanVar := rttMeanVar c; backoff := backoff c; rttMeanUnit := rttMeanUnit c;
     connectTimer := connectTimer c; connectHandler := connectHandler c; probeTimer := probeTimer c; persistTimer :=
     persistTimer c; ackPending := ackPending c; modeSimple := modeSimple c; confirm := confirm c; trafficJam :=
     trafficJam c; dataTimers := dataTimers c; listed := listed c; outcomes := outcomes c; events := events c |}.
Definition with_rttMeanVar (v : Z) (c : ArdpConnRecord) : ArdpConnRecord :=
    {| state := state c; passive := passive c; snd := snd c; rx := rx c; local := local c; foreign := foreign c;
     window := window c; remoteMskSz := remoteMskSz c; lastSeen := lastSeen c; synData := synData c; rttInit :=
     rttInit c; rttMean := rttMean c; rttMeanVar := v; backoff := backoff c; rttMeanUnit := rttMeanUnit c;
     connectTimer := connectTimer c; connectHandler := connectHandler c; probeTimer := probeTimer c; persistTimer :=
     persistTimer c; ackPending := ackPending c; modeSimple := modeSimple c; confirm := confirm c; trafficJam :=
     trafficJam c; dataTimers := dataTimers c; listed := listed c; outcomes := outcomes c; events := events c |}.
Definition with_backoff (v : Z) (c : ArdpConnRecord) : ArdpConnRecord :=
    {| state := state c; passive := passive c; snd := snd c; rx := rx c; local := local c; foreign := foreign c;
     window := window c; remoteMskSz := remoteMskSz c; lastSeen := lastSeen c; synData := synData c; rttInit :=
     rttInit c; rttMean := rttMean c; rttMeanVar := rttMeanVar c; backoff := v; rttMeanUnit := rttMeanUnit c;
     connectTimer := connectTimer c; connectHandler := connectHandler c; probeTimer := probeTimer c; persistTimer :=
     persistTimer c; ackPending := ackPending c; modeSimple := modeSimple c; confirm := confirm c; trafficJam :=
     trafficJam c; dataTimers := dataTimers c; listed := listed c; outcomes := outcomes c; events := events c |}.
Definition with_rttMeanUnit (v : Z) (c : ArdpConnRecord) : ArdpConnRecord :=
    {| state := state c; passive := passive c; snd := snd c; rx := rx c; local := local c; foreign := foreign c;
     window := window c; remoteMskSz := remoteMskSz c; lastSeen := lastSeen c; synData := synData c; rttInit :=
     rttInit c; rttMean := rttMean c; rttMeanVar := rttMeanVar c; backoff := backoff c; rttMeanUnit := v; connectTimer
     := connectTimer c; connectHandler := connectHandler c; probeTimer := probeTimer c; persistTimer := persistTimer
     c; ackPending := ackPending c; modeSimple := modeSimple c; confirm := confirm c; trafficJam := trafficJam c;
     dataTimers := dataTimers c; listed := listed c; outcomes := outcomes c; events := events c |}.
Definition with_connectTimer (v : ArdpTimer) (c : ArdpConnRecord) : ArdpConnRecord :=
    {| state := state c; passive := passive c; snd := snd c; rx := rx c; local := local c; foreign := foreign c;
     window := window c; remoteMskSz := remoteMskSz c; lastSeen := lastSeen c; synData := synData c; rttInit :=
     rttInit c; rttMean := rttMean c; rttMeanVar := rttMeanVar c; backoff := backoff c; rttMeanUnit := rttMeanUnit c;
     connectTimer := v; connectHandler := connectHandler c; probeTimer := probeTimer c; persistTimer := persistTimer
     c; ackPending := ackPending c; modeSimple := modeSimple c; confirm := confirm c; trafficJam := trafficJam c;
     dataTimers := dataTimers c; listed := listed c; outcomes := outcomes c; events := events c |}.
Definition with_connectHandler (v : option QStatus) (c : ArdpConnRecord) : ArdpConnRecord :=
    {| state := state c; passive := passive c; snd := snd c; rx := rx c; local := local c; foreign := foreign c;
     window := window c; remoteMskSz := remoteMskSz c; lastSeen := lastSeen c; synData := synData c; rttInit :=
     rttInit c; rttMean := rttMean c; rttMeanVar := rttMeanVar c; backoff := backoff c; rttMeanUnit := rttMeanUnit c;
     connectTimer := connectTimer c; connectHandler := v; probeTimer := probeTimer c; persistTimer := persistTimer c;
     ackPending := ackPending c; modeSimple := modeSimple c; confirm := confirm c; trafficJam := trafficJam c;
     dataTimers := dataTimers c; listed := listed c; outcomes := outcomes c; events := events c |}.
Definition with_probeTimer (v : ArdpTimer) (c : ArdpConnRecord) : ArdpConnRecord :=
    {| state := state c; passive := passive c; snd := snd c; rx := rx c; local := local c; foreign := foreign c;
     window := window c; remoteMskSz := remoteMskSz c; lastSeen := lastSeen c; synData := synData c; rttInit :=
     rttInit c; rttMean := rttMean c; rttMeanVar := rttMeanVar c; backoff := backoff c; rttMeanUnit := rttMeanUnit c;
     connectTimer := connectTimer c; connectHandler := connectHandler c; probeTimer := v; persistTimer := persistTimer
     c; ackPending := ackPending c; modeSimple := modeSimple c; confirm := confirm c; trafficJam := trafficJam c;
     dataTimers := dataTimers c; listed := listed c; outcomes := outcomes c; events := events c |}.
Definition with_persistTimer (v : ArdpTimer) (c : ArdpConnRecord) : ArdpConnRecord :=
    {| state := state c; passive := passive c; snd := snd c; rx := rx c; local := local c; foreign := foreign c;
     window := window c; remoteMskSz := remoteMskSz c; lastSeen := lastSeen c; synData := synData c; rttInit :=
     rttInit c; rttMean := rttMean c; rttMeanVar := rttMeanVar c; backoff := backoff c; rttMeanUnit := rttMeanUnit c;
     connectTimer := connectTimer c; connectHandler := connectHandler c; probeTimer := probeTimer c; persistTimer :=
     v; ackPending := ackPending c; modeSimple := modeSimple c; confirm := confirm c; trafficJam := trafficJam c;
     dataTimers := dataTimers c; listed := listed c; outcomes := outcomes c; events := events c |}.
Definition with_ackPending (v : Z) (c : ArdpConnRecord) : ArdpConnRecord :=
    {| state := state c; passive := passive c; snd := snd c; rx := rx c; local := local c; foreign := foreign c;
     window := window c; remoteMskSz := remoteMskSz c; lastSeen := lastSeen c; synData := synData c; rttInit :=
     rttInit c; rttMean := rttMean c; rttMeanVar := rttMeanVar c; backoff := backoff c; rttMeanUnit := rttMeanUnit c;
     connectTimer := connectTimer c; connectHandler := connectHandler c; probeTimer := probeTimer c; persistTimer :=
     persistTimer c; ackPending := v; modeSimple := modeSimple c; confirm := confirm c; trafficJam := trafficJam c;
     dataTimers := dataTimers c; listed := listed c; outcomes := outcomes c; events := events c |}.
Definition with_modeSimple (v : bool) (c : ArdpConnRecord) : ArdpConnRecord :=
    {| state := state c; passive := passive c; snd := snd c; rx := rx c; local := local c; foreign := foreign c;
     window := window c; remoteMskSz := remoteMskSz c; lastSeen := lastSeen c; synData := synData c; rttInit :=
     rttInit c; rttMean := rttMean c; rttMeanVar := rttMeanVar c; backoff := backoff c; rttMeanUnit := rttMeanUnit c;
     connectTimer := connectTimer c; connectHandler := connectHandler c; probeTimer := probeTimer c; persistTimer :=
     persistTimer c; ackPending := ackPending c; modeSimple := v; confirm := confirm c; trafficJam := trafficJam c;
     dataTimers := dataTimers c; listed := listed c; outcomes := outcomes c; events := events c |}.
Definition with_confirm (v : bool) (c : ArdpConnRecord) : ArdpConnRecord :=
    {| state := state c; passive := passive c; snd := snd c; rx := rx c; local := local c; foreign := foreign c;
     window := window c; remoteMskSz := remoteMskSz c; lastSeen := lastSeen c; synData := synData c; rttInit :=
     rttInit c; rttMean := rttMean c; rttMeanVar := rttMeanVar c; backoff := backoff c; rttMeanUnit := rttMeanUnit c;
     connectTimer := connectTimer c; connectHandler := connectHandler c; probeTimer := probeTimer c; persistTimer :=
     persistTimer c; ackPending := ackPending c; modeSimple := modeSimple c; confirm := v; trafficJam := trafficJam c;
     dataTimers := dataTimers c; listed := listed c; outcomes := outcomes c; events := events c |}.
Definition with_trafficJam (v : bool) (c : ArdpConnRecord) : ArdpConnRecord :=
    {| state := state c; passive := passive c; snd := snd c; rx := rx c; local := local c; foreign := foreign c;
     window := window c; remoteMskSz := remoteMskSz c; lastSeen := lastSeen c; synData := synData c; rttInit :=
     rttInit c; rttMean := rttMean c; rttMeanVar := rttMeanVar c; backoff := backoff c; rttMeanUnit := rttMeanUnit c;
     connectTimer := connectTimer c; connectHandler := connectHandler c; probeTimer := probeTimer c; persistTimer :=
     persistTimer c; ackPending := ackPending c; modeSimple := modeSimple c; confirm := confirm c; trafficJam := v;
     dataTimers := dataTimers c; listed := listed c; outcomes := outcomes c; events := events c |}.
Definition with_dataTimers (v : list Z) (c : ArdpConnRecord) : ArdpConnRecord :=
    {| state := state c; passive := passive c; snd := snd c; rx := rx c; local := local c; foreign := foreign c;
     window := window c; remoteMskSz := remoteMskSz c; lastSeen := lastSeen c; synData := synData c; rttInit :=
     rttInit c; rttMean := rttMean c; rttMeanVar := rttMeanVar c; backoff := backoff c; rttMeanUnit := rttMeanUnit c;
     connectTimer := connectTimer c; connectHandler := connectHandler c; probeTimer := probeTimer c; persistTimer :=
     persistTimer c; ackPending := ackPending c; modeSimple := modeSimple c; confirm := confirm c; trafficJam :=
     trafficJam c; dataTimers := v; listed := listed c; outcomes := outcomes c; events := events c |}.
Definition with_listed (v : bool) (c : ArdpConnRecord) : ArdpConnRecord :=
    {| state := state c; passive := passive c; snd := snd c; rx := rx c; local := local c; foreign := foreign c;
     window := window c; remoteMskSz := remoteMskSz c; lastSeen := lastSeen c; synData := synData c; rttInit :=
     rttInit c; rttMean := rttMean c; rttMeanVar := rttMeanVar c; backoff := backoff c; rttMeanUnit := rttMeanUnit c;
     connectTimer := connectTimer c; connectHandler := connectHandler c; probeTimer := probeTimer c; persistTimer :=
     persistTimer c; ackPending := ackPending c; modeSimple := modeSimple c; confirm := confirm c; trafficJam :=
     trafficJam c; dataTimers := dataTimers c; listed := v; outcomes := outcomes c; events := events c |}.
Definition with_outcomes (v : list QStatus) (c : ArdpConnRecord) : ArdpConnRecord :=
    {| state := state c; passive := passive c; snd := snd c; rx := rx c; local := local c; foreign := foreign c;
     window := window c; remoteMskSz := remoteMskSz c; lastSeen := lastSeen c; synData := synData c; rttInit :=
     rttInit c; rttMean := rttMean c; rttMeanVar := rttMeanVar c; backoff := backoff c; rttMeanUnit := rttMeanUnit c;
     connectTimer := connectTimer c; connectHandler := connectHandler c; probeTimer := probeTimer c; persistTimer :=
     persistTimer c; ackPending := ackPending c; modeSimple := modeSimple c; confirm := confirm c; trafficJam :=
     trafficJam c; dataTimers := dataTimers c; listed := listed c; outcomes := v; events := events c |}.
Definition with_events (v : list Event) (c : ArdpConnRecord) : ArdpConnRecord :=
    {| state := state c; passive := passive c; snd := snd c; rx := rx c; local := local c; foreign := foreign c;
     window := window c; remoteMskSz := remoteMskSz c; lastSeen := lastSeen c; synData := synData c; rttInit :=
     rttInit c; rttMean := rttMean c; rttMeanVar := rttMeanVar c; backoff := backoff c; rttMeanUnit := rttMeanUnit c;
     connectTimer := connectTimer c; connectHandler := connectHandler c; probeTimer := probeTimer c; persistTimer :=
     persistTimer c; ackPending := ackPending c; modeSimple := modeSimple c; confirm := confirm c; trafficJam :=
     trafficJam c; dataTimers := dataTimers c; listed := listed c; outcomes := outcomes c; events := v |}.


End ArdpState.
