(* ===== verification/ArdpConn.v ===== *)
(** Model of alljoyn_core/router/ArdpProtocol.cc, second part: headers on the wire,
    the sending side, timers, the state machine of a connection and the interface of
    the protocol, for one connection of a handle.

    Time stands still during an operation and is an argument of it. A violated assert
    is [Undef], and so are an access outside an array, a division by zero and a shift
    by more than the width. Random numbers are arguments. AcceptCb is a parameter; the
    other callbacks only note what they are told. *)
From S2P Require Import Prelude Types Marshal Ardp ArdpState.
Import Ardp ArdpState.

Module ArdpConn.

(** * Constants *)

Definition UDP_MTU : Z := 1472.
Definition ARDP_VERSION_BITS : Z := 0xC0.
Definition ARDP_DISCONNECT_RETRY : Z := 1.
Definition ARDP_DISCONNECT_RETRY_TIMEOUT : Z := 1000.
Definition ARDP_MIN_RTO : Z := 100.
Definition ARDP_MAX_RTO : Z := 64000.
Definition ARDP_MIN_DELAYED_ACK_TIMEOUT : Z := 10.
Definition UDP_HEADER_SIZE : Z := 8.
Definition ARDP_SYN_HEADER_SIZE : Z := 28.
Definition ARDP_NO_TIMEOUT : Z := 0xffffffff.
Definition ARDP_FLAG_SYN : Z := 0x01.
Definition ARDP_FLAG_ACK : Z := 0x02.
Definition ARDP_FLAG_EACK : Z := 0x04.
Definition ARDP_FLAG_RST : Z := 0x08.
Definition ARDP_FLAG_NUL : Z := 0x10.
Definition ARDP_FLAG_VER : Z := 0x40.
Definition ARDP_FLAG_SDM : Z := 0x0001.
Definition ARDP_FLAG_SIMPLE_MODE : Z := 0x0002.

Definition flag_set (v f : Z) : bool := negb (Z.land v f =? 0).

Record ArdpGlobalConfig := {
  connectTimeout : Z; connectRetries : Z; initialDataTimeout : Z; totalDataRetryTimeout : Z; minDataRetries : Z;
  persistInterval : Z; totalAppTimeout : Z; linkTimeout : Z; keepaliveRetries : Z; fastRetransmitAckCounter : Z;
  delayedAckTimeout : Z; timewait : Z
}.

(** * Operations on a connection *)

Definition M (A : Type) : Type := ArdpConnRecord -> res (A * ArdpConnRecord).

Definition ret {A} (a : A) : M A := fun c => Ok (a, c).
Definition mdo {A B} (m : M A) (k : A -> M B) : M B := fun c => let! (a, c) := m c in k a c.
Definition get : M ArdpConnRecord := fun c => Ok (c, c).
Definition modify (f : ArdpConnRecord -> ArdpConnRecord) : M unit := fun c => Ok (tt, f c).
Definition undef {A} : M A := fun _ => Undef.
Definition lift {A} (r : res A) : M A := fun c => let! a := r in Ok (a, c).

Notation "'let*' x ':=' m 'in' k" := (mdo m (fun x => k))
  (at level 10, x pattern, m at level 100, k at level 200) : aj_scope.

Definition when (b : bool) (m : M unit) : M unit := if b then m else ret tt.
Definition check (b : bool) : M unit := if b then ret tt else undef.

(** Change what the receiving side holds. *)
Definition on_rx {A} (f : Rx -> res (A * Rx)) : M A := fun c => let! (a, x) := f (rx c) in Ok (a, with_rx x c).
Definition on_snd (f : ArdpSnd -> ArdpSnd) : M unit := modify (fun c => with_snd (f (snd c)) c).
Definition rcv_of (c : ArdpConnRecord) : ArdpRcv := rcv (rx c).
Definition with_ackTimer (t : ArdpTimer) (c : ArdpConnRecord) : ArdpConnRecord :=
  with_rx {| rcv := rcv (rx c); ackTimer := t; msnext := msnext (rx c); delivered := delivered (rx c) |} c.
Definition with_msnext (ms : Z) (c : ArdpConnRecord) : ArdpConnRecord :=
  with_rx {| rcv := rcv (rx c); ackTimer := ackTimer (rx c); msnext := ms; delivered := delivered (rx c) |} c.
Definition with_rcv_of (r : ArdpRcv) (c : ArdpConnRecord) : ArdpConnRecord := with_rx (with_rcv (rx c) r) c.
Definition with_retry (n : Z) (t : ArdpTimer) : ArdpTimer := {| delta := delta t; when_ := when_ t; retry := n |}.
Definition with_delta (d : Z) (t : ArdpTimer) : ArdpTimer := {| delta := d; when_ := when_ t; retry := retry t |}.
Definition with_when (w : Z) (t : ArdpTimer) : ArdpTimer := {| delta := delta t; when_ := w; retry := retry t |}.
Definition note (e : Event) : M unit := modify (fun c => with_events (events c ++ [e]) c).

(** A write to the socket. *)
Definition SendToSG (bytes : list Z) : M QStatus := fun c =>
  let st := default ER_OK (head (outcomes c)) in
  Ok (st, with_events (events c ++ [Sent bytes st]) (with_outcomes (tail (outcomes c)) c)).

(** * The wire *)

Definition put16 (v : Z) : list Z := [v / 256 mod 256; v mod 256].
Definition put32 (v : Z) : list Z := [v / 2 ^ 24 mod 256; v / 2 ^ 16 mod 256; v / 256 mod 256; v mod 256].
Definition get8 (buf : list Z) (i : Z) : res Z :=
  if i <? 0 then Undef else match buf !! Z.to_nat i with Some b => Ok b | None => Undef end.
Definition get16 (buf : list Z) (i : Z) : res Z := let! a := get8 buf i in let! b := get8 buf (i + 1) in Ok (a * 256 + b).
Definition get32 (buf : list Z) (i : Z) : res Z := let! a := get16 buf i in let! b := get16 buf (i + 2) in Ok (a * 2 ^ 16 + b).

Definition MarshalHeader (h : ArdpHeader) : list Z :=
  [h_flags h; h_hlen h] ++ put16 (h_src h) ++ put16 (h_dst h) ++ put16 (h_dlen h) ++ put32 (h_sq h) ++ put32 (h_ack h) ++
  put32 (h_time h) ++ put32 (h_lcs h) ++ put32 (h_acknxt h) ++ put32 (h_start h) ++ put16 (h_cnt h) ++ put16 0.

(** The words of the mask that follow the header. *)
Definition eack_bytes (c : ArdpConnRecord) : list Z :=
  flat_map put32 (take (Z.to_nat (fixedSz (eack (rcv_of c)) / 4)) (htnMask (eack (rcv_of c)))).
Definition sends_eack (c : ArdpConnRecord) : bool := negb (sz (eack (rcv_of c)) =? 0) && negb (modeSimple c).

(** The flags and the length of the header, and what follows it. *)
Definition eack_header (c : ArdpConnRecord) (h : ArdpHeader) : ArdpHeader * list Z :=
  if sends_eack c then
    (with_h_hlen (Z.shiftr (ARDP_FIXED_HEADER_LEN + fixedSz (eack (rcv_of c))) 1 mod 256) (with_h_flags (Z.lor (h_flags h) ARDP_FLAG_EACK) h),
     eack_bytes c)
  else (with_h_hlen (Z.shiftr ARDP_FIXED_HEADER_LEN 1) h, []).

Definition ack_sent (c : ArdpConnRecord) : ArdpConnRecord := with_ackPending 0 (with_ackTimer (with_retry 0 (ackTimer (rx c))) c).

Definition SendMsgHeader (h : ArdpHeader) : M QStatus :=
  let* c := get in
  let (h, mask) := eack_header c h in
  let* status := SendToSG (MarshalHeader h ++ mask) in
  let* _ := if decide (status = ER_WOULDBLOCK) then modify (with_trafficJam true) else modify ack_sent in
  let* _ := modify (with_confirm false) in
  ret status.

Definition Send (flags seq ack : Z) : M QStatus :=
  let* c := get in
  SendMsgHeader {| h_flags := flags; h_hlen := 0; h_src := local c; h_dst := foreign c; h_dlen := 0; h_sq := seq; h_ack := ack;
                   h_time := 0; h_lcs := LCS (rcv_of c); h_acknxt := UNA (snd c); h_start := 0; h_cnt := 0 |}.

(** The next sequence number in the mode of the connection. *)
Definition next_seq (c : ArdpConnRecord) : Z := if modeSimple c then thinNXT (snd c) else NXT (snd c).
Definition send_now (flags : Z) : M QStatus := let* c := get in Send flags (next_seq c) (CUR (rcv_of c)).

Definition UnmarshalSynSegment (buf : list Z) (seg : ArdpSeg) : M unit :=
  let* options := lift (get16 buf 24) in
  let* src := lift (get16 buf 2) in
  let* segmax := lift (get16 buf 16) in
  let* segbmax := lift (get16 buf 18) in
  let* dackt := lift (get32 buf 20) in
  let* _ := modify (with_modeSimple (flag_set options ARDP_FLAG_SIMPLE_MODE)) in
  let* _ := modify (with_foreign src) in
  let* _ := on_snd (fun s => with_thinWindow segmax (with_thinSEGMAX segmax (with_DACKT dackt (with_SEGBMAX segbmax (with_SEGMAX segmax s))))) in
  let* _ := modify (fun c => with_rcv_of {| CUR := gSEQ seg; IRS := gSEQ seg; LCS := gSEQ seg; rbuf := rbuf (rcv_of c);
                                            eack := eack (rcv_of c); rSEGMAX := rSEGMAX (rcv_of c); rSEGBMAX := rSEGBMAX (rcv_of c) |} c) in
  modify (with_remoteMskSz (Z.shiftr (segmax + 31) 5)).

(** * The buffers of sent segments *)

Definition sbuf_at (i : Z) : M ArdpSndBuf :=
  let* c := get in
  if i <? 0 then undef else match sbuf (snd c) !! Z.to_nat i with Some b => ret b | None => undef end.
Definition set_sbuf (i : Z) (b : ArdpSndBuf) : M unit := on_snd (fun s => with_sbuf (<[Z.to_nat i := b]> (sbuf s)) s).
Definition change_sbuf (i : Z) (f : ArdpSndBuf -> ArdpSndBuf) : M unit := let* b := sbuf_at i in set_sbuf i (f b).
Definition sindex (seq : Z) : M Z := let* c := get in if SEGMAX (snd c) =? 0 then undef else ret (seq mod SEGMAX (snd c)).
Definition snext (i : Z) : M Z := let* c := get in if SEGMAX (snd c) =? 0 then undef else ret ((i + 1) mod SEGMAX (snd c)).

Definition DeList (i : Z) : M unit := modify (fun c => with_dataTimers (filter (fun j => j <> i) (dataTimers c)) c).
Definition EnList (i : Z) : M unit := modify (fun c => with_dataTimers (dataTimers c ++ [i]) c).

(** The do-while of FlushMessage; the length of what is flushed. *)
Fixpoint flush_loop (n : nat) (i len : Z) : M Z :=
  match n with
  | O => ret len
  | S n =>
      let* b := sbuf_at i in
      let* c := get in
      let* _ := when (negb (retry (s_timer b) =? 0)) (let* _ := check (bool_decide (state c <> OPEN)) in DeList i) in
      let* _ := set_sbuf i (with_s_retransmits 0 (with_s_fastRT 0 (with_s_inUse false b))) in
      let* _ := on_snd (fun s => with_pending (w16 (pending s - 1)) s) in
      let* c := get in
      let* _ := check (pending (snd c) <? SEGMAX (snd c)) in
      let* i := snext i in
      flush_loop n i (w32 (len + h_dlen (s_hdr b)))
  end.

Definition FlushMessage (i : Z) (status : QStatus) : M unit :=
  let* b := sbuf_at i in
  let fcnt := h_cnt (s_hdr b) in
  let* len := flush_loop (Z.to_nat (if fcnt =? 0 then 65536 else fcnt)) i 0 in
  note (SendCb (s_data b) len status).

Fixpoint flush_queue (n : nat) (i : Z) (status : QStatus) : M unit :=
  match n with
  | O => ret tt
  | S n =>
      let* b := sbuf_at i in
      let* _ := when (s_inUse b && (h_sq (s_hdr b) =? h_start (s_hdr b))) (FlushMessage i status) in
      let* i := snext i in
      flush_queue n i status
  end.

Definition FlushSendQueue (status : QStatus) : M unit :=
  let* c := get in
  let* i := sindex (w32 (sLCS (snd c) + 1)) in
  flush_queue (Z.to_nat (SEGMAX (snd c))) i status.

Definition IsRcvQueueEmpty (c : ArdpConnRecord) : bool := forallb (fun b => negb (is_delivered b)) (rbuf (rcv_of c)).

Definition DelConnRecord (forced : bool) : M unit :=
  let* c := get in
  if negb forced && bool_decide (state c <> CLOSED) && bool_decide (state c <> CLOSE_WAIT) then undef
  else modify (with_listed false).

Definition SetState (s : ArdpState) : M unit := modify (with_state s).

(** A loop of [n] turns that ends early with a result. *)
Fixpoint loop_pos {S R} (p : positive) (f : S -> M (S + R)) (s : S) : M (S + R) :=
  match p with
  | xH => f s
  | xO p => let* r := loop_pos p f s in match r with inl s => loop_pos p f s | inr _ => ret r end
  | xI p =>
      let* r := f s in
      match r with
      | inr _ => ret r
      | inl s => let* r := loop_pos p f s in match r with inl s => loop_pos p f s | inr _ => ret r end
      end
  end.
Definition loop_times {S R} (n : Z) (f : S -> M (S + R)) (s : S) : M (S + R) :=
  match n with Zpos p => loop_pos p f s | _ => ret (inl s) end.

Section Protocol.
Context (cfg : ArdpGlobalConfig) (now : Z).

(** * Timers *)

Definition timer_in (timeout n : Z) : ArdpTimer := {| delta := timeout; when_ := w32 (now + timeout); retry := w16 n |}.

(** The time of the next call, after a timer was set. *)
Definition call_back (timeout n : Z) : M unit :=
  let* c := get in when (negb (w16 n =? 0) && (timeout <? msnext (rx c))) (modify (with_msnext timeout)).

Definition set_ackTimer (timeout n : Z) : M unit :=
  let* _ := modify (with_ackTimer (timer_in timeout n)) in call_back timeout n.
Definition set_persistTimer (timeout n : Z) : M unit :=
  let* _ := modify (with_persistTimer (timer_in timeout n)) in call_back timeout n.
Definition set_probeTimer (timeout n : Z) : M unit :=
  let* _ := modify (with_probeTimer (timer_in timeout n)) in call_back timeout n.
Definition set_connectTimer (timeout n : Z) : M unit :=
  let* _ := modify (with_connectTimer (timer_in timeout n)) in call_back timeout n.
Definition set_dataTimer (i timeout n : Z) : M unit :=
  let* _ := change_sbuf i (with_s_timer (timer_in timeout n)) in call_back timeout n.

(** UpdateTimer of an acknowledgement that is not scheduled yet. *)
Definition schedule_ack_in (timeout : Z) : M unit :=
  let* c := get in when (retry (ackTimer (rx c)) =? 0) (set_ackTimer timeout 1).

(** * Closing *)

Definition flush_pending : M unit :=
  let* c := get in when (negb (pending (snd c) =? 0)) (FlushSendQueue ER_ARDP_DISCONNECTING).

Definition Disconnect (reason : QStatus) : M QStatus :=
  let* c := get in
  if bool_decide (state c = CLOSE_WAIT) || bool_decide (state c = CLOSED) then ret ER_OK
  else if negb (listed c) then ret ER_ARDP_INVALID_CONNECTION
  else
    let* _ := SetState CLOSE_WAIT in
    let* status := if decide (reason = ER_ARDP_REMOTE_CONNECTION_RESET) then ret ER_OK
                   else send_now (Z.lor ARDP_FLAG_RST ARDP_FLAG_VER) in
    let* timeout := if decide (reason = ER_OK) then ret 0
                    else let* _ := flush_pending in let* _ := note (DisconnectCb reason) in ret (timewait cfg) in
    let* _ := modify (with_connectHandler (Some reason)) in
    let* _ := set_connectTimer timeout ARDP_DISCONNECT_RETRY in
    ret status.

Definition DisconnectTimerHandler (reason : QStatus) : M unit :=
  let* _ := SetState CLOSED in
  let* _ := when (bool_decide (reason = ER_OK))
              (let* _ := flush_pending in
               let* _ := note (DisconnectCb reason) in
               modify (with_connectHandler (Some ER_ARDP_INVALID_CONNECTION))) in
  let* c := get in
  if IsRcvQueueEmpty c then DelConnRecord false
  else set_connectTimer ARDP_DISCONNECT_RETRY_TIMEOUT ARDP_DISCONNECT_RETRY.

(** * Opening *)

Definition MarshalSynHeader (flags hlen src dst dlen seq ack segmax segbmax dackt options : Z) : list Z :=
  [flags; hlen] ++ put16 src ++ put16 dst ++ put16 dlen ++ put32 seq ++ put32 ack ++ put16 segmax ++ put16 segbmax ++
  put32 dackt ++ put16 options ++ put16 0.

Definition DoSendSyn : M QStatus :=
  let* c := get in
  let flags := Z.lor ARDP_FLAG_SYN ARDP_FLAG_VER in
  let flags := if passive c then Z.lor flags ARDP_FLAG_ACK else flags in
  let data := default [] (synData c) in
  SendToSG (MarshalSynHeader flags (Z.shiftr ARDP_SYN_HEADER_SIZE 1) (local c) (foreign c) (zlen data) (ISS (snd c)) (CUR (rcv_of c))
              (rSEGMAX (rcv_of c)) (rSEGBMAX (rcv_of c)) (delayedAckTimeout cfg) ARDP_FLAG_SDM ++ data).

Definition SendSyn (buf : list Z) : M QStatus :=
  let* _ := modify (with_synData (Some buf)) in
  let* status := DoSendSyn in
  let status := if decide (status = ER_WOULDBLOCK) then ER_OK else status in
  let* _ := when (bool_decide (status = ER_OK))
              (let* _ := modify (with_connectHandler None) in set_connectTimer (connectTimeout cfg) (connectRetries cfg + 1)) in
  ret status.

Definition on_connectTimer (f : ArdpTimer -> ArdpTimer) : M unit := modify (fun c => with_connectTimer (f (connectTimer c)) c).

Definition ConnectTimerHandler : M unit :=
  let* c := get in
  let* status :=
    if 1 <? retry (connectTimer c) then
      let* status := DoSendSyn in
      if decide (status = ER_WOULDBLOCK) then
        let* _ := on_connectTimer (with_delta (Z.shiftr (connectTimeout cfg) 2)) in ret ER_OK
      else if decide (status = ER_OK) then
        let* _ := on_connectTimer (with_delta (connectTimeout cfg)) in ret ER_OK
      else ret status
    else ret ER_TIMEOUT in
  if decide (status = ER_OK) then on_connectTimer (fun t => with_retry (w32 (retry t - 1)) t)
  else
    let* _ := SetState CLOSED in
    let* c := get in
    let* _ := note (ConnectCb (passive c) [] status) in
    let* _ := send_now (Z.lor ARDP_FLAG_RST ARDP_FLAG_VER) in
    on_connectTimer (with_retry 0).

Definition AckTimerHandler : M unit :=
  let* status := send_now (Z.lor ARDP_FLAG_ACK ARDP_FLAG_VER) in
  when (bool_decide (status = ER_WOULDBLOCK)) (modify (fun c => with_ackTimer (with_delta 0 (ackTimer (rx c))) c)).

(** * Sending *)

(** Mark [n] buffers from [i] on as expired. *)
Fixpoint expire_chain (n : nat) (i : Z) : M unit :=
  match n with
  | O => ret tt
  | S n =>
      let* _ := change_sbuf i (fun b => with_s_ttl ARDP_TTL_EXPIRED (with_s_timer (with_retry 0 (s_timer b)) b)) in
      let* i := snext i in
      expire_chain n i
  end.

Definition ExpireMessageSnd (i : Z) : M unit :=
  let* b := sbuf_at i in
  let som := h_start (s_hdr b) in
  let fcnt := h_cnt (s_hdr b) in
  let* start := sindex som in
  let* _ := expire_chain (Z.to_nat (if fcnt =? 0 then 65536 else fcnt)) start in
  let* c := get in
  when (SEQ32_LET som (UNA (snd c)) && SEQ32_LT (UNA (snd c)) (som + fcnt))
    (let* _ := on_snd (with_UNA (w32 (som + fcnt))) in
     let* _ := when (modeSimple c && SEQ32_LT (thinNXT (snd c)) (som + fcnt)) (on_snd (with_thinNXT (w32 (som + fcnt)))) in
     schedule_ack_in ARDP_MIN_DELAYED_ACK_TIMEOUT).

Definition SendMsgData (i ttl : Z) : M QStatus :=
  let* c := get in
  let* b := sbuf_at i in
  let h := with_h_time ttl (with_h_flags (Z.lor ARDP_FLAG_ACK ARDP_FLAG_VER) (with_h_acknxt (UNA (snd c))
             (with_h_lcs (LCS (rcv_of c)) (with_h_ack (CUR (rcv_of c)) (s_hdr b))))) in
  let (h, mask) := eack_header c h in
  let* _ := set_sbuf i (with_s_hdr h b) in
  let* status := SendToSG (MarshalHeader h ++ mask ++ take (Z.to_nat (s_datalen b)) (s_data b)) in
  let* _ := if decide (status = ER_OK) then modify (fun c => with_trafficJam false (ack_sent c))
            else when (bool_decide (status = ER_WOULDBLOCK)) (modify (with_trafficJam true)) in
  let* _ := modify (with_confirm false) in
  ret status.

(** The 32-bit integer of a difference. *)
Definition int32 (v : Z) : Z := let u := w32 v in if u <? 2 ^ 31 then u else u - 2 ^ 32.

Definition AdjustRTT (b : ArdpSndBuf) : M unit :=
  let units := w16 (w32 (s_datalen b + UDP_MTU - 1) / UDP_MTU) in
  let rtt := w32 (now - s_tStart b) in
  let* _ := check (negb (units =? 0)) in
  let rttUnit := rtt / units in
  let* _ := modify (fun c => if rttInit c then c else with_rttInit true (with_rttMeanVar (Z.shiftr rtt 1) (with_rttMean rtt c))) in
  let* c := get in
  let err := Z.abs (int32 (rtt - rttMean c)) in
  let mean := Z.shiftr (w32 (7 * rttMean c + rtt)) 3 in
  let var := if mean <=? w32 (rtt + rttMeanVar c) then Z.shiftr (w32 (rttMeanVar c * 3 + err)) 2
             else Z.shiftr (w32 (rttMeanVar c * 31 + err)) 5 in
  modify (fun c => with_backoff 0 (with_rttMeanUnit (Z.shiftr (w32 (7 * rttMeanUnit c + rttUnit)) 3) (with_rttMeanVar var (with_rttMean mean c)))).

Definition GetRTO (c : ArdpConnRecord) : res Z :=
  if 32 <=? backoff c then Undef
  else
    let ms := w32 (Z.shiftl (Z.max ARDP_MIN_RTO (w32 (rttMean c + 4 * rttMeanVar c))) (backoff c)) in
    let ms := if ms <? DACKT (snd c) then w32 (ms + Z.shiftr (DACKT (snd c)) 1) else ms in
    Ok (Z.min ms ARDP_MAX_RTO).

Definition GetDataTimeout (c : ArdpConnRecord) : res Z :=
  if rttInit c then
    (* the product of the two numbers of 16 bits is an int *)
    let p := SEGMAX (snd c) * SEGBMAX (snd c) in
    if 2 ^ 31 <=? p then Undef
    else Ok (Z.max (totalDataRetryTimeout cfg) (w32 (p * Z.shiftr (rttMean c) 1) / UDP_MTU))
  else Ok (totalDataRetryTimeout cfg).

Definition IsValidRetransmit (c : ArdpConnRecord) (b : ArdpSndBuf) : bool :=
  if negb (modeSimple c) then true
  else
    let seq := h_sq (s_hdr b) in
    if (thinWindow (snd c) =? 0) && SEQ32_LET (thinNXT (snd c)) seq then false
    else negb (thinWindow (snd c) <=? w32 (seq - UNA (snd c))).

Definition on_timer (i : Z) (f : ArdpTimer -> ArdpTimer) : M unit := change_sbuf i (fun b => with_s_timer (f (s_timer b)) b).

Definition retransmit (i ttl : Z) : M unit :=
  let* c := get in
  let* b := sbuf_at i in
  if negb (IsValidRetransmit c b) then ret tt
  else
    let* status := SendMsgData i ttl in
    if decide (status = ER_OK) then
      let* c := get in
      let* b := sbuf_at i in
      let* _ := modify (with_backoff (Z.max (backoff c) (retry (s_timer b)))) in
      let* c := get in
      let* d := if rttInit c then lift (GetRTO c) else ret (initialDataTimeout cfg) in
      let* _ := on_timer i (fun t => with_retry (w32 (retry t + 1)) (with_delta d t)) in
      when (modeSimple c && SEQ32_LET (thinNXT (snd c)) (h_sq (s_hdr b)))
        (let* _ := check (negb (thinWindow (snd c) =? 0)) in
         on_snd (fun s => with_thinNXT (w32 (thinNXT s + 1)) (with_thinWindow (w16 (thinWindow s - 1)) s)))
    else if decide (status = ER_WOULDBLOCK) then on_timer i (with_delta 0)
    else let* _ := on_timer i (with_retry 0) in let* _ := Disconnect status in ret tt.

Definition RetransmitTimerHandler (i : Z) : M unit :=
  let* c := get in
  let* b := sbuf_at i in
  let msElapsed := w32 (now - s_tStart b) in
  let* timeout := lift (GetDataTimeout c) in
  let* _ := check (s_inUse b) in
  let* _ := change_sbuf i (fun b => with_s_retransmits (w16 (s_retransmits b + 1)) b) in
  if (timeout <=? msElapsed) && (minDataRetries cfg <? retry (s_timer b)) then
    let* _ := on_timer i (with_retry 0) in let* _ := Disconnect ER_TIMEOUT in ret tt
  else if negb (s_ttl b =? ARDP_TTL_INFINITE) then
    let wire := Z.min (Z.shiftr (w32 (rttMeanUnit c * w32 (s_datalen b + UDP_MTU - 1)) / UDP_MTU) 1) (Z.shiftr (rttMean c) 1) in
    let msElapsed := if rttInit c then w32 (msElapsed + wire) else msElapsed in
    if s_ttl b <=? msElapsed then ExpireMessageSnd i else retransmit i (w32 (s_ttl b - msElapsed))
  else retransmit i (s_ttl b).

(** One fragment of SendData in the buffer [i]; false when the connection went. *)
Definition send_fragment (i som fcnt segLen ttl ttlSend : Z) (segData : list Z) (sendReady : bool) : M (QStatus * bool) :=
  let* c := get in
  let* _ := check (w32 (NXT (snd c) - UNA (snd c)) <? SEGMAX (snd c)) in
  let* _ := change_sbuf i (fun b =>
              with_s_datalen segLen (with_s_data segData (with_s_tStart now (with_s_ttl ttl
                (with_s_hdr (with_h_sq (NXT (snd c)) (with_h_dlen segLen (with_h_dst (foreign c) (with_h_src (local c)
                   (with_h_cnt fcnt (with_h_start som (s_hdr b))))))) b))))) in
  let sendReady := if modeSimple c && ((thinWindow (snd c) =? 0) || (thinSEGMAX (snd c) <=? w32 (thinNXT (snd c) - UNA (snd c)))
                                       || SEQ32_LT (thinNXT (snd c)) (NXT (snd c))) then false else sendReady in
  let* (status, timeout) :=
    if negb (trafficJam c) && sendReady then
      let* status := SendMsgData i ttlSend in
      let* c := get in
      let* timeout := if rttInit c then lift (GetRTO c) else ret (initialDataTimeout cfg) in
      ret (status, timeout)
    else ret (ER_OK, 0) in
  let* c := get in
  let (status, timeout) := if trafficJam c || negb sendReady then (ER_OK, 0) else (status, timeout) in
  if decide (status = ER_OK) then
    let* _ := change_sbuf i (with_s_inUse true) in
    let* _ := set_dataTimer i timeout 1 in
    let* _ := when sendReady
                (let* _ := modify (fun c => with_persistTimer (with_retry 0 (persistTimer c)) c) in
                 when (modeSimple c) (on_snd (fun s => with_thinNXT (w32 (thinNXT s + 1)) s))) in
    let* _ := EnList i in
    let* _ := on_snd (fun s => with_pending (w16 (pending s + 1)) s) in
    let* c := get in
    let* _ := check (pending (snd c) <=? SEGMAX (snd c)) in
    let* _ := on_snd (fun s => with_NXT (w32 (NXT s + 1)) s) in
    ret (ER_OK, sendReady)
  else let* _ := Disconnect status in ret (status, sendReady).

(** The fragments from the [k]-th on. *)
Fixpoint send_loop (n : nat) (k i som fcnt lastLen ttl ttlSend : Z) (segData : list Z) (sendReady : bool) (status : QStatus) : M QStatus :=
  match n with
  | O => ret status
  | S n =>
      let* c := get in
      let segLen := if k =? fcnt - 1 then w16 lastLen else maxDlen (snd c) in
      let* (status, sendReady) := send_fragment i som fcnt segLen ttl ttlSend segData sendReady in
      if decide (status = ER_OK) then
        let* i := snext i in
        send_loop n (k + 1) i som fcnt lastLen ttl ttlSend (drop (Z.to_nat segLen) segData) sendReady status
      else ret status
  end.

Definition SendData (buf : list Z) (ttl : Z) : M QStatus :=
  let* c := get in
  let len := zlen buf in
  let s := snd c in
  let* i := sindex (NXT s) in
  let* (fcnt, lastLen) :=
    if len <=? maxDlen s then ret (1, len)
    else if maxDlen s =? 0 then undef
    else let fcnt := w16 (w32 (len + (maxDlen s - 1)) / maxDlen s) in ret (fcnt, w32 (len - maxDlen s * (fcnt - 1))) in
  let* _ := check (negb (fcnt =? 0)) in
  if window c <? fcnt then ret ER_ARDP_BACKPRESSURE
  else if SEGMAX s - pending s <? fcnt then ret ER_ARDP_BACKPRESSURE
  else
    let measured := rttInit c && negb (ttl =? ARDP_TTL_INFINITE) in
    let expireThreshold := Z.min (Z.shiftr (w32 (rttMeanUnit c * w32 (len + UDP_MTU - 1)) / UDP_MTU) 1) (Z.shiftr (w32 (rttMean c * fcnt)) 1) in
    if measured && (w32 (ttl + DACKT s) <=? expireThreshold) then ret ER_ARDP_TTL_EXPIRED
    else
      let ttlSend := if measured && (expireThreshold <? ttl) then ttl - expireThreshold else ttl in
      send_loop (Z.to_nat fcnt) 0 i (NXT s) fcnt lastLen ttl ttlSend buf true ER_OK.

(** * Acknowledgements of sent segments *)

(** A turn of UpdateSndSegments over the buffer [i]. *)
Definition update_turn (ack lcs i : Z) : M (Z + QStatus) :=
  let* b := sbuf_at i in
  let seq := h_sq (s_hdr b) in
  let fcnt := h_cnt (s_hdr b) in
  if negb (s_inUse b) || SEQ32_LT ack seq then ret (inr ER_ARDP_INVALID_RESPONSE)
  else
    let* _ := DeList i in
    let* _ := on_timer i (with_retry 0) in
    let* _ := when (SEQ32_LET seq lcs && (seq =? w32 (h_start (s_hdr b) + (fcnt - 1))))
                (let* start := sindex (h_start (s_hdr b)) in
                 FlushMessage start (if s_ttl b =? ARDP_TTL_EXPIRED then ER_ARDP_TTL_EXPIRED else ER_OK)) in
    let* i := snext i in
    ret (inl i).

(** The while over expired segments; whether there was one. When all the buffers
    are in use and expired the loop has no end, which is [Undef] here. *)
Fixpoint skip_expired (fuel : nat) (i : Z) (needUpdate : bool) : M bool :=
  match fuel with
  | O => undef
  | S fuel =>
      let* b := sbuf_at i in
      if s_inUse b && (s_ttl b =? ARDP_TTL_EXPIRED) then
        let* _ := on_snd (with_UNA (w32 (h_sq (s_hdr b) + 1))) in
        let* i := snext i in
        skip_expired fuel i true
      else ret needUpdate
  end.

Definition UpdateSndSegments (ack lcs : Z) : M QStatus :=
  let* i := sindex ack in
  let* c := get in
  if pending (snd c) =? 0 then let* _ := on_snd (with_sLCS lcs) in ret ER_OK
  else
    let* b := sbuf_at i in
    let* _ := when ((s_retransmits b =? 0) && negb (retry (s_timer b) =? 0)) (AdjustRTT b) in
    let* i := sindex (w32 (sLCS (snd c) + 1)) in
    let* r := loop_times (w32 (ack - sLCS (snd c))) (update_turn ack lcs) i in
    match r with
    | inr status => ret status
    | inl i =>
        let* needUpdate := skip_expired (S (Z.to_nat (SEGMAX (snd c)))) i false in
        let* c := get in
        let* _ := when (modeSimple c && SEQ32_LT (thinNXT (snd c)) (UNA (snd c))) (on_snd (fun s => with_thinNXT (UNA s) s)) in
        let* _ := when needUpdate (schedule_ack_in ARDP_MIN_DELAYED_ACK_TIMEOUT) in
        let* _ := on_snd (with_sLCS lcs) in
        ret ER_OK
    end.

Definition FastRetransmit (i : Z) : M unit :=
  change_sbuf i (fun b =>
    with_s_fastRT (w16 (s_fastRT b + 1))
      (if (s_fastRT b =? fastRetransmitAckCounter cfg) && (s_retransmits b =? 0) then with_s_timer (with_when now (s_timer b)) b else b)).

(** The bits of a word of the mask, from the first; [w] is the number of the word. *)
Fixpoint cancel_word (fuel : nat) (w mask32 i : Z) : M unit :=
  match fuel with
  | O => ret tt
  | S fuel =>
      if mask32 =? 0 then ret tt
      else
        let* b := sbuf_at i in
        let* _ := if Z.testbit mask32 31 then
                    when (negb (retry (s_timer b) =? 0)) (let* _ := DeList i in on_timer i (with_retry 0))
                  else when (w <? 1) (FastRetransmit i) in
        let* i := snext i in
        cancel_word fuel w (w32 (Z.shiftl mask32 1)) i
  end.

Fixpoint cancel_words (n : nat) (w start : Z) (bitMask : list Z) : M unit :=
  match n with
  | O => ret tt
  | S n =>
      let* mask32 := lift (get32 bitMask (4 * w)) in
      let* i := sindex (w32 (start + w * 32)) in
      let* _ := cancel_word 32 w mask32 i in
      cancel_words n (w + 1) start bitMask
  end.

Definition CancelEackedSegments (ack : Z) (bitMask : list Z) : M unit :=
  let start := w32 (ack + 1) in
  let* i := sindex start in
  let* _ := FastRetransmit i in
  let* c := get in
  cancel_words (Z.to_nat (remoteMskSz c)) 0 (w32 (start + 1)) bitMask.

(** * Timers of an open connection *)

Definition IsDataRetransmitScheduled (c : ArdpConnRecord) : bool :=
  negb (w32 (UNA (snd c) + 1) =? NXT (snd c)) && negb (UNA (snd c) =? NXT (snd c)).

Definition probe_flags : Z := Z.lor (Z.lor ARDP_FLAG_ACK ARDP_FLAG_VER) ARDP_FLAG_NUL.

Definition PersistTimerHandler : M unit :=
  let* c := get in
  when ((window c <? SEGMAX (snd c)) && negb (IsDataRetransmitScheduled c))
    (if 1 <? retry (persistTimer c) then
       let* status := send_now probe_flags in
       when (bool_decide (status = ER_OK)) (modify (fun c => with_persistTimer (with_retry (retry (persistTimer c) - 1) (persistTimer c)) c))
     else let* _ := Disconnect ER_ARDP_PERSIST_TIMEOUT in ret tt).

Definition ProbeTimerHandler : M unit :=
  let* c := get in
  let elapsed := w32 (now - lastSeen c) in
  let* _ := when (negb (IsDataRetransmitScheduled c)) (modify (with_rttInit false)) in
  when ((delta (probeTimer c) <? elapsed) || (linkTimeout cfg <=? elapsed))
    (if retry (probeTimer c) =? 0 then let* _ := Disconnect ER_ARDP_PROBE_TIMEOUT in ret tt
     else
       let* status := send_now probe_flags in
       if decide (status = ER_OK) then modify (fun c => with_probeTimer (with_retry (retry (probeTimer c) - 1) (probeTimer c)) c)
       else if decide (status = ER_WOULDBLOCK) then ret tt
       else let* _ := Disconnect ER_FAIL in ret tt).

(** The timers of the connection; the time of the next one. *)
Definition CheckConnTimers (next : Z) : M Z :=
  let* c := get in
  if negb (retry (connectTimer c) =? 0) then
    if when_ (connectTimer c) <=? now then
      let* _ := match connectHandler c with Some reason => DisconnectTimerHandler reason | None => ConnectTimerHandler end in
      let* c := get in
      if listed c then
        let* _ := on_connectTimer (fun t => with_when (w32 (now + delta t)) t) in
        let* c := get in
        ret (if (when_ (connectTimer c) <? next) && negb (retry (connectTimer c) =? 0) then when_ (connectTimer c) else next)
      else ret next
    else ret next
  else if bool_decide (state c <> OPEN) then ret next
  else
    let* _ := when (when_ (probeTimer c) <=? now)
                (let* _ := ProbeTimerHandler in
                 modify (fun c => with_probeTimer (with_when (w32 (now + delta (probeTimer c))) (probeTimer c)) c)) in
    let* c := get in
    let next := if when_ (probeTimer c) <? next then when_ (probeTimer c) else next in
    let* _ := when (negb (retry (ackTimer (rx c)) =? 0) && (when_ (ackTimer (rx c)) <=? now)) AckTimerHandler in
    let* c := get in
    let next := if (when_ (ackTimer (rx c)) <? next) && negb (retry (ackTimer (rx c)) =? 0) then when_ (ackTimer (rx c)) else next in
    let* _ := when (negb (retry (persistTimer c) =? 0) && (when_ (persistTimer c) <=? now))
                (let* _ := PersistTimerHandler in
                 modify (fun c => with_persistTimer (with_when (w32 (now + delta (persistTimer c))) (persistTimer c)) c)) in
    let* c := get in
    ret (if (when_ (persistTimer c) <? next) && negb (retry (persistTimer c) =? 0) then when_ (persistTimer c) else next).

(** The retransmit timers in the order of their list. A handler changes the list only
    when it ends the loop. *)
Fixpoint check_data_timers (l : list Z) (nextTime : Z) : M Z :=
  match l with
  | [] => ret nextTime
  | i :: l =>
      let* b := sbuf_at i in
      let* _ := when ((when_ (s_timer b) <=? now) && (0 <? retry (s_timer b)))
                  (let* _ := RetransmitTimerHandler i in on_timer i (fun t => with_when (w32 (now + delta t)) t)) in
      let* b := sbuf_at i in
      let* c := get in
      if retry (s_timer b) =? 0 then let* _ := DeList i in ret nextTime
      else
        let nextTime := if (when_ (s_timer b) <? nextTime) && IsValidRetransmit c b then when_ (s_timer b) else nextTime in
        if trafficJam c then ret nextTime else check_data_timers l nextTime
  end.

Definition CheckTimers : M Z :=
  let* c := get in
  if negb (listed c) then ret ARDP_NO_TIMEOUT
  else
    let* nextTime := CheckConnTimers ARDP_NO_TIMEOUT in
    let* c := get in
    let* nextTime := if trafficJam c then ret nextTime else check_data_timers (dataTimers c) nextTime in
    ret (if nextTime =? ARDP_NO_TIMEOUT then ARDP_NO_TIMEOUT else w32 (nextTime - now)).

(** * The state machine *)

Definition CheckConfigValid (segmax segbmax window : Z) (isSimpleMode : bool) : bool :=
  let ackMaskSize := if isSimpleMode then 0 else Z.shiftr (window + 31) 5 in
  let hlen := (ARDP_FIXED_HEADER_LEN + ackMaskSize * 4) mod 256 in
  let maxPayload := w32 (segbmax - (UDP_HEADER_SIZE + hlen)) in
  if ARDP_MAX_WINDOW_SIZE <? segmax then false
  else if segbmax <=? UDP_HEADER_SIZE + hlen then false
  else negb (w32 (maxPayload * segmax) <? ALLJOYN_MAX_PACKET_LEN).

Definition blank_header : ArdpHeader :=
  {| h_flags := 0; h_hlen := 0; h_src := 0; h_dst := 0; h_dlen := 0; h_sq := 0; h_ack := 0; h_time := 0; h_lcs := 0; h_acknxt := 0;
     h_start := 0; h_cnt := 0 |}.
Definition blank_sbuf : ArdpSndBuf :=
  {| s_data := []; s_datalen := 0; s_hdr := blank_header; s_ttl := 0; s_tStart := 0; s_timer := timer_in (initialDataTimeout cfg) 0;
     s_fastRT := 0; s_retransmits := 0; s_inUse := false |}.

Definition InitSnd : M QStatus :=
  let* c := get in
  let ackMaskSize := Z.shiftr (rSEGMAX (rcv_of c) + 31) 5 in
  let hlen := (ARDP_FIXED_HEADER_LEN + ackMaskSize * 4) mod 256 in
  let e := eack (rcv_of c) in
  let* _ := modify (fun c => with_rcv_of (with_eack (rcv_of c) {| mask := mask e; htnMask := htnMask e; sz := sz e; fixedSz := w16 (ackMaskSize * 4) |}) c) in
  let maxDlen := w16 (SEGBMAX (snd c) - (UDP_HEADER_SIZE + hlen)) in
  let* _ := on_snd (with_maxDlen maxDlen) in
  let* _ := when (modeSimple c)
              (let* _ := check (negb (maxDlen =? 0)) in
               on_snd (with_SEGMAX (w16 ((ALLJOYN_MAX_PACKET_LEN + maxDlen - 1) / maxDlen)))) in
  let* c := get in
  if negb (CheckConfigValid (SEGMAX (snd c)) (SEGBMAX (snd c)) (rSEGMAX (rcv_of c)) (modeSimple c)) then ret ER_FAIL
  else
    let* _ := modify (with_window (SEGMAX (snd c))) in
    let* _ := on_snd (with_sbuf (replicate (Z.to_nat (SEGMAX (snd c))) blank_sbuf)) in
    ret ER_OK.

(** The timers of a connection that opens, and its receiving side. *)
Definition open_connection (seg : ArdpSeg) : M unit :=
  let* _ := on_snd (with_UNA (w32 (gACK seg + 1))) in
  let* _ := modify (fun c => with_rcv_of (PostInitRcv (rcv_of c)) c) in
  let* _ := SetState OPEN in
  let* _ := on_connectTimer (with_retry 0) in
  let* _ := modify (with_lastSeen now) in
  let* _ := check (negb (keepaliveRetries cfg =? 0)) in
  let* _ := set_probeTimer (linkTimeout cfg / keepaliveRetries cfg) (keepaliveRetries cfg) in
  let* _ := set_persistTimer (persistInterval cfg) 0 in
  set_ackTimer (delayedAckTimeout cfg) 0.

Definition machine_CLOSED (seg : ArdpSeg) : M unit :=
  if flag_set (gFLG seg) ARDP_FLAG_RST then ret tt
  else if flag_set (gFLG seg) ARDP_FLAG_ACK || flag_set (gFLG seg) ARDP_FLAG_NUL then
    let* _ := Send (Z.lor ARDP_FLAG_RST ARDP_FLAG_VER) (w32 (gACK seg + 1)) 0 in ret tt
  else let* _ := Send (Z.lor (Z.lor ARDP_FLAG_RST ARDP_FLAG_ACK) ARDP_FLAG_VER) 0 (gSEQ seg) in ret tt.

(** What follows the SYN header of a segment. *)
Definition syn_payload (buf : list Z) (seg : ArdpSeg) : list Z := take (Z.to_nat (gDLEN seg)) (drop (Z.to_nat ARDP_SYN_HEADER_SIZE) buf).

Definition machine_LISTEN (AcceptCb : list Z -> M bool) (seg : ArdpSeg) (buf : list Z) : M unit :=
  if flag_set (gFLG seg) ARDP_FLAG_RST then ret tt
  else if flag_set (gFLG seg) ARDP_FLAG_ACK || flag_set (gFLG seg) ARDP_FLAG_NUL then
    let* _ := Send (Z.lor ARDP_FLAG_RST ARDP_FLAG_VER) (w32 (gACK seg + 1)) 0 in
    let* _ := Disconnect ER_ARDP_INVALID_RESPONSE in ret tt
  else if flag_set (gFLG seg) ARDP_FLAG_SYN then
    let* _ := UnmarshalSynSegment buf seg in
    let* accepted := AcceptCb (syn_payload buf seg) in
    when (negb accepted)
      (let* _ := Send (Z.lor ARDP_FLAG_RST ARDP_FLAG_VER) (w32 (gACK seg + 1)) (gSEQ seg) in
       let* _ := SetState CLOSED in
       DelConnRecord false)
  else ret tt.

Definition machine_SYN_SENT (seg : ArdpSeg) (buf : list Z) : M unit :=
  let* status :=
    if flag_set (gFLG seg) ARDP_FLAG_RST then ret ER_ARDP_REMOTE_CONNECTION_RESET
    else if flag_set (gFLG seg) ARDP_FLAG_SYN && flag_set (gFLG seg) ARDP_FLAG_ACK then
      let* _ := UnmarshalSynSegment buf seg in
      let* status := InitSnd in
      let* _ := check (bool_decide (status = ER_OK)) in
      let* _ := modify (with_confirm true) in
      let* c := get in
      if negb (Z.land (gFLG seg) ARDP_VERSION_BITS =? ARDP_FLAG_VER) then ret ER_ARDP_VERSION_NOT_SUPPORTED
      else if negb (gACK seg =? ISS (snd c)) then ret ER_ARDP_INVALID_RESPONSE
      else
        let* _ := open_connection seg in
        let* c := get in
        let* status := Send (Z.lor ARDP_FLAG_ACK ARDP_FLAG_VER) (NXT (snd c)) (CUR (rcv_of c)) in
        let* _ := when (bool_decide (status = ER_OK))
                    (let* _ := check (negb (passive c)) in
                     let* _ := note (ConnectCb false (syn_payload buf seg) ER_OK) in
                     modify (with_synData None)) in
        ret status
    else ret ER_OK in
  when (bool_decide (status <> ER_OK) && bool_decide (status <> ER_WOULDBLOCK))
    (let* _ := SetState CLOSED in
     let* _ := on_connectTimer (with_retry 0) in
     note (ConnectCb false [] status)).

Definition machine_SYN_RCVD (seg : ArdpSeg) (buf : list Z) : M unit :=
  let* c := get in
  if flag_set (gFLG seg) ARDP_FLAG_RST then let* _ := Disconnect ER_ARDP_REMOTE_CONNECTION_RESET in ret tt
  else if negb (IN_RANGE (w32 (CUR (rcv_of c) + 1)) (rSEGMAX (rcv_of c)) (gSEQ seg)) then
    let* _ := Send (Z.lor ARDP_FLAG_ACK ARDP_FLAG_VER) (NXT (snd c)) (CUR (rcv_of c)) in ret tt
  else if flag_set (gFLG seg) ARDP_FLAG_SYN then let* _ := Disconnect ER_ARDP_INVALID_RESPONSE in ret tt
  else if flag_set (gFLG seg) ARDP_FLAG_EACK then let* _ := Disconnect ER_ARDP_INVALID_RESPONSE in ret tt
  else if flag_set (gFLG seg) ARDP_FLAG_ACK then
    let* _ := modify (with_confirm true) in
    if gACK seg =? ISS (snd c) then
      let* _ := open_connection seg in
      let* c := get in
      let* _ := when (flag_set (gFLG seg) ARDP_FLAG_NUL)
                  (let* _ := Send (Z.lor ARDP_FLAG_ACK ARDP_FLAG_VER) (NXT (snd c)) (CUR (rcv_of c)) in ret tt) in
      let* _ := check (passive c) in
      let* _ := note (ConnectCb true (syn_payload buf seg) ER_OK) in
      modify (with_synData None)
    else let* _ := Disconnect ER_ARDP_INVALID_RESPONSE in ret tt
  else ret tt.

(** The acknowledgement of a segment; the status that ends the connection. *)
Definition take_ack (seg : ArdpSeg) (buf : list Z) : M QStatus :=
  if negb (flag_set (gFLG seg) ARDP_FLAG_ACK) then ret ER_OK
  else
    let* _ := modify (with_confirm true) in
    let* c := get in
    let needUpdate := IN_RANGE (UNA (snd c)) (w32 (NXT (snd c) - UNA (snd c) + 1)) (gACK seg) || negb (sLCS (snd c) =? gLCS seg) in
    let* _ := when needUpdate (on_snd (with_UNA (w32 (gACK seg + 1)))) in
    let* _ := when (flag_set (gFLG seg) ARDP_FLAG_EACK) (CancelEackedSegments (gACK seg) (drop (Z.to_nat ARDP_FIXED_HEADER_LEN) buf)) in
    if needUpdate then UpdateSndSegments (gACK seg) (gLCS seg) else ret ER_OK.

Definition segment_data (seg : ArdpSeg) (buf : list Z) : Segment :=
  {| SEQ := gSEQ seg; SOM := gSOM seg; FCNT := gFCNT seg; TTL := gTTL seg;
     payload := take (Z.to_nat (gDLEN seg)) (drop (Z.to_nat (gHLEN seg * 2)) buf) |}.

(** The data of a segment; the status that ends the connection. *)
Definition take_data (seg : ArdpSeg) (buf : list Z) (isDuplicate : bool) : M QStatus :=
  let* status := on_rx (fun x => receive_data now (delayedAckTimeout cfg) x (segment_data seg buf) isDuplicate) in
  if decide (status = ER_OK) then
    let* _ := modify (fun c => with_ackPending (w32 (ackPending c + 1)) c) in
    let* c := get in
    let* _ := if retry (ackTimer (rx c)) =? 0 then set_ackTimer (delayedAckTimeout cfg) 1
              else when (Z.shiftr (rSEGMAX (rcv_of c)) 2 <=? ackPending c) AckTimerHandler in
    ret ER_OK
  else ret status.

(** The persist timer and the window, after a segment. *)
Definition take_window (seg : ArdpSeg) : M unit :=
  let* c := get in
  let* _ :=
    if negb (IsDataRetransmitScheduled c) && (gWINDOW seg <? SEGMAX (snd c)) && (retry (persistTimer c) =? 0) then
      let* _ := check (negb (persistInterval cfg =? 0)) in
      set_persistTimer (persistInterval cfg) (totalAppTimeout cfg / persistInterval cfg + 1)
    else when (negb (retry (persistTimer c) =? 0) && ((SEGMAX (snd c) <=? gWINDOW seg) || IsDataRetransmitScheduled c))
           (modify (fun c => with_persistTimer (with_retry 0 (persistTimer c)) c)) in
  when (negb (window c =? gWINDOW seg))
    (let* _ := modify (with_window (gWINDOW seg)) in
     note (SendWindowCb (gWINDOW seg) (if gWINDOW seg =? 0 then ER_ARDP_BACKPRESSURE else ER_OK))).

Definition machine_OPEN (seg : ArdpSeg) (buf : list Z) : M unit :=
  let* c := get in
  if flag_set (gFLG seg) ARDP_FLAG_RST then let* _ := Disconnect ER_ARDP_REMOTE_CONNECTION_RESET in ret tt
  else
    match segment_range (rcv_of c) (gSEQ seg) (gDLEN seg) with
    | None => let* _ := Disconnect ER_ARDP_INVALID_RESPONSE in ret tt
    | Some isDuplicate =>
        if flag_set (gFLG seg) ARDP_FLAG_SYN then
          if isDuplicate && negb (passive c) && flag_set (gFLG seg) ARDP_FLAG_ACK && (gACK seg =? ISS (snd c)) then
            let* _ := send_now (Z.lor ARDP_FLAG_ACK ARDP_FLAG_VER) in ret tt
          else let* _ := Disconnect ER_ARDP_INVALID_RESPONSE in ret tt
        else
          let* _ := when (SEQ32_LT (CUR (rcv_of c) + 1) (gACKNXT seg))
                      (on_rx (fun x => let! x := FlushExpiredRcvMessages now (delayedAckTimeout cfg) x (gACKNXT seg) in Ok (tt, x))) in
          let* status := take_ack seg buf in
          if decide (status = ER_OK) then
            let* status :=
              if flag_set (gFLG seg) ARDP_FLAG_NUL then
                let* status := send_now (Z.lor ARDP_FLAG_ACK ARDP_FLAG_VER) in
                let* _ := when (bool_decide (status = ER_WOULDBLOCK)) (set_ackTimer 0 1) in ret ER_OK
              else if negb (gDLEN seg =? 0) then take_data seg buf isDuplicate
              else ret ER_OK in
            if decide (status = ER_OK) then take_window seg else let* _ := Disconnect status in ret tt
          else let* _ := Disconnect status in ret tt
    end.

Definition ArdpMachine (AcceptCb : list Z -> M bool) (seg : ArdpSeg) (buf : list Z) : M unit :=
  let* c := get in
  match state c with
  | CLOSED => machine_CLOSED seg
  | LISTEN => machine_LISTEN AcceptCb seg buf
  | SYN_SENT => machine_SYN_SENT seg buf
  | SYN_RCVD => machine_SYN_RCVD seg buf
  | OPEN => machine_OPEN seg buf
  | CLOSE_WAIT => ret tt
  end.

(** * Datagrams *)

Definition bare_segment (flg hlen : Z) : ArdpSeg :=
  {| gSEQ := 0; gACK := 0; gLCS := 0; gACKNXT := 0; gSOM := 0; gTTL := 0; gFCNT := 0; gDLEN := 0; gWINDOW := 0; gFLG := flg; gHLEN := hlen |}.

(** The checks of a segment that is not a SYN. *)
Definition segment_valid (c : ArdpConnRecord) (seg : ArdpSeg) : bool :=
  let m := rSEGMAX (rcv_of c) in
  negb (SEQ32_LT (NXT (snd c)) (gACK seg)) && negb (SEQ32_LT (gACK seg) (gLCS seg)) &&
  negb ((m <? w32 (gSEQ seg - gACKNXT seg)) || SEQ32_LT (gSEQ seg) (gACKNXT seg) ||
        (negb (gDLEN seg =? 0) && (w32 (gSEQ seg - gACKNXT seg) =? m))) &&
  ((gDLEN seg =? 0) || negb ((gFCNT seg =? 0) || (m <? gFCNT seg) || (gFCNT seg <=? w32 (gSEQ seg - gSOM seg)))).

(** The window of the receiver in simple mode. *)
Definition thin_window (s : ArdpSnd) (lcs : Z) : Z :=
  let d := w32 (thinNXT s - (lcs + 1)) in if d <? thinSEGMAX s then thinSEGMAX s - d else 0.

(** The fields of a SYN, and of any other segment. *)
Definition read_syn (rxbuf : list Z) (flg hlen dlen : Z) : res ArdpSeg :=
  let! seq := get32 rxbuf 8 in
  let! ack := get32 rxbuf 12 in
  Ok {| gSEQ := seq; gACK := ack; gLCS := 0; gACKNXT := 0; gSOM := 0; gTTL := 0; gFCNT := 0; gDLEN := dlen; gWINDOW := 0; gFLG := flg;
        gHLEN := hlen |}.

Definition read_segment (c : ArdpConnRecord) (rxbuf : list Z) (flg hlen dlen : Z) : res ArdpSeg :=
  let! seq := get32 rxbuf 8 in
  let! ack := get32 rxbuf 12 in
  let! lcs := get32 rxbuf 20 in
  let! acknxt := get32 rxbuf 24 in
  let! ttl := get32 rxbuf 16 in
  let! som := get32 rxbuf 28 in
  let! fcnt := get16 rxbuf 32 in
  Ok {| gSEQ := seq; gACK := ack; gLCS := lcs; gACKNXT := acknxt; gSOM := som; gTTL := ttl; gFCNT := fcnt; gDLEN := dlen;
        gWINDOW := w16 (SEGMAX (snd c) - (NXT (snd c) - (lcs + 1))); gFLG := flg; gHLEN := hlen |}.

(** [rxbuf] is the whole receive buffer and [len] the size of the datagram; what a
    segment with RST or SYN does not carry is never read. *)
Definition Receive (AcceptCb : list Z -> M bool) (rxbuf : list Z) (len : Z) : M QStatus :=
  let* flg := lift (get8 rxbuf 0) in
  let* hlen := lift (get8 rxbuf 1) in
  if flag_set flg ARDP_FLAG_RST then let* _ := ArdpMachine AcceptCb (bare_segment flg hlen) rxbuf in ret ER_OK
  else
    let* dlen := lift (get16 rxbuf 6) in
    let hdrSz := if flag_set flg ARDP_FLAG_SYN then ARDP_SYN_HEADER_SIZE else ARDP_FIXED_HEADER_LEN in
    if (hlen * 2 <? hdrSz) || (len <? hdrSz) || negb (dlen + hlen * 2 =? len) then ret ER_ARDP_INVALID_RESPONSE
    else
      if flag_set flg ARDP_FLAG_SYN then
        let* seg := lift (read_syn rxbuf flg hlen dlen) in
        let* _ := ArdpMachine AcceptCb seg rxbuf in
        ret ER_OK
      else
        let* c := get in
        let* seg := lift (read_segment c rxbuf flg hlen dlen) in
        let* _ := when (modeSimple c) (on_snd (fun s => with_thinWindow (thin_window s (gLCS seg)) s)) in
        if segment_valid c seg then let* _ := ArdpMachine AcceptCb seg rxbuf in ret ER_OK
        else ret ER_ARDP_INVALID_RESPONSE.

Definition Accept (AcceptCb : list Z -> M bool) (rxbuf : list Z) (len : Z) : M QStatus :=
  let* c := get in
  let* _ := check (bool_decide (state c = CLOSED)) in
  let* flg := lift (get8 rxbuf 0) in
  if negb (flag_set flg ARDP_FLAG_SYN) || flag_set flg ARDP_FLAG_RST then ret ER_ARDP_INVALID_CONNECTION
  else if negb (Z.land flg ARDP_VERSION_BITS =? ARDP_FLAG_VER) then ret ER_ARDP_VERSION_NOT_SUPPORTED
  else
    let* _ := SetState LISTEN in
    let* _ := modify (with_passive true) in
    Receive AcceptCb rxbuf len.

(** * The interface *)

Definition blank_timer : ArdpTimer := {| delta := 0; when_ := 0; retry := 0 |}.

(** NewConnRecord and InitConnRecord: [port] and [iss] are the random numbers, the
    port one that no connection has; [ms] and [jam] are those of the handle. *)
Definition InitConnRecord (port foreign_ iss ms : Z) (jam : bool) : ArdpConnRecord :=
  let words := Z.to_nat (Z.shiftr ARDP_MAX_WINDOW_SIZE 5) in
  {| state := CLOSED; passive := false;
     snd := {| NXT := w32 (iss + 1); UNA := iss; ISS := iss; sLCS := iss; DACKT := 0; sbuf := []; thinNXT := w32 (iss + 1); SEGMAX := 0;
               SEGBMAX := 0; thinSEGMAX := 0; thinWindow := 0; maxDlen := 0; pending := 0 |};
     rx := {| rcv := {| CUR := 0; IRS := 0; LCS := 0; rbuf := [];
                        eack := {| mask := replicate words 0; htnMask := replicate words 0; sz := 0; fixedSz := 0 |};
                        rSEGMAX := 0; rSEGBMAX := 0 |};
              ackTimer := blank_timer; msnext := ms; delivered := [] |};
     local := port; foreign := foreign_; window := 0; remoteMskSz := 0; lastSeen := now; synData := None; rttInit := false;
     rttMean := initialDataTimeout cfg; rttMeanVar := 0; backoff := 0; rttMeanUnit := initialDataTimeout cfg;
     connectTimer := blank_timer; connectHandler := None; probeTimer := blank_timer; persistTimer := blank_timer; ackPending := 0;
     modeSimple := false; confirm := false; trafficJam := jam; dataTimers := []; listed := false; outcomes := []; events := [] |}.

(** On a fresh record: the connection is in the list when the status is ER_OK. *)
Definition ARDP_Connect (segmax segbmax : Z) (buf : list Z) : M QStatus :=
  if negb (CheckConfigValid segmax segbmax ARDP_MAX_WINDOW_SIZE false) then ret ER_INVALID_CONFIG
  else
    let* _ := modify (fun c => with_rcv_of (InitRcv segmax segbmax (rcv_of c)) c) in
    let* _ := modify (with_passive false) in
    let* _ := modify (with_listed true) in
    let* status := SendSyn buf in
    let* _ := if decide (status = ER_OK) then SetState SYN_SENT else DelConnRecord false in
    ret status.

Definition ARDP_Accept (segmax segbmax : Z) (buf : list Z) : M QStatus :=
  let* c := get in
  if negb (listed c) then ret ER_ARDP_INVALID_CONNECTION
  else
    let* status :=
      if negb (CheckConfigValid segmax segbmax ARDP_MAX_WINDOW_SIZE (modeSimple c)) then ret ER_INVALID_CONFIG
      else let* _ := modify (fun c => with_rcv_of (InitRcv segmax segbmax (rcv_of c)) c) in InitSnd in
    if decide (status = ER_OK) then
      let* status := SendSyn buf in
      let* _ := when (bool_decide (status = ER_OK)) (SetState SYN_RCVD) in
      ret status
    else
      let* c := get in
      let* _ := Send (Z.lor ARDP_FLAG_RST ARDP_FLAG_VER) (next_seq c) 0 in
      ret status.

Definition ARDP_Disconnect : M QStatus :=
  let* c := get in if listed c then Disconnect ER_OK else ret ER_ARDP_INVALID_CONNECTION.

(** The fragments of a message on a connection that closes. *)
Fixpoint free_fragments (n : nat) (i : Z) (r : ArdpRcv) : res ArdpRcv :=
  match n with
  | O => Ok r
  | S n =>
      let! b := buf_at r i in
      let r := set_buf r i {| r_seq := r_seq b; r_datalen := r_datalen b; r_data := None; r_som := r_som b; r_ttl := r_ttl b;
                              r_tRecv := r_tRecv b; r_fcnt := r_fcnt b; r_flags := 0 |} in
      let! nx := buf_at r (next r i) in
      if negb (in_use nx) || negb (r_som nx =? r_som b) then Ok r else free_fragments n (next r i) r
  end.

(** [i] is the index of the buffer that RecvCb was given. *)
Definition ARDP_RecvReady (i : Z) : M QStatus :=
  let* c := get in
  if negb (listed c) then ret ER_ARDP_INVALID_CONNECTION
  else
    let* b := lift (buf_at (rcv_of c) i) in
    match state c with
    | OPEN => on_rx (fun x => ReleaseRcvBuffers now (delayedAckTimeout cfg) x (r_seq b) (r_fcnt b) false)
    | CLOSED | CLOSE_WAIT =>
        let* r := lift (free_fragments (Z.to_nat (r_fcnt b)) i (rcv_of c)) in
        let* _ := modify (with_rcv_of r) in
        ret ER_OK
    | _ => ret ER_ARDP_INVALID_STATE
    end.

Definition ARDP_Send (buf : list Z) (ttl : Z) : M QStatus :=
  let* c := get in
  if negb (listed c) then ret ER_ARDP_INVALID_CONNECTION
  else if bool_decide (state c <> OPEN) then ret ER_ARDP_INVALID_STATE
  else if zlen buf =? 0 then ret ER_INVALID_DATA
  else if (window c =? 0) || (SEGMAX (snd c) <=? w32 (NXT (snd c) - UNA (snd c))) then ret ER_ARDP_BACKPRESSURE
  else SendData buf ttl.

(** A datagram for the connection. The RST that answers a NUL on a connection that
    closes is left out: it does not change the state. *)
Definition run_datagram (AcceptCb : list Z -> M bool) (buf : list Z) (nbytes : Z) : M QStatus :=
  let* c := get in
  if bool_decide (state c <> CLOSED) && bool_decide (state c <> CLOSE_WAIT) then
    let* _ := modify (with_lastSeen now) in
    let* _ := modify (fun c => with_probeTimer (with_retry (keepaliveRetries cfg) (probeTimer c)) c) in
    let* status := Receive AcceptCb buf nbytes in
    let* _ := when (bool_decide (status = ER_ARDP_INVALID_RESPONSE)) (let* _ := Disconnect status in ret tt) in
    ret status
  else ret ER_OK.

End Protocol.

End ArdpConn.
