(* ===== verification/ArdpConnProofs.v ===== *)
(** Lemmas on the operations of a connection: relations between the record before and
    after that every operation keeps, and the changes of the state. *)
From S2P Require Import Prelude Types Ardp ArdpState ArdpConn.
Import Ardp ArdpState ArdpConn.

(** * Relations that operations keep *)

Definition keeps (R : relation ArdpConnRecord) {A} (m : M A) : Prop := forall c a c', m c = Ok (a, c') -> R c c'.

Section Keeps.
Context (R : relation ArdpConnRecord) `{!PreOrder R}.

Lemma keeps_ret {A} (a : A) : keeps R (ret a).
Proof. intros c a' c' [= _ <-]. reflexivity. Qed.

Lemma keeps_get : keeps R get.
Proof. intros c a c' [= _ <-]. reflexivity. Qed.

Lemma keeps_undef {A} : keeps R (@undef A).
Proof. intros c a c' E. done. Qed.

Lemma keeps_lift {A} (r : res A) : keeps R (lift r).
Proof. intros c a c' E. unfold lift in E. destruct r; try done. injection E as _ <-. reflexivity. Qed.

Lemma keeps_modify f : (forall c, R c (f c)) -> keeps R (modify f).
Proof. intros H c a c' [= _ <-]. apply H. Qed.

Lemma keeps_mdo {A B} (m : M A) (k : A -> M B) : keeps R m -> (forall a, keeps R (k a)) -> keeps R (mdo m k).
Proof.
  intros Hm Hk c b c' E. unfold mdo in E. destruct (m c) as [[a c1]| |] eqn:Em; try done. cbn [rbind] in E.
  transitivity c1; [by eapply Hm|by eapply Hk].
Qed.

Lemma keeps_when b m : keeps R m -> keeps R (when b m).
Proof. intros H. destruct b; [done|]. apply keeps_ret. Qed.

Lemma keeps_check b : keeps R (check b).
Proof. destruct b; [apply keeps_ret|apply keeps_undef]. Qed.

Lemma keeps_on_rx {A} (f : Rx -> res (A * Rx)) : (forall c x, R c (with_rx x c)) -> keeps R (on_rx f).
Proof. intros H c a c' E. unfold on_rx in E. destruct (f (rx c)) as [[a' x]| |]; try done. injection E as _ <-. apply H. Qed.

Lemma keeps_loop_pos {S T} p (f : S -> M (S + T)) : (forall s, keeps R (f s)) -> forall s, keeps R (loop_pos p f s).
Proof.
  intros Hf. induction p as [p IH|p IH|]; intros s; cbn [loop_pos]; [| |apply Hf].
  - apply keeps_mdo; [apply Hf|]. intros [s1|t]; [|apply keeps_ret]. apply keeps_mdo; [apply IH|]. intros [s2|t]; [apply IH|apply keeps_ret].
  - apply keeps_mdo; [apply IH|]. intros [s1|t]; [apply IH|apply keeps_ret].
Qed.

Lemma keeps_loop_times {S T} n (f : S -> M (S + T)) s : (forall s, keeps R (f s)) -> keeps R (loop_times n f s).
Proof. intros Hf. destruct n; cbn; [apply keeps_ret|by apply keeps_loop_pos|apply keeps_ret]. Qed.

End Keeps.

(** A relation that follows from another. *)
Lemma keeps_weaken (R Q : relation ArdpConnRecord) {A} (m : M A) : (forall c c', R c c' -> Q c c') -> keeps R m -> keeps Q m.
Proof. intros H Hm c a c' E. by eapply H, Hm. Qed.

(** Take an operation apart; what is left are its changes of the record. *)
Ltac keep :=
  repeat first
    [ progress intros
    | solve [eauto with ardp]
    | apply keeps_ret; [typeclasses eauto]
    | apply keeps_get; [typeclasses eauto]
    | apply keeps_undef
    | apply keeps_lift; [typeclasses eauto]
    | apply keeps_check; [typeclasses eauto]
    | apply keeps_when; [typeclasses eauto|]
    | apply keeps_mdo; [typeclasses eauto| |]
    | apply keeps_on_rx
    | apply keeps_loop_times; [typeclasses eauto|]
    | apply keeps_modify
    | match goal with |- keeps _ (match ?x with _ => _ end) => destruct x end ].

Create HintDb ardp.

(** * The state *)

(** The operations that do not touch the state. *)
Definition quiet (c c' : ArdpConnRecord) : Prop :=
  state c' = state c /\ passive c' = passive c /\ ISS (snd c') = ISS (snd c).
(** Those that may close the connection. *)
Definition closing (c c' : ArdpConnRecord) : Prop :=
  (state c' = state c \/ state c' = CLOSED \/ (state c' = CLOSE_WAIT /\ state c <> CLOSED)) /\
  passive c' = passive c /\ ISS (snd c') = ISS (snd c).

#[export] Instance quiet_preorder : PreOrder quiet.
Proof. split; [done|]. intros x y z (? & ? & ?) (? & ? & ?). split_and!; congruence. Qed.
#[export] Instance closing_preorder : PreOrder closing.
Proof.
  split; [by split; [left|]|]. intros x y z (H & ? & ?) (H' & ? & ?). split; [|split; congruence].
  destruct H as [H|[H|[H Hn]]], H' as [H'|[H'|[H' Hn']]]; rewrite ?H in *; try congruence; auto.
Qed.

Lemma quiet_closing c c' : quiet c c' -> closing c c'.
Proof. intros [? ?]. split; [by left|done]. Qed.

Lemma keeps_quiet_closing {A} (m : M A) : keeps quiet m -> keeps closing m.
Proof. apply keeps_weaken, quiet_closing. Qed.
#[export] Hint Resolve keeps_quiet_closing | 5 : ardp.

(** A field that is not the state. *)
Ltac quiet := keep; by split_and!.

Lemma quiet_SendToSG b : keeps quiet (SendToSG b).
Proof. intros c a c' [= _ <-]. by split. Qed.
#[export] Hint Resolve quiet_SendToSG : ardp.

Lemma quiet_note e : keeps quiet (note e).
Proof. unfold note. quiet. Qed.
Lemma quiet_on_snd f : (forall s, ISS (f s) = ISS s) -> keeps quiet (on_snd f).
Proof. intros Hf. unfold on_snd. keep. split_and!; [done|done|apply Hf]. Qed.
#[export] Hint Extern 2 (ISS _ = ISS _) => reflexivity : ardp.
Lemma quiet_on_connectTimer f : keeps quiet (on_connectTimer f).
Proof. unfold on_connectTimer. quiet. Qed.
Lemma quiet_DeList i : keeps quiet (DeList i).
Proof. unfold DeList. quiet. Qed.
Lemma quiet_EnList i : keeps quiet (EnList i).
Proof. unfold EnList. quiet. Qed.
#[export] Hint Resolve quiet_note quiet_on_snd quiet_on_connectTimer quiet_DeList quiet_EnList : ardp.

Lemma quiet_SendMsgHeader h : keeps quiet (SendMsgHeader h).
Proof. unfold SendMsgHeader. quiet. Qed.
#[export] Hint Resolve quiet_SendMsgHeader : ardp.
Lemma quiet_Send f s a : keeps quiet (Send f s a).
Proof. unfold Send. quiet. Qed.
#[export] Hint Resolve quiet_Send : ardp.
Lemma quiet_send_now f : keeps quiet (send_now f).
Proof. unfold send_now. quiet. Qed.
Lemma quiet_UnmarshalSynSegment b s : keeps quiet (UnmarshalSynSegment b s).
Proof. unfold UnmarshalSynSegment. quiet. Qed.
Lemma quiet_sbuf_at i : keeps quiet (sbuf_at i).
Proof. unfold sbuf_at. quiet. Qed.
Lemma quiet_sindex i : keeps quiet (sindex i).
Proof. unfold sindex. quiet. Qed.
Lemma quiet_snext i : keeps quiet (snext i).
Proof. unfold snext. quiet. Qed.
Lemma quiet_set_sbuf i b : keeps quiet (set_sbuf i b).
Proof. unfold set_sbuf. quiet. Qed.
#[export] Hint Resolve quiet_send_now quiet_UnmarshalSynSegment quiet_sbuf_at quiet_sindex quiet_snext quiet_set_sbuf : ardp.
Lemma quiet_change_sbuf i f : keeps quiet (change_sbuf i f).
Proof. unfold change_sbuf. quiet. Qed.
#[export] Hint Resolve quiet_change_sbuf : ardp.
Lemma quiet_flush_loop n : forall i l, keeps quiet (flush_loop n i l).
Proof. induction n; cbn [flush_loop]; quiet. Qed.
#[export] Hint Resolve quiet_flush_loop : ardp.
Lemma quiet_FlushMessage i s : keeps quiet (FlushMessage i s).
Proof. unfold FlushMessage. quiet. Qed.
#[export] Hint Resolve quiet_FlushMessage : ardp.
Lemma quiet_flush_queue n : forall i s, keeps quiet (flush_queue n i s).
Proof. induction n; cbn [flush_queue]; quiet. Qed.
#[export] Hint Resolve quiet_flush_queue : ardp.
Lemma quiet_FlushSendQueue s : keeps quiet (FlushSendQueue s).
Proof. unfold FlushSendQueue. quiet. Qed.
Lemma quiet_DelConnRecord f : keeps quiet (DelConnRecord f).
Proof. unfold DelConnRecord. quiet. Qed.
#[export] Hint Resolve quiet_FlushSendQueue quiet_DelConnRecord : ardp.

Section Protocol.
Context (cfg : ArdpGlobalConfig) (now : Z).

Lemma quiet_call_back t n : keeps quiet (call_back t n).
Proof. unfold call_back. quiet. Qed.
Hint Resolve quiet_call_back : ardp.
Lemma quiet_set_ackTimer t n : keeps quiet (set_ackTimer now t n).
Proof. unfold set_ackTimer. quiet. Qed.
Lemma quiet_set_persistTimer t n : keeps quiet (set_persistTimer now t n).
Proof. unfold set_persistTimer. quiet. Qed.
Lemma quiet_set_probeTimer t n : keeps quiet (set_probeTimer now t n).
Proof. unfold set_probeTimer. quiet. Qed.
Lemma quiet_set_connectTimer t n : keeps quiet (set_connectTimer now t n).
Proof. unfold set_connectTimer. quiet. Qed.
Lemma quiet_set_dataTimer i t n : keeps quiet (set_dataTimer now i t n).
Proof. unfold set_dataTimer. quiet. Qed.
Hint Resolve quiet_set_ackTimer quiet_set_persistTimer quiet_set_probeTimer quiet_set_connectTimer quiet_set_dataTimer : ardp.
Lemma quiet_schedule_ack_in t : keeps quiet (schedule_ack_in now t).
Proof. unfold schedule_ack_in. quiet. Qed.
Lemma quiet_flush_pending : keeps quiet flush_pending.
Proof. unfold flush_pending. quiet. Qed.
Lemma quiet_DoSendSyn : keeps quiet (DoSendSyn cfg).
Proof. unfold DoSendSyn. quiet. Qed.
Hint Resolve quiet_schedule_ack_in quiet_flush_pending quiet_DoSendSyn : ardp.
Lemma quiet_SendSyn b : keeps quiet (SendSyn cfg now b).
Proof. unfold SendSyn. quiet. Qed.
Lemma quiet_AckTimerHandler : keeps quiet AckTimerHandler.
Proof. unfold AckTimerHandler. quiet. Qed.
Lemma quiet_expire_chain n : forall i, keeps quiet (expire_chain n i).
Proof. induction n; cbn [expire_chain]; quiet. Qed.
Hint Resolve quiet_SendSyn quiet_AckTimerHandler quiet_expire_chain : ardp.
Lemma quiet_ExpireMessageSnd i : keeps quiet (ExpireMessageSnd now i).
Proof. unfold ExpireMessageSnd. quiet. Qed.
Lemma quiet_SendMsgData i t : keeps quiet (SendMsgData i t).
Proof. unfold SendMsgData. quiet. Qed.
Lemma quiet_on_timer i f : keeps quiet (on_timer i f).
Proof. unfold on_timer. quiet. Qed.
Lemma quiet_AdjustRTT b : keeps quiet (AdjustRTT now b).
Proof. unfold AdjustRTT. keep; try by split_and!. by destruct (rttInit c). Qed.
Hint Resolve quiet_ExpireMessageSnd quiet_SendMsgData quiet_on_timer quiet_AdjustRTT : ardp.
Lemma quiet_update_turn a l i : keeps quiet (update_turn a l i).
Proof. unfold update_turn. quiet. Qed.
Lemma quiet_skip_expired n : forall i b, keeps quiet (skip_expired n i b).
Proof. induction n; cbn [skip_expired]; quiet. Qed.
Hint Resolve quiet_update_turn quiet_skip_expired : ardp.
Lemma quiet_UpdateSndSegments a l : keeps quiet (UpdateSndSegments now a l).
Proof. unfold UpdateSndSegments. quiet. Qed.
Lemma quiet_FastRetransmit i : keeps quiet (FastRetransmit cfg now i).
Proof. unfold FastRetransmit. quiet. Qed.
Hint Resolve quiet_UpdateSndSegments quiet_FastRetransmit : ardp.
Lemma quiet_cancel_word n : forall w m i, keeps quiet (cancel_word cfg now n w m i).
Proof. induction n; cbn [cancel_word]; quiet. Qed.
Hint Resolve quiet_cancel_word : ardp.
Lemma quiet_cancel_words n : forall w s l, keeps quiet (cancel_words cfg now n w s l).
Proof. induction n; cbn [cancel_words]; quiet. Qed.
Hint Resolve quiet_cancel_words : ardp.
Lemma quiet_CancelEackedSegments a l : keeps quiet (CancelEackedSegments cfg now a l).
Proof. unfold CancelEackedSegments. quiet. Qed.
Lemma quiet_InitSnd : keeps quiet (InitSnd cfg now).
Proof. unfold InitSnd. quiet. Qed.
Hint Resolve quiet_CancelEackedSegments quiet_InitSnd : ardp.
Lemma quiet_take_ack s b : keeps quiet (take_ack cfg now s b).
Proof. unfold take_ack. quiet. Qed.
Lemma quiet_take_data s b d : keeps quiet (take_data cfg now s b d).
Proof. unfold take_data. quiet. Qed.
Lemma quiet_take_window s : keeps quiet (take_window cfg now s).
Proof. unfold take_window. quiet. Qed.
Hint Resolve quiet_take_ack quiet_take_data quiet_take_window : ardp.

(** What closes a connection. *)

Lemma closing_Disconnect r : keeps closing (Disconnect cfg now r).
Proof.
  intros c a c' E. unfold Disconnect in E. unfold mdo at 1, get in E. cbn [rbind] in E.
  destruct (decide (state c = CLOSED)) as [Hc|Hc].
  { rewrite (bool_decide_true (state c = CLOSED)) in E by done. rewrite orb_true_r in E. injection E as _ <-. reflexivity. }
  revert E. match goal with |- (if ?b then _ else _) _ = _ -> _ => destruct b end; [intros [= _ <-]; reflexivity|].
  destruct (negb (listed c)); [intros [= _ <-]; reflexivity|]. unfold mdo at 1, SetState, modify. cbn [rbind]. intros E.
  assert (quiet (with_state CLOSE_WAIT c) c') as [Hs Hp].
  { refine ((_ : keeps quiet _) _ _ _ E). quiet. }
  split; [|done]. right; right. by rewrite Hs.
Qed.
Hint Resolve closing_Disconnect : ardp.

Lemma closing_SetState_CLOSED : keeps closing (SetState CLOSED).
Proof. intros c a c' [= _ <-]. split; [by right; left|done]. Qed.
Hint Resolve closing_SetState_CLOSED : ardp.

Ltac closing := keep; try (by split; [left|]).

Lemma closing_DisconnectTimerHandler r : keeps closing (DisconnectTimerHandler now r).
Proof. unfold DisconnectTimerHandler. closing. Qed.
Lemma closing_ConnectTimerHandler : keeps closing (ConnectTimerHandler cfg).
Proof. unfold ConnectTimerHandler. closing. Qed.
Lemma closing_retransmit i t : keeps closing (retransmit cfg now i t).
Proof. unfold retransmit. closing. Qed.
Hint Resolve closing_DisconnectTimerHandler closing_ConnectTimerHandler closing_retransmit : ardp.
Lemma closing_RetransmitTimerHandler i : keeps closing (RetransmitTimerHandler cfg now i).
Proof. unfold RetransmitTimerHandler. closing. Qed.
Lemma closing_send_fragment i som fcnt l t u d r : keeps closing (send_fragment cfg now i som fcnt l t u d r).
Proof. unfold send_fragment. closing. Qed.
Hint Resolve closing_RetransmitTimerHandler closing_send_fragment : ardp.
Lemma closing_send_loop n : forall k i som fcnt l t u d r st, keeps closing (send_loop cfg now n k i som fcnt l t u d r st).
Proof. induction n; cbn [send_loop]; closing. Qed.
Hint Resolve closing_send_loop : ardp.
Lemma closing_SendData b t : keeps closing (SendData cfg now b t).
Proof. unfold SendData. closing. Qed.
Lemma closing_PersistTimerHandler : keeps closing (PersistTimerHandler cfg now).
Proof. unfold PersistTimerHandler. closing. Qed.
Lemma closing_ProbeTimerHandler : keeps closing (ProbeTimerHandler cfg now).
Proof. unfold ProbeTimerHandler. closing. Qed.
Hint Resolve closing_SendData closing_PersistTimerHandler closing_ProbeTimerHandler : ardp.
Lemma closing_CheckConnTimers n : keeps closing (CheckConnTimers cfg now n).
Proof. unfold CheckConnTimers. closing. Qed.
Lemma closing_check_data_timers l : forall n, keeps closing (check_data_timers cfg now l n).
Proof. induction l; cbn [check_data_timers]; closing. Qed.
Hint Resolve closing_CheckConnTimers closing_check_data_timers : ardp.
Lemma closing_CheckTimers : keeps closing (CheckTimers cfg now).
Proof. unfold CheckTimers. closing. Qed.
Lemma closing_machine_CLOSED s : keeps closing (machine_CLOSED s).
Proof. unfold machine_CLOSED. closing. Qed.
Lemma closing_machine_OPEN s b : keeps closing (machine_OPEN cfg now s b).
Proof. unfold machine_OPEN. closing. Qed.
Lemma closing_ARDP_Send b t : keeps closing (ARDP_Send cfg now b t).
Proof. unfold ARDP_Send. closing. Qed.
Lemma closing_ARDP_Disconnect : keeps closing (ARDP_Disconnect cfg now).
Proof. unfold ARDP_Disconnect. closing. Qed.
Lemma closing_ARDP_RecvReady i : keeps closing (ARDP_RecvReady cfg now i).
Proof. unfold ARDP_RecvReady. closing. Qed.

End Protocol.

#[export] Hint Resolve quiet_call_back quiet_set_ackTimer quiet_set_persistTimer quiet_set_probeTimer quiet_set_connectTimer
  quiet_schedule_ack_in quiet_DoSendSyn quiet_SendSyn quiet_AckTimerHandler quiet_InitSnd closing_Disconnect closing_SetState_CLOSED
  closing_CheckTimers closing_machine_CLOSED closing_machine_OPEN closing_ARDP_Send closing_ARDP_Disconnect closing_ARDP_RecvReady : ardp.

Ltac closing := keep; try (by split; [left|]).

(** * Opening *)

(** How far a connection is on its way. *)
Definition rank (s : ArdpState) : nat :=
  match s with LISTEN => 0 | SYN_SENT | SYN_RCVD => 1 | OPEN => 2 | CLOSE_WAIT => 3 | CLOSED => 4 end.

(** The state stays or goes forward. *)
Definition forward (c c' : ArdpConnRecord) : Prop := state c' = state c \/ (rank (state c) < rank (state c'))%nat.

Lemma closing_forward c c' : closing c c' -> forward c c'.
Proof. intros [[H|[H|[H Hn]]] _]; [by left|..]; unfold forward; rewrite H; destruct (state c); cbn; auto with lia; try (right; lia); done. Qed.

(** The states a connection that opens can reach. *)
Definition opening (c c' : ArdpConnRecord) : Prop := state c' = state c \/ state c' = OPEN \/ state c' = CLOSED \/ state c' = CLOSE_WAIT.

#[export] Instance opening_preorder : PreOrder opening.
Proof. split; [by left|]. intros x y z H H'. unfold opening in *. destruct H as [H|[H|[H|H]]], H' as [H'|[H'|[H'|H']]]; rewrite ?H in *; auto. Qed.

Lemma closing_opening {A} (m : M A) : keeps closing m -> keeps opening m.
Proof. apply keeps_weaken. intros c c' [[?|[?|[? ?]]] _]; unfold opening; auto. Qed.
#[export] Hint Resolve closing_opening | 6 : ardp.

Lemma opening_SetState_OPEN : keeps opening (SetState OPEN).
Proof. intros c a c' [= _ <-]. by right; left. Qed.
#[export] Hint Resolve opening_SetState_OPEN : ardp.

Section Machine.
Context (cfg : ArdpGlobalConfig) (now : Z).

Lemma opening_open_connection seg : keeps opening (open_connection cfg now seg).
Proof. unfold open_connection. keep; by left. Qed.
Hint Resolve opening_open_connection : ardp.

Lemma opening_machine_SYN_SENT seg buf : keeps opening (machine_SYN_SENT cfg now seg buf).
Proof. unfold machine_SYN_SENT. keep; by left. Qed.
Lemma opening_machine_SYN_RCVD seg buf : keeps opening (machine_SYN_RCVD cfg now seg buf).
Proof. unfold machine_SYN_RCVD. keep; by left. Qed.

(** What AcceptCb may do to the state of a connection that listens. *)
Definition accepts (AcceptCb : list Z -> M bool) : Prop :=
  forall data c a c', state c = LISTEN -> AcceptCb data c = Ok (a, c') -> state c' <> OPEN /\ forward c c'.

Lemma forward_trans c c' c'' : forward c c' -> forward c' c'' -> forward c c''.
Proof. unfold forward. intros [H|H] [H'|H']; rewrite ?H' in *; rewrite ?H in *; auto; right; lia. Qed.

(** Split a sequence of operations. *)
Lemma mdo_Ok {A B} (m : M A) (k : A -> M B) c b c' : mdo m k c = Ok (b, c') -> exists a c1, m c = Ok (a, c1) /\ k a c1 = Ok (b, c').
Proof. unfold mdo. destruct (m c) as [[a c1]| |]; try done. eauto. Qed.

Lemma machine_LISTEN_forward AcceptCb seg buf c a c' : accepts AcceptCb -> state c = LISTEN ->
  machine_LISTEN cfg now AcceptCb seg buf c = Ok (a, c') -> forward c c' /\ state c' <> OPEN.
Proof.
  intros Hcb Hs. unfold machine_LISTEN.
  assert (forall c', closing c c' -> forward c c' /\ state c' <> OPEN) as Hclose.
  { intros c1 H. split; [by apply closing_forward|]. destruct H as [[H|[H|[H _]]] _]; rewrite H, ?Hs; done. }
  destruct (flag_set (gFLG seg) ARDP_FLAG_RST); [intros E; apply Hclose; revert E; apply (keeps_ret closing)|].
  destruct (flag_set _ ARDP_FLAG_ACK || _).
  { intros E. apply Hclose. refine ((_ : keeps closing _) _ _ _ E). closing. }
  destruct (flag_set _ ARDP_FLAG_SYN); [|intros E; apply Hclose; revert E; apply (keeps_ret closing)].
  intros (u & c1 & E1 & (acc & c2 & E2 & E3)%mdo_Ok)%mdo_Ok. apply quiet_UnmarshalSynSegment in E1 as (Hs1 & _).
  apply Hcb in E2 as [Hno Hf]; [|congruence].
  assert (closing c2 c') as H3 by (refine ((_ : keeps closing _) _ _ _ E3); closing).
  split.
  - apply forward_trans with c2; [|by apply closing_forward]. unfold forward in *. by rewrite <- Hs1.
  - destruct H3 as [[H|[H|[H _]]] _]; rewrite H; done.
Qed.

(** Without the acknowledgement of its own SYN a connection does not open. *)
Lemma machine_SYN_SENT_opens seg buf c a c' : machine_SYN_SENT cfg now seg buf c = Ok (a, c') -> state c = SYN_SENT -> state c' = OPEN ->
  flag_set (gFLG seg) ARDP_FLAG_RST = false /\ flag_set (gFLG seg) ARDP_FLAG_SYN = true /\ flag_set (gFLG seg) ARDP_FLAG_ACK = true /\
  Z.land (gFLG seg) ARDP_VERSION_BITS = ARDP_FLAG_VER /\ gACK seg = ISS (snd c).
Proof.
  intros E Hs Ho. unfold machine_SYN_SENT in E.
  assert (forall c1, closing c c1 -> closing c1 c' -> False) as Hclose.
  { intros c1 H H'. assert (closing c c') as [[H1|[H1|[H1 _]]] _] by (by transitivity c1); congruence. }
  apply mdo_Ok in E as (status & c1 & E1 & E2).
  destruct (flag_set (gFLG seg) ARDP_FLAG_RST).
  { exfalso. apply (Hclose c1); [by apply (keeps_ret closing) in E1|]. refine ((_ : keeps closing _) _ _ _ E2). closing. }
  destruct (flag_set (gFLG seg) ARDP_FLAG_SYN && flag_set (gFLG seg) ARDP_FLAG_ACK) eqn:Ef; [|exfalso].
  2:{ apply (Hclose c1); [by apply (keeps_ret closing) in E1|]. refine ((_ : keeps closing _) _ _ _ E2). closing. }
  apply andb_true_iff in Ef as [-> ->].
  apply mdo_Ok in E1 as (u & c2 & Eu & (st & c3 & Ei & (u' & c4 & Ec & (u'' & c5 & Em & E1)%mdo_Ok)%mdo_Ok)%mdo_Ok).
  assert (quiet c c5) as Hq.
  { transitivity c2; [by eapply quiet_UnmarshalSynSegment|]. transitivity c3; [by eapply quiet_InitSnd|].
    transitivity c4; [by eapply keeps_check; [apply _|]|]. injection Em as _ <-. by split_and!. }
  unfold mdo at 1, get in E1. cbn [rbind] in E1. destruct Hq as (Hq1 & Hq2 & Hq3).
  assert (closing c c5) as Hc5 by (by apply quiet_closing).
  destruct (Z.eqb_spec (Z.land (gFLG seg) ARDP_VERSION_BITS) ARDP_FLAG_VER) as [Hv|Hv]; cbn [negb] in E1; [|exfalso].
  2:{ apply (Hclose c5); [done|]. transitivity c1; [by apply (keeps_ret closing) in E1|]. refine ((_ : keeps closing _) _ _ _ E2). closing. }
  destruct (Z.eqb_spec (gACK seg) (ISS (snd c5))) as [Ha|Ha]; cbn [negb] in E1; [|exfalso].
  2:{ apply (Hclose c5); [done|]. transitivity c1; [by apply (keeps_ret closing) in E1|]. refine ((_ : keeps closing _) _ _ _ E2). closing. }
  split_and!; try done. congruence.
Qed.

Lemma machine_SYN_RCVD_opens seg buf c a c' : machine_SYN_RCVD cfg now seg buf c = Ok (a, c') -> state c = SYN_RCVD -> state c' = OPEN ->
  flag_set (gFLG seg) ARDP_FLAG_RST = false /\ flag_set (gFLG seg) ARDP_FLAG_SYN = false /\ flag_set (gFLG seg) ARDP_FLAG_ACK = true /\
  IN_RANGE (w32 (CUR (rcv_of c) + 1)) (rSEGMAX (rcv_of c)) (gSEQ seg) = true /\ gACK seg = ISS (snd c).
Proof.
  intros E Hs Ho. unfold machine_SYN_RCVD in E. unfold mdo at 1, get in E. cbn [rbind] in E.
  assert (forall A (m : M A) a, keeps closing m -> m c = Ok (a, c') -> False) as Hclose.
  { intros A m a' Hm E'. apply Hm in E' as [[H1|[H1|[H1 _]]] _]; congruence. }
  destruct (flag_set (gFLG seg) ARDP_FLAG_RST); [exfalso; eapply Hclose, E; closing|].
  destruct (IN_RANGE _ _ _) eqn:Er; cbn [negb] in E; [|exfalso; eapply Hclose, E; closing].
  destruct (flag_set (gFLG seg) ARDP_FLAG_SYN); [exfalso; eapply Hclose, E; closing|].
  destruct (flag_set (gFLG seg) ARDP_FLAG_EACK); [exfalso; eapply Hclose, E; closing|].
  destruct (flag_set (gFLG seg) ARDP_FLAG_ACK); [|exfalso; eapply Hclose, E; closing].
  destruct (Z.eqb_spec (gACK seg) (ISS (snd c))) as [Ha|Ha]; [done|]. exfalso. eapply Hclose, E. closing.
Qed.

End Machine.
