(* ===== verification/ArdpSendProofs.v ===== *)
(** The sending side of ARDP on an open connection: a message becomes segments that
    follow each other, whose data are the message. *)
From S2P Require Import Prelude Types Marshal Ardp ArdpState ArdpConn.
Import Ardp ArdpState ArdpConn.

(** An open connection whose socket takes every datagram. *)
Record sendable (c : ArdpConnRecord) : Prop := {
  sd_simple : modeSimple c = false;
  sd_jam : trafficJam c = false;
  sd_outcomes : outcomes c = [];
  sd_rto : rttInit c = true -> 0 <= backoff c < 32;
  sd_ring : 0 < SEGMAX (snd c) < 2 ^ 16 /\ zlen (sbuf (snd c)) = SEGMAX (snd c);
  sd_pending : 0 <= pending (snd c)
}.

(** What sending keeps. *)
Record sent_same (c c' : ArdpConnRecord) : Prop := {
  ss_state : state c' = state c; ss_listed : listed c' = listed c; ss_rcv : rcv_of c' = rcv_of c; ss_local : local c' = local c;
  ss_foreign : foreign c' = foreign c; ss_una : UNA (snd c') = UNA (snd c); ss_segmax : SEGMAX (snd c') = SEGMAX (snd c);
  ss_maxDlen : maxDlen (snd c') = maxDlen (snd c)
}.

Definition data_header (c : ArdpConnRecord) (seq som fcnt len ttl : Z) : ArdpHeader :=
  {| h_flags := Z.lor ARDP_FLAG_ACK ARDP_FLAG_VER; h_hlen := 0; h_src := local c; h_dst := foreign c; h_dlen := len; h_sq := seq;
     h_ack := CUR (rcv_of c); h_time := ttl; h_lcs := LCS (rcv_of c); h_acknxt := UNA (snd c); h_start := som; h_cnt := fcnt |}.

Definition data_bytes (c : ArdpConnRecord) (seq som fcnt ttl : Z) (data : list Z) : list Z :=
  let (h, mask) := eack_header c (data_header c seq som fcnt (zlen data) ttl) in MarshalHeader h ++ mask ++ data.

Lemma mdo_eq {A B} (m : M A) (k : A -> M B) c a c1 : m c = Ok (a, c1) -> mdo m k c = k a c1.
Proof. intros E. unfold mdo. by rewrite E. Qed.

Lemma sbuf_at_ok c i b : 0 <= i -> sbuf (snd c) !! Z.to_nat i = Some b -> sbuf_at i c = Ok (b, c).
Proof. intros Hi Hb. unfold sbuf_at, mdo, get. cbn [rbind]. rewrite (proj2 (Z.ltb_ge _ _)) by done. by rewrite Hb. Qed.

(** The record after a datagram with the data of the buffer [i] was written. *)
Definition after_send (c : ArdpConnRecord) (i ttl : Z) (b : ArdpSndBuf) : ArdpConnRecord :=
  let (h, mask) := eack_header c (with_h_time ttl (with_h_flags (Z.lor ARDP_FLAG_ACK ARDP_FLAG_VER) (with_h_acknxt (UNA (snd c))
                     (with_h_lcs (LCS (rcv_of c)) (with_h_ack (CUR (rcv_of c)) (s_hdr b)))))) in
  let c := with_snd (with_sbuf (<[Z.to_nat i := with_s_hdr h b]> (sbuf (snd c))) (snd c)) c in
  let c := with_events (events c ++ [Sent (MarshalHeader h ++ mask ++ take (Z.to_nat (s_datalen b)) (s_data b)) ER_OK]) (with_outcomes [] c) in
  with_confirm false (with_trafficJam false (ack_sent c)).

Lemma SendMsgData_ok c i b ttl : outcomes c = [] -> 0 <= i -> sbuf (snd c) !! Z.to_nat i = Some b ->
  SendMsgData i ttl c = Ok (ER_OK, after_send c i ttl b).
Proof.
  intros Ho Hi Hb. unfold SendMsgData. rewrite (mdo_eq _ _ _ c c) by done. rewrite (mdo_eq _ _ _ b c) by (by apply sbuf_at_ok).
  unfold after_send. destruct (eack_header _ _) as [h mask] eqn:Eh.
  unfold SendToSG, set_sbuf, on_snd, modify, mdo, get, ret. cbn [rbind]. cbn -[MarshalHeader]. rewrite Ho. done.
Qed.

Definition put_sbuf (i : Z) (b : ArdpSndBuf) (c : ArdpConnRecord) : ArdpConnRecord :=
  with_snd (with_sbuf (<[Z.to_nat i := b]> (sbuf (snd c))) (snd c)) c.

Lemma change_sbuf_ok c i f b : 0 <= i -> sbuf (snd c) !! Z.to_nat i = Some b -> change_sbuf i f c = Ok (tt, put_sbuf i (f b) c).
Proof. intros Hi Hb. unfold change_sbuf. rewrite (mdo_eq _ _ _ b c) by (by apply sbuf_at_ok). done. Qed.

Lemma put_sbuf_lookup c i b : 0 <= i < zlen (sbuf (snd c)) -> sbuf (snd (put_sbuf i b c)) !! Z.to_nat i = Some b.
Proof. intros Hi. apply list_lookup_insert_eq. lia. Qed.

(** What a write leaves as it is, besides the buffers. *)
Record write_same (c c' : ArdpConnRecord) : Prop := {
  ws_same : sent_same c c';
  ws_nxt : NXT (snd c') = NXT (snd c); ws_pending : pending (snd c') = pending (snd c);
  ws_len : length (sbuf (snd c')) = length (sbuf (snd c)); ws_simple : modeSimple c' = modeSimple c;
  ws_rttInit : rttInit c' = rttInit c; ws_backoff : backoff c' = backoff c
}.

Lemma after_send_same c i ttl b : 0 <= i < zlen (sbuf (snd c)) ->
  write_same c (after_send c i ttl b) /\ trafficJam (after_send c i ttl b) = false /\ outcomes (after_send c i ttl b) = [] /\
  exists h, sbuf (snd (after_send c i ttl b)) !! Z.to_nat i = Some (with_s_hdr h b).
Proof.
  intros Hi. unfold after_send. destruct (eack_header _ _) as [h mask].
  split_and!; [split; [by split|cbn; rewrite ?length_insert; done..]|done|done|]. exists h. cbn. apply list_lookup_insert_eq. lia.
Qed.

Lemma put_sbuf_same i b c : write_same c (put_sbuf i b c).
Proof. split; [by split|cbn; rewrite ?length_insert; done..]. Qed.

Lemma write_same_trans c c1 c2 : write_same c c1 -> write_same c1 c2 -> write_same c c2.
Proof. intros [[] ? ? ? ? ? ?] [[] ? ? ? ? ? ?]. split; [split|..]; congruence. Qed.

(** A timer is set: only the time of the next call may change besides. *)
Lemma set_dataTimer_ok now c i t n b : 0 <= i < zlen (sbuf (snd c)) -> sbuf (snd c) !! Z.to_nat i = Some b ->
  exists c', set_dataTimer now i t n c = Ok (tt, c') /\ write_same c c' /\ trafficJam c' = trafficJam c /\ outcomes c' = outcomes c /\ events c' = events c.
Proof.
  intros Hi Hb. unfold set_dataTimer. erewrite mdo_eq by (apply change_sbuf_ok; [lia|done]). set (c1 := put_sbuf _ _ c).
  unfold call_back. rewrite (mdo_eq _ _ _ c1 c1) by done. pose proof (put_sbuf_same i (with_s_timer (timer_in now t n) b) c) as Hs.
  destruct (_ && _); [exists (with_msnext t c1)|exists c1]; (split; [done|]); [|done].
  split; [|done]. eapply write_same_trans; [exact Hs|]. split; [by split|done..].
Qed.

(** A fragment in its buffer. *)
Definition fragment_buf (c : ArdpConnRecord) (now som fcnt segLen ttl : Z) (segData : list Z) (b : ArdpSndBuf) : ArdpSndBuf :=
  with_s_datalen segLen (with_s_data segData (with_s_tStart now (with_s_ttl ttl
    (with_s_hdr (with_h_sq (NXT (snd c)) (with_h_dlen segLen (with_h_dst (foreign c) (with_h_src (local c)
       (with_h_cnt fcnt (with_h_start som (s_hdr b))))))) b)))).

Lemma after_send_events c now i som fcnt segLen ttl ttlSend segData b : 0 <= segLen <= zlen segData ->
  let b1 := fragment_buf c now som fcnt segLen ttl segData b in
  events (after_send (put_sbuf i b1 c) i ttlSend b1) =
  events c ++ [Sent (data_bytes c (NXT (snd c)) som fcnt ttlSend (take (Z.to_nat segLen) segData)) ER_OK].
Proof.
  intros Hd b1. unfold data_bytes. rewrite length_take, Nat.min_l, Z2Nat.id by lia. unfold after_send, eack_header.
  change (sends_eack (put_sbuf i b1 c)) with (sends_eack c). by destruct (sends_eack c).
Qed.

Lemma send_fragment_ok cfg now c i som fcnt segLen ttl ttlSend segData : sendable c -> 0 <= i < SEGMAX (snd c) ->
  w32 (NXT (snd c) - UNA (snd c)) < SEGMAX (snd c) -> pending (snd c) < SEGMAX (snd c) -> 0 <= segLen <= zlen segData ->
  exists c', send_fragment cfg now i som fcnt segLen ttl ttlSend segData true c = Ok ((ER_OK, true), c') /\ sendable c' /\ sent_same c c' /\
    NXT (snd c') = w32 (NXT (snd c) + 1) /\ pending (snd c') = pending (snd c) + 1 /\
    events c' = events c ++ [Sent (data_bytes c (NXT (snd c)) som fcnt ttlSend (take (Z.to_nat segLen) segData)) ER_OK].
Proof.
  intros [Hm Hj Ho Hr [Hs Hl] Hp] Hi Hw Hpe Hd. destruct (lookup_lt_is_Some_2 (sbuf (snd c)) (Z.to_nat i)) as [b Hb]; [lia|].
  unfold send_fragment. rewrite (mdo_eq _ _ _ c c) by done. rewrite (proj2 (Z.ltb_lt _ _)) by done. rewrite (mdo_eq _ _ _ tt c) by done.
  set (b1 := fragment_buf c now som fcnt segLen ttl segData b).
  set (c1 := with_snd (with_sbuf (<[Z.to_nat i := b1]> (sbuf (snd c))) (snd c)) c).
  rewrite (mdo_eq _ _ _ tt c1).
  2:{ unfold change_sbuf. rewrite (mdo_eq _ _ _ b c) by (apply sbuf_at_ok; [lia|done]). done. }
  change c1 with (put_sbuf i b1 c) in *. clear c1. set (c1 := put_sbuf i b1 c). rewrite Hm, Hj. cbn [andb negb].
  pose proof (put_sbuf_lookup c i b1 ltac:(lia)) as Hb1. fold c1 in Hb1. pose proof (put_sbuf_same i b1 c) as H1. fold c1 in H1.
  assert (zlen (sbuf (snd c1)) = SEGMAX (snd c)) as Hl1 by (rewrite (ws_len _ _ H1); lia).
  set (c2 := after_send c1 i ttlSend b1). destruct (after_send_same c1 i ttlSend b1 ltac:(lia)) as (H2 & Hj2 & Ho2 & h2 & Hb2). fold c2 in H2, Hj2, Ho2, Hb2.
  pose proof (write_same_trans _ _ _ H1 H2) as H12.
  assert (exists timeout, (let* status := SendMsgData i ttlSend in let* c0 := get in
      let* timeout := (if rttInit c0 then lift (GetRTO c0) else ret (initialDataTimeout cfg)) in ret (status, timeout)) c1 = Ok ((ER_OK, timeout), c2)) as [timeout Et].
  { rewrite (mdo_eq _ _ _ ER_OK c2) by (apply SendMsgData_ok; [done|lia|done]). rewrite (mdo_eq _ _ _ c2 c2) by done.
    rewrite (ws_rttInit _ _ H12). destruct (rttInit c) eqn:Er; [|by eexists]. unfold GetRTO. rewrite (ws_backoff _ _ H12).
    rewrite (proj2 (Z.leb_gt _ _)) by (destruct (Hr eq_refl); done). by eexists. }
  rewrite (mdo_eq _ _ _ _ _ Et). rewrite (mdo_eq _ _ _ c2 c2) by done. rewrite Hj2. cbn [orb negb]. cbn match. rewrite decide_True by done.
  rewrite (mdo_eq _ _ _ tt (put_sbuf i (with_s_inUse true (with_s_hdr h2 b1)) c2)) by (apply change_sbuf_ok; [lia|done]).
  set (c3 := put_sbuf _ _ c2). pose proof (put_sbuf_same i (with_s_inUse true (with_s_hdr h2 b1)) c2) as H3. fold c3 in H3.
  destruct (set_dataTimer_ok now c3 i timeout 1 (with_s_inUse true (with_s_hdr h2 b1))) as (c4 & E4 & H4 & Hj4 & Ho4 & Hev4).
  { rewrite (ws_len _ _ H3), (ws_len _ _ H2). lia. }
  { apply put_sbuf_lookup. rewrite (ws_len _ _ H2). lia. }
  rewrite (mdo_eq _ _ _ _ _ E4). cbn [when].
  rewrite (ws_simple _ _ H12), Hm. cbn [when].
  pose proof (write_same_trans _ _ _ H12 (write_same_trans _ _ _ H3 H4)) as [[] Hn Hpn Hln Hsn Hrn Hbn].
  unfold EnList, on_snd, modify, mdo, get, ret. cbn [rbind]. cbn -[w16 w32 after_send].
  rewrite Hpn. assert (w16 (pending (snd c) + 1) = pending (snd c) + 1) as -> by (apply Z.mod_small; lia).
  rewrite ss_segmax0. rewrite (proj2 (Z.leb_le _ _)) by lia. cbn [check rbind]. eexists. split; [done|].
  split_and!; [| |cbn; congruence|cbn; lia|].
  - split; cbn; rewrite ?Hrn, ?Hbn, ?ss_segmax0, ?Hln; try done; [congruence|by rewrite Hj4|by rewrite Ho4|lia].
  - by split.
  - cbn [events with_snd with_dataTimers with_persistTimer]. rewrite Hev4.
    change (events c3) with (events (after_send c1 i ttlSend b1)). by apply after_send_events.
Qed.

(** * All the fragments *)

Lemma data_bytes_same c c' seq som fcnt ttl data : sent_same c c' -> modeSimple c' = modeSimple c ->
  data_bytes c' seq som fcnt ttl data = data_bytes c seq som fcnt ttl data.
Proof.
  intros [] Hm. unfold data_bytes, eack_header, sends_eack, eack_bytes, data_header. by rewrite ss_rcv0, ss_local0, ss_foreign0, ss_una0, Hm.
Qed.

Lemma sent_same_trans c c1 c2 : sent_same c c1 -> sent_same c1 c2 -> sent_same c c2.
Proof. intros [] []. split; congruence. Qed.

(** The [j]-th part of [D] bytes. *)
Definition part (D : Z) (data : list Z) (j : nat) : list Z := take (Z.to_nat D) (drop (j * Z.to_nat D) data).

Definition fragment_sent (c : ArdpConnRecord) (D som fcnt ttl : Z) (data : list Z) (j : nat) : Event :=
  Sent (data_bytes c (w32 (NXT (snd c) + Z.of_nat j)) som fcnt ttl (part D data j)) ER_OK.

Lemma w32_succ a b : w32 (w32 (a + 1) + b) = w32 (a + (1 + b)).
Proof. unfold w32. rewrite Zplus_mod_idemp_l. f_equal. lia. Qed.

Lemma send_loop_ok cfg now som fcnt lastLen ttl ttlSend D n : forall k i c data, sendable c -> 0 <= i < SEGMAX (snd c) ->
  maxDlen (snd c) = D -> 1 <= lastLen <= D -> D < 2 ^ 16 -> k + Z.of_nat n = fcnt -> (n <> 0)%nat -> zlen data = D * (Z.of_nat n - 1) + lastLen ->
  w32 (NXT (snd c) - UNA (snd c)) + Z.of_nat n <= SEGMAX (snd c) -> pending (snd c) + Z.of_nat n <= SEGMAX (snd c) ->
  0 <= NXT (snd c) < 2 ^ 32 ->
  exists c', send_loop cfg now n k i som fcnt lastLen ttl ttlSend data true ER_OK c = Ok (ER_OK, c') /\ sendable c' /\ sent_same c c' /\
    NXT (snd c') = w32 (NXT (snd c) + Z.of_nat n) /\ pending (snd c') = pending (snd c) + Z.of_nat n /\
    events c' = events c ++ map (fragment_sent c D som fcnt ttlSend data) (seq 0 n).
Proof.
  induction n as [|n IH]; intros k i c data Hc Hi HD Hlast H16 Hk Hn0 Hlen Hw Hp Hnxt; [done|]. cbn [send_loop].
  rewrite (mdo_eq _ _ _ c c) by done. rewrite HD. destruct (sd_ring _ Hc) as [Hs _].
  assert ((if k =? fcnt - 1 then w16 lastLen else D) = (if decide (n = 0%nat) then lastLen else D)) as ->.
  { assert (w16 lastLen = lastLen) as -> by (apply Z.mod_small; lia). destruct (Z.eqb_spec k (fcnt - 1)), (decide (n = 0%nat)); (done || lia). }
  set (segLen := if decide (n = 0%nat) then lastLen else D).
  assert (0 <= segLen <= zlen data /\ take (Z.to_nat segLen) data = part D data 0) as [Hseg Htake].
  { unfold part, segLen. rewrite drop_0. destruct (decide (n = 0%nat)) as [->|]; [|split; [nia|done]]. split; [lia|]. rewrite !take_ge by lia. done. }
  destruct (send_fragment_ok cfg now c i som fcnt segLen ttl ttlSend data Hc Hi ltac:(lia) ltac:(lia) Hseg) as (c1 & E1 & Hc1 & Hsame & Hnx & Hpd & Hev).
  rewrite (mdo_eq _ _ _ _ _ E1). rewrite decide_True by done.
  rewrite (mdo_eq _ _ _ ((i + 1) mod SEGMAX (snd c)) c1).
  2:{ unfold snext. rewrite (mdo_eq _ _ _ c1 c1) by done. rewrite (ss_segmax _ _ Hsame). by rewrite (proj2 (Z.eqb_neq _ _)) by lia. }
  assert (Sent (data_bytes c (NXT (snd c)) som fcnt ttlSend (take (Z.to_nat segLen) data)) ER_OK = fragment_sent c D som fcnt ttlSend data 0) as Hfirst.
  { unfold fragment_sent. rewrite Z.add_0_r, Htake. unfold w32. by rewrite Z.mod_small by lia. }
  destruct (decide (n = 0%nat)) as [->|Hn].
  { cbn [send_loop]. exists c1. split_and!; [done|done|done|rewrite Hnx; f_equal; lia|lia|]. rewrite Hev, Hfirst. done. }
  assert (w32 (NXT (snd c1) - UNA (snd c1)) = w32 (NXT (snd c) - UNA (snd c)) + 1) as Hw1.
  { rewrite Hnx, (ss_una _ _ Hsame). unfold w32 in *. rewrite Zminus_mod_idemp_l.
    replace (NXT (snd c) + 1 - UNA (snd c)) with (NXT (snd c) - UNA (snd c) + 1) by lia. rewrite <- Zplus_mod_idemp_l. apply Z.mod_small.
    pose proof (Z.mod_pos_bound (NXT (snd c) - UNA (snd c)) (2 ^ 32)). lia. }
  change segLen with D in *. clear segLen Hseg Htake.
  destruct (IH (k + 1) ((i + 1) mod SEGMAX (snd c)) c1 (drop (Z.to_nat D) data)) as (c2 & E2 & Hc2 & Hsame2 & Hnx2 & Hpd2 & Hev2);
    rewrite ?(ss_segmax _ _ Hsame), ?(ss_maxDlen _ _ Hsame); try done; try lia.
  { apply Z.mod_pos_bound. lia. }
  { rewrite length_drop. assert (D * (Z.of_nat (S n) - 1) = D * (Z.of_nat n - 1) + D) by (rewrite Nat2Z.inj_succ; ring). nia. }
  { rewrite Hnx. apply Z.mod_pos_bound. lia. }
  exists c2. split_and!; [done|done|by eapply sent_same_trans| |lia|].
  - rewrite Hnx2, Hnx, w32_succ. f_equal. lia.
  - rewrite Hev2, Hev, <- app_assoc, Hfirst. f_equal. change (seq 0 (S n)) with (0%nat :: seq 1 n). rewrite <- seq_shift, map_cons, map_map.
    cbn [app]. f_equal. apply map_ext. intros j. unfold fragment_sent. f_equal.
    rewrite (data_bytes_same c c1) by (done || by rewrite (sd_simple _ Hc1), (sd_simple _ Hc)).
    rewrite Hnx, w32_succ. replace (Z.of_nat (S j)) with (1 + Z.of_nat j) by lia.
    assert (part D (drop (Z.to_nat D) data) j = part D data (S j)) as -> by (unfold part; by rewrite drop_drop). done.
Qed.

(** * Messages *)

(** The number of fragments of [len] bytes, and the size of the last one. *)
Definition fragment_count (D len : Z) : Z := if len <=? D then 1 else (len + (D - 1)) / D.

Lemma fragment_count_bounds D len : 1 <= D -> 1 <= len ->
  1 <= fragment_count D len /\ 1 <= len - D * (fragment_count D len - 1) <= D.
Proof. intros HD Hl. unfold fragment_count. destruct (Z.leb_spec len D); [lia|]. Z.to_euclidean_division_equations. nia. Qed.

Lemma concat_parts D data n : 0 <= D -> zlen data <= D * Z.of_nat n -> concat (map (part D data) (seq 0 n)) = data.
Proof.
  intros HD. revert data. induction n as [|n IH]; intros data Hl.
  { destruct data; [done|]. cbn [length] in Hl. lia. }
  change (seq 0 (S n)) with (0%nat :: seq 1 n). rewrite <- seq_shift, map_cons, map_map. cbn [concat].
  rewrite (map_ext _ (part D (drop (Z.to_nat D) data))) by (intros j; unfold part; by rewrite drop_drop).
  rewrite IH by (rewrite length_drop; nia). unfold part. rewrite drop_0. apply take_drop.
Qed.

Lemma part_length D data n j : 1 <= D -> D * (n - 1) < zlen data <= D * n -> Z.of_nat j < n -> 1 <= zlen (part D data j) <= D.
Proof. intros HD Hl Hj. unfold part. rewrite length_take, length_drop. nia. Qed.

Lemma ARDP_Send_ok cfg now c buf : sendable c -> state c = OPEN -> listed c = true -> buf <> [] -> zlen buf < 2 ^ 31 ->
  let D := maxDlen (snd c) in let n := fragment_count D (zlen buf) in
  1 <= D < 2 ^ 16 -> n <= window c -> pending (snd c) + n <= SEGMAX (snd c) -> w32 (NXT (snd c) - UNA (snd c)) + n <= SEGMAX (snd c) ->
  0 <= NXT (snd c) < 2 ^ 32 ->
  exists c', ARDP_Send cfg now buf 0 c = Ok (ER_OK, c') /\ sendable c' /\ sent_same c c' /\ NXT (snd c') = w32 (NXT (snd c) + n) /\
    pending (snd c') = pending (snd c) + n /\
    events c' = events c ++ map (fragment_sent c D (NXT (snd c)) n 0 buf) (seq 0 (Z.to_nat n)).
Proof.
  intros Hc Hst Hli Hne H31 D n HD Hwin Hp Hw Hnxt. destruct (sd_ring _ Hc) as [Hs _]. pose proof (sd_pending _ Hc) as Hp0.
  assert (1 <= zlen buf) as Hlen by (destruct buf; [done|cbn [length]; lia]).
  destruct (fragment_count_bounds D (zlen buf) ltac:(lia) Hlen) as [Hn1 Hlast]. fold n in Hn1, Hlast.
  pose proof (Z.mod_pos_bound (NXT (snd c) - UNA (snd c)) (2 ^ 32) ltac:(lia)) as Hmod. fold (w32 (NXT (snd c) - UNA (snd c))) in Hmod.
  unfold ARDP_Send. rewrite (mdo_eq _ _ _ c c) by done. rewrite Hli. cbn [negb]. rewrite bool_decide_false by (rewrite Hst; intros H; by apply H).
  rewrite (proj2 (Z.eqb_neq (zlen buf) 0)) by lia. rewrite (proj2 (Z.eqb_neq (window c) 0)) by lia. rewrite (proj2 (Z.leb_gt _ _)) by lia. cbn [orb].
  unfold SendData. rewrite (mdo_eq _ _ _ c c) by done. fold D.
  rewrite (mdo_eq _ _ _ (NXT (snd c) mod SEGMAX (snd c)) c).
  2:{ unfold sindex. rewrite (mdo_eq _ _ _ c c) by done. by rewrite (proj2 (Z.eqb_neq (SEGMAX (snd c)) 0)) by lia. }
  rewrite (mdo_eq _ _ _ (n, zlen buf - D * (n - 1)) c).
  2:{ unfold n, fragment_count. destruct (Z.leb_spec (zlen buf) D) as [Hle|Hgt]; [by replace (zlen buf - D * (1 - 1)) with (zlen buf) by lia|].
      rewrite (proj2 (Z.eqb_neq D 0)) by lia. cbv zeta.
      assert (n = (zlen buf + (D - 1)) / D) as En by (unfold n, fragment_count; by rewrite (proj2 (Z.leb_gt _ _)) by lia).
      assert (w32 (zlen buf + (D - 1)) = zlen buf + (D - 1)) as -> by (apply Z.mod_small; lia). rewrite <- En.
      assert (w16 n = n) as -> by (apply Z.mod_small; lia). unfold w32. rewrite Z.mod_small; [done|]. lia. }
  cbn match beta. rewrite (proj2 (Z.eqb_neq n 0)) by lia. cbn [negb]. rewrite (mdo_eq _ _ _ tt c) by done.
  rewrite !(proj2 (Z.ltb_ge _ _)) by lia. change (0 =? ARDP_TTL_INFINITE) with true. cbn [negb]. rewrite andb_false_r. cbn [andb].
  destruct (send_loop_ok cfg now (NXT (snd c)) n (zlen buf - D * (n - 1)) 0 0 D (Z.to_nat n) 0 (NXT (snd c) mod SEGMAX (snd c)) c buf)
    as (c' & E & Hc' & Hsame & Hnx & Hpd & Hev); try done; try lia.
  { apply Z.mod_pos_bound. lia. }
  exists c'. rewrite Z2Nat.id in Hnx, Hpd by lia. done.
Qed.
