(* ===== verification/ArdpConnTheorems.v ===== *)
(** What holds of a connection of ARDP: the order of its states, what opens it, its
    handshake, its segments on the wire, and runs in which it goes wrong. *)
From stdpp Require Import relations.
From S2P Require Import Prelude Types Marshal Ardp ArdpState ArdpConn ArdpConnProofs ArdpSendProofs.
Import Ardp ArdpState ArdpConn.

(** * Steps of a connection *)

(** What can happen to a connection: a datagram arrives, timers are checked, the
    transport sends a message, consumes a message or closes. *)
Inductive action : Type :=
| Datagram (buf : list Z) (nbytes : Z)
| Timers
| Message (buf : list Z) (ttl : Z)
| Consumed (i : Z)
| Close.

Definition perform (cfg : ArdpGlobalConfig) (now : Z) (AcceptCb : list Z -> M bool) (a : action) : M QStatus :=
  match a with
  | Datagram buf nbytes => run_datagram cfg now AcceptCb buf nbytes
  | Timers => let* _ := CheckTimers cfg now in ret ER_OK
  | Message buf ttl => ARDP_Send cfg now buf ttl
  | Consumed i => ARDP_RecvReady cfg now i
  | Close => ARDP_Disconnect cfg now
  end.

Definition steps (cfg : ArdpGlobalConfig) (AcceptCb : list Z -> M bool) (c c' : ArdpConnRecord) : Prop :=
  exists now a st, perform cfg now AcceptCb a c = Ok (st, c').

(** ** Datagrams *)

(** A datagram is dropped, or it is a segment that the state machine is given. *)
Lemma Receive_machine cfg now AcceptCb buf n c st c' : Receive cfg now AcceptCb buf n c = Ok (st, c') ->
  quiet c c' \/ exists seg c1 u, quiet c c1 /\ rcv_of c1 = rcv_of c /\ ArdpMachine cfg now AcceptCb seg buf c1 = Ok (u, c') /\
    get8 buf 0 = Ok (gFLG seg) /\ (flag_set (gFLG seg) ARDP_FLAG_RST = false -> get32 buf 12 = Ok (gACK seg)).
Proof.
  unfold Receive. intros (flg & c1 & E1 & E)%mdo_Ok. unfold lift in E1. destruct (get8 buf 0) as [f| |] eqn:Ef; try done.
  injection E1 as <- <-. apply mdo_Ok in E as (hlen & c1 & E1 & E). unfold lift in E1. destruct (get8 buf 1) as [h| |]; try done.
  injection E1 as <- <-. destruct (flag_set f ARDP_FLAG_RST) eqn:Er.
  { apply mdo_Ok in E as (u & c1 & E1 & [= <- <-]). right. exists (bare_segment f h), c, u. split_and!; try done. cbn. by rewrite Er. }
  apply mdo_Ok in E as (dlen & c1 & E1 & E). unfold lift in E1. destruct (get16 buf 6) as [d| |]; try done. injection E1 as <- <-.
  destruct (_ || negb (d + h * 2 =? n)); [injection E as _ <-; by left|].
  destruct (flag_set f ARDP_FLAG_SYN).
  { apply mdo_Ok in E as (seg & c1 & E1 & E). unfold lift, read_syn in E1. destruct (get32 buf 8) as [sq| |]; try done.
    destruct (get32 buf 12) as [ak| |] eqn:Ea; try done. injection E1 as <- <-.
    apply mdo_Ok in E as (u & c1 & E1 & [= <- <-]). right. eexists _, c, u. split_and!; [done|done|exact E1|done|done]. }
  unfold mdo at 1, get in E. cbn [rbind] in E. apply mdo_Ok in E as (seg & c0 & E1 & E).
  assert (c0 = c /\ gFLG seg = f /\ get32 buf 12 = Ok (gACK seg)) as (-> & Hf & Ha).
  { unfold lift, read_segment in E1. destruct (get32 buf 8); try done. destruct (get32 buf 12); try done. destruct (get32 buf 20); try done.
    destruct (get32 buf 24); try done. destruct (get32 buf 16); try done. destruct (get32 buf 28); try done. destruct (get16 buf 32); try done.
    by injection E1 as <- <-. }
  clear E1. apply mdo_Ok in E as (u & c1 & E1 & E).
  assert (quiet c c1 /\ rcv_of c1 = rcv_of c) as [Hq Hr].
  { destruct (modeSimple c); [|by injection E1 as _ <-]. injection E1 as _ <-. by split. }
  destruct (segment_valid c _); [|injection E as _ <-; by left].
  apply mdo_Ok in E as (u' & c2 & E2 & [= <- <-]). right. exists seg, c1, u'. split_and!; try done. by rewrite Hf.
Qed.

Lemma quiet_forward c c' : quiet c c' -> forward c c'.
Proof. intros. by apply closing_forward, quiet_closing. Qed.

Lemma opening_forward c c' : (rank (state c) < 2)%nat -> opening c c' -> forward c c'.
Proof. unfold opening, forward. intros Hr [H|[H|[H|H]]]; rewrite H; cbn; auto with lia; right; lia. Qed.

Lemma ArdpMachine_forward cfg now AcceptCb seg buf c u c' : accepts AcceptCb ->
  ArdpMachine cfg now AcceptCb seg buf c = Ok (u, c') -> forward c c'.
Proof.
  intros Hcb. unfold ArdpMachine. unfold mdo, get. cbn [rbind]. destruct (state c) eqn:Es; intros E.
  - by apply closing_forward, (closing_machine_CLOSED _ _ _ _ E).
  - injection E as _ <-. by left.
  - by eapply machine_LISTEN_forward.
  - apply opening_forward; [rewrite Es; cbn; lia|]. by eapply opening_machine_SYN_SENT.
  - apply opening_forward; [rewrite Es; cbn; lia|]. by eapply opening_machine_SYN_RCVD.
  - by apply closing_forward, (closing_machine_OPEN _ _ _ _ _ _ _ E).
Qed.

Lemma run_datagram_forward cfg now AcceptCb buf n c st c' : accepts AcceptCb -> run_datagram cfg now AcceptCb buf n c = Ok (st, c') -> forward c c'.
Proof.
  intros Hcb. unfold run_datagram. unfold mdo at 1, get. cbn [rbind]. destruct (_ && _); [|intros [= _ <-]; by left].
  intros (u & c1 & [= _ <-] & (u' & c2 & [= _ <-] & (st' & c3 & E3 & (u'' & c4 & E4 & [= _ <-])%mdo_Ok)%mdo_Ok)%mdo_Ok)%mdo_Ok.
  assert (closing c3 c4) as H4 by (refine ((_ : keeps closing _) _ _ _ E4); closing).
  apply forward_trans with c3; [|by apply closing_forward].
  destruct (Receive_machine _ _ _ _ _ _ _ _ E3) as [Hq|(seg & c5 & v & Hq & _ & Em & _)]; [by apply quiet_forward in Hq|].
  apply ArdpMachine_forward in Em; [|done]. apply quiet_forward in Hq. by eapply forward_trans.
Qed.

(** C24: The state of a connection only goes forward, from LISTEN or SYN_SENT over SYN_RCVD and
    OPEN to CLOSE_WAIT and CLOSED, whatever datagrams arrive, timers fire and calls
    the transport makes: a connection that closes never opens again, one that is
    open never returns to its handshake, and CLOSED is final. *)
Theorem ARDP_state_forward cfg AcceptCb c c' :
  accepts AcceptCb -> rtc (steps cfg AcceptCb) c c' ->
  state c' = state c \/ (rank (state c) < rank (state c'))%nat.
Proof.
  intros Hcb. induction 1 as [c|c c1 c' (now & a & st & E) _ IH]; [by left|]. apply (forward_trans c c1); [|done].
  destruct a; cbn [perform] in E.
  - by eapply run_datagram_forward.
  - apply mdo_Ok in E as (u & c2 & E & [= _ <-]). by apply closing_forward, (closing_CheckTimers _ _ _ _ _ E).
  - by apply closing_forward, (closing_ARDP_Send _ _ _ _ _ _ _ E).
  - by apply closing_forward, (closing_ARDP_RecvReady _ _ _ _ _ _ E).
  - by apply closing_forward, (closing_ARDP_Disconnect _ _ _ _ _ E).
Qed.

Lemma closing_not_OPEN c c' : closing c c' -> state c <> OPEN -> state c' <> OPEN.
Proof. intros [[H|[H|[H _]]] _] Hn; rewrite H; done. Qed.

(** C25: A connection opens by nothing but a datagram without RST that acknowledges the
    sequence number of its own SYN: in SYN_SENT a SYN with ACK and the version of the
    protocol, in SYN_RCVD an ACK without SYN. *)
Theorem ARDP_opens_acknowledged cfg now AcceptCb a c st c' :
  accepts AcceptCb -> perform cfg now AcceptCb a c = Ok (st, c') -> state c <> OPEN -> state c' = OPEN ->
  exists buf n flg, a = Datagram buf n /\ get8 buf 0 = Ok flg /\ get32 buf 12 = Ok (ISS (snd c)) /\
    flag_set flg ARDP_FLAG_RST = false /\ flag_set flg ARDP_FLAG_ACK = true /\
    ((state c = SYN_SENT /\ flag_set flg ARDP_FLAG_SYN = true /\ Z.land flg ARDP_VERSION_BITS = ARDP_FLAG_VER) \/
     (state c = SYN_RCVD /\ flag_set flg ARDP_FLAG_SYN = false)).
Proof.
  intros Hcb E Hn Ho. assert (forall c1, closing c1 c' -> state c1 = state c -> False) as Hclose.
  { intros c1 H Hs. by eapply closing_not_OPEN in H; [|rewrite Hs]. }
  destruct a as [buf n| | | |]; cbn [perform] in E.
  2:{ apply mdo_Ok in E as (u & c2 & E & [= _ <-]). exfalso. by apply (Hclose c); [by eapply closing_CheckTimers|]. }
  2:{ exfalso. by apply (Hclose c); [by eapply closing_ARDP_Send|]. }
  2:{ exfalso. by apply (Hclose c); [by eapply closing_ARDP_RecvReady|]. }
  2:{ exfalso. by apply (Hclose c); [by eapply closing_ARDP_Disconnect|]. }
  unfold run_datagram in E. unfold mdo at 1, get in E. cbn [rbind] in E. destruct (_ && _); [|injection E as _ <-; done].
  apply mdo_Ok in E as (u & c1 & [= _ <-] & (u' & c2 & [= _ <-] & (st' & c3 & E3 & (u'' & c4 & E4 & [= _ <-])%mdo_Ok)%mdo_Ok)%mdo_Ok).
  assert (closing c3 c4) as H4 by (refine ((_ : keeps closing _) _ _ _ E4); closing).
  set (c0 := with_probeTimer _ _) in E3.
  destruct (Receive_machine _ _ _ _ _ _ _ _ E3) as [(Hq & _)|(seg & c5 & v & (Hq1 & Hq2 & Hq3) & Hr & Em & Hflg & Hack)].
  { exfalso. by apply (Hclose c3 H4). }
  assert (state c3 = OPEN) as Ho3 by (by destruct (decide (state c3 = OPEN)); [|eapply closing_not_OPEN in H4]).
  change (state c5 = state c) in Hq1. change (ISS (snd c5) = ISS (snd c)) in Hq3.
  unfold ArdpMachine, mdo, get in Em. cbn [rbind] in Em. destruct (state c5) eqn:Es.
  - exfalso. apply closing_machine_CLOSED in Em. by eapply closing_not_OPEN in Em; [|congruence].
  - injection Em as _ <-. congruence.
  - destruct (machine_LISTEN_forward cfg now AcceptCb seg buf c5 v c3 Hcb Es Em). congruence.
  - destruct (machine_SYN_SENT_opens cfg now seg buf c5 v c3 Em Es Ho3) as (Hf1 & Hf2 & Hf3 & Hv & Ha).
    exists buf, n, (gFLG seg). split_and!; try done; [rewrite Hack by done; congruence|]. left. by rewrite <- Hq1.
  - destruct (machine_SYN_RCVD_opens cfg now seg buf c5 v c3 Em Es Ho3) as (Hf1 & Hf2 & Hf3 & _ & Ha).
    exists buf, n, (gFLG seg). split_and!; try done; [rewrite Hack by done; congruence|]. right. by rewrite <- Hq1.
  - congruence.
Qed.

(** * Segments on the wire *)

Lemma put16_value v : 0 <= v < 2 ^ 16 -> v / 256 mod 256 * 256 + v mod 256 = v.
Proof. intros H. Z.to_euclidean_division_equations. lia. Qed.

Lemma put32_value v : 0 <= v < 2 ^ 32 ->
  (v / 2 ^ 24 mod 256 * 256 + v / 2 ^ 16 mod 256) * 2 ^ 16 + (v / 256 mod 256 * 256 + v mod 256) = v.
Proof.
  intros H. change (2 ^ 24) with (65536 * 256). change (2 ^ 16) with 65536. rewrite <- Z.div_div by lia.
  rewrite put16_value by (change (2 ^ 16) with 65536; split; [apply Z.div_pos; lia|apply Z.div_lt_upper_bound; lia]).
  replace (v / 256 mod 256 * 256 + v mod 256) with (v mod 65536) by (Z.to_euclidean_division_equations; lia).
  rewrite (Z.div_mod v 65536) at 3 by lia. lia.
Qed.

Lemma get8_app pre l i : 0 <= i -> get8 (pre ++ l) (zlen pre + i) = get8 l i.
Proof.
  intros Hi. unfold get8. rewrite !(proj2 (Z.ltb_ge _ _)) by lia. rewrite lookup_app_r by lia.
  by replace (Z.to_nat (zlen pre + i) - length pre)%nat with (Z.to_nat i) by lia.
Qed.
Lemma get32_app pre l i : 0 <= i -> get32 (pre ++ l) (zlen pre + i) = get32 l i.
Proof. intros Hi. unfold get32, get16. by rewrite <- !Z.add_assoc, !get8_app by lia. Qed.

Record header_ok (h : ArdpHeader) : Prop := {
  ho_src : 0 <= h_src h < 2 ^ 16; ho_dst : 0 <= h_dst h < 2 ^ 16; ho_dlen : 0 <= h_dlen h < 2 ^ 16; ho_sq : 0 <= h_sq h < 2 ^ 32;
  ho_ack : 0 <= h_ack h < 2 ^ 32; ho_time : 0 <= h_time h < 2 ^ 32; ho_lcs : 0 <= h_lcs h < 2 ^ 32;
  ho_acknxt : 0 <= h_acknxt h < 2 ^ 32; ho_start : 0 <= h_start h < 2 ^ 32; ho_cnt : 0 <= h_cnt h < 2 ^ 16
}.

(** The segment that a header stands for at the receiver [c]. *)
Definition segment_for (c : ArdpConnRecord) (h : ArdpHeader) : ArdpSeg :=
  {| gSEQ := h_sq h; gACK := h_ack h; gLCS := h_lcs h; gACKNXT := h_acknxt h; gSOM := h_start h; gTTL := h_time h; gFCNT := h_cnt h;
     gDLEN := h_dlen h; gWINDOW := w16 (SEGMAX (snd c) - (NXT (snd c) - (h_lcs h + 1))); gFLG := h_flags h; gHLEN := h_hlen h |}.

Lemma MarshalHeader_fields h rest : header_ok h -> let b := MarshalHeader h ++ rest in
  get16 b 6 = Ok (h_dlen h) /\ get32 b 8 = Ok (h_sq h) /\ get32 b 12 = Ok (h_ack h) /\ get32 b 16 = Ok (h_time h) /\
  get32 b 20 = Ok (h_lcs h) /\ get32 b 24 = Ok (h_acknxt h) /\ get32 b 28 = Ok (h_start h) /\ get16 b 32 = Ok (h_cnt h).
Proof. intros []. cbv zeta. split_and!; first [refine (f_equal Ok (put32_value _ _)); done|refine (f_equal Ok (put16_value _ _)); done]. Qed.

Lemma read_segment_marshal c h rest : header_ok h ->
  read_segment c (MarshalHeader h ++ rest) (h_flags h) (h_hlen h) (h_dlen h) = Ok (segment_for c h).
Proof.
  intros H. destruct (MarshalHeader_fields h rest H) as (_ & E1 & E2 & E3 & E4 & E5 & E6 & E7). unfold read_segment.
  rewrite E1, E2, E3, E4, E5, E6, E7. done.
Qed.

Lemma MarshalHeader_length h : length (MarshalHeader h) = 36%nat.
Proof. done. Qed.

(** The payload of a segment, whatever follows it in the buffer. *)
Lemma segment_data_marshal c h mask data stale : h_hlen h * 2 = 36 + zlen mask -> h_dlen h = zlen data ->
  segment_data (segment_for c h) (MarshalHeader h ++ mask ++ data ++ stale) =
  {| SEQ := h_sq h; SOM := h_start h; FCNT := h_cnt h; TTL := h_time h; payload := data |}.
Proof.
  intros Hh Hd. unfold segment_data, segment_for. cbn [gSEQ gSOM gFCNT gTTL gDLEN gHLEN]. f_equal. rewrite Hh, Hd.
  rewrite app_assoc, drop_app_length' by (rewrite length_app, MarshalHeader_length; lia). by rewrite take_app_length' by lia.
Qed.

Lemma flat_map_put32 words : zlen (flat_map put32 words) = 4 * zlen words.
Proof. induction words as [|w l IH]; [done|]. cbn [flat_map]. rewrite length_app. cbn [length put32] in *. lia. Qed.

(** A segment that is neither a SYN nor an RST, as MarshalHeader lays it out before its
    mask and its data, is read back by Receive whatever the buffer holds after it: the
    state machine is given every field of the header, the data and the words of the
    mask, when the segment passes the checks, and else the datagram is refused. *)
Lemma Receive_marshal cfg now AcceptCb h words data stale c :
  header_ok h -> flag_set (h_flags h) ARDP_FLAG_SYN = false -> flag_set (h_flags h) ARDP_FLAG_RST = false ->
  Forall (fun w => 0 <= w < 2 ^ 32) words -> h_hlen h * 2 = 36 + 4 * zlen words -> h_dlen h = zlen data -> modeSimple c = false ->
  let buf := MarshalHeader h ++ flat_map put32 words ++ data ++ stale in
  let seg := segment_for c h in
  Receive cfg now AcceptCb buf (36 + 4 * zlen words + zlen data) c =
    (if segment_valid c seg then let* _ := ArdpMachine cfg now AcceptCb seg buf in ret ER_OK else ret ER_ARDP_INVALID_RESPONSE) c /\
  segment_data seg buf = {| SEQ := h_sq h; SOM := h_start h; FCNT := h_cnt h; TTL := h_time h; payload := data |} /\
  forall i w, words !! i = Some w -> get32 (drop (Z.to_nat ARDP_FIXED_HEADER_LEN) buf) (4 * Z.of_nat i) = Ok w.
Proof.
  intros Hok Hsyn Hrst Hw Hh Hd Hm buf seg.
  pose proof (flat_map_put32 words) as Hlen.
  split_and!.
  - unfold Receive. unfold mdo at 1, lift.
    change (get8 buf 0) with (Ok (E:=QStatus) (h_flags h)). cbn [rbind]. unfold mdo at 1, lift.
    change (get8 buf 1) with (Ok (E:=QStatus) (h_hlen h)). cbn [rbind]. rewrite Hrst. unfold mdo at 1, lift.
    destruct (MarshalHeader_fields h (flat_map put32 words ++ data ++ stale) Hok) as (Ed & _). fold buf in Ed. rewrite Ed. cbn [rbind].
    rewrite Hsyn. change ARDP_FIXED_HEADER_LEN with 36. rewrite !(proj2 (Z.ltb_ge _ _)) by lia. rewrite (proj2 (Z.eqb_eq _ _)) by lia.
    cbn [orb negb]. unfold mdo at 1, get. cbn [rbind]. unfold mdo at 1, lift. unfold buf at 1. rewrite read_segment_marshal by done. cbn [rbind].
    unfold mdo at 1. rewrite Hm. cbn [when ret rbind]. done.
  - apply segment_data_marshal; lia.
  - intros i w Hi. unfold buf. change (Z.to_nat ARDP_FIXED_HEADER_LEN) with 36%nat. rewrite drop_app_length' by done.
    clear -Hi Hw. revert i Hi. induction words as [|v l IH]; intros i Hi; [done|]. apply Forall_cons in Hw as [Hv Hw]. destruct i as [|i].
    + injection Hi as <-. refine (f_equal Ok (put32_value _ _)). done.
    + rewrite <- (IH Hw i Hi). cbn [flat_map]. rewrite <- app_assoc. 
      replace (4 * Z.of_nat (S i)) with (zlen (put32 v) + 4 * Z.of_nat i) by (change (zlen (put32 v)) with 4; lia). apply get32_app. lia.
Qed.

(** What a connection puts into its headers fits. *)
Record wire_ok (c : ArdpConnRecord) : Prop := {
  wo_local : 0 <= local c < 2 ^ 16; wo_foreign : 0 <= foreign c < 2 ^ 16;
  wo_cur : 0 <= CUR (rcv_of c) < 2 ^ 32; wo_lcs : 0 <= LCS (rcv_of c) < 2 ^ 32; wo_una : 0 <= UNA (snd c) < 2 ^ 32;
  wo_words : Forall (fun w => 0 <= w < 2 ^ 32) (htnMask (eack (rcv_of c)));
  wo_fixed : exists m, fixedSz (eack (rcv_of c)) = 4 * m /\ 0 <= m <= 14 /\ m <= zlen (htnMask (eack (rcv_of c)))
}.

Lemma data_bytes_shape c seq som fcnt ttl data : wire_ok c -> 0 <= seq < 2 ^ 32 -> 0 <= som < 2 ^ 32 -> 0 <= fcnt < 2 ^ 16 ->
  0 <= ttl < 2 ^ 32 -> zlen data < 2 ^ 16 ->
  exists h words, data_bytes c seq som fcnt ttl data = MarshalHeader h ++ flat_map put32 words ++ data /\ header_ok h /\
    flag_set (h_flags h) ARDP_FLAG_SYN = false /\ flag_set (h_flags h) ARDP_FLAG_RST = false /\
    Forall (fun w => 0 <= w < 2 ^ 32) words /\ h_hlen h * 2 = 36 + 4 * zlen words /\ h_dlen h = zlen data /\
    h_sq h = seq /\ h_start h = som /\ h_cnt h = fcnt /\ h_time h = ttl.
Proof.
  intros [] Hseq Hsom Hf Ht Hd. destruct wo_fixed0 as (m & Em & Hm & Hml). unfold data_bytes, eack_header, data_header. destruct (sends_eack c).
  - unfold eack_bytes. rewrite Em. replace (4 * m / 4) with m by (rewrite Z.mul_comm; symmetry; by apply Z.div_mul).
    eexists _, (take (Z.to_nat m) (htnMask (eack (rcv_of c)))). split; [done|]. cbn -[Z.lor]. split_and!; try done; [split; cbn; lia|by apply Forall_take|].
    rewrite length_take. change ARDP_FIXED_HEADER_LEN with 36. rewrite Z.shiftr_div_pow2 by lia. Z.to_euclidean_division_equations. lia.
  - eexists _, []. split; [done|]. cbn -[Z.lor]. split_and!; try done. split; cbn; lia.
Qed.

(** A connection that can take a message whole. *)
Record can_send (c : ArdpConnRecord) (buf : list Z) : Prop := {
  cs_sendable : sendable c; cs_open : state c = OPEN; cs_listed : listed c = true; cs_wire : wire_ok c;
  cs_buf : buf <> [] /\ zlen buf < 2 ^ 31; cs_maxDlen : 1 <= maxDlen (snd c) < 2 ^ 16; cs_nxt : 0 <= NXT (snd c) < 2 ^ 32;
  cs_window : fragment_count (maxDlen (snd c)) (zlen buf) <= window c;
  cs_pending : pending (snd c) + fragment_count (maxDlen (snd c)) (zlen buf) <= SEGMAX (snd c);
  cs_unacked : w32 (NXT (snd c) - UNA (snd c)) + fragment_count (maxDlen (snd c)) (zlen buf) <= SEGMAX (snd c)
}.

(** C26: On an open connection with room for the message in its queue and window and a
    socket that takes every datagram ([can_send]), ARDP_Send cuts a message without a
    time to live into the least number of segments and writes them with sequence numbers
    from snd.NXT on. A receiver, not in simple mode, decodes each datagram to its
    segment: its place in the message and its data, which in order are the message; and
    hands it to the state machine, or refuses it with ER_ARDP_INVALID_RESPONSE where
    [segment_valid] fails in its state. *)
Theorem ARDP_Send_received cfg now c buf : can_send c buf ->
  let D := maxDlen (snd c) in let n := fragment_count D (zlen buf) in
  exists c' datagrams, ARDP_Send cfg now buf ARDP_TTL_INFINITE c = Ok (ER_OK, c') /\
    NXT (snd c') = w32 (NXT (snd c) + n) /\ pending (snd c') = pending (snd c) + n /\
    events c' = events c ++ map (fun d => Sent d ER_OK) datagrams /\ zlen datagrams = n /\
    concat (map (part D buf) (seq 0 (Z.to_nat n))) = buf /\
    forall j d, datagrams !! j = Some d -> 1 <= zlen (part D buf j) <= D /\
      forall cfg' now' AcceptCb stale r, modeSimple r = false -> exists seg,
        Receive cfg' now' AcceptCb (d ++ stale) (zlen d) r =
          (if segment_valid r seg then let* _ := ArdpMachine cfg' now' AcceptCb seg (d ++ stale) in ret ER_OK else ret ER_ARDP_INVALID_RESPONSE) r /\
        segment_data seg (d ++ stale) =
          {| SEQ := w32 (NXT (snd c) + Z.of_nat j); SOM := NXT (snd c); FCNT := n; TTL := ARDP_TTL_INFINITE; payload := part D buf j |}.
Proof.
  intros [Hc Hst Hli Hwire [Hne Hlen] HD Hnx Hwin Hpd Hun] D n. fold D in HD, Hwin, Hpd, Hun. fold n in Hwin, Hpd, Hun.
  destruct (ARDP_Send_ok cfg now c buf Hc Hst Hli Hne Hlen HD Hwin Hpd Hun Hnx) as (c' & E & _ & _ & Hnx' & Hpd' & Hev). fold D in Hev. fold n in Hev, Hnx', Hpd'.
  assert (1 <= zlen buf) as Hlen1 by (destruct buf; [done|cbn [length]; lia]).
  destruct (fragment_count_bounds D (zlen buf) ltac:(lia) Hlen1) as [Hn1 Hlast]. fold n in Hn1, Hlast.
  exists c', (map (fun j => data_bytes c (w32 (NXT (snd c) + Z.of_nat j)) (NXT (snd c)) n 0 (part D buf j)) (seq 0 (Z.to_nat n))).
  split_and!; try done; [by rewrite map_map|rewrite length_map, length_seq; lia|apply concat_parts; nia|].
  intros j d Hd. apply list_lookup_fmap_Some in Hd as (k & -> & Hk). apply lookup_seq in Hk as [-> Hj]. cbn [Nat.add].
  assert (1 <= zlen (part D buf j) <= D) as Hpart by (apply (part_length D buf n); nia). split; [done|].
  destruct (sd_ring _ Hc) as [Hs _]. pose proof (sd_pending _ Hc) as Hp0.
  destruct (data_bytes_shape c (w32 (NXT (snd c) + Z.of_nat j)) (NXT (snd c)) n 0 (part D buf j) Hwire) as
    (h & words & -> & Hok & Hsyn & Hrst & Hw & Hhl & Hdl & Hsq & Hso & Hcn & Hti); try lia; [apply Z.mod_pos_bound; lia|].
  intros cfg' now' AcceptCb stale r Hm. exists (segment_for r h).
  destruct (Receive_marshal cfg' now' AcceptCb h words (part D buf j) stale r Hok Hsyn Hrst Hw Hhl Hdl Hm) as (Er & Ed & _).
  rewrite <- !app_assoc. rewrite Hsq, Hso, Hcn, Hti in Ed. split; [|exact Ed]. rewrite <- Er. f_equal.
  rewrite !length_app, MarshalHeader_length. assert (zlen (flat_map put32 words) = 4 * zlen words); [|lia]. apply flat_map_put32.
Qed.
