(* ===== verification/ArdpHandshake.v ===== *)
(** The three datagrams that open a connection of ARDP, from ARDP_Connect on one side
    and a datagram for no connection on the other. *)
From S2P Require Import Prelude Types Marshal Ardp ArdpRcvProofs ArdpQueueProofs ArdpTheorems ArdpState ArdpConn ArdpConnProofs ArdpSendProofs ArdpConnTheorems.
Import Ardp ArdpState ArdpConn.

(** * Operations whose writes succeed *)

Lemma call_back_eq t n c : call_back t n c =
  Ok (tt, with_msnext (if negb (w16 n =? 0) && (t <? msnext (rx c)) then t else msnext (rx c)) c).
Proof. unfold call_back. rewrite (mdo_eq _ _ _ c c) by done. destruct (_ && _); [done|]. destruct c as [? ? ? [] ? ? ? ? ? ? ? ? ? ? ? ? ? ? ? ? ? ? ? ? ? ? ?]. done. Qed.

Lemma SendToSG_ok bytes c : outcomes c = [] -> SendToSG bytes c = Ok (ER_OK, with_events (events c ++ [Sent bytes ER_OK]) (with_outcomes [] c)).
Proof. intros H. unfold SendToSG. by rewrite H. Qed.

(** The SYN of a connection. *)
Definition syn_bytes (cfg : ArdpGlobalConfig) (c : ArdpConnRecord) (data : list Z) : list Z :=
  MarshalSynHeader (if passive c then Z.lor (Z.lor ARDP_FLAG_SYN ARDP_FLAG_VER) ARDP_FLAG_ACK else Z.lor ARDP_FLAG_SYN ARDP_FLAG_VER)
    (Z.shiftr ARDP_SYN_HEADER_SIZE 1) (local c) (foreign c) (zlen data) (ISS (snd c)) (CUR (rcv_of c)) (rSEGMAX (rcv_of c)) (rSEGBMAX (rcv_of c))
    (delayedAckTimeout cfg) ARDP_FLAG_SDM ++ data.

(** What an operation of the handshake leaves as it is. *)
Record calm (c c' : ArdpConnRecord) : Prop := {
  cm_passive : passive c' = passive c; cm_listed : listed c' = listed c; cm_local : local c' = local c; cm_foreign : foreign c' = foreign c;
  cm_simple : modeSimple c' = modeSimple c; cm_outcomes : outcomes c' = outcomes c; cm_jam : trafficJam c' = trafficJam c
}.

Lemma SendSyn_ok cfg now data c : outcomes c = [] ->
  exists c', SendSyn cfg now data c = Ok (ER_OK, c') /\ calm c c' /\ state c' = state c /\ snd c' = snd c /\ rcv_of c' = rcv_of c /\ window c' = window c /\
    events c' = events c ++ [Sent (syn_bytes cfg c data) ER_OK].
Proof.
  intros Ho. unfold SendSyn. rewrite (mdo_eq _ _ _ tt (with_synData (Some data) c)) by done.
  erewrite mdo_eq. 2:{ unfold DoSendSyn. rewrite (mdo_eq _ _ _ (with_synData (Some data) c) (with_synData (Some data) c)) by done. by apply SendToSG_ok. }
  rewrite decide_False by done. rewrite bool_decide_true by done. cbn [when]. unfold set_connectTimer.
  unfold modify, mdo. cbn [rbind]. rewrite call_back_eq. cbn [rbind]. eexists. split; [done|]. split; [by split|]. done.
Qed.

Lemma Send_ok flags seq ack c : outcomes c = [] -> sz (eack (rcv_of c)) = 0 ->
  exists c', Send flags seq ack c = Ok (ER_OK, c') /\ calm c c' /\ state c' = state c /\ snd c' = snd c /\ rcv_of c' = rcv_of c /\ window c' = window c /\
    events c' = events c ++ [Sent (MarshalHeader {| h_flags := flags; h_hlen := 18; h_src := local c; h_dst := foreign c; h_dlen := 0; h_sq := seq; h_ack := ack;
                   h_time := 0; h_lcs := LCS (rcv_of c); h_acknxt := UNA (snd c); h_start := 0; h_cnt := 0 |}) ER_OK].
Proof.
  intros Ho Hz. unfold Send. rewrite (mdo_eq _ _ _ c c) by done. unfold SendMsgHeader. rewrite (mdo_eq _ _ _ c c) by done.
  unfold eack_header, sends_eack. rewrite Hz. cbn [Z.eqb negb andb]. cbn match. erewrite mdo_eq by (by apply SendToSG_ok).
  rewrite decide_False by done. unfold modify, mdo, ret. cbn [rbind]. eexists. split; [done|]. split; [by split|].
  rewrite app_nil_r. done.
Qed.

Lemma InitSnd_ok cfg now c : modeSimple c = false -> CheckConfigValid (SEGMAX (snd c)) (SEGBMAX (snd c)) (rSEGMAX (rcv_of c)) false = true ->
  exists c', InitSnd cfg now c = Ok (ER_OK, c') /\ calm c c' /\ state c' = state c /\ events c' = events c /\ window c' = SEGMAX (snd c) /\
    rcv_of c' = with_eack (rcv_of c) {| mask := mask (eack (rcv_of c)); htnMask := htnMask (eack (rcv_of c)); sz := sz (eack (rcv_of c));
                                        fixedSz := w16 (Z.shiftr (rSEGMAX (rcv_of c) + 31) 5 * 4) |} /\
    exists d b, snd c' = with_sbuf b (with_maxDlen d (snd c)) /\ zlen b = Z.max 0 (SEGMAX (snd c)) /\
      d = w16 (SEGBMAX (snd c) - (UDP_HEADER_SIZE + (ARDP_FIXED_HEADER_LEN + Z.shiftr (rSEGMAX (rcv_of c) + 31) 5 * 4) mod 256)).
Proof.
  intros Hm Hv. unfold InitSnd. rewrite (mdo_eq _ _ _ c c) by done. unfold on_snd, modify, mdo, get. cbn [rbind]. rewrite Hm. cbn [when].
  unfold ret. cbn [rbind]. cbn -[CheckConfigValid w16 Z.shiftr Z.modulo replicate Z.sub]. rewrite Hm.
  change (rSEGMAX (rcv (rx c))) with (rSEGMAX (rcv_of c)). rewrite Hv. cbn [negb]. eexists. split; [done|]. split; [by split|].
  split_and!; try done. eexists _, _. split; [done|]. rewrite length_replicate. split; [lia|done].
Qed.

(** * Reading a SYN *)

Record syn_ok (src dst dlen seq ack m b dk : Z) : Prop := {
  so_src : 0 <= src < 2 ^ 16; so_dst : 0 <= dst < 2 ^ 16; so_dlen : 0 <= dlen < 2 ^ 16; so_seq : 0 <= seq < 2 ^ 32;
  so_ack : 0 <= ack < 2 ^ 32; so_m : 0 <= m < 2 ^ 16; so_b : 0 <= b < 2 ^ 16; so_dk : 0 <= dk < 2 ^ 32
}.

Lemma MarshalSynHeader_fields f hl src dst dlen seq ack m b dk rest : syn_ok src dst dlen seq ack m b dk ->
  let buf := MarshalSynHeader f hl src dst dlen seq ack m b dk ARDP_FLAG_SDM ++ rest in
  get16 buf 2 = Ok src /\ get16 buf 6 = Ok dlen /\ get32 buf 8 = Ok seq /\ get32 buf 12 = Ok ack /\ get16 buf 16 = Ok m /\
  get16 buf 18 = Ok b /\ get32 buf 20 = Ok dk /\ get16 buf 24 = Ok ARDP_FLAG_SDM.
Proof.
  intros []. cbv zeta. split_and!; first [refine (f_equal Ok (put32_value _ _)); done|refine (f_equal Ok (put16_value _ _)); done].
Qed.

(** The record after the SYN of the other side. *)
Definition after_syn (src seq m b dk : Z) (c : ArdpConnRecord) : ArdpConnRecord :=
  with_remoteMskSz (Z.shiftr (m + 31) 5)
    (with_rcv_of {| CUR := seq; IRS := seq; LCS := seq; rbuf := rbuf (rcv_of c); eack := eack (rcv_of c); rSEGMAX := rSEGMAX (rcv_of c);
                    rSEGBMAX := rSEGBMAX (rcv_of c) |}
       (with_snd (with_thinWindow m (with_thinSEGMAX m (with_DACKT dk (with_SEGBMAX b (with_SEGMAX m (snd c))))))
          (with_foreign src (with_modeSimple false c)))).

Definition syn_segment (f dlen seq ack : Z) : ArdpSeg :=
  {| gSEQ := seq; gACK := ack; gLCS := 0; gACKNXT := 0; gSOM := 0; gTTL := 0; gFCNT := 0; gDLEN := dlen; gWINDOW := 0; gFLG := f; gHLEN := 14 |}.

Lemma UnmarshalSynSegment_ok f hl src dst dlen seq ack m b dk rest c : syn_ok src dst dlen seq ack m b dk ->
  UnmarshalSynSegment (MarshalSynHeader f hl src dst dlen seq ack m b dk ARDP_FLAG_SDM ++ rest) (syn_segment f dlen seq ack) c =
  Ok (tt, after_syn src seq m b dk c).
Proof.
  intros H. destruct (MarshalSynHeader_fields f hl src dst dlen seq ack m b dk rest H) as (E1 & E2 & E3 & E4 & E5 & E6 & E7 & E8).
  unfold UnmarshalSynSegment, lift, mdo. rewrite E8, E1, E5, E6, E7. done.
Qed.

(** A SYN is given to the state machine. *)
Lemma Receive_syn cfg now AcceptCb f src dst data seq ack m b dk stale c :
  syn_ok src dst (zlen data) seq ack m b dk -> flag_set f ARDP_FLAG_SYN = true -> flag_set f ARDP_FLAG_RST = false ->
  let syn := MarshalSynHeader f (Z.shiftr ARDP_SYN_HEADER_SIZE 1) src dst (zlen data) seq ack m b dk ARDP_FLAG_SDM ++ data in
  Receive cfg now AcceptCb (syn ++ stale) (zlen syn) c =
  (let* _ := ArdpMachine cfg now AcceptCb (syn_segment f (zlen data) seq ack) (syn ++ stale) in ret ER_OK) c /\
  syn_payload (syn ++ stale) (syn_segment f (zlen data) seq ack) = data.
Proof.
  intros H Hs Hr syn. assert (zlen syn = 28 + zlen data) as Hlen by (unfold syn; rewrite length_app; cbn [length MarshalSynHeader put16 put32 app]; lia).
  unfold syn at 1. rewrite <- app_assoc.
  destruct (MarshalSynHeader_fields f (Z.shiftr ARDP_SYN_HEADER_SIZE 1) src dst (zlen data) seq ack m b dk (data ++ stale) H) as (_ & E2 & E3 & E4 & _).
  split.
  - unfold Receive. erewrite (mdo_eq _ _ _ f c) by reflexivity. erewrite (mdo_eq _ _ _ 14 c) by reflexivity. rewrite Hr.
    rewrite (mdo_eq _ _ _ (zlen data) c) by (unfold lift; by rewrite E2). rewrite Hs, Hlen.
    rewrite !(proj2 (Z.ltb_ge _ _)) by (change ARDP_SYN_HEADER_SIZE with 28; lia). rewrite (proj2 (Z.eqb_eq _ _)) by lia. cbn [orb negb].
    rewrite (mdo_eq _ _ _ (syn_segment f (zlen data) seq ack) c) by (unfold lift, read_syn; by rewrite E3, E4). unfold syn. by rewrite <- app_assoc.
  - unfold syn_payload, syn. rewrite <- app_assoc. change (Z.to_nat ARDP_SYN_HEADER_SIZE) with 28%nat. rewrite drop_app_length' by done.
    cbn [gDLEN syn_segment]. by rewrite take_app_length' by lia.
Qed.

(** * The two sides *)

Lemma ARDP_Connect_ok cfg now m b data c : outcomes c = [] -> CheckConfigValid m b ARDP_MAX_WINDOW_SIZE false = true ->
  let c0 := with_passive false (with_rcv_of (InitRcv m b (rcv_of c)) c) in
  exists c', ARDP_Connect cfg now m b data c = Ok (ER_OK, c') /\ calm (with_listed true c0) c' /\ state c' = SYN_SENT /\ snd c' = snd c /\
    rcv_of c' = InitRcv m b (rcv_of c) /\ events c' = events c ++ [Sent (syn_bytes cfg c0 data) ER_OK].
Proof.
  intros Ho Hv c0. unfold ARDP_Connect. rewrite Hv. cbn [negb].
  destruct (SendSyn_ok cfg now data (with_listed true c0) Ho) as (c1 & E1 & Hcalm & Hs & Hsnd & Hrcv & _ & Hev).
  unfold modify at 1, mdo at 1. cbn [rbind]. unfold modify at 1, mdo at 1. cbn [rbind]. unfold modify at 1, mdo at 1. cbn [rbind].
  rewrite (mdo_eq _ _ _ _ _ E1). rewrite decide_True by done. eexists. split; [done|]. destruct Hcalm. split; [by split|]. by split_and!.
Qed.

Lemma ARDP_Accept_ok cfg now m b data c : outcomes c = [] -> listed c = true -> modeSimple c = false ->
  CheckConfigValid m b ARDP_MAX_WINDOW_SIZE false = true -> 0 <= m < 2 ^ 16 -> CheckConfigValid (SEGMAX (snd c)) (SEGBMAX (snd c)) m false = true ->
  exists c', ARDP_Accept cfg now m b data c = Ok (ER_OK, c') /\ calm c c' /\ state c' = SYN_RCVD /\ window c' = SEGMAX (snd c) /\
    (let r := InitRcv m b (rcv_of c) in
     rcv_of c' = with_eack r {| mask := mask (eack r); htnMask := htnMask (eack r); sz := sz (eack r); fixedSz := w16 (Z.shiftr (rSEGMAX r + 31) 5 * 4) |}) /\
    (exists d bufs, snd c' = with_sbuf bufs (with_maxDlen d (snd c)) /\ zlen bufs = Z.max 0 (SEGMAX (snd c))) /\
    exists c1, events c' = events c ++ [Sent (syn_bytes cfg c1 data) ER_OK] /\ passive c1 = passive c /\ local c1 = local c /\ foreign c1 = foreign c /\
      ISS (snd c1) = ISS (snd c) /\ CUR (rcv_of c1) = CUR (rcv_of c) /\ rSEGMAX (rcv_of c1) = w16 m /\ rSEGBMAX (rcv_of c1) = w16 b.
Proof.
  intros Ho Hl Hm Hv Hm16 Hv2. unfold ARDP_Accept. rewrite (mdo_eq _ _ _ c c) by done. rewrite Hl, Hm, Hv. cbn [negb].
  set (c0 := with_rcv_of (InitRcv m b (rcv_of c)) c).
  assert (rSEGMAX (rcv_of c0) = m) as Hr by (apply Z.mod_small; lia).
  destruct (InitSnd_ok cfg now c0 Hm) as (c1 & E1 & [] & Hs1 & Hev1 & Hw1 & Hrcv1 & d & bufs & Hsnd1 & Hb & _); [by rewrite Hr|].
  assert ((let* _ := modify (fun c => with_rcv_of (InitRcv m b (rcv_of c)) c) in InitSnd cfg now) c = Ok (ER_OK, c1)) as Es.
  { erewrite mdo_eq by done. exact E1. }
  rewrite (mdo_eq _ _ _ _ _ Es). rewrite decide_True by done.
  destruct (SendSyn_ok cfg now data c1) as (c2 & E2 & [] & Hs2 & Hsnd2 & Hrcv2 & Hw2 & Hev2); [by rewrite cm_outcomes0|].
  rewrite (mdo_eq _ _ _ _ _ E2). rewrite bool_decide_true by done. eexists. split; [done|].
  split_and!; [split; cbn; etransitivity; eassumption|done|etransitivity; eassumption|etransitivity; eassumption| |].
  - exists d, bufs. split; [etransitivity; eassumption|done].
  - exists c1. split; [etransitivity; [exact Hev2|]; by rewrite Hev1|]. rewrite Hsnd1, Hrcv1, cm_passive0, cm_local0, cm_foreign0. done.
Qed.

Lemma CheckConfigValid_spec m b w : 0 <= m < 2 ^ 16 -> 0 <= b < 2 ^ 16 -> window_ok w ->
  let hlen := 44 + 4 * Z.shiftr (w + 31) 5 in
  CheckConfigValid m b w false = true <-> m <= 448 /\ hlen < b /\ ALLJOYN_MAX_PACKET_LEN <= (b - hlen) * m.
Proof.
  intros Hm Hb Hw hlen. pose proof (mask_words w Hw) as HW. unfold CheckConfigValid. change ARDP_MAX_WINDOW_SIZE with 448.
  change ARDP_FIXED_HEADER_LEN with 36. change UDP_HEADER_SIZE with 8. assert ((36 + Z.shiftr (w + 31) 5 * 4) mod 256 = hlen - 8) as -> by (rewrite Z.mod_small; lia).
  replace (8 + (hlen - 8)) with hlen by lia. destruct (Z.ltb_spec 448 m); [split; [done|lia]|]. destruct (Z.leb_spec b hlen); [split; [done|lia]|].
  rewrite (w32_id (b - hlen)) by lia. rewrite w32_id by nia. destruct (Z.ltb_spec ((b - hlen) * m) ALLJOYN_MAX_PACKET_LEN); cbn; split; try done; lia.
Qed.

Lemma CheckConfigValid_smaller m b w : 0 <= m < 2 ^ 16 -> 0 <= b < 2 ^ 16 -> window_ok w ->
  CheckConfigValid m b ARDP_MAX_WINDOW_SIZE false = true -> CheckConfigValid m b w false = true.
Proof.
  intros Hm Hb Hw. assert (window_ok ARDP_MAX_WINDOW_SIZE) as Hmax by done.
  rewrite !CheckConfigValid_spec by done. change (Z.shiftr (ARDP_MAX_WINDOW_SIZE + 31) 5) with 14.
  pose proof (mask_words w Hw) as HW. intros (? & ? & ?). split_and!; [done|lia|nia].
Qed.

Lemma CheckConfigValid_window m b : 0 <= m < 2 ^ 16 -> 0 <= b < 2 ^ 16 -> CheckConfigValid m b ARDP_MAX_WINDOW_SIZE false = true -> window_ok m.
Proof.
  intros Hm Hb. rewrite CheckConfigValid_spec by done. intros (? & ? & Hp). split; [|done]. destruct (Z.eq_dec m 0) as [->|]; [|lia].
  rewrite Z.mul_0_r in Hp. done.
Qed.

Lemma open_connection_ok cfg now seg c : keepaliveRetries cfg <> 0 ->
  exists c', open_connection cfg now seg c = Ok (tt, c') /\ calm c c' /\ state c' = OPEN /\ snd c' = with_UNA (w32 (gACK seg + 1)) (snd c) /\
    rcv_of c' = PostInitRcv (rcv_of c) /\ window c' = window c /\ events c' = events c.
Proof.
  intros Hk. unfold open_connection, on_snd, SetState, on_connectTimer, modify, mdo. cbn [rbind]. rewrite (proj2 (Z.eqb_neq _ _)) by done. cbn [negb check ret rbind].
  unfold set_probeTimer, set_persistTimer, set_ackTimer, modify, mdo. cbn [rbind]. rewrite !call_back_eq. cbn [rbind]. rewrite !call_back_eq. cbn [rbind].
  rewrite !call_back_eq. eexists. split; [done|]. split; [by split|]. done.
Qed.

(** An AcceptCb that accepts. *)
Definition accept_with (cfg : ArdpGlobalConfig) (now m b : Z) (reply : list Z) : list Z -> M bool :=
  fun _ => let* status := ARDP_Accept cfg now m b reply in ret (bool_decide (status = ER_OK)).

(** The windows and sizes that a side offers. *)
Record offer_ok (m b : Z) : Prop := {
  of_m : 0 <= m < 2 ^ 16; of_b : 0 <= b < 2 ^ 16; of_valid : CheckConfigValid m b ARDP_MAX_WINDOW_SIZE false = true
}.

Lemma offer_window m b : offer_ok m b -> window_ok m.
Proof. intros []. by eapply CheckConfigValid_window. Qed.

Lemma offer_valid m b w : offer_ok m b -> window_ok w -> CheckConfigValid m b w false = true.
Proof. intros [] ?. by apply CheckConfigValid_smaller. Qed.

Lemma flags_syn : flag_set (Z.lor ARDP_FLAG_SYN ARDP_FLAG_VER) ARDP_FLAG_SYN = true /\ flag_set (Z.lor ARDP_FLAG_SYN ARDP_FLAG_VER) ARDP_FLAG_RST = false.
Proof. done. Qed.

(** The SYN reaches the passive side. *)
Lemma Accept_syn cfg now m b reply c src data seq m' b' dk stale :
  state c = CLOSED -> listed c = true -> outcomes c = [] -> syn_ok src 0 (zlen data) seq 0 m' b' dk -> offer_ok m b -> offer_ok m' b' ->
  let syn := MarshalSynHeader (Z.lor ARDP_FLAG_SYN ARDP_FLAG_VER) (Z.shiftr ARDP_SYN_HEADER_SIZE 1) src 0 (zlen data) seq 0 m' b' dk ARDP_FLAG_SDM ++ data in
  let c1 := after_syn src seq m' b' dk (with_passive true (with_state LISTEN c)) in
  exists c', Accept cfg now (accept_with cfg now m b reply) (syn ++ stale) (zlen syn) c = Ok (ER_OK, c') /\ calm c1 c' /\ state c' = SYN_RCVD /\
    window c' = m' /\
    (let r := InitRcv m b (rcv_of c1) in
     rcv_of c' = with_eack r {| mask := mask (eack r); htnMask := htnMask (eack r); sz := sz (eack r); fixedSz := w16 (Z.shiftr (rSEGMAX r + 31) 5 * 4) |}) /\
    (exists d bufs, snd c' = with_sbuf bufs (with_maxDlen d (snd c1)) /\ zlen bufs = m') /\
    events c' = events c ++ [Sent (MarshalSynHeader (Z.lor (Z.lor ARDP_FLAG_SYN ARDP_FLAG_VER) ARDP_FLAG_ACK) (Z.shiftr ARDP_SYN_HEADER_SIZE 1) (local c) src
                                    (zlen reply) (ISS (snd c)) seq m b (delayedAckTimeout cfg) ARDP_FLAG_SDM ++ reply) ER_OK].
Proof.
  intros Hst Hl Ho Hsyn Hof Hof' syn c1. unfold Accept. rewrite (mdo_eq _ _ _ c c) by done. rewrite bool_decide_true by done.
  rewrite (mdo_eq _ _ _ tt c) by done. erewrite (mdo_eq _ _ _ (Z.lor ARDP_FLAG_SYN ARDP_FLAG_VER) c) by reflexivity.
  change (negb (flag_set (Z.lor ARDP_FLAG_SYN ARDP_FLAG_VER) ARDP_FLAG_SYN) || flag_set (Z.lor ARDP_FLAG_SYN ARDP_FLAG_VER) ARDP_FLAG_RST) with false.
  change (negb (Z.land (Z.lor ARDP_FLAG_SYN ARDP_FLAG_VER) ARDP_VERSION_BITS =? ARDP_FLAG_VER)) with false.
  cbn match. erewrite mdo_eq by done. erewrite mdo_eq by done. set (c0 := with_passive true (with_state LISTEN c)).
  destruct (Receive_syn cfg now (accept_with cfg now m b reply) (Z.lor ARDP_FLAG_SYN ARDP_FLAG_VER) src 0 data seq 0 m' b' dk stale c0 Hsyn) as [Er Ep]; [done..|].
  fold syn in Er, Ep. rewrite Er. destruct (ARDP_Accept_ok cfg now m b reply c1) as (c2 & E2 & Hcalm & Hs2 & Hw2 & Hr2 & (d & bufs & Hsnd & Hb) & c3 & Hev & H3); [done..|apply Hof|apply Hof|by apply offer_valid; [|eapply offer_window]|].
  assert (ArdpMachine cfg now (accept_with cfg now m b reply) (syn_segment (Z.lor ARDP_FLAG_SYN ARDP_FLAG_VER) (zlen data) seq 0) (syn ++ stale) c0 = Ok (tt, c2)) as Em.
  { unfold ArdpMachine. rewrite (mdo_eq _ _ _ c0 c0) by done. change (state c0) with LISTEN. cbn match. unfold machine_LISTEN.
    change (flag_set (gFLG (syn_segment (Z.lor ARDP_FLAG_SYN ARDP_FLAG_VER) (zlen data) seq 0)) ARDP_FLAG_RST) with false.
    change (flag_set (gFLG (syn_segment (Z.lor ARDP_FLAG_SYN ARDP_FLAG_VER) (zlen data) seq 0)) ARDP_FLAG_ACK ||
            flag_set (gFLG (syn_segment (Z.lor ARDP_FLAG_SYN ARDP_FLAG_VER) (zlen data) seq 0)) ARDP_FLAG_NUL) with false.
    change (flag_set (gFLG (syn_segment (Z.lor ARDP_FLAG_SYN ARDP_FLAG_VER) (zlen data) seq 0)) ARDP_FLAG_SYN) with true. cbn match.
    erewrite mdo_eq by (unfold syn; rewrite <- app_assoc; by apply UnmarshalSynSegment_ok). fold c0. change (after_syn src seq m' b' dk c0) with c1.
    erewrite mdo_eq by (unfold accept_with; rewrite (mdo_eq _ _ _ _ _ E2); done). rewrite bool_decide_true by done. done. }
  rewrite (mdo_eq _ _ _ _ _ Em). exists c2. split; [done|]. split; [done|]. split; [done|]. split; [done|]. split; [done|]. split.
  - exists d, bufs. split; [done|]. rewrite Hb. destruct (of_m _ _ Hof'). cbn. lia.
  - rewrite Hev. destruct H3 as (H31 & H32 & H33 & H34 & H35 & H36 & H37). unfold syn_bytes. rewrite H31, H32, H33, H34, H35, H36, H37.
    destruct (of_m _ _ Hof), (of_b _ _ Hof). unfold w16. rewrite !Z.mod_small by lia. done.
Qed.

Definition synack_flags : Z := Z.lor (Z.lor ARDP_FLAG_SYN ARDP_FLAG_VER) ARDP_FLAG_ACK.

(** The header of a bare acknowledgement. *)
Definition ack_header (c : ArdpConnRecord) : ArdpHeader :=
  {| h_flags := Z.lor ARDP_FLAG_ACK ARDP_FLAG_VER; h_hlen := 18; h_src := local c; h_dst := foreign c; h_dlen := 0; h_sq := NXT (snd c);
     h_ack := CUR (rcv_of c); h_time := 0; h_lcs := LCS (rcv_of c); h_acknxt := UNA (snd c); h_start := 0; h_cnt := 0 |}.

(** The receiving side with the size of its mask. *)
Definition sized (r : ArdpRcv) : ArdpRcv :=
  with_eack r {| mask := mask (eack r); htnMask := htnMask (eack r); sz := sz (eack r); fixedSz := w16 (Z.shiftr (rSEGMAX r + 31) 5 * 4) |}.

Lemma machine_SYN_SENT_ok cfg now c src dst data seq m' b' dk stale :
  outcomes c = [] -> passive c = false -> window_ok (rSEGMAX (rcv_of c)) -> sz (eack (rcv_of c)) = 0 -> keepaliveRetries cfg <> 0 ->
  syn_ok src dst (zlen data) seq (ISS (snd c)) m' b' dk -> offer_ok m' b' ->
  let synack := MarshalSynHeader synack_flags (Z.shiftr ARDP_SYN_HEADER_SIZE 1) src dst (zlen data) seq (ISS (snd c)) m' b' dk ARDP_FLAG_SDM ++ data in
  let seg := syn_segment synack_flags (zlen data) seq (ISS (snd c)) in
  let c1 := after_syn src seq m' b' dk c in
  syn_payload (synack ++ stale) seg = data ->
  exists c', machine_SYN_SENT cfg now seg (synack ++ stale) c = Ok (tt, c') /\ calm c1 c' /\ state c' = OPEN /\ window c' = m' /\
    rcv_of c' = PostInitRcv (sized (rcv_of c1)) /\
    (exists d bufs, snd c' = with_UNA (w32 (ISS (snd c) + 1)) (with_sbuf bufs (with_maxDlen d (snd c1))) /\ zlen bufs = m') /\
    events c' = events c ++ [Sent (MarshalHeader (ack_header c')) ER_OK; ConnectCb false data ER_OK].
Proof.
  intros Ho Hp Hw Hz Hk Hsyn Hof synack seg c1 Hpay. unfold machine_SYN_SENT.
  change (flag_set (gFLG seg) ARDP_FLAG_RST) with false. change (flag_set (gFLG seg) ARDP_FLAG_SYN && flag_set (gFLG seg) ARDP_FLAG_ACK) with true. cbn match.
  destruct (InitSnd_ok cfg now c1) as (c2 & E2 & [] & Hs2 & Hev2 & Hw2 & Hr2 & d & bufs & Hsnd2 & Hb & _); [done|by apply offer_valid|].
  destruct (open_connection_ok cfg now seg (with_confirm true c2) Hk) as (c3 & E3 & [] & Hs3 & Hsnd3 & Hr3 & Hw3 & Hev3).
  destruct (Send_ok (Z.lor ARDP_FLAG_ACK ARDP_FLAG_VER) (NXT (snd c3)) (CUR (rcv_of c3)) c3) as (c4 & E4 & [] & Hs4 & Hsnd4 & Hr4 & Hw4 & Hev4).
  { etransitivity; [eassumption|]. etransitivity; eassumption. }
  { rewrite Hr3. change (sz (eack (rcv_of c2)) = 0). by rewrite Hr2. }
  assert (passive c3 = false) as Hp3 by (etransitivity; [eassumption|]; etransitivity; [eassumption|exact Hp]).
  assert ((let* _ := UnmarshalSynSegment (synack ++ stale) seg in let* status := InitSnd cfg now in
           let* _ := check (bool_decide (status = ER_OK)) in let* _ := modify (with_confirm true) in let* c := get in
           if negb (Z.land (gFLG seg) ARDP_VERSION_BITS =? ARDP_FLAG_VER) then ret ER_ARDP_VERSION_NOT_SUPPORTED
           else if negb (gACK seg =? ISS (snd c)) then ret ER_ARDP_INVALID_RESPONSE
           else let* _ := open_connection cfg now seg in let* c := get in
                let* status := Send (Z.lor ARDP_FLAG_ACK ARDP_FLAG_VER) (NXT (snd c)) (CUR (rcv_of c)) in
                let* _ := when (bool_decide (status = ER_OK))
                    (let* _ := check (negb (passive c)) in
                     let* _ := note (ConnectCb false (syn_payload (synack ++ stale) seg) ER_OK) in
                     modify (with_synData None)) in
                ret status) c = Ok (ER_OK, with_synData None (with_events (events c4 ++ [ConnectCb false data ER_OK]) c4))) as Eb.
  { erewrite mdo_eq by (unfold synack; rewrite <- app_assoc; by apply UnmarshalSynSegment_ok). change (after_syn src seq m' b' dk c) with c1.
    rewrite (mdo_eq _ _ _ _ _ E2). rewrite bool_decide_true by done. erewrite mdo_eq by done. erewrite mdo_eq by done. erewrite mdo_eq by done.
    change (negb (Z.land (gFLG seg) ARDP_VERSION_BITS =? ARDP_FLAG_VER)) with false. cbn match.
    replace (ISS (snd (with_confirm true c2))) with (ISS (snd c)) by (cbn; by rewrite Hsnd2). cbn [gACK seg syn_segment]. rewrite Z.eqb_refl. cbn [negb].
    rewrite (mdo_eq _ _ _ _ _ E3). rewrite (mdo_eq _ _ _ c3 c3) by done. rewrite (mdo_eq _ _ _ _ _ E4). rewrite bool_decide_true by done. rewrite Hp3. cbn [negb when].
    rewrite Hpay. done. }
  rewrite (mdo_eq _ _ _ _ _ Eb). rewrite bool_decide_false by (intros H; by apply H). cbn [andb when]. eexists. split; [done|]. clear Hp3.
  split_and!; [split; cbn; (etransitivity; [eassumption|etransitivity; eassumption])|cbn; congruence| | | |].
  - cbn. rewrite Hw4, Hw3. exact Hw2.
  - change (rcv_of c4 = PostInitRcv (sized (rcv_of c1))). rewrite Hr4, Hr3. f_equal. exact Hr2.
  - exists d, bufs. split; [|rewrite Hb; destruct (of_m _ _ Hof); cbn; lia]. change (snd c4 = with_UNA (w32 (ISS (snd c) + 1)) (with_sbuf bufs (with_maxDlen d (snd c1)))).
    rewrite Hsnd4, Hsnd3. f_equal. exact Hsnd2.
  - assert (ack_header c4 = ack_header c3) as Ea by (unfold ack_header; by rewrite cm_local2, cm_foreign2, Hsnd4, Hr4).
    change (ack_header (with_synData None _)) with (ack_header c4). rewrite Ea.
    change (events (with_synData None _)) with (events c4 ++ [ConnectCb false data ER_OK]). rewrite Hev4, Hev3, <- app_assoc.
    change (events (with_confirm true c2)) with (events c2). by rewrite Hev2.
Qed.

(** The record that a datagram finds. *)
Definition seen_now (cfg : ArdpGlobalConfig) (now : Z) (c : ArdpConnRecord) : ArdpConnRecord :=
  with_probeTimer (with_retry (keepaliveRetries cfg) (probeTimer c)) (with_lastSeen now c).

Lemma run_datagram_ok cfg now AcceptCb buf n c c' : state c <> CLOSED -> state c <> CLOSE_WAIT ->
  Receive cfg now AcceptCb buf n (seen_now cfg now c) = Ok (ER_OK, c') -> run_datagram cfg now AcceptCb buf n c = Ok (ER_OK, c').
Proof.
  intros H1 H2 E. unfold run_datagram. rewrite (mdo_eq _ _ _ c c) by done. rewrite !bool_decide_true by done. cbn [andb].
  erewrite mdo_eq by done. erewrite mdo_eq by done. change (with_probeTimer _ _) with (seen_now cfg now c). rewrite (mdo_eq _ _ _ _ _ E).
  rewrite bool_decide_false by done. done.
Qed.

(** The SYN-ACK reaches the active side. *)
Lemma SYN_SENT_opens cfg now AcceptCb c src dst data seq m' b' dk stale :
  state c = SYN_SENT -> outcomes c = [] -> passive c = false -> window_ok (rSEGMAX (rcv_of c)) -> sz (eack (rcv_of c)) = 0 -> keepaliveRetries cfg <> 0 ->
  syn_ok src dst (zlen data) seq (ISS (snd c)) m' b' dk -> offer_ok m' b' ->
  let synack := MarshalSynHeader synack_flags (Z.shiftr ARDP_SYN_HEADER_SIZE 1) src dst (zlen data) seq (ISS (snd c)) m' b' dk ARDP_FLAG_SDM ++ data in
  let c1 := after_syn src seq m' b' dk c in
  exists c', run_datagram cfg now AcceptCb (synack ++ stale) (zlen synack) c = Ok (ER_OK, c') /\ calm c1 c' /\ state c' = OPEN /\ window c' = m' /\
    rcv_of c' = PostInitRcv (sized (rcv_of c1)) /\
    (exists d bufs, snd c' = with_UNA (w32 (ISS (snd c) + 1)) (with_sbuf bufs (with_maxDlen d (snd c1))) /\ zlen bufs = m') /\
    events c' = events c ++ [Sent (MarshalHeader (ack_header c')) ER_OK; ConnectCb false data ER_OK].
Proof.
  intros Hst Ho Hp Hw Hz Hk Hsyn Hof synack c1. set (c0 := seen_now cfg now c).
  destruct (Receive_syn cfg now AcceptCb synack_flags src dst data seq (ISS (snd c)) m' b' dk stale c0 Hsyn) as [Er Ep]; [done..|]. fold synack in Er, Ep.
  destruct (machine_SYN_SENT_ok cfg now c0 src dst data seq m' b' dk stale Ho Hp Hw Hz Hk Hsyn Hof Ep) as (c' & Em & Hcalm & H).
  exists c'. split; [|destruct Hcalm; split; [by split|exact H]]. apply run_datagram_ok; [by rewrite Hst..|]. fold c0. rewrite Er. unfold ArdpMachine.
  rewrite (mdo_eq _ _ _ tt c'); [done|]. rewrite (mdo_eq _ _ _ c0 c0) by done. change (state c0) with (state c). rewrite Hst. exact Em.
Qed.

(** The acknowledgement of the SYN-ACK reaches the passive side. *)
Lemma SYN_RCVD_opens cfg now AcceptCb c h stale :
  state c = SYN_RCVD -> passive c = true -> modeSimple c = false -> window_ok (rSEGMAX (rcv_of c)) -> keepaliveRetries cfg <> 0 ->
  header_ok h -> h_flags h = Z.lor ARDP_FLAG_ACK ARDP_FLAG_VER -> h_hlen h = 18 -> h_dlen h = 0 -> h_sq h = w32 (CUR (rcv_of c) + 1) ->
  h_acknxt h = h_sq h -> h_ack h = ISS (snd c) -> h_lcs h = h_ack h -> NXT (snd c) = w32 (ISS (snd c) + 1) ->
  exists c' data, run_datagram cfg now AcceptCb (MarshalHeader h ++ stale) 36 c = Ok (ER_OK, c') /\ calm c c' /\ state c' = OPEN /\ window c' = window c /\
    rcv_of c' = PostInitRcv (rcv_of c) /\ snd c' = with_UNA (w32 (ISS (snd c) + 1)) (snd c) /\
    events c' = events c ++ [ConnectCb true data ER_OK].
Proof.
  intros Hst Hp Hm Hw Hk Hok Hf Hhl Hdl Hsq Han Hack Hlcs Hnxt. set (c0 := seen_now cfg now c). pose proof (window_16 _ Hw) as HN.
  destruct (Receive_marshal cfg now AcceptCb h [] [] stale c0 Hok) as (Er & _); try done; [by rewrite Hf..|by rewrite Hhl|].
  cbn [flat_map length app] in Er. change (36 + 4 * Z.of_nat 0 + Z.of_nat 0) with 36 in Er.
  destruct (open_connection_ok cfg now (segment_for c0 h) (with_confirm true c0) Hk) as (c1 & E1 & [] & Hs1 & Hsnd1 & Hr1 & Hw1 & Hev1).
  set (data := syn_payload (MarshalHeader h ++ stale) (segment_for c0 h)).
  exists (with_synData None (with_events (events c1 ++ [ConnectCb true data ER_OK]) c1)), data. split.
  - apply run_datagram_ok; [by rewrite Hst..|]. fold c0. rewrite Er.
    assert (segment_valid c0 (segment_for c0 h) = true) as ->.
    { unfold segment_valid, segment_for. cbn [gACK gLCS gSEQ gACKNXT gDLEN gFCNT gSOM]. change (snd c0) with (snd c). change (rcv_of c0) with (rcv_of c).
      rewrite Hack, Hlcs, Hack, Han, Hnxt, Hdl. unfold SEQ32_LT. rewrite !Z.sub_diag.
      assert (w32 (w32 (ISS (snd c) + 1) - ISS (snd c)) = 1) as ->
        by (unfold w32; rewrite Zminus_mod_idemp_l; by replace (ISS (snd c) + 1 - ISS (snd c)) with 1 by lia).
      change (w32 0) with 0. rewrite (proj2 (Z.ltb_ge _ _)) by lia. done. }
    rewrite (mdo_eq _ _ _ tt (with_synData None (with_events (events c1 ++ [ConnectCb true data ER_OK]) c1))); [done|].
    unfold ArdpMachine. rewrite (mdo_eq _ _ _ c0 c0) by done. change (state c0) with (state c). rewrite Hst. unfold machine_SYN_RCVD.
    rewrite (mdo_eq _ _ _ c0 c0) by done. change (gFLG (segment_for c0 h)) with (h_flags h). rewrite Hf.
    change (gSEQ (segment_for c0 h)) with (h_sq h). change (rcv_of c0) with (rcv_of c). rewrite Hsq.
    rewrite IN_RANGE_mod by (try (apply Z.mod_pos_bound); lia). rewrite Z.sub_diag. change (w32 0) with 0. rewrite (proj2 (Z.ltb_lt _ _)) by lia. cbn [negb].
    change (flag_set (Z.lor ARDP_FLAG_ACK ARDP_FLAG_VER) ARDP_FLAG_RST) with false. change (flag_set (Z.lor ARDP_FLAG_ACK ARDP_FLAG_VER) ARDP_FLAG_SYN) with false.
    change (flag_set (Z.lor ARDP_FLAG_ACK ARDP_FLAG_VER) ARDP_FLAG_EACK) with false. change (flag_set (Z.lor ARDP_FLAG_ACK ARDP_FLAG_VER) ARDP_FLAG_ACK) with true.
    change (flag_set (Z.lor ARDP_FLAG_ACK ARDP_FLAG_VER) ARDP_FLAG_NUL) with false. cbn match.
    erewrite mdo_eq by done. change (gACK (segment_for c0 h)) with (h_ack h). change (snd c0) with (snd c). rewrite Hack, Z.eqb_refl.
    rewrite (mdo_eq _ _ _ _ _ E1). rewrite (mdo_eq _ _ _ c1 c1) by done. cbn [when]. erewrite mdo_eq by done.
    assert (passive c1 = true) as -> by (by rewrite cm_passive0). erewrite mdo_eq by done. done.
  - split_and!; [by split|done|exact Hw1|exact Hr1| |].
    + change (snd c1 = with_UNA (w32 (ISS (snd c) + 1)) (snd c)). rewrite Hsnd1. cbn [gACK segment_for]. by rewrite Hack.
    + cbn [events with_synData with_events]. by rewrite Hev1.
Qed.

(** * The handshake *)

Lemma opened_rcv m b seq e : 0 <= m < 2 ^ 16 -> window_ok m ->
  let words := Z.to_nat (Z.shiftr ARDP_MAX_WINDOW_SIZE 5) in
  e = {| mask := replicate words 0; htnMask := replicate words 0; sz := 0; fixedSz := 0 |} ->
  PostInitRcv (sized {| CUR := seq; IRS := seq; LCS := seq; rbuf := rbuf (InitRcv m b {| CUR := 0; IRS := 0; LCS := 0; rbuf := []; eack := e; rSEGMAX := 0; rSEGBMAX := 0 |});
    eack := e; rSEGMAX := w16 m; rSEGBMAX := w16 b |}) = rcv (opened m b seq).
Proof.
  intros Hm Hw words ->. pose proof (mask_words m Hw) as HW. unfold opened, PostInitRcv, sized, InitRcv, with_rbuf, with_LCS, with_eack.
  cbn [CUR IRS LCS rbuf eack rSEGMAX rSEGBMAX rcv mask htnMask sz fixedSz]. assert (w16 m = m) as -> by (apply Z.mod_small; lia).
  f_equal. f_equal. unfold w16. rewrite Z.mod_small by lia. lia.
Qed.

Lemma header_ok_ack c : 0 <= local c < 2 ^ 16 -> 0 <= foreign c < 2 ^ 16 -> 0 <= NXT (snd c) < 2 ^ 32 -> 0 <= CUR (rcv_of c) < 2 ^ 32 ->
  0 <= LCS (rcv_of c) < 2 ^ 32 -> 0 <= UNA (snd c) < 2 ^ 32 -> header_ok (ack_header c).
Proof. intros. split; cbn; lia. Qed.

(** The two ends of a connection to be. *)
Record ends (cfgA cfgB : ArdpGlobalConfig) (pA pB issA issB mA bA mB bB : Z) (dataA dataB : list Z) : Prop := {
  en_offerA : offer_ok mA bA; en_offerB : offer_ok mB bB; en_pA : 0 < pA < 2 ^ 16; en_pB : 0 < pB < 2 ^ 16;
  en_issA : 0 <= issA < 2 ^ 32; en_issB : 0 <= issB < 2 ^ 32; en_dataA : zlen dataA < 2 ^ 16; en_dataB : zlen dataB < 2 ^ 16;
  en_keepA : keepaliveRetries cfgA <> 0; en_keepB : keepaliveRetries cfgB <> 0;
  en_dackA : 0 <= delayedAckTimeout cfgA < 2 ^ 32; en_dackB : 0 <= delayedAckTimeout cfgB < 2 ^ 32
}.

(** C23: When no datagram is lost the handshake opens both ends: the SYN of ARDP_Connect, the
    SYN-ACK of the end that accepts and the ACK of the first end are all it takes.
    Then each end expects the sequence number after the other's, the receiving sides
    are fresh windows, each end has the window and the port of the other, nothing is
    outstanding, and ConnectCb was told once on each side, with the data of the
    SYN-ACK on the active one. *)
Theorem ARDP_handshake cfgA cfgB pA pB issA issB mA bA mB bB dataA dataB t0 t1 t2 t3 msA msB jamA jamB cb stale1 stale2 stale3 :
  ends cfgA cfgB pA pB issA issB mA bA mB bB dataA dataB ->
  exists A1 B1 A2 B2 syn synack ack,
    ARDP_Connect cfgA t0 mA bA dataA (InitConnRecord cfgA t0 pA 0 issA msA jamA) = Ok (ER_OK, A1) /\ events A1 = [Sent syn ER_OK] /\
    Accept cfgB t1 (accept_with cfgB t1 mB bB dataB) (syn ++ stale1) (zlen syn) (with_listed true (InitConnRecord cfgB t1 pB pA issB msB jamB)) = Ok (ER_OK, B1) /\
    events B1 = [Sent synack ER_OK] /\
    run_datagram cfgA t2 cb (synack ++ stale2) (zlen synack) A1 = Ok (ER_OK, A2) /\
    events A2 = [Sent syn ER_OK; Sent ack ER_OK; ConnectCb false dataB ER_OK] /\
    run_datagram cfgB t3 cb (ack ++ stale3) (zlen ack) B1 = Ok (ER_OK, B2) /\
    (exists d, events B2 = [Sent synack ER_OK; ConnectCb true d ER_OK]) /\
    state A2 = OPEN /\ state B2 = OPEN /\ foreign A2 = pB /\ foreign B2 = pA /\
    rcv_of A2 = rcv (opened mA bA issB) /\ rcv_of B2 = rcv (opened mB bB issA) /\
    (NXT (snd A2) = w32 (issA + 1) /\ UNA (snd A2) = w32 (issA + 1) /\ SEGMAX (snd A2) = mB /\ window A2 = mB /\ pending (snd A2) = 0) /\
    (NXT (snd B2) = w32 (issB + 1) /\ UNA (snd B2) = w32 (issB + 1) /\ SEGMAX (snd B2) = mA /\ window B2 = mA /\ pending (snd B2) = 0).
Proof.
  intros [HoA HoB HpA HpB HiA HiB HdA HdB HkA HkB HdkA HdkB]. pose proof (offer_window _ _ HoA) as HwA. pose proof (offer_window _ _ HoB) as HwB.
  destruct (of_m _ _ HoA), (of_b _ _ HoA), (of_m _ _ HoB), (of_b _ _ HoB).
  assert (w16 mA = mA) as HmA by (apply Z.mod_small; lia). assert (w16 bA = bA) as HbA by (apply Z.mod_small; lia).
  assert (w16 mB = mB) as HmB by (apply Z.mod_small; lia).
  set (A0 := InitConnRecord cfgA t0 pA 0 issA msA jamA). set (B0 := with_listed true (InitConnRecord cfgB t1 pB pA issB msB jamB)).
  destruct (ARDP_Connect_ok cfgA t0 mA bA dataA A0 eq_refl (of_valid _ _ HoA)) as (A1 & EA1 & [] & HsA1 & HsndA1 & HrA1 & HevA1).
  set (syn := MarshalSynHeader (Z.lor ARDP_FLAG_SYN ARDP_FLAG_VER) (Z.shiftr ARDP_SYN_HEADER_SIZE 1) pA 0 (zlen dataA) issA 0 mA bA (delayedAckTimeout cfgA) ARDP_FLAG_SDM ++ dataA).
  assert (events A1 = [Sent syn ER_OK]) as HevA1'.
  { rewrite HevA1. unfold syn_bytes, syn. change (rSEGMAX _) with (w16 mA). change (rSEGBMAX _) with (w16 bA). by rewrite HmA, HbA. }
  destruct (Accept_syn cfgB t1 mB bB dataB B0 pA dataA issA mA bA (delayedAckTimeout cfgA) stale1) as (B1 & EB1 & [] & HsB1 & HwB1 & HrB1 & (dB & bufsB & HsndB1 & HbufB) & HevB1); [done..|split; lia|done|done|].
  fold syn in EB1.
  set (synack := MarshalSynHeader synack_flags (Z.shiftr ARDP_SYN_HEADER_SIZE 1) pB pA (zlen dataB) issB issA mB bB (delayedAckTimeout cfgB) ARDP_FLAG_SDM ++ dataB) in *.
  assert (ISS (snd A1) = issA) as HissA by (by rewrite HsndA1).
  destruct (SYN_SENT_opens cfgA t2 cb A1 pB pA dataB issB mB bB (delayedAckTimeout cfgB) stale2) as (A2 & EA2 & [] & HsA2 & HwA2 & HrA2 & (dA & bufsA & HsndA2 & HbufA) & HevA2);
    [done|done|done|by rewrite HrA1; cbn; rewrite HmA|by rewrite HrA1|done|rewrite HissA; split; lia|done|].
  rewrite HissA in EA2. fold synack in EA2. rewrite HissA in HsndA2.
  assert (NXT (snd A2) = w32 (issA + 1) /\ UNA (snd A2) = w32 (issA + 1) /\ SEGMAX (snd A2) = mB /\ pending (snd A2) = 0) as (HnA & HuA & HmA2 & HpdA)
    by (rewrite HsndA2; cbn; by rewrite HsndA1).
  assert (rcv_of A2 = rcv (opened mA bA issB)) as HrA.
  { rewrite HrA2. unfold after_syn. cbn [rcv_of]. rewrite <- (opened_rcv mA bA issB _ ltac:(lia) HwA eq_refl). f_equal. f_equal. cbn. by rewrite HrA1. }
  assert (local A2 = pA /\ foreign A2 = pB) as [HlA HfA] by (by rewrite cm_local2, cm_foreign2; cbn; rewrite cm_local0).
  destruct (SYN_RCVD_opens cfgB t3 cb B1 (ack_header A2) stale3) as (B2 & dat & EB2 & [] & HsB2 & HwB2 & HrB2 & HsndB2 & HevB2); try done.
  { rewrite HrB1. cbn. by rewrite HmB. }
  { pose proof (Z.mod_pos_bound (issA + 1) (2 ^ 32) ltac:(lia)). apply header_ok_ack; rewrite ?HlA, ?HfA, ?HnA, ?HuA, ?HrA; cbn; unfold w32; lia. }
  { cbn [h_sq ack_header]. rewrite HnA, HrB1. done. }
  { cbn [h_sq h_acknxt ack_header]. by rewrite HnA, HuA. }
  { cbn [h_ack ack_header]. rewrite HrA, HsndB1. done. }
  { cbn [h_ack h_lcs ack_header]. by rewrite HrA. }
  { by rewrite HsndB1. }
  exists A1, B1, A2, B2, syn, synack, (MarshalHeader (ack_header A2)).
  split; [done|]. split; [done|]. split; [done|]. split; [done|]. split; [done|]. split; [by rewrite HevA2, HevA1'|]. split; [exact EB2|].
  split; [exists dat; by rewrite HevB2, HevB1|]. split; [done|]. split; [done|]. split; [done|]. split; [by rewrite cm_foreign3, cm_foreign1|]. split; [done|].
  split; [|by rewrite HsndB2, HwB2, HsndB1].
  rewrite HrB2, HrB1. rewrite <- (opened_rcv mB bB issA _ ltac:(lia) HwB eq_refl). done.
Qed.
