(* ===== verification/ArdpRuns.v ===== *)
(** Runs of connections of ARDP on concrete numbers: witnesses of the theorems, and
    runs that end badly. *)
From stdpp Require Import relations.
From S2P Require Import Prelude Types Marshal Ardp ArdpRcvProofs ArdpQueueProofs ArdpTheorems ArdpState ArdpConn ArdpConnProofs ArdpSendProofs ArdpConnTheorems ArdpHandshake.
Import Ardp ArdpState ArdpConn.

(** * An AcceptCb *)

Definition accepting (c c' : ArdpConnRecord) : Prop := state c' = state c \/ state c' = SYN_RCVD.

#[local] Instance accepting_preorder : PreOrder accepting.
Proof. split; [by left|]. intros x y z [H|H] [H'|H']; unfold accepting; rewrite ?H', ?H; auto. Qed.

Lemma quiet_accepting {A} (m : M A) : keeps quiet m -> keeps accepting m.
Proof. apply keeps_weaken. intros c c' [? _]. by left. Qed.
#[local] Hint Resolve quiet_accepting | 7 : ardp.

Lemma accepting_SetState : keeps accepting (SetState SYN_RCVD).
Proof. intros c a c' [= _ <-]. by right. Qed.
#[local] Hint Resolve accepting_SetState : ardp.

Lemma accept_with_accepts cfg now m b reply : accepts (accept_with cfg now m b reply).
Proof.
  intros data c a c' Hs E. assert (accepting c c') as H.
  { refine ((_ : keeps accepting _) _ _ _ E). unfold accept_with, ARDP_Accept. keep; by left. }
  unfold forward. destruct H as [H|H]; rewrite H, Hs; cbn; (split; [done|]); [by left|right; lia].
Qed.

(** Evaluate a decidable statement. *)
Ltac evaluate := apply (bool_decide_unpack _); vm_compute; exact I.

(** * A session *)

Definition cfg0 : ArdpGlobalConfig :=
  {| connectTimeout := 1000; connectRetries := 10; initialDataTimeout := 1000; totalDataRetryTimeout := 10000; minDataRetries := 5;
     persistInterval := 1000; totalAppTimeout := 30000; linkTimeout := 60000; keepaliveRetries := 6; fastRetransmitAckCounter := 1;
     delayedAckTimeout := 100; timewait := 1000 |}.

Definition cb0 : list Z -> M bool := accept_with cfg0 0 3 65535 [7; 8; 9].

Definition after {A} (m : M A) (c : ArdpConnRecord) : ArdpConnRecord := match m c with Ok (_, c') => c' | _ => c end.
Definition sent (c : ArdpConnRecord) : list (list Z) := flat_map (fun e => match e with Sent b _ => [b] | _ => [] end) (events c).
Definition last_sent (c : ArdpConnRecord) : list Z := default [] (last (sent c)).
Definition deliver (now : Z) (d : list Z) : M QStatus := run_datagram cfg0 now cb0 (d ++ repeat 0 60) (zlen d).

(** An end that connects, with windows of three segments, and the other end. *)
Definition A1 : ArdpConnRecord := after (ARDP_Connect cfg0 0 3 65535 [1; 2]) (InitConnRecord cfg0 0 17 0 100 1000 false).
Definition B1 : ArdpConnRecord :=
  after (Accept cfg0 0 cb0 (last_sent A1 ++ repeat 0 60) (zlen (last_sent A1))) (with_listed true (InitConnRecord cfg0 0 18 17 200 1000 false)).
Definition A2 : ArdpConnRecord := after (deliver 0 (last_sent B1)) A1.
Definition B2 : ArdpConnRecord := after (deliver 0 (last_sent A2)) B1.

Example session_open : state A2 = OPEN /\ state B2 = OPEN /\ UNA (snd A2) = 101 /\ CUR (rcv_of B2) = 100.
Proof. by vm_compute. Qed.

Lemma sample_ends : ends cfg0 cfg0 17 18 100 200 3 65535 3 65535 [1; 2] [7; 8; 9].
Proof. split; try done. Qed.

Lemma ARDP_handshake_witness : exists A2 B2, ends cfg0 cfg0 17 18 100 200 3 65535 3 65535 [1; 2] [7; 8; 9] /\ state A2 = OPEN /\ state B2 = OPEN.
Proof.
  destruct (ARDP_handshake cfg0 cfg0 17 18 100 200 3 65535 3 65535 [1; 2] [7; 8; 9] 0 1 2 3 1000 1000 false false cb0 [] [] [] sample_ends)
    as (A & B & A' & B' & syn & synack & ack & _ & _ & _ & _ & _ & _ & _ & _ & HA & HB & _).
  exists A', B'. split; [apply sample_ends|]. by split.
Defined.

Lemma ARDP_state_forward_witness : accepts cb0 /\ steps cfg0 cb0 A1 A2 /\ (state A2 = state A1 \/ (rank (state A1) < rank (state A2))%nat).
Proof.
  assert (steps cfg0 cb0 A1 A2) as Hs.
  { exists 0, (Datagram (last_sent B1 ++ repeat 0 60) (zlen (last_sent B1))), ER_OK. by vm_compute. }
  split; [apply accept_with_accepts|]. split; [exact Hs|].
  apply (ARDP_state_forward cfg0 cb0 A1 A2); [apply accept_with_accepts|]. by apply rtc_once.
Defined.

Lemma ARDP_opens_acknowledged_witness : exists buf n, perform cfg0 0 cb0 (Datagram buf n) A1 = Ok (ER_OK, A2) /\ get32 buf 12 = Ok (ISS (snd A1)).
Proof.
  set (buf := last_sent B1 ++ repeat 0 60). set (n := zlen (last_sent B1)).
  assert (perform cfg0 0 cb0 (Datagram buf n) A1 = Ok (ER_OK, A2)) as E by (by vm_compute).
  destruct (ARDP_opens_acknowledged cfg0 0 cb0 (Datagram buf n) A1 ER_OK A2) as (buf' & n' & flg & Ea & _ & Ha & _);
    [apply accept_with_accepts|exact E|evaluate|evaluate|].
  exists buf', n'. split; [rewrite <- Ea; exact E|exact Ha].
Defined.

Lemma ARDP_Send_received_witness : can_send A2 [10; 20; 30] /\
  exists c', ARDP_Send cfg0 5 [10; 20; 30] ARDP_TTL_INFINITE A2 = Ok (ER_OK, c') /\ NXT (snd c') = w32 (NXT (snd A2) + 1).
Proof.
  assert (can_send A2 [10; 20; 30]) as H.
  { split; [split; evaluate|evaluate|evaluate| |evaluate..].
    split; [evaluate..|]. exists 1. evaluate. }
  split; [exact H|]. destruct (ARDP_Send_received cfg0 5 A2 [10; 20; 30] H) as (c' & ds & E & Hn & _). exists c'. by split.
Defined.

(** * An acknowledgement that comes late *)

(** The other end takes a message, acknowledges it, consumes it and tells so. *)
Definition A3 : ArdpConnRecord := after (ARDP_Send cfg0 10 [1] 0) A2.
Definition B3 : ArdpConnRecord := after (CheckTimers cfg0 200) (after (deliver 20 (last_sent A3)) B2).
Definition received_ack : list Z := last_sent B3.
Definition B4 : ArdpConnRecord := after (CheckTimers cfg0 400) (after (ARDP_RecvReady cfg0 210 (101 mod 3)) B3).
Definition consumed_ack : list Z := last_sent B4.
(** The next message, which is taken and consumed, too. *)
Definition next_message (a : ArdpConnRecord) : ArdpConnRecord := after (ARDP_Send cfg0 500 [2] 0) a.
Definition B5 (d : list Z) : ArdpConnRecord :=
  after (CheckTimers cfg0 800) (after (ARDP_RecvReady cfg0 610 (102 mod 3)) (after (deliver 600 d) B4)).

(** In the order they were sent. *)
Definition A_in_order : ArdpConnRecord :=
  let a := next_message (after (deliver 410 consumed_ack) (after (deliver 210 received_ack) A3)) in
  after (deliver 810 (last_sent (B5 (last_sent a)))) a.
(** The first one overtaken by the second and by the next message. *)
Definition A_reordered : ArdpConnRecord :=
  let a := next_message (after (deliver 410 consumed_ack) A3) in
  after (deliver 810 (last_sent (B5 (last_sent a)))) (after (deliver 510 received_ack) a).

Definition told (c : ArdpConnRecord) : list Event := List.filter (fun e => match e with Sent _ _ => false | _ => true end) (events c).

(** Two acknowledgements that overtake each other end a connection: when the one that
    tells of the receipt of a message comes after the one that tells of its
    consumption, snd.LCS goes back, the next acknowledgement then covers a buffer that
    is free, and the connection is closed with ER_ARDP_INVALID_RESPONSE, although all
    was received and consumed; in the order they were sent it stays open. *)
Theorem ARDP_reordered_ack_disconnects :
  state A_in_order = OPEN /\ sLCS (snd A_in_order) = 102 /\ In (SendCb [2] 1 ER_OK) (told A_in_order) /\
  state A_reordered = CLOSE_WAIT /\
  In (SendCb [2] 1 ER_ARDP_DISCONNECTING) (told A_reordered) /\ In (DisconnectCb ER_ARDP_INVALID_RESPONSE) (told A_reordered).
Proof. vm_compute. tauto. Qed.

(** * A window of expired messages *)

(** Every buffer is in use and expired. *)
Definition all_expired (c : ArdpConnRecord) : Prop :=
  0 < SEGMAX (snd c) /\ zlen (sbuf (snd c)) = SEGMAX (snd c) /\ Forall (fun b => s_inUse b = true /\ s_ttl b = ARDP_TTL_EXPIRED) (sbuf (snd c)).

Lemma skip_expired_endless fuel : forall c i b, all_expired c -> 0 <= i < SEGMAX (snd c) -> skip_expired fuel i b c = Undef.
Proof.
  induction fuel as [|fuel IH]; intros c i b (Hs & Hl & Hall) Hi; cbn [skip_expired]; [done|].
  destruct (lookup_lt_is_Some_2 (sbuf (snd c)) (Z.to_nat i)) as [x Hx]; [lia|]. rewrite (mdo_eq _ _ _ x c) by (apply sbuf_at_ok; [lia|done]).
  destruct (Forall_lookup_1 _ _ _ _ Hall Hx) as [-> ->]. cbn [andb]. rewrite Z.eqb_refl.
  erewrite mdo_eq by done. set (c1 := with_snd _ c). rewrite (mdo_eq _ _ _ ((i + 1) mod SEGMAX (snd c)) c1).
  2:{ unfold snext. rewrite (mdo_eq _ _ _ c1 c1) by done. change (SEGMAX (snd c1)) with (SEGMAX (snd c)). by rewrite (proj2 (Z.eqb_neq _ _)) by lia. }
  apply IH; [done|]. apply Z.mod_pos_bound. exact Hs.
Qed.

(** The record after a step. *)
Definition does (now : Z) (a : action) (c : ArdpConnRecord) : ArdpConnRecord := after (perform cfg0 now cb0 a) c.

Lemma does_steps now a c : match perform cfg0 now cb0 a c with Ok _ => true | _ => false end = true -> steps cfg0 cb0 c (does now a c).
Proof. intros H. unfold does, after, steps. destruct (perform cfg0 now cb0 a c) as [[st c']| |] eqn:E; try done. by exists now, a, st. Qed.

(** Three messages that live for 50 ms and are not acknowledged. *)
Definition A_sent : ArdpConnRecord := does 10 (Message [3] 50) (does 10 (Message [2] 50) (does 10 (Message [1] 50) A2)).
Definition A_expired : ArdpConnRecord := does 2200 Timers (does 2100 Timers (does 2000 Timers A_sent)).
(** An acknowledgement of snd.NXT. *)
Definition odd_ack : list Z := MarshalHeader
  {| h_flags := Z.lor ARDP_FLAG_ACK ARDP_FLAG_VER; h_hlen := 18; h_src := 18; h_dst := 17; h_dlen := 0; h_sq := 201; h_ack := 104; h_time := 0; h_lcs := 100;
     h_acknxt := 201; h_start := 0; h_cnt := 0 |}.

(** The record when UpdateSndSegments is called, and after its loop. *)
Definition A_update : ArdpConnRecord := let c := with_confirm true (seen_now cfg0 2300 A_expired) in with_snd (with_UNA 105 (snd c)) c.
Definition A_turned : ArdpConnRecord := after (loop_times (104 - 100) (update_turn 104 100) (101 mod 3)) A_update.


(** A peer can make UpdateSndSegments loop for ever: when the messages of a whole
    window have expired without an acknowledgement, an acknowledgement of snd.NXT
    itself passes the checks, releases nothing, and the search for the first segment
    that is not expired goes round the ring without an end. *)
Theorem ARDP_expired_window_hangs :
  rtc (steps cfg0 cb0) A2 A_expired /\ deliver 2300 odd_ack A_expired = Undef /\
  loop_times (104 - 100) (update_turn 104 100) (101 mod 3) A_update = Ok (inl (105 mod 3), A_turned) /\
  forall fuel, skip_expired fuel (105 mod 3) false A_turned = Undef.
Proof.
  split; [|split; [by vm_compute|split; [by vm_compute|]]].
  - unfold A_expired, A_sent. do 6 (eapply rtc_r; [|apply does_steps; vm_compute; reflexivity]). apply rtc_refl.
  - intros fuel. apply skip_expired_endless; [|by vm_compute]. unfold all_expired. evaluate.
Qed.

(** * Sequence numbers that wrap around *)

Definition arrived (x : Rx) (s : Z) : Rx := match arrive 0 100 x (segment_of singles s) with Some (Ok (_, x')) => x' | _ => x end.
(** The segments 2^32 - 1 and 0 of a sender that starts after 2^32 - 2, swapped. *)
Definition wrapped : Rx := arrived (arrived (opened 93 1472 (2 ^ 32 - 2)) 0) (2 ^ 32 - 1).

(** The receiving side stalls where sequence numbers wrap around: the index of a
    segment is its number modulo the window, 93 in the router, which does not divide
    2^32, while the queue advances to the next buffer. Here segment 0 came before
    segment 2^32 - 1 and is in its buffer, but the queue does not reach it, and when
    it is sent again it is taken for a duplicate and changes nothing. *)
Theorem ARDP_wrap_around_stalls :
  CUR (rcv wrapped) = 2 ^ 32 - 1 /\ map (map view) (delivered wrapped) = [[[255]]] /\
  (exists b, slot 93 (rcv wrapped) 0 = Some b /\ r_seq b = 0 /\ in_use b = true /\ is_delivered b = false) /\
  forall now dat, arrive now dat wrapped (segment_of singles 0) = Some (Ok (ER_OK, wrapped)).
Proof.
  split; [by vm_compute|]. split; [by vm_compute|]. split; [eexists; split; [vm_compute; reflexivity|by vm_compute]|].
  intros now dat. vm_compute. reflexivity.
Qed.
