(* ===== verification/ArdpDelivery.v ===== *)
(** From ARDP_Send on one end of a connection to RecvCb on the other: the datagrams of a
    message may arrive in any order and any number of times. *)
From S2P Require Import Prelude Types Marshal Ardp ArdpRcvProofs ArdpQueueProofs ArdpTheorems ArdpState ArdpConn ArdpConnProofs ArdpSendProofs ArdpConnTheorems ArdpHandshake ArdpRuns.
Import Ardp ArdpState ArdpConn.

(** * Operations that always return *)

Definition total {A} (m : M A) : Prop := forall c, exists a c', m c = Ok (a, c').

Lemma total_ret {A} (a : A) : total (ret a).
Proof. intros c. by exists a, c. Qed.
Lemma total_get : total get.
Proof. intros c. by exists c, c. Qed.
Lemma total_modify f : total (modify f).
Proof. intros c. by exists tt, (f c). Qed.
Lemma total_mdo {A B} (m : M A) (k : A -> M B) : total m -> (forall a, total (k a)) -> total (mdo m k).
Proof. intros Hm Hk c. destruct (Hm c) as (a & c1 & E). destruct (Hk a c1) as (b & c2 & E2). exists b, c2. by rewrite (mdo_eq _ _ _ _ _ E). Qed.
Lemma total_when b m : total m -> total (when b m).
Proof. intros H. destruct b; [done|apply total_ret]. Qed.
Lemma total_SendToSG b : total (SendToSG b).
Proof. intros c. by eexists _, _. Qed.

Create HintDb ardp_total.
#[export] Hint Resolve total_ret total_get total_modify total_SendToSG : ardp_total.

Ltac totality :=
  repeat first
    [ progress intros | solve [eauto with ardp_total] | apply total_mdo | apply total_when
    | match goal with |- total (match ?x with _ => _ end) => destruct x end ].

Lemma total_Send f s a : total (Send f s a).
Proof. unfold Send, SendMsgHeader. totality. Qed.
#[export] Hint Resolve total_Send : ardp_total.
Lemma total_AckTimerHandler : total AckTimerHandler.
Proof. unfold AckTimerHandler, send_now. totality. Qed.
Lemma total_set_ackTimer now t n : total (set_ackTimer now t n).
Proof. unfold set_ackTimer, call_back. totality. Qed.
Lemma total_set_persistTimer now t n : total (set_persistTimer now t n).
Proof. unfold set_persistTimer, call_back. totality. Qed.
#[export] Hint Resolve total_AckTimerHandler total_set_ackTimer total_set_persistTimer : ardp_total.

(** * Operations that change neither queue *)

Definition steady (c c' : ArdpConnRecord) : Prop :=
  state c' = state c /\ snd c' = snd c /\ rcv_of c' = rcv_of c /\ delivered (rx c') = delivered (rx c) /\ modeSimple c' = modeSimple c.

#[export] Instance steady_preorder : PreOrder steady.
Proof. split; [done|]. intros x y z (? & ? & ? & ? & ?) (? & ? & ? & ? & ?). split_and!; congruence. Qed.

Ltac steady := keep; by split_and!.

Lemma steady_SendToSG b : keeps steady (SendToSG b).
Proof. intros c a c' [= _ <-]. by split_and!. Qed.
#[export] Hint Resolve steady_SendToSG : ardp.
Lemma steady_Send f s a : keeps steady (Send f s a).
Proof. unfold Send, SendMsgHeader. steady. Qed.
#[export] Hint Resolve steady_Send : ardp.
Lemma steady_AckTimerHandler : keeps steady AckTimerHandler.
Proof. unfold AckTimerHandler, send_now. steady. Qed.
Lemma steady_set_ackTimer now t n : keeps steady (set_ackTimer now t n).
Proof. unfold set_ackTimer, call_back. steady. Qed.
Lemma steady_set_persistTimer now t n : keeps steady (set_persistTimer now t n).
Proof. unfold set_persistTimer, call_back. steady. Qed.
#[export] Hint Resolve steady_AckTimerHandler steady_set_ackTimer steady_set_persistTimer : ardp.

Lemma steady_take_window cfg now seg : keeps steady (take_window cfg now seg).
Proof. unfold take_window, note. steady. Qed.

Lemma take_window_steady cfg now seg c : persistInterval cfg <> 0 -> exists c', take_window cfg now seg c = Ok (tt, c') /\ steady c c'.
Proof.
  intros Hp. assert (total (take_window cfg now seg)) as Ht.
  { unfold take_window, note. rewrite (proj2 (Z.eqb_neq _ 0)) by done. cbn [negb check]. totality. }
  destruct (Ht c) as ([] & c' & E). exists c'. split; [done|]. by eapply steady_take_window.
Qed.

(** * A data segment on an open connection *)

(** The data go to the queue; the acknowledgement that follows changes no queue. *)
Lemma take_data_ok cfg now seg buf dup c x : receive_data now (delayedAckTimeout cfg) (rx c) (segment_data seg buf) dup = Ok (ER_OK, x) ->
  exists c', take_data cfg now seg buf dup c = Ok (ER_OK, c') /\ steady (with_rx x c) c'.
Proof.
  intros E. unfold take_data. rewrite (mdo_eq _ _ _ ER_OK (with_rx x c)) by (unfold on_rx; by rewrite E). rewrite decide_True by done.
  set (k := let* _ := modify _ in _). assert (total k) as Ht by (unfold k; totality).
  destruct (Ht (with_rx x c)) as (st & c' & Ek). assert (st = ER_OK) as ->.
  { unfold k in Ek. apply mdo_Ok in Ek as (? & ? & _ & (? & ? & _ & (? & ? & _ & [= <- _])%mdo_Ok)%mdo_Ok). done. }
  exists c'. split; [done|]. refine ((_ : keeps steady k) _ _ _ Ek). unfold k. steady.
Qed.

(** The segment carries data and an acknowledgement that is not new. *)
Record plain (c : ArdpConnRecord) (seg : ArdpSeg) : Prop := {
  pl_flags : gFLG seg = Z.lor ARDP_FLAG_ACK ARDP_FLAG_VER; pl_dlen : gDLEN seg <> 0;
  pl_acknxt : SEQ32_LT (CUR (rcv_of c) + 1) (gACKNXT seg) = false;
  pl_una : UNA (snd c) = NXT (snd c); pl_nxt : 0 <= NXT (snd c) < 2 ^ 32; pl_ack : gACK seg = w32 (NXT (snd c) - 1); pl_lcs : gLCS seg = sLCS (snd c)
}.

Lemma take_ack_plain cfg now c seg buf : plain c seg -> take_ack cfg now seg buf c = Ok (ER_OK, with_confirm true c).
Proof.
  intros [Hf Hd Hx Hu Hn Ha Hl]. unfold take_ack. rewrite Hf. change (negb (flag_set (Z.lor ARDP_FLAG_ACK ARDP_FLAG_VER) ARDP_FLAG_ACK)) with false.
  change (flag_set (Z.lor ARDP_FLAG_ACK ARDP_FLAG_VER) ARDP_FLAG_EACK) with false. cbn match.
  erewrite mdo_eq by done. erewrite mdo_eq by done. cbn [snd with_confirm]. rewrite Hu, Hl, Z.eqb_refl. cbn [negb].
  replace (NXT (snd c) - NXT (snd c) + 1) with 1 by lia. change (w32 1) with 1.
  assert (0 <= w32 (NXT (snd c) - 1) < 2 ^ 32) by (apply Z.mod_pos_bound; lia). rewrite IN_RANGE_mod by lia.
  assert (w32 (gACK seg - NXT (snd c)) = 2 ^ 32 - 1) as ->.
  { rewrite Ha. unfold w32. rewrite Zminus_mod_idemp_l. replace (NXT (snd c) - 1 - NXT (snd c)) with (-1) by lia. done. }
  done.
Qed.

Lemma machine_OPEN_data cfg now AcceptCb seg buf dup c x : state c = OPEN -> persistInterval cfg <> 0 -> plain c seg ->
  segment_range (rcv_of c) (gSEQ seg) (gDLEN seg) = Some dup ->
  receive_data now (delayedAckTimeout cfg) (rx c) (segment_data seg buf) dup = Ok (ER_OK, x) ->
  exists c', ArdpMachine cfg now AcceptCb seg buf c = Ok (tt, c') /\ steady (with_rx x c) c'.
Proof.
  intros Hst Hp Hpl Hr Hd. unfold ArdpMachine. rewrite (mdo_eq _ _ _ c c) by done. rewrite Hst. unfold machine_OPEN. rewrite (mdo_eq _ _ _ c c) by done.
  rewrite (pl_flags _ _ Hpl). change (flag_set (Z.lor ARDP_FLAG_ACK ARDP_FLAG_VER) ARDP_FLAG_RST) with false. cbn match. rewrite Hr.
  change (flag_set (Z.lor ARDP_FLAG_ACK ARDP_FLAG_VER) ARDP_FLAG_SYN) with false. change (flag_set (Z.lor ARDP_FLAG_ACK ARDP_FLAG_VER) ARDP_FLAG_NUL) with false. cbn match.
  rewrite (pl_acknxt _ _ Hpl). erewrite mdo_eq by done. rewrite (mdo_eq _ _ _ _ _ (take_ack_plain cfg now c seg buf Hpl)).
  rewrite decide_True by done. rewrite (proj2 (Z.eqb_neq (gDLEN seg) 0)) by apply Hpl. cbn [negb].
  destruct (take_data_ok cfg now seg buf dup (with_confirm true c) x Hd) as (c1 & E1 & H1). rewrite (mdo_eq _ _ _ _ _ E1). rewrite decide_True by done.
  destruct (take_window_steady cfg now seg c1 Hp) as (c2 & E2 & H2). exists c2. split; [done|]. transitivity c1; [exact H1|exact H2].
Qed.

(** * A message of [n] segments *)

(** The stream that starts with a message of [n] segments and goes on with messages of
    one segment. *)
Definition message_stream (irs n : Z) (payload : Z -> list Z) : stream :=
  {| first := fun s => if s <=? irs + n then irs + 1 else s; count := fun s => if s <=? irs + n then n else 1; data := payload |}.

Lemma message_stream_ok N irs n payload : 1 <= n <= N -> stream_ok N irs (message_stream irs n payload).
Proof.
  intros Hn. split; cbn [first count message_stream].
  - by rewrite (proj2 (Z.leb_le _ _)) by lia.
  - intros s Hs. case_match; lia.
  - intros s Hs. destruct (Z.leb_spec s (irs + n)); lia.
  - intros s t Hs. destruct (Z.leb_spec s (irs + n)); intros Ht; destruct (Z.leb_spec t (irs + n)); lia.
Qed.

Lemma after_messages_singles irs n payload k : forall s, irs + n < s -> after_messages (message_stream irs n payload) k s = s + Z.of_nat k.
Proof.
  induction k as [|k IH]; intros s Hs; cbn [after_messages]; [lia|]. cbn [count message_stream]. rewrite (proj2 (Z.leb_gt _ _)) by lia. rewrite IH by lia. lia.
Qed.

(** What is delivered of the first message. *)
Lemma delivered_message irs n payload k c : 1 <= n -> irs <= c <= irs + n ->
  after_messages (message_stream irs n payload) k (irs + 1) = first (message_stream irs n payload) (c + 1) ->
  messages (message_stream irs n payload) k (irs + 1) = if c =? irs + n then [fragments (message_stream irs n payload) (irs + 1) (Z.to_nat n)] else [].
Proof.
  intros Hn Hc. cbn [first message_stream]. destruct k as [|k].
  - cbn [after_messages messages]. intros E. destruct (Z.leb_spec (c + 1) (irs + n)); [by rewrite (proj2 (Z.eqb_neq _ _)) by lia|lia].
  - cbn [after_messages messages]. assert (count (message_stream irs n payload) (irs + 1) = n) as -> by (cbn [count message_stream]; by rewrite (proj2 (Z.leb_le _ _)) by lia).
    rewrite after_messages_singles by lia. destruct (Z.leb_spec (c + 1) (irs + n)) as [|Hgt]; intros E; [lia|].
    rewrite (proj2 (Z.eqb_eq _ _)) by lia. assert (k = 0%nat) as -> by lia. done.
Qed.

(** The end that sends: nothing was received, nothing is outstanding. *)
Record fresh_sender (A : ArdpConnRecord) (buf : list Z) (irs peer : Z) : Prop := {
  fs_send : can_send A buf; fs_nxt : NXT (snd A) = irs + 1; fs_una : UNA (snd A) = irs + 1; fs_eack : sz (eack (rcv_of A)) = 0;
  fs_cur : CUR (rcv_of A) = peer; fs_lcs : LCS (rcv_of A) = peer
}.

(** The end that receives: nothing is outstanding, all was consumed. *)
Record fresh_receiver (B : ArdpConnRecord) (N irs peer : Z) : Prop := {
  fr_open : state B = OPEN; fr_simple : modeSimple B = false; fr_nxt : NXT (snd B) = w32 (peer + 1); fr_una : UNA (snd B) = w32 (peer + 1);
  fr_lcs : sLCS (snd B) = peer; fr_peer : 0 <= peer < 2 ^ 32; fr_rcv : exists b, rcv_of B = rcv (opened N b irs); fr_delivered : delivered (rx B) = []
}.

(** Datagrams of [ds] arrive: when, which one, and what the buffer holds after it. *)
Fixpoint hear cfg AcceptCb (ds : list (list Z)) (l : list (Z * nat * list Z)) : M (list QStatus) :=
  match l with
  | [] => ret []
  | (now, j, stale) :: l => let d := default [] (ds !! j) in
                            let* st := run_datagram cfg now AcceptCb (d ++ stale) (zlen d) in
                            let* sts := hear cfg AcceptCb ds l in ret (st :: sts)
  end.

Definition which (l : list (Z * nat * list Z)) : list nat := (fun '(_, j, _) => j) <$> l.

Section Message.
Context (A B : ArdpConnRecord) (buf : list Z) (N irs peer : Z).
Context (HN : window_ok N) (Hirs : 0 <= irs) (Hwrap : irs + N + 1 < 2 ^ 32).
Context (HA : fresh_sender A buf irs peer) (HB : fresh_receiver B N irs peer).
Context (Hfit : fragment_count (maxDlen (snd A)) (zlen buf) <= N).

Abbreviation D := (maxDlen (snd A)).
Abbreviation n := (fragment_count (maxDlen (snd A)) (zlen buf)).

Definition st : stream := message_stream irs n (fun s => part D buf (Z.to_nat (s - irs - 1))).

Definition datagram (j : nat) : list Z := data_bytes A (irs + 1 + Z.of_nat j) (irs + 1) n 0 (part D buf j).

Definition datagram_header (j : nat) : ArdpHeader := with_h_hlen 18 (data_header A (irs + 1 + Z.of_nat j) (irs + 1) n (zlen (part D buf j)) 0).

Lemma datagram_shape j : datagram j = MarshalHeader (datagram_header j) ++ part D buf j.
Proof. unfold datagram, data_bytes, eack_header, sends_eack. rewrite (fs_eack _ _ _ _ HA). done. Qed.

Lemma message_bounds : 1 <= n /\ 1 <= zlen buf /\ D * (n - 1) < zlen buf <= D * n /\ 1 <= D < 2 ^ 16.
Proof using HA.
  clear Hfit. destruct (fs_send _ _ _ _ HA) as [_ _ _ _ [Hne _] HD _ _ _ _]. assert (1 <= zlen buf) as Hl by (destruct buf; [done|cbn [length]; lia]).
  destruct (fragment_count_bounds D (zlen buf) ltac:(lia) Hl). split_and!; (done || nia).
Qed.

Lemma datagram_header_ok j : Z.of_nat j < n -> header_ok (datagram_header j).
Proof.
  intros Hj. destruct message_bounds as (? & ? & ? & ?). pose proof (part_length D buf n j ltac:(lia) ltac:(lia) Hj). pose proof (window_16 N HN).
  destruct (cs_wire _ _ (fs_send _ _ _ _ HA)). split; cbn; lia.
Qed.

(** What holds of the receiver while the datagrams arrive. *)
Record hearing (seen : Z -> Prop) (c : ArdpConnRecord) : Prop := {
  he_state : state c = OPEN; he_simple : modeSimple c = false; he_snd : snd c = snd B; he_lcs : LCS (rcv_of c) = irs;
  he_seen : forall s, seen s -> irs < s <= irs + n; he_rcv : receiving N irs st seen (rx c)
}.

Lemma receiving_ext seen x x' : rcv x' = rcv x -> delivered x' = delivered x -> receiving N irs st seen x -> receiving N irs st seen x'.
Proof using. intros Er Ed [Hq Hg Hi]. split; rewrite ?Er; try done. eapply queue_ext; [exact Hq|by rewrite ?Er, ?Ed..]. Qed.

Lemma stream_setting : setting N irs st.
Proof. destruct message_bounds as (? & _). split; try done. apply message_stream_ok. lia. Qed.

Lemma hearing_start : hearing (seen_in []) B.
Proof.
  destruct HB as [Hs Hm Hn Hu Hl Hp [b Hr] Hd]. split; try done.
  - by rewrite Hr.
  - intros s Hs'. by apply not_elem_of_nil in Hs'.
  - apply (receiving_ext _ (opened N b irs)); [exact Hr|exact Hd|]. apply opened_receiving, stream_setting.
Qed.

(** A datagram of the message is valid at the receiver, and not new as an
    acknowledgement. *)
Lemma datagram_plain seen c j : hearing seen c -> Z.of_nat j < n ->
  segment_valid c (segment_for c (datagram_header j)) = true /\ plain c (segment_for c (datagram_header j)).
Proof.
  intros [Hs Hm Hsnd HL Hse [Hq _ _]] Hj. destruct message_bounds as (Hn1 & _ & HDn & HD). pose proof (window_16 N HN) as HN16.
  pose proof (part_length D buf n j ltac:(lia) ltac:(lia) Hj) as Hpart. destruct (q_ring _ _ _ _ _ _ Hq) as [HSEG _].
  pose proof (q_lcs _ _ _ _ _ _ Hq) as HlC. change (rcv (rx c)) with (rcv_of c) in *. rewrite HL in HlC.
  destruct HA as [_ HnA HuA _ HcA HlA]. destruct HB as [_ _ HnB HuB HlB Hp _ _].
  assert (w32 (w32 (peer + 1) - peer) = 1) as Hw1 by (unfold w32; rewrite Zminus_mod_idemp_l; by replace (peer + 1 - peer) with 1 by lia).
  assert (w32 (w32 (peer + 1) - 1) = peer) as Hw2 by (unfold w32; rewrite Zminus_mod_idemp_l; replace (peer + 1 - 1) with peer by lia; apply Z.mod_small; lia).
  split.
  - unfold segment_valid, segment_for, datagram_header, data_header. cbn [gACK gLCS gSEQ gACKNXT gDLEN gFCNT gSOM h_ack h_lcs h_sq h_acknxt h_dlen h_cnt h_start with_h_hlen].
    rewrite HcA, HlA, HuA, Hsnd, HnB, HSEG. unfold SEQ32_LT. rewrite Z.sub_diag, Hw1. replace (irs + 1 + Z.of_nat j - (irs + 1)) with (Z.of_nat j) by lia.
    change (w32 0) with 0. rewrite !w32_id by lia. rewrite !(proj2 (Z.leb_gt _ _)) by lia. rewrite !(proj2 (Z.ltb_ge _ _)) by lia.
    rewrite !(proj2 (Z.eqb_neq _ _)) by lia. done.
  - split; cbn [gACK gLCS gSEQ gACKNXT gDLEN gFLG segment_for datagram_header data_header h_flags h_ack h_lcs h_sq h_acknxt h_dlen with_h_hlen]; rewrite ?Hsnd, ?HnB, ?HuB; try done.
    + lia.
    + rewrite HuA, SEQ32_LT_near by lia. apply Z.ltb_ge. lia.
    + apply Z.mod_pos_bound. lia.
    + by rewrite HcA, Hw2.
    + by rewrite HlA, HlB.
Qed.

(** A datagram arrives. *)
Lemma datagram_arrives cfg now AcceptCb stale seen c j : hearing seen c -> Z.of_nat j < n -> persistInterval cfg <> 0 ->
  exists c', run_datagram cfg now AcceptCb (datagram j ++ stale) (zlen (datagram j)) c = Ok (ER_OK, c') /\ hearing (and_seen seen (irs + 1 + Z.of_nat j)) c'.
Proof.
  intros Hc Hj Hp. destruct message_bounds as (Hn1 & _ & HDn & HD). set (s := irs + 1 + Z.of_nat j).
  pose proof (part_length D buf n j ltac:(lia) ltac:(lia) Hj) as Hpart. set (c0 := seen_now cfg now c).
  assert (hearing seen c0) as Hc0 by (destruct Hc; by split). destruct (datagram_plain seen c0 j Hc0 Hj) as [Hvalid Hplain].
  destruct (Receive_marshal cfg now AcceptCb (datagram_header j) [] (part D buf j) stale c0) as (Er & Ed & _);
    [by apply datagram_header_ok|done..|apply Hc0|]. cbn [flat_map app length] in Er, Ed. rewrite Hvalid in Er.
  assert (segment_data (segment_for c0 (datagram_header j)) (MarshalHeader (datagram_header j) ++ part D buf j ++ stale) = segment_of st s) as Eseg.
  { rewrite Ed. unfold segment_of, st. cbn [first count data message_stream]. rewrite (proj2 (Z.leb_le _ _)) by lia.
    replace (Z.to_nat (s - irs - 1)) with j by lia. done. }
  destruct Hc0 as [Hs0 Hm0 Hsnd0 HL0 Hse0 Hr0].
  pose proof (q_lcs _ _ _ _ _ _ (rc_queue _ _ _ _ _ Hr0)) as HlC. change (rcv (rx c0)) with (rcv_of c0) in HlC.
  destruct (receive_data_receiving N irs st HN (se_stream _ _ _ stream_setting) now (delayedAckTimeout cfg) seen (rx c0) s Hr0) as (dup & x & Hrange & Hrd & Hrc & HLx).
  { lia. } { cbn [data st message_stream]. replace (Z.to_nat (s - irs - 1)) with j by lia. intros E. rewrite E in Hpart. cbn in Hpart. lia. }
  { change (rcv (rx c0)) with (rcv_of c0). lia. }
  destruct (machine_OPEN_data cfg now AcceptCb (segment_for c0 (datagram_header j)) (MarshalHeader (datagram_header j) ++ part D buf j ++ stale) dup c0 x Hs0 Hp Hplain)
    as (c' & Em & H1 & H2 & H3 & H4 & H5).
  { cbn [data st message_stream] in Hrange. replace (Z.to_nat (s - irs - 1)) with j in Hrange by lia. exact Hrange. }
  { by rewrite Eseg. }
  exists c'. split.
  - destruct Hc. apply run_datagram_ok; [by rewrite he_state0..|]. fold c0. rewrite datagram_shape, <- app_assoc.
    replace (zlen (MarshalHeader (datagram_header j) ++ part D buf j)) with (36 + 4 * Z.of_nat 0 + zlen (part D buf j)) by (rewrite length_app, MarshalHeader_length; lia).
    rewrite Er. by rewrite (mdo_eq _ _ _ _ _ Em).
  - split; [by rewrite H1|by rewrite H5|by rewrite H2|rewrite H3; change (LCS (rcv x) = irs); by rewrite HLx| |].
    + intros t [->|Ht]; [lia|by apply Hse0].
    + by apply (receiving_ext _ x).
Qed.

Definition heard (l : list (Z * nat * list Z)) (s : Z) : Prop := exists j, j ∈ which l /\ s = irs + 1 + Z.of_nat j.

Lemma hearing_iff p q c : (forall s, p s <-> q s) -> hearing p c -> hearing q c.
Proof using. intros H []. split; try done; [intros s Hs; apply he_seen0; by apply H|]. by eapply receiving_iff. Qed.

Definition datagrams : list (list Z) := map datagram (seq 0 (Z.to_nat n)).

Lemma hear_ok cfg AcceptCb l : persistInterval cfg <> 0 -> Forall (fun '(_, j, _) => Z.of_nat j < n) l -> forall seen c, hearing seen c ->
  exists c', hear cfg AcceptCb datagrams l c = Ok (repeat ER_OK (length l), c') /\ hearing (fun s => seen s \/ heard l s) c'.
Proof.
  intros Hp. induction 1 as [|[[now j] stale] l Hj _ IH]; intros seen c Hc; cbn [hear].
  - exists c. split; [done|]. eapply hearing_iff; [|exact Hc]. intros s. split; [auto|]. intros [?|(? & H & _)]; [done|]. by apply not_elem_of_nil in H.
  - destruct (datagram_arrives cfg now AcceptCb stale seen c j Hc Hj Hp) as (c1 & E1 & Hc1). destruct (IH _ _ Hc1) as (c2 & E2 & Hc2).
    assert (datagrams !! j = Some (datagram j)) as -> by (apply list_lookup_fmap_Some; exists j; split; [done|apply lookup_seq; lia]). cbv zeta. cbn [default].
    exists c2. rewrite (mdo_eq _ _ _ _ _ E1), (mdo_eq _ _ _ _ _ E2). split; [done|]. eapply hearing_iff; [|exact Hc2].
    intros s. unfold and_seen, heard, which. rewrite fmap_cons. setoid_rewrite elem_of_cons. split; [intros [ [-> |?]|(i & ? & ->)]|intros [?|(i & [-> |?] & ->)]]; eauto.
Qed.

(** What was delivered when the datagrams in [l] have arrived. *)
Lemma hearing_delivered l c : hearing (heard l) c -> map (map view) (delivered (rx c)) =
  if bool_decide (seq 0 (Z.to_nat n) ⊆ which l) then [map (part D buf) (seq 0 (Z.to_nat n))] else [].
Proof.
  intros [_ _ _ _ Hse [Hq Hgap _]]. destruct message_bounds as (Hn1 & _).
  pose proof (q_irs _ _ _ _ _ _ Hq) as Hirs'. pose proof (q_lcs _ _ _ _ _ _ Hq). pose proof (q_all _ _ _ _ _ _ Hq) as Hall.
  set (C := CUR (rcv (rx c))) in *. assert (C <= irs + n) as HC.
  { destruct (decide (C = irs)); [lia|]. refine (proj2 (Hse C (Hall C _))). lia. }
  destruct (q_delivered _ _ _ _ _ _ Hq) as (k & -> & Ha). unfold st at 1. rewrite (delivered_message irs n _ k C Hn1 ltac:(lia) Ha).
  destruct (Z.eqb_spec C (irs + n)) as [E|Hne].
  - rewrite bool_decide_true.
    2:{ intros j [_ Hj]%elem_of_seq. destruct (Hall (irs + 1 + Z.of_nat j)) as (i & Hi & ?); [lia|]. by replace j with i by lia. }
    f_equal. unfold fragments, st. apply list_fmap_ext. intros i j [-> Hj]%lookup_seq. cbn [data message_stream]. f_equal. lia.
  - rewrite bool_decide_false; [done|]. intros Hsub. apply Hgap. exists (Z.to_nat (C - irs)). split; [|lia]. apply Hsub, elem_of_seq. lia.
Qed.

End Message.

(** C21: The first message on a fresh connection travels whole from ARDP_Send at one end
    to RecvCb at the other. Take an open connection on which nothing was sent yet and
    whose sequence numbers do not reach 2^32, a message without a time to live that fits
    the window, and a receiver with a persist interval: ARDP_Send returns ER_OK and
    writes the datagrams of the message; whichever of them arrive, in whatever order,
    how often and with whatever stale bytes after them in the buffer, each is taken and
    the connection stays open; nothing is delivered before every one has arrived, and
    then the message is delivered, once and whole. *)
Theorem ARDP_message_delivered cfgA cfgB AcceptCb now A B buf N irs peer :
  window_ok N -> 0 <= irs -> irs + N + 1 < 2 ^ 32 -> fresh_sender A buf irs peer -> fresh_receiver B N irs peer ->
  fragment_count (maxDlen (snd A)) (zlen buf) <= N -> persistInterval cfgB <> 0 ->
  exists A' ds frags, ARDP_Send cfgA now buf ARDP_TTL_INFINITE A = Ok (ER_OK, A') /\ events A' = events A ++ map (fun d => Sent d ER_OK) ds /\
    zlen ds = fragment_count (maxDlen (snd A)) (zlen buf) /\ concat frags = buf /\
    forall l, Forall (fun '(_, j, _) => (j < length ds)%nat) l ->
      exists B', hear cfgB AcceptCb ds l B = Ok (repeat ER_OK (length l), B') /\ state B' = OPEN /\
        map (map view) (delivered (rx B')) = if bool_decide (seq 0 (length ds) ⊆ which l) then [frags] else [].
Proof.
  intros HN Hirs Hwrap HA HB Hfit Hp. set (n := fragment_count (maxDlen (snd A)) (zlen buf)) in *.
  destruct (message_bounds A buf irs peer HA) as (Hn1 & Hl & HDn & HD). fold n in Hn1, HDn. pose proof (window_16 N HN) as HN16.
  destruct (fs_send _ _ _ _ HA) as [Hc Hst Hli Hwire [Hne Hlen] _ Hnx Hwin Hpd Hun].
  destruct (ARDP_Send_ok cfgA now A buf Hc Hst Hli Hne Hlen HD Hwin Hpd Hun Hnx) as (A' & E & _ & _ & _ & _ & Hev).
  exists A', (datagrams A buf irs), (map (part (maxDlen (snd A)) buf) (seq 0 (Z.to_nat n))).
  assert (length (datagrams A buf irs) = Z.to_nat n) as Hds by (unfold datagrams; by rewrite length_map, length_seq).
  split_and!; [done| |lia|apply concat_parts; lia|].
  - rewrite Hev. f_equal. unfold datagrams. rewrite map_map. fold n. apply map_ext_in. intros j Hj%in_seq. unfold fragment_sent, datagram.
    rewrite (fs_nxt _ _ _ _ HA). unfold w32. by rewrite Z.mod_small by lia.
  - intros l Hin. rewrite Hds in *. pose proof (hearing_start A B buf N irs peer HN Hirs Hwrap HA HB Hfit) as H0.
    destruct (hear_ok A B buf N irs peer HN Hirs Hwrap HA HB Hfit cfgB AcceptCb l Hp) with (2 := H0) as (B' & EB & HB').
    { eapply Forall_impl; [exact Hin|]. intros [[??]?] Hj. fold n. lia. }
    exists B'. split_and!; [done|apply HB'|]. eapply (hearing_delivered A B buf N irs peer); [done..|].
    eapply hearing_iff; [|exact HB']. intros s. split; [|auto]. intros [H|H]; [by apply not_elem_of_nil in H|done].
Qed.

(** * A message of two segments *)

(** Ends with the windows and the segments of the router. *)
Definition cb_router : list Z -> M bool := accept_with cfg0 0 93 4440 [9].
Definition hear_router (d : list Z) : M QStatus := run_datagram cfg0 0 cb_router (d ++ repeat 0 60) (zlen d).
Definition A1_router : ArdpConnRecord := after (ARDP_Connect cfg0 0 93 4440 [1]) (InitConnRecord cfg0 0 17 0 100 1000 false).
Definition B1_router : ArdpConnRecord :=
  after (Accept cfg0 0 cb_router (last_sent A1_router ++ repeat 0 60) (zlen (last_sent A1_router)))
    (with_listed true (InitConnRecord cfg0 0 18 17 200 1000 false)).
Definition A2_router : ArdpConnRecord := after (hear_router (last_sent B1_router)) A1_router.
Definition B2_router : ArdpConnRecord := after (hear_router (last_sent A2_router)) B1_router.
Definition two_segments : list Z := repeat 7 5000.

Lemma ARDP_message_delivered_witness : fresh_sender A2_router two_segments 100 200 /\ fresh_receiver B2_router 93 100 200 /\
  exists A' ds, ARDP_Send cfg0 5 two_segments ARDP_TTL_INFINITE A2_router = Ok (ER_OK, A') /\ length ds = 2%nat /\
    exists B', hear cfg0 cb_router ds [(6, 1%nat, [0]); (7, 1%nat, []); (8, 0%nat, [3; 4])] B2_router = Ok ([ER_OK; ER_OK; ER_OK], B') /\
      concat (concat (map (map view) (delivered (rx B')))) = two_segments.
Proof.
  assert (fresh_sender A2_router two_segments 100 200) as HA.
  { split; [|evaluate..]. split; [split; evaluate|evaluate|evaluate| |evaluate..]. split; [evaluate..|]. exists 3. evaluate. }
  assert (fresh_receiver B2_router 93 100 200) as HB.
  { split; [evaluate..| |evaluate]. exists 4440. by vm_compute. }
  split; [exact HA|]. split; [exact HB|].
  destruct (ARDP_message_delivered cfg0 cfg0 cb_router 5 A2_router B2_router two_segments 93 100 200) as (A' & ds & frags & E & _ & Hzl & Hcat & Hall);
    [evaluate|lia|lia|exact HA|exact HB|vm_compute; discriminate|done|].
  assert (length ds = 2%nat) as Hds by (apply Nat2Z.inj; rewrite Hzl; by vm_compute).
  exists A', ds. split; [exact E|]. split; [exact Hds|].
  destruct (Hall [(6, 1%nat, [0]); (7, 1%nat, []); (8, 0%nat, [3; 4])]) as (B' & EB & _ & Hd).
  { rewrite Hds. repeat constructor. }
  exists B'. split; [exact EB|]. rewrite Hd, Hds. rewrite bool_decide_true by evaluate. cbn [concat]. by rewrite app_nil_r.
Defined.
