(* ===== verification/MsgArgFormat.v ===== *)
(** Model of the format strings of alljoyn_core/src/MsgArg.cc: Set and SetV with
    VBuildArgs and BuildArray, Get and GetElement with VParseArgs and ParseArray, and
    the comparison and the copies of arguments (operator==, Clone, Stabilize).

    The variable arguments of a call are a typed list: reading one of another type
    or behind the end is undefined. A [char*] is the memory it points to, the
    terminator included. What Get stores through the pointers it is given is a list,
    too; the pointers themselves are only NULL or not. *)
From stdpp Require Import strings.
From S2P Require Import Prelude Types SignatureUtils SigMachine SigGrammar SigBuild Marshal Unmarshal BusUtil.

(** String literals. *)
Definition lit (s : string) : list Z :=
  map (fun c => Z.of_nat (Ascii.nat_of_ascii c)) (String.list_ascii_of_string s).

Module MsgArgFormat.

(** * Variable arguments *)

Inductive Va : Type :=
| V_NULL                                   (* a NULL pointer of any type *)
| V_BYTE (v : Z)                           (* stored through uint8_t* *)
| V_BOOL (b : bool)                        (* stored through bool* *)
| V_16 (v : Z)                             (* stored through uint16_t* *)
| V_INT (v : Z)                            (* int, uint32_t, SocketFd: 32 bits *)
| V_LONG (v : Z)                           (* uint64_t, int64_t *)
| V_DOUBLE (bits : Z)
| V_SIZE (n : Z)                           (* size_t *)
| V_STR (s : list Z)                       (* char* *)
| V_ARG (a : MsgArg)                       (* MsgArg* to one argument *)
| V_ARGS (l : list MsgArg)                 (* MsgArg* to several *)
| V_STRS (l : list (option (list Z)))      (* char** *)
| V_STRINGS (l : list (list Z))            (* qcc::String* *)
| V_BYTES (l : list Z)
| V_BOOLS (l : list bool)
| V_16S (l : list Z)
| V_32S (l : list Z)
| V_64S (l : list Z).

Definition is_NULL (v : Va) : bool := match v with V_NULL => true | _ => false end.

(** The first [n] elements at a pointer. *)
Definition prefix {A} (l : list A) (n : Z) : res (list A) :=
  if n <=? zlen l then Ok (take (Z.to_nat n) l) else Undef.

(** * BuildArray *)

(** [MsgArg::Signature] of one argument. *)
Definition Signature (a : MsgArg) : res (list Z) :=
  let! (st, sb) := MakeSignature [a] sb_empty in
  if decide (st = ER_OK) then
    match mapM id (take (Z.to_nat (sb_len sb)) (sb_sig sb)) with Some s => Ok s | None => Undef end
  else Ok [].

(** The loops that compare the signatures of the elements. *)
Fixpoint all_HasSignature (l : list MsgArg) (sig : list Z) : res bool :=
  match l with
  | [] => Ok true
  | e :: l => let! b := HasSignature e sig in if b then all_HasSignature l sig else Ok false
  end.

(** What [c_str()] points to. *)
Definition text (s : list Z) : list Z := s ++ [0].

Definition string_arg (t : TyStr) (s : list Z) : MsgArg := A_STRING t (zlen s) (Some (text s)).

(** The elements of an array of strings or signatures given as [char**]. *)
Fixpoint text_args (mk : Z -> list Z -> MsgArg) (l : list (option (list Z))) : res (list MsgArg) :=
  match l with
  | [] => Ok []
  | None :: _ => Undef
  | Some m :: l => let! s := c_str m in let! es := text_args mk l in Ok (mk (zlen s) m :: es)
  end.

(** A scalar array: the pointer may only be NULL with no elements. *)
Definition scalar_array {A} (mk : scalars A -> MsgArg) (unpack : Va -> option (list A)) (n : Z) (elems : Va) : res (QStatus * MsgArg) :=
  match elems with
  | V_NULL => Ok (ER_OK, mk (S_NULL (Z.to_nat n)))
  | _ => match unpack elems with Some l => let! l := prefix l n in Ok (ER_OK, mk (S_PTR l)) | None => Undef end
  end.

Definition bytes_of (v : Va) := match v with V_BYTES l => Some l | _ => None end.
Definition bools_of (v : Va) := match v with V_BOOLS l => Some l | _ => None end.
Definition words16_of (v : Va) := match v with V_16S l => Some l | _ => None end.
Definition words32_of (v : Va) := match v with V_32S l => Some l | _ => None end.
Definition words64_of (v : Va) := match v with V_64S l => Some l | _ => None end.

(** The elements given as [MsgArg*]; NULL when there are none. *)
Definition arg_elements (n : Z) (elems : Va) : res (list MsgArg) :=
  if n =? 0 then Ok [] else match elems with V_ARGS l => prefix l n | _ => Undef end.

(** The switch on the first character of the element signature. *)
Definition build_elements (elemSig : list Z) (n : Z) (elems : Va) (va : list Va) : res (QStatus * MsgArg * list Va) :=
  let keep (r : res (QStatus * MsgArg)) := let! (st, a) := r in Ok (st, a, va) in
  match hd 0 elemSig with
  | 42 (* * *) =>
      if 0 <? n then
        let! l := arg_elements n elems in
        let! sig := Signature (hd A_NULL l) in
        let! same := all_HasSignature (tail l) sig in
        if same then keep (SetElements sig l) else Ok (ER_BUS_BAD_VALUE, A_INVALID, va)
      else Ok (ER_BUS_BAD_VALUE, A_INVALID, va)
  | 97 | 118 | 40 | 123 | 104 (* a v ( { h *) =>
      let! l := arg_elements n elems in
      let! same := all_HasSignature l elemSig in
      if same then keep (SetElements elemSig l) else Ok (ER_BUS_BAD_VALUE, A_INVALID, va)
  | 36 (* $ *) =>
      if 0 <? n then
        match elems with
        | V_STRINGS l => let! l := prefix l n in keep (SetElements [115] (string_arg TY_STRING <$> l))
        | _ => Undef
        end
      else keep (SetElements [115] [])
  | (111 | 115) as c (* o s *) =>
      let t := if c =? 111 then TY_OBJECT_PATH else TY_STRING in
      if 0 <? n then
        match elems, va with
        | V_STRS l, _ =>
            let! l := prefix l n in
            let! es := text_args (fun len m => A_STRING t len (Some m)) l in keep (SetElements elemSig es)
        | V_NULL, V_STRINGS l :: va =>
            let! l := prefix l n in
            let! es := text_args (fun len m => A_STRING t len (Some m)) ((fun s => Some (text s)) <$> l) in
            let! (st, a) := SetElements elemSig es in Ok (st, a, va)
        | _, _ => Undef
        end
      else keep (SetElements elemSig [])
  | 103 (* g *) =>
      if 0 <? n then
        match elems with
        | V_STRS l =>
            let! l := prefix l n in
            let! es := text_args (fun len m => A_SIGNATURE (u8 len) (Some m)) l in keep (SetElements elemSig es)
        | _ => Undef
        end
      else keep (SetElements elemSig [])
  | 98 => keep (scalar_array A_BOOLEAN_ARRAY bools_of n elems)
  | 100 => keep (scalar_array (A_64_ARRAY TY_DOUBLE) words64_of n elems)
  | 105 => keep (scalar_array (A_32_ARRAY TY_INT32) words32_of n elems)
  | 110 => keep (scalar_array (A_16_ARRAY TY_INT16) words16_of n elems)
  | 113 => keep (scalar_array (A_16_ARRAY TY_UINT16) words16_of n elems)
  | 116 => keep (scalar_array (A_64_ARRAY TY_UINT64) words64_of n elems)
  | 117 => keep (scalar_array (A_32_ARRAY TY_UINT32) words32_of n elems)
  | 120 => keep (scalar_array (A_64_ARRAY TY_INT64) words64_of n elems)
  | 121 => keep (scalar_array A_BYTE_ARRAY bytes_of n elems)
  | _ => Ok (ER_BUS_BAD_SIGNATURE, A_INVALID, va)
  end.

Definition BuildArray (elemSig : list Z) (va : list Va) : res (QStatus * MsgArg * list Va) :=
  match va with
  | V_SIZE numElements :: elems :: va =>
      if negb (numElements =? 0) && is_NULL elems && negb (hd 0 elemSig =? 115) then Ok (ER_INVALID_ADDRESS, A_INVALID, va)
      else if ALLJOYN_MAX_ARRAY_LEN <? numElements then Ok (ER_BUS_BAD_VALUE, A_INVALID, va)
      else
        let! (status, a, va) := build_elements elemSig numElements elems va in
        Ok (status, if decide (status = ER_OK) then a else A_INVALID, va)
  | _ => Undef
  end.

(** * VBuildArgs *)

(** What a turn of the loop leaves: the argument, the rest of the signature, how much
    of it still belongs to this call, and the rest of the variable arguments. *)
Record turn := { t_arg : MsgArg; t_sig : list Z; t_sigLen : Z; t_va : list Va }.

(** [sigLen -= n] on a [size_t]. *)
Definition shorten (sigLen n : Z) : Z := (sigLen - n) mod 2 ^ 64.

Definition scalar_turn (mk : Z -> MsgArg) (w : Z) (sig : list Z) (sigLen : Z) (va : list Va) : res (QStatus * turn) :=
  match va with
  | V_INT v :: va => Ok (ER_OK, {| t_arg := mk (v mod 2 ^ w); t_sig := sig; t_sigLen := sigLen; t_va := va |})
  | _ => Undef
  end.

Definition long_turn (t : Ty64) (sig : list Z) (sigLen : Z) (va : list Va) : res (QStatus * turn) :=
  match t, va with
  | TY_DOUBLE, V_DOUBLE v :: va | TY_UINT64, V_LONG v :: va | TY_INT64, V_LONG v :: va =>
      Ok (ER_OK, {| t_arg := A_64 t v; t_sig := sig; t_sigLen := sigLen; t_va := va |})
  | _, _ => Undef
  end.

Section build.
(** The recursive call for the members of a struct and the halves of an entry. *)
Variable VBuildArgs : list Z -> Z -> Z -> list Va -> res (QStatus * list MsgArg * list Z * list Va).

Definition build_array (sig : list Z) (sigLen : Z) (va : list Va) : res (QStatus * turn) :=
  let invalid st := Ok (st, {| t_arg := A_INVALID; t_sig := sig; t_sigLen := sigLen; t_va := va |}) in
  let build rest :=
    let elemSigLen := zlen sig - zlen rest in
    let! (status, a, va) := BuildArray (take (Z.to_nat elemSigLen) sig) va in
    Ok (status, {| t_arg := a; t_sig := rest; t_sigLen := shorten sigLen elemSigLen; t_va := va |}) in
  match sig with
  | c :: rest =>
      if (c =? 42) || (c =? 36) then build rest
      else match ParseContainerSignature ALLJOYN_ARRAY sig with
           | Ok (_, rest) => build rest
           | Fail _ => invalid ER_BUS_NOT_A_COMPLETE_TYPE
           | Undef => Undef
           end
  | [] => match ParseContainerSignature ALLJOYN_ARRAY sig with Undef => Undef | _ => invalid ER_BUS_NOT_A_COMPLETE_TYPE end
  end.

Definition build_struct (sig : list Z) (sigLen : Z) (va : list Va) : res (QStatus * turn) :=
  match ParseContainerSignature ALLJOYN_STRUCT sig with
  | Ok (Some numMembers, rest) =>
      let memSigLen := zlen sig - zlen rest - 1 in
      let! (status, ms, _, va) := VBuildArgs sig memSigLen numMembers va in
      Ok (status, {| t_arg := A_STRUCT (ms ++ replicate (Z.to_nat numMembers - length ms) A_INVALID); t_sig := rest;
                     t_sigLen := shorten sigLen (memSigLen + 1); t_va := va |})
  | Ok (None, _) => Undef
  | Fail st => Ok (st, {| t_arg := A_INVALID; t_sig := sig; t_sigLen := sigLen; t_va := va |})
  | Undef => Undef
  end.

Definition build_dict (sig : list Z) (sigLen : Z) (va : list Va) : res (QStatus * turn) :=
  match ParseContainerSignature ALLJOYN_DICT_ENTRY sig with
  | Ok (_, rest) =>
      let memSigLen := zlen sig - zlen rest - 1 in
      let left st va := Ok (st, {| t_arg := A_INVALID; t_sig := rest; t_sigLen := sigLen; t_va := va |}) in
      let! (status, ks, memberSig, va) := VBuildArgs sig memSigLen 1 va in
      if decide (status = ER_OK) then
        let k := hd A_INVALID ks in
        if IsBasicType (typeId k) then
          let! (status, vs, _, va) := VBuildArgs memberSig memSigLen 1 va in
          if decide (status = ER_OK) then
            Ok (ER_OK, {| t_arg := A_DICT_ENTRY k (hd A_INVALID vs); t_sig := rest; t_sigLen := shorten sigLen (memSigLen + 1); t_va := va |})
          else left status va
        else left ER_BUS_BAD_SIGNATURE va
      else left status va
  | Fail st => Ok (st, {| t_arg := A_INVALID; t_sig := sig; t_sigLen := sigLen; t_va := va |})
  | Undef => Undef
  end.

(** A turn for the character [c]; [sig] is what follows it. *)
Definition build_turn (c : Z) (sig : list Z) (sigLen : Z) (va : list Va) : res (QStatus * turn) :=
  let done a va := Ok (ER_OK, {| t_arg := a; t_sig := sig; t_sigLen := sigLen; t_va := va |}) in
  let failed st va := Ok (st, {| t_arg := A_INVALID; t_sig := sig; t_sigLen := sigLen; t_va := va |}) in
  match c with
  | 42 (* * *) =>
      match va with
      | V_NULL :: _ => Fail ER_INVALID_ADDRESS
      | V_ARG (A_ARRAY (Some es) l) :: va => let! (st, a) := SetElements es l in if decide (st = ER_OK) then done a va else failed st va
      | V_ARG (A_ARRAY None l) :: va => Undef
      | V_ARG a :: va => done a va
      | _ => Undef
      end
  | 97 (* a *) => build_array sig sigLen va
  | 98 (* b *) => match va with V_INT v :: va => done (A_BOOLEAN (negb (v =? 0))) va | _ => Undef end
  | 100 (* d *) => long_turn TY_DOUBLE sig sigLen va
  | 101 (* e *) =>
      match va with
      | V_ARG k :: V_ARG v :: va => done (A_DICT_ENTRY k v) va
      | _ => Undef
      end
  | 103 (* g *) =>
      match va with
      | V_NULL :: va => done (A_SIGNATURE 0 (Some [0])) va
      | V_STR m :: va =>
          let! s := c_str m in
          let! ok := IsValidSignature (Some s) in
          if ok : bool then done (A_SIGNATURE (u8 (zlen s)) (Some m)) va else failed ER_BUS_BAD_SIGNATURE va
      | _ => Undef
      end
  | 104 (* h *) => match va with V_INT v :: va => done (A_HANDLE v) va | _ => Undef end
  | 105 (* i *) => scalar_turn (A_32 TY_INT32) 32 sig sigLen va
  | 110 (* n *) => scalar_turn (A_16 TY_INT16) 16 sig sigLen va
  | 111 (* o *) =>
      match va with
      | V_NULL :: va => failed ER_BUS_BAD_SIGNATURE va
      | V_STR m :: va =>
          let! s := c_str m in
          if IsLegalObjectPath (Some s) then done (A_STRING TY_OBJECT_PATH (zlen s) (Some m)) va else failed ER_BUS_BAD_SIGNATURE va
      | _ => Undef
      end
  | 113 (* q *) => scalar_turn (A_16 TY_UINT16) 16 sig sigLen va
  | 114 (* r *) =>
      match va with
      | V_INT n :: V_ARGS l :: va => let! ms := prefix l n in done (A_STRUCT ms) va
      | _ => Undef
      end
  | 115 (* s *) =>
      match va with
      | V_NULL :: va => done (A_STRING TY_STRING 0 None) va
      | V_STR m :: va => let! s := c_str m in done (A_STRING TY_STRING (zlen s) (Some m)) va
      | _ => Undef
      end
  | 116 (* t *) => long_turn TY_UINT64 sig sigLen va
  | 117 (* u *) => scalar_turn (A_32 TY_UINT32) 32 sig sigLen va
  | 118 (* v *) =>
      match va with
      | V_NULL :: va => done (A_VARIANT A_NULL) va
      | V_ARG a :: va => done (A_VARIANT a) va
      | _ => Undef
      end
  | 120 (* x *) => long_turn TY_INT64 sig sigLen va
  | 121 (* y *) => scalar_turn A_BYTE 8 sig sigLen va
  | 40 (* ( *) => build_struct sig sigLen va
  | 123 (* { *) => build_dict sig sigLen va
  | _ => done A_INVALID va
  end.
End build.

(** The loop. [room] is how many arguments still fit; every turn takes a character,
    and a call for members has a shorter signature, so the length of the signature is
    enough fuel. The terminator, which only a wrapped [sigLen] can reach, would be
    followed by reads behind the string. *)
Fixpoint build_loop (fuel : nat) (sig : list Z) (sigLen room : Z) (va : list Va) : res (QStatus * list MsgArg * list Z * list Va) :=
  if sigLen =? 0 then Ok (ER_OK, [], sig, va)
  else
    match fuel, sig with
    | S fuel, c :: sig =>
        let! (status, t) := build_turn (build_loop fuel) c sig (sigLen - 1) va in
        if decide (status = ER_OK) then
          if room =? 1 then Ok (ER_OK, [t_arg t], t_sig t, t_va t)
          else
            let! (status, l, sig, va) := build_loop fuel (t_sig t) (t_sigLen t) (room - 1) (t_va t) in
            Ok (status, t_arg t :: l, sig, va)
        else Ok (status, [A_INVALID], t_sig t, t_va t)
    | _, _ => Undef
    end.

Definition VBuildArgs (sig : list Z) (sigLen maxArgs : Z) (va : list Va) : res (QStatus * list MsgArg * list Z * list Va) :=
  build_loop (length sig) sig sigLen maxArgs va.

(** [MsgArg::Set]: the status and the argument. *)
Definition Set_ (signature : list Z) (va : list Va) : res (QStatus * MsgArg) :=
  let sigLen := zlen signature in
  if (sigLen <? 1) || (255 <? sigLen) then Ok (ER_BUS_BAD_SIGNATURE, A_INVALID)
  else
    match VBuildArgs signature sigLen 1 va with
    | Ok (status, l, rest, _) =>
        let a := hd A_INVALID l in
        Ok (if decide (status = ER_OK) then if decide (rest = []) then ER_OK else ER_BUS_NOT_A_COMPLETE_TYPE else status, a)
    | Fail st => Ok (st, A_INVALID)
    | Undef => Undef
    end.

(** [MsgArgUtils::SetV] on [numArgs] arguments: the status and those that were set. *)
Definition SetV (numArgs : Z) (signature : list Z) (va : list Va) : res (QStatus * list MsgArg) :=
  let sigLen := zlen signature in
  if (sigLen <? 1) || (255 <? sigLen) then Ok (ER_BUS_BAD_SIGNATURE, [])
  else
    match VBuildArgs signature sigLen numArgs va with
    | Ok (status, l, rest, _) => Ok (if decide (status = ER_OK) then if decide (rest = []) then ER_OK else ER_BUS_TRUNCATED else status, l)
    | Fail st => Ok (st, [])
    | Undef => Undef
    end.

(** The constructor with a format string: an argument that is invalid on failure. *)
Definition MsgArg_ (signature : list Z) (va : list Va) : res MsgArg :=
  let! (status, a) := Set_ signature va in Ok (if decide (status = ER_OK) then a else A_INVALID).

(** * ParseArray *)

(** The pointers a call passes for its results: NULL or not. Reading one behind the
    last is undefined. *)
Definition pointer (ptrs : list bool) : res (bool * list bool) :=
  match ptrs with p :: ptrs => Ok (p, ptrs) | [] => Undef end.

Definition scalars_out {A} (mk : list A -> Va) (s : scalars A) : list Va :=
  [V_SIZE (Z.of_nat (numElements s)); match s with S_NULL _ => V_NULL | S_PTR l => mk l end].

(** What is stored for an array when its elements have the type of the format. *)
Definition array_out (elemSig : list Z) (arry : MsgArg) : res (list Va) :=
  match typeId_of_char (hd 0 elemSig) with
  | ALLJOYN_BYTE => match arry with A_BYTE_ARRAY s => Ok (scalars_out V_BYTES s) | _ => Fail ER_BUS_SIGNATURE_MISMATCH end
  | ALLJOYN_INT16 | ALLJOYN_UINT16 => match arry with A_16_ARRAY _ s => Ok (scalars_out V_16S s) | _ => Fail ER_BUS_SIGNATURE_MISMATCH end
  | ALLJOYN_BOOLEAN => match arry with A_BOOLEAN_ARRAY s => Ok (scalars_out V_BOOLS s) | _ => Fail ER_BUS_SIGNATURE_MISMATCH end
  | ALLJOYN_INT32 | ALLJOYN_UINT32 => match arry with A_32_ARRAY _ s => Ok (scalars_out V_32S s) | _ => Fail ER_BUS_SIGNATURE_MISMATCH end
  | ALLJOYN_DOUBLE | ALLJOYN_INT64 | ALLJOYN_UINT64 => match arry with A_64_ARRAY _ s => Ok (scalars_out V_64S s) | _ => Fail ER_BUS_SIGNATURE_MISMATCH end
  | ALLJOYN_ARRAY | ALLJOYN_STRUCT_OPEN | ALLJOYN_DICT_ENTRY_OPEN | ALLJOYN_STRING | ALLJOYN_SIGNATURE
  | ALLJOYN_OBJECT_PATH | ALLJOYN_VARIANT | ALLJOYN_HANDLE =>
      match arry with
      | A_ARRAY (Some es) l =>
          if decide (take (length elemSig) es = elemSig) then Ok [V_SIZE (zlen l); V_ARGS l] else Fail ER_BUS_SIGNATURE_MISMATCH
      | _ => Undef
      end
  | _ => Fail ER_BUS_BAD_SIGNATURE
  end.

(** The status, what was stored, and the pointers that are left. *)
Definition ParseArray (arry : MsgArg) (elemSig : list Z) (ptrs : list bool) : res (QStatus * list Va * list bool) :=
  let! (l, ptrs) := pointer ptrs in
  if negb l then Ok (ER_INVALID_ADDRESS, [], ptrs)
  else
    let! (p, ptrs) := pointer ptrs in
    if negb p then Ok (ER_INVALID_ADDRESS, [], ptrs)
    else match array_out elemSig arry with
         | Ok out => Ok (ER_OK, out, ptrs)
         | Fail st => Ok (st, [], ptrs)
         | Undef => Undef
         end.

(** * VParseArgs *)

(** The loop that expands variants. *)
Fixpoint expand (a : MsgArg) : res MsgArg :=
  match a with
  | A_VARIANT v => expand v
  | A_NULL => Undef
  | a => Ok a
  end.

(** The member of the union that a format character reads when the argument has its
    type. *)
Definition scalar_out (a : MsgArg) : option Va :=
  match a with
  | A_BYTE v => Some (V_BYTE v)
  | A_16 _ v => Some (V_16 v)
  | A_BOOLEAN b => Some (V_BOOL b)
  | A_32 _ v | A_HANDLE v => Some (V_INT v)
  | A_64 TY_DOUBLE v => Some (V_DOUBLE v)
  | A_64 _ v => Some (V_LONG v)
  | A_STRING _ _ (Some s) | A_SIGNATURE _ (Some s) => Some (V_STR s)
  | A_STRING _ _ None | A_SIGNATURE _ None => Some V_NULL
  | _ => None
  end.

(** What a turn leaves: what was stored, the rest of the signature, how much of it
    still belongs to this call, and the pointers that are left. *)
Record get_turn := { g_out : list Va; g_sig : list Z; g_sigLen : Z; g_ptrs : list bool }.

Section parse.
Variable VParseArgs : list Z -> Z -> list MsgArg -> list bool -> res (QStatus * list Va * list Z * list bool).

Definition get_struct (ms : list MsgArg) (sig : list Z) (sigLen : Z) (ptrs : list bool) : res (QStatus * get_turn) :=
  match ParseCompleteType (40 :: sig) with
  | Ok rest =>
      let memSigLen := zlen sig - zlen rest - 1 in
      let! (status, out, _, ptrs) := VParseArgs sig memSigLen ms ptrs in
      Ok (status, {| g_out := out; g_sig := rest; g_sigLen := shorten sigLen (memSigLen + 1); g_ptrs := ptrs |})
  | Fail st => Ok (st, {| g_out := []; g_sig := sig; g_sigLen := sigLen; g_ptrs := ptrs |})
  | Undef => Undef
  end.

(** [keySig] is passed by reference: afterwards it points behind the key. *)
Definition get_dict (k v : MsgArg) (sig : list Z) (sigLen : Z) (ptrs : list bool) : res (QStatus * get_turn) :=
  match ParseCompleteType (123 :: sig) with
  | Ok rest =>
      match ParseCompleteType sig with
      | Ok valSig =>
          let! (status, out, keySig, ptrs) := VParseArgs sig (zlen sig - zlen valSig) [k] ptrs in
          if decide (status = ER_OK) then
            let! (status, out', _, ptrs) := VParseArgs valSig (zlen valSig - zlen rest - 1) [v] ptrs in
            Ok (status, {| g_out := out ++ out'; g_sig := rest; g_sigLen := shorten sigLen (zlen keySig - zlen rest + 1); g_ptrs := ptrs |})
          else Ok (status, {| g_out := out; g_sig := rest; g_sigLen := sigLen; g_ptrs := ptrs |})
      | _ => Undef
      end
  | Fail st => Ok (st, {| g_out := []; g_sig := sig; g_sigLen := sigLen; g_ptrs := ptrs |})
  | Undef => Undef
  end.

(** A turn for the argument [arg], which expands to [a], and the character [c]. *)
Definition parse_turn (c : Z) (sig : list Z) (sigLen : Z) (arg a : MsgArg) (ptrs : list bool) : res (QStatus * get_turn) :=
  let failed st := Ok (st, {| g_out := []; g_sig := sig; g_sigLen := sigLen; g_ptrs := ptrs |}) in
  let store v :=
    let! (p, ptrs) := pointer ptrs in
    Ok (if p then ER_OK else ER_INVALID_ADDRESS, {| g_out := if p : bool then [v] else []; g_sig := sig; g_sigLen := sigLen; g_ptrs := ptrs |}) in
  match typeId_of_char c with
  | ALLJOYN_VARIANT => if decide (typeId arg = ALLJOYN_VARIANT) then store (V_ARG a) else failed ER_BUS_SIGNATURE_MISMATCH
  | ALLJOYN_WILDCARD => store (V_ARG a)
  | ALLJOYN_ARRAY =>
      if Z.land (typeId_val (typeId a)) 255 =? 97 then
        match ParseCompleteType sig with
        | Ok rest =>
            let elemSigLen := zlen sig - zlen rest in
            let! (status, out, ptrs) := ParseArray a (take (Z.to_nat elemSigLen) sig) ptrs in
            Ok (status, {| g_out := out; g_sig := rest; g_sigLen := shorten sigLen elemSigLen; g_ptrs := ptrs |})
        | Fail st => failed st
        | Undef => Undef
        end
      else failed ER_BUS_SIGNATURE_MISMATCH
  | (ALLJOYN_BYTE | ALLJOYN_INT16 | ALLJOYN_UINT16 | ALLJOYN_BOOLEAN | ALLJOYN_INT32 | ALLJOYN_UINT32
  | ALLJOYN_DOUBLE | ALLJOYN_INT64 | ALLJOYN_UINT64 | ALLJOYN_STRING | ALLJOYN_SIGNATURE | ALLJOYN_OBJECT_PATH
  | ALLJOYN_HANDLE) as t =>
      if decide (typeId a = t) then match scalar_out a with Some v => store v | None => Undef end
      else failed ER_BUS_SIGNATURE_MISMATCH
  | ALLJOYN_STRUCT_OPEN => match a with A_STRUCT ms => get_struct ms sig sigLen ptrs | _ => failed ER_BUS_SIGNATURE_MISMATCH end
  | ALLJOYN_DICT_ENTRY_OPEN => match a with A_DICT_ENTRY k v => get_dict k v sig sigLen ptrs | _ => failed ER_BUS_SIGNATURE_MISMATCH end
  | _ => failed ER_BUS_BAD_SIGNATURE
  end.
End parse.

(** The loop. Every turn takes a character; the terminator, which only a wrapped
    [sigLen] can reach, is not a type. *)
Fixpoint parse_loop (fuel : nat) (sig : list Z) (sigLen : Z) (args : list MsgArg) (ptrs : list bool) : res (QStatus * list Va * list Z * list bool) :=
  if sigLen =? 0 then Ok (if decide (args = []) then ER_OK else ER_BUS_SIGNATURE_MISMATCH, [], sig, ptrs)
  else
    match args with
    | [] => Ok (ER_BUS_SIGNATURE_MISMATCH, [], sig, ptrs)
    | arg :: args =>
        let! a := expand arg in
        match fuel, sig with
        | _, [] => Ok (ER_BUS_BAD_SIGNATURE, [], sig, ptrs)
        | S fuel, c :: sig =>
            let! (status, t) := parse_turn (parse_loop fuel) c sig (sigLen - 1) arg a ptrs in
            if decide (status = ER_OK) then
              let! (status, out, sig, ptrs) := parse_loop fuel (g_sig t) (g_sigLen t) args (g_ptrs t) in
              Ok (status, g_out t ++ out, sig, ptrs)
            else Ok (status, g_out t, g_sig t, g_ptrs t)
        | O, _ :: _ => Undef
        end
    end.

Definition VParseArgs (sig : list Z) (sigLen : Z) (args : list MsgArg) (ptrs : list bool) : res (QStatus * list Va * list Z * list bool) :=
  parse_loop (length sig) sig sigLen args ptrs.

(** [MsgArg::Get] on one argument. *)
Definition Get (a : MsgArg) (signature : list Z) (ptrs : list bool) : res (QStatus * list Va) :=
  if zlen signature =? 0 then Ok (ER_BAD_ARG_1, [])
  else let! (status, out, _, _) := VParseArgs signature (zlen signature) [a] ptrs in Ok (status, out).

(** [MsgArg::Get] on several; [None] is a NULL pointer. *)
Definition GetArgs (args : option (list MsgArg)) (signature : list Z) (ptrs : list bool) : res (QStatus * list Va) :=
  match args with
  | None => Ok (ER_BAD_ARG_1, [])
  | Some [] => Ok (ER_BAD_ARG_2, [])
  | Some args =>
      if zlen signature =? 0 then Ok (ER_BAD_ARG_3, [])
      else let! (status, out, _, _) := VParseArgs signature (zlen signature) args ptrs in Ok (status, out)
  end.

(** * Comparison and GetElement *)

(** [strcmp] for equality. *)
Definition same_text (s t : option (list Z)) : res bool :=
  match s, t with
  | Some s, Some t => let! s := c_str s in let! t := c_str t in Ok (bool_decide (s = t))
  | _, _ => Undef
  end.

(** [memcmp] on two arrays of [numElements] each. *)
Definition same_scalars {A} `{EqDecision A} (s t : scalars A) : res bool :=
  if (numElements s =? numElements t)%nat then
    match s, t with
    | S_PTR l, S_PTR l' => Ok (bool_decide (l = l'))
    | _, _ => if (numElements s =? 0)%nat then Ok true else Undef
    end
  else Ok false.

#[export] Instance Ty16_eq_dec : EqDecision Ty16.
Proof. solve_decision. Defined.
#[export] Instance Ty32_eq_dec : EqDecision Ty32.
Proof. solve_decision. Defined.
#[export] Instance Ty64_eq_dec : EqDecision Ty64.
Proof. solve_decision. Defined.
#[export] Instance TyStr_eq_dec : EqDecision TyStr.
Proof. solve_decision. Defined.

(** [operator==]; the element signatures of arrays are not compared. *)
Fixpoint arg_eq (a b : MsgArg) : res bool :=
  let all := fix all (l l' : list MsgArg) : res bool :=
    match l, l' with
    | [], [] => Ok true
    | x :: l, y :: l' => let! e := arg_eq x y in if e : bool then all l l' else Ok false
    | _, _ => Ok false
    end in
  match a, b with
  | A_NULL, _ | _, A_NULL => Undef
  | A_DICT_ENTRY k v, A_DICT_ENTRY k' v' =>
      let! keysAreEqual := arg_eq k k' in let! valuesAreEqual := arg_eq v v' in Ok (keysAreEqual && valuesAreEqual)
  | A_STRUCT l, A_STRUCT l' | A_ARRAY _ l, A_ARRAY _ l' => if (length l =? length l')%nat then all l l' else Ok false
  | A_VARIANT v, A_VARIANT v' => arg_eq v v'
  | A_STRING t n s, A_STRING t' n' s' => if decide (t = t') then if n =? n' then same_text s s' else Ok false else Ok false
  | A_SIGNATURE n s, A_SIGNATURE n' s' => if n =? n' then same_text s s' else Ok false
  | A_BOOLEAN_ARRAY s, A_BOOLEAN_ARRAY s' => same_scalars s s'
  | A_BYTE_ARRAY s, A_BYTE_ARRAY s' => same_scalars s s'
  | A_16_ARRAY t s, A_16_ARRAY t' s' => if decide (t = t') then same_scalars s s' else Ok false
  | A_32_ARRAY t s, A_32_ARRAY t' s' => if decide (t = t') then same_scalars s s' else Ok false
  | A_64_ARRAY t s, A_64_ARRAY t' s' => if decide (t = t') then same_scalars s s' else Ok false
  | A_BYTE v, A_BYTE v' | A_HANDLE v, A_HANDLE v' => Ok (v =? v')
  | A_BOOLEAN v, A_BOOLEAN v' => Ok (eqb v v')
  | A_16 t v, A_16 t' v' => Ok (bool_decide (t = t') && (v =? v'))
  | A_32 t v, A_32 t' v' => Ok (bool_decide (t = t') && (v =? v'))
  | A_64 t v, A_64 t' v' => Ok (bool_decide (t = t') && (v =? v'))
  | _, _ => Ok false
  end.

(** * Copies *)

Definition clone_scalars {A} (s : scalars A) : res (scalars A) :=
  match s with S_PTR l => Ok (S_PTR l) | S_NULL O => Ok (S_PTR []) | S_NULL _ => Undef end.

Definition clone_text (len : Z) (m : option (list Z)) : res (option (list Z)) :=
  match m with Some m => let! m := prefix m (len + 1) in Ok (Some m) | None => Ok None end.

(** [MsgArg::Clone]: the value of the copy, which owns everything it refers to. *)
Fixpoint Clone (src : MsgArg) : res MsgArg :=
  let all := fix all (l : list MsgArg) : res (list MsgArg) :=
    match l with
    | [] => Ok []
    | a :: l => let! a := Clone a in let! l := all l in Ok (a :: l)
    end in
  match src with
  | A_NULL => Undef
  | A_DICT_ENTRY k v => let! k := Clone k in let! v := Clone v in Ok (A_DICT_ENTRY k v)
  | A_STRUCT l => let! l := all l in Ok (A_STRUCT l)
  | A_ARRAY (Some es) l => let! l := all l in let! (_, a) := SetElements es l in Ok a
  | A_ARRAY None l => let! l := all l in Ok (A_ARRAY None [])
  | A_VARIANT v => let! v := Clone v in Ok (A_VARIANT v)
  | A_STRING t len m => let! m := clone_text len m in Ok (A_STRING t len m)
  | A_SIGNATURE len m => let! m := clone_text len m in Ok (A_SIGNATURE len m)
  | A_BOOLEAN_ARRAY s => let! s := clone_scalars s in Ok (A_BOOLEAN_ARRAY s)
  | A_BYTE_ARRAY s => let! s := clone_scalars s in Ok (A_BYTE_ARRAY s)
  | A_16_ARRAY t s => let! s := clone_scalars s in Ok (A_16_ARRAY t s)
  | A_32_ARRAY t s => let! s := clone_scalars s in Ok (A_32_ARRAY t s)
  | A_64_ARRAY t s => let! s := clone_scalars s in Ok (A_64_ARRAY t s)
  | a => Ok a
  end.

(** [MsgArg::Stabilize] of an argument as Set leaves it: a struct and an entry own
    their members, which are made stable themselves; the elements of an array and the
    value of a variant belong to the caller and are cloned. An array of booleans is
    copied as if its elements had four bytes. *)
Definition stable_bools (s : scalars bool) : res (scalars bool) :=
  match s with S_PTR [] | S_NULL O => Ok (S_PTR []) | _ => Undef end.

Fixpoint Stabilize (a : MsgArg) : res MsgArg :=
  let each (f : MsgArg -> res MsgArg) := fix each (l : list MsgArg) : res (list MsgArg) :=
    match l with
    | [] => Ok []
    | a :: l => let! a := f a in let! l := each l in Ok (a :: l)
    end in
  match a with
  | A_NULL => Undef
  | A_STRUCT l => let! l := each Stabilize l in Ok (A_STRUCT l)
  | A_DICT_ENTRY k v => let! k := Stabilize k in let! v := Stabilize v in Ok (A_DICT_ENTRY k v)
  | A_ARRAY es l => let! l := each Clone l in Ok (A_ARRAY es l)
  | A_VARIANT v => let! v := Clone v in Ok (A_VARIANT v)
  | A_STRING t len m => let! m := clone_text len m in Ok (A_STRING t len m)
  | A_SIGNATURE len m => let! m := clone_text len m in Ok (A_SIGNATURE len m)
  | A_BOOLEAN_ARRAY s => let! s := stable_bools s in Ok (A_BOOLEAN_ARRAY s)
  | A_BYTE_ARRAY s => let! s := clone_scalars s in Ok (A_BYTE_ARRAY s)
  | A_16_ARRAY t s => let! s := clone_scalars s in Ok (A_16_ARRAY t s)
  | A_32_ARRAY t s => let! s := clone_scalars s in Ok (A_32_ARRAY t s)
  | A_64_ARRAY t s => let! s := clone_scalars s in Ok (A_64_ARRAY t s)
  | a => Ok a
  end.

(** The linear search for a key. *)
Fixpoint find_entry (key : MsgArg) (l : list MsgArg) : res (option MsgArg) :=
  match l with
  | [] => Ok None
  | A_DICT_ENTRY k v :: l => let! e := arg_eq k key in if e : bool then Ok (Some v) else find_entry key l
  | _ :: _ => Undef
  end.

(** [MsgArg::GetElement]: the key is among the variable arguments, the pointers for
    the value follow it. *)
Definition GetElement (a : MsgArg) (elemSig : list Z) (va : list Va) (ptrs : list bool) : res (QStatus * list Va) :=
  let sigLen := zlen elemSig in
  if sigLen <? 4 then Ok (ER_BAD_ARG_1, [])
  else match a with
       | A_ARRAY None _ => Undef
       | A_ARRAY (Some es) l =>
           if negb (hd 0 es =? 123) then Ok (ER_BUS_NOT_A_DICTIONARY, [])
           else if negb (hd 0 (tail es) =? hd 0 (tail elemSig)) then Ok (ER_BUS_SIGNATURE_MISMATCH, [])
           else
             match VBuildArgs (tail elemSig) 1 1 va with
             | Ok (ER_OK, ks, valSig, _) =>
                 let! found := find_entry (hd A_INVALID ks) l in
                 match found with
                 | Some v => let! (status, out, _, _) := VParseArgs valSig (sigLen - 3) [v] ptrs in Ok (status, out)
                 | None => Ok (ER_BUS_ELEMENT_NOT_FOUND, [])
                 end
             | Ok (status, _, _, _) => Ok (status, [])
             | Fail st => Ok (st, [])
             | Undef => Undef
             end
       | _ => Ok (ER_BUS_NOT_A_DICTIONARY, [])
       end.

End MsgArgFormat.
