(* ===== verification/MsgArgFormatProofs.v ===== *)
(** What Set builds from a format string and variable arguments, Get gives back.

    [fmt t ins outs a] relates a format (a type of the signature grammar), the
    variable arguments a caller passes to Set, what Get stores for the same format,
    and the argument between them. *)
From S2P Require Import Prelude Types SignatureUtils SigMachine SigGrammar SigBuild Typed Marshal Unmarshal Roundtrip BusUtil MsgArgFormat.
Import MsgArgFormat.

Definition no_nul (s : list Z) : Prop := Forall (fun c => c <> 0) s.

(** Element types whose arrays are given as [MsgArg*]. *)
Definition given_as_args (t : sigty) : Prop :=
  match t with SLeaf c => c = 118 | _ => True end.

Definition V_64 (ty : Ty64) (v : Z) : Va := match ty with TY_DOUBLE => V_DOUBLE v | _ => V_LONG v end.

Inductive fmt : sigty -> list Va -> list Va -> MsgArg -> Prop :=
| fmt_byte v : 0 <= v < 256 -> fmt (SLeaf 121) [V_INT v] [V_BYTE v] (A_BYTE v)
| fmt_bool v : fmt (SLeaf 98) [V_INT v] [V_BOOL (negb (v =? 0))] (A_BOOLEAN (negb (v =? 0)))
| fmt_16 ty v : 0 <= v < 2 ^ 16 -> fmt (SLeaf (typeId_val (ty16 ty))) [V_INT v] [V_16 v] (A_16 ty v)
| fmt_32 ty v : 0 <= v < 2 ^ 32 -> fmt (SLeaf (typeId_val (ty32 ty))) [V_INT v] [V_INT v] (A_32 ty v)
| fmt_64 ty v : fmt (SLeaf (typeId_val (ty64 ty))) [V_64 ty v] [V_64 ty v] (A_64 ty v)
| fmt_handle fd : fmt (SLeaf 104) [V_INT fd] [V_INT fd] (A_HANDLE fd)
| fmt_string s : no_nul s ->
    fmt (SLeaf 115) [V_STR (text s)] [V_STR (text s)] (A_STRING TY_STRING (zlen s) (Some (text s)))
| fmt_path s : no_nul s -> IsLegalObjectPath (Some s) = true ->
    fmt (SLeaf 111) [V_STR (text s)] [V_STR (text s)] (A_STRING TY_OBJECT_PATH (zlen s) (Some (text s)))
| fmt_signature s : no_nul s -> IsValidSignature (Some s) = Ok true ->
    fmt (SLeaf 103) [V_STR (text s)] [V_STR (text s)] (A_SIGNATURE (u8 (zlen s)) (Some (text s)))
| fmt_variant a a' : expand a = Ok a' -> fmt (SLeaf 118) [V_ARG a] [V_ARG a'] (A_VARIANT a)
| fmt_bytes l : zlen l <= ALLJOYN_MAX_ARRAY_LEN ->
    fmt (SArray (SLeaf 121)) [V_SIZE (zlen l); V_BYTES l] [V_SIZE (zlen l); V_BYTES l] (A_BYTE_ARRAY (S_PTR l))
| fmt_bools l : zlen l <= ALLJOYN_MAX_ARRAY_LEN ->
    fmt (SArray (SLeaf 98)) [V_SIZE (zlen l); V_BOOLS l] [V_SIZE (zlen l); V_BOOLS l] (A_BOOLEAN_ARRAY (S_PTR l))
| fmt_16s ty l : zlen l <= ALLJOYN_MAX_ARRAY_LEN ->
    fmt (SArray (SLeaf (typeId_val (ty16 ty)))) [V_SIZE (zlen l); V_16S l] [V_SIZE (zlen l); V_16S l] (A_16_ARRAY ty (S_PTR l))
| fmt_32s ty l : zlen l <= ALLJOYN_MAX_ARRAY_LEN ->
    fmt (SArray (SLeaf (typeId_val (ty32 ty)))) [V_SIZE (zlen l); V_32S l] [V_SIZE (zlen l); V_32S l] (A_32_ARRAY ty (S_PTR l))
| fmt_64s ty l : zlen l <= ALLJOYN_MAX_ARRAY_LEN ->
    fmt (SArray (SLeaf (typeId_val (ty64 ty)))) [V_SIZE (zlen l); V_64S l] [V_SIZE (zlen l); V_64S l] (A_64_ARRAY ty (S_PTR l))
| fmt_strings l : Forall no_nul l -> zlen l <= ALLJOYN_MAX_ARRAY_LEN ->
    fmt (SArray (SLeaf 115)) [V_SIZE (zlen l); V_STRS (Some ∘ text <$> l)]
      [V_SIZE (zlen l); V_ARGS (string_arg TY_STRING <$> l)] (A_ARRAY (Some [115]) (string_arg TY_STRING <$> l))
| fmt_no_bytes : fmt (SArray (SLeaf 121)) [V_SIZE 0; V_NULL] [V_SIZE 0; V_NULL] (A_BYTE_ARRAY (S_NULL 0))
| fmt_no_args t : given_as_args t -> typed false (A_ARRAY (Some (print t)) []) (SArray t) ->
    fmt (SArray t) [V_SIZE 0; V_NULL] [V_SIZE 0; V_ARGS []] (A_ARRAY (Some (print t)) [])
| fmt_args t l : given_as_args t -> typed false (A_ARRAY (Some (print t)) l) (SArray t) -> zlen l <= ALLJOYN_MAX_ARRAY_LEN ->
    fmt (SArray t) [V_SIZE (zlen l); V_ARGS l] [V_SIZE (zlen l); V_ARGS l] (A_ARRAY (Some (print t)) l)
| fmt_struct ts ins outs ms : wf_top (SStruct ts) = true -> fmts ts ins outs ms -> fmt (SStruct ts) ins outs (A_STRUCT ms)
| fmt_dict kt vt ins ins' outs outs' k v : basic_key kt = true -> wf_ty 1 0 false vt = true ->
    fmt kt ins outs k -> fmt vt ins' outs' v -> fmt (SDict kt vt) (ins ++ ins') (outs ++ outs') (A_DICT_ENTRY k v)
with fmts : list sigty -> list Va -> list Va -> list MsgArg -> Prop :=
| fmts_nil : fmts [] [] [] []
| fmts_cons t ts ins ins' outs outs' a l : fmt t ins outs a -> fmts ts ins' outs' l ->
    fmts (t :: ts) (ins ++ ins') (outs ++ outs') (a :: l).

Scheme fmt_mut := Induction for fmt Sort Prop
  with fmts_mut := Induction for fmts Sort Prop.
Combined Scheme fmt_fmts_ind from fmt_mut, fmts_mut.

(** * Set *)

(** A turn of the loop of VBuildArgs on the text of the type. *)
Definition builds (t : sigty) (ins : list Va) (a : MsgArg) : Prop :=
  forall fuel rest va L, (length (tail (print t) ++ rest) <= fuel)%nat ->
  zlen (print t) <= L < 2 ^ 64 ->
  build_turn (build_loop fuel) (hd 0 (print t)) (tail (print t) ++ rest) (L - 1) (ins ++ va)
  = Ok (ER_OK, {| t_arg := a; t_sig := rest; t_sigLen := L - zlen (print t); t_va := va |}).

Definition builds_all (ts : list sigty) (ins : list Va) (l : list MsgArg) : Prop :=
  length l = length ts /\ (ts = [] -> ins = []) /\
  forall fuel rest va L room, (length (prints ts ++ rest) <= fuel)%nat ->
  zlen (prints ts) <= L < 2 ^ 64 -> ts <> [] -> room = zlen ts ->
  build_loop fuel (prints ts ++ rest) L room (ins ++ va) = Ok (ER_OK, l, rest, va).

Lemma print_hd_tail t : print t = hd 0 (print t) :: tail (print t).
Proof. by destruct t. Qed.

Lemma shorten_small L n : 0 <= n <= L -> L < 2 ^ 64 -> shorten L n = L - n.
Proof. intros. unfold shorten. rewrite Z.mod_small; lia. Qed.

Lemma c_str_of_text s : no_nul s -> c_str (text s) = Ok s.
Proof. apply c_str_text. Qed.

Lemma prefix_all {A} (l : list A) : prefix l (zlen l) = Ok l.
Proof. unfold prefix. rewrite Z.leb_refl, Nat2Z.id. by rewrite take_ge. Qed.

(** ** Arrays *)

Lemma BuildArray_enter es n e va : is_NULL e = false \/ n = 0 -> 0 <= n <= ALLJOYN_MAX_ARRAY_LEN ->
  BuildArray es (V_SIZE n :: e :: va) =
  let! (status, a, va) := build_elements es n e va in Ok (status, if decide (status = ER_OK) then a else A_INVALID, va).
Proof.
  intros He Hn. unfold BuildArray. assert (negb (n =? 0) && is_NULL e = false) as ->
    by (destruct He as [-> | ->]; [apply andb_false_r|done]).
  cbn [andb]. by rewrite (proj2 (Z.ltb_ge _ _)) by lia.
Qed.

(** The branch of VBuildArgs for arrays, when BuildArray succeeds. *)
Lemma build_array_Ok t ins a :
  wf_ty 0 1 true t = true -> hd 0 (print t) <> 42 ->
  (forall va, BuildArray (print t) (ins ++ va) = Ok (ER_OK, a, va)) -> builds (SArray t) ins a.
Proof.
  intros Hwf Hc Hb fuel rest va L Hf HL. cbn [print hd tail build_turn] in *.
  assert (hd 0 (print t) <> 36) as Hd.
  { destruct t as [c| | |]; try done. cbn in *. by intros ->. }
  pose proof (ParseContainerSignature_array t rest Hwf) as Hp. revert Hp.
  unfold build_array. rewrite (print_hd_tail t) at 1 2 3. intros Hp. cbn [app].
  rewrite (proj2 (Z.eqb_neq _ _) Hc), (proj2 (Z.eqb_neq _ _) Hd). cbn [orb].
  change (hd 0 (print t) :: tail (print t) ++ rest) with ((hd 0 (print t) :: tail (print t)) ++ rest).
  rewrite <- print_hd_tail in *. rewrite Hp.
  rewrite length_app. replace (Z.to_nat (Z.of_nat (length (print t) + length rest) - zlen rest)) with (length (print t)) by lia.
  rewrite take_app_length, Hb. cbn [rbind length] in *. rewrite shorten_small by lia.
  do 3 f_equal. lia.
Qed.

Lemma text_args_strings t l : Forall no_nul l ->
  text_args (fun len m => A_STRING t len (Some m)) (Some ∘ text <$> l) = Ok (string_arg t <$> l).
Proof.
  induction 1 as [|s l Hs _ IH]; [done|]. cbn [fmap list_fmap text_args compose].
  rewrite c_str_of_text by done. cbn [rbind]. by rewrite IH.
Qed.

Lemma SetElements_strings l :
  SetElements [115] (string_arg TY_STRING <$> l) = Ok (ER_OK, A_ARRAY (Some [115]) (string_arg TY_STRING <$> l)).
Proof.
  unfold SetElements. assert (nulls (string_arg TY_STRING <$> l) = false) as -> by (by destruct l).
  cbn [CountCompleteTypes count_loop]. cbn. destruct l as [|s l]; [done|]. cbn [fmap list_fmap].
  assert (forallb (fun e' => bool_decide (typeId e' = typeId (string_arg TY_STRING s))) (string_arg TY_STRING <$> l) = true) as ->; [|done].
  apply forallb_Forall, Forall_fmap, Forall_true. done.
Qed.

Lemma builds_strings l : Forall no_nul l -> zlen l <= ALLJOYN_MAX_ARRAY_LEN ->
  builds (SArray (SLeaf 115)) [V_SIZE (zlen l); V_STRS (Some ∘ text <$> l)] (A_ARRAY (Some [115]) (string_arg TY_STRING <$> l)).
Proof.
  intros Hl Hn. apply build_array_Ok; [done..|]. intros va. cbn [app].
  rewrite BuildArray_enter by (auto || lia). unfold build_elements. cbn [hd print].
  destruct (Z.ltb_spec 0 (zlen l)).
  - rewrite <- (length_fmap (Some ∘ text) l) at 1. rewrite prefix_all. cbn [rbind Z.eqb].
    rewrite text_args_strings by done. cbn [rbind]. by rewrite SetElements_strings.
  - destruct l; [|simpl in *; lia]. done.
Qed.

Lemma all_HasSignature_typed t l : wf_ty 0 1 true t = true -> zlen (print t) <= 252 -> Forall (fun a => typed true a t) l ->
  all_HasSignature l (print t) = Ok true.
Proof.
  intros Hwf Hn. induction 1 as [|a l Ha _ IH]; [done|]. cbn [all_HasSignature].
  destruct (typed_sig _ _ _ Ha) as [Hs Hok].
  rewrite HasSignature_sig_of; [|done|rewrite Hs; lia|].
  - rewrite Hs, bool_decide_true by done. done.
  - rewrite Hs. by eapply sigchars_nonzero, print_sigchars.
Qed.

Lemma builds_args t l v : given_as_args t -> typed false (A_ARRAY (Some (print t)) l) (SArray t) -> zlen l <= ALLJOYN_MAX_ARRAY_LEN ->
  v = V_ARGS l \/ v = V_NULL /\ l = [] -> builds (SArray t) [V_SIZE (zlen l); v] (A_ARRAY (Some (print t)) l).
Proof.
  intros Hg (t' & [= <-] & _ & Hwf & _ & Hn & [Hc _] & Hl)%typed_array Hm Hv.
  apply build_array_Ok; [done|by destruct t; [intros [= ->]|..]|]. intros va. cbn [app].
  rewrite BuildArray_enter by (destruct Hv as [->|[-> ->]]; auto || lia).
  assert (arg_elements (zlen l) v = Ok l) as He.
  { unfold arg_elements. destruct Hv as [->|[-> ->]]; [|done].
    destruct (Z.eqb_spec (zlen l) 0); [by destruct l|]. by rewrite prefix_all. }
  enough (build_elements (print t) (zlen l) v va = Ok (ER_OK, A_ARRAY (Some (print t)) l, va)) as -> by done.
  unfold build_elements. destruct t as [c|t|ts|k u]; cbn [given_as_args] in Hg; subst; cbn [print hd] in *;
    rewrite He; cbn [rbind]; change [118] with (print (SLeaf 118)) in *;
    rewrite ?(all_HasSignature_typed (SLeaf 118)), ?(all_HasSignature_typed (SArray t)), ?(all_HasSignature_typed (SStruct ts)), ?(all_HasSignature_typed (SDict k u)) by done;
    cbn [rbind];
    rewrite ?(SetElements_typed (SLeaf 118)), ?(SetElements_typed (SArray t)), ?(SetElements_typed (SStruct ts)), ?(SetElements_typed (SDict k u)) by done; done.
Qed.

Lemma builds_scalars {A} t v (l : list A) a :
  wf_ty 0 1 true t = true -> hd 0 (print t) <> 42 -> zlen l <= ALLJOYN_MAX_ARRAY_LEN -> is_NULL v = false \/ zlen l = 0 ->
  (forall va, build_elements (print t) (zlen l) v va = Ok (ER_OK, a, va)) ->
  builds (SArray t) [V_SIZE (zlen l); v] a.
Proof.
  intros Hwf Hc Hn Hv Hb. apply build_array_Ok; [done..|]. intros va. cbn [app].
  rewrite BuildArray_enter by (auto || lia). by rewrite Hb.
Qed.

(** ** Leaves *)

Lemma builds_leaf c ins a :
  (forall bl sig L va, build_turn bl c sig L (ins ++ va) = Ok (ER_OK, {| t_arg := a; t_sig := sig; t_sigLen := L; t_va := va |})) ->
  builds (SLeaf c) ins a.
Proof. intros H fuel rest va L Hf HL. apply H. Qed.

(** ** Containers *)

Lemma builds_cons t ts ins ins' a l : builds t ins a -> builds_all ts ins' l ->
  builds_all (t :: ts) (ins ++ ins') (a :: l).
Proof.
  intros Ht (Hlen & Hnil & Hts). split_and!; [simpl; congruence|done|].
  intros fuel rest va L room Hf HL _ ->. cbn [map concat] in *. rewrite <- !app_assoc in *.
  assert (zlen (print t) = 1 + zlen (tail (print t))) as Hpt by (rewrite (print_hd_tail t) at 1; cbn [length]; lia).
  rewrite (print_hd_tail t) in Hf |- *. rewrite length_app in HL. cbn [app length] in *.
  destruct fuel as [|fuel]; [lia|]. cbn [build_loop].
  rewrite (proj2 (Z.eqb_neq _ _)) by lia.
  rewrite Ht by lia. cbn [rbind t_arg t_sig t_sigLen t_va].
  rewrite decide_True by done. destruct ts as [|t' ts].
  - rewrite Z.eqb_refl, Hnil by done. by destruct l.
  - rewrite (proj2 (Z.eqb_neq _ _)) by (cbn [length]; lia).
    rewrite Hts; [done|rewrite !length_app in *; lia|lia|done|cbn [length]; lia].
Qed.

Lemma builds_struct ts ins ms : wf_top (SStruct ts) = true -> builds_all ts ins ms -> builds (SStruct ts) ins (A_STRUCT ms).
Proof.
  cbn [wf_top]. intros Hwf (Hlen & _ & Hts). split_andb Hwf. intros fuel rest va L Hf HL. cbn [print hd tail] in *.
  rewrite <- app_assoc in *. cbn [app build_turn length] in *. unfold build_struct.
  rewrite ParseContainerSignature_struct by (done || lia).
  rewrite !length_app in *. cbn [length] in *.
  replace (Z.of_nat (length (prints ts) + S (length rest)) - zlen rest - 1) with (zlen (prints ts)) by lia.
  rewrite Hts; [|rewrite length_app; cbn [length]; lia|lia|by destruct ts|done].
  cbn [rbind]. rewrite shorten_small by lia.
  rewrite Hlen, Nat2Z.id, Nat.sub_diag, app_nil_r. do 3 f_equal. lia.
Qed.

Lemma builds_one t ins a fuel rest va L : builds t ins a -> (length (print t ++ rest) <= fuel)%nat -> zlen (print t) <= L < 2 ^ 64 ->
  build_loop fuel (print t ++ rest) L 1 (ins ++ va) = Ok (ER_OK, [a], rest, va).
Proof.
  intros Ht Hf HL. destruct (builds_cons t [] ins [] a [] Ht) as (_ & _ & H).
  { split_and!; [done..|]. intros. done. }
  rewrite app_nil_r in H. specialize (H fuel rest va L 1). cbn [map concat] in H. rewrite app_nil_r in H. by apply H.
Qed.

Lemma builds_dict kt vt ins ins' k v : basic_key kt = true -> wf_ty 1 0 false vt = true -> IsBasicType (typeId k) = true ->
  builds kt ins k -> builds vt ins' v -> builds (SDict kt vt) (ins ++ ins') (A_DICT_ENTRY k v).
Proof.
  intros Hkt Hvt Hk Hbk Hbv fuel rest va L Hf HL. cbn [print hd tail] in *.
  rewrite <- !app_assoc in *. cbn [app build_turn length] in *. unfold build_dict.
  rewrite ParseContainerSignature_dict by (done || by apply basic_key_wf).
  rewrite !length_app in *. cbn [length] in *.
  replace (Z.of_nat (length (print kt) + (length (print vt) + S (length rest))) - zlen rest - 1) with (zlen (print kt) + zlen (print vt)) by lia.
  rewrite builds_one with (a := k); [|done|rewrite !length_app; cbn [length]; lia|lia]. cbn [rbind hd].
  rewrite decide_True, Hk by done.
  rewrite builds_one with (a := v); [|done|rewrite !length_app; cbn [length]; lia|lia]. cbn [rbind hd].
  rewrite decide_True, shorten_small by (done || lia). do 3 f_equal. lia.
Qed.

Lemma fmt_basic t ins outs a : fmt t ins outs a -> basic_key t = true -> IsBasicType (typeId a) = true.
Proof. by destruct 1 as [| |[]|[]|[]| | | | | | | | | | | | | | | |]. Qed.

Lemma fmt_builds : (forall t ins outs a, fmt t ins outs a -> builds t ins a) /\
  (forall ts ins outs l, fmts ts ins outs l -> builds_all ts ins l).
Proof.
  apply fmt_fmts_ind; intros.
  all: try (apply builds_leaf; intros; cbn [app build_turn scalar_turn];
    rewrite ?Z.mod_small by lia; done).
  all: try (destruct ty; apply builds_leaf; intros; cbn; rewrite ?Z.mod_small by lia; done).
  all: try (apply builds_leaf; intros; cbn [app build_turn]; rewrite c_str_of_text by done; cbn [rbind];
    repeat match goal with H : _ = _ |- _ => rewrite H end; done).
  all: try (apply (builds_scalars (SLeaf 121) V_NULL (@nil Z)); auto; done).
  all: try (try destruct ty; apply (builds_scalars _ _ l); auto; intros; cbn; rewrite prefix_all; done).
  - by apply builds_strings.
  - apply (builds_args t []); [done|done|by vm_compute|auto].
  - apply builds_args; auto.
  - by apply builds_struct.
  - apply builds_dict; try done. by eapply fmt_basic.
  - split_and!; [done..|]. intros. done.
  - by apply builds_cons.
Qed.

(** * Get *)

Definition room_for (outs : list Va) (ptrs : list bool) : list bool := replicate (length outs) true ++ ptrs.

Definition gets (t : sigty) (outs : list Va) (a : MsgArg) : Prop :=
  exists a', expand a = Ok a' /\
  forall fuel rest ptrs L, (length (tail (print t) ++ rest) <= fuel)%nat -> zlen (print t) <= L < 2 ^ 64 ->
  parse_turn (parse_loop fuel) (hd 0 (print t)) (tail (print t) ++ rest) (L - 1) a a' (room_for outs ptrs)
  = Ok (ER_OK, {| g_out := outs; g_sig := rest; g_sigLen := L - zlen (print t); g_ptrs := ptrs |}).

Definition gets_all (ts : list sigty) (outs : list Va) (l : list MsgArg) : Prop :=
  forall fuel rest ptrs, (length (prints ts ++ rest) <= fuel)%nat -> zlen (prints ts) < 2 ^ 64 ->
  parse_loop fuel (prints ts ++ rest) (zlen (prints ts)) l (room_for outs ptrs) = Ok (ER_OK, outs, rest, ptrs).

Lemma room_for_app outs outs' ptrs : room_for (outs ++ outs') ptrs = room_for outs (room_for outs' ptrs).
Proof. unfold room_for. by rewrite length_app, replicate_add, app_assoc. Qed.

Lemma gets_nil : gets_all [] [] [].
Proof. intros fuel rest ptrs _ _. by destruct fuel. Qed.

Lemma gets_cons t ts outs outs' a l : gets t outs a -> gets_all ts outs' l -> gets_all (t :: ts) (outs ++ outs') (a :: l).
Proof.
  intros (a' & He & Ht) Hts fuel rest ptrs Hf HL. cbn [map concat] in *. rewrite <- !app_assoc in *.
  assert (zlen (print t) = 1 + zlen (tail (print t))) as Hpt by (rewrite (print_hd_tail t) at 1; cbn [length]; lia).
  rewrite length_app in HL |- *. rewrite (print_hd_tail t) in Hf. rewrite (print_hd_tail t) at 1. cbn [app length] in *.
  destruct fuel as [|fuel]; [lia|]. cbn [parse_loop].
  rewrite (proj2 (Z.eqb_neq _ _)) by lia. rewrite He. cbn [rbind]. rewrite room_for_app, Ht by lia.
  cbn [rbind g_out g_sig g_sigLen g_ptrs]. rewrite decide_True by done.
  replace (Z.of_nat (length (print t) + length (prints ts)) - zlen (print t)) with (zlen (prints ts)) by lia.
  rewrite Hts; [done|rewrite !length_app in *; lia|lia].
Qed.

Lemma gets_one t outs a fuel rest ptrs : gets t outs a -> (length (print t ++ rest) <= fuel)%nat -> zlen (print t) < 2 ^ 64 ->
  parse_loop fuel (print t ++ rest) (zlen (print t)) [a] (room_for outs ptrs) = Ok (ER_OK, outs, rest, ptrs).
Proof.
  intros Ht Hf HL. pose proof (gets_cons t [] outs [] a [] Ht gets_nil fuel rest ptrs) as H.
  cbn [map concat] in H. rewrite !app_nil_r in H. by apply H.
Qed.

Lemma gets_leaf c v a a' : expand a = Ok a' ->
  (forall bl sig L ptrs, parse_turn bl c sig L a a' (true :: ptrs) = Ok (ER_OK, {| g_out := [v]; g_sig := sig; g_sigLen := L; g_ptrs := ptrs |})) ->
  gets (SLeaf c) [v] a.
Proof. intros He H. exists a'. split; [done|]. intros fuel rest ptrs L Hf HL. apply H. Qed.

Lemma gets_array t n v a : wf_ty 0 1 true t = true -> expand a = Ok a -> Z.land (typeId_val (typeId a)) 255 = 97 ->
  array_out (print t) a = Ok [n; v] -> gets (SArray t) [n; v] a.
Proof.
  intros Hwf He Ha Ho. exists a. split; [done|]. intros fuel rest ptrs L Hf HL. cbn [print hd tail] in *.
  unfold parse_turn. cbn [typeId_of_char]. rewrite Ha, Z.eqb_refl, ParseCompleteType_print by (eapply wf_ty_top; [| |eassumption]; lia).
  rewrite length_app. replace (Z.of_nat (length (print t) + length rest) - zlen rest) with (zlen (print t)) by lia.
  rewrite Nat2Z.id, take_app_length. unfold ParseArray. cbn [room_for replicate length app pointer rbind negb].
  rewrite Ho. cbn [rbind length] in *. rewrite shorten_small by lia. do 3 f_equal. lia.
Qed.

Lemma gets_struct ts outs ms : wf_top (SStruct ts) = true -> gets_all ts outs ms -> gets (SStruct ts) outs (A_STRUCT ms).
Proof.
  intros Hwf Hts. exists (A_STRUCT ms). split; [done|]. intros fuel rest ptrs L Hf HL.
  pose proof (ParseCompleteType_print (SStruct ts) rest Hwf) as Hp. cbn [print hd tail app] in *.
  rewrite <- app_assoc in *. cbn [app length] in *. unfold parse_turn, get_struct. cbn [typeId_of_char].
  rewrite Hp. rewrite !length_app in *. cbn [length] in *.
  replace (Z.of_nat (length (prints ts) + S (length rest)) - zlen rest - 1) with (zlen (prints ts)) by lia.
  rewrite Hts by (rewrite ?length_app; cbn [length]; lia).
  cbn [rbind]. rewrite shorten_small by lia. do 3 f_equal. lia.
Qed.

Lemma gets_dict kt vt outs outs' k v : basic_key kt = true -> wf_ty 1 0 false vt = true ->
  gets kt outs k -> gets vt outs' v -> gets (SDict kt vt) (outs ++ outs') (A_DICT_ENTRY k v).
Proof.
  intros Hkt Hvt Hk Hv. exists (A_DICT_ENTRY k v). split; [done|]. intros fuel rest ptrs L Hf HL.
  assert (wf_ty 1 0 false kt = true) as Hkt' by by apply basic_key_wf.
  assert (wf_top (SDict kt vt) = true) as Hwf by (cbn [wf_top]; by rewrite Hkt', Hvt).
  pose proof (ParseCompleteType_print (SDict kt vt) rest Hwf) as Hp. cbn [print hd tail app] in *.
  rewrite <- !app_assoc in *. cbn [app length] in *. unfold parse_turn, get_dict. cbn [typeId_of_char].
  rewrite Hp, ParseCompleteType_print by (eapply wf_ty_top; [| |eassumption]; lia). rewrite !length_app in *. cbn [length] in *.
  replace (Z.of_nat (length (print kt) + (length (print vt) + S (length rest))) - Z.of_nat (length (print vt) + S (length rest)))
    with (zlen (print kt)) by lia.
  rewrite room_for_app, (gets_one kt) by (done || rewrite ?length_app; cbn [length]; lia). cbn [rbind].
  rewrite decide_True by done. rewrite !length_app. cbn [length].
  replace (Z.of_nat (length (print vt) + S (length rest)) - zlen rest - 1) with (zlen (print vt)) by lia.
  rewrite (gets_one vt) by (done || rewrite ?length_app; cbn [length]; lia). cbn [rbind].
  destruct kt; try done. cbn [print length] in *. rewrite shorten_small by lia. do 3 f_equal. lia.
Qed.

Lemma gets_args t l : given_as_args t -> typed false (A_ARRAY (Some (print t)) l) (SArray t) ->
  gets (SArray t) [V_SIZE (zlen l); V_ARGS l] (A_ARRAY (Some (print t)) l).
Proof.
  intros Hg Hty. apply typed_array in Hty as (t' & [= <-] & _ & Hwf & _). apply gets_array; [done..|].
  unfold array_out. destruct t; cbn [given_as_args] in *; subst; cbn [print hd typeId_of_char];
    rewrite take_ge, decide_True by done; done.
Qed.

Lemma fmt_gets : (forall t ins outs a, fmt t ins outs a -> gets t outs a) /\
  (forall ts ins outs l, fmts ts ins outs l -> gets_all ts outs l).
Proof.
  apply fmt_fmts_ind; intros.
  all: try (eapply gets_leaf; [done|]; intros; done).
  all: try (destruct ty; (eapply gets_leaf; [done|]); intros; done).
  all: try (eapply gets_leaf; [done|]; intros; unfold parse_turn; cbn; done).
  all: try (try destruct ty; apply gets_array; done).
  - apply gets_array; [done..|]. cbn. by rewrite length_fmap.
  - by apply (gets_args t []).
  - by apply gets_args.
  - by apply gets_struct.
  - by apply gets_dict.
  - apply gets_nil.
  - by apply gets_cons.
Qed.

Lemma print_pos t : 0 < zlen (print t).
Proof. destruct (print t) eqn:E; [by destruct (print_nonempty t)|cbn; lia]. Qed.

Lemma Set_fmt t ins outs a : fmt t ins outs a -> zlen (print t) <= 255 -> Set_ (print t) ins = Ok (ER_OK, a).
Proof.
  intros Hf Hn. pose proof (print_pos t).
  unfold Set_, VBuildArgs. rewrite (proj2 (Z.ltb_ge _ _)), (proj2 (Z.ltb_ge _ _)) by lia. cbn [orb].
  pose proof (builds_one t ins a (length (print t)) [] [] (zlen (print t)) (proj1 fmt_builds _ _ _ _ Hf)) as Hb.
  rewrite !app_nil_r in Hb. rewrite Hb by lia. done.
Qed.

Lemma Get_fmt t ins outs a : fmt t ins outs a -> zlen (print t) <= 255 -> Get a (print t) (replicate (length outs) true) = Ok (ER_OK, outs).
Proof.
  intros Hf Hn. pose proof (print_pos t).
  unfold Get, VParseArgs. rewrite (proj2 (Z.eqb_neq _ _)) by lia.
  pose proof (gets_one t outs a (length (print t)) [] [] (proj1 fmt_gets _ _ _ _ Hf)) as Hg.
  unfold room_for in Hg. rewrite !app_nil_r in Hg. rewrite Hg by lia. done.
Qed.

(** * The theorems *)

(** C11: Set with a format of at most 255 characters and the values that fit it
    succeeds, and Get with the same format stores the same values: numbers, texts,
    arrays, the members of structs and the halves of dictionary entries in order. *)
Theorem Set_Get (t : sigty) (ins outs : list Va) (a : MsgArg) :
  fmt t ins outs a -> zlen (print t) <= 255 ->
  Set_ (print t) ins = Ok (ER_OK, a) /\ Get a (print t) (replicate (length outs) true) = Ok (ER_OK, outs).
Proof. intros Hf Hn. split; [by eapply Set_fmt|by eapply Get_fmt]. Qed.

(** The format of a method call with a struct, a text and an array of texts. *)
Definition sample_type : sigty := SStruct [SLeaf 121; SStruct [SLeaf 115; SArray (SLeaf 117)]; SLeaf 118].
Definition sample_in : list Va := [V_INT 7; V_STR [104; 105; 0]; V_SIZE 2; V_32S [1; 2]; V_ARG (A_VARIANT (A_BYTE 9))].
Definition sample_out : list Va := [V_BYTE 7; V_STR [104; 105; 0]; V_SIZE 2; V_32S [1; 2]; V_ARG (A_BYTE 9)].
Definition sample_arg : MsgArg :=
  A_STRUCT [A_BYTE 7; A_STRUCT [A_STRING TY_STRING 2 (Some [104; 105; 0]); A_32_ARRAY TY_UINT32 (S_PTR [1; 2])]; A_VARIANT (A_VARIANT (A_BYTE 9))].

Lemma Set_Get_witness :
  Set_ (print sample_type) sample_in = Ok (ER_OK, sample_arg) /\
  Get sample_arg (print sample_type) (replicate 5 true) = Ok (ER_OK, sample_out).
Proof.
  apply (Set_Get sample_type sample_in sample_out sample_arg); [|vm_compute; discriminate].
  apply fmt_struct; [reflexivity|]. apply (fmts_cons _ _ [V_INT 7] _ [V_BYTE 7]); [apply fmt_byte; lia|].
  apply (fmts_cons _ _ [V_STR [104; 105; 0]; V_SIZE 2; V_32S [1; 2]] _ [V_STR [104; 105; 0]; V_SIZE 2; V_32S [1; 2]]).
  - apply fmt_struct; [reflexivity|]. apply (fmts_cons _ _ [V_STR [104; 105; 0]] _ [V_STR [104; 105; 0]]);
      [apply (fmt_string [104; 105]); repeat constructor; lia|].
    apply (fmts_cons _ _ [V_SIZE 2; V_32S [1; 2]] [] [V_SIZE 2; V_32S [1; 2]] []); [|apply fmts_nil].
    apply (fmt_32s TY_UINT32 [1; 2]). vm_compute. discriminate.
  - apply (fmts_cons _ _ [V_ARG (A_VARIANT (A_BYTE 9))] [] [V_ARG (A_BYTE 9)] []); [|apply fmts_nil].
    by apply fmt_variant.
Defined.

(** A dictionary whose keys are texts. *)
Definition dict (vt : sigty) (l : list (list Z * MsgArg)) : MsgArg :=
  A_ARRAY (Some (print (SDict (SLeaf 115) vt))) ((fun e => A_DICT_ENTRY (string_arg TY_STRING e.1) e.2) <$> l).

(** The value of the first entry with the key. *)
Definition lookup_key (l : list (list Z * MsgArg)) (key : list Z) : option MsgArg :=
  snd <$> find (fun e => bool_decide (e.1 = key)) l.

Lemma arg_eq_string s s' : no_nul s -> no_nul s' ->
  arg_eq (string_arg TY_STRING s) (A_STRING TY_STRING (zlen s') (Some (text s'))) = Ok (bool_decide (s = s')).
Proof.
  intros Hs Hs'. unfold string_arg. cbn [arg_eq]. unfold same_text. rewrite decide_True, !c_str_of_text by done. cbn [rbind]. destruct (Z.eqb_spec (zlen s) (zlen s')); [done|]. rewrite bool_decide_false; [done|]. by intros ->.
Qed.

Lemma find_entry_dict l key : Forall no_nul l.*1 -> no_nul key ->
  find_entry (A_STRING TY_STRING (zlen key) (Some (text key))) ((fun e => A_DICT_ENTRY (string_arg TY_STRING e.1) e.2) <$> l)
  = Ok (lookup_key l key).
Proof.
  intros Hl Hk. unfold lookup_key. induction l as [|[k v] l IH]; [done|]. cbn [fmap list_fmap fst snd] in Hl |- *.
  apply Forall_cons in Hl as [Hk' Hl]. cbn [find_entry find]. rewrite arg_eq_string by done. cbn [rbind fst].
  case_bool_decide; [done|]. by apply IH.
Qed.

(** GetElement on a dictionary with text keys stores the value of the first entry
    with the key, and fails without storing anything when no entry has it. *)
Theorem GetElement_dict (vt : sigty) (l : list (list Z * MsgArg)) (key : list Z) :
  Forall no_nul l.*1 -> no_nul key -> zlen (print vt) < 2 ^ 32 ->
  match lookup_key l key with
  | Some v => forall ins outs, fmt vt ins outs v ->
      GetElement (dict vt l) (print (SDict (SLeaf 115) vt)) [V_STR (text key)] (replicate (length outs) true) = Ok (ER_OK, outs)
  | None => forall ptrs,
      GetElement (dict vt l) (print (SDict (SLeaf 115) vt)) [V_STR (text key)] ptrs = Ok (ER_BUS_ELEMENT_NOT_FOUND, [])
  end.
Proof.
  intros Hl Hk Hn. pose proof (print_nonempty vt) as Hne.
  assert (4 <= zlen (print (SDict (SLeaf 115) vt))) as H4 by (cbn; rewrite length_app; destruct (print vt); [done|cbn; lia]).
  assert (forall ptrs, GetElement (dict vt l) (print (SDict (SLeaf 115) vt)) [V_STR (text key)] ptrs =
    match lookup_key l key with
    | Some v => let! (status, out, _, _) := VParseArgs (print vt ++ [125]) (zlen (print vt)) [v] ptrs in Ok (status, out)
    | None => Ok (ER_BUS_ELEMENT_NOT_FOUND, [])
    end) as Hg.
  { intros ptrs. unfold GetElement, dict. rewrite (proj2 (Z.ltb_ge _ _)) by lia. cbn [print app hd tail Z.eqb negb].
    unfold VBuildArgs. change (115 :: print vt ++ [125]) with (print (SLeaf 115) ++ (print vt ++ [125])).
    change [V_STR (text key)] with ([V_STR (text key)] ++ []).
    rewrite builds_one with (a := A_STRING TY_STRING (zlen key) (Some (text key))); [|by apply (proj1 fmt_builds) with (outs := [V_STR (text key)]), fmt_string|lia|cbn; lia].
    cbn [hd]. rewrite find_entry_dict by done. cbn [rbind length app]. rewrite !length_app. cbn [length print].
    replace (Z.of_nat (S (1 + (length (print vt) + 1))) - 3) with (zlen (print vt)) by lia. done. }
  destruct (lookup_key l key) as [v|]; [|done]. intros ins outs Hf. rewrite Hg. unfold VParseArgs.
  pose proof (gets_one vt outs v (length (print vt ++ [125])) [125] [] (proj1 fmt_gets _ _ _ _ Hf)) as H.
  unfold room_for in H. rewrite app_nil_r in H. rewrite H by lia. done.
Qed.

Lemma GetElement_dict_witness :
  GetElement (dict (SLeaf 118) [([97], A_VARIANT (A_BYTE 1)); ([98], A_VARIANT (A_BYTE 2))]) [123; 115; 118; 125] [V_STR [98; 0]] [true]
  = Ok (ER_OK, [V_ARG (A_BYTE 2)]).
Proof.
  refine (GetElement_dict (SLeaf 118) [([97], A_VARIANT (A_BYTE 1)); ([98], A_VARIANT (A_BYTE 2))] [98] _ _ _ [V_ARG (A_BYTE 2)] [V_ARG (A_BYTE 2)] _).
  - repeat constructor; lia.
  - repeat constructor; lia.
  - vm_compute. reflexivity.
  - by apply fmt_variant.
Defined.

(** A character that is no type is logged as an error, but Set succeeds and leaves an
    invalid argument. *)
Lemma Set_invalid_char va : Set_ [90 (* Z *)] va = Ok (ER_OK, A_INVALID).
Proof. reflexivity. Qed.

(** * Copies *)

Definition copies (a : MsgArg) : Prop := forall e t, typed e a t -> Clone a = Ok a.

Lemma clone_chars len str s : c_chars len str s -> clone_text len str = Ok str.
Proof.
  intros (-> & -> & _). unfold clone_text. replace (zlen s + 1) with (zlen (s ++ [0])) by (rewrite length_app; cbn; lia).
  by rewrite prefix_all.
Qed.

Lemma clone_all (l : list MsgArg) (P : MsgArg -> Prop) : Forall copies l -> Forall P l -> (forall a, P a -> exists e t, typed e a t) ->
  (fix all (l : list MsgArg) : res (list MsgArg) :=
    match l with
    | [] => Ok []
    | a :: l => let! a := Clone a in let! l := all l in Ok (a :: l)
    end) l = Ok l.
Proof.
  intros Hc Hp Ht. induction Hc as [|a l Ha _ IH]; [done|]. apply Forall_cons in Hp as [Hpa Hp].
  destruct (Ht _ Hpa) as (e & t & Hty). rewrite (Ha _ _ Hty). cbn [rbind]. by rewrite IH.
Qed.

Lemma copies_all a : copies a.
Proof.
  revert a. apply MsgArg_nested_ind; [intros a|intros es l IH|intros l IH|intros k v IHk IHv|intros v IHv].
  - destruct a; try done; intros e' [c|[c| | |]| |] H; cbn [typed] in H; try done;
      try match type of H with match ?v with _ => _ end => destruct v; [done|] end; try done.
    + destruct H as (_ & s & Hc & _). cbn [Clone]. by rewrite (clone_chars _ _ _ Hc).
    + destruct H as (_ & s & Hc & _). cbn [Clone]. by rewrite (clone_chars _ _ _ Hc).
  - intros e t (t' & -> & -> & Hwf & _ & Hn & _ & Hl)%typed_array. cbn [Clone].
    rewrite (clone_all l _ IH Hl) by eauto. cbn [rbind]. by rewrite SetElements_typed.
  - intros e t (ts & -> & _ & Hl)%typed_struct. cbn [Clone].
    rewrite (clone_all l (fun a => exists t, typed false a t) IH); [done| |by intros a (t & Ht); eauto].
    clear IH. induction Hl; constructor; eauto.
  - intros e [| | |kt vt]; try done. cbn [typed Clone]. intros (_ & _ & _ & Hk & Hv).
    rewrite (IHk _ _ Hk). cbn [rbind]. by rewrite (IHv _ _ Hv).
  - intros e [c| | |]; try done. cbn [typed Clone]. intros (_ & t & Ht & _). by rewrite (IHv _ _ Ht).
Qed.

(** Does Stabilize meet an array of booleans it copies itself? *)
Fixpoint own_bools (a : MsgArg) : bool :=
  match a with
  | A_BOOLEAN_ARRAY (S_PTR (_ :: _)) => true
  | A_STRUCT l => existsb own_bools l
  | A_DICT_ENTRY k v => own_bools k || own_bools v
  | _ => false
  end.

Definition stable (a : MsgArg) : Prop := forall e t, typed e a t -> own_bools a = false -> Stabilize a = Ok a.

Lemma stable_members l ts : Forall stable l -> Forall2 (typed false) l ts -> existsb own_bools l = false ->
  (fix each (l : list MsgArg) : res (list MsgArg) :=
    match l with
    | [] => Ok []
    | a :: l => let! a := Stabilize a in let! l := each l in Ok (a :: l)
    end) l = Ok l.
Proof.
  intros Hs Hl. induction Hl as [|a t l ts Ht Hl IH]; [done|]. apply Forall_cons in Hs as [Ha Hs]. cbn [existsb].
  intros [Hb Hbs]%orb_false_iff. rewrite (Ha _ _ Ht Hb). cbn [rbind]. by rewrite IH.
Qed.

Lemma stable_all a : stable a.
Proof.
  revert a. apply MsgArg_nested_ind; [intros a|intros es l IH|intros l IH|intros k v IHk IHv|intros v IHv].
  - destruct a; try done; intros e' [c|[c| | |]| |] H Hb; cbn [typed] in H; try done;
      try match type of H with match ?v with _ => _ end => destruct v as [|elems]; [done|] end; try done.
    + destruct H as (_ & s & Hc & _). cbn [Stabilize]. by rewrite (clone_chars _ _ _ Hc).
    + destruct H as (_ & s & Hc & _). cbn [Stabilize]. by rewrite (clone_chars _ _ _ Hc).
    + by destruct elems.
  - intros e t (t' & -> & -> & _ & _ & _ & _ & Hl)%typed_array _. cbn [Stabilize].
    rewrite (clone_all l _ (proj2 (Forall_forall _ _) (fun a _ => copies_all a)) Hl) by eauto. done.
  - intros e t (ts & -> & _ & Hl)%typed_struct Hb. cbn [Stabilize]. by rewrite (stable_members l ts IH Hl Hb).
  - intros e [| | |kt vt]; try done. cbn [typed Stabilize own_bools]. intros (_ & _ & _ & Hk & Hv) [Hbk Hbv]%orb_false_iff.
    rewrite (IHk _ _ Hk Hbk). cbn [rbind]. by rewrite (IHv _ _ Hv Hbv).
  - intros e [c| | |]; try done. cbn [typed Stabilize]. intros (_ & t & Ht & _) _. by rewrite (copies_all v _ _ Ht).
Qed.

(** An array of booleans is copied from beyond its end. *)
Lemma Stabilize_bools b l : Stabilize (A_BOOLEAN_ARRAY (S_PTR (b :: l))) = Undef.
Proof. reflexivity. Qed.

(** A copy of a well-typed argument has its value. *)
Theorem Clone_typed (a : MsgArg) (e : bool) (t : sigty) : typed e a t -> Clone a = Ok a.
Proof. apply copies_all. Qed.

Lemma Clone_typed_witness : Clone (A_STRUCT [A_BYTE 7; A_STRING TY_STRING 1 (Some [104; 0])]) = Ok (A_STRUCT [A_BYTE 7; A_STRING TY_STRING 1 (Some [104; 0])]).
Proof.
  apply (Clone_typed _ false (SStruct [SLeaf 121; SLeaf 115])). cbn [typed].
  refine (conj eq_refl (conj (conj eq_refl _) (conj (conj eq_refl (ex_intro _ [104] _)) I))); [unfold is_byte; lia|].
  split; [repeat split; repeat constructor; unfold is_byte; lia|]. split; [vm_compute; discriminate|discriminate].
Defined.
