(* ===== verification/PermissionPolicy.v ===== *)
(** Model of alljoyn_core/src/PermissionPolicy.cc and alljoyn_core/src/KeyInfoHelper.cc:
    permission policies, their comparison, and their conversion to and from message
    arguments.

    An array with its size is a list, and NULL is the empty one. Strings are lists of
    characters; [c_str()] appends the terminator. Two functions of ECCPublicKey are
    only declared in the sources, GetCoordinateSize and Import from two coordinates:
    they are parameters. *)
From stdpp Require Import strings.
From S2P Require Import Prelude Types SignatureUtils SigMachine SigGrammar SigBuild Marshal Unmarshal BusUtil IPAddress StringUtil GUID MsgArgFormat.
Import MsgArgFormat.

Module PermissionPolicy.

(** * Data *)

Inductive MemberType := NOT_SPECIFIED | METHOD_CALL | SIGNAL | PROPERTY.

Definition ACTION_PROVIDE : Z := 1.
Definition ACTION_OBSERVE : Z := 2.
Definition ACTION_MODIFY : Z := 4.

Record Member := { memberName : list Z; memberType : MemberType; actionMask : Z }.
Record Rule := { objPath : list Z; interfaceName : list Z; members : list Member }.

Inductive PeerType := PEER_ALL | PEER_ANY_TRUSTED | PEER_FROM_CERTIFICATE_AUTHORITY | PEER_WITH_PUBLIC_KEY | PEER_WITH_MEMBERSHIP.

Record ECCPublicKey := { x : list Z; y : list Z }.

(** Algorithm and curve of a KeyInfoNISTP256 are constants. *)
Record KeyInfoNISTP256 := { keyId : list Z; publicKey : ECCPublicKey }.

Record Peer := { type : PeerType; securityGroupId : GUID.GUID128; keyInfo : option KeyInfoNISTP256 }.
Record Acl := { peers : list Peer; rules : list Rule }.
Record Policy := { specificationVersion : Z; version : Z; acls : list Acl }.

#[export] Instance MemberType_eq_dec : EqDecision MemberType.
Proof. solve_decision. Defined.
#[export] Instance Member_eq_dec : EqDecision Member.
Proof. solve_decision. Defined.
#[export] Instance Rule_eq_dec : EqDecision Rule.
Proof. solve_decision. Defined.
#[export] Instance PeerType_eq_dec : EqDecision PeerType.
Proof. solve_decision. Defined.
#[export] Instance ECCPublicKey_eq_dec : EqDecision ECCPublicKey.
Proof. solve_decision. Defined.
#[export] Instance KeyInfo_eq_dec : EqDecision KeyInfoNISTP256.
Proof. solve_decision. Defined.

Definition member_type_val (t : MemberType) : Z :=
  match t with NOT_SPECIFIED => 0 | METHOD_CALL => 1 | SIGNAL => 2 | PROPERTY => 3 end.

Definition peer_type_val (t : PeerType) : Z :=
  match t with
  | PEER_ALL => 0 | PEER_ANY_TRUSTED => 1 | PEER_FROM_CERTIFICATE_AUTHORITY => 2
  | PEER_WITH_PUBLIC_KEY => 3 | PEER_WITH_MEMBERSHIP => 4
  end.

Definition SPEC_VERSION : Z := 1.

(** The constructors without arguments. *)
Definition new_Peer : Peer := {| type := PEER_ANY_TRUSTED; securityGroupId := GUID.GUID_fill 0; keyInfo := None |}.
Definition new_Policy : Policy := {| specificationVersion := SPEC_VERSION; version := 0; acls := [] |}.

(** * Comparison *)

Definition key_eq (a b : ECCPublicKey) : bool := bool_decide (x a = x b) && bool_decide (y a = y b).

Definition Member_eq (a b : Member) : bool :=
  if negb (bool_decide (memberName a = memberName b)) then false
  else if negb (bool_decide (memberType a = memberType b)) then false
  else if negb (actionMask a =? actionMask b) then false
  else true.

(** The loops that compare two arrays of the same size. *)
Fixpoint all_eq {A} (eq : A -> A -> bool) (l l' : list A) : bool :=
  match l, l' with
  | a :: l, b :: l' => if eq a b then all_eq eq l l' else false
  | _, _ => true
  end.

Definition Rule_eq (a b : Rule) : bool :=
  if negb (bool_decide (objPath a = objPath b)) then false
  else if negb (bool_decide (interfaceName a = interfaceName b)) then false
  else if negb (zlen (members a) =? zlen (members b)) then false
  else all_eq Member_eq (members a) (members b).

(** The comparison of key infos, KeyInfo.h and KeyInfoECC.h, is an argument. *)
Definition Peer_eq (keyInfo_eq : KeyInfoNISTP256 -> KeyInfoNISTP256 -> bool) (a b : Peer) : bool :=
  if negb (bool_decide (type a = type b)) then false
  else if bool_decide (type a = PEER_WITH_MEMBERSHIP) && negb (GUID.GUID_eq (securityGroupId a) (securityGroupId b)) then false
  else match keyInfo a, keyInfo b with
       | Some k, Some k' => keyInfo_eq k k'
       | None, None => true
       | _, _ => false
       end.

Definition Acl_eq (keyInfo_eq : KeyInfoNISTP256 -> KeyInfoNISTP256 -> bool) (a b : Acl) : bool :=
  if negb (zlen (peers a) =? zlen (peers b)) then false
  else if negb (all_eq (Peer_eq keyInfo_eq) (peers a) (peers b)) then false
  else if negb (zlen (rules a) =? zlen (rules b)) then false
  else all_eq Rule_eq (rules a) (rules b).

(** * Keys as arguments *)

Definition ALGORITHM_ECDSA_SHA_256 : Z := 0.
Definition ECC_NIST_P256 : Z := 0.
Definition ECC_COORDINATE_SZ : Z := 32.

(** A call of Set or Get that must succeed. *)
Definition set_ok (signature : list Z) (va : list Va) : res MsgArg :=
  let! (status, a) := Set_ signature va in if decide (status = ER_OK) then Ok a else Fail status.
Definition get_ok (a : MsgArg) (signature : list Z) (n : nat) : res (list Va) :=
  let! (status, out) := Get a signature (replicate n true) in if decide (status = ER_OK) then Ok out else Fail status.

(** A pointer to bytes, or NULL when there are none. *)
Definition bytes_ptr (l : list Z) : Va := match l with [] => V_NULL | _ => V_BYTES l end.
(** An array of arguments, or NULL when there are none. *)
Definition args_ptr (l : list MsgArg) : Va := match l with [] => V_NULL | _ => V_ARGS l end.

(** Loops over an array that stop at the first failure. *)
Fixpoint each {A B} (f : A -> res B) (l : list A) : res (list B) :=
  match l with
  | [] => Ok []
  | a :: l => let! b := f a in let! bs := each f l in Ok (b :: bs)
  end.

Section keys.
Variable GetCoordinateSize : Z.
Variable ImportCoordinates : list Z -> list Z -> ECCPublicKey.

(** ECCPublicKey::Export into a buffer of [size] bytes. *)
Definition ExportKey (k : ECCPublicKey) (size : Z) : res (list Z) :=
  if size <? ECC_COORDINATE_SZ + ECC_COORDINATE_SZ then Fail ER_FAIL
  else Ok (take (Z.to_nat ECC_COORDINATE_SZ) (x k) ++ take (Z.to_nat ECC_COORDINATE_SZ) (y k)).

(** The bytes stored at [xData] and [yData]. *)
Definition ExportCoordinates (k : ECCPublicKey) (xSize ySize : Z) : res (list Z * list Z) :=
  if negb (xSize =? GetCoordinateSize) then Fail ER_BAD_ARG_3
  else if negb (ySize =? GetCoordinateSize) then Fail ER_BAD_ARG_5
  else
    let bufSize := 2 * GetCoordinateSize in
    let! buf := ExportKey k bufSize in
    if negb (zlen buf =? 2 * GetCoordinateSize) then Fail ER_INVALID_DATA
    else Ok (take (Z.to_nat xSize) buf, take (Z.to_nat ySize) (drop (Z.to_nat xSize) buf)).

(** With the key id. A failed export leaves the coordinates uninitialised, and a
    failed Set violates the assertion. *)
Definition KeyInfoNISTP256PubKeyToMsgArg (k : KeyInfoNISTP256) : res MsgArg :=
  match ExportCoordinates (publicKey k) GetCoordinateSize GetCoordinateSize with
  | Ok (xData, yData) =>
      let! (status, localArg) := Set_ (lit "(yyayayay)")
        [V_INT ALGORITHM_ECDSA_SHA_256; V_INT ECC_NIST_P256; V_SIZE (zlen (keyId k)); bytes_ptr (keyId k);
         V_SIZE GetCoordinateSize; V_BYTES xData; V_SIZE GetCoordinateSize; V_BYTES yData] in
      if decide (status = ER_OK) then Clone localArg else Undef
  | _ => Undef
  end.

(** The [len] bytes behind a pointer that Get stored. *)
Definition bytes_at (v : Va) (len : Z) : res (list Z) :=
  match v with
  | V_BYTES l => prefix l len
  | V_NULL => if len =? 0 then Ok [] else Undef
  | _ => Undef
  end.

Definition MsgArgToKeyInfoNISTP256PubKey (msgArg : MsgArg) : res KeyInfoNISTP256 :=
  match get_ok msgArg (lit "(yyayayay)") 8 with
  | Ok [V_BYTE algorithm; V_BYTE curve; V_SIZE idLen; id; V_SIZE xLen; xCoord; V_SIZE yLen; yCoord] =>
      if negb (algorithm =? ALGORITHM_ECDSA_SHA_256) then Fail ER_INVALID_DATA
      else if negb (curve =? ECC_NIST_P256) then Fail ER_INVALID_DATA
      else if negb (xLen =? ECC_COORDINATE_SZ) || negb (yLen =? ECC_COORDINATE_SZ) then Fail ER_INVALID_DATA
      else
        let! xs := bytes_at xCoord xLen in
        let! ys := bytes_at yCoord yLen in
        let! ids := bytes_at id idLen in
        Ok {| keyId := ids; publicKey := ImportCoordinates xs ys |}
  | Fail _ => Fail ER_INVALID_DATA
  | _ => Undef
  end.

(** * Peers *)

Definition peer_arg (p : Peer) : res MsgArg :=
  let! keyInfoArgs :=
    match type p with
    | PEER_ALL | PEER_ANY_TRUSTED => Ok []
    | _ => match keyInfo p with
           | None => Fail ER_INVALID_DATA
           | Some k => let! a := KeyInfoNISTP256PubKeyToMsgArg k in Ok [a]
           end
    end in
  let securityGroupId := match type p with PEER_WITH_MEMBERSHIP => GUID.guid (securityGroupId p) | _ => [] end in
  let! a := set_ok (lit "(ya(yyayayay)ay)")
    [V_INT (peer_type_val (type p)); V_SIZE (zlen keyInfoArgs); args_ptr keyInfoArgs;
     V_SIZE (zlen securityGroupId); bytes_ptr securityGroupId] in
  Stabilize a.

Definition GeneratePeerArgs (ps : list Peer) : res (list MsgArg) := each peer_arg ps.

Definition peer_type_of (v : Z) : option PeerType :=
  match v with
  | 0 => Some PEER_ALL | 1 => Some PEER_ANY_TRUSTED | 2 => Some PEER_FROM_CERTIFICATE_AUTHORITY
  | 3 => Some PEER_WITH_PUBLIC_KEY | 4 => Some PEER_WITH_MEMBERSHIP | _ => None
  end.

Definition peer_of (a : MsgArg) : res Peer :=
  let! out := get_ok a (lit "(ya(yyayayay)ay)") 5 in
  match out with
  | [V_BYTE peerType; V_SIZE pubKeysCnt; V_ARGS pubKeys; V_SIZE sgIdLen; sgId] =>
      match peer_type_of peerType with
      | None => Fail ER_INVALID_DATA
      | Some t =>
          let p := {| type := t; securityGroupId := securityGroupId new_Peer; keyInfo := None |} in
          match t with
          | PEER_ALL | PEER_ANY_TRUSTED => Ok p
          | _ =>
              if pubKeysCnt =? 0 then Fail ER_INVALID_DATA
              else if bool_decide (t = PEER_WITH_MEMBERSHIP) && negb (sgIdLen =? GUID.SIZE) then Fail ER_INVALID_DATA
              else
                let! k := match pubKeys with a :: _ => MsgArgToKeyInfoNISTP256PubKey a | [] => Undef end in
                let! g := match t with
                          | PEER_WITH_MEMBERSHIP => let! bs := bytes_at sgId GUID.SIZE in Ok (GUID.SetBytes (GUID.GUID_fill 0) bs)
                          | _ => Ok (securityGroupId p)
                          end in
                Ok {| type := t; securityGroupId := g; keyInfo := Some k |}
          end
      end
  | _ => Undef
  end.

Definition BuildPeersFromArg (args : list MsgArg) : res (list Peer) := each peer_of args.

(** * Rules *)

Definition member_arg (m : Member) : res MsgArg :=
  let! a := set_ok (lit "(syy)") [V_STR (text (memberName m)); V_INT (member_type_val (memberType m)); V_INT (actionMask m)] in
  Stabilize a.

Definition GenerateMemberArgs (ms : list Member) : res (list MsgArg) := each member_arg ms.

Definition rule_arg (r : Rule) : res MsgArg :=
  let! ruleMembersArgs := GenerateMemberArgs (members r) in
  let! a := set_ok (lit "(ssa(syy))")
    [V_STR (text (objPath r)); V_STR (text (interfaceName r)); V_SIZE (zlen (members r)); args_ptr ruleMembersArgs] in
  Stabilize a.

Definition GenerateRuleArgs (rs : list Rule) : res (list MsgArg) := each rule_arg rs.

Definition member_type_of (v : Z) : option MemberType :=
  match v with 0 => Some NOT_SPECIFIED | 1 => Some METHOD_CALL | 2 => Some SIGNAL | 3 => Some PROPERTY | _ => None end.

(** The string constructor on a [char*]; NULL makes an empty string. *)
Definition string_of (v : Va) : res (list Z) :=
  match v with V_STR m => c_str m | V_NULL => Ok [] | _ => Undef end.

Definition member_of (a : MsgArg) : res Member :=
  let! out := get_ok a (lit "(syy)") 3 in
  match out with
  | [str; V_BYTE memberType; V_BYTE actionMask] =>
      let! name := string_of str in
      match member_type_of memberType with
      | Some t => Ok {| memberName := name; memberType := t; actionMask := actionMask |}
      | None => Fail ER_INVALID_DATA
      end
  | _ => Undef
  end.

Definition BuildMembersFromArg (args : list MsgArg) : res (list Member) := each member_of args.

Definition rule_of (a : MsgArg) : res Rule :=
  let! out := get_ok a (lit "(ssa(syy))") 4 in
  match out with
  | [objPath; interfaceName; V_SIZE _; V_ARGS membersArgs] =>
      let! o := string_of objPath in
      let! i := string_of interfaceName in
      let! ms := BuildMembersFromArg membersArgs in
      Ok {| objPath := o; interfaceName := i; members := ms |}
  | _ => Undef
  end.

Definition BuildRulesFromArgArray (args : list MsgArg) : res (list Rule) := each rule_of args.

Definition BuildRulesFromArg (msgArg : MsgArg) : res (list Rule) :=
  let! out := get_ok msgArg (lit "a(ssa(syy))") 2 in
  match out with [V_SIZE _; V_ARGS args] => BuildRulesFromArgArray args | _ => Undef end.

(** The rules of a manifest. [GenerateRules] does not look at the status of Set. *)
Definition GenerateRules (rs : list Rule) : res MsgArg :=
  let! rulesArgs := GenerateRuleArgs rs in
  let! (_, a) := Set_ (lit "a(ssa(syy))") [V_SIZE (zlen rs); args_ptr rulesArgs] in Ok a.

Definition ParseRules (msgArg : MsgArg) : res (list Rule) := BuildRulesFromArg msgArg.

(** * Policies *)

Definition acl_arg (a : Acl) : res MsgArg :=
  let! peersArgs := GeneratePeerArgs (peers a) in
  let! rulesArgs := GenerateRuleArgs (rules a) in
  set_ok (lit "(a(ya(yyayayay)ay)a(ssa(syy)))") [V_SIZE (zlen (peers a)); args_ptr peersArgs; V_SIZE (zlen (rules a)); args_ptr rulesArgs].

Definition Export (p : Policy) : res MsgArg :=
  let! aclsArgs := each acl_arg (acls p) in
  set_ok (lit "(qua(a(ya(yyayayay)ay)a(ssa(syy))))")
    [V_INT (specificationVersion p); V_INT (version p); V_SIZE (zlen (acls p)); args_ptr aclsArgs].

Definition acl_of (a : MsgArg) : res Acl :=
  let! out := get_ok a (lit "(a(ya(yyayayay)ay)a(ssa(syy)))") 4 in
  match out with
  | [V_SIZE _; V_ARGS peersArgs; V_SIZE _; V_ARGS rulesArgs] =>
      let! ps := BuildPeersFromArg peersArgs in
      let! rs := BuildRulesFromArgArray rulesArgs in
      Ok {| peers := ps; rules := rs |}
  | _ => Undef
  end.

Definition BuildAclsFromArg (args : list MsgArg) : res (list Acl) := each acl_of args.

(** [Import] into the policy [p]: the status and what the policy is afterwards. *)
Definition Import_ (p : Policy) (expectedVersion : Z) (msgArg : MsgArg) : res (QStatus * Policy) :=
  let! (status, out) := Get msgArg (lit "(qua(a(ya(yyayayay)ay)a(ssa(syy))))") (replicate 4 true) in
  if decide (status = ER_OK) then
    match out with
    | [V_16 specVersion; V_INT policyVersion; V_SIZE _; V_ARGS aclsArgs] =>
        if negb (specificationVersion p =? expectedVersion) then Ok (ER_INVALID_DATA, p)
        else
          let p := {| specificationVersion := specVersion; version := policyVersion; acls := acls p |} in
          match aclsArgs with
          | [] => Ok (ER_OK, p)
          | _ => match BuildAclsFromArg aclsArgs with
                 | Ok l => Ok (ER_OK, {| specificationVersion := specVersion; version := policyVersion; acls := l |})
                 | Fail st => Ok (st, p)
                 | Undef => Undef
                 end
          end
    | _ => Undef
    end
  else Ok (status, p).

End keys.

End PermissionPolicy.
