(* ===== verification/PermissionPolicyProofs.v ===== *)
(** A policy that is exported and imported again is the same policy, and what Export
    makes is a well-typed argument, which survives the wire. *)
From stdpp Require Import strings.
From S2P Require Import Prelude Types SignatureUtils SigMachine SigGrammar SigBuild Typed Marshal Unmarshal Roundtrip BusUtil IPAddress StringUtil GUID MsgArgFormat MsgArgFormatProofs PermissionPolicy.
Import MsgArgFormat PermissionPolicy.

(** * The formats as types *)

Definition T_y : sigty := SLeaf 121.
Definition T_s : sigty := SLeaf 115.
Definition key_t : sigty := SStruct [T_y; T_y; SArray T_y; SArray T_y; SArray T_y].
Definition peer_t : sigty := SStruct [T_y; SArray key_t; SArray T_y].
Definition member_t : sigty := SStruct [T_s; T_y; T_y].
Definition rule_t : sigty := SStruct [T_s; T_s; SArray member_t].
Definition acl_t : sigty := SStruct [SArray peer_t; SArray rule_t].
Definition policy_t : sigty := SStruct [SLeaf 113; SLeaf 117; SArray acl_t].

(** * What each part becomes *)

Definition text_val (s : list Z) : MsgArg := A_STRING TY_STRING (zlen s) (Some (text s)).
Definition bytes_val (l : list Z) : MsgArg := A_BYTE_ARRAY (S_PTR l).
Definition array_val (t : sigty) (l : list MsgArg) : MsgArg := A_ARRAY (Some (print t)) l.

Definition key_val (k : KeyInfoNISTP256) : MsgArg :=
  A_STRUCT [A_BYTE 0; A_BYTE 0; bytes_val (keyId k); bytes_val (x (publicKey k)); bytes_val (y (publicKey k))].
Definition peer_keys (p : Peer) : list MsgArg :=
  match type p with PEER_ALL | PEER_ANY_TRUSTED => [] | _ => match keyInfo p with Some k => [key_val k] | None => [] end end.
Definition peer_group (p : Peer) : list Z :=
  match type p with PEER_WITH_MEMBERSHIP => GUID.guid (securityGroupId p) | _ => [] end.
Definition peer_val (p : Peer) : MsgArg :=
  A_STRUCT [A_BYTE (peer_type_val (type p)); array_val key_t (peer_keys p); bytes_val (peer_group p)].
Definition member_val (m : Member) : MsgArg :=
  A_STRUCT [text_val (memberName m); A_BYTE (member_type_val (memberType m)); A_BYTE (actionMask m)].
Definition rule_val (r : Rule) : MsgArg :=
  A_STRUCT [text_val (objPath r); text_val (interfaceName r); array_val member_t (member_val <$> members r)].
Definition acl_val (a : Acl) : MsgArg :=
  A_STRUCT [array_val peer_t (peer_val <$> peers a); array_val rule_t (rule_val <$> rules a)].
Definition policy_val (p : Policy) : MsgArg :=
  A_STRUCT [A_16 TY_UINT16 (specificationVersion p); A_32 TY_UINT32 (version p); array_val acl_t (acl_val <$> acls p)].

(** * Well-formed policies *)

Definition wf_bytes (l : list Z) : Prop := Forall is_byte l /\ zlen l <= ALLJOYN_MAX_ARRAY_LEN.
Definition wf_text (s : list Z) : Prop := no_nul s /\ Forall is_byte s /\ zlen s <= ALLJOYN_MAX_PACKET_LEN.
Definition few {A} (l : list A) : Prop := zlen l <= ALLJOYN_MAX_ARRAY_LEN.

Definition wf_key (k : KeyInfoNISTP256) : Prop :=
  wf_bytes (keyId k) /\ Forall is_byte (x (publicKey k)) /\ Forall is_byte (y (publicKey k)) /\
  zlen (x (publicKey k)) = 32 /\ zlen (y (publicKey k)) = 32.

(** A peer as Import makes it: a key where the type needs one, a security group only
    for members of a group. *)
Definition wf_peer (p : Peer) : Prop :=
  match type p with
  | PEER_ALL | PEER_ANY_TRUSTED => keyInfo p = None /\ securityGroupId p = GUID.GUID_fill 0
  | PEER_FROM_CERTIFICATE_AUTHORITY | PEER_WITH_PUBLIC_KEY =>
      (exists k, keyInfo p = Some k /\ wf_key k) /\ securityGroupId p = GUID.GUID_fill 0
  | PEER_WITH_MEMBERSHIP =>
      (exists k, keyInfo p = Some k /\ wf_key k) /\
      exists bs, securityGroupId p = GUID.new_guid bs /\ Forall is_byte bs /\ zlen bs = 16
  end.

Definition wf_member (m : Member) : Prop := wf_text (memberName m) /\ is_byte (actionMask m).
Definition wf_rule (r : Rule) : Prop :=
  wf_text (objPath r) /\ wf_text (interfaceName r) /\ few (members r) /\ Forall wf_member (members r).
Definition wf_acl (a : Acl) : Prop :=
  few (peers a) /\ few (rules a) /\ Forall wf_peer (peers a) /\ Forall wf_rule (rules a).
Definition wf_policy (p : Policy) : Prop :=
  u_ok 2 (specificationVersion p) /\ u_ok 4 (version p) /\ few (acls p) /\ Forall wf_acl (acls p).

(** * Arrays *)

Lemma each_Ok {A B} (f : A -> res B) (g : A -> B) (P : A -> Prop) l :
  (forall a, P a -> f a = Ok (g a)) -> Forall P l -> each f l = Ok (g <$> l).
Proof. intros Hf. induction 1 as [|a l Ha _ IH]; [done|]. cbn [each]. rewrite Hf by done. cbn [rbind]. by rewrite IH. Qed.

Lemma each_back {A B} (f : B -> res A) (g : A -> B) (P : A -> Prop) l :
  (forall a, P a -> f (g a) = Ok a) -> Forall P l -> each f (g <$> l) = Ok l.
Proof. intros Hf. induction 1 as [|a l Ha _ IH]; [done|]. cbn [fmap list_fmap each]. rewrite Hf by done. cbn [rbind]. by rewrite IH. Qed.

(** Types that may be the element of an array of arguments. *)
Record elem_type (t : sigty) : Prop := {
  et_given : given_as_args t;
  et_wf : wf_ty 0 1 true t = true;
  et_scalar : scalar_elem t = false;
  et_short : zlen (print t) <= 252;
  et_concrete : concrete t
}.

Ltac elem_type := by repeat split.

Lemma typed_array_val t l e : elem_type t -> Forall (fun a => typed true a t) l -> typed e (array_val t l) (SArray t).
Proof. intros [Hg Hw Hs Hn Hc] Hl. apply typed_array. exists t. split_and!; try done; apply Hc. Qed.

Lemma fmt_args_ptr t l : elem_type t -> few l -> Forall (fun a => typed true a t) l ->
  fmt (SArray t) [V_SIZE (zlen l); args_ptr l] [V_SIZE (zlen l); V_ARGS l] (array_val t l).
Proof.
  intros Ht Hn Hl. pose proof (typed_array_val t l false Ht Hl) as Hty. destruct Ht, l as [|a l].
  - by apply fmt_no_args.
  - by apply (fmt_args t (a :: l)).
Qed.

Section vals.
Context {A : Type} (g : A -> MsgArg) (t : sigty) (P : A -> Prop).
Hypothesis Ht : elem_type t.
Hypothesis Hg : forall a, P a -> typed true (g a) t.

Lemma typed_vals l e : Forall P l -> typed e (array_val t (g <$> l)) (SArray t).
Proof using Ht Hg. intros Hl. apply typed_array_val; [done|]. apply Forall_fmap. by eapply Forall_impl. Qed.

Lemma fmt_vals l : few l -> Forall P l ->
  fmt (SArray t) [V_SIZE (zlen l); args_ptr (g <$> l)] [V_SIZE (zlen l); V_ARGS (g <$> l)] (array_val t (g <$> l)).
Proof using Ht Hg.
  intros Hn Hl. rewrite <- (length_fmap g). apply fmt_args_ptr; [done|by unfold few; rewrite length_fmap|].
  apply Forall_fmap. by eapply Forall_impl.
Qed.
End vals.

(** The bytes of an array that was given as NULL when there are none. *)
Definition given_bytes (l : list Z) : MsgArg := A_BYTE_ARRAY (match l with [] => S_NULL 0 | _ => S_PTR l end).

Lemma fmt_bytes_ptr l : few l -> exists outs, fmt (SArray T_y) [V_SIZE (zlen l); bytes_ptr l] outs (given_bytes l).
Proof. intros Hn. destruct l as [|b l]; eexists; [apply fmt_no_bytes|by apply (fmt_bytes (b :: l))]. Qed.

Lemma fmt_bytes_val l : few l -> fmt (SArray T_y) [V_SIZE (zlen l); V_BYTES l] [V_SIZE (zlen l); V_BYTES l] (bytes_val l).
Proof. intros Hn. by apply fmt_bytes. Qed.

Lemma typed_bytes_val e l : Forall is_byte l -> typed e (bytes_val l) (SArray T_y).
Proof. done. Qed.

Lemma typed_text e s : wf_text s -> typed e (text_val s) T_s.
Proof. intros (Hn & Hb & Hl). split; [done|]. by exists s. Qed.

(** * Set and Get on a whole struct *)

Lemma set_ok_fmt f t ins outs a : f = print t -> fmt t ins outs a -> zlen (print t) <= 255 -> set_ok f ins = Ok a.
Proof. intros -> Hf Hn. unfold set_ok. rewrite (Set_fmt _ _ _ _ Hf Hn). done. Qed.

Lemma get_ok_fmt f t ins outs a n : f = print t -> fmt t ins outs a -> zlen (print t) <= 255 -> n = length outs -> get_ok a f n = Ok outs.
Proof. intros -> Hf Hn ->. unfold get_ok. rewrite (Get_fmt _ _ _ _ Hf Hn). done. Qed.

Lemma fmts_cons_app t ts ins ins' outs outs' a l i o : fmt t ins outs a -> fmts ts ins' outs' l ->
  i = ins ++ ins' -> o = outs ++ outs' -> fmts (t :: ts) i o (a :: l).
Proof. intros ? ? -> ->. by constructor. Qed.

(** The first of the members that are left. *)
Ltac first_member tac := eapply fmts_cons_app; [tac| |reflexivity|reflexivity].
Ltac no_members := apply fmts_nil.

(** What the members must satisfy for the struct to be typed. *)
Fixpoint typed_each (l : list MsgArg) (ts : list sigty) : Prop :=
  match l, ts with
  | [], [] => True
  | a :: l, t :: ts => typed false a t /\ typed_each l ts
  | _, _ => False
  end.

Lemma typed_members e l ts : wf_top (SStruct ts) = true -> typed_each l ts -> typed e (A_STRUCT l) (SStruct ts).
Proof.
  intros Hwf Hl. apply typed_struct. exists ts. split_and!; [done..|]. clear Hwf.
  revert ts Hl. induction l as [|a l IH]; intros [|t ts]; try done. intros [? ?]. constructor; auto.
Qed.

(** ** Members and rules *)

Lemma member_type_byte t : 0 <= member_type_val t < 256.
Proof. destruct t; cbn; lia. Qed.

Lemma fmt_member m : wf_member m ->
  fmt member_t [V_STR (text (memberName m)); V_INT (member_type_val (memberType m)); V_INT (actionMask m)]
    [V_STR (text (memberName m)); V_BYTE (member_type_val (memberType m)); V_BYTE (actionMask m)] (member_val m).
Proof.
  intros ((Hn & _) & Ha). apply fmt_struct; [done|]. first_member ltac:(by apply fmt_string).
  first_member ltac:(apply fmt_byte, member_type_byte). first_member ltac:(by apply fmt_byte). no_members.
Qed.

Lemma typed_member m : wf_member m -> typed true (member_val m) member_t.
Proof.
  intros (Hn & Ha). apply typed_members; [done|]. split; [by apply typed_text|].
  split; [split; [done|apply member_type_byte]|]. by split; [split|].
Qed.

Lemma member_arg_val m : wf_member m -> member_arg m = Ok (member_val m).
Proof.
  intros Hm. unfold member_arg. rewrite (set_ok_fmt (lit "(syy)") member_t _ _ _ eq_refl (fmt_member m Hm)) by (vm_compute; discriminate).
  cbn [rbind]. by apply (stable_all _ _ _ (typed_member m Hm)).
Qed.

Lemma member_of_val m : wf_member m -> member_of (member_val m) = Ok m.
Proof.
  intros Hm. unfold member_of. rewrite (get_ok_fmt (lit "(syy)") member_t _ _ _ 3 eq_refl (fmt_member m Hm)) by (done || vm_compute; discriminate).
  cbn [rbind string_of]. destruct Hm as ((Hn & _) & _). rewrite c_str_of_text by done. cbn [rbind].
  destruct m as [n [] a]; done.
Qed.

Lemma member_elem : elem_type member_t.
Proof. elem_type. Qed.

Lemma fmt_rule r : wf_rule r ->
  fmt rule_t [V_STR (text (objPath r)); V_STR (text (interfaceName r)); V_SIZE (zlen (members r)); args_ptr (member_val <$> members r)]
    [V_STR (text (objPath r)); V_STR (text (interfaceName r)); V_SIZE (zlen (members r)); V_ARGS (member_val <$> members r)] (rule_val r).
Proof.
  intros ((Ho & _) & (Hi & _) & Hf & Hm). apply fmt_struct; [done|].
  first_member ltac:(by apply fmt_string). first_member ltac:(by apply fmt_string).
  first_member ltac:(apply (fmt_vals _ _ wf_member); [apply member_elem|apply typed_member|done|done]). no_members.
Qed.

Lemma typed_rule r : wf_rule r -> typed true (rule_val r) rule_t.
Proof.
  intros (Ho & Hi & _ & Hm). apply typed_members; [done|]. split; [by apply typed_text|]. split; [by apply typed_text|].
  split; [|done]. apply (typed_vals _ _ wf_member); [apply member_elem|apply typed_member|done].
Qed.

Lemma rule_arg_val r : wf_rule r -> rule_arg r = Ok (rule_val r).
Proof.
  intros Hr. unfold rule_arg, GenerateMemberArgs.
  rewrite (each_Ok _ member_val wf_member) by (apply member_arg_val || apply Hr). cbn [rbind].
  rewrite (set_ok_fmt (lit "(ssa(syy))") rule_t _ _ _ eq_refl (fmt_rule r Hr)) by (vm_compute; discriminate).
  cbn [rbind]. by apply (stable_all _ _ _ (typed_rule r Hr)).
Qed.

Lemma rule_of_val r : wf_rule r -> rule_of (rule_val r) = Ok r.
Proof.
  intros Hr. unfold rule_of. rewrite (get_ok_fmt (lit "(ssa(syy))") rule_t _ _ _ 4 eq_refl (fmt_rule r Hr)) by (done || vm_compute; discriminate).
  destruct Hr as ((Ho & _) & (Hi & _) & Hf & Hm). cbn [rbind string_of]. rewrite !c_str_of_text by done. cbn [rbind].
  unfold BuildMembersFromArg. rewrite (each_back _ _ wf_member) by (apply member_of_val || done). by destruct r.
Qed.

Lemma rule_elem : elem_type rule_t.
Proof. elem_type. Qed.

(** The rules of a manifest come back from their argument. *)
Lemma Rules_roundtrip rs : few rs -> Forall wf_rule rs -> exists a, GenerateRules rs = Ok a /\ ParseRules a = Ok rs.
Proof.
  intros Hn Hr. pose proof (fmt_vals _ _ wf_rule rule_elem typed_rule rs Hn Hr) as Hf. exists (array_val rule_t (rule_val <$> rs)). split.
  - unfold GenerateRules, GenerateRuleArgs. rewrite (each_Ok _ rule_val wf_rule) by (apply rule_arg_val || done). cbn [rbind].
    change (lit "a(ssa(syy))") with (print (SArray rule_t)). by rewrite (Set_fmt _ _ _ _ Hf) by (vm_compute; discriminate).
  - unfold ParseRules, BuildRulesFromArg.
    rewrite (get_ok_fmt (lit "a(ssa(syy))") (SArray rule_t) _ _ _ 2 eq_refl Hf) by (done || vm_compute; discriminate).
    cbn [rbind]. unfold BuildRulesFromArgArray. by rewrite (each_back _ _ wf_rule) by (apply rule_of_val || done).
Qed.

(** ** Keys and peers *)

Section peers.
Variable GetCoordinateSize : Z.
Variable ImportCoordinates : list Z -> list Z -> ECCPublicKey.
(** What the comments in CryptoECC.h promise of the two functions. *)
Hypothesis HC : GetCoordinateSize = 32.
Hypothesis HI : forall xs ys, zlen xs = 32 -> zlen ys = 32 -> ImportCoordinates xs ys = {| x := xs; y := ys |}.

Lemma ExportCoordinates_ok k : zlen (x k) = 32 -> zlen (y k) = 32 ->
  ExportCoordinates GetCoordinateSize k GetCoordinateSize GetCoordinateSize = Ok (x k, y k).
Proof using HC.
  intros Hx Hy. unfold ExportCoordinates, ExportKey. rewrite HC. unfold ECC_COORDINATE_SZ.
  rewrite (take_ge (x k)), (take_ge (y k)) by lia.
  change (2 * 32 <? 32 + 32) with false. change (negb (32 =? 32)) with false. cbn [rbind].
  rewrite length_app, Nat2Z.inj_add, Hx, Hy. change (negb (32 + 32 =? 2 * 32)) with false. cbv iota beta.
  replace (Z.to_nat 32) with (length (x k)) by lia. rewrite take_app_length, drop_app_length.
  by rewrite take_ge by lia.
Qed.

Lemma fmt_coordinate l : zlen l = 32 -> fmt (SArray T_y) [V_SIZE 32; V_BYTES l] [V_SIZE 32; V_BYTES l] (bytes_val l).
Proof using. intros Hl. rewrite <- Hl. apply fmt_bytes_val. unfold few. rewrite Hl. by vm_compute. Qed.

Lemma fmt_key k : wf_key k ->
  fmt key_t [V_INT 0; V_INT 0; V_SIZE (zlen (keyId k)); V_BYTES (keyId k); V_SIZE 32; V_BYTES (x (publicKey k)); V_SIZE 32; V_BYTES (y (publicKey k))]
    [V_BYTE 0; V_BYTE 0; V_SIZE (zlen (keyId k)); V_BYTES (keyId k); V_SIZE 32; V_BYTES (x (publicKey k)); V_SIZE 32; V_BYTES (y (publicKey k))] (key_val k).
Proof using.
  intros ((_ & Hid) & _ & _ & Hx & Hy). apply fmt_struct; [done|].
  first_member ltac:(by apply fmt_byte). first_member ltac:(by apply fmt_byte).
  first_member ltac:(by apply fmt_bytes_val). first_member ltac:(by apply fmt_coordinate).
  first_member ltac:(by apply fmt_coordinate). no_members.
Qed.

Lemma typed_key k : wf_key k -> typed true (key_val k) key_t.
Proof using.
  intros ((Hid & _) & Hx & Hy & _). apply typed_members; [done|]. do 2 (split; [by split|]).
  split; [done|]. split; [done|]. by split.
Qed.

(** Before the copy the key id may be a NULL pointer. *)
Lemma KeyInfo_arg_val k : wf_key k -> KeyInfoNISTP256PubKeyToMsgArg GetCoordinateSize k = Ok (key_val k).
Proof using HC.
  intros Hk. destruct Hk as ((Hb & Hid) & Hxb & Hyb & Hx & Hy). unfold KeyInfoNISTP256PubKeyToMsgArg.
  rewrite ExportCoordinates_ok by done. rewrite HC. destruct (fmt_bytes_ptr (keyId k) Hid) as (outs & Hf).
  assert (exists outs, fmt key_t [V_INT 0; V_INT 0; V_SIZE (zlen (keyId k)); bytes_ptr (keyId k); V_SIZE 32; V_BYTES (x (publicKey k)); V_SIZE 32; V_BYTES (y (publicKey k))]
    outs (A_STRUCT [A_BYTE 0; A_BYTE 0; given_bytes (keyId k); bytes_val (x (publicKey k)); bytes_val (y (publicKey k))])) as (outs' & Hs).
  { eexists. apply fmt_struct; [done|]. first_member ltac:(by apply fmt_byte). first_member ltac:(by apply fmt_byte).
    first_member ltac:(exact Hf). first_member ltac:(by apply fmt_coordinate). first_member ltac:(by apply fmt_coordinate). no_members. }
  change (lit "(yyayayay)") with (print key_t). unfold ALGORITHM_ECDSA_SHA_256, ECC_NIST_P256.
  rewrite (Set_fmt _ _ _ _ Hs) by (vm_compute; discriminate). cbn [rbind]. rewrite decide_True by done.
  unfold key_val. by destruct (keyId k).
Qed.

Lemma KeyInfo_of_val k : wf_key k -> MsgArgToKeyInfoNISTP256PubKey ImportCoordinates (key_val k) = Ok k.
Proof using HI.
  intros Hk. unfold MsgArgToKeyInfoNISTP256PubKey.
  rewrite (get_ok_fmt (lit "(yyayayay)") key_t _ _ _ 8 eq_refl (fmt_key k Hk)) by (done || vm_compute; discriminate).
  destruct Hk as ((Hb & Hid) & Hxb & Hyb & Hx & Hy). cbn [Z.eqb negb orb ALGORITHM_ECDSA_SHA_256 ECC_NIST_P256].
  change (negb (32 =? ECC_COORDINATE_SZ)) with false. cbn [orb bytes_at].
  pose proof (prefix_all (x (publicKey k))) as Px. pose proof (prefix_all (y (publicKey k))) as Py.
  rewrite Hx in Px. rewrite Hy in Py. rewrite Px. cbn [rbind]. rewrite Py. cbn [rbind]. rewrite prefix_all. cbn [rbind]. rewrite HI by done. by destruct k as [i []].
Qed.

Lemma key_elem : elem_type key_t.
Proof. elem_type. Qed.

(** The keys of a peer, and that they are typed. *)
Lemma peer_keys_typed p : wf_peer p -> Forall (fun a => typed true a key_t) (peer_keys p) /\ few (peer_keys p).
Proof using.
  unfold wf_peer, peer_keys. destruct (type p); intros Hp; try (split; [constructor|by vm_compute]);
    destruct Hp as ((k & -> & Hk) & _); (split; [constructor; [by apply typed_key|constructor]|by vm_compute]).
Qed.

Lemma peer_group_ok p : wf_peer p -> Forall is_byte (peer_group p) /\ few (peer_group p).
Proof using.
  unfold wf_peer, peer_group. destruct (type p); intros Hp; try (split; [constructor|by vm_compute]).
  destruct Hp as (_ & bs & -> & Hb & Hl). cbn. split; [done|]. unfold few. rewrite Hl. by vm_compute.
Qed.

Lemma peer_type_byte t : 0 <= peer_type_val t < 256.
Proof using. destruct t; cbn; lia. Qed.

Lemma typed_peer p : wf_peer p -> typed true (peer_val p) peer_t.
Proof using.
  intros Hp. apply typed_members; [done|]. split; [split; [done|apply peer_type_byte]|].
  split; [apply typed_array_val; [apply key_elem|by apply peer_keys_typed]|]. split; [|done].
  by apply typed_bytes_val, peer_group_ok.
Qed.

Lemma peer_arg_val p : wf_peer p -> peer_arg GetCoordinateSize p = Ok (peer_val p).
Proof using HC.
  intros Hp. unfold peer_arg.
  assert (match type p with
    | PEER_ALL | PEER_ANY_TRUSTED => Ok []
    | _ => match keyInfo p with
           | None => Fail ER_INVALID_DATA
           | Some k => let! a := KeyInfoNISTP256PubKeyToMsgArg GetCoordinateSize k in Ok [a]
           end
    end = Ok (peer_keys p)) as ->.
  { unfold wf_peer, peer_keys in *. destruct (type p); try done; destruct Hp as ((k & -> & Hk) & _); by rewrite KeyInfo_arg_val. }
  cbn [rbind]. fold (peer_group p). destruct (peer_keys_typed p Hp) as [Hk Hkf], (peer_group_ok p Hp) as [Hg Hgf].
  destruct (fmt_bytes_ptr (peer_group p) Hgf) as (outs & Hf).
  assert (exists outs, fmt peer_t [V_INT (peer_type_val (type p)); V_SIZE (zlen (peer_keys p)); args_ptr (peer_keys p); V_SIZE (zlen (peer_group p)); bytes_ptr (peer_group p)]
    outs (A_STRUCT [A_BYTE (peer_type_val (type p)); array_val key_t (peer_keys p); given_bytes (peer_group p)])) as (outs' & Hs).
  { eexists. apply fmt_struct; [done|]. first_member ltac:(apply fmt_byte, peer_type_byte).
    first_member ltac:(apply fmt_args_ptr; [apply key_elem|done|done]). first_member ltac:(exact Hf). no_members. }
  rewrite (set_ok_fmt (lit "(ya(yyayayay)ay)") peer_t _ _ _ eq_refl Hs) by (vm_compute; discriminate). cbn [rbind].
  pose proof (stable_all _ _ _ (typed_array_val key_t (peer_keys p) false key_elem Hk) eq_refl) as Hc.
  cbn [Stabilize] in *. rewrite Hc. cbn [rbind]. unfold peer_val. by destruct (peer_group p).
Qed.

Lemma fmt_peer p : wf_peer p -> fmt peer_t
  [V_INT (peer_type_val (type p)); V_SIZE (zlen (peer_keys p)); args_ptr (peer_keys p); V_SIZE (zlen (peer_group p)); V_BYTES (peer_group p)]
  [V_BYTE (peer_type_val (type p)); V_SIZE (zlen (peer_keys p)); V_ARGS (peer_keys p); V_SIZE (zlen (peer_group p)); V_BYTES (peer_group p)] (peer_val p).
Proof using.
  intros Hp. destruct (peer_keys_typed p Hp) as [Hk Hkf], (peer_group_ok p Hp) as [Hg Hgf].
  apply fmt_struct; [done|]. first_member ltac:(apply fmt_byte, peer_type_byte).
  first_member ltac:(apply fmt_args_ptr; [apply key_elem|done|done]). first_member ltac:(by apply fmt_bytes_val). no_members.
Qed.

Lemma peer_of_val p : wf_peer p -> peer_of ImportCoordinates (peer_val p) = Ok p.
Proof using HI.
  intros Hp. unfold peer_of. rewrite (get_ok_fmt (lit "(ya(yyayayay)ay)") peer_t _ _ _ 5 eq_refl (fmt_peer p Hp)) by (done || vm_compute; discriminate).
  cbn [rbind]. destruct p as [t g k]. unfold wf_peer, peer_keys, peer_group in *. cbn [type securityGroupId keyInfo] in *.
  destruct t; cbn [peer_type_of peer_type_val]; try (by destruct Hp as [-> ->]);
    destruct Hp as ((k' & -> & Hk) & Hg); cbn [length Z.of_nat Z.eqb]; cbn -[GUID.SIZE MsgArgToKeyInfoNISTP256PubKey key_val].
  - rewrite KeyInfo_of_val by done. cbn [rbind]. by rewrite Hg.
  - rewrite KeyInfo_of_val by done. cbn [rbind]. by rewrite Hg.
  - destruct Hg as (bs & -> & Hb & Hl). cbn [GUID.guid GUID.new_guid]. rewrite Hl. change (negb (16 =? GUID.SIZE)) with false. cbv iota.
    rewrite KeyInfo_of_val by done. cbn [rbind]. change GUID.SIZE with 16.
    pose proof (prefix_all bs) as Pb. rewrite Hl in Pb. rewrite Pb. cbn [rbind].
    unfold GUID.SetBytes. change GUID.SIZE with 16. by rewrite take_ge by lia.
Qed.

Lemma peer_elem : elem_type peer_t.
Proof. elem_type. Qed.

(** ** Access control lists and policies *)

Lemma fmt_acl a : wf_acl a ->
  fmt acl_t [V_SIZE (zlen (peers a)); args_ptr (peer_val <$> peers a); V_SIZE (zlen (rules a)); args_ptr (rule_val <$> rules a)]
    [V_SIZE (zlen (peers a)); V_ARGS (peer_val <$> peers a); V_SIZE (zlen (rules a)); V_ARGS (rule_val <$> rules a)] (acl_val a).
Proof using.
  intros (Hpf & Hrf & Hp & Hr). apply fmt_struct; [done|].
  first_member ltac:(apply (fmt_vals _ _ wf_peer); [apply peer_elem|apply typed_peer|done|done]).
  first_member ltac:(apply (fmt_vals _ _ wf_rule); [apply rule_elem|apply typed_rule|done|done]). no_members.
Qed.

Lemma typed_acl a : wf_acl a -> typed true (acl_val a) acl_t.
Proof using.
  intros (Hpf & Hrf & Hp & Hr). apply typed_members; [done|].
  split; [apply (typed_vals _ _ wf_peer); [apply peer_elem|apply typed_peer|done]|].
  split; [apply (typed_vals _ _ wf_rule); [apply rule_elem|apply typed_rule|done]|done].
Qed.

Lemma acl_arg_val a : wf_acl a -> acl_arg GetCoordinateSize a = Ok (acl_val a).
Proof using HC.
  intros Ha. unfold acl_arg, GeneratePeerArgs, GenerateRuleArgs.
  rewrite (each_Ok _ peer_val wf_peer) by (apply peer_arg_val || apply Ha). cbn [rbind].
  rewrite (each_Ok _ rule_val wf_rule) by (apply rule_arg_val || apply Ha). cbn [rbind].
  by rewrite (set_ok_fmt (lit "(a(ya(yyayayay)ay)a(ssa(syy)))") acl_t _ _ _ eq_refl (fmt_acl a Ha)) by (vm_compute; discriminate).
Qed.

Lemma acl_of_val a : wf_acl a -> acl_of ImportCoordinates (acl_val a) = Ok a.
Proof using HI.
  intros Ha. unfold acl_of.
  rewrite (get_ok_fmt (lit "(a(ya(yyayayay)ay)a(ssa(syy)))") acl_t _ _ _ 4 eq_refl (fmt_acl a Ha)) by (done || vm_compute; discriminate).
  cbn [rbind]. unfold BuildPeersFromArg, BuildRulesFromArgArray.
  rewrite (each_back _ _ wf_peer) by (apply peer_of_val || apply Ha). cbn [rbind].
  rewrite (each_back _ _ wf_rule) by (apply rule_of_val || apply Ha). by destruct a.
Qed.

Lemma acl_elem : elem_type acl_t.
Proof. elem_type. Qed.

Lemma fmt_policy p : wf_policy p ->
  fmt policy_t [V_INT (specificationVersion p); V_INT (version p); V_SIZE (zlen (acls p)); args_ptr (acl_val <$> acls p)]
    [V_16 (specificationVersion p); V_INT (version p); V_SIZE (zlen (acls p)); V_ARGS (acl_val <$> acls p)] (policy_val p).
Proof using.
  intros (Hs & Hv & Hf & Ha). apply fmt_struct; [done|].
  first_member ltac:(by apply (fmt_16 TY_UINT16)). first_member ltac:(by apply (fmt_32 TY_UINT32)).
  first_member ltac:(apply (fmt_vals _ _ wf_acl); [apply acl_elem|apply typed_acl|done|done]). no_members.
Qed.

Lemma Export_val p : wf_policy p -> Export GetCoordinateSize p = Ok (policy_val p).
Proof using HC.
  intros Hp. unfold Export. rewrite (each_Ok _ acl_val wf_acl) by (apply acl_arg_val || apply Hp). cbn [rbind].
  by rewrite (set_ok_fmt (lit "(qua(a(ya(yyayayay)ay)a(ssa(syy))))") policy_t _ _ _ eq_refl (fmt_policy p Hp)) by (vm_compute; discriminate).
Qed.

Lemma typed_policy p : wf_policy p -> typed false (policy_val p) policy_t.
Proof using.
  intros (Hs & Hv & Hf & Ha). apply typed_members; [done|]. split; [done|]. split; [done|].
  split; [apply (typed_vals _ _ wf_acl); [apply acl_elem|apply typed_acl|done]|done].
Qed.

(** What an object that imports the argument becomes: its own version is compared with
    the expected one, and its lists stay when the argument has none. *)
Definition imported (p0 : Policy) (expectedVersion : Z) (p : Policy) : QStatus * Policy :=
  if specificationVersion p0 =? expectedVersion then
    (ER_OK, {| specificationVersion := specificationVersion p; version := version p;
               acls := match acls p with [] => acls p0 | l => l end |})
  else (ER_INVALID_DATA, p0).

Lemma Import_val p p0 expectedVersion : wf_policy p ->
  Import_ ImportCoordinates p0 expectedVersion (policy_val p) = Ok (imported p0 expectedVersion p).
Proof using HI.
  intros Hp. unfold Import_, imported. change (lit "(qua(a(ya(yyayayay)ay)a(ssa(syy))))") with (print policy_t).
  pose proof (Get_fmt _ _ _ _ (fmt_policy p Hp)) as Hg. cbn [length] in Hg. rewrite Hg by (vm_compute; discriminate).
  cbn [rbind]. rewrite decide_True by done. destruct (specificationVersion p0 =? expectedVersion); [|done]. cbn [negb].
  destruct Hp as (_ & _ & _ & Ha). destruct (acls p) as [|a l] eqn:E; [done|]. cbn [fmap list_fmap].
  unfold BuildAclsFromArg. change (acl_val a :: (acl_val <$> l)) with (acl_val <$> a :: l).
  by rewrite (each_back _ _ wf_acl) by (apply acl_of_val || done).
Qed.

(** C10: Every well-formed policy is exported to a well-typed argument. A policy object
    that has itself the version the caller of Import expects, whatever version the
    argument says, imports from it specification version, version and, where there are
    any, the lists with their peers, keys and groups, rules and members; where the policy
    has no lists the object keeps its own. An object of another version than the expected
    one refuses and is not changed. *)
Theorem Policy_roundtrip (p p0 : Policy) (expectedVersion : Z) :
  wf_policy p ->
  exists a, Export GetCoordinateSize p = Ok a /\ typed false a policy_t /\
    Import_ ImportCoordinates p0 expectedVersion a =
    Ok (if specificationVersion p0 =? expectedVersion then
          (ER_OK, {| specificationVersion := specificationVersion p; version := version p;
                     acls := match acls p with [] => acls p0 | l => l end |})
        else (ER_INVALID_DATA, p0)).
Proof using HC HI.
  intros Hp. exists (policy_val p). split_and!; [by apply Export_val|by apply typed_policy|by apply Import_val].
Qed.

(** Import of a policy without access control lists keeps the lists the object
    had before. *)
Theorem Import_keeps_acls (p p0 : Policy) :
  wf_policy p -> acls p = [] ->
  exists a, Export GetCoordinateSize p = Ok a /\
    Import_ ImportCoordinates p0 (specificationVersion p0) a =
    Ok (ER_OK, {| specificationVersion := specificationVersion p; version := version p; acls := acls p0 |}).
Proof using HC HI.
  intros Hp Hn. exists (policy_val p). split; [by apply Export_val|]. rewrite Import_val by done. unfold imported. by rewrite Z.eqb_refl, Hn.
Qed.
End peers.

(** A policy with a list for everybody and one for a group. *)
Definition sample_rule : Rule :=
  {| objPath := lit "*"; interfaceName := lit "org.allseenalliance.control.TV";
     members := [{| memberName := lit "Up"; memberType := METHOD_CALL; actionMask := 4 |}; {| memberName := lit "*"; memberType := NOT_SPECIFIED; actionMask := 0 |}] |}.
Definition sample_key : KeyInfoNISTP256 := {| keyId := []; publicKey := {| x := replicate 32 1; y := replicate 32 2 |} |}.
Definition sample_policy : Policy :=
  {| specificationVersion := 1; version := 7; acls :=
     [{| peers := [{| type := PEER_ALL; securityGroupId := GUID.GUID_fill 0; keyInfo := None |}]; rules := [] |};
      {| peers := [{| type := PEER_WITH_MEMBERSHIP; securityGroupId := GUID.new_guid (replicate 16 5); keyInfo := Some sample_key |}]; rules := [sample_rule] |}] |}.

#[local] Instance is_byte_dec b : Decision (is_byte b).
Proof. unfold is_byte. apply _. Defined.

Ltac bytes := apply (bool_decide_unpack _); vm_compute; exact I.

Lemma sample_policy_wf : wf_policy sample_policy.
Proof.
  split; [by split|]. split; [by split|]. split; [by vm_compute|].
  assert (wf_key sample_key) as Hk by (split_and!; try split; try bytes; by vm_compute).
  assert (forall s, bool_decide (Forall (fun c => c <> 0) s /\ Forall is_byte s) = true -> zlen s <= 1000 -> wf_text s) as Ht.
  { intros s [Hs Hb]%bool_decide_eq_true Hl. split_and!; try done. unfold ALLJOYN_MAX_PACKET_LEN, ALLJOYN_MAX_ARRAY_LEN in *. lia. }
  repeat constructor; try (by vm_compute); try (apply Ht; by vm_compute); eauto.
  exists (replicate 16 5). split_and!; [done|bytes|done].
Qed.

Lemma Policy_roundtrip_witness :
  exists a, Export 32 sample_policy = Ok a /\ typed false a policy_t /\
    Import_ Build_ECCPublicKey new_Policy 1 a = Ok (ER_OK, sample_policy).
Proof.
  apply (Policy_roundtrip 32 Build_ECCPublicKey eq_refl (fun _ _ _ _ => eq_refl) sample_policy new_Policy 1 sample_policy_wf).
Defined.

(** The same policy without lists, given to an object that had some. *)
Lemma Import_keeps_acls_witness :
  exists a, Export 32 new_Policy = Ok a /\
    Import_ Build_ECCPublicKey sample_policy 1 a = Ok (ER_OK, {| specificationVersion := 1; version := 0; acls := acls sample_policy |}).
Proof.
  refine (Import_keeps_acls 32 Build_ECCPublicKey eq_refl (fun _ _ _ _ => eq_refl) new_Policy sample_policy _ eq_refl).
  split; [by split|]. split; [by split|]. split; [by vm_compute|constructor].
Defined.
