(* ===== verification/PermissionManager.v ===== *)
(** Model of alljoyn_core/src/PermissionManager.cc: whether a message may be sent or
    handed to the application under the local policy.

    PermissionMgmtObj and PeerState answer from the key store and the authentication
    of the peer; what they answer is data here. A [const char*] is NULL, a text, or
    not initialised: using the last, or NULL where a text is needed, is undefined. *)
From stdpp Require Import strings.
From S2P Require Import Prelude Types SignatureUtils SigMachine SigGrammar SigBuild Marshal Unmarshal BusUtil IPAddress StringUtil GUID Header MsgArgFormat PermissionPolicy.
Import MsgArgFormat PermissionPolicy.

Module PermissionManager.

(** * What the manager asks *)

Inductive Ptr := P_NULL | P_STR (s : list Z) | P_UNINIT.

Record Message := {
  GetType : Z;
  GetObjectPath : list Z;
  GetInterface : list Z;
  GetMemberName : list Z;
  msgArgs : list MsgArg;                   (* of a received message *)
  refMsgArgs : list MsgArg                 (* of a message to be sent *)
}.

Record Request := {
  outgoing : bool;
  propertyRequest : bool;
  isSetProperty : bool;
  r_objPath : list Z;
  iName : Ptr;
  mbrName : Ptr;
  mbrType : MemberType
}.

(** A certificate of a membership chain, as far as it is looked at. *)
Record Certificate := { isMembership : bool; GetGuild : GUID.GUID128 }.

Record PeerState := {
  IsLocalPeer : bool;
  GetGuid : GUID.GUID128;
  manifest : list Rule;                    (* NULL or none: empty *)
  guildMap : list (list Certificate)       (* the certificate chains *)
}.

Record AuthMetadata := {
  am_status : QStatus;
  authMechanism : list Z;
  publicKeyFound : bool;
  am_publicKey : ECCPublicKey;
  issuerPublicKeys : list ECCPublicKey
}.

Record PermissionMgmtObj := {
  HasTrustAnchors : bool;
  GetPublicKey : option KeyInfoNISTP256;   (* [None]: a status other than ER_OK *)
  GetConnectedPeerAuthMetadata : GUID.GUID128 -> AuthMetadata
}.

Record Manager := { policy : option Policy; permissionMgmtObj : option PermissionMgmtObj }.

(** * Requests *)

Definition Request_of_message (msg : Message) (out : bool) : Request :=
  {| outgoing := out; propertyRequest := false; isSetProperty := false; r_objPath := GetObjectPath msg;
     iName := P_NULL; mbrName := P_NULL;
     mbrType := if GetType msg =? MESSAGE_METHOD_CALL then METHOD_CALL
                else if GetType msg =? MESSAGE_SIGNAL then SIGNAL else NOT_SPECIFIED |}.

Definition Request_of_names (objPath : list Z) (i m : Ptr) (t : MemberType) (out isProperty : bool) : Request :=
  {| outgoing := out; propertyRequest := isProperty; isSetProperty := false; r_objPath := objPath; iName := i; mbrName := m; mbrType := t |}.

Definition MatchesPrefix (str prefix : list Z) : bool := negb (WildcardMatch str prefix).

Definition IsActionDenied (allowedActions : Z) : bool := allowedActions =? 0.
Definition IsActionAllowed (allowedActions requestedAction : Z) : bool := Z.land allowedActions requestedAction =? requestedAction.

Definition the_star : list Z := [42].

(** * Rules *)

Section rule.
Variables (requiredAuth : Z) (scanForDenied : bool).

(** The loop for a request without a member name, GetAllProperties: whether it is
    allowed, and whether it is denied. *)
Fixpoint get_all_loop (strictGetAllProperties : bool) (ms : list Member) (allowed : bool) : bool * bool :=
  match ms with
  | [] => (allowed, false)
  | m :: ms =>
      let next allowed := if allowed && negb scanForDenied then (allowed, false) else get_all_loop strictGetAllProperties ms allowed in
      if bool_decide (memberName m = []) then get_all_loop strictGetAllProperties ms allowed
      else if bool_decide (memberName m = the_star) then
        if scanForDenied && IsActionDenied (actionMask m) then (false, true)
        else if negb (bool_decide (memberType m = PROPERTY)) && negb (bool_decide (memberType m = NOT_SPECIFIED)) then
          get_all_loop strictGetAllProperties ms allowed
        else next (if negb allowed then IsActionAllowed (actionMask m) requiredAuth else allowed)
      else next (if negb strictGetAllProperties then true else allowed)
  end.

(** The loop for a request with a member name. *)
Fixpoint member_loop (name : list Z) (t : MemberType) (ms : list Member) (allowed : bool) : bool * bool :=
  match ms with
  | [] => (allowed, false)
  | m :: ms =>
      if bool_decide (memberName m = []) then member_loop name t ms allowed
      else if negb (bool_decide (memberName m = name) || MatchesPrefix name (memberName m)) then member_loop name t ms allowed
      else if negb (bool_decide (memberType m = NOT_SPECIFIED)) && negb (bool_decide (t = memberType m)) then member_loop name t ms allowed
      else if scanForDenied && bool_decide (memberName m = the_star) && IsActionDenied (actionMask m) then (false, true)
      else
        let allowed := if negb allowed then IsActionAllowed (actionMask m) requiredAuth else allowed in
        if allowed && negb scanForDenied then (allowed, false) else member_loop name t ms allowed
  end.
End rule.

(** Whether the rule matches, and [denied] afterwards. *)
Definition IsRuleMatched (rule : Rule) (request : Request) (requiredAuth : Z) (scanForDenied denied strictGetAllProperties : bool) : res (bool * bool) :=
  if zlen (members rule) =? 0 then Ok (false, denied)
  else if bool_decide (objPath rule = []) then Ok (false, denied)
  else if bool_decide (interfaceName rule = []) then Ok (false, denied)
  else if negb (bool_decide (objPath rule = r_objPath request) || MatchesPrefix (r_objPath request) (objPath rule)) then Ok (false, denied)
  else
    match iName request with
    | P_STR i =>
        if negb (bool_decide (interfaceName rule = i) || MatchesPrefix i (interfaceName rule)) then Ok (false, denied)
        else
          let scanForDenied := scanForDenied && bool_decide (objPath rule = the_star) && bool_decide (interfaceName rule = the_star) in
          let answer (r : bool * bool) := Ok (r.1, denied || r.2) in
          match mbrName request with
          | P_UNINIT => Undef
          | P_STR ((_ :: _) as name) => answer (member_loop requiredAuth scanForDenied name (mbrType request) (members rule) false)
          | _ => if propertyRequest request
                 then answer (get_all_loop requiredAuth scanForDenied strictGetAllProperties (members rule) false)
                 else Ok (false, denied)
          end
    | _ => Undef
    end.

(** The loop over the rules of an access control list. *)
Fixpoint rules_loop (rs : list Rule) (request : Request) (requiredAuth : Z) (scanForDenied denied allowed : bool) : res (bool * bool) :=
  match rs with
  | [] => Ok (allowed, denied)
  | r :: rs =>
      let! (matched, denied) := IsRuleMatched r request requiredAuth scanForDenied denied (outgoing request) in
      if matched : bool then rules_loop rs request requiredAuth scanForDenied denied true
      else if denied : bool then Ok (allowed, denied)
      else rules_loop rs request requiredAuth scanForDenied denied allowed
  end.

Definition IsPolicyAclMatched (acl : Acl) (request : Request) (requiredAuth : Z) (scanForDenied denied : bool) : res (bool * bool) :=
  rules_loop (rules acl) request requiredAuth scanForDenied denied false.

(** The right a request needs; 0 when there is none. *)
Definition GenRight (request : Request) : Z :=
  if propertyRequest request then
    if bool_decide (mbrType request = SIGNAL) then if outgoing request then ACTION_OBSERVE else ACTION_PROVIDE
    else if isSetProperty request then if outgoing request then ACTION_PROVIDE else ACTION_MODIFY
    else if outgoing request then ACTION_PROVIDE else ACTION_OBSERVE
  else match mbrType request with
       | METHOD_CALL => if outgoing request then ACTION_PROVIDE else ACTION_MODIFY
       | SIGNAL => if outgoing request then ACTION_OBSERVE else ACTION_PROVIDE
       | _ => 0
       end.

Fixpoint manifest_loop (rs : list Rule) (request : Request) (right : Z) : res bool :=
  match rs with
  | [] => Ok false
  | r :: rs =>
      let! (matched, denied) := IsRuleMatched r request right false false (outgoing request) in
      if matched : bool then Ok true else if denied : bool then Ok false else manifest_loop rs request right
  end.

Definition IsAuthorizedByPeerManifest (request : Request) (right : Z) (peerState : PeerState) : res bool :=
  manifest_loop (manifest peerState) request right.

(** * Peers *)

Definition in_group (g : GUID.GUID128) (chains : list (list Certificate)) : bool :=
  existsb (fun chain => match chain with c :: _ => isMembership c && GUID.GUID_eq g (GetGuild c) | [] => false end) chains.

(** Whether one of the peers of a list is this peer, and whether it was found by its
    public key. *)
Fixpoint qualified_loop (ps : list Peer) (peerState : PeerState) (trustedPeer : bool) (peerPublicKey : option ECCPublicKey) (issuerChain : list ECCPublicKey) : bool * bool :=
  match ps with
  | [] => (false, false)
  | p :: ps =>
      let next := qualified_loop ps peerState trustedPeer peerPublicKey issuerChain in
      if bool_decide (type p = PEER_ALL) then (true, false)
      else if negb trustedPeer then next
      else if bool_decide (type p = PEER_ANY_TRUSTED) then (true, false)
      else
        match peerPublicKey with
        | None => next
        | Some key =>
            match type p, keyInfo p with
            | PEER_WITH_PUBLIC_KEY, Some k => if key_eq (publicKey k) key then (true, true) else next
            | PEER_FROM_CERTIFICATE_AUTHORITY, Some k => if existsb (key_eq (publicKey k)) issuerChain then (true, false) else next
            | PEER_WITH_MEMBERSHIP, _ => if in_group (securityGroupId p) (guildMap peerState) then (true, false) else next
            | _, _ => next
            end
        end
  end.

Definition IsPeerQualifiedForAcl (acl : Acl) := qualified_loop (peers acl).

(** The loop over the access control lists: allowed and denied. *)
Fixpoint acls_loop (l : list Acl) (request : Request) (peerState : PeerState) (trustedPeer : bool) (peerPublicKey : option ECCPublicKey) (issuerChain : list ECCPublicKey)
    (requiredAuth : Z) (allowed : bool) : res (bool * bool) :=
  match l with
  | [] => Ok (allowed, false)
  | acl :: l =>
      let (qualified, withKey) := IsPeerQualifiedForAcl acl peerState trustedPeer peerPublicKey issuerChain in
      if negb qualified then acls_loop l request peerState trustedPeer peerPublicKey issuerChain requiredAuth allowed
      else
        let! (matched, denied) := IsPolicyAclMatched acl request requiredAuth withKey false in
        let allowed := if matched : bool then true else allowed in
        if denied : bool then Ok (allowed, true)
        else acls_loop l request peerState trustedPeer peerPublicKey issuerChain requiredAuth allowed
  end.

Definition IsPeerAuthorized (request : Request) (p : Policy) (peerState : PeerState) (trustedPeer : bool) (peerPublicKey : option ECCPublicKey)
    (issuerChain : list ECCPublicKey) (requiredAuth : Z) : res (bool * bool) :=
  acls_loop (acls p) request peerState trustedPeer peerPublicKey issuerChain requiredAuth false.

(** What is known about the peer: trusted, its key, the keys of its issuers, and
    whether its manifest must allow the request, too. *)
Record Trust := { t_trusted : bool; t_key : option ECCPublicKey; t_issuers : list ECCPublicKey; t_enforceManifest : bool }.

Definition peer_trust (peerState : PeerState) (mgmt : PermissionMgmtObj) (authenticated : bool) : Trust :=
  if authenticated then
    if IsLocalPeer peerState then
      match GetPublicKey mgmt with
      | Some k => {| t_trusted := true; t_key := Some (publicKey k); t_issuers := []; t_enforceManifest := false |}
      | None => {| t_trusted := false; t_key := None; t_issuers := []; t_enforceManifest := true |}
      end
    else
      let m := GetConnectedPeerAuthMetadata mgmt (GetGuid peerState) in
      match am_status m with
      | ER_OK =>
          if publicKeyFound m then {| t_trusted := true; t_key := Some (am_publicKey m); t_issuers := issuerPublicKeys m; t_enforceManifest := true |}
          else if bool_decide (authMechanism m = lit "ALLJOYN_ECDHE_PSK") || bool_decide (authMechanism m = lit "ALLJOYN_SRP_KEYX")
                  || bool_decide (authMechanism m = lit "ALLJOYN_SRP_LOGON")
          then {| t_trusted := true; t_key := None; t_issuers := issuerPublicKeys m; t_enforceManifest := false |}
          else {| t_trusted := false; t_key := None; t_issuers := issuerPublicKeys m; t_enforceManifest := false |}
      | ER_BUS_KEY_UNAVAILABLE => {| t_trusted := false; t_key := None; t_issuers := issuerPublicKeys m; t_enforceManifest := false |}
      | _ => {| t_trusted := false; t_key := None; t_issuers := issuerPublicKeys m; t_enforceManifest := true |}
      end
  else {| t_trusted := false; t_key := None; t_issuers := []; t_enforceManifest := true |}.

Definition IsAuthorized (request : Request) (p : option Policy) (peerState : PeerState) (mgmt : PermissionMgmtObj) (authenticated : bool) : res bool :=
  let right := GenRight request in
  if right =? 0 then Ok false
  else
    match p with
    | None => Ok false
    | Some p =>
        let t := peer_trust peerState mgmt authenticated in
        let! (authorized, denied) := IsPeerAuthorized request p peerState (t_trusted t) (t_key t) (t_issuers t) right in
        if denied || negb authorized then Ok false
        else if t_enforceManifest t then IsAuthorizedByPeerManifest request right peerState
        else Ok true
    end.

(** * Interfaces that are treated apart *)

Definition std_interfaces : list (list Z) :=
  [lit "org.alljoyn.Bus"; lit "org.alljoyn.Daemon"; lit "org.alljoyn.Debug"; lit "org.alljoyn.Bus.Peer.Authentication";
   lit "org.alljoyn.Bus.Peer.Session"; lit "org.allseen.Introspectable"; lit "org.alljoyn.Bus.Peer.HeaderCompression";
   lit "org.freedesktop.DBus"; lit "org.freedesktop.DBus.Peer"; lit "org.freedesktop.DBus.Introspectable"].
Definition IsStdInterface (i : list Z) : bool := existsb (fun s => bool_decide (i = s)) std_interfaces.

Definition IsPropertyInterface (i : list Z) : bool := bool_decide (i = lit "org.freedesktop.DBus.Properties").

Definition SecurityApplication : list Z := lit "org.alljoyn.Bus.Security.Application".
Definition ClaimableApplication : list Z := lit "org.alljoyn.Bus.Security.ClaimableApplication".
Definition ManagedApplication : list Z := lit "org.alljoyn.Bus.Security.ManagedApplication".
Definition IsPermissionMgmtInterface (i : list Z) : bool :=
  bool_decide (i = SecurityApplication) || bool_decide (i = ClaimableApplication) || bool_decide (i = ManagedApplication).

(** [strncmp(s, p, strlen(p)) == 0] *)
Definition starts_with (s p : list Z) : bool := bool_decide (take (length p) s = p).

(** The [const char*] that Get stored. *)
Definition ptr_of (v : Va) : res Ptr :=
  match v with V_STR m => let! s := c_str m in Ok (P_STR s) | V_NULL => Ok P_NULL | _ => Undef end.

(** The first value of a Get that stores one text. *)
Definition text_out (r : res (QStatus * list Va)) : res (QStatus * Ptr) :=
  let! (status, out) := r in
  if decide (status = ER_OK) then match out with [v] => let! p := ptr_of v in Ok (ER_OK, p) | _ => Undef end
  else Ok (status, P_NULL).

(** [propName] is only assigned in two of the three branches. *)
Definition ParsePropertiesMessage (request : Request) (msg : Message) : res (QStatus * Request) :=
  let name := GetMemberName msg in
  let set t isSet i m :=
    {| outgoing := outgoing request; propertyRequest := true; isSetProperty := isSet; r_objPath := r_objPath request; iName := i; mbrName := m; mbrType := t |} in
  if starts_with name (lit "GetAll") then
    let! (status, i) :=
      if outgoing request then match refMsgArgs msg with [] => Ok (ER_INVALID_DATA, P_NULL) | a :: _ => text_out (Get a (lit "s") [true]) end
      else text_out (let! (status, out, _, _) := VParseArgs (lit "s") 1 (msgArgs msg) [true] in Ok (status, out)) in
    Ok (status, if decide (status = ER_OK) then set PROPERTY (isSetProperty request) i P_NULL else request)
  else if starts_with name (lit "Get") || starts_with name (lit "Set") then
    match (if outgoing request then refMsgArgs msg else msgArgs msg) with
    | a :: b :: _ =>
        let! (status, i) := text_out (Get a (lit "s") [true]) in
        if decide (status = ER_OK) then
          let! (status, m) := text_out (Get b (lit "s") [true]) in
          Ok (status, if decide (status = ER_OK) then set PROPERTY (starts_with name (lit "Set")) i m else request)
        else Ok (status, request)
    | _ => Ok (ER_INVALID_DATA, request)
    end
  else if starts_with name (lit "PropertiesChanged") then
    match msgArgs msg with
    | a :: _ =>
        let! (status, i) := text_out (Get a (lit "s") [true]) in
        Ok (status, if decide (status = ER_OK) then set SIGNAL (isSetProperty request) i P_UNINIT else request)
    | [] => Undef
    end
  else Ok (ER_FAIL, request).

(** Whether the request was handled, and whether it is authorized. *)
Definition AuthorizePermissionMgmt (mgmt : PermissionMgmtObj) (out : bool) (i : list Z) (m : Ptr) : res (bool * bool) :=
  if out then Ok (true, true)
  else
    match m with
    | P_UNINIT => Undef
    | P_NULL => Ok (false, false)
    | P_STR m =>
        if bool_decide (i = ClaimableApplication) then
          if starts_with m (lit "Version") then Ok (true, true)
          else if starts_with m (lit "Claim") then Ok (true, negb (HasTrustAnchors mgmt))
          else Ok (false, false)
        else if bool_decide (i = ManagedApplication) then
          if negb (HasTrustAnchors mgmt) then Ok (true, false)
          else if starts_with m (lit "Version") then Ok (true, true)
          else Ok (false, false)
        else if bool_decide (i = SecurityApplication) then
          if starts_with m (lit "Version") || starts_with m (lit "ApplicationState") then Ok (true, true)
          else if negb (HasTrustAnchors mgmt) &&
            (starts_with m (lit "ManifestTemplateDigest") || starts_with m (lit "EccPublicKey") || starts_with m (lit "ManufacturerCertificate")
             || starts_with m (lit "ManifestTemplate") || starts_with m (lit "ClaimCapabilities") || starts_with m (lit "ClaimCapabilityAdditionalInfo"))
          then Ok (true, true)
          else Ok (false, false)
        else Ok (false, false)
    end.

(** * The decisions *)

(** Behind the special interfaces: permission management, then the policy. *)
Definition authorize_request (mgr : Manager) (request : Request) (peerState : PeerState) (authenticated : bool) : res QStatus :=
  match permissionMgmtObj mgr with
  | None => Ok ER_PERMISSION_DENIED
  | Some mgmt =>
      match iName request with
      | P_STR i =>
          let isPermissionMgmt := IsPermissionMgmtInterface i in
          let! (handled, allowed) := if isPermissionMgmt then AuthorizePermissionMgmt mgmt (outgoing request) i (mbrName request) else Ok (false, false) in
          if handled : bool then Ok (if allowed : bool then ER_OK else ER_PERMISSION_DENIED)
          else if negb (HasTrustAnchors mgmt) then
            Ok (if isPermissionMgmt && bool_decide (mbrType request = METHOD_CALL) then ER_PERMISSION_DENIED else ER_OK)
          else
            let! authorized := IsAuthorized request (policy mgr) peerState mgmt authenticated in
            Ok (if authorized : bool then ER_OK else ER_PERMISSION_DENIED)
      | _ => Undef
      end
  end.

Definition AuthorizeMessage (mgr : Manager) (out : bool) (msg : Message) (peerState : PeerState) (authenticated : bool) : res QStatus :=
  if negb (GetType msg =? MESSAGE_METHOD_CALL) && negb (GetType msg =? MESSAGE_SIGNAL) then Ok ER_OK
  else if IsStdInterface (GetInterface msg) then Ok ER_OK
  else
    let request := Request_of_message msg out in
    let! (status, request) :=
      if IsPropertyInterface (GetInterface msg) then ParsePropertiesMessage request msg
      else Ok (ER_OK, {| outgoing := out; propertyRequest := false; isSetProperty := false; r_objPath := r_objPath request;
                         iName := P_STR (GetInterface msg); mbrName := P_STR (GetMemberName msg); mbrType := mbrType request |}) in
    if decide (status = ER_OK) then authorize_request mgr request peerState authenticated else Ok status.

Definition AuthorizeGetProperty (mgr : Manager) (objPath ifcName : list Z) (propName : Ptr) (peerState : PeerState) : res QStatus :=
  match permissionMgmtObj mgr with
  | None => Ok ER_PERMISSION_DENIED
  | Some mgmt =>
      if negb (HasTrustAnchors mgmt) then Ok ER_OK
      else
        let! authorized := IsAuthorized (Request_of_names objPath (P_STR ifcName) propName PROPERTY false true) (policy mgr) peerState mgmt true in
        Ok (if authorized : bool then ER_OK else ER_PERMISSION_DENIED)
  end.

End PermissionManager.
