(* ===== verification/PermissionManagerProofs.v ===== *)
(** The loops of PermissionManager.cc decide what the comments above them say: a peer
    is authorized if a rule of a list it qualifies for allows the request, no rule of a
    list it qualifies for by its public key denies it, and its manifest allows it where
    a manifest is asked for. *)
From stdpp Require Import strings.
From S2P Require Import Prelude Types SignatureUtils SigMachine SigGrammar SigBuild Marshal Unmarshal BusUtil IPAddress StringUtil GUID Header MsgArgFormat PermissionPolicy PermissionManager.
Import MsgArgFormat PermissionPolicy PermissionManager.

(** * The specification *)

(** A text matches a pattern by equality or as a wildcard. *)
Definition matches (pat s : list Z) : bool := bool_decide (pat = s) || MatchesPrefix s pat.

Definition rule_applies (request : Request) (i : list Z) (r : Rule) : bool :=
  negb (zlen (members r) =? 0) && negb (bool_decide (objPath r = [])) && negb (bool_decide (interfaceName r = []))
  && matches (objPath r) (r_objPath request) && matches (interfaceName r) i.

Definition any_property (m : Member) : bool := bool_decide (memberType m = PROPERTY) || bool_decide (memberType m = NOT_SPECIFIED).

(** The member name of a request; [None] when it asks for all properties. *)
Definition member_of_request (request : Request) : option (list Z) :=
  match mbrName request with P_STR ((_ :: _) as s) => Some s | _ => None end.

(** The member entry [m] speaks about the request. *)
Definition member_applies (request : Request) (m : Member) : bool :=
  negb (bool_decide (memberName m = [])) &&
  match member_of_request request with
  | Some name => matches (memberName m) name && (bool_decide (memberType m = NOT_SPECIFIED) || bool_decide (mbrType request = memberType m))
  | None => propertyRequest request
  end.

(** A request for all properties is allowed by an entry for every member, or, when it
    is received, by any named entry. *)
Definition member_allows (request : Request) (right : Z) (m : Member) : bool :=
  member_applies request m &&
  match member_of_request request with
  | Some _ => IsActionAllowed (actionMask m) right
  | None => if bool_decide (memberName m = the_star) then any_property m && IsActionAllowed (actionMask m) right else negb (outgoing request)
  end.

Definition member_denies (request : Request) (m : Member) : bool :=
  member_applies request m && bool_decide (memberName m = the_star) && IsActionDenied (actionMask m).

Definition rule_allows (request : Request) (i : list Z) (right : Z) (r : Rule) : bool :=
  rule_applies request i r && existsb (member_allows request right) (members r).

(** Only a rule for every object and every interface can deny. *)
Definition rule_denies (request : Request) (i : list Z) (r : Rule) : bool :=
  rule_applies request i r && bool_decide (objPath r = the_star) && bool_decide (interfaceName r = the_star)
  && existsb (member_denies request) (members r).

(** * Members *)

Section loops.
Variables (right : Z) (scan : bool).

(** A loop that collects an allow and stops at a deny, or, when no deny is looked for,
    at the first allow. *)
Fixpoint collect {A} (allows denies : A -> bool) (l : list A) (allowed : bool) : bool * bool :=
  match l with
  | [] => (allowed, false)
  | m :: l =>
      if scan && denies m then (false, true)
      else let allowed := allowed || allows m in
           if allowed && negb scan then (allowed, false) else collect allows denies l allowed
  end.

Lemma collect_spec {A} (allows denies : A -> bool) l : forall allowed,
  collect allows denies l allowed =
  if scan && existsb denies l then (false, true) else (allowed || existsb allows l, false).
Proof using.
  induction l as [|m l IH]; intros allowed; cbn [collect existsb]; [by rewrite andb_false_r, orb_false_r|].
  rewrite andb_orb_distrib_r. destruct (scan && denies m) eqn:Hd; cbn [orb]; [done|].
  destruct (allowed || allows m) eqn:Ha; cbn [andb].
  - destruct scan; cbn [negb andb] in *; [by rewrite IH, orb_assoc, Ha|]. by rewrite orb_assoc, Ha.
  - by rewrite IH, orb_assoc, Ha.
Qed.

(** At the head of the loops an allow was only found when denies are looked for. *)
Definition pending (allowed : bool) : Prop := scan = false -> allowed = false.

Lemma pending_next allowed : allowed && negb scan = false -> pending allowed.
Proof using. unfold pending. by destruct allowed, scan. Qed.

(** An entry that says nothing. *)
Lemma collect_skip {A} (allows denies : A -> bool) m l allowed : allows m = false -> denies m = false -> pending allowed ->
  collect allows denies (m :: l) allowed = collect allows denies l allowed.
Proof using.
  intros Ha Hd Hp. cbn [collect]. rewrite Ha, Hd, andb_false_r, orb_false_r.
  unfold pending in Hp. destruct scan; cbn [negb]; [by rewrite andb_false_r|]. by rewrite Hp.
Qed.

Lemma member_loop_collect request name ms : member_of_request request = Some name -> forall allowed, pending allowed ->
  member_loop right scan name (mbrType request) ms allowed =
  collect (member_allows request right) (member_denies request) ms allowed.
Proof using.
  intros Hn. induction ms as [|m ms IH]; intros allowed Hp; [done|].
  assert (forall applies, member_applies request m = applies ->
    member_allows request right m = applies && IsActionAllowed (actionMask m) right /\
    member_denies request m = applies && bool_decide (memberName m = the_star) && IsActionDenied (actionMask m)) as Hm.
  { intros ? <-. unfold member_allows, member_denies. by rewrite Hn. }
  unfold member_applies in Hm. rewrite Hn in Hm. cbn [member_loop]. fold (matches (memberName m) name).
  case_bool_decide; cbn [negb andb] in *.
  { destruct (Hm _ eq_refl). rewrite collect_skip by done. by apply IH. }
  destruct (matches (memberName m) name); cbn [negb andb] in *.
  2:{ destruct (Hm _ eq_refl). rewrite collect_skip by done. by apply IH. }
  destruct (bool_decide (memberType m = NOT_SPECIFIED) || bool_decide (mbrType request = memberType m)) eqn:Ht.
  - assert (negb (bool_decide (memberType m = NOT_SPECIFIED)) && negb (bool_decide (mbrType request = memberType m)) = false) as ->
      by (rewrite <- negb_orb, Ht; done).
    destruct (Hm _ eq_refl) as [Ha Hd]. cbn [collect]. rewrite Ha, Hd. cbn [andb]. rewrite andb_assoc.
    destruct (scan && bool_decide (memberName m = the_star) && IsActionDenied (actionMask m)); [done|].
    replace (if negb allowed then IsActionAllowed (actionMask m) right else allowed) with (allowed || IsActionAllowed (actionMask m) right) by by destruct allowed.
    destruct ((allowed || IsActionAllowed (actionMask m) right) && negb scan) eqn:E; [done|]. by apply IH, pending_next.
  - assert (negb (bool_decide (memberType m = NOT_SPECIFIED)) && negb (bool_decide (mbrType request = memberType m)) = true) as ->
      by (rewrite <- negb_orb, Ht; done).
    destruct (Hm _ eq_refl). rewrite collect_skip by done. by apply IH.
Qed.

Lemma get_all_loop_collect request ms : member_of_request request = None -> propertyRequest request = true -> forall allowed, pending allowed ->
  get_all_loop right scan (outgoing request) ms allowed =
  collect (member_allows request right) (member_denies request) ms allowed.
Proof using.
  intros Hn Hq. induction ms as [|m ms IH]; intros allowed Hp; [done|].
  assert (member_allows request right m = negb (bool_decide (memberName m = [])) &&
    (if bool_decide (memberName m = the_star) then any_property m && IsActionAllowed (actionMask m) right else negb (outgoing request))) as Ha.
  { unfold member_allows, member_applies. by rewrite Hn, Hq, andb_true_r. }
  assert (member_denies request m = negb (bool_decide (memberName m = [])) && bool_decide (memberName m = the_star) && IsActionDenied (actionMask m)) as Hd.
  { unfold member_denies, member_applies. by rewrite Hn, Hq, andb_true_r. }
  cbn [get_all_loop]. case_bool_decide; cbn [negb andb] in *; [rewrite collect_skip by done; by apply IH|].
  case_bool_decide; cbn [andb] in *.
  - destruct (scan && IsActionDenied (actionMask m)) eqn:E1; [cbn [collect]; by rewrite Hd, E1|].
    unfold any_property in Ha. rewrite <- negb_orb.
    destruct (bool_decide (memberType m = PROPERTY) || bool_decide (memberType m = NOT_SPECIFIED)); cbn [negb andb] in *.
    + cbn [collect]. rewrite Ha, Hd, E1.
      replace (if negb allowed then IsActionAllowed (actionMask m) right else allowed) with (allowed || IsActionAllowed (actionMask m) right) by by destruct allowed.
      destruct ((allowed || IsActionAllowed (actionMask m) right) && negb scan) eqn:E; [done|]. by apply IH, pending_next.
    + cbn [collect]. rewrite Ha, Hd, E1, orb_false_r.
      assert (allowed && negb scan = false) as -> by (unfold pending in Hp; destruct scan; [apply andb_false_r|by rewrite Hp]).
      by apply IH.
  - cbn [collect]. rewrite Ha, Hd, andb_false_r.
    replace (if negb (outgoing request) then true else allowed) with (allowed || negb (outgoing request)) by by destruct allowed, (outgoing request).
    destruct ((allowed || negb (outgoing request)) && negb scan) eqn:E; [done|]. by apply IH, pending_next.
Qed.
End loops.

(** * Rules *)

(** A request whose names can be read. *)
Definition readable (request : Request) (i : list Z) : Prop := iName request = P_STR i /\ mbrName request <> P_UNINIT.

Lemma existsb_none {A} (f : A -> bool) l : (forall a, f a = false) -> existsb f l = false.
Proof. intros Hf. induction l as [|a l IH]; [done|]. cbn [existsb]. by rewrite Hf. Qed.

Lemma IsRuleMatched_spec request i rule right scan denied : readable request i ->
  IsRuleMatched rule request right scan denied (outgoing request) =
  Ok (if scan && rule_denies request i rule then (false, true) else (rule_allows request i right rule, denied)).
Proof.
  intros [Hi Hm]. unfold IsRuleMatched, rule_allows, rule_denies, rule_applies. rewrite Hi.
  fold (matches (objPath rule) (r_objPath request)) (matches (interfaceName rule) i).
  destruct (zlen (members rule) =? 0); cbn [negb andb]; [by rewrite andb_false_r|].
  case_bool_decide; cbn [negb andb]; [by rewrite andb_false_r|].
  case_bool_decide; cbn [negb andb]; [by rewrite andb_false_r|].
  destruct (matches (objPath rule) _); cbn [negb andb]; [|by rewrite andb_false_r].
  destruct (matches (interfaceName rule) i); cbn [negb andb]; [|by rewrite andb_false_r].
  set (s := bool_decide (objPath rule = the_star)). set (s' := bool_decide (interfaceName rule = the_star)).
  assert (forall r, r = collect (scan && s && s') (member_allows request right) (member_denies request) (members rule) false ->
    Ok (E := QStatus) (r.1, denied || r.2) = Ok (if scan && (s && s' && existsb (member_denies request) (members rule))
      then (false, true) else (existsb (member_allows request right) (members rule), denied))) as Hr.
  { intros ? ->. rewrite collect_spec. rewrite !andb_assoc.
    destruct (scan && s && s' && existsb (member_denies request) (members rule)); cbn; [by rewrite orb_true_r|by rewrite orb_false_r]. }
  assert (pending (scan && s && s') false) as Hp by done.
  destruct (mbrName request) as [|[|c n]|] eqn:En; [| | |done].
  - assert (member_of_request request = None) as Hn by (unfold member_of_request; by rewrite En).
    destruct (propertyRequest request) eqn:Ep; [apply Hr; by rewrite get_all_loop_collect|].
    assert (forall m, member_applies request m = false) as Ha by (intros m; unfold member_applies; rewrite Hn, Ep; apply andb_false_r).
    rewrite !existsb_none; [by rewrite !andb_false_r|..]; intros m; unfold member_allows, member_denies; by rewrite Ha.
  - assert (member_of_request request = None) as Hn by (unfold member_of_request; by rewrite En).
    destruct (propertyRequest request) eqn:Ep; [apply Hr; by rewrite get_all_loop_collect|].
    assert (forall m, member_applies request m = false) as Ha by (intros m; unfold member_applies; rewrite Hn, Ep; apply andb_false_r).
    rewrite !existsb_none; [by rewrite !andb_false_r|..]; intros m; unfold member_allows, member_denies; by rewrite Ha.
  - assert (member_of_request request = Some (c :: n)) as Hn by (unfold member_of_request; by rewrite En).
    apply Hr. by rewrite <- member_loop_collect with (name := c :: n).
Qed.

(** A pair of answers that says [denied] rightly, and [allowed] when nothing denies. *)
Definition decides (r : res (bool * bool)) (allows denies : bool) : Prop :=
  exists allowed, r = Ok (allowed, denies) /\ (denies = false -> allowed = allows).

Lemma rules_loop_decides request i right scan rs : readable request i -> forall allowed,
  decides (rules_loop rs request right scan false allowed)
    (allowed || existsb (rule_allows request i right) rs) (scan && existsb (rule_denies request i) rs).
Proof.
  intros Hr. induction rs as [|r rs IH]; intros allowed; cbn [rules_loop existsb].
  - exists allowed. by rewrite andb_false_r, orb_false_r.
  - rewrite (IsRuleMatched_spec _ i) by done. rewrite andb_orb_distrib_r. cbn [rbind].
    destruct (scan && rule_denies request i r); cbn [orb]; [by exists allowed|].
    destruct (rule_allows request i right r); rewrite ?orb_true_r; [|by apply IH].
    exact (IH true).
Qed.

(** * Peers and lists *)

Section peers.
Context (peerState : PeerState) (trusted : bool) (key : option ECCPublicKey) (issuers : list ECCPublicKey).

Definition qualified (a : Acl) : bool := (IsPeerQualifiedForAcl a peerState trusted key issuers).1.
Definition qualified_by_key (a : Acl) : bool := (IsPeerQualifiedForAcl a peerState trusted key issuers).2.

(** The entry is this peer. *)
Definition is_peer (p : Peer) : bool :=
  match type p with
  | PEER_ALL => true
  | PEER_ANY_TRUSTED => trusted
  | PEER_WITH_PUBLIC_KEY => match keyInfo p, key with Some k, Some key => trusted && key_eq (publicKey k) key | _, _ => false end
  | PEER_FROM_CERTIFICATE_AUTHORITY =>
      match keyInfo p, key with Some k, Some _ => trusted && existsb (key_eq (publicKey k)) issuers | _, _ => false end
  | PEER_WITH_MEMBERSHIP => match key with Some _ => trusted && in_group (securityGroupId p) (guildMap peerState) | None => false end
  end.

(** The first entry that is this peer. *)
Lemma IsPeerQualifiedForAcl_spec a :
  IsPeerQualifiedForAcl a peerState trusted key issuers =
  match find is_peer (peers a) with Some p => (true, bool_decide (type p = PEER_WITH_PUBLIC_KEY)) | None => (false, false) end.
Proof using.
  unfold IsPeerQualifiedForAcl. induction (peers a) as [|p ps IH]; [done|]. cbn [qualified_loop find]. rewrite IH. clear IH.
  unfold is_peer. destruct (type p) eqn:Ht; cbn; rewrite ?bool_decide_false by done; rewrite ?Ht.
  1: done.
  all: destruct trusted, key, (keyInfo p); cbn; rewrite ?Ht; try done; case_match; by rewrite ?Ht.
Qed.

Definition acl_allows (request : Request) (i : list Z) (right : Z) (a : Acl) : bool :=
  qualified a && existsb (rule_allows request i right) (rules a).
Definition acl_denies (request : Request) (i : list Z) (a : Acl) : bool :=
  qualified_by_key a && existsb (rule_denies request i) (rules a).

Lemma by_key_qualified a : qualified a = false -> qualified_by_key a = false.
Proof using. unfold qualified, qualified_by_key. rewrite IsPeerQualifiedForAcl_spec. by destruct (find is_peer (peers a)). Qed.

Lemma acls_loop_decides request i right l : readable request i -> forall allowed,
  decides (acls_loop l request peerState trusted key issuers right allowed)
    (allowed || existsb (acl_allows request i right) l) (existsb (acl_denies request i) l).
Proof using.
  intros Hr. induction l as [|a l IH]; intros allowed; cbn [acls_loop existsb].
  - exists allowed. by rewrite orb_false_r.
  - unfold acl_allows at 1, acl_denies at 1. pose proof (by_key_qualified a) as Hk. unfold qualified, qualified_by_key in *.
    destruct (IsPeerQualifiedForAcl a peerState trusted key issuers) as [q k]. cbn [fst snd] in *.
    destruct q; cbn [negb andb]; [|rewrite Hk by done; cbn [andb orb]; apply IH].
    unfold IsPolicyAclMatched. destruct (rules_loop_decides request i right k (rules a) Hr false) as (al & -> & Hal). cbn [rbind orb].
    destruct (k && existsb (rule_denies request i) (rules a)); cbn [orb]; [by eexists|].
    rewrite Hal by done. destruct (existsb (rule_allows request i right) (rules a)); rewrite ?orb_true_r; [exact (IH true)|apply IH].
Qed.
End peers.

Lemma manifest_loop_spec request i right rs : readable request i ->
  manifest_loop rs request right = Ok (existsb (rule_allows request i right) rs).
Proof.
  intros Hr. induction rs as [|r rs IH]; [done|]. cbn [manifest_loop existsb]. rewrite (IsRuleMatched_spec _ i) by done.
  cbn [andb rbind]. destruct (rule_allows request i right r); [done|]. by rewrite IH.
Qed.

(** * The decision *)

(** What the policy says about a request of a peer. *)
Definition policy_allows (request : Request) (i : list Z) (p : option Policy) (peerState : PeerState) (t : Trust) : bool :=
  let right := GenRight request in
  match p with
  | None => false
  | Some p =>
      negb (right =? 0)
      && existsb (acl_allows peerState (t_trusted t) (t_key t) (t_issuers t) request i right) (acls p)
      && negb (existsb (acl_denies peerState (t_trusted t) (t_key t) (t_issuers t) request i) (acls p))
      && (negb (t_enforceManifest t) || existsb (rule_allows request i right) (manifest peerState))
  end.

Lemma IsAuthorized_spec request i p peerState mgmt authenticated : readable request i ->
  IsAuthorized request p peerState mgmt authenticated = Ok (policy_allows request i p peerState (peer_trust peerState mgmt authenticated)).
Proof.
  intros Hr. unfold IsAuthorized, policy_allows. destruct (GenRight request =? 0) eqn:E; [by destruct p|]. destruct p as [p|]; [|done].
  set (t := peer_trust peerState mgmt authenticated). unfold IsPeerAuthorized.
  destruct (acls_loop_decides peerState (t_trusted t) (t_key t) (t_issuers t) request i (GenRight request) (acls p) Hr false) as (al & -> & Hal).
  cbn [rbind orb negb andb] in *. destruct (existsb (acl_denies _ _ _ _ _ _) _); cbn [orb negb]; [by rewrite andb_false_r|].
  rewrite Hal by done. rewrite andb_true_r. destruct (existsb (acl_allows _ _ _ _ _ _ _) _); cbn [negb andb]; [|done].
  unfold IsAuthorizedByPeerManifest. destruct (t_enforceManifest t); cbn [negb orb]; [|done]. by apply manifest_loop_spec.
Qed.

(** * What a policy means

    The specification of the decision, without the functions of the code. *)

(** The right that a request needs: what the sender or the receiver of the message does. *)
Definition needs (q : Request) : option Z :=
  match mbrType q, propertyRequest q, isSetProperty q, outgoing q with
  | SIGNAL, _, _, true => Some ACTION_OBSERVE
  | SIGNAL, _, _, false => Some ACTION_PROVIDE
  | METHOD_CALL, false, _, true => Some ACTION_PROVIDE
  | METHOD_CALL, false, _, false => Some ACTION_MODIFY
  | _, true, _, true => Some ACTION_PROVIDE
  | _, true, true, false => Some ACTION_MODIFY
  | _, true, false, false => Some ACTION_OBSERVE
  | _, false, _, _ => None
  end.

Definition fits (pat s : list Z) : Prop := pat = s \/ WildcardMatch s pat = false.

(** The rule is about the object and the interface. *)
Definition concerns (q : Request) (i : list Z) (r : Rule) : Prop :=
  members r <> [] /\ objPath r <> [] /\ interfaceName r <> [] /\ fits (objPath r) (r_objPath q) /\ fits (interfaceName r) i.

(** The entry is about the member, or the request is for all properties. *)
Definition entry_concerns (q : Request) (m : Member) : Prop :=
  memberName m <> [] /\
  match member_of_request q with
  | Some name => fits (memberName m) name /\ (memberType m = NOT_SPECIFIED \/ memberType m = mbrType q)
  | None => propertyRequest q = true
  end.

(** For all properties an entry for every member must give the right; a named entry is
    enough when the request is received. *)
Definition permits (q : Request) (right : Z) (m : Member) : Prop :=
  entry_concerns q m /\
  match member_of_request q with
  | Some _ => Z.land (actionMask m) right = right
  | None => memberName m = lit "*" /\ (memberType m = PROPERTY \/ memberType m = NOT_SPECIFIED) /\ Z.land (actionMask m) right = right
            \/ memberName m <> lit "*" /\ outgoing q = false
  end.

Definition rule_permits (q : Request) (i : list Z) (right : Z) (r : Rule) : Prop :=
  concerns q i r /\ exists m, m ∈ members r /\ permits q right m.

(** Only a rule for everything that gives no right forbids. *)
Definition rule_forbids (q : Request) (i : list Z) (r : Rule) : Prop :=
  concerns q i r /\ objPath r = lit "*" /\ interfaceName r = lit "*" /\
  exists m, m ∈ members r /\ entry_concerns q m /\ memberName m = lit "*" /\ actionMask m = 0.

Lemma matches_fits pat s : matches pat s = true <-> fits pat s.
Proof. unfold matches, fits, MatchesPrefix. rewrite orb_true_iff, bool_decide_eq_true, negb_true_iff. done. Qed.

Lemma existsb_elem {A} (f : A -> bool) (P : A -> Prop) l : (forall a, f a = true <-> P a) -> existsb f l = true <-> exists a, a ∈ l /\ P a.
Proof. intros Hf. rewrite existsb_exists. by setoid_rewrite <- list_elem_of_In; setoid_rewrite Hf. Qed.

Lemma rule_applies_concerns q i r : rule_applies q i r = true <-> concerns q i r.
Proof.
  unfold rule_applies, concerns. rewrite !andb_true_iff, !negb_true_iff, !bool_decide_eq_false, !matches_fits, Z.eqb_neq.
  assert (zlen (members r) <> 0 <-> members r <> []) by (destruct (members r); cbn; split; (done || lia)). tauto.
Qed.

Lemma member_applies_concerns q m : member_applies q m = true <-> entry_concerns q m.
Proof.
  unfold member_applies, entry_concerns. rewrite andb_true_iff, negb_true_iff, bool_decide_eq_false. destruct (member_of_request q); [|tauto].
  rewrite andb_true_iff, orb_true_iff, matches_fits, !bool_decide_eq_true. by rewrite (eq_comm (mbrType q)).
Qed.

Lemma member_allows_permits q right m : member_allows q right m = true <-> permits q right m.
Proof.
  unfold member_allows, permits, IsActionAllowed. rewrite andb_true_iff, member_applies_concerns. change the_star with (lit "*").
  destruct (member_of_request q); [by rewrite Z.eqb_eq|]. case_bool_decide.
  - unfold any_property. rewrite andb_true_iff, orb_true_iff, !bool_decide_eq_true, Z.eqb_eq. tauto.
  - rewrite negb_true_iff. tauto.
Qed.

Lemma rule_allows_permits q i right r : rule_allows q i right r = true <-> rule_permits q i right r.
Proof.
  unfold rule_allows, rule_permits. rewrite andb_true_iff, rule_applies_concerns. by rewrite (existsb_elem _ _ _ (member_allows_permits q right)).
Qed.

Lemma rule_denies_forbids q i r : rule_denies q i r = true <-> rule_forbids q i r.
Proof.
  unfold rule_denies, rule_forbids. rewrite !andb_true_iff, rule_applies_concerns, !bool_decide_eq_true. change the_star with (lit "*").
  rewrite (existsb_elem _ (fun m => entry_concerns q m /\ memberName m = lit "*" /\ actionMask m = 0)); [tauto|].
  intros m. unfold member_denies, IsActionDenied. rewrite !andb_true_iff, member_applies_concerns, bool_decide_eq_true, Z.eqb_eq. tauto.
Qed.

(** ** Who the peer is *)

Lemma match_status {X} (st : QStatus) (a b c : X) :
  match st with ER_OK => a | ER_BUS_KEY_UNAVAILABLE => b | _ => c end =
  if decide (st = ER_OK) then a else if decide (st = ER_BUS_KEY_UNAVAILABLE) then b else c.
Proof. by destruct st. Qed.

Section credentials.
Context (peerState : PeerState) (mgmt : PermissionMgmtObj) (authenticated : bool).

(** What its authentication left behind. *)
Definition credentials : AuthMetadata := GetConnectedPeerAuthMetadata mgmt (GetGuid peerState).
Definition has_own_key : Prop := exists k, GetPublicKey mgmt = Some k.

(** The peer is the application itself, or it proved a key or a shared secret. *)
Definition is_trusted : Prop :=
  authenticated = true /\
  (IsLocalPeer peerState = true /\ has_own_key \/
   IsLocalPeer peerState = false /\ am_status credentials = ER_OK /\
     (publicKeyFound credentials = true \/
      authMechanism credentials ∈ [lit "ALLJOYN_ECDHE_PSK"; lit "ALLJOYN_SRP_KEYX"; lit "ALLJOYN_SRP_LOGON"])).

Definition shows_key (key : ECCPublicKey) : Prop :=
  authenticated = true /\
  (IsLocalPeer peerState = true /\ (exists k, GetPublicKey mgmt = Some k /\ publicKey k = key) \/
   IsLocalPeer peerState = false /\ am_status credentials = ER_OK /\ publicKeyFound credentials = true /\ am_publicKey credentials = key).

Definition certified_by (issuer : ECCPublicKey) : Prop :=
  authenticated = true /\ IsLocalPeer peerState = false /\ issuer ∈ issuerPublicKeys credentials.

(** The manifest is not asked for from the application itself, from a remote peer that
    is authenticated without a key, nor when its keys have expired. *)
Definition manifest_counts : Prop :=
  ~ (authenticated = true /\
     (IsLocalPeer peerState = true /\ has_own_key \/
      IsLocalPeer peerState = false /\
        (am_status credentials = ER_BUS_KEY_UNAVAILABLE \/ am_status credentials = ER_OK /\ publicKeyFound credentials = false))).

(** The entry of a list names the peer. *)
Definition names_peer (p : Peer) : Prop :=
  match type p with
  | PEER_ALL => True
  | PEER_ANY_TRUSTED => is_trusted
  | PEER_WITH_PUBLIC_KEY => exists k, keyInfo p = Some k /\ shows_key (publicKey k)
  | PEER_FROM_CERTIFICATE_AUTHORITY => (exists key, shows_key key) /\ exists k, keyInfo p = Some k /\ certified_by (publicKey k)
  | PEER_WITH_MEMBERSHIP =>
      (exists key, shows_key key) /\
      exists c chain, c :: chain ∈ guildMap peerState /\ isMembership c = true /\ GUID.guid (GetGuild c) = GUID.guid (securityGroupId p)
  end.

Definition qualifies (a : Acl) : Prop := exists p, p ∈ peers a /\ names_peer p.

(** The first entry that names the peer names it by its key. *)
Definition qualifies_by_key (a : Acl) : Prop :=
  exists before p after, peers a = before ++ p :: after /\ Forall (fun p' => ~ names_peer p') before /\ names_peer p /\ type p = PEER_WITH_PUBLIC_KEY.

(** A list that the peer qualifies for has a rule that permits the request, no list that it
    qualifies for by its key has a rule that forbids it, and its manifest has a rule that
    permits it where the manifest counts. *)
Definition authorized (q : Request) (i : list Z) (p : option Policy) : Prop :=
  exists pol right, p = Some pol /\ needs q = Some right /\
    (exists a r, a ∈ acls pol /\ qualifies a /\ r ∈ rules a /\ rule_permits q i right r) /\
    (forall a r, a ∈ acls pol -> qualifies_by_key a -> r ∈ rules a -> ~ rule_forbids q i r) /\
    (manifest_counts -> exists r, r ∈ manifest peerState /\ rule_permits q i right r).

Local Abbreviation trust := (peer_trust peerState mgmt authenticated).

Lemma trust_facts :
  (t_trusted trust = true <-> is_trusted) /\ (forall key, t_key trust = Some key <-> shows_key key) /\
  (forall key, key ∈ t_issuers trust <-> certified_by key) /\ (t_enforceManifest trust = true <-> manifest_counts) /\
  (forall key, t_key trust = Some key -> t_trusted trust = true).
Proof using.
  unfold peer_trust, is_trusted, shows_key, certified_by, manifest_counts, has_own_key. fold credentials. setoid_rewrite elem_of_cons. setoid_rewrite elem_of_cons. setoid_rewrite elem_of_cons.
  assert (forall key : ECCPublicKey, key ∈ [] <-> False) as Hnil by (intros; split; [apply not_elem_of_nil|done]).
  assert (authMechanism credentials ∈ [] <-> False) as Hnil' by (split; [apply not_elem_of_nil|done]). rewrite Hnil'.
  destruct authenticated; [|cbn; setoid_rewrite Hnil; naive_solver]. destruct (IsLocalPeer peerState).
  - destruct (GetPublicKey mgmt) as [k|]; cbn; setoid_rewrite Hnil; naive_solver.
  - rewrite match_status. destruct (decide (am_status credentials = ER_OK)) as [->|]; [|destruct (decide (am_status credentials = ER_BUS_KEY_UNAVAILABLE))];
      cbn; [destruct (publicKeyFound credentials); cbn; repeat case_bool_decide; cbn| |]; naive_solver.
Qed.
End credentials.

(** ** The decision of the code is this one *)

Section decision.
Context (peerState : PeerState) (mgmt : PermissionMgmtObj) (authenticated : bool).
Local Abbreviation trust := (peer_trust peerState mgmt authenticated).
Local Abbreviation code_names := (is_peer peerState (t_trusted trust) (t_key trust) (t_issuers trust)).

Lemma key_eq_same k k' : key_eq k k' = true <-> k = k'.
Proof using. unfold key_eq. rewrite andb_true_iff, !bool_decide_eq_true. destruct k, k'. cbn. naive_solver. Qed.

Lemma in_group_member g chains : in_group g chains = true <-> exists c chain, c :: chain ∈ chains /\ isMembership c = true /\ GUID.guid (GetGuild c) = GUID.guid g.
Proof using.
  unfold in_group. rewrite existsb_exists. setoid_rewrite <- list_elem_of_In. split.
  - intros ([|c chain] & Hin & H); [done|]. apply andb_true_iff in H as [Hm Hg]. apply bool_decide_eq_true in Hg. eauto 6.
  - intros (c & chain & Hin & Hm & Hg). exists (c :: chain). split; [done|]. rewrite Hm. by apply bool_decide_eq_true.
Qed.

Lemma is_peer_names p : code_names p = true <-> names_peer peerState mgmt authenticated p.
Proof using.
  destruct (trust_facts peerState mgmt authenticated) as (Ht & Hk & Hi & _ & Hkt). unfold is_peer, names_peer.
  destruct (type p); [done|done|..]; try setoid_rewrite <- Hk; try setoid_rewrite <- Hi.
  all: destruct (t_key trust) as [key|]; [rewrite (Hkt key) by done|]; destruct (keyInfo p) as [k|]; cbn [andb];
    rewrite ?key_eq_same, ?in_group_member, ?(existsb_elem _ _ _ (key_eq_same _)); naive_solver.
Qed.

Lemma qualified_qualifies a : qualified peerState (t_trusted trust) (t_key trust) (t_issuers trust) a = true <-> qualifies peerState mgmt authenticated a.
Proof using.
  unfold qualified, qualifies. rewrite IsPeerQualifiedForAcl_spec. rewrite <- (existsb_elem _ _ _ is_peer_names).
  destruct (find _ (peers a)) as [p|] eqn:Hf; cbn [fst].
  - apply find_some in Hf as [Hin Hp]. split; [|done]. intros _. apply existsb_exists. eauto.
  - split; [done|]. rewrite existsb_exists. intros (p & Hin & Hp). by rewrite (find_none _ _ Hf p Hin) in Hp.
Qed.

Lemma find_first (f : Peer -> bool) l p : find f l = Some p <-> exists before after, l = before ++ p :: after /\ Forall (fun p' => f p' <> true) before /\ f p = true.
Proof using.
  split.
  - induction l as [|x l IH]; [done|]. cbn [find]. destruct (f x) eqn:E.
    + intros [= ->]. exists [], l. by split_and!.
    + intros (b & a & -> & Hb & Hp)%IH. exists (x :: b), a. split; [done|]. split; [|done]. constructor; [by rewrite E|done].
  - intros (b & a & -> & Hb & Hp). induction Hb as [|x b Hx _ IH]; cbn [app find]; [by rewrite Hp|]. destruct (f x); [done|exact IH].
Qed.

Lemma qualified_by_key_qualifies a :
  qualified_by_key peerState (t_trusted trust) (t_key trust) (t_issuers trust) a = true <-> qualifies_by_key peerState mgmt authenticated a.
Proof using.
  unfold qualified_by_key, qualifies_by_key. rewrite IsPeerQualifiedForAcl_spec.
  assert (forall l, Forall (fun p' => code_names p' <> true) l <-> Forall (fun p' => ~ names_peer peerState mgmt authenticated p') l) as Hnone.
  { intros l. apply Forall_iff. intros p'. by rewrite is_peer_names. }
  split.
  - destruct (find _ (peers a)) as [p|] eqn:Hf; [|done]. cbn [snd]. rewrite bool_decide_eq_true. intros Ht.
    apply find_first in Hf as (b & l & Hl & Hb & Hp). exists b, p, l. by rewrite <- Hnone, <- is_peer_names.
  - intros (b & p & l & Hl & Hb & Hp & Ht). rewrite <- Hnone in Hb. rewrite <- is_peer_names in Hp.
    assert (find code_names (peers a) = Some p) as -> by (apply find_first; by exists b, l). by apply bool_decide_eq_true.
Qed.

Lemma needs_GenRight q : needs q = if GenRight q =? 0 then None else Some (GenRight q).
Proof using. unfold needs, GenRight. by destruct q as [[] [] [] ? ? ? []]. Qed.

Lemma policy_allows_authorized q i p : policy_allows q i p peerState trust = true <-> authorized peerState mgmt authenticated q i p.
Proof using.
  unfold policy_allows, authorized. destruct p as [p|]; [|split; [done|by intros (? & ? & [=] & _)]]. rewrite needs_GenRight.
  destruct (GenRight q =? 0); cbn [negb andb]; [split; [done|by intros (? & ? & _ & [=] & _)]|].
  rewrite !andb_true_iff, negb_true_iff, <- not_true_iff_false, orb_true_iff, negb_true_iff, <- not_true_iff_false.
  rewrite (existsb_elem _ _ _ (rule_allows_permits q i _)). destruct (trust_facts peerState mgmt authenticated) as (_ & _ & _ & Hm & _).
  rewrite (existsb_elem _ (fun a => qualifies peerState mgmt authenticated a /\ exists r, r ∈ rules a /\ rule_permits q i (GenRight q) r)),
    (existsb_elem _ (fun a => qualifies_by_key peerState mgmt authenticated a /\ exists r, r ∈ rules a /\ rule_forbids q i r)).
  - destruct (t_enforceManifest trust); naive_solver.
  - intros a. unfold acl_denies. by rewrite andb_true_iff, qualified_by_key_qualifies, (existsb_elem _ _ _ (rule_denies_forbids q i)).
  - intros a. unfold acl_allows. by rewrite andb_true_iff, qualified_qualifies, (existsb_elem _ _ _ (rule_allows_permits q i _)).
Qed.
End decision.

(** C8: The search through the access control lists with its early exits allows a request
    exactly when it should: the request needs a right; a list that the peer qualifies for,
    because an entry names it, has a rule that permits the request; no list whose first
    entry that names the peer names it by its public key has a rule for everything that
    forbids it; and the peer's manifest permits it where the manifest counts. Without a
    policy everything is refused. What each of this means is stated above without the
    functions of the code. The names of the request can be read. *)
Theorem IsAuthorized_decision (request : Request) (i : list Z) (p : option Policy) (peerState : PeerState) (mgmt : PermissionMgmtObj) (authenticated : bool) :
  readable request i ->
  exists b, IsAuthorized request p peerState mgmt authenticated = Ok b /\ (b = true <-> authorized peerState mgmt authenticated request i p).
Proof. intros Hr. eexists. split; [by apply IsAuthorized_spec|]. apply policy_allows_authorized. Qed.

(** * Order *)

(** The same lists with the same peers, lists and rules in any order. *)
Definition reordered (a a' : Acl) : Prop := peers a = peers a' /\ rules a ≡ₚ rules a'.
Definition same_policy (p p' : Policy) : Prop := exists l, Forall2 reordered (acls p) l /\ l ≡ₚ acls p'.

Lemma existsb_perm {A} (f : A -> bool) l l' : l ≡ₚ l' -> existsb f l = existsb f l'.
Proof.
  induction 1 as [|a l l' _ IH|a b l|l1 l2 l3 _ IH1 _ IH2]; cbn [existsb]; [done|by rewrite IH|by rewrite !orb_assoc, (orb_comm (f a))|by rewrite IH1].
Qed.

Lemma existsb_related {A} (R : A -> A -> Prop) (f : A -> bool) l l' : (forall a a', R a a' -> f a = f a') -> Forall2 R l l' -> existsb f l = existsb f l'.
Proof. intros Hf. induction 1 as [|a a' l l' Ha _ IH]; [done|]. cbn [existsb]. by rewrite (Hf _ _ Ha), IH. Qed.

Lemma existsb_same_policy (f : Acl -> bool) p p' : (forall a a', reordered a a' -> f a = f a') -> same_policy p p' -> existsb f (acls p) = existsb f (acls p').
Proof. intros Hf (l & H1 & H2). rewrite (existsb_related reordered f _ l) by done. by apply existsb_perm. Qed.

(** C14: The decision does not depend on the order of the lists in a policy, nor of the
    rules in a list. *)
Theorem IsAuthorized_order (request : Request) (i : list Z) (p p' : Policy) (peerState : PeerState) (mgmt : PermissionMgmtObj) (authenticated : bool) :
  readable request i -> same_policy p p' ->
  IsAuthorized request (Some p) peerState mgmt authenticated = IsAuthorized request (Some p') peerState mgmt authenticated.
Proof.
  intros Hr Hp. rewrite !(IsAuthorized_spec _ i) by done. unfold policy_allows.
  rewrite (existsb_same_policy (acl_allows _ _ _ _ _ _ _) p p'), (existsb_same_policy (acl_denies _ _ _ _ _ _) p p'); try done;
    intros a a' [Hq Hs]; unfold acl_allows, acl_denies, qualified, qualified_by_key, IsPeerQualifiedForAcl;
    by rewrite Hq, (existsb_perm _ _ _ Hs).
Qed.

(** * Samples *)

Definition any_member (mask : Z) : Member := {| memberName := the_star; memberType := NOT_SPECIFIED; actionMask := mask |}.
Definition rule_for_all (mask : Z) : Rule := {| objPath := the_star; interfaceName := the_star; members := [any_member mask] |}.
Definition entry (t : PeerType) (k : option KeyInfoNISTP256) : Peer := {| type := t; securityGroupId := GUID.GUID_fill 0; keyInfo := k |}.

Definition the_key : ECCPublicKey := {| x := replicate 32 1; y := replicate 32 2 |}.
Definition the_peer : Peer := entry PEER_WITH_PUBLIC_KEY (Some {| keyId := []; publicKey := the_key |}).
Definition policy_of (l : list Acl) : Policy := {| specificationVersion := 1; version := 1; acls := l |}.

(** Everybody may do everything, but the peer with the key may do nothing. *)
Definition open_acl : Acl := {| peers := [entry PEER_ALL None]; rules := [rule_for_all 7] |}.
Definition deny_acl : Acl := {| peers := [the_peer]; rules := [rule_for_all 0] |}.

Definition remote : PeerState := {| IsLocalPeer := false; GetGuid := GUID.GUID_fill 1; manifest := [rule_for_all 7]; guildMap := [] |}.
Definition claimed : PermissionMgmtObj :=
  {| HasTrustAnchors := true; GetPublicKey := None;
     GetConnectedPeerAuthMetadata := fun _ => {| am_status := ER_OK; authMechanism := lit "ALLJOYN_ECDHE_ECDSA"; publicKeyFound := true; am_publicKey := the_key; issuerPublicKeys := [] |} |}.
Definition unclaimed : PermissionMgmtObj := {| HasTrustAnchors := false; GetPublicKey := None; GetConnectedPeerAuthMetadata := GetConnectedPeerAuthMetadata claimed |}.

Definition call (i m : string) (args : list MsgArg) : Message :=
  {| GetType := MESSAGE_METHOD_CALL; GetObjectPath := lit "/app"; GetInterface := lit i; GetMemberName := lit m; msgArgs := args; refMsgArgs := [] |}.
Definition signal (i m : string) (args : list MsgArg) : Message :=
  {| GetType := MESSAGE_SIGNAL; GetObjectPath := lit "/app"; GetInterface := lit i; GetMemberName := lit m; msgArgs := args; refMsgArgs := [] |}.

(** A method call that was received. *)
Definition call_request : Request := Request_of_names (lit "/app") (P_STR (lit "org.tv")) (P_STR (lit "Up")) METHOD_CALL false false.

Lemma IsAuthorized_decision_witness :
  authorized remote claimed true call_request (lit "org.tv") (Some (policy_of [open_acl])) /\
  ~ authorized remote claimed true call_request (lit "org.tv") (Some (policy_of [open_acl; deny_acl])).
Proof.
  assert (readable call_request (lit "org.tv")) as Hr by (split; [reflexivity|discriminate]). split.
  - destruct (IsAuthorized_decision call_request (lit "org.tv") (Some (policy_of [open_acl])) remote claimed true Hr) as (b & E & H).
    apply H. vm_compute in E. injection E as <-. reflexivity.
  - destruct (IsAuthorized_decision call_request (lit "org.tv") (Some (policy_of [open_acl; deny_acl])) remote claimed true Hr) as (b & E & H).
    intros Ha. apply H in Ha. vm_compute in E. subst b. discriminate E.
Defined.

Lemma IsAuthorized_order_witness :
  IsAuthorized call_request (Some (policy_of [open_acl; deny_acl])) remote claimed true =
  IsAuthorized call_request (Some (policy_of [deny_acl; open_acl])) remote claimed true.
Proof.
  apply (IsAuthorized_order call_request (lit "org.tv")); [split; [reflexivity|discriminate]|].
  exists [open_acl; deny_acl]. split; [by repeat constructor|]. apply perm_swap.
Defined.

(** The order of the peers in a list does matter: an entry before the one with the
    key hides the deny. *)
Lemma deny_depends_on_peer_order :
  IsAuthorized call_request (Some (policy_of [open_acl; {| peers := [the_peer; entry PEER_ALL None]; rules := [rule_for_all 0] |}])) remote claimed true = Ok false /\
  IsAuthorized call_request (Some (policy_of [open_acl; {| peers := [entry PEER_ALL None; the_peer]; rules := [rule_for_all 0] |}])) remote claimed true = Ok true.
Proof. split; vm_compute; reflexivity. Qed.

(** * Messages *)

(** The interfaces that the policy does not govern. *)
Definition exempt_interfaces : list (list Z) :=
  [lit "org.alljoyn.Bus"; lit "org.alljoyn.Daemon"; lit "org.alljoyn.Debug"; lit "org.alljoyn.Bus.Peer.Authentication";
   lit "org.alljoyn.Bus.Peer.Session"; lit "org.allseen.Introspectable"; lit "org.alljoyn.Bus.Peer.HeaderCompression";
   lit "org.freedesktop.DBus"; lit "org.freedesktop.DBus.Peer"; lit "org.freedesktop.DBus.Introspectable";
   lit "org.freedesktop.DBus.Properties"; lit "org.alljoyn.Bus.Security.Application";
   lit "org.alljoyn.Bus.Security.ClaimableApplication"; lit "org.alljoyn.Bus.Security.ManagedApplication"].

Lemma not_exempt i : i ∉ exempt_interfaces -> IsStdInterface i = false /\ IsPropertyInterface i = false /\ IsPermissionMgmtInterface i = false.
Proof.
  intros Hi. unfold exempt_interfaces in Hi. rewrite !not_elem_of_cons in Hi. destruct_and? Hi. unfold IsStdInterface, std_interfaces, IsPropertyInterface, IsPermissionMgmtInterface,
    SecurityApplication, ClaimableApplication, ManagedApplication. cbn [existsb]. by rewrite !bool_decide_false by done.
Qed.

(** A method call or signal of an interface of the application. *)
Definition enforced (msg : Message) : Prop :=
  (GetType msg = MESSAGE_METHOD_CALL \/ GetType msg = MESSAGE_SIGNAL) /\
  IsStdInterface (GetInterface msg) = false /\ IsPropertyInterface (GetInterface msg) = false.

(** The request a message makes. *)
Definition request_of (msg : Message) (out : bool) : Request :=
  {| outgoing := out; propertyRequest := false; isSetProperty := false; r_objPath := GetObjectPath msg; iName := P_STR (GetInterface msg);
     mbrName := P_STR (GetMemberName msg); mbrType := if GetType msg =? MESSAGE_METHOD_CALL then METHOD_CALL else SIGNAL |}.

Lemma AuthorizeMessage_request mgr out msg peerState authenticated : enforced msg ->
  AuthorizeMessage mgr out msg peerState authenticated = authorize_request mgr (request_of msg out) peerState authenticated.
Proof.
  intros (Ht & Hs & Hp). unfold AuthorizeMessage. rewrite Hs, Hp.
  assert (negb (GetType msg =? MESSAGE_METHOD_CALL) && negb (GetType msg =? MESSAGE_SIGNAL) = false) as -> by (by destruct Ht as [-> | ->]).
  cbn [rbind]. rewrite decide_True by done. f_equal. unfold request_of, Request_of_names, Request_of_message. cbn [mbrType r_objPath]. f_equal.
  by destruct Ht as [-> | ->].
Qed.

(** C9: In an application that was claimed, a method call or signal of an interface
    that is none of the ten standard ones, of Properties and of the three for permission
    management is answered with ER_OK when the policy authorizes the request it makes, and
    with ER_PERMISSION_DENIED otherwise, in both directions. *)
Theorem AuthorizeMessage_enforces_policy (mgr : Manager) (mgmt : PermissionMgmtObj) (out : bool) (msg : Message) (peerState : PeerState) (authenticated : bool) :
  (GetType msg = MESSAGE_METHOD_CALL \/ GetType msg = MESSAGE_SIGNAL) -> GetInterface msg ∉ exempt_interfaces ->
  permissionMgmtObj mgr = Some mgmt -> HasTrustAnchors mgmt = true ->
  exists status, AuthorizeMessage mgr out msg peerState authenticated = Ok status /\
    ((status = ER_OK /\ authorized peerState mgmt authenticated (request_of msg out) (GetInterface msg) (policy mgr)) \/
     (status = ER_PERMISSION_DENIED /\ ~ authorized peerState mgmt authenticated (request_of msg out) (GetInterface msg) (policy mgr))).
Proof.
  intros Ht Hx Hm Hc. destruct (not_exempt _ Hx) as (Hs & Hp & Hi). assert (enforced msg) as He by by split.
  rewrite AuthorizeMessage_request by done. unfold authorize_request. rewrite Hm. cbn [request_of iName].
  rewrite Hi. cbn [rbind]. rewrite Hc. cbn [negb]. rewrite (IsAuthorized_spec _ (GetInterface msg)) by by split. cbn [rbind]. eexists. split; [done|].
  rewrite <- policy_allows_authorized. destruct (policy_allows _ _ _ _ _); [left|right]; by split.
Qed.

Lemma AuthorizeMessage_enforces_policy_witness : exists status,
  AuthorizeMessage {| policy := Some (policy_of [open_acl; deny_acl]); permissionMgmtObj := Some claimed |} false (call "org.tv" "Up" []) remote true = Ok status /\
  status = ER_PERMISSION_DENIED.
Proof.
  destruct (AuthorizeMessage_enforces_policy {| policy := Some (policy_of [open_acl; deny_acl]); permissionMgmtObj := Some claimed |} claimed false
    (call "org.tv" "Up" []) remote true) as (status & E & _).
  - left. reflexivity.
  - apply (bool_decide_unpack _). vm_compute. exact I.
  - reflexivity.
  - reflexivity.
  - exists status. split; [exact E|]. vm_compute in E. injection E as <-. reflexivity.
Defined.

(** Before an application is claimed its own interfaces are open, ManagedApplication
    is closed, and Claim is accepted; after it was claimed, Claim is refused. *)
Theorem AuthorizeMessage_claiming (mgr : Manager) (mgmt : PermissionMgmtObj) (msg : Message) (peerState : PeerState) (authenticated : bool) :
  enforced msg -> permissionMgmtObj mgr = Some mgmt ->
  (HasTrustAnchors mgmt = false -> IsPermissionMgmtInterface (GetInterface msg) = false ->
   AuthorizeMessage mgr false msg peerState authenticated = Ok ER_OK) /\
  (HasTrustAnchors mgmt = false -> GetInterface msg = ManagedApplication ->
   AuthorizeMessage mgr false msg peerState authenticated = Ok ER_PERMISSION_DENIED) /\
  (GetInterface msg = ClaimableApplication -> GetMemberName msg = lit "Claim" ->
   AuthorizeMessage mgr false msg peerState authenticated = Ok (if HasTrustAnchors mgmt then ER_PERMISSION_DENIED else ER_OK)).
Proof.
  intros He Hm. rewrite !AuthorizeMessage_request by done. unfold authorize_request. rewrite Hm. cbn [request_of Request_of_names iName mbrName outgoing].
  split_and!.
  - intros Hc Hi. rewrite Hi, Hc. done.
  - intros Hc Hi. rewrite Hi. change (IsPermissionMgmtInterface ManagedApplication) with true. unfold AuthorizePermissionMgmt.
    rewrite (bool_decide_false (ManagedApplication = ClaimableApplication)), bool_decide_true, Hc by (done || vm_compute; discriminate). done.
  - intros Hi Hn. rewrite Hi, Hn. change (IsPermissionMgmtInterface ClaimableApplication) with true. unfold AuthorizePermissionMgmt.
    rewrite bool_decide_true by done. by destruct (HasTrustAnchors mgmt).
Qed.

Lemma AuthorizeMessage_claiming_witness :
  AuthorizeMessage {| policy := None; permissionMgmtObj := Some unclaimed |} false (call "org.tv" "Up" []) remote false = Ok ER_OK /\
  AuthorizeMessage {| policy := None; permissionMgmtObj := Some claimed |} false (call "org.alljoyn.Bus.Security.ClaimableApplication" "Claim" []) remote false = Ok ER_PERMISSION_DENIED.
Proof.
  assert (forall i, IsStdInterface (lit i) = false -> IsPropertyInterface (lit i) = false -> forall m, enforced (call i m [])) as He
    by (intros; split; [by left|by split]).
  split.
  - exact (proj1 (AuthorizeMessage_claiming {| policy := None; permissionMgmtObj := Some unclaimed |} unclaimed _ remote false (He "org.tv" eq_refl eq_refl "Up") eq_refl) eq_refl eq_refl).
  - exact (proj2 (proj2 (AuthorizeMessage_claiming {| policy := None; permissionMgmtObj := Some claimed |} claimed _ remote false (He "org.alljoyn.Bus.Security.ClaimableApplication" eq_refl eq_refl "Claim") eq_refl)) eq_refl eq_refl).
Defined.

(** A PropertiesChanged signal that reaches the policy of a claimed application
    makes IsRuleMatched read a member name that ParsePropertiesMessage never set. *)
Theorem PropertiesChanged_uninitialised :
  AuthorizeMessage {| policy := Some (policy_of [open_acl]); permissionMgmtObj := Some claimed |} false
    (signal "org.freedesktop.DBus.Properties" "PropertiesChanged" [string_arg TY_STRING (lit "org.tv")]) remote true = Undef.
Proof. vm_compute. reflexivity. Qed.

(** The other requests of the Properties interface are decided. *)
Lemma Properties_requests_decided :
  let mgr := {| policy := Some (policy_of [open_acl]); permissionMgmtObj := Some claimed |} in
  let props := "org.freedesktop.DBus.Properties" in
  AuthorizeMessage mgr false (call props "Get" [string_arg TY_STRING (lit "org.tv"); string_arg TY_STRING (lit "Volume")]) remote true = Ok ER_OK /\
  AuthorizeMessage mgr false (call props "GetAll" [string_arg TY_STRING (lit "org.tv")]) remote true = Ok ER_OK /\
  AuthorizeMessage mgr false (call props "Set" [string_arg TY_STRING (lit "org.tv"); string_arg TY_STRING (lit "Volume"); A_VARIANT (A_BYTE 3)]) remote true = Ok ER_OK /\
  AuthorizeMessage mgr false (call props "Get" [string_arg TY_STRING (lit "org.tv")]) remote true = Ok ER_INVALID_DATA.
Proof. split_and!; vm_compute; reflexivity. Qed.
