(* ===== verification/RuleTable.v ===== *)
(** Model of alljoyn_core/router/RuleTable.cc and RuleTable.h: match rules, by which an
    endpoint says which messages it wants, and the table of the rules of all endpoints.

    Texts are lists of characters, and a [const char*] into the rule is the rest of it.
    UnmarshalArgs on a clone of the message is part of the message. *)
From stdpp Require Import strings gmap.
From S2P Require Import Prelude Types SignatureUtils SigMachine SigGrammar SigBuild Marshal Unmarshal BusUtil StrSet IPAddress StringUtil Header MsgArgFormat.
Import MsgArgFormat.

Module RuleTable.

(** * Rules *)

Inductive Sessionless := SESSIONLESS_NOT_SPECIFIED | SESSIONLESS_FALSE | SESSIONLESS_TRUE.

#[export] Instance Sessionless_eq_dec : EqDecision Sessionless.
Proof. solve_decision. Defined.

Definition MESSAGE_INVALID : Z := 0.

(** [args] is ordered by index and [implements] by text, as the containers are. *)
Record Rule := {
  type : Z;
  sender : list Z;
  iface : list Z;
  member : list Z;
  path : list Z;
  destination : list Z;
  sessionless : Sessionless;
  implements : list (list Z);
  args : list (Z * list Z)
}.

#[export] Instance Rule_eq_dec : EqDecision Rule.
Proof. solve_decision. Defined.

Definition new_Rule : Rule :=
  {| type := MESSAGE_INVALID; sender := []; iface := []; member := []; path := []; destination := [];
     sessionless := SESSIONLESS_NOT_SPECIFIED; implements := []; args := [] |}.

(** [operator==] *)
Definition Rule_eq (r o : Rule) : bool :=
  (type r =? type o) && bool_decide (sender r = sender o) && bool_decide (iface r = iface o)
  && bool_decide (member r = member o) && bool_decide (path r = path o) && bool_decide (destination r = destination o)
  && bool_decide (implements r = implements o) && bool_decide (args r = args o).

(** [args[index] = value]. *)
Fixpoint args_set (i : Z) (v : list Z) (l : list (Z * list Z)) : list (Z * list Z) :=
  match l with
  | [] => [(i, v)]
  | (j, w) :: l' => if i <? j then (i, v) :: l else if j <? i then (j, w) :: args_set i v l' else (i, v) :: l'
  end.

Definition with_type (r : Rule) t := {| type := t; sender := sender r; iface := iface r; member := member r; path := path r;
  destination := destination r; sessionless := sessionless r; implements := implements r; args := args r |}.
Definition with_sender (r : Rule) v := {| type := type r; sender := v; iface := iface r; member := member r; path := path r;
  destination := destination r; sessionless := sessionless r; implements := implements r; args := args r |}.
Definition with_iface (r : Rule) v := {| type := type r; sender := sender r; iface := v; member := member r; path := path r;
  destination := destination r; sessionless := sessionless r; implements := implements r; args := args r |}.
Definition with_member (r : Rule) v := {| type := type r; sender := sender r; iface := iface r; member := v; path := path r;
  destination := destination r; sessionless := sessionless r; implements := implements r; args := args r |}.
Definition with_path (r : Rule) v := {| type := type r; sender := sender r; iface := iface r; member := member r; path := v;
  destination := destination r; sessionless := sessionless r; implements := implements r; args := args r |}.
Definition with_destination (r : Rule) v := {| type := type r; sender := sender r; iface := iface r; member := member r; path := path r;
  destination := v; sessionless := sessionless r; implements := implements r; args := args r |}.
Definition with_sessionless (r : Rule) v := {| type := type r; sender := sender r; iface := iface r; member := member r; path := path r;
  destination := destination r; sessionless := v; implements := implements r; args := args r |}.
Definition with_implements (r : Rule) v := {| type := type r; sender := sender r; iface := iface r; member := member r; path := path r;
  destination := destination r; sessionless := sessionless r; implements := v; args := args r |}.
Definition with_args (r : Rule) v := {| type := type r; sender := sender r; iface := iface r; member := member r; path := path r;
  destination := destination r; sessionless := sessionless r; implements := implements r; args := v |}.

(** ** Parsing *)

(** [strchr]: how far the first [c] is. *)
Fixpoint strchr (s : list Z) (c : Z) : option nat :=
  match s with
  | [] => None
  | x :: s => if x =? c then Some 0%nat else S <$> strchr s c
  end.

(** [strncmp(p, s, strlen(p)) == 0] for a text [s] that may go on. *)
Definition starts_with (s p : list Z) : bool := bool_decide (take (length p) s = p).

(** [strncmp(name, begQuotePos, n) == 0] where the value is the [n] characters. *)
Definition is_type (name value : list Z) : bool := bool_decide (take (length value) name = value).

Definition type_of (value : list Z) : option Z :=
  if is_type (lit "signal") value then Some MESSAGE_SIGNAL
  else if is_type (lit "method_call") value then Some MESSAGE_METHOD_CALL
  else if is_type (lit "method_return") value then Some MESSAGE_METHOD_RET
  else if is_type (lit "error") value then Some MESSAGE_ERROR
  else None.

(** The clause that starts at [pos], with its [=] at [eq], the text behind the opening
    quote and the value: the rule afterwards, or [None] for an error. *)
Definition assign (pos : list Z) (eq : nat) (quoted value : list Z) (r : Rule) : option Rule :=
  if starts_with pos (lit "type") then with_type r <$> type_of value
  else if starts_with pos (lit "sender") then Some (with_sender r value)
  else if starts_with pos (lit "interface") then Some (with_iface r value)
  else if starts_with pos (lit "member") then Some (with_member r value)
  else if starts_with pos (lit "path") then Some (with_path r value)
  else if starts_with pos (lit "destination") then Some (with_destination r value)
  else if starts_with pos (lit "sessionless") then
    Some (with_sessionless r (if (hd 0 quoted =? 116) || (hd 0 quoted =? 84) then SESSIONLESS_TRUE else SESSIONLESS_FALSE))
  else if starts_with pos (lit "arg") then
    let argIndex := StringToU32 (take (eq - 3) (drop 3 pos)) 10 64 in
    if argIndex <? 64 then Some (with_args r (args_set argIndex value (args r))) else None
  else if starts_with pos (lit "implements") then Some (with_implements r (set_insert value (implements r)))
  else None.

(** The loop; every turn goes on behind the next comma, so the length of the text is
    enough fuel. *)
Fixpoint rule_loop (fuel : nat) (pos : list Z) (r : Rule) : res (QStatus * Rule) :=
  match pos with
  | [] => Ok (ER_OK, r)
  | _ =>
      match fuel with
      | O => Undef
      | S fuel =>
          let endPos := default (length pos) (strchr pos 44) in
          match strchr pos 61 with
          | None => Ok (ER_FAIL, r)
          | Some eq =>
              if (endPos <=? eq)%nat then Ok (ER_FAIL, r)
              else
                let quoted := strchr (drop (S eq) pos) 39 in
                match quoted with
                | None => Ok (ER_FAIL, r)
                | Some q =>
                    let quoted := drop (S q) (drop (S eq) pos) in
                    match strchr quoted 39 with
                    | None => Ok (ER_FAIL, r)
                    | Some e =>
                        match assign pos eq quoted (take e quoted) r with
                        | None => Ok (ER_FAIL, r)
                        | Some r => rule_loop fuel (drop (S endPos) pos) r
                        end
                    end
                end
          end
      end
  end.

(** The constructor from a [const char*], which ends at the first NUL: the status and the
    rule. *)
Definition Rule_of (ruleSpec : list Z) : res (QStatus * Rule) :=
  let pos := until_nul ruleSpec in rule_loop (length pos) pos new_Rule.

(** ** Printing *)

(** [rule += key='value'], with a comma when it is not the first. *)
Definition add_clause (rule key value : list Z) : list Z :=
  (match rule with [] => [] | _ => rule ++ lit "," end) ++ key ++ lit "='" ++ value ++ lit "'".

Definition typeStr (t : Z) : res (list Z) :=
  match t with
  | 1 => Ok (lit "method_call") | 2 => Ok (lit "method_return") | 3 => Ok (lit "error") | 4 => Ok (lit "signal")
  | _ => Undef
  end.

(** [U32ToString] with its default arguments. *)
Definition number (i : Z) : res (list Z) := U32ToString i 10 1 32.

Fixpoint print_args (l : list (Z * list Z)) (rule : list Z) : res (list Z) :=
  match l with
  | [] => Ok rule
  | (i, v) :: l => let! n := number i in print_args l (add_clause rule (lit "arg" ++ n) v)
  end.

(** SESSIONLESS_FALSE is not zero, so it is printed like SESSIONLESS_TRUE. *)
Definition ToString (r : Rule) : res (list Z) :=
  let! rule := if negb (type r =? MESSAGE_INVALID) then let! t := typeStr (type r) in Ok (lit "type='" ++ t ++ lit "'") else Ok [] in
  let rule := match sender r with [] => rule | v => add_clause rule (lit "sender") v end in
  let rule := match iface r with [] => rule | v => add_clause rule (lit "interface") v end in
  let rule := match member r with [] => rule | v => add_clause rule (lit "member") v end in
  let rule := match path r with [] => rule | v => add_clause rule (lit "path") v end in
  let rule := match destination r with [] => rule | v => add_clause rule (lit "destination") v end in
  let! rule := print_args (args r) rule in
  let rule := fold_left (fun rule v => add_clause rule (lit "implements") v) (implements r) rule in
  Ok match sessionless r with SESSIONLESS_NOT_SPECIFIED => rule | _ => add_clause rule (lit "sessionless") (lit "t") end.

(** ** Matching *)

Record Message := {
  GetType : Z;
  GetSender : list Z;
  GetInterface : list Z;
  GetMemberName : list Z;
  GetObjectPath : list Z;
  GetDestination : list Z;
  GetSignature_ : list Z;
  IsSessionless : bool;
  UnmarshalArgs_ : list Z -> res (list MsgArg)       (* on a clone *)
}.

(** The accessors of a received message: the text of a field, or none. *)
Definition text_field (fs : HeaderFields) (f : AllJoynFieldType) : list Z :=
  if decide (typeId (field fs f) = FieldType f) then match field fs f with A_STRING _ _ (Some s) => until_nul s | _ => [] end else [].

Definition ALLJOYN_FLAG_SESSIONLESS : Z := 16.

Definition message_of (m : Loaded) (handles : list Z) (fs : HeaderFields) (bodyPtr : Z) : Message :=
  {| GetType := msgType (l_hdr m);
     GetSender := text_field fs ALLJOYN_HDR_FIELD_SENDER;
     GetInterface := text_field fs ALLJOYN_HDR_FIELD_INTERFACE;
     GetMemberName := text_field fs ALLJOYN_HDR_FIELD_MEMBER;
     GetObjectPath := text_field fs ALLJOYN_HDR_FIELD_PATH;
     GetDestination := text_field fs ALLJOYN_HDR_FIELD_DESTINATION;
     GetSignature_ := GetSignature fs;
     IsSessionless := negb (Z.land (flags (l_hdr m)) ALLJOYN_FLAG_SESSIONLESS =? 0);
     UnmarshalArgs_ := UnmarshalArgs m handles fs bodyPtr |}.

(** An empty text of a rule is not compared. *)
Definition differs (s t : list Z) : bool := negb (bool_decide (s = [])) && negb (bool_decide (s = t)).

(** The loop over the arguments a rule asks for. *)
Fixpoint match_args (l : list (Z * list Z)) (msgArgs : list MsgArg) : res bool :=
  match l with
  | [] => Ok true
  | (i, v) :: l =>
      match msgArgs !! Z.to_nat i with
      | Some (A_STRING TY_STRING _ (Some m)) => let! s := c_str m in if bool_decide (v = s) then match_args l msgArgs else Ok false
      | Some (A_STRING TY_STRING _ None) => Undef
      | _ => Ok false
      end
  end.

(** The interfaces that the object descriptions of an announcement name; [None] when
    they cannot be read. *)
Definition text_of_arg (a : MsgArg) : res (option (list Z)) :=
  let! (status, out) := Get a (lit "s") [true] in
  if decide (status = ER_OK) then match out with [V_STR m] => let! s := c_str m in Ok (Some s) | _ => Undef end else Ok None.

Fixpoint names_of (l : list MsgArg) : res (option (list (list Z))) :=
  match l with
  | [] => Ok (Some [])
  | a :: l =>
      let! s := text_of_arg a in
      match s with
      | None => Ok None
      | Some s => let! rest := names_of l in Ok ((fun rest => s :: rest) <$> rest)
      end
  end.

Fixpoint interfaces_of (l : list MsgArg) : res (option (list (list Z))) :=
  match l with
  | [] => Ok (Some [])
  | o :: l =>
      let! (status, out) := Get o (lit "(oas)") [true; true; true] in
      if decide (status = ER_OK) then
        match out with
        | [_; V_SIZE _; V_ARGS intfs] =>
            let! names := names_of intfs in
            match names with
            | None => Ok None
            | Some names => let! rest := interfaces_of l in Ok ((fun rest => names ++ rest) <$> rest)
            end
        | _ => Undef
        end
      else Ok None
  end.

(** Every pattern of the rule matches an interface. *)
Definition implements_all (patterns interfaces : list (list Z)) : bool :=
  forallb (fun im => existsb (fun i => negb (WildcardMatch i im)) interfaces) patterns.

Definition match_implements (patterns : list (list Z)) (msg : Message) : res bool :=
  if negb (bool_decide (GetInterface msg = lit "org.alljoyn.About")) || negb (bool_decide (GetMemberName msg = lit "Announce")) then Ok false
  else
    match UnmarshalArgs_ msg (lit "qqa(oas)a{sv}") with
    | Undef => Undef
    | Fail _ => Ok false
    | Ok msgArgs =>
        match msgArgs !! 2%nat with
        | None => Ok false
        | Some arg =>
            let! (status, out) := Get arg (lit "a(oas)") [true; true] in
            if decide (status = ER_OK) then
              match out with
              | [V_SIZE _; V_ARGS objectDescriptions] =>
                  let! interfaces := interfaces_of objectDescriptions in
                  match interfaces with Some l => Ok (implements_all patterns l) | None => Ok false end
              | _ => Undef
              end
            else Ok false
        end
    end.

Definition IsMatch (r : Rule) (msg : Message) : res bool :=
  if negb (type r =? MESSAGE_INVALID) && negb (type r =? GetType msg) then Ok false
  else if differs (sender r) (GetSender msg) then Ok false
  else if differs (iface r) (GetInterface msg) then Ok false
  else if differs (member r) (GetMemberName msg) then Ok false
  else if differs (path r) (GetObjectPath msg) then Ok false
  else if differs (destination r) (GetDestination msg) then Ok false
  else
    let! ok :=
      match args r with
      | [] => Ok true
      | l => match UnmarshalArgs_ msg (GetSignature_ msg) with Undef => Undef | Fail _ => Ok false | Ok msgArgs => match_args l msgArgs end
      end in
    if negb ok then Ok false
    else
      let! ok := match implements r with [] => Ok true | l => match_implements l msg end in
      if negb ok then Ok false
      else Ok match sessionless r with
              | SESSIONLESS_NOT_SPECIFIED => true
              | SESSIONLESS_TRUE => IsSessionless msg
              | SESSIONLESS_FALSE => negb (IsSessionless msg)
              end.

(** * The table *)

Section table.
Context {EP : Type} `{Countable EP}.

(** [std::multimap<BusEndpoint, Rule>]: the rules of an endpoint in the order in which
    they were added. *)
Definition Table := gmap EP (list Rule).

Definition equal_range (t : Table) (ep : EP) : list Rule := default [] (t !! ep).

(** An endpoint without rules has no entries. *)
Definition set_range (t : Table) (ep : EP) (l : list Rule) : Table :=
  match l with [] => delete ep t | _ => <[ep := l]> t end.

Definition AddRule (t : Table) (ep : EP) (rule : Rule) : QStatus * Table :=
  (ER_OK, set_range t ep (equal_range t ep ++ [rule])).

(** The loop that erases the first rule that is equal. *)
Fixpoint erase_first (rule : Rule) (l : list Rule) : option (list Rule) :=
  match l with
  | [] => None
  | r :: l => if Rule_eq r rule then Some l else (fun l => r :: l) <$> erase_first rule l
  end.

Definition RemoveRule (t : Table) (ep : EP) (rule : Rule) : QStatus * Table :=
  match erase_first rule (equal_range t ep) with
  | Some l => (ER_OK, set_range t ep l)
  | None => (ER_BUS_MATCH_RULE_NOT_FOUND, t)
  end.

Definition RemoveAllRules (t : Table) (ep : EP) : QStatus * Table := (ER_OK, delete ep t).

Fixpoint send_loop (l : list Rule) (msg : Message) : res bool :=
  match l with
  | [] => Ok false
  | r :: l =>
      let! match_ := IsMatch r msg in
      if match_ : bool then Ok (negb (bool_decide (sessionless r = SESSIONLESS_TRUE))) else send_loop l msg
  end.

Definition OkToSend (t : Table) (msg : Message) (ep : EP) : res bool := send_loop (equal_range t ep) msg.
End table.

End RuleTable.
