(* ===== verification/RuleTableProofs.v ===== *)
(** A match rule that is printed and parsed again is the same rule; the table keeps the
    rules of every endpoint apart; and when a message is sent to an endpoint. *)
From stdpp Require Import strings gmap sorting.
From S2P Require Import Prelude Types SignatureUtils SigMachine SigGrammar SigBuild Marshal Unmarshal BusUtil StrSet IPAddress StringUtil Header MsgArgFormat MsgArgFormatProofs RuleTable.
Import MsgArgFormat RuleTable.

(** * Clauses *)

Definition quote : Z := 39.
Definition comma : Z := 44.
Definition equals : Z := 61.

(** A value that ends neither its quotes nor its clause nor the text. *)
Definition plain (s : list Z) : Prop := (comma ∉ s) /\ (quote ∉ s) /\ (0 ∉ s).
Definition plain_key (s : list Z) : Prop := plain s /\ (equals ∉ s).

Definition clause (key value : list Z) : list Z := key ++ equals :: quote :: value ++ [quote].

Lemma strchr_here s c t : c ∉ s -> strchr (s ++ c :: t) c = Some (length s).
Proof.
  induction s as [|x s IH]; intros Hc; cbn [app strchr]; [by rewrite Z.eqb_refl|].
  apply not_elem_of_cons in Hc as [Hx Hc]. rewrite (proj2 (Z.eqb_neq _ _)) by done. by rewrite IH.
Qed.

Lemma strchr_none s c : c ∉ s -> strchr s c = None.
Proof.
  induction s as [|x s IH]; intros Hc; cbn [strchr]; [done|].
  apply not_elem_of_cons in Hc as [Hx Hc]. rewrite (proj2 (Z.eqb_neq _ _)) by done. by rewrite IH.
Qed.

Lemma clause_no_comma key value : plain_key key -> plain value -> comma ∉ clause key value.
Proof.
  intros [[Hk _] _] [Hv _]. unfold clause. rewrite elem_of_app, !elem_of_cons, elem_of_app, elem_of_cons, elem_of_nil.
  intros [?|[?|[?|[?|[?|?]]]]]; done.
Qed.

(** What follows a clause: nothing, or a comma and the rest. *)
Definition follows (tail rest : list Z) : Prop := tail = [] /\ rest = [] \/ tail = comma :: rest.

Lemma clause_end key value tail rest : plain_key key -> plain value -> follows tail rest ->
  default (length (clause key value ++ tail)) (strchr (clause key value ++ tail) comma) = length (clause key value) /\
  drop (S (length (clause key value))) (clause key value ++ tail) = rest.
Proof.
  intros Hk Hv [[-> ->] | ->]; pose proof (clause_no_comma key value Hk Hv).
  - rewrite app_nil_r, strchr_none by done. split; [done|]. apply drop_ge. lia.
  - rewrite strchr_here by done. split; [done|]. by rewrite drop_app_ge, Nat.sub_succ_l, Nat.sub_diag by lia.
Qed.

(** A turn of the loop on a clause. *)
Lemma rule_loop_clause fuel key value tail rest r : plain_key key -> plain value -> follows tail rest ->
  rule_loop (S fuel) (clause key value ++ tail) r =
  match assign (clause key value ++ tail) (length key) (value ++ quote :: tail) value r with
  | None => Ok (ER_FAIL, r)
  | Some r => rule_loop fuel rest r
  end.
Proof.
  intros Hk Hv Hf. destruct (clause_end key value tail rest Hk Hv Hf) as [He Hd].
  assert (clause key value ++ tail = key ++ equals :: quote :: value ++ quote :: tail) as Ht.
  { unfold clause. rewrite <- app_assoc. cbn [app]. by rewrite <- app_assoc. }
  assert (clause key value ++ tail <> []) as Hne by (rewrite Ht; by destruct key).
  cbn [rule_loop]. fold comma equals quote. rewrite He.
  destruct (clause key value ++ tail) as [|c s] eqn:E; [done|]. rewrite Hd. rewrite Ht.
  destruct Hk as [[_ _] Hk], Hv as [_ [Hv _]]. rewrite strchr_here by done.
  assert ((length (clause key value) <=? length key)%nat = false) as -> by (unfold clause; rewrite length_app; cbn; apply Nat.leb_gt; lia).
  assert (drop (S (length key)) (key ++ equals :: quote :: value ++ quote :: tail) = quote :: value ++ quote :: tail) as ->
    by (by rewrite drop_app_ge, Nat.sub_succ_l, Nat.sub_diag by lia).
  change (strchr (quote :: value ++ quote :: tail) quote) with (Some 0%nat). cbv iota beta.
  change (drop 1 (quote :: value ++ quote :: tail)) with (value ++ quote :: tail). rewrite strchr_here by done. by rewrite take_app_length.
Qed.

(** * Lists of clauses *)

(** A clause with the change it makes to the rule. *)
Record step := { k : list Z; v : list Z; f : Rule -> Rule }.
Definition sets (s : step) : Prop :=
  plain_key (k s) /\ plain (v s) /\
  forall r tail, assign (clause (k s) (v s) ++ tail) (length (k s)) (v s ++ quote :: tail) (v s) r = Some (f s r).

Fixpoint join (l : list step) : list Z :=
  match l with
  | [] => []
  | [s] => clause (k s) (v s)
  | s :: l => clause (k s) (v s) ++ comma :: join l
  end.

Lemma clause_nonempty key value : clause key value <> [].
Proof. unfold clause. by destruct key. Qed.

Lemma rule_loop_join l : Forall sets l -> forall fuel r, (length (join l) <= fuel)%nat ->
  rule_loop fuel (join l) r = Ok (ER_OK, fold_left (fun r s => f s r) l r).
Proof.
  induction 1 as [|s l (Hk & Hv & Ha) _ IH]; intros fuel r Hf; [by destruct fuel|]. cbn [fold_left].
  assert (exists tail rest, join (s :: l) = clause (k s) (v s) ++ tail /\ follows tail rest /\ rest = join l) as (tail & rest & Hj & Hfo & ->).
  { destruct l as [|s' l]; [exists [], []|exists (comma :: join (s' :: l)), (join (s' :: l))]; cbn [join]; rewrite ?app_nil_r; unfold follows; eauto. }
  rewrite Hj in *. destruct fuel as [|fuel].
  - exfalso. pose proof (clause_nonempty (k s) (v s)). destruct (clause (k s) (v s)); cbn in *; [done|lia].
  - rewrite rule_loop_clause with (rest := join l) by done. rewrite Ha. apply IH.
    rewrite length_app in Hf. pose proof (clause_nonempty (k s) (v s)). destruct (clause (k s) (v s)); [done|].
    destruct Hfo as [[-> ->] | ->]; cbn in *; lia.
Qed.

(** Printing one more clause. *)
Lemma join_nonempty s l : join (s :: l) <> [].
Proof. cbn [join]. destruct l; [apply clause_nonempty|]. by intros [_ ?]%app_nil. Qed.

Lemma join_cons_cons s s' l : join (s :: s' :: l) = clause (k s) (v s) ++ comma :: join (s' :: l).
Proof. done. Qed.

Lemma join_last l s s' : join ((s' :: l) ++ [s]) = join (s' :: l) ++ comma :: clause (k s) (v s).
Proof.
  revert s'. induction l as [|s'' l IH]; intros s'; [done|]. cbn [app] in *.
  rewrite !join_cons_cons, IH. by rewrite <- app_assoc.
Qed.

Lemma join_snoc l s : add_clause (join l) (k s) (v s) = join (l ++ [s]).
Proof.
  unfold add_clause. change (k s ++ lit "='" ++ v s ++ lit "'") with (clause (k s) (v s)).
  destruct l as [|s' l]; [done|]. rewrite join_last. pose proof (join_nonempty s' l).
  destruct (join (s' :: l)); [done|]. by rewrite <- app_assoc.
Qed.

(** * The clauses of a rule *)

Definition the_type (t : Z) : list step :=
  match typeStr t with Ok s => [{| k := lit "type"; v := s; f := fun r => with_type r t |}] | _ => [] end.
Definition one (key value : list Z) (set : Rule -> list Z -> Rule) : list step :=
  match value with [] => [] | _ => [{| k := key; v := value; f := fun r => set r value |}] end.
Definition arg_key (i : Z) : list Z := lit "arg" ++ match number i with Ok n => n | _ => [] end.
Definition arg_step (a : Z * list Z) : step := {| k := arg_key a.1; v := a.2; f := fun r => with_args r (args_set a.1 a.2 (args r)) |}.
Definition implements_step (s : list Z) : step := {| k := lit "implements"; v := s; f := fun r => with_implements r (set_insert s (implements r)) |}.
Definition the_sessionless (s : Sessionless) : list step :=
  match s with SESSIONLESS_NOT_SPECIFIED => [] | _ => [{| k := lit "sessionless"; v := lit "t"; f := fun r => with_sessionless r SESSIONLESS_TRUE |}] end.

Definition steps (r : Rule) : list step :=
  the_type (type r) ++ one (lit "sender") (sender r) with_sender ++ one (lit "interface") (iface r) with_iface
  ++ one (lit "member") (member r) with_member ++ one (lit "path") (path r) with_path
  ++ one (lit "destination") (destination r) with_destination ++ map arg_step (args r) ++ map implements_step (implements r)
  ++ the_sessionless (sessionless r).

(** Rules whose text can be read back: values without quotes and commas, indices below
    64 and the containers in order. *)
Record wf_rule (r : Rule) : Prop := {
  wf_type : 0 <= type r <= 4;
  wf_sender : plain (sender r);
  wf_iface : plain (iface r);
  wf_member : plain (member r);
  wf_path : plain (path r);
  wf_destination : plain (destination r);
  wf_implements : Forall plain (implements r) /\ StronglySorted (fun s t => lex_lt s t = true) (implements r);
  wf_args : Forall (fun a => 0 <= a.1 < 64 /\ plain a.2) (args r) /\ StronglySorted Z.lt (args r).*1
}.

#[local] Instance plain_dec s : Decision (plain s).
Proof. unfold plain. apply _. Defined.
#[local] Instance plain_key_dec s : Decision (plain_key s).
Proof. unfold plain_key. apply _. Defined.

Ltac decided := apply (bool_decide_unpack _); vm_compute; exact I.

(** The tests on the key are decided by the first characters of the clause. *)
Ltac misses := repeat match goal with |- context [starts_with ?s ?p] =>
  assert (starts_with s p = false) as -> by (apply bool_decide_eq_false; cbn; discriminate) end.
Ltac assign_key := intros ? ?; unfold assign; misses; try reflexivity.

Lemma sets_one key value set : plain_key key -> plain value ->
  (forall r tail, assign (clause key value ++ tail) (length key) (value ++ quote :: tail) value r = Some (set r value)) ->
  Forall sets (one key value set).
Proof. intros Hk Hv Ha. unfold one. destruct value; [constructor|]. constructor; [by split_and!|constructor]. Qed.

Lemma sets_type t : Forall sets (the_type t).
Proof.
  unfold the_type. destruct (typeStr t) as [s| |] eqn:E; [|constructor..].
  assert (t = 1 \/ t = 2 \/ t = 3 \/ t = 4) as Ht by (unfold typeStr in E; repeat case_match; auto; discriminate).
  constructor; [|constructor]. destruct Ht as [-> | [-> | [-> | ->]]]; injection E as <-;
    (split; [decided|split; [decided|assign_key]]).
Qed.

Lemma lookup_number i : 0 <= i < 64 ->
  exists n, number i = Ok n /\ Forall (fun c => 48 <= c <= 57) n /\ n <> [] /\ StringToU32 n 10 64 = i.
Proof.
  intros Hi. assert (forallb (fun i => match number i with
    | Ok n => forallb (fun c => (48 <=? c) && (c <=? 57)) n && negb (bool_decide (n = [])) && (StringToU32 n 10 64 =? i) | _ => false end) (seqZ 0 64) = true) as Hall by (vm_compute; reflexivity).
  rewrite forallb_forall in Hall. specialize (Hall i). rewrite <- list_elem_of_In, elem_of_seqZ in Hall. specialize (Hall Hi).
  destruct (number i) as [n| |]; [|done..]. exists n. apply andb_prop in Hall as [Hall Hs]. apply andb_prop in Hall as [Hd Hne].
  split; [done|]. split; [|split; [by destruct n|by apply Z.eqb_eq]].
  apply Forall_forall. intros c Hc. rewrite forallb_forall in Hd. rewrite list_elem_of_In in Hc. specialize (Hd c Hc). lia.
Qed.

Lemma sets_arg a : 0 <= a.1 < 64 -> plain a.2 -> sets (arg_step a).
Proof.
  intros Hi Hv. destruct (lookup_number a.1 Hi) as (n & Hn & Hd & Hne & Hs). unfold arg_step, sets, arg_key. cbn [k v f]. rewrite Hn.
  assert (forall c, c < 48 \/ 57 < c -> c ∉ n) as Hc.
  { intros c Hc Hin. rewrite Forall_forall in Hd. specialize (Hd c Hin). lia. }
  split; [|split; [done|]].
  - split; [split; [|split]|]; rewrite elem_of_app; (intros [H|H]; [revert H; apply (bool_decide_unpack _); vm_compute; exact I|revert H; apply Hc; unfold comma, quote, equals; lia]).
  - intros r tail. unfold assign. misses. assert (take (length (lit "arg" ++ n) - 3) (drop 3 (clause (lit "arg" ++ n) a.2 ++ tail)) = n) as ->.
    { unfold clause. rewrite <- !app_assoc, length_app. change (length (lit "arg")) with 3%nat.
      replace (3 + length n - 3)%nat with (length n) by lia.
      rewrite drop_app_ge by done. cbn [length lit String.list_ascii_of_string map Nat.sub]. rewrite drop_0. by rewrite take_app_length. }
    rewrite Hs. by rewrite (proj2 (Z.ltb_lt _ _)) by lia.
Qed.

Lemma sets_implements s : plain s -> sets (implements_step s).
Proof. intros Hs. split; [decided|]. split; [done|]. cbn [implements_step k v f]. assign_key. Qed.

Lemma sets_sessionless s : Forall sets (the_sessionless s).
Proof.
  unfold the_sessionless. destruct s; repeat constructor; try decided; cbn [k v f]; assign_key.
Qed.

Lemma steps_sets r : wf_rule r -> Forall sets (steps r).
Proof.
  intros [Ht Hs Hi Hm Hp Hd [Him _] [Har _]]. unfold steps. rewrite !Forall_app, !Forall_map.
  split_and!; [apply sets_type|apply sets_one; [decided|done|assign_key]..| | |apply sets_sessionless].
  - eapply Forall_impl; [exact Har|]. intros a [??]. by apply sets_arg.
  - eapply Forall_impl; [exact Him|]. intros s. apply sets_implements.
Qed.

(** * Printing gives the clauses *)

Lemma print_args_join l : Forall (fun a => 0 <= a.1 < 64) l -> forall p, print_args l (join p) = Ok (join (p ++ map arg_step l)).
Proof.
  induction 1 as [|[i w] l Hi _ IH]; intros p; cbn [print_args map]; [by rewrite app_nil_r|].
  destruct (lookup_number i Hi) as (n & Hn & _). rewrite Hn. cbn [rbind].
  assert (lit "arg" ++ n = k (arg_step (i, w))) as -> by (cbn [arg_step k arg_key]; unfold arg_key; cbn [fst]; by rewrite Hn).
  change w with (v (arg_step (i, w))) at 1. rewrite join_snoc, IH, <- app_assoc. done.
Qed.

Lemma one_join key value set p : match value with [] => join p | z :: l => add_clause (join p) key (z :: l) end = join (p ++ one key value set).
Proof.
  unfold one. destruct value as [|c value]; [by rewrite app_nil_r|].
  exact (join_snoc p {| k := key; v := c :: value; f := fun r => set r (c :: value) |}).
Qed.

Lemma implements_join l : forall p, fold_left (fun rule v => add_clause rule (lit "implements") v) l (join p) = join (p ++ map implements_step l).
Proof.
  induction l as [|s l IH]; intros p; cbn [fold_left map]; [by rewrite app_nil_r|].
  change (add_clause (join p) (lit "implements") s) with (add_clause (join p) (k (implements_step s)) (v (implements_step s))).
  rewrite join_snoc, IH, <- app_assoc. done.
Qed.

Lemma ToString_join r : wf_rule r -> ToString r = Ok (join (steps r)).
Proof.
  intros [Ht _ _ _ _ _ _ [Har _]]. unfold ToString, steps.
  assert ((if negb (type r =? MESSAGE_INVALID) then let! t := typeStr (type r) in Ok (lit "type='" ++ t ++ lit "'") else Ok []) = Ok (join (the_type (type r)))) as ->.
  { assert (type r = 0 \/ type r = 1 \/ type r = 2 \/ type r = 3 \/ type r = 4) as H by lia.
    by destruct H as [-> | [-> | [-> | [-> | ->]]]]. }
  cbn [rbind]. cbv zeta. rewrite (one_join _ _ with_sender), (one_join _ _ with_iface), (one_join _ _ with_member), (one_join _ _ with_path), (one_join _ _ with_destination).
  rewrite print_args_join by (eapply Forall_impl; [exact Har|]; by intros ? [? _]). cbn [rbind]. rewrite implements_join, <- !app_assoc.
  destruct (sessionless r); cbn [the_sessionless]; [by rewrite !app_nil_r|..];
    set (s := {| k := lit "sessionless"; v := lit "t"; f := fun r => with_sessionless r SESSIONLESS_TRUE |});
    change (lit "sessionless") with (k s); change (lit "t") with (v s); rewrite join_snoc, <- !app_assoc; done.
Qed.

(** * The clauses give the rule *)

Lemma args_set_last i w l : Forall (fun a => a.1 < i) l -> args_set i w l = l ++ [(i, w)].
Proof.
  induction 1 as [|[j u] l Ht _ IH]; [done|]. cbn [args_set app fst] in *.
  rewrite (proj2 (Z.ltb_ge _ _)), (proj2 (Z.ltb_lt _ _)) by lia. by rewrite IH.
Qed.

Lemma fold_implements l : forall r, StronglySorted (fun s t => lex_lt s t = true) (implements r ++ l) ->
  fold_left (fun r s => f s r) (map implements_step l) r = with_implements r (implements r ++ l).
Proof.
  induction l as [|s l IH]; intros r Hs; cbn [map fold_left]; [rewrite app_nil_r; by destruct r|].
  rewrite IH; cbn [implements_step f with_implements implements].
  - rewrite set_insert_last, <- app_assoc; [done|].
    apply StronglySorted_app in Hs as (Hs & _ & _). apply Forall_forall. intros t Ht. apply Hs; [done|left].
  - rewrite set_insert_last, <- app_assoc; [done|].
    apply StronglySorted_app in Hs as (Hs & _ & _). apply Forall_forall. intros t Ht. apply Hs; [done|left].
Qed.

Lemma fold_args l : forall r, StronglySorted Z.lt (args r ++ l).*1 ->
  fold_left (fun r s => f s r) (map arg_step l) r = with_args r (args r ++ l).
Proof.
  induction l as [|[i w] l IH]; intros r Hs; cbn [map fold_left]; [rewrite app_nil_r; by destruct r|].
  assert (args_set i w (args r) = args r ++ [(i, w)]) as Ha.
  { apply args_set_last, Forall_forall. intros a Ha. rewrite fmap_app in Hs. apply StronglySorted_app in Hs as (Hs & _ & _).
    apply Hs; [by apply list_elem_of_fmap_2|left]. }
  rewrite IH; cbn [arg_step f with_args args fst snd]; rewrite Ha, <- app_assoc; done.
Qed.

Lemma fold_one key value set l r : fold_left (fun r s => f s r) (one key value set ++ l) r =
  fold_left (fun r s => f s r) l (match value with [] => r | _ => set r value end).
Proof. unfold one. by destruct value. Qed.

Lemma fold_steps r : wf_rule r ->
  fold_left (fun r s => f s r) (steps r) new_Rule =
  with_sessionless r (match sessionless r with SESSIONLESS_NOT_SPECIFIED => SESSIONLESS_NOT_SPECIFIED | _ => SESSIONLESS_TRUE end).
Proof.
  intros [Ht _ _ _ _ _ [_ Him] [_ Har]]. unfold steps. rewrite fold_left_app.
  assert (fold_left (fun r s => f s r) (the_type (type r)) new_Rule = with_type new_Rule (type r)) as ->.
  { assert (type r = 0 \/ type r = 1 \/ type r = 2 \/ type r = 3 \/ type r = 4) as H by lia.
    by destruct H as [-> | [-> | [-> | [-> | ->]]]]. }
  rewrite !fold_one, fold_left_app, fold_args, fold_left_app, fold_implements.
  - destruct r as [t s i m p d ss im ar]. cbn [type sender iface member path destination sessionless implements args].
    by destruct s, i, m, p, d, ss.
  - destruct r as [t s i m p d ss im ar]. cbn [type sender iface member path destination sessionless implements args] in *.
    by destruct s, i, m, p, d.
  - destruct r as [t s i m p d ss im ar]. cbn [type sender iface member path destination sessionless implements args] in *.
    by destruct s, i, m, p, d.
Qed.

(** The text of a rule ends where its clauses do. *)
Lemma until_nul_no_nul s : 0 ∉ s -> until_nul s = s.
Proof.
  induction s as [|c s IH]; intros H; [done|]. apply not_elem_of_cons in H as [Hc H]. cbn [until_nul].
  destruct (Z.eqb_spec c 0); [congruence|]. by rewrite IH.
Qed.

Lemma join_no_nul l : Forall sets l -> 0 ∉ join l.
Proof.
  assert (forall s, sets s -> 0 ∉ clause (k s) (v s)) as Hc.
  { intros s (((_ & _ & Hk) & _) & (_ & _ & Hv) & _). unfold clause, equals, quote.
    rewrite elem_of_app, !elem_of_cons, elem_of_app, elem_of_cons, elem_of_nil. intros [?|[?|[?|[?|[?|?]]]]]; done. }
  induction 1 as [|s l Hs _ IH]; [apply not_elem_of_nil|]. cbn [join]. destruct l; [by apply Hc|].
  rewrite elem_of_app, elem_of_cons. intros [H|[H|H]]; [by apply (Hc s)|done|done].
Qed.

Lemma Rule_of_printed r : wf_rule r -> exists s, ToString r = Ok s /\
  Rule_of s = Ok (ER_OK, with_sessionless r (match sessionless r with SESSIONLESS_NOT_SPECIFIED => SESSIONLESS_NOT_SPECIFIED | _ => SESSIONLESS_TRUE end)).
Proof.
  intros Hr. exists (join (steps r)). split; [by apply ToString_join|]. unfold Rule_of.
  rewrite until_nul_no_nul by by apply join_no_nul, steps_sets.
  by rewrite rule_loop_join, fold_steps by (try apply steps_sets; done || lia).
Qed.

(** C12: A match rule whose values hold no quotes, commas and NULs, whose argument indices
    are below 64 and whose type is one of the four or none is printed to a text from which
    the constructor makes the same rule, unless it asks for messages that are not
    sessionless. *)
Theorem Rule_roundtrip (r : Rule) : wf_rule r -> sessionless r <> SESSIONLESS_FALSE ->
  exists s, ToString r = Ok s /\ Rule_of s = Ok (ER_OK, r).
Proof.
  intros Hr Hs. destruct (Rule_of_printed r Hr) as (s & Hp & Ho). exists s. split; [done|]. rewrite Ho.
  by destruct r as [t ? ? ? ? ? []].
Qed.

(** A rule with sessionless='f' is printed as one with sessionless='t', which
    matches the other messages. *)
Theorem ToString_sessionless_false (r : Rule) : wf_rule r -> sessionless r = SESSIONLESS_FALSE ->
  exists s, ToString r = Ok s /\ Rule_of s = Ok (ER_OK, with_sessionless r SESSIONLESS_TRUE).
Proof. intros Hr Hs. destruct (Rule_of_printed r Hr) as (s & Hp & Ho). exists s. by rewrite Hs in Ho. Qed.

Definition sample_rule (s : Sessionless) : Rule :=
  {| type := MESSAGE_SIGNAL; sender := lit ":1.2"; iface := lit "org.alljoyn.About"; member := []; path := []; destination := [];
     sessionless := s; implements := [lit "a.b*"; lit "c.d"]; args := [(0, lit "x=1"); (12, [])] |}.

Lemma sample_rule_wf s : wf_rule (sample_rule s).
Proof.
  constructor; cbn [sample_rule type sender iface member path destination implements args]; try decided; try lia.
Qed.

Lemma Rule_roundtrip_witness : exists s, ToString (sample_rule SESSIONLESS_TRUE) = Ok s /\ Rule_of s = Ok (ER_OK, sample_rule SESSIONLESS_TRUE).
Proof. apply (Rule_roundtrip (sample_rule SESSIONLESS_TRUE)); [apply sample_rule_wf|discriminate]. Defined.

Lemma ToString_sessionless_false_witness :
  exists s, ToString (sample_rule SESSIONLESS_FALSE) = Ok s /\ Rule_of s = Ok (ER_OK, sample_rule SESSIONLESS_TRUE).
Proof. apply (ToString_sessionless_false (sample_rule SESSIONLESS_FALSE)); [apply sample_rule_wf|reflexivity]. Defined.

(** The keys and the types are compared by prefix. *)
Lemma Rule_of_prefixes :
  Rule_of (lit "type=''") = Ok (ER_OK, with_type new_Rule MESSAGE_SIGNAL) /\
  Rule_of (lit "typewriter='m'") = Ok (ER_OK, with_type new_Rule MESSAGE_METHOD_CALL) /\
  Rule_of (lit "sender='a,b'") = Ok (ER_FAIL, with_sender new_Rule (lit "a,b")).
Proof. split_and!; vm_compute; reflexivity. Qed.

(** * Which messages match

    What a message says to a rule: its arguments, each a text or something else, or
    [None] where they cannot be unmarshaled; and the objects of the announcement that
    its arguments may be, each a path and the names of its interfaces. *)
Definition says_text (a : MsgArg) (t : option (list Z)) : Prop :=
  match t with Some s => no_nul s /\ a = string_arg TY_STRING s | None => typeId a <> ALLJOYN_STRING end.

Definition object_arg (d : list Z * list (list Z)) : MsgArg :=
  A_STRUCT [string_arg TY_OBJECT_PATH d.1; A_ARRAY (Some [115]) (string_arg TY_STRING <$> d.2)].
Definition objects_arg (ds : list (list Z * list (list Z))) : MsgArg := A_ARRAY (Some (lit "(oas)")) (object_arg <$> ds).

Record says (msg : Message) (texts : option (list (option (list Z)))) (objects : option (list (list Z * list (list Z)))) : Prop := {
  says_texts : match UnmarshalArgs_ msg (GetSignature_ msg), texts with
    | Ok l, Some ts => Forall2 says_text l ts
    | Fail _, None => True
    | _, _ => False
    end;
  says_objects : match UnmarshalArgs_ msg (lit "qqa(oas)a{sv}"), objects with
    | Ok [_; _; descriptions; _], Some ds => descriptions = objects_arg ds /\ Forall (fun d => no_nul d.1 /\ Forall no_nul d.2) ds
    | Fail _, None => True
    | _, _ => False
    end
}.

(** A message matches a rule when every key the rule names agrees with it. *)
Definition agrees (s t : list Z) : Prop := s = [] \/ s = t.

Record wanted (r : Rule) (msg : Message) (texts : option (list (option (list Z)))) (objects : option (list (list Z * list (list Z)))) : Prop := {
  wanted_type : type r = MESSAGE_INVALID \/ type r = GetType msg;
  wanted_sender : agrees (sender r) (GetSender msg);
  wanted_iface : agrees (iface r) (GetInterface msg);
  wanted_member : agrees (member r) (GetMemberName msg);
  wanted_path : agrees (path r) (GetObjectPath msg);
  wanted_destination : agrees (destination r) (GetDestination msg);
  wanted_args : forall i s, (i, s) ∈ args r -> exists ts, texts = Some ts /\ ts !! Z.to_nat i = Some (Some s);
  wanted_implements : forall p, p ∈ implements r ->
    GetInterface msg = lit "org.alljoyn.About" /\ GetMemberName msg = lit "Announce" /\
    exists ds d name, objects = Some ds /\ d ∈ ds /\ name ∈ d.2 /\ WildcardMatch name p = false;
  wanted_sessionless : match sessionless r with
    | SESSIONLESS_NOT_SPECIFIED => True
    | SESSIONLESS_TRUE => IsSessionless msg = true
    | SESSIONLESS_FALSE => IsSessionless msg = false
    end
}.

Lemma differs_agrees s t : differs s t = false <-> agrees s t.
Proof. unfold differs, agrees. repeat case_bool_decide; naive_solver. Qed.

(** The loop over the arguments of the rule. *)
Lemma match_args_spec msgArgs ts : Forall2 says_text msgArgs ts -> forall l, exists b,
  match_args l msgArgs = Ok b /\ (b = true <-> forall i s, (i, s) ∈ l -> ts !! Z.to_nat i = Some (Some s)).
Proof.
  intros Hts. induction l as [|[i v] l (b & IH & Hb)]; [exists true; split; [done|]; set_solver|].
  assert (forall c : bool, (ts !! Z.to_nat i = Some (Some v) -> c = true -> b = true) ->
    (c = true -> b = true /\ ts !! Z.to_nat i = Some (Some v)) -> (b = true -> ts !! Z.to_nat i = Some (Some v) -> c = true) ->
    (c = true <-> forall i' s, (i', s) ∈ (i, v) :: l -> ts !! Z.to_nat i' = Some (Some s))) as Hc.
  { intros c _ H1 H2. split.
    - intros [Hbt Hi]%H1 i' s [[= -> ->]|Hl]%elem_of_cons; [done|]. by apply Hb.
    - intros H. apply H2; [|apply H; by left]. apply Hb. intros i' s Hl. apply H. by right. }
  cbn [match_args]. destruct (msgArgs !! Z.to_nat i) as [a|] eqn:Ea.
  - destruct (Forall2_lookup_l _ _ _ _ _ Hts Ea) as (t & Et & Hs). destruct t as [s|]; cbn [says_text] in Hs.
    + destruct Hs as [Hn ->]. unfold string_arg. rewrite c_str_of_text by done. cbn [rbind].
      case_bool_decide; [exists b|exists false]; (split; [done|]; apply Hc; rewrite Et; naive_solver).
    + exists false. split; [|apply Hc; rewrite Et; naive_solver].
      destruct a; try done; by destruct t.
  - exists false. split; [done|]. assert (ts !! Z.to_nat i = None) as En.
    { apply lookup_ge_None. rewrite <- (Forall2_length _ _ _ Hts). by apply lookup_ge_None. }
    apply Hc; rewrite En; naive_solver.
Qed.

(** What Get stores for the formats IsMatch uses. *)
Lemma Get_gets t outs a : gets t outs a -> zlen (print t) <= 255 -> Get a (print t) (replicate (length outs) true) = Ok (ER_OK, outs).
Proof.
  intros Hf Hn. pose proof (print_pos t). unfold Get, VParseArgs. rewrite (proj2 (Z.eqb_neq _ _)) by lia.
  pose proof (gets_one t outs a (length (print t)) [] [] Hf) as Hg. unfold room_for in Hg. rewrite !app_nil_r in Hg.
  rewrite Hg by lia. done.
Qed.

Lemma Get_string s : Get (string_arg TY_STRING s) (lit "s") [true] = Ok (ER_OK, [V_STR (text s)]).
Proof. by apply (Get_gets (SLeaf 115) [V_STR (text s)]); [eapply gets_leaf|]. Qed.

Definition object_ty : sigty := SStruct [SLeaf 111; SArray (SLeaf 115)].

Lemma Get_object d : Get (object_arg d) (lit "(oas)") [true; true; true] =
  Ok (ER_OK, [V_STR (text d.1); V_SIZE (zlen d.2); V_ARGS (string_arg TY_STRING <$> d.2)]).
Proof.
  apply (Get_gets object_ty [V_STR (text d.1); V_SIZE (zlen d.2); V_ARGS (string_arg TY_STRING <$> d.2)]); [|done].
  apply gets_struct; [reflexivity|]. apply (gets_cons _ _ [_]); [by eapply gets_leaf|].
  apply (gets_cons _ _ [_; _] []); [|apply gets_nil]. apply gets_array; [done..|]. cbn. by rewrite length_fmap.
Qed.

Lemma Get_objects ds : Get (objects_arg ds) (lit "a(oas)") [true; true] = Ok (ER_OK, [V_SIZE (zlen ds); V_ARGS (object_arg <$> ds)]).
Proof.
  apply (Get_gets (SArray object_ty) [V_SIZE (zlen ds); V_ARGS (object_arg <$> ds)]); [|done].
  apply gets_array; [reflexivity|done..|]. cbn. by rewrite length_fmap.
Qed.

Lemma names_of_strings l : Forall no_nul l -> names_of (string_arg TY_STRING <$> l) = Ok (Some l).
Proof.
  induction 1 as [|s l Hs _ IH]; [done|]. cbn [fmap list_fmap names_of]. unfold text_of_arg. rewrite Get_string. cbn [rbind].
  rewrite decide_True by done. rewrite c_str_of_text by done. cbn [rbind]. rewrite IH. done.
Qed.

Lemma interfaces_of_objects ds : Forall (fun d => no_nul d.1 /\ Forall no_nul d.2) ds ->
  interfaces_of (object_arg <$> ds) = Ok (Some (concat ds.*2)).
Proof.
  induction 1 as [|d ds [_ Hd] _ IH]; [done|]. cbn [fmap list_fmap interfaces_of]. rewrite Get_object. cbn [rbind].
  rewrite decide_True by done. rewrite names_of_strings by done. cbn [rbind]. rewrite IH. done.
Qed.

Lemma implements_all_spec ps l : implements_all ps l = true <-> forall p, p ∈ ps -> exists name, name ∈ l /\ WildcardMatch name p = false.
Proof.
  unfold implements_all. rewrite forallb_forall. setoid_rewrite existsb_exists. setoid_rewrite negb_true_iff.
  by setoid_rewrite <- list_elem_of_In.
Qed.

Lemma elem_of_concat {A} (x : A) ls : x ∈ concat ls <-> exists l, l ∈ ls /\ x ∈ l.
Proof. rewrite list_elem_of_In, in_concat. by setoid_rewrite <- list_elem_of_In. Qed.

Lemma match_implements_spec msg texts objects ps : says msg texts objects -> ps <> [] -> exists b, match_implements ps msg = Ok b /\
  (b = true <-> forall p, p ∈ ps -> GetInterface msg = lit "org.alljoyn.About" /\ GetMemberName msg = lit "Announce" /\
    exists ds d name, objects = Some ds /\ d ∈ ds /\ name ∈ d.2 /\ WildcardMatch name p = false).
Proof.
  intros [_ Ho] Hps. assert (exists p, p ∈ ps) as [p0 Hp0] by (destruct ps as [|p ps]; [done|]; exists p; by left).
  unfold match_implements. destruct (bool_decide (GetInterface msg = _)) eqn:E1; cbn [negb orb];
    [apply bool_decide_eq_true in E1|apply bool_decide_eq_false in E1; exists false; split; [done|]; split; [done|]; intros H;
      by destruct (H p0 Hp0)].
  destruct (bool_decide (GetMemberName msg = _)) eqn:E2; cbn [negb];
    [apply bool_decide_eq_true in E2|apply bool_decide_eq_false in E2; exists false; split; [done|]; split; [done|]; intros H;
      by destruct (H p0 Hp0) as (_ & ? & _)].
  destruct (UnmarshalArgs_ msg _) as [l|st|]; [|destruct objects; [done|]; exists false; split; [done|]; split; [done|]; intros H;
    destruct (H p0 Hp0) as (_ & _ & ds & _ & _ & [=] & _)|by destruct objects].
  destruct l as [|v [|port [|descriptions [|about [|? ?]]]]]; try done. destruct objects as [ds|]; [|done]. destruct Ho as [-> Hds].
  cbn [lookup list_lookup]. rewrite Get_objects. cbn [rbind]. rewrite decide_True by done. rewrite interfaces_of_objects by done.
  cbn [rbind]. eexists. split; [done|]. rewrite implements_all_spec. split.
  - intros H p (name & (d & Hd & Hn)%elem_of_concat & Hw)%H. apply list_elem_of_fmap in Hd as (d' & -> & Hd'). by split_and!; eauto 10.
  - intros H p (_ & _ & ds' & d & name & [= <-] & Hd & Hn & Hw)%H. exists name. split; [|done].
    apply elem_of_concat. exists d.2. split; [|done]. by apply list_elem_of_fmap_2.
Qed.

(** IsMatch returns, and decides whether the message matches. *)
Lemma IsMatch_decision r msg texts objects : says msg texts objects ->
  exists b, IsMatch r msg = Ok b /\ (b = true <-> wanted r msg texts objects).
Proof.
  intros Hs. unfold IsMatch.
  assert (forall P : Prop, ~ P -> exists b : bool, (Ok false : res bool) = Ok b /\ (b = true <-> P)) as no by (intros P HP; exists false; by split_and!).
  destruct (negb (type r =? MESSAGE_INVALID) && negb (type r =? GetType msg)) eqn:Et.
  { apply no. intros []. lia. }
  repeat match goal with |- context [differs ?s ?t] => destruct (differs s t) eqn:?;
    [apply no; intros []; by match goal with H : differs s t = true |- _ => rewrite (proj2 (differs_agrees s t)) in H end|] end.
  assert (exists b, match args r with
      | [] => Ok true
      | l => match UnmarshalArgs_ msg (GetSignature_ msg) with Undef => Undef | Fail _ => Ok false | Ok msgArgs => match_args l msgArgs end
      end = Ok b /\ (b = true <-> forall i s, (i, s) ∈ args r -> exists ts, texts = Some ts /\ ts !! Z.to_nat i = Some (Some s)))
    as (b & Hb & Hargs).
  { destruct (args r) as [|a l]; [exists true; split; [done|]; set_solver|]. destruct Hs as [Ht _].
    destruct (UnmarshalArgs_ msg (GetSignature_ msg)) as [msgArgs|st|], texts as [ts|]; try done.
    - destruct (match_args_spec _ _ Ht (a :: l)) as (b & -> & Hb). exists b. split; [done|]. naive_solver.
    - apply no. intros H. destruct a as [i s]. destruct (H i s) as (? & ? & _); [by left|done]. }
  rewrite Hb. cbn [rbind]. destruct b; cbn [negb]; [|apply no; intros []; by discriminate (proj2 Hargs)].
  assert (exists b, match implements r with [] => Ok true | l => match_implements l msg end = Ok b /\ (b = true <-> forall p, p ∈ implements r ->
      GetInterface msg = lit "org.alljoyn.About" /\ GetMemberName msg = lit "Announce" /\
      exists ds d name, objects = Some ds /\ d ∈ ds /\ name ∈ d.2 /\ WildcardMatch name p = false)) as (b & Hb' & Himp).
  { destruct (implements r) as [|p l]; [exists true; split; [done|]; set_solver|]. by eapply match_implements_spec. }
  rewrite Hb'. cbn [rbind]. destruct b; cbn [negb]; [|apply no; intros []; by discriminate (proj2 Himp)].
  eexists. split; [done|]. split.
  - intros Hl. constructor; try (by apply differs_agrees); [lia|by apply Hargs|by apply Himp|].
    destruct (sessionless r); [done|by apply negb_true_iff|done].
  - intros []. destruct (sessionless r); [done|by apply negb_true_iff|done].
Qed.

(** * The table *)

Section table.
Context {EP : Type} `{Countable EP}.

Lemma equal_range_set (t : Table) (ep ep' : EP) l :
  equal_range (set_range t ep l) ep' = if decide (ep = ep') then l else equal_range t ep'.
Proof.
  unfold equal_range, set_range, Table in *. destruct l as [|r l], (decide (ep = ep')) as [<- |Hne].
  - by rewrite lookup_delete_eq.
  - by rewrite lookup_delete_ne.
  - by rewrite lookup_insert_eq.
  - by rewrite lookup_insert_ne.
Qed.

(** The number of rules of an endpoint that are equal to a rule. *)
Definition count (rule : Rule) (l : list Rule) : nat := length (filter (fun r => Rule_eq r rule = true) l).

Lemma erase_first_spec rule l :
  match erase_first rule l with
  | Some l' => exists l1 r l2, l = l1 ++ r :: l2 /\ l' = l1 ++ l2 /\ Rule_eq r rule = true /\ count rule l1 = 0%nat
  | None => count rule l = 0%nat
  end.
Proof.
  unfold count. induction l as [|r l IH]; [done|]. cbn [erase_first]. destruct (Rule_eq r rule) eqn:E.
  - exists [], r, l. by split_and!.
  - destruct (erase_first rule l) as [l'|]; cbn [fmap option_fmap option_map].
    + destruct IH as (l1 & r' & l2 & -> & -> & Hr & Hc). exists (r :: l1), r', l2. split_and!; try done.
      rewrite filter_cons_False by congruence. done.
    + rewrite filter_cons_False by congruence. done.
Qed.


(** C13: OkToSend returns for every message whose arguments, when they can be
    unmarshaled, hold no NUL, and sends it to an endpoint exactly when one of its rules
    matches, no earlier rule of it does, and that rule does not ask for sessionless
    messages only. A rule matches when its type, sender, interface, member, path and
    destination, where given, are those of the message, every argument it names is that
    text, every pattern of implements matches an interface of an object that an
    org.alljoyn.About.Announce names, and sessionless is as it says. *)
Theorem OkToSend_first_match (t : Table (EP := EP)) (ep : EP) (msg : Message) texts objects : says msg texts objects ->
  exists b, OkToSend t msg ep = Ok b /\
  (b = true <-> exists before r after, equal_range t ep = before ++ r :: after /\
    (forall r', r' ∈ before -> ~ wanted r' msg texts objects) /\
    wanted r msg texts objects /\ sessionless r <> SESSIONLESS_TRUE).
Proof.
  intros Hs. unfold OkToSend. induction (equal_range t ep) as [|r l (b & IH & Hb)].
  { exists false. split; [done|]. split; [done|]. intros (before & r & after & Hl & _). by destruct before. }
  cbn [send_loop]. destruct (IsMatch_decision r msg texts objects Hs) as (m & -> & Hm). cbn [rbind]. destruct m.
  - eexists. split; [done|]. rewrite negb_true_iff, bool_decide_eq_false. split.
    + intros Hr. exists [], r, l. split_and!; [done|set_solver|by apply Hm|done].
    + intros (before & r' & after & Hl & Hbefore & Hr' & Hle). destruct before as [|r0 before]; injection Hl as -> ->; [done|].
      destruct (Hbefore r0); [by left|by apply Hm].
  - exists b. split; [done|]. rewrite Hb. split.
    + intros (before & r' & after & -> & Hbefore & Hr'). exists (r :: before), r', after. split_and!; [done| |apply Hr'..].
      intros r0 [->|H0]%elem_of_cons; [|by apply Hbefore]. intros Hw. by apply Hm in Hw.
    + intros (before & r' & after & Hl & Hbefore & Hr'). destruct before as [|r0 before]; injection Hl as -> ->.
      { destruct Hr' as [Hr' _]. by apply Hm in Hr'. }
      exists before, r', after. split_and!; [done| |apply Hr'..]. intros r1 H1. apply Hbefore. by right.
Qed.
End table.

(** A signal without arguments, which is no announcement. *)
Definition sample_message : Message :=
  {| GetType := MESSAGE_SIGNAL; GetSender := lit ":1.2"; GetInterface := lit "a.b"; GetMemberName := lit "M"; GetObjectPath := lit "/";
     GetDestination := []; GetSignature_ := []; IsSessionless := true;
     UnmarshalArgs_ := fun signature => match signature with [] => Ok [] | _ => Fail ER_BUS_SIGNATURE_MISMATCH end |}.
Definition all_signals (s : Sessionless) : Rule := with_sessionless (with_type new_Rule MESSAGE_SIGNAL) s.
Definition sample_table (l : list Rule) : Table (EP := Z) := foldr (fun r t => (AddRule t 1 r).2) ∅ (rev l).

Lemma OkToSend_first_match_witness :
  exists b, OkToSend (sample_table [all_signals SESSIONLESS_FALSE; all_signals SESSIONLESS_NOT_SPECIFIED]) sample_message 1 = Ok b /\
  (b = true <-> exists before r after,
    equal_range (sample_table [all_signals SESSIONLESS_FALSE; all_signals SESSIONLESS_NOT_SPECIFIED]) 1 = before ++ r :: after /\
    (forall r', r' ∈ before -> ~ wanted r' sample_message (Some []) None) /\
    wanted r sample_message (Some []) None /\ sessionless r <> SESSIONLESS_TRUE).
Proof. apply OkToSend_first_match. split; cbn; [constructor|exact I]. Defined.

(** An announcement of a lamp, and a rule that asks for lamps. *)
Definition announcement : Message :=
  {| GetType := MESSAGE_SIGNAL; GetSender := lit ":1.2"; GetInterface := lit "org.alljoyn.About"; GetMemberName := lit "Announce";
     GetObjectPath := lit "/About"; GetDestination := []; GetSignature_ := lit "qqa(oas)a{sv}"; IsSessionless := true;
     UnmarshalArgs_ := fun _ => Ok [A_16 TY_UINT16 1; A_16 TY_UINT16 25; objects_arg [(lit "/lamp", [lit "org.lamp.State"])];
                                    A_ARRAY (Some (lit "{sv}")) []] |}.

Lemma announcement_says : says announcement (Some [None; None; None; None]) (Some [(lit "/lamp", [lit "org.lamp.State"])]).
Proof. split; cbn; [repeat constructor; done|]. split; [done|]. repeat constructor; done. Qed.

Lemma IsMatch_implements :
  IsMatch (with_implements new_Rule [lit "org.lamp.*"]) announcement = Ok true /\
  IsMatch (with_implements new_Rule [lit "org.door.*"]) announcement = Ok false.
Proof. split; vm_compute; reflexivity. Qed.

(** Two rules that both match: whether the message is sent depends on which was added
    first. *)
Lemma OkToSend_order :
  OkToSend (sample_table [all_signals SESSIONLESS_TRUE; all_signals SESSIONLESS_NOT_SPECIFIED]) sample_message 1 = Ok false /\
  OkToSend (sample_table [all_signals SESSIONLESS_NOT_SPECIFIED; all_signals SESSIONLESS_TRUE]) sample_message 1 = Ok true.
Proof. split; vm_compute; reflexivity. Qed.

(** Rules that differ in sessionless are equal, so removing one can take the other. *)
Lemma RemoveRule_other_sessionless :
  RemoveRule (sample_table [all_signals SESSIONLESS_TRUE; all_signals SESSIONLESS_FALSE]) 1 (all_signals SESSIONLESS_FALSE)
  = (ER_OK, sample_table [all_signals SESSIONLESS_FALSE]).
Proof. vm_compute. reflexivity. Qed.
