(* ===== verification/MessageGen.v ===== *)
(** Model of the message half of alljoyn_core/src/Message_Gen.cc and of the part of
    Message.cc it rests on: the header fields as bytes (MarshalHeaderFields,
    ComputeHeaderLen), MarshalMessage, ReMarshal, ClearHeader, IsExpired, and the
    functions that compose a method call, signal, reply, error or hello message.

    A message is the record [Msg]. Its buffer is the list of the bytes from msgBuf to
    bufEOD; a pointer into it is an offset, and since msgBuf is aligned to eight bytes
    offsets and addresses have the same alignment. The serial number that the bus gives
    out and the time are arguments; the text and the number of a status, which are
    generated code, and the duplication of descriptors are parameters. *)
From stdpp Require Import strings.
From S2P Require Import Prelude Types SignatureUtils SigMachine SigGrammar SigBuild Marshal Unmarshal BusUtil Header MsgArgFormat.
Import MsgArgFormat.

Module MessageGen.

Definition ALLJOYN_FLAG_NO_REPLY_EXPECTED : Z := 1.
Definition ALLJOYN_FLAG_AUTO_START : Z := 2.
Definition ALLJOYN_FLAG_ALLOW_REMOTE_MSG : Z := 4.
Definition ALLJOYN_FLAG_SESSIONLESS : Z := 16.
Definition ALLJOYN_FLAG_GLOBAL_BROADCAST : Z := 32.
Definition ALLJOYN_FLAG_COMPRESSED : Z := 64.
Definition ALLJOYN_FLAG_ENCRYPTED : Z := 128.
Definition ALLJOYN_MAJOR_PROTOCOL_VERSION : Z := 1.
Definition ALLJOYN_PROTOCOL_VERSION : Z := 12.

Record Msg := {
  msgHeader : MessageHeader;
  endianSwap : bool;
  hdrFields : HeaderFields;
  msgBuf : option (list Z);                (* from msgBuf to bufEOD *)
  bodyPtr : option Z;
  encrypt : bool;
  handles : list Z;
  refMsgArgs : list MsgArg;
  ttl : Z;
  timestamp : Z;
  replySignature : list Z
}.

(** What [Init] leaves; the members it does not set (refMsgArgs among them) are taken to
    be empty. *)
Definition new_Msg : Msg :=
  {| msgHeader := {| endian := myEndian; msgType := 0; flags := 0; majorVersion := 0; bodyLen := 0; serialNum := 0; headerLen := 0 |};
     endianSwap := false; hdrFields := no_fields; msgBuf := None; bodyPtr := None; encrypt := false; handles := [];
     refMsgArgs := []; ttl := 0; timestamp := 0; replySignature := [] |}.

Definition with_fields (m : Msg) (fs : HeaderFields) : Msg :=
  {| msgHeader := msgHeader m; endianSwap := endianSwap m; hdrFields := fs; msgBuf := msgBuf m; bodyPtr := bodyPtr m;
     encrypt := encrypt m; handles := handles m; refMsgArgs := refMsgArgs m; ttl := ttl m; timestamp := timestamp m;
     replySignature := replySignature m |}.

Definition with_header (m : Msg) (h : MessageHeader) : Msg :=
  {| msgHeader := h; endianSwap := endianSwap m; hdrFields := hdrFields m; msgBuf := msgBuf m; bodyPtr := bodyPtr m;
     encrypt := encrypt m; handles := handles m; refMsgArgs := refMsgArgs m; ttl := ttl m; timestamp := timestamp m;
     replySignature := replySignature m |}.

Definition with_buffer (m : Msg) (b : option (list Z)) (p : option Z) : Msg :=
  {| msgHeader := msgHeader m; endianSwap := endianSwap m; hdrFields := hdrFields m; msgBuf := b; bodyPtr := p;
     encrypt := encrypt m; handles := handles m; refMsgArgs := refMsgArgs m; ttl := ttl m; timestamp := timestamp m;
     replySignature := replySignature m |}.

Definition with_handles (m : Msg) (hs : list Z) : Msg :=
  {| msgHeader := msgHeader m; endianSwap := endianSwap m; hdrFields := hdrFields m; msgBuf := msgBuf m; bodyPtr := bodyPtr m;
     encrypt := encrypt m; handles := hs; refMsgArgs := refMsgArgs m; ttl := ttl m; timestamp := timestamp m;
     replySignature := replySignature m |}.

Definition with_refArgs (m : Msg) (args : list MsgArg) : Msg :=
  {| msgHeader := msgHeader m; endianSwap := endianSwap m; hdrFields := hdrFields m; msgBuf := msgBuf m; bodyPtr := bodyPtr m;
     encrypt := encrypt m; handles := handles m; refMsgArgs := args; ttl := ttl m; timestamp := timestamp m;
     replySignature := replySignature m |}.

Definition with_ttl (m : Msg) (t now : Z) : Msg :=
  {| msgHeader := msgHeader m; endianSwap := endianSwap m; hdrFields := hdrFields m; msgBuf := msgBuf m; bodyPtr := bodyPtr m;
     encrypt := encrypt m; handles := handles m; refMsgArgs := refMsgArgs m; ttl := t; timestamp := now;
     replySignature := replySignature m |}.

Definition hdr_with (h : MessageHeader) (t f len : Z) : MessageHeader :=
  {| endian := endian h; msgType := t; flags := f; majorVersion := majorVersion h; bodyLen := bodyLen h;
     serialNum := serialNum h; headerLen := len |}.

(** [ClearHeader] does nothing to a message that has no type. *)
Definition ClearHeader (m : Msg) : Msg :=
  if msgType (msgHeader m) =? 0 then m
  else {| msgHeader := hdr_with (msgHeader m) 0 (flags (msgHeader m)) (headerLen (msgHeader m));
          endianSwap := endianSwap m; hdrFields := no_fields; msgBuf := msgBuf m; bodyPtr := bodyPtr m; encrypt := false;
          handles := []; refMsgArgs := []; ttl := 0; timestamp := timestamp m; replySignature := replySignature m |}.

(** [IsExpired], with the milliseconds that are left. *)
Definition IsExpired (m : Msg) (now : Z) : bool * Z :=
  let expires :=
    if negb (ttl m =? 0) then
      let ttlVal := if negb (Z.land (flags (msgHeader m)) ALLJOYN_FLAG_SESSIONLESS =? 0) then u32 (ttl m * 1000) else ttl m in
      let elapsed := if now >? timestamp m then now - timestamp m else 0 in
      if ttlVal >? elapsed then ttlVal - elapsed else 0
    else 2 ^ 32 - 1 in
  (expires =? 0, expires).

(** * The header as bytes *)

(** The codes of the fields on the wire (FieldTypeMapping of Message_Gen.cc). *)
Definition wire_codes : list Z := [0; 1; 2; 3; 4; 5; 6; 7; 8; 9; 16; 17; 18; 19].
Definition wire_code (f : AllJoynFieldType) : Z := nth (field_index f) wire_codes 0.

Section marshal.
(** The byte order of outgoing messages, and the system's duplication of descriptors. *)
Context (outEndian : Z) (SocketDup : list Z -> Z -> res Z).

(** The bytes of a field behind its code, which is at an offset of 8 * n, and the
    field with its text moved into the buffer. Other types are marshaled as a variant,
    whose status is not looked at: a failure leaves the header shorter than computed. *)
Definition marshal_field (swap : bool) (a : MsgArg) (pos : Z) (hs : list Z) : res (list Z * MsgArg * list Z) :=
  match a with
  | A_SIGNATURE len (Some s) => let! s := prefix s (len + 1) in Ok ([1; 103; 0; len] ++ s, A_SIGNATURE len (Some s), hs)
  | A_32 TY_UINT32 v => Ok ([1; 117; 0] ++ put swap 4 v, a, hs)
  | A_STRING t len (Some s) =>
      let! s := prefix s (len + 1) in
      Ok ([1; typeId_val (tystr t); 0] ++ put swap 4 len ++ s, A_STRING t len (Some s), hs)
  | A_SIGNATURE _ None | A_STRING _ _ None => Undef
  | _ => match MarshalArgs swap SocketDup [A_VARIANT a] pos hs with Ok (bs, hs) => Ok (bs, a, hs) | _ => Undef end
  end.

Fixpoint fields_loop (swap : bool) (l : list AllJoynFieldType) (fs : HeaderFields) (pos : Z) (hs : list Z)
  : res (list Z * HeaderFields * list Z) :=
  match l with
  | [] => Ok ([], fs, hs)
  | f :: l =>
      if present fs f then
        let pad := MarshalPad pos 8 in
        let pos := pos + zlen pad in
        let! (bs, a, hs) := marshal_field swap (field fs f) (pos + 1) hs in
        let! (rest, fs, hs) := fields_loop swap l (set_field fs f a) (pos + 1 + zlen bs) hs in
        Ok (pad ++ [wire_code f] ++ bs ++ rest, fs, hs)
      else fields_loop swap l fs pos hs
  end.

Definition MarshalHeaderFields (swap : bool) (fs : HeaderFields) (hs : list Z) : res (list Z * HeaderFields * list Z) :=
  let! (bs, fs, hs) := fields_loop swap checked_fields fs (Z.of_nat HDR) hs in
  Ok (bs ++ MarshalPad (Z.of_nat HDR + zlen bs) 8, fs, hs).

Fixpoint header_len_loop (l : list AllJoynFieldType) (fs : HeaderFields) (hdrLen : Z) : res Z :=
  match l with
  | [] => Ok hdrLen
  | f :: l =>
      if present fs f then
        let! n := GetSize [field fs f] 4 in
        header_len_loop l fs (PadUp hdrLen 8 + n)
      else header_len_loop l fs hdrLen
  end.

(** [msgHeader.headerLen] and the length of the whole header. *)
Definition ComputeHeaderLen (fs : HeaderFields) : res (Z * Z) :=
  let! hdrLen := header_len_loop checked_fields fs 0 in
  Ok (u32 hdrLen, PadUp (Z.of_nat HDR + hdrLen) 8).

(** The fixed header in the byte order of the message. *)
Definition wire_header (swap : bool) (h : MessageHeader) : list Z := hdr_to_bytes (if swap then hdr_swap h else h).

(** [field.Set(signature, ...)], whose status is not looked at. *)
Definition field_Set (fs : HeaderFields) (f : AllJoynFieldType) (signature : list Z) (va : list Va) : res HeaderFields :=
  let! (_, a) := Set_ signature va in Ok (set_field fs f a).

(** [c_str()] as an argument of Set; [None] is NULL. *)
Definition c_str_va (s : option (list Z)) : Va := match s with Some s => V_STR (s ++ [0]) | None => V_NULL end.

(** The fixed header is copied as it is: the bit ALLJOYN_FLAG_AUTO_START is not toggled. *)
Definition ReMarshal (m : Msg) (senderName destination : option (list Z)) : res Msg :=
  let! fs :=
    match senderName with
    | Some _ =>
        let! fs := field_Set (hdrFields m) ALLJOYN_HDR_FIELD_SENDER (lit "s") [c_str_va senderName] in
        field_Set fs ALLJOYN_HDR_FIELD_DESTINATION (lit "s") [c_str_va destination]
    | None => Ok (hdrFields m)
    end in
  let! (len, _) := ComputeHeaderLen fs in
  let h := hdr_with (msgHeader m) (msgType (msgHeader m)) (flags (msgHeader m)) len in
  let bufSize := Z.of_nat HDR + PadUp (PadUp len 8 + bodyLen h) 8 + 8 in
  let! (bs, fs, hs) := MarshalHeaderFields (endianSwap m) fs (handles m) in
  let head := wire_header (endianSwap m) h ++ bs in
  let! body :=
    if negb (bodyLen h =? 0) then
      match msgBuf m, bodyPtr m with
      | Some buf, Some p => rd buf p (Z.to_nat (bodyLen h))
      | _, _ => Undef
      end
    else Ok [] in
  if negb (zlen (head ++ body) <? bufSize) then Undef
  else Ok (with_refArgs (with_handles (with_buffer (with_fields (with_header m h) fs) (Some (head ++ body)) (Some (zlen head))) hs) []).

(** * MarshalMessage *)

(** A text field that is set when the text is not empty. *)
Definition name_field (s : list Z) : MsgArg :=
  match s with [] => A_INVALID | _ => A_STRING TY_STRING (u32 (zlen s)) (Some (s ++ [0])) end.

(** The text in [signature[256]] with its terminator, and [sigLen]. *)
Definition make_signature (args : list MsgArg) : res (QStatus * list Z * Z) :=
  match args with
  | [] => Ok (ER_OK, [0], 0)
  | _ =>
      let! (status, sb) := MakeSignature args sb_empty in
      if decide (status = ER_OK) then
        match mapM id (take (Z.to_nat (sb_len sb) + 1) (sb_sig sb)) with
        | Some s => Ok (ER_OK, s, sb_len sb)
        | None => Undef
        end
      else Ok (status, [], 0)
  end.

Definition GetInterface (fs : HeaderFields) : list Z :=
  match field fs ALLJOYN_HDR_FIELD_INTERFACE with A_STRING TY_STRING _ (Some s) => until_nul s | _ => [] end.

(** The exit with an error. *)
Definition exit_error (m : Msg) (status : QStatus) : res (QStatus * Msg) := Ok (status, ClearHeader (with_buffer m None None)).

(** What follows the header: the arguments, and the field for their handles. *)
Definition marshal_body (m : Msg) (head : list Z) (args : list MsgArg) (argsLen : Z) : res (QStatus * Msg) :=
  match MarshalArgs (endianSwap m) SocketDup args (zlen head) (handles m) with
  | Undef => Undef
  | Fail s => exit_error m s
  | Ok (body, hs) =>
      if negb (zlen body =? argsLen) then Undef
      else
        let m := with_handles (with_buffer m (Some (head ++ body)) (Some (zlen head))) hs in
        let! m :=
          match hs with
          | [] => Ok m
          | _ => let! fs := field_Set (hdrFields m) ALLJOYN_HDR_FIELD_HANDLES (lit "u") [V_INT (zlen hs)] in
                 ReMarshal (with_fields m fs) None None
          end in
        Ok (ER_OK, with_refArgs m
              (if bool_decide (GetInterface (hdrFields m) = lit "org.freedesktop.DBus.Properties") then args else []))
  end.

(** [numArgs] is a byte, and no arguments are marshaled from NULL. *)
Definition MarshalMessage (m : Msg) (expectedSignature sender destination : list Z) (type : Z)
  (args : option (list MsgArg)) (numArgs flag sessionId serial : Z) : res (QStatus * Msg) :=
  let! args := match args with None => Ok [] | Some l => prefix l numArgs end in
  let! argsLen := match args with [] => Ok 0 | _ => GetSize args 0 end in
  let h := {| endian := outEndian; msgType := type; flags := flag; majorVersion := ALLJOYN_MAJOR_PROTOCOL_VERSION;
              bodyLen := u32 argsLen; serialNum := serial; headerLen := headerLen (msgHeader m) |} in
  let fs := set_field (hdrFields m) ALLJOYN_HDR_FIELD_DESTINATION (name_field destination) in
  let fs := set_field fs ALLJOYN_HDR_FIELD_SENDER (name_field sender) in
  let m := {| msgHeader := h; endianSwap := negb (outEndian =? myEndian); hdrFields := fs; msgBuf := None; bodyPtr := None;
              encrypt := negb (Z.land flag ALLJOYN_FLAG_ENCRYPTED =? 0); handles := handles m; refMsgArgs := refMsgArgs m;
              ttl := ttl m; timestamp := timestamp m; replySignature := replySignature m |} in
  let! (status, signature, sigLen) := make_signature args in
  let fs := set_field fs ALLJOYN_HDR_FIELD_SIGNATURE
              (if 0 <? sigLen then A_SIGNATURE (u8 sigLen) (Some signature) else A_INVALID) in
  if negb (bool_decide (status = ER_OK)) then exit_error (with_fields m fs) status
  else if negb (bool_decide (expectedSignature = until_nul signature)) then exit_error (with_fields m fs) ER_BUS_UNEXPECTED_SIGNATURE
  else
    let fs := set_field fs ALLJOYN_HDR_FIELD_SESSION_ID
                (if sessionId =? 0 then A_INVALID else A_32 TY_UINT32 sessionId) in
    let! (len, hdrLen) := ComputeHeaderLen fs in
    let h := hdr_with h type flag len in
    let m := with_header (with_fields m fs) h in
    if hdrLen + argsLen >? ALLJOYN_MAX_PACKET_LEN then exit_error m ER_BUS_BAD_BODY_LEN
    else
      let! (bs, fs, hs) := MarshalHeaderFields (endianSwap m) fs (handles m) in
      let head := wire_header (endianSwap m) (hdr_with h type (Z.lxor flag ALLJOYN_FLAG_AUTO_START) len) ++ bs in
      let m := with_handles (with_fields m fs) hs in
      if negb (zlen head =? hdrLen) then Undef
      else if bodyLen h =? 0 then Ok (ER_OK, with_buffer m (Some head) None)
      else marshal_body m head args argsLen.

(** * Messages *)

(** A text whose pointer and size are stored in a field. *)
Definition string_field (t : TyStr) (s : list Z) : MsgArg := A_STRING t (u32 (zlen s)) (Some (s ++ [0])).

Definition bad_flags (flag allowed : Z) : bool := negb (Z.land flag (Z.lnot allowed) =? 0).

(** The flags a method call and a signal may have. *)
Definition call_flags : Z :=
  Z.lor ALLJOYN_FLAG_NO_REPLY_EXPECTED (Z.lor ALLJOYN_FLAG_AUTO_START
    (Z.lor ALLJOYN_FLAG_ENCRYPTED (Z.lor ALLJOYN_FLAG_COMPRESSED ALLJOYN_FLAG_SESSIONLESS))).
Definition signal_flags : Z :=
  Z.lor ALLJOYN_FLAG_ENCRYPTED (Z.lor ALLJOYN_FLAG_COMPRESSED (Z.lor ALLJOYN_FLAG_GLOBAL_BROADCAST ALLJOYN_FLAG_SESSIONLESS)).

Definition CallMsg (m : Msg) (signature sender destination : list Z) (sessionId : Z) (objPath iface methodName : list Z)
  (args : option (list MsgArg)) (numArgs flag serial : Z) : res (QStatus * Msg) :=
  if bad_flags flag call_flags then Ok (ER_BUS_BAD_HDR_FLAGS, m)
  else
    let m := ClearHeader m in
    if negb (IsLegalObjectPath (Some (until_nul objPath))) then Ok (ER_BUS_BAD_OBJ_PATH, m)
    else
      let fs := set_field (hdrFields m) ALLJOYN_HDR_FIELD_PATH (string_field TY_OBJECT_PATH objPath) in
      let fs := set_field fs ALLJOYN_HDR_FIELD_MEMBER (string_field TY_STRING methodName) in
      let fs := set_field fs ALLJOYN_HDR_FIELD_INTERFACE (name_field iface) in
      let m := with_fields m fs in
      if bool_decide (destination = []) then Ok (ER_BUS_BAD_BUS_NAME, m)
      else MarshalMessage m signature sender destination MESSAGE_METHOD_CALL args (u8 numArgs) flag sessionId serial.

Definition SignalMsg (m : Msg) (signature sender : list Z) (destination : option (list Z)) (sessionId : Z)
  (objPath iface signalName : list Z) (args : option (list MsgArg)) (numArgs flag timeToLive serial now : Z) : res (QStatus * Msg) :=
  if bad_flags flag signal_flags then Ok (ER_BUS_BAD_HDR_FLAGS, m)
  else
    let m := ClearHeader m in
    if negb (IsLegalObjectPath (Some (until_nul objPath))) then Ok (ER_BUS_BAD_OBJ_PATH, m)
    else
      let live := negb (timeToLive =? 0) in
      let fs := set_field (hdrFields m) ALLJOYN_HDR_FIELD_TIME_TO_LIVE (if live then A_16 TY_UINT16 timeToLive else A_INVALID) in
      let fs := set_field fs ALLJOYN_HDR_FIELD_TIMESTAMP (if live then A_32 TY_UINT32 now else A_INVALID) in
      let fs := set_field fs ALLJOYN_HDR_FIELD_PATH (string_field TY_OBJECT_PATH objPath) in
      let fs := set_field fs ALLJOYN_HDR_FIELD_MEMBER (string_field TY_STRING signalName) in
      let fs := set_field fs ALLJOYN_HDR_FIELD_INTERFACE (string_field TY_STRING iface) in
      let m := with_fields (if live then with_ttl m timeToLive now else m) fs in
      MarshalMessage m signature sender (default [] destination) MESSAGE_SIGNAL args (u8 numArgs) flag sessionId serial.

(** [qcc::String destination = call->hdrFields.field[ALLJOYN_HDR_FIELD_SENDER].v_string.str] *)
Definition sender_of (call : Msg) : res (list Z) :=
  match field (hdrFields call) ALLJOYN_HDR_FIELD_SENDER with A_STRING _ _ (Some s) => Ok (until_nul s) | _ => Undef end.

Definition GetSessionId (m : Msg) : Z :=
  match field (hdrFields m) ALLJOYN_HDR_FIELD_SESSION_ID with A_32 TY_UINT32 v => v | _ => 0 end.

(** The flag of a reply to [call]. *)
Definition reply_flag (call : Msg) : Z := Z.land (flags (msgHeader call)) ALLJOYN_FLAG_ENCRYPTED.

Definition ReplyMsg (m call : Msg) (sender : list Z) (args : option (list MsgArg)) (numArgs serial : Z) : res (QStatus * Msg) :=
  let sessionId := GetSessionId call in
  let! destination := sender_of call in
  if negb (msgType (msgHeader call) =? MESSAGE_METHOD_CALL) then Undef
  else
    let m := ClearHeader m in
    let fs := set_field (hdrFields m) ALLJOYN_HDR_FIELD_REPLY_SERIAL (A_32 TY_UINT32 (serialNum (msgHeader call))) in
    MarshalMessage (with_fields m fs) (replySignature call) sender destination MESSAGE_METHOD_RET args (u8 numArgs)
      (reply_flag call) sessionId serial.

(** The fields of an error: its name and the serial number of the call. *)
Definition error_fields (m : Msg) (errorName : list Z) (replySerial : Z) : res Msg :=
  let! fs := field_Set (hdrFields m) ALLJOYN_HDR_FIELD_ERROR_NAME (lit "s") [V_STR (errorName ++ [0])] in
  let! fs := field_Set fs ALLJOYN_HDR_FIELD_REPLY_SERIAL (lit "u") [V_INT replySerial] in
  Ok (with_fields m fs).

(** [ErrorMsg(call, sender, errorName, description)] *)
Definition ErrorMsg (m call : Msg) (sender : list Z) (errorName : option (list Z)) (description : list Z) (serial : Z)
  : res (QStatus * Msg) :=
  let! destination := sender_of call in
  let sessionId := GetSessionId call in
  if negb (msgType (msgHeader call) =? MESSAGE_METHOD_CALL) then Undef
  else
    let m := ClearHeader m in
    match errorName with
    | None | Some [] => Ok (ER_BUS_BAD_ERROR_NAME, m)
    | Some errorName =>
        let! m := error_fields m errorName (serialNum (msgHeader call)) in
        match description with
        | [] => MarshalMessage m [] sender destination MESSAGE_ERROR None 0 (reply_flag call) sessionId serial
        | _ => let! arg := MsgArg_ (lit "s") [V_STR (description ++ [0])] in
               MarshalMessage m (lit "s") sender destination MESSAGE_ERROR (Some [arg]) 1 (reply_flag call) sessionId serial
        end
    end.

(** [QCC_StatusText] and the numbers of the statuses, which are generated. *)
Context (QCC_StatusText : QStatus -> list Z) (QCC_StatusNumber : QStatus -> Z).

Definition BusErrorName : list Z := lit "org.alljoyn.Bus.ErStatus".

(** [MsgArg::Set(args, 2, "sq", text, number)] *)
Definition status_args (status : QStatus) : res (list MsgArg) :=
  let! (_, args) := SetV 2 (lit "sq") [V_STR (QCC_StatusText status ++ [0]); V_INT (QCC_StatusNumber status mod 2 ^ 16)] in
  Ok args.

(** [ErrorMsg(call, sender, status)]: the session is asked of the new message. *)
Definition ErrorMsg_status (m call : Msg) (sender : list Z) (status : QStatus) (serial : Z) : res (QStatus * Msg) :=
  let! destination := sender_of call in
  if negb (msgType (msgHeader call) =? MESSAGE_METHOD_CALL) then Undef
  else
    let! m := error_fields (ClearHeader m) BusErrorName (serialNum (msgHeader call)) in
    let! args := status_args status in
    MarshalMessage m (lit "sq") sender destination MESSAGE_ERROR (Some args) 2 (reply_flag call) (GetSessionId m) serial.

(** [ErrorMsg(sender, errorName, replySerial)] *)
Definition ErrorMsg_local (m : Msg) (sender : list Z) (errorName : option (list Z)) (replySerial serial : Z) : res (QStatus * Msg) :=
  let errorName := match errorName with None | Some [] => lit "err.unknown" | Some s => s end in
  let! m := error_fields (ClearHeader m) errorName replySerial in
  MarshalMessage m [] sender [] MESSAGE_ERROR None 0 0 0 serial.

(** [ErrorMsg(sender, status, replySerial)] *)
Definition ErrorMsg_local_status (m : Msg) (sender : list Z) (status : QStatus) (replySerial serial : Z) : res (QStatus * Msg) :=
  let! m := error_fields (ClearHeader m) BusErrorName replySerial in
  let! args := status_args status in
  MarshalMessage m (lit "sq") sender [] MESSAGE_ERROR (Some args) 2 0 0 serial.

(** [HelloMessage(isBusToBus, sender, allowRemote, guid, nameType)] *)
Definition hello_fields (m : Msg) (path iface name : list Z) : res Msg :=
  let! fs := field_Set (hdrFields m) ALLJOYN_HDR_FIELD_PATH (lit "o") [V_STR (path ++ [0])] in
  let! fs := field_Set fs ALLJOYN_HDR_FIELD_INTERFACE (lit "s") [V_STR (iface ++ [0])] in
  let! fs := field_Set fs ALLJOYN_HDR_FIELD_MEMBER (lit "s") [V_STR (name ++ [0])] in
  Ok (with_fields m fs).

Definition HelloMessage (m : Msg) (isBusToBus : bool) (sender : list Z) (allowRemote : bool) (guid : list Z) (nameType serial : Z)
  : res (QStatus * Msg) :=
  let m := ClearHeader m in
  let flag := Z.lor ALLJOYN_FLAG_AUTO_START (if allowRemote then ALLJOYN_FLAG_ALLOW_REMOTE_MSG else 0) in
  if isBusToBus then
    let! m := hello_fields m (lit "/org/alljoyn/Bus") (lit "org.alljoyn.Bus") (lit "BusHello") in
    let! (_, a) := Set_ (lit "s") [V_STR (guid ++ [0])] in
    let! (_, b) := Set_ (lit "u") [V_INT (u32 (Z.lor (Z.shiftl nameType 30) ALLJOYN_PROTOCOL_VERSION))] in
    MarshalMessage m (lit "su") sender (lit "org.alljoyn.Bus") MESSAGE_METHOD_CALL (Some [a; b]) 2 flag 0 serial
  else
    let! m := hello_fields m (lit "/org/freedesktop/DBus") (lit "org.freedesktop.DBus") (lit "Hello") in
    MarshalMessage m [] sender (lit "org.freedesktop.DBus") MESSAGE_METHOD_CALL None 0 flag 0 serial.
End marshal.

End MessageGen.
