(* ===== verification/MessageGenProofs.v ===== *)
(** A message that MarshalMessage wrote is understood by the receiver: the header
    fields as bytes and back, the fixed header, and the whole message from the call
    that composes it to the arguments the other side reads. *)
From stdpp Require Import strings.
From S2P Require Import Prelude Types SignatureUtils SigMachine SigGrammar SigBuild Marshal Typed MarshalProofs Unmarshal UnmarshalSafe Roundtrip BusUtil Header HeaderProofs MsgArgFormat MsgArgFormatProofs MessageGen.
Import MsgArgFormat MessageGen.

(** * Header fields *)

Definition wire_field (f : AllJoynFieldType) : Prop := f ∈ checked_fields.

(** The type of a field on the wire. *)
Abbreviation field_char f := (typeId_val (FieldType f)).

Definition field_ok (fs : HeaderFields) (f : AllJoynFieldType) : Prop :=
  field fs f = A_INVALID \/ typed false (field fs f) (SLeaf (field_char f)).

(** The fields of a message without handles. *)
Record fields_ok (fs : HeaderFields) : Prop := {
  fo_length : length fs = 14%nat;
  fo_invalid : field fs ALLJOYN_HDR_FIELD_INVALID = A_INVALID;
  fo_handles : field fs ALLJOYN_HDR_FIELD_HANDLES = A_INVALID;
  fo_fields : forall f, wire_field f -> field_ok fs f
}.

Lemma wire_field_index f : wire_field f -> (0 < field_index f < 14)%nat.
Proof.
  unfold wire_field. rewrite list_elem_of_In. intros H.
  repeat (destruct H as [<-|H]; [cbn [field_index]; lia|]). done.
Qed.

(** The receiver's table undoes the sender's. *)
Lemma wire_code_mapping f : wire_field f ->
  is_byte (wire_code f) /\ nth (Z.to_nat (wire_code f)) FieldTypeMapping ALLJOYN_HDR_FIELD_UNKNOWN = f /\
  f <> ALLJOYN_HDR_FIELD_INVALID /\ f <> ALLJOYN_HDR_FIELD_UNKNOWN.
Proof.
  intros H. pose proof (wire_field_index f H).
  destruct f; cbn [field_index] in *; try lia; (split; [apply (bool_decide_unpack _); vm_compute; exact I|split_and!; done]).
Qed.

Lemma set_field_same fs f : (field_index f < length fs)%nat -> set_field fs f (field fs f) = fs.
Proof.
  intros Hf. unfold set_field, field. rewrite nth_lookup.
  destruct (fs !! field_index f) as [a|] eqn:Ha; [|apply lookup_ge_None in Ha; lia]. by apply list_insert_id.
Qed.

Section send.
Context (swap : bool) (SocketDup : list Z -> Z -> res Z).

Lemma prefix_text s : prefix (s ++ [0]) (zlen s + 1) = Ok (s ++ [0]).
Proof.
  unfold prefix. rewrite length_app. cbn [length]. rewrite (proj2 (Z.leb_le _ _)) by lia.
  rewrite firstn_all2; [done|]. rewrite length_app. cbn [length]. lia.
Qed.

Lemma aligned4 p : p mod 8 = 0 -> MarshalPad (p + 4) 4 = [] /\ MarshalPad (p + 4) 2 = [].
Proof.
  intros Hp. split; apply length_zero_iff_nil.
  - pose proof (zlen_MarshalPad (p + 4) 4 align4) as H. rewrite PadBytes_mod in H by done.
    enough ((- (p + 4)) mod 4 = 0) by lia. clear H. Z.to_euclidean_division_equations; lia.
  - pose proof (zlen_MarshalPad (p + 4) 2 align2) as H. rewrite PadBytes_mod in H by done.
    enough ((- (p + 4)) mod 2 = 0) by lia. clear H. Z.to_euclidean_division_equations; lia.
Qed.

(** Behind its code a field is the signature of its type and the marshaled value. *)
Lemma marshal_field_value f a p hs : wire_field f -> typed false a (SLeaf (field_char f)) -> p mod 8 = 0 ->
  exists bs, marshal_value swap SocketDup a (p + 4) hs = Ok (bs, hs) /\
    marshal_field SocketDup swap a (p + 1) hs = Ok ([1; field_char f; 0] ++ bs, a, hs) /\
    bs <> [] /\ Forall is_byte bs /\ GetSize [a] 4 = Ok (4 + zlen bs).
Proof.
  intros Hf Ht Hp. destruct (aligned4 p Hp) as [H4 H2].
  assert (exists bs, marshal_value swap SocketDup a (p + 4) hs = Ok (bs, hs) /\
    marshal_field SocketDup swap a (p + 1) hs = Ok ([1; field_char f; 0] ++ bs, a, hs)) as (bs & Hm & Hs).
  { destruct a; cbn [typed] in Ht; try done; try (by destruct f);
      try match type of Ht with match ?v with _ => _ end => by destruct v end;
      try (destruct Ht as [Hc _]; by destruct f); try (destruct Ht as [Hc _]; destruct t; by destruct f).
    - destruct Ht as [Hc Hv]. destruct t; [by destruct f|]. rewrite Hc.
      destruct (variant_sig (A_16 TY_UINT16 v_uint16) false (SLeaf 113)) as [Hsig _]; [done|vm_compute; discriminate|].
      change (zlen (print (SLeaf 113)) :: print (SLeaf 113) ++ [0]) with [1; 113; 0] in Hsig.
      unfold marshal_field, MarshalArgs. cbn [ma_loop marshal_value typeId ty16 AlignmentForType]. rewrite Hsig, H2, MarshalPad1.
      cbn [rbind length app]. rewrite !Z.add_0_r. change (Z.of_nat 3) with 3. replace (p + 1 + 3) with (p + 4) by lia.
      rewrite H2. cbn [rbind app]. rewrite app_nil_r. eauto.
    - destruct Ht as [Hc _]. destruct t; [by destruct f|]. rewrite Hc.
      cbn [marshal_value typeId ty32 AlignmentForType marshal_field rbind]. rewrite H4. eauto.
    - destruct Ht as [Hc (s & (-> & -> & _) & Hl & Ho)]. rewrite Hc.
      cbn [marshal_value marshal_field]. rewrite prefix_text. cbn [rbind].
      assert (AlignmentForType (typeId (A_STRING t (zlen s) (Some (s ++ [0])))) = 4) as -> by (by destruct t). rewrite H4.
      assert (match t with TY_OBJECT_PATH => zlen s =? 0 | TY_STRING => false end = false) as ->.
      { destruct t; [|done]. specialize (Ho eq_refl). destruct s; [done|]. cbn [length]. apply Z.eqb_neq. lia. }
      unfold marshal_chars. rewrite Nat2Z.id, list_lookup_middle by done. cbn [Z.eqb no_handles rbind].
      replace (length s + 1)%nat with (length (s ++ [0])) by (rewrite length_app; simpl; lia). rewrite firstn_all. eauto.
    - destruct Ht as [Hc (s & (-> & -> & _) & Hl)]. rewrite Hc.
      cbn [marshal_value marshal_field typeId AlignmentForType]. rewrite prefix_text, MarshalPad1. cbn [rbind].
      unfold marshal_chars. rewrite Nat2Z.id, list_lookup_middle by done. cbn [Z.eqb no_handles rbind].
      replace (length s + 1)%nat with (length (s ++ [0])) by (rewrite length_app; simpl; lia). rewrite firstn_all. eauto. }
  exists bs. split; [done|]. split; [done|].
  pose proof (sizes_all swap SocketDup a false _ (p + 4) 4 hs Ht) as Hg. rewrite Hm in Hg.
  destruct Hg as (_ & Hne & Hb & Hsz); [rewrite Z.add_mod, Hp by lia; done|].
  split_and!; [done|done|]. unfold GetSize, gs_call. assert (nulls [a] = false) as -> by (by destruct a).
  cbn [gs_loop]. by rewrite Hsz.
Qed.

(** The bytes of the fields [l], which are present in [fs], from an offset on. *)
Inductive laid_out (fs : HeaderFields) : list AllJoynFieldType -> Z -> list Z -> Prop :=
| lo_nil pos : laid_out fs [] pos []
| lo_skip f l pos bs : present fs f = false -> laid_out fs l pos bs -> laid_out fs (f :: l) pos bs
| lo_field f l pos bs rest :
    present fs f = true -> typed false (field fs f) (SLeaf (field_char f)) ->
    marshal_value swap SocketDup (field fs f) (AlignPtr pos 8 + 4) [] = Ok (bs, []) -> bs <> [] ->
    laid_out fs l (AlignPtr pos 8 + 4 + zlen bs) rest ->
    laid_out fs (f :: l) pos (MarshalPad pos 8 ++ [wire_code f; 1; field_char f; 0] ++ bs ++ rest).

Lemma present_typed fs f : fields_ok fs -> wire_field f -> present fs f = true -> typed false (field fs f) (SLeaf (field_char f)).
Proof.
  intros Hfs Hf Hp. destruct (fo_fields _ Hfs f Hf) as [Hi|Ht]; [|done]. unfold present in Hp. by rewrite Hi in Hp.
Qed.

Lemma zlen_field_head f bs rest pos : zlen (MarshalPad pos 8 ++ [wire_code f; 1; field_char f; 0] ++ bs ++ rest) =
  AlignPtr pos 8 - pos + 4 + zlen bs + zlen rest.
Proof. pose proof (AlignPtr_pad pos 8 align8). rewrite !length_app in *. cbn [length]. lia. Qed.

(** The loop of the sender writes them and leaves the fields as they are, and the
    length was computed right. *)
Lemma fields_loop_laid_out fs l : fields_ok fs -> Forall wire_field l -> forall pos, 16 <= pos ->
  exists bs, fields_loop SocketDup swap l fs pos [] = Ok (bs, fs, []) /\ laid_out fs l pos bs /\ Forall is_byte bs /\
    header_len_loop l fs (pos - 16) = Ok (pos + zlen bs - 16).
Proof.
  intros Hfs. induction 1 as [|f l Hf _ IH]; intros pos Hp; cbn [fields_loop header_len_loop].
  { exists []. split_and!; [done|constructor|constructor|cbn; f_equal; lia]. }
  destruct (present fs f) eqn:Hpr.
  - pose proof (present_typed _ _ Hfs Hf Hpr) as Ht. pose proof (AlignPtr_bound pos 8 align8).
    rewrite AlignPtr_pad by done.
    destruct (marshal_field_value f (field fs f) (AlignPtr pos 8) [] Hf Ht (AlignPtr_multiple _ _ align8))
      as (bs & Hv & Hm & Hne & Hb & Hsz).
    rewrite Hm, Hsz. cbn [rbind]. rewrite set_field_same by (rewrite (fo_length _ Hfs); by apply wire_field_index).
    destruct (IH (AlignPtr pos 8 + 4 + zlen bs) ltac:(lia)) as (rest & Hl & Hlo & Hbr & Hh).
    assert (AlignPtr pos 8 + 1 + zlen ([1; field_char f; 0] ++ bs) = AlignPtr pos 8 + 4 + zlen bs) as -> by (rewrite length_app; cbn [length]; lia).
    rewrite Hl. cbn [rbind]. exists (MarshalPad pos 8 ++ [wire_code f; 1; field_char f; 0] ++ bs ++ rest). split; [by rewrite <- !app_assoc|].
    split; [by apply (lo_field fs f l pos bs rest)|]. split.
    + destruct (wire_code_mapping f Hf) as (Hc & _). repeat apply Forall_app_2; auto.
      repeat constructor; try (unfold is_byte; lia); try done; by destruct f.
    + replace (PadUp (pos - 16) 8) with (AlignPtr pos 8 - 16).
      2:{ rewrite PadUp_AlignPtr by done. pose proof (AlignPtr_plus16 (pos - 16)) as Ha. replace (16 + (pos - 16)) with pos in Ha by lia. lia. }
      replace (AlignPtr pos 8 - 16 + (4 + zlen bs)) with (AlignPtr pos 8 + 4 + zlen bs - 16) by lia. rewrite Hh, zlen_field_head. f_equal. lia.
  - destruct (IH pos Hp) as (bs & Hl & Hlo & Hb & Hh). exists bs. split_and!; [done|by constructor|done|done].
Qed.
End send.

(** * The receiver's loop *)

(** What it makes of the fields [l]. *)
Definition receive (fs : HeaderFields) (l : list AllJoynFieldType) (acc : HeaderFields) : HeaderFields :=
  fold_left (fun acc f => if present fs f then set_field acc f (field fs f) else acc) l acc.

Definition count (fs : HeaderFields) (l : list AllJoynFieldType) : nat := length (List.filter (present fs) l).

Lemma laid_out_count swap SocketDup fs l pos bs : laid_out swap SocketDup fs l pos bs -> (count fs l <= length bs)%nat.
Proof.
  unfold count. induction 1 as [|f l pos bs Hp _ IH|f l pos bs rest Hp _ _ Hne _ IH]; cbn [List.filter]; rewrite ?Hp; [done|done|].
  cbn [length] in *. rewrite !length_app. cbn [length]. lia.
Qed.

Section load.
Context (m : Loaded) (Hm : loaded_ok m) (SocketDup : list Z -> Z -> res Z).
Abbreviation endOfHdr := (Z.of_nat HDR + headerLen (l_hdr m)).

Lemma byte_read p v : has_at (l_buf m) p [v] -> is_byte v -> with_error Status (rd_uint (l_buf m) (l_swap m) 1 p) = Ok v.
Proof. intros Hat Hv. by rewrite (rd_uint_byte _ _ p v) by done. Qed.

Lemma field_char_byte f : is_byte (field_char f).
Proof. unfold is_byte. destruct f; cbn; lia. Qed.

(** One field. *)
Lemma parse_field_rt fs f pos bs acc :
  wire_field f -> typed false (field fs f) (SLeaf (field_char f)) ->
  marshal_value (l_swap m) SocketDup (field fs f) (AlignPtr pos 8 + 4) [] = Ok (bs, []) -> bs <> [] ->
  0 <= pos -> hdr_handles acc <= 0 ->
  has_at (l_buf m) pos (MarshalPad pos 8 ++ [wire_code f; 1; field_char f; 0] ++ bs) ->
  AlignPtr pos 8 + 4 + zlen bs <= endOfHdr ->
  parse_field m [] endOfHdr acc pos = Ok (Next (set_field acc f (field fs f)) (AlignPtr pos 8 + 4 + zlen bs)).
Proof.
  intros Hf Ht Hv Hne Hp Hh Hat He. pose proof (AlignPtr_bound pos 8 align8). pose proof (endOfHdr_le m Hm) as Hend.
  destruct (wire_code_mapping f Hf) as (Hc & Hmap & Hni & Hnu).
  apply has_at_app in Hat as [_ Hat]. rewrite AlignPtr_pad in Hat by done. cbn [app] in Hat.
  apply has_at_cons in Hat as [H0 Hat]. apply has_at_cons in Hat as [H1 Hat]. apply has_at_cons in Hat as [H2 Hat].
  apply has_at_cons in Hat as [H3 Hat]. replace (AlignPtr pos 8 + 1 + 1 + 1 + 1) with (AlignPtr pos 8 + 4) in Hat by lia.
  unfold parse_field. rewrite (byte_read _ _ H0) by done. cbn [rbind]. rewrite Hmap.
  rewrite Z.gtb_ltb, (proj2 (Z.ltb_ge _ _)) by lia. rewrite (bool_decide_false (f = _)) by done.
  rewrite (byte_read _ _ H1) by done. cbn [rbind]. rewrite Z.gtb_ltb, (proj2 (Z.ltb_ge _ _)) by lia.
  rewrite (bool_decide_false (f = _)) by done. change (negb (1 =? 1)) with false. cbv iota.
  rewrite (byte_read _ _ H2) by apply field_char_byte. cbn [rbind].
  rewrite (byte_read _ _ H3) by done. cbn [rbind]. rewrite Z.eqb_refl. cbn [negb orb Z.eqb].
  replace (AlignPtr pos 8 + 1 + 1 + (1 + 1)) with (AlignPtr pos 8 + 4) by lia.
  pose proof (rt_all (l_buf m) (l_end m) (l_swap m) [] (hdr_handles acc) SocketDup (field fs f) false _ (AlignPtr pos 8 + 4) [] bs []
    (pv_fuel (l_end m) [field_char f] (AlignPtr pos 8 + 4)) [] Ht ltac:(lia) Hv Hat ltac:(lia)) as Ho.
  pose proof (parse_step m [] Hm (hdr_handles acc) [field_char f] (AlignPtr pos 8 + 4) Hh ltac:(lia)) as Hs.
  cbn [print app] in Ho. destruct (only_step _ _ _ Ho Hs) as [-> _]. done.
Qed.

Lemma field_loop_rt fs l pos bs : laid_out (l_swap m) SocketDup fs l pos bs -> Forall wire_field l ->
  present fs ALLJOYN_HDR_FIELD_HANDLES = false -> forall acc fuel,
  0 <= pos -> hdr_handles acc <= 0 -> has_at (l_buf m) pos bs -> pos + zlen bs <= endOfHdr ->
  field_loop m [] (count fs l + fuel) endOfHdr acc pos = field_loop m [] fuel endOfHdr (receive fs l acc) (pos + zlen bs).
Proof.
  intros Hlo Hl Hh. induction Hlo as [pos|f l pos bs Hp _ IH|f l pos bs rest Hp Ht Hv Hne _ IH]; intros acc fuel H0 Ha Hat He;
    unfold count, receive in *; cbn [List.filter fold_left]; rewrite ?Hp.
  - cbn [length]. by rewrite Z.add_0_r.
  - apply Forall_cons in Hl as [_ Hl]. by apply IH.
  - apply Forall_cons in Hl as [Hf Hl]. pose proof (AlignPtr_bound pos 8 align8). rewrite zlen_field_head in *.
    rewrite (app_assoc [_; _; _; _] bs rest), app_assoc in Hat. apply has_at_app in Hat as [Hat1 Hat2].
    cbn [length Nat.add field_loop]. rewrite (proj2 (Z.ltb_lt _ _)) by (destruct bs; [done|cbn [length] in *; lia]).
    rewrite (parse_field_rt fs f pos bs acc) by (done || lia). cbn [rbind].
    rewrite IH; [f_equal; lia|done|lia| | |lia].
    + unfold hdr_handles. rewrite field_set_ne; [done|]. intros ->. by rewrite Hp in Hh.
    + replace (AlignPtr pos 8 + 4 + zlen bs) with (pos + zlen (MarshalPad pos 8 ++ [wire_code f; 1; field_char f; 0] ++ bs)); [done|].
      pose proof (zlen_field_head f bs [] pos) as Hz. rewrite app_nil_r in Hz. rewrite Hz. cbn [length]. lia.
Qed.
End load.

Lemma length_receive fs l : forall acc, length (receive fs l acc) = length acc.
Proof.
  unfold receive. induction l as [|f l IH]; intros acc; [done|]. cbn [fold_left]. rewrite IH.
  destruct (present fs f); [apply length_insert|done].
Qed.

Lemma field_receive fs f l : forall acc, (field_index f < length acc)%nat ->
  field (receive fs l acc) f = if bool_decide (f ∈ l) && present fs f then field fs f else field acc f.
Proof.
  unfold receive. induction l as [|g l IH]; intros acc Ha; [done|]. cbn [fold_left].
  rewrite IH by (destruct (present fs g); [unfold set_field; by rewrite length_insert|done]).
  destruct (decide (f = g)) as [->|Hne].
  - rewrite (bool_decide_true (g ∈ g :: l)) by (by left). destruct (present fs g) eqn:Hp; [|by rewrite andb_false_r].
    destruct (bool_decide (g ∈ l)); [done|]. cbn [andb]. unfold field, set_field. by rewrite !nth_lookup, list_lookup_insert_eq.
  - assert (bool_decide (f ∈ g :: l) = bool_decide (f ∈ l)) as -> by (apply bool_decide_ext; rewrite elem_of_cons; split; [by intros [?|?]|by right]).
    destruct (_ && _); [done|]. destruct (present fs g); [|done]. by apply field_set_ne.
Qed.

(** Every field arrives. *)
Lemma receive_all fs : fields_ok fs -> receive fs checked_fields no_fields = fs.
Proof.
  intros Hfs. assert (forall f, f <> ALLJOYN_HDR_FIELD_UNKNOWN -> field (receive fs checked_fields no_fields) f = field fs f) as Hf.
  { intros f Hu. assert (field_index f < 14)%nat as Hi by (destruct f; cbn; lia || done). rewrite field_receive by done.
    case_bool_decide as Hin; cbn [andb].
    - destruct (fo_fields _ Hfs f Hin) as [Hn|Ht].
      + unfold present. rewrite Hn. by destruct f.
      + unfold present. by destruct (field fs f); try done; destruct t.
    - destruct f; try done; try (by rewrite (fo_invalid _ Hfs)); exfalso; apply Hin; apply (bool_decide_unpack _); vm_compute; exact I. }
  apply list_eq_same_length with 14%nat; [apply (fo_length _ Hfs)|by rewrite length_receive|].
  intros i x y Hi Hx Hy.
  assert (exists f, f <> ALLJOYN_HDR_FIELD_UNKNOWN /\ field_index f = i) as (f & Hu & <-).
  { do 14 (destruct i as [|i]; [match goal with |- exists f, _ /\ field_index f = ?n =>
      first [exists ALLJOYN_HDR_FIELD_INVALID; by split|exists ALLJOYN_HDR_FIELD_PATH; by split|exists ALLJOYN_HDR_FIELD_INTERFACE; by split
            |exists ALLJOYN_HDR_FIELD_MEMBER; by split|exists ALLJOYN_HDR_FIELD_ERROR_NAME; by split|exists ALLJOYN_HDR_FIELD_REPLY_SERIAL; by split
            |exists ALLJOYN_HDR_FIELD_DESTINATION; by split|exists ALLJOYN_HDR_FIELD_SENDER; by split|exists ALLJOYN_HDR_FIELD_SIGNATURE; by split
            |exists ALLJOYN_HDR_FIELD_HANDLES; by split|exists ALLJOYN_HDR_FIELD_TIMESTAMP; by split|exists ALLJOYN_HDR_FIELD_TIME_TO_LIVE; by split
            |exists ALLJOYN_HDR_FIELD_COMPRESSION_TOKEN; by split|exists ALLJOYN_HDR_FIELD_SESSION_ID; by split] end|]). lia. }
  specialize (Hf f Hu). unfold field in Hf. rewrite !nth_lookup, Hx, Hy in Hf. done.
Qed.

(** * The fixed header *)

Record header_ok (h : MessageHeader) : Prop := {
  ho_endian : endian h = ALLJOYN_LITTLE_ENDIAN \/ endian h = ALLJOYN_BIG_ENDIAN;
  ho_type : is_byte (msgType h);
  ho_flags : is_byte (flags h);
  ho_version : is_byte (majorVersion h);
  ho_bodyLen : u_ok 4 (bodyLen h);
  ho_serial : u_ok 4 (serialNum h);
  ho_headerLen : u_ok 4 (headerLen h)
}.

Lemma hdr_of_to_bytes h : u_ok 4 (bodyLen h) -> u_ok 4 (serialNum h) -> u_ok 4 (headerLen h) -> hdr_of_bytes (hdr_to_bytes h) = h.
Proof.
  intros Hb Hs Hl. destruct h as [e t f v b s l]. cbn [bodyLen serialNum headerLen] in *.
  transitivity {| endian := e; msgType := t; flags := f; majorVersion := v; bodyLen := le_val (le_bytes 4 b);
                  serialNum := le_val (le_bytes 4 s); headerLen := le_val (le_bytes 4 l) |}; [reflexivity|].
  by rewrite !le_val_le_bytes.
Qed.

Lemma length_hdr_to_bytes h : length (hdr_to_bytes h) = HDR.
Proof. unfold hdr_to_bytes. by rewrite !length_app, !length_le_bytes. Qed.

Lemma wire_header_bytes swap h : header_ok h -> Forall is_byte (wire_header swap h).
Proof.
  intros [He Ht Hf Hv _ _ _]. unfold wire_header, hdr_to_bytes.
  assert (is_byte (endian h)) by (unfold is_byte, ALLJOYN_LITTLE_ENDIAN, ALLJOYN_BIG_ENDIAN in *; lia).
  destruct swap; cbn [hdr_swap endian msgType flags majorVersion bodyLen serialNum headerLen];
    (apply Forall_app_2; [repeat (apply Forall_cons_2; [done|]); apply Forall_nil_2|]); repeat apply Forall_app_2; apply le_bytes_bytes.
Qed.

(** The start of InterpretHeader on a written header. *)
Lemma InterpretHeader_start fresh h (swap := negb (endian h =? myEndian)) : header_ok h ->
  InterpretHeader fresh (wire_header swap h) =
  if headerLen h >? MAX_HEADER_LEN then Fail ER_BUS_BAD_HEADER_LEN
  else
    let pktSize := u32 (Z.land (u32 (headerLen h + 7)) (Z.lnot 7) + bodyLen h) in
    if (pktSize >? ALLJOYN_MAX_PACKET_LEN) || (bodyLen h >? ALLJOYN_MAX_PACKET_LEN) then Fail ER_BUS_BAD_BODY_LEN
    else
      let bufSize := Z.of_nat HDR + Z.land (pktSize + 7) (Z.lnot 7) + 8 in
      Ok {| l_hdr := h; l_swap := swap; l_pktSize := pktSize; l_bufSize := bufSize;
            l_buf := hdr_to_bytes (if swap then hdr_swap h else h) ++ fresh pktSize ++ replicate (Z.to_nat (bufSize - (Z.of_nat HDR + pktSize))) 0 |}.
Proof.
  intros [He _ _ _ Hb Hs Hl].
  assert (hdr_of_bytes (wire_header swap h) = if swap then hdr_swap h else h) as H0.
  { unfold wire_header. destruct swap; apply hdr_of_to_bytes; try done; apply EndianSwap_bound. }
  unfold InterpretHeader. rewrite H0.
  assert (endian (if swap then hdr_swap h else h) = endian h) as Hen by (by destruct swap). rewrite Hen. fold swap.
  assert (swap && negb (endian h =? ALLJOYN_LITTLE_ENDIAN) && negb (endian h =? ALLJOYN_BIG_ENDIAN) = false) as ->.
  { destruct He as [-> | ->]; cbn; by rewrite ?andb_false_r. }
  assert ((if swap then hdr_swap (if swap then hdr_swap h else h) else if swap then hdr_swap h else h) = h) as ->; [|done].
  destruct swap; [by apply hdr_swap_involutive|done].
Qed.

(** The sender does not look at the limit for the header that the receiver enforces. *)
Lemma LoadBytes_long_header fresh h rest : header_ok h -> MAX_HEADER_LEN < headerLen h ->
  LoadBytes fresh (wire_header (negb (endian h =? myEndian)) h ++ rest) = Fail ER_BUS_BAD_HEADER_LEN.
Proof.
  intros Hh Hl. set (w := wire_header _ h). assert (length w = HDR) as Hw by apply length_hdr_to_bytes.
  unfold LoadBytes, rd. rewrite bool_decide_true by (rewrite zlen_app, Hw; unfold HDR; lia).
  change (Z.to_nat 0) with 0%nat. rewrite drop_0, take_app_le, firstn_all2 by lia. cbn [rbind]. unfold w.
  by rewrite InterpretHeader_start, Z.gtb_ltb, (proj2 (Z.ltb_lt _ _)).
Qed.

Lemma InterpretHeader_wire fresh h : header_ok h -> headerLen h <= MAX_HEADER_LEN ->
  AlignPtr (headerLen h) 8 + bodyLen h <= ALLJOYN_MAX_PACKET_LEN ->
  exists m, InterpretHeader fresh (wire_header (negb (endian h =? myEndian)) h) = Ok m /\
    l_hdr m = h /\ l_swap m = negb (endian h =? myEndian) /\ l_pktSize m = AlignPtr (headerLen h) 8 + bodyLen h.
Proof.
  intros Hh Hmax Hpkt. rewrite InterpretHeader_start by done. destruct Hh as [_ _ _ _ Hb _ Hl].
  pose proof (u_ok_nonneg 4 _ Hb). pose proof (u_ok_nonneg 4 _ Hl). pose proof (AlignPtr_bound (headerLen h) 8 align8).
  unfold MAX_HEADER_LEN, ALLJOYN_MAX_PACKET_LEN, ALLJOYN_MAX_ARRAY_LEN in *.
  rewrite Z.gtb_ltb, (proj2 (Z.ltb_ge _ _)) by lia. unfold u32.
  rewrite (Z.mod_small (headerLen h + 7)) by lia. rewrite land_PadUp, Z.mod_small by lia.
  rewrite !Z.gtb_ltb, !(proj2 (Z.ltb_ge _ _)) by lia. cbn [orb]. eexists. split; [done|]. done.
Qed.

(** * Whole messages *)

(** A receiver that gets [bytes] without handles finds this header, these fields and,
    reading them with this signature, these arguments. *)
Definition receives (fresh : Z -> list Z) (bytes : list Z) (h : MessageHeader) (fs : HeaderFields) (signature : list Z) (args : list MsgArg) : Prop :=
  forall handlePassing pedantic, exists l p,
    LoadBytes fresh bytes = Ok l /\ l_hdr l = h /\
    UnmarshalHeader l [] handlePassing pedantic = Ok (fs, p) /\ UnmarshalArgs l [] fs p signature = Ok args.

Section receive.
Context (fresh : Z -> list Z) (SocketDup : list Z -> Z -> res Z).
Hypothesis fresh_bytes : forall n, Forall is_byte (fresh n).
Hypothesis fresh_size : forall n, 0 <= n -> zlen (fresh n) = n.

Lemma check_handles_none handlePassing fs : fields_ok fs -> check_handles handlePassing fs 0 = ER_OK.
Proof. intros Hfs. unfold check_handles, hdr_handles. rewrite (fo_handles _ Hfs). by destruct handlePassing. Qed.

Lemma UnmarshalHeader_rt l fs bs handlePassing pedantic :
  loaded_ok l -> fields_ok fs -> laid_out (l_swap l) SocketDup fs checked_fields 16 bs ->
  has_at (l_buf l) 16 bs -> headerLen (l_hdr l) = zlen bs -> HeaderChecks (msgType (l_hdr l)) fs false = ER_OK ->
  UnmarshalHeader l [] handlePassing pedantic = Ok (fs, AlignPtr (16 + zlen bs) 8).
Proof using.
  intros Hl Hfs Hlo Hat Hlen Hc. unfold UnmarshalHeader. pose proof (laid_out_count _ _ _ _ _ _ Hlo) as Hn. rewrite Hlen.
  replace (Z.to_nat (zlen bs)) with (count fs checked_fields + (length bs - count fs checked_fields))%nat by lia.
  assert (present fs ALLJOYN_HDR_FIELD_HANDLES = false) as Hh by (unfold present; by rewrite (fo_handles _ Hfs)).
  pose proof (field_loop_rt l Hl SocketDup fs checked_fields 16 bs Hlo) as Hf. rewrite Hlen in Hf. change (Z.of_nat HDR) with 16 in *.
  rewrite Hf; [|by apply Forall_forall; intros f ?|done|done|done|done|lia]. rewrite receive_all by done.
  assert (forall n, field_loop l [] n (16 + zlen bs) fs (16 + zlen bs) = Ok (fs, 16 + zlen bs)) as ->.
  { intros [|n]; cbn [field_loop]; by rewrite Z.ltb_irrefl. }
  cbn [rbind]. rewrite Z.eqb_refl. cbn [negb].
  assert (HeaderChecks (msgType (l_hdr l)) fs pedantic = ER_OK) as -> by (destruct pedantic; [by rewrite HeaderChecks_pedantic_void|done]).
  rewrite (bool_decide_true (ER_OK = ER_OK)) by done. change (zlen []) with 0. rewrite (check_handles_none _ _ Hfs). by rewrite bool_decide_true.
Qed.

Lemma message_received h fs bs args ts body :
  header_ok h -> msgType h <> 0 -> headerLen h = zlen bs -> headerLen h <= MAX_HEADER_LEN ->
  bodyLen h = zlen body -> AlignPtr (zlen bs) 8 + zlen body <= ALLJOYN_MAX_PACKET_LEN ->
  fields_ok fs -> laid_out (negb (endian h =? myEndian)) SocketDup fs checked_fields 16 bs -> Forall is_byte bs -> Forall is_byte body ->
  MarshalArgs (negb (endian h =? myEndian)) SocketDup args (AlignPtr (16 + zlen bs) 8) [] = Ok (body, []) ->
  Forall2 (typed false) args ts -> GetSignature fs = prints ts -> zlen (prints ts) <= 255 ->
  HeaderChecks (msgType h) fs false = ER_OK ->
  receives fresh (wire_header (negb (endian h =? myEndian)) h ++ (bs ++ MarshalPad (16 + zlen bs) 8) ++ body) h fs (prints ts) args.
Proof using fresh_bytes fresh_size.
  intros Hh Hty Hlen Hmax Hbl Hpk Hfs Hlo Hbs Hbb Hmar Hts Hsig Hsl Hc handlePassing pedantic.
  set (swap := negb (endian h =? myEndian)) in *. set (bytes := wire_header swap h ++ _).
  assert (length (wire_header swap h) = HDR) as H16 by apply length_hdr_to_bytes.
  destruct (InterpretHeader_wire fresh h Hh Hmax) as (m & Hi & Hmh & Hms & Hmp); [by rewrite Hlen, Hbl|]. fold swap in Hi, Hms.
  pose proof (AlignPtr_pad (16 + zlen bs) 8 align8) as Hpad. pose proof (AlignPtr_plus16 (zlen bs)) as H8.
  pose proof (AlignPtr_bound (zlen bs) 8 align8).
  assert (take HDR bytes = wire_header swap h) as Htk by (unfold bytes; by rewrite take_app_le, firstn_all2 by lia).
  assert (zlen bytes = 16 + l_pktSize m) as Hz by (unfold bytes; rewrite !zlen_app, H16, Hmp, Hlen, Hbl; unfold HDR; lia).
  destruct (LoadBytes_exact fresh fresh_bytes fresh_size bytes m) as (l & Hload & Hl & Hlh & Hls & Hle & Hat).
  - unfold bytes. apply Forall_app_2; [by apply wire_header_bytes|]. rewrite !Forall_app. auto.
  - unfold rd. rewrite bool_decide_true by (rewrite Hz, Hmp, Hlen, Hbl; unfold HDR; lia). done.
  - by rewrite Htk.
  - done.
  - apply has_at_app in Hat as [_ Hat]. rewrite H16 in Hat. apply has_at_app in Hat as [Hat1 Hat2]. change (0 + Z.of_nat HDR) with 16 in *.
    apply has_at_app in Hat1 as [Hat1 _]. rewrite zlen_app in Hat2. rewrite Z.add_assoc, Hpad in Hat2.
    exists l, (AlignPtr (16 + zlen bs) 8). split; [done|]. split; [congruence|]. split.
    + apply UnmarshalHeader_rt; try done; by rewrite ?Hls, ?Hlh, ?Hms, ?Hmh.
    + eapply UnmarshalArgs_rt with (ts := ts) (h := []); try done; rewrite ?Hlh, ?Hmh, ?Hls, ?Hms; try done; try lia.
      * unfold hdr_handles. by rewrite (fo_handles _ Hfs).
      * rewrite Hle, Hz, Hmp, Hlen, Hbl. lia.
Qed.
End receive.

(** * MarshalMessage *)

(** The size of well-typed arguments can be computed, also when they cannot be sent. *)
Definition has_size (a : MsgArg) : Prop := forall e t sz, typed e a t -> exists n, gs_value a sz = Ok (Some n) /\ sz < n.

Lemma PadUp_le sz b : alignment b -> sz <= PadUp sz b.
Proof. intros Hb. rewrite PadUp_AlignPtr by done. pose proof (AlignPtr_bound sz b Hb). lia. Qed.

Lemma has_size_call a e t sz : has_size a -> typed e a t -> exists n, gs_call (is_null a) (gs_value a) sz = Ok n /\ sz < n.
Proof.
  intros Ha Ht. destruct (Ha e t sz Ht) as (n & Hn & Hlt). exists n. split; [|done]. unfold gs_call.
  assert (is_null a = false) as -> by (by destruct a). by rewrite Hn.
Qed.

Lemma has_size_calls l sz : Forall has_size l -> Forall (fun a => exists e t, typed e a t) l ->
  exists n, gs_call (nulls l) (gs_loop gs_value l) sz = Ok n /\ (match l with [] => sz = n | _ => sz < n end).
Proof.
  intros Hl Ht. assert (exists n, gs_loop gs_value l sz = Ok (Some n) /\ (match l with [] => sz = n | _ => sz < n end)) as (n & Hn & Hlt).
  { revert Ht sz. induction Hl as [|a l Ha _ IH]; intros Ht sz; cbn [gs_loop]; [by exists sz|].
    apply Forall_cons in Ht as [(e & t & Hta) Ht]. destruct (Ha e t sz Hta) as (n & -> & Hn). cbn [rbind].
    destruct (IH Ht n) as (k & -> & Hk). exists k. split; [done|]. destruct l; lia. }
  exists n. split; [|done]. unfold gs_call. assert (nulls l = false) as ->; [|by rewrite Hn].
  destruct Ht as [|a l (e & t & Ha) _]; [done|by eapply typed_not_nulls].
Qed.

Lemma has_size_all a : has_size a.
Proof.
  pose proof PadUp_le as Hp.
  revert a. apply MsgArg_nested_ind; [intros a|intros es l IH|intros l IH|intros k v IHk IHv|intros v IHv].
  - destruct a; try done; intros e [c|[c| | |]| |] sz H; cbn [typed] in H; try done;
      cbn [gs_value]; eexists; (split; [reflexivity|]);
      pose proof (Hp sz 2 align2); pose proof (Hp sz 4 align4); pose proof (Hp sz 8 align8); pose proof (Hp (PadUp sz 4 + 4) 8 align8);
      try lia; destruct H as (_ & s & (_ & -> & _) & _); lia.
  - intros e t sz (t' & -> & -> & Hwf & _ & _ & Hc & Hl)%typed_array. cbn [gs_value]. pose proof (Hp sz 4 align4).
    assert (Forall (fun a => exists e t, typed e a t) l) as Hl' by (eapply Forall_impl; [exact Hl|]; intros a Ha; exists true, t'; exact Ha).
    destruct l as [|a l].
    + eexists. split; [done|]. pose proof (Hp (PadUp sz 4 + 4) _ (elem_alignment_typed t' Hwf Hc)). lia.
    + destruct (has_size_calls (a :: l) (PadUp sz 4 + 4) IH Hl') as (n & -> & Hn). exists n. split; [done|lia].
  - intros e t sz (ts & -> & Hwf & Hl)%typed_struct. cbn [gs_value]. pose proof (Hp sz 8 align8).
    assert (Forall (fun a => exists e t, typed e a t) l) as Hl' by (eapply Forall2_Forall_l; [exact Hl|]; apply Forall_true; eauto).
    destruct (has_size_calls l (PadUp sz 8) IH Hl') as (n & -> & Hn). exists n. split; [done|].
    destruct l; [|lia]. by inversion Hl; subst.
  - intros e [| | |kt vt] sz; try done. cbn [typed gs_value]. intros (_ & _ & _ & Hk & Hv). pose proof (Hp sz 8 align8).
    destruct (has_size_call k _ _ (PadUp sz 8) IHk Hk) as (n & -> & Hn). cbn [rbind].
    destruct (has_size_call v _ _ n IHv Hv) as (n' & -> & Hn'). exists n'. split; [done|lia].
  - intros e [c| | |] sz; try done. cbn [typed gs_value]. intros (_ & t & Ht & _ & Hlen).
    destruct (variant_sig v false t Ht Hlen) as (_ & st & -> & Hst). cbn [rbind].
    destruct (has_size_call v _ _ (sz + 1 + sb_len st + 1) IHv Ht) as (n & -> & Hn). exists n. split; [done|lia].
Qed.

Lemma GetSize_typed args ts : Forall2 (typed false) args ts -> exists n, GetSize args 0 = Ok n /\ (match args with [] => 0 = n | _ => 0 < n end).
Proof.
  intros Ht. apply has_size_calls; [by apply Forall_true, has_size_all|]. eapply Forall2_Forall_l; [exact Ht|]. apply Forall_true. eauto.
Qed.

Lemma make_signature_typed args ts : Forall2 (typed false) args ts -> zlen (prints ts) <= 253 ->
  make_signature args = Ok (ER_OK, prints ts ++ [0], zlen (prints ts)).
Proof.
  intros Ht Hl. destruct (decide (args = [])) as [->|Hne]; [by inversion Ht|].
  assert (sigs_of args = prints ts /\ forallb sig_ok args = true) as [Hs Hok].
  { clear Hl Hne. induction Ht as [|a t args ts Ha _ [IH1 IH2]]; [done|]. destruct (typed_sig _ _ _ Ha) as [H1 H2].
    cbn [map concat forallb]. by rewrite H1, H2, IH1. }
  destruct (MakeSignature_text args) as (st & Hm & Hsl & Hst).
  - unfold sigs_ok. rewrite Hok, andb_true_r. apply Z.ltb_lt. rewrite (Forall2_length _ _ _ Ht). pose proof (length_prints ts). lia.
  - by rewrite Hs.
  - unfold make_signature. destruct args as [|a args]; [done|]. rewrite Hm. cbn [rbind]. rewrite decide_True by done.
    rewrite Hsl, Hs. rewrite Hs in Hst. replace (Z.to_nat (zlen (prints ts)) + 1)%nat with (S (length (prints ts))) by lia.
    by rewrite Hst, mapM_id_Some.
Qed.

Definition name_ok (s : list Z) : Prop := Forall is_byte s /\ zlen s <= ALLJOYN_MAX_PACKET_LEN.

(** The fields MarshalMessage sets itself. *)
Definition sent_fields (fs : HeaderFields) (sender destination signature : list Z) (sessionId : Z) : HeaderFields :=
  set_field (set_field (set_field (set_field fs ALLJOYN_HDR_FIELD_DESTINATION (name_field destination))
    ALLJOYN_HDR_FIELD_SENDER (name_field sender))
    ALLJOYN_HDR_FIELD_SIGNATURE (match signature with [] => A_INVALID | _ => A_SIGNATURE (zlen signature) (Some (signature ++ [0])) end))
    ALLJOYN_HDR_FIELD_SESSION_ID (if sessionId =? 0 then A_INVALID else A_32 TY_UINT32 sessionId).

Lemma u32_len (s : list Z) : zlen s <= ALLJOYN_MAX_PACKET_LEN -> u32 (zlen s) = zlen s.
Proof. intros. unfold u32, ALLJOYN_MAX_PACKET_LEN, ALLJOYN_MAX_ARRAY_LEN in *. apply Z.mod_small. lia. Qed.

Lemma typed_string t s : name_ok s -> (t = TY_OBJECT_PATH -> s <> []) -> typed false (string_field t s) (SLeaf (typeId_val (tystr t))).
Proof. intros [Hb Hl] Ho. split; [done|]. exists s. split; [by rewrite u32_len|done]. Qed.

Lemma field_ok_set fs f g a : wire_field f -> field_ok fs f -> (g = f -> a = A_INVALID \/ typed false a (SLeaf (field_char g))) ->
  length fs = 14%nat -> field_ok (set_field fs g a) f.
Proof.
  intros Hf Hok Ha Hl. destruct (decide (g = f)) as [->|Hne].
  - unfold field_ok, field, set_field. rewrite nth_lookup, list_lookup_insert_eq by (rewrite Hl; by apply wire_field_index). cbn. auto.
  - unfold field_ok. by rewrite field_set_ne.
Qed.

Lemma fields_ok_set fs g a : fields_ok fs -> wire_field g -> g <> ALLJOYN_HDR_FIELD_HANDLES ->
  (a = A_INVALID \/ typed false a (SLeaf (field_char g))) -> fields_ok (set_field fs g a).
Proof.
  intros [Hl Hi Hh Hf] Hg Hn Ha. constructor.
  - unfold set_field. by rewrite length_insert.
  - rewrite field_set_ne; [done|]. intros ->. by apply wire_field_index in Hg; cbn in Hg; lia.
  - by rewrite field_set_ne.
  - intros f Hw. apply field_ok_set; auto.
Qed.

Lemma name_field_ok s : name_ok s -> name_field s = A_INVALID \/ typed false (name_field s) (SLeaf 115).
Proof. intros Hs. destruct s as [|c s]; [by left|right]. by apply (typed_string TY_STRING). Qed.

Ltac wire := apply (bool_decide_unpack _); vm_compute; exact I.

Lemma sent_fields_ok fs sender destination ts sessionId : fields_ok fs -> name_ok sender -> name_ok destination ->
  Forall (fun t => wf_top t = true) ts -> zlen (prints ts) <= 253 -> u_ok 4 sessionId ->
  fields_ok (sent_fields fs sender destination (prints ts) sessionId).
Proof.
  intros Hfs Hs Hd Hts Hl Hi. unfold sent_fields.
  apply fields_ok_set; [apply fields_ok_set; [apply fields_ok_set; [apply fields_ok_set|..]|..]|..]; try done; try wire;
    try (by apply name_field_ok).
  - destruct (prints ts) as [|c s] eqn:Hp; [by left|right]. split; [done|]. exists (c :: s). split; [|lia].
    split_and!; [done|done|]. rewrite <- Hp. eapply Forall_impl; [apply Forall_concat, Forall_map; eapply Forall_impl; [exact Hts|]; intros t; apply wf_top_sigchars|].
    unfold is_sigchar, is_byte. lia.
  - destruct (sessionId =? 0); [by left|by right].
Qed.

Lemma until_nul_text s : Forall (fun c => c <> 0) s -> until_nul (s ++ [0]) = s.
Proof. induction 1 as [|c s Hc _ IH]; [done|]. cbn [app until_nul]. rewrite (proj2 (Z.eqb_neq _ _)) by done. by rewrite IH. Qed.

Section message.
Context (fresh : Z -> list Z) (SocketDup : list Z -> Z -> res Z) (outEndian : Z).
Hypothesis fresh_bytes : forall n, Forall is_byte (fresh n).
Hypothesis fresh_size : forall n, 0 <= n -> zlen (fresh n) = n.
Hypothesis out_endian : outEndian = ALLJOYN_LITTLE_ENDIAN \/ outEndian = ALLJOYN_BIG_ENDIAN.
Abbreviation swap := (negb (outEndian =? myEndian)).

Lemma head_written fs : fields_ok fs -> exists bs,
  ComputeHeaderLen fs = Ok (u32 (zlen bs), AlignPtr (16 + zlen bs) 8) /\
  MarshalHeaderFields SocketDup swap fs [] = Ok (bs ++ MarshalPad (16 + zlen bs) 8, fs, []) /\
  laid_out swap SocketDup fs checked_fields 16 bs /\ Forall is_byte bs.
Proof using.
  intros Hfs. destruct (fields_loop_laid_out swap SocketDup fs checked_fields Hfs) with (pos := 16) as (bs & Hl & Hlo & Hb & Hh);
    [by apply Forall_forall; intros f ?|lia|].
  exists bs. unfold ComputeHeaderLen, MarshalHeaderFields. change (Z.of_nat HDR) with 16. change (16 - 16) with 0 in Hh.
  rewrite Hl, Hh. cbn [rbind]. split_and!; [|done|done|done]. rewrite PadUp_AlignPtr by done.
  by replace (16 + zlen bs - 16) with (zlen bs) by lia; replace (16 + (16 + zlen bs - 16)) with (16 + zlen bs) by lia.
Qed.

(** What became of a message: it was written and is understood, or it is too long and
    nothing is left of it. *)
Definition outcome (fs : HeaderFields) (type flag serial : Z) (ts : list sigty) (args : list MsgArg) (r : res (QStatus * Msg)) : Prop :=
  match r with
  | Ok (status, m) =>
      (status = ER_OK /\ exists bytes, msgBuf m = Some bytes /\ hdrFields m = fs /\
         endian (msgHeader m) = outEndian /\ msgType (msgHeader m) = type /\ flags (msgHeader m) = flag /\ serialNum (msgHeader m) = serial /\
         (HeaderChecks type fs false = ER_OK ->
          if headerLen (msgHeader m) <=? MAX_HEADER_LEN
          then receives fresh bytes (hdr_with (msgHeader m) type (Z.lxor flag ALLJOYN_FLAG_AUTO_START) (headerLen (msgHeader m))) fs (prints ts) args
          else LoadBytes fresh bytes = Fail ER_BUS_BAD_HEADER_LEN)) \/
      ((status = ER_BUS_BAD_LENGTH \/ status = ER_BUS_BAD_BODY_LEN) /\ msgBuf m = None /\ hdrFields m = no_fields)
  | _ => False
  end.

Lemma lxor_byte a b : is_byte a -> is_byte b -> is_byte (Z.lxor a b).
Proof.
  unfold is_byte. intros Ha Hb. split; [apply Z.lxor_nonneg; lia|]. change 256 with (2 ^ 8).
  destruct (Z.eq_dec (Z.lxor a b) 0) as [->|]; [lia|]. apply Z.log2_lt_pow2; [assert (0 <= Z.lxor a b) by (apply Z.lxor_nonneg; lia); lia|].
  eapply Z.le_lt_trans; [apply Z.log2_lxor; lia|]. apply Z.max_lub_lt.
  - destruct (Z.eq_dec a 0) as [->|]; [done|]. apply Z.log2_lt_pow2; lia.
  - destruct (Z.eq_dec b 0) as [->|]; [done|]. apply Z.log2_lt_pow2; lia.
Qed.

Lemma sent_signature fs sender destination signature sessionId : length fs = 14%nat -> until_nul (signature ++ [0]) = signature ->
  GetSignature (sent_fields fs sender destination signature sessionId) = signature.
Proof using.
  intros Hl Hn. unfold GetSignature, sent_fields. rewrite field_set_ne by done. unfold field, set_field.
  rewrite nth_lookup, list_lookup_insert_eq by (rewrite !length_insert, Hl; cbn; lia). by destruct signature.
Qed.

Lemma give_up_outcome fs type flag serial ts args m st : msgType (msgHeader m) <> 0 ->
  st = ER_BUS_BAD_LENGTH \/ st = ER_BUS_BAD_BODY_LEN -> outcome fs type flag serial ts args (exit_error m st).
Proof using.
  intros Ht Hst. right. split; [done|]. unfold ClearHeader. cbn [with_buffer msgHeader]. by rewrite (proj2 (Z.eqb_neq _ _)).
Qed.

(** From the header on. *)
Lemma body_received m fs bs args ts n :
  msgHeader m = hdr_with (msgHeader m) (msgType (msgHeader m)) (flags (msgHeader m)) (zlen bs) -> endian (msgHeader m) = outEndian ->
  let hw := hdr_with (msgHeader m) (msgType (msgHeader m)) (Z.lxor (flags (msgHeader m)) ALLJOYN_FLAG_AUTO_START) (zlen bs) in
  header_ok hw -> msgType (msgHeader m) <> 0 -> hdrFields m = fs -> endianSwap m = swap -> handles m = [] -> bodyLen (msgHeader m) = n ->
  fields_ok fs -> laid_out swap SocketDup fs checked_fields 16 bs -> Forall is_byte bs -> Forall2 (typed false) args ts ->
  GetSize args 0 = Ok n -> AlignPtr (16 + zlen bs) 8 + n <= ALLJOYN_MAX_PACKET_LEN -> GetSignature fs = prints ts -> zlen (prints ts) <= 253 ->
  outcome fs (msgType (msgHeader m)) (flags (msgHeader m)) (serialNum (msgHeader m)) ts args
    (let head := wire_header swap hw ++ bs ++ MarshalPad (16 + zlen bs) 8 in
     if bodyLen (msgHeader m) =? 0 then Ok (ER_OK, with_buffer m (Some head) None) else marshal_body SocketDup m head args n).
Proof using fresh_bytes fresh_size out_endian.
  intros Hhl Hen hw Hhw Hty Hfs Hsw Hhs Hbl Hf Hlo Hb Hts Hn Hmax Hsig Hsl. cbv zeta. set (head := wire_header swap hw ++ bs ++ MarshalPad (16 + zlen bs) 8).
  pose proof (AlignPtr_plus16 (zlen bs)) as H16. pose proof (AlignPtr_bound (zlen bs) 8 align8).
  assert (zlen head = AlignPtr (16 + zlen bs) 8) as Hhead.
  { unfold head, wire_header. rewrite !zlen_app, length_hdr_to_bytes. pose proof (AlignPtr_pad (16 + zlen bs) 8 align8). unfold HDR. lia. }
  assert (zlen bs = headerLen (msgHeader m)) as Hlen by (by rewrite Hhl).
  assert (forall body, MarshalArgs swap SocketDup args (AlignPtr (16 + zlen bs) 8) [] = Ok (body, []) -> Forall is_byte body -> n = zlen body ->
    HeaderChecks (msgType (msgHeader m)) fs false = ER_OK ->
    if headerLen (msgHeader m) <=? MAX_HEADER_LEN
    then receives fresh (head ++ body) (hdr_with (msgHeader m) (msgType (msgHeader m)) (Z.lxor (flags (msgHeader m)) ALLJOYN_FLAG_AUTO_START)
      (headerLen (msgHeader m))) fs (prints ts) args
    else LoadBytes fresh (head ++ body) = Fail ER_BUS_BAD_HEADER_LEN) as Hrec.
  { intros body Hm Hbb Hnb Hc. destruct (Z.leb_spec (headerLen (msgHeader m)) MAX_HEADER_LEN) as [Hhmax|Hhmax]; rewrite <- Hlen in *;
      [|unfold head, swap; rewrite <- app_assoc, <- Hen; by apply (LoadBytes_long_header fresh hw)]. fold hw. unfold head. rewrite <- app_assoc. unfold swap in *. rewrite <- Hen in *.
    apply (message_received fresh SocketDup fresh_bytes fresh_size hw); try done; cbn; try done; lia. }
  pose proof (MarshalArgs_sizes swap SocketDup args ts (AlignPtr (16 + zlen bs) 8) 0 [] Hts (AlignPtr_multiple _ _ align8)) as Hg.
  unfold GetSize, gs_call in Hn. assert (nulls args = false) as Hnull by (destruct Hts; [done|by eapply typed_not_nulls]). rewrite Hnull in Hn.
  destruct (MarshalArgs swap SocketDup args (AlignPtr (16 + zlen bs) 8) []) as [[body hs]|st|] eqn:Hm; [| |done].
  - destruct Hg as (-> & Hne & Hbb & Hgs). rewrite Hgs in Hn. cbn [rbind default] in Hn. injection Hn as Hn. rewrite Z.add_0_l in Hn.
    destruct (Z.eqb_spec (bodyLen (msgHeader m)) 0) as [Hz|Hz].
    + assert (body = []) as -> by (destruct body; [done|cbn in *; lia]). left. split; [done|]. exists head. cbn [with_buffer msgBuf hdrFields msgHeader].
      split_and!; try done. intros Hc. rewrite <- (app_nil_r head). by apply Hrec.
    + unfold marshal_body. rewrite Hsw, Hhead, Hhs, Hm. rewrite Hn, Z.eqb_refl. cbn [negb rbind]. left. split; [done|]. exists (head ++ body).
      cbn [with_refArgs with_handles with_buffer msgBuf hdrFields msgHeader]. split_and!; try done. by apply Hrec.
  - destruct (Z.eqb_spec (bodyLen (msgHeader m)) 0) as [Hz|Hz].
    + exfalso. destruct args as [|a args]; [done|]. destruct (GetSize_typed _ _ Hts) as (k & Hk & Hpos).
      unfold GetSize, gs_call in Hk. rewrite Hnull, Hn in Hk. injection Hk as ->. lia.
    + unfold marshal_body. rewrite Hsw, Hhead, Hhs, Hm. apply give_up_outcome; [done|by left].
Qed.

Lemma MarshalMessage_received m sender destination type args ts flag sessionId serial :
  fields_ok (hdrFields m) -> handles m = [] -> Forall2 (typed false) args ts -> zlen (prints ts) <= 253 ->
  name_ok sender -> name_ok destination -> 0 < type < 256 -> is_byte flag -> u_ok 4 sessionId -> u_ok 4 serial ->
  outcome (sent_fields (hdrFields m) sender destination (prints ts) sessionId) type flag serial ts args
    (MarshalMessage outEndian SocketDup m (prints ts) sender destination type (Some args) (zlen args) flag sessionId serial).
Proof using fresh_bytes fresh_size out_endian.
  intros Hfs Hhs Hts Hsl Hs Hd Hty Hfl Hi Hse. unfold MarshalMessage. rewrite prefix_all. cbn [rbind].
  assert (Forall (fun t => wf_top t = true) ts) as Hwf.
  { eapply Forall2_Forall_r; [exact Hts|]. apply Forall_true. intros t a. apply typed_wf_top. }
  destruct (GetSize_typed args ts Hts) as (n & Hn & Hn0). assert (0 <= n) by (destruct args; lia).
  assert (match args with [] => Ok 0 | _ => GetSize args 0 end = Ok n) as -> by (destruct args; [by injection Hn as <-|done]).
  cbn [rbind]. rewrite (make_signature_typed args ts Hts Hsl). cbn [rbind]. rewrite (bool_decide_true (ER_OK = ER_OK)) by done. cbn [negb].
  assert (until_nul (prints ts ++ [0]) = prints ts) as Hnul.
  { assert (Forall (fun c => c <> 0) (prints ts)) as Hz.
    { apply sigchars_nonzero, Forall_concat, Forall_map. eapply Forall_impl; [exact Hwf|]. intros t. apply wf_top_sigchars. }
    by apply until_nul_text. }
  rewrite Hnul, (bool_decide_true (prints ts = prints ts)) by done. cbn [negb].
  set (sig_arg := if 0 <? zlen (prints ts) then _ else _).
  assert (sig_arg = match prints ts with [] => A_INVALID | _ => A_SIGNATURE (zlen (prints ts)) (Some (prints ts ++ [0])) end) as ->.
  { unfold sig_arg. destruct (prints ts) as [|c s]; [done|]. rewrite (proj2 (Z.ltb_lt _ _)) by (cbn; lia). unfold u8. by rewrite Z.mod_small by lia. }
  fold (sent_fields (hdrFields m) sender destination (prints ts) sessionId).
  pose proof (sent_fields_ok (hdrFields m) sender destination ts sessionId Hfs Hs Hd Hwf Hsl Hi) as Hf.
  set (fs := sent_fields _ _ _ _ _) in *.
  destruct (head_written fs Hf) as (bs & Hc & Hw & Hlo & Hb). rewrite Hc. cbn [rbind]. rewrite Z.gtb_ltb.
  destruct (Z.ltb_spec ALLJOYN_MAX_PACKET_LEN (AlignPtr (16 + zlen bs) 8 + n)) as [|Hmax]; [apply give_up_outcome; [cbn; lia|by right]|].
  cbn [endianSwap with_header with_fields handles]. rewrite Hhs, Hw. cbn [rbind].
  pose proof (AlignPtr_bound (16 + zlen bs) 8 align8). pose proof (AlignPtr_plus16 (zlen bs)).
  assert (u32 (zlen bs) = zlen bs) as -> by (unfold u32, ALLJOYN_MAX_PACKET_LEN, ALLJOYN_MAX_ARRAY_LEN in *; apply Z.mod_small; lia).
  assert (u32 n = n) as -> by (unfold u32, ALLJOYN_MAX_PACKET_LEN, ALLJOYN_MAX_ARRAY_LEN in *; apply Z.mod_small; lia).
  set (h := {| endian := outEndian |}). set (hw := hdr_with h type (Z.lxor flag ALLJOYN_FLAG_AUTO_START) (zlen bs)).
  assert (header_ok hw) as Hhw.
  { unfold ALLJOYN_MAX_PACKET_LEN, ALLJOYN_MAX_ARRAY_LEN, u_ok in *.
    constructor; cbn; try done; try (unfold is_byte, u_ok; lia). by apply lxor_byte. }
  change (hdr_with (hdr_with h type flag (zlen bs)) type (Z.lxor flag ALLJOYN_FLAG_AUTO_START) (zlen bs)) with hw.
  assert (zlen (wire_header swap hw ++ bs ++ MarshalPad (16 + zlen bs) 8) = AlignPtr (16 + zlen bs) 8) as ->.
  { unfold wire_header. rewrite !zlen_app, length_hdr_to_bytes. pose proof (AlignPtr_pad (16 + zlen bs) 8 align8). unfold HDR. lia. }
  rewrite Z.eqb_refl. cbn [negb]. set (m1 := with_handles _ _).
  assert (GetSignature fs = prints ts) as Hsig by (apply sent_signature; [apply Hfs|done]).
  apply (body_received m1 fs bs args ts n); try done; unfold m1; cbn; lia.
Qed.

(** * Method calls, replies and signals *)

(** A message object that was never used, or whose header can be cleared. *)
Definition reusable (m : Msg) : Prop := msgType (msgHeader m) = 0 -> hdrFields m = no_fields /\ handles m = [].

Lemma ClearHeader_empty m : reusable m -> hdrFields (ClearHeader m) = no_fields /\ handles (ClearHeader m) = [].
Proof using. intros Hm. unfold ClearHeader. destruct (Z.eqb_spec (msgType (msgHeader m)) 0) as [Hz|]; [by apply Hm|done]. Qed.

Lemma no_fields_ok : fields_ok no_fields.
Proof using. constructor; [done|done|done|]. intros f _. left. unfold field, no_fields. by destruct f. Qed.

(** The fields a receiver finds, in the order of the enumeration. *)
Definition wire_fields (path iface member error reply ttl time : MsgArg) (destination sender signature : list Z) (sessionId : Z) : HeaderFields :=
  [A_INVALID; path; iface; member; error; reply; name_field destination; name_field sender;
   match signature with [] => A_INVALID | _ => A_SIGNATURE (zlen signature) (Some (signature ++ [0])) end;
   A_INVALID; time; ttl; A_INVALID; if sessionId =? 0 then A_INVALID else A_32 TY_UINT32 sessionId].

(** The message was written, and who receives it finds this, unless its header is over
    the limit, when it is refused; or it is too long to be written. *)
Definition arrives (type flag serial : Z) (fs : HeaderFields) (ts : list sigty) (args : list MsgArg) (r : res (QStatus * Msg)) : Prop :=
  match r with
  | Ok (status, m) =>
      (status = ER_OK /\ exists bytes, msgBuf m = Some bytes /\
         if headerLen (msgHeader m) <=? MAX_HEADER_LEN
         then exists h, receives fresh bytes h fs (prints ts) args /\
            msgType h = type /\ flags h = Z.lxor flag ALLJOYN_FLAG_AUTO_START /\ serialNum h = serial
         else LoadBytes fresh bytes = Fail ER_BUS_BAD_HEADER_LEN) \/
      ((status = ER_BUS_BAD_LENGTH \/ status = ER_BUS_BAD_BODY_LEN) /\ msgBuf m = None)
  | _ => False
  end.

Lemma outcome_arrives fs type flag serial ts args r : HeaderChecks type fs false = ER_OK ->
  outcome fs type flag serial ts args r -> arrives type flag serial fs ts args r.
Proof using.
  intros Hc. destruct r as [[st m]| |]; [|done|done].
  intros [(-> & bytes & Hb & Hf & He & Ht & Hfl & Hs & Hr)|(Hst & Hb & _)]; [left|by right]. split; [done|]. exists bytes. split; [done|].
  specialize (Hr Hc). destruct (_ <=? _); [|done]. eexists. split; [exact Hr|]. by cbn.
Qed.

Lemma args_count args ts : Forall2 (typed false) args ts -> zlen (prints ts) <= 253 -> u8 (zlen args) = zlen args.
Proof using. intros Ht Hl. rewrite (Forall2_length _ _ _ Ht). pose proof (length_prints ts). unfold u8. apply Z.mod_small. lia. Qed.

(** A legal object path and the other names of a call or a signal. *)
Definition path_ok (objPath : list Z) : Prop := name_ok objPath /\ IsLegalObjectPath (Some (until_nul objPath)) = true.

Lemma path_field_ok objPath : path_ok objPath -> typed false (string_field TY_OBJECT_PATH objPath) (SLeaf 111).
Proof using. intros [Hn Hp]. apply (typed_string TY_OBJECT_PATH); [done|]. intros _ ->. done. Qed.

Ltac set_fields := repeat (apply fields_ok_set; [|wire|done|]); try apply no_fields_ok.


(** C4: The reply that ReplyMsg composes to a method call that is not encrypted, with
    well-typed arguments of the signature the call asks for (at most 253 characters), is
    refused by the sender because it is too long or written; its destination is the
    sender of the call, it carries the serial number and the session of the call, and the
    caller reads the arguments that were given to ReplyMsg, unless the header fields take
    more than MAX_HEADER_LEN bytes, when the caller refuses the message. *)
Theorem ReplyMsg_received m call caller sender args ts serial :
  reusable m -> msgType (msgHeader call) = MESSAGE_METHOD_CALL ->
  field (hdrFields call) ALLJOYN_HDR_FIELD_SENDER = string_field TY_STRING caller -> Forall (fun c => c <> 0) caller ->
  reply_flag call = 0 -> replySignature call = prints ts -> u_ok 4 (serialNum (msgHeader call)) -> u_ok 4 (GetSessionId call) ->
  Forall2 (typed false) args ts -> zlen (prints ts) <= 253 -> name_ok caller -> name_ok sender -> u_ok 4 serial ->
  arrives MESSAGE_METHOD_RET 0 serial
    (wire_fields A_INVALID A_INVALID A_INVALID A_INVALID (A_32 TY_UINT32 (serialNum (msgHeader call))) A_INVALID A_INVALID
       caller sender (prints ts) (GetSessionId call)) ts args
    (ReplyMsg outEndian SocketDup m call sender (Some args) (zlen args) serial).
Proof using fresh_bytes fresh_size out_endian.
  intros Hm Hty Hsd Hnz Hfl Hrs Hcs Hse Hts Hsl Hca Hs Hser. unfold ReplyMsg, sender_of. rewrite Hsd. cbn [string_field rbind].
  rewrite (until_nul_text caller Hnz).
  rewrite Hty, Z.eqb_refl. cbn [negb]. destruct (ClearHeader_empty m Hm) as [Hcf Hch]. rewrite (args_count args ts), Hcf, Hfl, Hrs by done.
  set (fs := set_field no_fields _ _). assert (fields_ok fs) as Hf by (unfold fs; set_fields; by right).
  apply outcome_arrives; [reflexivity|]. by apply (MarshalMessage_received (with_fields (ClearHeader m) fs)).
Qed.

(** A signal arrives like a method call does, with its time to live and time stamp
    when it has one, and for everybody when it has no destination. *)
Theorem SignalMsg_received m sender destination sessionId objPath iface signalName args ts flag timeToLive serial now :
  reusable m -> Forall2 (typed false) args ts -> zlen (prints ts) <= 253 ->
  name_ok sender -> name_ok (default [] destination) -> path_ok objPath -> name_ok iface -> name_ok signalName ->
  is_byte flag -> bad_flags flag signal_flags = false -> Z.land flag ALLJOYN_FLAG_ENCRYPTED = 0 ->
  u_ok 4 sessionId -> u_ok 4 serial -> u_ok 2 timeToLive -> u_ok 4 now ->
  arrives MESSAGE_SIGNAL flag serial
    (wire_fields (string_field TY_OBJECT_PATH objPath) (string_field TY_STRING iface) (string_field TY_STRING signalName) A_INVALID A_INVALID
       (if timeToLive =? 0 then A_INVALID else A_16 TY_UINT16 timeToLive) (if timeToLive =? 0 then A_INVALID else A_32 TY_UINT32 now)
       (default [] destination) sender (prints ts) sessionId) ts args
    (SignalMsg outEndian SocketDup m (prints ts) sender destination sessionId objPath iface signalName (Some args) (zlen args) flag timeToLive serial now).
Proof using fresh_bytes fresh_size out_endian.
  intros Hm Hts Hsl Hs Hd Hp Hi Hn Hfl Hb _ Hse Hser Httl Hnow. unfold SignalMsg. rewrite Hb, (proj2 Hp). cbn [negb].
  destruct (ClearHeader_empty m Hm) as [Hcf Hch]. rewrite (args_count args ts), Hcf by done.
  replace (if negb (timeToLive =? 0) then A_16 TY_UINT16 timeToLive else A_INVALID)
    with (if timeToLive =? 0 then A_INVALID else A_16 TY_UINT16 timeToLive) by (by destruct (timeToLive =? 0)).
  replace (if negb (timeToLive =? 0) then A_32 TY_UINT32 now else A_INVALID)
    with (if timeToLive =? 0 then A_INVALID else A_32 TY_UINT32 now) by (by destruct (timeToLive =? 0)).
  set (fs := set_field (set_field (set_field (set_field (set_field no_fields _ _) _ _) _ _) _ _) _ _).
  assert (fields_ok fs) as Hf.
  { unfold fs. set_fields; try (destruct (timeToLive =? 0); [by left|by right]); right; [by apply path_field_ok|by apply (typed_string TY_STRING)..]. }
  set (m1 := if negb (timeToLive =? 0) then _ else _). assert (handles (with_fields m1 fs) = []) as Hh by (unfold m1; by destruct (negb _)).
  apply outcome_arrives; [reflexivity|]. by apply (MarshalMessage_received (with_fields m1 fs)).
Qed.
End message.

(** * Runs *)

Definition dup (hs : list Z) (fd : Z) : res Z := Ok (fd + 1 + zlen hs).

Definition two_args : list MsgArg := [A_STRING TY_STRING 2 (Some [104; 105; 0]); A_32 TY_UINT32 7].
Definition two_types : list sigty := [SLeaf 115; SLeaf 117].

Lemma two_args_typed : Forall2 (typed false) two_args two_types.
Proof.
  repeat constructor; try done. exists [104; 105]. split; [repeat split; repeat constructor; done|]. split; [vm_compute; discriminate|done].
Qed.

Ltac name := split; [apply (bool_decide_unpack _); vm_compute; exact I|vm_compute; discriminate].

Definition the_call (outEndian : Z) (destination : list Z) (args : list MsgArg) (signature : string) : res (QStatus * Msg) :=
  CallMsg outEndian dup new_Msg (lit signature) (lit ":me.2") destination 9 (lit "/tv") (lit "org.tv") (lit "Channel") (Some args) (zlen args)
    ALLJOYN_FLAG_AUTO_START 5.


(** The call as its receiver keeps it: who answers gives two arguments. *)
Definition received_call : Msg :=
  {| msgHeader := {| endian := ALLJOYN_LITTLE_ENDIAN; msgType := MESSAGE_METHOD_CALL; flags := ALLJOYN_FLAG_AUTO_START;
                     majorVersion := 1; bodyLen := 0; serialNum := 5; headerLen := 0 |};
     endianSwap := false;
     hdrFields := set_field (set_field no_fields ALLJOYN_HDR_FIELD_SENDER (string_field TY_STRING (lit ":me.2")))
                    ALLJOYN_HDR_FIELD_SESSION_ID (A_32 TY_UINT32 9);
     msgBuf := None; bodyPtr := None; encrypt := false; handles := []; refMsgArgs := []; ttl := 0; timestamp := 0;
     replySignature := lit "su" |}.

Definition the_reply (outEndian : Z) : res (QStatus * Msg) :=
  ReplyMsg outEndian dup new_Msg received_call (lit ":you.3") (Some two_args) (zlen two_args) 6.

(** A reply in network order. *)
Lemma ReplyMsg_received_witness : exists m bytes, the_reply ALLJOYN_BIG_ENDIAN = Ok (ER_OK, m) /\ msgBuf m = Some bytes /\
  exists h, receives zeros bytes h
    (wire_fields A_INVALID A_INVALID A_INVALID A_INVALID (A_32 TY_UINT32 5) A_INVALID A_INVALID (lit ":me.2") (lit ":you.3") (lit "su") 9)
    (lit "su") two_args /\
    msgType h = MESSAGE_METHOD_RET /\ flags h = ALLJOYN_FLAG_AUTO_START /\ serialNum h = 6.
Proof.
  pose proof (ReplyMsg_received zeros dup ALLJOYN_BIG_ENDIAN zeros_bytes zeros_size (or_intror eq_refl) new_Msg received_call (lit ":me.2") (lit ":you.3")
    two_args two_types 6) as H.
  assert (exists m bytes, the_reply ALLJOYN_BIG_ENDIAN = Ok (ER_OK, m) /\ msgBuf m = Some bytes /\
    headerLen (msgHeader m) <= MAX_HEADER_LEN) as (m & bytes & Hc & Hb & Hl).
  { eexists _, _. split; [vm_compute; reflexivity|]. split; [reflexivity|vm_compute; discriminate]. }
  exists m, bytes. split; [exact Hc|]. split; [exact Hb|]. change (ReplyMsg _ _ _ _ _ _ _ _) with (the_reply ALLJOYN_BIG_ENDIAN) in H.
  rewrite Hc in H. destruct H as [(_ & bytes' & Hb' & Hr)|([H|H] & _)];
    [done|reflexivity|reflexivity|apply (bool_decide_unpack _); vm_compute; exact I|reflexivity|reflexivity
    |split; [vm_compute; discriminate|reflexivity]|split; [vm_compute; discriminate|reflexivity]|apply two_args_typed
    |vm_compute; discriminate|name|name|split; [vm_compute; discriminate|reflexivity]| |discriminate|discriminate].
  rewrite Hb in Hb'. injection Hb' as <-. rewrite (proj2 (Z.leb_le _ _) Hl) in Hr. exact Hr.
Defined.

(** The third byte of a written message: its flags. *)
Definition wire_flags (r : res (QStatus * Msg)) : option Z :=
  match r with Ok (_, m) => match msgBuf m with Some (_ :: _ :: f :: _) => Some f | _ => None end | _ => None end.

(** The bit ALLJOYN_FLAG_AUTO_START is inverted on the wire, except in a message that
    carries a handle: that one is marshaled a second time with the flags as they are. *)
Lemma handles_keep_auto_start :
  wire_flags (the_call myEndian (lit ":you.3") two_args "su") = Some 0 /\
  wire_flags (the_call myEndian (lit ":you.3") [A_HANDLE 40] "h") = Some ALLJOYN_FLAG_AUTO_START.
Proof. split; vm_compute; reflexivity. Qed.

(** A new sender without a destination makes the destination a string at NULL, which
    marshaling the header copies. *)
Lemma ReMarshal_sender_only :
  ReMarshal dup received_call (Some (lit ":me.2")) None = Undef /\
  (let! m := ReMarshal dup received_call (Some (lit ":me.2")) (Some (lit ":you.3")) in
   Ok (field (hdrFields m) ALLJOYN_HDR_FIELD_DESTINATION)) = Ok (name_field (lit ":you.3")).
Proof. split; vm_compute; reflexivity. Qed.

(** The session of the call is lost in an error that tells a status. *)
Lemma ErrorMsg_status_session :
  (let! (_, m) := ErrorMsg myEndian dup new_Msg received_call (lit ":you.3") (Some (lit "org.tv.Off")) [] 6 in Ok (GetSessionId m)) = Ok 9 /\
  (let! (_, m) := ErrorMsg_status myEndian dup (fun _ => lit "ER_FAIL") (fun _ => 1) new_Msg received_call (lit ":you.3") ER_FAIL 6 in Ok (GetSessionId m)) = Ok 0.
Proof. split; vm_compute; reflexivity. Qed.

(** A call without a destination is refused after its fields were set, while the message
    has no type; the next message that is composed in the object carries them. *)
Lemma CallMsg_stale_fields :
  (let! (s, m) := the_call myEndian [] two_args "su" in
   let! (s', m) := ReplyMsg myEndian dup m received_call (lit ":you.3") (Some two_args) (zlen two_args) 6 in
   Ok (s, s', field (hdrFields m) ALLJOYN_HDR_FIELD_MEMBER)) =
  Ok (ER_BUS_BAD_BUS_NAME, ER_OK, string_field TY_STRING (lit "Channel")).
Proof. vm_compute. reflexivity. Qed.

(** A message with a time to live below 2^32 milliseconds expires once that much time has
    passed, and not while the clock shows less than the time stamp; one without never does. *)
Lemma IsExpired_spec m now : u_ok 4 now -> u_ok 4 (timestamp m) -> u_ok 2 (ttl m) ->
  let life := if Z.land (flags (msgHeader m)) ALLJOYN_FLAG_SESSIONLESS =? 0 then ttl m else ttl m * 1000 in
  IsExpired m now = if ttl m =? 0 then (false, 2 ^ 32 - 1) else (life <=? now - timestamp m, Z.max 0 (life - Z.max 0 (now - timestamp m))).
Proof.
  intros Hn Ht Hl life. unfold u_ok in *. unfold IsExpired. destruct (ttl m =? 0) eqn:E; cbn [negb]; [reflexivity|].
  apply Z.eqb_neq in E.
  assert ((if negb (Z.land (flags (msgHeader m)) ALLJOYN_FLAG_SESSIONLESS =? 0) then u32 (ttl m * 1000) else ttl m) = life /\ 0 < life) as [-> Hlife].
  { subst life. destruct (Z.land _ _ =? 0); cbn [negb]; [lia|]. unfold u32. rewrite Z.mod_small; lia. }
  clearbody life. assert ((if now >? timestamp m then now - timestamp m else 0) = Z.max 0 (now - timestamp m)) as ->.
  { destruct (Z.gtb_spec now (timestamp m)); lia. }
  set (e := Z.max 0 (now - timestamp m)) in *.
  assert ((if life >? e then life - e else 0) = Z.max 0 (life - e)) as -> by (destruct (Z.gtb_spec life e); lia).
  f_equal. apply eq_true_iff_eq. rewrite Z.eqb_eq, Z.leb_le. unfold e. lia.
Qed.
