(* ===== verification/Mdns.v ===== *)
(** Model of the multicast DNS packets of router/ns/IpNsProtocol.cc (version two of the
    name service): domain names with compression, questions, resource records with
    their data, the header and _MDNSPacket, with what they offer to compose, search,
    write and read packets.

    [Serialize] gives the bytes it writes, and [Deserialize] reads [bufsize] bytes of a
    buffer from the offset [p]. The two maps of compressed names go through the calls:
    names to offsets on the way out, offsets to names on the way in. [Fail Refused] is
    the early [return 0]. [Fail Misuse] is the use of a library against its contract:
    String::assign with the length zero (an assertion; without assertions it copies up to
    the next NUL), and a std::map whose keys its comparison does not order. [Undef] is an
    access outside the buffer, a violated assert or std::out_of_range thrown by substr,
    which nothing catches.

    [version] and [uniquifier] of a text record are used but not declared in the header;
    the value of the second one in a new object is an argument. *)
From stdpp Require Import strings gmap.
From S2P Require Import Prelude Types BusUtil IPAddress StringUtil NameService.

Module Mdns.

Inductive stop := Refused | Misuse.
Definition mio (A : Type) : Type := result stop A.

(** A call that cannot fail, or whose status is ignored. *)
Definition plain {E A} (r : result E A) : mio A := match r with Ok a => Ok a | _ => Undef end.

(** * std::string *)

Definition lit (s : string) : list Z := map (fun c => Z.of_nat (Ascii.nat_of_ascii c)) (String.list_ascii_of_string s).

(** [s.substr(pos)] throws behind the end. *)
Definition substr_from (s : list Z) (pos : Z) : mio (list Z) :=
  if bool_decide (0 <= pos <= zlen s) then Ok (drop (Z.to_nat pos) s) else Undef.

Fixpoint find_last_of (c : Z) (s : list Z) : option nat :=
  match s with
  | [] => None
  | x :: s => match find_last_of c s with
              | Some i => Some (S i)
              | None => if x =? c then Some O else None
              end
  end.

(** [s.find(t) == 0] *)
Definition starts_with (t s : list Z) : bool := bool_decide (take (length t) s = t).

(** [s.find(t) != npos] *)
Fixpoint contains (t s : list Z) : bool :=
  starts_with t s || match s with [] => false | _ :: s => contains t s end.

(** [s.substr(0, s.find_last_of(c))] *)
Definition before_last (c : Z) (s : list Z) : list Z := match find_last_of c s with Some i => take i s | None => s end.

(** * Domain names *)

Abbreviation Offsets := (gmap (list Z) Z).
Abbreviation Compressed := (gmap Z (list Z)).

Definition dot : Z := 46.

Fixpoint name_size (fuel : nat) (name : list Z) (o : Offsets) : mio (Z * Offsets) :=
  match name with
  | [] => Ok (1, o)
  | _ =>
      match o !! name with
      | Some _ => Ok (2, o)
      | None =>
          match fuel, find_first_of dot name 0 with
          | S fuel, Some n =>
              let! (size, o) := name_size fuel (drop (S n) name) (<[name := 0]> o) in
              Ok (1 + Z.of_nat n + size, o)
          | _, _ => Undef
          end
      end
  end.

Definition DomainName_GetSerializedSize (name : list Z) (o : Offsets) : mio (Z * Offsets) := name_size (length name) name o.

(** [off] is the offset in the packet of the byte that is written next. *)
Fixpoint put_name (fuel : nat) (name : list Z) (off : Z) (o : Offsets) : mio (list Z * Offsets) :=
  match name with
  | [] => Ok ([0], o)
  | _ =>
      match o !! name with
      | Some at_ => Ok ([Z.lor 192 (Z.shiftr (Z.land at_ 65280) 8); Z.land at_ 255], o)
      | None =>
          match fuel, find_first_of dot name 0 with
          | S fuel, Some n =>
              let! (bs, o) := put_name fuel (drop (S n) name) (off + 1 + Z.of_nat n) (<[name := off]> o) in
              Ok (Z.of_nat n mod 256 :: take n name ++ bs, o)
          | _, _ => Undef
          end
      end
  end.

Definition DomainName_Serialize (name : list Z) (o : Offsets) (headerOffset : Z) : mio (list Z * Offsets) :=
  put_name (length name) name headerOffset o.

Definition dotted (name : list Z) : list Z := match name with [] => [] | _ => name ++ [dot] end.

(** The loop of Deserialize: the size, which is 0 where the code returns 0, the name
    and the offsets of its labels. *)
Fixpoint name_loop (fuel : nat) (buf : list Z) (p headerOffset : Z) (D : Compressed) (size left : Z) (name starts : list Z)
  : mio (Z * list Z * list Z) :=
  if left >? 0 then
    match fuel with
    | O => Undef
    | S fuel =>
        let! b := rd buf (p + size) 1 in
        if (Z.shiftr (Z.land (nth 0 b 0) 192) 6 =? 3) && (left >? 1) then
          let! b := rd buf (p + size) 2 in
          let pointer := Z.land (Z.lor (Z.shiftl (nth 0 b 0) 8) (nth 1 b 0)) 16383 in
          match D !! pointer with
          | Some n => Ok (size + 2, dotted name ++ n, starts)
          | None => Ok (0, name, starts)
          end
        else
          let temp_size := nth 0 b 0 in
          if left - 1 <? temp_size then Ok (0, name, starts)
          else if temp_size >? 0 then
            let! s := rd buf (p + size + 1) (Z.to_nat temp_size) in
            name_loop fuel buf p headerOffset D (size + 1 + temp_size) (left - 1 - temp_size)
              (dotted name ++ s) (starts ++ [headerOffset + size])
          else Ok (size + 1, dotted name, starts)
    end
  else Ok (size, name, starts).

(** [compressedOffsets[offsets[i]] = name.substr(offsets[i] - base)] *)
Fixpoint remember (starts : list Z) (base : Z) (name : list Z) (D : Compressed) : mio Compressed :=
  match starts with
  | [] => Ok D
  | o :: starts =>
      let! s := substr_from name (o - base) in
      remember starts base name (<[o := s]> D)
  end.

(** The size is 0 when the code returns 0; the name keeps what was read until then. *)
Definition DomainName_Deserialize (buf : list Z) (p bufsize : Z) (D : Compressed) (headerOffset : Z) : mio (Z * list Z * Compressed) :=
  if bufsize <? 1 then Ok (0, [], D)
  else
    let! (size, name, starts) := name_loop (Z.to_nat bufsize) buf p headerOffset D 0 bufsize [] [] in
    if size =? 0 then Ok (0, name, D)
    else let! D := remember starts headerOffset name D in Ok (size, name, D).

(** * Questions *)

Record MDNSQuestion := { m_qName : list Z; m_qType : Z; m_qClass : Z }.

Definition QU_BIT : Z := 32768.
Definition new_MDNSQuestion (qName : list Z) (qType qClass : Z) : MDNSQuestion :=
  {| m_qName := qName; m_qType := qType; m_qClass := Z.lor qClass QU_BIT |}.
Definition GetQClass (q : MDNSQuestion) : Z := Z.land (m_qClass q) (Z.lnot QU_BIT).

Definition Question_GetSerializedSize (q : MDNSQuestion) (o : Offsets) : mio (Z * Offsets) :=
  let! (size, o) := DomainName_GetSerializedSize (m_qName q) o in Ok (size + 4, o).

Definition Question_Serialize (q : MDNSQuestion) (o : Offsets) (headerOffset : Z) : mio (list Z * Offsets) :=
  let! (bs, o) := DomainName_Serialize (m_qName q) o headerOffset in
  Ok (bs ++ be16 (m_qType q) ++ be16 (m_qClass q), o).

Definition Question_Deserialize (buf : list Z) (p bufsize : Z) (D : Compressed) (headerOffset : Z) : mio (MDNSQuestion * Z * Compressed) :=
  let! (size, name, D) := DomainName_Deserialize buf p bufsize D headerOffset in
  if size >=? bufsize then Fail Refused
  else if (size =? 0) || (bufsize - size <? 4) then Fail Refused
  else
    let! b := rd buf (p + size) 4 in
    Ok ({| m_qName := name; m_qType := from_be16 b; m_qClass := from_be16 (drop 2 b) |}, size + 4, D).

(** * The fields of a text record *)

(** [Compare]: by the number behind the last underscore, or else by the text. *)
Definition Compare (s1 s2 : list Z) : bool :=
  match find_last_of 95 s1, find_last_of 95 s2 with
  | Some u1, Some u2 => StringToU32 (drop (S u1) s1) 0 0 <? StringToU32 (drop (S u2) s2) 0 0
  | _, _ => lex_lt s1 s2
  end.

(** The keys are ordered: [Compare] is transitive on them, and so is its being undecided. *)
Definition undecided (a b : list Z) : bool := negb (Compare a b) && negb (Compare b a).

Definition orderly (ks : list (list Z)) : bool :=
  forallb (fun a => forallb (fun b => forallb (fun c =>
    implb (Compare a b && Compare b c) (Compare a c) && implb (undecided a b && undecided b c) (undecided a c)) ks) ks) ks.

(** A std::map as the list of its entries in order. *)
Abbreviation Fields := (list (list Z * list Z)).

(** Each operation on a map compares the key with those in it. *)
Definition with_order {A} (m : Fields) (key : list Z) (r : mio A) : mio A :=
  if orderly (key :: map fst m) then r else Fail Misuse.

(** [m[key] = value]: a key that is undecided against the new one stays. *)
Fixpoint assign (m : Fields) (key value : list Z) : Fields :=
  match m with
  | [] => [(key, value)]
  | (k, v) :: m' =>
      if Compare k key then (k, v) :: assign m' key value
      else if Compare key k then (key, value) :: m
      else (k, value) :: m'
  end.
Definition map_set (m : Fields) (key value : list Z) : mio Fields := with_order m key (Ok (assign m key value)).

(** [m.find(key)]: how many entries are before it. *)
Fixpoint position (m : Fields) (key : list Z) : option nat :=
  match m with
  | [] => None
  | (k, _) :: m => if Compare k key then option_map S (position m key) else if Compare key k then None else Some O
  end.
Definition map_find (m : Fields) (key : list Z) : mio (option nat) := with_order m key (Ok (position m key)).

Definition map_value (m : Fields) (key : list Z) : mio (option (list Z)) :=
  let! i := map_find m key in
  Ok (match i with Some i => option_map snd (m !! i) | None => None end).

Definition map_erase (m : Fields) (key : list Z) : mio Fields :=
  let! i := map_find m key in
  Ok (match i with Some i => delete i m | None => m end).

(** * Text records *)

Record Text := { m_fields : Fields; version : Z; uniquifier : Z }.

Definition with_m_fields (t : Text) (m : Fields) : Text := {| m_fields := m; version := version t; uniquifier := uniquifier t |}.
Definition SetUniqueCount (t : Text) (count : Z) : Text := {| m_fields := m_fields t; version := version t; uniquifier := count |}.

Definition number (n base : Z) : mio (list Z) := plain (U32ToString n base 1 32).

Definition TXTVERS : Z := 0.

Definition new_Text (version uniquifier : Z) : mio Text :=
  let! v := number version 10 in
  let! m := map_set [] (lit "txtvers") v in
  Ok {| m_fields := m; version := version; uniquifier := uniquifier |}.

Definition Text_Reset (t : Text) : mio Text :=
  let! v := number (version t) 10 in
  let! m := map_set [] (lit "txtvers") v in
  Ok {| m_fields := m; version := version t; uniquifier := if uniquifier t =? 0 then 0 else 1 |}.

Definition RemoveEntry (t : Text) (key : list Z) : mio Text := let! m := map_erase (m_fields t) key in Ok (with_m_fields t m).

(** [SetValue(key, value, shared)]; without a value it is the empty text. *)
Definition Text_SetValue (t : Text) (key value : list Z) (shared : bool) : mio Text :=
  let! (key, t) :=
    if negb (uniquifier t =? 0) && negb shared then
      let! n := number (uniquifier t) 10 in
      Ok (key ++ lit "_" ++ n, SetUniqueCount t ((uniquifier t + 1) mod 65536))
    else Ok (key, t) in
  let! m := map_set (m_fields t) key value in
  Ok (with_m_fields t m).

Definition GetValue (t : Text) (key : list Z) : mio (list Z) :=
  let! v := map_value (m_fields t) key in Ok (default [] v).

Definition HasKey (t : Text) (key : list Z) : mio bool :=
  let! i := map_find (m_fields t) key in Ok (match i with Some _ => true | None => false end).

Definition GetU16Value (t : Text) (key : list Z) : mio Z :=
  let! v := map_value (m_fields t) key in
  Ok (match v with Some v => StringToU32 v 0 0 mod 65536 | None => 0 end).

(** The fields whose key starts with [key] and an underscore, in order. *)
Definition fields_of (t : Text) (key : list Z) : Fields :=
  filter (fun e => starts_with (key ++ lit "_") e.1 = true) (m_fields t).

Definition Text_GetNumFields (t : Text) (key : list Z) : Z := zlen (fields_of t key) mod 65536.

(** The element of a sequence that an [int] counts down to; a negative one passes the end. *)
Definition nth_at {A} (l : list A) (i : Z) : option A := if i <? 0 then None else l !! Z.to_nat i.

Definition Text_GetFieldAt (t : Text) (key : list Z) (i : Z) : list Z :=
  match nth_at (fields_of t key) i with Some e => e.2 | None => [] end.
Definition Text_RemoveFieldAt (t : Text) (key : list Z) (i : Z) : mio Text :=
  match nth_at (fields_of t key) i with Some e => RemoveEntry t e.1 | None => Ok t end.

Definition Text_GetSerializedSize (t : Text) : Z :=
  foldr (fun e rdlen => zlen (e.1 ++ match e.2 with [] => [] | v => lit "=" ++ v end) + 1 + rdlen) 0 (m_fields t) + 2.

Definition text_field (e : list Z * list Z) : list Z :=
  let str := e.1 ++ lit "=" ++ e.2 in zlen str mod 256 :: str.

(** From txtvers round to the field in front of it. *)
Definition Text_Serialize (t : Text) : mio (list Z) :=
  let! txtvers := map_find (m_fields t) (lit "txtvers") in
  match txtvers with
  | None => Undef
  | Some i =>
      let bs := concat (map text_field (drop i (m_fields t) ++ take i (m_fields t))) in
      Ok (be16 (zlen bs) ++ bs)
  end.

Fixpoint text_loop (fuel : nat) (buf : list Z) (p rdlen left : Z) (m : Fields) : mio (Z * Fields) :=
  if (rdlen >? 0) && (left >? 0) then
    match fuel with
    | O => Undef
    | S fuel =>
        let! b := rd buf p 1 in
        let sz := nth 0 b 0 in
        if left - 1 <? sz then Fail Refused
        else if sz =? 0 then Fail Misuse
        else
          let! str := rd buf (p + 1) (Z.to_nat sz) in
          let! m := match find_first_of 61 str 0 with
                    | Some eqPos => map_set m (take eqPos str) (drop (S eqPos) str)
                    | None => map_set m str []
                    end in
          text_loop fuel buf (p + 1 + sz) ((rdlen - (sz + 1)) mod 65536) (left - 1 - sz) m
    end
  else Ok (rdlen, m).

Definition Text_Deserialize (t : Text) (buf : list Z) (p bufsize : Z) : mio (Text * Z) :=
  if bufsize <? 2 then Fail Refused
  else
    let! b := rd buf p 2 in
    let rdlen := from_be16 b in
    if bufsize - 2 <? rdlen then Fail Refused
    else
      let! (rest, m) := text_loop (Z.to_nat bufsize) buf (p + 2) rdlen (bufsize - 2) (m_fields t) in
      if negb (rest =? 0) then Fail Refused else Ok (with_m_fields t m, 2 + rdlen).

(** * The data of a resource record *)

Inductive RData :=
| DefaultRData
| TextRData (t : Text)
| ARData (m_ipv4Addr : list Z)
| AAAARData (m_ipv6Addr : list Z)
| PtrRData (m_rdataStr : list Z)
| SrvRData (m_priority m_weight m_port : Z) (m_target : list Z).

Definition A : Z := 1.
Definition NS : Z := 2.
Definition MD : Z := 3.
Definition MF : Z := 4.
Definition CNAME : Z := 5.
Definition MB : Z := 7.
Definition MG : Z := 8.
Definition MR : Z := 9.
Definition RNULL : Z := 10.
Definition PTR : Z := 12.
Definition HINFO : Z := 13.
Definition TXT : Z := 16.
Definition AAAA : Z := 28.
Definition SRV : Z := 33.
Definition INTERNET : Z := 1.

Definition RData_GetSerializedSize (d : RData) (o : Offsets) : mio (Z * Offsets) :=
  match d with
  | DefaultRData => Ok (0, o)
  | TextRData t => Ok (Text_GetSerializedSize t, o)
  | ARData _ => Ok (4 + 2, o)
  | AAAARData _ => Ok (16 + 2, o)
  | PtrRData name => let! (size, o) := name_size (length name) name o in Ok (2 + size, o)
  | SrvRData _ _ _ target => let! (size, o) := DomainName_GetSerializedSize target o in Ok (2 + 6 + size, o)
  end.

(** What does not fit the size 0 that an address without meaning gives is overwritten. *)
Definition RData_Serialize (d : RData) (o : Offsets) (headerOffset : Z) : mio (list Z * Offsets) :=
  match d with
  | DefaultRData => Ok ([], o)
  | TextRData t => let! bs := Text_Serialize t in Ok (bs, o)
  | ARData addr => match StringToIPv4 addr false 4 with
                   | Ok a => Ok (be16 4 ++ a, o)
                   | Fail _ => Ok ([], o)
                   | Undef => Undef
                   end
  | AAAARData addr => let! a := plain (StringToIPv6 addr false 16) in Ok (be16 16 ++ a, o)
  | PtrRData name =>
      let! (bs, o) := put_name (length name) name (headerOffset + 2) o in
      Ok (be16 (zlen bs) ++ bs, o)
  | SrvRData priority weight port target =>
      let! (bs, o) := DomainName_Serialize target o (headerOffset + 8) in
      Ok (be16 (6 + zlen bs) ++ be16 priority ++ be16 weight ++ be16 port ++ bs, o)
  end.

Definition Default_Deserialize (buf : list Z) (p bufsize : Z) : mio (RData * Z) :=
  if bufsize <? 2 then Fail Refused
  else
    let! b := rd buf p 2 in
    if bufsize - 2 <? from_be16 b then Fail Refused else Ok (DefaultRData, from_be16 b + 2).

(** An address behind its length. *)
Definition Addr_Deserialize (print : option (list Z) -> res (list Z)) (size : nat) (buf : list Z) (p bufsize : Z) : mio (list Z) :=
  if bufsize <? Z.of_nat size + 2 then Fail Refused
  else
    let! b := rd buf p 2 in
    if negb (nth 0 b 0 =? 0) || negb (nth 1 b 0 =? Z.of_nat size) then Fail Refused
    else let! a := rd buf (p + 2) size in plain (print (Some a)).

(** The length is compared with the buffer, but the name may pass its end. *)
Definition Ptr_Deserialize (buf : list Z) (p bufsize : Z) (D : Compressed) (headerOffset : Z) : mio (RData * Z * Compressed) :=
  if bufsize <? 2 then Fail Refused
  else
    let! b := rd buf p 2 in
    if bufsize - 2 <? from_be16 b then Fail Refused
    else
      let! (size, name, starts) := name_loop (Z.to_nat bufsize) buf p headerOffset D 2 (bufsize - 2) [] [] in
      if size =? 0 then Fail Refused
      else let! D := remember starts (2 + headerOffset) name D in Ok (PtrRData name, size, D).

(** A target that is refused adds nothing to the size and keeps what was read of it. *)
Definition Srv_Deserialize (buf : list Z) (p bufsize : Z) (D : Compressed) (headerOffset : Z) : mio (RData * Z * Compressed) :=
  if bufsize <? 2 then Fail Refused
  else
    let! b := rd buf p 2 in
    let length := from_be16 b in
    if (bufsize - 2 <? length) || (length <? 6) then Fail Refused
    else
      let! b := rd buf (p + 2) 6 in
      let! (size, target, D) := DomainName_Deserialize buf (p + 8) (bufsize - 8) D (headerOffset + 8) in
      Ok (SrvRData (from_be16 b) (from_be16 (drop 2 b)) (from_be16 (drop 4 b)) target, 8 + size, D).

Section uniquifier.
(** The uniquifier of a new text record. *)
Context (uniq : Z).

(** The object that the switch over the type creates, and its Deserialize. *)
Definition RData_Deserialize (rrType : Z) (buf : list Z) (p bufsize : Z) (D : Compressed) (headerOffset : Z) : mio (RData * Z * Compressed) :=
  if rrType =? A then
    let! a := Addr_Deserialize IPv4ToString 4 buf p bufsize in Ok (ARData a, 6, D)
  else if (rrType =? NS) || (rrType =? MD) || (rrType =? MF) || (rrType =? CNAME) || (rrType =? MB) || (rrType =? MG)
       || (rrType =? MR) || (rrType =? PTR) then
    Ptr_Deserialize buf p bufsize D headerOffset
  else if (rrType =? HINFO) || (rrType =? TXT) then
    let! t := new_Text TXTVERS uniq in
    let! (t, size) := Text_Deserialize t buf p bufsize in Ok (TextRData t, size, D)
  else if rrType =? AAAA then
    let! a := Addr_Deserialize IPv6ToString 16 buf p bufsize in Ok (AAAARData a, 18, D)
  else if rrType =? SRV then
    Srv_Deserialize buf p bufsize D headerOffset
  else let! (d, size) := Default_Deserialize buf p bufsize in Ok (d, size, D).

(** * Resource records *)

Record MDNSResourceRecord := {
  m_rrDomainName : list Z; m_rrType : Z; m_rrClass : Z; m_rrTTL : Z; m_rdata : option RData
}.

Definition be32 (v : Z) : list Z := be16 (Z.shiftr v 16) ++ be16 v.
Definition from_be32 (b : list Z) : Z := Z.lor (Z.shiftl (from_be16 b) 16) (from_be16 (drop 2 b)).

(** The record keeps a copy of the data. *)
Definition new_MDNSResourceRecord (domainName : list Z) (rrType rrClass ttl : Z) (rdata : RData) : MDNSResourceRecord :=
  {| m_rrDomainName := domainName; m_rrType := rrType; m_rrClass := rrClass; m_rrTTL := ttl; m_rdata := Some rdata |}.

Definition GetRRttl (r : MDNSResourceRecord) : Z := m_rrTTL r mod 65536.

Definition Record_GetSerializedSize (r : MDNSResourceRecord) (o : Offsets) : mio (Z * Offsets) :=
  match m_rdata r with
  | None => Undef
  | Some d =>
      let! (size, o) := DomainName_GetSerializedSize (m_rrDomainName r) o in
      let! (n, o) := RData_GetSerializedSize d o in
      Ok (size + 8 + n, o)
  end.

Definition Record_Serialize (r : MDNSResourceRecord) (o : Offsets) (headerOffset : Z) : mio (list Z * Offsets) :=
  match m_rdata r with
  | None => Undef
  | Some d =>
      let! (name, o) := DomainName_Serialize (m_rrDomainName r) o headerOffset in
      let! (bs, o) := RData_Serialize d o (headerOffset + zlen name + 8) in
      Ok (name ++ be16 (m_rrType r) ++ be16 (m_rrClass r) ++ be32 (m_rrTTL r) ++ bs, o)
  end.

Definition Record_Deserialize (buf : list Z) (p bufsize : Z) (D : Compressed) (headerOffset : Z) : mio (MDNSResourceRecord * Z * Compressed) :=
  let! (size, name, D) := DomainName_Deserialize buf p bufsize D headerOffset in
  if (size =? 0) || (bufsize <? 8) then Fail Refused
  else if (size >? bufsize) || (size + 8 >? bufsize) then Fail Refused
  else
    let! b := rd buf (p + size) 8 in
    let rrType := from_be16 b in
    let! (d, processed, D) := RData_Deserialize rrType buf (p + size + 8) (bufsize - (size + 8)) D (headerOffset + (size + 8)) in
    if processed =? 0 then Fail Refused
    else Ok ({| m_rrDomainName := name; m_rrType := rrType; m_rrClass := from_be16 (drop 2 b); m_rrTTL := from_be32 (drop 4 b);
                m_rdata := Some d |}, size + 8 + processed, D).

(** * The header *)

Record MDNSHeader := {
  m_queryId : Z; m_qrType : bool; m_authAnswer : bool; m_rCode : Z; m_qdCount : Z; m_anCount : Z; m_nsCount : Z; m_arCount : Z
}.

Definition MDNS_QUERY : bool := false.
Definition MDNS_RESPONSE : bool := true.

Definition new_MDNSHeader (id : Z) (qrType : bool) (qdCount anCount nsCount arCount : Z) : MDNSHeader :=
  {| m_queryId := id; m_qrType := qrType; m_authAnswer := false; m_rCode := 0; m_qdCount := qdCount; m_anCount := anCount;
     m_nsCount := nsCount; m_arCount := arCount |}.

Definition SetQDCount (h : MDNSHeader) (n : Z) : MDNSHeader :=
  {| m_queryId := m_queryId h; m_qrType := m_qrType h; m_authAnswer := m_authAnswer h; m_rCode := m_rCode h;
     m_qdCount := n mod 65536; m_anCount := m_anCount h; m_nsCount := m_nsCount h; m_arCount := m_arCount h |}.
Definition SetANCount (h : MDNSHeader) (n : Z) : MDNSHeader :=
  {| m_queryId := m_queryId h; m_qrType := m_qrType h; m_authAnswer := m_authAnswer h; m_rCode := m_rCode h;
     m_qdCount := m_qdCount h; m_anCount := n mod 65536; m_nsCount := m_nsCount h; m_arCount := m_arCount h |}.
Definition SetARCount (h : MDNSHeader) (n : Z) : MDNSHeader :=
  {| m_queryId := m_queryId h; m_qrType := m_qrType h; m_authAnswer := m_authAnswer h; m_rCode := m_rCode h;
     m_qdCount := m_qdCount h; m_anCount := m_anCount h; m_nsCount := m_nsCount h; m_arCount := n mod 65536 |}.

(** The numbers of questions and answers are written in one byte each. *)
Definition Header_Serialize (h : MDNSHeader) : list Z :=
  be16 (m_queryId h) ++ [if m_qrType h then 128 else 0; m_rCode h; 0; m_qdCount h mod 256; 0; m_anCount h mod 256]
  ++ be16 (m_nsCount h) ++ be16 (m_arCount h).

Definition Header_Deserialize (h : MDNSHeader) (buf : list Z) (p bufsize : Z) : mio MDNSHeader :=
  if bufsize <? 12 then Fail Refused
  else
    let! b := rd buf p 12 in
    Ok {| m_queryId := from_be16 b; m_qrType := negb (Z.shiftr (nth 2 b 0) 7 =? 0); m_authAnswer := m_authAnswer h;
          m_rCode := Z.land (nth 3 b 0) 15; m_qdCount := nth 5 b 0; m_anCount := from_be16 (drop 6 b);
          m_nsCount := from_be16 (drop 8 b); m_arCount := from_be16 (drop 10 b) |}.

(** * Packets *)

Record MDNSPacket := {
  m_header : MDNSHeader;
  m_questions : list MDNSQuestion;
  m_answers : list MDNSResourceRecord;
  m_authority : list MDNSResourceRecord;
  m_additional : list MDNSResourceRecord
}.

(** The sizes of the parts one after the other. *)
Fixpoint sum_sizes {T} (size : T -> Offsets -> mio (Z * Offsets)) (l : list T) (o : Offsets) : mio (Z * Offsets) :=
  match l with
  | [] => Ok (0, o)
  | x :: l => let! (n, o) := size x o in let! (m, o) := sum_sizes size l o in Ok (n + m, o)
  end.

Definition Packet_GetSerializedSize (x : MDNSPacket) : mio Z :=
  let! (q, o) := sum_sizes Question_GetSerializedSize (m_questions x) ∅ in
  let! (a, o) := sum_sizes Record_GetSerializedSize (m_answers x) o in
  let! (n, o) := sum_sizes Record_GetSerializedSize (m_authority x) o in
  let! (r, _) := sum_sizes Record_GetSerializedSize (m_additional x) o in
  Ok (12 + q + a + n + r).

(** The parts one after the other, the next one behind the bytes of the last. *)
Fixpoint put_all {T} (put : T -> Offsets -> Z -> mio (list Z * Offsets)) (l : list T) (o : Offsets) (headerOffset : Z) : mio (list Z * Offsets) :=
  match l with
  | [] => Ok ([], o)
  | x :: l =>
      let! (b, o) := put x o headerOffset in
      let! (bs, o) := put_all put l o (headerOffset + zlen b) in
      Ok (b ++ bs, o)
  end.

Definition Packet_Serialize (x : MDNSPacket) : mio (list Z) :=
  let h := Header_Serialize (m_header x) in
  let! (q, o) := put_all Question_Serialize (m_questions x) ∅ (zlen h) in
  let! (a, o) := put_all Record_Serialize (m_answers x) o (zlen (h ++ q)) in
  let! (n, o) := put_all Record_Serialize (m_authority x) o (zlen (h ++ q ++ a)) in
  let! (r, _) := put_all Record_Serialize (m_additional x) o (zlen (h ++ q ++ a ++ n)) in
  Ok (h ++ q ++ a ++ n ++ r).

(** [count] parts, with the size they take. *)
Fixpoint get_all {T} (get : list Z -> Z -> Z -> Compressed -> Z -> mio (T * Z * Compressed)) (count : nat) (buf : list Z)
  (p bufsize : Z) (D : Compressed) (headerOffset : Z) : mio (list T * Z * Compressed) :=
  match count with
  | O => Ok ([], 0, D)
  | S count =>
      let! (x, ret, D) := get buf p bufsize D headerOffset in
      if (ret =? 0) || (ret >? bufsize) then Fail Refused
      else
        let! (l, size, D) := get_all get count buf (p + ret) (bufsize - ret) D (headerOffset + ret) in
        Ok (x :: l, ret + size, D)
  end.

(** The packet and the size that is returned. *)
Definition Packet_Deserialize (x : MDNSPacket) (buf : list Z) (bufsize : Z) : mio (MDNSPacket * Z) :=
  let! h := Header_Deserialize (m_header x) buf 0 bufsize in
  if bool_decide (m_qrType h = MDNS_QUERY) && (m_qdCount h =? 0) then Fail Refused
  else if 12 >=? bufsize then Fail Refused
  else
    let! (qs, q, D) := get_all Question_Deserialize (Z.to_nat (m_qdCount h)) buf 12 (bufsize - 12) ∅ 12 in
    let! (ans, a, D) := get_all Record_Deserialize (Z.to_nat (m_anCount h)) buf (12 + q) (bufsize - 12 - q) D (12 + q) in
    let! (auth, n, D) := get_all Record_Deserialize (Z.to_nat (m_nsCount h)) buf (12 + q + a) (bufsize - 12 - q - a) D (12 + q + a) in
    let! (add, r, _) := get_all Record_Deserialize (Z.to_nat (m_arCount h)) buf (12 + q + a + n) (bufsize - 12 - q - a - n) D (12 + q + a + n) in
    Ok ({| m_header := h; m_questions := qs; m_answers := ans; m_authority := auth; m_additional := add |}, 12 + q + a + n + r).
End uniquifier.

(** * Composing and searching packets *)

Definition with_header (x : MDNSPacket) (h : MDNSHeader) : MDNSPacket :=
  {| m_header := h; m_questions := m_questions x; m_answers := m_answers x; m_authority := m_authority x; m_additional := m_additional x |}.

Definition Clear (x : MDNSPacket) : MDNSPacket :=
  {| m_header := m_header x; m_questions := []; m_answers := []; m_authority := []; m_additional := [] |}.

Definition set_questions (x : MDNSPacket) (l : list MDNSQuestion) : MDNSPacket :=
  {| m_header := SetQDCount (m_header x) (zlen l); m_questions := l; m_answers := m_answers x; m_authority := m_authority x; m_additional := m_additional x |}.
Definition set_answers (x : MDNSPacket) (l : list MDNSResourceRecord) : MDNSPacket :=
  {| m_header := SetANCount (m_header x) (zlen l); m_questions := m_questions x; m_answers := l; m_authority := m_authority x; m_additional := m_additional x |}.
Definition set_additional (x : MDNSPacket) (l : list MDNSResourceRecord) : MDNSPacket :=
  {| m_header := SetARCount (m_header x) (zlen l); m_questions := m_questions x; m_answers := m_answers x; m_authority := m_authority x; m_additional := l |}.

Definition MIN_RESERVE : Z := 8.

(** [push_back], and the assertion that the reserved space was enough. *)
Definition push_back {T} (l : list T) (a : T) : mio (list T) :=
  if zlen (l ++ [a]) <=? MIN_RESERVE then Ok (l ++ [a]) else Undef.

Definition AddQuestion (x : MDNSPacket) (q : MDNSQuestion) : mio MDNSPacket := let! l := push_back (m_questions x) q in Ok (set_questions x l).
Definition AddAnswer (x : MDNSPacket) (r : MDNSResourceRecord) : mio MDNSPacket := let! l := push_back (m_answers x) r in Ok (set_answers x l).
Definition AddAdditionalRecord (x : MDNSPacket) (r : MDNSResourceRecord) : mio MDNSPacket :=
  let! l := push_back (m_additional x) r in Ok (set_additional x l).

(** Without the first element for which [p] holds. *)
Fixpoint remove_first {T} (p : T -> bool) (l : list T) : option (list T) :=
  match l with
  | [] => None
  | a :: l => if p a then Some l else option_map (cons a) (remove_first p l)
  end.

Definition is_question (str : list Z) (q : MDNSQuestion) : bool := bool_decide (m_qName q = str).
Definition is_record (str : list Z) (type : Z) (r : MDNSResourceRecord) : bool := bool_decide (m_rrDomainName r = str) && (m_rrType r =? type).

Definition RemoveQuestion (x : MDNSPacket) (str : list Z) : MDNSPacket :=
  match remove_first (is_question str) (m_questions x) with Some l => set_questions x l | None => x end.
Definition RemoveAnswer (x : MDNSPacket) (str : list Z) (type : Z) : MDNSPacket :=
  match remove_first (is_record str type) (m_answers x) with Some l => set_answers x l | None => x end.
Definition RemoveAdditionalRecord (x : MDNSPacket) (str : list Z) (type : Z) : MDNSPacket :=
  match remove_first (is_record str type) (m_additional x) with Some l => set_additional x l | None => x end.

Definition GetQuestion (x : MDNSPacket) (str : list Z) : option MDNSQuestion := List.find (is_question str) (m_questions x).
Definition GetAnswer (x : MDNSPacket) (str : list Z) (type : Z) : option MDNSResourceRecord := List.find (is_record str type) (m_answers x).

(** A star stands for any end of the name. *)
Definition name_matches (str dname : list Z) : bool :=
  match find_last_of 42 str with
  | Some starPos => starts_with (take starPos str) dname
  | None => bool_decide (dname = str)
  end.
Definition matches (str : list Z) (type : Z) (r : MDNSResourceRecord) : bool := name_matches str (m_rrDomainName r) && (m_rrType r =? type).

Definition GetAdditionalRecord (x : MDNSPacket) (str : list Z) (type : Z) : option MDNSResourceRecord := List.find (matches str type) (m_additional x).

(** [static_cast<MDNSTextRData*>(r.GetRData())->GetU16Value("txtvers") == version] *)
Definition has_version (version : Z) (r : MDNSResourceRecord) : mio bool :=
  match m_rdata r with
  | Some (TextRData t) => let! v := GetU16Value t (lit "txtvers") in Ok (v =? version)
  | _ => Undef
  end.

(** The record that matches and has [index] others before it. *)
Fixpoint versioned_at (p : MDNSResourceRecord -> bool) (version : Z) (l : list MDNSResourceRecord) (index : nat) : mio (option MDNSResourceRecord) :=
  match l with
  | [] => Ok None
  | r :: l =>
      if p r then
        let! b := has_version version r in
        if b : bool then match index with O => Ok (Some r) | S index => versioned_at p version l index end
        else versioned_at p version l index
      else versioned_at p version l index
  end.

Fixpoint count_versioned (p : MDNSResourceRecord -> bool) (version : Z) (l : list MDNSResourceRecord) : mio Z :=
  match l with
  | [] => Ok 0
  | r :: l =>
      let! b := if p r then has_version version r else Ok false in
      let! n := count_versioned p version l in
      Ok ((if b : bool then 1 else 0) + n)
  end.

Definition GetAnswer_version (x : MDNSPacket) (str : list Z) (type version : Z) : mio (option MDNSResourceRecord) :=
  if negb (type =? TXT) then Ok None else versioned_at (is_record str type) version (m_answers x) 0.
Definition GetAdditionalRecord_version (x : MDNSPacket) (str : list Z) (type version : Z) : mio (option MDNSResourceRecord) :=
  if negb (type =? TXT) then Ok None else versioned_at (matches str type) version (m_additional x) 0.
Definition GetAdditionalRecordAt (x : MDNSPacket) (str : list Z) (type version : Z) (index : nat) : mio (option MDNSResourceRecord) :=
  if negb (type =? TXT) then Ok None else versioned_at (matches str type) version (m_additional x) index.
Definition GetNumMatches (x : MDNSPacket) (str : list Z) (type version : Z) : mio Z :=
  if negb (type =? TXT) then Ok 0 else count_versioned (matches str type) version (m_additional x).

Definition TRANSPORT_TCP : Z := 4.
Definition TRANSPORT_UDP : Z := 256.

Definition GetTransportMask (x : MDNSPacket) : Z :=
  let found (str : list Z) : bool :=
    if bool_decide (m_qrType (m_header x) = MDNS_QUERY) then match GetQuestion x str with Some _ => true | None => false end
    else match GetAnswer x str PTR with Some _ => true | None => false end in
  let transportMask := if found (lit "_alljoyn._tcp.local.") then Z.lor TRANSPORT_NONE TRANSPORT_TCP else TRANSPORT_NONE in
  if found (lit "_alljoyn._udp.local.") then Z.lor transportMask TRANSPORT_UDP else transportMask.

(** * The kinds of text records *)

(** ** Advertisements: names behind the transport they are reached by *)

Definition SetTransport (t : Text) (tm : Z) : mio Text := let! v := number tm 16 in Text_SetValue t (lit "t") v false.
Definition AddName (t : Text) (name : list Z) : mio Text := Text_SetValue t (lit "n") name false.

Definition Advertise_SetValue (t : Text) (key value : list Z) : mio Text :=
  let key := if bool_decide (key = lit "name") then lit "n"
             else if bool_decide (key = lit "transport") then lit "t"
             else if bool_decide (key = lit "implements") then lit "i" else key in
  Text_SetValue t key value false.

Definition GetNumFields (t : Text) : Z := zlen (m_fields t) mod 65536.

Definition is_transport (e : list Z * list Z) : bool := contains (lit "t_") e.1.
Definition is_name (e : list Z * list Z) : bool := contains (lit "n_") e.1.

(** The fields up to the next transport. *)
Fixpoint until_transport (m : Fields) : Fields :=
  match m with
  | [] => []
  | e :: m => if is_transport e then [] else e :: until_transport m
  end.

(** The key of the transport with this mask, and the fields behind it. *)
Fixpoint transport_section (m : Fields) (transportMask : Z) : option (list Z * Fields) :=
  match m with
  | [] => None
  | e :: m => if is_transport e && (StringToU32 e.2 16 0 =? transportMask) then Some (e.1, until_transport m) else transport_section m transportMask
  end.

Definition names_in (m : Fields) (transportMask : Z) : Fields :=
  match transport_section m transportMask with Some (_, l) => List.filter is_name l | None => [] end.

Definition GetNumNames (t : Text) (transportMask : Z) : Z := zlen (names_in (m_fields t) transportMask) mod 65536.
Definition GetNameAt (t : Text) (transportMask index : Z) : list Z :=
  match nth_at (names_in (m_fields t) transportMask) index with Some e => e.2 | None => [] end.

(** The transport goes with its last name. *)
Fixpoint remove_names (t : Text) (l : Fields) (index numNames : Z) : mio (Text * Z) :=
  match l with
  | [] => Ok (t, numNames)
  | e :: l =>
      if is_name e then
        if index =? 0 then let! t := RemoveEntry t e.1 in remove_names t l (index - 1) numNames
        else remove_names t l (index - 1) (numNames + 1)
      else remove_names t l index numNames
  end.

Definition RemoveNameAt (t : Text) (transportMask index : Z) : mio Text :=
  match transport_section (m_fields t) transportMask with
  | None => Ok t
  | Some (trans, l) =>
      let! (t, numNames) := remove_names t l index 0 in
      if numNames =? 0 then RemoveEntry t trans else Ok t
  end.

(** The full key of an abbreviated one. *)
Definition full_key (key : list Z) : list Z :=
  let key := before_last 95 key in
  if bool_decide (key = lit "n") then lit "name" else if bool_decide (key = lit "i") then lit "implements" else key.

Definition Advertise_GetFieldAt (t : Text) (i : Z) : list Z * list Z :=
  match nth_at (m_fields t) i with
  | Some e => (if bool_decide (before_last 95 e.1 = lit "t") then lit "transport" else full_key e.1, e.2)
  | None => ([], [])
  end.

(** ** Searches: criteria between semicolons *)

Definition Search_SetValue (t : Text) (key value : list Z) : mio Text :=
  if bool_decide (key = lit "name") then Text_SetValue t (lit "n") value false
  else if bool_decide (key = lit "implements") then Text_SetValue t (lit "i") value false
  else if bool_decide (key = lit "send_match_only") || bool_decide (key = lit "m") then Text_SetValue t (lit "m") value true
  else Text_SetValue t key value false.

Definition SendMatchOnly (t : Text) : mio bool := HasKey t (lit "m").

Definition GetNumSearchCriteria (t : Text) : Z :=
  if 0 <? GetNumFields t - 1 then (Text_GetNumFields t (lit ";") + 1) mod 65536 else 0.

Definition is_end (e : list Z * list Z) : bool := bool_decide (before_last 95 e.1 = lit ";").
Definition is_txtvers (e : list Z * list Z) : bool := bool_decide (before_last 95 e.1 = lit "txtvers").

Fixpoint criterion_loop (m : Fields) (index : Z) (ret : list Z) : list Z :=
  match m with
  | [] => ret
  | e :: m =>
      if is_end e then if index =? 0 then ret else criterion_loop m (index - 1) []
      else if is_txtvers e then criterion_loop m index ret
      else criterion_loop m index ((match ret with [] => [] | _ => ret ++ lit "," end) ++ full_key e.1 ++ lit "='" ++ e.2 ++ lit "'")
  end.
Definition GetSearchCriterion (t : Text) (index : Z) : list Z := criterion_loop (m_fields t) index [].

(** The first loop of RemoveSearchCriterion: what is passed and what is left. *)
Fixpoint skip_criteria (m : Fields) (index : Z) : Fields * Fields :=
  match m with
  | [] => ([], [])
  | e :: m' =>
      if index >? 0 then
        if is_end e && (index - 1 =? 0) then ([e], m')
        else let '(passed, rest) := skip_criteria m' (if is_end e then index - 1 else index) in (e :: passed, rest)
      else ([], m)
  end.

(** The second one: up to the semicolon and with it, but not txtvers. *)
Fixpoint erase_criterion (m : Fields) : Fields :=
  match m with
  | [] => []
  | e :: m => if is_end e then m else if is_txtvers e then e :: erase_criterion m else erase_criterion m
  end.

Definition RemoveSearchCriterion (t : Text) (index : Z) : Text :=
  let '(passed, rest) := skip_criteria (m_fields t) index in with_m_fields t (passed ++ erase_criterion rest).

Definition Search_GetFieldAt (t : Text) (i : Z) : list Z * list Z :=
  match nth_at (m_fields t) i with Some e => (full_key e.1, e.2) | None => ([], []) end.

(** ** Pings and the sender of a packet *)

Definition new_Ping (name : list Z) (version uniq : Z) : mio Text := let! t := new_Text version uniq in Text_SetValue t (lit "n") name false.
Definition GetWellKnownName (t : Text) : mio (list Z) := GetValue t (lit "n").
Definition SetWellKnownName (t : Text) (name : list Z) : mio Text := Text_SetValue t (lit "n") name false.
Definition GetReplyCode (t : Text) : mio (list Z) := GetValue t (lit "replycode").
Definition SetReplyCode (t : Text) (replyCode : list Z) : mio Text := Text_SetValue t (lit "replycode") replyCode false.

Definition NS_VERSION : Z := 2.
Definition ALLJOYN_PROTOCOL_VERSION : Z := 12.

Definition set_number (t : Text) (key : string) (n : Z) : mio Text := let! v := number n 10 in Text_SetValue t (lit key) v false.

Definition new_Sender (version uniq : Z) : mio Text :=
  let! t := new_Text version uniq in
  let! t := set_number t "pv" NS_VERSION in
  set_number t "ajpv" ALLJOYN_PROTOCOL_VERSION.
Definition GetSearchID (t : Text) : mio Z := GetU16Value t (lit "sid").
Definition SetSearchID (t : Text) (searchId : Z) : mio Text := set_number t "sid" searchId.
Definition GetIPV4ResponsePort (t : Text) : mio Z := GetU16Value t (lit "upcv4").
Definition SetIPV4ResponsePort (t : Text) (ipv4Port : Z) : mio Text := set_number t "upcv4" ipv4Port.
Definition GetIPV4ResponseAddr (t : Text) : mio (list Z) := GetValue t (lit "ipv4").
Definition SetIPV4ResponseAddr (t : Text) (ipv4Addr : list Z) : mio Text := Text_SetValue t (lit "ipv4") ipv4Addr false.

End Mdns.
