(* ===== verification/MdnsProofs.v ===== *)
(** Reading a multicast DNS packet never leaves the buffer and ends, whatever bytes
    arrive; and how many bytes writing one takes, compared with GetSerializedSize. *)
From stdpp Require Import strings gmap.
From S2P Require Import Prelude Types BusUtil BusUtilProofs IPAddress IPAddressProofs IPv6Proofs StringUtil NameService NameServiceProofs Mdns.
Import Mdns.

(** * Reading *)

(** The bytes from [p] on are there. *)
Definition inside (buf : list Z) (p bufsize : Z) : Prop := 0 <= p /\ 0 <= bufsize /\ p + bufsize <= zlen buf.

Lemma inside_rd buf p bufsize n : inside buf p bufsize -> Forall is_byte buf -> Z.of_nat n <= bufsize ->
  exists b, rd (E:=stop) buf p n = Ok b /\ length b = n /\ Forall is_byte b.
Proof.
  intros (H1 & H2 & H3) Hb Hn. destruct (rd_defined (E:=stop) buf p n) as (b & Hr & Hl); [lia..|].
  exists b. split_and!; [done|done|]. by eapply rd_bytes.
Qed.

Lemma inside_skip buf p bufsize n : inside buf p bufsize -> 0 <= n <= bufsize -> inside buf (p + n) (bufsize - n).
Proof. unfold inside. lia. Qed.

(** A reader that was given [bufsize] bytes stays in the buffer and takes no more. *)
Definition takes {T} (bufsize : Z) (r : mio (T * Z * Compressed)) : Prop :=
  defined r /\ forall x n D, r = Ok (x, n, D) -> 0 <= n <= bufsize.

Lemma takes_Fail {T} bufsize e : takes (T:=T) bufsize (Fail e).
Proof. by split. Qed.

Lemma takes_Ok {T} bufsize (x : T) n D : 0 <= n <= bufsize -> takes bufsize (Ok (x, n, D)).
Proof. split; [done|]. by intros ? ? ? [= <- <- <-]. Qed.

#[local] Hint Resolve takes_Fail : core.

(** The position in the name that belongs to the next byte. *)
Lemma zlen_dotted name : zlen (dotted name) = match name with [] => 0 | _ => zlen name + 1 end.
Proof. destruct name; [done|]. cbn [dotted]. rewrite length_app. cbn [length]. lia. Qed.

Lemma dotted_longer name : zlen name <= zlen (dotted name).
Proof. rewrite zlen_dotted. destruct name; cbn [length]; lia. Qed.

Lemma name_loop_takes buf headerOffset D s0 p fuel : Forall is_byte buf -> forall size left name starts,
  left <= Z.of_nat fuel -> 0 <= s0 <= size -> inside buf (p + size) left -> zlen (dotted name) = size - s0 -> (0 < s0 \/ 0 < size + left) ->
  Forall (fun o => 0 <= o - (headerOffset + s0) <= zlen name) starts ->
  exists n name' starts', name_loop fuel buf p headerOffset D size left name starts = Ok (n, name', starts') /\
    0 <= n <= size + left /\ Forall (fun o => 0 <= o - (headerOffset + s0) <= zlen name') starts'.
Proof.
  intros Hb. induction fuel as [|fuel IH]; intros size left name starts Hf Hs Hin Hn Hpos Hst; cbn [name_loop].
  - destruct (Z.gtb_spec left 0); [lia|]. destruct Hin as (? & ? & ?). eexists _, _, _. split; [done|]. split; [lia|done].
  - destruct (Z.gtb_spec left 0) as [Hl|Hl]; [|destruct Hin as (? & ? & ?); eexists _, _, _; split; [done|]; split; [lia|done]].
    destruct (inside_rd _ _ _ 1 Hin Hb) as (b & -> & Hbl & Hbb); [lia|]. cbn [rbind]. destruct b as [|b0 [|]]; try done.
    rewrite Forall_singleton in Hbb. unfold is_byte in Hbb. cbn [nth].
    pose proof (dotted_longer name) as Hz.
    destruct (_ && _) eqn:E.
    + apply andb_true_iff in E as [_ E]. apply Z.gtb_lt in E.
      destruct (inside_rd _ _ _ 2 Hin Hb) as (b2 & -> & _ & _); [lia|]. cbn [rbind].
      destruct (D !! _) as [n|].
      * eexists _, _, _. split; [done|]. split; [lia|]. eapply Forall_impl; [exact Hst|].
        intros o Ho. cbn beta in *. rewrite length_app. lia.
      * eexists _, _, _. split; [done|]. split; [lia|done].
    + destruct (Z.ltb_spec (left - 1) b0); [eexists _, _, _; split; [done|]; split; [lia|done]|].
      destruct (Z.gtb_spec b0 0).
      * pose proof (inside_skip _ _ _ 1 Hin ltac:(lia)) as Hin1. rewrite <- Z.add_assoc in Hin1.
        destruct (inside_rd _ _ _ (Z.to_nat b0) Hin1 Hb) as (s & Hr & Hsl & _); [lia|].
        rewrite <- Z.add_assoc, Hr. cbn [rbind].
        pose proof (inside_skip _ _ _ b0 Hin1 ltac:(lia)) as Hin2.
        destruct (IH (size + 1 + b0) (left - 1 - b0) (dotted name ++ s) (starts ++ [headerOffset + size])) as (n & nm & st & Hr' & Hn' & Hst').
        -- lia.
        -- lia.
        -- replace (p + (size + 1 + b0)) with (p + (size + 1) + b0) by lia. done.
        -- rewrite zlen_dotted, length_app. destruct (dotted name ++ s) eqn:E'; [|lia].
           apply app_eq_nil in E' as [_ ->]. cbn [length] in Hsl. lia.
        -- lia.
        -- apply Forall_app. rewrite length_app. split; [eapply Forall_impl; [exact Hst|]; intros o Ho; cbn beta in *; lia|].
           apply Forall_singleton. lia.
        -- exists n, nm, st. split; [exact Hr'|]. split; [lia|done].
      * eexists _, _, _. split; [done|]. split; [lia|]. eapply Forall_impl; [exact Hst|]. intros o Ho. cbn beta in *. lia.
Qed.

Lemma remember_defined starts base name : Forall (fun o => 0 <= o - base <= zlen name) starts ->
  forall D, exists D', remember starts base name D = Ok D'.
Proof.
  induction 1 as [|o starts Ho _ IH]; intros D; cbn [remember]; [by eexists|].
  unfold substr_from. rewrite bool_decide_true by lia. cbn [rbind]. apply IH.
Qed.

(** A domain name: a size, 0 when it was refused. *)
Lemma DomainName_takes buf p bufsize D headerOffset : Forall is_byte buf -> inside buf p bufsize ->
  exists n name D', DomainName_Deserialize buf p bufsize D headerOffset = Ok (n, name, D') /\ 0 <= n <= bufsize.
Proof.
  intros Hb Hin. unfold DomainName_Deserialize. destruct (Z.ltb_spec bufsize 1).
  { destruct Hin as (_ & ? & _). by eexists _, _, _. }
  destruct (name_loop_takes buf headerOffset D 0 p (Z.to_nat bufsize) Hb 0 bufsize [] []) as (n & name & starts & -> & Hn & Hst);
    [lia|lia|by rewrite Z.add_0_r|done|lia|apply Forall_nil_2|]. cbn [rbind].
  destruct (Z.eqb_spec n 0); [eexists _, _, _; split; [reflexivity|lia]|].
  edestruct (remember_defined starts headerOffset name) as (D' & ->); [|eexists _, _, _; split; [reflexivity|lia]].
  eapply Forall_impl; [exact Hst|]. intros o Ho. cbn beta in *. lia.
Qed.

Lemma Question_takes buf p bufsize D headerOffset : Forall is_byte buf -> inside buf p bufsize ->
  takes bufsize (Question_Deserialize buf p bufsize D headerOffset).
Proof.
  intros Hb Hin. unfold Question_Deserialize. destruct (DomainName_takes _ _ _ D headerOffset Hb Hin) as (n & name & D' & -> & Hn). cbn [rbind].
  destruct (Z.geb_spec n bufsize); [auto|]. destruct (_ || _) eqn:E; [auto|]. apply orb_false_iff in E as [_ E]. apply Z.ltb_ge in E.
  destruct (inside_rd buf (p + n) (bufsize - n) 4 (inside_skip _ _ _ n Hin ltac:(lia)) Hb) as (b & -> & _ & _); [lia|]. cbn [rbind].
  apply takes_Ok. lia.
Qed.

(** ** Text records *)

Definition no_text (uniq : Z) : Text := {| m_fields := [(lit "txtvers", [48])]; version := TXTVERS; uniquifier := uniq |}.

Lemma new_Text_eq uniq : new_Text TXTVERS uniq = Ok (no_text uniq).
Proof. reflexivity. Qed.

Lemma map_set_defined m key value : defined (map_set m key value).
Proof. unfold map_set, with_order. by destruct (orderly _). Qed.

Lemma text_loop_defined buf fuel : Forall is_byte buf -> forall p rdlen left m, left <= Z.of_nat fuel -> inside buf p left ->
  defined (text_loop fuel buf p rdlen left m).
Proof.
  intros Hb. induction fuel as [|fuel IH]; intros p rdlen left m Hf Hin; cbn [text_loop].
  - destruct (Z.gtb_spec left 0); [lia|]. by rewrite andb_false_r.
  - destruct (Z.gtb_spec left 0); [|by rewrite andb_false_r]. rewrite andb_true_r. destruct (rdlen >? 0); [|done].
    destruct (inside_rd _ _ _ 1 Hin Hb) as (b & -> & Hbl & Hbb); [lia|]. cbn [rbind]. destruct b as [|sz [|]]; try done.
    rewrite Forall_singleton in Hbb. unfold is_byte in Hbb. cbn [nth].
    destruct (Z.ltb_spec (left - 1) sz); [done|]. destruct (Z.eqb_spec sz 0); [done|].
    pose proof (inside_skip _ _ _ 1 Hin ltac:(lia)) as Hin1.
    destruct (inside_rd _ _ _ (Z.to_nat sz) Hin1 Hb) as (str & -> & _ & _); [lia|]. cbn [rbind].
    apply rbind_defined; [destruct (find_first_of 61 str 0); apply map_set_defined|]. intros m' _.
    apply IH; [lia|]. by apply inside_skip; [|lia].
Qed.

Lemma from_be16_takes b : length b = 2%nat -> Forall is_byte b -> 0 <= from_be16 b < 65536.
Proof. intros Hl Hb. by apply from_be16_bound. Qed.

Lemma Text_takes t buf p bufsize : Forall is_byte buf -> inside buf p bufsize ->
  defined (Text_Deserialize t buf p bufsize) /\ forall t' n, Text_Deserialize t buf p bufsize = Ok (t', n) -> 0 <= n <= bufsize.
Proof.
  intros Hb Hin. unfold Text_Deserialize. destruct (Z.ltb_spec bufsize 2); [done|].
  destruct (inside_rd _ _ _ 2 Hin Hb) as (b & -> & Hbl & Hbb); [lia|]. cbn [rbind].
  pose proof (from_be16_takes b Hbl Hbb). destruct (Z.ltb_spec (bufsize - 2) (from_be16 b)); [done|].
  pose proof (text_loop_defined buf (Z.to_nat bufsize) Hb (p + 2) (from_be16 b) (bufsize - 2) (m_fields t) ltac:(lia)
    (inside_skip _ _ _ 2 Hin ltac:(lia))) as Hd.
  destruct (text_loop _ _ _ _ _ _) as [[rest m]| |]; [|done|done]. cbn [rbind].
  destruct (negb (rest =? 0)); [done|]. split; [done|]. intros t' n [= <- <-]. lia.
Qed.

(** ** The other data *)

Lemma Addr_defined print parse size `{!AddrCodec print parse size} buf p bufsize : Forall is_byte buf -> inside buf p bufsize ->
  defined (Addr_Deserialize print size buf p bufsize) /\
  forall a, Addr_Deserialize print size buf p bufsize = Ok a -> Z.of_nat size + 2 <= bufsize.
Proof.
  intros Hb Hin. unfold Addr_Deserialize. destruct (Z.ltb_spec bufsize (Z.of_nat size + 2)); [done|].
  destruct (inside_rd _ _ _ 2 Hin Hb) as (b & -> & _ & _); [lia|]. cbn [rbind]. destruct (_ || _); [done|].
  destruct (inside_rd buf (p + 2) (bufsize - 2) size (inside_skip _ _ _ 2 Hin ltac:(lia)) Hb) as (a & -> & Hal & Hab); [lia|].
  cbn [rbind]. destruct (codec_roundtrip (print := print) a Hal Hab) as (s & -> & _). cbn [plain]. split; [done|]. intros _ _. lia.
Qed.

Lemma Ptr_takes buf p bufsize D headerOffset : Forall is_byte buf -> inside buf p bufsize ->
  takes bufsize (Ptr_Deserialize buf p bufsize D headerOffset).
Proof.
  intros Hb Hin. unfold Ptr_Deserialize. destruct (Z.ltb_spec bufsize 2); [auto|].
  destruct (inside_rd _ _ _ 2 Hin Hb) as (b & -> & Hbl & Hbb); [lia|]. cbn [rbind]. destruct (_ <? _); [auto|].
  destruct (name_loop_takes buf headerOffset D 2 p (Z.to_nat bufsize) Hb 2 (bufsize - 2) [] []) as (n & name & starts & -> & Hn & Hst);
    [lia|lia|by apply inside_skip; [|lia]|done|lia|apply Forall_nil_2|]. cbn [rbind].
  destruct (Z.eqb_spec n 0); [auto|].
  edestruct (remember_defined starts (2 + headerOffset) name) as (D' & ->); [|apply takes_Ok; lia].
  eapply Forall_impl; [exact Hst|]. intros o Ho. cbn beta in *. lia.
Qed.

Lemma Srv_takes buf p bufsize D headerOffset : Forall is_byte buf -> inside buf p bufsize ->
  takes bufsize (Srv_Deserialize buf p bufsize D headerOffset).
Proof.
  intros Hb Hin. unfold Srv_Deserialize. destruct (Z.ltb_spec bufsize 2); [auto|].
  destruct (inside_rd _ _ _ 2 Hin Hb) as (b & -> & Hbl & Hbb); [lia|]. cbn [rbind].
  destruct (_ || _) eqn:E; [auto|]. apply orb_false_iff in E as [E1%Z.ltb_ge E2%Z.ltb_ge].
  destruct (inside_rd buf (p + 2) (bufsize - 2) 6 (inside_skip _ _ _ 2 Hin ltac:(lia)) Hb) as (b6 & -> & _ & _); [lia|]. cbn [rbind].
  destruct (DomainName_takes buf (p + 8) (bufsize - 8) D (headerOffset + 8) Hb (inside_skip _ _ _ 8 Hin ltac:(lia))) as (n & name & D' & -> & Hn).
  cbn [rbind]. apply takes_Ok. lia.
Qed.

Lemma Default_takes buf p bufsize : Forall is_byte buf -> inside buf p bufsize ->
  defined (Default_Deserialize buf p bufsize) /\ forall d n, Default_Deserialize buf p bufsize = Ok (d, n) -> 0 <= n <= bufsize.
Proof.
  intros Hb Hin. unfold Default_Deserialize. destruct (Z.ltb_spec bufsize 2); [done|].
  destruct (inside_rd _ _ _ 2 Hin Hb) as (b & -> & Hbl & Hbb); [lia|]. cbn [rbind].
  pose proof (from_be16_takes b Hbl Hbb). destruct (Z.ltb_spec (bufsize - 2) (from_be16 b)); [done|].
  split; [done|]. intros d n [= <- <-]. lia.
Qed.

Section uniquifier.
Context (uniq : Z).

Lemma RData_takes rrType buf p bufsize D headerOffset : Forall is_byte buf -> inside buf p bufsize ->
  takes bufsize (RData_Deserialize uniq rrType buf p bufsize D headerOffset).
Proof.
  intros Hb Hin. unfold RData_Deserialize. destruct (rrType =? A).
  { destruct (Addr_defined IPv4ToString StringToIPv4 4 _ _ _ Hb Hin) as [Hd Hn]. destruct (Addr_Deserialize _ _ _ _ _) as [a| |]; [|by split|done].
    pose proof (Hn a eq_refl). apply takes_Ok. lia. }
  destruct (_ || _); [by apply Ptr_takes|]. destruct (_ || _).
  { rewrite new_Text_eq. cbn [rbind]. destruct (Text_takes (no_text uniq) _ _ _ Hb Hin) as [Hd Hn].
    destruct (Text_Deserialize _ _ _ _) as [[t n]| |]; [|by split|done]. apply takes_Ok. by eapply Hn. }
  destruct (rrType =? AAAA).
  { destruct (Addr_defined IPv6ToString StringToIPv6 16 _ _ _ Hb Hin) as [Hd Hn]. destruct (Addr_Deserialize _ _ _ _ _) as [a| |]; [|by split|done].
    pose proof (Hn a eq_refl). apply takes_Ok. lia. }
  destruct (rrType =? SRV); [by apply Srv_takes|].
  destruct (Default_takes _ _ _ Hb Hin) as [Hd Hn]. destruct (Default_Deserialize _ _ _) as [[d n]| |]; [|by split|done].
  apply takes_Ok. by eapply Hn.
Qed.

Lemma Record_takes buf p bufsize D headerOffset : Forall is_byte buf -> inside buf p bufsize ->
  takes bufsize (Record_Deserialize uniq buf p bufsize D headerOffset).
Proof.
  intros Hb Hin. unfold Record_Deserialize. destruct (DomainName_takes _ _ _ D headerOffset Hb Hin) as (n & name & D' & -> & Hn). cbn [rbind].
  destruct (_ || _); [auto|]. destruct (_ || _) eqn:E; [auto|]. apply orb_false_iff in E as [_ E]. rewrite Z.gtb_ltb in E. apply Z.ltb_ge in E.
  pose proof (inside_skip _ _ _ n Hin ltac:(lia)) as Hin1.
  destruct (inside_rd _ _ _ 8 Hin1 Hb) as (b & -> & _ & _); [lia|]. cbn [rbind].
  pose proof (inside_skip _ _ _ 8 Hin1 ltac:(lia)) as Hin2. rewrite <- Z.sub_add_distr in Hin2.
  destruct (RData_takes (from_be16 b) _ _ _ D' (headerOffset + (n + 8)) Hb Hin2) as [Hd Hr].
  destruct (RData_Deserialize _ _ _ _ _ _ _) as [[[d processed] D2]| |]; [|by split|done]. cbn [rbind].
  destruct (processed =? 0); [auto|]. pose proof (Hr _ _ _ eq_refl). apply takes_Ok. lia.
Qed.

Lemma get_all_takes {T} (get : list Z -> Z -> Z -> Compressed -> Z -> mio (T * Z * Compressed)) buf :
  (forall p bufsize D headerOffset, inside buf p bufsize -> takes bufsize (get buf p bufsize D headerOffset)) ->
  forall count p bufsize D headerOffset, inside buf p bufsize -> takes bufsize (get_all get count buf p bufsize D headerOffset).
Proof.
  intros Hget. induction count as [|count IH]; intros p bufsize D headerOffset Hin; cbn [get_all].
  - apply takes_Ok. destruct Hin. lia.
  - destruct (Hget p bufsize D headerOffset Hin) as [Hd Hr]. destruct (get _ _ _ _ _) as [[[x n] D1]| |]; [|by split|done]. cbn [rbind].
    pose proof (Hr _ _ _ eq_refl) as Hn. destruct (_ || _); [auto|].
    destruct (IH (p + n) (bufsize - n) D1 (headerOffset + n) (inside_skip _ _ _ n Hin Hn)) as [Hd' Hr'].
    destruct (get_all _ _ _ _ _ _ _) as [[[l size] D2]| |]; [|by split|done]. cbn [rbind]. pose proof (Hr' _ _ _ eq_refl). apply takes_Ok. lia.
Qed.

Ltac read_part get Hb Hin H :=
  let x := fresh "x" in let n := fresh "n" in let D := fresh "D" in let Hd := fresh "Hd" in
  match goal with |- context [get_all get ?c ?buf ?p ?s ?D0 ?h] =>
    destruct (get_all_takes get buf ltac:(intros; first [by apply Question_takes|by apply Record_takes]) c p s D0 h Hin) as [Hd H];
    destruct (get_all get c buf p s D0 h) as [[[x n] D]| |]; [|done|done]; cbn [rbind]; specialize (H _ _ _ eq_refl);
    apply (inside_skip _ _ _ n) in Hin; [|done]
  end.

(** C18: Whatever bytes arrive, the parser of multicast DNS packets ends with a packet, a
    refusal or, at a text field that is empty or not ordered with the others, the misuse
    of a library; up to there it reads no byte outside the datagram and finds every suffix
    it stores for the decompression of names inside the name. The size it returns is
    within the datagram. *)
Theorem MDNSPacket_Deserialize_safe x buf bufsize :
  Forall is_byte buf -> 0 <= bufsize <= zlen buf ->
  defined (Packet_Deserialize uniq x buf bufsize) /\
  forall x' n, Packet_Deserialize uniq x buf bufsize = Ok (x', n) -> 12 <= n <= bufsize.
Proof.
  intros Hb Hs. unfold Packet_Deserialize, Header_Deserialize. destruct (Z.ltb_spec bufsize 12); [done|].
  assert (inside buf 0 bufsize) as Hin by (unfold inside; lia).
  destruct (inside_rd _ _ _ 12 Hin Hb) as (b & -> & _ & _); [lia|]. cbn [rbind]. set (h := {| m_queryId := _ |}).
  destruct (_ && _); [done|]. destruct (Z.geb_spec 12 bufsize); [done|].
  apply (inside_skip _ _ _ 12) in Hin; [|lia]. rewrite Z.add_0_l in Hin.
  read_part Question_Deserialize Hb Hin Hpart1. read_part (Record_Deserialize uniq) Hb Hin Hpart2.
  read_part (Record_Deserialize uniq) Hb Hin Hpart3. read_part (Record_Deserialize uniq) Hb Hin Hpart4.
  split; [done|]. intros x' m [= <- <-]. lia.
Qed.
End uniquifier.

(** A question that asks twice for the same name, the second time by a pointer. *)
Definition sample_query : list Z :=
  [0; 7; 0; 0; 0; 2; 0; 0; 0; 0; 0; 0; 1; 97; 1; 98; 0; 0; 12; 128; 1; 192; 12; 0; 12; 128; 1].

Definition no_packet : MDNSPacket :=
  {| m_header := new_MDNSHeader 0 MDNS_QUERY 0 0 0 0; m_questions := []; m_answers := []; m_authority := []; m_additional := [] |}.

Lemma MDNSPacket_Deserialize_safe_witness :
  exists x, Packet_Deserialize 0 no_packet sample_query 27 = Ok (x, 27) /\
    map m_qName (m_questions x) = [lit "a.b."; lit "a.b."] /\ 12 <= 27 <= 27.
Proof.
  assert (exists x, Packet_Deserialize 0 no_packet sample_query 27 = Ok (x, 27) /\ map m_qName (m_questions x) = [lit "a.b."; lit "a.b."]) as (x & Hx & Hn).
  { eexists. split; vm_compute; reflexivity. }
  exists x. split; [exact Hx|]. split; [exact Hn|].
  refine (proj2 (MDNSPacket_Deserialize_safe 0 no_packet sample_query 27 _ _) x 27 Hx).
  - apply (bool_decide_unpack _). vm_compute. exact I.
  - vm_compute. split; discriminate.
Defined.

(** * Sizes *)

(** The two maps know the same names. *)
Definition same (o o' : Offsets) : Prop := forall n, o !! n = None <-> o' !! n = None.

Lemma same_insert o o' n a a' : same o o' -> same (<[n := a]> o) (<[n := a']> o').
Proof. intros H m. destruct (decide (n = m)) as [->|Hn]; [by rewrite !lookup_insert_eq|by rewrite !lookup_insert_ne]. Qed.

Lemma name_size_put fuel : forall name off o bs o' o2, put_name fuel name off o = Ok (bs, o') -> same o o2 ->
  exists o2', name_size fuel name o2 = Ok (zlen bs, o2') /\ same o' o2'.
Proof.
  induction fuel as [|fuel IH]; intros [|c name] off o bs o' o2 H Hs; cbn [put_name name_size] in *; try by (inv_Ok; eexists).
  - destruct (o !! (c :: name)) eqn:E; [|discriminate]. injection H as <- <-.
    destruct (o2 !! (c :: name)) eqn:E2; [by eexists|]. by rewrite (proj2 (Hs _) E2) in E.
  - destruct (o !! (c :: name)) eqn:E.
    + injection H as <- <-. destruct (o2 !! (c :: name)) eqn:E2; [by eexists|]. by rewrite (proj2 (Hs _) E2) in E.
    + rewrite (proj1 (Hs _) E). destruct (find_first_of dot (c :: name) 0) as [n|] eqn:Ef; [|discriminate].
      destruct (put_name fuel _ _ _) as [[bs1 o1]| |] eqn:Ep; cbn [rbind] in H; [|discriminate|discriminate]. injection H as <- <-.
      edestruct IH as (o2' & -> & Hs'); [exact Ep|by apply same_insert|]. cbn [rbind]. eexists. split; [|exact Hs'].
      do 3 f_equal. change (Z.of_nat n mod 256 :: take n (c :: name) ++ bs1) with ([Z.of_nat n mod 256] ++ take n (c :: name) ++ bs1).
      rewrite !length_app, length_take. cbn [length app].
      apply find_first_of_ge in Ef. cbn [length] in *. lia.
Qed.

Lemma DomainName_size name o off bs o' o2 : DomainName_Serialize name o off = Ok (bs, o') -> same o o2 ->
  exists o2', DomainName_GetSerializedSize name o2 = Ok (zlen bs, o2') /\ same o' o2'.
Proof. apply name_size_put. Qed.

Ltac lengths := repeat (rewrite length_app || cbn [length be16 be32 app]); cbn [length be16 be32 app]; lia.

(** What is written beyond the bytes that are counted: a field without a value gets an equals
    sign that GetSerializedSize does not count; of an address record whose text is no IPv4
    address the six bytes that are counted are not written. *)
Definition unvalued_fields (m : Fields) : Z := foldr (fun e n => (match e.2 with [] => 1 | _ => 0 end) + n) 0 m.
Definition surplus_data (d : option RData) : Z := 
  match d with
  | Some (TextRData t) => unvalued_fields (m_fields t)
  | Some (ARData addr) => match StringToIPv4 addr false 4 with Ok _ => 0 | _ => -6 end
  | _ => 0
  end.
Definition surplus_records (l : list MDNSResourceRecord) : Z := foldr (fun r n => surplus_data (m_rdata r) + n) 0 l.
Definition surplus (x : MDNSPacket) : Z := surplus_records (m_answers x) + surplus_records (m_authority x) + surplus_records (m_additional x).

Lemma text_fields_size m : foldr (fun e rdlen => zlen (e.1 ++ match e.2 with [] => [] | v => lit "=" ++ v end) + 1 + rdlen) 0 m
  = zlen (concat (map text_field m)) - unvalued_fields m.
Proof.
  unfold unvalued_fields. induction m as [|[k v] m IH]; [done|]. cbn [foldr map concat fst snd]. rewrite IH. unfold text_field. cbn [fst snd app].
  destruct v; cbn [length]; rewrite !length_app; cbn [length lit String.list_ascii_of_string map]; lia.
Qed.

Lemma Text_Serialize_size t bs : Text_Serialize t = Ok bs -> Text_GetSerializedSize t = zlen bs - unvalued_fields (m_fields t).
Proof.
  unfold Text_Serialize, Text_GetSerializedSize. intros H. inv_Ok. destruct x as [i|]; [|discriminate]. inv_Ok.
  rewrite text_fields_size. cbn [be16 app length]. rewrite map_app, concat_app, length_app.
  rewrite <- (take_drop i (m_fields t)) at 1. rewrite map_app, concat_app, length_app. lia.
Qed.

Lemma RData_size d o off bs o' o2 : RData_Serialize d o off = Ok (bs, o') -> same o o2 ->
  exists o2', RData_GetSerializedSize d o2 = Ok (zlen bs - surplus_data (Some d), o2') /\ same o' o2'.
Proof.
  intros H Hs. destruct d; cbn [RData_Serialize RData_GetSerializedSize surplus_data] in *.
  - injection H as <- <-. by eexists.
  - inv_Ok. rewrite (Text_Serialize_size _ _ ltac:(eassumption)). by eexists.
  - destruct (StringToIPv4 _ _ _) as [a| |] eqn:Ha; [|injection H as <- <-; by eexists|discriminate]. injection H as <- <-. apply (codec_parsed (print := IPv4ToString) (size := 4)) in Ha as [Hl _].
    eexists. split; [|exact Hs]. do 2 f_equal. lengths.
  - destruct (StringToIPv6 _ _ _) as [a| |] eqn:Ea; [|discriminate|discriminate]. injection H as <- <-.
    apply (codec_parsed (print := IPv6ToString) (size := 16)) in Ea as [Hl _].
    eexists. split; [|exact Hs]. do 2 f_equal. lengths.
  - inv_Ok. destruct x as [bs1 o1]. inv_Ok. edestruct name_size_put as (o2' & -> & Hs'); [eassumption|exact Hs|].
    cbn [rbind]. eexists. split; [|exact Hs']. do 2 f_equal. lengths.
  - inv_Ok. destruct x as [bs1 o1]. inv_Ok. edestruct DomainName_size as (o2' & -> & Hs'); [eassumption|exact Hs|].
    cbn [rbind]. eexists. split; [|exact Hs']. do 2 f_equal. lengths.
Qed.

Lemma Record_size r o off bs o' o2 : Record_Serialize r o off = Ok (bs, o') -> same o o2 ->
  exists o2', Record_GetSerializedSize r o2 = Ok (zlen bs - surplus_data (m_rdata r), o2') /\ same o' o2'.
Proof.
  unfold Record_Serialize, Record_GetSerializedSize. intros H Hs. destruct (m_rdata r) as [d|] eqn:Ed; [|discriminate].
  inv_Ok. destruct x as [name o1]. inv_Ok. destruct x as [ds o3]. inv_Ok. edestruct DomainName_size as (o1' & -> & Hs1); [eassumption|exact Hs|].
  cbn [rbind]. edestruct RData_size as (o2' & -> & Hs2); [eassumption|exact Hs1|]. cbn [rbind]. eexists. split; [|exact Hs2].
  do 2 f_equal. lengths.
Qed.

Lemma Question_size q o off bs o' o2 : Question_Serialize q o off = Ok (bs, o') -> same o o2 ->
  exists o2', Question_GetSerializedSize q o2 = Ok (zlen bs - 0, o2') /\ same o' o2'.
Proof.
  unfold Question_Serialize, Question_GetSerializedSize. intros H Hs. inv_Ok. destruct x as [name o1]. inv_Ok.
  edestruct DomainName_size as (o1' & -> & Hs1); [eassumption|exact Hs|]. cbn [rbind]. eexists. split; [|exact Hs1].
  do 2 f_equal. lengths.
Qed.

Lemma put_all_size {T} put size (extra : T -> Z) l :
  Forall (fun x => forall o off bs o' o2, put x o off = Ok (bs, o') -> same o o2 -> exists o2', size x o2 = Ok (zlen bs - extra x, o2') /\ same o' o2') l ->
  forall o off bs o' o2, put_all put l o off = Ok (bs, o') -> same o o2 ->
  exists o2', sum_sizes size l o2 = Ok (zlen bs - foldr (fun x n => extra x + n) 0 l, o2') /\ same o' o2'.
Proof.
  induction 1 as [|x l Hx _ IH]; intros o off bs o' o2 H Hs; cbn [put_all sum_sizes foldr] in *.
  - injection H as <- <-. by eexists.
  - inv_Ok. destruct x0 as [b o1]. inv_Ok. destruct x0 as [bs1 o3]. inv_Ok. edestruct Hx as (o1' & -> & Hs1); [eassumption|exact Hs|]. cbn [rbind].
    edestruct IH as (o3' & -> & Hs3); [eassumption|exact Hs1|]. cbn [rbind]. eexists. split; [|exact Hs3]. rewrite length_app. do 2 f_equal. lia.
Qed.

(** C20: Serialize writes exactly as many bytes as GetSerializedSize counted, into a
    buffer of that size, but for two cases ([surplus]): every field of a text record
    that has no value takes one byte more than counted, and an address record whose text
    is no IPv4 address is counted with six bytes, of which it occupies none. *)
Theorem MDNSPacket_Serialize_size x bs :
  Packet_Serialize x = Ok bs -> Packet_GetSerializedSize x = Ok (zlen bs - surplus x).
Proof.
  unfold Packet_Serialize, Packet_GetSerializedSize. intros H. inv_Ok.
  destruct x0 as [q o1]. inv_Ok. destruct x0 as [a o2]. inv_Ok. destruct x0 as [n o3]. inv_Ok. destruct x0 as [r o4]. inv_Ok.
  assert (forall l, Forall (fun r => forall o off bs o' o2, Record_Serialize r o off = Ok (bs, o') -> same o o2 ->
      exists o2', Record_GetSerializedSize r o2 = Ok (zlen bs - surplus_data (m_rdata r), o2') /\ same o' o2') l) as HR.
  { intros l. apply Forall_true. intros r0 o off b o' o'' Hp. by eapply Record_size. }
  edestruct (put_all_size Question_Serialize Question_GetSerializedSize (fun _ => 0)) as (p1 & -> & Hs1);
    [apply Forall_true; intros; by eapply Question_size|eassumption|done|]. cbn [rbind].
  edestruct (put_all_size Record_Serialize Record_GetSerializedSize) as (p2 & -> & Hs2); [exact (HR _)|eassumption|exact Hs1|]. cbn [rbind].
  edestruct (put_all_size Record_Serialize Record_GetSerializedSize) as (p3 & -> & Hs3); [exact (HR _)|eassumption|exact Hs2|]. cbn [rbind].
  edestruct (put_all_size Record_Serialize Record_GetSerializedSize) as (p4 & -> & _); [exact (HR _)|eassumption|exact Hs3|]. cbn [rbind].
  assert (foldr (fun (_ : MDNSQuestion) n => 0 + n) 0 (m_questions x) = 0) as -> by (clear; induction (m_questions x) as [|? ? IH]; cbn [foldr]; [done|rewrite IH; done]).
  f_equal. unfold surplus, surplus_records. lengths.
Qed.

(** * Runs *)

(** A search for org.x, ended by the field without a value that ends every search. *)
Definition search_text : Text :=
  {| m_fields := [(lit "n_1", lit "org.x"); (lit ";_2", []); (lit "txtvers", lit "0")]; version := 0; uniquifier := 3 |}.

Lemma search_text_built :
  (let! t := new_Text 0 1 in let! t := Text_SetValue t (lit "n") (lit "org.x") false in Text_SetValue t (lit ";") [] false) = Ok search_text.
Proof. vm_compute. reflexivity. Qed.

Definition sample_response : MDNSPacket :=
  {| m_header := new_MDNSHeader 5 MDNS_RESPONSE 1 2 0 2;
     m_questions := [new_MDNSQuestion (lit "_alljoyn._tcp.local.") PTR INTERNET];
     m_answers := [new_MDNSResourceRecord (lit "_alljoyn._tcp.local.") PTR INTERNET 120 (PtrRData (lit "guid._alljoyn._tcp.local."));
                   new_MDNSResourceRecord (lit "guid._alljoyn._tcp.local.") SRV INTERNET 120 (SrvRData 1 1 9955 (lit "guid.local."))];
     m_authority := [];
     m_additional := [new_MDNSResourceRecord (lit "search.guid.local.") TXT INTERNET 120 (TextRData search_text);
                      new_MDNSResourceRecord (lit "guid.local.") A INTERNET 120 (ARData (lit "10.0.0.1"))] |}.

(** The buffer for this packet has 140 bytes; 141 are written into it. *)
Lemma MDNSPacket_Serialize_size_witness :
  exists bs, Packet_Serialize sample_response = Ok bs /\ zlen bs = 141 /\ Packet_GetSerializedSize sample_response = Ok 140.
Proof.
  assert (exists bs, Packet_Serialize sample_response = Ok bs /\ zlen bs = 141) as (bs & Hbs & Hl) by (eexists; split; vm_compute; reflexivity).
  exists bs. split; [exact Hbs|]. split; [exact Hl|].
  pose proof (MDNSPacket_Serialize_size sample_response bs) as H. rewrite Hl in H. change (141 - surplus sample_response) with 140 in H.
  exact (H Hbs).
Defined.

(** The size of a name without a final dot is asked for at the position npos. *)
Lemma no_final_dot : DomainName_GetSerializedSize (lit "local") ∅ = Undef /\ DomainName_Serialize (lit "local") ∅ 12 = Undef.
Proof. split; vm_compute; reflexivity. Qed.

(** A response whose text record holds a string of no characters. *)
Lemma empty_string_misuse :
  Packet_Deserialize 0 no_packet ([0; 0; 128; 0; 0; 0; 0; 1; 0; 0; 0; 0] ++ [0] ++ be16 TXT ++ be16 INTERNET ++ be32 120 ++ be16 1 ++ [0]) 24 = Fail Misuse.
Proof. vm_compute. reflexivity. Qed.

(** The fields a search for a name and an interface that asks for matches only has: each of
    the three comes before the next. *)
Lemma Compare_cycle : Compare (lit "i_2") (lit "m") = true /\ Compare (lit "m") (lit "n_1") = true /\ Compare (lit "n_1") (lit "i_2") = true.
Proof. repeat split; vm_compute; reflexivity. Qed.

(** Fields with the same number are one: the second value is stored under the first key. *)
Lemma same_number : assign [(lit "n_1", lit "org.x")] (lit "i_1") (lit "org.y") = [(lit "n_1", lit "org.y")].
Proof. vm_compute. reflexivity. Qed.

(** A service record whose target is refused is accepted with what was read of it. *)
Lemma bad_target : Srv_Deserialize [0; 8; 0; 1; 0; 1; 38; 227; 3; 97] 0 10 ∅ 0 = Ok (SrvRData 1 1 9955 [], 8, ∅).
Proof. vm_compute. reflexivity. Qed.

(** The data of a record whose type is not known is read, but not even its length is written. *)
Lemma unknown_type : (let! (bs, _) := Record_Serialize (new_MDNSResourceRecord (lit "a.") RNULL INTERNET 120 DefaultRData) ∅ 12 in Ok (zlen bs)) = Ok 11 /\
  Default_Deserialize [] 0 0 = Fail Refused.
Proof. split; vm_compute; reflexivity. Qed.
