(* ===== verification/MdnsRoundtrip.v ===== *)
(** A multicast DNS packet that is written and read again is the same packet: the names
    that Serialize replaces by pointers are those that Deserialize finds under the offsets
    it has stored. *)
From Stdlib Require Import Sorted.
From stdpp Require Import strings gmap sorting.
From S2P Require Import Prelude Types BusUtil BusUtilProofs IPAddress IPAddressProofs IPv6Proofs StringUtil NameService NameServiceProofs Mdns MdnsProofs.
Import Mdns.

(** * Names as labels *)

(** A label that fits its length byte beside the mark of a pointer. *)
Definition label_ok (l : list Z) : Prop := 0 < zlen l < 192 /\ Forall is_byte l /\ Forall (fun c => c <> dot) l.

(** The text of a name: every label is followed by a dot. *)
Definition name_of (ls : list (list Z)) : list Z := concat (map (fun l => l ++ [dot]) ls).

Definition wire (ls : list (list Z)) : list Z := concat (map (fun l => zlen l :: l) ls).

Lemma name_of_cons l ls : name_of (l :: ls) = l ++ dot :: name_of ls.
Proof. unfold name_of. cbn [map concat]. by rewrite <- app_assoc. Qed.

Lemma name_of_app ls ls' : name_of (ls ++ ls') = name_of ls ++ name_of ls'.
Proof. unfold name_of. by rewrite map_app, concat_app. Qed.

Lemma zlen_wire ls : zlen (wire ls) = zlen (name_of ls).
Proof.
  unfold wire, name_of. induction ls as [|l ls IH]; [done|]. cbn [map concat]. rewrite !length_app. cbn [length]. lia.
Qed.

Lemma name_of_nil ls : Forall label_ok ls -> name_of ls = [] -> ls = [].
Proof. destruct ls as [|l ls]; [done|]. intros _ H. rewrite name_of_cons in H. by destruct l. Qed.

Lemma first_label l ls : label_ok l -> find_first_of dot (name_of (l :: ls)) 0 = Some (length l) /\
  drop (S (length l)) (name_of (l :: ls)) = name_of ls /\ take (length l) (name_of (l :: ls)) = l.
Proof.
  intros (_ & _ & Hd). rewrite name_of_cons. split; [|split].
  - apply (find_first_of_mid dot [] l (name_of ls)). done.
  - change (l ++ dot :: name_of ls) with (l ++ [dot] ++ name_of ls). rewrite app_assoc. apply drop_app_length'. rewrite length_app. cbn. lia.
  - apply take_app_length.
Qed.

(** * What is written *)

(** The suffixes that are stored while [l1] is written from [off] on, with [l2] behind. *)
Fixpoint entries (l1 l2 : list (list Z)) (off : Z) : list (list Z * Z) :=
  match l1 with
  | [] => []
  | l :: l1 => (name_of (l :: l1 ++ l2), off) :: entries l1 l2 (off + 1 + zlen l)
  end.

Definition store_names (o : Offsets) (es : list (list Z * Z)) : Offsets := foldl (fun o e => <[e.1 := e.2]> o) o es.
Definition store_offsets (D : Compressed) (es : list (list Z * Z)) : Compressed := foldl (fun D e => <[e.2 := e.1]> D) D es.

(** The end of a name: the final zero or a pointer to the rest. *)
Definition tail_of (o : Offsets) (l2 : list (list Z)) (tail : list Z) : Prop :=
  (l2 = [] /\ tail = [0]) \/
  exists a, o !! name_of l2 = Some a /\ tail = [Z.lor 192 (Z.shiftr (Z.land a 65280) 8); Z.land a 255].

Lemma put_name_split ls : Forall label_ok ls -> forall fuel off o, (length (name_of ls) <= fuel)%nat ->
  exists l1 l2 tail, ls = l1 ++ l2 /\ tail_of o l2 tail /\
    put_name fuel (name_of ls) off o = Ok (wire l1 ++ tail, store_names o (entries l1 l2 off)).
Proof.
  induction 1 as [|l ls Hl _ IH]; intros fuel off o Hf.
  { exists [], [], [0]. split; [done|]. split; [by left|]. by destruct fuel. }
  destruct (first_label l ls Hl) as (Hff & Hdrop & Htake). rewrite name_of_cons in Hf.
  destruct (name_of (l :: ls)) as [|c name] eqn:En; [by rewrite name_of_cons in En; destruct l|].
  destruct (o !! (c :: name)) as [a|] eqn:Eo.
  - exists [], (l :: ls), [Z.lor 192 (Z.shiftr (Z.land a 65280) 8); Z.land a 255]. split; [done|]. split.
    + right. exists a. by rewrite En.
    + destruct fuel; cbn [put_name]; by rewrite Eo.
  - destruct fuel as [|fuel]; [rewrite length_app in Hf; cbn [length] in Hf; lia|].
    destruct (IH fuel (off + 1 + zlen l) (<[c :: name := off]> o)) as (l1 & l2 & tail & Hls & Ht & Hp).
    { rewrite length_app in Hf. cbn [length] in Hf. lia. }
    exists (l :: l1), l2, tail. split; [by rewrite Hls|]. split.
    + destruct Ht as [Ht|(a & Ha & ->)]; [by left|right]. exists a. split; [|done]. rewrite lookup_insert_ne in Ha; [done|].
      intros E. rewrite <- En, Hls, name_of_cons, name_of_app in E. apply (f_equal length) in E. rewrite length_app in E. cbn [length] in E.
      rewrite length_app in E. lia.
    + cbn [put_name]. rewrite Eo, Hff, Hdrop, Htake, Hp. cbn [rbind]. f_equal. f_equal.
      * unfold wire. cbn [map concat]. rewrite Z.mod_small by (destruct Hl; lia). cbn [app]. by rewrite <- app_assoc.
      * cbn [entries store_names foldl fst snd]. rewrite <- En, Hls. done.
Qed.

(** * What is read *)

(** Both sides agree on the names at offsets before [off]. *)
Definition agree (o : Offsets) (D : Compressed) (off : Z) : Prop :=
  forall name a, o !! name = Some a -> D !! a = Some name /\ 0 <= a < off.

Lemma agree_later o D off off' : agree o D off -> off <= off' -> agree o D off'.
Proof. intros H Hle name a Ha. destruct (H name a Ha). split; [done|lia]. Qed.

Lemma agree_stored l1 l2 : forall o D off, 0 <= off -> agree o D off ->
  agree (store_names o (entries l1 l2 off)) (store_offsets D (entries l1 l2 off)) (off + zlen (wire l1)).
Proof.
  induction l1 as [|l l1 IH]; intros o D off Hoff H; cbn [entries store_names store_offsets foldl fst snd].
  - eapply agree_later; [exact H|]. lia.
  - replace (off + zlen (wire (l :: l1))) with (off + 1 + zlen l + zlen (wire l1)).
    2: { unfold wire. cbn [map concat]. rewrite length_app. cbn [length]. lia. }
    apply IH; [lia|]. intros name a Ha. destruct (decide (name_of (l :: l1 ++ l2) = name)) as [<-|Hn].
    + rewrite lookup_insert_eq in Ha. injection Ha as <-. rewrite lookup_insert_eq. split; [done|lia].
    + rewrite lookup_insert_ne in Ha by done. destruct (H _ _ Ha) as [HD Hlt]. split; [|lia]. by rewrite lookup_insert_ne by lia.
Qed.

Lemma pointer_back a : 0 <= a < 16384 ->
  Z.shiftr (Z.land (Z.lor 192 (Z.shiftr (Z.land a 65280) 8)) 192) 6 = 3 /\
  Z.land (Z.lor (Z.shiftl (Z.lor 192 (Z.shiftr (Z.land a 65280) 8)) 8) (Z.land a 255)) 16383 = a.
Proof.
  intros Ha.
  assert (Z.shiftr (Z.land a 65280) 8 = a / 256) as ->.
  { change 65280 with (Z.shiftl 255 8). rewrite Z.shiftr_land, Z.shiftr_shiftl_l by lia. change (Z.shiftl 255 (8 - 8)) with (Z.ones 8).
    rewrite Z.land_ones, Z.shiftr_div_pow2 by lia. change (2 ^ 8) with 256. rewrite Z.mod_small; [done|].
    split; [apply Z.div_pos; lia|apply Z.div_lt_upper_bound; lia]. }
  assert (0 <= a / 256 < 64) as Hq by (split; [apply Z.div_pos; lia|apply Z.div_lt_upper_bound; lia]).
  assert (Z.lor 192 (a / 256) = a / 256 + 192) as Hlor.
  { rewrite Z.lor_comm. change 192 with (3 * 2 ^ 6). apply lor_disjoint; change (2 ^ 6) with 64; lia. }
  change (Z.land a 255) with (Z.land a (Z.ones 8)). rewrite Z.land_ones by lia. change (2 ^ 8) with 256.
  rewrite Hlor. split.
  - change (Z.land (a / 256 + 192) 192) with (Z.land (a / 256 + 192) (Z.shiftl 3 6)). rewrite Z.shiftr_land, Z.shiftr_shiftl_l by lia. change (Z.shiftl 3 (6 - 6)) with (Z.ones 2).
    rewrite Z.land_ones, Z.shiftr_div_pow2 by lia. change (2 ^ 6) with 64. change (2 ^ 2) with 4.
    replace (a / 256 + 192) with (a / 256 + 3 * 64) by lia. rewrite Z.div_add, (Z.div_small (a / 256)) by lia. done.
  - rewrite Z.shiftl_mul_pow2 by lia. rewrite Z.lor_comm.
    rewrite lor_disjoint by (try apply Z.mod_pos_bound; lia).
    change 16383 with (Z.ones 14). rewrite Z.land_ones by lia. change (2 ^ 8) with 256. change (2 ^ 14) with 16384.
    change (2 ^ 8) with 256. replace (a mod 256 + (a / 256 + 192) * 256) with (a + 3 * 16384) by (pose proof (Z.div_mod a 256 ltac:(lia)); lia).
    rewrite Z.mod_add by lia. by apply Z.mod_small.
Qed.

(** The bytes [bs] stand at [p], within the [bufsize] bytes from there on. *)
Definition holds (buf : list Z) (p bufsize : Z) (bs : list Z) : Prop := has_at buf p bs /\ zlen bs <= bufsize.

Lemma holds_app buf p bufsize b1 b2 : holds buf p bufsize (b1 ++ b2) -> holds buf p bufsize b1 /\ holds buf (p + zlen b1) (bufsize - zlen b1) b2.
Proof. unfold holds. rewrite has_at_app, length_app. intros [[H1 H2] H3]. split; (split; [done|lia]). Qed.

Lemma holds_rd buf p bufsize bs n : holds buf p bufsize bs -> bs <> [] -> n = length bs -> rd (E:=stop) buf p n = Ok bs.
Proof. intros [H _] Hn ->. by apply rd_has_at. Qed.

Lemma no_pointer b : 0 <= b < 192 -> (Z.shiftr (Z.land b 192) 6 =? 3) = false.
Proof.
  intros Hb. apply Z.eqb_neq. intros H.
  change (Z.land b 192) with (Z.land b (Z.shiftl 3 6)) in H. rewrite Z.shiftr_land, Z.shiftr_shiftl_l in H by lia.
  change (Z.shiftl 3 (6 - 6)) with (Z.ones 2) in H. rewrite Z.land_ones, Z.shiftr_div_pow2 in H by lia. change (2 ^ 6) with 64 in H. change (2 ^ 2) with 4 in H.
  rewrite Z.mod_small in H; [|split; [apply Z.div_pos; lia|]; apply Z.div_lt_upper_bound; lia].
  assert (b / 64 < 3) by (apply Z.div_lt_upper_bound; lia). lia.
Qed.

Lemma dotted_label pre l : label_ok l -> dotted (name_of pre ++ l) = name_of (pre ++ [l]).
Proof.
  intros Hl. rewrite name_of_app, name_of_cons. cbn. destruct (name_of pre ++ l) eqn:E.
  - apply app_eq_nil in E as [_ ->]. destruct Hl. cbn in *. lia.
  - cbn [dotted]. by rewrite <- E, <- app_assoc.
Qed.

Lemma name_loop_read buf p D off0 o l2 tail (Ht : tail_of o l2 tail) (Ho : agree o D off0) (H0 : off0 <= 16384) headerOffset l1 :
  Forall label_ok l1 -> forall fuel size left acc starts pre,
  left <= Z.of_nat fuel -> holds buf (p + size) left (wire l1 ++ tail) -> dotted acc = name_of pre ->
  name_loop fuel buf p headerOffset D size left acc starts =
    Ok (size + zlen (wire l1 ++ tail), name_of (pre ++ l1 ++ l2), starts ++ map snd (entries l1 l2 (headerOffset + size))).
Proof.
  induction 1 as [|l l1 Hl _ IH]; intros fuel size left acc starts pre Hf Hh Hacc.
  - cbn [wire concat map app entries] in *. rewrite app_nil_r.
    destruct Ht as [(-> & ->)|(a & Ha & ->)].
    + pose proof (proj2 Hh) as Hlen. cbn [length] in Hlen. destruct fuel as [|fuel]; [lia|]. cbn [name_loop].
      rewrite (proj2 (Z.gtb_lt left 0)) by lia. rewrite (holds_rd _ _ _ _ _ Hh) by done. cbn [rbind nth].
      change (Z.shiftr (Z.land 0 192) 6 =? 3) with false. cbn [andb]. destruct (Z.ltb_spec (left - 1) 0); [lia|].
      change (0 >? 0) with false. cbn iota. by rewrite Hacc, app_nil_r.
    + pose proof (proj2 Hh) as Hlen. cbn [length] in Hlen. destruct fuel as [|fuel]; [lia|]. cbn [name_loop].
      rewrite (proj2 (Z.gtb_lt left 0)) by lia. destruct (Ho _ _ Ha) as [HD Ha0]. destruct (pointer_back a ltac:(lia)) as [Hm Hp].
      pose proof (holds_app _ _ _ [_] [_] Hh) as [Hh1 _]. rewrite (holds_rd _ _ _ _ _ Hh1) by done. cbn [rbind nth].
      rewrite Hm. rewrite (proj2 (Z.gtb_lt left 1)) by lia. cbn [Z.eqb andb]. change (3 =? 3) with true. cbn iota.
      rewrite (holds_rd _ _ _ _ _ Hh) by done. cbn [rbind nth]. rewrite Hp, HD, Hacc, <- name_of_app. done.
  - unfold wire in Hh. cbn [map concat] in Hh. fold (wire l1) in Hh. rewrite <- !app_assoc in Hh.
    pose proof (proj2 Hh) as Hlen. cbn [app length] in Hlen. rewrite length_app in Hlen.
    change ((zlen l :: l) ++ wire l1 ++ tail) with ([zlen l] ++ l ++ wire l1 ++ tail) in Hh.
    apply holds_app in Hh as [Hh1 Hh]. apply holds_app in Hh as [Hh2 Hh]. change (zlen [zlen l]) with 1 in *.
    destruct fuel as [|fuel]; [lia|]. cbn [name_loop]. rewrite (proj2 (Z.gtb_lt left 0)) by lia.
    rewrite (holds_rd _ _ _ _ _ Hh1) by done. cbn [rbind nth]. destruct Hl as (Hll & Hlb & Hld).
    rewrite no_pointer by lia. cbn [andb]. destruct (Z.ltb_spec (left - 1) (zlen l)); [lia|].
    rewrite (proj2 (Z.gtb_lt (zlen l) 0)) by lia. rewrite (holds_rd _ _ _ _ (Z.to_nat (zlen l)) Hh2); [|destruct l; [cbn in Hll; lia|done]|lia]. cbn [rbind].
    rewrite (IH fuel _ _ _ _ (pre ++ [l])).
    + rewrite <- !app_assoc. cbn [app entries map]. f_equal. f_equal; [f_equal; unfold wire; cbn [map concat app]; lengths|].
      by replace (headerOffset + (size + 1 + zlen l)) with (headerOffset + size + 1 + zlen l) by lia.
    + lia.
    + replace (p + (size + 1 + zlen l)) with (p + size + 1 + zlen l) by lia. done.
    + rewrite Hacc. by apply dotted_label.
Qed.

Lemma remember_stores l1 l2 base : forall pre D,
  remember (map snd (entries l1 l2 (base + zlen (name_of pre)))) base (name_of (pre ++ l1 ++ l2)) D =
  Ok (store_offsets D (entries l1 l2 (base + zlen (name_of pre)))).
Proof.
  induction l1 as [|l l1 IH]; intros pre D; [done|]. cbn [entries map remember snd store_offsets foldl fst].
  replace (base + zlen (name_of pre) - base) with (zlen (name_of pre)) by lia.
  unfold substr_from. rewrite name_of_app. rewrite bool_decide_true by (rewrite length_app; lia). cbn [rbind].
  rewrite Nat2Z.id, drop_app_length. replace (base + zlen (name_of pre) + 1 + zlen l) with (base + zlen (name_of (pre ++ [l]))).
  2: { rewrite name_of_app, length_app, name_of_cons, length_app. cbn [length name_of map concat]. lia. }
  cbn [app]. rewrite <- name_of_app. specialize (IH (pre ++ [l]) (<[base + zlen (name_of pre) := name_of (l :: l1 ++ l2)]> D)).
  rewrite <- !app_assoc in IH. cbn [app] in IH. exact IH.
Qed.

(** * Names *)

Definition name_ok (name : list Z) : Prop := exists ls, Forall label_ok ls /\ name = name_of ls.

(** What is written of a name, and what reading it does, [skip] bytes behind the pointer. *)
Lemma name_trip name : name_ok name -> forall off o, 0 <= off -> exists bs o', put_name (length name) name off o = Ok (bs, o') /\ 0 < zlen bs /\
  forall D, agree o D off -> off <= 16384 -> exists D', agree o' D' (off + zlen bs) /\
  forall buf p skip left fuel, 0 <= skip -> left <= Z.of_nat fuel -> holds buf (p + skip) left bs ->
  exists starts, name_loop fuel buf p (off - skip) D skip left [] [] = Ok (skip + zlen bs, name, starts) /\ remember starts off name D = Ok D'.
Proof.
  intros (ls & Hls & ->) off o Hoff. destruct (put_name_split ls Hls (length (name_of ls)) off o (le_n _)) as (l1 & l2 & tail & -> & Ht & Hp).
  eexists _, _. split; [exact Hp|]. apply Forall_app in Hls as [Hl1 _]. split.
  { rewrite length_app. assert (0 < zlen tail); [|lia]. by destruct Ht as [(_ & ->)|(? & _ & ->)]. }
  intros D Ho H14. exists (store_offsets D (entries l1 l2 off)). split.
  { eapply agree_later; [by apply agree_stored|]. rewrite length_app. lia. }
  intros buf p skip left fuel Hskip Hf Hh. exists (map snd (entries l1 l2 off)). split.
  - rewrite (name_loop_read buf p D off o l2 tail Ht Ho H14 (off - skip) l1 Hl1 fuel skip left [] [] [] Hf Hh eq_refl).
    cbn [app]. by replace (off - skip + skip) with off by lia.
  - pose proof (remember_stores l1 l2 off [] D) as H. change (zlen (name_of [])) with 0 in H. rewrite Z.add_0_r in H. exact H.
Qed.

(** A domain name by itself. *)
Lemma DomainName_trip name : name_ok name -> forall off o, 0 <= off -> exists bs o', DomainName_Serialize name o off = Ok (bs, o') /\ 0 < zlen bs /\
  forall D, agree o D off -> off <= 16384 -> exists D', agree o' D' (off + zlen bs) /\
  forall buf p bufsize, holds buf p bufsize bs -> DomainName_Deserialize buf p bufsize D off = Ok (zlen bs, name, D').
Proof.
  intros Hn off o Hoff. destruct (name_trip name Hn off o Hoff) as (bs & o' & Hp & Hl & H). exists bs, o'. split; [exact Hp|]. split; [done|].
  intros D Ho H14. destruct (H D Ho H14) as (D' & HD & Hr). exists D'. split; [done|]. intros buf p bufsize Hh.
  unfold DomainName_Deserialize. pose proof (proj2 Hh). destruct (Z.ltb_spec bufsize 1); [lia|].
  destruct (Hr buf p 0 bufsize (Z.to_nat bufsize)) as (starts & Hloop & Hrem); [lia|lia|by rewrite Z.add_0_r|].
  rewrite Z.sub_0_r in Hloop. rewrite Hloop. cbn [rbind]. rewrite Z.add_0_l. destruct (Z.eqb_spec (zlen bs) 0); [lia|]. by rewrite Hrem.
Qed.

(** A part of a packet is written, and read back as [y] wherever the bytes stand at the
    same offset of a packet and the stored names agree. *)
Definition trips {T} (put : T -> Offsets -> Z -> mio (list Z * Offsets)) (get : list Z -> Z -> Z -> Compressed -> Z -> mio (T * Z * Compressed))
  (x y : T) : Prop :=
  forall o off, 0 <= off -> exists bs o', put x o off = Ok (bs, o') /\ 0 < zlen bs /\
  forall D, agree o D off -> off + zlen bs <= 16384 -> exists D', agree o' D' (off + zlen bs) /\
  forall buf p bufsize, holds buf p bufsize bs -> get buf p bufsize D off = Ok (y, zlen bs, D').

Definition question_ok (q : MDNSQuestion) : Prop := name_ok (m_qName q) /\ u16 (m_qType q) /\ u16 (m_qClass q).

Lemma Question_trips q : question_ok q -> trips Question_Serialize Question_Deserialize q q.
Proof.
  intros (Hn & Ht & Hc) o off Hoff. destruct (DomainName_trip _ Hn off o Hoff) as (bs & o' & Hp & Hl & H).
  unfold Question_Serialize. rewrite Hp. cbn [rbind]. eexists _, _. split; [reflexivity|]. split; [lengths|].
  intros D Ho H14. rewrite length_app in H14. destruct (H D Ho ltac:(lia)) as (D' & HD & Hr). exists D'. split.
  { eapply agree_later; [exact HD|]. rewrite length_app. lia. }
  intros buf p bufsize Hh. pose proof (proj2 Hh) as Hlen. apply holds_app in Hh as [Hh1 Hh2]. unfold Question_Deserialize.
  rewrite (Hr _ _ _ Hh1). cbn [rbind]. rewrite length_app in Hlen. change (length (be16 (m_qType q) ++ be16 (m_qClass q))) with 4%nat in *.
  destruct (Z.geb_spec (zlen bs) bufsize); [lia|]. destruct (Z.eqb_spec (zlen bs) 0); [lia|]. destruct (Z.ltb_spec (bufsize - zlen bs) 4); [lia|].
  cbn [orb]. rewrite (holds_rd _ _ _ _ 4 Hh2) by done. cbn [rbind]. do 3 f_equal.
  - destruct q as [qn qt qc]. cbn [m_qName m_qType m_qClass] in *. f_equal; [exact (from_be16_be16 qt Ht)|exact (from_be16_be16 qc Hc)].
  - rewrite length_app. cbn [length be16 app]. lia.
Qed.

(** * Text records *)

Lemma Compare_irrefl a : Compare a a = false.
Proof. unfold Compare. destruct (find_last_of 95 a); [apply Z.ltb_irrefl|]. induction a as [|x a IH]; [done|]. cbn [lex_lt]. by rewrite Z.ltb_irrefl, Z.eqb_refl, IH. Qed.

Lemma orderly_incl ks ks' : orderly ks = true -> (forall k, In k ks' -> In k ks) -> orderly ks' = true.
Proof.
  unfold orderly. rewrite !forallb_forall. intros H Hi a Ha. specialize (H a (Hi a Ha)). rewrite forallb_forall in *.
  intros b Hb. specialize (H b (Hi b Hb)). rewrite forallb_forall in *. intros c Hc. exact (H c (Hi c Hc)).
Qed.

Lemma orderly_trans ks a b c : orderly ks = true -> In a ks -> In b ks -> In c ks -> Compare a b = true -> Compare b c = true -> Compare a c = true.
Proof.
  unfold orderly. rewrite forallb_forall. intros H Ha Hb Hc H1 H2. specialize (H a Ha). rewrite forallb_forall in H. specialize (H b Hb).
  rewrite forallb_forall in H. specialize (H c Hc). apply andb_true_iff in H as [H _]. by rewrite H1, H2 in H.
Qed.

Lemma orderly_asym ks a b : orderly ks = true -> In a ks -> In b ks -> Compare a b = true -> Compare b a = false.
Proof.
  intros Ho Ha Hb H. destruct (Compare b a) eqn:E; [|done]. pose proof (orderly_trans ks a b a Ho Ha Hb Ha H E) as H'. by rewrite Compare_irrefl in H'.
Qed.

Definition in_order (m : Fields) : Prop := StronglySorted (fun a b => Compare a.1 b.1 = true) m /\ orderly (map fst m) = true.

Lemma assign_mid m1 m2 k v : Forall (fun e => Compare e.1 k = true) m1 ->
  (forall e, head m2 = Some e -> Compare e.1 k = false /\ Compare k e.1 = true) -> assign (m1 ++ m2) k v = m1 ++ (k, v) :: m2.
Proof.
  intros H1 H2. induction H1 as [|[k' v'] m1 Hk _ IH]; cbn [app assign fst] in *; [|by rewrite Hk, IH].
  destruct m2 as [|[k' v'] m2]; [done|]. cbn [assign]. destruct (H2 _ eq_refl) as [E1 E2]. cbn [fst] in *. by rewrite E1, E2.
Qed.

Lemma position_at m1 k v m2 : Forall (fun e => Compare e.1 k = true) m1 -> position (m1 ++ (k, v) :: m2) k = Some (length m1).
Proof. induction 1 as [|[k' v'] m1 Hk _ IH]; cbn [app position fst] in *; [by rewrite Compare_irrefl|by rewrite Hk, IH]. Qed.

Lemma in_order_before m1 e m2 : in_order (m1 ++ e :: m2) -> Forall (fun e' => Compare e'.1 e.1 = true) m1.
Proof. intros [Hs _]. apply StronglySorted_app in Hs as (H & _ & _). apply Forall_forall. intros x Hx. apply H; [done|left]. Qed.

(** Entries that belong between those of the map go there one after the other. *)
Lemma assign_all l : forall m1 m2, in_order (m1 ++ l ++ m2) ->
  foldl (fun m e => assign m e.1 e.2) (m1 ++ m2) l = m1 ++ l ++ m2.
Proof.
  induction l as [|[k v] l IH]; intros m1 m2 Ho; [done|]. cbn [foldl fst snd].
  rewrite assign_mid.
  - change (m1 ++ (k, v) :: m2) with (m1 ++ [(k, v)] ++ m2). rewrite app_assoc, IH; by rewrite <- app_assoc.
  - exact (in_order_before m1 (k, v) (l ++ m2) Ho).
  - intros e He. destruct m2 as [|e' m2]; [done|]. cbn in He. injection He as ->. pose proof Ho as Ho'.
    change (m1 ++ ((k, v) :: l) ++ e :: m2) with (m1 ++ (k, v) :: l ++ e :: m2) in Ho'. destruct Ho' as [Hs Hord].
    assert (Compare k e.1 = true) as E.
    { apply StronglySorted_app in Hs as (_ & _ & Hs). apply StronglySorted_inv in Hs as [_ Hf]. rewrite Forall_forall in Hf.
      apply (Hf e). apply elem_of_app. right. left. }
    split; [|done]. eapply orderly_asym; [exact Hord|..|exact E]; rewrite !map_app; cbn [map fst];
      apply in_or_app; right; cbn [In]; [by left|right]. rewrite map_app. apply in_or_app. right. by left.
Qed.

(** A field that fits the length byte and whose key is found again. *)
Definition field_ok (e : list Z * list Z) : Prop := zlen e.1 + 1 + zlen e.2 < 256 /\ Forall (fun c => c <> 61) e.1.

Definition text_ok (t : Text) : Prop :=
  in_order (m_fields t) /\ Forall field_ok (m_fields t) /\ In (lit "txtvers") (map fst (m_fields t)).

Lemma split_field e : field_ok e -> find_first_of 61 (e.1 ++ lit "=" ++ e.2) 0 = Some (length e.1) /\
  take (length e.1) (e.1 ++ lit "=" ++ e.2) = e.1 /\ drop (S (length e.1)) (e.1 ++ lit "=" ++ e.2) = e.2.
Proof.
  intros [_ H]. split; [|split].
  - exact (find_first_of_mid 61 [] e.1 e.2 H).
  - apply take_app_length.
  - rewrite app_assoc. apply drop_app_length'. rewrite length_app. cbn. lia.
Qed.

Lemma assign_keys m k v x : In x (map fst (assign m k v)) -> x = k \/ In x (map fst m).
Proof.
  induction m as [|[k' v'] m IH]; cbn [assign map fst In]; [intros [->|[]]; by left|].
  destruct (Compare k' k); [|destruct (Compare k k')]; cbn [map fst In].
  - intros [->|H]; [right; by left|]. destruct (IH H); [by left|right; by right].
  - intros [->|H]; [by left|by right].
  - intros [->|H]; [right; by left|right; by right].
Qed.

Lemma text_loop_fields ks buf : orderly ks = true -> forall es fuel p left m,
  Forall field_ok es -> (forall k, In k (map fst es) -> In k ks) -> (forall k, In k (map fst m) -> In k ks) ->
  zlen (concat (map text_field es)) < 65536 -> left <= Z.of_nat fuel -> holds buf p left (concat (map text_field es)) ->
  text_loop fuel buf p (zlen (concat (map text_field es))) left m = Ok (0, foldl (fun m e => assign m e.1 e.2) m es).
Proof.
  intros Hks. induction es as [|e es IH]; intros fuel p left m He Hes Hm Hlt Hf Hh.
  { cbn [map concat length foldl]. by destruct fuel. }
  apply Forall_cons in He as [He Hes']. cbn [map concat foldl] in *. set (rest := concat (map text_field es)) in *.
  destruct (split_field e He) as (Hff & Htk & Hdr). unfold text_field in Hh, Hlt |- *.
  set (str := e.1 ++ lit "=" ++ e.2) in *. assert (0 < zlen str < 256) as Hstr.
  { subst str. rewrite !length_app. destruct He as [? _]. cbn [length lit String.list_ascii_of_string map]. lia. }
  rewrite (Z.mod_small (zlen str)) in * by lia.
  pose proof (proj2 Hh) as Hlen. change ((zlen str :: str) ++ rest) with ([zlen str] ++ str ++ rest) in *.
  rewrite !length_app in Hlt, Hlen |- *. change (length [zlen str]) with 1%nat in *.
  apply holds_app in Hh as [Hh1 Hh]. apply holds_app in Hh as [Hh2 Hh]. change (zlen [zlen str]) with 1 in *.
  destruct fuel as [|fuel]; [lia|]. cbn [text_loop].
  destruct (Z.gtb_spec (Z.of_nat (1 + (length str + length rest))) 0); [|lia]. destruct (Z.gtb_spec left 0); [|lia]. cbn [andb].
  rewrite (holds_rd _ _ _ _ 1 Hh1) by done. cbn [rbind nth]. destruct (Z.ltb_spec (left - 1) (zlen str)); [lia|].
  destruct (Z.eqb_spec (zlen str) 0); [lia|]. rewrite (holds_rd _ _ _ _ (Z.to_nat (zlen str)) Hh2); [|by subst str; destruct e.1|lia]. cbn [rbind].
  rewrite Hff, Htk, Hdr. unfold map_set, with_order. rewrite (orderly_incl ks).
  - cbn [rbind]. rewrite Z.mod_small by lia. replace (Z.of_nat (1 + (length str + length rest)) - (zlen str + 1)) with (zlen rest) by lia.
    apply IH; [done| | |lia|lia|].
    + intros k Hk. apply Hes. by right.
    + intros k [->|Hk]%assign_keys; [apply Hes; by left|by apply Hm].
    + done.
  - done.
  - intros k [<-|Hk]; [apply Hes; by left|by apply Hm].
Qed.

Definition text_view (uniq : Z) (t : Text) : Text := {| m_fields := m_fields t; version := TXTVERS; uniquifier := uniq |}.

Lemma Text_trip uniq t : text_ok t -> exists bs, Text_Serialize t = Ok bs /\ 0 < zlen bs /\
  (zlen bs <= 16384 -> forall buf p bufsize, holds buf p bufsize bs ->
   Text_Deserialize (no_text uniq) buf p bufsize = Ok (text_view uniq t, zlen bs)).
Proof.
  intros (Ho & Hf & Hin). apply in_map_iff in Hin as ([k v] & Hk & Hin). cbn [fst] in Hk. subst k.
  apply in_split in Hin as (m1 & m2 & Em).
  assert (map_find (m_fields t) (lit "txtvers") = Ok (Some (length m1))) as Hfind.
  { unfold map_find, with_order. rewrite (orderly_incl (map fst (m_fields t))); [|exact (proj2 Ho)|].
    - rewrite Em. f_equal. apply position_at. rewrite Em in Ho. exact (in_order_before _ _ _ Ho).
    - intros k [<-|H]; [|done]. rewrite Em, map_app. apply in_or_app. right. by left. }
  unfold Text_Serialize. rewrite Hfind. cbn [rbind]. rewrite Em, take_app_length, drop_app_length.
  set (es := ((lit "txtvers", v) :: m2) ++ m1). eexists. split; [reflexivity|]. rewrite length_app. split; [cbn [length be16]; lia|].
  intros H14 buf p bufsize Hh. pose proof (proj2 Hh) as Hlen. apply holds_app in Hh as [Hh1 Hh2]. rewrite length_app in Hlen.
  change (length (be16 _)) with 2%nat in *. change (zlen (be16 _)) with 2 in *. unfold Text_Deserialize.
  destruct (Z.ltb_spec bufsize 2); [lia|]. rewrite (holds_rd _ _ _ _ 2 Hh1) by done. cbn [rbind].
  rewrite from_be16_be16 by (unfold u16; lia). destruct (Z.ltb_spec (bufsize - 2) (zlen (concat (map text_field es)))); [lia|].
  rewrite (text_loop_fields (map fst (m_fields t)) buf (proj2 Ho)).
  - cbn [rbind]. change (negb (0 =? 0)) with false. cbn iota. do 2 f_equal; [|lia].
    unfold with_m_fields, text_view. cbn [version uniquifier no_text]. f_equal. unfold es. rewrite foldl_app. cbn [foldl fst snd no_text m_fields].
    assert (assign [(lit "txtvers", [48])] (lit "txtvers") v = [(lit "txtvers", v)]) as -> by (by vm_compute).
    rewrite Em in Ho. assert (in_order ([(lit "txtvers", v)] ++ m2)) as Ho2.
    { destruct Ho as [Hs Hr]. split; [by apply StronglySorted_app in Hs as (_ & _ & Hs)|]. eapply orderly_incl; [exact Hr|].
      intros k Hk. rewrite map_app. apply in_or_app. by right. }
    pose proof (assign_all m2 [(lit "txtvers", v)] []) as H2. rewrite !app_nil_r in H2. rewrite (H2 Ho2).
    rewrite Em. apply (assign_all m1 [] ((lit "txtvers", v) :: m2)). exact Ho.
  - rewrite Em in Hf. apply Forall_app in Hf as [H1 H2]. unfold es. by apply Forall_app.
  - intros k Hk. rewrite Em. unfold es in Hk. rewrite map_app in Hk. rewrite map_app. apply in_app_or in Hk. apply in_or_app. by destruct Hk; [right|left].
  - intros k [<-|[]]. rewrite Em, map_app. apply in_or_app. right. by left.
  - lia.
  - lia.
  - split; [exact (proj1 Hh2)|lia].
Qed.

(** * Resource records *)

Definition data_ok (rrType : Z) (d : RData) : Prop :=
  match d with
  | DefaultRData => False
  | TextRData t => (rrType = HINFO \/ rrType = TXT) /\ text_ok t
  | ARData addr => rrType = A /\ v4_text addr
  | AAAARData addr => rrType = AAAA /\ v6_text addr
  | PtrRData name => In rrType [NS; MD; MF; CNAME; MB; MG; MR; PTR] /\ name_ok name
  | SrvRData priority weight port target => rrType = SRV /\ u16 priority /\ u16 weight /\ u16 port /\ name_ok target
  end.

(** The version and the uniquifier of a text record are not sent. *)
Definition data_view (uniq : Z) (d : RData) : RData := match d with TextRData t => TextRData (text_view uniq t) | _ => d end.

Lemma Addr_trip print parse size `{!AddrCodec print parse size} addr : addr_text print size addr -> size = 4%nat \/ size = 16%nat ->
  exists a, parse addr false (Z.of_nat size) = Ok a /\ length a = size /\
  forall buf p bufsize, holds buf p bufsize (be16 (Z.of_nat size) ++ a) -> Addr_Deserialize print size buf p bufsize = Ok addr.
Proof.
  intros (a & Hl & Hb & Hp) Hs. destruct (codec_roundtrip (print := print) a Hl Hb) as (s & Hps & Hpa). rewrite Hp in Hps. injection Hps as <-.
  exists a. split; [done|]. split; [done|]. intros buf p bufsize Hh. pose proof (proj2 Hh) as Hlen. rewrite length_app in Hlen.
  apply holds_app in Hh as [Hh1 Hh2]. change (length (be16 _)) with 2%nat in Hlen. change (zlen (be16 _)) with 2 in *. unfold Addr_Deserialize.
  destruct (Z.ltb_spec bufsize (Z.of_nat size + 2)); [lia|]. rewrite (holds_rd _ _ _ _ 2 Hh1) by done. cbn [rbind].
  assert (negb (nth 0 (be16 (Z.of_nat size)) 0 =? 0) || negb (nth 1 (be16 (Z.of_nat size)) 0 =? Z.of_nat size) = false) as -> by (by destruct Hs as [-> | ->]).
  rewrite (holds_rd _ _ _ _ size Hh2); [|intros ->; destruct Hs as [-> | ->]; discriminate Hl|done]. cbn [rbind]. by rewrite Hp.
Qed.

Lemma type_in rrType l : In rrType l -> existsb (Z.eqb rrType) l = true.
Proof. intros H. apply existsb_exists. exists rrType. by rewrite Z.eqb_refl. Qed.

Section uniquifier.
Context (uniq : Z).

Lemma RData_trips rrType d : data_ok rrType d -> trips RData_Serialize (RData_Deserialize uniq rrType) d (data_view uniq d).
Proof.
  intros Hd o off Hoff. destruct d as [|t|addr|addr|name|priority weight port target]; cbn [data_ok RData_Serialize data_view] in *; [done|..].
  - destruct Hd as [Hty Ht]. destruct (Text_trip uniq t Ht) as (bs & -> & Hl & H). cbn [rbind]. exists bs, o. split; [done|]. split; [done|].
    intros D Ho H14. exists D. split; [eapply agree_later; [exact Ho|lia]|]. intros buf p bufsize Hh. unfold RData_Deserialize.
    destruct Hty as [-> | ->]; change (_ =? A) with false; cbn iota;
      [change (HINFO =? NS) with false|change (TXT =? NS) with false]; cbn; rewrite new_Text_eq; cbn [rbind];
      rewrite (H ltac:(lia) buf p bufsize Hh); done.
  - destruct Hd as [-> Ht]. destruct (Addr_trip IPv4ToString StringToIPv4 4 addr Ht (or_introl eq_refl)) as (a & Ha & Hal & H).
    change (Z.of_nat 4) with 4 in *. rewrite Ha. eexists _, _. split; [reflexivity|]. split; [lengths|].
    intros D Ho H14. exists D. split; [eapply agree_later; [exact Ho|lengths]|]. intros buf p bufsize Hh. unfold RData_Deserialize.
    rewrite Z.eqb_refl, (H _ _ _ Hh). cbn [rbind]. do 3 f_equal. lengths.
  - destruct Hd as [-> Ht]. destruct (Addr_trip IPv6ToString StringToIPv6 16 addr Ht (or_intror eq_refl)) as (a & Ha & Hal & H).
    change (Z.of_nat 16) with 16 in *. rewrite Ha. eexists _, _. split; [reflexivity|]. split; [lengths|].
    intros D Ho H14. exists D. split; [eapply agree_later; [exact Ho|lengths]|]. intros buf p bufsize Hh. unfold RData_Deserialize.
    cbn. rewrite (H _ _ _ Hh). cbn [rbind]. do 3 f_equal. lengths.
  - destruct Hd as [Hty Hn]. destruct (name_trip name Hn (off + 2) o ltac:(lia)) as (bs & o' & -> & Hl & H). cbn [rbind].
    eexists _, _. split; [reflexivity|]. split; [lengths|]. intros D Ho H14. assert (off + 2 + zlen bs <= 16384) as H14' by (revert H14; lengths).
    destruct (H D ltac:(eapply agree_later; [exact Ho|lia]) ltac:(lia)) as (D' & HD & Hr). exists D'. split; [eapply agree_later; [exact HD|lengths]|].
    intros buf p bufsize Hh. assert (RData_Deserialize uniq rrType buf p bufsize D off = Ptr_Deserialize buf p bufsize D off) as ->.
    { cbn [In] in Hty. unfold RData_Deserialize. destruct Hty as [<-|[<-|[<-|[<-|[<-|[<-|[<-|[<-|[]]]]]]]]]; reflexivity. }
    pose proof (proj2 Hh) as Hlen. rewrite length_app in Hlen. change (length (be16 _)) with 2%nat in Hlen.
    apply holds_app in Hh as [Hh1 Hh2]. change (zlen (be16 _)) with 2 in *. unfold Ptr_Deserialize.
    destruct (Z.ltb_spec bufsize 2); [lia|]. rewrite (holds_rd _ _ _ _ 2 Hh1) by done. cbn [rbind].
    rewrite from_be16_be16 by (unfold u16; lia). destruct (Z.ltb_spec (bufsize - 2) (zlen bs)); [lia|].
    destruct (Hr buf p 2 (bufsize - 2) (Z.to_nat bufsize) ltac:(lia) ltac:(lia) Hh2) as (starts & Hloop & Hrem).
    replace (off + 2 - 2) with off in Hloop by lia. rewrite Hloop. cbn [rbind]. destruct (Z.eqb_spec (2 + zlen bs) 0); [lia|].
    replace (2 + off) with (off + 2) by lia. rewrite Hrem. cbn [rbind]. do 3 f_equal. lengths.
  - destruct Hd as (-> & Hpr & Hw & Hpo & Hn). destruct (DomainName_trip target Hn (off + 8) o ltac:(lia)) as (bs & o' & -> & Hl & H). cbn [rbind].
    eexists _, _. split; [reflexivity|]. split; [lengths|]. intros D Ho H14. assert (off + 8 + zlen bs <= 16384) as H14' by (revert H14; lengths).
    destruct (H D ltac:(eapply agree_later; [exact Ho|lia]) ltac:(lia)) as (D' & HD & Hr). exists D'. split; [eapply agree_later; [exact HD|lengths]|].
    intros buf p bufsize Hh. change (RData_Deserialize uniq SRV buf p bufsize D off) with (Srv_Deserialize buf p bufsize D off).
    replace (be16 priority ++ be16 weight ++ be16 port ++ bs) with ((be16 priority ++ be16 weight ++ be16 port) ++ bs) in Hh by done.
    pose proof (proj2 Hh) as Hlen. rewrite !length_app in Hlen. do 4 change (length (be16 _)) with 2%nat in Hlen.
    apply holds_app in Hh as [Hh1 Hh2]. apply holds_app in Hh2 as [Hh2 Hh3].
    change (zlen (be16 (6 + zlen bs))) with 2 in *. change (zlen (be16 priority ++ be16 weight ++ be16 port)) with 6 in *. unfold Srv_Deserialize.
    destruct (Z.ltb_spec bufsize 2); [lia|]. rewrite (holds_rd _ _ _ _ 2 Hh1) by done. cbn [rbind].
    rewrite from_be16_be16 by (unfold u16; lia). destruct (Z.ltb_spec (bufsize - 2) (6 + zlen bs)); [lia|]. destruct (Z.ltb_spec (6 + zlen bs) 6); [lia|].
    cbn [orb]. rewrite (holds_rd _ _ _ _ 6 Hh2) by done. cbn [rbind].
    replace (p + 2 + 6) with (p + 8) in Hh3 by lia. replace (bufsize - 2 - 6) with (bufsize - 8) in Hh3 by lia. rewrite (Hr _ _ _ Hh3). cbn [rbind].
    do 3 f_equal; [f_equal|lengths].
    + exact (from_be16_be16 priority Hpr).
    + exact (from_be16_be16 weight Hw).
    + exact (from_be16_be16 port Hpo).
Qed.

Definition record_ok (r : MDNSResourceRecord) : Prop :=
  name_ok (m_rrDomainName r) /\ u16 (m_rrType r) /\ u16 (m_rrClass r) /\ 0 <= m_rrTTL r < 2 ^ 32 /\
  match m_rdata r with Some d => data_ok (m_rrType r) d | None => False end.

Definition record_view (r : MDNSResourceRecord) : MDNSResourceRecord :=
  {| m_rrDomainName := m_rrDomainName r; m_rrType := m_rrType r; m_rrClass := m_rrClass r; m_rrTTL := m_rrTTL r;
     m_rdata := option_map (data_view uniq) (m_rdata r) |}.

Lemma from_be32_be32 v : 0 <= v < 2 ^ 32 -> from_be32 (be32 v) = v.
Proof.
  intros Hv. unfold from_be32, be32. change (drop 2 (be16 (Z.shiftr v 16) ++ be16 v)) with (be16 v).
  change (from_be16 (be16 (Z.shiftr v 16) ++ be16 v)) with (from_be16 (be16 (Z.shiftr v 16))).
  assert (from_be16 (be16 v) = v mod 65536) as ->.
  { rewrite <- (from_be16_be16 (v mod 65536)) by (unfold u16; apply Z.mod_pos_bound; lia). f_equal. unfold be16.
    change 65536 with (2 ^ 16). rewrite <- Z.land_ones, <- Z.land_assoc, Z.shiftr_land, <- Z.land_assoc by lia. done. }
  rewrite Z.shiftr_div_pow2 by lia. change (2 ^ 16) with 65536.
  assert (0 <= v / 65536 < 65536) by (split; [apply Z.div_pos; lia|apply Z.div_lt_upper_bound; lia]).
  rewrite from_be16_be16 by done. rewrite Z.shiftl_mul_pow2 by lia. rewrite Z.lor_comm.
  pose proof (Z.mod_pos_bound v 65536 ltac:(lia)). change (v mod 65536) with (v mod 2 ^ 16). rewrite lor_disjoint by (try apply Z.mod_pos_bound; lia).
  change (2 ^ 16) with 65536. pose proof (Z.div_mod v 65536 ltac:(lia)). lia.
Qed.

Lemma Record_trips r : record_ok r -> trips Record_Serialize (Record_Deserialize uniq) r (record_view r).
Proof.
  intros (Hn & Hty & Hc & Httl & Hd) o off Hoff. unfold Record_Serialize. destruct (m_rdata r) as [d|] eqn:Ed; [|done].
  destruct (DomainName_trip _ Hn off o Hoff) as (nm & o1 & -> & Hl & H). cbn [rbind].
  destruct (RData_trips (m_rrType r) d Hd o1 (off + zlen nm + 8) ltac:(lia)) as (bs & o2 & -> & Hl2 & H2). cbn [rbind].
  eexists _, _. split; [reflexivity|]. split; [lengths|]. intros D Ho H14.
  assert (off + zlen nm + 8 + zlen bs <= 16384) as H14' by (revert H14; lengths).
  destruct (H D Ho ltac:(lia)) as (D1 & HD1 & Hr1). destruct (H2 D1 ltac:(eapply agree_later; [exact HD1|lia]) ltac:(lia)) as (D2 & HD2 & Hr2).
  exists D2. split; [eapply agree_later; [exact HD2|lengths]|]. intros buf p bufsize Hh.
  set (fixed := be16 (m_rrType r) ++ be16 (m_rrClass r) ++ be32 (m_rrTTL r)).
  replace (be16 (m_rrType r) ++ be16 (m_rrClass r) ++ be32 (m_rrTTL r) ++ bs) with (fixed ++ bs) in * by (unfold fixed; by rewrite <- !app_assoc).
  pose proof (proj2 Hh) as Hlen. rewrite !length_app in Hlen. change (length fixed) with 8%nat in Hlen.
  apply holds_app in Hh as [Hh1 Hh]. apply holds_app in Hh as [Hh2 Hh3]. change (zlen fixed) with 8 in Hh3. unfold Record_Deserialize.
  rewrite (Hr1 _ _ _ Hh1). cbn [rbind]. destruct (Z.eqb_spec (zlen nm) 0); [lia|]. destruct (Z.ltb_spec bufsize 8); [lia|]. cbn [orb].
  destruct (Z.gtb_spec (zlen nm) bufsize); [lia|]. destruct (Z.gtb_spec (zlen nm + 8) bufsize); [lia|]. cbn [orb].
  rewrite (holds_rd _ _ _ _ 8 Hh2) by done. cbn [rbind]. change (from_be16 fixed) with (from_be16 (be16 (m_rrType r))).
  rewrite (from_be16_be16 _ Hty). replace (bufsize - (zlen nm + 8)) with (bufsize - zlen nm - 8) by lia. rewrite !Z.add_assoc.
  rewrite (Hr2 _ _ _ Hh3). cbn [rbind]. destruct (Z.eqb_spec (zlen bs) 0); [lia|]. do 3 f_equal; [|rewrite !length_app; change (length fixed) with 8%nat; lia].
  unfold record_view. rewrite Ed. cbn [option_map]. f_equal; [exact (from_be16_be16 _ Hc)|exact (from_be32_be32 _ Httl)].
Qed.

(** * Packets *)

Lemma all_trips {T} put get (l l' : list T) : Forall2 (trips put get) l l' -> forall o off, 0 <= off ->
  exists bs o', put_all put l o off = Ok (bs, o') /\ (l <> [] -> 0 < zlen bs) /\
  forall D, agree o D off -> off + zlen bs <= 16384 -> exists D', agree o' D' (off + zlen bs) /\
  forall buf p bufsize, holds buf p bufsize bs -> get_all get (length l) buf p bufsize D off = Ok (l', zlen bs, D').
Proof.
  induction 1 as [|x y l l' Hx _ IH]; intros o off Hoff; cbn [put_all get_all length].
  - eexists _, _. split; [reflexivity|]. split; [done|]. intros D Ho _. exists D. split; [by rewrite Z.add_0_r|done].
  - destruct (Hx o off Hoff) as (b & o1 & -> & Hl & H). cbn [rbind]. destruct (IH o1 (off + zlen b) ltac:(lia)) as (bs & o2 & -> & _ & H2). cbn [rbind].
    eexists _, _. split; [reflexivity|]. rewrite length_app. split; [lia|]. intros D Ho H14. destruct (H D Ho ltac:(lia)) as (D1 & HD1 & Hr1).
    destruct (H2 D1 HD1 ltac:(lia)) as (D2 & HD2 & Hr2). exists D2. split; [by rewrite Nat2Z.inj_add, Z.add_assoc|]. intros buf p bufsize Hh.
    pose proof (proj2 Hh) as Hlen. rewrite length_app in Hlen. apply holds_app in Hh as [Hh1 Hh2]. rewrite (Hr1 _ _ _ Hh1). cbn [rbind].
    destruct (Z.eqb_spec (zlen b) 0); [lia|]. destruct (Z.gtb_spec (zlen b) bufsize); [lia|]. cbn [orb]. rewrite (Hr2 _ _ _ Hh2). cbn [rbind].
    do 3 f_equal. lia.
Qed.

Definition header_ok (x : MDNSPacket) : Prop :=
  let h := m_header x in
  u16 (m_queryId h) /\ 0 <= m_rCode h < 16 /\ (m_qdCount h = zlen (m_questions x) /\ m_qdCount h < 256) /\ (m_anCount h = zlen (m_answers x) /\ m_anCount h < 256) /\
  (m_nsCount h = zlen (m_authority x) /\ m_nsCount h < 65536) /\ (m_arCount h = zlen (m_additional x) /\ m_arCount h < 65536).

(** A query has a question, and a response a part. *)
Definition packet_ok (x : MDNSPacket) : Prop :=
  header_ok x /\ (m_qrType (m_header x) = MDNS_QUERY -> m_questions x <> []) /\
  (m_questions x <> [] \/ m_answers x <> [] \/ m_authority x <> [] \/ m_additional x <> []) /\
  Forall question_ok (m_questions x) /\ Forall record_ok (m_answers x) /\ Forall record_ok (m_authority x) /\ Forall record_ok (m_additional x).

Definition packet_view (x0 x : MDNSPacket) : MDNSPacket :=
  let h := m_header x in
  {| m_header := {| m_queryId := m_queryId h; m_qrType := m_qrType h; m_authAnswer := m_authAnswer (m_header x0); m_rCode := m_rCode h;
                    m_qdCount := m_qdCount h; m_anCount := m_anCount h; m_nsCount := m_nsCount h; m_arCount := m_arCount h |};
     m_questions := m_questions x; m_answers := map record_view (m_answers x); m_authority := map record_view (m_authority x);
     m_additional := map record_view (m_additional x) |}.

Lemma records_trip l : Forall record_ok l -> Forall2 (trips Record_Serialize (Record_Deserialize uniq)) l (map record_view l).
Proof. induction 1; constructor; [by apply Record_trips|done]. Qed.

Lemma questions_trip l : Forall question_ok l -> Forall2 (trips Question_Serialize Question_Deserialize) l l.
Proof. induction 1; constructor; [by apply Question_trips|done]. Qed.

Lemma Header_trip x x0 buf bufsize : header_ok x -> holds buf 0 bufsize (Header_Serialize (m_header x)) ->
  Header_Deserialize (m_header x0) buf 0 bufsize = Ok (m_header (packet_view x0 x)).
Proof.
  intros (Hid & Hrc & [Hq Hq'] & [Ha Ha'] & [Hn Hn'] & [Hr Hr']) Hh. pose proof (proj2 Hh) as Hlen. unfold Header_Deserialize.
  change (length (Header_Serialize (m_header x))) with 12%nat in Hlen. destruct (Z.ltb_spec bufsize 12); [lia|].
  rewrite (holds_rd _ _ _ _ 12 Hh) by done. cbn [rbind]. unfold packet_view. cbn [m_header]. f_equal. f_equal.
  - exact (from_be16_be16 _ Hid).
  - unfold Header_Serialize. by destruct (m_qrType (m_header x)).
  - change (nth 3 (Header_Serialize (m_header x)) 0) with (m_rCode (m_header x)). change 15 with (Z.ones 4). rewrite Z.land_ones by lia. by apply Z.mod_small.
  - change (nth 5 (Header_Serialize (m_header x)) 0) with (m_qdCount (m_header x) mod 256). apply Z.mod_small. lia.
  - change (from_be16 _) with (Z.lor (Z.shiftl 0 8) (Z.land (m_anCount (m_header x) mod 256) 255)).
    change 255 with (Z.ones 8). rewrite Z.land_ones, Z.shiftl_0_l, Z.lor_0_l by lia. change (2 ^ 8) with 256. rewrite (Z.mod_small (m_anCount (m_header x))) by lia. apply Z.mod_small. lia.
  - apply (from_be16_be16 (m_nsCount (m_header x))). unfold u16. lia.
  - apply (from_be16_be16 (m_arCount (m_header x))). unfold u16. lia.
Qed.

(** C17: A packet of legal names, texts, addresses and counts is written, and if that takes
    no more than 16384 bytes, which is as far as pointers reach, a receiver that finds the
    bytes at the start of a datagram reads the same packet, with every compressed name in
    full, and takes exactly these bytes. *)
Theorem MDNSPacket_roundtrip x x0 :
  packet_ok x -> exists bs, Packet_Serialize x = Ok bs /\
    forall rest, zlen bs <= 16384 ->
    Packet_Deserialize uniq x0 (bs ++ rest) (zlen (bs ++ rest)) = Ok (packet_view x0 x, zlen bs).
Proof.
  intros (Hh & Hquery & Hsome & Hqs & Hans & Hauth & Hadd). unfold Packet_Serialize. set (h := Header_Serialize (m_header x)).
  destruct (all_trips _ _ _ _ (questions_trip _ Hqs) ∅ (zlen h) ltac:(lia)) as (q & o1 & -> & Hq0 & Hq). cbn [rbind].
  destruct (all_trips _ _ _ _ (records_trip _ Hans) o1 (zlen (h ++ q)) ltac:(lia)) as (a & o2 & -> & Ha0 & Ha). cbn [rbind].
  destruct (all_trips _ _ _ _ (records_trip _ Hauth) o2 (zlen (h ++ q ++ a)) ltac:(lia)) as (n & o3 & -> & Hn0 & Hn). cbn [rbind].
  destruct (all_trips _ _ _ _ (records_trip _ Hadd) o3 (zlen (h ++ q ++ a ++ n)) ltac:(lia)) as (r & o4 & -> & Hr0 & Hr). cbn [rbind].
  eexists. split; [reflexivity|]. intros rest H14. set (bs := h ++ q ++ a ++ n ++ r) in *.
  rewrite length_app in Ha. rewrite !length_app in Hn. rewrite !length_app in Hr. change (length h) with 12%nat in *.
  assert (zlen bs = 12 + zlen q + zlen a + zlen n + zlen r) as Hbs by (unfold bs; rewrite !length_app; change (length h) with 12%nat; lia).
  destruct (Hq ∅ ltac:(by intros ? ? ?) ltac:(lia)) as (D1 & HD1 & Hr1).
  destruct (Ha D1 ltac:(eapply agree_later; [exact HD1|lia]) ltac:(lia)) as (D2 & HD2 & Hr2).
  destruct (Hn D2 ltac:(eapply agree_later; [exact HD2|lia]) ltac:(lia)) as (D3 & HD3 & Hr3).
  destruct (Hr D3 ltac:(eapply agree_later; [exact HD3|lia]) ltac:(lia)) as (D4 & _ & Hr4).
  set (buf := bs ++ rest). set (size := zlen buf). assert (holds buf 0 size bs) as Hb.
  { split; [exact (has_at_whole [] bs rest)|]. unfold size, buf. rewrite length_app. lia. }
  assert (zlen bs <= size) as Hsz by exact (proj2 Hb).
  unfold bs in Hb. apply holds_app in Hb as [B0 Hb]. apply holds_app in Hb as [B1 Hb]. apply holds_app in Hb as [B2 Hb]. apply holds_app in Hb as [B3 B4].
  change (zlen h) with 12 in *. rewrite Z.add_0_l in *. unfold Packet_Deserialize. rewrite (Header_trip x x0 buf size Hh B0). cbn [rbind].
  destruct Hh as (_ & _ & [Cq _] & [Ca _] & [Cn _] & [Cr _]). cbn [packet_view m_header m_qrType m_qdCount m_anCount m_nsCount m_arCount].
  assert (bool_decide (m_qrType (m_header x) = MDNS_QUERY) && (m_qdCount (m_header x) =? 0) = false) as ->.
  { case_bool_decide as E; [|done]. cbn [andb]. apply Z.eqb_neq. rewrite Cq. specialize (Hquery E). destruct (m_questions x); [done|]. cbn [length]. lia. }
  destruct (Z.geb_spec 12 size); [destruct Hsome as [Hs|[Hs|[Hs|Hs]]]; [specialize (Hq0 Hs)|specialize (Ha0 Hs)|specialize (Hn0 Hs)|specialize (Hr0 Hs)]; lia|].
  rewrite Cq, Ca, Cn, Cr, !Nat2Z.id. change (Z.of_nat 12) with 12 in *.
  rewrite (Hr1 _ _ _ B1). cbn [rbind].
  replace (Z.of_nat (12 + length q)) with (12 + zlen q) in Hr2 by lia. rewrite (Hr2 _ _ _ B2). cbn [rbind].
  replace (Z.of_nat (12 + (length q + length a))) with (12 + zlen q + zlen a) in Hr3 by lia. rewrite (Hr3 _ _ _ B3). cbn [rbind].
  replace (Z.of_nat (12 + (length q + (length a + length n)))) with (12 + zlen q + zlen a + zlen n) in Hr4 by lia. rewrite (Hr4 _ _ _ B4). cbn [rbind].
  rewrite Hbs. unfold packet_view. by rewrite Cq, Ca, Cn, Cr.
Qed.
End uniquifier.

(** * A run *)

#[export] Instance label_ok_dec l : Decision (label_ok l).
Proof. unfold label_ok. apply _. Defined.
#[export] Instance field_ok_dec e : Decision (field_ok e).
Proof. unfold field_ok. apply _. Defined.

Ltac labels ls := exists ls; split; [apply (bool_decide_unpack _); vm_compute; exact I|reflexivity].
Ltac word := vm_compute; split; [discriminate|reflexivity].

Definition _tcp_local : list (list Z) := [lit "_tcp"; lit "local"].

Lemma search_text_ok : text_ok search_text.
Proof.
  split; [|split].
  - split; [|vm_compute; reflexivity]. repeat (constructor; [|repeat (constructor; [vm_compute; reflexivity|]); constructor]). constructor.
  - apply (bool_decide_unpack _). vm_compute. exact I.
  - right. right. left. reflexivity.
Qed.

Lemma sample_response_ok : packet_ok sample_response.
Proof.
  assert (name_ok (lit "guid.local.")) as Hguid by labels [lit "guid"; lit "local"].
  assert (name_ok (lit "_alljoyn._tcp.local.")) as Htcp by labels (lit "_alljoyn" :: _tcp_local).
  assert (name_ok (lit "guid._alljoyn._tcp.local.")) as Hsrv by labels (lit "guid" :: lit "_alljoyn" :: _tcp_local).
  assert (name_ok (lit "search.guid.local.")) as Hsearch by labels [lit "search"; lit "guid"; lit "local"].
  split; [|split; [|split; [|split; [|split; [|split]]]]].
  - repeat split; vm_compute; discriminate.
  - discriminate.
  - left. discriminate.
  - apply Forall_cons; split; [|constructor]. split; [exact Htcp|]. split; word.
  - apply Forall_cons; split; [|apply Forall_cons; split; [|constructor]].
    + split; [exact Htcp|]. split; [word|]. split; [word|]. split; [word|]. split; [do 7 right; by left|exact Hsrv].
    + split; [exact Hsrv|]. split; [word|]. split; [word|]. split; [word|]. split; [done|]. split; [word|]. split; [word|]. split; [word|exact Hguid].
  - constructor.
  - apply Forall_cons; split; [|apply Forall_cons; split; [|constructor]].
    + split; [exact Hsearch|]. split; [word|]. split; [word|]. split; [word|]. split; [by right|exact search_text_ok].
    + split; [exact Hguid|]. split; [word|]. split; [word|]. split; [word|]. split; [done|]. exists [10; 0; 0; 1].
      split; [done|]. split; [apply (bool_decide_unpack _); exact I|vm_compute; reflexivity].
Qed.

(** A response with every kind of data but an IPv6 address. *)
Lemma MDNSPacket_roundtrip_witness :
  exists bs, Packet_Serialize sample_response = Ok bs /\ zlen bs = 141 /\
    Packet_Deserialize 1 no_packet (bs ++ [7; 7]) (zlen (bs ++ [7; 7])) = Ok (packet_view 1 no_packet sample_response, zlen bs).
Proof.
  destruct (MDNSPacket_roundtrip 1 sample_response no_packet sample_response_ok) as (bs & Hbs & H). exists bs.
  assert (zlen bs = 141) as Hl.
  { assert ((let! b := Packet_Serialize sample_response in Ok (zlen b)) = Ok 141) as E by (vm_compute; reflexivity). rewrite Hbs in E. by injection E. }
  split; [exact Hbs|]. split; [exact Hl|]. apply H. rewrite Hl. vm_compute. discriminate.
Defined.
