(* ===== verification/MdnsText.v ===== *)
(** The text record of an advertisement is a list of names behind a transport: its keys
    carry a number each, by which Compare keeps them in the order they were added. *)
From Stdlib Require Import Sorted.
From stdpp Require Import strings gmap sorting.
From S2P Require Import Prelude Types BusUtil BusUtilProofs IPAddress StringUtil Mdns MdnsRoundtrip.
Import Mdns.

(** * Numbers as text *)

Lemma number_text n base : 2 <= base <= 16 -> 0 <= n < 2 ^ 32 ->
  exists ds, number n base = Ok ds /\ Forall (fun c => c <> 95) ds /\
    forall base', base' = base \/ base' = 0 /\ base = 10 -> StringToU32 ds base' 0 = n.
Proof.
  intros Hb Hn. destruct (digit_loop_text base (digit_fuel n) n []) as (ds & Hds & Ht);
    [done|unfold digit_fuel; lia|split; [lia|apply digit_fuel_enough; lia]|].
  rewrite app_nil_r in Hds. exists ds. pose proof Ht as (Hne & Hc & _). split; [|split].
  - unfold number, U32ToString, UToString. cbn [Nat.eqb pred fill_loop rbind].
    assert ((0 <? base) && (base <=? 16) = true) as -> by lia. rewrite Hds. cbn [rbind app]. by destruct ds.
  - eapply Forall_impl; [exact Hc|]. intros c Hlt ->. change (CharToU8 95) with 255 in Hlt. lia.
  - intros base' Hbase. apply (StringToU_text 32 base base' 0 n 0 32 ds); (done || lia).
Qed.

Definition digits (n : Z) : list Z := match number n 10 with Ok ds => ds | _ => [] end.

Lemma digits_spec n : 0 <= n < 2 ^ 32 ->
  number n 10 = Ok (digits n) /\ Forall (fun c => c <> 95) (digits n) /\ StringToU32 (digits n) 0 0 = n.
Proof.
  intros Hn. destruct (number_text n 10) as (ds & Hds & Hc & Hr); [lia|done|]. unfold digits. rewrite Hds. split; [done|]. split; [done|].
  apply Hr. by right.
Qed.

(** * Numbered keys *)

(** A field: its letter, its number and its value. *)
Abbreviation Numbered := (Z * Z * list Z)%type.
Definition ukey (c n : Z) : list Z := [c] ++ lit "_" ++ digits n.
Definition fld (e : Numbered) : list Z * list Z := (ukey e.1.1 e.1.2, e.2).

Definition txtvers : list Z := lit "txtvers".

(** The letters of names and transports, and numbers that fit sixteen bits. *)
Definition numbered_ok (e : Numbered) : Prop := 0 <= e.1.1 <= 116 /\ 0 < e.1.2 < 65536.

Lemma find_last_none c s : Forall (fun d => d <> c) s -> find_last_of c s = None.
Proof. induction 1 as [|x s Hx _ IH]; [done|]. cbn [find_last_of]. rewrite IH. by rewrite (proj2 (Z.eqb_neq x c)). Qed.

Lemma ukey_last c n : 0 <= n < 2 ^ 32 -> find_last_of 95 (ukey c n) = Some 1%nat /\ drop 2 (ukey c n) = digits n.
Proof.
  intros Hn. destruct (digits_spec n Hn) as (_ & Hc & _). split; [|done]. unfold ukey. cbn [lit String.list_ascii_of_string map app find_last_of].
  rewrite (find_last_none 95 (digits n) Hc). change (Z.of_nat (Ascii.nat_of_ascii (Ascii.ascii_of_nat 95)) =? 95) with true. cbn iota. done.
Qed.

(** Where a key stands: by its number, txtvers behind them all. *)
Definition rank (k : list Z) : Z := if bool_decide (k = txtvers) then 65536 else StringToU32 (drop 2 k) 0 0.

Definition plain_key (k : list Z) : Prop := k = txtvers \/ exists c n, k = ukey c n /\ 0 <= c <= 116 /\ 0 < n < 65536.

Lemma ukey_txtvers c n : ukey c n <> txtvers.
Proof. unfold ukey. intros H. injection H as _ H. discriminate H. Qed.

Lemma rank_ukey c n : 0 < n < 65536 -> rank (ukey c n) = n.
Proof.
  intros Hn. unfold rank. rewrite bool_decide_false by apply ukey_txtvers. destruct (ukey_last c n) as [_ ->]; [lia|]. apply digits_spec. lia.
Qed.

Lemma txtvers_codes : txtvers = [116; 120; 116; 118; 101; 114; 115].
Proof. vm_compute. reflexivity. Qed.

Lemma txtvers_last : find_last_of 95 txtvers = None.
Proof. vm_compute. reflexivity. Qed.

Lemma rank_txtvers : rank txtvers = 65536.
Proof. vm_compute. reflexivity. Qed.

Lemma Compare_rank a b : plain_key a -> plain_key b -> Compare a b = (rank a <? rank b).
Proof.
  intros [->|(c & n & -> & Hc & Hn)] [->|(c' & n' & -> & Hc' & Hn')]; unfold Compare; rewrite ?txtvers_last, ?rank_txtvers, ?rank_ukey by done.
  - vm_compute. reflexivity.
  - rewrite (proj2 (Z.ltb_ge 65536 n')) by lia. rewrite txtvers_codes. change (ukey c' n') with (c' :: 95 :: digits n'). cbn [lex_lt].
    destruct (Z.ltb_spec 116 c'); [lia|]. by destruct (Z.eqb_spec 116 c').
  - rewrite (proj2 (Z.ltb_lt n 65536)) by lia. destruct (ukey_last c n) as [-> _]; [lia|]. rewrite txtvers_codes.
    change (ukey c n) with (c :: 95 :: digits n). cbn [lex_lt]. destruct (Z.ltb_spec c 116); [done|]. by destruct (Z.eqb_spec c 116); [|lia].
  - destruct (ukey_last c n) as [-> ->]; [lia|]. destruct (ukey_last c' n') as [-> ->]; [lia|].
    destruct (digits_spec n) as (_ & _ & ->); [lia|]. destruct (digits_spec n') as (_ & _ & ->); [lia|]. done.
Qed.

Lemma orderly_plain ks : Forall plain_key ks -> orderly ks = true.
Proof.
  intros H. rewrite Forall_forall in H. unfold orderly, undecided. apply forallb_forall. intros a Ha. apply forallb_forall. intros b Hb. apply forallb_forall. intros c Hc.
  apply list_elem_of_In in Ha, Hb, Hc. rewrite !Compare_rank by auto.
  destruct (Z.ltb_spec (rank a) (rank b)), (Z.ltb_spec (rank b) (rank a)), (Z.ltb_spec (rank b) (rank c)), (Z.ltb_spec (rank c) (rank b)),
    (Z.ltb_spec (rank a) (rank c)), (Z.ltb_spec (rank c) (rank a)); try reflexivity; lia.
Qed.

(** * Records of numbered fields *)

Definition record (l : list Numbered) (v : list Z) : Fields := map fld l ++ [(txtvers, v)].

Definition ascending (l : list Numbered) : Prop := StronglySorted (fun a b => a.1.2 < b.1.2) l.

Lemma record_keys l v : Forall numbered_ok l -> Forall plain_key (map fst (record l v)).
Proof.
  intros H. unfold record. rewrite map_app. apply Forall_app. split; [|by constructor; [left|constructor]].
  induction H as [|[[c n] w] l [Hc Hn] _ IH]; constructor; [right; by exists c, n|done].
Qed.

Lemma fld_plain e : numbered_ok e -> plain_key (fld e).1.
Proof. destruct e as [[c n] w]. intros [Hc Hn]. right. by exists c, n. Qed.

Lemma fld_before e e' : numbered_ok e -> numbered_ok e' -> e.1.2 < e'.1.2 -> Compare (fld e).1 (fld e').1 = true.
Proof.
  intros He He' Hlt. rewrite (Compare_rank _ _ (fld_plain e He) (fld_plain e' He')). destruct He, He'. cbn [fld fst]. rewrite !rank_ukey by done. by apply Z.ltb_lt.
Qed.

Lemma fld_txtvers e : numbered_ok e -> Compare (fld e).1 txtvers = true /\ Compare txtvers (fld e).1 = false.
Proof.
  intros He. pose proof (fld_plain e He) as Hp. assert (plain_key txtvers) as Ht by (by left). rewrite (Compare_rank _ _ Hp Ht), (Compare_rank _ _ Ht Hp). destruct He. cbn [fld fst]. rewrite rank_ukey, rank_txtvers by done.
  split; [apply Z.ltb_lt; lia|apply Z.ltb_ge; lia].
Qed.

(** A field with a new number goes behind the others. *)
Lemma assign_record l v e : Forall numbered_ok l -> numbered_ok e -> Forall (fun a => a.1.2 < e.1.2) l ->
  map_set (record l v) (fld e).1 e.2 = Ok (record (l ++ [e]) v).
Proof.
  intros Hl He Hlt. unfold map_set, with_order. rewrite orderly_plain.
  2: { constructor; [by apply fld_plain|by apply record_keys]. }
  f_equal. unfold record. rewrite assign_mid.
  - rewrite map_app. cbn [map]. rewrite <- app_assoc. by destruct e.
  - apply Forall_fmap. rewrite Forall_forall in *. intros a Ha. by apply fld_before; [apply Hl| |apply Hlt].
  - intros e' [= <-]. cbn [fst]. destruct (fld_txtvers e He). done.
Qed.

(** Erasing by the key of a field removes this field. *)
Lemma erase_record l1 e l2 v : Forall numbered_ok (l1 ++ e :: l2) -> ascending (l1 ++ e :: l2) ->
  map_erase (record (l1 ++ e :: l2) v) (fld e).1 = Ok (record (l1 ++ l2) v).
Proof.
  intros Hok Hs. unfold map_erase, map_find, with_order. rewrite orderly_plain.
  2: { constructor; [|by apply record_keys]. apply Forall_app in Hok as [_ Hok]. apply Forall_cons in Hok as [He _]. by apply fld_plain. }
  cbn [rbind]. unfold record. rewrite !map_app. cbn [map]. rewrite <- !app_assoc. cbn [app]. rewrite (surjective_pairing (fld e)) at 1.
  rewrite position_at.
  - f_equal. rewrite delete_middle. done.
  - apply Forall_fmap. apply Forall_app in Hok as [H1 H2]. apply Forall_cons in H2 as [He _]. apply StronglySorted_app in Hs as (Hs & _ & _).
    rewrite Forall_forall in *. intros a Ha. apply fld_before; [by apply H1|done|apply Hs; [done|left]].
Qed.

(** * What an advertisement is for *)

(** The names that precede any transport, and the transports with their names. *)
Record Advert := { loose : list (list Z); sections : list (Z * list (list Z)) }.

Definition no_names : Advert := {| loose := []; sections := [] |}.

Fixpoint add_to_last (l : list (Z * list (list Z))) (name : list Z) : list (Z * list (list Z)) :=
  match l with
  | [] => []
  | [(tm, ns)] => [(tm, ns ++ [name])]
  | s :: l => s :: add_to_last l name
  end.

(** The first section of a transport without its name at [i]; an empty section goes. *)
Fixpoint remove_name (l : list (Z * list (list Z))) (tm : Z) (i : nat) : list (Z * list (list Z)) :=
  match l with
  | [] => []
  | (tm', ns) :: l =>
      if tm' =? tm then match delete i ns with [] => l | ns => (tm, ns) :: l end
      else (tm', ns) :: remove_name l tm i
  end.

Fixpoint names_of (l : list (Z * list (list Z))) (tm : Z) : list (list Z) :=
  match l with
  | [] => []
  | (tm', ns) :: l => if tm' =? tm then ns else names_of l tm
  end.

Inductive Op := Transport (tm : Z) | Name (name : list Z) | Remove (tm : Z) (i : nat).

Definition spec_op (a : Advert) (o : Op) : Advert :=
  match o with
  | Transport tm => {| loose := loose a; sections := sections a ++ [(tm, [])] |}
  | Name name => match sections a with
                 | [] => {| loose := loose a ++ [name]; sections := [] |}
                 | l => {| loose := loose a; sections := add_to_last l name |}
                 end
  | Remove tm i => {| loose := loose a; sections := remove_name (sections a) tm i |}
  end.

Definition run_op (t : Text) (o : Op) : mio Text :=
  match o with
  | Transport tm => SetTransport t tm
  | Name name => AddName t name
  | Remove tm i => RemoveNameAt t tm (Z.of_nat i)
  end.

Fixpoint run_ops (t : Text) (os : list Op) : mio Text :=
  match os with
  | [] => Ok t
  | o :: os => let! t := run_op t o in run_ops t os
  end.

Definition op_ok (o : Op) : Prop := match o with Transport tm => 0 <= tm < 65536 | _ => True end.

(** * How a text record says it *)

Definition hex (tm : Z) : list Z := match number tm 16 with Ok v => v | _ => [] end.

Lemma hex_text tm : 0 <= tm < 65536 -> number tm 16 = Ok (hex tm) /\ StringToU32 (hex tm) 16 0 = tm.
Proof.
  intros Hn. destruct (number_text tm 16) as (ds & Hds & _ & Hr); [lia..|]. unfold hex. rewrite Hds. split; [done|]. apply Hr. by left.
Qed.

Definition said_name (n : list Z) : Z * list Z := (110, n).
Definition said (s : Z * list (list Z)) : list (Z * list Z) := (116, hex s.1) :: map said_name s.2.
Definition said_all (a : Advert) : list (Z * list Z) := map said_name (loose a) ++ concat (map said (sections a)).

(** The letter and the value of a field. *)
Definition letter (e : Numbered) : Z * list Z := (e.1.1, e.2).

Record advertises (t : Text) (a : Advert) : Prop := {
  adv_fields : exists l v, m_fields t = record l v /\ map letter l = said_all a /\ ascending l /\ Forall (fun e => 0 < e.1.2 < uniquifier t) l;
  adv_count : 0 < uniquifier t <= 65535;
  adv_masks : Forall (fun s => 0 <= s.1 < 65536) (sections a) }.

Lemma letter_cons e l x y : map letter (e :: l) = x :: y -> letter e = x /\ map letter l = y.
Proof. intros H. by injection H as -> ->. Qed.

(** The keys of names and of transports. *)
Lemma key_kind n v e : letter e = (110, v) \/ letter e = (116, v) -> e.1.2 = n -> 0 < n < 65536 ->
  is_name (fld e) = (e.1.1 =? 110) /\ is_transport (fld e) = (e.1.1 =? 116).
Proof.
  destruct e as [[c n'] w]. cbn [fst snd]. intros Hl -> Hn. assert (c = 110 \/ c = 116) as Hc by (destruct Hl as [[= -> _]|[= -> _]]; auto).
  destruct (digits_spec n) as (_ & Hd & _); [lia|]. unfold is_name, is_transport. cbn [fld fst snd].
  assert (forall x, contains [x; 95] (digits n) = false) as Hno.
  { intros x. induction Hd as [|y ds Hy Hd IH]; [done|]. cbn [contains]. rewrite IH, orb_false_r. unfold starts_with. apply bool_decide_false.
    cbn [length take]. intros [= -> H]. destruct ds as [|z ds]; [done|]. injection H as ->. by inversion Hd. }
  change (lit "n_") with [110; 95]. change (lit "t_") with [116; 95]. change (ukey c n) with (c :: 95 :: digits n).
  assert (forall x, x <> 95 -> contains [x; 95] (c :: 95 :: digits n) = (c =? x)) as H.
  { intros x Hx. cbn [contains]. rewrite Hno. unfold starts_with. cbn [length take]. rewrite !orb_false_r.
    rewrite (bool_decide_false (95 :: take 1 (digits n) = [x; 95])) by congruence. rewrite orb_false_r.
    destruct (Z.eqb_spec c x) as [->|Hne]; [by apply bool_decide_true|apply bool_decide_false; congruence]. }
  split; apply H; lia.
Qed.

Definition ok_numbers (l : list Numbered) : Prop := Forall (fun e => 0 < e.1.2 < 65536) l.

Lemma name_field_kind e n : letter e = said_name n -> 0 < e.1.2 < 65536 -> is_name (fld e) = true /\ is_transport (fld e) = false.
Proof.
  intros He Hn. destruct (key_kind e.1.2 n e (or_introl He) eq_refl Hn) as [-> ->]. destruct e as [[c ?] ?]. by injection He as -> ->.
Qed.

Lemma transport_field e v : letter e = (116, v) -> 0 < e.1.2 < 65536 -> is_transport (fld e) = true.
Proof.
  intros He Hn. destruct (key_kind e.1.2 v e (or_intror He) eq_refl Hn) as [_ ->]. destruct e as [[c ?] ?]. by injection He as -> ->.
Qed.

Lemma said_letters a : Forall (fun x => x.1 = 110 \/ x.1 = 116) (said_all a).
Proof.
  assert (forall ns, Forall (fun x : Z * list Z => x.1 = 110 \/ x.1 = 116) (map said_name ns)) as Hns.
  { intros ns. apply Forall_fmap. apply Forall_true. intros n. by left. }
  unfold said_all. apply Forall_app. split; [done|]. induction (sections a) as [|s l IH]; cbn [map concat]; [constructor|].
  apply Forall_app. split; [constructor; [by right|apply Hns]|done].
Qed.

Lemma advertises_ok l a : map letter l = said_all a -> ok_numbers l -> Forall numbered_ok l.
Proof.
  intros Hl Hn. pose proof (said_letters a) as Ha. rewrite <- Hl in Ha. apply Forall_fmap in Ha. unfold ok_numbers in Hn. rewrite Forall_forall in *.
  intros e He. specialize (Ha e He). specialize (Hn e He). unfold numbered_ok. cbn in Ha. lia.
Qed.

(** * Finding the section of a transport *)

Lemma until_transport_skip m1 m2 : Forall (fun e => is_transport e = false) m1 -> until_transport (m1 ++ m2) = m1 ++ until_transport m2.
Proof. induction 1 as [|e m1 He _ IH]; [done|]. cbn [app until_transport]. by rewrite He, IH. Qed.

Lemma transport_section_skip m1 m2 tm : Forall (fun e => is_transport e && (StringToU32 e.2 16 0 =? tm) = false) m1 ->
  transport_section (m1 ++ m2) tm = transport_section m2 tm.
Proof. induction 1 as [|e m1 He _ IH]; [done|]. cbn [app transport_section]. by rewrite He. Qed.

Definition other (tm : Z) (l : list (Z * list (list Z))) : Prop := Forall (fun s => 0 <= s.1 < 65536 /\ s.1 <> tm) l.

Lemma said_not l a tm : map letter l = said_all a -> ok_numbers l -> other tm (sections a) ->
  Forall (fun e => is_transport e && (StringToU32 e.2 16 0 =? tm) = false) (map fld l).
Proof.
  intros Hl Hn Ho. apply Forall_fmap, Forall_forall. intros e He. unfold ok_numbers in Hn. rewrite Forall_forall in Hn. specialize (Hn e He).
  assert (letter e ∈ said_all a) as Hs by (rewrite <- Hl; by apply list_elem_of_fmap_2). cbn [compose].
  unfold said_all in Hs. apply elem_of_app in Hs as [Hs|Hs].
  - apply list_elem_of_fmap in Hs as (n & Hs & _). by destruct (name_field_kind e n Hs Hn) as [_ ->].
  - apply list_elem_of_In, in_concat in Hs as (x & Hx & Hs). apply in_map_iff in Hx as (s & <- & Hx). unfold other in Ho. rewrite Forall_forall in Ho.
    destruct (Ho s) as [Hm Hne]; [by apply list_elem_of_In|]. destruct Hs as [Hs|Hs].
    + symmetry in Hs. cbn [fld snd]. replace e.2 with (hex s.1) by (destruct e as [[? ?] ?]; by injection Hs). destruct (hex_text s.1 Hm) as [_ ->].
      rewrite (proj2 (Z.eqb_neq _ _) Hne). by rewrite andb_false_r.
    + apply in_map_iff in Hs as (n & Hs & _). by destruct (name_field_kind e n (eq_sym Hs) Hn) as [_ ->].
Qed.

Lemma first_section (l : list (Z * list (list Z))) tm : Forall (fun s => 0 <= s.1 < 65536) l ->
  other tm l \/ exists l1 ns l2, l = l1 ++ (tm, ns) :: l2 /\ other tm l1.
Proof.
  induction 1 as [|[tm' ns] l Hs _ IH]; [left; constructor|]. destruct (decide (tm' = tm)) as [->|Hne]; [right; by exists [], ns, l; split; [|constructor]|].
  destruct IH as [IH|(l1 & ns' & l2 & -> & IH)]; [left; by constructor|]. right. exists ((tm', ns) :: l1), ns', l2. split; [done|by constructor].
Qed.

Lemma names_of_other l l' tm : other tm l -> names_of (l ++ l') tm = names_of l' tm.
Proof. induction 1 as [|[tm' ns] l [_ Hne] _ IH]; [done|]. cbn [app names_of]. by rewrite (proj2 (Z.eqb_neq tm' tm) Hne). Qed.

Lemma remove_name_other l l' tm i : other tm l -> remove_name (l ++ l') tm i = l ++ remove_name l' tm i.
Proof. induction 1 as [|[tm' ns] l [_ Hne] _ IH]; [done|]. cbn [app remove_name]. by rewrite (proj2 (Z.eqb_neq tm' tm) Hne), IH. Qed.

(** A record with the section of a transport taken apart. *)
Lemma section_at l1 e ln l2 v a1 ns s2 tm : map letter l1 = said_all a1 -> letter e = (116, hex tm) -> map letter ln = map said_name ns ->
  map letter l2 = concat (map said s2) -> ok_numbers (l1 ++ e :: ln ++ l2) -> other tm (sections a1) -> 0 <= tm < 65536 ->
  exists rest, transport_section (record (l1 ++ e :: ln ++ l2) v) tm = Some ((fld e).1, map fld ln ++ rest) /\
    Forall (fun x => is_name x = false) rest /\ Forall (fun x => is_name x = true) (map fld ln).
Proof.
  intros H1 He Hln H2 Hn Ho Htm. apply Forall_app in Hn as [Hn1 Hn]. apply Forall_cons in Hn as [Hne Hn]. apply Forall_app in Hn as [Hnn Hn2].
  assert (Forall (fun e => is_name (fld e) = true /\ is_transport (fld e) = false) ln) as Hnames.
  { rewrite Forall_forall in Hnn |- *. intros x Hx. assert (letter x ∈ map said_name ns) as Hs by (rewrite <- Hln; by apply list_elem_of_fmap_2).
    apply list_elem_of_fmap in Hs as (n & Hs & _). apply (name_field_kind x n Hs). by apply Hnn. }
  exists (until_transport (map fld l2 ++ [(txtvers, v)])). split; [|split].
  - unfold record. rewrite map_app, <- app_assoc, transport_section_skip by by apply (said_not l1 a1 tm). cbn [map app transport_section].
    rewrite (transport_field e (hex tm) He Hne). replace (fld e).2 with (hex tm) by (destruct e as [[? ?] ?]; by injection He).
    destruct (hex_text tm Htm) as [_ ->]. rewrite Z.eqb_refl. cbn [andb]. do 2 f_equal.
    rewrite map_app, <- app_assoc. apply until_transport_skip, Forall_fmap. eapply Forall_impl; [exact Hnames|]. by intros ? [].
  - destruct s2 as [|s s2], l2 as [|e2 l2]; try discriminate H2.
    + constructor; [by vm_compute|constructor].
    + apply letter_cons in H2 as [He2 _]. apply Forall_cons in Hn2 as [Hn2 _]. cbn [map app until_transport]. by rewrite (transport_field e2 _ He2 Hn2).
  - apply Forall_fmap. eapply Forall_impl; [exact Hnames|]. by intros ? [].
Qed.

Lemma section_none l v a tm : map letter l = said_all a -> ok_numbers l -> other tm (sections a) -> transport_section (record l v) tm = None.
Proof.
  intros Hl Hn Ho. unfold record. rewrite transport_section_skip by by apply (said_not l a tm). by vm_compute.
Qed.

Lemma said_split l a s1 tm ns s2 : map letter l = said_all a -> sections a = s1 ++ (tm, ns) :: s2 ->
  exists l1 e ln l2, l = l1 ++ e :: ln ++ l2 /\ map letter l1 = said_all {| loose := loose a; sections := s1 |} /\ letter e = (116, hex tm) /\
    map letter ln = map said_name ns /\ map letter l2 = concat (map said s2).
Proof.
  unfold said_all. intros Hl Hs. rewrite Hs, map_app, concat_app, app_assoc in Hl. cbn [map concat said app fst snd] in Hl.
  apply map_eq_app in Hl as (l1 & l' & -> & H1 & Hl). destruct l' as [|e l']; [done|]. apply letter_cons in Hl as [He Hl].
  apply map_eq_app in Hl as (ln & l2 & -> & Hln & H2). by exists l1, e, ln, l2.
Qed.

(** * Asking for names *)

Lemma filter_true {A} (p : A -> bool) l : Forall (fun x => p x = true) l -> List.filter p l = l.
Proof. induction 1 as [|x l Hx _ IH]; [done|]. cbn [List.filter]. by rewrite Hx, IH. Qed.

Lemma filter_false {A} (p : A -> bool) l : Forall (fun x => p x = false) l -> List.filter p l = [].
Proof. induction 1 as [|x l Hx _ IH]; [done|]. cbn [List.filter]. by rewrite Hx. Qed.

Lemma ascending_length l : ascending l -> forall lo hi, lo < hi -> Forall (fun e => lo < e.1.2 < hi) l -> zlen l < hi - lo.
Proof.
  induction 1 as [|e l Hs IH Hlt]; intros lo hi Hb Hn; [cbn; lia|]. apply Forall_cons in Hn as [He Hn]. cbn [length].
  specialize (IH e.1.2 hi). rewrite Forall_forall in *. assert (zlen l < hi - e.1.2); [|lia]. apply IH; [lia|].
  intros x Hx. specialize (Hlt x Hx). specialize (Hn x Hx). lia.
Qed.

Lemma until_transport_length m : (length (until_transport m) <= length m)%nat.
Proof. induction m as [|e m IH]; cbn [until_transport length]; [lia|]. destruct (is_transport e); cbn [length]; lia. Qed.

Lemma names_in_length m tm : (length (names_in m tm) <= pred (length m))%nat.
Proof.
  unfold names_in. induction m as [|e m IH]; cbn [transport_section length pred]; [cbn; lia|]. destruct (is_transport e && _).
  - pose proof (List.filter_length_le is_name (until_transport m)). pose proof (until_transport_length m). lia.
  - lia.
Qed.

Lemma names_in_said t a tm : advertises t a -> map snd (names_in (m_fields t) tm) = names_of (sections a) tm.
Proof.
  intros [(l & v & Hf & Hl & Hs & Hn) Hu Hm]. rewrite Hf. unfold names_in.
  assert (ok_numbers l) as Hok by (eapply Forall_impl; [exact Hn|]; cbn; lia).
  destruct (first_section (sections a) tm Hm) as [Ho|(s1 & ns & s2 & Hsec & Ho)].
  - rewrite (section_none l v a tm Hl Hok Ho). by rewrite <- (app_nil_r (sections a)), names_of_other.
  - rewrite Hsec, names_of_other by done. cbn [names_of]. rewrite Z.eqb_refl.
    destruct (said_split l a s1 tm ns s2 Hl Hsec) as (l1 & e & ln & l2 & -> & H1 & He & Hln & H2).
    assert (0 <= tm < 65536) as Htm by (rewrite Hsec in Hm; apply Forall_app in Hm as [_ Hm]; by apply Forall_cons in Hm as [Hm _]).
    destruct (section_at l1 e ln l2 v _ ns s2 tm H1 He Hln H2 Hok Ho Htm) as (rest & -> & Hr & Hna).
    rewrite List.filter_app, (filter_true _ _ Hna), (filter_false _ _ Hr), app_nil_r, map_map. cbn [fld snd].
    clear - Hln. revert ns Hln. induction ln as [|x ln IH]; intros [|n ns] H; try discriminate H; [done|].
    apply letter_cons in H as [Hx H]. cbn [map]. rewrite (IH ns H). f_equal. destruct x as [[? ?] ?]. by injection Hx.
Qed.

(** * Adding fields *)

Lemma said_last a o : said_all (spec_op a o) = said_all a ++ match o with Transport tm => [(116, hex tm)] | Name n => [said_name n] | Remove _ _ => [] end
  \/ exists tm i, o = Remove tm i.
Proof.
  destruct o as [tm|n|tm i]; [left|left|right; by exists tm, i]; unfold said_all; cbn [spec_op loose sections].
  - by rewrite map_app, concat_app, app_assoc.
  - destruct (sections a) as [|s l]; cbn [loose sections map concat]; [by rewrite map_app, !app_nil_r|]. rewrite <- app_assoc. f_equal.
    revert s. induction l as [|s' l IH]; intros [tm ns]; cbn [add_to_last map concat]; [by rewrite !app_nil_r; unfold said; cbn [fst snd]; rewrite map_app|].
    rewrite <- app_assoc. f_equal. apply IH.
Qed.

Lemma added_masks l n : Forall (fun s => 0 <= s.1 < 65536) l -> Forall (fun s => 0 <= s.1 < 65536) (add_to_last l n).
Proof.
  induction 1 as [|[tm ns] l Hs Hl IH]; [constructor|]. destruct l as [|s l]; [by constructor; [|constructor]|]. by constructor.
Qed.

(** A new field has the next number and stands behind all others. *)
Lemma SetValue_adds t a c value : advertises t a -> 0 <= c <= 116 -> uniquifier t < 65535 ->
  exists t', Text_SetValue t [c] value false = Ok t' /\ uniquifier t' = uniquifier t + 1 /\
    forall a', said_all a' = said_all a ++ [(c, value)] -> Forall (fun s => 0 <= s.1 < 65536) (sections a') -> advertises t' a'.
Proof.
  intros [(l & v & Hf & Hl & Hs & Hn) Hu Hm] Hc Hlt. assert (ok_numbers l) as Hok by (eapply Forall_impl; [exact Hn|]; cbn; lia).
  unfold Text_SetValue. assert (negb (uniquifier t =? 0) && negb false = true) as -> by (by destruct (Z.eqb_spec (uniquifier t) 0); [lia|]).
  destruct (digits_spec (uniquifier t)) as (-> & _ & _); [lia|]. cbn [rbind m_fields SetUniqueCount]. rewrite Hf.
  set (e := (c, uniquifier t, value) : Numbered). change ([c] ++ lit "_" ++ digits (uniquifier t)) with (fld e).1. change value with e.2 at 1.
  rewrite (assign_record l v e (advertises_ok l a Hl Hok)) by (first [split; cbn; lia|eapply Forall_impl; [exact Hn|]; cbn; lia]).
  eexists. split; [reflexivity|]. cbn [uniquifier with_m_fields SetUniqueCount]. rewrite Z.mod_small by lia. split; [done|].
  intros a' Ha' Hm'. constructor; [|cbn [uniquifier with_m_fields SetUniqueCount]; lia|done].
  exists (l ++ [e]), v. cbn [m_fields uniquifier with_m_fields SetUniqueCount]. split; [done|]. split; [by rewrite map_app, Hl, Ha'|]. split.
  - apply StronglySorted_app_2; [|done|by constructor; [constructor|]]. intros x y Hx Hy. apply list_elem_of_singleton in Hy as ->. rewrite Forall_forall in Hn. cbn. by apply Hn.
  - apply Forall_app. split; [eapply Forall_impl; [exact Hn|]; cbn; lia|]. constructor; [cbn; lia|constructor].
Qed.

(** * Removing names *)

Lemma sublist_ok (P : Numbered -> Prop) l l' : l `sublist_of` l' -> Forall P l' -> Forall P l.
Proof. induction 1 as [|x l l' Hs IH|x l l' Hs IH]; intros H; [done| |]; apply Forall_cons in H as [H1 H2]; [constructor; [done|]|]; by apply IH. Qed.

Lemma ascending_sublist l l' : l `sublist_of` l' -> ascending l' -> ascending l.
Proof.
  induction 1 as [|x l l' Hs IH|x l l' Hs IH]; intros H; [done| |]; inversion_clear H as [|? ? H1 H2]; [|by apply IH].
  constructor; [by apply IH|by apply (sublist_ok _ l l')].
Qed.

Lemma remove_names_past ln rest : Forall (fun x => is_name x = true) (map fld ln) -> Forall (fun x => is_name x = false) rest ->
  forall t i k, i < 0 -> remove_names t (map fld ln ++ rest) i k = Ok (t, k + zlen ln).
Proof.
  intros Hn Hr. induction ln as [|e ln IH]; intros t i k Hi.
  - cbn [map app length]. replace (k + Z.of_nat 0) with k by lia. clear Hn. revert i Hi. induction Hr as [|x rest Hx _ IH]; intros i Hi; [done|].
    cbn [remove_names]. by rewrite Hx, IH.
  - inversion_clear Hn as [|? ? He Hn']. cbn [map app remove_names]. rewrite He, (proj2 (Z.eqb_neq i 0)) by lia.
    rewrite IH by (done || lia). do 2 f_equal. cbn [length]. lia.
Qed.

Lemma remove_names_said ln rest l2 v : Forall (fun x => is_name x = true) (map fld ln) -> Forall (fun x => is_name x = false) rest ->
  forall i t pre k, m_fields t = record (pre ++ ln ++ l2) v -> Forall numbered_ok (pre ++ ln ++ l2) -> ascending (pre ++ ln ++ l2) ->
  remove_names t (map fld ln ++ rest) (Z.of_nat i) k = Ok (with_m_fields t (record (pre ++ delete i ln ++ l2) v), k + zlen (delete i ln)).
Proof.
  intros Hn Hr. assert (forall t m, m_fields t = m -> with_m_fields t m = t) as Hw by (by intros [] m <-).
  induction ln as [|e ln IH]; intros i t pre k Hf Hok Hs.
  - cbn [map app]. change (delete i (@nil Numbered)) with (@nil Numbered). cbn [length app] in *. rewrite (Hw t _ Hf). replace (k + Z.of_nat 0) with k by lia.
    clear - Hr. induction Hr as [|x rest Hx _ IH]; [done|]. cbn [remove_names]. by rewrite Hx.
  - inversion_clear Hn as [|? ? He Hn']. cbn [map app remove_names]. rewrite He. destruct i as [|i].
    + cbn [Z.of_nat Z.eqb]. cbn [app] in Hf, Hok, Hs. unfold RemoveEntry. rewrite Hf, (erase_record pre e (ln ++ l2) v Hok Hs). cbn [rbind]. by rewrite remove_names_past by (done || lia).
    + rewrite (proj2 (Z.eqb_neq _ 0)) by lia. replace (Z.of_nat (S i) - 1) with (Z.of_nat i) by lia. change (e :: ln) with ([e] ++ ln) in *.
      rewrite <- app_assoc, app_assoc in Hf, Hok, Hs. rewrite (IH Hn' i t (pre ++ [e]) (k + 1) Hf Hok Hs).
      change (delete (S i) ([e] ++ ln)) with (e :: delete i ln). rewrite <- app_assoc. cbn [app length]. do 2 f_equal. lia.
Qed.

Lemma map_delete {A B} (f : A -> B) l i : map f (delete i l) = delete i (map f l).
Proof. revert i. induction l as [|x l IH]; intros [|i]; [done..|]. change (f x :: map f (delete i l) = f x :: delete i (map f l)). by rewrite IH. Qed.

(** Fewer fields say less. *)
Lemma advertises_fewer t l v l' a' : m_fields t = record l v -> Forall (fun e => 0 < e.1.2 < uniquifier t) l -> ascending l -> 0 < uniquifier t <= 65535 ->
  l' `sublist_of` l -> map letter l' = said_all a' -> Forall (fun s => 0 <= s.1 < 65536) (sections a') ->
  advertises (with_m_fields t (record l' v)) a'.
Proof.
  intros Hf Hn Hs Hu Hsub Hl' Hm'. constructor; [|done|done]. exists l', v. split; [done|]. split; [done|].
  split; [by apply (ascending_sublist l' l)|by apply (sublist_ok _ l' l)].
Qed.

Lemma said_remove a s1 tm ns s2 i : sections a = s1 ++ (tm, ns) :: s2 -> other tm s1 ->
  said_all (spec_op a (Remove tm i)) =
    said_all {| loose := loose a; sections := s1 |} ++ match delete i ns with [] => [] | ns' => (116, hex tm) :: map said_name ns' end ++ concat (map said s2).
Proof.
  intros Hsec Ho. unfold said_all. cbn [spec_op loose sections]. rewrite Hsec, remove_name_other by done. cbn [remove_name]. rewrite Z.eqb_refl.
  rewrite map_app, concat_app, <- app_assoc. f_equal. f_equal. by destruct (delete i ns).
Qed.

Lemma removed_masks l tm i : Forall (fun s => 0 <= s.1 < 65536) l -> Forall (fun s => 0 <= s.1 < 65536) (remove_name l tm i).
Proof.
  induction 1 as [|[tm' ns] l Hs Hl IH]; [constructor|]. cbn [remove_name]. destruct (Z.eqb_spec tm' tm) as [->|_]; [|by constructor].
  destruct (delete i ns); [done|by constructor].
Qed.

Lemma RemoveNameAt_said t a tm i : advertises t a ->
  exists t', RemoveNameAt t tm (Z.of_nat i) = Ok t' /\ uniquifier t' = uniquifier t /\ advertises t' (spec_op a (Remove tm i)).
Proof.
  intros Ha. pose proof Ha as [(l & v & Hf & Hl & Hs & Hn) Hu Hm]. assert (ok_numbers l) as Hok by (eapply Forall_impl; [exact Hn|]; cbn; lia).
  pose proof (advertises_ok l a Hl Hok) as Hnum. pose proof (removed_masks _ tm i Hm) as Hm'. unfold RemoveNameAt. rewrite Hf.
  destruct (first_section (sections a) tm Hm) as [Ho|(s1 & ns & s2 & Hsec & Ho)].
  - rewrite (section_none l v a tm Hl Hok Ho). exists t. split; [done|]. split; [done|]. cbn [spec_op].
    rewrite <- (app_nil_r (sections a)), remove_name_other by done. cbn [remove_name]. rewrite app_nil_r. by destruct a.
  - pose proof (said_remove a s1 tm ns s2 i Hsec Ho) as Hsaid.
    destruct (said_split l a s1 tm ns s2 Hl Hsec) as (l1 & e & ln & l2 & -> & H1 & He & Hln & H2).
    assert (0 <= tm < 65536) as Htm by (rewrite Hsec in Hm; apply Forall_app in Hm as [_ Hm]; by apply Forall_cons in Hm as [Hm _]).
    destruct (section_at l1 e ln l2 v _ ns s2 tm H1 He Hln H2 Hok Ho Htm) as (rest & -> & Hr & Hna).
    assert (map letter (delete i ln) = map said_name (delete i ns)) as Hdel by (by rewrite !map_delete, Hln).
    change (l1 ++ e :: ln ++ l2) with (l1 ++ [e] ++ ln ++ l2) in *. rewrite app_assoc in Hf, Hnum, Hs, Hn.
    rewrite (remove_names_said ln rest l2 v Hna Hr i t (l1 ++ [e]) 0 Hf Hnum Hs). cbn [rbind].
    assert ((l1 ++ [e]) ++ delete i ln ++ l2 `sublist_of` (l1 ++ [e]) ++ ln ++ l2) as Hsub.
    { apply sublist_app; [done|]. apply sublist_app; [apply sublist_delete|done]. }
    destruct (delete i ns) as [|n ns'], (delete i ln) as [|x ln']; try discriminate Hdel.
    + cbn [length Z.of_nat Z.add Z.eqb app] in Hsub |- *. unfold RemoveEntry. cbn [m_fields with_m_fields]. rewrite <- app_assoc. cbn [app].
      rewrite erase_record; [|rewrite <- app_assoc in Hsub; by apply (sublist_ok _ _ _ Hsub)|rewrite <- app_assoc in Hsub; by apply (ascending_sublist _ _ Hsub)].
      cbn [rbind]. eexists. split; [reflexivity|]. split; [done|]. apply (advertises_fewer t _ v (l1 ++ l2) _ Hf Hn Hs Hu); [|by rewrite map_app, H1, H2, Hsaid|done].
      etrans; [|exact Hsub]. rewrite <- app_assoc. apply sublist_app; [done|]. by apply sublist_cons.
    + rewrite (proj2 (Z.eqb_neq _ 0)) by (cbn [length]; lia). eexists. split; [reflexivity|]. split; [done|].
      apply (advertises_fewer t _ v _ _ Hf Hn Hs Hu Hsub); [|done].
      rewrite !map_app, H1, H2, Hdel, Hsaid, <- app_assoc. cbn [map]. by rewrite He.
Qed.

(** * The contract *)

Lemma new_advertises version uniq : 0 <= version < 65536 -> 0 < uniq <= 65535 ->
  exists t, new_Text version uniq = Ok t /\ uniquifier t = uniq /\ advertises t no_names.
Proof.
  intros Hv Hq. unfold new_Text. destruct (digits_spec version) as (-> & _ & _); [lia|]. cbn [rbind]. unfold map_set, with_order.
  rewrite orderly_plain by (constructor; [by left|constructor]). cbn [rbind assign]. eexists. split; [reflexivity|]. split; [done|].
  constructor; [|cbn; lia|constructor]. exists [], (digits version). split; [done|]. split; [done|]. split; constructor.
Qed.

Lemma run_op_said t a o : advertises t a -> op_ok o -> uniquifier t < 65535 ->
  exists t', run_op t o = Ok t' /\ uniquifier t' <= uniquifier t + 1 /\ advertises t' (spec_op a o).
Proof.
  intros Ha Ho Hu. destruct (said_last a o) as [Hlast|(tm & i & ->)].
  2: { destruct (RemoveNameAt_said t a tm i Ha) as (t' & Ht & Hu' & Ha'). exists t'. split; [exact Ht|]. split; [lia|done]. }
  destruct o as [tm|n|tm i]; cbn [run_op op_ok] in *.
  - unfold SetTransport. destruct (hex_text tm Ho) as [-> _]. cbn [rbind]. change (lit "t") with [116].
    destruct (SetValue_adds t a 116 (hex tm) Ha) as (t' & -> & Hu' & Ha'); [lia..|]. exists t'. split; [done|]. split; [lia|]. apply Ha'; [done|].
    apply Forall_app. split; [apply (adv_masks t a Ha)|by constructor].
  - unfold AddName. change (lit "n") with [110]. destruct (SetValue_adds t a 110 n Ha) as (t' & -> & Hu' & Ha'); [lia..|].
    exists t'. split; [done|]. split; [lia|]. apply Ha'; [done|]. pose proof (added_masks _ n (adv_masks t a Ha)) as Hm. cbn [spec_op]. by destruct (sections a).
  - destruct (RemoveNameAt_said t a tm i Ha) as (t' & Ht & Hu' & Ha'). exists t'. split; [exact Ht|]. split; [lia|done].
Qed.

Lemma run_ops_said os : Forall op_ok os -> forall t a, advertises t a -> uniquifier t + zlen os <= 65535 ->
  exists t', run_ops t os = Ok t' /\ advertises t' (fold_left spec_op os a).
Proof.
  induction 1 as [|o os Ho _ IH]; intros t a Ha Hu; [by exists t|]. cbn [length] in Hu.
  destruct (run_op_said t a o Ha Ho) as (t1 & Ht & Hu1 & Ha1); [lia|]. cbn [run_ops]. rewrite Ht. cbn [rbind fold_left]. apply IH; [done|lia].
Qed.

(** C19: An advertisement keeps lists of names behind transports. Take a new record that
    numbers its keys, from [uniq] on, which is not zero. Whatever transports and names are
    added and removed, in any order, as long as the sixteen bits of the number do not wrap
    around, the calls succeed, and for each transport mask GetNumNames and GetNameAt count
    and give the names of the first section with this mask, in the order in which they were
    added and without those removed; a section goes with its last name. *)
Theorem Advertise_refines version uniq os : 0 <= version < 65536 -> Forall op_ok os -> 0 < uniq -> uniq + zlen os <= 65535 ->
  exists t0 t, new_Text version uniq = Ok t0 /\ run_ops t0 os = Ok t /\
    forall tm, let names := names_of (sections (fold_left spec_op os no_names)) tm in
      GetNumNames t tm = zlen names /\ forall i, GetNameAt t tm (Z.of_nat i) = default [] (names !! i).
Proof.
  intros Hv Hos Hq Hlen. destruct (new_advertises version uniq Hv) as (t0 & H0 & Hu & Ha0); [lia|]. destruct (run_ops_said os Hos t0 no_names Ha0) as (t & Ht & Ha); [lia|].
  exists t0, t. split; [done|]. split; [done|]. intros tm names. subst names. rewrite <- (names_in_said t _ tm Ha).
  split.
  - unfold GetNumNames. rewrite length_map. apply Z.mod_small. destruct Ha as [(l & v & Hf & _ & Hs & Hn) Hu' _].
    split; [lia|]. rewrite Hf. pose proof (ascending_length l Hs 0 _ (proj1 Hu') Hn) as Hl.
    pose proof (names_in_length (record l v) tm) as Hle. unfold record in Hle at 2. rewrite length_app, length_map in Hle. cbn [length] in Hle. lia.
  - intros i. unfold GetNameAt, nth_at. rewrite (proj2 (Z.ltb_ge _ 0)) by lia. rewrite Nat2Z.id, list_lookup_fmap. by destruct (names_in _ _ !! i).
Qed.

(** Two transports; the second name of the first one and the only name of the other are removed. *)
Lemma Advertise_refines_witness : exists t0 t,
  new_Text 0 1 = Ok t0 /\
  run_ops t0 [Transport 4; Name [97]; Name [98]; Name [99]; Transport 256; Name [100]; Remove 4 1; Remove 256 0] = Ok t /\
  GetNumNames t 4 = 2 /\ GetNameAt t 4 1 = [99] /\ GetNumNames t 256 = 0.
Proof.
  destruct (Advertise_refines 0 1 [Transport 4; Name [97]; Name [98]; Name [99]; Transport 256; Name [100]; Remove 4 1; Remove 256 0]) as (t0 & t & H0 & Ht & H).
  - lia.
  - repeat constructor; cbn; lia.
  - lia.
  - cbn. lia.
  - exists t0, t. split; [exact H0|]. split; [exact Ht|]. destruct (H 4) as [H1 H2]. destruct (H 256) as [H3 _].
    split; [exact H1|]. split; [exact (H2 1%nat)|exact H3].
Defined.
